(* ===== verification/_CoqProject ===== *)
-Q . S2P
Prelude.v
Domain.v
OperationNames.v
EventNames.v
OperationTable.v
AuditTable.v
Registry.v
Utf8.v
FreeText.v
AuditEvent.v
AuditErrors.v
Resolver.v
Authorize.v
AuthorizeSpec.v
Refusal.v
Samples.v
Guarantees.v
Boundary.v
Tx.v
DenialRecord.v
TxSpec.v
TxClaims.v
GoStrings.v
Dotenv.v
Parameters.v
Coordination.v
CoordinationSpec.v
Scheduler.v
SchedulerSpec.v
Admission.v
AdmissionSpec.v
Digraph.v
SchemaProfile.v
SchemaProfileSpec.v
Schema.v
SchemaSpec.v
EvalSlots.v
Envelope.v
KeyTables.v
Keyring.v
KeyLifecycle.v
KeyLifecycleSpec.v
KeyLifecycleSteps.v
KeyLifecycleClaims.v
Definitions.v
DefinitionsSpec.v
DefinitionsExport.v
DefinitionsStore.v
DefinitionsApply.v
DefinitionsSteps.v
DefinitionsMatch.v
DefinitionsConverge.v
DefinitionsSettle.v
DefinitionsRealize.v
DefinitionsClaims.v
DefinitionsService.v
DefinitionsProgress.v
DefinitionsRun.v
Delivery.v
PublishStore.v
GroupIndex.v
Materialize.v
Selection.v
Approvals.v
Publish.v
Voting.v
PublishAccounting.v
PublishReads.v
PublishSteps.v
PublishInvariant.v
PublishMaterialize.v
PublishSelect.v
PublishEffect.v
PublishStage.v
PublishGate.v
PublishCommit.v
PublishClaims.v
PublishRun.v
Retention.v
RetentionSpec.v
