(* ===== verification/Prelude.v ===== *)
(** * Hikyo: a verification development

    Hikyo is a self-hosted control plane for secrets and configuration,
    written in Go. A request authenticates as a principal, the authorization
    chokepoint resolves the objects it names and mints a proof, and the store
    performs exactly the operations that proof licenses, inside a retried
    transaction that also makes every refusal durable in the audit trail.
    Around that core stand the formats and checks values pass through (dotenv,
    parameters, key declarations and their validation), the definition documents
    a project is managed by, the drafts, approvals and revisions its values go
    through, the key hierarchy they are sealed under, the limits in front of
    expensive work, and the coordination of several nodes over one database.

    This library translates those parts of the program into executable
    definitions, one file per component, and proves what makes them correct.
    A Go error is a tree searched by [errors.Is]; a fallible function returns
    [result] (a value, an error or a panic); code that changes state is a
    function of the state, in the monad [ST] where errors and state mix; code
    that interleaves is a step relation. Strings that are only compared are
    [string]; strings whose bytes are inspected are lists of 8-bit characters
    ([Utf8.v]). Integers are [Z], with the machine width written out where the
    code depends on it.

    ** The files

    The chokepoint.
    - [Domain.v]: [internal/domain] (levels, capabilities, scopes, grants,
      templates, machine classes).
    - [OperationNames.v], [OperationTable.v], [Registry.v]: the operation
      policy table of [internal/authz/registry.go], row by row, its validation
      and its lookups.
    - [EventNames.v], [AuditTable.v], [AuditEvent.v], [AuditErrors.v]: the
      audit catalogue of [internal/audit], event validation, storage rows.
    - [Utf8.v], [FreeText.v]: UTF-8 and the free-text sanitizer.
    - [Resolver.v]: the reads of [internal/store/authn] that mint proofs.
    - [Authorize.v]: [internal/authz] ([Authorize], its conjuncts, denial
      capture, the probes, system authorities). [AuthorizeSpec.v] and
      [Refusal.v] carry its lemmas, [Samples.v] a concrete world,
      [Guarantees.v] the theorems.
    - [Boundary.v]: [verify.go], the checks of each store method on its proof,
      and what pairing them with the chokepoint guarantees.

    Transactions.
    - [Tx.v]: [internal/store/tx/tx.go], the retry loop, write and read
      attempts, the settlement of captured denials, over a class of engines.
      [TxSpec.v] and [DenialRecord.v] carry the lemmas, [TxClaims.v] the
      theorems and their composition with [Authorize].

    Values.
    - [GoStrings.v], [Dotenv.v]: [internal/dotenv], parser and printer.
    - [Parameters.v]: [internal/parameters], templates and the pattern cache.
    - [Digraph.v], [SchemaProfile.v], [SchemaProfileSpec.v]: the JSON Schema
      profile of [internal/schema/jsonschema.go].
    - [Schema.v], [SchemaSpec.v]: declarations, presence rules and the
      validation engine of [internal/schema]; [EvalSlots.v]: the concurrency
      bound of [runWithDeadline].

    Keys.
    - [Envelope.v]: the ciphertext envelope of [internal/crypto] over a class of
      AEADs.
    - [KeyTables.v]: the keyring tables, their statements and the key mutations
      of [internal/store/keys_mutations.go].
    - [Keyring.v]: [internal/crypto/keyring.go], the unwrapped hierarchy of a
      process: loading, minting, sealers, rotations.
    - [KeyLifecycle.v]: writers, rotations, re-encryption, retirement and
      crashes as a step relation over the tables and the stored ciphertexts.
      [KeyLifecycleSpec.v] states its invariant, [KeyLifecycleSteps.v] what
      each mutation does to it, [KeyLifecycleClaims.v] the theorems and a
      concrete run.

    Definitions.
    - [Definitions.v]: [internal/definitions], the diff engine of definition
      documents: matching entries to identities, the resolution, drift, the
      canonical form. [DefinitionsSpec.v] says when a state realizes a document,
      [DefinitionsExport.v] that an export is realized by its own state.
    - [DefinitionsStore.v]: the catalogue tables of a project and the repository
      methods the flow calls, with their constraints.
    - [DefinitionsApply.v]: [internal/service/definitions*.go], planning, pins,
      guards, the executor, apply; [DefinitionsService.v]: the other handlers
      and the life of a plan.
    - [DefinitionsSteps.v], [DefinitionsMatch.v],
      [DefinitionsConverge.v], [DefinitionsSettle.v], [DefinitionsRealize.v]:
      what each executor loop does to the tables, what matching guarantees, and
      how the two give a final state that realizes the document.
      [DefinitionsClaims.v] and [DefinitionsProgress.v] hold the theorems about
      apply, [DefinitionsRun.v] a concrete project.

    Publishing.
    - [PublishStore.v]: the value cells, drafts, revisions, lineage and approval
      rows of one project, with the repository methods and constraints of
      [internal/store]. [GroupIndex.v]: the key-group index and the validation
      of a resolved state. [Materialize.v]: the materialization primitive of
      [internal/service/publish.go] and the schema fan-out, over the class
      [FieldSealer] of what it needs of the crypto component, which a keyring
      sealer provides. [Selection.v]:
      version resolution, key-group closure, freshness, the preview token.
    - [Approvals.v], [Voting.v]: [internal/service/approvals.go], the gate a
      publish passes, policies, votes, expiry. [Publish.v]: the handlers of
      [values.go], [publish.go] and [rollback.go] that save, publish and restore.
    - [PublishAccounting.v]: the storage accounting of a fan-out.
      [PublishReads.v], [PublishSteps.v], [PublishInvariant.v],
      [PublishMaterialize.v], [PublishSelect.v], [PublishEffect.v],
      [PublishStage.v], [PublishGate.v], [PublishCommit.v]: the invariant of the
      tables, what each operation does to them, and all of them as one step
      relation. [PublishClaims.v]: the theorems; [PublishRun.v]: a
      project.
    - [Delivery.v]: [internal/delivery], the encodings of the fetch path: the
      manifest a change token covers, the cursor tuple, the import occurrence,
      and the loader-control rule.
    - [Retention.v]: [internal/service/retention.go] and [pins.go], the payload
      policies of organizations and projects, the sweep over the whole instance,
      and revision pins, each project holding the tables of [PublishStore.v].
      [RetentionSpec.v]: its invariant, steps, theorems and an instance.

    Limits and clusters.
    - [Admission.v], [AdmissionSpec.v]: [internal/admission].
    - [Coordination.v], [CoordinationSpec.v]: [internal/store/coordination*.go].
    - [Scheduler.v], [SchedulerSpec.v]: the leadership loop of
      [internal/app/scheduler.go] over the coordination database.

    ** What the theorems show

    - A proof is minted exactly when the caller is entitled, an unauthorized
      object answers as a nonexistent one, every uniform refusal is captured
      and recorded, machine callers and self-configuration stay confined
      ([Guarantees.v]); the store performs no call beyond the proof, and only
      inside the attempt that minted it ([Boundary.v], [TxClaims.v]).
    - A write that succeeds, its closure leaving no record of its own, is applied
      exactly once, refusals are durable before they are answered,
      reads only append denials; a committed closure
      whose records cannot be flushed is run again, on top of its own effects
      ([TxClaims.v]).
    - The operation registry accepts exactly the well-formed tables, audit
      text is sanitized to a fixed point ([Registry.v], [FreeText.v]).
    - Printed dotenv documents and templates read back; declared templates
      resolve within their bounds ([Dotenv.v], [Parameters.v]).
    - A verdict accepts exactly the values a declaration means, lists the failures
      found in order up to its caps (or a cut of the first), and is independent of instance-derived text for secret keys; presence rules
      are accepted exactly when satisfiable; admitted JSON Schemas are acyclic
      and within the evaluation budget; evaluation concurrency is bounded
      ([SchemaSpec.v], [SchemaProfileSpec.v], [EvalSlots.v]).
    - A record opens exactly in the context it was sealed for ([Envelope.v]).
      Whatever rotations, crashes and re-encryptions interleave, the hierarchy
      boots and every ciphertext reads back, a re-encrypted record opening in its
      own context to what the old one opened to, provided token and scanning
      rotations commit under the active master; the code does not check that,
      and a run of it loses the hierarchy ([KeyLifecycleClaims.v]).
    - Applying a plan converges to its document, deletes nothing without
      permission and no environment that holds values, never declassifies a
      secret, and spends the plan at the revision it pins; a fresh plan is not
      stale and reads back as it was shown; an export is equal to its own state;
      swapping and rotating names never collides ([DefinitionsClaims.v],
      [DefinitionsService.v], [DefinitionsExport.v], [DefinitionsProgress.v]).
    - A publish commits exactly the drafts it names with the rest of their key
      groups, to a valid state, in one new revision per environment; a draft
      replaces only the row it was saved against, whatever happened in between;
      of the operations of the step relation, only an approved publish of the
      reviewed change moves a cell of a covered environment; revisions, resolved requests and votes are immutable; restoring a
      revision and publishing the result delivers that revision again
      ([PublishClaims.v]); closure terminates with the right verdict, and the
      fan-out's running storage total is exact ([PublishAccounting.v]).
    - Two deliveries have one manifest exactly when they have the same rows, two
      cursors one encoding exactly when every component of the tuple agrees
      ([Delivery.v]). A sweep ends, collects every payload past both bounds of its
      policy that nothing holds, and nothing else; a pinned revision survives
      until its pin expires; a release reports collection-eligible exactly when a
      sweep would take the snapshot if no self-configuration slot held it; policies, pins and sweeps in any order keep
      overrides under their cap and every project's publishing invariant
      ([RetentionSpec.v]).
    - Verification memory and tracked state are bounded, windows are exact, the
      shared and the local backoff curves agree ([AdmissionSpec.v]).
    - The writes of singleton jobs are ordered by fenced terms, and an expired
      lease is taken over ([SchedulerSpec.v]); MCP admission keeps its rate and
      its capacity ([CoordinationSpec.v]).

    ** Bounds and fuel

    Structural recursion is used wherever the code's loop is structural. The
    template scanner runs on one unit more than the length of its input (each
    turn consumes a byte); the graph searches on one unit more than the number
    of nodes (no simple path is longer); the verdict cutter on one unit more
    than the text it may cut; the search for a reserved name on one unit more
    than the names in use; key-group closure on one pass more than the caller
    has drafts (a pass that is not the last takes a draft not taken before);
    the sweep on one chunk more than there are payloads (a chunk that is not the
    last collects a hundred); varints on nine continuation bytes, enough for
    64 bits;
    the retry loop has the four attempts of the code.
    That the fuel is never used up is part of the theorems about each.

    ** Not modelled

    Panics inside a transaction closure, and other writers between the attempts
    of one transaction; SHA-256, hex and AEAD primitives (the AEAD is ideal:
    what it seals opens under nothing else); the zeroing of key buffers, derived
    keys, and keyrings of several nodes over one hierarchy; the RE2, JSON, URL
    and JSON Schema libraries (parameters of the definitions that call them);
    the SQLite dialect of the coordination statements, the self-configuration
    queries behind the topology assignment, and the two other writers of the
    lease rows (the topology fence of self-configuration and the maintenance
    bump of an upgrade, which only raise the fence); the scheduler's jobs; clock
    readings of concurrent admissions that reach the windows out of order (the
    code reads the clock before it takes the lock); parsing and canonical
    encoding of stored declarations and of definition documents (a stored plan
    holds the parsed bundle, and the declaration codec is a class with one law,
    that parsing a canonical encoding gives back the declaration); the secret
    scanner, the publisher and the rate budget behind a definitions apply (the
    publisher is a parameter that may not touch the catalogue or the plans); the
    operations that write cells besides the editor, publishes, restores and
    fan-outs (clearing the cells of a deleted key or environment, import, copy
    and clone), which are not steps of the publishing relation; other
    transactions between the chunks of one sweep; the self-configuration
    project's own publish checks, the pruning of the audit trail, the SQLite
    dialect of the retention statements (it compares instants as Julian days in
    floating point), the fetch handler of [internal/service/delivery.go], and
    the bulk, copy, clone and read handlers of [values.go]. A caller's authority
    is constant within one operation. The HTTP surface, the command line, the
    adapters, the Kubernetes operator, the importers, the identity protocols and
    the self-update machinery are input, output and third-party protocols around
    the modelled core. The fetch handler, disclosure channels, dial-time network
    policy and the SCIM protocol are the components closest to what is modelled. *)

From stdpp Require Export base gmap strings list.
From Stdlib Require Export ZArith.

#[global] Set Default Goal Selector "!".

(** ** Go errors

    A Go [error] value is a tree: a package-level sentinel compared by
    identity, a leaf made by [errors.New] or a format without the wrap verb, a
    node wrapping one error, a node joining several, or a database driver's
    typed error that [errors.As] looks for. *)
Inductive error :=
  | ESentinel (name : string)
  | ENew (msg : string)
  | EWrap (msg : string) (inner : error)
  | EJoin (errs : list error)
  | EPg (code : string)
  | ESqlite (code : Z).

(** [errors.Is]: the target is found anywhere in the unwrap tree. *)
Fixpoint errors_Is (e : error) (target : string) : bool :=
  match e with
  | ESentinel n => String.eqb n target
  | EWrap _ inner => errors_Is inner target
  | EJoin es => existsb (fun e' => errors_Is e' target) es
  | ENew _ | EPg _ | ESqlite _ => false
  end.

(** [errors.As] for the two driver error types: the first one found in a
    depth-first walk of the tree. *)
Fixpoint first_some {A B} (f : A -> option B) (l : list A) : option B :=
  match l with
  | [] => None
  | x :: l' => match f x with Some y => Some y | None => first_some f l' end
  end.

Fixpoint errors_AsPg (e : error) : option string :=
  match e with
  | EPg c => Some c
  | EWrap _ inner => errors_AsPg inner
  | EJoin es => first_some errors_AsPg es
  | ESentinel _ | ENew _ | ESqlite _ => None
  end.

Fixpoint errors_AsSqlite (e : error) : option Z :=
  match e with
  | ESqlite c => Some c
  | EWrap _ inner => errors_AsSqlite inner
  | EJoin es => first_some errors_AsSqlite es
  | ESentinel _ | ENew _ | EPg _ => None
  end.

(** ** Results

    The outcome of a Go function returning [(T, error)]: a value, an error, or
    a panic that no caller recovers. *)
Inductive result (A : Type) :=
  | Ok (a : A)
  | Err (e : error)
  | Panic (msg : string).
Arguments Ok {A} a.
Arguments Err {A} e.
Arguments Panic {A} msg.

#[export] Instance result_ret : MRet result := fun A a => Ok a.
#[export] Instance result_bind : MBind result := fun A B f m =>
  match m with
  | Ok a => f a
  | Err e => Err e
  | Panic s => Panic s
  end.

Definition is_ok {A} (r : result A) : bool :=
  match r with Ok _ => true | _ => false end.

Definition is_panic {A} (r : result A) : bool :=
  match r with Panic _ => true | _ => false end.

Lemma bind_Ok {A B} (m : result A) (f : A -> result B) (b : B) :
  (m ≫= f) = Ok b <-> exists a, m = Ok a /\ f a = Ok b.
Proof. destruct m; cbn; naive_solver. Qed.

Lemma bind_no_panic {A B} (m : result A) (f : A -> result B) :
  is_panic m = false -> (forall a, m = Ok a -> is_panic (f a) = false) ->
  is_panic (m ≫= f) = false.
Proof. destruct m; cbn; naive_solver. Qed.

(** ** The scope, hint databases and tactics of the development *)
Declare Scope hikyo_scope.
Delimit Scope hikyo_scope with hikyo.
Notation "s =s t" := (String.eqb s t) (at level 70) : hikyo_scope.
Notation "s <>s t" := (negb (String.eqb s t)) (at level 70) : hikyo_scope.
Open Scope hikyo_scope.

Create HintDb hikyo discriminated.
#[export] Hint Constants Opaque : hikyo.
#[export] Hint Variables Opaque : hikyo.

(** [solve_string_eq] turns boolean string tests in the context into equations. *)
Ltac string_eqs :=
  repeat match goal with
  | H : (?s =s ?t) = true |- _ => apply String.eqb_eq in H
  | H : (?s =s ?t) = false |- _ => apply String.eqb_neq in H
  | H : negb ?b = true |- _ => apply negb_true_iff in H
  | H : negb ?b = false |- _ => apply negb_false_iff in H
  end.

(** [bools] splits boolean conjunctions and disjunctions in hypotheses. *)
Ltac bools :=
  repeat match goal with
  | H : (_ && _)%bool = true |- _ => apply andb_prop in H as [? ?]
  | H : (_ || _)%bool = false |- _ => apply orb_false_elim in H as [? ?]
  | H : negb _ = true |- _ => apply negb_true_iff in H
  | H : negb _ = false |- _ => apply negb_false_iff in H
  end; string_eqs.

(** [split_ifs in H] case-splits every [if] and [match] scrutinee of [H],
    closing the branches the constructors of [H] refute. *)
Ltac split_ifs_in H :=
  repeat match type of H with
  | context [if ?b then _ else _] => destruct b eqn:?; try discriminate H
  | context [match ?x with _ => _ end] => destruct x eqn:?; try discriminate H
  end.
Tactic Notation "split_ifs" "in" hyp(H) := split_ifs_in H.

(** ** Generic lemmas *)

Lemma forallb_In {A} (f : A -> bool) (l : list A) (x : A) :
  forallb f l = true -> In x l -> f x = true.
Proof. rewrite forallb_forall. auto. Qed.

Lemma existsb_false {A} (f : A -> bool) (l : list A) (x : A) :
  existsb f l = false -> In x l -> f x = false.
Proof.
  intros H Hin. destruct (f x) eqn:E; [|done].
  rewrite <- H. symmetry. apply existsb_exists. eauto.
Qed.

Lemma NoDup_map_inj {A B} (f : A -> B) l x y : NoDup (map f l) -> In x l -> In y l -> f x = f y -> x = y.
Proof.
  induction l as [|z l IH]; [done|]. cbn [map]. intros [Hz Hn]%NoDup_cons. rewrite list_elem_of_In in Hz.
  intros [<-|Hx] [<-|Hy] He; [done| | |by apply IH].
  - destruct Hz. rewrite He. by apply in_map.
  - destruct Hz. rewrite <- He. by apply in_map.
Qed.

Lemma map_snoc {A B} (f : A -> B) l x : map f (l ++ [x]) = map f l ++ [f x].
Proof. by rewrite map_app. Qed.

Lemma NoDup_snoc {A B} (f : A -> B) l x : NoDup (map f l) -> (forall y, In y l -> f y <> f x) -> NoDup (map f (l ++ [x])).
Proof.
  intros Hn Hx. rewrite map_snoc. apply NoDup_app. split_and!; [done| |apply NoDup_singleton].
  intros b Hb He. apply list_elem_of_singleton in He as ->. apply list_elem_of_In, in_map_iff in Hb as (y & Hy & Hin). by apply (Hx y Hin).
Qed.

Lemma NoDup_map_filter {A B} (f : A -> B) (g h : A -> bool) l : NoDup (map f (List.filter g l)) ->
  NoDup (map f (List.filter (fun x => g x && h x) l)).
Proof.
  induction l as [|x l IH]; [done|]. cbn [List.filter]. destruct (g x) eqn:Hg; cbn [andb]; [|done].
  cbn [map]. intros [Hx Hn]%NoDup_cons. destruct (h x); [|by apply IH]. cbn [map]. apply NoDup_cons. split; [|by apply IH].
  intros Hin. apply Hx. apply list_elem_of_In, in_map_iff in Hin as (y & Hy & [Hy1 [Hy2 _]%andb_prop]%filter_In).
  apply list_elem_of_In, in_map_iff. exists y. split; [done|]. by apply filter_In.
Qed.

Lemma Forall2_In {A B} (R : A -> B -> Prop) l l' : Forall2 R l l' ->
  (forall x, In x l -> exists y, In y l' /\ R x y) /\ (forall y, In y l' -> exists x, In x l /\ R x y).
Proof.
  induction 1 as [|x y l l' Hr Hl [IH1 IH2]]; [done|]. split.
  - intros x' [<-|Hx]; [exists y; split; [by left|done]|]. destruct (IH1 _ Hx) as (y' & ? & ?). exists y'. split; [by right|done].
  - intros y' [<-|Hy]; [exists x; split; [by left|done]|]. destruct (IH2 _ Hy) as (x' & ? & ?). exists x'. split; [by right|done].
Qed.

(** Slices of strings: [slices.Contains]. *)
Definition contains (l : list string) (s : string) : bool := existsb (String.eqb s) l.

Lemma contains_In l s : contains l s = true <-> In s l.
Proof.
  unfold contains. rewrite existsb_exists. split.
  - intros (y & ? & H). string_eqs. by subst.
  - intros. exists s. split; [done|]. by apply String.eqb_refl.
Qed.

Lemma contains_not_In l s : contains l s = false <-> ~ In s l.
Proof. rewrite <- contains_In. destruct (contains l s); naive_solver. Qed.

(** Duplicate check with a running map, as the Go code does with a [seen] map. *)
Fixpoint dup_free (seen : gmap string unit) (l : list string) : bool :=
  match l with
  | [] => true
  | x :: l' =>
      match seen !! x with
      | Some _ => false
      | None => dup_free (<[x := ()]> seen) l'
      end
  end.

Lemma dup_free_spec l : forall seen : gmap string unit,
  dup_free seen l = true <-> NoDup l /\ (forall x, x ∈ l -> seen !! x = None).
Proof.
  induction l as [|x l IH]; intros seen; cbn.
  - split; [|done]. intros _. split; [constructor|]. intros ? H. by apply elem_of_nil in H.
  - rewrite NoDup_cons. destruct (seen !! x) eqn:E.
    + split; [done|]. intros [_ Hs]. specialize (Hs x (list_elem_of_here _ _)). congruence.
    + rewrite IH. setoid_rewrite lookup_insert_None. split.
      * intros (Hnd & Hs). repeat split; [|done|].
        -- intros Hin. by destruct (Hs x Hin).
        -- intros y [->|Hy]%elem_of_cons; [done|]. by apply Hs.
      * intros ((Hx & Hnd) & Hs). split; [done|]. intros y Hy. split.
        -- apply Hs. by right.
        -- intros ->. done.
Qed.

Lemma dup_free_NoDup l : dup_free ∅ l = true -> NoDup l.
Proof. intros H. by apply dup_free_spec in H as [? _]. Qed.

(** A Go map with boolean values: a missing key reads as [false]. *)
Definition flag (m : gmap string bool) (k : string) : bool := default false (m !! k).

(** The map literal whose every entry is [true]. *)
Definition licensed (l : list string) : gmap string bool :=
  list_to_map (map (fun k => (k, true)) l).

Lemma licensed_lookup l k : licensed l !! k = if contains l k then Some true else None.
Proof.
  unfold licensed. induction l as [|x l IH]; [done|]. cbn.
  rewrite lookup_insert. unfold contains in *. cbn.
  destruct (String.eqb_spec k x) as [->|Hne]; cbn.
  - by rewrite decide_True.
  - rewrite decide_False by congruence. apply IH.
Qed.

Lemma flag_licensed l k : flag (licensed l) k = contains l k.
Proof. unfold flag. rewrite licensed_lookup. by destruct (contains l k). Qed.

(** The value of a result, or a default. *)
Definition from_ok {A} (d : A) (r : result A) : A :=
  match r with Ok a => a | Err _ | Panic _ => d end.

(** ** State and errors

    A Go method with a mutable receiver: the outcome and the state it leaves,
    which an error or a panic does not undo. *)
Definition ST (S A : Type) : Type := S -> result A * S.

#[export] Instance st_ret {S} : MRet (ST S) := fun A a s => (Ok a, s).
#[export] Instance st_bind {S} : MBind (ST S) := fun A B f m s =>
  match m s with
  | (Ok a, s') => f a s'
  | (Err e, s') => (Err e, s')
  | (Panic p, s') => (Panic p, s')
  end.

Definition st_result {S A} (r : result A) : ST S A := fun s => (r, s).
Definition st_err {S A} (e : error) : ST S A := st_result (Err e).
Definition st_get {S} : ST S S := fun s => (Ok s, s).
Definition st_modify {S} (f : S -> S) : ST S unit := fun s => (Ok (), f s).

(** [v, err := m()]: the error becomes a value the caller inspects; a panic
    propagates. *)
Definition st_try {S A} (m : ST S A) : ST S (result A) := fun s =>
  match m s with
  | (Panic p, s') => (Panic p, s')
  | (r, s') => (Ok r, s')
  end.

(** A method of a component held in a field of the receiver. *)
Definition st_zoom {S T A} (get : S -> T) (set : T -> S -> S) (m : ST T A) : ST S A := fun s =>
  let '(r, t) := m (get s) in (r, set t s).

Lemma st_bind_Ok {S A B} (m : ST S A) (f : A -> ST S B) s b s'' :
  (m ≫= f) s = (Ok b, s'') <-> exists a s', m s = (Ok a, s') /\ f a s' = (Ok b, s'').
Proof.
  unfold mbind, st_bind. destruct (m s) as [[a|e|p] s']; split.
  - intros H. by exists a, s'.
  - intros (a' & s0 & [= -> ->] & H). done.
  - discriminate.
  - intros (a' & s0 & H & _). discriminate H.
  - discriminate.
  - intros (a' & s0 & H & _). discriminate H.
Qed.

Lemma st_bind_Err {S A B} (m : ST S A) (f : A -> ST S B) s e s'' :
  (m ≫= f) s = (Err e, s'') <->
  m s = (Err e, s'') \/ exists a s', m s = (Ok a, s') /\ f a s' = (Err e, s'').
Proof.
  unfold mbind, st_bind. destruct (m s) as [[a|e'|p] s']; split.
  - intros H. right. by exists a, s'.
  - intros [H|(a' & s0 & [= -> ->] & H)]; [discriminate H|done].
  - intros [= -> ->]. by left.
  - intros [[= -> ->]|(a' & s0 & H & _)]; [done|discriminate H].
  - discriminate.
  - intros [H|(a' & s0 & H & _)]; discriminate H.
Qed.

Lemma st_bind_Panic {S A B} (m : ST S A) (f : A -> ST S B) s p s'' :
  (m ≫= f) s = (Panic p, s'') <->
  m s = (Panic p, s'') \/ exists a s', m s = (Ok a, s') /\ f a s' = (Panic p, s'').
Proof.
  unfold mbind, st_bind. destruct (m s) as [[a|e'|p'] s']; split.
  - intros H. right. by exists a, s'.
  - intros [H|(a' & s0 & [= -> ->] & H)]; [discriminate H|done].
  - discriminate.
  - intros [H|(a' & s0 & H & _)]; discriminate H.
  - intros [= -> ->]. by left.
  - intros [[= -> ->]|(a' & s0 & H & _)]; [done|discriminate H].
Qed.

(** The stored outcome of an attempt: an error is data, a panic is not. *)
Lemma st_run {S A B} (m : ST S A) (f : A -> ST S B) s a s' : m s = (Ok a, s') -> (m ≫= f) s = f a s'.
Proof. unfold mbind, st_bind. by intros ->. Qed.

Lemma st_result_run {S A B} (r : result A) (f : A -> ST S B) s a : r = Ok a -> (st_result r ≫= f) s = f a s.
Proof. by intros ->. Qed.

Lemma st_try_eq {S A} (m : ST S A) s r s' :
  m s = (r, s') -> is_panic r = false -> st_try m s = (Ok r, s').
Proof. unfold st_try. intros ->. by destruct r. Qed.
