(* ===== verification/Domain.v ===== *)
(** * The leaf vocabulary: [internal/domain]

    Tenant identifiers, the closed capability table, scopes and their levels,
    grants, the sentinel errors ([domain.go]); role templates, principal
    classes, machine allowlists and depths, grant origins ([permission.go]). *)

From S2P Require Import Prelude.

#[local] Open Scope Z_scope.

(** The tenant identifiers, [PrincipalID], [Capability], [Template],
    [PrincipalClass] and [OriginKind] are Go named string types. *)
Abbreviation OrgID := string (only parsing).
Abbreviation ProjectID := string (only parsing).
Abbreviation EnvID := string (only parsing).
Abbreviation PrincipalID := string (only parsing).
Abbreviation Capability := string (only parsing).
Abbreviation Template := string (only parsing).
Abbreviation PrincipalClass := string (only parsing).
Abbreviation OriginKind := string (only parsing).

(** ** Sentinel errors *)
Definition nameErrNotFound : string := "domain.ErrNotFound".
Definition ErrNotFound : error := ESentinel nameErrNotFound.
Definition nameErrUnauthorized : string := "domain.ErrUnauthorized".
Definition ErrUnauthorized : error := ESentinel nameErrUnauthorized.
Definition ErrUnauthenticated : error := ESentinel "domain.ErrUnauthenticated".
Definition ErrInvalid : error := ESentinel "domain.ErrInvalid".
Definition ErrNoSuchTemplate : error := ESentinel "domain.ErrNoSuchTemplate".
Definition ErrTemplateScope : error := ESentinel "domain.ErrTemplateScope".

(** ** Capabilities *)
Definition CapRead : Capability := "read".
Definition CapReveal : Capability := "reveal".
Definition CapRevealHistory : Capability := "reveal-history".
Definition CapEdit : Capability := "edit".
Definition CapPublish : Capability := "publish".
Definition CapPin : Capability := "pin".
Definition CapDefinitionsEdit : Capability := "definitions-edit".
Definition CapProjectSettings : Capability := "project-settings".
Definition CapManageIdentities : Capability := "manage-identities".
Definition CapManageAdapters : Capability := "manage-adapters".
Definition CapManageMembers : Capability := "manage-members".
Definition CapManageProjects : Capability := "manage-projects".
Definition CapBackupExport : Capability := "backup-export".
Definition CapRestore : Capability := "restore".
Definition CapRotateRootKey : Capability := "rotate-root-key".
Definition CapRotateMasterKey : Capability := "rotate-master-key".
Definition CapRotateDEK : Capability := "rotate-dek".
Definition CapReencrypt : Capability := "reencrypt".
Definition CapInstanceConfig : Capability := "instance-config".
Definition CapInstanceDirector : Capability := "instance-directory".
Definition CapSCIMProvision : Capability := "scim-provision".
Definition CapAuditRead : Capability := "audit-read".
Definition CapCredentialReset : Capability := "credential-reset".

(** ** Levels and scopes

    [Level] is a Go [int]; the four named values are the scope depths. *)
Abbreviation Level := Z (only parsing).
Definition LevelNone : Level := 0.
Definition LevelOrg : Level := 1.
Definition LevelProject : Level := 2.
Definition LevelEnv : Level := 3.

Definition capabilityLevels : gmap string Z := list_to_map [
  (CapRead, LevelEnv); (CapReveal, LevelEnv); (CapRevealHistory, LevelEnv);
  (CapEdit, LevelEnv); (CapPublish, LevelEnv); (CapPin, LevelEnv);
  (CapDefinitionsEdit, LevelProject); (CapProjectSettings, LevelProject);
  (CapManageIdentities, LevelProject); (CapManageAdapters, LevelProject);
  (CapManageMembers, LevelProject);
  (CapManageProjects, LevelOrg); (CapAuditRead, LevelEnv);
  (CapCredentialReset, LevelOrg); (CapSCIMProvision, LevelOrg);
  (CapBackupExport, LevelNone); (CapRestore, LevelNone);
  (CapRotateRootKey, LevelNone); (CapRotateMasterKey, LevelNone);
  (CapRotateDEK, LevelNone); (CapReencrypt, LevelNone);
  (CapInstanceConfig, LevelNone); (CapInstanceDirector, LevelNone)].

Definition IsCapability (c : Capability) : bool :=
  match capabilityLevels !! c with Some _ => true | None => false end.

Definition DeepestLevel (c : Capability) : option Level := capabilityLevels !! c.

Definition OperatorSet : list Capability := [
  CapBackupExport; CapRestore; CapRotateRootKey; CapRotateMasterKey;
  CapRotateDEK; CapReencrypt; CapInstanceConfig].

Record Scope := MkScope { Org : OrgID; Project : ProjectID; Env : EnvID }.

#[export] Instance Scope_eq_dec : EqDecision Scope.
Proof. solve_decision. Defined.

(** The zero value of [Scope]. *)
Definition emptyScope : Scope := MkScope "" "" "".

(** Go's [==] on [Scope] values. *)
Definition scope_eqb (a b : Scope) : bool :=
  (Org a =s Org b) && (Project a =s Project b) && (Env a =s Env b).

(** [Scope.Level]: the addressed depth, or an error on a gap in the chain. *)
Definition Scope_Level (s : Scope) : result Level :=
  if (Org s =s "") && (Project s =s "") && (Env s =s "") then Ok LevelNone
  else if (Org s <>s "") && (Project s =s "") && (Env s =s "") then Ok LevelOrg
  else if (Org s <>s "") && (Project s <>s "") && (Env s =s "") then Ok LevelProject
  else if (Org s <>s "") && (Project s <>s "") && (Env s <>s "") then Ok LevelEnv
  else Err (ENew "domain: scope has a gap in its chain").

Record Grant := MkGrant { g_Capability : Capability; g_Scope : Scope }.

#[export] Instance Grant_eq_dec : EqDecision Grant.
Proof. solve_decision. Defined.

(** ** Role templates *)
Definition TemplateViewer : Template := "viewer".
Definition TemplateEditor : Template := "editor".
Definition TemplatePublisher : Template := "publisher".
Definition TemplateRevealer : Template := "revealer".
Definition TemplateHistorian : Template := "historian".
Definition TemplateMaintainer : Template := "maintainer".
Definition TemplateAdmin : Template := "admin".
Definition TemplateOperator : Template := "operator".

Record templateSpec := MkTemplateSpec {
  applicable : list Level;
  creates : list Capability;
  orgOnly : list Capability }.

Definition tenantLevels : list Level := [LevelOrg; LevelProject; LevelEnv].
Definition orgProject : list Level := [LevelOrg; LevelProject].
Definition instanceOnly : list Level := [LevelNone].

Definition templates : gmap string templateSpec := list_to_map [
  (TemplateViewer, MkTemplateSpec tenantLevels [CapRead] []);
  (TemplateEditor, MkTemplateSpec tenantLevels [CapRead; CapEdit] []);
  (TemplatePublisher,
    MkTemplateSpec tenantLevels [CapRead; CapEdit; CapPublish; CapPin] []);
  (TemplateRevealer, MkTemplateSpec tenantLevels [CapReveal] []);
  (TemplateHistorian, MkTemplateSpec tenantLevels [CapRevealHistory] []);
  (TemplateMaintainer, MkTemplateSpec orgProject
    [CapRead; CapEdit; CapPublish; CapPin;
     CapDefinitionsEdit; CapManageIdentities; CapManageAdapters] []);
  (TemplateAdmin, MkTemplateSpec orgProject
    [CapRead; CapEdit; CapPublish; CapPin;
     CapDefinitionsEdit; CapManageIdentities; CapManageAdapters;
     CapProjectSettings; CapManageMembers; CapReveal; CapRevealHistory]
    [CapManageProjects]);
  (TemplateOperator,
    MkTemplateSpec instanceOnly (OperatorSet ++ [CapManageMembers]) [])].

Definition ExpandTemplate (t : Template) (at_ : Level) : result (list Capability) :=
  match templates !! t with
  | None => Err ErrNoSuchTemplate
  | Some spec =>
      if negb (existsb (Z.eqb at_) (applicable spec)) then Err ErrTemplateScope
      else
        let out := creates spec in
        Ok (if at_ =? LevelOrg then out ++ orgOnly spec else out)
  end.

(** ** Principal classes *)
Definition ClassHuman : PrincipalClass := "human".
Definition ClassWorkload : PrincipalClass := "workload".
Definition ClassAutomation : PrincipalClass := "automation".
Definition ClassProvisioning : PrincipalClass := "provisioning-connection".
Definition ClassInstanceConn : PrincipalClass := "instance-connection".

Definition IsServiceAccountKind (c : PrincipalClass) : bool :=
  (c =s ClassWorkload) || (c =s ClassAutomation).

Definition machineAllowlists : gmap string (gmap string bool) := list_to_map [
  (ClassWorkload, licensed [CapRead]);
  (ClassAutomation, licensed [CapRead; CapEdit; CapPublish; CapDefinitionsEdit]);
  (ClassProvisioning, licensed [CapSCIMProvision]);
  (ClassInstanceConn, licensed [CapInstanceDirector])].

Definition machineRevealByOptIn : gmap string bool :=
  licensed [ClassWorkload; ClassAutomation].

Definition MachineMayHoldRevealByOptIn (c : PrincipalClass) : bool :=
  flag machineRevealByOptIn c.

Definition MachineMayHoldRevealHistoryByPin (c : PrincipalClass) : bool :=
  c =s ClassWorkload.

Definition IsMachineClass (c : PrincipalClass) : bool :=
  match machineAllowlists !! c with Some _ => true | None => false end.

Definition MachineMayHold (c : PrincipalClass) (cap : Capability) : bool :=
  flag (default ∅ (machineAllowlists !! c)) cap.

Definition machineDepths : gmap string Z := list_to_map [
  (ClassWorkload, LevelEnv); (ClassAutomation, LevelProject);
  (ClassProvisioning, LevelOrg); (ClassInstanceConn, LevelNone)].

Definition MachineScopeDepth (c : PrincipalClass) : option Level := machineDepths !! c.

(** ** Grant origins *)
Definition OriginManual : OriginKind := "manual".
Definition OriginBreakGlass : OriginKind := "break-glass".
Definition OriginSCIM : OriginKind := "scim".
Definition OriginStructural : OriginKind := "structural".
Definition OriginLockoutRetention : OriginKind := "lockout-retention".

Definition mintableOrigins : gmap string bool := licensed [OriginManual; OriginBreakGlass].

Definition IsMintableOrigin (k : OriginKind) : bool := flag mintableOrigins k.

#[global] Opaque capabilityLevels templates machineAllowlists machineDepths mintableOrigins
  machineRevealByOptIn.

(** ** Lemmas *)

Lemma scope_eqb_eq a b : scope_eqb a b = true <-> a = b.
Proof.
  unfold scope_eqb. destruct a, b; cbn. split.
  - intros H. bools. by subst.
  - intros [= -> -> ->]. by rewrite !String.eqb_refl.
Qed.

Lemma scope_eqb_refl a : scope_eqb a a = true.
Proof. by apply scope_eqb_eq. Qed.

(** The shape of a scope at each addressed level. *)
Lemma Scope_Level_cases s l :
  Scope_Level s = Ok l ->
  (l = LevelNone /\ s = emptyScope) \/
  (l = LevelOrg /\ Org s <> "" /\ Project s = "" /\ Env s = "") \/
  (l = LevelProject /\ Org s <> "" /\ Project s <> "" /\ Env s = "") \/
  (l = LevelEnv /\ Org s <> "" /\ Project s <> "" /\ Env s <> "").
Proof.
  unfold Scope_Level. intros H. destruct s as [o p e]; cbn in *.
  split_ifs in H; injection H as <-; bools; subst; naive_solver.
Qed.

Lemma Scope_Level_Err s e : Scope_Level s = Err e -> e = ENew "domain: scope has a gap in its chain".
Proof. unfold Scope_Level. repeat case_match; congruence. Qed.

Lemma Scope_Level_no_panic s : is_panic (Scope_Level s) = false.
Proof. unfold Scope_Level. by repeat case_match. Qed.
