(* ===== verification/OperationNames.v ===== *)
(** * Operation, store-operation and mint-site names: [internal/authz/registry.go]

    The string constants the operation registry is keyed by and built from, in
    the order the source declares them. *)

From S2P Require Import Prelude.

(** Go named string types. *)
Abbreviation Operation := string (only parsing).
Abbreviation StoreOp := string (only parsing).
Abbreviation SystemSite := string (only parsing).

(** ** Operations *)
Definition OpSelfConfigPreview : Operation := "self-config.preview".
Definition OpSelfConfigStatus : Operation := "self-config.status".
Definition OpSelfConfigAdopt : Operation := "self-config.adopt".
Definition OpSelfConfigApply : Operation := "self-config.apply".
Definition OpSelfConfigTest : Operation := "self-config.test".
Definition OpSelfConfigProvisionProject : Operation := "self-config.provision-project".
Definition OpOrgCreate : Operation := "org.create".
Definition OpOrgGet : Operation := "org.get".
Definition OpOrgList : Operation := "org.list".
Definition OpOrgRename : Operation := "org.rename".
Definition OpOrgDelete : Operation := "org.delete".
Definition OpProjectCreate : Operation := "project.create".
Definition OpProjectGet : Operation := "project.get".
Definition OpProjectList : Operation := "project.list".
Definition OpProjectRename : Operation := "project.rename".
Definition OpProjectDelete : Operation := "project.delete".
Definition OpEnvCreate : Operation := "environment.create".
Definition OpEnvRead : Operation := "environment.read".
Definition OpEnvList : Operation := "environment.list".
Definition OpEnvParameterSet : Operation := "environment.parameter-set".
Definition OpEnvRename : Operation := "environment.rename".
Definition OpEnvReorder : Operation := "environment.reorder".
Definition OpEnvDelete : Operation := "environment.delete".
Definition OpEnvUpdateNote : Operation := "environment.update-note".
Definition OpKeyCreate : Operation := "key.create".
Definition OpKeyGet : Operation := "key.get".
Definition OpKeyList : Operation := "key.list".
Definition OpKeyRename : Operation := "key.rename".
Definition OpKeyUpdateDeclaration : Operation := "key.update-declaration".
Definition OpKeyUpdateMetadata : Operation := "key.update-metadata".
Definition OpKeySetGroup : Operation := "key.set-group".
Definition OpKeyDelete : Operation := "key.delete".
Definition OpKeyReclassify : Operation := "key.reclassify".
Definition OpKeySecretRuleChange : Operation := "key.secret-rule-change".
Definition OpKeyDeclassify : Operation := "key.declassify".
Definition OpDefinitionsExport : Operation := "definitions.export".
Definition OpDefinitionsCheck : Operation := "definitions.check".
Definition OpDefinitionsPlanCreate : Operation := "definitions.plan".
Definition OpDefinitionsPlanGet : Operation := "definitions.plan.get".
Definition OpDefinitionsApply : Operation := "definitions.apply".
Definition OpDefinitionsSettingsGet : Operation := "definitions.settings.get".
Definition OpDefinitionsSettingsSet : Operation := "definitions.settings.set".
Definition OpProjectMachineRevealGet : Operation := "project.machine-reveal.get".
Definition OpProjectMachineRevealSet : Operation := "project.machine-reveal.set".
Definition OpValueRead : Operation := "value.read".
Definition OpValueList : Operation := "value.list".
Definition OpValueReveal : Operation := "value.reveal".
Definition OpRevealWindowRead : Operation := "reveal.window_read".
Definition OpValueSet : Operation := "value.set".
Definition OpValueClear : Operation := "value.clear".
Definition OpValueCopySource : Operation := "value.copy-source".
Definition OpValueCopyDestination : Operation := "value.copy-destination".
Definition OpValueCopyDestinationConfig : Operation := "value.copy-destination-config".
Definition OpImportPresence : Operation := "import.presence".
Definition OpValueImport : Operation := "value.import".
Definition OpValueStage : Operation := "value.stage".
Definition OpValuePendingList : Operation := "value.pending-list".
Definition OpValuePublish : Operation := "value.publish".
Definition OpValueExport : Operation := "value.export".
Definition OpValueExportReveal : Operation := "value.export-reveal".
Definition OpValueExportRevealHistory : Operation := "value.export-reveal-history".
Definition OpRevisionList : Operation := "revision.list".
Definition OpRevisionShow : Operation := "revision.show".
Definition OpRevisionSignals : Operation := "revision.signals".
Definition OpRevisionRestore : Operation := "revision.restore".
Definition OpRevisionRestoreHistory : Operation := "revision.restore-reveal-history".
Definition OpRevisionRestoreCurrent : Operation := "revision.restore-reveal-current".
Definition OpPinSet : Operation := "pin.set".
Definition OpPinSetHistory : Operation := "pin.set-reveal-history".
Definition OpPinList : Operation := "pin.list".
Definition OpPinRelease : Operation := "pin.release".
Definition OpApprovalPolicyWrite : Operation := "approval.policy-write".
Definition OpApprovalPolicyRead : Operation := "approval.policy-read".
Definition OpApprovalRequestRead : Operation := "approval.request-read".
Definition OpApprovalVote : Operation := "approval.vote".
Definition OpApprovalBypass : Operation := "approval.bypass".
Definition OpAdvisoryWatch : Operation := "advisory.watch".
Definition OpAdvisoryEvent : Operation := "advisory.event".
Definition OpRotateTokenKey : Operation := "crypto.rotate-token-key".
Definition OpRotateScanningKey : Operation := "crypto.rotate-scanning-key".
Definition OpRotateDEK : Operation := "crypto.rotate-dek".
Definition OpRotateMasterKey : Operation := "crypto.rotate-master-key".
Definition OpRotateRootKey : Operation := "crypto.rotate-root-key".
Definition OpReencryptProject : Operation := "crypto.reencrypt-project".
Definition OpReencryptInstance : Operation := "crypto.reencrypt-instance".
Definition OpKeyGroupCreate : Operation := "key-group.create".
Definition OpKeyGroupGet : Operation := "key-group.get".
Definition OpKeyGroupList : Operation := "key-group.list".
Definition OpKeyGroupRename : Operation := "key-group.rename".
Definition OpKeyGroupDelete : Operation := "key-group.delete".
Definition OpFolderCreate : Operation := "folder.create".
Definition OpFolderGet : Operation := "folder.get".
Definition OpFolderList : Operation := "folder.list".
Definition OpFolderRename : Operation := "folder.rename".
Definition OpFolderDelete : Operation := "folder.delete".
Definition OpProviderPut : Operation := "oidc-provider.put".
Definition OpProviderGet : Operation := "oidc-provider.get".
Definition OpProviderList : Operation := "oidc-provider.list".
Definition OpProviderDelete : Operation := "oidc-provider.delete".
Definition OpSAMLProviderPut : Operation := "saml-provider.put".
Definition OpSAMLProviderPatch : Operation := "saml-provider.patch".
Definition OpSAMLProviderGet : Operation := "saml-provider.get".
Definition OpSAMLProviderList : Operation := "saml-provider.list".
Definition OpSAMLProviderDelete : Operation := "saml-provider.delete".
Definition OpSAMLProviderRefreshMetadata : Operation := "saml-provider.refresh-metadata".
Definition OpSAMLSPKeyList : Operation := "saml-sp-key.list".
Definition OpSAMLSPKeyRotate : Operation := "saml-sp-key.rotate".
Definition OpSAMLSPKeyRetire : Operation := "saml-sp-key.retire".
Definition OpSAMLSPKeyCompromiseRetire : Operation := "saml-sp-key.compromise-retire".
Definition OpCredentialReset : Operation := "credential-reset.org".
Definition OpCredentialResetInstance : Operation := "credential-reset.instance".
Definition OpAuditQueryOrg : Operation := "audit.query-org".
Definition OpAuditQueryProject : Operation := "audit.query-project".
Definition OpAuditQueryEnv : Operation := "audit.query-env".
Definition OpAuditExportOrg : Operation := "audit.export-org".
Definition OpAuditExportProject : Operation := "audit.export-project".
Definition OpAuditExportEnv : Operation := "audit.export-env".
Definition OpAuditInstanceQuery : Operation := "audit.instance-query".
Definition OpAuditInstanceExport : Operation := "audit.instance-export".
Definition OpGrantCreateOrg : Operation := "grant.create-org".
Definition OpGrantCreateProject : Operation := "grant.create-project".
Definition OpGrantCreateEnv : Operation := "grant.create-env".
Definition OpGrantCreateInstance : Operation := "grant.create-instance".
Definition OpMemberInviteOrg : Operation := "member.invite-org".
Definition OpMemberInviteInstance : Operation := "member.invite-instance".
Definition OpGrantRevokeOrg : Operation := "grant.revoke-org".
Definition OpGrantRevokeProject : Operation := "grant.revoke-project".
Definition OpGrantRevokeEnv : Operation := "grant.revoke-env".
Definition OpGrantRevokeInstance : Operation := "grant.revoke-instance".
Definition OpGrantListOrg : Operation := "grant.list-org".
Definition OpGrantListProject : Operation := "grant.list-project".
Definition OpGrantListInstance : Operation := "grant.list-instance".
Definition OpTemplateApplyOrg : Operation := "grant.template-org".
Definition OpTemplateApplyProject : Operation := "grant.template-project".
Definition OpTemplateApplyEnv : Operation := "grant.template-env".
Definition OpTemplateApplyInstance : Operation := "grant.template-instance".
Definition OpEnvSettingsRead : Operation := "environment.settings-read".
Definition OpEnvSettingsUpdate : Operation := "environment.settings-update".
Definition OpOrgRetentionRead : Operation := "retention.org-read".
Definition OpOrgRetentionUpdate : Operation := "retention.org-update".
Definition OpProjectRetentionRead : Operation := "retention.project-read".
Definition OpProjectRetentionUpdate : Operation := "retention.project-update".
Definition OpRetentionHealthRead : Operation := "retention.health-read".
Definition OpUpdateStatusRead : Operation := "update.status-read".
Definition OpUpdateRequest : Operation := "update.request".
Definition OpUpdateJobRead : Operation := "update.job-read".
Definition OpServiceAccountCreate : Operation := "identity.service-account-create".
Definition OpServiceAccountList : Operation := "identity.service-account-list".
Definition OpServiceAccountDelete : Operation := "identity.service-account-delete".
Definition OpCredentialMint : Operation := "identity.credential-mint".
Definition OpCredentialList : Operation := "identity.credential-list".
Definition OpCredentialRevoke : Operation := "identity.credential-revoke".
Definition OpCredentialPolicyRead : Operation := "identity.credential-policy-read".
Definition OpCredentialPolicyUpdate : Operation := "identity.credential-policy-update".
Definition OpFederationIssuerCreate : Operation := "federation.issuer-create".
Definition OpFederationIssuerList : Operation := "federation.issuer-list".
Definition OpFederationIssuerUpdate : Operation := "federation.issuer-update".
Definition OpFederationIssuerDelete : Operation := "federation.issuer-delete".
Definition OpBindingCreate : Operation := "identity.binding-create".
Definition OpDeliveryFetch : Operation := "delivery.fetch".
Definition OpDeliveryReconcileOffline : Operation := "delivery.reconcile-offline".
Definition OpSCIMBindingCreate : Operation := "scim-binding.create".
Definition OpSCIMBindingGet : Operation := "scim-binding.get".
Definition OpSCIMBindingList : Operation := "scim-binding.list".
Definition OpSCIMBindingDelete : Operation := "scim-binding.delete".
Definition OpSCIMMappingCreate : Operation := "scim-mapping.create".
Definition OpSCIMMappingUpdate : Operation := "scim-mapping.update".
Definition OpSCIMMappingDelete : Operation := "scim-mapping.delete".
Definition OpSCIMMappingList : Operation := "scim-mapping.list".
Definition OpSCIMCredentialMint : Operation := "scim-credential.mint".
Definition OpSCIMCredentialGet : Operation := "scim-credential.get".
Definition OpSCIMCredentialList : Operation := "scim-credential.list".
Definition OpSCIMCredentialRevoke : Operation := "scim-credential.revoke".
Definition OpSCIMDirectoryUsers : Operation := "scim-directory.users".
Definition OpSCIMDirectoryGroups : Operation := "scim-directory.groups".
Definition OpSCIMUserCreate : Operation := "scim-user.create".
Definition OpSCIMUserGet : Operation := "scim-user.get".
Definition OpSCIMUserList : Operation := "scim-user.list".
Definition OpSCIMUserReplace : Operation := "scim-user.replace".
Definition OpSCIMUserPatch : Operation := "scim-user.patch".
Definition OpSCIMUserDelete : Operation := "scim-user.delete".
Definition OpSCIMGroupCreate : Operation := "scim-group.create".
Definition OpSCIMGroupGet : Operation := "scim-group.get".
Definition OpSCIMGroupList : Operation := "scim-group.list".
Definition OpSCIMGroupReplace : Operation := "scim-group.replace".
Definition OpSCIMGroupPatch : Operation := "scim-group.patch".
Definition OpSCIMGroupDelete : Operation := "scim-group.delete".
Definition OpSCIMDiscovery : Operation := "scim-discovery.read".
Definition OpSCIMUnsupported : Operation := "scim-unsupported.refuse".
Definition OpRemoteDirectoryServe : Operation := "remote.directory-serve".
Definition OpRemoteAdd : Operation := "remote.add".
Definition OpRemoteList : Operation := "remote.list".
Definition OpRemoteShow : Operation := "remote.show".
Definition OpRemoteRename : Operation := "remote.rename".
Definition OpRemoteRemove : Operation := "remote.remove".
Definition OpRemoteCredentialCreate : Operation := "remote-credential.create".
Definition OpRemoteCredentialList : Operation := "remote-credential.list".
Definition OpRemoteCredentialShow : Operation := "remote-credential.show".
Definition OpRemoteCredentialRevoke : Operation := "remote-credential.revoke".
Definition OpWorkspaceOriginList : Operation := "workspace-origin.list".
Definition OpWorkspaceOriginAdd : Operation := "workspace-origin.add".
Definition OpWorkspaceOriginRemove : Operation := "workspace-origin.remove".
Definition OpAdapterConfigure : Operation := "adapter.configure".
Definition OpAdapterCredentialSet : Operation := "adapter.credential-set".
Definition OpAdapterCredentialRevoke : Operation := "adapter.credential-revoke".
Definition OpAdapterAdopt : Operation := "adapter.adopt".
Definition OpAdapterInspect : Operation := "adapter.inspect".
Definition OpAdapterPlan : Operation := "adapter.plan".
Definition OpAdapterTest : Operation := "adapter.test".
Definition OpAdapterSync : Operation := "adapter.sync".
Definition OpAdapterDelete : Operation := "adapter.delete".
Definition OpAdapterPush : Operation := "adapter.push".
Definition OpDynamicProviderConfigure : Operation := "dynamic-provider.configure".
Definition OpDynamicProviderInspect : Operation := "dynamic-provider.inspect".
Definition OpDynamicProviderCredentialSet : Operation := "dynamic-provider.credential-set".
Definition OpDynamicProviderCredentialRevoke : Operation := "dynamic-provider.credential-revoke".
Definition OpDynamicProviderDelete : Operation := "dynamic-provider.delete".
Definition OpLeaseMint : Operation := "lease.mint".
Definition OpLeaseInspect : Operation := "lease.inspect".
Definition OpLeaseRenew : Operation := "lease.renew".
Definition OpLeaseRevoke : Operation := "lease.revoke".
Definition OpLeaseSettle : Operation := "lease.settle".

(** ** Store operations *)
Definition StoreSelfConfigSeedInputs : StoreOp := "selfconfig.SeedInputs".
Definition StoreSelfConfigHostSeedInputs : StoreOp := "selfconfig.HostSeedInputs".
Definition StoreSelfConfigPutSeedInput : StoreOp := "selfconfig.PutSeedInput".
Definition StoreSelfConfigRecoverTarget : StoreOp := "selfconfig.RecoverTarget".
Definition StoreSelfConfigBinding : StoreOp := "selfconfig.Binding".
Definition StoreSelfConfigPreviousRevision : StoreOp := "selfconfig.PreviousRevision".
Definition StoreSelfConfigRollout : StoreOp := "selfconfig.Rollout".
Definition StoreSelfConfigPutRollout : StoreOp := "selfconfig.PutRollout".
Definition StoreSelfConfigNextRolloutSequence : StoreOp := "selfconfig.NextRolloutSequence".
Definition StoreSelfConfigJobs : StoreOp := "selfconfig.Jobs".
Definition StoreSelfConfigJob : StoreOp := "selfconfig.Job".
Definition StoreSelfConfigJobByIdempotencyKey : StoreOp := "selfconfig.JobByIdempotencyKey".
Definition StoreSelfConfigNodes : StoreOp := "selfconfig.Nodes".
Definition StoreSelfConfigRetained : StoreOp := "selfconfig.Retained".
Definition StoreSelfConfigCreateBinding : StoreOp := "selfconfig.CreateBinding".
Definition StoreSelfConfigBeginJob : StoreOp := "selfconfig.BeginJob".
Definition StoreSelfConfigCommitJob : StoreOp := "selfconfig.CommitJob".
Definition StoreSelfConfigFinishJob : StoreOp := "selfconfig.FinishJob".
Definition StoreSelfConfigPutNode : StoreOp := "selfconfig.PutNode".
Definition StoreSelfConfigFenceRestored : StoreOp := "selfconfig.FenceRestored".
Definition StoreKeysInsertInitialProjectDEK : StoreOp := "keys.InsertInitialProjectDEK".
Definition StoreOrgsCreate : StoreOp := "orgs.Create".
Definition StoreOrgsGet : StoreOp := "orgs.Get".
Definition StoreOrgsList : StoreOp := "orgs.List".
Definition StoreOrgsCount : StoreOp := "orgs.Count".
Definition StoreOrgsRename : StoreOp := "orgs.Rename".
Definition StoreOrgsLock : StoreOp := "orgs.Lock".
Definition StoreOrgsSetRetention : StoreOp := "orgs.SetRetention".
Definition StoreOrgsDelete : StoreOp := "orgs.Delete".
Definition StoreProjectsCreate : StoreOp := "projects.Create".
Definition StoreProjectsGet : StoreOp := "projects.Get".
Definition StoreProjectsList : StoreOp := "projects.List".
Definition StoreProjectsListAll : StoreOp := "projects.ListAll".
Definition StoreProjectsLock : StoreOp := "projects.Lock".
Definition StoreProjectsRename : StoreOp := "projects.Rename".
Definition StoreProjectsSetRetention : StoreOp := "projects.SetRetention".
Definition StoreProjectsSetDefinitionsSource : StoreOp := "projects.SetDefinitionsSource".
Definition StoreProjectsSetMachineReveal : StoreOp := "projects.SetMachineReveal".
Definition StoreProjectsDelete : StoreOp := "projects.Delete".
Definition StoreDefinitionsPlanCreate : StoreOp := "definitions.CreatePlan".
Definition StoreDefinitionsPlanGet : StoreOp := "definitions.GetPlan".
Definition StoreDefinitionsPlanCountOpen : StoreOp := "definitions.CountOpenPlans".
Definition StoreDefinitionsPlanApply : StoreOp := "definitions.MarkPlanApplied".
Definition StoreDefinitionsPlanPrune : StoreOp := "definitions.PruneExpiredPlans".
Definition StoreDefinitionsLatestAppliedPlan : StoreOp := "definitions.LatestAppliedPlan".
Definition StoreEnvironmentParametersGet : StoreOp := "environments.Parameters".
Definition StoreEnvironmentParametersSet : StoreOp := "environments.SetParameters".
Definition StoreEnvironmentsCreate : StoreOp := "environments.Create".
Definition StoreEnvironmentsGet : StoreOp := "environments.Get".
Definition StoreEnvironmentsList : StoreOp := "environments.List".
Definition StoreEnvironmentsListPage : StoreOp := "environments.ListPage".
Definition StoreEnvironmentsCount : StoreOp := "environments.Count".
Definition StoreEnvironmentsNextOrder : StoreOp := "environments.NextOrder".
Definition StoreEnvironmentsUpdateNote : StoreOp := "environments.UpdateNote".
Definition StoreEnvironmentsRename : StoreOp := "environments.Rename".
Definition StoreEnvironmentsSetOrder : StoreOp := "environments.SetOrder".
Definition StoreEnvironmentsDelete : StoreOp := "environments.Delete".
Definition StoreEnvironmentsGetSettings : StoreOp := "environments.Settings".
Definition StoreEnvironmentsSetSettings : StoreOp := "environments.SetSettings".
Definition StoreEnvironmentsListProtection : StoreOp := "environments.ListProtection".
Definition StoreCatalogueCreate : StoreOp := "catalogue.Create".
Definition StoreCatalogueGet : StoreOp := "catalogue.Get".
Definition StoreCatalogueList : StoreOp := "catalogue.List".
Definition StoreCatalogueListPage : StoreOp := "catalogue.ListPage".
Definition StoreCatalogueGetInProject : StoreOp := "catalogue.GetInProject".
Definition StoreCataloguePresenceForKey : StoreOp := "catalogue.PresenceForKey".
Definition StoreCatalogueCount : StoreOp := "catalogue.Count".
Definition StoreCatalogueAdapterPins : StoreOp := "catalogue.AdapterPins".
Definition StoreCatalogueRename : StoreOp := "catalogue.Rename".
Definition StoreCatalogueUpdateMetadata : StoreOp := "catalogue.UpdateMetadata".
Definition StoreCatalogueUpdateDeclaration : StoreOp := "catalogue.UpdateDeclaration".
Definition StoreCatalogueSetClassification : StoreOp := "catalogue.SetClassification".
Definition StoreCatalogueSetGroup : StoreOp := "catalogue.SetGroup".
Definition StoreCatalogueDelete : StoreOp := "catalogue.Delete".
Definition StoreCatalogueGroupCreate : StoreOp := "catalogue.CreateGroup".
Definition StoreCatalogueGroupGet : StoreOp := "catalogue.GetGroup".
Definition StoreCatalogueGroupList : StoreOp := "catalogue.ListGroups".
Definition StoreCatalogueGroupCount : StoreOp := "catalogue.CountGroups".
Definition StoreCatalogueGroupRename : StoreOp := "catalogue.RenameGroup".
Definition StoreCatalogueGroupDelete : StoreOp := "catalogue.DeleteGroup".
Definition StoreCatalogueGroupClearMembers : StoreOp := "catalogue.ClearGroupMembers".
Definition StoreCataloguePresenceList : StoreOp := "catalogue.ListPresence".
Definition StoreCataloguePresenceReplace : StoreOp := "catalogue.ReplacePresence".
Definition StoreCataloguePresenceCascade : StoreOp := "catalogue.DeletePresenceForEnvironment".
Definition StoreCatalogueRevisionGet : StoreOp := "catalogue.SchemaRevision".
Definition StoreAdaptersTarget : StoreOp := "adapters.Target".
Definition StoreAdaptersGet : StoreOp := "adapters.Get".
Definition StoreAdaptersConfiguration : StoreOp := "adapters.Configuration".
Definition StoreAdaptersList : StoreOp := "adapters.List".
Definition StoreAdaptersListTargets : StoreOp := "adapters.ListTargets".
Definition StoreAdaptersTargetKeyIDs : StoreOp := "adapters.TargetKeyIDs".
Definition StoreAdaptersCreate : StoreOp := "adapters.Create".
Definition StoreAdaptersAddTarget : StoreOp := "adapters.AddTarget".
Definition StoreAdaptersRecordCredentialExpiry : StoreOp := "adapters.RecordCredentialExpiry".
Definition StoreAdaptersBeginConfigureEffect : StoreOp := "adapters.BeginConfigureEffect".
Definition StoreAdaptersFinishConfigureEffect : StoreOp := "adapters.FinishConfigureEffect".
Definition StoreAdaptersUpdateTarget : StoreOp := "adapters.UpdateTarget".
Definition StoreAdaptersMoveTarget : StoreOp := "adapters.MoveTarget".
Definition StoreAdaptersMoveOrigin : StoreOp := "adapters.MoveOrigin".
Definition StoreAdaptersMove : StoreOp := "adapters.Move".
Definition StoreAdaptersListForReencrypt : StoreOp := "adapters.ListAdaptersForReencrypt".
Definition StoreAdaptersReencrypt : StoreOp := "adapters.ReencryptAdapter".
Definition StoreAdaptersListMovesForReencrypt : StoreOp := "adapters.ListRouteMovesForReencrypt".
Definition StoreAdaptersReencryptMove : StoreOp := "adapters.ReencryptRouteMove".
Definition StoreAdaptersCancelMove : StoreOp := "adapters.CancelMove".
Definition StoreAdaptersReplaceMoveTarget : StoreOp := "adapters.ReplaceMoveTarget".
Definition StoreAdaptersReplaceMoveOrigin : StoreOp := "adapters.ReplaceMoveOrigin".
Definition StoreAdaptersMapping : StoreOp := "adapters.Mapping".
Definition StoreAdaptersPlanMaterial : StoreOp := "adapters.PlanMaterial".
Definition StoreAdaptersTargetEnvironments : StoreOp := "adapters.TargetEnvironments".
Definition StoreAdaptersEnvironments : StoreOp := "adapters.Environments".
Definition StoreAdaptersConflicts : StoreOp := "adapters.Conflicts".
Definition StoreAdaptersRecordPlan : StoreOp := "adapters.RecordPlan".
Definition StoreAdaptersAdopt : StoreOp := "adapters.Adopt".
Definition StoreAdaptersEnqueuePublished : StoreOp := "adapters.EnqueuePublished".
Definition StoreAdaptersTeardownTarget : StoreOp := "adapters.TeardownTarget".
Definition StoreAdaptersTeardownAdapter : StoreOp := "adapters.TeardownAdapter".
Definition StoreAdaptersReplaceCredential : StoreOp := "adapters.ReplaceCredential".
Definition StoreAdaptersRevokeCredential : StoreOp := "adapters.RevokeCredential".
Definition StoreAdaptersEnqueueManual : StoreOp := "adapters.EnqueueManual".
Definition StoreAdaptersTargetKeys : StoreOp := "adapters.TargetKeys".
Definition StoreAdaptersPauseTarget : StoreOp := "adapters.PauseTarget".
Definition StoreAdaptersResumeTarget : StoreOp := "adapters.ResumeTarget".
Definition StoreAdaptersHealthCounts : StoreOp := "adapters.HealthCounts".
Definition StoreCatalogueRevisionBump : StoreOp := "catalogue.BumpSchemaRevision".
Definition StoreDynamicProvidersCreate : StoreOp := "dynamic.CreateProvider".
Definition StoreDynamicProvidersGet : StoreOp := "dynamic.GetProvider".
Definition StoreDynamicProvidersCredentialCiphertext : StoreOp := "dynamic.ProviderCredentialCiphertext".
Definition StoreDynamicProvidersList : StoreOp := "dynamic.ListProviders".
Definition StoreDynamicProvidersReplaceCredential : StoreOp := "dynamic.ReplaceProviderCredential".
Definition StoreDynamicProvidersRevokeCredential : StoreOp := "dynamic.RevokeProviderCredential".
Definition StoreDynamicProvidersDelete : StoreOp := "dynamic.DeleteProvider".
Definition StoreDynamicProvidersListForReencrypt : StoreOp := "dynamic.ListProvidersForReencrypt".
Definition StoreDynamicProvidersReencrypt : StoreOp := "dynamic.ReencryptProvider".
Definition StoreDynamicLeasesActiveIDsForProvider : StoreOp := "dynamic.ActiveLeaseIDsForProvider".
Definition StoreDynamicLeasesCreate : StoreOp := "dynamic.CreateLease".
Definition StoreDynamicLeasesGet : StoreOp := "dynamic.GetLease".
Definition StoreDynamicLeasesList : StoreOp := "dynamic.ListLeasesForEnvironment".
Definition StoreDynamicLeasesFinishMint : StoreOp := "dynamic.FinishMint".
Definition StoreDynamicLeasesEnqueueTransition : StoreOp := "dynamic.EnqueueTransition".
Definition StoreFoldersCreate : StoreOp := "folders.Create".
Definition StoreFoldersGet : StoreOp := "folders.Get".
Definition StoreFoldersList : StoreOp := "folders.List".
Definition StoreFoldersRename : StoreOp := "folders.Rename".
Definition StoreFoldersDelete : StoreOp := "folders.Delete".
Definition StoreValuesGet : StoreOp := "values.Get".
Definition StoreValuesList : StoreOp := "values.List".
Definition StoreValuesEnvironmentsWithValue : StoreOp := "values.EnvironmentsWithValue".
Definition StoreValuesPut : StoreOp := "values.Put".
Definition StoreValuesListForReencrypt : StoreOp := "values.ListForReencrypt".
Definition StoreValuesReencrypt : StoreOp := "values.Reencrypt".
Definition StoreValuesClear : StoreOp := "values.Clear".
Definition StoreValuesClearEnvironment : StoreOp := "values.ClearEnvironment".
Definition StoreValuesCountEnvironment : StoreOp := "values.CountEnvironmentValues".
Definition StoreValuesClearKey : StoreOp := "values.ClearKey".
Definition StorePendingListForOwner : StoreOp := "pending.ListForOwner".
Definition StorePendingListForOwnerInEnvironment : StoreOp := "pending.ListForOwnerInEnvironment".
Definition StorePendingListForOwnerInEnvironmentPage : StoreOp := "pending.ListForOwnerInEnvironmentPage".
Definition StorePendingListMarkers : StoreOp := "pending.ListMarkers".
Definition StorePendingStage : StoreOp := "pending.Stage".
Definition StorePendingListForReencrypt : StoreOp := "pending.ListForReencrypt".
Definition StorePendingReencrypt : StoreOp := "pending.Reencrypt".
Definition StorePendingDiscard : StoreOp := "pending.Discard".
Definition StorePendingDiscardEnvironment : StoreOp := "pending.DiscardEnvironment".
Definition StorePendingDiscardKey : StoreOp := "pending.DiscardKey".
Definition StorePendingCountForProjectExcludingCell : StoreOp := "pending.CountForProjectExcludingCell".
Definition StoreSnapshotsLatest : StoreOp := "snapshots.Latest".
Definition StoreSnapshotsParameterContract : StoreOp := "snapshots.ParameterContract".
Definition StoreSnapshotsProjectRevisions : StoreOp := "snapshots.ProjectRevisions".
Definition StoreSnapshotsAtRevision : StoreOp := "snapshots.AtRevision".
Definition StoreSnapshotsList : StoreOp := "snapshots.List".
Definition StoreSnapshotsListPage : StoreOp := "snapshots.ListPage".
Definition StoreSnapshotsEntries : StoreOp := "snapshots.Entries".
Definition StoreSnapshotsListForReencrypt : StoreOp := "snapshots.ListForReencrypt".
Definition StoreSnapshotsReencrypt : StoreOp := "snapshots.Reencrypt".
Definition StoreSnapshotsChanges : StoreOp := "snapshots.Changes".
Definition StoreSnapshotsInsert : StoreOp := "snapshots.Insert".
Definition StoreSnapshotsInsertEntry : StoreOp := "snapshots.InsertEntry".
Definition StoreSnapshotsSecretValueOccurrenceIDs : StoreOp := "snapshots.SecretValueOccurrenceIDs".
Definition StoreSnapshotsRecordSecretValueOccurrence : StoreOp := "snapshots.RecordSecretValueOccurrence".
Definition StoreSnapshotsInsertChange : StoreOp := "snapshots.InsertChange".
Definition StoreSnapshotsDeleteEnvironment : StoreOp := "snapshots.DeleteEnvironment".
Definition StorePinsGetForWorkload : StoreOp := "pins.GetForWorkload".
Definition StorePinsList : StoreOp := "pins.List".
Definition StorePinsCountProject : StoreOp := "pins.CountProject".
Definition StorePinsInsert : StoreOp := "pins.Insert".
Definition StorePinsDelete : StoreOp := "pins.Delete".
Definition StorePinsDeleteEnvironment : StoreOp := "pins.DeleteEnvironment".
Definition StoreRetentionAuditPolicy : StoreOp := "retention.AuditPolicy".
Definition StoreRetentionSetAuditPolicy : StoreOp := "retention.SetAuditPolicy".
Definition StoreRetentionPruneAudit : StoreOp := "retention.PruneAudit".
Definition StoreRetentionEligible : StoreOp := "retention.Eligible".
Definition StoreRetentionSnapshotLock : StoreOp := "retention.LockSnapshot".
Definition StoreRetentionMarkCollected : StoreOp := "retention.MarkCollected".
Definition StoreRetentionDeleteEntries : StoreOp := "retention.DeleteCollectedEntries".
Definition StoreRetentionLastSuccess : StoreOp := "retention.LastPruneSuccess".
Definition StoreRetentionSetLastSuccess : StoreOp := "retention.SetLastPruneSuccess".
Definition StoreOpsDiagnosticsRead : StoreOp := "retention.Diagnostics".
Definition StoreEscrowVerificationWrite : StoreOp := "retention.RecordEscrow".
Definition StoreReencryptSuccessWrite : StoreOp := "retention.RecordReencryptSuccess".
Definition StoreBackupStateGet : StoreOp := "backupstate.Get".
Definition StoreBackupStateSetExportSuccess : StoreOp := "backupstate.SetExportSuccess".
Definition StoreBackupStateSetExportFailure : StoreOp := "backupstate.SetExportFailure".
Definition StoreBackupStateSetPruneSuccess : StoreOp := "backupstate.SetPruneSuccess".
Definition StoreBackupStateSetDrill : StoreOp := "backupstate.SetDrill".
Definition StoreValuesSampleSecretEntry : StoreOp := "values.SampleSecretEntry".
Definition StoreValuesPayloadBytesForProject : StoreOp := "values.PayloadBytesForProject".
Definition StoreSnapshotsPayloadBytesForProject : StoreOp := "snapshots.PayloadBytesForProject".
Definition StoreValuesInstancePayloadByProject : StoreOp := "values.InstancePayloadByProject".
Definition StoreSnapshotsInstancePayloadByProject : StoreOp := "snapshots.InstancePayloadByProject".
Definition StoreKeysActiveMasterWrappers : StoreOp := "keys.ActiveMasterWrappers".
Definition StoreKeysActiveTier3 : StoreOp := "keys.ActiveTier3".
Definition StoreKeysTier3Versions : StoreOp := "keys.Tier3Versions".
Definition StoreKeysAllOpenableTier3 : StoreOp := "keys.AllOpenableTier3".
Definition StoreKeysAssertActiveDEKVersion : StoreOp := "keys.AssertActiveDEKVersion".
Definition StoreKeysAcquireHierarchyGeneration : StoreOp := "keys.AcquireHierarchyGeneration".
Definition StoreKeysInsertMaster : StoreOp := "keys.InsertMaster".
Definition StoreKeysInsertTier3 : StoreOp := "keys.InsertTier3".
Definition StoreKeysRotateTokenKey : StoreOp := "keys.RotateTokenKey".
Definition StoreKeysRotateScanningKey : StoreOp := "keys.RotateScanningKey".
Definition StoreKeysRotateDEK : StoreOp := "keys.RotateDEK".
Definition StoreKeysRotateMasterKey : StoreOp := "keys.RotateMasterKey".
Definition StoreKeysRetireRetiringTier3 : StoreOp := "keys.RetireRetiringTier3".
Definition StoreReencryptListPasswordCreds : StoreOp := "reencrypt.ListPasswordCredsForReencrypt".
Definition StoreReencryptPasswordCred : StoreOp := "reencrypt.ReencryptPasswordCred".
Definition StoreReencryptListTotpCreds : StoreOp := "reencrypt.ListTotpCredsForReencrypt".
Definition StoreReencryptTotpCred : StoreOp := "reencrypt.ReencryptTotpCred".
Definition StoreReencryptListRecoveryCodes : StoreOp := "reencrypt.ListRecoveryCodesForReencrypt".
Definition StoreReencryptRecoveryCodes : StoreOp := "reencrypt.ReencryptRecoveryCodes".
Definition StoreReencryptListOidcProviders : StoreOp := "reencrypt.ListOidcProvidersForReencrypt".
Definition StoreReencryptOidcProvider : StoreOp := "reencrypt.ReencryptOidcProvider".
Definition StoreReencryptListSelfConfigSeedInputs : StoreOp := "reencrypt.ListSelfConfigSeedInputsForReencrypt".
Definition StoreReencryptSelfConfigSeedInput : StoreOp := "reencrypt.ReencryptSelfConfigSeedInput".
Definition StoreReencryptListSamlKeys : StoreOp := "reencrypt.ListSamlKeysForReencrypt".
Definition StoreReencryptSamlKey : StoreOp := "reencrypt.ReencryptSamlKey".
Definition StoreReencryptListRemotes : StoreOp := "reencrypt.ListRemotesForReencrypt".
Definition StoreReencryptRemote : StoreOp := "reencrypt.ReencryptRemote".
Definition StoreKeysAssertRootKeyEpoch : StoreOp := "keys.AssertRootKeyEpoch".
Definition StoreKeysRootRotatePrepare : StoreOp := "keys.RootKeyRotatePrepare".
Definition StoreKeysRootRotateFinalize : StoreOp := "keys.RootKeyRotateFinalize".
Definition StoreKeysInsertScopeGeneration : StoreOp := "keys.InsertScopeGeneration".
Definition StoreScanningDismissalsInsert : StoreOp := "scanningdismissals.Insert".
Definition StoreScanningDismissalsExists : StoreOp := "scanningdismissals.Exists".
Definition StoreScanningDismissalsDeleteByKey : StoreOp := "scanningdismissals.DeleteByKey".
Definition StoreScanningDismissalsDeleteByProject : StoreOp := "scanningdismissals.DeleteByProject".
Definition StoreScanningDismissalsDeleteAll : StoreOp := "scanningdismissals.DeleteAll".
Definition StoreApprovalPolicyInsert : StoreOp := "approvals.InsertPolicy".
Definition StoreApprovalPolicyGet : StoreOp := "approvals.GetPolicy".
Definition StoreApprovalPolicyCovering : StoreOp := "approvals.CoveringPolicy".
Definition StoreApprovalPolicyList : StoreOp := "approvals.ListPolicies".
Definition StoreApprovalPolicyUpdate : StoreOp := "approvals.UpdatePolicy".
Definition StoreApprovalPolicyDelete : StoreOp := "approvals.DeletePolicy".
Definition StoreApprovalApproverInsert : StoreOp := "approvals.InsertApprover".
Definition StoreApprovalApproverList : StoreOp := "approvals.ListApprovers".
Definition StoreApprovalApproverClear : StoreOp := "approvals.ClearApprovers".
Definition StoreApprovalBypasserInsert : StoreOp := "approvals.InsertBypasser".
Definition StoreApprovalBypasserList : StoreOp := "approvals.ListBypassers".
Definition StoreApprovalBypasserClear : StoreOp := "approvals.ClearBypassers".
Definition StoreApprovalBypasserGet : StoreOp := "approvals.IsBypasser".
Definition StoreApprovalRequestInsert : StoreOp := "approvals.InsertRequest".
Definition StoreApprovalRequestGet : StoreOp := "approvals.GetRequest".
Definition StoreApprovalRequestList : StoreOp := "approvals.ListRequests".
Definition StoreApprovalRequestUpdateState : StoreOp := "approvals.UpdateRequestState".
Definition StoreApprovalRequestSelectExpiry : StoreOp := "approvals.SelectExpired".
Definition StoreApprovalRequestMarkExpired : StoreOp := "approvals.MarkExpired".
Definition StoreApprovalRequestCounts : StoreOp := "approvals.OperationalCounts".
Definition StoreApprovalVoteInsert : StoreOp := "approvals.InsertVote".
Definition StoreApprovalVoteGet : StoreOp := "approvals.GetVote".
Definition StoreApprovalVoteList : StoreOp := "approvals.ListVotes".
Definition StoreRemotesCreate : StoreOp := "remotes.Create".
Definition StoreRemotesList : StoreOp := "remotes.List".
Definition StoreRemotesGet : StoreOp := "remotes.Get".
Definition StoreRemotesGetByName : StoreOp := "remotes.GetByName".
Definition StoreRemotesCount : StoreOp := "remotes.Count".
Definition StoreRemotesRename : StoreOp := "remotes.Rename".
Definition StoreRemotesDelete : StoreOp := "remotes.Delete".
Definition StoreRemotesSealed : StoreOp := "remotes.SealedCredential".
Definition StoreRemoteSnapshotsList : StoreOp := "remotes.Snapshots".
Definition StoreRemoteSnapshotsGet : StoreOp := "remotes.Snapshot".
Definition StoreRemoteSnapshotsWrite : StoreOp := "remotes.WriteSnapshot".
Definition StoreRemoteSnapshotsFail : StoreOp := "remotes.RecordFetchFailure".
Definition StoreAuditTenantInsert : StoreOp := "audit.InsertTenant".
Definition StoreAuditInstanceInsert : StoreOp := "audit.InsertInstance".
Definition StoreAuditClaimOfflineRecord : StoreOp := "audit.ClaimOfflineRecord".
Definition StoreAuditTenantPage : StoreOp := "audit.PageTenant".
Definition StoreAuditInstancePage : StoreOp := "audit.PageInstance".
Definition StoreAuditTenantMaxSeq : StoreOp := "audit.MaxTenantSeq".
Definition StoreAuditInstanceMaxSeq : StoreOp := "audit.MaxInstanceSeq".
Definition StoreSCIMLockBinding : StoreOp := "scim.LockBinding".
Definition StoreSCIMCreateCredential : StoreOp := "scim.CreateCredential".
Definition StoreSCIMCredential : StoreOp := "scim.Credential".
Definition StoreSCIMCredentials : StoreOp := "scim.Credentials".
Definition StoreSCIMRevokeCredential : StoreOp := "scim.RevokeCredential".
Definition StoreSCIMRevokeCredentialsForBinding : StoreOp := "scim.RevokeCredentialsForBinding".
Definition StoreSCIMDeleteCredentialsForBinding : StoreOp := "scim.DeleteCredentialsForBinding".
Definition StoreSCIMCreateBinding : StoreOp := "scim.CreateBinding".
Definition StoreSCIMBinding : StoreOp := "scim.Binding".
Definition StoreSCIMBindings : StoreOp := "scim.Bindings".
Definition StoreSCIMTouchBinding : StoreOp := "scim.TouchBinding".
Definition StoreSCIMDeleteBinding : StoreOp := "scim.DeleteBinding".
Definition StoreSCIMRetireConnection : StoreOp := "scim.RetireConnectionPrincipal".
Definition StoreSCIMCreateMapping : StoreOp := "scim.CreateMapping".
Definition StoreSCIMMapping : StoreOp := "scim.Mapping".
Definition StoreSCIMMappings : StoreOp := "scim.Mappings".
Definition StoreSCIMMappingsForGroup : StoreOp := "scim.MappingsForGroup".
Definition StoreSCIMSetMappingInert : StoreOp := "scim.SetMappingInert".
Definition StoreSCIMUpdateMappingTemplate : StoreOp := "scim.UpdateMappingTemplate".
Definition StoreSCIMDeleteMapping : StoreOp := "scim.DeleteMapping".
Definition StoreSCIMDeleteMappingsForBinding : StoreOp := "scim.DeleteMappingsForBinding".
Definition StoreSCIMCreateUser : StoreOp := "scim.CreateUser".
Definition StoreSCIMUser : StoreOp := "scim.User".
Definition StoreSCIMUserByUserName : StoreOp := "scim.UserByUserName".
Definition StoreSCIMPageUsers : StoreOp := "scim.PageUsers".
Definition StoreSCIMUserBySubject : StoreOp := "scim.UserBySubject".
Definition StoreSCIMUserByAccount : StoreOp := "scim.UserByAccount".
Definition StoreSCIMUsers : StoreOp := "scim.Users".
Definition StoreSCIMUpdateUser : StoreOp := "scim.UpdateUser".
Definition StoreSCIMDeleteUser : StoreOp := "scim.DeleteUser".
Definition StoreSCIMDeleteUsersForBinding : StoreOp := "scim.DeleteUsersForBinding".
Definition StoreSCIMCreateGroup : StoreOp := "scim.CreateGroup".
Definition StoreSCIMGroup : StoreOp := "scim.Group".
Definition StoreSCIMPageGroups : StoreOp := "scim.PageGroups".
Definition StoreSCIMGroups : StoreOp := "scim.Groups".
Definition StoreSCIMUpdateGroup : StoreOp := "scim.UpdateGroup".
Definition StoreSCIMDeleteGroup : StoreOp := "scim.DeleteGroup".
Definition StoreSCIMDeleteGroupsForBinding : StoreOp := "scim.DeleteGroupsForBinding".
Definition StoreSCIMAddGroupMember : StoreOp := "scim.AddGroupMember".
Definition StoreSCIMGroupMembers : StoreOp := "scim.GroupMembers".
Definition StoreSCIMMembershipsForUser : StoreOp := "scim.MembershipsForUser".
Definition StoreSCIMRemoveGroupMember : StoreOp := "scim.RemoveGroupMember".
Definition StoreSCIMClearGroupMembers : StoreOp := "scim.ClearGroupMembers".
Definition StoreSCIMRemoveMembershipsForUser : StoreOp := "scim.RemoveMembershipsForUser".
Definition StoreSCIMDeleteGroupMembersForBinding : StoreOp := "scim.DeleteGroupMembersForBinding".
Definition StoreSCIMEnterAttention : StoreOp := "scim.EnterAttention".
Definition StoreSCIMAttention : StoreOp := "scim.Attention".
Definition StoreSCIMClearAttention : StoreOp := "scim.ClearAttention".
Definition StoreSCIMDeleteAttentionForBinding : StoreOp := "scim.DeleteAttentionForBinding".

(** ** System mint sites *)
Definition SiteSelfConfigSeed : SystemSite := "self-config-seed".
Definition SiteSelfConfigRecovery : SystemSite := "self-config-recovery".
Definition SiteSelfConfigRuntime : SystemSite := "self-config-runtime".
Definition SiteEscrow : SystemSite := "local-escrow-verification".
Definition SiteBoot : SystemSite := "boot".
Definition SiteMigration : SystemSite := "migration".
Definition SiteRecoveryReconcile : SystemSite := "recovery-mode-reconciliation".
Definition SiteBreakGlass : SystemSite := "break-glass".
Definition SiteScheduler : SystemSite := "scheduler".
