(* ===== verification/EventNames.v ===== *)
(** * Audit event type names: [internal/audit/registry.go], [privacy.go]

    The string constants of the closed audit catalogue. *)

From S2P Require Import Prelude.

(** Go named string type. *)
Abbreviation EventType := string (only parsing).

Definition EventSelfConfigResumed : EventType := "self_config.resumed".
Definition EventSelfConfigTargetCommitted : EventType := "self_config.target_committed".
Definition EventSelfConfigRecovered : EventType := "self_config.recovered".
Definition EventSelfConfigStatusRead : EventType := "self_config.status_read".
Definition EventSelfConfigAdopted : EventType := "self_config.adopted".
Definition EventSelfConfigApplyRequested : EventType := "self_config.apply_requested".
Definition EventSelfConfigDeploymentRestoreRequested : EventType := "self_config.deployment_restore_requested".
Definition EventSelfConfigTestRequested : EventType := "self_config.test_requested".
Definition EventSelfConfigTestCompleted : EventType := "self_config.test_completed".
Definition EventSelfConfigProjectPrepared : EventType := "self_config.project_prepared".
Definition EventSelfConfigApplied : EventType := "self_config.applied".
Definition EventSelfConfigRecoveryFenced : EventType := "self_config.recovery_fenced".
Definition EventGrantDenied : EventType := "grant.denied".
Definition EventAuditQuery : EventType := "audit.query".
Definition EventAuditExportStarted : EventType := "audit.export_started".
Definition EventAuditExportCompleted : EventType := "audit.export_completed".
Definition EventAuthLogin : EventType := "auth.login".
Definition EventAuthLogout : EventType := "auth.logout".
Definition EventAuthArtifactClassRefused : EventType := "auth.artifact_class_refused".
Definition EventAuthSessionCreated : EventType := "auth.session_created".
Definition EventAuthAuthorityMinted : EventType := "auth.credential_authority_minted".
Definition EventAuthCredentialEstablished : EventType := "auth.credential_established".
Definition EventAuthAuthorityRefused : EventType := "auth.credential_authority_refused".
Definition EventAuthThrottleCrossed : EventType := "auth.throttle_crossed".
Definition EventAuthFactorEnrolled : EventType := "auth.factor_enrolled".
Definition EventAuthFactorRemoved : EventType := "auth.factor_removed".
Definition EventAuthProfileUpdated : EventType := "auth.profile_updated".
Definition EventAuthRecoveryCodesGenerated : EventType := "auth.recovery_codes_generated".
Definition EventAuthRecoveryCodeConsumed : EventType := "auth.recovery_code_consumed".
Definition EventAuthReauthenticated : EventType := "auth.reauthenticated".
Definition EventAuthCLIReauthHandoff : EventType := "auth.cli_reauth_handoff".
Definition EventAuthPasskeyAdded : EventType := "auth.passkey_added".
Definition EventAuthPasskeyRemoved : EventType := "auth.passkey_removed".
Definition EventAuthPasskeyCloned : EventType := "auth.passkey_cloned".
Definition EventOIDCLogin : EventType := "auth.oidc_login".
Definition EventOIDCRefused : EventType := "auth.oidc_refused".
Definition EventIdentityLinked : EventType := "auth.identity_linked".
Definition EventIdentityUnlinked : EventType := "auth.identity_unlinked".
Definition EventOIDCProviderChanged : EventType := "auth.provider_changed".
Definition EventOIDCProviderRead : EventType := "auth.provider_read".
Definition EventSAMLLogin : EventType := "auth.saml_login".
Definition EventSAMLReauth : EventType := "auth.saml_reauth".
Definition EventSAMLProviderConfigure : EventType := "auth.saml_provider_configure".
Definition EventSAMLProviderRefresh : EventType := "auth.saml_provider_refresh".
Definition EventSAMLProviderRemove : EventType := "auth.saml_provider_remove".
Definition EventSAMLCertChange : EventType := "auth.saml_cert_change".
Definition EventSAMLEmailNameIDOptIn : EventType := "auth.saml_nameid_email_optin".
Definition EventSAMLSPKey : EventType := "auth.saml_sp_key".
Definition EventSAMLMetadataExpiryWarning : EventType := "auth.saml_metadata_expiry_warning".
Definition EventAuthCredentialResetIssued : EventType := "auth.credential_reset_issued".
Definition EventAuthEffectiveWindowLowered : EventType := "auth.effective_window_lowered".
Definition EventOrgCreated : EventType := "settings.org_created".
Definition EventOrgRenamed : EventType := "settings.org_renamed".
Definition EventOrgDeleted : EventType := "settings.org_deleted".
Definition EventOrgRead : EventType := "settings.org_read".
Definition EventProjectCreated : EventType := "settings.project_created".
Definition EventProjectRenamed : EventType := "settings.project_renamed".
Definition EventProjectDeleted : EventType := "settings.project_deleted".
Definition EventEnvCreated : EventType := "settings.environment_created".
Definition EventEnvParameterChanged : EventType := "settings.environment_parameter_changed".
Definition EventEnvRenamed : EventType := "settings.environment_renamed".
Definition EventEnvDeleted : EventType := "settings.environment_deleted".
Definition EventEnvReordered : EventType := "settings.environment_reordered".
Definition EventEnvNoteChanged : EventType := "settings.environment_note_changed".
Definition EventFolderCreated : EventType := "settings.folder_created".
Definition EventFolderRenamed : EventType := "settings.folder_renamed".
Definition EventFolderDeleted : EventType := "settings.folder_deleted".
Definition EventGrantCreated : EventType := "grant.created".
Definition EventGrantModified : EventType := "grant.modified".
Definition EventGrantRevoked : EventType := "grant.revoked".
Definition EventGrantTemplateApplied : EventType := "grant.template_applied".
Definition EventGrantMembershipRead : EventType := "grant.membership_read".
Definition EventMemberInvited : EventType := "member.invited".
Definition EventReauthWindowChanged : EventType := "settings.reauthentication_window_changed".
Definition EventProtectedFlagChange : EventType := "settings.protected_flag_changed".
Definition EventOrgRetentionChanged : EventType := "settings.org_retention_changed".
Definition EventProjectRetentionChanged : EventType := "settings.project_retention_changed".
Definition EventAuditRetentionChanged : EventType := "retention.audit_policy_changed".
Definition EventAuditRetentionPruned : EventType := "retention.audit_pruned".
Definition EventRetentionHealthRead : EventType := "retention.health_read".
Definition EventRetentionPayloadGC : EventType := "retention.payload_gc".
Definition EventRetentionPruneRun : EventType := "retention.prune_run".
Definition EventUpdateStatusRead : EventType := "system.update_status_read".
Definition EventUpdateRequested : EventType := "system.update_requested".
Definition EventUpdateOutcome : EventType := "system.update_outcome".
Definition EventBreakGlassGrant : EventType := "recovery.break_glass_grant".
Definition EventApprovalPolicyChanged : EventType := "approval.policy_changed".
Definition EventApprovalPolicyRead : EventType := "approval.policy_read".
Definition EventApprovalRequested : EventType := "approval.requested".
Definition EventApprovalVoted : EventType := "approval.voted".
Definition EventApprovalMerged : EventType := "approval.merged".
Definition EventApprovalInvalidated : EventType := "approval.invalidated".
Definition EventApprovalExpired : EventType := "approval.expired".
Definition EventApprovalBypassed : EventType := "approval.bypassed".
Definition EventBackupExported : EventType := "backup.exported".
Definition EventBackupExportSkipped : EventType := "backup.export_skipped".
Definition EventRestoreCompleted : EventType := "restore.completed".
Definition EventRestorePrincipalReconciled : EventType := "restore.principal_reconciled".
Definition EventBackupExportFailed : EventType := "backup.export_failed".
Definition EventRestoreDrillCompleted : EventType := "restore.drill_completed".
Definition EventKeyCreated : EventType := "settings.key_created".
Definition EventKeyRenamed : EventType := "settings.key_renamed".
Definition EventKeyDeleted : EventType := "settings.key_deleted".
Definition EventKeyDeclarationChanged : EventType := "settings.key_declaration_changed".
Definition EventKeyMetadataChanged : EventType := "settings.key_metadata_changed".
Definition EventKeyReclassified : EventType := "settings.key_reclassified".
Definition EventKeyRevealGateAttempt : EventType := "settings.key_reveal_gate_attempt".
Definition EventDefinitionsPlanCreated : EventType := "definitions.plan_created".
Definition EventDefinitionsApplied : EventType := "definitions.applied".
Definition EventDefinitionsApplyRejectedStale : EventType := "definitions.apply_rejected_stale".
Definition EventDefinitionsDeletionRefused : EventType := "definitions.deletion_refused".
Definition EventDefinitionsAdditiveModificationRefused : EventType := "definitions.additive_modification_refused".
Definition EventSettingsDefinitionsSourceChanged : EventType := "settings.definitions_source_changed".
Definition EventSettingsMachineRevealChanged : EventType := "settings.machine_reveal_changed".
Definition EventValueSet : EventType := "value.set".
Definition EventValueCleared : EventType := "value.cleared".
Definition EventValueRevealed : EventType := "disclosure.value_revealed".
Definition EventValuesExported : EventType := "disclosure.values_exported".
Definition EventValueStaged : EventType := "value.staged".
Definition EventRevisionPublished : EventType := "revision.published".
Definition EventRevisionRestoreStaged : EventType := "revision.restore_staged".
Definition EventPinCreated : EventType := "pin.created".
Definition EventPinReassigned : EventType := "pin.reassigned".
Definition EventPinRenewed : EventType := "pin.renewed".
Definition EventPinReleased : EventType := "pin.released".
Definition EventPinExpiryRefused : EventType := "pin.expiry_refused".
Definition EventTokenKeyRotated : EventType := "crypto.token_key_rotated".
Definition EventScanningKeyRotated : EventType := "crypto.scanning_key_rotated".
Definition EventScanningFindingWarned : EventType := "scanning.finding_warned".
Definition EventScanningFindingDismissed : EventType := "scanning.finding_dismissed".
Definition EventScanningFindingBlocked : EventType := "scanning.finding_blocked".
Definition EventScanningFindingOverridden : EventType := "scanning.finding_overridden".
Definition EventDEKRotated : EventType := "crypto.dek_rotated".
Definition EventReencryptCompleted : EventType := "crypto.reencrypt_completed".
Definition EventMasterKeyRotated : EventType := "crypto.master_key_rotated".
Definition EventRootEscrowVerified : EventType := "crypto.root_escrow_verified".
Definition EventRootKeyRotationPrepared : EventType := "crypto.root_key_rotation_prepared".
Definition EventRootKeyRotationVerified : EventType := "crypto.root_key_rotation_verified".
Definition EventRootKeyRotationFinalized : EventType := "crypto.root_key_rotation_finalized".
Definition EventValueCopied : EventType := "disclosure.value_copied".
Definition EventValueImported : EventType := "value.imported".
Definition EventKeyGroupCreated : EventType := "settings.key_group_created".
Definition EventKeyGroupRenamed : EventType := "settings.key_group_renamed".
Definition EventKeyGroupDeleted : EventType := "settings.key_group_deleted".
Definition EventKeyGroupMembershipChanged : EventType := "settings.key_group_membership_changed".
Definition EventServiceAccountCreated : EventType := "identity.service_account_created".
Definition EventServiceAccountDeleted : EventType := "identity.service_account_deleted".
Definition EventCredentialMinted : EventType := "identity.credential_minted".
Definition EventCredentialRevoked : EventType := "identity.credential_revoked".
Definition EventMachineGrantWidened : EventType := "identity.grant_widened".
Definition EventCredentialPolicyChanged : EventType := "identity.lifetime_policy_changed".
Definition EventCredentialsListed : EventType := "identity.credentials_listed".
Definition EventCredentialPolicyRead : EventType := "identity.lifetime_policy_read".
Definition EventBindingCreated : EventType := "identity.binding_created".
Definition EventBindingReactivated : EventType := "identity.binding_reactivated".
Definition EventFederationIssuerChanged : EventType := "identity.federation_issuer_changed".
Definition EventFederationIssuerRead : EventType := "identity.federation_issuer_read".
Definition EventFederationRefused : EventType := "identity.federation_refused".
Definition EventJWKSRefreshFailed : EventType := "identity.jwks_refresh_failed".
Definition EventDeliveryFetched : EventType := "identity.delivery_fetched".
Definition EventOfflineRecordsReconciled : EventType := "identity.offline_records_reconciled".
Definition EventDisclosure : EventType := "identity.disclosure".
Definition EventSCIMUserProvisioned : EventType := "scim.user_provisioned".
Definition EventSCIMUserUpdated : EventType := "scim.user_updated".
Definition EventSCIMUserDeprovisioned : EventType := "scim.user_deprovisioned".
Definition EventSCIMUserDeleted : EventType := "scim.user_deleted".
Definition EventSCIMGroupCreated : EventType := "scim.group_created".
Definition EventSCIMGroupUpdated : EventType := "scim.group_updated".
Definition EventSCIMGroupDeleted : EventType := "scim.group_deleted".
Definition EventSCIMGroupMembership : EventType := "scim.group_membership_changed".
Definition EventSCIMLockoutRetention : EventType := "scim.lockout_retention".
Definition EventSCIMLockoutRetentionReleased : EventType := "scim.lockout_retention_released".
Definition EventSCIMBindingCreated : EventType := "scim.binding_created".
Definition EventSCIMBindingDeleted : EventType := "scim.binding_deleted".
Definition EventSCIMMappingCreated : EventType := "scim.mapping_created".
Definition EventSCIMMappingUpdated : EventType := "scim.mapping_updated".
Definition EventSCIMMappingDeleted : EventType := "scim.mapping_deleted".
Definition EventSCIMCredentialMinted : EventType := "scim.credential_minted".
Definition EventSCIMCredentialRotated : EventType := "scim.credential_rotated".
Definition EventSCIMCredentialRevoked : EventType := "scim.credential_revoked".
Definition EventSCIMAttentionEntered : EventType := "scim.attention_entered".
Definition EventSCIMAttentionCleared : EventType := "scim.attention_cleared".
Definition EventSCIMDirectoryRead : EventType := "scim.directory_read".
Definition EventSCIMAdminRead : EventType := "scim.admin_read".
Definition EventSCIMCredentialRefused : EventType := "scim.credential_refused".
Definition EventRemoteAdded : EventType := "remote.added".
Definition EventRemoteRemoved : EventType := "remote.removed".
Definition EventRemoteRenamed : EventType := "remote.renamed".
Definition EventRemoteFetchFailed : EventType := "remote.fetch_failed".
Definition EventRemoteDirectoryViewed : EventType := "remote.directory_viewed".
Definition EventRemoteCredentialMinted : EventType := "remote.credential_minted".
Definition EventRemoteCredentialRevoked : EventType := "remote.credential_revoked".
Definition EventRemoteDirectoryServed : EventType := "remote.directory_served".
Definition EventRemoteOriginAllowlistChanged : EventType := "remote.origin_allowlist_changed".
Definition EventRemoteWorkspaceSessionIssued : EventType := "remote.workspace_session_issued".
Definition EventRemoteWorkspaceSessionRevoked : EventType := "remote.workspace_session_revoked".
Definition EventRemoteHandoffFailed : EventType := "remote.handoff_failed".
Definition EventRemoteCredentialsListed : EventType := "remote.credentials_listed".
Definition EventRemoteOriginAllowlistRead : EventType := "remote.origin_allowlist_read".
Definition EventRemoteWorkspaceHandoffRead : EventType := "remote.workspace_handoff_read".
Definition EventAdapterConfigure : EventType := "adapter.configure".
Definition EventAdapterCredentialReplace : EventType := "adapter.credential_replace".
Definition EventAdapterCredentialRevoke : EventType := "adapter.credential_revoke".
Definition EventAdapterAdopt : EventType := "adapter.adopt".
Definition EventAdapterInspect : EventType := "adapter.inspect".
Definition EventAdapterPlan : EventType := "adapter.plan".
Definition EventAdapterTest : EventType := "adapter.test".
Definition EventAdapterSyncRequested : EventType := "adapter.sync_requested".
Definition EventAdapterPushIntent : EventType := "adapter.push_intent".
Definition EventAdapterPushOutcome : EventType := "adapter.push_outcome".
Definition EventAdapterKeyDelivered : EventType := "adapter.key_delivered".
Definition EventAdapterAbort : EventType := "adapter.abort".
Definition EventAdapterScrub : EventType := "adapter.scrub".
Definition EventAdapterSuperseded : EventType := "adapter.superseded".
Definition EventDynamicProviderConfigured : EventType := "dynamic.provider_configured".
Definition EventDynamicProviderCredentialReplace : EventType := "dynamic.provider_credential_replace".
Definition EventDynamicProviderCredentialRevoke : EventType := "dynamic.provider_credential_revoke".
Definition EventDynamicProviderDeleted : EventType := "dynamic.provider_deleted".
Definition EventDynamicProviderInspected : EventType := "dynamic.provider_inspected".
Definition EventDynamicLeaseTransitionIntent : EventType := "dynamic.lease_transition_intent".
Definition EventDynamicLeaseTransitionOutcome : EventType := "dynamic.lease_transition_outcome".
Definition EventDynamicLeaseDisclosed : EventType := "dynamic.lease_disclosed".
Definition EventDynamicLeaseSettleRequested : EventType := "dynamic.lease_settle_requested".
Definition EventPrivacySubjectCorrected : EventType := "privacy.subject_corrected".
Definition EventPrivacySubjectReleased : EventType := "privacy.subject_released".
Definition EventPrivacySubjectExported : EventType := "privacy.subject_exported".
Definition EventPrivacySubjectRestricted : EventType := "privacy.subject_restricted".
Definition EventPrivacySubjectErased : EventType := "privacy.subject_erased".
