(* ===== verification/OperationTable.v ===== *)
(** * The operation policy table: [internal/authz/registry.go]

    The rows of [operationTable], the store-op groups and event lists they are
    built from, the read-only pin, and the system mint sites with their
    store-op and event sets. [Registry.v] validates the table and reads it. *)

From S2P Require Import Prelude Domain OperationNames EventNames.

#[local] Open Scope Z_scope.

(** [Class] is a Go [int]; [ClassStub] is declared in [classify.go]. *)
Abbreviation Class := Z (only parsing).
Definition ClassTenant : Class := 0.
Definition ClassInstance : Class := 1.
Definition ClassUnauthenticated : Class := 2.
Definition ClassSystem : Class := 3.
Definition ClassStub : Class := -1.

Record Atom := MkAtom { Cap : Capability; At : Level }.

Abbreviation Formula := (list Atom) (only parsing).

Record opSpec := MkOpSpec {
  class : Class;
  level : Level;
  formula : Formula;
  storeOps : gmap string bool;
  postGrantForbidden : bool;
  events : list EventType;
  auditedNone : bool;
  reviewExempt : bool }.

(** ** Store-op sets and event lists *)

Definition readOnlyStoreOps : gmap string bool :=
  licensed [StoreOrgsGet; StoreOrgsList; StoreOrgsCount; StoreDynamicLeasesGet;
   StoreDynamicLeasesList; StoreProjectsGet; StoreProjectsList; StoreProjectsListAll;
   StoreDefinitionsLatestAppliedPlan; StoreRemotesList; StoreRemotesGet;
   StoreRemotesGetByName; StoreRemotesCount; StoreRemoteSnapshotsList;
   StoreRemoteSnapshotsGet; StoreEnvironmentsGet; StoreEnvironmentParametersGet;
   StoreEnvironmentsList; StoreEnvironmentsListPage; StoreEnvironmentsCount;
   StoreEnvironmentsNextOrder; StoreFoldersGet; StoreFoldersList;
   StoreEnvironmentsGetSettings; StoreCatalogueGet; StoreCatalogueList;
   StoreCatalogueListPage; StoreCatalogueGetInProject; StoreCataloguePresenceForKey;
   StoreCatalogueCount; StoreAdaptersTarget; StoreAdaptersGet;
   StoreAdaptersConfiguration; StoreAdaptersList; StoreAdaptersListTargets;
   StoreAdaptersTargetKeyIDs; StoreAdaptersTargetKeys; StoreAdaptersHealthCounts;
   StoreAdaptersMapping; StoreAdaptersPlanMaterial; StoreAdaptersTargetEnvironments;
   StoreAdaptersEnvironments; StoreAdaptersConflicts; StoreAdaptersMove;
   StoreCatalogueGroupGet; StoreCatalogueGroupList; StoreCatalogueGroupCount;
   StoreCataloguePresenceList; StoreCatalogueRevisionGet; StoreKeysActiveMasterWrappers;
   StoreKeysActiveTier3; StoreKeysTier3Versions; StoreKeysAllOpenableTier3;
   StoreKeysAssertActiveDEKVersion; StoreValuesListForReencrypt;
   StoreSnapshotsListForReencrypt; StorePendingListForReencrypt;
   StoreAdaptersListForReencrypt; StoreAdaptersListMovesForReencrypt;
   StoreReencryptListPasswordCreds; StoreReencryptListTotpCreds;
   StoreReencryptListRecoveryCodes; StoreReencryptListOidcProviders;
   StoreReencryptListSamlKeys; StoreReencryptListRemotes; StoreAuditTenantPage;
   StoreAuditInstancePage; StoreAuditTenantMaxSeq; StoreAuditInstanceMaxSeq;
   StoreValuesGet; StoreValuesList; StoreValuesEnvironmentsWithValue;
   StorePendingListForOwner; StorePendingListForOwnerInEnvironment;
   StorePendingListForOwnerInEnvironmentPage; StorePendingListMarkers;
   StorePendingCountForProjectExcludingCell; StoreValuesPayloadBytesForProject;
   StoreSnapshotsPayloadBytesForProject; StoreValuesInstancePayloadByProject;
   StoreSnapshotsInstancePayloadByProject; StoreValuesSampleSecretEntry;
   StoreBackupStateGet; StoreSnapshotsLatest; StoreSnapshotsAtRevision;
   StoreSnapshotsList; StoreSnapshotsListPage; StoreSnapshotsEntries;
   StoreSnapshotsParameterContract; StoreSnapshotsSecretValueOccurrenceIDs;
   StoreSnapshotsChanges; StorePinsGetForWorkload; StorePinsList;
   StoreApprovalPolicyGet; StoreApprovalPolicyList; StoreApprovalPolicyCovering;
   StoreApprovalApproverList; StoreApprovalBypasserList; StoreApprovalBypasserGet;
   StoreApprovalRequestGet; StoreApprovalRequestList; StoreApprovalVoteList;
   StoreApprovalRequestSelectExpiry; StoreApprovalRequestCounts; StoreSCIMUserByAccount;
   StoreSCIMMembershipsForUser].

Definition bootKeyringOps : gmap string bool :=
  licensed [StoreKeysActiveMasterWrappers; StoreKeysActiveTier3; StoreKeysTier3Versions;
   StoreKeysAllOpenableTier3; StoreKeysAcquireHierarchyGeneration;
   StoreKeysInsertMaster; StoreKeysInsertTier3; StoreKeysInsertScopeGeneration].

Definition scimAdminFormula : Formula :=
  [MkAtom CapManageMembers LevelOrg].

Definition scimWireFormula : Formula :=
  [MkAtom CapSCIMProvision LevelOrg].

Definition grantCureEvents : list EventType :=
  [EventSCIMLockoutRetentionReleased; EventSCIMAttentionCleared; EventGrantRevoked].

Definition grantCureStoreOps : gmap string bool :=
  licensed [StoreSCIMAttention; StoreSCIMClearAttention].

(** [withCure]: both key sets, every entry [true]. *)
Definition withCure (base : gmap string bool) : gmap string bool :=
  ((fun _ => true) <$> base) ∪ ((fun _ => true) <$> grantCureStoreOps).

Definition scimUserMutationEvents : list EventType :=
  [EventSCIMUserUpdated; EventSCIMUserDeprovisioned; EventGrantCreated;
   EventGrantModified; EventGrantRevoked; EventSCIMLockoutRetention;
   EventSCIMAttentionEntered; EventSCIMAttentionCleared].

Definition scimGroupMutationEvents : list EventType :=
  [EventSCIMGroupUpdated; EventSCIMGroupMembership; EventGrantCreated;
   EventGrantModified; EventGrantRevoked; EventSCIMLockoutRetention;
   EventSCIMLockoutRetentionReleased; EventSCIMAttentionEntered;
   EventSCIMAttentionCleared].

(** [scimOps]: the audit insert and the keys of every group. *)
Definition scimOps (groups : list (gmap string bool)) : gmap string bool :=
  foldr (fun g out => ((fun _ => true) <$> g) ∪ out) (licensed [StoreAuditTenantInsert]) groups.

Definition scimCredentialOps : gmap string bool :=
  licensed [StoreSCIMCreateCredential; StoreSCIMCredential; StoreSCIMCredentials;
   StoreSCIMRevokeCredential; StoreSCIMRevokeCredentialsForBinding;
   StoreSCIMDeleteCredentialsForBinding].

Definition scimBase : gmap string bool :=
  licensed [StoreSCIMLockBinding; StoreSCIMBinding; StoreSCIMAttention; StoreSCIMEnterAttention;
   StoreSCIMClearAttention].

Definition scimAttentionReadOps : gmap string bool :=
  licensed [StoreSCIMCredentials].

Definition scimWireBase : gmap string bool :=
  licensed [StoreSCIMTouchBinding].

Definition scimDiscoveryOps : gmap string bool :=
  licensed [StoreSCIMBinding; StoreSCIMTouchBinding].

Definition scimDirectoryOps : gmap string bool :=
  licensed [StoreProjectsList; StoreSCIMUser; StoreSCIMUsers; StoreSCIMUserByUserName;
   StoreSCIMPageUsers; StoreSCIMUserBySubject; StoreSCIMUserByAccount; StoreSCIMGroup;
   StoreSCIMGroups; StoreSCIMPageGroups; StoreSCIMGroupMembers;
   StoreSCIMMembershipsForUser; StoreSCIMMappings; StoreSCIMMappingsForGroup;
   StoreSCIMMapping].

Definition scimUserWriteOps : gmap string bool :=
  licensed [StoreSCIMCreateUser; StoreSCIMUpdateUser; StoreSCIMDeleteUser;
   StoreSCIMRemoveMembershipsForUser].

Definition scimGroupWriteOps : gmap string bool :=
  licensed [StoreSCIMCreateGroup; StoreSCIMUpdateGroup; StoreSCIMDeleteGroup;
   StoreSCIMAddGroupMember; StoreSCIMRemoveGroupMember; StoreSCIMClearGroupMembers].

Definition scimMappingWriteOps : gmap string bool :=
  licensed [StoreSCIMCreateMapping; StoreSCIMUpdateMappingTemplate; StoreSCIMDeleteMapping;
   StoreSCIMSetMappingInert].

Definition scimTeardownOps : gmap string bool :=
  licensed [StoreSCIMDeleteGroupMembersForBinding; StoreSCIMDeleteGroupsForBinding;
   StoreSCIMDeleteUsersForBinding; StoreSCIMDeleteMappingsForBinding;
   StoreSCIMDeleteAttentionForBinding; StoreSCIMDeleteBinding;
   StoreSCIMRetireConnection].

(** ** System mint sites *)

Definition systemSites : gmap string (gmap string bool) := list_to_map [
  (SiteSelfConfigSeed, licensed [StoreSelfConfigSeedInputs; StoreSelfConfigHostSeedInputs;
     StoreSelfConfigPutSeedInput]);
  (SiteSelfConfigRecovery, licensed [StoreSelfConfigBinding; StoreSelfConfigJobs; StoreSelfConfigNodes;
     StoreSelfConfigRetained; StoreSelfConfigRecoverTarget; StoreSnapshotsAtRevision;
     StoreSnapshotsEntries; StoreSnapshotsParameterContract; StoreCatalogueList;
     StoreCatalogueRevisionGet; StoreAuditTenantInsert]);
  (SiteSelfConfigRuntime, licensed [StoreSelfConfigBinding; StoreSelfConfigPreviousRevision; StoreSelfConfigRollout;
     StoreSelfConfigPutRollout; StoreSelfConfigNextRolloutSequence; StoreSelfConfigJobs;
     StoreSelfConfigJob; StoreSelfConfigNodes; StoreSelfConfigRetained;
     StoreSelfConfigPutNode; StoreSelfConfigFinishJob; StoreSelfConfigFenceRestored;
     StoreSnapshotsAtRevision; StoreSnapshotsEntries; StoreSnapshotsParameterContract;
     StoreCatalogueList; StoreCatalogueRevisionGet; StoreAuditTenantInsert]);
  (SiteEscrow, licensed [StoreKeysActiveMasterWrappers; StoreKeysAllOpenableTier3;
     StoreKeysAcquireHierarchyGeneration; StoreEscrowVerificationWrite;
     StoreAuditInstanceInsert]);
  (SiteBoot, bootKeyringOps);
  (SiteMigration, ∅);
  (SiteRecoveryReconcile, ∅);
  (SiteBreakGlass, ∅);
  (SiteScheduler, licensed [StoreOpsDiagnosticsRead; StoreRetentionEligible; StoreRetentionMarkCollected;
     StoreRetentionDeleteEntries; StoreRetentionLastSuccess;
     StoreRetentionSetLastSuccess; StoreAuditTenantInsert; StoreRetentionAuditPolicy;
     StoreRetentionSetAuditPolicy; StoreRetentionPruneAudit; StoreAuditInstanceInsert;
     StoreDefinitionsPlanPrune; StoreApprovalRequestSelectExpiry;
     StoreApprovalRequestMarkExpired; StoreApprovalRequestCounts;
     StoreValuesInstancePayloadByProject; StoreSnapshotsInstancePayloadByProject;
     StoreBackupStateGet; StoreBackupStateSetExportSuccess;
     StoreBackupStateSetExportFailure; StoreBackupStateSetPruneSuccess;
     StoreBackupStateSetDrill; StoreValuesSampleSecretEntry; StoreAdaptersHealthCounts])].

Definition systemSiteEvents : gmap string (list EventType) := list_to_map [
  (SiteSelfConfigRecovery, [EventSelfConfigRecovered]);
  (SiteSelfConfigRuntime, [EventSelfConfigApplied; EventSelfConfigRecoveryFenced;
     EventSelfConfigTestCompleted]);
  (SiteEscrow, [EventRootEscrowVerified]);
  (SiteScheduler, [EventAuditRetentionChanged; EventAuditRetentionPruned; EventRetentionPayloadGC;
     EventRetentionPruneRun; EventUpdateOutcome; EventApprovalExpired;
     EventBackupExportFailed])].

(** ** Operation rows

    The table of the source in consecutive pieces. *)

(** [OpSelfConfigPreview] to [OpSAMLProviderPut]. *)
Definition operationRows_01 : list (Operation * opSpec) := [
  (OpSelfConfigPreview, {|
     class := ClassInstance; level := LevelNone;
     formula := [MkAtom CapInstanceConfig LevelNone; MkAtom CapManageMembers LevelNone];
     storeOps := licensed [StoreSelfConfigBinding; StoreSelfConfigSeedInputs; StoreAuditInstanceInsert];
     postGrantForbidden := false;
     events := [EventSelfConfigStatusRead];
     auditedNone := false; reviewExempt := false |});
  (OpSelfConfigStatus, {|
     class := ClassInstance; level := LevelNone;
     formula := [MkAtom CapInstanceConfig LevelNone];
     storeOps := licensed [StoreSelfConfigBinding; StoreSelfConfigRollout; StoreSelfConfigJobs;
        StoreSelfConfigJob; StoreSelfConfigNodes; StoreSelfConfigRetained;
        StoreAuditInstanceInsert];
     postGrantForbidden := false;
     events := [EventSelfConfigStatusRead];
     auditedNone := false; reviewExempt := false |});
  (OpSelfConfigAdopt, {|
     class := ClassInstance; level := LevelNone;
     formula := [MkAtom CapInstanceConfig LevelNone; MkAtom CapManageMembers LevelNone];
     storeOps := licensed [StoreSelfConfigBinding; StoreSelfConfigSeedInputs; StoreSelfConfigCreateBinding;
        StoreAuditInstanceInsert];
     postGrantForbidden := false;
     events := [EventSelfConfigAdopted];
     auditedNone := false; reviewExempt := false |});
  (OpSelfConfigApply, {|
     class := ClassTenant; level := LevelEnv;
     formula := [MkAtom CapInstanceConfig LevelNone; MkAtom CapRead LevelEnv;
        MkAtom CapPublish LevelEnv];
     storeOps := licensed [StoreSelfConfigBinding; StoreSelfConfigRollout; StoreSelfConfigPutRollout;
        StoreSelfConfigNextRolloutSequence; StoreSelfConfigJobs; StoreSelfConfigJob;
        StoreSelfConfigJobByIdempotencyKey; StoreSelfConfigNodes;
        StoreSelfConfigBeginJob; StoreSelfConfigCommitJob; StoreSelfConfigFinishJob;
        StoreSnapshotsAtRevision; StoreAuditTenantInsert];
     postGrantForbidden := false;
     events := [EventSelfConfigDeploymentRestoreRequested; EventSelfConfigApplyRequested;
        EventSelfConfigTargetCommitted; EventSelfConfigResumed];
     auditedNone := false; reviewExempt := false |});
  (OpSelfConfigTest, {|
     class := ClassTenant; level := LevelEnv;
     formula := [MkAtom CapInstanceConfig LevelNone; MkAtom CapRead LevelEnv];
     storeOps := licensed [StoreSelfConfigBinding; StoreSnapshotsAtRevision; StoreSnapshotsEntries;
        StoreSnapshotsParameterContract; StoreCatalogueList; StoreCatalogueRevisionGet;
        StoreAuditTenantInsert];
     postGrantForbidden := false;
     events := [EventSelfConfigTestRequested; EventSelfConfigTestCompleted];
     auditedNone := false; reviewExempt := false |});
  (OpSelfConfigProvisionProject, {|
     class := ClassTenant; level := LevelProject;
     formula := [MkAtom CapInstanceConfig LevelNone; MkAtom CapDefinitionsEdit LevelProject];
     storeOps := licensed [StoreKeysInsertInitialProjectDEK; StoreAuditTenantInsert];
     postGrantForbidden := false;
     events := [EventSelfConfigProjectPrepared];
     auditedNone := false; reviewExempt := false |});
  (OpOrgCreate, {|
     class := ClassInstance; level := LevelNone;
     formula := [MkAtom CapInstanceConfig LevelNone; MkAtom CapManageMembers LevelNone];
     storeOps := licensed [StoreOrgsCreate; StoreAuditInstanceInsert];
     postGrantForbidden := false;
     events := [EventOrgCreated];
     auditedNone := false; reviewExempt := false |});
  (OpOrgList, {|
     class := ClassInstance; level := LevelNone;
     formula := [MkAtom CapInstanceConfig LevelNone];
     storeOps := licensed [StoreOrgsList; StoreOrgsCount; StoreAuditInstanceInsert];
     postGrantForbidden := false;
     events := [EventOrgRead];
     auditedNone := false; reviewExempt := false |});
  (OpOrgGet, {|
     class := ClassTenant; level := LevelOrg;
     formula := [MkAtom CapRead LevelOrg];
     storeOps := licensed [StoreOrgsGet];
     postGrantForbidden := false;
     events := [];
     auditedNone := true; reviewExempt := false |});
  (OpOrgRename, {|
     class := ClassTenant; level := LevelOrg;
     formula := [MkAtom CapManageMembers LevelOrg];
     storeOps := licensed [StoreOrgsGet; StoreOrgsRename; StoreAuditTenantInsert];
     postGrantForbidden := false;
     events := [EventOrgRenamed];
     auditedNone := false; reviewExempt := false |});
  (OpOrgDelete, {|
     class := ClassTenant; level := LevelOrg;
     formula := [MkAtom CapInstanceConfig LevelNone];
     storeOps := licensed [StoreOrgsGet; StoreOrgsDelete; StoreAuditTenantInsert];
     postGrantForbidden := false;
     events := [EventOrgDeleted];
     auditedNone := false; reviewExempt := false |});
  (OpProviderPut, {|
     class := ClassInstance; level := LevelNone;
     formula := [MkAtom CapInstanceConfig LevelNone];
     storeOps := licensed [StoreKeysAssertActiveDEKVersion; StoreAuditInstanceInsert];
     postGrantForbidden := false;
     events := [EventOIDCProviderChanged];
     auditedNone := false; reviewExempt := false |});
  (OpProviderGet, {|
     class := ClassInstance; level := LevelNone;
     formula := [MkAtom CapInstanceConfig LevelNone];
     storeOps := licensed [StoreAuditInstanceInsert];
     postGrantForbidden := false;
     events := [EventOIDCProviderRead];
     auditedNone := false; reviewExempt := false |});
  (OpProviderList, {|
     class := ClassInstance; level := LevelNone;
     formula := [MkAtom CapInstanceConfig LevelNone];
     storeOps := licensed [StoreAuditInstanceInsert];
     postGrantForbidden := false;
     events := [EventOIDCProviderRead];
     auditedNone := false; reviewExempt := false |});
  (OpProviderDelete, {|
     class := ClassInstance; level := LevelNone;
     formula := [MkAtom CapInstanceConfig LevelNone];
     storeOps := licensed [StoreAuditInstanceInsert];
     postGrantForbidden := false;
     events := [EventOIDCProviderChanged];
     auditedNone := false; reviewExempt := false |});
  (OpSAMLProviderPut, {|
     class := ClassInstance; level := LevelNone;
     formula := [MkAtom CapInstanceConfig LevelNone];
     storeOps := licensed [StoreKeysAssertActiveDEKVersion; StoreAuditInstanceInsert];
     postGrantForbidden := false;
     events := [EventSAMLProviderConfigure; EventSAMLCertChange; EventSAMLEmailNameIDOptIn;
        EventSAMLSPKey; EventSAMLMetadataExpiryWarning];
     auditedNone := false; reviewExempt := false |})].

(** [OpSAMLProviderPatch] to [OpProjectDelete]. *)
Definition operationRows_02 : list (Operation * opSpec) := [
  (OpSAMLProviderPatch, {|
     class := ClassInstance; level := LevelNone;
     formula := [MkAtom CapInstanceConfig LevelNone];
     storeOps := licensed [StoreAuditInstanceInsert];
     postGrantForbidden := false;
     events := [EventSAMLProviderConfigure; EventSAMLEmailNameIDOptIn];
     auditedNone := false; reviewExempt := false |});
  (OpSAMLProviderGet, {|
     class := ClassInstance; level := LevelNone;
     formula := [MkAtom CapInstanceConfig LevelNone];
     storeOps := licensed [StoreAuditInstanceInsert];
     postGrantForbidden := false;
     events := [EventOIDCProviderRead; EventSAMLMetadataExpiryWarning];
     auditedNone := false; reviewExempt := false |});
  (OpSAMLProviderList, {|
     class := ClassInstance; level := LevelNone;
     formula := [MkAtom CapInstanceConfig LevelNone];
     storeOps := licensed [StoreAuditInstanceInsert];
     postGrantForbidden := false;
     events := [EventOIDCProviderRead; EventSAMLMetadataExpiryWarning];
     auditedNone := false; reviewExempt := false |});
  (OpSAMLProviderDelete, {|
     class := ClassInstance; level := LevelNone;
     formula := [MkAtom CapInstanceConfig LevelNone];
     storeOps := licensed [StoreAuditInstanceInsert];
     postGrantForbidden := false;
     events := [EventSAMLProviderRemove];
     auditedNone := false; reviewExempt := false |});
  (OpSAMLProviderRefreshMetadata, {|
     class := ClassInstance; level := LevelNone;
     formula := [MkAtom CapInstanceConfig LevelNone];
     storeOps := licensed [StoreAuditInstanceInsert];
     postGrantForbidden := false;
     events := [EventSAMLProviderRefresh; EventSAMLCertChange; EventSAMLMetadataExpiryWarning];
     auditedNone := false; reviewExempt := false |});
  (OpSAMLSPKeyList, {|
     class := ClassInstance; level := LevelNone;
     formula := [MkAtom CapInstanceConfig LevelNone];
     storeOps := licensed [StoreAuditInstanceInsert];
     postGrantForbidden := false;
     events := [EventOIDCProviderRead];
     auditedNone := false; reviewExempt := false |});
  (OpSAMLSPKeyRotate, {|
     class := ClassInstance; level := LevelNone;
     formula := [MkAtom CapInstanceConfig LevelNone];
     storeOps := licensed [StoreAuditInstanceInsert];
     postGrantForbidden := false;
     events := [EventSAMLSPKey];
     auditedNone := false; reviewExempt := false |});
  (OpSAMLSPKeyRetire, {|
     class := ClassInstance; level := LevelNone;
     formula := [MkAtom CapInstanceConfig LevelNone];
     storeOps := licensed [StoreAuditInstanceInsert];
     postGrantForbidden := false;
     events := [EventSAMLSPKey];
     auditedNone := false; reviewExempt := false |});
  (OpSAMLSPKeyCompromiseRetire, {|
     class := ClassInstance; level := LevelNone;
     formula := [MkAtom CapInstanceConfig LevelNone];
     storeOps := licensed [StoreAuditInstanceInsert];
     postGrantForbidden := false;
     events := [EventSAMLSPKey];
     auditedNone := false; reviewExempt := false |});
  (OpCredentialReset, {|
     class := ClassTenant; level := LevelOrg;
     formula := [MkAtom CapCredentialReset LevelOrg];
     storeOps := ∅;
     postGrantForbidden := false;
     events := [EventAuthCredentialResetIssued];
     auditedNone := false; reviewExempt := false |});
  (OpCredentialResetInstance, {|
     class := ClassInstance; level := LevelNone;
     formula := [MkAtom CapCredentialReset LevelNone];
     storeOps := ∅;
     postGrantForbidden := false;
     events := [EventAuthCredentialResetIssued];
     auditedNone := false; reviewExempt := false |});
  (OpProjectCreate, {|
     class := ClassTenant; level := LevelOrg;
     formula := [MkAtom CapManageProjects LevelOrg];
     storeOps := licensed [StoreProjectsCreate; StoreAuditTenantInsert];
     postGrantForbidden := false;
     events := [EventProjectCreated];
     auditedNone := false; reviewExempt := false |});
  (OpProjectGet, {|
     class := ClassTenant; level := LevelProject;
     formula := [MkAtom CapRead LevelProject];
     storeOps := licensed [StoreProjectsGet];
     postGrantForbidden := false;
     events := [];
     auditedNone := true; reviewExempt := false |});
  (OpProjectList, {|
     class := ClassTenant; level := LevelOrg;
     formula := [MkAtom CapRead LevelOrg];
     storeOps := licensed [StoreProjectsList];
     postGrantForbidden := false;
     events := [];
     auditedNone := true; reviewExempt := false |});
  (OpProjectRename, {|
     class := ClassTenant; level := LevelProject;
     formula := [MkAtom CapManageProjects LevelOrg];
     storeOps := licensed [StoreProjectsGet; StoreProjectsRename; StoreAuditTenantInsert];
     postGrantForbidden := false;
     events := [EventProjectRenamed];
     auditedNone := false; reviewExempt := false |});
  (OpProjectDelete, {|
     class := ClassTenant; level := LevelProject;
     formula := [MkAtom CapManageProjects LevelOrg];
     storeOps := licensed [StoreProjectsGet; StoreProjectsDelete; StoreAuditTenantInsert;
        StoreScanningDismissalsDeleteByProject];
     postGrantForbidden := false;
     events := [EventProjectDeleted];
     auditedNone := false; reviewExempt := false |})].

(** [OpEnvCreate] to [OpEnvUpdateNote]. *)
Definition operationRows_03 : list (Operation * opSpec) := [
  (OpEnvCreate, {|
     class := ClassTenant; level := LevelProject;
     formula := [MkAtom CapDefinitionsEdit LevelProject];
     storeOps := licensed [StoreProjectsGet; StoreProjectsLock; StoreEnvironmentsCount;
        StoreEnvironmentsNextOrder; StoreEnvironmentsCreate; StoreCatalogueRevisionBump;
        StoreAuditTenantInsert];
     postGrantForbidden := false;
     events := [EventEnvCreated; EventScanningFindingBlocked; EventScanningFindingOverridden];
     auditedNone := false; reviewExempt := false |});
  (OpEnvRead, {|
     class := ClassTenant; level := LevelEnv;
     formula := [MkAtom CapRead LevelEnv];
     storeOps := licensed [StoreEnvironmentsGet; StoreEnvironmentParametersGet];
     postGrantForbidden := false;
     events := [];
     auditedNone := true; reviewExempt := false |});
  (OpEnvList, {|
     class := ClassTenant; level := LevelProject;
     formula := [MkAtom CapRead LevelProject];
     storeOps := licensed [StoreEnvironmentsList; StoreEnvironmentsListPage];
     postGrantForbidden := false;
     events := [];
     auditedNone := true; reviewExempt := false |});
  (OpEnvParameterSet, {|
     class := ClassTenant; level := LevelEnv;
     formula := [MkAtom CapDefinitionsEdit LevelProject];
     storeOps := licensed [StoreProjectsGet; StoreProjectsLock; StoreEnvironmentParametersGet;
        StoreEnvironmentParametersSet; StoreCatalogueRevisionBump;
        StoreAuditTenantInsert];
     postGrantForbidden := false;
     events := [EventEnvParameterChanged];
     auditedNone := false; reviewExempt := false |});
  (OpEnvRename, {|
     class := ClassTenant; level := LevelEnv;
     formula := [MkAtom CapDefinitionsEdit LevelProject];
     storeOps := licensed [StoreProjectsGet; StoreProjectsLock; StoreEnvironmentsGet;
        StoreEnvironmentsRename; StoreCatalogueRevisionBump; StoreAuditTenantInsert];
     postGrantForbidden := false;
     events := [EventEnvRenamed; EventScanningFindingBlocked; EventScanningFindingOverridden];
     auditedNone := false; reviewExempt := false |});
  (OpEnvReorder, {|
     class := ClassTenant; level := LevelProject;
     formula := [MkAtom CapDefinitionsEdit LevelProject];
     storeOps := licensed [StoreProjectsGet; StoreProjectsLock; StoreEnvironmentsList;
        StoreEnvironmentsSetOrder; StoreAuditTenantInsert];
     postGrantForbidden := false;
     events := [EventEnvReordered];
     auditedNone := false; reviewExempt := false |});
  (OpEnvDelete, {|
     class := ClassTenant; level := LevelEnv;
     formula := [MkAtom CapDefinitionsEdit LevelProject];
     storeOps := licensed [StoreProjectsGet; StoreProjectsLock; StoreEnvironmentsGet;
        StoreCataloguePresenceList; StoreCataloguePresenceCascade; StoreCatalogueList;
        StoreCatalogueUpdateDeclaration; StoreCatalogueRevisionBump;
        StoreValuesClearEnvironment; StorePendingDiscardEnvironment;
        StoreSnapshotsDeleteEnvironment; StorePinsDeleteEnvironment;
        StoreEnvironmentsDelete; StoreAuditTenantInsert];
     postGrantForbidden := false;
     events := [EventEnvDeleted; EventGrantRevoked];
     auditedNone := false; reviewExempt := false |});
  (OpEnvUpdateNote, {|
     class := ClassTenant; level := LevelEnv;
     formula := [MkAtom CapEdit LevelEnv];
     storeOps := licensed [StoreEnvironmentsUpdateNote; StoreAuditTenantInsert];
     postGrantForbidden := false;
     events := [EventEnvNoteChanged; EventScanningFindingBlocked;
        EventScanningFindingOverridden];
     auditedNone := false; reviewExempt := false |})].

(** [OpKeyCreate] to [OpKeySetGroup]. *)
Definition operationRows_04 : list (Operation * opSpec) := [
  (OpKeyCreate, {|
     class := ClassTenant; level := LevelProject;
     formula := [MkAtom CapDefinitionsEdit LevelProject];
     storeOps := licensed [StoreEnvironmentsList; StoreProjectsGet; StoreProjectsLock; StoreCatalogueCount;
        StoreCatalogueList; StoreCataloguePresenceList; StoreCatalogueGroupGet;
        StoreCatalogueCreate; StoreCataloguePresenceReplace; StoreCatalogueRevisionBump;
        StoreAuditTenantInsert];
     postGrantForbidden := false;
     events := [EventKeyCreated; EventScanningFindingBlocked; EventScanningFindingOverridden];
     auditedNone := false; reviewExempt := false |});
  (OpKeyGet, {|
     class := ClassTenant; level := LevelProject;
     formula := [MkAtom CapRead LevelProject];
     storeOps := licensed [StoreCatalogueGet; StoreCataloguePresenceList];
     postGrantForbidden := false;
     events := [];
     auditedNone := true; reviewExempt := false |});
  (OpKeyList, {|
     class := ClassTenant; level := LevelProject;
     formula := [MkAtom CapRead LevelProject];
     storeOps := licensed [StoreCatalogueList; StoreCataloguePresenceList; StoreCatalogueRevisionGet;
        StoreCatalogueListPage; StoreCataloguePresenceForKey];
     postGrantForbidden := false;
     events := [];
     auditedNone := true; reviewExempt := false |});
  (OpKeyRename, {|
     class := ClassTenant; level := LevelProject;
     formula := [MkAtom CapDefinitionsEdit LevelProject];
     storeOps := licensed [StoreEnvironmentsList; StoreProjectsGet; StoreProjectsLock; StoreCatalogueGet;
        StoreCatalogueRename; StoreCatalogueAdapterPins; StoreCatalogueRevisionBump;
        StoreCataloguePresenceList; StoreAuditTenantInsert];
     postGrantForbidden := false;
     events := [EventKeyRenamed; EventScanningFindingBlocked; EventScanningFindingOverridden];
     auditedNone := false; reviewExempt := false |});
  (OpKeyUpdateDeclaration, {|
     class := ClassTenant; level := LevelProject;
     formula := [MkAtom CapDefinitionsEdit LevelProject];
     storeOps := licensed [StoreEnvironmentsList; StoreProjectsGet; StoreProjectsLock; StoreCatalogueGet;
        StoreCatalogueList; StoreCataloguePresenceList; StoreCatalogueUpdateDeclaration;
        StoreCataloguePresenceReplace; StoreCatalogueRevisionBump;
        StoreCatalogueRevisionGet; StoreAuditTenantInsert];
     postGrantForbidden := false;
     events := [EventKeyDeclarationChanged; EventScanningFindingBlocked;
        EventScanningFindingOverridden];
     auditedNone := false; reviewExempt := false |});
  (OpKeyUpdateMetadata, {|
     class := ClassTenant; level := LevelProject;
     formula := [MkAtom CapDefinitionsEdit LevelProject];
     storeOps := licensed [StoreProjectsGet; StoreProjectsLock; StoreCatalogueGet;
        StoreCatalogueUpdateMetadata; StoreCatalogueRevisionBump;
        StoreCataloguePresenceList; StoreAuditTenantInsert];
     postGrantForbidden := false;
     events := [EventKeyMetadataChanged; EventScanningFindingBlocked;
        EventScanningFindingOverridden];
     auditedNone := false; reviewExempt := false |});
  (OpKeySetGroup, {|
     class := ClassTenant; level := LevelProject;
     formula := [MkAtom CapDefinitionsEdit LevelProject];
     storeOps := licensed [StoreEnvironmentsList; StoreProjectsGet; StoreProjectsLock; StoreCatalogueGet;
        StoreCatalogueGroupGet; StoreCatalogueList; StoreCataloguePresenceList;
        StoreCatalogueSetGroup; StoreCatalogueRevisionBump; StoreAuditTenantInsert];
     postGrantForbidden := false;
     events := [EventKeyGroupMembershipChanged];
     auditedNone := false; reviewExempt := false |})].

(** [OpKeyDelete] to [OpDefinitionsCheck]. *)
Definition operationRows_05 : list (Operation * opSpec) := [
  (OpKeyDelete, {|
     class := ClassTenant; level := LevelProject;
     formula := [MkAtom CapDefinitionsEdit LevelProject];
     storeOps := licensed [StorePendingDiscardKey; StoreEnvironmentsList; StoreProjectsGet;
        StoreProjectsLock; StoreCatalogueGet; StoreCataloguePresenceReplace;
        StoreCatalogueDelete; StoreValuesEnvironmentsWithValue;
        StoreCatalogueRevisionBump; StoreAuditTenantInsert;
        StoreScanningDismissalsDeleteByKey];
     postGrantForbidden := false;
     events := [EventKeyDeleted];
     auditedNone := false; reviewExempt := false |});
  (OpKeyReclassify, {|
     class := ClassTenant; level := LevelProject;
     formula := [MkAtom CapDefinitionsEdit LevelProject];
     storeOps := licensed [StoreEnvironmentsList; StoreProjectsGet; StoreProjectsLock; StoreCatalogueGet;
        StoreCatalogueSetClassification; StoreCatalogueRevisionBump;
        StoreCatalogueAdapterPins; StoreCataloguePresenceList; StoreAuditTenantInsert;
        StoreScanningDismissalsDeleteByKey; StoreValuesEnvironmentsWithValue];
     postGrantForbidden := false;
     events := [EventKeyReclassified; EventScanningFindingWarned];
     auditedNone := false; reviewExempt := false |});
  (OpKeySecretRuleChange, {|
     class := ClassTenant; level := LevelProject;
     formula := [MkAtom CapReveal LevelProject];
     storeOps := ∅;
     postGrantForbidden := false;
     events := [EventKeyRevealGateAttempt];
     auditedNone := false; reviewExempt := false |});
  (OpKeyDeclassify, {|
     class := ClassTenant; level := LevelProject;
     formula := [MkAtom CapReveal LevelProject];
     storeOps := ∅;
     postGrantForbidden := false;
     events := [EventKeyRevealGateAttempt];
     auditedNone := false; reviewExempt := false |});
  (OpDefinitionsExport, {|
     class := ClassTenant; level := LevelProject;
     formula := [MkAtom CapRead LevelProject];
     storeOps := licensed [StoreProjectsGet; StoreEnvironmentsList; StoreCatalogueList;
        StoreCataloguePresenceList; StoreCatalogueGroupList; StoreCatalogueRevisionGet];
     postGrantForbidden := false;
     events := [];
     auditedNone := true; reviewExempt := false |});
  (OpDefinitionsCheck, {|
     class := ClassTenant; level := LevelProject;
     formula := [MkAtom CapRead LevelProject];
     storeOps := licensed [StoreProjectsGet; StoreEnvironmentsList; StoreCatalogueList;
        StoreCataloguePresenceList; StoreCatalogueGroupList; StoreCatalogueRevisionGet];
     postGrantForbidden := false;
     events := [];
     auditedNone := true; reviewExempt := false |})].

(** [OpDefinitionsPlanCreate] to [OpProjectMachineRevealSet]. *)
Definition operationRows_06 : list (Operation * opSpec) := [
  (OpDefinitionsPlanCreate, {|
     class := ClassTenant; level := LevelProject;
     formula := [MkAtom CapDefinitionsEdit LevelProject];
     storeOps := licensed [StoreProjectsLock; StoreProjectsGet; StoreEnvironmentsList;
        StoreEnvironmentsListProtection; StoreCatalogueList; StoreCataloguePresenceList;
        StoreCatalogueGroupList; StoreCatalogueRevisionGet;
        StoreSnapshotsProjectRevisions; StoreValuesCountEnvironment;
        StoreValuesEnvironmentsWithValue; StoreDefinitionsPlanCountOpen;
        StoreDefinitionsPlanCreate; StoreAuditTenantInsert];
     postGrantForbidden := false;
     events := [EventDefinitionsPlanCreated; EventDefinitionsAdditiveModificationRefused;
        EventScanningFindingBlocked; EventScanningFindingOverridden];
     auditedNone := false; reviewExempt := false |});
  (OpDefinitionsPlanGet, {|
     class := ClassTenant; level := LevelProject;
     formula := [MkAtom CapDefinitionsEdit LevelProject];
     storeOps := licensed [StoreDefinitionsPlanGet];
     postGrantForbidden := false;
     events := [];
     auditedNone := false; reviewExempt := true |});
  (OpDefinitionsApply, {|
     class := ClassTenant; level := LevelProject;
     formula := [MkAtom CapDefinitionsEdit LevelProject];
     storeOps := licensed [StoreProjectsLock; StoreProjectsGet; StoreEnvironmentsList;
        StoreEnvironmentsListProtection; StoreEnvironmentsCount;
        StoreEnvironmentsNextOrder; StoreEnvironmentsCreate; StoreEnvironmentsRename;
        StoreEnvironmentsDelete; StoreCatalogueList; StoreCatalogueGet;
        StoreCatalogueCount; StoreCataloguePresenceList; StoreCatalogueGroupList;
        StoreCatalogueGroupGet; StoreCatalogueRevisionGet; StoreCatalogueRevisionBump;
        StoreCatalogueCreate; StoreCatalogueRename; StoreCatalogueUpdateMetadata;
        StoreCatalogueUpdateDeclaration; StoreCatalogueSetClassification;
        StoreCatalogueSetGroup; StoreCatalogueDelete; StoreCatalogueAdapterPins;
        StoreCataloguePresenceReplace; StoreCataloguePresenceCascade;
        StoreCatalogueGroupCreate; StoreCatalogueGroupRename; StoreCatalogueGroupDelete;
        StoreCatalogueGroupClearMembers; StoreValuesCountEnvironment;
        StoreValuesEnvironmentsWithValue; StoreValuesClearKey; StorePendingDiscardKey;
        StoreScanningDismissalsDeleteByKey; StoreSnapshotsProjectRevisions;
        StoreSnapshotsDeleteEnvironment; StorePinsDeleteEnvironment;
        StoreDefinitionsPlanGet; StoreDefinitionsPlanApply; StoreAuditTenantInsert];
     postGrantForbidden := false;
     events := [EventDefinitionsApplied; EventGrantRevoked; EventDefinitionsApplyRejectedStale;
        EventDefinitionsDeletionRefused; EventEnvCreated; EventEnvRenamed;
        EventEnvDeleted; EventKeyGroupCreated; EventKeyGroupRenamed;
        EventKeyGroupDeleted; EventKeyCreated; EventKeyRenamed; EventKeyDeleted;
        EventKeyMetadataChanged; EventKeyDeclarationChanged; EventKeyReclassified;
        EventKeyGroupMembershipChanged; EventScanningFindingBlocked;
        EventScanningFindingOverridden];
     auditedNone := false; reviewExempt := false |});
  (OpDefinitionsSettingsGet, {|
     class := ClassTenant; level := LevelProject;
     formula := [MkAtom CapRead LevelProject];
     storeOps := licensed [StoreProjectsGet; StoreDefinitionsLatestAppliedPlan];
     postGrantForbidden := false;
     events := [];
     auditedNone := true; reviewExempt := false |});
  (OpDefinitionsSettingsSet, {|
     class := ClassTenant; level := LevelProject;
     formula := [MkAtom CapProjectSettings LevelProject];
     storeOps := licensed [StoreProjectsGet; StoreProjectsSetDefinitionsSource;
        StoreDefinitionsLatestAppliedPlan; StoreAuditTenantInsert];
     postGrantForbidden := false;
     events := [EventSettingsDefinitionsSourceChanged];
     auditedNone := false; reviewExempt := false |});
  (OpProjectMachineRevealGet, {|
     class := ClassTenant; level := LevelProject;
     formula := [MkAtom CapRead LevelProject];
     storeOps := licensed [StoreProjectsGet];
     postGrantForbidden := false;
     events := [];
     auditedNone := true; reviewExempt := false |});
  (OpProjectMachineRevealSet, {|
     class := ClassTenant; level := LevelProject;
     formula := [MkAtom CapProjectSettings LevelProject; MkAtom CapReveal LevelProject];
     storeOps := licensed [StoreProjectsGet; StoreProjectsSetMachineReveal; StoreAuditTenantInsert];
     postGrantForbidden := false;
     events := [EventSettingsMachineRevealChanged];
     auditedNone := false; reviewExempt := false |})].

(** [OpValueRead] to [OpValueCopySource]. *)
Definition operationRows_07 : list (Operation * opSpec) := [
  (OpValueRead, {|
     class := ClassTenant; level := LevelEnv;
     formula := [MkAtom CapRead LevelEnv];
     storeOps := licensed [StoreCatalogueList; StoreValuesGet];
     postGrantForbidden := false;
     events := [];
     auditedNone := true; reviewExempt := false |});
  (OpValueList, {|
     class := ClassTenant; level := LevelEnv;
     formula := [MkAtom CapRead LevelEnv];
     storeOps := licensed [StoreEnvironmentParametersGet; StoreCatalogueList; StoreValuesList;
        StoreValuesGet; StoreCataloguePresenceList; StoreCatalogueListPage];
     postGrantForbidden := false;
     events := [];
     auditedNone := true; reviewExempt := false |});
  (OpRevealWindowRead, {|
     class := ClassTenant; level := LevelEnv;
     formula := [MkAtom CapRead LevelEnv];
     storeOps := licensed [];
     postGrantForbidden := false;
     events := [];
     auditedNone := true; reviewExempt := false |});
  (OpValueReveal, {|
     class := ClassTenant; level := LevelEnv;
     formula := [MkAtom CapRead LevelEnv; MkAtom CapReveal LevelEnv];
     storeOps := licensed [StoreCatalogueList; StoreValuesGet; StoreValuesList; StoreAuditTenantInsert];
     postGrantForbidden := false;
     events := [EventValueRevealed];
     auditedNone := false; reviewExempt := false |});
  (OpValueSet, {|
     class := ClassTenant; level := LevelEnv;
     formula := [MkAtom CapEdit LevelEnv; MkAtom CapPublish LevelEnv];
     storeOps := licensed [StoreEnvironmentParametersGet; StoreProjectsLock; StoreCatalogueList;
        StoreCataloguePresenceList; StoreValuesPut; StoreKeysAssertActiveDEKVersion;
        StoreAuditTenantInsert];
     postGrantForbidden := false;
     events := [EventValueSet; EventScanningFindingWarned];
     auditedNone := false; reviewExempt := false |});
  (OpValueClear, {|
     class := ClassTenant; level := LevelEnv;
     formula := [MkAtom CapEdit LevelEnv; MkAtom CapPublish LevelEnv];
     storeOps := licensed [StoreProjectsLock; StoreCatalogueList; StoreCataloguePresenceList;
        StoreValuesClear; StoreAuditTenantInsert];
     postGrantForbidden := false;
     events := [EventValueCleared];
     auditedNone := false; reviewExempt := false |});
  (OpValueCopySource, {|
     class := ClassTenant; level := LevelEnv;
     formula := [MkAtom CapReveal LevelEnv];
     storeOps := licensed [StoreCatalogueList; StoreValuesGet; StoreValuesList; StoreAuditTenantInsert];
     postGrantForbidden := false;
     events := [EventValueRevealed];
     auditedNone := false; reviewExempt := false |})].

(** [OpValueCopyDestination] to [OpValueStage]. *)
Definition operationRows_08 : list (Operation * opSpec) := [
  (OpValueCopyDestination, {|
     class := ClassTenant; level := LevelEnv;
     formula := [MkAtom CapReveal LevelEnv; MkAtom CapPublish LevelEnv];
     storeOps := licensed [StoreEnvironmentParametersGet; StoreProjectsLock; StoreCatalogueList;
        StoreCataloguePresenceList; StoreEnvironmentsGetSettings;
        StoreApprovalPolicyCovering; StoreValuesPut; StoreKeysAssertActiveDEKVersion;
        StoreAuditTenantInsert];
     postGrantForbidden := false;
     events := [EventValueCopied];
     auditedNone := false; reviewExempt := false |});
  (OpValueCopyDestinationConfig, {|
     class := ClassTenant; level := LevelEnv;
     formula := [MkAtom CapPublish LevelEnv];
     storeOps := licensed [StoreEnvironmentParametersGet; StoreProjectsLock; StoreCatalogueList;
        StoreCataloguePresenceList; StoreEnvironmentsGetSettings;
        StoreApprovalPolicyCovering; StoreValuesPut; StoreKeysAssertActiveDEKVersion;
        StoreAuditTenantInsert];
     postGrantForbidden := false;
     events := [EventValueCopied; EventScanningFindingWarned];
     auditedNone := false; reviewExempt := false |});
  (OpImportPresence, {|
     class := ClassTenant; level := LevelEnv;
     formula := [MkAtom CapRead LevelProject];
     storeOps := licensed [StoreCatalogueList; StoreValuesList; StoreCatalogueRevisionGet];
     postGrantForbidden := false;
     events := [];
     auditedNone := true; reviewExempt := false |});
  (OpValueImport, {|
     class := ClassTenant; level := LevelEnv;
     formula := [MkAtom CapRead LevelProject; MkAtom CapEdit LevelEnv;
        MkAtom CapPublish LevelEnv];
     storeOps := licensed [StoreEnvironmentParametersGet; StoreProjectsLock; StoreCatalogueList;
        StoreCataloguePresenceList; StoreCatalogueRevisionGet; StoreValuesList;
        StoreValuesPut; StoreKeysAssertActiveDEKVersion; StoreAuditTenantInsert];
     postGrantForbidden := false;
     events := [EventValueSet; EventValueImported; EventScanningFindingWarned];
     auditedNone := false; reviewExempt := false |});
  (OpValueStage, {|
     class := ClassTenant; level := LevelEnv;
     formula := [MkAtom CapEdit LevelEnv];
     storeOps := licensed [StoreProjectsLock; StoreCatalogueList; StoreValuesGet; StoreSnapshotsLatest;
        StorePendingStage; StoreAuditTenantInsert;
        StorePendingCountForProjectExcludingCell; StoreScanningDismissalsExists;
        StoreScanningDismissalsInsert; StoreKeysAssertActiveDEKVersion];
     postGrantForbidden := false;
     events := [EventValueStaged; EventScanningFindingWarned; EventScanningFindingDismissed];
     auditedNone := false; reviewExempt := false |})].

(** [OpValuePublish] to [OpApprovalRequestRead]. *)
Definition operationRows_09 : list (Operation * opSpec) := [
  (OpValuePublish, {|
     class := ClassTenant; level := LevelEnv;
     formula := [MkAtom CapPublish LevelEnv];
     storeOps := licensed [StoreProjectsLock; StoreCatalogueList; StoreCataloguePresenceList;
        StoreCatalogueRevisionGet; StoreValuesList; StoreValuesPut; StoreValuesClear;
        StorePendingListForOwner; StorePendingListMarkers; StorePendingDiscard;
        StoreSnapshotsLatest; StoreSnapshotsEntries; StoreSnapshotsInsert;
        StoreSnapshotsInsertEntry; StoreEnvironmentParametersGet;
        StoreSnapshotsSecretValueOccurrenceIDs;
        StoreSnapshotsRecordSecretValueOccurrence; StoreSnapshotsInsertChange;
        StoreAdaptersEnqueuePublished; StoreKeysAssertActiveDEKVersion;
        StoreAuditTenantInsert; StoreValuesPayloadBytesForProject;
        StoreSnapshotsPayloadBytesForProject; StoreApprovalPolicyCovering;
        StoreApprovalPolicyGet; StoreApprovalRequestInsert; StoreApprovalRequestGet;
        StoreApprovalRequestUpdateState; StoreApprovalVoteList;
        StoreApprovalApproverList; StoreApprovalBypasserGet; StoreSCIMUserByAccount;
        StoreSCIMMembershipsForUser];
     postGrantForbidden := true;
     events := [EventRevisionPublished; EventValueSet; EventValueCleared;
        EventAdapterSyncRequested; EventAdapterSuperseded; EventScanningFindingWarned;
        EventApprovalRequested; EventApprovalMerged; EventApprovalInvalidated;
        EventApprovalBypassed];
     auditedNone := false; reviewExempt := false |});
  (OpApprovalPolicyWrite, {|
     class := ClassTenant; level := LevelProject;
     formula := [MkAtom CapProjectSettings LevelProject];
     storeOps := licensed [StoreApprovalPolicyInsert; StoreApprovalPolicyGet; StoreApprovalPolicyList;
        StoreApprovalPolicyUpdate; StoreApprovalPolicyDelete;
        StoreApprovalApproverInsert; StoreApprovalApproverList;
        StoreApprovalApproverClear; StoreApprovalBypasserInsert;
        StoreApprovalBypasserList; StoreApprovalBypasserClear; StoreAuditTenantInsert];
     postGrantForbidden := false;
     events := [EventApprovalPolicyChanged];
     auditedNone := false; reviewExempt := false |});
  (OpApprovalPolicyRead, {|
     class := ClassTenant; level := LevelProject;
     formula := [MkAtom CapProjectSettings LevelProject];
     storeOps := licensed [StoreApprovalPolicyGet; StoreApprovalPolicyList; StoreApprovalApproverList;
        StoreApprovalBypasserList; StoreAuditTenantInsert];
     postGrantForbidden := false;
     events := [EventApprovalPolicyRead];
     auditedNone := false; reviewExempt := false |});
  (OpApprovalRequestRead, {|
     class := ClassTenant; level := LevelEnv;
     formula := [MkAtom CapRead LevelEnv];
     storeOps := licensed [StoreApprovalRequestGet; StoreApprovalRequestList; StoreApprovalVoteList;
        StoreApprovalPolicyGet; StoreApprovalPolicyCovering; StoreApprovalApproverList;
        StoreApprovalBypasserList; StoreSCIMUserByAccount; StoreSCIMMembershipsForUser];
     postGrantForbidden := false;
     events := [];
     auditedNone := true; reviewExempt := false |})].

(** [OpApprovalVote] to [OpRotateDEK]. *)
Definition operationRows_10 : list (Operation * opSpec) := [
  (OpApprovalVote, {|
     class := ClassTenant; level := LevelEnv;
     formula := [MkAtom CapPublish LevelEnv];
     storeOps := licensed [StoreApprovalRequestGet; StoreApprovalRequestUpdateState; StoreApprovalVoteGet;
        StoreApprovalVoteInsert; StoreApprovalVoteList; StoreApprovalPolicyGet;
        StoreApprovalApproverList; StorePendingListForOwner; StorePendingListMarkers;
        StoreCatalogueList; StoreCatalogueRevisionGet; StoreSnapshotsLatest;
        StoreSCIMUserByAccount; StoreSCIMMembershipsForUser; StoreAuditTenantInsert];
     postGrantForbidden := true;
     events := [EventApprovalVoted; EventApprovalInvalidated];
     auditedNone := false; reviewExempt := false |});
  (OpApprovalBypass, {|
     class := ClassTenant; level := LevelEnv;
     formula := [MkAtom CapPublish LevelEnv];
     storeOps := licensed [StoreApprovalBypasserGet; StoreApprovalRequestGet;
        StoreApprovalRequestUpdateState; StoreAuditTenantInsert];
     postGrantForbidden := false;
     events := [EventApprovalBypassed];
     auditedNone := false; reviewExempt := false |});
  (OpValueExport, {|
     class := ClassTenant; level := LevelEnv;
     formula := [MkAtom CapRead LevelEnv];
     storeOps := licensed [StoreSnapshotsLatest; StoreSnapshotsAtRevision; StoreSnapshotsEntries;
        StoreSnapshotsParameterContract; StoreAuditTenantInsert];
     postGrantForbidden := false;
     events := [EventValuesExported];
     auditedNone := false; reviewExempt := false |});
  (OpValueExportReveal, {|
     class := ClassTenant; level := LevelEnv;
     formula := [MkAtom CapRead LevelEnv; MkAtom CapReveal LevelEnv];
     storeOps := licensed [StoreSnapshotsLatest; StoreSnapshotsAtRevision; StoreSnapshotsEntries;
        StoreSnapshotsParameterContract; StoreAuditTenantInsert];
     postGrantForbidden := false;
     events := [EventValueRevealed; EventValuesExported];
     auditedNone := false; reviewExempt := false |});
  (OpValueExportRevealHistory, {|
     class := ClassTenant; level := LevelEnv;
     formula := [MkAtom CapRead LevelEnv; MkAtom CapRevealHistory LevelEnv];
     storeOps := licensed [StoreSnapshotsLatest; StoreSnapshotsAtRevision; StoreSnapshotsEntries;
        StoreSnapshotsParameterContract; StoreAuditTenantInsert];
     postGrantForbidden := false;
     events := [EventValueRevealed; EventValuesExported];
     auditedNone := false; reviewExempt := false |});
  (OpRotateTokenKey, {|
     class := ClassInstance; level := LevelNone;
     formula := [MkAtom CapRotateDEK LevelNone];
     storeOps := licensed [StoreKeysRotateTokenKey; StoreAuditInstanceInsert];
     postGrantForbidden := false;
     events := [EventTokenKeyRotated];
     auditedNone := false; reviewExempt := false |});
  (OpRotateScanningKey, {|
     class := ClassInstance; level := LevelNone;
     formula := [MkAtom CapRotateDEK LevelNone];
     storeOps := licensed [StoreKeysRotateScanningKey; StoreScanningDismissalsDeleteAll;
        StoreAuditInstanceInsert];
     postGrantForbidden := false;
     events := [EventScanningKeyRotated];
     auditedNone := false; reviewExempt := false |});
  (OpRotateDEK, {|
     class := ClassInstance; level := LevelNone;
     formula := [MkAtom CapRotateDEK LevelNone];
     storeOps := licensed [StoreKeysRotateDEK; StoreAuditInstanceInsert];
     postGrantForbidden := false;
     events := [EventDEKRotated];
     auditedNone := false; reviewExempt := false |})].

(** [OpReencryptProject] to [OpRevisionSignals]. *)
Definition operationRows_11 : list (Operation * opSpec) := [
  (OpReencryptProject, {|
     class := ClassTenant; level := LevelProject;
     formula := [MkAtom CapReencrypt LevelNone];
     storeOps := licensed [StoreValuesListForReencrypt; StoreValuesReencrypt;
        StoreSnapshotsListForReencrypt; StoreSnapshotsReencrypt;
        StorePendingListForReencrypt; StorePendingReencrypt;
        StoreAdaptersListForReencrypt; StoreAdaptersReencrypt;
        StoreAdaptersListMovesForReencrypt; StoreAdaptersReencryptMove;
        StoreDynamicProvidersListForReencrypt; StoreDynamicProvidersReencrypt;
        StoreKeysAssertActiveDEKVersion; StoreKeysRetireRetiringTier3;
        StoreReencryptSuccessWrite; StoreAuditTenantInsert];
     postGrantForbidden := false;
     events := [EventReencryptCompleted];
     auditedNone := false; reviewExempt := false |});
  (OpReencryptInstance, {|
     class := ClassInstance; level := LevelNone;
     formula := [MkAtom CapReencrypt LevelNone];
     storeOps := licensed [StoreReencryptListPasswordCreds; StoreReencryptPasswordCred;
        StoreReencryptListTotpCreds; StoreReencryptTotpCred;
        StoreReencryptListRecoveryCodes; StoreReencryptRecoveryCodes;
        StoreReencryptListOidcProviders; StoreReencryptOidcProvider;
        StoreReencryptListSamlKeys; StoreReencryptSamlKey;
        StoreReencryptListSelfConfigSeedInputs; StoreReencryptSelfConfigSeedInput;
        StoreReencryptListRemotes; StoreReencryptRemote;
        StoreKeysAssertActiveDEKVersion; StoreKeysRetireRetiringTier3;
        StoreReencryptSuccessWrite; StoreAuditInstanceInsert];
     postGrantForbidden := false;
     events := [EventReencryptCompleted];
     auditedNone := false; reviewExempt := false |});
  (OpRotateMasterKey, {|
     class := ClassInstance; level := LevelNone;
     formula := [MkAtom CapRotateMasterKey LevelNone];
     storeOps := licensed [StoreKeysRotateMasterKey; StoreAuditInstanceInsert];
     postGrantForbidden := false;
     events := [EventMasterKeyRotated];
     auditedNone := false; reviewExempt := false |});
  (OpRotateRootKey, {|
     class := ClassInstance; level := LevelNone;
     formula := [MkAtom CapRotateRootKey LevelNone];
     storeOps := licensed [StoreKeysRootRotatePrepare; StoreKeysAssertRootKeyEpoch;
        StoreKeysRootRotateFinalize; StoreAuditInstanceInsert];
     postGrantForbidden := false;
     events := [EventRootKeyRotationPrepared; EventRootKeyRotationVerified;
        EventRootKeyRotationFinalized];
     auditedNone := false; reviewExempt := false |});
  (OpRevisionList, {|
     class := ClassTenant; level := LevelEnv;
     formula := [MkAtom CapRead LevelEnv];
     storeOps := licensed [StoreSnapshotsList; StoreSnapshotsChanges; StoreSnapshotsListPage];
     postGrantForbidden := false;
     events := [];
     auditedNone := true; reviewExempt := false |});
  (OpRevisionShow, {|
     class := ClassTenant; level := LevelEnv;
     formula := [MkAtom CapRead LevelEnv];
     storeOps := licensed [StoreSnapshotsLatest; StoreSnapshotsAtRevision; StoreSnapshotsEntries;
        StoreSnapshotsChanges];
     postGrantForbidden := false;
     events := [];
     auditedNone := true; reviewExempt := false |});
  (OpValuePendingList, {|
     class := ClassTenant; level := LevelEnv;
     formula := [MkAtom CapRead LevelEnv];
     storeOps := licensed [StoreEnvironmentParametersGet; StoreCatalogueList; StoreCataloguePresenceList;
        StorePendingListForOwnerInEnvironment;
        StorePendingListForOwnerInEnvironmentPage; StoreCatalogueGetInProject;
        StoreCataloguePresenceForKey];
     postGrantForbidden := false;
     events := [];
     auditedNone := true; reviewExempt := false |});
  (OpRevisionSignals, {|
     class := ClassTenant; level := LevelEnv;
     formula := [MkAtom CapRead LevelEnv];
     storeOps := licensed [StoreCatalogueList; StorePendingListMarkers; StoreSnapshotsLatest;
        StoreSnapshotsChanges];
     postGrantForbidden := false;
     events := [];
     auditedNone := true; reviewExempt := false |})].

(** [OpRevisionRestore] to [OpKeyGroupGet]. *)
Definition operationRows_12 : list (Operation * opSpec) := [
  (OpRevisionRestore, {|
     class := ClassTenant; level := LevelEnv;
     formula := [MkAtom CapEdit LevelEnv];
     storeOps := licensed [StoreProjectsLock; StoreCatalogueList; StoreCatalogueRevisionGet;
        StoreValuesList; StoreSnapshotsLatest; StoreSnapshotsAtRevision;
        StoreSnapshotsEntries; StoreSnapshotsSecretValueOccurrenceIDs;
        StorePendingListForOwner; StorePendingListMarkers; StorePendingStage;
        StoreKeysAssertActiveDEKVersion; StoreAuditTenantInsert];
     postGrantForbidden := false;
     events := [EventValueStaged; EventRevisionRestoreStaged; EventValueRevealed];
     auditedNone := false; reviewExempt := false |});
  (OpRevisionRestoreHistory, {|
     class := ClassTenant; level := LevelEnv;
     formula := [MkAtom CapRead LevelEnv; MkAtom CapRevealHistory LevelEnv];
     storeOps := licensed [];
     postGrantForbidden := false;
     events := [EventValueStaged; EventRevisionRestoreStaged];
     auditedNone := false; reviewExempt := false |});
  (OpRevisionRestoreCurrent, {|
     class := ClassTenant; level := LevelEnv;
     formula := [MkAtom CapRead LevelEnv; MkAtom CapReveal LevelEnv];
     storeOps := licensed [];
     postGrantForbidden := false;
     events := [EventValueStaged; EventRevisionRestoreStaged];
     auditedNone := false; reviewExempt := false |});
  (OpPinSet, {|
     class := ClassTenant; level := LevelEnv;
     formula := [MkAtom CapPin LevelEnv; MkAtom CapPublish LevelEnv];
     storeOps := licensed [StoreSnapshotsParameterContract; StoreOrgsGet; StoreProjectsGet;
        StoreProjectsLock; StoreCatalogueList; StoreCataloguePresenceList;
        StoreSnapshotsLatest; StoreSnapshotsAtRevision; StoreSnapshotsEntries;
        StoreSnapshotsList; StoreSnapshotsSecretValueOccurrenceIDs;
        StorePinsGetForWorkload; StorePinsCountProject; StorePinsInsert;
        StorePinsDelete; StorePinsList; StoreAuditTenantInsert];
     postGrantForbidden := false;
     events := [EventPinCreated; EventPinReassigned; EventPinRenewed; EventPinExpiryRefused;
        EventValueRevealed];
     auditedNone := false; reviewExempt := false |});
  (OpPinSetHistory, {|
     class := ClassTenant; level := LevelEnv;
     formula := [MkAtom CapRevealHistory LevelEnv];
     storeOps := licensed [];
     postGrantForbidden := false;
     events := [EventPinCreated; EventPinReassigned; EventPinRenewed];
     auditedNone := false; reviewExempt := false |});
  (OpPinList, {|
     class := ClassTenant; level := LevelEnv;
     formula := [MkAtom CapRead LevelEnv];
     storeOps := licensed [StoreOrgsGet; StoreProjectsGet; StoreSnapshotsList; StorePinsList];
     postGrantForbidden := false;
     events := [];
     auditedNone := true; reviewExempt := false |});
  (OpPinRelease, {|
     class := ClassTenant; level := LevelEnv;
     formula := [MkAtom CapPin LevelEnv];
     storeOps := licensed [StoreOrgsGet; StoreOrgsLock; StoreProjectsGet; StoreProjectsLock;
        StoreSnapshotsList; StorePinsGetForWorkload; StorePinsList; StorePinsDelete;
        StoreRetentionSnapshotLock; StoreAuditTenantInsert];
     postGrantForbidden := false;
     events := [EventPinReleased];
     auditedNone := false; reviewExempt := false |});
  (OpAdvisoryWatch, {|
     class := ClassTenant; level := LevelProject;
     formula := [MkAtom CapRead LevelProject];
     storeOps := licensed [];
     postGrantForbidden := false;
     events := [];
     auditedNone := true; reviewExempt := false |});
  (OpAdvisoryEvent, {|
     class := ClassTenant; level := LevelEnv;
     formula := [MkAtom CapRead LevelEnv];
     storeOps := licensed [];
     postGrantForbidden := false;
     events := [];
     auditedNone := true; reviewExempt := false |});
  (OpKeyGroupCreate, {|
     class := ClassTenant; level := LevelProject;
     formula := [MkAtom CapDefinitionsEdit LevelProject];
     storeOps := licensed [StoreEnvironmentsList; StoreProjectsGet; StoreProjectsLock;
        StoreCatalogueGroupCount; StoreCatalogueGroupCreate; StoreCatalogueRevisionBump;
        StoreAuditTenantInsert];
     postGrantForbidden := false;
     events := [EventKeyGroupCreated; EventScanningFindingBlocked;
        EventScanningFindingOverridden];
     auditedNone := false; reviewExempt := false |});
  (OpKeyGroupGet, {|
     class := ClassTenant; level := LevelProject;
     formula := [MkAtom CapRead LevelProject];
     storeOps := licensed [StoreCatalogueGroupGet; StoreCatalogueList];
     postGrantForbidden := false;
     events := [];
     auditedNone := true; reviewExempt := false |})].

(** [OpKeyGroupList] to [OpAuditExportEnv]. *)
Definition operationRows_13 : list (Operation * opSpec) := [
  (OpKeyGroupList, {|
     class := ClassTenant; level := LevelProject;
     formula := [MkAtom CapRead LevelProject];
     storeOps := licensed [StoreCatalogueGroupList; StoreCatalogueList];
     postGrantForbidden := false;
     events := [];
     auditedNone := true; reviewExempt := false |});
  (OpKeyGroupRename, {|
     class := ClassTenant; level := LevelProject;
     formula := [MkAtom CapDefinitionsEdit LevelProject];
     storeOps := licensed [StoreEnvironmentsList; StoreProjectsGet; StoreProjectsLock;
        StoreCatalogueGroupGet; StoreCatalogueGroupRename; StoreCatalogueList;
        StoreCatalogueRevisionBump; StoreAuditTenantInsert];
     postGrantForbidden := false;
     events := [EventKeyGroupRenamed; EventScanningFindingBlocked;
        EventScanningFindingOverridden];
     auditedNone := false; reviewExempt := false |});
  (OpKeyGroupDelete, {|
     class := ClassTenant; level := LevelProject;
     formula := [MkAtom CapDefinitionsEdit LevelProject];
     storeOps := licensed [StoreEnvironmentsList; StoreProjectsGet; StoreProjectsLock;
        StoreCatalogueGroupGet; StoreCatalogueList; StoreCatalogueGroupClearMembers;
        StoreCatalogueGroupDelete; StoreCatalogueRevisionBump; StoreAuditTenantInsert];
     postGrantForbidden := false;
     events := [EventKeyGroupDeleted];
     auditedNone := false; reviewExempt := false |});
  (OpFolderCreate, {|
     class := ClassTenant; level := LevelProject;
     formula := [MkAtom CapDefinitionsEdit LevelProject];
     storeOps := licensed [StoreProjectsGet; StoreFoldersCreate; StoreAuditTenantInsert];
     postGrantForbidden := false;
     events := [EventFolderCreated; EventScanningFindingBlocked; EventScanningFindingOverridden];
     auditedNone := false; reviewExempt := false |});
  (OpFolderGet, {|
     class := ClassTenant; level := LevelProject;
     formula := [MkAtom CapRead LevelProject];
     storeOps := licensed [StoreFoldersGet];
     postGrantForbidden := false;
     events := [];
     auditedNone := true; reviewExempt := false |});
  (OpFolderList, {|
     class := ClassTenant; level := LevelProject;
     formula := [MkAtom CapRead LevelProject];
     storeOps := licensed [StoreFoldersList];
     postGrantForbidden := false;
     events := [];
     auditedNone := true; reviewExempt := false |});
  (OpFolderRename, {|
     class := ClassTenant; level := LevelProject;
     formula := [MkAtom CapDefinitionsEdit LevelProject];
     storeOps := licensed [StoreProjectsGet; StoreFoldersGet; StoreFoldersRename; StoreAuditTenantInsert];
     postGrantForbidden := false;
     events := [EventFolderRenamed; EventScanningFindingBlocked; EventScanningFindingOverridden];
     auditedNone := false; reviewExempt := false |});
  (OpFolderDelete, {|
     class := ClassTenant; level := LevelProject;
     formula := [MkAtom CapDefinitionsEdit LevelProject];
     storeOps := licensed [StoreProjectsGet; StoreFoldersGet; StoreFoldersDelete; StoreAuditTenantInsert];
     postGrantForbidden := false;
     events := [EventFolderDeleted];
     auditedNone := false; reviewExempt := false |});
  (OpAuditQueryOrg, {|
     class := ClassTenant; level := LevelOrg;
     formula := [MkAtom CapAuditRead LevelOrg];
     storeOps := licensed [StoreAuditTenantPage; StoreAuditTenantMaxSeq; StoreAuditTenantInsert];
     postGrantForbidden := false;
     events := [EventAuditQuery];
     auditedNone := false; reviewExempt := false |});
  (OpAuditQueryProject, {|
     class := ClassTenant; level := LevelProject;
     formula := [MkAtom CapAuditRead LevelProject];
     storeOps := licensed [StoreAuditTenantPage; StoreAuditTenantMaxSeq; StoreAuditTenantInsert];
     postGrantForbidden := false;
     events := [EventAuditQuery];
     auditedNone := false; reviewExempt := false |});
  (OpAuditQueryEnv, {|
     class := ClassTenant; level := LevelEnv;
     formula := [MkAtom CapAuditRead LevelEnv];
     storeOps := licensed [StoreAuditTenantPage; StoreAuditTenantMaxSeq; StoreAuditTenantInsert];
     postGrantForbidden := false;
     events := [EventAuditQuery];
     auditedNone := false; reviewExempt := false |});
  (OpAuditExportOrg, {|
     class := ClassTenant; level := LevelOrg;
     formula := [MkAtom CapAuditRead LevelOrg];
     storeOps := licensed [StoreAuditTenantPage; StoreAuditTenantInsert];
     postGrantForbidden := false;
     events := [EventAuditExportStarted; EventAuditExportCompleted];
     auditedNone := false; reviewExempt := false |});
  (OpAuditExportProject, {|
     class := ClassTenant; level := LevelProject;
     formula := [MkAtom CapAuditRead LevelProject];
     storeOps := licensed [StoreAuditTenantPage; StoreAuditTenantInsert];
     postGrantForbidden := false;
     events := [EventAuditExportStarted; EventAuditExportCompleted];
     auditedNone := false; reviewExempt := false |});
  (OpAuditExportEnv, {|
     class := ClassTenant; level := LevelEnv;
     formula := [MkAtom CapAuditRead LevelEnv];
     storeOps := licensed [StoreAuditTenantPage; StoreAuditTenantInsert];
     postGrantForbidden := false;
     events := [EventAuditExportStarted; EventAuditExportCompleted];
     auditedNone := false; reviewExempt := false |})].

(** [OpAuditInstanceQuery] to [OpGrantListInstance]. *)
Definition operationRows_14 : list (Operation * opSpec) := [
  (OpAuditInstanceQuery, {|
     class := ClassInstance; level := LevelNone;
     formula := [MkAtom CapAuditRead LevelNone];
     storeOps := licensed [StoreAuditInstancePage; StoreAuditInstanceMaxSeq; StoreAuditInstanceInsert];
     postGrantForbidden := false;
     events := [EventAuditQuery];
     auditedNone := false; reviewExempt := false |});
  (OpAuditInstanceExport, {|
     class := ClassInstance; level := LevelNone;
     formula := [MkAtom CapAuditRead LevelNone];
     storeOps := licensed [StoreAuditInstancePage; StoreAuditInstanceInsert];
     postGrantForbidden := false;
     events := [EventAuditExportStarted; EventAuditExportCompleted];
     auditedNone := false; reviewExempt := false |});
  (OpGrantCreateOrg, {|
     class := ClassTenant; level := LevelOrg;
     formula := [MkAtom CapManageMembers LevelOrg];
     storeOps := withCure (licensed [StoreAuditTenantInsert]);
     postGrantForbidden := false;
     events := [EventGrantCreated; EventGrantModified] ++ grantCureEvents;
     auditedNone := false; reviewExempt := false |});
  (OpGrantCreateProject, {|
     class := ClassTenant; level := LevelProject;
     formula := [MkAtom CapManageMembers LevelProject];
     storeOps := licensed [StoreAuditTenantInsert];
     postGrantForbidden := false;
     events := [EventGrantCreated; EventGrantModified; EventMachineGrantWidened];
     auditedNone := false; reviewExempt := false |});
  (OpGrantCreateEnv, {|
     class := ClassTenant; level := LevelEnv;
     formula := [MkAtom CapManageMembers LevelProject];
     storeOps := licensed [StoreAuditTenantInsert];
     postGrantForbidden := false;
     events := [EventGrantCreated; EventGrantModified; EventMachineGrantWidened];
     auditedNone := false; reviewExempt := false |});
  (OpGrantCreateInstance, {|
     class := ClassInstance; level := LevelNone;
     formula := [MkAtom CapManageMembers LevelNone];
     storeOps := licensed [StoreAuditInstanceInsert];
     postGrantForbidden := false;
     events := [EventGrantCreated; EventGrantModified] ++ grantCureEvents;
     auditedNone := false; reviewExempt := false |});
  (OpGrantRevokeOrg, {|
     class := ClassTenant; level := LevelOrg;
     formula := [MkAtom CapManageMembers LevelOrg];
     storeOps := licensed [StoreAuditTenantInsert];
     postGrantForbidden := false;
     events := [EventGrantRevoked; EventGrantModified];
     auditedNone := false; reviewExempt := false |});
  (OpGrantRevokeProject, {|
     class := ClassTenant; level := LevelProject;
     formula := [MkAtom CapManageMembers LevelProject];
     storeOps := licensed [StoreAuditTenantInsert];
     postGrantForbidden := false;
     events := [EventGrantRevoked; EventGrantModified];
     auditedNone := false; reviewExempt := false |});
  (OpGrantRevokeEnv, {|
     class := ClassTenant; level := LevelEnv;
     formula := [MkAtom CapManageMembers LevelProject];
     storeOps := licensed [StoreAuditTenantInsert];
     postGrantForbidden := false;
     events := [EventGrantRevoked; EventGrantModified];
     auditedNone := false; reviewExempt := false |});
  (OpGrantRevokeInstance, {|
     class := ClassInstance; level := LevelNone;
     formula := [MkAtom CapManageMembers LevelNone];
     storeOps := licensed [StoreAuditInstanceInsert];
     postGrantForbidden := false;
     events := [EventGrantRevoked; EventGrantModified];
     auditedNone := false; reviewExempt := false |});
  (OpGrantListOrg, {|
     class := ClassTenant; level := LevelOrg;
     formula := [MkAtom CapManageMembers LevelOrg];
     storeOps := licensed [StoreAuditTenantInsert];
     postGrantForbidden := false;
     events := [EventGrantMembershipRead];
     auditedNone := false; reviewExempt := false |});
  (OpGrantListProject, {|
     class := ClassTenant; level := LevelProject;
     formula := [MkAtom CapManageMembers LevelProject];
     storeOps := licensed [StoreAuditTenantInsert];
     postGrantForbidden := false;
     events := [EventGrantMembershipRead];
     auditedNone := false; reviewExempt := false |});
  (OpGrantListInstance, {|
     class := ClassInstance; level := LevelNone;
     formula := [MkAtom CapManageMembers LevelNone];
     storeOps := licensed [StoreAuditInstanceInsert];
     postGrantForbidden := false;
     events := [EventGrantMembershipRead];
     auditedNone := false; reviewExempt := false |})].

(** [OpTemplateApplyOrg] to [OpProjectRetentionUpdate]. *)
Definition operationRows_15 : list (Operation * opSpec) := [
  (OpTemplateApplyOrg, {|
     class := ClassTenant; level := LevelOrg;
     formula := [MkAtom CapManageMembers LevelOrg];
     storeOps := withCure (licensed [StoreAuditTenantInsert]);
     postGrantForbidden := false;
     events := [EventGrantTemplateApplied; EventGrantCreated; EventGrantModified] ++ grantCureEvents;
     auditedNone := false; reviewExempt := false |});
  (OpTemplateApplyProject, {|
     class := ClassTenant; level := LevelProject;
     formula := [MkAtom CapManageMembers LevelProject];
     storeOps := licensed [StoreAuditTenantInsert];
     postGrantForbidden := false;
     events := [EventGrantTemplateApplied; EventGrantCreated; EventGrantModified;
        EventMachineGrantWidened];
     auditedNone := false; reviewExempt := false |});
  (OpTemplateApplyEnv, {|
     class := ClassTenant; level := LevelEnv;
     formula := [MkAtom CapManageMembers LevelProject];
     storeOps := licensed [StoreAuditTenantInsert];
     postGrantForbidden := false;
     events := [EventGrantTemplateApplied; EventGrantCreated; EventGrantModified;
        EventMachineGrantWidened];
     auditedNone := false; reviewExempt := false |});
  (OpTemplateApplyInstance, {|
     class := ClassInstance; level := LevelNone;
     formula := [MkAtom CapManageMembers LevelNone];
     storeOps := licensed [StoreAuditInstanceInsert];
     postGrantForbidden := false;
     events := [EventGrantTemplateApplied; EventGrantCreated; EventGrantModified] ++ grantCureEvents;
     auditedNone := false; reviewExempt := false |});
  (OpMemberInviteOrg, {|
     class := ClassTenant; level := LevelOrg;
     formula := [MkAtom CapManageMembers LevelOrg];
     storeOps := withCure (licensed [StoreAuditTenantInsert]);
     postGrantForbidden := false;
     events := [EventMemberInvited; EventGrantTemplateApplied; EventGrantCreated;
        EventGrantModified] ++ grantCureEvents;
     auditedNone := false; reviewExempt := false |});
  (OpMemberInviteInstance, {|
     class := ClassInstance; level := LevelNone;
     formula := [MkAtom CapManageMembers LevelNone];
     storeOps := licensed [StoreAuditInstanceInsert];
     postGrantForbidden := false;
     events := [EventMemberInvited; EventGrantTemplateApplied; EventGrantCreated;
        EventGrantModified] ++ grantCureEvents;
     auditedNone := false; reviewExempt := false |});
  (OpEnvSettingsRead, {|
     class := ClassTenant; level := LevelEnv;
     formula := [MkAtom CapRead LevelEnv];
     storeOps := licensed [StoreEnvironmentsGetSettings];
     postGrantForbidden := false;
     events := [];
     auditedNone := true; reviewExempt := false |});
  (OpEnvSettingsUpdate, {|
     class := ClassTenant; level := LevelEnv;
     formula := [MkAtom CapProjectSettings LevelProject];
     storeOps := licensed [StoreEnvironmentsGetSettings; StoreEnvironmentsSetSettings;
        StoreAuditTenantInsert];
     postGrantForbidden := false;
     events := [EventReauthWindowChanged; EventProtectedFlagChange;
        EventAuthEffectiveWindowLowered];
     auditedNone := false; reviewExempt := false |});
  (OpOrgRetentionRead, {|
     class := ClassTenant; level := LevelOrg;
     formula := [MkAtom CapRead LevelOrg];
     storeOps := licensed [StoreOrgsGet];
     postGrantForbidden := false;
     events := [];
     auditedNone := true; reviewExempt := false |});
  (OpOrgRetentionUpdate, {|
     class := ClassTenant; level := LevelOrg;
     formula := [MkAtom CapProjectSettings LevelOrg];
     storeOps := licensed [StoreOrgsGet; StoreOrgsLock; StoreOrgsSetRetention; StoreProjectsList;
        StoreAuditTenantInsert];
     postGrantForbidden := false;
     events := [EventOrgRetentionChanged];
     auditedNone := false; reviewExempt := false |});
  (OpProjectRetentionRead, {|
     class := ClassTenant; level := LevelProject;
     formula := [MkAtom CapRead LevelProject];
     storeOps := licensed [StoreOrgsGet; StoreProjectsGet];
     postGrantForbidden := false;
     events := [];
     auditedNone := true; reviewExempt := false |});
  (OpProjectRetentionUpdate, {|
     class := ClassTenant; level := LevelProject;
     formula := [MkAtom CapProjectSettings LevelProject];
     storeOps := licensed [StoreOrgsGet; StoreOrgsLock; StoreProjectsGet; StoreProjectsSetRetention;
        StoreAuditTenantInsert];
     postGrantForbidden := false;
     events := [EventProjectRetentionChanged];
     auditedNone := false; reviewExempt := false |})].

(** [OpRetentionHealthRead] to [OpCredentialPolicyUpdate]. *)
Definition operationRows_16 : list (Operation * opSpec) := [
  (OpRetentionHealthRead, {|
     class := ClassInstance; level := LevelNone;
     formula := [MkAtom CapInstanceConfig LevelNone];
     storeOps := licensed [StoreRetentionLastSuccess; StoreOpsDiagnosticsRead; StoreAuditInstanceInsert;
        StoreAdaptersHealthCounts; StoreValuesInstancePayloadByProject;
        StoreSnapshotsInstancePayloadByProject; StoreBackupStateGet];
     postGrantForbidden := false;
     events := [EventRetentionHealthRead];
     auditedNone := false; reviewExempt := false |});
  (OpUpdateStatusRead, {|
     class := ClassInstance; level := LevelNone;
     formula := [MkAtom CapInstanceConfig LevelNone];
     storeOps := licensed [StoreAuditInstanceInsert];
     postGrantForbidden := false;
     events := [EventUpdateStatusRead];
     auditedNone := false; reviewExempt := false |});
  (OpUpdateRequest, {|
     class := ClassInstance; level := LevelNone;
     formula := [MkAtom CapInstanceConfig LevelNone];
     storeOps := licensed [StoreAuditInstanceInsert];
     postGrantForbidden := false;
     events := [EventUpdateRequested; EventUpdateOutcome];
     auditedNone := false; reviewExempt := false |});
  (OpUpdateJobRead, {|
     class := ClassInstance; level := LevelNone;
     formula := [MkAtom CapInstanceConfig LevelNone];
     storeOps := licensed [StoreAuditInstanceInsert];
     postGrantForbidden := false;
     events := [EventUpdateOutcome];
     auditedNone := false; reviewExempt := false |});
  (OpServiceAccountCreate, {|
     class := ClassTenant; level := LevelProject;
     formula := [MkAtom CapManageIdentities LevelProject];
     storeOps := licensed [StoreAuditTenantInsert];
     postGrantForbidden := false;
     events := [EventServiceAccountCreated];
     auditedNone := false; reviewExempt := false |});
  (OpServiceAccountList, {|
     class := ClassTenant; level := LevelProject;
     formula := [MkAtom CapManageIdentities LevelProject];
     storeOps := licensed [StoreAuditTenantInsert];
     postGrantForbidden := false;
     events := [EventCredentialsListed];
     auditedNone := false; reviewExempt := false |});
  (OpServiceAccountDelete, {|
     class := ClassTenant; level := LevelProject;
     formula := [MkAtom CapManageIdentities LevelProject];
     storeOps := licensed [StoreAuditTenantInsert];
     postGrantForbidden := false;
     events := [EventServiceAccountDeleted; EventCredentialRevoked];
     auditedNone := false; reviewExempt := false |});
  (OpCredentialMint, {|
     class := ClassTenant; level := LevelProject;
     formula := [MkAtom CapManageIdentities LevelProject];
     storeOps := licensed [StoreAuditTenantInsert];
     postGrantForbidden := false;
     events := [EventCredentialMinted];
     auditedNone := false; reviewExempt := false |});
  (OpCredentialList, {|
     class := ClassTenant; level := LevelProject;
     formula := [MkAtom CapManageIdentities LevelProject];
     storeOps := licensed [StoreAuditTenantInsert];
     postGrantForbidden := false;
     events := [EventCredentialsListed];
     auditedNone := false; reviewExempt := false |});
  (OpCredentialRevoke, {|
     class := ClassTenant; level := LevelProject;
     formula := [MkAtom CapManageIdentities LevelProject];
     storeOps := licensed [StoreAuditTenantInsert];
     postGrantForbidden := false;
     events := [EventCredentialRevoked; EventBindingReactivated];
     auditedNone := false; reviewExempt := false |});
  (OpCredentialPolicyRead, {|
     class := ClassInstance; level := LevelNone;
     formula := [MkAtom CapInstanceConfig LevelNone];
     storeOps := licensed [StoreAuditInstanceInsert];
     postGrantForbidden := false;
     events := [EventCredentialPolicyRead];
     auditedNone := false; reviewExempt := false |});
  (OpCredentialPolicyUpdate, {|
     class := ClassInstance; level := LevelNone;
     formula := [MkAtom CapInstanceConfig LevelNone];
     storeOps := licensed [StoreAuditInstanceInsert];
     postGrantForbidden := false;
     events := [EventCredentialPolicyChanged; EventCredentialPolicyRead];
     auditedNone := false; reviewExempt := false |})].

(** [OpFederationIssuerCreate] to [OpSCIMBindingDelete]. *)
Definition operationRows_17 : list (Operation * opSpec) := [
  (OpFederationIssuerCreate, {|
     class := ClassInstance; level := LevelNone;
     formula := [MkAtom CapInstanceConfig LevelNone];
     storeOps := licensed [StoreAuditInstanceInsert];
     postGrantForbidden := false;
     events := [EventFederationIssuerChanged];
     auditedNone := false; reviewExempt := false |});
  (OpFederationIssuerUpdate, {|
     class := ClassInstance; level := LevelNone;
     formula := [MkAtom CapInstanceConfig LevelNone];
     storeOps := licensed [StoreAuditInstanceInsert];
     postGrantForbidden := false;
     events := [EventFederationIssuerChanged];
     auditedNone := false; reviewExempt := false |});
  (OpFederationIssuerDelete, {|
     class := ClassInstance; level := LevelNone;
     formula := [MkAtom CapInstanceConfig LevelNone];
     storeOps := licensed [StoreAuditInstanceInsert];
     postGrantForbidden := false;
     events := [EventFederationIssuerChanged];
     auditedNone := false; reviewExempt := false |});
  (OpFederationIssuerList, {|
     class := ClassInstance; level := LevelNone;
     formula := [MkAtom CapInstanceConfig LevelNone];
     storeOps := licensed [StoreAuditInstanceInsert];
     postGrantForbidden := false;
     events := [EventFederationIssuerRead];
     auditedNone := false; reviewExempt := false |});
  (OpBindingCreate, {|
     class := ClassTenant; level := LevelProject;
     formula := [MkAtom CapManageIdentities LevelProject];
     storeOps := licensed [StoreAuditTenantInsert];
     postGrantForbidden := false;
     events := [EventBindingCreated; EventCredentialRevoked];
     auditedNone := false; reviewExempt := false |});
  (OpDeliveryFetch, {|
     class := ClassTenant; level := LevelEnv;
     formula := [MkAtom CapRead LevelEnv];
     storeOps := licensed [StoreSnapshotsLatest; StoreSnapshotsEntries; StoreSnapshotsParameterContract;
        StoreSnapshotsAtRevision; StorePinsGetForWorkload; StoreCatalogueList;
        StoreCataloguePresenceList; StoreCatalogueRevisionGet; StoreAuditTenantInsert];
     postGrantForbidden := false;
     events := [EventDeliveryFetched; EventDisclosure];
     auditedNone := false; reviewExempt := false |});
  (OpDeliveryReconcileOffline, {|
     class := ClassTenant; level := LevelEnv;
     formula := [MkAtom CapRead LevelEnv];
     storeOps := licensed [StoreAuditClaimOfflineRecord; StoreAuditTenantInsert];
     postGrantForbidden := false;
     events := [EventOfflineRecordsReconciled; EventValueRevealed];
     auditedNone := false; reviewExempt := false |});
  (OpSCIMBindingCreate, {|
     class := ClassTenant; level := LevelOrg;
     formula := scimAdminFormula;
     storeOps := scimOps [scimBase; scimAttentionReadOps; licensed [StoreSCIMCreateBinding]];
     postGrantForbidden := false;
     events := [EventSCIMBindingCreated; EventGrantCreated; EventSCIMAttentionEntered];
     auditedNone := false; reviewExempt := false |});
  (OpSCIMBindingGet, {|
     class := ClassTenant; level := LevelOrg;
     formula := scimAdminFormula;
     storeOps := scimOps [scimBase; scimAttentionReadOps];
     postGrantForbidden := false;
     events := [EventSCIMAdminRead; EventSCIMAttentionEntered; EventSCIMAttentionCleared];
     auditedNone := false; reviewExempt := false |});
  (OpSCIMBindingList, {|
     class := ClassTenant; level := LevelOrg;
     formula := scimAdminFormula;
     storeOps := scimOps [scimBase; scimAttentionReadOps; licensed [StoreSCIMBindings]];
     postGrantForbidden := false;
     events := [EventSCIMAdminRead; EventSCIMAttentionEntered; EventSCIMAttentionCleared];
     auditedNone := false; reviewExempt := false |});
  (OpSCIMBindingDelete, {|
     class := ClassTenant; level := LevelOrg;
     formula := scimAdminFormula;
     storeOps := scimOps [scimBase; scimDirectoryOps; scimTeardownOps; scimCredentialOps];
     postGrantForbidden := false;
     events := [EventSCIMBindingDeleted; EventGrantRevoked; EventGrantModified;
        EventSCIMLockoutRetention; EventSCIMAttentionEntered; EventSCIMAttentionCleared];
     auditedNone := false; reviewExempt := false |})].

(** [OpSCIMMappingCreate] to [OpSCIMUserPatch]. *)
Definition operationRows_18 : list (Operation * opSpec) := [
  (OpSCIMMappingCreate, {|
     class := ClassTenant; level := LevelOrg;
     formula := scimAdminFormula;
     storeOps := scimOps [scimBase; scimDirectoryOps; scimMappingWriteOps];
     postGrantForbidden := false;
     events := [EventSCIMMappingCreated; EventGrantCreated; EventGrantModified;
        EventSCIMLockoutRetentionReleased; EventSCIMAttentionCleared];
     auditedNone := false; reviewExempt := false |});
  (OpSCIMMappingUpdate, {|
     class := ClassTenant; level := LevelOrg;
     formula := scimAdminFormula;
     storeOps := scimOps [scimBase; scimDirectoryOps; scimMappingWriteOps];
     postGrantForbidden := false;
     events := [EventSCIMMappingUpdated; EventGrantCreated; EventGrantModified;
        EventGrantRevoked; EventSCIMLockoutRetention; EventSCIMLockoutRetentionReleased;
        EventSCIMAttentionEntered; EventSCIMAttentionCleared];
     auditedNone := false; reviewExempt := false |});
  (OpSCIMMappingDelete, {|
     class := ClassTenant; level := LevelOrg;
     formula := scimAdminFormula;
     storeOps := scimOps [scimBase; scimDirectoryOps; scimMappingWriteOps];
     postGrantForbidden := false;
     events := [EventSCIMMappingDeleted; EventGrantRevoked; EventGrantModified;
        EventSCIMLockoutRetention; EventSCIMAttentionEntered; EventSCIMAttentionCleared];
     auditedNone := false; reviewExempt := false |});
  (OpSCIMMappingList, {|
     class := ClassTenant; level := LevelOrg;
     formula := scimAdminFormula;
     storeOps := scimOps [scimBase; licensed [StoreSCIMMappings]];
     postGrantForbidden := false;
     events := [EventSCIMAdminRead];
     auditedNone := false; reviewExempt := false |});
  (OpSCIMCredentialMint, {|
     class := ClassTenant; level := LevelOrg;
     formula := scimAdminFormula;
     storeOps := scimOps [scimBase; scimCredentialOps];
     postGrantForbidden := false;
     events := [EventSCIMCredentialMinted; EventSCIMCredentialRotated];
     auditedNone := false; reviewExempt := false |});
  (OpSCIMCredentialGet, {|
     class := ClassTenant; level := LevelOrg;
     formula := scimAdminFormula;
     storeOps := scimOps [scimBase; scimCredentialOps];
     postGrantForbidden := false;
     events := [EventSCIMAdminRead];
     auditedNone := false; reviewExempt := false |});
  (OpSCIMCredentialList, {|
     class := ClassTenant; level := LevelOrg;
     formula := scimAdminFormula;
     storeOps := scimOps [scimBase; scimCredentialOps];
     postGrantForbidden := false;
     events := [EventSCIMAdminRead];
     auditedNone := false; reviewExempt := false |});
  (OpSCIMCredentialRevoke, {|
     class := ClassTenant; level := LevelOrg;
     formula := scimAdminFormula;
     storeOps := scimOps [scimBase; scimCredentialOps];
     postGrantForbidden := false;
     events := [EventSCIMCredentialRevoked];
     auditedNone := false; reviewExempt := false |});
  (OpSCIMDirectoryUsers, {|
     class := ClassTenant; level := LevelOrg;
     formula := scimAdminFormula;
     storeOps := scimOps [scimBase; scimDirectoryOps];
     postGrantForbidden := false;
     events := [EventSCIMAdminRead];
     auditedNone := false; reviewExempt := false |});
  (OpSCIMDirectoryGroups, {|
     class := ClassTenant; level := LevelOrg;
     formula := scimAdminFormula;
     storeOps := scimOps [scimBase; scimDirectoryOps];
     postGrantForbidden := false;
     events := [EventSCIMAdminRead];
     auditedNone := false; reviewExempt := false |});
  (OpSCIMUserCreate, {|
     class := ClassTenant; level := LevelOrg;
     formula := scimWireFormula;
     storeOps := scimOps [scimBase; scimWireBase; scimDirectoryOps; scimUserWriteOps];
     postGrantForbidden := false;
     events := [EventSCIMUserProvisioned; EventGrantCreated; EventGrantModified;
        EventSCIMAttentionCleared];
     auditedNone := false; reviewExempt := false |});
  (OpSCIMUserGet, {|
     class := ClassTenant; level := LevelOrg;
     formula := scimWireFormula;
     storeOps := scimOps [scimBase; scimWireBase; scimDirectoryOps];
     postGrantForbidden := false;
     events := [EventSCIMDirectoryRead; EventSCIMAttentionCleared];
     auditedNone := false; reviewExempt := false |});
  (OpSCIMUserList, {|
     class := ClassTenant; level := LevelOrg;
     formula := scimWireFormula;
     storeOps := scimOps [scimBase; scimWireBase; scimDirectoryOps];
     postGrantForbidden := false;
     events := [EventSCIMDirectoryRead; EventSCIMAttentionCleared];
     auditedNone := false; reviewExempt := false |});
  (OpSCIMUserReplace, {|
     class := ClassTenant; level := LevelOrg;
     formula := scimWireFormula;
     storeOps := scimOps [scimBase; scimWireBase; scimDirectoryOps; scimUserWriteOps];
     postGrantForbidden := false;
     events := scimUserMutationEvents;
     auditedNone := false; reviewExempt := false |});
  (OpSCIMUserPatch, {|
     class := ClassTenant; level := LevelOrg;
     formula := scimWireFormula;
     storeOps := scimOps [scimBase; scimWireBase; scimDirectoryOps; scimUserWriteOps];
     postGrantForbidden := false;
     events := scimUserMutationEvents;
     auditedNone := false; reviewExempt := false |})].

(** [OpSCIMUserDelete] to [OpRemoteDirectoryServe]. *)
Definition operationRows_19 : list (Operation * opSpec) := [
  (OpSCIMUserDelete, {|
     class := ClassTenant; level := LevelOrg;
     formula := scimWireFormula;
     storeOps := scimOps [scimBase; scimWireBase; scimDirectoryOps; scimUserWriteOps];
     postGrantForbidden := false;
     events := [EventSCIMUserDeleted; EventGrantRevoked; EventGrantModified;
        EventSCIMLockoutRetention; EventSCIMAttentionEntered; EventSCIMAttentionCleared];
     auditedNone := false; reviewExempt := false |});
  (OpSCIMGroupCreate, {|
     class := ClassTenant; level := LevelOrg;
     formula := scimWireFormula;
     storeOps := scimOps [scimBase; scimWireBase; scimDirectoryOps; scimGroupWriteOps];
     postGrantForbidden := false;
     events := [EventSCIMGroupCreated; EventSCIMGroupMembership; EventGrantCreated;
        EventGrantModified; EventSCIMAttentionCleared];
     auditedNone := false; reviewExempt := false |});
  (OpSCIMGroupGet, {|
     class := ClassTenant; level := LevelOrg;
     formula := scimWireFormula;
     storeOps := scimOps [scimBase; scimWireBase; scimDirectoryOps];
     postGrantForbidden := false;
     events := [EventSCIMDirectoryRead; EventSCIMAttentionCleared];
     auditedNone := false; reviewExempt := false |});
  (OpSCIMGroupList, {|
     class := ClassTenant; level := LevelOrg;
     formula := scimWireFormula;
     storeOps := scimOps [scimBase; scimWireBase; scimDirectoryOps];
     postGrantForbidden := false;
     events := [EventSCIMDirectoryRead; EventSCIMAttentionCleared];
     auditedNone := false; reviewExempt := false |});
  (OpSCIMGroupReplace, {|
     class := ClassTenant; level := LevelOrg;
     formula := scimWireFormula;
     storeOps := scimOps [scimBase; scimWireBase; scimDirectoryOps; scimGroupWriteOps];
     postGrantForbidden := false;
     events := scimGroupMutationEvents;
     auditedNone := false; reviewExempt := false |});
  (OpSCIMGroupPatch, {|
     class := ClassTenant; level := LevelOrg;
     formula := scimWireFormula;
     storeOps := scimOps [scimBase; scimWireBase; scimDirectoryOps; scimGroupWriteOps];
     postGrantForbidden := false;
     events := scimGroupMutationEvents;
     auditedNone := false; reviewExempt := false |});
  (OpSCIMGroupDelete, {|
     class := ClassTenant; level := LevelOrg;
     formula := scimWireFormula;
     storeOps := scimOps [scimBase; scimWireBase; scimDirectoryOps; scimGroupWriteOps;
        scimMappingWriteOps];
     postGrantForbidden := false;
     events := [EventSCIMGroupDeleted; EventSCIMGroupMembership; EventGrantRevoked;
        EventGrantModified; EventSCIMLockoutRetention; EventSCIMAttentionEntered;
        EventSCIMAttentionCleared];
     auditedNone := false; reviewExempt := false |});
  (OpSCIMUnsupported, {|
     class := ClassTenant; level := LevelOrg;
     formula := scimWireFormula;
     storeOps := scimOps [scimBase; scimWireBase];
     postGrantForbidden := false;
     events := [EventSCIMDirectoryRead; EventSCIMAttentionCleared];
     auditedNone := false; reviewExempt := false |});
  (OpSCIMDiscovery, {|
     class := ClassTenant; level := LevelOrg;
     formula := scimWireFormula;
     storeOps := scimDiscoveryOps;
     postGrantForbidden := false;
     events := [];
     auditedNone := false; reviewExempt := true |});
  (OpRemoteDirectoryServe, {|
     class := ClassInstance; level := LevelNone;
     formula := [MkAtom CapInstanceDirector LevelNone];
     storeOps := licensed [StoreOrgsList; StoreProjectsListAll; StoreAuditInstanceInsert];
     postGrantForbidden := false;
     events := [EventRemoteDirectoryServed];
     auditedNone := false; reviewExempt := false |})].

(** [OpRemoteAdd] to [OpAdapterConfigure]. *)
Definition operationRows_20 : list (Operation * opSpec) := [
  (OpRemoteAdd, {|
     class := ClassInstance; level := LevelNone;
     formula := [MkAtom CapInstanceConfig LevelNone];
     storeOps := licensed [StoreRemotesCount; StoreRemotesList; StoreRemoteSnapshotsList;
        StoreRemotesCreate; StoreRemoteSnapshotsWrite; StoreKeysAssertActiveDEKVersion;
        StoreAuditInstanceInsert];
     postGrantForbidden := false;
     events := [EventRemoteAdded];
     auditedNone := false; reviewExempt := false |});
  (OpRemoteList, {|
     class := ClassInstance; level := LevelNone;
     formula := [MkAtom CapInstanceDirector LevelNone];
     storeOps := licensed [StoreRemotesList; StoreRemotesSealed; StoreRemoteSnapshotsList;
        StoreRemoteSnapshotsWrite; StoreRemoteSnapshotsFail; StoreAuditInstanceInsert];
     postGrantForbidden := false;
     events := [EventRemoteDirectoryViewed; EventRemoteFetchFailed];
     auditedNone := false; reviewExempt := false |});
  (OpRemoteShow, {|
     class := ClassInstance; level := LevelNone;
     formula := [MkAtom CapInstanceDirector LevelNone];
     storeOps := licensed [StoreRemotesGet; StoreRemotesGetByName; StoreRemotesSealed;
        StoreRemoteSnapshotsGet; StoreRemoteSnapshotsWrite; StoreRemoteSnapshotsFail;
        StoreAuditInstanceInsert];
     postGrantForbidden := false;
     events := [EventRemoteDirectoryViewed; EventRemoteFetchFailed];
     auditedNone := false; reviewExempt := false |});
  (OpRemoteRename, {|
     class := ClassInstance; level := LevelNone;
     formula := [MkAtom CapInstanceConfig LevelNone];
     storeOps := licensed [StoreRemotesGet; StoreRemotesGetByName; StoreRemotesRename;
        StoreRemoteSnapshotsGet; StoreAuditInstanceInsert];
     postGrantForbidden := false;
     events := [EventRemoteRenamed];
     auditedNone := false; reviewExempt := false |});
  (OpRemoteRemove, {|
     class := ClassInstance; level := LevelNone;
     formula := [MkAtom CapInstanceConfig LevelNone];
     storeOps := licensed [StoreRemotesGet; StoreRemotesGetByName; StoreRemotesDelete;
        StoreAuditInstanceInsert];
     postGrantForbidden := false;
     events := [EventRemoteRemoved];
     auditedNone := false; reviewExempt := false |});
  (OpRemoteCredentialCreate, {|
     class := ClassInstance; level := LevelNone;
     formula := [MkAtom CapInstanceConfig LevelNone];
     storeOps := licensed [StoreAuditInstanceInsert];
     postGrantForbidden := false;
     events := [EventRemoteCredentialMinted];
     auditedNone := false; reviewExempt := false |});
  (OpRemoteCredentialList, {|
     class := ClassInstance; level := LevelNone;
     formula := [MkAtom CapInstanceConfig LevelNone];
     storeOps := licensed [StoreAuditInstanceInsert];
     postGrantForbidden := false;
     events := [EventRemoteCredentialsListed];
     auditedNone := false; reviewExempt := false |});
  (OpRemoteCredentialShow, {|
     class := ClassInstance; level := LevelNone;
     formula := [MkAtom CapInstanceConfig LevelNone];
     storeOps := licensed [StoreAuditInstanceInsert];
     postGrantForbidden := false;
     events := [EventRemoteCredentialsListed];
     auditedNone := false; reviewExempt := false |});
  (OpRemoteCredentialRevoke, {|
     class := ClassInstance; level := LevelNone;
     formula := [MkAtom CapInstanceConfig LevelNone];
     storeOps := licensed [StoreAuditInstanceInsert];
     postGrantForbidden := false;
     events := [EventRemoteCredentialRevoked];
     auditedNone := false; reviewExempt := false |});
  (OpWorkspaceOriginList, {|
     class := ClassInstance; level := LevelNone;
     formula := [MkAtom CapInstanceConfig LevelNone];
     storeOps := licensed [StoreAuditInstanceInsert];
     postGrantForbidden := false;
     events := [EventRemoteOriginAllowlistRead];
     auditedNone := false; reviewExempt := false |});
  (OpWorkspaceOriginAdd, {|
     class := ClassInstance; level := LevelNone;
     formula := [MkAtom CapInstanceConfig LevelNone];
     storeOps := licensed [StoreAuditInstanceInsert];
     postGrantForbidden := false;
     events := [EventRemoteOriginAllowlistChanged];
     auditedNone := false; reviewExempt := false |});
  (OpWorkspaceOriginRemove, {|
     class := ClassInstance; level := LevelNone;
     formula := [MkAtom CapInstanceConfig LevelNone];
     storeOps := licensed [StoreAuditInstanceInsert];
     postGrantForbidden := false;
     events := [EventRemoteOriginAllowlistChanged; EventRemoteWorkspaceSessionRevoked];
     auditedNone := false; reviewExempt := false |});
  (OpAdapterConfigure, {|
     class := ClassTenant; level := LevelProject;
     formula := [MkAtom CapManageAdapters LevelProject];
     storeOps := licensed [StoreAdaptersCreate; StoreAdaptersAddTarget; StoreAdaptersBeginConfigureEffect;
        StoreAdaptersFinishConfigureEffect; StoreAdaptersUpdateTarget;
        StoreAdaptersMoveTarget; StoreAdaptersMoveOrigin; StoreAdaptersCancelMove;
        StoreAdaptersReplaceMoveTarget; StoreAdaptersReplaceMoveOrigin;
        StoreAdaptersMove; StoreAdaptersConfiguration; StoreAdaptersTarget;
        StoreAdaptersTargetKeyIDs; StoreAdaptersTargetKeys; StoreAdaptersPauseTarget;
        StoreAdaptersEnvironments; StoreCatalogueList; StoreKeysAssertActiveDEKVersion;
        StoreAuditTenantInsert];
     postGrantForbidden := true;
     events := [EventAdapterConfigure; EventAdapterSyncRequested; EventAdapterSuperseded;
        EventAdapterScrub; EventAdapterPushIntent; EventAdapterPushOutcome];
     auditedNone := false; reviewExempt := false |})].

(** [OpAdapterCredentialSet] to [OpLeaseSettle]. *)
Definition operationRows_21 : list (Operation * opSpec) := [
  (OpAdapterCredentialSet, {|
     class := ClassTenant; level := LevelProject;
     formula := [MkAtom CapManageAdapters LevelProject];
     storeOps := licensed [StoreAdaptersEnvironments; StoreAdaptersReplaceCredential;
        StoreKeysAssertActiveDEKVersion; StoreAuditTenantInsert];
     postGrantForbidden := true;
     events := [EventAdapterCredentialReplace];
     auditedNone := false; reviewExempt := false |});
  (OpAdapterCredentialRevoke, {|
     class := ClassTenant; level := LevelProject;
     formula := [MkAtom CapManageAdapters LevelProject];
     storeOps := licensed [StoreAdaptersRevokeCredential; StoreAuditTenantInsert];
     postGrantForbidden := false;
     events := [EventAdapterCredentialRevoke];
     auditedNone := false; reviewExempt := false |});
  (OpAdapterAdopt, {|
     class := ClassTenant; level := LevelProject;
     formula := [MkAtom CapManageAdapters LevelProject];
     storeOps := licensed [StoreAdaptersTarget; StoreAdaptersTargetEnvironments; StoreAdaptersConflicts;
        StoreAdaptersAdopt; StoreAuditTenantInsert];
     postGrantForbidden := true;
     events := [EventAdapterAdopt; EventAdapterSuperseded];
     auditedNone := false; reviewExempt := false |});
  (OpAdapterInspect, {|
     class := ClassTenant; level := LevelProject;
     formula := [MkAtom CapManageAdapters LevelProject];
     storeOps := licensed [StoreAdaptersGet; StoreAdaptersList; StoreAdaptersListTargets;
        StoreAdaptersTarget; StoreAdaptersTargetKeys; StoreAdaptersMapping;
        StoreAdaptersTargetEnvironments; StoreAdaptersConflicts; StoreAdaptersMove;
        StoreAuditTenantInsert];
     postGrantForbidden := false;
     events := [EventAdapterInspect];
     auditedNone := false; reviewExempt := false |});
  (OpAdapterPlan, {|
     class := ClassTenant; level := LevelProject;
     formula := [MkAtom CapManageAdapters LevelProject];
     storeOps := licensed [StoreAdaptersTarget; StoreAdaptersPlanMaterial; StoreAdaptersConflicts;
        StoreAdaptersRecordPlan; StoreAuditTenantInsert];
     postGrantForbidden := false;
     events := [EventAdapterPlan];
     auditedNone := false; reviewExempt := false |});
  (OpAdapterTest, {|
     class := ClassTenant; level := LevelProject;
     formula := [MkAtom CapManageAdapters LevelProject];
     storeOps := licensed [StoreAdaptersPlanMaterial; StoreAdaptersTarget;
        StoreAdaptersRecordCredentialExpiry; StoreAuditTenantInsert];
     postGrantForbidden := false;
     events := [EventAdapterTest];
     auditedNone := false; reviewExempt := false |});
  (OpAdapterSync, {|
     class := ClassTenant; level := LevelProject;
     formula := [MkAtom CapManageAdapters LevelProject];
     storeOps := licensed [StoreAdaptersTarget; StoreAdaptersEnvironments; StoreAdaptersEnqueueManual;
        StoreAdaptersResumeTarget; StoreAuditTenantInsert];
     postGrantForbidden := true;
     events := [EventAdapterSyncRequested; EventAdapterPushIntent; EventAdapterPushOutcome;
        EventAdapterKeyDelivered; EventAdapterAbort; EventAdapterSuperseded];
     auditedNone := false; reviewExempt := false |});
  (OpAdapterDelete, {|
     class := ClassTenant; level := LevelProject;
     formula := [MkAtom CapManageAdapters LevelProject];
     storeOps := licensed [StoreAdaptersTeardownTarget; StoreAdaptersTeardownAdapter;
        StoreAuditTenantInsert];
     postGrantForbidden := false;
     events := [EventAdapterConfigure; EventAdapterScrub; EventAdapterPushIntent;
        EventAdapterPushOutcome; EventAdapterAbort; EventAdapterSuperseded];
     auditedNone := false; reviewExempt := false |});
  (OpAdapterPush, {|
     class := ClassTenant; level := LevelEnv;
     formula := [MkAtom CapManageAdapters LevelProject; MkAtom CapReveal LevelEnv];
     storeOps := licensed [StoreAuditTenantInsert];
     postGrantForbidden := false;
     events := [EventAdapterPushIntent; EventAdapterPushOutcome; EventAdapterKeyDelivered;
        EventAdapterAbort; EventAdapterScrub; EventAdapterSuperseded];
     auditedNone := false; reviewExempt := false |});
  (OpDynamicProviderConfigure, {|
     class := ClassTenant; level := LevelProject;
     formula := [MkAtom CapManageIdentities LevelProject];
     storeOps := licensed [StoreDynamicProvidersCreate; StoreDynamicProvidersGet;
        StoreKeysAssertActiveDEKVersion; StoreAuditTenantInsert];
     postGrantForbidden := false;
     events := [EventDynamicProviderConfigured];
     auditedNone := false; reviewExempt := false |});
  (OpDynamicProviderInspect, {|
     class := ClassTenant; level := LevelProject;
     formula := [MkAtom CapManageIdentities LevelProject];
     storeOps := licensed [StoreDynamicProvidersGet; StoreDynamicProvidersList; StoreAuditTenantInsert];
     postGrantForbidden := false;
     events := [EventDynamicProviderInspected];
     auditedNone := false; reviewExempt := false |});
  (OpDynamicProviderCredentialSet, {|
     class := ClassTenant; level := LevelProject;
     formula := [MkAtom CapManageIdentities LevelProject];
     storeOps := licensed [StoreDynamicProvidersGet; StoreDynamicProvidersReplaceCredential;
        StoreKeysAssertActiveDEKVersion; StoreAuditTenantInsert];
     postGrantForbidden := false;
     events := [EventDynamicProviderCredentialReplace];
     auditedNone := false; reviewExempt := false |});
  (OpDynamicProviderCredentialRevoke, {|
     class := ClassTenant; level := LevelProject;
     formula := [MkAtom CapManageIdentities LevelProject];
     storeOps := licensed [StoreDynamicProvidersGet; StoreDynamicProvidersRevokeCredential;
        StoreAuditTenantInsert];
     postGrantForbidden := false;
     events := [EventDynamicProviderCredentialRevoke];
     auditedNone := false; reviewExempt := false |});
  (OpDynamicProviderDelete, {|
     class := ClassTenant; level := LevelProject;
     formula := [MkAtom CapManageIdentities LevelProject];
     storeOps := licensed [StoreDynamicProvidersGet; StoreDynamicProvidersDelete;
        StoreDynamicLeasesActiveIDsForProvider; StoreDynamicLeasesGet;
        StoreDynamicLeasesEnqueueTransition; StoreAuditTenantInsert];
     postGrantForbidden := false;
     events := [EventDynamicProviderDeleted; EventDynamicLeaseTransitionIntent];
     auditedNone := false; reviewExempt := false |});
  (OpLeaseMint, {|
     class := ClassTenant; level := LevelEnv;
     formula := [MkAtom CapRead LevelEnv];
     storeOps := licensed [StoreDynamicProvidersGet; StoreDynamicProvidersCredentialCiphertext;
        StoreDynamicLeasesCreate; StoreDynamicLeasesGet; StoreDynamicLeasesFinishMint;
        StoreAuditTenantInsert];
     postGrantForbidden := true;
     events := [EventDynamicLeaseTransitionIntent; EventDynamicLeaseTransitionOutcome;
        EventDynamicLeaseDisclosed];
     auditedNone := false; reviewExempt := false |});
  (OpLeaseInspect, {|
     class := ClassTenant; level := LevelEnv;
     formula := [MkAtom CapRead LevelEnv];
     storeOps := licensed [StoreDynamicLeasesGet; StoreDynamicLeasesList];
     postGrantForbidden := false;
     events := [];
     auditedNone := true; reviewExempt := false |});
  (OpLeaseRenew, {|
     class := ClassTenant; level := LevelEnv;
     formula := [MkAtom CapRead LevelEnv];
     storeOps := licensed [StoreDynamicLeasesGet; StoreDynamicLeasesEnqueueTransition;
        StoreAuditTenantInsert];
     postGrantForbidden := false;
     events := [EventDynamicLeaseTransitionIntent];
     auditedNone := false; reviewExempt := false |});
  (OpLeaseRevoke, {|
     class := ClassTenant; level := LevelEnv;
     formula := [MkAtom CapRead LevelEnv];
     storeOps := licensed [StoreDynamicLeasesGet; StoreDynamicLeasesEnqueueTransition;
        StoreAuditTenantInsert];
     postGrantForbidden := false;
     events := [EventDynamicLeaseTransitionIntent];
     auditedNone := false; reviewExempt := false |});
  (OpLeaseSettle, {|
     class := ClassTenant; level := LevelEnv;
     formula := [MkAtom CapRead LevelEnv];
     storeOps := licensed [StoreDynamicLeasesGet; StoreDynamicLeasesEnqueueTransition;
        StoreAuditTenantInsert];
     postGrantForbidden := false;
     events := [EventDynamicLeaseSettleRequested];
     auditedNone := false; reviewExempt := false |})].

Definition operationRows : list (Operation * opSpec) :=
  operationRows_01 ++ operationRows_02 ++ operationRows_03 ++ operationRows_04 ++ operationRows_05 ++ operationRows_06 ++ operationRows_07 ++ operationRows_08 ++ operationRows_09 ++ operationRows_10 ++ operationRows_11 ++ operationRows_12 ++ operationRows_13 ++ operationRows_14 ++ operationRows_15 ++ operationRows_16 ++ operationRows_17 ++ operationRows_18 ++ operationRows_19 ++ operationRows_20 ++ operationRows_21.

Definition operationTable : gmap string opSpec := list_to_map operationRows.

#[global] Opaque operationRows operationTable.
