(* ===== verification/AuditTable.v ===== *)
(** * The audit event catalogue: [internal/audit/registry.go], [privacy.go]

    One row per event type: schema version, retention class, licensed outcomes
    and trails, and the closed payload schema. [AuditEvent.v] validates events
    against it. *)

From S2P Require Import Prelude EventNames.

#[local] Open Scope Z_scope.

(** ** Envelope enumerations: Go named string types *)
Abbreviation Trail := string (only parsing).
Definition TrailTenant : Trail := "tenant".
Definition TrailInstance : Trail := "instance".

Abbreviation Outcome := string (only parsing).
Definition OutcomeIntent : Outcome := "intent".
Definition OutcomeSuccess : Outcome := "success".
Definition OutcomeDenied : Outcome := "denied".
Definition OutcomeFailure : Outcome := "failure".
Definition OutcomeUnknown : Outcome := "unknown".
Definition OutcomeDisconnected : Outcome := "disconnected".

Abbreviation RetentionClass := string (only parsing).
Definition RetentionAccess : RetentionClass := "access".
Definition RetentionSecurity : RetentionClass := "security".

(** ** Payload schemas *)
Abbreviation FieldKind := Z (only parsing).
Definition KindString : FieldKind := 0.
Definition KindFreeText : FieldKind := 1.
Definition KindInt : FieldKind := 2.
Definition KindBool : FieldKind := 3.
Definition KindStringList : FieldKind := 4.
Definition KindObject : FieldKind := 5.
Definition KindFreeTextMap : FieldKind := 6.

(** [FieldSpec]; a [Schema] is a map from field names to specs, written as the
    association list of its literal, and a nil [ObjectSchema] is [None]. *)
Inductive FieldSpec := MkFieldSpec {
  Kind : FieldKind;
  Required : bool;
  ObjectSchema : option (list (string * FieldSpec));
  Enum : list string;
  NonNegative : bool;
  AtLeast : Z;
  MaxLen : Z;
  MaxBytes : Z;
  Digest : bool }.

Abbreviation Schema := (list (string * FieldSpec)) (only parsing).

(** Struct literals with some fields set: [fs] sets the kind and the required
    flag, the others one more field each. *)
Definition fs (k : FieldKind) (req : bool) : FieldSpec :=
  MkFieldSpec k req None [] false 0 0 0 false.
Definition fs_enum (l : list string) (f : FieldSpec) : FieldSpec :=
  MkFieldSpec (Kind f) (Required f) (ObjectSchema f) l (NonNegative f) (AtLeast f)
    (MaxLen f) (MaxBytes f) (Digest f).
Definition fs_nonNegative (f : FieldSpec) : FieldSpec :=
  MkFieldSpec (Kind f) (Required f) (ObjectSchema f) (Enum f) true (AtLeast f)
    (MaxLen f) (MaxBytes f) (Digest f).
Definition fs_atLeast (n : Z) (f : FieldSpec) : FieldSpec :=
  MkFieldSpec (Kind f) (Required f) (ObjectSchema f) (Enum f) (NonNegative f) n
    (MaxLen f) (MaxBytes f) (Digest f).
Definition fs_maxLen (n : Z) (f : FieldSpec) : FieldSpec :=
  MkFieldSpec (Kind f) (Required f) (ObjectSchema f) (Enum f) (NonNegative f) (AtLeast f)
    n (MaxBytes f) (Digest f).
Definition fs_maxBytes (n : Z) (f : FieldSpec) : FieldSpec :=
  MkFieldSpec (Kind f) (Required f) (ObjectSchema f) (Enum f) (NonNegative f) (AtLeast f)
    (MaxLen f) n (Digest f).
Definition fs_digest (f : FieldSpec) : FieldSpec :=
  MkFieldSpec (Kind f) (Required f) (ObjectSchema f) (Enum f) (NonNegative f) (AtLeast f)
    (MaxLen f) (MaxBytes f) true.
Definition fs_object (s : Schema) (f : FieldSpec) : FieldSpec :=
  MkFieldSpec (Kind f) (Required f) (Some s) (Enum f) (NonNegative f) (AtLeast f)
    (MaxLen f) (MaxBytes f) (Digest f).

(** Lookup of a field in a schema; keys are unique in a Go map literal. *)
Fixpoint field (s : Schema) (name : string) : option FieldSpec :=
  match s with
  | [] => None
  | (k, f) :: s' => if k =s name then Some f else field s' name
  end.

(** [merged]: the entries of both maps, those of [b] over those of [a]. *)
Definition merged (a b : Schema) : Schema :=
  filter (fun p => field b p.1 = None) a ++ b.

Record TypeSpec := MkTypeSpec {
  SchemaVersion : Z;
  Retention : RetentionClass;
  Outcomes : gmap string bool;
  Trails : gmap string bool;
  Schema_ : Schema }.

(** [delivery.MaxAcknowledgedKeys]. *)
Definition MaxAcknowledgedKeys : Z := 64.

(** ** Shared schemas and row shapes *)

Definition filterSchema : Schema := [
  ("filter_from", fs KindString false);
  ("filter_to", fs KindString false);
  ("filter_after_seq", fs KindInt false);
  ("filter_to_seq", fs KindInt false);
  ("filter_limit", fs KindInt true);
  ("filter_actor", fs KindString false);
  ("filter_type", fs KindString false);
  ("filter_outcome", fs KindString false);
  ("filter_object_type", fs KindString false);
  ("filter_object_id", fs KindString false);
  ("filter_correlation_id", fs KindString false)].

Definition pinMutationSchema : Schema := [
  ("workload_principal_id", fs KindString true);
  ("revision", fs KindInt true);
  ("expires_at", fs KindString true);
  ("schema_override", fs KindBool true);
  ("history_authorized", fs KindBool true)].

Definition privacySubjectSpec : TypeSpec := {|
    SchemaVersion := 1; Retention := RetentionSecurity;
    Outcomes := licensed [OutcomeSuccess];
    Trails := licensed [TrailInstance];
    Schema_ := [
      ("target_principal", fs KindString true);
      ("authority", fs_enum ["local-host"] (fs KindString true))] |}.

Definition adapterLifecycleEvent (schema : Schema) : TypeSpec :=
  {|
    SchemaVersion := 1; Retention := RetentionSecurity;
    Outcomes := licensed [OutcomeSuccess; OutcomeDenied; OutcomeFailure];
    Trails := licensed [TrailTenant];
    Schema_ := schema |}.

Definition grantSchema : Schema := [
  ("target_principal", fs KindString true);
  ("capability", fs KindString true);
  ("scope", fs KindString true);
  ("origin_kind", fs KindString true);
  ("self_grant", fs KindBool true);
  ("unheld", fs KindBool true);
  ("target_class", fs KindString true);
  ("template", fs KindString false);
  ("origin_binding", fs KindString false);
  ("origin_mapping_row", fs KindString false);
  ("origin_group", fs KindString false)].

Definition scimAdminEvent (schema : Schema) : TypeSpec :=
  {|
    SchemaVersion := 1; Retention := RetentionSecurity;
    Outcomes := licensed [OutcomeSuccess];
    Trails := licensed [TrailTenant];
    Schema_ := schema |}.

Definition scimWireEvent (schema : Schema) : TypeSpec :=
  {|
    SchemaVersion := 1; Retention := RetentionSecurity;
    Outcomes := licensed [OutcomeSuccess];
    Trails := licensed [TrailTenant];
    Schema_ := schema |}.

Definition scimLockoutEvent (schema : Schema) : TypeSpec :=
  {|
    SchemaVersion := 1; Retention := RetentionSecurity;
    Outcomes := licensed [OutcomeSuccess];
    Trails := licensed [TrailTenant; TrailInstance];
    Schema_ := schema |}.

Definition scimScopeSchema : Schema := [
  ("level", fs_enum ["org"; "project"; "environment"] (fs KindString true));
  ("scope_id", fs KindString true)].

Definition scimMappingSchema : Schema := [
  ("binding", fs KindString true);
  ("group_id", fs KindString true);
  ("template", fs KindString true);
  ("scope", fs_object scimScopeSchema (fs KindObject true));
  ("actor", fs KindString true)].

Definition scimBindingSchema : Schema := [
  ("org", fs KindString true);
  ("provider_ref", fs KindString true);
  ("actor", fs KindString true)].

Definition scimCredentialSchema : Schema := [
  ("binding", fs KindString true);
  ("credential_id", fs KindString true);
  ("actor", fs KindString true)].

Definition scimGroupSchema : Schema := [
  ("binding", fs KindString true);
  ("group_id", fs KindString true);
  ("display_name", fs_maxBytes 256 (fs KindFreeText true))].

Definition scimDeprovisionSchema : Schema := [
  ("binding", fs KindString true);
  ("resource_id", fs KindString true);
  ("account_id", fs KindString true);
  ("released_origin_count", fs_nonNegative (fs KindInt true));
  ("manual_grants_remain", fs KindBool true)].

Definition scimAttentionSchema : Schema := [
  ("binding", fs KindString true);
  ("state", fs_enum ["provider_unavailable"; "lockout_retention"; "manual_grants_remain";
       "inert_mapping"; "stale"; "post_restore"] (fs KindString true));
  ("cause", fs_enum [""; "deprovision"; "user_deleted"; "member_removed"; "group_deleted";
       "mapping_deleted"; "binding_deleted"; "reactivation"] (fs KindString true))].

Definition scimPageSchema : Schema := [
  ("start_index", fs_atLeast 1 (fs KindInt true));
  ("count", fs_nonNegative (fs KindInt true))].

Definition samlCeremonyEvent : TypeSpec :=
  {|
    SchemaVersion := 1; Retention := RetentionSecurity;
    Outcomes := licensed [OutcomeSuccess; OutcomeFailure];
    Trails := licensed [TrailInstance];
    Schema_ := [
      ("provider_id", fs KindString true);
      ("entity_id", fs KindString true);
      ("purpose", fs KindString true);
      ("transaction_id", fs KindString true);
      ("pinned_certificate_expired", fs KindBool false);
      ("cause", fs KindString false);
      ("name_id_format", fs KindString false);
      ("authn_context_class_ref", fs KindString false)] |}.

Definition samlProviderEvent : TypeSpec :=
  let diffSchema : Schema := [
    ("endpoints_added", fs KindStringList true);
    ("endpoints_removed", fs KindStringList true);
    ("certs_added_fps", fs KindStringList true);
    ("certs_removed_fps", fs KindStringList true);
    ("valid_until", fs KindString false)] in
  {|
    SchemaVersion := 1; Retention := RetentionSecurity;
    Outcomes := licensed [OutcomeSuccess; OutcomeFailure];
    Trails := licensed [TrailInstance];
    Schema_ := [
      ("provider_id", fs KindString true);
      ("entity_id", fs KindString true);
      ("source", fs KindString true);
      ("signed", fs KindBool true);
      ("diff", fs_object diffSchema (fs KindObject true));
      ("confirmed_fps", fs KindStringList true);
      ("cause", fs KindString false)] |}.

Definition hierarchyEvent (schema : Schema) : TypeSpec :=
  {|
    SchemaVersion := 1; Retention := RetentionSecurity;
    Outcomes := licensed [OutcomeSuccess];
    Trails := licensed [TrailTenant];
    Schema_ := schema |}.

Definition hierarchyFailureEvent (schema : Schema) : TypeSpec :=
  {|
    SchemaVersion := 1; Retention := RetentionSecurity;
    Outcomes := licensed [OutcomeFailure];
    Trails := licensed [TrailTenant];
    Schema_ := schema |}.

Definition renameSchema (name : string) : Schema := [
  (String.append "previous_" name, fs KindFreeText true);
  (name, fs KindFreeText true)].

(** ** Event rows *)

(** [EventSelfConfigRecovered] to [EventAuthArtifactClassRefused]. *)
Definition eventRows_01 : list (EventType * TypeSpec) := [
  (EventSelfConfigRecovered, {|
      SchemaVersion := 1; Retention := RetentionSecurity;
      Outcomes := licensed [OutcomeSuccess; OutcomeFailure];
      Trails := licensed [TrailTenant];
      Schema_ := [
        ("owner_instance_id", fs KindString true);
        ("revision", fs_nonNegative (fs KindInt true));
        ("generation", fs_nonNegative (fs KindInt true))] |});
  (EventSelfConfigStatusRead, {|
      SchemaVersion := 1; Retention := RetentionSecurity;
      Outcomes := licensed [OutcomeSuccess; OutcomeFailure];
      Trails := licensed [TrailInstance];
      Schema_ := [
        ("owner_instance_id", fs KindString true);
        ("revision", fs_nonNegative (fs KindInt false));
        ("generation", fs_nonNegative (fs KindInt false));
        ("job_id", fs KindString false);
        ("node_id", fs KindString false);
        ("error_code", fs_enum ["invalid_config"; "incompatible_schema"; "preparation_failed";
             "preparation_timeout"; "convergence_timeout"; "restored";
             "transport_failed"; "none"] (fs KindString false))] |});
  (EventSelfConfigAdopted, {|
      SchemaVersion := 1; Retention := RetentionSecurity;
      Outcomes := licensed [OutcomeSuccess; OutcomeFailure];
      Trails := licensed [TrailInstance];
      Schema_ := [
        ("owner_instance_id", fs KindString true);
        ("revision", fs_nonNegative (fs KindInt false));
        ("generation", fs_nonNegative (fs KindInt false));
        ("job_id", fs KindString false);
        ("node_id", fs KindString false);
        ("error_code", fs_enum ["invalid_config"; "incompatible_schema"; "preparation_failed";
             "preparation_timeout"; "convergence_timeout"; "restored";
             "transport_failed"; "none"] (fs KindString false))] |});
  (EventSelfConfigTargetCommitted, {|
      SchemaVersion := 1; Retention := RetentionSecurity;
      Outcomes := licensed [OutcomeSuccess; OutcomeFailure];
      Trails := licensed [TrailTenant];
      Schema_ := [
        ("owner_instance_id", fs KindString true);
        ("revision", fs_nonNegative (fs KindInt false));
        ("generation", fs_nonNegative (fs KindInt false));
        ("job_id", fs KindString false);
        ("node_id", fs KindString false);
        ("error_code", fs_enum ["invalid_config"; "incompatible_schema"; "preparation_failed";
             "preparation_timeout"; "convergence_timeout"; "restored";
             "transport_failed"; "none"] (fs KindString false))] |});
  (EventSelfConfigResumed, {|
      SchemaVersion := 1; Retention := RetentionSecurity;
      Outcomes := licensed [OutcomeSuccess; OutcomeFailure];
      Trails := licensed [TrailTenant];
      Schema_ := [
        ("owner_instance_id", fs KindString true);
        ("revision", fs_nonNegative (fs KindInt false));
        ("generation", fs_nonNegative (fs KindInt false));
        ("job_id", fs KindString false);
        ("node_id", fs KindString false);
        ("error_code", fs_enum ["invalid_config"; "incompatible_schema"; "preparation_failed";
             "preparation_timeout"; "convergence_timeout"; "restored";
             "transport_failed"; "none"] (fs KindString false))] |});
  (EventSelfConfigDeploymentRestoreRequested, {|
      SchemaVersion := 1; Retention := RetentionSecurity;
      Outcomes := licensed [OutcomeSuccess];
      Trails := licensed [TrailTenant];
      Schema_ := [
        ("owner_instance_id", fs KindString true);
        ("revision", fs_nonNegative (fs KindInt true));
        ("generation", fs_nonNegative (fs KindInt true));
        ("job_id", fs KindString true);
        ("plan_digest", fs KindString true)] |});
  (EventSelfConfigApplyRequested, {|
      SchemaVersion := 1; Retention := RetentionSecurity;
      Outcomes := licensed [OutcomeSuccess; OutcomeFailure];
      Trails := licensed [TrailTenant];
      Schema_ := [
        ("owner_instance_id", fs KindString true);
        ("revision", fs_nonNegative (fs KindInt false));
        ("generation", fs_nonNegative (fs KindInt false));
        ("job_id", fs KindString false);
        ("node_id", fs KindString false);
        ("error_code", fs_enum ["invalid_config"; "incompatible_schema"; "preparation_failed";
             "preparation_timeout"; "convergence_timeout"; "restored";
             "transport_failed"; "none"] (fs KindString false))] |});
  (EventSelfConfigTestRequested, {|
      SchemaVersion := 1; Retention := RetentionSecurity;
      Outcomes := licensed [OutcomeSuccess; OutcomeFailure];
      Trails := licensed [TrailTenant];
      Schema_ := [
        ("owner_instance_id", fs KindString true);
        ("revision", fs_nonNegative (fs KindInt false));
        ("generation", fs_nonNegative (fs KindInt false));
        ("job_id", fs KindString false);
        ("node_id", fs KindString false);
        ("error_code", fs_enum ["invalid_config"; "incompatible_schema"; "preparation_failed";
             "preparation_timeout"; "convergence_timeout"; "restored";
             "transport_failed"; "none"] (fs KindString false))] |});
  (EventSelfConfigTestCompleted, {|
      SchemaVersion := 1; Retention := RetentionSecurity;
      Outcomes := licensed [OutcomeSuccess; OutcomeFailure];
      Trails := licensed [TrailTenant];
      Schema_ := [
        ("owner_instance_id", fs KindString true);
        ("revision", fs_nonNegative (fs KindInt false));
        ("generation", fs_nonNegative (fs KindInt false));
        ("job_id", fs KindString false);
        ("node_id", fs KindString false);
        ("error_code", fs_enum ["invalid_config"; "incompatible_schema"; "preparation_failed";
             "preparation_timeout"; "convergence_timeout"; "restored";
             "transport_failed"; "none"] (fs KindString false))] |});
  (EventSelfConfigProjectPrepared, {|
      SchemaVersion := 1; Retention := RetentionSecurity;
      Outcomes := licensed [OutcomeSuccess; OutcomeFailure];
      Trails := licensed [TrailTenant];
      Schema_ := [
        ("owner_instance_id", fs KindString true);
        ("revision", fs_nonNegative (fs KindInt false));
        ("generation", fs_nonNegative (fs KindInt false));
        ("job_id", fs KindString false);
        ("node_id", fs KindString false);
        ("error_code", fs_enum ["invalid_config"; "incompatible_schema"; "preparation_failed";
             "preparation_timeout"; "convergence_timeout"; "restored";
             "transport_failed"; "none"] (fs KindString false))] |});
  (EventSelfConfigApplied, {|
      SchemaVersion := 1; Retention := RetentionSecurity;
      Outcomes := licensed [OutcomeSuccess; OutcomeFailure];
      Trails := licensed [TrailTenant];
      Schema_ := [
        ("owner_instance_id", fs KindString true);
        ("revision", fs_nonNegative (fs KindInt false));
        ("generation", fs_nonNegative (fs KindInt false));
        ("job_id", fs KindString false);
        ("node_id", fs KindString false);
        ("error_code", fs_enum ["invalid_config"; "incompatible_schema"; "preparation_failed";
             "activation_failed"; "preparation_timeout"; "convergence_timeout";
             "restored"; "transport_failed"; "none"] (fs KindString false))] |});
  (EventSelfConfigRecoveryFenced, {|
      SchemaVersion := 1; Retention := RetentionSecurity;
      Outcomes := licensed [OutcomeSuccess; OutcomeFailure];
      Trails := licensed [TrailTenant];
      Schema_ := [
        ("owner_instance_id", fs KindString true);
        ("revision", fs_nonNegative (fs KindInt false));
        ("generation", fs_nonNegative (fs KindInt false));
        ("job_id", fs KindString false);
        ("node_id", fs KindString false);
        ("error_code", fs_enum ["invalid_config"; "incompatible_schema"; "preparation_failed";
             "preparation_timeout"; "convergence_timeout"; "restored";
             "transport_failed"; "none"] (fs KindString false))] |});
  (EventAuthProfileUpdated, {|
      SchemaVersion := 1; Retention := RetentionSecurity;
      Outcomes := licensed [OutcomeSuccess];
      Trails := licensed [TrailInstance];
      Schema_ := [
        ("account_id", fs KindString true)] |});
  (EventPrivacySubjectCorrected, privacySubjectSpec);
  (EventPrivacySubjectReleased, privacySubjectSpec);
  (EventPrivacySubjectExported, privacySubjectSpec);
  (EventPrivacySubjectRestricted, privacySubjectSpec);
  (EventPrivacySubjectErased, privacySubjectSpec);
  (EventGrantDenied, {|
      SchemaVersion := 1; Retention := RetentionAccess;
      Outcomes := licensed [OutcomeDenied];
      Trails := licensed [TrailTenant; TrailInstance];
      Schema_ := [
        ("operation", fs KindString true);
        ("formula", fs KindString true);
        ("resolution", fs_enum ["resolvable"; "unresolvable"] (fs KindString true));
        ("claimed_org", fs KindFreeText false);
        ("claimed_project", fs KindFreeText false);
        ("claimed_env", fs KindFreeText false)] |});
  (EventAuditQuery, {|
      SchemaVersion := 1; Retention := RetentionSecurity;
      Outcomes := licensed [OutcomeSuccess];
      Trails := licensed [TrailTenant; TrailInstance];
      Schema_ := merged filterSchema [
        ("row_count", fs KindInt true)] |});
  (EventAuditExportStarted, {|
      SchemaVersion := 1; Retention := RetentionSecurity;
      Outcomes := licensed [OutcomeIntent];
      Trails := licensed [TrailTenant; TrailInstance];
      Schema_ := filterSchema |});
  (EventAuditExportCompleted, {|
      SchemaVersion := 1; Retention := RetentionSecurity;
      Outcomes := licensed [OutcomeSuccess; OutcomeFailure; OutcomeDisconnected];
      Trails := licensed [TrailTenant; TrailInstance];
      Schema_ := [
        ("rows_streamed", fs KindInt true);
        ("cause", fs KindString false)] |});
  (EventAuthLogin, {|
      SchemaVersion := 1; Retention := RetentionSecurity;
      Outcomes := licensed [OutcomeSuccess; OutcomeFailure];
      Trails := licensed [TrailInstance];
      Schema_ := [
        ("method", fs KindString true);
        ("artifact", fs_enum ["cli"; "browser"] (fs KindString true));
        ("subject_resolved", fs KindBool true);
        ("account_id", fs KindString false);
        ("assurance", fs_enum ["single-factor"; "multi-factor"] (fs KindString false));
        ("cause", fs KindString false)] |});
  (EventAuthLogout, {|
      SchemaVersion := 1; Retention := RetentionSecurity;
      Outcomes := licensed [OutcomeSuccess];
      Trails := licensed [TrailInstance];
      Schema_ := [
        ("session_id", fs KindString true);
        ("artifact", fs KindString true)] |});
  (EventAuthArtifactClassRefused, {|
      SchemaVersion := 1; Retention := RetentionSecurity;
      Outcomes := licensed [OutcomeFailure];
      Trails := licensed [TrailInstance];
      Schema_ := [
        ("operation", fs KindString true);
        ("artifact_class", fs KindString true);
        ("cause", fs_enum ["class-mismatch"] (fs KindString true))] |})].

(** [EventAuthSessionCreated] to [EventAuthCLIReauthHandoff]. *)
Definition eventRows_02 : list (EventType * TypeSpec) := [
  (EventAuthSessionCreated, {|
      SchemaVersion := 1; Retention := RetentionSecurity;
      Outcomes := licensed [OutcomeSuccess];
      Trails := licensed [TrailInstance];
      Schema_ := [
        ("session_id", fs KindString true);
        ("artifact", fs KindString true);
        ("method", fs KindString true);
        ("assurance", fs KindString true)] |});
  (EventAuthAuthorityMinted, {|
      SchemaVersion := 1; Retention := RetentionSecurity;
      Outcomes := licensed [OutcomeSuccess];
      Trails := licensed [TrailInstance];
      Schema_ := [
        ("authority_id", fs KindString true);
        ("account_id", fs KindString true);
        ("issued_by", fs_enum ["bootstrap"; "credential-reset"; "break-glass"; "recovery"; "invitation"] (fs KindString true));
        ("delivery", fs_enum ["file"; "terminal"; "stdout"; "response"] (fs KindString true))] |});
  (EventAuthCredentialEstablished, {|
      SchemaVersion := 1; Retention := RetentionSecurity;
      Outcomes := licensed [OutcomeSuccess];
      Trails := licensed [TrailInstance];
      Schema_ := [
        ("authority_id", fs KindString true);
        ("account_id", fs KindString true);
        ("credential", fs KindString true)] |});
  (EventAuthAuthorityRefused, {|
      SchemaVersion := 1; Retention := RetentionSecurity;
      Outcomes := licensed [OutcomeFailure];
      Trails := licensed [TrailInstance];
      Schema_ := [
        ("cause", fs KindString true)] |});
  (EventAuthThrottleCrossed, {|
      SchemaVersion := 1; Retention := RetentionSecurity;
      Outcomes := licensed [OutcomeFailure];
      Trails := licensed [TrailInstance];
      Schema_ := [
        ("scope", fs_enum ["account"; "source-ip"; "instance"] (fs KindString true));
        ("subject_resolved", fs KindBool true);
        ("account_id", fs KindString false)] |});
  (EventAuthFactorEnrolled, {|
      SchemaVersion := 1; Retention := RetentionSecurity;
      Outcomes := licensed [OutcomeSuccess];
      Trails := licensed [TrailInstance];
      Schema_ := [
        ("factor", fs KindString true);
        ("account_id", fs KindString true);
        ("authorizing_credential", fs KindString true)] |});
  (EventAuthFactorRemoved, {|
      SchemaVersion := 1; Retention := RetentionSecurity;
      Outcomes := licensed [OutcomeSuccess];
      Trails := licensed [TrailInstance];
      Schema_ := [
        ("factor", fs KindString true);
        ("account_id", fs KindString true);
        ("authorizing_credential", fs KindString true)] |});
  (EventAuthRecoveryCodesGenerated, {|
      SchemaVersion := 1; Retention := RetentionSecurity;
      Outcomes := licensed [OutcomeSuccess];
      Trails := licensed [TrailInstance];
      Schema_ := [
        ("account_id", fs KindString true);
        ("count", fs KindInt true);
        ("authorizing_credential", fs KindString true)] |});
  (EventAuthRecoveryCodeConsumed, {|
      SchemaVersion := 1; Retention := RetentionSecurity;
      Outcomes := licensed [OutcomeSuccess; OutcomeFailure];
      Trails := licensed [TrailInstance];
      Schema_ := [
        ("subject_resolved", fs KindBool true);
        ("account_id", fs KindString false);
        ("authority_id", fs KindString false);
        ("cause", fs KindString false)] |});
  (EventAuthReauthenticated, {|
      SchemaVersion := 1; Retention := RetentionSecurity;
      Outcomes := licensed [OutcomeSuccess];
      Trails := licensed [TrailInstance];
      Schema_ := [
        ("session_id", fs KindString true);
        ("factor", fs KindString true)] |});
  (EventAuthCLIReauthHandoff, {|
      SchemaVersion := 1; Retention := RetentionSecurity;
      Outcomes := licensed [OutcomeSuccess; OutcomeFailure];
      Trails := licensed [TrailInstance];
      Schema_ := [
        ("phase", fs_enum ["start"; "inspect"; "approve"; "redeem"] (fs KindString true));
        ("handoff_id", fs KindString false);
        ("operation", fs KindString false);
        ("environment_ids", fs KindStringList false);
        ("cause", fs_enum ["invalid_request"; "unauthenticated"; "unauthorized"; "invalid_or_expired";
             "reauth_required"; "pkce_mismatch"; "already_consumed"] (fs KindString false))] |})].

(** [EventAuthPasskeyAdded] to [EventSAMLEmailNameIDOptIn]. *)
Definition eventRows_03 : list (EventType * TypeSpec) := [
  (EventAuthPasskeyAdded, {|
      SchemaVersion := 1; Retention := RetentionSecurity;
      Outcomes := licensed [OutcomeSuccess];
      Trails := licensed [TrailInstance];
      Schema_ := [
        ("account_id", fs KindString true);
        ("credential_id", fs KindString true);
        ("authorizing_credential", fs KindString true);
        ("discoverable", fs KindBool true)] |});
  (EventAuthPasskeyRemoved, {|
      SchemaVersion := 1; Retention := RetentionSecurity;
      Outcomes := licensed [OutcomeSuccess];
      Trails := licensed [TrailInstance];
      Schema_ := [
        ("account_id", fs KindString true);
        ("credential_id", fs KindString true);
        ("authorizing_credential", fs KindString true)] |});
  (EventAuthPasskeyCloned, {|
      SchemaVersion := 1; Retention := RetentionSecurity;
      Outcomes := licensed [OutcomeFailure];
      Trails := licensed [TrailInstance];
      Schema_ := [
        ("account_id", fs KindString true);
        ("credential_id", fs KindString true);
        ("sessions_swept", fs KindInt true)] |});
  (EventOIDCLogin, {|
      SchemaVersion := 1; Retention := RetentionSecurity;
      Outcomes := licensed [OutcomeSuccess];
      Trails := licensed [TrailInstance];
      Schema_ := [
        ("method", fs KindString true);
        ("purpose", fs_enum ["login"; "reauth"] (fs KindString true));
        ("account_id", fs KindString true);
        ("assurance", fs_enum ["single-factor"; "multi-factor"] (fs KindString true));
        ("provider_id", fs KindString true);
        ("acr", fs KindString false);
        ("amr", fs KindString false);
        ("provider_row_version", fs KindInt true)] |});
  (EventOIDCRefused, {|
      SchemaVersion := 1; Retention := RetentionSecurity;
      Outcomes := licensed [OutcomeFailure];
      Trails := licensed [TrailInstance];
      Schema_ := [
        ("cause", fs_enum ["mixup"; "nonce"; "purpose"; "state"; "issuer"; "audience"; "signature";
             "epoch"; "idp-error"; "expired"; "unknown-identity"; "no-assurance-policy";
             "no-auth-time"; "binding"; "reconciliation"; "window-zero";
             "no-possession"; "downgrade"] (fs KindString true));
        ("provider_id", fs KindString false)] |});
  (EventIdentityLinked, {|
      SchemaVersion := 1; Retention := RetentionSecurity;
      Outcomes := licensed [OutcomeSuccess];
      Trails := licensed [TrailInstance];
      Schema_ := [
        ("kind", fs KindString true);
        ("account_id", fs KindString true);
        ("identity_id", fs KindString true);
        ("provider_id", fs KindString true);
        ("authorizing_credential", fs KindString true)] |});
  (EventIdentityUnlinked, {|
      SchemaVersion := 1; Retention := RetentionSecurity;
      Outcomes := licensed [OutcomeSuccess];
      Trails := licensed [TrailInstance];
      Schema_ := [
        ("kind", fs KindString true);
        ("account_id", fs KindString true);
        ("identity_id", fs KindString true);
        ("authorizing_credential", fs KindString true)] |});
  (EventOIDCProviderChanged, {|
      SchemaVersion := 1; Retention := RetentionSecurity;
      Outcomes := licensed [OutcomeSuccess];
      Trails := licensed [TrailInstance];
      Schema_ := [
        ("provider_id", fs KindString true);
        ("change", fs_enum ["created"; "updated"; "deleted"] (fs KindString true));
        ("sessions_swept", fs KindInt true)] |});
  (EventOIDCProviderRead, {|
      SchemaVersion := 1; Retention := RetentionAccess;
      Outcomes := licensed [OutcomeSuccess];
      Trails := licensed [TrailInstance];
      Schema_ := [
        ("query", fs_enum ["get"; "list"] (fs KindString true));
        ("row_count", fs KindInt true)] |});
  (EventSAMLLogin, samlCeremonyEvent);
  (EventSAMLReauth, samlCeremonyEvent);
  (EventSAMLProviderConfigure, samlProviderEvent);
  (EventSAMLProviderRefresh, samlProviderEvent);
  (EventSAMLProviderRemove, samlProviderEvent);
  (EventSAMLCertChange, {|
      SchemaVersion := 1; Retention := RetentionSecurity;
      Outcomes := licensed [OutcomeSuccess];
      Trails := licensed [TrailInstance];
      Schema_ := [
        ("provider_id", fs KindString true);
        ("entity_id", fs KindString true);
        ("change", fs KindString true);
        ("fingerprint", fs KindString true)] |});
  (EventSAMLEmailNameIDOptIn, {|
      SchemaVersion := 1; Retention := RetentionSecurity;
      Outcomes := licensed [OutcomeSuccess];
      Trails := licensed [TrailInstance];
      Schema_ := [
        ("provider_id", fs KindString true);
        ("entity_id", fs KindString true);
        ("state", fs KindString true)] |})].

(** [EventSAMLSPKey] to [EventFolderDeleted]. *)
Definition eventRows_04 : list (EventType * TypeSpec) := [
  (EventSAMLSPKey, {|
      SchemaVersion := 1; Retention := RetentionSecurity;
      Outcomes := licensed [OutcomeSuccess];
      Trails := licensed [TrailInstance];
      Schema_ := [
        ("action", fs KindString true);
        ("key_fingerprint", fs KindString true);
        ("prior_key_fingerprint", fs KindString false)] |});
  (EventSAMLMetadataExpiryWarning, {|
      SchemaVersion := 1; Retention := RetentionSecurity;
      Outcomes := licensed [OutcomeSuccess];
      Trails := licensed [TrailInstance];
      Schema_ := [
        ("provider_id", fs KindString true);
        ("entity_id", fs KindString true);
        ("valid_until", fs KindString true);
        ("threshold", fs KindString true)] |});
  (EventAuthCredentialResetIssued, {|
      SchemaVersion := 1; Retention := RetentionSecurity;
      Outcomes := licensed [OutcomeSuccess; OutcomeFailure];
      Trails := licensed [TrailInstance];
      Schema_ := [
        ("target_principal", fs KindString true);
        ("issued_by", fs_enum ["credential-reset"; "break-glass"] (fs KindString true));
        ("authority", fs_enum ["network"; "local-host"] (fs KindString true));
        ("target_account", fs KindString false);
        ("authority_id", fs KindString false);
        ("delivery", fs KindString false);
        ("sessions_revoked", fs KindBool false);
        ("cause", fs KindString false)] |});
  (EventAuthEffectiveWindowLowered, {|
      SchemaVersion := 1; Retention := RetentionSecurity;
      Outcomes := licensed [OutcomeSuccess];
      Trails := licensed [TrailInstance];
      Schema_ := [
        ("environment_id", fs KindString true);
        ("new_window_seconds", fs KindInt true);
        ("windows_invalidated", fs KindInt true);
        ("stranded_count", fs KindInt true);
        ("stranded_principals", fs KindString false)] |});
  (EventOrgRead, {|
      SchemaVersion := 1; Retention := RetentionAccess;
      Outcomes := licensed [OutcomeSuccess];
      Trails := licensed [TrailInstance];
      Schema_ := [
        ("query", fs_enum ["get"; "list"; "count"] (fs KindString true));
        ("row_count", fs KindInt true)] |});
  (EventOrgCreated, {|
      SchemaVersion := 1; Retention := RetentionSecurity;
      Outcomes := licensed [OutcomeSuccess];
      Trails := licensed [TrailInstance];
      Schema_ := [
        ("org_id", fs KindString true);
        ("org_name", fs KindFreeText true)] |});
  (EventProjectCreated, {|
      SchemaVersion := 1; Retention := RetentionSecurity;
      Outcomes := licensed [OutcomeSuccess];
      Trails := licensed [TrailTenant];
      Schema_ := [
        ("name", fs KindFreeText true)] |});
  (EventEnvCreated, {|
      SchemaVersion := 1; Retention := RetentionSecurity;
      Outcomes := licensed [OutcomeSuccess];
      Trails := licensed [TrailTenant];
      Schema_ := [
        ("name", fs KindFreeText true)] |});
  (EventEnvNoteChanged, {|
      SchemaVersion := 1; Retention := RetentionSecurity;
      Outcomes := licensed [OutcomeSuccess];
      Trails := licensed [TrailTenant];
      Schema_ := [] |});
  (EventOrgRenamed, hierarchyEvent (renameSchema "name"));
  (EventOrgDeleted, hierarchyEvent [
      ("name", fs KindFreeText true)]);
  (EventProjectRenamed, hierarchyEvent (renameSchema "name"));
  (EventProjectDeleted, hierarchyEvent [
      ("name", fs KindFreeText true)]);
  (EventEnvParameterChanged, hierarchyEvent [
      ("name", fs KindFreeText true);
      ("pattern", fs KindFreeText false);
      ("action", fs_enum ["add"; "delete"] (fs KindString true))]);
  (EventEnvRenamed, hierarchyEvent (renameSchema "name"));
  (EventEnvDeleted, hierarchyEvent [
      ("name", fs KindFreeText true)]);
  (EventEnvReordered, hierarchyEvent [
      ("environment_count", fs KindInt true);
      ("environment_order", fs KindString true)]);
  (EventFolderCreated, hierarchyEvent [
      ("namespace", fs KindFreeText true)]);
  (EventFolderRenamed, hierarchyEvent (renameSchema "namespace"));
  (EventFolderDeleted, hierarchyEvent [
      ("namespace", fs KindFreeText true)])].

(** [EventKeyCreated] to [EventRevisionPublished]. *)
Definition eventRows_05 : list (EventType * TypeSpec) := [
  (EventKeyCreated, hierarchyEvent [
      ("name", fs KindFreeText true);
      ("classification", fs KindString true);
      ("namespace", fs KindFreeText true)]);
  (EventKeyRenamed, hierarchyEvent (renameSchema "name"));
  (EventKeyDeleted, hierarchyEvent [
      ("name", fs KindFreeText true)]);
  (EventKeyDeclarationChanged, hierarchyEvent [
      ("name", fs KindFreeText true);
      ("schema_revision", fs KindInt true);
      ("rules_changed", fs KindBool true);
      ("presence_changed", fs KindBool true)]);
  (EventKeyMetadataChanged, hierarchyEvent [
      ("name", fs KindFreeText true);
      ("namespace", fs KindFreeText true)]);
  (EventKeyReclassified, hierarchyEvent [
      ("name", fs KindFreeText true);
      ("previous_classification", fs KindString true);
      ("classification", fs KindString true)]);
  (EventKeyRevealGateAttempt, {|
      SchemaVersion := 1; Retention := RetentionSecurity;
      Outcomes := licensed [OutcomeSuccess; OutcomeDenied; OutcomeFailure];
      Trails := licensed [TrailTenant];
      Schema_ := [
        ("key_id", fs KindString true);
        ("name", fs KindFreeText true);
        ("gate", fs KindString true)] |});
  (EventDefinitionsPlanCreated, hierarchyEvent [
      ("plan_id", fs KindString true);
      ("additive", fs KindBool true);
      ("deletions_present", fs KindBool true)]);
  (EventDefinitionsApplied, hierarchyEvent [
      ("plan_id", fs KindString true);
      ("revision", fs KindInt true);
      ("commit", fs KindFreeText false);
      ("ref", fs KindFreeText false);
      ("actor", fs KindFreeText false)]);
  (EventDefinitionsApplyRejectedStale, {|
      SchemaVersion := 1; Retention := RetentionSecurity;
      Outcomes := licensed [OutcomeDenied];
      Trails := licensed [TrailTenant];
      Schema_ := [
        ("plan_id", fs KindString true);
        ("moved", fs KindString true)] |});
  (EventDefinitionsDeletionRefused, {|
      SchemaVersion := 1; Retention := RetentionSecurity;
      Outcomes := licensed [OutcomeDenied];
      Trails := licensed [TrailTenant];
      Schema_ := [
        ("plan_id", fs KindString true)] |});
  (EventDefinitionsAdditiveModificationRefused, {|
      SchemaVersion := 1; Retention := RetentionSecurity;
      Outcomes := licensed [OutcomeDenied];
      Trails := licensed [TrailTenant];
      Schema_ := [
        ("name", fs KindFreeText true)] |});
  (EventSettingsDefinitionsSourceChanged, hierarchyEvent [
      ("previous_source", fs KindString true);
      ("source", fs KindString true)]);
  (EventSettingsMachineRevealChanged, hierarchyEvent [
      ("previous_enabled", fs KindBool true);
      ("enabled", fs KindBool true)]);
  (EventValueSet, hierarchyEvent [
      ("key_id", fs KindString true);
      ("name", fs KindFreeText true);
      ("classification", fs KindString true)]);
  (EventValueCleared, hierarchyEvent [
      ("key_id", fs KindString true);
      ("name", fs KindFreeText true);
      ("classification", fs KindString true)]);
  (EventValueRevealed, hierarchyEvent [
      ("parameters", fs_maxBytes 256 (fs_maxLen 32 (fs KindFreeTextMap false)));
      ("key_id", fs KindString true);
      ("name", fs KindFreeText true);
      ("surface", fs KindString true);
      ("revision", fs KindInt false);
      ("classification", fs KindString false);
      ("served_credential_id", fs KindString false);
      ("generation", fs KindString false);
      ("served_from", fs KindString false)]);
  (EventValuesExported, hierarchyEvent [
      ("parameters", fs_maxBytes 256 (fs_maxLen 32 (fs KindFreeTextMap true)));
      ("revision", fs KindInt true)]);
  (EventValueStaged, hierarchyEvent [
      ("key_id", fs KindString true);
      ("name", fs KindFreeText true);
      ("classification", fs KindString true);
      ("operation", fs KindString true);
      ("version_id", fs KindString true)]);
  (EventRevisionPublished, hierarchyEvent [
      ("revision", fs KindInt true);
      ("schema_revision", fs KindInt true);
      ("changed_keys", fs KindInt true);
      ("pending_count", fs KindInt true);
      ("trigger", fs KindString true)])].

(** [EventRevisionRestoreStaged] to [EventRootKeyRotationVerified]. *)
Definition eventRows_06 : list (EventType * TypeSpec) := [
  (EventRevisionRestoreStaged, hierarchyEvent [
      ("revision", fs KindInt true);
      ("key_count", fs KindInt true);
      ("key", fs KindString false)]);
  (EventPinCreated, hierarchyEvent pinMutationSchema);
  (EventPinReassigned, hierarchyEvent pinMutationSchema);
  (EventPinRenewed, hierarchyEvent pinMutationSchema);
  (EventPinReleased, hierarchyEvent [
      ("workload_principal_id", fs KindString true);
      ("revision", fs KindInt true)]);
  (EventPinExpiryRefused, hierarchyFailureEvent [
      ("workload_principal_id", fs KindString true);
      ("requested_expires_at", fs KindString true);
      ("max_days", fs KindInt true);
      ("cause", fs KindString true)]);
  (EventTokenKeyRotated, {|
      SchemaVersion := 1; Retention := RetentionSecurity;
      Outcomes := licensed [OutcomeSuccess];
      Trails := licensed [TrailInstance];
      Schema_ := [
        ("key_version", fs KindInt true)] |});
  (EventScanningKeyRotated, {|
      SchemaVersion := 1; Retention := RetentionSecurity;
      Outcomes := licensed [OutcomeSuccess];
      Trails := licensed [TrailInstance];
      Schema_ := [
        ("key_version", fs KindInt true)] |});
  (EventScanningFindingWarned, hierarchyEvent [
      ("rule_id", fs KindString true);
      ("surface", fs_enum ["value_write"; "declassification"; "import_value"] (fs KindString true))]);
  (EventScanningFindingDismissed, hierarchyEvent [
      ("rule_id", fs KindString true);
      ("dismissal_id", fs KindString true)]);
  (EventScanningFindingBlocked, hierarchyEvent [
      ("rule_id", fs KindString true);
      ("ingress", fs_enum ["edit"; "plan"; "apply"] (fs KindString true))]);
  (EventScanningFindingOverridden, hierarchyEvent [
      ("rule_id", fs KindString true);
      ("ingress", fs_enum ["edit"; "plan"; "apply"] (fs KindString true));
      ("acknowledgement_ref", fs KindString true)]);
  (EventDEKRotated, {|
      SchemaVersion := 1; Retention := RetentionSecurity;
      Outcomes := licensed [OutcomeSuccess];
      Trails := licensed [TrailInstance];
      Schema_ := [
        ("scope", fs KindString true);
        ("org_id", fs KindString false);
        ("project_id", fs KindString false);
        ("key_version", fs KindInt true)] |});
  (EventMasterKeyRotated, {|
      SchemaVersion := 1; Retention := RetentionSecurity;
      Outcomes := licensed [OutcomeSuccess];
      Trails := licensed [TrailInstance];
      Schema_ := [
        ("key_version", fs KindInt true)] |});
  (EventReencryptCompleted, {|
      SchemaVersion := 1; Retention := RetentionSecurity;
      Outcomes := licensed [OutcomeSuccess];
      Trails := licensed [TrailTenant; TrailInstance];
      Schema_ := [
        ("scope", fs KindString true);
        ("rows_moved", fs KindInt true)] |});
  (EventRootEscrowVerified, {|
      SchemaVersion := 1; Retention := RetentionSecurity;
      Outcomes := licensed [OutcomeSuccess];
      Trails := licensed [TrailInstance];
      Schema_ := [
        ("root_key_epoch", fs KindInt true);
        ("separate_custody_asserted", fs KindBool true)] |});
  (EventRootKeyRotationPrepared, {|
      SchemaVersion := 1; Retention := RetentionSecurity;
      Outcomes := licensed [OutcomeSuccess];
      Trails := licensed [TrailInstance];
      Schema_ := [
        ("root_key_epoch", fs KindInt true)] |});
  (EventRootKeyRotationVerified, {|
      SchemaVersion := 1; Retention := RetentionSecurity;
      Outcomes := licensed [OutcomeSuccess];
      Trails := licensed [TrailInstance];
      Schema_ := [
        ("root_key_epoch", fs KindInt true)] |})].

(** [EventRootKeyRotationFinalized] to [EventGrantTemplateApplied]. *)
Definition eventRows_07 : list (EventType * TypeSpec) := [
  (EventRootKeyRotationFinalized, {|
      SchemaVersion := 1; Retention := RetentionSecurity;
      Outcomes := licensed [OutcomeSuccess];
      Trails := licensed [TrailInstance];
      Schema_ := [
        ("root_key_epoch", fs KindInt true)] |});
  (EventValueCopied, hierarchyEvent [
      ("key_id", fs KindString true);
      ("name", fs KindFreeText true);
      ("classification", fs KindString true);
      ("source_environment_id", fs KindString true);
      ("operation", fs KindString true)]);
  (EventValueImported, hierarchyEvent [
      ("imported_count", fs KindInt true);
      ("skipped_count", fs KindInt true);
      ("manifest_bound", fs KindBool true)]);
  (EventKeyGroupCreated, hierarchyEvent [
      ("name", fs KindFreeText true)]);
  (EventKeyGroupRenamed, hierarchyEvent (renameSchema "name"));
  (EventKeyGroupDeleted, hierarchyEvent [
      ("name", fs KindFreeText true);
      ("members_released", fs KindInt true)]);
  (EventKeyGroupMembershipChanged, hierarchyEvent [
      ("name", fs KindFreeText true);
      ("previous_group_id", fs KindString false);
      ("group_id", fs KindString false)]);
  (EventGrantCreated, {|
      SchemaVersion := 1; Retention := RetentionSecurity;
      Outcomes := licensed [OutcomeSuccess];
      Trails := licensed [TrailTenant; TrailInstance];
      Schema_ := grantSchema |});
  (EventGrantModified, {|
      SchemaVersion := 1; Retention := RetentionSecurity;
      Outcomes := licensed [OutcomeSuccess];
      Trails := licensed [TrailTenant; TrailInstance];
      Schema_ := grantSchema |});
  (EventGrantRevoked, {|
      SchemaVersion := 1; Retention := RetentionSecurity;
      Outcomes := licensed [OutcomeSuccess];
      Trails := licensed [TrailTenant; TrailInstance];
      Schema_ := merged grantSchema [
        ("origins_remaining", fs KindInt true);
        ("sessions_revoked", fs KindBool true)] |});
  (EventMemberInvited, {|
      SchemaVersion := 1; Retention := RetentionSecurity;
      Outcomes := licensed [OutcomeSuccess];
      Trails := licensed [TrailTenant; TrailInstance];
      Schema_ := [
        ("principal_id", fs KindString true);
        ("account_id", fs KindString true);
        ("username", fs KindFreeText true);
        ("scope", fs KindString true);
        ("template", fs KindString false);
        ("grants_created", fs KindInt true);
        ("authority_id", fs KindString true);
        ("delivery", fs_enum ["file"; "terminal"; "stdout"; "response"] (fs KindString true))] |});
  (EventGrantTemplateApplied, {|
      SchemaVersion := 1; Retention := RetentionSecurity;
      Outcomes := licensed [OutcomeSuccess];
      Trails := licensed [TrailTenant; TrailInstance];
      Schema_ := [
        ("template", fs KindString true);
        ("target_principal", fs KindString true);
        ("scope", fs KindString true);
        ("capability_count", fs KindInt true);
        ("grants_created", fs KindInt true);
        ("grants_deduped", fs KindInt true);
        ("grants_joined", fs KindInt true);
        ("grants_unchanged", fs KindInt true);
        ("self_grant", fs KindBool true);
        ("capabilities", fs KindString true)] |})].

(** [EventReauthWindowChanged] to [EventAuditRetentionChanged]. *)
Definition eventRows_08 : list (EventType * TypeSpec) := [
  (EventReauthWindowChanged, {|
      SchemaVersion := 1; Retention := RetentionSecurity;
      Outcomes := licensed [OutcomeSuccess];
      Trails := licensed [TrailTenant];
      Schema_ := [
        ("previous_window_seconds", fs KindInt true);
        ("window_seconds", fs KindInt true);
        ("previous_configured_seconds", fs KindInt true);
        ("configured_seconds", fs KindInt true);
        ("previous_inherited", fs KindBool true);
        ("inherited", fs KindBool true);
        ("widened", fs KindBool true);
        ("protected", fs KindBool true)] |});
  (EventProtectedFlagChange, {|
      SchemaVersion := 1; Retention := RetentionSecurity;
      Outcomes := licensed [OutcomeSuccess];
      Trails := licensed [TrailTenant];
      Schema_ := [
        ("protected", fs KindBool true);
        ("window_seconds", fs KindInt true)] |});
  (EventOrgRetentionChanged, {|
      SchemaVersion := 1; Retention := RetentionSecurity;
      Outcomes := licensed [OutcomeSuccess];
      Trails := licensed [TrailTenant];
      Schema_ := [
        ("previous_policy", fs KindString true);
        ("policy", fs KindString true)] |});
  (EventProjectRetentionChanged, {|
      SchemaVersion := 1; Retention := RetentionSecurity;
      Outcomes := licensed [OutcomeSuccess];
      Trails := licensed [TrailTenant];
      Schema_ := [
        ("previous_policy", fs KindString true);
        ("policy", fs KindString true);
        ("previous_inherited", fs KindBool true);
        ("inherited", fs KindBool true)] |});
  (EventRetentionHealthRead, {|
      SchemaVersion := 1; Retention := RetentionAccess;
      Outcomes := licensed [OutcomeSuccess];
      Trails := licensed [TrailInstance];
      Schema_ := [
        ("recorded", fs KindBool true);
        ("stale", fs KindBool true);
        ("stale_after_seconds", fs KindInt true);
        ("peak_project_bytes", fs KindInt true);
        ("storage_warn", fs KindBool true)] |});
  (EventUpdateStatusRead, {|
      SchemaVersion := 1; Retention := RetentionAccess;
      Outcomes := licensed [OutcomeSuccess];
      Trails := licensed [TrailInstance];
      Schema_ := [
        ("channel", fs_enum ["stable"; "nightly"; "off"] (fs KindString true));
        ("current_version", fs KindString true)] |});
  (EventUpdateRequested, {|
      SchemaVersion := 1; Retention := RetentionSecurity;
      Outcomes := licensed [OutcomeIntent];
      Trails := licensed [TrailInstance];
      Schema_ := [
        ("version", fs KindString true);
        ("backend", fs_enum ["flux"; "compose"; "systemd"; "disabled"] (fs KindString true))] |});
  (EventUpdateOutcome, {|
      SchemaVersion := 1; Retention := RetentionSecurity;
      Outcomes := licensed [OutcomeSuccess; OutcomeFailure];
      Trails := licensed [TrailInstance];
      Schema_ := [
        ("version", fs KindString true);
        ("backend", fs_enum ["flux"; "compose"; "systemd"; "disabled"] (fs KindString true));
        ("state", fs_enum ["succeeded"; "failed"; "rolled-back"; "rollback-failed"] (fs KindString true));
        ("failure_code", fs KindString false)] |});
  (EventRetentionPayloadGC, {|
      SchemaVersion := 1; Retention := RetentionSecurity;
      Outcomes := licensed [OutcomeSuccess];
      Trails := licensed [TrailTenant];
      Schema_ := [
        ("org", fs KindString true);
        ("project", fs KindString true);
        ("environment", fs KindString true);
        ("revision", fs KindInt true);
        ("snapshot_id", fs KindString true);
        ("policy", fs KindString true);
        ("collected_at", fs KindString true)] |});
  (EventAuditRetentionChanged, {|
      SchemaVersion := 1; Retention := RetentionSecurity;
      Outcomes := licensed [OutcomeSuccess];
      Trails := licensed [TrailInstance];
      Schema_ := [
        ("previous_access_days", fs KindInt true);
        ("previous_security_days", fs KindInt true);
        ("access_days", fs KindInt true);
        ("security_days", fs KindInt true)] |})].

(** [EventAuditRetentionPruned] to [EventApprovalExpired]. *)
Definition eventRows_09 : list (EventType * TypeSpec) := [
  (EventAuditRetentionPruned, {|
      SchemaVersion := 1; Retention := RetentionSecurity;
      Outcomes := licensed [OutcomeSuccess];
      Trails := licensed [TrailInstance];
      Schema_ := [
        ("trail", fs_enum ["tenant"; "instance"] (fs KindString true));
        ("category", fs KindString true);
        ("deleted", fs_nonNegative (fs KindInt true));
        ("from_time", fs KindString true);
        ("through_time", fs KindString true);
        ("access_days", fs KindInt true);
        ("security_days", fs KindInt true)] |});
  (EventRetentionPruneRun, {|
      SchemaVersion := 1; Retention := RetentionSecurity;
      Outcomes := licensed [OutcomeSuccess; OutcomeFailure];
      Trails := licensed [TrailInstance];
      Schema_ := [
        ("started_at", fs KindString true);
        ("finished_at", fs KindString true);
        ("candidates", fs KindInt true);
        ("collected", fs_object [
            ("revision_payloads", fs KindInt true)] (fs KindObject true));
        ("error_class", fs KindString false)] |});
  (EventBreakGlassGrant, {|
      SchemaVersion := 1; Retention := RetentionSecurity;
      Outcomes := licensed [OutcomeSuccess];
      Trails := licensed [TrailInstance];
      Schema_ := [
        ("target_principal", fs KindString true);
        ("capability", fs KindString true);
        ("scope", fs KindString true);
        ("authority", fs KindString true);
        ("grant_created", fs KindBool true)] |});
  (EventApprovalPolicyChanged, {|
      SchemaVersion := 1; Retention := RetentionSecurity;
      Outcomes := licensed [OutcomeSuccess];
      Trails := licensed [TrailTenant];
      Schema_ := [
        ("action", fs_enum ["created"; "updated"; "disabled"; "deleted"] (fs KindString true));
        ("environment", fs KindString true);
        ("min_approvals", fs_nonNegative (fs KindInt true));
        ("self_approval", fs KindBool true);
        ("enabled", fs KindBool true);
        ("approver_count", fs_nonNegative (fs KindInt true));
        ("bypasser_count", fs_nonNegative (fs KindInt true))] |});
  (EventApprovalPolicyRead, {|
      SchemaVersion := 1; Retention := RetentionSecurity;
      Outcomes := licensed [OutcomeSuccess];
      Trails := licensed [TrailTenant];
      Schema_ := [
        ("policy_count", fs_nonNegative (fs KindInt true))] |});
  (EventApprovalRequested, {|
      SchemaVersion := 1; Retention := RetentionSecurity;
      Outcomes := licensed [OutcomeSuccess];
      Trails := licensed [TrailTenant];
      Schema_ := [
        ("policy_id", fs KindString true);
        ("policy_version", fs_nonNegative (fs KindInt true));
        ("change_count", fs_nonNegative (fs KindInt true));
        ("base_revision", fs_nonNegative (fs KindInt true));
        ("preview_digest", fs_digest (fs KindString true))] |});
  (EventApprovalVoted, {|
      SchemaVersion := 1; Retention := RetentionSecurity;
      Outcomes := licensed [OutcomeSuccess];
      Trails := licensed [TrailTenant];
      Schema_ := [
        ("decision", fs_enum ["approve"; "reject"] (fs KindString true));
        ("self_approval", fs KindBool true)] |});
  (EventApprovalMerged, {|
      SchemaVersion := 1; Retention := RetentionSecurity;
      Outcomes := licensed [OutcomeSuccess];
      Trails := licensed [TrailTenant];
      Schema_ := [
        ("revision", fs_nonNegative (fs KindInt true));
        ("approvals", fs_nonNegative (fs KindInt true));
        ("preview_digest", fs_digest (fs KindString true))] |});
  (EventApprovalInvalidated, {|
      SchemaVersion := 1; Retention := RetentionSecurity;
      Outcomes := licensed [OutcomeSuccess];
      Trails := licensed [TrailTenant];
      Schema_ := [
        ("cause", fs_enum ["policy_changed"; "draft_edited"; "env_advanced"; "approver_removed"] (fs KindString true))] |});
  (EventApprovalExpired, {|
      SchemaVersion := 1; Retention := RetentionSecurity;
      Outcomes := licensed [OutcomeSuccess];
      Trails := licensed [TrailTenant];
      Schema_ := [
        ("policy_id", fs KindString true);
        ("expired_at", fs KindString true)] |})].

(** [EventApprovalBypassed] to [EventGrantMembershipRead]. *)
Definition eventRows_10 : list (EventType * TypeSpec) := [
  (EventApprovalBypassed, {|
      SchemaVersion := 1; Retention := RetentionSecurity;
      Outcomes := licensed [OutcomeSuccess];
      Trails := licensed [TrailTenant];
      Schema_ := [
        ("reason", fs_maxBytes 512 (fs KindFreeText true));
        ("revision", fs_nonNegative (fs KindInt true));
        ("preview_digest", fs_digest (fs KindString true))] |});
  (EventBackupExported, {|
      SchemaVersion := 1; Retention := RetentionSecurity;
      Outcomes := licensed [OutcomeSuccess];
      Trails := licensed [TrailInstance];
      Schema_ := [
        ("trigger", fs KindString true);
        ("recipient_mode", fs KindString true);
        ("recipient_count", fs KindInt true);
        ("engine", fs KindString true);
        ("schema_version", fs KindInt true);
        ("artifact_bytes", fs KindInt true);
        ("destination", fs KindFreeText true)] |});
  (EventBackupExportSkipped, {|
      SchemaVersion := 1; Retention := RetentionSecurity;
      Outcomes := licensed [OutcomeFailure];
      Trails := licensed [TrailInstance];
      Schema_ := [
        ("trigger", fs KindString true);
        ("reason", fs KindString true)] |});
  (EventRestoreCompleted, {|
      SchemaVersion := 1; Retention := RetentionSecurity;
      Outcomes := licensed [OutcomeSuccess];
      Trails := licensed [TrailInstance];
      Schema_ := [
        ("engine", fs KindString true);
        ("schema_version", fs KindInt true);
        ("credential_epoch", fs KindInt true);
        ("restore_epoch", fs KindInt true);
        ("pending_principals", fs KindInt true);
        ("authority", fs KindString true)] |});
  (EventRestorePrincipalReconciled, {|
      SchemaVersion := 1; Retention := RetentionSecurity;
      Outcomes := licensed [OutcomeSuccess];
      Trails := licensed [TrailInstance];
      Schema_ := [
        ("target_principal", fs KindString true);
        ("restore_epoch", fs KindInt true);
        ("pending_principals", fs KindInt true);
        ("authority", fs KindString true)] |});
  (EventBackupExportFailed, {|
      SchemaVersion := 1; Retention := RetentionSecurity;
      Outcomes := licensed [OutcomeFailure];
      Trails := licensed [TrailInstance];
      Schema_ := [
        ("trigger", fs KindString true);
        ("error_class", fs KindString true)] |});
  (EventRestoreDrillCompleted, {|
      SchemaVersion := 1; Retention := RetentionSecurity;
      Outcomes := licensed [OutcomeSuccess; OutcomeFailure];
      Trails := licensed [TrailInstance];
      Schema_ := [
        ("archive", fs KindString true);
        ("archive_digest", fs KindString true);
        ("engine", fs KindString true);
        ("schema_version", fs KindInt true);
        ("binary_version", fs KindString true);
        ("elapsed_ms", fs KindInt true);
        ("rto_target_ms", fs KindInt true);
        ("rto_met", fs KindBool true);
        ("values_readable", fs KindBool true);
        ("reconciled_principal", fs KindString true);
        ("credential_minted", fs KindBool true);
        ("failed_step", fs KindString true);
        ("authority", fs KindString true)] |});
  (EventGrantMembershipRead, {|
      SchemaVersion := 1; Retention := RetentionAccess;
      Outcomes := licensed [OutcomeSuccess];
      Trails := licensed [TrailTenant; TrailInstance];
      Schema_ := [
        ("scope", fs KindString true);
        ("row_count", fs KindInt true)] |})].

(** [EventServiceAccountCreated] to [EventCredentialPolicyRead]. *)
Definition eventRows_11 : list (EventType * TypeSpec) := [
  (EventServiceAccountCreated, {|
      SchemaVersion := 1; Retention := RetentionSecurity;
      Outcomes := licensed [OutcomeSuccess];
      Trails := licensed [TrailTenant];
      Schema_ := [
        ("service_account_id", fs KindString true);
        ("target_principal", fs KindString true);
        ("principal_class", fs KindString true);
        ("name", fs KindFreeText true)] |});
  (EventServiceAccountDeleted, {|
      SchemaVersion := 1; Retention := RetentionSecurity;
      Outcomes := licensed [OutcomeSuccess];
      Trails := licensed [TrailTenant];
      Schema_ := [
        ("service_account_id", fs KindString true);
        ("target_principal", fs KindString true);
        ("principal_class", fs KindString true);
        ("credentials_revoked", fs KindInt true)] |});
  (EventCredentialMinted, {|
      SchemaVersion := 1; Retention := RetentionSecurity;
      Outcomes := licensed [OutcomeSuccess];
      Trails := licensed [TrailTenant];
      Schema_ := [
        ("service_account_id", fs KindString true);
        ("target_principal", fs KindString true);
        ("principal_class", fs KindString true);
        ("credential_id", fs KindString true);
        ("credential_kind", fs KindString true);
        ("lifetime", fs KindString true);
        ("expires_at", fs KindString false);
        ("clamped", fs KindBool true);
        ("reveal_environments", fs KindStringList true);
        ("reveal_history_environments", fs KindStringList true)] |});
  (EventCredentialRevoked, {|
      SchemaVersion := 1; Retention := RetentionSecurity;
      Outcomes := licensed [OutcomeSuccess];
      Trails := licensed [TrailTenant];
      Schema_ := [
        ("service_account_id", fs KindString true);
        ("target_principal", fs KindString true);
        ("principal_class", fs KindString true);
        ("credential_id", fs KindString true);
        ("cause", fs KindString true);
        ("credential_kind", fs KindString false)] |});
  (EventMachineGrantWidened, {|
      SchemaVersion := 1; Retention := RetentionSecurity;
      Outcomes := licensed [OutcomeSuccess];
      Trails := licensed [TrailTenant];
      Schema_ := [
        ("target_principal", fs KindString true);
        ("principal_class", fs KindString true);
        ("capability", fs KindString true);
        ("scope", fs KindString true);
        ("newly_reachable_current", fs KindStringList true);
        ("newly_reachable_historical", fs KindStringList true)] |});
  (EventCredentialPolicyChanged, {|
      SchemaVersion := 1; Retention := RetentionSecurity;
      Outcomes := licensed [OutcomeSuccess];
      Trails := licensed [TrailInstance];
      Schema_ := [
        ("max_finite_lifetime_seconds", fs KindInt true);
        ("allow_indefinite", fs KindBool true);
        ("max_live_credentials", fs KindInt true);
        ("affected_credentials", fs KindStringList true);
        ("clamped_count", fs KindInt true)] |});
  (EventCredentialsListed, {|
      SchemaVersion := 1; Retention := RetentionAccess;
      Outcomes := licensed [OutcomeSuccess];
      Trails := licensed [TrailTenant];
      Schema_ := [
        ("scope", fs KindString true);
        ("row_count", fs KindInt true)] |});
  (EventCredentialPolicyRead, {|
      SchemaVersion := 1; Retention := RetentionAccess;
      Outcomes := licensed [OutcomeSuccess];
      Trails := licensed [TrailInstance];
      Schema_ := [] |})].

(** [EventBindingCreated] to [EventRemoteAdded]. *)
Definition eventRows_12 : list (EventType * TypeSpec) := [
  (EventBindingCreated, {|
      SchemaVersion := 1; Retention := RetentionSecurity;
      Outcomes := licensed [OutcomeSuccess];
      Trails := licensed [TrailTenant];
      Schema_ := [
        ("service_account_id", fs KindString true);
        ("target_principal", fs KindString true);
        ("principal_class", fs KindString true);
        ("credential_id", fs KindString true);
        ("issuer_id", fs KindString true);
        ("issuer", fs KindFreeText true);
        ("issuer_type", fs KindString true);
        ("subject", fs KindFreeText true);
        ("audience", fs KindFreeText true);
        ("pinned_claims", fs KindStringList true);
        ("lifetime", fs KindString true);
        ("expires_at", fs KindString false);
        ("clamped", fs KindBool true);
        ("replaces", fs KindString true);
        ("reveal_environments", fs KindStringList true);
        ("reveal_history_environments", fs KindStringList true)] |});
  (EventBindingReactivated, {|
      SchemaVersion := 1; Retention := RetentionSecurity;
      Outcomes := licensed [OutcomeSuccess];
      Trails := licensed [TrailTenant];
      Schema_ := [
        ("service_account_id", fs KindString true);
        ("target_principal", fs KindString true);
        ("principal_class", fs KindString true);
        ("credential_id", fs KindString true);
        ("reactivated_at", fs KindString true);
        ("skew_seconds", fs KindInt true)] |});
  (EventFederationIssuerChanged, {|
      SchemaVersion := 1; Retention := RetentionSecurity;
      Outcomes := licensed [OutcomeSuccess];
      Trails := licensed [TrailInstance];
      Schema_ := [
        ("issuer_id", fs KindString true);
        ("issuer", fs KindFreeText true);
        ("issuer_type", fs KindString true);
        ("change", fs KindString true);
        ("jwks_mode", fs KindString true);
        ("ca_bundle_sha256", fs KindString false);
        ("refused_audiences", fs KindStringList true)] |});
  (EventFederationIssuerRead, {|
      SchemaVersion := 1; Retention := RetentionAccess;
      Outcomes := licensed [OutcomeSuccess];
      Trails := licensed [TrailInstance];
      Schema_ := [
        ("row_count", fs KindInt true)] |});
  (EventFederationRefused, {|
      SchemaVersion := 1; Retention := RetentionSecurity;
      Outcomes := licensed [OutcomeFailure];
      Trails := licensed [TrailInstance];
      Schema_ := [
        ("issuer", fs KindFreeText true);
        ("cause", fs KindString true)] |});
  (EventJWKSRefreshFailed, {|
      SchemaVersion := 1; Retention := RetentionSecurity;
      Outcomes := licensed [OutcomeFailure];
      Trails := licensed [TrailInstance];
      Schema_ := [
        ("issuer", fs KindFreeText true);
        ("age_seconds", fs KindInt true);
        ("served_stale", fs KindBool true);
        ("staleness_breached", fs KindBool true);
        ("refresh_throttled", fs KindBool true)] |});
  (EventRemoteAdded, {|
      SchemaVersion := 1; Retention := RetentionSecurity;
      Outcomes := licensed [OutcomeSuccess];
      Trails := licensed [TrailInstance];
      Schema_ := [
        ("remote_id", fs KindString true);
        ("name", fs KindFreeText true);
        ("url", fs KindString true);
        ("spki_pin", fs KindString true);
        ("remote_identity", fs KindString true)] |})].

(** [EventRemoteRemoved] to [EventRemoteOriginAllowlistChanged]. *)
Definition eventRows_13 : list (EventType * TypeSpec) := [
  (EventRemoteRemoved, {|
      SchemaVersion := 1; Retention := RetentionSecurity;
      Outcomes := licensed [OutcomeSuccess];
      Trails := licensed [TrailInstance];
      Schema_ := [
        ("remote_id", fs KindString true);
        ("name", fs KindFreeText true);
        ("url", fs KindString true)] |});
  (EventRemoteRenamed, {|
      SchemaVersion := 1; Retention := RetentionSecurity;
      Outcomes := licensed [OutcomeSuccess];
      Trails := licensed [TrailInstance];
      Schema_ := [
        ("remote_id", fs KindString true);
        ("old_name", fs KindFreeText true);
        ("new_name", fs KindFreeText true)] |});
  (EventRemoteFetchFailed, {|
      SchemaVersion := 1; Retention := RetentionSecurity;
      Outcomes := licensed [OutcomeFailure];
      Trails := licensed [TrailInstance];
      Schema_ := [
        ("remote_id", fs KindString true);
        ("name", fs KindFreeText true);
        ("fetch_outcome", fs KindString true)] |});
  (EventRemoteDirectoryViewed, {|
      SchemaVersion := 1; Retention := RetentionAccess;
      Outcomes := licensed [OutcomeSuccess];
      Trails := licensed [TrailInstance];
      Schema_ := [
        ("remote_count", fs KindInt true);
        ("stale_count", fs KindInt true)] |});
  (EventRemoteCredentialMinted, {|
      SchemaVersion := 1; Retention := RetentionSecurity;
      Outcomes := licensed [OutcomeSuccess];
      Trails := licensed [TrailInstance];
      Schema_ := [
        ("connection_id", fs KindString true);
        ("target_principal", fs KindString true);
        ("label", fs KindFreeText true);
        ("credential_kind", fs KindString true);
        ("lifetime", fs KindString true);
        ("expires_at", fs KindString false);
        ("clamped", fs KindBool true)] |});
  (EventRemoteCredentialRevoked, {|
      SchemaVersion := 1; Retention := RetentionSecurity;
      Outcomes := licensed [OutcomeSuccess];
      Trails := licensed [TrailInstance];
      Schema_ := [
        ("connection_id", fs KindString true);
        ("target_principal", fs KindString true);
        ("label", fs KindFreeText true)] |});
  (EventRemoteCredentialsListed, {|
      SchemaVersion := 1; Retention := RetentionAccess;
      Outcomes := licensed [OutcomeSuccess];
      Trails := licensed [TrailInstance];
      Schema_ := [
        ("row_count", fs KindInt true)] |});
  (EventRemoteDirectoryServed, {|
      SchemaVersion := 1; Retention := RetentionAccess;
      Outcomes := licensed [OutcomeSuccess];
      Trails := licensed [TrailInstance];
      Schema_ := [
        ("connection_id", fs KindString true);
        ("label", fs KindFreeText true);
        ("principal_class", fs KindString true);
        ("org_count", fs KindInt true);
        ("project_count", fs KindInt true)] |});
  (EventRemoteOriginAllowlistChanged, {|
      SchemaVersion := 1; Retention := RetentionSecurity;
      Outcomes := licensed [OutcomeSuccess];
      Trails := licensed [TrailInstance];
      Schema_ := [
        ("origin", fs KindString true);
        ("change", fs_enum ["added"; "removed"] (fs KindString true));
        ("sessions_revoked", fs KindInt true)] |})].

(** [EventRemoteOriginAllowlistRead] to [EventOfflineRecordsReconciled]. *)
Definition eventRows_14 : list (EventType * TypeSpec) := [
  (EventRemoteOriginAllowlistRead, {|
      SchemaVersion := 1; Retention := RetentionAccess;
      Outcomes := licensed [OutcomeSuccess];
      Trails := licensed [TrailInstance];
      Schema_ := [
        ("row_count", fs KindInt true)] |});
  (EventRemoteWorkspaceHandoffRead, {|
      SchemaVersion := 1; Retention := RetentionAccess;
      Outcomes := licensed [OutcomeSuccess];
      Trails := licensed [TrailInstance];
      Schema_ := [
        ("handoff_id", fs KindString true);
        ("origin", fs KindString true)] |});
  (EventRemoteWorkspaceSessionIssued, {|
      SchemaVersion := 1; Retention := RetentionSecurity;
      Outcomes := licensed [OutcomeSuccess];
      Trails := licensed [TrailInstance];
      Schema_ := [
        ("session_id", fs KindString true);
        ("origin", fs KindString true);
        ("handoff_id", fs KindString true);
        ("purpose", fs KindString true)] |});
  (EventRemoteWorkspaceSessionRevoked, {|
      SchemaVersion := 1; Retention := RetentionSecurity;
      Outcomes := licensed [OutcomeSuccess];
      Trails := licensed [TrailInstance];
      Schema_ := [
        ("session_id", fs KindString true);
        ("origin", fs KindString true);
        ("cause", fs KindString true)] |});
  (EventRemoteHandoffFailed, {|
      SchemaVersion := 1; Retention := RetentionSecurity;
      Outcomes := licensed [OutcomeFailure];
      Trails := licensed [TrailInstance];
      Schema_ := [
        ("handoff_id", fs KindString true);
        ("origin", fs KindString true);
        ("stage", fs_enum ["start"; "callback"; "redeem"] (fs KindString true));
        ("cause", fs KindString true)] |});
  (EventDeliveryFetched, {|
      SchemaVersion := 1; Retention := RetentionAccess;
      Outcomes := licensed [OutcomeSuccess];
      Trails := licensed [TrailTenant];
      Schema_ := [
        ("parameters", fs_maxBytes 256 (fs_maxLen 32 (fs KindFreeTextMap false)));
        ("disposition", fs KindString true);
        ("credential_id", fs KindString true);
        ("credential_kind", fs KindString true);
        ("principal_class", fs KindString true);
        ("scope", fs KindString true);
        ("key_count", fs KindInt true);
        ("projection", fs_enum ["full"; "config-only"] (fs KindString true));
        ("acknowledged_keys", fs_maxBytes 128 (fs_maxLen MaxAcknowledgedKeys (fs KindStringList true)));
        ("delivered_count", fs KindInt true);
        ("change_token_version", fs KindString true);
        ("cursor_presented", fs KindBool true)] |});
  (EventOfflineRecordsReconciled, {|
      SchemaVersion := 1; Retention := RetentionAccess;
      Outcomes := licensed [OutcomeSuccess];
      Trails := licensed [TrailTenant];
      Schema_ := [
        ("accepted", fs KindInt true);
        ("duplicates", fs KindInt true);
        ("credential_id", fs KindString true);
        ("scope", fs KindString true)] |})].

(** [EventDisclosure] to [EventSCIMDirectoryRead]. *)
Definition eventRows_15 : list (EventType * TypeSpec) := [
  (EventDisclosure, {|
      SchemaVersion := 1; Retention := RetentionAccess;
      Outcomes := licensed [OutcomeSuccess];
      Trails := licensed [TrailTenant];
      Schema_ := [
        ("key", fs KindFreeText true);
        ("classification", fs KindString true);
        ("revision", fs KindInt true);
        ("credential_id", fs KindString true);
        ("credential_kind", fs KindString true);
        ("principal_class", fs KindString true);
        ("scope", fs KindString true);
        ("projection", fs_enum ["full"; "config-only"] (fs KindString true))] |});
  (EventSCIMBindingCreated, scimAdminEvent scimBindingSchema);
  (EventSCIMBindingDeleted, scimAdminEvent scimBindingSchema);
  (EventSCIMMappingCreated, scimAdminEvent scimMappingSchema);
  (EventSCIMMappingUpdated, scimAdminEvent scimMappingSchema);
  (EventSCIMMappingDeleted, scimAdminEvent scimMappingSchema);
  (EventSCIMCredentialMinted, scimAdminEvent scimCredentialSchema);
  (EventSCIMCredentialRotated, scimAdminEvent scimCredentialSchema);
  (EventSCIMCredentialRevoked, scimAdminEvent scimCredentialSchema);
  (EventSCIMUserProvisioned, scimWireEvent [
      ("binding", fs KindString true);
      ("resource_id", fs KindString true);
      ("account_id", fs KindString true);
      ("disposition", fs_enum ["create"; "attach"] (fs KindString true));
      ("subject_digest", fs_digest (fs KindString true))]);
  (EventSCIMUserUpdated, scimWireEvent [
      ("binding", fs KindString true);
      ("resource_id", fs KindString true);
      ("changed_attributes", fs_maxBytes 256 (fs_maxLen 50 (fs KindStringList true)))]);
  (EventSCIMUserDeprovisioned, scimWireEvent scimDeprovisionSchema);
  (EventSCIMUserDeleted, scimWireEvent (merged scimDeprovisionSchema [
      ("member_references_removed", fs_nonNegative (fs KindInt true))]));
  (EventSCIMGroupCreated, scimWireEvent scimGroupSchema);
  (EventSCIMGroupUpdated, scimWireEvent scimGroupSchema);
  (EventSCIMGroupDeleted, scimWireEvent scimGroupSchema);
  (EventSCIMGroupMembership, scimWireEvent [
      ("binding", fs KindString true);
      ("group_id", fs KindString true);
      ("added_accounts", fs_maxBytes 256 (fs_maxLen 200 (fs KindStringList true)));
      ("removed_accounts", fs_maxBytes 256 (fs_maxLen 200 (fs KindStringList true)))]);
  (EventSCIMLockoutRetention, scimLockoutEvent [
      ("binding", fs KindString true);
      ("principal", fs KindString true);
      ("grant_id", fs KindString true);
      ("cause", fs_enum ["deprovision"; "user_deleted"; "member_removed"; "group_deleted";
           "mapping_deleted"; "binding_deleted"] (fs KindString true))]);
  (EventSCIMLockoutRetentionReleased, scimLockoutEvent [
      ("binding", fs KindString true);
      ("principal", fs KindString true);
      ("grant_id", fs KindString true);
      ("cause", fs_enum ["deprovision"; "user_deleted"; "member_removed"; "group_deleted";
           "mapping_deleted"; "binding_deleted"] (fs KindString true));
      ("curing_grant_id", fs KindString true)]);
  (EventSCIMAttentionEntered, scimWireEvent scimAttentionSchema);
  (EventSCIMAttentionCleared, scimWireEvent scimAttentionSchema);
  (EventSCIMDirectoryRead, {|
      SchemaVersion := 1; Retention := RetentionAccess;
      Outcomes := licensed [OutcomeSuccess];
      Trails := licensed [TrailTenant];
      Schema_ := [
        ("binding", fs KindString true);
        ("resource_type", fs_enum ["user"; "group"; "discovery"] (fs KindString true));
        ("filter_shape", fs_enum ["none"; "userName_eq"; "externalId_eq"; "displayName_eq"] (fs KindString true));
        ("page", fs_object scimPageSchema (fs KindObject true))] |})].

(** [EventSCIMCredentialRefused] to [EventDynamicLeaseDisclosed]. *)
Definition eventRows_16 : list (EventType * TypeSpec) := [
  (EventSCIMCredentialRefused, {|
      SchemaVersion := 1; Retention := RetentionSecurity;
      Outcomes := licensed [OutcomeFailure];
      Trails := licensed [TrailInstance];
      Schema_ := [
        ("binding", fs KindString true);
        ("credential_id", fs KindString true);
        ("cause", fs_enum ["binding-mismatch"] (fs KindString true))] |});
  (EventSCIMAdminRead, {|
      SchemaVersion := 1; Retention := RetentionAccess;
      Outcomes := licensed [OutcomeSuccess];
      Trails := licensed [TrailTenant];
      Schema_ := [
        ("org", fs KindString true);
        ("binding", fs KindString false);
        ("resource_type", fs_enum ["binding"; "mapping"; "credential"; "directory"] (fs KindString true));
        ("row_count", fs KindInt true)] |});
  (EventAdapterPushIntent, {|
      SchemaVersion := 1; Retention := RetentionSecurity;
      Outcomes := licensed [OutcomeIntent];
      Trails := licensed [TrailTenant];
      Schema_ := [
        ("surface", fs_enum ["secret"; "variable"; "environment"] (fs KindString true));
        ("effective_name", fs KindString true);
        ("disposition", fs_enum ["create"; "update"; "delete"] (fs KindString true))] |});
  (EventAdapterPushOutcome, {|
      SchemaVersion := 1; Retention := RetentionSecurity;
      Outcomes := licensed [OutcomeSuccess; OutcomeFailure; OutcomeUnknown];
      Trails := licensed [TrailTenant];
      Schema_ := [
        ("surface", fs_enum ["secret"; "variable"; "environment"] (fs KindString true));
        ("effective_name", fs KindString true);
        ("disposition", fs_enum ["create"; "update"; "delete"] (fs KindString true))] |});
  (EventAdapterConfigure, adapterLifecycleEvent [
      ("mutation", fs KindString true);
      ("previous_authority", fs KindString false);
      ("authority", fs KindString true)]);
  (EventAdapterCredentialReplace, adapterLifecycleEvent [
      ("credential_present", fs KindBool true);
      ("previous_authority", fs KindString true);
      ("authority", fs KindString true)]);
  (EventAdapterCredentialRevoke, adapterLifecycleEvent [
      ("credential_present", fs KindBool true)]);
  (EventAdapterAdopt, adapterLifecycleEvent [
      ("artifact_id", fs KindString true);
      ("target_generation", fs KindInt true);
      ("entries", fs KindStringList true)]);
  (EventAdapterInspect, {|
      SchemaVersion := 1; Retention := RetentionAccess;
      Outcomes := licensed [OutcomeSuccess; OutcomeDenied];
      Trails := licensed [TrailTenant];
      Schema_ := [
        ("row_count", fs KindInt true)] |});
  (EventDynamicProviderConfigured, adapterLifecycleEvent [
      ("kind", fs_enum ["postgres"] (fs KindString true));
      ("authority", fs KindString true)]);
  (EventDynamicProviderCredentialReplace, adapterLifecycleEvent [
      ("credential_present", fs KindBool true)]);
  (EventDynamicProviderCredentialRevoke, adapterLifecycleEvent [
      ("credential_present", fs KindBool true)]);
  (EventDynamicProviderDeleted, adapterLifecycleEvent [
      ("revoked_lease_count", fs KindInt true)]);
  (EventDynamicProviderInspected, {|
      SchemaVersion := 1; Retention := RetentionAccess;
      Outcomes := licensed [OutcomeSuccess; OutcomeDenied];
      Trails := licensed [TrailTenant];
      Schema_ := [
        ("row_count", fs KindInt true)] |});
  (EventDynamicLeaseTransitionIntent, {|
      SchemaVersion := 1; Retention := RetentionSecurity;
      Outcomes := licensed [OutcomeIntent];
      Trails := licensed [TrailTenant];
      Schema_ := [
        ("kind", fs_enum ["mint"; "renew"; "revoke"; "expire"] (fs KindString true));
        ("provider_handle", fs KindString true)] |});
  (EventDynamicLeaseTransitionOutcome, {|
      SchemaVersion := 1; Retention := RetentionSecurity;
      Outcomes := licensed [OutcomeSuccess; OutcomeFailure; OutcomeUnknown];
      Trails := licensed [TrailTenant];
      Schema_ := [
        ("kind", fs_enum ["mint"; "renew"; "revoke"; "expire"] (fs KindString true));
        ("provider_handle", fs KindString true)] |});
  (EventDynamicLeaseDisclosed, {|
      SchemaVersion := 1; Retention := RetentionAccess;
      Outcomes := licensed [OutcomeSuccess];
      Trails := licensed [TrailTenant];
      Schema_ := [
        ("provider_handle", fs KindString true);
        ("principal_class", fs KindString true);
        ("expires_at", fs KindString false)] |})].

(** [EventDynamicLeaseSettleRequested] to [EventAdapterSuperseded]. *)
Definition eventRows_17 : list (EventType * TypeSpec) := [
  (EventDynamicLeaseSettleRequested, {|
      SchemaVersion := 1; Retention := RetentionSecurity;
      Outcomes := licensed [OutcomeSuccess];
      Trails := licensed [TrailTenant];
      Schema_ := [
        ("provider_handle", fs KindString true)] |});
  (EventAdapterPlan, adapterLifecycleEvent [
      ("changes", fs KindStringList true)]);
  (EventAdapterTest, adapterLifecycleEvent [
      ("version", fs KindString false);
      ("destination_id", fs KindInt false)]);
  (EventAdapterSyncRequested, {|
      SchemaVersion := 1; Retention := RetentionSecurity;
      Outcomes := licensed [OutcomeSuccess; OutcomeDenied];
      Trails := licensed [TrailTenant];
      Schema_ := [
        ("trigger", fs_enum ["manual"; "on-publish"; "resume"] (fs KindString true))] |});
  (EventAdapterKeyDelivered, {|
      SchemaVersion := 1; Retention := RetentionSecurity;
      Outcomes := licensed [OutcomeSuccess];
      Trails := licensed [TrailTenant];
      Schema_ := [
        ("key_id", fs KindString true);
        ("surface", fs_enum ["secret"; "variable"] (fs KindString true));
        ("effective_name", fs KindString true)] |});
  (EventAdapterAbort, {|
      SchemaVersion := 1; Retention := RetentionSecurity;
      Outcomes := licensed [OutcomeFailure];
      Trails := licensed [TrailTenant];
      Schema_ := [
        ("cause", fs_enum ["authority"; "generation"] (fs KindString true))] |});
  (EventAdapterScrub, {|
      SchemaVersion := 1; Retention := RetentionSecurity;
      Outcomes := licensed [OutcomeSuccess; OutcomeFailure];
      Trails := licensed [TrailTenant];
      Schema_ := [
        ("orphaned", fs KindStringList true)] |});
  (EventAdapterSuperseded, {|
      SchemaVersion := 1; Retention := RetentionSecurity;
      Outcomes := licensed [OutcomeSuccess];
      Trails := licensed [TrailTenant];
      Schema_ := [
        ("previous_job_id", fs KindString true);
        ("job_id", fs KindString true)] |})].

Definition eventRows : list (EventType * TypeSpec) :=
  eventRows_01 ++ eventRows_02 ++ eventRows_03 ++ eventRows_04 ++ eventRows_05 ++ eventRows_06 ++ eventRows_07 ++ eventRows_08 ++ eventRows_09 ++ eventRows_10 ++ eventRows_11 ++ eventRows_12 ++ eventRows_13 ++ eventRows_14 ++ eventRows_15 ++ eventRows_16 ++ eventRows_17.

Definition registry : gmap string TypeSpec := list_to_map eventRows.

(** [Spec]: the row of a type, [None] when the type is not registered. *)
Definition Spec (t : EventType) : option TypeSpec := registry !! t.

#[global] Opaque eventRows registry Spec.
