(* ===== verification/Registry.v ===== *)
(** * The operation registry: [internal/authz/registry.go]

    Validation of the policy table into the immutable registry, and the
    fail-closed lookups the chokepoint and the store boundary read it with.
    The theorems state what validation guarantees of any registry it accepts,
    and that the installed table is accepted. *)

From S2P Require Import Prelude Domain OperationNames EventNames OperationTable AuditTable.

#[local] Open Scope Z_scope.

(** ** Validation *)
Definition registrableClasses : list Class := [ClassTenant; ClassInstance].

Definition tenantLevel (l : Level) : bool :=
  (l =? LevelOrg) || (l =? LevelProject) || (l =? LevelEnv).

Definition validLevel (l : Level) : bool := (l =? LevelNone) || tenantLevel l.

(** Error texts keep their fixed part; the formatted arguments are dropped. *)
Definition regErr {A} (msg : string) : result A := Err (ENew (String.append "authz registry: " msg)).

(** The per-atom checks of [validateSpec]'s loop, in order. *)
Fixpoint validateAtoms (lvl : Level) (f : Formula) : result unit :=
  match f with
  | [] => Ok ()
  | atom :: rest =>
      if negb (IsCapability (Cap atom)) then regErr "operation names unknown capability"
      else if negb (validLevel (At atom)) then regErr "operation has an atom at invalid level"
      else if default 0 (DeepestLevel (Cap atom)) <? At atom then
        regErr "operation has capability deeper than its deepest"
      else if lvl <? At atom then regErr "operation has an atom at deeper level"
      else validateAtoms lvl rest
  end.

(** The event loop of [validateAuditDisposition], with its [seen] map. *)
Fixpoint validateEvents (seen : gmap string unit) (es : list EventType) : result unit :=
  match es with
  | [] => Ok ()
  | et :: rest =>
      if et =s "" then regErr "operation declares an empty audit event type"
      else match Spec et with
      | None => regErr "operation declares unregistered audit event"
      | Some _ =>
          match seen !! et with
          | Some _ => regErr "operation declares duplicate audit event"
          | None => validateEvents (<[et := ()]> seen) rest
          end
      end
  end.

Definition validateAuditDisposition (op : Operation) (spec : opSpec) : result unit :=
  let n := (if (0 <? Z.of_nat (length (events spec))) then 1 else 0)
         + (if auditedNone spec then 1 else 0)
         + (if reviewExempt spec then 1 else 0) in
  if negb (n =? 1) then regErr "operation must carry exactly one audit disposition"
  else if reviewExempt spec && (op <>s OpDefinitionsPlanGet) && (op <>s OpSCIMDiscovery) then
    regErr "operation claims an unreviewed audit exemption"
  else
    _ ← validateEvents ∅ (events spec);
    if auditedNone spec then
      if negb (class spec =? ClassTenant) then
        regErr "operation is audited-none on a non-tenant class"
      else if existsb (fun atom => Cap atom <>s CapRead) (formula spec) then
        regErr "operation is audited-none with a non-read atom"
      else if existsb (fun p => negb (flag readOnlyStoreOps p.1)) (map_to_list (storeOps spec)) then
        regErr "operation is audited-none but mutates"
      else Ok ()
    else Ok ().

Definition validateSpec (op : Operation) (spec : opSpec) : result unit :=
  if negb (existsb (Z.eqb (class spec)) registrableClasses) then
    regErr "operation has unregisterable class"
  else if (class spec =? ClassTenant) && negb (tenantLevel (level spec)) then
    regErr "tenant operation has non-tenant level"
  else if (class spec =? ClassInstance) && negb (level spec =? LevelNone) then
    regErr "instance operation must address level none"
  else if (Z.of_nat (length (formula spec)) =? 0) then regErr "operation has an empty formula"
  else
    _ ← validateAtoms (level spec) (formula spec);
    if existsb (fun p => negb p.2) (map_to_list (storeOps spec)) then
      regErr "operation has a false store-op entry"
    else validateAuditDisposition op spec.

(** [newRegistry] ranges over a Go map; [table] lists its entries in the
    iteration order. Cloning a row is the identity on values. *)
Fixpoint newRegistry_loop (ops : gmap string opSpec) (table : list (Operation * opSpec))
    : result (gmap string opSpec) :=
  match table with
  | [] => Ok ops
  | (op, spec) :: rest =>
      if op =s "" then regErr "empty operation key"
      else
        _ ← validateSpec op spec;
        newRegistry_loop (<[op := spec]> ops) rest
  end.

Definition newRegistry (table : list (Operation * opSpec)) : result (gmap string opSpec) :=
  newRegistry_loop ∅ table.

Definition mustNewRegistry (table : list (Operation * opSpec)) : result (gmap string opSpec) :=
  match newRegistry table with
  | Ok r => Ok r
  | Err _ => Panic "authz registry"
  | Panic s => Panic s
  end.

(** The installed registry; package initialization panics if it is refused. *)
Definition registry : gmap string opSpec :=
  from_ok ∅ (mustNewRegistry operationRows).

#[global] Opaque registry.

(** ** Lookups *)
Record authorizationSpec := MkAuthorizationSpec {
  as_class : Class; as_level : Level; as_formula : Formula }.

Definition Registry_authorizationSpec (op : Operation) : option authorizationSpec :=
  match registry !! op with
  | None => None
  | Some spec => Some (MkAuthorizationSpec (class spec) (level spec) (formula spec))
  end.

Definition permitsStoreOp (operation : Operation) (storeOp : StoreOp) : bool :=
  match registry !! operation with
  | Some spec => flag (storeOps spec) storeOp
  | None => false
  end.

Definition permitsEvent (operation : Operation) (event : EventType) : bool :=
  match registry !! operation with
  | Some spec => contains (events spec) event
  | None => false
  end.

Definition levelNames : list (Level * string) := [
  (LevelNone, "instance"); (LevelOrg, "org");
  (LevelProject, "project"); (LevelEnv, "environment")].

(** [levelNames[l]]: the empty string for an unknown level. *)
Definition levelName (l : Level) : string :=
  match find (fun p => p.1 =? l) levelNames with Some p => p.2 | None => "" end.

Definition atomName (a : Atom) : string :=
  String.append (Cap a) (String.append "@" (levelName (At a))).

(** [formulaName]: the atoms joined with a plus sign. *)
Definition formulaName (f : Formula) : string := String.concat "+" (map atomName f).

Record NetworkOperationPolicy := MkNetworkOperationPolicy {
  nop_Formula : list string; nop_AuditedNone : bool; nop_ReadOnly : bool }.

Definition LookupNetworkOperationPolicy (name : string) : option NetworkOperationPolicy :=
  match registry !! name with
  | None => None
  | Some spec => Some (MkNetworkOperationPolicy
      (map atomName (formula spec)) (auditedNone spec)
      (forallb (fun p => flag readOnlyStoreOps p.1) (map_to_list (storeOps spec))))
  end.

(** [MFAMandatory] and [FormulaDemandsMFA] of [session.go]. *)
Definition MFAMandatory : gmap string bool := licensed [
  CapReveal; CapRevealHistory; CapManageMembers; CapCredentialReset;
  CapInstanceConfig; CapInstanceDirector].

Definition FormulaDemandsMFA (op : Operation) : bool :=
  from_option (fun spec => existsb (fun atom => flag MFAMandatory (Cap atom)) (as_formula spec))
    false (Registry_authorizationSpec op).

Lemma authorizationSpec_lookup op a :
  Registry_authorizationSpec op = Some a <->
  exists spec, registry !! op = Some spec /\
    a = MkAuthorizationSpec (class spec) (level spec) (formula spec).
Proof. unfold Registry_authorizationSpec. destruct (registry !! op); naive_solver. Qed.

#[global] Opaque Registry_authorizationSpec.

(** ** What validation means

    The declarative content of [validateSpec]: the registry invariants the
    source's comments state, with no reference to the order of the checks. *)
Definition atom_wf (lvl : Level) (a : Atom) : Prop :=
  exists deepest, DeepestLevel (Cap a) = Some deepest /\
    LevelNone <= At a <= LevelEnv /\ At a <= deepest /\ At a <= lvl.

Record WellFormedSpec (op : Operation) (spec : opSpec) : Prop := {
  wf_class :
    (class spec = ClassTenant /\ LevelOrg <= level spec <= LevelEnv) \/
    (class spec = ClassInstance /\ level spec = LevelNone);
  wf_formula : formula spec <> [];
  wf_atoms : Forall (atom_wf (level spec)) (formula spec);
  wf_storeOps : forall so b, storeOps spec !! so = Some b -> b = true;
  wf_disposition :
    (events spec <> [] /\ auditedNone spec = false /\ reviewExempt spec = false) \/
    (events spec = [] /\ auditedNone spec = true /\ reviewExempt spec = false) \/
    (events spec = [] /\ auditedNone spec = false /\ reviewExempt spec = true);
  wf_exempt : reviewExempt spec = true -> op = OpDefinitionsPlanGet \/ op = OpSCIMDiscovery;
  wf_events : NoDup (events spec) /\
    forall et, et ∈ events spec -> et <> "" /\ is_Some (Spec et);
  wf_auditedNone : auditedNone spec = true ->
    class spec = ClassTenant /\ Forall (fun a => Cap a = CapRead) (formula spec) /\
    forall so b, storeOps spec !! so = Some b -> flag readOnlyStoreOps so = true }.

Lemma tenantLevel_spec l : tenantLevel l = true <-> LevelOrg <= l <= LevelEnv.
Proof. unfold tenantLevel, LevelOrg, LevelProject, LevelEnv. lia. Qed.

Lemma validLevel_spec l : validLevel l = true <-> LevelNone <= l <= LevelEnv.
Proof.
  unfold validLevel. rewrite orb_true_iff, tenantLevel_spec.
  unfold LevelNone, LevelOrg, LevelEnv. lia.
Qed.

Lemma validateAtoms_spec lvl f : validateAtoms lvl f = Ok () <-> Forall (atom_wf lvl) f.
Proof.
  induction f as [|a f IH]; cbn; [naive_solver|].
  rewrite Forall_cons, <- IH. unfold atom_wf, IsCapability, DeepestLevel.
  setoid_rewrite <- validLevel_spec.
  destruct (capabilityLevels !! Cap a) as [d|] eqn:E; cbn; [|naive_solver].
  destruct (validLevel (At a)); cbn; [|naive_solver].
  destruct (Z.ltb_spec d (At a)); [split; [done|naive_solver lia]|].
  destruct (Z.ltb_spec lvl (At a)); [split; [done|naive_solver lia]|].
  naive_solver.
Qed.

Lemma validateEvents_spec es : forall seen : gmap string unit,
  validateEvents seen es = Ok () <->
  (NoDup es /\ (forall et, et ∈ es -> seen !! et = None)) /\
  forall et, et ∈ es -> et <> "" /\ is_Some (Spec et).
Proof.
  induction es as [|x es IH]; intros seen; cbn.
  - split; [|done]. intros _. repeat split; [constructor|..];
      match goal with H : _ ∈ [] |- _ => by apply elem_of_nil in H | _ => idtac end;
      intros ? H; by apply elem_of_nil in H.
  - rewrite NoDup_cons. setoid_rewrite elem_of_cons.
    destruct (String.eqb_spec x "") as [->|Hx]; [split; [done|naive_solver]|].
    destruct (Spec x) as [sp|] eqn:Hsp.
    2: { split; [discriminate|]. intros [_ H]. destruct (H x) as [_ [? ?]]; [by left|]. congruence. }
    assert (is_Some (Spec x)) as Hreg by (rewrite Hsp; eauto). clear Hsp.
    destruct (seen !! x) eqn:Hseen.
    { split; [discriminate|]. intros [[_ H] _]. rewrite (H x) in Hseen; [discriminate|by left]. }
    rewrite IH. setoid_rewrite lookup_insert_None. split.
    + intros [[Hnd Hs] Hall]. split; [split; [split|]|].
      * intros Hin. destruct (Hs x Hin) as [_ Hne]. exact (Hne eq_refl).
      * exact Hnd.
      * intros y [->|Hy]; [exact Hseen|]. apply Hs, Hy.
      * intros y [->|Hy]; [split; [exact Hx|exact Hreg]|]. apply Hall, Hy.
    + intros [[[Hni Hnd] Hs] Hall]. split; [split; [exact Hnd|]|].
      * intros y Hy. split; [apply Hs; right; exact Hy|]. intros ->. exact (Hni Hy).
      * intros y Hy. apply Hall. right. exact Hy.
Qed.

Lemma map_to_list_existsb {A} (P : string * A -> bool) (m : gmap string A) :
  existsb P (map_to_list m) = false <-> forall k v, m !! k = Some v -> P (k, v) = false.
Proof.
  split.
  - intros H k v Hk. eapply existsb_false; [exact H|].
    apply list_elem_of_In. by apply elem_of_map_to_list.
  - intros H. destruct (existsb P (map_to_list m)) eqn:E; [|done].
    apply existsb_exists in E as ([k v] & Hin & HP).
    apply list_elem_of_In, elem_of_map_to_list in Hin. rewrite (H k v Hin) in HP. done.
Qed.

Lemma auditedNone_checks_spec spec :
  (existsb (fun a => Cap a <>s CapRead) (formula spec) = false /\
   existsb (fun p => negb (flag readOnlyStoreOps p.1)) (map_to_list (storeOps spec)) = false) <->
  Forall (fun a => Cap a = CapRead) (formula spec) /\
  forall so b, storeOps spec !! so = Some b -> flag readOnlyStoreOps so = true.
Proof.
  rewrite map_to_list_existsb. cbn. setoid_rewrite negb_false_iff. split; intros [Hf Hs]; split; try done.
  - apply Forall_forall. intros a Ha. apply list_elem_of_In in Ha.
    pose proof (existsb_false _ _ _ Hf Ha). cbn in *. by bools.
  - destruct (existsb _ _) eqn:E; [|done]. apply existsb_exists in E as (a & Ha & Hc).
    rewrite Forall_forall in Hf. rewrite (Hf a) in Hc; [done|by apply list_elem_of_In].
Qed.

Lemma events_nonempty spec :
  (0 <? Z.of_nat (length (events spec))) = true <-> events spec <> [].
Proof. destruct (events spec); cbn; split; intros; try done; lia. Qed.

Lemma events_empty spec :
  (0 <? Z.of_nat (length (events spec))) = false <-> events spec = [].
Proof. destruct (events spec); cbn; split; intros; try done; lia. Qed.

Lemma validateAuditDisposition_spec op spec :
  validateAuditDisposition op spec = Ok () <->
  ((events spec <> [] /\ auditedNone spec = false /\ reviewExempt spec = false) \/
   (events spec = [] /\ auditedNone spec = true /\ reviewExempt spec = false) \/
   (events spec = [] /\ auditedNone spec = false /\ reviewExempt spec = true)) /\
  (reviewExempt spec = true -> op = OpDefinitionsPlanGet \/ op = OpSCIMDiscovery) /\
  (NoDup (events spec) /\ forall et, et ∈ events spec -> et <> "" /\ is_Some (Spec et)) /\
  (auditedNone spec = true ->
     class spec = ClassTenant /\ Forall (fun a => Cap a = CapRead) (formula spec) /\
     forall so b, storeOps spec !! so = Some b -> flag readOnlyStoreOps so = true).
Proof.
  unfold validateAuditDisposition. set (Ev := NoDup (events spec) /\ _).
  assert (validateEvents ∅ (events spec) = Ok () <-> Ev) as Hev.
  { rewrite validateEvents_spec. unfold Ev. setoid_rewrite lookup_empty. tauto. }
  rewrite <- auditedNone_checks_spec, <- Z.eqb_eq, <- !String.eqb_eq. clearbody Ev.
  rewrite <- (events_nonempty spec), <- (events_empty spec).
  generalize dependent (0 <? Z.of_nat (length (events spec))). intros en.
  generalize (existsb (fun a => Cap a <>s CapRead) (formula spec)) as nonRead.
  generalize (existsb (fun p => negb (flag readOnlyStoreOps p.1)) (map_to_list (storeOps spec))) as mutates.
  generalize (class spec =? ClassTenant) as tenant.
  generalize (op =s OpDefinitionsPlanGet) as plan. generalize (op =s OpSCIMDiscovery) as scim.
  intros scim plan tenant mutates nonRead.
  destruct (validateEvents ∅ (events spec)) as [[]| |]; cbn;
    [assert Ev by (by apply Hev)|assert (~ Ev) by (rewrite <- Hev; discriminate)..]; clear Hev;
    destruct en, (auditedNone spec), (reviewExempt spec); cbn;
    try (split; [discriminate|]; intuition discriminate);
    try (destruct tenant, mutates, nonRead; cbn; intuition discriminate);
    destruct plan, scim; cbn; intuition discriminate.
Qed.

Lemma validateSpec_WellFormed op spec : validateSpec op spec = Ok () <-> WellFormedSpec op spec.
Proof.
  unfold validateSpec. split.
  - intros H. cbn [existsb registrableClasses] in H.
    destruct (_ || _)%bool eqn:Hc in H; [|discriminate]. cbn [negb] in H.
    destruct (_ && _)%bool eqn:Ht in H; [discriminate|].
    destruct (_ && _)%bool eqn:Hi in H; [discriminate|].
    destruct (Z.eqb_spec (Z.of_nat (length (formula spec))) 0); [discriminate|].
    apply bind_Ok in H as ([] & Ha & H).
    destruct (existsb _ _) eqn:Hs in H; [discriminate|].
    apply validateAtoms_spec in Ha. rewrite map_to_list_existsb in Hs.
    apply validateAuditDisposition_spec in H as (Hd & He & Hv & Hn).
    constructor; try done.
    + destruct (Z.eqb_spec (class spec) ClassTenant) as [E|].
      * left. split; [done|]. apply tenantLevel_spec. by destruct (tenantLevel _).
      * destruct (Z.eqb_spec (class spec) ClassInstance); [|done]. right. split; [done|].
        destruct (Z.eqb_spec (level spec) LevelNone); [done|]. by destruct (class spec =? 0).
    + by destruct (formula spec).
    + intros so b Hb. specialize (Hs so b Hb). by destruct b.
  - intros [Hc Hf Ha Hs Hd He Hv Hn]. cbn [existsb registrableClasses].
    assert (validateAuditDisposition op spec = Ok ()) as Hdisp
      by (apply validateAuditDisposition_spec; naive_solver).
    apply validateAtoms_spec in Ha. rewrite Ha. cbn.
    assert (existsb (fun p => negb p.2) (map_to_list (storeOps spec)) = false) as ->.
    { apply map_to_list_existsb. intros k v Hk. cbn. by rewrite (Hs k v Hk). }
    destruct (Z.eqb_spec (Z.of_nat (length (formula spec))) 0); [by destruct (formula spec)|].
    destruct Hc as [[-> Hl%tenantLevel_spec]|[-> ->]]; cbn; [by rewrite Hl|done].
Qed.

Lemma newRegistry_loop_spec rows : forall ops r,
  newRegistry_loop ops rows = Ok r <->
  Forall (fun p => p.1 <> "" /\ WellFormedSpec p.1 p.2) rows /\
  r = foldl (fun m p => <[p.1 := p.2]> m) ops rows.
Proof.
  induction rows as [|[op spec] rows IH]; intros ops r; cbn; [naive_solver|].
  rewrite Forall_cons, <- validateSpec_WellFormed. cbn.
  destruct (String.eqb_spec op ""); [naive_solver|].
  destruct (validateSpec op spec) as [[]| |]; cbn; [rewrite IH|..]; naive_solver.
Qed.

Lemma foldl_insert_list_to_map (rows : list (string * opSpec)) : forall m : gmap string opSpec,
  NoDup rows.*1 -> (forall k, k ∈ rows.*1 -> m !! k = None) ->
  foldl (fun m p => <[p.1 := p.2]> m) m rows = list_to_map rows ∪ m.
Proof.
  induction rows as [|[k v] rows IH]; intros m Hnd Hm; cbn.
  - by rewrite map_empty_union.
  - apply NoDup_cons in Hnd as [Hk Hnd]. rewrite IH; [|done|].
    + rewrite <- insert_union_l. rewrite insert_union_r; [done|].
      by apply not_elem_of_list_to_map_1.
    + intros j Hj. rewrite lookup_insert_None. split.
      * apply Hm. by right.
      * intros ->. done.
Qed.

(** [newRegistry] accepts exactly the tables of well-formed rows, and returns
    the table itself. *)
Lemma newRegistry_spec rows r :
  NoDup rows.*1 ->
  newRegistry rows = Ok r <->
  Forall (fun p => p.1 <> "" /\ WellFormedSpec p.1 p.2) rows /\ r = list_to_map rows.
Proof.
  intros Hnd. unfold newRegistry. rewrite newRegistry_loop_spec.
  rewrite foldl_insert_list_to_map; [|done|done]. by rewrite map_union_empty.
Qed.

(** ** The installed table *)
Lemma operationRows_NoDup : NoDup operationRows.*1.
Proof. apply dup_free_NoDup. vm_compute. reflexivity. Qed.

Lemma operationRows_accepted : is_ok (newRegistry operationRows) = true.
Proof. vm_compute. reflexivity. Qed.

Lemma operationRows_WellFormed :
  Forall (fun p => p.1 <> "" /\ WellFormedSpec p.1 p.2) operationRows.
Proof.
  pose proof operationRows_accepted as H. destruct (newRegistry operationRows) eqn:E; [|done..].
  by apply newRegistry_spec in E as [? _]; [|apply operationRows_NoDup].
Qed.

Lemma registry_eq : registry = operationTable.
Proof.
  transitivity (from_ok ∅ (mustNewRegistry operationRows)); [reflexivity|].
  unfold mustNewRegistry.
  assert (newRegistry operationRows = Ok (list_to_map operationRows)) as ->; [|reflexivity].
  apply newRegistry_spec; [apply operationRows_NoDup|].
  split; [apply operationRows_WellFormed|done].
Qed.

Lemma registry_lookup op spec : registry !! op = Some spec <-> (op, spec) ∈ operationRows.
Proof.
  rewrite registry_eq. transitivity ((list_to_map operationRows : gmap string opSpec) !! op = Some spec).
  - reflexivity.
  - symmetry. apply elem_of_list_to_map. apply operationRows_NoDup.
Qed.

Lemma registry_WellFormed op spec : registry !! op = Some spec -> WellFormedSpec op spec.
Proof.
  rewrite registry_lookup. intros H.
  pose proof operationRows_WellFormed as Hwf. rewrite Forall_forall in Hwf.
  by destruct (Hwf _ H).
Qed.

(** A boolean fact checked on every row of the table holds of every registered
    operation. *)
Lemma registry_forall (P : Operation -> opSpec -> bool) :
  forallb (fun p => P p.1 p.2) operationRows = true ->
  forall op spec, registry !! op = Some spec -> P op spec = true.
Proof.
  intros H op spec Hl. apply registry_lookup, list_elem_of_In in Hl.
  exact (forallb_In _ _ _ H Hl).
Qed.

(** Validation reports errors; only [mustNewRegistry] panics. *)
Lemma validateAtoms_no_panic lvl f : is_panic (validateAtoms lvl f) = false.
Proof. induction f as [|a f IH]; cbn; [done|]. by repeat case_match. Qed.

Lemma validateEvents_no_panic es : forall seen, is_panic (validateEvents seen es) = false.
Proof. induction es as [|a es IH]; intros seen; cbn; [done|]. by repeat case_match. Qed.

Lemma validateAuditDisposition_no_panic op spec :
  is_panic (validateAuditDisposition op spec) = false.
Proof.
  unfold validateAuditDisposition. cbv zeta. destruct (negb _); [done|]. destruct (_ && _)%bool; [done|].
  apply bind_no_panic; [apply validateEvents_no_panic|]. intros _ _. by repeat case_match.
Qed.

Lemma validateSpec_no_panic op spec : is_panic (validateSpec op spec) = false.
Proof.
  unfold validateSpec. destruct (negb _); [done|]. destruct (_ && _)%bool; [done|].
  destruct (_ && _)%bool; [done|]. destruct (_ =? 0); [done|].
  apply bind_no_panic; [apply validateAtoms_no_panic|]. intros _ _.
  destruct (existsb _ _); [done|]. apply validateAuditDisposition_no_panic.
Qed.

Lemma newRegistry_no_panic rows : is_panic (newRegistry rows) = false.
Proof.
  unfold newRegistry. generalize (∅ : gmap string opSpec).
  induction rows as [|[op spec] rows IH]; intros ops; cbn; [done|].
  case_match; [done|]. apply bind_no_panic; [apply validateSpec_no_panic|]. intros _ _. apply IH.
Qed.

(** ** Claims *)

Lemma newRegistry_Permutation rows rows' :
  rows ≡ₚ rows' -> NoDup rows.*1 -> is_ok (newRegistry rows) = true ->
  newRegistry rows' = newRegistry rows.
Proof.
  intros Hp Hnd Hok. destruct (newRegistry rows) as [r| |] eqn:E; [|discriminate..].
  apply newRegistry_spec in E as [Hf ->]; [|exact Hnd].
  assert (NoDup rows'.*1) as Hnd' by (by rewrite <- Hp).
  apply newRegistry_spec; [exact Hnd'|]. split; [by rewrite <- Hp|].
  by apply list_to_map_proper.
Qed.

(** [newRegistry] accepts a table with distinct keys exactly when every
    row has a non-empty name and satisfies the registry invariants (class and
    level agree, the formula is non-empty and every atom is a known capability
    at a level no deeper than the capability's deepest and the operation's own,
    no store-op entry is false, exactly one audit disposition, catalogued and
    distinct events, audited-none only on tenant pure reads); it then returns
    the table unchanged, and on every other table it returns an error. *)
Theorem newRegistry_accepts_exactly_wellformed (rows : list (Operation * opSpec)) :
  NoDup rows.*1 ->
  (Forall (fun p => p.1 <> "" /\ WellFormedSpec p.1 p.2) rows /\
     newRegistry rows = Ok (list_to_map rows)) \/
  (~ Forall (fun p => p.1 <> "" /\ WellFormedSpec p.1 p.2) rows /\
     exists e, newRegistry rows = Err e).
Proof.
  intros Hnd. destruct (newRegistry rows) as [r|e|m] eqn:E.
  - apply newRegistry_spec in E as [Hf ->]; [|exact Hnd]. left. by split.
  - right. split; [|by eexists]. intros Hf.
    assert (newRegistry rows = Ok (list_to_map rows)) as E2 by (by apply newRegistry_spec).
    rewrite E2 in E. discriminate E.
  - pose proof (newRegistry_no_panic rows) as Hp. rewrite E in Hp. discriminate Hp.
Qed.

(** A row whose formula is empty: the table holding it is refused. *)
Definition emptyFormulaRow : opSpec := {|
  class := ClassTenant; level := LevelOrg; formula := []; storeOps := ∅;
  postGrantForbidden := false; events := []; auditedNone := true; reviewExempt := false |}.

Lemma newRegistry_accepts_exactly_wellformed_witness :
  exists e, newRegistry [(OpOrgGet, emptyFormulaRow)] = Err e.
Proof.
  destruct (newRegistry_accepts_exactly_wellformed [(OpOrgGet, emptyFormulaRow)])
    as [[H _]|[_ H]]; [repeat constructor; intros H; inversion H| |exact H].
  exfalso. inversion H as [|? ? [_ Hwf] _]; subst. exact (wf_formula _ _ Hwf eq_refl).
Defined.

(** Package initialization never panics and does not depend on the map
    iteration order: whatever order the installed rows are visited in,
    [mustNewRegistry] returns the same registry, which is the table itself,
    and every registered operation satisfies the registry invariants. *)
Theorem installed_registry_any_order (rows : list (Operation * opSpec)) :
  rows ≡ₚ operationRows ->
  mustNewRegistry rows = Ok registry /\
  forall op spec, registry !! op = Some spec -> op <> "" /\ WellFormedSpec op spec.
Proof.
  intros Hp. split.
  - unfold mustNewRegistry.
    rewrite (newRegistry_Permutation operationRows rows);
      [|by symmetry|apply operationRows_NoDup|apply operationRows_accepted].
    destruct (newRegistry operationRows) as [r| |] eqn:E.
    + apply newRegistry_spec in E as [_ ->]; [|apply operationRows_NoDup].
      by rewrite registry_eq.
    + pose proof operationRows_accepted as H. rewrite E in H. discriminate H.
    + pose proof operationRows_accepted as H. rewrite E in H. discriminate H.
  - intros op spec Hl%registry_lookup. pose proof operationRows_WellFormed as Hwf.
    rewrite Forall_forall in Hwf. exact (Hwf _ Hl).
Qed.

Lemma installed_registry_any_order_witness :
  mustNewRegistry (rev operationRows) = Ok registry.
Proof.
  apply (installed_registry_any_order (rev operationRows)).
  symmetry. apply Permutation_rev.
Defined.
