(* ===== verification/Utf8.v ===== *)
(** * Go strings as bytes, and the UTF-8 functions the program uses

    A Go string is a sequence of bytes; a [string] is one of 8-bit characters.
    This file models [unicode/utf8] decoding and encoding, and the two
    [strings] functions free-text hygiene is built from ([ToValidUTF8], [Map]).
    The lemmas show that the runes of a well-formed string re-encode to the
    same bytes, and that well-formedness survives the cuts the program makes. *)

From S2P Require Import Prelude.
From Stdlib Require Import Ascii.

#[local] Open Scope Z_scope.

Abbreviation bytes := (list ascii).

Definition ord (c : ascii) : Z := Z.of_N (N_of_ascii c).
Definition chr (z : Z) : ascii := ascii_of_N (Z.to_N z).

Definition in_range (lo hi : Z) (c : ascii) : bool := (lo <=? ord c) && (ord c <=? hi).

(** A continuation byte; [RuneStart] is its negation. *)
Definition cont (c : ascii) : bool := in_range 128 191 c.
Definition RuneStart (c : ascii) : bool := negb (cont c).

Definition RuneError : Z := 65533.

(** The range the second byte must lie in, given the first (Go's [acceptRanges]). *)
Definition accept3 (b0 b1 : ascii) : bool :=
  if ord b0 =? 224 then in_range 160 191 b1
  else if ord b0 =? 237 then in_range 128 159 b1
  else cont b1.

Definition accept4 (b0 b1 : ascii) : bool :=
  if ord b0 =? 240 then in_range 144 191 b1
  else if ord b0 =? 244 then in_range 128 143 b1
  else cont b1.

(** [utf8.DecodeRuneInString]: the rune and its width; an ill-formed prefix
    decodes to [RuneError] of width one. *)
Definition DecodeRune (s : bytes) : Z * nat :=
  let bad := (RuneError, 1%nat) in
  match s with
  | [] => (RuneError, 0%nat)
  | b0 :: s1 =>
      if ord b0 <? 128 then (ord b0, 1%nat)
      else if in_range 194 223 b0 then
        match s1 with
        | b1 :: _ => if cont b1 then ((ord b0 - 192) * 64 + (ord b1 - 128), 2%nat) else bad
        | _ => bad
        end
      else if in_range 224 239 b0 then
        match s1 with
        | b1 :: b2 :: _ =>
            if accept3 b0 b1 && cont b2 then
              (((ord b0 - 224) * 64 + (ord b1 - 128)) * 64 + (ord b2 - 128), 3%nat)
            else bad
        | _ => bad
        end
      else if in_range 240 244 b0 then
        match s1 with
        | b1 :: b2 :: b3 :: _ =>
            if accept4 b0 b1 && cont b2 && cont b3 then
              ((((ord b0 - 240) * 64 + (ord b1 - 128)) * 64 + (ord b2 - 128)) * 64
                 + (ord b3 - 128), 4%nat)
            else bad
        | _ => bad
        end
      else bad
  end.

(** [utf8.EncodeRune]; an invalid rune is encoded as [RuneError]. *)
Definition EncodeRune (r : Z) : bytes :=
  let enc3 r := [chr (224 + r / 4096); chr (128 + r / 64 mod 64); chr (128 + r mod 64)] in
  if (0 <=? r) && (r <=? 127) then [chr r]
  else if (0 <=? r) && (r <=? 2047) then [chr (192 + r / 64); chr (128 + r mod 64)]
  else if (r <? 0) || (1114111 <? r) || ((55296 <=? r) && (r <=? 57343)) then enc3 RuneError
  else if r <=? 65535 then enc3 r
  else [chr (240 + r / 262144); chr (128 + r / 4096 mod 64);
        chr (128 + r / 64 mod 64); chr (128 + r mod 64)].

(** The runes of a string with the bytes each was decoded from, in order: what
    [for range] visits. [skip] counts the bytes of the current rune still to
    be passed over. *)
Fixpoint chunks (skip : nat) (s : bytes) : list (Z * bytes) :=
  match s with
  | [] => []
  | _ :: s' =>
      match skip with
      | S k => chunks k s'
      | O => let '(r, w) := DecodeRune s in (r, take w s) :: chunks (pred w) s'
      end
  end.

(** A rune that was ill-formed: [RuneError] decoded from one byte. *)
Definition ill_formed (p : Z * bytes) : bool :=
  (p.1 =? RuneError) && (length p.2 =? 1)%nat.

(** [strings.ToValidUTF8]: each run of ill-formed bytes becomes one copy of
    the replacement. *)
Fixpoint toValid_go (replacement : bytes) (invalid : bool) (l : list (Z * bytes)) : bytes :=
  match l with
  | [] => []
  | p :: l' =>
      if ill_formed p then
        (if invalid then [] else replacement) ++ toValid_go replacement true l'
      else p.2 ++ toValid_go replacement false l'
  end.

Definition ToValidUTF8 (s replacement : bytes) : bytes :=
  toValid_go replacement false (chunks 0 s).

(** [strings.Map]: a negative result drops the rune. *)
Definition strings_Map (mapping : Z -> Z) (s : bytes) : bytes :=
  concat (map (fun p => let r := mapping p.1 in if r <? 0 then [] else EncodeRune r) (chunks 0 s)).

(** ** Decoding and encoding *)

Lemma ord_bounds c : 0 <= ord c <= 255.
Proof.
  unfold ord. pose proof (N_ascii_bounded c). lia.
Qed.

Lemma chr_ord c : chr (ord c) = c.
Proof. unfold chr, ord. rewrite N2Z.id. apply ascii_N_embedding. Qed.

Lemma in_range_spec lo hi c : in_range lo hi c = true <-> lo <= ord c <= hi.
Proof. unfold in_range. lia. Qed.

(** The bytes of one well-formed rune, as inequalities. *)
Inductive rune_form : bytes -> Prop :=
  | rf1 b0 : ord b0 < 128 -> rune_form [b0]
  | rf2 b0 b1 : 194 <= ord b0 <= 223 -> 128 <= ord b1 <= 191 -> rune_form [b0; b1]
  | rf3 b0 b1 b2 : 224 <= ord b0 <= 239 -> accept3 b0 b1 = true -> 128 <= ord b2 <= 191 ->
      rune_form [b0; b1; b2]
  | rf4 b0 b1 b2 b3 : 240 <= ord b0 <= 244 -> accept4 b0 b1 = true -> 128 <= ord b2 <= 191 ->
      128 <= ord b3 <= 191 -> rune_form [b0; b1; b2; b3].

Lemma accept3_cont b0 b1 : accept3 b0 b1 = true -> 128 <= ord b1 <= 191.
Proof. unfold accept3, cont. repeat case_match; rewrite in_range_spec; lia. Qed.

Lemma accept4_cont b0 b1 : accept4 b0 b1 = true -> 128 <= ord b1 <= 191.
Proof. unfold accept4, cont. repeat case_match; rewrite in_range_spec; lia. Qed.

Ltac ranges :=
  repeat match goal with
  | H : in_range _ _ _ = true |- _ => apply in_range_spec in H
  | H : cont _ = true |- _ => apply in_range_spec in H
  | H : (_ <? _) = true |- _ => apply Z.ltb_lt in H
  | H : (_ <? _) = false |- _ => apply Z.ltb_ge in H
  end.

#[local] Ltac Zify.zify_post_hook ::= Z.to_euclidean_division_equations.

(** Evaluates the branch conditions of the decoder from the inequalities. *)
Ltac decide_branches :=
  repeat match goal with
  | |- context [(?a && ?b)%bool] =>
      first [replace (a && b)%bool with false by lia | replace (a && b)%bool with true by lia]
  | |- context [?a <? ?b] =>
      first [replace (a <? b) with true by lia | replace (a <? b) with false by lia]
  | |- context [?a <=? ?b] =>
      first [replace (a <=? b) with true by lia | replace (a <=? b) with false by lia]
  | |- context [in_range ?lo ?hi ?c] =>
      first [replace (in_range lo hi c) with true by (unfold in_range; lia)
            |replace (in_range lo hi c) with false by (unfold in_range; lia)]
  end.

(** The rune value of the bytes of one well-formed rune. *)
Definition rune_value (w : bytes) : Z := (DecodeRune w).1.

Lemma decode_form w t : rune_form w -> DecodeRune (w ++ t) = (rune_value w, length w).
Proof.
  unfold rune_value. destruct 1; cbn; unfold cont; decide_branches;
    rewrite ?H0; cbn; reflexivity.
Qed.

Lemma encode_form w : rune_form w -> EncodeRune (rune_value w) = w.
Proof.
  assert (forall z c, z = ord c -> chr z = c) as Hchr by (intros ? c ->; apply chr_ord).
  unfold rune_value. destruct 1 as [b0 H0|b0 b1 H0 H1|b0 b1 b2 H0 Ha H2|b0 b1 b2 b3 H0 Ha H2 H3];
    pose proof (ord_bounds b0); cbn; unfold cont; decide_branches; rewrite ?Ha; cbn.
  - unfold EncodeRune. decide_branches. cbn. by rewrite chr_ord.
  - unfold EncodeRune. decide_branches. cbn. f_equal; [|f_equal]; apply Hchr; lia.
  - pose proof (accept3_cont _ _ Ha). unfold accept3, cont, in_range in Ha.
    unfold EncodeRune. decide_branches. cbn.
    destruct (Z.eqb_spec (ord b0) 224), (Z.eqb_spec (ord b0) 237); try (exfalso; lia);
      decide_branches; cbn; repeat f_equal; apply Hchr; lia.
  - pose proof (accept4_cont _ _ Ha). unfold accept4, cont, in_range in Ha.
    unfold EncodeRune. decide_branches. cbn.
    destruct (Z.eqb_spec (ord b0) 240), (Z.eqb_spec (ord b0) 244); try (exfalso; lia);
      decide_branches; cbn; repeat f_equal; apply Hchr; lia.
Qed.

Lemma not_ill_formed w : rune_form w -> ill_formed (rune_value w, w) = false.
Proof.
  unfold ill_formed, rune_value, RuneError. destruct 1; cbn; [|lia..].
  decide_branches. cbn. lia.
Qed.

(** Every non-empty string starts with a well-formed rune or an ill-formed byte. *)
Lemma decode_cases c s :
  (DecodeRune (c :: s) = (RuneError, 1%nat)) \/
  exists w t, c :: s = w ++ t /\ rune_form w.
Proof.
  cbn. destruct (ord c <? 128) eqn:E1.
  { right. exists [c], s. split; [done|]. constructor. ranges. done. }
  destruct (in_range 194 223 c) eqn:E2.
  { destruct s as [|b1 s]; [by left|]. destruct (cont b1) eqn:Ec; [|by left].
    right. exists [c; b1], s. ranges. split; [done|]. by constructor. }
  destruct (in_range 224 239 c) eqn:E3.
  { destruct s as [|b1 [|b2 s]]; [by left..|].
    destruct (accept3 c b1 && cont b2)%bool eqn:Ec; [|by left]. bools. ranges.
    right. exists [c; b1; b2], s. split; [done|]. by constructor. }
  destruct (in_range 240 244 c) eqn:E4; [|by left].
  destruct s as [|b1 [|b2 [|b3 s]]]; [by left..|].
  destruct (accept4 c b1 && cont b2 && cont b3)%bool eqn:Ec; [|by left]. bools. ranges.
  right. exists [c; b1; b2; b3], s. split; [done|]. by constructor.
Qed.

(** ** Well-formed strings *)
Inductive well_formed : bytes -> Prop :=
  | wf_nil : well_formed []
  | wf_rune w t : rune_form w -> well_formed t -> well_formed (w ++ t).

#[export] Hint Constructors well_formed : hikyo.

Lemma rune_form_cons w : rune_form w -> exists c w', w = c :: w' /\ Forall (fun b => cont b = true) w'.
Proof.
  destruct 1 as [b0 H|b0 b1 H H1|b0 b1 b2 H Ha H2|b0 b1 b2 b3 H Ha H2 H3];
    try apply accept3_cont in Ha; try apply accept4_cont in Ha;
    eexists _, _; (split; [reflexivity|]);
    repeat constructor; by apply in_range_spec.
Qed.

(** Every byte of a multi-byte rune is outside ASCII. *)
Lemma rune_form_ascii w c : rune_form w -> In c w -> ord c < 128 -> w = [c].
Proof.
  destruct 1 as [b0 H|b0 b1 H H1|b0 b1 b2 H Ha H2|b0 b1 b2 b3 H Ha H2 H3];
    try apply accept3_cont in Ha; try apply accept4_cont in Ha; cbn; intros Hin Hc;
    repeat destruct Hin as [<-|Hin]; try done; lia.
Qed.

Lemma chunks_skip w t : chunks (length w) (w ++ t) = chunks 0 t.
Proof. induction w; cbn; [by destruct t|done]. Qed.

Lemma chunks_rune w t : rune_form w -> chunks 0 (w ++ t) = (rune_value w, w) :: chunks 0 t.
Proof.
  intros Hw. pose proof (decode_form w t Hw) as Hd.
  destruct (rune_form_cons w Hw) as (c & w' & -> & _).
  cbn [app chunks] in *. rewrite Hd. cbn [length pred].
  rewrite chunks_skip. cbn [firstn]. by rewrite take_app_length.
Qed.

Lemma chunks_bad c s :
  DecodeRune (c :: s) = (RuneError, 1%nat) -> chunks 0 (c :: s) = (RuneError, [c]) :: chunks 0 s.
Proof. intros H. cbn [chunks]. rewrite H. cbn. done. Qed.

(** Induction along the runes of a string. *)
Lemma rune_ind (P : bytes -> Prop) :
  P [] ->
  (forall c s, DecodeRune (c :: s) = (RuneError, 1%nat) -> P s -> P (c :: s)) ->
  (forall w t, rune_form w -> P t -> P (w ++ t)) ->
  forall s, P s.
Proof.
  intros H0 Hbad Hw s. induction s as [s IH] using (induction_ltof1 _ (@length ascii)).
  unfold ltof in IH. destruct s as [|c s]; [done|].
  destruct (decode_cases c s) as [Hd|(w & t & E & Hf)].
  - apply Hbad; [done|]. apply IH. cbn. lia.
  - rewrite E. apply Hw; [done|]. apply IH. rewrite E, length_app.
    destruct (rune_form_cons w Hf) as (? & ? & -> & _). cbn. lia.
Qed.

Lemma well_formed_app s t : well_formed s -> well_formed t -> well_formed (s ++ t).
Proof. induction 1; intros; cbn; [done|]. rewrite <- app_assoc. by constructor; auto. Qed.

Lemma ToValidUTF8_well_formed s repl : well_formed repl -> well_formed (ToValidUTF8 s repl).
Proof.
  intros Hr. unfold ToValidUTF8. generalize false. induction s as [|c s Hd IH|w t Hw IH] using rune_ind;
    intros b.
  - constructor.
  - rewrite chunks_bad by done. cbn. apply well_formed_app; [by destruct b; [constructor|]|apply IH].
  - rewrite chunks_rune by done. cbn. rewrite not_ill_formed by done. by constructor.
Qed.

Lemma ToValidUTF8_id s repl : well_formed s -> ToValidUTF8 s repl = s.
Proof.
  unfold ToValidUTF8. generalize false. intros b H. revert b.
  induction H as [|w t Hw _ IH]; intros b; [done|].
  rewrite chunks_rune by done. cbn. rewrite not_ill_formed by done. by rewrite IH.
Qed.

(** Dropping runes keeps a string well-formed, and re-encodes the others as
    they were. *)
Section Drop.
Variable drop : Z -> bool.

Let mapping (r : Z) : Z := if drop r then -1 else r.

Lemma rune_value_nonneg w : rune_form w -> 0 <= rune_value w.
Proof.
  unfold rune_value. destruct 1 as [b0 H|b0 b1 H H1|b0 b1 b2 H Ha H2|b0 b1 b2 b3 H Ha H2 H3];
    pose proof (ord_bounds b0); cbn; unfold cont; decide_branches; rewrite ?Ha; cbn; try lia.
  - apply accept3_cont in Ha. lia.
  - apply accept4_cont in Ha. lia.
Qed.

Lemma strings_Map_rune w t : rune_form w ->
  strings_Map mapping (w ++ t) =
  (if drop (rune_value w) then [] else w) ++ strings_Map mapping t.
Proof.
  intros Hw. unfold strings_Map. rewrite chunks_rune by done. cbn. unfold mapping at 1 2.
  pose proof (rune_value_nonneg w Hw).
  destruct (drop (rune_value w)); [done|].
  replace (rune_value w <? 0) with false by lia. by rewrite encode_form.
Qed.

Lemma strings_Map_well_formed s : well_formed s -> well_formed (strings_Map mapping s).
Proof.
  induction 1 as [|w t Hw _ IH]; [constructor|]. rewrite strings_Map_rune by done.
  destruct (drop _); [done|]. by constructor.
Qed.

(** [drop] decides on ASCII bytes only, so dropping is a byte filter. *)
Hypothesis drop_ascii : forall r, drop r = true -> r < 128.

Lemma rune_value_ascii w : rune_form w -> rune_value w < 128 -> exists c, w = [c] /\ rune_value w = ord c.
Proof.
  unfold rune_value. destruct 1 as [b0 H|b0 b1 H H1|b0 b1 b2 H Ha H2|b0 b1 b2 b3 H Ha H2 H3];
    cbn; unfold cont; decide_branches; rewrite ?Ha; cbn.
  - eauto.
  - lia.
  - pose proof (accept3_cont _ _ Ha). unfold accept3, cont, in_range in Ha.
    destruct (Z.eqb_spec (ord b0) 224); lia.
  - pose proof (accept4_cont _ _ Ha). unfold accept4, cont, in_range in Ha.
    destruct (Z.eqb_spec (ord b0) 240); lia.
Qed.

Lemma rune_value_byte c : rune_form [c] -> rune_value [c] = ord c.
Proof. unfold rune_value. inversion 1; subst. cbn. by decide_branches. Qed.

Lemma strings_Map_filter s : well_formed s ->
  strings_Map mapping s = List.filter (fun c => negb (drop (ord c))) s.
Proof.
  induction 1 as [|w t Hw _ IH]; [done|]. rewrite strings_Map_rune, List.filter_app, IH by done.
  f_equal. destruct (drop (rune_value w)) eqn:Hd.
  - destruct (rune_value_ascii w Hw) as (c & -> & Hv); [apply drop_ascii in Hd; lia|].
    cbn. by rewrite <- Hv, Hd.
  - symmetry. apply List.forallb_filter_id. apply forallb_forall. intros c Hc.
    destruct (drop (ord c)) eqn:Ho; [|done].
    pose proof (rune_form_ascii w c Hw Hc ltac:(apply drop_ascii in Ho; lia)). subst w.
    rewrite rune_value_byte in Hd by done. congruence.
Qed.
End Drop.

(** ** Cutting well-formed strings *)

Lemma app_eq_split (a b w t : bytes) :
  a ++ b = w ++ t ->
  (exists a', a = w ++ a' /\ t = a' ++ b) \/
  (exists w', w = a ++ w' /\ b = w' ++ t /\ w' <> []).
Proof.
  intros E. apply app_eq_app in E as (l & [[-> ->]|[-> ->]]).
  - left. eauto.
  - destruct l as [|x l].
    + left. exists []. by rewrite !app_nil_r.
    + right. exists (x :: l). done.
Qed.

(** The cut before a byte that starts a rune. *)
Lemma well_formed_cut s : well_formed s -> forall a c b,
  s = a ++ c :: b -> RuneStart c = true -> well_formed a /\ well_formed (c :: b).
Proof.
  induction 1 as [|w t Hw Ht IH]; intros a c b E Hc; [by destruct a|].
  destruct (app_eq_split _ _ _ _ (eq_sym E)) as [(a' & -> & Et)|(w' & -> & Eb & Hne)].
  - destruct (IH a' c b Et Hc). split; [|done]. by constructor.
  - destruct a as [|x a]; cbn in *.
    + split; [constructor|]. rewrite Eb. by constructor.
    + exfalso. destruct (rune_form_cons _ Hw) as (? & ? & [= <- <-] & Hall).
      destruct w' as [|y w']; [done|]. injection Eb as <- _.
      rewrite Forall_app, Forall_cons in Hall. unfold RuneStart in Hc.
      destruct Hall as (_ & Hcc & _). by rewrite Hcc in Hc.
Qed.

Lemma ascii_RuneStart c : ord c < 128 -> RuneStart c = true.
Proof. unfold RuneStart, cont, in_range. lia. Qed.

Lemma well_formed_ascii l : Forall (fun c => ord c < 128) l -> well_formed l.
Proof.
  induction 1 as [|c l Hc _ IH]; [constructor|].
  change (c :: l) with ([c] ++ l). by constructor; [constructor|].
Qed.

(** A non-empty ASCII segment splits a well-formed string into well-formed parts. *)
Lemma well_formed_around a w b :
  w <> [] -> Forall (fun c => ord c < 128) w ->
  well_formed (a ++ w ++ b) -> well_formed a /\ well_formed b.
Proof.
  intros Hne Hw H. split.
  - destruct w as [|c w]; [done|]. inversion_clear Hw as [|? ? Hc _].
    cbn in H. by destruct (well_formed_cut _ H a c (w ++ b) eq_refl (ascii_RuneStart _ Hc)).
  - revert a H Hne. induction Hw as [|c w Hc Hw IH]; intros a H Hne; [done|].
    cbn in H. destruct (well_formed_cut _ H a c (w ++ b) eq_refl (ascii_RuneStart _ Hc)) as [_ H2].
    inversion H2 as [|w0 t0 Hf Ht E]; subst.
    destruct (rune_form_cons _ Hf) as (c0 & w0' & -> & _). injection E as -> E.
    assert (c :: w0' = [c]) as [= ->] by (apply rune_form_ascii; [done|by left|done]).
    cbn in E. subst t0. destruct w as [|d w]; [done|]. by apply (IH []).
Qed.
