(* ===== verification/FreeText.v ===== *)
(** * Free-text hygiene: [internal/freetext/sanitize.go], [internal/audit/sanitize.go]

    The token-grammar redaction (with the part of [regexp] it uses), the
    sanitizer every caller-originated string passes through before it reaches
    the audit trail, and the write boundary's re-check. The theorems show the
    sanitizer is idempotent, so the re-check accepts exactly what the sanitizer
    produces, and that its output is bounded, well-formed UTF-8 without control
    characters or token-shaped text. *)

From S2P Require Import Prelude Utf8.
From Stdlib Require Import Ascii.

#[local] Open Scope Z_scope.

(** ** Regular expressions

    The operators the token grammar uses, with Go's leftmost-first matching:
    [rests] lists what is left after each way of matching a prefix, in order
    of preference (alternatives left to right, repetition greedy). *)
Inductive regex :=
  | RChar (p : ascii -> bool)
  | REmpty
  | RCat (r1 r2 : regex)
  | RAlt (r1 r2 : regex)
  | ROpt (n : nat) (p : ascii -> bool)   (* p{0,n} *)
  | RStar (p : ascii -> bool).           (* p* *)

Fixpoint rests_opt (n : nat) (p : ascii -> bool) (s : bytes) : list bytes :=
  match n, s with
  | S n', c :: s' => if p c then rests_opt n' p s' ++ [s] else [s]
  | _, _ => [s]
  end.

Fixpoint rests_star (p : ascii -> bool) (s : bytes) : list bytes :=
  match s with
  | c :: s' => if p c then rests_star p s' ++ [s] else [s]
  | [] => [s]
  end.

Fixpoint rests (r : regex) (s : bytes) : list bytes :=
  match r with
  | RChar p => match s with c :: s' => if p c then [s'] else [] | [] => [] end
  | REmpty => [s]
  | RCat r1 r2 => concat (map (rests r2) (rests r1 s))
  | RAlt r1 r2 => rests r1 s ++ rests r2 s
  | ROpt n p => rests_opt n p s
  | RStar p => rests_star p s
  end.

(** The preferred match at the start of [s]: its length. *)
Definition match_here (r : regex) (s : bytes) : option nat :=
  match rests r s with
  | [] => None
  | t :: _ => Some (length s - length t)%nat
  end.

(** [ReplaceAllString] for an expression that matches no empty string: from
    left to right, each preferred match becomes one copy of the replacement.
    [skip] counts the bytes of the current match still to be passed over. *)
Fixpoint replace_go (r : regex) (repl : bytes) (skip : nat) (s : bytes) : bytes :=
  match s with
  | [] => []
  | c :: s' =>
      match skip with
      | S k => replace_go r repl k s'
      | O => match match_here r s with
             | Some (S k) => repl ++ replace_go r repl k s'
             | _ => c :: replace_go r repl 0 s'
             end
      end
  end.

Definition ReplaceAll (r : regex) (repl s : bytes) : bytes := replace_go r repl 0 s.

(** ** The token grammar *)
Definition base62 (c : ascii) : bool :=
  in_range 48 57 c || in_range 65 90 c || in_range 97 122 c.
Definition lower (c : ascii) : bool := in_range 97 122 c.

Definition lit (c : ascii) : regex := RChar (Ascii.eqb c).

Definition lits (s : string) : regex :=
  foldr (fun c r => RCat (lit c) r) REmpty (String.list_ascii_of_string s).

(** [p{lo,hi}] and [p{lo,}]. *)
Definition times (lo : nat) (p : ascii -> bool) (r : regex) : regex :=
  Nat.iter lo (fun r => RCat (RChar p) r) r.
Definition between (lo hi : nat) (p : ascii -> bool) : regex := times lo p (ROpt (hi - lo) p).
Definition at_least (lo : nat) (p : ascii -> bool) : regex := times lo p (RStar p).

Definition tokenGrammarRe : regex :=
  RCat (RAlt (lits "hik") (lits "ew"))
    (RCat (lits "_") (RCat (between 1 8 base62)
      (RCat (lits "_") (RCat (between 2 8 lower)
        (RCat (lits "_") (at_least 16 base62)))))).

(** ** The sanitizer *)
Definition FreeTextBound : Z := 1024.
Definition RedactionMarker : string := "[REDACTED:hikyo-token]".

Definition redactBytes (s : bytes) : bytes :=
  ReplaceAll tokenGrammarRe (String.list_ascii_of_string RedactionMarker) s.

Definition RedactTokens (s : string) : string :=
  String.string_of_list_ascii (redactBytes (String.list_ascii_of_string s)).

(** U+FFFD. *)
Definition replacementChar : bytes := [chr 239; chr 191; chr 189].

Definition isControl (r : Z) : bool := (r <? 32) || (r =? 127).

(** The truncation loop: [cut] steps back while the byte at [cut] is not the
    start of a rune. *)
Fixpoint cutBack (s : bytes) (cut : nat) : nat :=
  match cut with
  | O => O
  | S k => match s !! cut with
           | Some c => if negb (RuneStart c) then cutBack s k else cut
           | None => cut
           end
  end.

Definition truncateBytes (s : bytes) : bytes :=
  if FreeTextBound <? Z.of_nat (length s) then take (cutBack s (Z.to_nat FreeTextBound)) s else s.

Definition sanitizeBytes (s : bytes) : bytes :=
  let s := ToValidUTF8 s replacementChar in
  let s := strings_Map (fun r => if isControl r then -1 else r) s in
  let s := redactBytes s in
  truncateBytes s.

Definition SanitizeFreeText (s : string) : string :=
  String.string_of_list_ascii (sanitizeBytes (String.list_ascii_of_string s)).

Definition checkSanitized (s : string) : result unit :=
  if s <>s SanitizeFreeText s then
    Err (ENew "free-text value was not sanitized before the write boundary")
  else Ok ().

Example redact_active_token :
  RedactTokens "a hik_1_pat_0123456789abcdef! b" = "a [REDACTED:hikyo-token]! b".
Proof. vm_compute. reflexivity. Qed.

Example redact_short_body : RedactTokens "ew_1_pat_0123456789abcde" = "ew_1_pat_0123456789abcde".
Proof. vm_compute. reflexivity. Qed.

(** ** What a match is *)
Inductive matches : regex -> bytes -> Prop :=
  | m_char (p : ascii -> bool) c : p c = true -> matches (RChar p) [c]
  | m_empty : matches REmpty []
  | m_cat r1 r2 w1 w2 : matches r1 w1 -> matches r2 w2 -> matches (RCat r1 r2) (w1 ++ w2)
  | m_altl r1 r2 w : matches r1 w -> matches (RAlt r1 r2) w
  | m_altr r1 r2 w : matches r2 w -> matches (RAlt r1 r2) w
  | m_opt n (p : ascii -> bool) w :
      (length w <= n)%nat -> Forall (fun c => p c = true) w -> matches (ROpt n p) w
  | m_star (p : ascii -> bool) w : Forall (fun c => p c = true) w -> matches (RStar p) w.

Lemma rests_opt_spec (p : ascii -> bool) t : forall n s,
  In t (rests_opt n p s) <->
  exists w, s = w ++ t /\ (length w <= n)%nat /\ Forall (fun c => p c = true) w.
Proof.
  assert (forall n (s : bytes), In t [s] -> exists w, s = w ++ t /\ (length w <= n)%nat /\
    Forall (fun c => p c = true) w) as Hhere.
  { intros n s [->|[]]. exists []. cbn. split; [done|]. split; [lia|constructor]. }
  induction n as [|n IH]; intros s; cbn.
  - split; [apply (Hhere 0%nat)|]. intros (w & -> & Hl & _). destruct w; [by left|cbn in Hl; lia].
  - destruct s as [|c s].
    + split; [apply Hhere|]. intros (w & E & _). symmetry in E. apply app_eq_nil in E as [_ ->]. by left.
    + destruct (p c) eqn:Hp; [rewrite in_app_iff, IH|]; split.
      * intros [(w & -> & Hl & Hf)|Hin]; [|by apply Hhere].
        exists (c :: w). cbn. split; [done|]. split; [lia|by constructor].
      * intros (w & E & Hl & Hf). destruct w as [|c' w]; [right; by left|left].
        cbn in *. injection E as <- ->. inversion Hf; subst. exists w. split; [done|]. split; [lia|done].
      * apply Hhere.
      * intros (w & E & Hl & Hf). destruct w as [|c' w]; [by left|].
        cbn in *. injection E as <- ->. inversion Hf; subst. congruence.
Qed.

Lemma rests_star_opt p s : rests_star p s = rests_opt (length s) p s.
Proof. induction s as [|c s IH]; cbn; [done|]. by rewrite IH. Qed.

(** [rests] finds exactly the matching prefixes. *)
Lemma rests_spec r : forall s t, In t (rests r s) <-> exists w, s = w ++ t /\ matches r w.
Proof.
  induction r as [p| |r1 IH1 r2 IH2|r1 IH1 r2 IH2|n p|p]; intros s t; cbn.
  - split.
    + destruct s as [|c s]; [done|]. destruct (p c) eqn:Hp; [|done]. intros [<-|[]].
      exists [c]. split; [done|by constructor].
    + intros (w & -> & Hm). inversion Hm; subst. cbn. rewrite H0. by left.
  - split; [intros [->|[]]; exists []; split; [done|constructor]|].
    intros (w & -> & Hm). inversion Hm; subst. by left.
  - rewrite in_concat. split.
    + intros (l & Hl & Ht). apply in_map_iff in Hl as (m & <- & Hm).
      apply IH1 in Hm as (w1 & -> & H1). apply IH2 in Ht as (w2 & -> & H2).
      exists (w1 ++ w2). rewrite app_assoc. split; [done|by constructor].
    + intros (w & -> & Hm). inversion Hm; subst. exists (rests r2 (w2 ++ t)). split.
      * apply in_map. apply IH1. exists w1. by rewrite app_assoc.
      * apply IH2. eauto.
  - rewrite in_app_iff, IH1, IH2. split.
    + intros [(w & -> & Hm)|(w & -> & Hm)]; exists w; split; try done; by constructor.
    + intros (w & -> & Hm). inversion Hm; subst; [left|right]; eauto.
  - rewrite rests_opt_spec. split; intros (w & -> & H); exists w; (split; [done|]).
    + destruct H. by constructor.
    + by inversion H; subst.
  - rewrite rests_star_opt, rests_opt_spec. split; intros (w & -> & H); exists w; (split; [done|]).
    + destruct H. by constructor.
    + inversion H; subst. split; [|done]. rewrite length_app. lia.
Qed.

Lemma match_here_None r s : match_here r s = None -> forall w t, s = w ++ t -> ~ matches r w.
Proof.
  unfold match_here. destruct (rests r s) as [|u l] eqn:E; [|done]. intros _ w t -> Hm.
  assert (In t (rests r (w ++ t))) as Hin by (apply rests_spec; eauto). by rewrite E in Hin.
Qed.

Lemma match_here_Some r s k :
  match_here r s = Some k -> exists w t, s = w ++ t /\ length w = k /\ matches r w.
Proof.
  unfold match_here. destruct (rests r s) as [|u l] eqn:E; [done|]. intros [= <-].
  assert (In u (rests r s)) as (w & -> & Hm)%rests_spec by (rewrite E; by left).
  exists w, u. rewrite length_app. split; [done|]. split; [lia|done].
Qed.

(** No part of the text matches. *)
Definition clean (r : regex) (s : bytes) : Prop :=
  forall a w b, s = a ++ w ++ b -> ~ matches r w.

Fixpoint cleanb (r : regex) (s : bytes) : bool :=
  match match_here r s with
  | Some _ => false
  | None => match s with [] => true | _ :: s' => cleanb r s' end
  end.

Lemma cleanb_clean r s : cleanb r s = true -> clean r s.
Proof.
  induction s as [|c s IH]; cbn; destruct (match_here r _) eqn:E; try done; intros H [|x a] w b Es.
  - by apply (match_here_None _ _ E w b).
  - done.
  - by apply (match_here_None _ _ E w b).
  - injection Es as -> ->. by apply (IH H a w b).
Qed.

Lemma clean_prefix r s t : clean r (s ++ t) -> clean r s.
Proof. intros H a w b ->. apply (H a w (b ++ t)). by rewrite <- !app_assoc. Qed.

(** ** Replacement *)

Lemma replace_skip r repl w t : replace_go r repl (length w) (w ++ t) = replace_go r repl 0 t.
Proof. induction w; cbn; [by destruct t|done]. Qed.

(** Induction along a replacement: each step copies a byte where nothing
    matches, or replaces a match. *)
Lemma replace_ind r repl (P : bytes -> bytes -> Prop) :
  (forall w, matches r w -> w <> []) ->
  P [] [] ->
  (forall c s out, (forall w t, c :: s = w ++ t -> ~ matches r w) -> P s out -> P (c :: s) (c :: out)) ->
  (forall w t out, w <> [] -> matches r w -> P t out -> P (w ++ t) (repl ++ out)) ->
  forall s, P s (ReplaceAll r repl s).
Proof.
  intros Hne H0 Hcopy Hrepl s. unfold ReplaceAll.
  induction s as [s IH] using (induction_ltof1 _ (@length ascii)). unfold ltof in IH.
  destruct s as [|c s]; [done|]. cbn. destruct (match_here r (c :: s)) as [[|k]|] eqn:E.
  - apply match_here_Some in E as (w & t & _ & Hl & Hm). exfalso.
    destruct w; [by apply (Hne [] Hm)|discriminate].
  - apply match_here_Some in E as (w & t & Es & Hl & Hm).
    destruct w as [|c' w]; [discriminate|]. cbn in *. injection Es as <- ->. injection Hl as <-.
    rewrite replace_skip. apply (Hrepl (c :: w)); [done|done|]. apply IH. cbn. rewrite length_app. lia.
  - apply Hcopy; [by apply match_here_None|]. apply IH. cbn. lia.
Qed.

Section Alphabet.
Variable word : ascii -> bool.

Fixpoint over (r : regex) : Prop :=
  match r with
  | RChar p | ROpt _ p | RStar p => forall c, p c = true -> word c = true
  | REmpty => True
  | RCat r1 r2 | RAlt r1 r2 => over r1 /\ over r2
  end.

Lemma matches_over r w : matches r w -> over r -> Forall (fun c => word c = true) w.
Proof.
  induction 1 as [p c Hp| |r1 r2 w1 w2 _ IH1 _ IH2|r1 r2 w _ IH|r1 r2 w _ IH|n p w _ Hf|p w Hf];
    cbn; intros Ho.
  - constructor; [by apply Ho|constructor].
  - constructor.
  - apply Forall_app. destruct Ho. auto.
  - destruct Ho. auto.
  - destruct Ho. auto.
  - by eapply Forall_impl.
  - by eapply Forall_impl.
Qed.

Fixpoint nonnull (r : regex) : bool :=
  match r with
  | RChar _ => true
  | REmpty | ROpt _ _ | RStar _ => false
  | RCat r1 r2 => nonnull r1 || nonnull r2
  | RAlt r1 r2 => nonnull r1 && nonnull r2
  end.

Lemma matches_nonnull r w : matches r w -> nonnull r = true -> w <> [].
Proof.
  induction 1; cbn; intros Hn; try done.
  - intros E. apply app_eq_nil in E as [-> ->].
    apply orb_true_iff in Hn as [Hn|Hn]; [by apply IHmatches1|by apply IHmatches2].
  - bools. auto.
  - bools. auto.
Qed.

(** A replacement fenced by non-word characters, itself without a match,
    leaves nothing that matches. *)
Variables (r : regex) (x y : ascii) (mid : bytes).
Let repl := x :: mid ++ [y].
Hypothesis r_over : over r.
Hypothesis r_nonnull : nonnull r = true.
Hypothesis x_fence : word x = false.
Hypothesis y_fence : word y = false.
Hypothesis repl_clean : clean r repl.

Lemma fenced_match a w b out :
  matches r w -> repl ++ out = a ++ w ++ b -> exists a', a = repl ++ a' /\ out = a' ++ w ++ b.
Proof.
  intros Hm E. pose proof (matches_over _ _ Hm r_over) as Hw.
  destruct (app_eq_split _ _ _ _ (eq_sym E)) as [(a' & -> & Eo)|(u & Er & Eb & Hu)]; [eauto|].
  exfalso. destruct (app_eq_split _ _ _ _ Eb) as [(w' & -> & ->)|(u' & -> & -> & Hne)].
  - destruct (exists_last Hu) as (v & z & ->). unfold repl in Er.
    rewrite app_comm_cons, app_assoc in Er. apply app_inj_tail in Er as [_ <-].
    apply Forall_app in Hw as [Hv _]. apply Forall_app in Hv as [_ Hv]. inversion Hv; subst. congruence.
  - apply (repl_clean a w u'); [|done]. exact Er.
Qed.

Lemma ReplaceAll_clean s : clean r (ReplaceAll r repl s).
Proof.
  intros a w b E Hm.
  cut ((forall a, ReplaceAll r repl s = a ++ w ++ b -> False) /\
    forall w b, ReplaceAll r repl s = w ++ b -> Forall (fun c => word c = true) w ->
      exists b', s = w ++ b'); [intros [H _]; exact (H a E)|]. clear a E.
  apply (replace_ind r repl (fun s out => (forall a, out = a ++ w ++ b -> False) /\
    forall w b, out = w ++ b -> Forall (fun c => word c = true) w -> exists b', s = w ++ b')).
  - intros w' Hm'. by apply (matches_nonnull r).
  - split.
    + intros a E. symmetry in E. apply app_eq_nil in E as [_ E]. apply app_eq_nil in E as [-> _].
      by apply (matches_nonnull r [] Hm).
    + intros w' b' E _. symmetry in E. apply app_eq_nil in E as [-> _]. by exists [].
  - intros c s' out Hno [IH1 IH2].
    assert (forall w b, c :: out = w ++ b -> Forall (fun c => word c = true) w ->
      exists b', c :: s' = w ++ b') as Hp.
    { intros [|c' w'] b' E Hw; [by eexists|]. cbn in E. injection E as <- E.
      inversion Hw; subst. destruct (IH2 w' b' eq_refl) as [b'' ->]; [done|]. by exists b''. }
    split; [|exact Hp]. intros [|c' a] E.
    + destruct (Hp w b E) as [b' Eb]; [by eapply matches_over|]. by apply (Hno w b').
    + injection E as <- E. by apply (IH1 a).
  - intros w0 t out _ _ [IH1 _]. split.
    + intros a E. apply fenced_match in E as (a' & _ & Eo); [|done]. by apply (IH1 a').
    + intros [|c' w'] b' E Hw; [by eexists|]. cbn in E. injection E as <- _.
      inversion Hw; subst. congruence.
Qed.
End Alphabet.

(** ** The sanitizer's output *)
Definition wordChar (c : ascii) : bool := base62 c || (Ascii.eqb "_" c)%char.

#[local] Arguments Ascii.eqb : simpl never.

Lemma tokenGrammar_over : over wordChar tokenGrammarRe.
Proof.
  assert (forall c, base62 c = true -> wordChar c = true) as Hb
    by (intros c H; unfold wordChar; by rewrite H).
  assert (forall c, lower c = true -> wordChar c = true) as Hl.
  { intros c H. apply Hb. unfold base62, lower in *. by rewrite H, orb_true_r. }
  cbn. repeat split; try assumption; intros c H; apply Ascii.eqb_eq in H; subst c; reflexivity.
Qed.

Lemma wordChar_ascii c : wordChar c = true -> ord c < 128.
Proof.
  unfold wordChar, base62. intros H. apply orb_true_iff in H as [H|H].
  - unfold in_range in H. lia.
  - apply Ascii.eqb_eq in H. subst c. done.
Qed.

Lemma tokenGrammar_nonempty w : matches tokenGrammarRe w -> w <> [].
Proof. intros H. exact (matches_nonnull _ _ H eq_refl). Qed.

Definition markerBytes : bytes := String.list_ascii_of_string RedactionMarker.

Lemma marker_clean : clean tokenGrammarRe markerBytes.
Proof. apply cleanb_clean. vm_compute. reflexivity. Qed.

Lemma redactBytes_clean s : clean tokenGrammarRe (redactBytes s).
Proof.
  apply (ReplaceAll_clean wordChar tokenGrammarRe "[" "]"
    (String.list_ascii_of_string "REDACTED:hikyo-token"));
    [apply tokenGrammar_over|reflexivity|reflexivity|reflexivity|exact marker_clean].
Qed.

Lemma redactBytes_id s : clean tokenGrammarRe s -> redactBytes s = s.
Proof.
  intros H. unfold redactBytes, ReplaceAll. induction s as [|c s IH]; [done|]. cbn [replace_go].
  destruct (match_here tokenGrammarRe (c :: s)) as [[|k]|] eqn:E.
  - f_equal. apply IH. intros a w b ->. by apply (H (c :: a) w b).
  - apply match_here_Some in E as (w & t & Es & _ & Hm). exfalso. by apply (H [] w t).
  - f_equal. apply IH. intros a w b ->. by apply (H (c :: a) w b).
Qed.

Definition noControl (s : bytes) : Prop := Forall (fun c => isControl (ord c) = false) s.

Lemma marker_noControl : noControl markerBytes.
Proof. unfold noControl. vm_compute. repeat constructor. Qed.

Lemma marker_well_formed : well_formed markerBytes.
Proof. apply well_formed_ascii. vm_compute. repeat constructor. Qed.

Lemma redactBytes_noControl s : noControl s -> noControl (redactBytes s).
Proof.
  apply (replace_ind tokenGrammarRe markerBytes (fun s out => noControl s -> noControl out)).
  - apply tokenGrammar_nonempty.
  - done.
  - intros c s' out _ IH H. inversion H; subst. constructor; [done|by apply IH].
  - intros w t out _ _ IH H. apply Forall_app in H as [_ H]. apply Forall_app.
    split; [apply marker_noControl|by apply IH].
Qed.

Lemma redactBytes_well_formed s : well_formed s -> well_formed (redactBytes s).
Proof.
  change s with ([] ++ s) at 1. change (redactBytes s) with ([] ++ redactBytes s).
  generalize (@nil ascii).
  apply (replace_ind tokenGrammarRe markerBytes
    (fun s out => forall p, well_formed (p ++ s) -> well_formed (p ++ out))).
  - apply tokenGrammar_nonempty.
  - done.
  - intros c s' out _ IH p H. specialize (IH (p ++ [c])). rewrite <- !app_assoc in IH. by apply IH.
  - intros w t out Hne Hm IH p H.
    apply well_formed_around in H as [Hp Ht]; [|done|].
    + apply well_formed_app; [done|]. apply well_formed_app; [apply marker_well_formed|].
      by apply (IH []).
    + eapply Forall_impl; [apply (matches_over wordChar _ _ Hm tokenGrammar_over)|].
      apply wordChar_ascii.
Qed.

(** The truncation stops at zero, past the end, or before a rune. *)
Lemma cutBack_spec s n :
  (cutBack s n <= n)%nat /\
  (cutBack s n = O \/ s !! cutBack s n = None \/
   exists c, s !! cutBack s n = Some c /\ RuneStart c = true).
Proof.
  induction n as [|n [IH1 IH2]]; [cbn; auto|]. cbn [cutBack].
  destruct (s !! S n) as [c|] eqn:E; [|split; [lia|right; by left]].
  destruct (RuneStart c) eqn:Hc; cbn; [split; [lia|right; right; eauto]|].
  split; [lia|done].
Qed.

Lemma truncateBytes_prefix s : exists t, s = truncateBytes s ++ t.
Proof.
  unfold truncateBytes. destruct (_ <? _); [|exists []; by rewrite app_nil_r].
  exists (drop (cutBack s (Z.to_nat FreeTextBound)) s). by rewrite take_drop.
Qed.

Lemma truncateBytes_bound s : Z.of_nat (length (truncateBytes s)) <= FreeTextBound.
Proof.
  unfold truncateBytes. destruct (Z.ltb_spec FreeTextBound (Z.of_nat (length s))); [|done].
  rewrite length_take. pose proof (cutBack_spec s (Z.to_nat FreeTextBound)) as [Hle _].
  unfold FreeTextBound in *. lia.
Qed.

Lemma truncateBytes_id s : Z.of_nat (length s) <= FreeTextBound -> truncateBytes s = s.
Proof. intros H. unfold truncateBytes. by replace (_ <? _) with false by lia. Qed.

Lemma truncateBytes_well_formed s : well_formed s -> well_formed (truncateBytes s).
Proof.
  intros H. unfold truncateBytes. destruct (Z.ltb_spec FreeTextBound (Z.of_nat (length s))); [|done].
  set (k := cutBack s _). destruct (cutBack_spec s (Z.to_nat FreeTextBound)) as [Hle Hc]. fold k in Hle, Hc.
  destruct Hc as [->|[Hn|(c & Hk & Hr)]].
  - constructor.
  - apply lookup_ge_None in Hn. unfold FreeTextBound in *. lia.
  - apply (well_formed_cut s H (take k s) c (drop (S k) s)); [|done].
    by rewrite take_drop_middle.
Qed.

(** What the trail may store. *)
Record Sanitized (s : bytes) : Prop := {
  san_bound : Z.of_nat (length s) <= FreeTextBound;
  san_utf8 : well_formed s;
  san_control : noControl s;
  san_tokens : clean tokenGrammarRe s }.

Lemma isControl_ascii r : isControl r = true -> r < 128.
Proof. unfold isControl. lia. Qed.

Lemma dropControl_filter s : well_formed s ->
  strings_Map (fun r => if isControl r then -1 else r) s =
  List.filter (fun c => negb (isControl (ord c))) s.
Proof.
  apply (strings_Map_filter isControl). apply isControl_ascii.
Qed.

Lemma sanitizeBytes_Sanitized s : Sanitized (sanitizeBytes s).
Proof.
  unfold sanitizeBytes. cbv zeta.
  assert (well_formed replacementChar) as Hrep.
  { change replacementChar with (replacementChar ++ []). constructor; [|constructor].
    apply rf3; vm_compute; intuition discriminate. }
  pose proof (ToValidUTF8_well_formed s replacementChar Hrep) as H1.
  set (s1 := ToValidUTF8 s replacementChar) in *. clearbody s1.
  assert (noControl (strings_Map (fun r => if isControl r then -1 else r) s1)) as H2c.
  { rewrite dropControl_filter by done. apply Forall_forall. intros c Hc.
    apply list_elem_of_In, filter_In in Hc as [_ Hc]. by bools. }
  pose proof (strings_Map_well_formed isControl s1 H1) as H2. cbn in H2.
  set (s2 := strings_Map _ s1) in *. clearbody s2.
  pose proof (redactBytes_well_formed s2 H2) as H3. pose proof (redactBytes_noControl s2 H2c) as H3c.
  pose proof (redactBytes_clean s2) as H3k. set (s3 := redactBytes s2) in *. clearbody s3.
  destruct (truncateBytes_prefix s3) as [t Et].
  constructor.
  - apply truncateBytes_bound.
  - by apply truncateBytes_well_formed.
  - rewrite Et in H3c. by apply Forall_app in H3c as [? _].
  - rewrite Et in H3k. by apply clean_prefix in H3k.
Qed.

Lemma sanitizeBytes_id s : Sanitized s -> sanitizeBytes s = s.
Proof.
  intros [Hb Hu Hc Hk]. unfold sanitizeBytes. rewrite ToValidUTF8_id by done.
  rewrite dropControl_filter by done. rewrite List.forallb_filter_id.
  - rewrite redactBytes_id by done. by apply truncateBytes_id.
  - apply forallb_forall. intros c Hin. unfold noControl in Hc. rewrite Forall_forall in Hc.
    rewrite Hc; [done|by apply list_elem_of_In].
Qed.

Lemma sanitized_storable s : Sanitized (String.list_ascii_of_string (SanitizeFreeText s)).
Proof.
  unfold SanitizeFreeText. rewrite String.list_ascii_of_string_of_list_ascii. apply sanitizeBytes_Sanitized.
Qed.

Lemma checkSanitized_spec s :
  checkSanitized s = Ok () <-> Sanitized (String.list_ascii_of_string s).
Proof.
  unfold checkSanitized, SanitizeFreeText. split.
  - destruct (String.eqb_spec s (String.string_of_list_ascii
      (sanitizeBytes (String.list_ascii_of_string s)))) as [E|]; [|done].
    intros _. rewrite E, String.list_ascii_of_string_of_list_ascii. apply sanitizeBytes_Sanitized.
  - intros H. rewrite sanitizeBytes_id by done.
    by rewrite String.string_of_list_ascii_of_string, String.eqb_refl.
Qed.

(** The sanitizer's output is always storable: at most [FreeTextBound]
    bytes, well-formed UTF-8, without control characters and with no substring
    matching the token grammar, whatever bytes came in. *)
Theorem SanitizeFreeText_storable (s : string) :
  Sanitized (String.list_ascii_of_string (SanitizeFreeText s)).
Proof.
  unfold SanitizeFreeText. rewrite String.list_ascii_of_string_of_list_ascii.
  apply sanitizeBytes_Sanitized.
Qed.

(** The write boundary's re-check accepts exactly the storable strings; in
    particular it accepts everything the sanitizer produced, so an emitter that
    sanitized at capture is never refused at the boundary. *)
Theorem checkSanitized_exact (s : string) :
  (checkSanitized s = Ok () <-> Sanitized (String.list_ascii_of_string s)) /\
  checkSanitized (SanitizeFreeText s) = Ok ().
Proof.
  split; [apply checkSanitized_spec|]. apply checkSanitized_spec.
  unfold SanitizeFreeText. rewrite String.list_ascii_of_string_of_list_ascii.
  apply sanitizeBytes_Sanitized.
Qed.

#[global] Opaque SanitizeFreeText.
