(* ===== verification/AuditEvent.v ===== *)
(** * The audit envelope: [internal/audit/{audit,schema,row}.go], [internal/store/auditrow]

    The event envelope, payload validation against the closed catalogue, the
    storage row, the request's wire metadata, and the server-side resolution of
    the actor class. The theorems state what an accepted event guarantees. *)

From S2P Require Import Prelude Domain EventNames AuditTable Utf8 FreeText.
From Stdlib Require Import Ascii.

#[local] Open Scope Z_scope.

(** ** Envelope *)
Abbreviation ActorClass := string (only parsing).
Definition ActorHuman : ActorClass := "human".
Definition ActorMachine : ActorClass := "machine".
Definition ActorSystem : ActorClass := "system".
Definition ActorBreakGlass : ActorClass := "break-glass".
Definition ActorUnauthenticated : ActorClass := "unauthenticated".

Abbreviation Origin := string (only parsing).
Definition OriginWeb : Origin := "web".
Definition OriginCLI : Origin := "cli".
Definition OriginAPI : Origin := "api".
Definition OriginMCP : Origin := "mcp".
Definition OriginOperatorFetch : Origin := "operator-fetch".
Definition OriginAdapterJob : Origin := "adapter-job".
Definition OriginOfflineRecon : Origin := "offline-reconciled".
Definition OriginSystem : Origin := "system".

(** [time.Time]: nanoseconds since Go's zero time, in UTC. *)
Abbreviation Time := Z (only parsing).
Definition IsZero (t : Time) : bool := t =? 0.
Definition truncateMicrosecond (t : Time) : Time := t - t mod 1000.

Record Actor := MkActor { actor_ID : string; actor_Class : ActorClass; actor_CredentialID : string }.
Record Object_ := MkObject { obj_Type : string; obj_ID : string }.
Definition emptyObject : Object_ := MkObject "" "".

(** The dynamic values a payload may hold; [VOther] is any other Go type. *)
Inductive value :=
  | VString (s : string)
  | VInt (n : Z)
  | VInt64 (n : Z)
  | VBool (b : bool)
  | VStrings (l : list string)
  | VStringMap (m : list (string * string))
  | VPayload (p : list (string * value))
  | VObject (p : list (string * value))
  | VOther.

(** [Payload] is a Go map, written as the association list of its entries. *)
Abbreviation Payload := (list (string * value)) (only parsing).

Fixpoint payload_get (p : Payload) (name : string) : option value :=
  match p with
  | [] => None
  | (k, v) :: p' => if k =s name then Some v else payload_get p' name
  end.

Record Event := MkEvent {
  ev_ID : string;
  ev_Type : EventType;
  ev_SchemaVersion : Z;
  ev_OccurredAt : Time;
  ev_OccurredAsserted : bool;
  ev_Actor : Actor;
  ev_AuthorityID : string;
  ev_Object : Object_;
  ev_Outcome : Outcome;
  ev_CorrelationID : string;
  ev_SourceIP : string;
  ev_UserAgent : string;
  ev_Origin : Origin;
  ev_Payload : Payload }.

(** ** Payload schemas *)
Definition auditErr {A} (msg : string) : result A := Err (ENew (String.append "audit: " msg)).
Definition fieldErr {A} (msg : string) : result A := Err (ENew msg).

Definition sha256HexLen : Z := 64.
Definition slen (s : string) : Z := Z.of_nat (String.length s).

Definition objectPayload (v : value) : option Payload :=
  match v with
  | VPayload object => Some object
  | VObject object => Some object
  | _ => None
  end.

Definition checkKind (k : FieldKind) (v : value) : result unit :=
  if k =? KindString then
    match v with VString _ => Ok () | _ => fieldErr "want string" end
  else if k =? KindFreeText then
    match v with VString s => checkSanitized s | _ => fieldErr "want string" end
  else if k =? KindInt then
    match v with VInt _ | VInt64 _ => Ok () | _ => fieldErr "want int" end
  else if k =? KindBool then
    match v with VBool _ => Ok () | _ => fieldErr "want bool" end
  else if k =? KindStringList then
    match v with VStrings _ => Ok () | _ => fieldErr "want []string" end
  else if k =? KindFreeTextMap then
    match v with VStringMap _ => Ok () | _ => fieldErr "want map[string]string" end
  else if k =? KindObject then fieldErr "object kind requires a nested schema"
  else fieldErr "unknown field kind".

Definition checkInt (spec : FieldSpec) (n : Z) : result unit :=
  if NonNegative spec && (n <? 0) then fieldErr "value is negative"
  else if negb (AtLeast spec =? 0) && (n <? AtLeast spec) then fieldErr "value is below the bound"
  else Ok ().

Definition hexDigit (c : ascii) : bool := in_range 48 57 c || in_range 97 102 c.

Fixpoint checkAll {A} (f : A -> result unit) (l : list A) : result unit :=
  match l with
  | [] => Ok ()
  | x :: l' => _ ← f x; checkAll f l'
  end.

(** The type switch of [checkConstraints]. *)
Definition checkTyped (spec : FieldSpec) (v : value) : result unit :=
  match v with
  | VString t =>
      _ ← (if Digest spec then
             if negb (slen t =? sha256HexLen) then fieldErr "digest length"
             else if negb (forallb hexDigit (String.list_ascii_of_string t)) then
               fieldErr "digest is not lowercase hex"
             else Ok ()
           else Ok ());
      if (0 <? MaxBytes spec) && (MaxBytes spec <? slen t) then fieldErr "value exceeds its bytes"
      else Ok ()
  | VInt t => checkInt spec t
  | VInt64 t => checkInt spec t
  | VStringMap t =>
      if (0 <? MaxLen spec) && (MaxLen spec <? Z.of_nat (length t)) then fieldErr "map exceeds its entries"
      else checkAll (fun kv =>
        _ ← checkSanitized kv.1;
        _ ← checkSanitized kv.2;
        if (64 <? slen kv.1) || ((0 <? MaxBytes spec) && (MaxBytes spec <? slen kv.2)) then
          fieldErr "map entry exceeds its byte bound"
        else Ok ()) t
  | VStrings t =>
      if (0 <? MaxLen spec) && (MaxLen spec <? Z.of_nat (length t)) then fieldErr "list bound"
      else checkAll (fun entry =>
        if (0 <? MaxBytes spec) && (MaxBytes spec <? slen entry) then fieldErr "list entry exceeds bytes"
        else checkSanitized entry) t
  | VBool _ | VPayload _ | VObject _ | VOther => Ok ()
  end.

Definition checkConstraints (spec : FieldSpec) (v : value) : result unit :=
  let s := match v with VString s => s | _ => "" end in
  if (0 <? Z.of_nat (length (Enum spec))) && negb (contains (Enum spec) s) then
    fieldErr "value is outside the closed set"
  else checkTyped spec v.

(** [Schema.validate]: no unregistered field, no missing required field, and
    each present field passes [vf]. *)
Definition validateWith (vf : FieldSpec -> value -> result unit) : Schema -> Payload -> result unit :=
  fun s p =>
    if existsb (fun kv => match field s kv.1 with Some _ => false | None => true end) p then
      auditErr "payload field is not in the registered schema"
    else
      (fix go (l : Schema) : result unit :=
         match l with
         | [] => Ok ()
         | (name, spec) :: l' =>
             _ ← match payload_get p name with
                 | None => if Required spec then auditErr "payload missing required field" else Ok ()
                 | Some v => vf spec v
                 end;
             go l'
         end) s.

Fixpoint validateField (spec : FieldSpec) (v : value) : result unit :=
  match spec with
  | MkFieldSpec k _ objectSchema _ _ _ _ _ _ =>
      if k =? KindObject then
        match objectPayload v with
        | None => auditErr "want object"
        | Some object =>
            match objectSchema with
            | None => auditErr "object schema is missing"
            | Some sch => validateWith validateField sch object
            end
        end
      else
        _ ← checkKind k v;
        checkConstraints spec v
  end.

Definition Schema_validate (s : Schema) (p : Payload) : result unit := validateWith validateField s p.

(** ** The write boundary *)
Definition checkActor (a : Actor) : result unit :=
  let c := actor_Class a in
  if (c =s ActorHuman) || (c =s ActorMachine) then
    if actor_ID a =s "" then auditErr "actor without a principal id" else Ok ()
  else if (c =s ActorSystem) || (c =s ActorBreakGlass) then Ok ()
  else if c =s ActorUnauthenticated then
    if (actor_ID a <>s "") || (actor_CredentialID a <>s "") then
      auditErr "unauthenticated actor with principal or credential id"
    else Ok ()
  else auditErr "unknown actor class".

Definition validOrigins : list Origin := [
  OriginWeb; OriginCLI; OriginAPI; OriginMCP; OriginOperatorFetch; OriginAdapterJob;
  OriginOfflineRecon; OriginSystem].

Definition checkTrailScope (trail : Trail) (scope : Scope) : result unit :=
  if trail =s TrailTenant then
    _ ← Scope_Level scope;
    if Org scope =s "" then auditErr "tenant event without an org chain" else Ok ()
  else if trail =s TrailInstance then
    if negb (scope_eqb scope emptyScope) then auditErr "instance event carries a tenant chain" else Ok ()
  else auditErr "unknown trail".

(** The checks of [Validate] after the catalogue lookup, in order. *)
Definition validateAgainst (spec : TypeSpec) (e : Event) (trail : Trail) (scope : Scope) : result unit :=
  if ev_ID e =s "" then auditErr "event without an id"
  else if negb (ev_SchemaVersion e =? SchemaVersion spec) then auditErr "schema version"
  else if negb (flag (Outcomes spec) (ev_Outcome e)) then auditErr "outcome is not licensed"
  else if negb (flag (Trails spec) trail) then auditErr "not registered for the trail"
  else if IsZero (ev_OccurredAt e) then auditErr "zero occurred_at"
  else
    _ ← checkActor (ev_Actor e);
    if negb (contains validOrigins (ev_Origin e)) then auditErr "unknown origin"
    else
      _ ← checkTrailScope trail scope;
      _ ← checkSanitized (ev_UserAgent e);
      _ ← checkSanitized (ev_SourceIP e);
      Schema_validate (Schema_ spec) (ev_Payload e).

Definition Validate (e : Event) (trail : Trail) (scope : Scope) : result unit :=
  from_option (fun spec => validateAgainst spec e trail scope)
    (auditErr "event type is not in the closed registry") (Spec (ev_Type e)).

Definition ScopeClass (trail : Trail) (s : Scope) : result string :=
  if trail =s TrailInstance then Ok "instance"
  else
    level ← Scope_Level s;
    if level =? LevelOrg then Ok "org"
    else if level =? LevelProject then Ok "project"
    else if level =? LevelEnv then Ok "env"
    else auditErr "tenant event with empty scope".

Definition optional (s : string) : option string := if s =s "" then None else Some s.

(** [Row]; the JSON text of the payload is kept as the value it encodes. *)
Record Row := MkRow {
  row_ID : string; row_Type : string; row_SchemaVersion : Z;
  row_OccurredAt : Time; row_OccurredAsserted : bool; row_RecordedAt : Time;
  row_ActorID : option string; row_ActorClass : string; row_ActorCredentialID : option string;
  row_AuthorityID : option string; row_ScopeClass : string; row_OrgID : string;
  row_ProjectID : option string; row_EnvID : option string;
  row_ObjectType : option string; row_ObjectID : option string;
  row_Outcome : string; row_CorrelationID : option string;
  row_SourceIP : option string; row_UserAgent : option string;
  row_Origin : string; row_Payload : Payload }.

Definition BuildRow (e : Event) (trail : Trail) (scope : Scope) (recordedAt : Time) : result Row :=
  _ ← Validate e trail scope;
  scopeClass ← ScopeClass trail scope;
  Ok {| row_ID := ev_ID e; row_Type := ev_Type e; row_SchemaVersion := ev_SchemaVersion e;
        row_OccurredAt := truncateMicrosecond (ev_OccurredAt e);
        row_OccurredAsserted := ev_OccurredAsserted e;
        row_RecordedAt := truncateMicrosecond recordedAt;
        row_ActorID := optional (actor_ID (ev_Actor e));
        row_ActorClass := actor_Class (ev_Actor e);
        row_ActorCredentialID := optional (actor_CredentialID (ev_Actor e));
        row_AuthorityID := optional (ev_AuthorityID e);
        row_ScopeClass := scopeClass;
        row_OrgID := Org scope;
        row_ProjectID := optional (Project scope);
        row_EnvID := optional (Env scope);
        row_ObjectType := optional (obj_Type (ev_Object e));
        row_ObjectID := optional (obj_ID (ev_Object e));
        row_Outcome := ev_Outcome e;
        row_CorrelationID := optional (ev_CorrelationID e);
        row_SourceIP := optional (ev_SourceIP e);
        row_UserAgent := optional (ev_UserAgent e);
        row_Origin := ev_Origin e;
        row_Payload := ev_Payload e |}.

(** ** Wire metadata *)
Record Context_ := MkContext {
  ctx_SourceIP : string; ctx_UserAgent : string; ctx_Origin : Origin; ctx_RequestOrigin : string }.

(** What [WithContext] attaches, and what [FromContext] reads back ([None] is a
    context nothing was attached to). *)
Definition WithContext (c : Context_) : option Context_ :=
  Some (MkContext (SanitizeFreeText (ctx_SourceIP c)) (SanitizeFreeText (ctx_UserAgent c))
          (ctx_Origin c) (SanitizeFreeText (ctx_RequestOrigin c))).

Definition FromContext (attached : option Context_) : Context_ :=
  match attached with
  | Some c => c
  | None => MkContext "" "" OriginSystem ""
  end.

(** ** Actor resolution: [auditrow.ResolveActorClass] *)
Definition errNoRows : string := "sql.ErrNoRows".
Definition errPgxNoRows : string := "pgx.ErrNoRows".

Definition isNoRows (e : error) : bool := errors_Is e errNoRows || errors_Is e errPgxNoRows.

(** [kindOf] is the lookup of [principals.kind] in the caller's transaction. *)
Definition ResolveActorClass (kindOf : string -> result string) (a : Actor) (allowAsserted : bool)
    : result Actor :=
  let resolve :=
    if actor_ID a =s "" then Ok (MkActor "" ActorUnauthenticated (actor_CredentialID a))
    else match kindOf (actor_ID a) with
    | Ok kind =>
        if kind =s "human" then Ok (MkActor (actor_ID a) ActorHuman (actor_CredentialID a))
        else if kind =s "machine" then Ok (MkActor (actor_ID a) ActorMachine (actor_CredentialID a))
        else Err (ENew "auditrow: principal has unknown kind")
    | Err e =>
        if isNoRows e then Ok (MkActor "" ActorUnauthenticated "")
        else Err (EWrap "auditrow: principal kind lookup" e)
    | Panic m => Panic m
    end in
  let c := actor_Class a in
  if c =s "" then resolve
  else if (c =s ActorSystem) || (c =s ActorBreakGlass) || (c =s ActorUnauthenticated) then
    if negb allowAsserted then Err (ENew "auditrow: actor class asserted under a principal-backed proof")
    else Ok a
  else Err (ENew "auditrow: actor class is resolved from principals.kind").

(** ** What validation guarantees *)

Lemma field_In s name f : field s name = Some f -> In (name, f) s.
Proof.
  induction s as [|[k g] s IH]; cbn; [done|].
  destruct (String.eqb_spec k name) as [->|]; [intros [= ->]; by left|right; auto].
Qed.

Lemma payload_get_In p name v : payload_get p name = Some v -> In (name, v) p.
Proof.
  induction p as [|[k g] p IH]; cbn; [done|].
  destruct (String.eqb_spec k name) as [->|]; [intros [= ->]; by left|right; auto].
Qed.

(** A schema accepts a payload exactly when its fields are known and every
    declared field is absent and optional, or present and valid. *)
Lemma validateWith_spec vf s p :
  validateWith vf s p = Ok () <->
  (forall name v, In (name, v) p -> is_Some (field s name)) /\
  (forall name f, In (name, f) s ->
     match payload_get p name with
     | None => Required f = false
     | Some v => vf f v = Ok ()
     end).
Proof.
  unfold validateWith. split.
  - destruct (existsb _ p) eqn:E; [discriminate|]. intros H. split.
    + intros name v Hin. pose proof (existsb_false _ _ _ E Hin) as Hk. cbn in Hk.
      destruct (field s name); [by eexists|discriminate].
    + clear E. induction s as [|[k g] s IH]; [done|]. apply bind_Ok in H as ([] & H1 & H2).
      intros name f [[= -> ->]|Hin]; [|by apply IH].
      destruct (payload_get p name); [done|]. by destruct (Required f).
  - intros [Hk Hf]. destruct (existsb _ p) eqn:E.
    + apply existsb_exists in E as ([name v] & Hin & Hn). cbn in Hn.
      destruct (Hk name v Hin) as [f Hff]. by rewrite Hff in Hn.
    + clear E Hk. induction s as [|[k g] s IH]; [done|].
      rewrite IH by (intros; apply Hf; by right). pose proof (Hf k g (or_introl eq_refl)) as H.
      destruct (payload_get p k); [by rewrite H|by rewrite H].
Qed.

Lemma validateField_freetext f v :
  validateField f v = Ok () -> Kind f = KindFreeText ->
  exists s, v = VString s /\ Sanitized (String.list_ascii_of_string s).
Proof.
  destruct f as [k ? ? ? ? ? ? ? ?]; cbn. intros H ->. cbn in H.
  apply bind_Ok in H as ([] & H & _). destruct v; try discriminate. apply checkSanitized_spec in H. eauto.
Qed.

Lemma validateField_enum f v :
  validateField f v = Ok () -> Kind f = KindString -> Enum f <> [] ->
  exists s, v = VString s /\ In s (Enum f).
Proof.
  destruct f as [k ? ? en ? ? ? ? ?]; cbn. intros H ->. cbn in H.
  apply bind_Ok in H as ([] & H & Hc). destruct v; try discriminate. intros Hne.
  exists s. split; [done|]. destruct (contains en s) eqn:E; [by apply contains_In|].
  unfold checkConstraints in Hc. cbn [Enum] in Hc. rewrite E in Hc. by destruct en.
Qed.

Lemma validateField_digest f v :
  validateField f v = Ok () -> Kind f = KindString -> Digest f = true ->
  exists s, v = VString s /\ slen s = 64 /\ forallb hexDigit (String.list_ascii_of_string s) = true.
Proof.
  destruct f as [k ? ? en ? ? ? ? dg]; cbn. intros H ->. cbn in H.
  apply bind_Ok in H as ([] & H & Hc). destruct v; try discriminate. intros ->.
  unfold checkConstraints in Hc. destruct (_ && _)%bool in Hc; [discriminate|]. cbn [checkTyped Digest] in Hc.
  apply bind_Ok in Hc as ([] & Hc & _). exists s. split; [done|].
  destruct (Z.eqb_spec (slen s) sha256HexLen); [|discriminate]. cbn in Hc.
  destruct (forallb hexDigit _); [done|discriminate].
Qed.

Lemma checkTrailScope_spec trail scope :
  checkTrailScope trail scope = Ok () <->
  (trail = TrailTenant /\ is_ok (Scope_Level scope) = true /\ Org scope <> "") \/
  (trail = TrailInstance /\ scope = emptyScope).
Proof.
  unfold checkTrailScope. destruct (String.eqb_spec trail TrailTenant) as [->|Hn].
  - rewrite bind_Ok. destruct (Scope_Level scope); cbn; [|split; [naive_solver|intros [(?&?&?)|[? ?]]; discriminate]..].
    destruct (String.eqb_spec (Org scope) "") as [E|E]; naive_solver.
  - destruct (String.eqb_spec trail TrailInstance) as [->|Hn2]; [|split; [done|naive_solver]].
    destruct (scope_eqb scope emptyScope) eqn:E; cbn.
    + apply scope_eqb_eq in E. naive_solver.
    + split; [done|]. intros [[? _]|[_ ->]]; [discriminate|]. by rewrite scope_eqb_refl in E.
Qed.

(** What the trail can rely on in a stored event of a given type. *)
Record Recordable (spec : TypeSpec) (e : Event) (trail : Trail) (scope : Scope) : Prop := {
  rec_outcome : flag (Outcomes spec) (ev_Outcome e) = true;
  rec_trail : flag (Trails spec) trail = true;
  rec_scope :
    (trail = TrailTenant /\ is_ok (Scope_Level scope) = true /\ Org scope <> "") \/
    (trail = TrailInstance /\ scope = emptyScope);
  rec_envelope : Sanitized (String.list_ascii_of_string (ev_UserAgent e)) /\
    Sanitized (String.list_ascii_of_string (ev_SourceIP e));
  rec_fields : forall name v, payload_get (ev_Payload e) name = Some v ->
    exists f, field (Schema_ spec) name = Some f /\
      (Kind f = KindFreeText -> exists s, v = VString s /\ Sanitized (String.list_ascii_of_string s)) /\
      (Kind f = KindString -> Enum f <> [] -> exists s, v = VString s /\ In s (Enum f)) /\
      (Kind f = KindString -> Digest f = true -> exists s, v = VString s /\ slen s = 64 /\
         forallb hexDigit (String.list_ascii_of_string s) = true);
  rec_required : forall name f, In (name, f) (Schema_ spec) -> Required f = true ->
    is_Some (payload_get (ev_Payload e) name) }.

Lemma validateAgainst_Recordable spec e trail scope :
  validateAgainst spec e trail scope = Ok () -> Recordable spec e trail scope.
Proof.
  unfold validateAgainst. intros H.
  destruct (ev_ID e =s ""); [discriminate|].
  destruct (negb (ev_SchemaVersion e =? _)); [discriminate|].
  destruct (flag (Outcomes spec) _) eqn:Ho; [|discriminate].
  destruct (flag (Trails spec) _) eqn:Ht; [|discriminate]. cbn [negb] in H.
  destruct (IsZero _); [discriminate|]. apply bind_Ok in H as ([] & _ & H).
  destruct (negb _); [discriminate|]. apply bind_Ok in H as ([] & Hs%checkTrailScope_spec & H).
  apply bind_Ok in H as ([] & Hua%checkSanitized_spec & H).
  apply bind_Ok in H as ([] & Hip%checkSanitized_spec & H).
  apply validateWith_spec in H as [Hk Hf]. constructor; try done.
  - intros name v Hget. destruct (Hk name v) as [f Hff]; [by apply payload_get_In|].
    exists f. split; [done|]. apply field_In in Hff. specialize (Hf name f Hff). rewrite Hget in Hf.
    split; [by apply validateField_freetext|]. split; [by apply validateField_enum|by apply validateField_digest].
  - intros name f Hin Hreq. specialize (Hf name f Hin). destruct (payload_get _ _); [by eexists|congruence].
Qed.

(** An event the write boundary accepts is of a catalogued type, carries an
    outcome and a trail licensed for the type, a chain that fits the trail,
    sanitized envelope text, only declared payload fields - free text
    sanitized, enumerations inside their closed set, digests 64 lowercase hex
    digits - and every required field. *)
Theorem Validate_accepts_only_recordable (e : Event) (trail : Trail) (scope : Scope) :
  Validate e trail scope = Ok () ->
  exists spec, Spec (ev_Type e) = Some spec /\ Recordable spec e trail scope.
Proof.
  unfold Validate. destruct (Spec (ev_Type e)) as [spec|]; [|discriminate]. cbn [from_option].
  intros H. exists spec. split; [reflexivity|]. by apply validateAgainst_Recordable.
Qed.

Definition sampleDenied : Event := {|
  ev_ID := "evt_1"; ev_Type := EventGrantDenied; ev_SchemaVersion := 1; ev_OccurredAt := 7;
  ev_OccurredAsserted := false; ev_Actor := MkActor "p1" ActorHuman ""; ev_AuthorityID := "";
  ev_Object := emptyObject; ev_Outcome := OutcomeDenied; ev_CorrelationID := "";
  ev_SourceIP := "10.0.0.1"; ev_UserAgent := "curl"; ev_Origin := OriginAPI;
  ev_Payload := [("operation", VString "org.get"); ("formula", VString "read@org");
    ("resolution", VString "unresolvable"); ("claimed_org", VString "acme")] |}.

Lemma Validate_accepts_only_recordable_witness :
  exists spec, Spec EventGrantDenied = Some spec /\ Recordable spec sampleDenied TrailInstance emptyScope.
Proof.
  apply (Validate_accepts_only_recordable sampleDenied TrailInstance emptyScope).
  vm_compute. reflexivity.
Defined.

(** The stored row's chain columns have the shape of its scope class: an
    instance row has none, and a tenant row's class says exactly which of the
    project and environment columns are null. *)
Theorem BuildRow_scope_shape (e : Event) (trail : Trail) (scope : Scope) (now : Time) (row : Row) :
  BuildRow e trail scope now = Ok row ->
  (trail = TrailInstance /\ row_ScopeClass row = "instance" /\ row_OrgID row = "" /\
     row_ProjectID row = None /\ row_EnvID row = None) \/
  (trail = TrailTenant /\ row_OrgID row = Org scope /\ Org scope <> "" /\
    ((row_ScopeClass row = "org" /\ row_ProjectID row = None /\ row_EnvID row = None) \/
     (row_ScopeClass row = "project" /\ row_ProjectID row = Some (Project scope) /\ row_EnvID row = None) \/
     (row_ScopeClass row = "env" /\ row_ProjectID row = Some (Project scope) /\
        row_EnvID row = Some (Env scope)))).
Proof.
  unfold BuildRow, Validate. intros H. apply bind_Ok in H as ([] & Hv & H).
  apply bind_Ok in H as (cls & Hc & [= <-]). cbn -[Spec].
  destruct (Spec (ev_Type e)) as [spec|]; [|discriminate]. cbn [from_option] in Hv.
  apply validateAgainst_Recordable, rec_scope in Hv as [(-> & Hl & Ho)|(-> & ->)].
  - right. split; [done|]. split; [done|]. split; [done|]. unfold ScopeClass in Hc. cbn in Hc.
    apply bind_Ok in Hc as (l & Hs & Hc). unfold optional.
    apply Scope_Level_cases in Hs as [(-> & ->)|[(-> & ? & -> & ->)|[(-> & ? & Hp & ->)|(-> & ? & Hp & He)]]];
      cbn in Hc; try discriminate; injection Hc as <-; [by left|right; left|right; right];
      repeat rewrite (proj2 (String.eqb_neq _ _)) by done; done.
  - left. cbn in Hc. by injection Hc as <-.
Qed.

Lemma BuildRow_scope_shape_witness :
  exists row, BuildRow sampleDenied TrailTenant (MkScope "o1" "p1" "") 9 = Ok row /\
    row_ScopeClass row = "project" /\ row_EnvID row = None.
Proof.
  destruct (BuildRow sampleDenied TrailTenant (MkScope "o1" "p1" "") 9) as [row| |] eqn:E;
    [|vm_compute in E; discriminate E..].
  exists row. split; [reflexivity|].
  destruct (BuildRow_scope_shape _ _ _ _ _ E) as [(H & _)|(_ & _ & _ & H)]; [discriminate H|].
  revert H. vm_compute in E. injection E as <-. cbn.
  intros [(H & _)|[(H & _ & H2)|(H & _)]]; [discriminate H|split; reflexivity|discriminate H].
Defined.
