(* ===== verification/AuditErrors.v ===== *)
(** * Errors of the audit write boundary

    Every refusal of [Validate] and [BuildRow] is a fresh error: it wraps no
    sentinel, so it can never be read as a domain answer or as a retryable
    driver failure, and nothing panics. *)

From S2P Require Import Prelude Domain EventNames AuditTable FreeText AuditEvent.

#[local] Open Scope Z_scope.

Definition plain {A} (r : result A) : Prop :=
  match r with Ok _ => True | Err e => exists m, e = ENew m | Panic _ => False end.

Create HintDb plain discriminated.

Lemma plain_Ok {A} (a : A) : plain (Ok a).
Proof. exact I. Qed.
Lemma plain_auditErr {A} m : plain (auditErr (A := A) m).
Proof. by eexists. Qed.
Lemma plain_fieldErr {A} m : plain (fieldErr (A := A) m).
Proof. by eexists. Qed.
Lemma plain_bind {A B} (m : result A) (f : A -> result B) :
  plain m -> (forall a, plain (f a)) -> plain (m ≫= f).
Proof. destruct m; cbn; auto. Qed.
Lemma plain_if {A} (b : bool) (x y : result A) : plain x -> plain y -> plain (if b then x else y).
Proof. by destruct b. Qed.
Lemma plain_checkSanitized s : plain (checkSanitized s).
Proof. unfold checkSanitized. apply plain_if; [by eexists|exact I]. Qed.
Lemma plain_checkAll {A} (f : A -> result unit) l : (forall x, plain (f x)) -> plain (checkAll f l).
Proof. intros Hf. induction l as [|x l IH]; cbn; [done|]. by apply plain_bind. Qed.
Lemma plain_Scope_Level s : plain (Scope_Level s).
Proof. unfold Scope_Level. repeat apply plain_if; try exact I. by eexists. Qed.

#[export] Hint Resolve plain_Ok plain_auditErr plain_fieldErr plain_bind plain_if plain_checkSanitized
  plain_checkAll plain_Scope_Level : plain.

Lemma plain_checkKind k v : plain (checkKind k v).
Proof. unfold checkKind. repeat apply plain_if; destruct v; auto with plain. Qed.

Lemma plain_checkInt spec n : plain (checkInt spec n).
Proof. unfold checkInt. auto with plain. Qed.
#[export] Hint Resolve plain_checkKind plain_checkInt : plain.

Lemma plain_checkConstraints spec v : plain (checkConstraints spec v).
Proof.
  unfold checkConstraints. apply plain_if; [apply plain_fieldErr|].
  destruct v; cbn [checkTyped]; auto 7 with plain.
Qed.

Lemma plain_validateWith vf (s : Schema) p :
  Forall (fun nf => forall v, plain (vf nf.2 v)) s -> plain (validateWith vf s p).
Proof.
  unfold validateWith. intros Hvf. apply plain_if; [apply plain_auditErr|].
  induction Hvf as [|[name spec] s Hv _ IH]; [done|]. apply plain_bind; [|done].
  destruct (payload_get p name); [apply Hv|apply plain_if; [apply plain_auditErr|done]].
Qed.

Lemma plain_validateField : forall spec v, plain (validateField spec v).
Proof.
  fix IH 1. intros [k ? objectSchema ? ? ? ? ? ?] v. cbn [validateField]. apply plain_if.
  - destruct (objectPayload v); [|apply plain_auditErr]. destruct objectSchema as [sch|]; [|apply plain_auditErr].
    apply plain_validateWith. induction sch as [|[name f] sch IHs]; constructor; [|exact IHs].
    exact (IH f).
  - apply plain_bind; [apply plain_checkKind|]. intros _. apply plain_checkConstraints.
Qed.

Lemma plain_Schema_validate s p : plain (Schema_validate s p).
Proof. apply plain_validateWith, Forall_forall. intros [n f] _ v. apply plain_validateField. Qed.

Lemma plain_checkActor a : plain (checkActor a).
Proof. unfold checkActor. auto 6 with plain. Qed.

Lemma plain_checkTrailScope trail scope : plain (checkTrailScope trail scope).
Proof. unfold checkTrailScope. auto 6 with plain. Qed.

Lemma plain_Validate e trail scope : plain (Validate e trail scope).
Proof.
  unfold Validate. destruct (Spec (ev_Type e)) as [spec|]; [|apply plain_auditErr]. cbn [from_option].
  unfold validateAgainst. repeat (apply plain_if; [apply plain_auditErr|]).
  apply plain_bind; [apply plain_checkActor|]. intros _. apply plain_if; [apply plain_auditErr|].
  apply plain_bind; [apply plain_checkTrailScope|]. intros _.
  repeat (apply plain_bind; [apply plain_checkSanitized|]; intros _). apply plain_Schema_validate.
Qed.

Lemma plain_BuildRow e trail scope now : plain (BuildRow e trail scope now).
Proof.
  unfold BuildRow. apply plain_bind; [apply plain_Validate|]. intros _.
  apply plain_bind; [|intros; exact I]. unfold ScopeClass.
  apply plain_if; [done|]. apply plain_bind; [apply plain_Scope_Level|]. auto 6 with plain.
Qed.
