(* ===== verification/Resolver.v ===== *)
(** * The resolution surface: [internal/store/authn]

    The proof-free reads the chokepoint makes to mint a proof: chain
    resolution, the grant lookup, the protected-environment and machine-reveal
    settings, the self-configuration binding. The database is a record of
    tables; a query is the relational content of its SQL text, logged by name,
    and may fail with whatever error the driver reports. Both engines run the
    same statements and differ in the sentinel for an empty result. *)

From S2P Require Import Prelude Domain AuditTable AuditEvent.

#[local] Open Scope Z_scope.

(** ** Tables *)
Record OrgRow := MkOrgRow { o_id : string; o_name : string }.
Record ProjectRow := MkProjectRow {
  pj_org_id : string; pj_id : string; pj_machine_reveal : Z; pj_machine_reveal_generation : Z }.
Record EnvironmentRow := MkEnvironmentRow {
  en_org_id : string; en_project_id : string; en_id : string;
  en_protected : Z; en_reauth_window_seconds : option Z }.
Record PrincipalRow := MkPrincipalRow {
  pr_id : string; pr_kind : string; pr_class : option string;
  pr_privacy_state : string; pr_reconciled_epoch : Z }.
Record GrantRow := MkGrantRow {
  gr_principal_id : string; gr_capability : string;
  gr_org_id : option string; gr_project_id : option string; gr_env_id : option string }.
Record BindingRow := MkBindingRow {
  bi_org_id : string; bi_project_id : string; bi_environment_id : string;
  bi_desired_snapshot_id : string; bi_desired_revision : Z }.
Record SnapshotRow := MkSnapshotRow {
  sn_id : string; sn_org_id : string; sn_project_id : string; sn_environment_id : string;
  sn_revision : Z; sn_payload_present : Z }.

(** [restore_epoch] and [self_config_binding] are singleton rows, absent until
    first written. *)
Record DB := MkDB {
  orgs : list OrgRow;
  projects : list ProjectRow;
  environments : list EnvironmentRow;
  principals : list PrincipalRow;
  grants : list GrantRow;
  restore_epoch : option Z;
  self_config_binding : option BindingRow;
  self_config_retention : list string;
  snapshots : list SnapshotRow }.

Inductive Engine := SQLite | Postgres.

Definition noRows (eng : Engine) : error :=
  match eng with SQLite => ESentinel errNoRows | Postgres => ESentinel errPgxNoRows end.

(** A boolean column: an integer compared with one on sqlite, a native
    boolean on postgres. *)
Definition boolColumn (eng : Engine) (v : Z) : bool :=
  match eng with SQLite => v =? 1 | Postgres => negb (v =? 0) end.

(** The transaction a resolver is bound to: the engine, the tables it sees and
    the error, if any, the driver reports for the n-th query. *)
Record TxEnv := MkTxEnv { tx_engine : Engine; tx_db : DB; tx_fault : nat -> option error }.

(** [Resolver]: its mutable state; [queries] records the statements issued. *)
Record Resolver := MkResolver {
  historicalRecoveryBeforePrivacy : bool;
  historicalRecoveryBeforeSelfConfig : bool;
  selfConfigOrgID : OrgID;
  queries : list string }.

(** [NewSQLite]/[NewPG], and the historical constructors of [recovery_compat.go]. *)
Definition NewResolver : Resolver := MkResolver false false "" [].
Definition NewHistoricalRecovery (version : Z) : Resolver :=
  MkResolver (version <? 47) (version <? 50) "" [].

Definition set_selfConfigOrgID (o : OrgID) (r : Resolver) : Resolver :=
  MkResolver (historicalRecoveryBeforePrivacy r) (historicalRecoveryBeforeSelfConfig r) o (queries r).
Definition log_query (name : string) (r : Resolver) : Resolver :=
  MkResolver (historicalRecoveryBeforePrivacy r) (historicalRecoveryBeforeSelfConfig r)
    (selfConfigOrgID r) (queries r ++ [name]).

Section Resolver.
Context (tx : TxEnv).

(** One statement: logged, then answered by the driver or the tables. *)
Definition query {A} (name : string) (f : DB -> result A) : ST Resolver A := fun r =>
  (match tx_fault tx (length (queries r)) with
   | Some e => Err e
   | None => f (tx_db tx)
   end, log_query name r).

(** A [:one] statement. *)
Definition one {A} (row : option A) : result A :=
  match row with Some a => Ok a | None => Err (noRows (tx_engine tx)) end.

Definition notFoundOr (e : error) : error := if isNoRows e then ErrNotFound else e.

(** [if err != nil { return ..., notFoundOr(err) }] *)
Definition orNotFound {A} (m : ST Resolver A) : ST Resolver A := fun r =>
  match m r with
  | (Err e, r') => (Err (notFoundOr e), r')
  | x => x
  end.

(** ** The SQL texts *)
Definition q_ResolveOrgChain (id : string) (db : DB) : result string :=
  one (o_id <$> find (fun o => o_id o =s id) (orgs db)).

Definition q_ResolveProjectChain (org id : string) (db : DB) : result (string * string) :=
  one ((fun p => (pj_org_id p, pj_id p)) <$>
       find (fun p => (pj_org_id p =s org) && (pj_id p =s id)) (projects db)).

Definition q_ResolveEnvChain (org project id : string) (db : DB) : result (string * string * string) :=
  one ((fun e => (en_org_id e, en_project_id e, en_id e)) <$>
       find (fun e => (en_org_id e =s org) && (en_project_id e =s project) && (en_id e =s id))
         (environments db)).

(** [p.reconciled_epoch >= (SELECT restore_epoch ...)]: unknown, so not
    satisfied, when the singleton row is absent. *)
Definition reconciled (db : DB) (p : PrincipalRow) : bool :=
  match restore_epoch db with Some epoch => epoch <=? pr_reconciled_epoch p | None => false end.

Definition grantRows (activeOnly : bool) (principal : string) (db : DB) : list GrantRow :=
  flat_map (fun g =>
    map (fun _ => g) (List.filter (fun p =>
      (pr_id p =s gr_principal_id g) && (gr_principal_id g =s principal) &&
      (negb activeOnly || (pr_privacy_state p =s "active")) && reconciled db p) (principals db)))
    (grants db).

(** [COALESCE((SELECT org_id FROM self_config_binding WHERE id = 1), '')] *)
Definition bindingOrg (db : DB) : string :=
  match self_config_binding db with Some b => bi_org_id b | None => "" end.

Definition q_ListGrantsForPrincipal (principal : string) (db : DB) : result (list (GrantRow * string)) :=
  Ok (map (fun g => (g, bindingOrg db)) (grantRows true principal db)).
Definition q_RecoveryListGrantsBeforePrivacy (principal : string) (db : DB) : result (list GrantRow) :=
  Ok (grantRows false principal db).
Definition q_RecoveryListGrantsBeforeSelfConfig (principal : string) (db : DB) : result (list GrantRow) :=
  Ok (grantRows true principal db).

(** ** Chain resolution *)
Definition resolveOrg (s : Scope) : ST Resolver Scope :=
  id ← orNotFound (query "ResolveOrgChain" (q_ResolveOrgChain (Org s)));
  mret (MkScope id "" "").

Definition resolveProject (s : Scope) : ST Resolver Scope :=
  row ← orNotFound (query "ResolveProjectChain" (q_ResolveProjectChain (Org s) (Project s)));
  mret (MkScope row.1 row.2 "").

Definition resolveEnv (s : Scope) : ST Resolver Scope :=
  row ← orNotFound (query "ResolveEnvChain" (q_ResolveEnvChain (Org s) (Project s) (Env s)));
  mret (MkScope row.1.1 row.1.2 row.2).

Definition ResolveChain (scope : Scope) : ST Resolver Scope :=
  level ← st_result (Scope_Level scope);
  if level =? LevelOrg then resolveOrg scope
  else if level =? LevelProject then resolveProject scope
  else if level =? LevelEnv then resolveEnv scope
  else st_err (ENew "authn: cannot resolve an empty scope").

(** ** The grant lookup *)
(** [sql.NullString.String]: empty when null. *)
Definition nullStr (s : option string) : string := default "" s.

Definition grantFrom (capability org project env : string) : result Grant :=
  let g := MkGrant capability (MkScope org project env) in
  match Scope_Level (g_Scope g) with
  | Ok _ => Ok g
  | Err e => Err (EWrap "authn: grant row" e)
  | Panic m => Panic m
  end.

Definition grantFromRow (row : GrantRow) : result Grant :=
  grantFrom (gr_capability row) (nullStr (gr_org_id row)) (nullStr (gr_project_id row))
    (nullStr (gr_env_id row)).

(** The row loop of [Grants]: the marker is set from each row before the row is parsed. *)
Fixpoint grantsLoop (rows : list (GrantRow * string)) : ST Resolver (list Grant) :=
  match rows with
  | [] => mret []
  | (row, selfConfigOrg) :: rest =>
      _ ← st_modify (set_selfConfigOrgID selfConfigOrg);
      g ← st_result (grantFromRow row);
      out ← grantsLoop rest;
      mret (g :: out)
  end.

(** [grantsFromRows] of [recovery_compat.go]. *)
Fixpoint grantsFromRows (rows : list GrantRow) : result (list Grant) :=
  match rows with
  | [] => Ok []
  | row :: rest => g ← grantFromRow row; out ← grantsFromRows rest; Ok (g :: out)
  end.

Definition recoveryGrantsBeforePrivacy (p : PrincipalID) : ST Resolver (list Grant) :=
  rows ← query "RecoveryListGrantsBeforePrivacy" (q_RecoveryListGrantsBeforePrivacy p);
  st_result (grantsFromRows rows).

Definition recoveryGrantsBeforeSelfConfig (p : PrincipalID) : ST Resolver (list Grant) :=
  rows ← query "RecoveryListGrantsBeforeSelfConfig" (q_RecoveryListGrantsBeforeSelfConfig p);
  st_result (grantsFromRows rows).

Definition Grants (p : PrincipalID) : ST Resolver (list Grant) :=
  _ ← st_modify (set_selfConfigOrgID "");
  r ← st_get;
  if historicalRecoveryBeforePrivacy r then recoveryGrantsBeforePrivacy p
  else if historicalRecoveryBeforeSelfConfig r then recoveryGrantsBeforeSelfConfig p
  else
    rows ← query "ListGrantsForPrincipal" (q_ListGrantsForPrincipal p);
    grantsLoop rows.

(** ** Settings and the self-configuration binding *)
Definition IsSelfConfigScope (scope : Scope) : ST Resolver bool :=
  r ← st_get;
  mret ((selfConfigOrgID r <>s "") && (Org scope =s selfConfigOrgID r)).

Record EnvironmentSettings := MkEnvironmentSettings {
  es_Protected : bool; es_HasWindow : bool; es_WindowSeconds : Z }.

Definition EnvironmentReauthSettings (envID : string) : ST Resolver EnvironmentSettings :=
  row ← orNotFound (query "EnvironmentReauthSettings"
    (fun db => one (find (fun e => en_id e =s envID) (environments db))));
  mret (MkEnvironmentSettings (boolColumn (tx_engine tx) (en_protected row))
          (match en_reauth_window_seconds row with Some _ => true | None => false end)
          (default 0 (en_reauth_window_seconds row))).

Record MachineRevealState := MkMachineRevealState { mr_Enabled : bool; mr_Generation : Z }.

Definition ProjectMachineReveal (projectID : string) : ST Resolver MachineRevealState :=
  row ← orNotFound (query "ProjectMachineReveal"
    (fun db => one (find (fun p => pj_id p =s projectID) (projects db))));
  mret (MkMachineRevealState (boolColumn (tx_engine tx) (pj_machine_reveal row))
          (pj_machine_reveal_generation row)).

Record SelfConfigBinding := MkSelfConfigBinding {
  scb_Scope : Scope; scb_DesiredSnapshotID : string; scb_DesiredRevision : Z }.

Definition Resolver_SelfConfigBinding : ST Resolver SelfConfigBinding :=
  r ← st_get;
  if historicalRecoveryBeforeSelfConfig r then st_err ErrNotFound
  else
    b ← orNotFound (query "GetSelfConfigBinding" (fun db => one (self_config_binding db)));
    mret (MkSelfConfigBinding (MkScope (bi_org_id b) (bi_project_id b) (bi_environment_id b))
            (bi_desired_snapshot_id b) (bi_desired_revision b)).

Definition SelfConfigRetained (snapshotID : string) : ST Resolver bool :=
  ids ← query "ListSelfConfigRetained" (fun db => Ok (self_config_retention db));
  mret (contains ids snapshotID).

Definition SelfConfigRecoverySnapshot (b : SelfConfigBinding) (revision : Z) : ST Resolver string :=
  row ← orNotFound (query "GetSnapshotByRevision" (fun db => one (find (fun s =>
    (sn_org_id s =s Org (scb_Scope b)) && (sn_project_id s =s Project (scb_Scope b)) &&
    (sn_environment_id s =s Env (scb_Scope b)) && (sn_revision s =? revision)) (snapshots db))));
  if negb (boolColumn (tx_engine tx) (sn_payload_present row)) then st_err ErrNotFound
  else mret (sn_id row).

Definition principalKind (id : string) : ST Resolver string :=
  query "GetPrincipalKind" (fun db => one (pr_kind <$> find (fun p => pr_id p =s id) (principals db))).

Definition Resolver_PrincipalClass (p : PrincipalID) : ST Resolver PrincipalClass :=
  row ← orNotFound (query "GetPrincipalClass"
    (fun db => one (find (fun r => pr_id r =s p) (principals db))));
  mret (if pr_kind row =s "human" then ClassHuman else nullStr (pr_class row)).

(** ** The navigation projection *)
Record OrgIdentity := MkOrgIdentity { oi_ID : OrgID; oi_Name : string }.

Definition orgIdentity (id : OrgID) : ST Resolver OrgIdentity :=
  row ← orNotFound (query "GetOrgIdentity" (fun db => one (find (fun o => o_id o =s id) (orgs db))));
  mret (MkOrgIdentity (o_id row) (o_name row)).

(** The loop that collects the organisations named by the grants. *)
Fixpoint collectOrgs (instanceConfig : bool) (protectedOrg : OrgID) (seen : list OrgID)
    (gs : list Grant) : list OrgID :=
  match gs with
  | [] => []
  | g :: rest =>
      let o := Org (g_Scope g) in
      if (o =s "") || contains seen o || (negb instanceConfig && (o =s protectedOrg)) then
        collectOrgs instanceConfig protectedOrg seen rest
      else o :: collectOrgs instanceConfig protectedOrg (o :: seen) rest
  end.

Fixpoint lookupOrgs (ids : list OrgID) : ST Resolver (list OrgIdentity) :=
  match ids with
  | [] => mret []
  | id :: rest =>
      found ← st_try (orgIdentity id);
      match found with
      | Ok row => out ← lookupOrgs rest; mret (row :: out)
      | Err e => if errors_Is e nameErrNotFound then lookupOrgs rest else st_err e
      | Panic m => st_result (Panic m)
      end
  end.

(** [slices.SortFunc] by name; organisation names are unique. *)
Fixpoint insertByName (x : OrgIdentity) (l : list OrgIdentity) : list OrgIdentity :=
  match l with
  | [] => [x]
  | y :: l' => if String.leb (oi_Name x) (oi_Name y) then x :: l else y :: insertByName x l'
  end.
Definition sortByName (l : list OrgIdentity) : list OrgIdentity := foldr insertByName [] l.

Definition OrgsForPrincipal (p : PrincipalID) (includeSelfConfig : bool) : ST Resolver (list OrgIdentity) :=
  gs ← Grants p;
  r ← st_get;
  let instanceConfig := existsb (fun g =>
    includeSelfConfig && (g_Capability g =s CapInstanceConfig) && scope_eqb (g_Scope g) emptyScope) gs in
  let ids := collectOrgs instanceConfig (selfConfigOrgID r) [] gs in
  out ← lookupOrgs ids;
  mret (sortByName out).

End Resolver.

(** ** What the lookups answer *)

(** The addressed row exists in the tables. *)
Definition chain_exists (db : DB) (s : Scope) : Prop :=
  (Project s = "" /\ Env s = "" /\ exists o, In o (orgs db) /\ o_id o = Org s) \/
  (Project s <> "" /\ Env s = "" /\
     exists p, In p (projects db) /\ pj_org_id p = Org s /\ pj_id p = Project s) \/
  (Env s <> "" /\ exists e, In e (environments db) /\ en_org_id e = Org s /\
     en_project_id e = Project s /\ en_id e = Env s).

(** The scope a grant row stores. *)
Definition rowScope (g : GrantRow) : Scope :=
  MkScope (nullStr (gr_org_id g)) (nullStr (gr_project_id g)) (nullStr (gr_env_id g)).

(** The principal holds [cap] at exactly [s] by a stored grant that currently
    authorizes: its own row, an active principal, reconciled since the last
    restore. *)
Definition holds_grant (activeOnly : bool) (db : DB) (principal : PrincipalID) (cap : Capability)
    (s : Scope) : Prop :=
  exists g p, In g (grants db) /\ gr_principal_id g = principal /\
    gr_capability g = cap /\ rowScope g = s /\
    In p (principals db) /\ pr_id p = principal /\
    (activeOnly = true -> pr_privacy_state p = "active") /\ reconciled db p = true.

Lemma grantRows_spec activeOnly principal db g :
  In g (grantRows activeOnly principal db) <->
  In g (grants db) /\ gr_principal_id g = principal /\
  exists p, In p (principals db) /\ pr_id p = principal /\
    (activeOnly = true -> pr_privacy_state p = "active") /\ reconciled db p = true.
Proof.
  unfold grantRows. rewrite in_flat_map. split.
  - intros (g' & Hg & Hin). apply in_map_iff in Hin as (p & -> & Hp).
    apply filter_In in Hp as [Hp Hc]. bools. split; [done|]. split; [done|].
    exists p. split; [done|]. split; [congruence|]. split; [|done].
    intros ->. cbn in *. by bools.
  - intros (Hg & Hgp & p & Hp & Hid & Hact & Hrec). exists g. split; [done|].
    apply in_map_iff. exists p. split; [done|]. apply filter_In. split; [done|].
    rewrite Hid, Hgp, !String.eqb_refl, Hrec. cbn. rewrite andb_true_r.
    destruct activeOnly; [|done]. cbn. rewrite Hact by done. done.
Qed.

Lemma grantFromRow_Ok row g :
  grantFromRow row = Ok g <->
  g = MkGrant (gr_capability row) (rowScope row) /\ is_ok (Scope_Level (rowScope row)) = true.
Proof.
  unfold grantFromRow, grantFrom, rowScope. cbn. destruct (Scope_Level _); cbn; naive_solver.
Qed.

Lemma grantFromRow_no_panic row : is_panic (grantFromRow row) = false.
Proof.
  unfold grantFromRow, grantFrom. cbn.
  assert (is_panic (Scope_Level (MkScope (nullStr (gr_org_id row)) (nullStr (gr_project_id row))
    (nullStr (gr_env_id row)))) = false) by (unfold Scope_Level; by repeat case_match).
  by destruct (Scope_Level _).
Qed.

Lemma grantsFromRows_Ok rows gs :
  grantsFromRows rows = Ok gs <->
  gs = map (fun r => MkGrant (gr_capability r) (rowScope r)) rows /\
  Forall (fun r => is_ok (Scope_Level (rowScope r)) = true) rows.
Proof.
  revert gs. induction rows as [|row rows IH]; intros gs; cbn; [naive_solver|].
  rewrite bind_Ok, Forall_cons. setoid_rewrite bind_Ok. setoid_rewrite IH.
  setoid_rewrite grantFromRow_Ok. naive_solver.
Qed.

Lemma grantsFromRows_no_panic rows : is_panic (grantsFromRows rows) = false.
Proof.
  induction rows as [|row rows IH]; cbn; [done|].
  apply bind_no_panic; [apply grantFromRow_no_panic|]. intros g _.
  by apply bind_no_panic.
Qed.

(** The loop parses like [grantsFromRows]; a non-empty result leaves the marker
    every row carries. *)
Lemma grantsLoop_spec m rows : forall r,
  (grantsLoop (map (fun g => (g, m)) rows) r).1 = grantsFromRows rows /\
  (is_ok (grantsFromRows rows) = true ->
   (grantsLoop (map (fun g => (g, m)) rows) r).2 =
   match rows with [] => r | _ => set_selfConfigOrgID m r end).
Proof.
  induction rows as [|row rows IH]; intros r; [done|].
  cbn [grantsLoop map grantsFromRows]. unfold mbind, st_bind, result_bind, st_modify, st_result.
  destruct (grantFromRow row) as [g|e|p]; [|done..].
  destruct (IH (set_selfConfigOrgID m r)) as [IH1 IH2].
  destruct (grantsLoop (map _ rows) (set_selfConfigOrgID m r)) as [[gs|e|p] r'] eqn:E; cbn in *;
    rewrite <- IH1 in IH2 |- *; [|done..].
  split; [done|]. intros _. rewrite IH2 by done. by destruct rows.
Qed.

(** ** The resolver's steps *)
Definition sameMode (r r' : Resolver) : Prop :=
  historicalRecoveryBeforePrivacy r' = historicalRecoveryBeforePrivacy r /\
  historicalRecoveryBeforeSelfConfig r' = historicalRecoveryBeforeSelfConfig r.

Lemma grantsLoop_frame rows : forall r,
  queries (grantsLoop rows r).2 = queries r /\ sameMode r (grantsLoop rows r).2.
Proof.
  induction rows as [|[row m] rows IH]; intros r; [done|].
  cbn [grantsLoop]. unfold mbind, st_bind, st_modify, st_result.
  destruct (grantFromRow row); [|done..].
  specialize (IH (set_selfConfigOrgID m r)). by destruct (grantsLoop rows _) as [[| |] ?].
Qed.

Section ResolverSpec.
Context (tx : TxEnv).
Let db := tx_db tx.

(** [r'] continues [r]: only statements that the driver answered were added. *)
Definition answered (r r' : Resolver) : Prop :=
  sameMode r r' /\
  exists names, queries r' = queries r ++ names /\
    forall i, (length (queries r) <= i < length (queries r'))%nat -> tx_fault tx i = None.

Lemma answered_refl r : answered r r.
Proof. split; [done|]. exists []. rewrite app_nil_r. split; [done|]. intros; lia. Qed.

Lemma answered_trans r1 r2 r3 : answered r1 r2 -> answered r2 r3 -> answered r1 r3.
Proof.
  intros ([H1 H2] & n1 & E1 & F1) ([H3 H4] & n2 & E2 & F2). split; [split; congruence|].
  exists (n1 ++ n2). split; [by rewrite E2, E1, app_assoc|]. intros i Hi.
  destruct (decide (i < length (queries r2)))%nat; [apply F1|apply F2]; lia.
Qed.

Lemma answered_marker o r r' : answered r r' -> answered r (set_selfConfigOrgID o r').
Proof. done. Qed.

Lemma query_Ok {A} name (f : DB -> result A) r x r' :
  query tx name f r = (Ok x, r') ->
  f db = Ok x /\ r' = log_query name r /\ answered r r'.
Proof.
  unfold query. destruct (tx_fault tx (length (queries r))) eqn:E; [discriminate|].
  intros H. injection H as H <-. split; [done|]. split; [done|]. split; [done|].
  exists [name]. split; [done|]. intros i. cbn. rewrite length_app. cbn. intros Hi.
  by replace i with (length (queries r)) by lia.
Qed.

Lemma orNotFound_Ok {A} (m : ST Resolver A) r x r' :
  orNotFound m r = (Ok x, r') -> m r = (Ok x, r').
Proof. unfold orNotFound. by destruct (m r) as [[| |] ?]. Qed.

Lemma one_Ok {A} (o : option A) x : one tx o = Ok x <-> o = Some x.
Proof. destruct o; cbn; naive_solver. Qed.

(** Existence of the addressed row is what the chain statements decide. *)
Lemma find_None_not {A} (f : A -> bool) l : find f l = None -> forall x, In x l -> f x = false.
Proof. apply find_none. Qed.

Lemma ResolveChain_spec s r l :
  Scope_Level s = Ok l -> l <> LevelNone ->
  exists name, (ResolveChain tx s r).2 = log_query name r /\
  match tx_fault tx (length (queries r)) with
  | Some e => (ResolveChain tx s r).1 = Err (notFoundOr e)
  | None => (chain_exists db s /\ (ResolveChain tx s r).1 = Ok s) \/
            (~ chain_exists db s /\ (ResolveChain tx s r).1 = Err ErrNotFound)
  end.
Proof.
  intros Hl Hne. unfold ResolveChain, mbind, st_bind, st_result. rewrite Hl.
  apply Scope_Level_cases in Hl.
  unfold resolveOrg, resolveProject, resolveEnv, mbind, st_bind, orNotFound, query,
    q_ResolveOrgChain, q_ResolveProjectChain, q_ResolveEnvChain, one, mret, st_ret, chain_exists.
  assert (notFoundOr (noRows (tx_engine tx)) = ErrNotFound) as Hnf by (by destruct (tx_engine tx)).
  destruct Hl as [(-> & ->)|[(-> & Ho & Hp & He)|[(-> & Ho & Hp & He)|(-> & Ho & Hp & He)]]]; cbn; [done|..];
    eexists; (split; [by destruct (tx_fault tx _) as [|]; cbn; [|destruct (find _ _)]|]);
    (destruct (tx_fault tx (length (queries r))); cbn; [done|]); fold db.
  - destruct (find _ (orgs db)) as [o|] eqn:Hf; cbn.
    + apply find_some in Hf as [Hin Hid]. bools. left. split; [left; split; [done|]; split; [done|]; by exists o|].
      f_equal. destruct s; cbn in *; congruence.
    + right. split; [|by rewrite Hnf].
      intros [(_ & _ & o & Hin & Hid)|[(? & _)|(? & _)]]; [|done..].
      pose proof (find_None_not _ _ Hf o Hin) as Hc. cbn in Hc. bools. done.
  - destruct (find _ (projects db)) as [o|] eqn:Hf; cbn.
    + apply find_some in Hf as [Hin Hid]. bools. left. split; [right; left; split; [done|]; split; [done|]; by exists o|].
      f_equal. destruct s; cbn in *; congruence.
    + right. split; [|by rewrite Hnf].
      intros [(? & _)|[(_ & _ & o & Hin & Hid1 & Hid2)|(? & _)]]; [done| |done].
      pose proof (find_None_not _ _ Hf o Hin) as Hc. cbn in Hc. rewrite Hid1, Hid2, !String.eqb_refl in Hc. done.
  - destruct (find _ (environments db)) as [o|] eqn:Hf; cbn.
    + apply find_some in Hf as [Hin Hid]. bools. left. split; [right; right; split; [done|]; by exists o|].
      f_equal. destruct s; cbn in *; congruence.
    + right. split; [|by rewrite Hnf].
      intros [(_ & ? & _)|[(_ & ? & _)|(_ & o & Hin & Hid1 & Hid2 & Hid3)]]; [done|done|].
      pose proof (find_None_not _ _ Hf o Hin) as Hc. cbn in Hc.
      rewrite Hid1, Hid2, Hid3, !String.eqb_refl in Hc. done.
Qed.

Lemma answered_log name r :
  tx_fault tx (length (queries r)) = None -> answered r (log_query name r).
Proof.
  intros H. split; [done|]. exists [name]. split; [done|]. cbn. rewrite length_app. cbn.
  intros i Hi. by replace i with (length (queries r)) by lia.
Qed.

Lemma ResolveChain_Ok s r l chain r' :
  Scope_Level s = Ok l -> l <> LevelNone ->
  ResolveChain tx s r = (Ok chain, r') ->
  chain = s /\ chain_exists db s /\ selfConfigOrgID r' = selfConfigOrgID r /\ answered r r'.
Proof.
  intros Hl Hne H. destruct (ResolveChain_spec s r l Hl Hne) as (name & H2 & Hm).
  rewrite H in H2, Hm. cbn in H2, Hm. subst r'.
  destruct (tx_fault tx _) eqn:Hf; [discriminate|].
  destruct Hm as [[He [= ->]]|[_ [=]]]. split; [done|]. split; [done|]. split; [done|].
  by apply answered_log.
Qed.

(** The rows a resolver in this mode reads, and the marker they carry. *)
Definition activeOnly (r : Resolver) : bool := negb (historicalRecoveryBeforePrivacy r).
Definition markerOf (r : Resolver) (p : PrincipalID) : OrgID :=
  if historicalRecoveryBeforePrivacy r || historicalRecoveryBeforeSelfConfig r then ""
  else match grantRows true p db with [] => "" | _ => bindingOrg db end.

Lemma Grants_spec p r :
  exists name, queries (Grants tx p r).2 = queries r ++ [name] /\ sameMode r (Grants tx p r).2 /\
  match tx_fault tx (length (queries r)) with
  | Some e => (Grants tx p r).1 = Err e
  | None => (Grants tx p r).1 = grantsFromRows (grantRows (activeOnly r) p db) /\
      (is_ok (Grants tx p r).1 = true -> selfConfigOrgID (Grants tx p r).2 = markerOf r p)
  end.
Proof.
  unfold Grants, activeOnly, markerOf, mbind, st_bind, st_modify, st_get. cbn.
  destruct (historicalRecoveryBeforePrivacy r) eqn:H1; cbn; [|destruct (historicalRecoveryBeforeSelfConfig r) eqn:H2; cbn].
  - unfold recoveryGrantsBeforePrivacy, mbind, st_bind, query, st_result. cbn.
    eexists. destruct (tx_fault tx _); cbn; (split; [done|]); (split; [by split|]); done.
  - unfold recoveryGrantsBeforeSelfConfig, mbind, st_bind, query, st_result. cbn.
    eexists. destruct (tx_fault tx _); cbn; (split; [done|]); (split; [by split|]); done.
  - unfold query, q_ListGrantsForPrincipal. cbn. exists "ListGrantsForPrincipal".
    destruct (tx_fault tx (length (queries r))); cbn; [done|]. fold db.
    set (r1 := log_query "ListGrantsForPrincipal" (set_selfConfigOrgID "" r)).
    assert (queries r1 = queries r ++ ["ListGrantsForPrincipal"] /\ sameMode r r1) as [Hq Hm] by done.
    destruct (grantsLoop_spec (bindingOrg db) (grantRows true p db) r1) as [L1 L2].
    pose proof (grantsLoop_frame (map (fun g => (g, bindingOrg db)) (grantRows true p db)) r1) as [F1 F2].
    rewrite F1. split; [done|]. split; [by destruct F2, Hm; split; congruence|].
    rewrite L1. split; [done|]. intros Hok. rewrite L2 by done.
    by destruct (grantRows true p db).
Qed.

Lemma Grants_Ok p r gs r' :
  Grants tx p r = (Ok gs, r') ->
  grantsFromRows (grantRows (activeOnly r) p db) = Ok gs /\
  selfConfigOrgID r' = markerOf r p /\ answered r r'.
Proof.
  intros H. destruct (Grants_spec p r) as (name & Hq & Hm & Hr). rewrite H in Hq, Hm, Hr. cbn in *.
  destruct (tx_fault tx _) eqn:Hf; [discriminate|]. destruct Hr as [Hr Hs]. split; [done|].
  split; [by apply Hs|]. split; [done|]. exists [name]. split; [done|].
  rewrite Hq, length_app. cbn. intros i Hi. by replace i with (length (queries r)) by lia.
Qed.
End ResolverSpec.
