(* ===== verification/Authorize.v ===== *)
(** * The authorization chokepoint: [internal/authz]

    [authorize()], the formula evaluation, the protected self-configuration
    profile, denial capture, the affordance probes, the system mint sites and
    network admission, as methods of the per-transaction authorizer; and the
    proof values the store boundary checks. Their lemmas are in
    [AuthorizeSpec.v] and [Refusal.v], the theorems in [Guarantees.v] and
    [Boundary.v]. *)

From S2P Require Import Prelude Domain OperationNames EventNames OperationTable AuditTable Registry.
From S2P Require Import FreeText AuditEvent Resolver.

#[local] Open Scope Z_scope.

(** ** Operation contracts: [internal/operation/contract.go] *)
Definition ArtifactNone : string := "none".
Definition ArtifactHumanSession : string := "human-session".
Definition ArtifactMachineCredential : string := "machine-credential".
Definition ArtifactSCIMCredential : string := "scim-credential".
Definition ArtifactInstanceCredential : string := "instance-credential".
Definition ArtifactLocal : string := "local".

Record Contract := MkContract {
  ct_ID : string; ct_AuthorizationOperation : string;
  ct_formula : list string; ct_artifacts : list string }.

Definition AdmitsArtifact (c : Contract) (class : string) : bool := contains (ct_artifacts c) class.

(** The request context: network provenance, the attached contract, the wire
    metadata, and the environment's id and clock readings by occurrence. *)
Record Ctx := MkCtx {
  cx_network : bool;
  cx_contract : option Contract;
  cx_wire : option Context_;
  cx_uuid : nat -> result string;
  cx_now : nat -> Time }.

Definition IsNetwork (ctx : Ctx) : bool := cx_network ctx.

Definition WithNetwork (ctx : Ctx) : Ctx :=
  MkCtx true (cx_contract ctx) (cx_wire ctx) (cx_uuid ctx) (cx_now ctx).

Definition WithContract (ctx : Ctx) (c : Contract) : result Ctx :=
  if ct_ID c =s "" then Panic "operation: cannot attach an empty contract"
  else Ok (MkCtx true (Some c) (cx_wire ctx) (cx_uuid ctx) (cx_now ctx)).

Definition operation_FromContext (ctx : Ctx) : option Contract :=
  match cx_contract ctx with
  | Some c => if ct_ID c =s "" then None else Some c
  | None => None
  end.

(** A row of the embedded API document: the authorization operation it maps to
    and its artifact allowlist. [None] for the whole list is a document that
    failed to load. *)
Record ApiOperation := MkApiOperation { api_AuthzOp : string; api_artifacts : list string }.

Definition AuthorizationOperationAdmitsArtifact (ops : option (list ApiOperation))
    (id class : string) : bool * bool :=
  match ops with
  | None => (false, false)
  | Some ops =>
      let mine := List.filter (fun o => api_AuthzOp o =s id) ops in
      (existsb (fun o => contains (api_artifacts o) class) mine,
       negb (Nat.eqb (length mine) 0))
  end.

(** ** Identities and assurance: [session.go] *)
Record Assurance := MkAssurance {
  as_Method : string; as_Factors : list string; as_AuthenticatedAt : Time; as_CeremonyID : string }.

Record Identity := MkIdentity {
  id_Principal : PrincipalID; id_Class : PrincipalClass; id_SessionID : string;
  id_CredentialID : string; id_Assurance : Assurance }.

Definition noAssurance : Assurance := MkAssurance "" [] 0 "".

(** [AdequateAssurance]: a webauthn factor, or two distinct factor classes. *)
Fixpoint adequate_loop (distinct : gmap string unit) (factors : list string) : bool :=
  match factors with
  | [] => (2 <=? Z.of_nat (size distinct))
  | f :: rest => if f =s "webauthn" then true else adequate_loop (<[f := ()]> distinct) rest
  end.

Definition AdequateAssurance (a : Assurance) : bool := adequate_loop ∅ (as_Factors a).

(** ** Formula evaluation *)
Definition truncate (s : Scope) (l : Level) : result Scope :=
  if l =? LevelNone then Ok emptyScope
  else if l =? LevelOrg then Ok (MkScope (Org s) "" "")
  else if l =? LevelProject then Ok (MkScope (Org s) (Project s) "")
  else if l =? LevelEnv then Ok s
  else Panic "authz: unknown scope level in a formula atom".

Definition covers (g target : Scope) : bool :=
  if Org g =s "" then true
  else if Org g <>s Org target then false
  else if Project g =s "" then true
  else if Project g <>s Project target then false
  else if Env g =s "" then true
  else Env g =s Env target.

Fixpoint evaluate (f : Formula) (chain : Scope) (gs : list Grant) : result bool :=
  match f with
  | [] => Ok true
  | atom :: rest =>
      target ← truncate chain (At atom);
      if existsb (fun g => (g_Capability g =s Cap atom) && covers (g_Scope g) target) gs
      then evaluate rest chain gs
      else Ok false
  end.

(** ** Proofs: [proof.go] *)
Inductive proofKind := kindTenant | kindInstance | kindSystem.

(** A transaction token is a pointer. *)
Abbreviation TxToken := nat (only parsing).

Record proof := MkProof {
  pf_selfConfig : bool; pf_selfConfigAdmin : bool; pf_runtimeSnapshotID : string;
  pf_kind : proofKind; pf_op : Operation; pf_site : SystemSite; pf_chain : Scope;
  pf_tok : option TxToken }.

(** ** The authorizer *)
Record Denial := MkDenial { dn_Trail : Trail; dn_Scope : Scope; dn_Event : Event }.

(** [TxAuthorizer]; [az_minted] counts the event ids drawn. *)
Record TxAuthorizer := MkTxAuthorizer {
  az_r : Resolver;
  az_tok : option TxToken;
  az_denials : list Denial;
  az_captureErr : option error;
  az_object : Object_;
  az_minted : nat }.

Definition NewTxAuthorizer (r : Resolver) (tok : option TxToken) : TxAuthorizer :=
  MkTxAuthorizer r tok [] None emptyObject 0.

Definition set_r (r : Resolver) (a : TxAuthorizer) : TxAuthorizer :=
  MkTxAuthorizer r (az_tok a) (az_denials a) (az_captureErr a) (az_object a) (az_minted a).
Definition set_denials (d : list Denial) (a : TxAuthorizer) : TxAuthorizer :=
  MkTxAuthorizer (az_r a) (az_tok a) d (az_captureErr a) (az_object a) (az_minted a).
Definition set_captureErr (e : option error) (a : TxAuthorizer) : TxAuthorizer :=
  MkTxAuthorizer (az_r a) (az_tok a) (az_denials a) e (az_object a) (az_minted a).
Definition mint (a : TxAuthorizer) : TxAuthorizer :=
  MkTxAuthorizer (az_r a) (az_tok a) (az_denials a) (az_captureErr a) (az_object a) (S (az_minted a)).

Definition AttributeDenials (obj : Object_) : ST TxAuthorizer unit := fun a =>
  (Ok (), MkTxAuthorizer (az_r a) (az_tok a) (az_denials a) (az_captureErr a) obj (az_minted a)).

Definition CaptureAudit (trail : Trail) (scope : Scope) (e : Event) : ST TxAuthorizer unit :=
  st_modify (fun a => set_denials (az_denials a ++ [MkDenial trail scope e]) a).

Definition PendingDenials (a : TxAuthorizer) : list Denial := az_denials a.
Definition DenialCaptureError (a : TxAuthorizer) : option error := az_captureErr a.
Definition Token (a : TxAuthorizer) : option TxToken := az_tok a.

(** [errors.Join(a.captureErr, err)] *)
Definition joinErr (prev : option error) (e : error) : error :=
  match prev with None => EJoin [e] | Some p => EJoin [p; e] end.

Definition resolutionResolvable : string := "resolvable".
Definition resolutionUnresolvable : string := "unresolvable".

(** [audit.NewEventID] on the outcome of [uuid.NewV7]. *)
Definition NewEventID (uuid : result string) : result string :=
  match uuid with
  | Ok id => Ok (String.append "evt_" id)
  | Err e => Err (EWrap "audit: generate event id" e)
  | Panic m => Panic m
  end.

Definition authzErr {S A} (msg : string) : ST S A := st_err (ENew (String.append "authz: " msg)).

(** [spec, ok := registry.authorizationSpec(op)] with the refusal of an unknown operation. *)
Definition lookupSpec {S} (op : Operation) : ST S authorizationSpec :=
  from_option mret (authzErr "operation is not in the operation registry") (Registry_authorizationSpec op).

Section Chokepoint.
Context (tx : TxEnv) (ctx : Ctx) (apiOps : option (list ApiOperation)).

Definition res {A} (m : ST Resolver A) : ST TxAuthorizer A := st_zoom az_r set_r m.

(** The caller-asserted claims of an unresolvable denial. *)
Definition claim (name v : string) : Payload :=
  if v <>s "" then [(name, VString (SanitizeFreeText v))] else [].

Definition denialPayload (op : Operation) (spec : authorizationSpec) (resolution : string)
    (claimed : Scope) : Payload :=
  [("operation", VString op); ("formula", VString (formulaName (as_formula spec)));
   ("resolution", VString resolution)] ++
  (if resolution =s resolutionUnresolvable then
     claim "claimed_org" (Org claimed) ++ claim "claimed_project" (Project claimed) ++
     claim "claimed_env" (Env claimed)
   else []).

(** Trail and scope of a denial. *)
Definition denialPlace (resolution : string) (resolvedChain : Scope) : Trail * Scope :=
  if resolution =s resolutionUnresolvable then (TrailInstance, emptyScope)
  else if negb (scope_eqb resolvedChain emptyScope) then (TrailTenant, resolvedChain)
  else (TrailInstance, emptyScope).

Definition denialEvent (id : string) (now : Time) (obj : Object_) (principal : PrincipalID)
    (payload : Payload) : Event :=
  let wire := FromContext (cx_wire ctx) in
  {| ev_ID := id; ev_Type := EventGrantDenied; ev_SchemaVersion := 1; ev_OccurredAt := now;
     ev_OccurredAsserted := false; ev_Actor := MkActor principal "" ""; ev_AuthorityID := "";
     ev_Object := obj; ev_Outcome := OutcomeDenied; ev_CorrelationID := "";
     ev_SourceIP := ctx_SourceIP wire; ev_UserAgent := ctx_UserAgent wire;
     ev_Origin := ctx_Origin wire; ev_Payload := payload |}.

Definition captureDenial (principal : PrincipalID) (op : Operation) (spec : authorizationSpec)
    (resolution : string) (resolvedChain claimed : Scope) : ST TxAuthorizer unit := fun a =>
  let n := az_minted a in
  let a := mint a in
  match NewEventID (cx_uuid ctx n) with
  | Err e => (Ok (), set_captureErr (Some (joinErr (az_captureErr a) e)) a)
  | Panic m => (Panic m, a)
  | Ok id =>
      let place := denialPlace resolution resolvedChain in
      let event := denialEvent id (cx_now ctx n) (az_object a) principal
                     (denialPayload op spec resolution claimed) in
      (Ok (), set_denials (az_denials a ++ [MkDenial place.1 place.2 event]) a)
  end.

(** [a.captureDenial(...); return nil, err] *)
Definition refuse {A} (principal : PrincipalID) (op : Operation) (spec : authorizationSpec)
    (resolution : string) (resolvedChain claimed : Scope) (e : error) : ST TxAuthorizer A :=
  _ ← captureDenial principal op spec resolution resolvedChain claimed;
  st_err e.

(** ** The self-configuration profile: [self_config.go] *)
Definition selfConfigOperations : gmap string bool := licensed [
  OpOrgGet; OpOrgRename; OpProjectGet; OpProjectList; OpProjectRename;
  OpEnvRead; OpEnvList; OpEnvRename; OpEnvReorder; OpEnvUpdateNote;
  OpKeyGet; OpKeyList; OpKeyGroupGet; OpKeyGroupList; OpFolderGet; OpFolderList;
  OpValueRead; OpValueList; OpValueReveal; OpRevealWindowRead;
  OpValueStage; OpValuePendingList; OpValuePublish;
  OpValueExport; OpValueExportReveal; OpValueExportRevealHistory;
  OpRevisionList; OpRevisionShow; OpRevisionSignals; OpRevisionRestore; OpRevisionRestoreHistory;
  OpRevisionRestoreCurrent; OpPinSet; OpPinSetHistory; OpPinList; OpPinRelease;
  OpApprovalPolicyRead; OpApprovalRequestRead; OpApprovalVote; OpApprovalBypass;
  OpDefinitionsExport; OpDefinitionsCheck; OpDefinitionsSettingsGet; OpProjectMachineRevealGet;
  OpEnvSettingsRead; OpOrgRetentionRead; OpOrgRetentionUpdate; OpProjectRetentionRead;
  OpProjectRetentionUpdate; OpAuditQueryOrg; OpAuditQueryProject; OpAuditQueryEnv;
  OpAuditExportOrg; OpAuditExportProject; OpAuditExportEnv;
  OpGrantCreateOrg; OpGrantCreateProject; OpGrantCreateEnv; OpGrantRevokeOrg;
  OpGrantRevokeProject; OpGrantRevokeEnv; OpGrantListOrg; OpGrantListProject;
  OpTemplateApplyOrg; OpTemplateApplyProject; OpTemplateApplyEnv; OpMemberInviteOrg;
  OpSelfConfigApply; OpSelfConfigTest; OpReencryptProject].

(** The cases of the switch that add [manage-members]. *)
Definition selfConfigMemberOps : list Operation := [
  OpGrantCreateOrg; OpGrantCreateProject; OpGrantCreateEnv; OpGrantRevokeOrg;
  OpGrantRevokeProject; OpGrantRevokeEnv; OpGrantListOrg; OpGrantListProject;
  OpTemplateApplyOrg; OpTemplateApplyProject; OpTemplateApplyEnv; OpMemberInviteOrg].

Definition selfConfigSessionEligible (caller : Identity) : bool :=
  ((id_Class caller =s "") || (id_Class caller =s ClassHuman)) &&
  ((id_SessionID caller =s "") || AdequateAssurance (id_Assurance caller)).

Definition profileFormula (op : Operation) : Formula :=
  MkAtom CapInstanceConfig LevelNone ::
  (if contains selfConfigMemberOps op then [MkAtom CapManageMembers LevelNone] else []).

(** Returns [(protected, permitted)]. *)
Definition selfConfigProfile (caller : Identity) (op : Operation) (chain : Scope) (gs : list Grant)
    : ST TxAuthorizer (bool * bool) :=
  protected ← res (IsSelfConfigScope chain);
  if negb protected then
    mret (protected, (op <>s OpSelfConfigApply) && (op <>s OpSelfConfigTest))
  else if (id_Class caller <>s "") && (id_Class caller <>s ClassHuman) then mret (true, false)
  else if negb (flag selfConfigOperations op) then mret (true, false)
  else
    held ← st_result (evaluate (profileFormula op) chain gs);
    mret (true, held).

(** ** Tenant and instance authorization *)
Definition assuranceInadequate (caller : Identity) (op : Operation) : bool :=
  (id_SessionID caller <>s "") && FormulaDemandsMFA op && negb (AdequateAssurance (id_Assurance caller)).

Definition demandsReveal (f : Formula) : bool :=
  existsb (fun atom => (Cap atom =s CapReveal) || (Cap atom =s CapRevealHistory)) f.

Definition machineRevealWithdrawn (caller : Identity) (f : Formula) (chain : Scope)
    : ST TxAuthorizer bool :=
  if negb (IsServiceAccountKind (id_Class caller)) || (Project chain =s "") then mret false
  else if negb (demandsReveal f) then mret false
  else
    st ← st_try (res (ProjectMachineReveal tx (Project chain)));
    match st with
    | Err e => if errors_Is e nameErrNotFound then mret true else st_err e
    | Ok st => mret (negb (mr_Enabled st))
    | Panic m => st_result (Panic m)
    end.

Definition MachineRevealOptIn (caller : Identity) (project : ProjectID) : ST TxAuthorizer (bool * Z) :=
  if negb (IsServiceAccountKind (id_Class caller)) then mret (true, 0)
  else
    st ← st_try (res (ProjectMachineReveal tx project));
    match st with
    | Err e => if errors_Is e nameErrNotFound then mret (false, 0) else st_err e
    | Ok st => mret (mr_Enabled st, mr_Generation st)
    | Panic m => st_result (Panic m)
    end.

(** The protected-environment check on a machine's environment deletion. *)
Definition machineEnvDeleteRefused (caller : Identity) (op : Operation) (chain : Scope)
    : ST TxAuthorizer bool :=
  if IsServiceAccountKind (id_Class caller) && (op =s OpEnvDelete) then
    settings ← res (EnvironmentReauthSettings tx (Env chain));
    mret (es_Protected settings)
  else mret false.

(** From the evaluated formula on: the conjuncts that follow the grant check. *)
Definition authorizeResolved (caller : Identity) (op : Operation) (spec : authorizationSpec)
    (scope chain : Scope) (gs : list Grant) : ST TxAuthorizer proof :=
  let principal := id_Principal caller in
  held ← st_result (evaluate (as_formula spec) chain gs);
  if negb held then refuse principal op spec resolutionResolvable chain emptyScope ErrNotFound
  else
    undeletable ← machineEnvDeleteRefused caller op chain;
    if (undeletable : bool) then refuse principal op spec resolutionResolvable chain scope ErrNotFound
    else
      profile ← selfConfigProfile caller op chain gs;
      if negb profile.2 then refuse principal op spec resolutionResolvable chain emptyScope ErrNotFound
      else
        denied ← machineRevealWithdrawn caller (as_formula spec) chain;
        if (denied : bool) then refuse principal op spec resolutionResolvable chain emptyScope ErrNotFound
        else if assuranceInadequate caller op ||
                (profile.1 && (id_SessionID caller <>s "") && negb (AdequateAssurance (id_Assurance caller)))
        then refuse principal op spec resolutionResolvable chain emptyScope ErrUnauthorized
        else
          a ← st_get;
          mret (MkProof profile.1 false "" kindTenant op "" chain (az_tok a)).

Definition authorizeTenant (caller : Identity) (op : Operation) (spec : authorizationSpec)
    (scope : Scope) : ST TxAuthorizer proof :=
  let principal := id_Principal caller in
  match Scope_Level scope with
  | Err e => st_err (EWrap "authz: operation" e)
  | Panic m => st_result (Panic m)
  | Ok level =>
      if negb (level =? as_level spec) then authzErr "operation requires another scope depth"
      else
        resolved ← st_try (res (ResolveChain tx scope));
        match resolved with
        | Err e =>
            if errors_Is e nameErrNotFound then
              refuse principal op spec resolutionUnresolvable emptyScope scope e
            else st_err e
        | Panic m => st_result (Panic m)
        | Ok chain =>
            gs ← res (Grants tx principal);
            authorizeResolved caller op spec scope chain gs
        end
  end.

Definition selfConfigInstanceOps : list Operation :=
  [OpSelfConfigStatus; OpSelfConfigAdopt; OpSelfConfigPreview].

Definition authorizeInstance (caller : Identity) (op : Operation) (spec : authorizationSpec)
    : ST TxAuthorizer proof :=
  let principal := id_Principal caller in
  let refuseInstance := refuse principal op spec resolutionResolvable emptyScope emptyScope ErrUnauthorized in
  if contains selfConfigInstanceOps op && (id_Class caller <>s "") && (id_Class caller <>s ClassHuman)
  then refuseInstance
  else
    gs ← res (Grants tx principal);
    held ← st_result (evaluate (as_formula spec) emptyScope gs);
    if negb held then refuseInstance
    else if assuranceInadequate caller op then refuseInstance
    else
      admin ← (if selfConfigSessionEligible caller
               then st_result (evaluate [MkAtom CapInstanceConfig LevelNone] emptyScope gs)
               else mret false);
      a ← st_get;
      mret (MkProof false admin "" kindInstance op "" emptyScope (az_tok a)).

Definition Authorize (caller : Identity) (op : Operation) (scope : Scope) : ST TxAuthorizer proof :=
  spec ← lookupSpec op;
  if id_Principal caller =s "" then authzErr "empty principal"
  else if negb (IsNetwork ctx) && (id_Class caller =s ClassInstanceConn) &&
          (let '(admitted, described) :=
             AuthorizationOperationAdmitsArtifact apiOps op ArtifactInstanceCredential in
           negb described || negb admitted)
  then refuse (id_Principal caller) op spec resolutionUnresolvable emptyScope scope
         (if as_class spec =? ClassTenant then ErrNotFound else ErrUnauthorized)
  else if as_class spec =? ClassTenant then authorizeTenant caller op spec scope
  else if as_class spec =? ClassInstance then
    if negb (scope_eqb scope emptyScope) then
      authzErr "instance operation addressed with a tenant scope"
    else authorizeInstance caller op spec
  else authzErr "operation does not mint proofs via Authorize".

(** ** Probes that mint nothing *)
Definition emptySpec : authorizationSpec := MkAuthorizationSpec 0 0 [].

Definition principalFormulaEvaluation (principal : PrincipalID) (op : Operation) (scope : Scope)
    : ST TxAuthorizer (authorizationSpec * Scope * bool) :=
  spec ← lookupSpec op;
  resolved ← st_try (res (ResolveChain tx scope));
  match resolved with
  | Err e => if errors_Is e nameErrNotFound then mret (spec, emptyScope, false) else st_err e
  | Panic m => st_result (Panic m)
  | Ok chain =>
      gs ← res (Grants tx principal);
      profile ← selfConfigProfile (MkIdentity principal "" "" "" noAssurance) op chain gs;
      if (profile.2 : bool) then
        held ← st_result (evaluate (as_formula spec) chain gs);
        mret (spec, chain, held)
      else mret (spec, chain, false)
  end.

Definition CallerHolds (caller : Identity) (op : Operation) (scope : Scope) : ST TxAuthorizer bool :=
  if id_Principal caller =s "" then authzErr "empty principal"
  else
    ev ← principalFormulaEvaluation (id_Principal caller) op scope;
    if negb ev.2 then mret false
    else
      protected ← res (IsSelfConfigScope ev.1.2);
      if protected && negb (selfConfigSessionEligible caller) then mret false
      else mret (negb (assuranceInadequate caller op)).

Definition HoldsInstanceCapability (caller : Identity) (op : Operation) : ST TxAuthorizer bool :=
  if id_Principal caller =s "" then authzErr "empty principal"
  else
    spec ← lookupSpec op;
    if negb (as_class spec =? ClassInstance) then authzErr "operation is not instance-scoped"
    else if contains selfConfigInstanceOps op && negb (selfConfigSessionEligible caller) then mret false
    else
      gs ← res (Grants tx (id_Principal caller));
      held ← st_result (evaluate (as_formula spec) emptyScope gs);
      if negb held then mret false else mret (negb (assuranceInadequate caller op)).

(** The attribution [RecordedPrincipalHolds] adds to the denial it captured. *)
Definition attributeLast (credentialID : string) (authority : PrincipalID) (before : nat)
    (a : TxAuthorizer) : TxAuthorizer :=
  if (length (az_denials a) <=? before)%nat then a
  else set_denials (imap (fun i d =>
    if Nat.eqb (S i) (length (az_denials a)) then
      let e := dn_Event d in
      MkDenial (dn_Trail d) (dn_Scope d)
        (MkEvent (ev_ID e) (ev_Type e) (ev_SchemaVersion e) (ev_OccurredAt e) (ev_OccurredAsserted e)
           (MkActor (actor_ID (ev_Actor e)) (actor_Class (ev_Actor e)) credentialID)
           authority (ev_Object e) (ev_Outcome e) (ev_CorrelationID e) (ev_SourceIP e)
           (ev_UserAgent e) (ev_Origin e) (ev_Payload e))
    else d) (az_denials a)) a.

Definition RecordedPrincipalHolds (caller : Identity) (principal : PrincipalID) (op : Operation)
    (scope : Scope) : ST TxAuthorizer bool :=
  if id_Principal caller =s "" then authzErr "empty caller principal"
  else if principal =s "" then authzErr "empty recorded authority principal"
  else
    ev ← principalFormulaEvaluation principal op scope;
    let '(spec, chain, holds) := ev in
    if (holds : bool) then mret true
    else
      a ← st_get;
      let before := length (az_denials a) in
      _ ← (if scope_eqb chain emptyScope
           then captureDenial (id_Principal caller) op spec resolutionUnresolvable emptyScope scope
           else captureDenial (id_Principal caller) op spec resolutionResolvable chain emptyScope);
      _ ← st_modify (attributeLast (id_CredentialID caller) principal before);
      mret false.

(** ** System mint sites *)
Definition resolverBoundSites : list SystemSite :=
  [SiteSelfConfigRuntime; SiteSelfConfigRecovery; SiteSelfConfigSeed].

Definition systemOp (site : SystemSite) : Operation := String.append "system:" site.

Definition SystemAuthority (site : SystemSite) (tok : option TxToken) : result proof :=
  if contains resolverBoundSites site then
    Err (ENew "authz: self-config runtime authority requires its bound resolver")
  else match systemSites !! site with
  | None => Err (ENew "authz: not a registered system mint site")
  | Some _ =>
      match tok with
      | None => Err (ENew "authz: system authority requires a live transaction")
      | Some _ => Ok (MkProof false false "" kindSystem (systemOp site) site emptyScope tok)
      end
  end.

Definition ScopedSystemAuthority (site : SystemSite) (scope : Scope) : ST TxAuthorizer proof :=
  if contains resolverBoundSites site then
    authzErr "self-config runtime authority requires its bound resolver"
  else match systemSites !! site with
  | None => authzErr "not a registered system mint site"
  | Some _ =>
      a ← st_get;
      match az_tok a with
      | None => authzErr "scoped system authority requires a live transaction"
      | Some _ =>
          if Org scope =s "" then authzErr "scoped system authority requires a tenant scope"
          else
            chain ← res (ResolveChain tx scope);
            mret (MkProof false false "" kindSystem (systemOp site) site chain (az_tok a))
      end
  end.

Definition SelfConfigSeedAuthority : ST TxAuthorizer proof :=
  if IsNetwork ctx then authzErr "seed authority is unavailable to network operations"
  else
    a ← st_get;
    mret (MkProof false false "" kindSystem (systemOp SiteSelfConfigSeed) SiteSelfConfigSeed
            emptyScope (az_tok a)).

Definition SelfConfigRuntimeAuthority (snapshotID : string) : ST TxAuthorizer proof :=
  if IsNetwork ctx then authzErr "runtime authority is unavailable to network operations"
  else
    b ← res (Resolver_SelfConfigBinding tx);
    let snapshotID := if snapshotID =s "" then scb_DesiredSnapshotID b else snapshotID in
    retained ← res (SelfConfigRetained tx snapshotID);
    if negb retained then st_err ErrNotFound
    else
      a ← st_get;
      mret (MkProof true false snapshotID kindSystem (systemOp SiteSelfConfigRuntime)
              SiteSelfConfigRuntime (scb_Scope b) (az_tok a)).

Definition SelfConfigRecoveryAuthority (revision : Z) : ST TxAuthorizer proof :=
  if IsNetwork ctx then authzErr "recovery authority is unavailable to network operations"
  else if revision <? 1 then st_err ErrInvalid
  else
    b ← res (Resolver_SelfConfigBinding tx);
    snapshotID ← res (SelfConfigRecoverySnapshot tx b revision);
    a ← st_get;
    mret (MkProof true false snapshotID kindSystem (systemOp SiteSelfConfigRecovery)
            SiteSelfConfigRecovery (scb_Scope b) (az_tok a)).

(** ** Network admission: [artifact_admission.go] *)
Definition ContractArtifactClass (caller : Identity) : string :=
  let c := id_Class caller in
  if c =s "" then ArtifactLocal
  else if c =s ClassHuman then ArtifactHumanSession
  else if c =s ClassInstanceConn then ArtifactInstanceCredential
  else if c =s ClassProvisioning then ArtifactSCIMCredential
  else if IsServiceAccountKind c then ArtifactMachineCredential
  else "".

Definition refusedEvent (id : string) (now : Time) (caller : Identity) (op : Contract) (class : string)
    : Event :=
  let wire := FromContext (cx_wire ctx) in
  let credentialID := if id_CredentialID caller =s "" then id_SessionID caller else id_CredentialID caller in
  {| ev_ID := id; ev_Type := EventAuthArtifactClassRefused; ev_SchemaVersion := 1; ev_OccurredAt := now;
     ev_OccurredAsserted := false; ev_Actor := MkActor (id_Principal caller) "" credentialID;
     ev_AuthorityID := ""; ev_Object := MkObject "api-operation" (ct_ID op);
     ev_Outcome := OutcomeFailure; ev_CorrelationID := "";
     ev_SourceIP := ctx_SourceIP wire; ev_UserAgent := ctx_UserAgent wire; ev_Origin := ctx_Origin wire;
     ev_Payload := [("operation", VString (ct_ID op)); ("artifact_class", VString class);
                    ("cause", VString "class-mismatch")] |}.

Definition AdmitOperation (caller : Identity) : ST TxAuthorizer unit := fun a =>
  match operation_FromContext ctx with
  | None => if IsNetwork ctx then (Err ErrNotFound, a) else (Ok (), a)
  | Some op =>
      let class := ContractArtifactClass caller in
      if AdmitsArtifact op class then (Ok (), a)
      else
        let n := az_minted a in
        let a := mint a in
        match NewEventID (cx_uuid ctx n) with
        | Err e => (Err ErrNotFound, set_captureErr (Some (joinErr (az_captureErr a) e)) a)
        | Panic m => (Panic m, a)
        | Ok id =>
            (Err ErrNotFound,
             set_denials (az_denials a ++ [MkDenial TrailInstance emptyScope
               (refusedEvent id (cx_now ctx n) caller op class)]) a)
        end
  end.

End Chokepoint.

#[global] Opaque selfConfigOperations.
