(* ===== verification/AuthorizeSpec.v ===== *)
(** * What the chokepoint guarantees

    Formula evaluation against the scope lattice, and the theorems about
    [Authorize]: when a proof is minted, what a refusal looks like from
    outside, and what each extra conjunct (machine reveal, protected
    environments, the self-configuration profile, the MFA floor) enforces. *)

From S2P Require Import Prelude Domain OperationNames EventNames OperationTable AuditTable Registry.
From S2P Require Import FreeText AuditEvent Resolver Authorize.

#[local] Open Scope Z_scope.

(** ** The scope lattice *)

(** [cut s l]: the chain [s] cut to a level of the enumeration. *)
Definition cut (s : Scope) (l : Level) : Scope :=
  if l =? LevelNone then emptyScope
  else if l =? LevelOrg then MkScope (Org s) "" ""
  else if l =? LevelProject then MkScope (Org s) (Project s) ""
  else s.

(** [g] is [t] or one of its ancestors: [t] cut at [g]'s own level. *)
Definition ancestor (g t : Scope) : Prop := exists l, Scope_Level g = Ok l /\ cut t l = g.

Lemma truncate_valid s l : LevelNone <= l <= LevelEnv -> truncate s l = Ok (cut s l).
Proof.
  intros H. unfold truncate, cut, LevelNone, LevelOrg, LevelProject, LevelEnv in *.
  repeat (case_match; bools; try done). lia.
Qed.

(** On scopes without gaps, [covers] is the ancestor order. *)
Lemma covers_ancestor g t : is_ok (Scope_Level g) = true -> covers g t = true <-> ancestor g t.
Proof.
  destruct (Scope_Level g) as [l| |] eqn:Hl; [|discriminate..]. intros _.
  unfold ancestor. rewrite Hl.
  assert ((exists l', Ok l = Ok l' /\ cut t l' = g) <-> cut t l = g) as -> by naive_solver.
  apply Scope_Level_cases in Hl.
  destruct g as [go gp ge], t as [to tp te]. unfold covers, cut; cbn in *.
  destruct Hl as [(-> & [= -> -> ->])|[(-> & Ho & -> & ->)|[(-> & Ho & Hp & ->)|(-> & Ho & Hp & He)]]]; cbn.
  - done.
  - rewrite (proj2 (String.eqb_neq go "")) by done.
    destruct (String.eqb_spec go to); cbn; naive_solver.
  - rewrite (proj2 (String.eqb_neq go "")), (proj2 (String.eqb_neq gp "")) by done.
    destruct (String.eqb_spec go to), (String.eqb_spec gp tp); cbn; naive_solver.
  - rewrite (proj2 (String.eqb_neq go "")), (proj2 (String.eqb_neq gp "")),
      (proj2 (String.eqb_neq ge "")) by done.
    destruct (String.eqb_spec go to), (String.eqb_spec gp tp), (String.eqb_spec ge te); cbn; naive_solver.
Qed.

(** ** Formula evaluation *)
Definition formula_levels (f : Formula) : Prop := Forall (fun a => LevelNone <= At a <= LevelEnv) f.

(** Every atom is covered by some grant of the list. *)
Definition satisfied (f : Formula) (chain : Scope) (gs : list Grant) : Prop :=
  Forall (fun a => exists g, In g gs /\ g_Capability g = Cap a /\
    covers (g_Scope g) (cut chain (At a)) = true) f.

Lemma evaluate_spec f chain gs : formula_levels f ->
  exists b, evaluate f chain gs = Ok b /\ (b = true <-> satisfied f chain gs).
Proof.
  unfold satisfied. induction 1 as [|a f Ha Hf IH]; cbn.
  - exists true. split; [done|]. split; [constructor|done].
  - rewrite truncate_valid by done. cbn. destruct IH as (b & Hb & IH).
    destruct (existsb _ gs) eqn:E.
    + exists b. split; [done|]. rewrite Forall_cons, IH.
      apply existsb_exists in E as (g & Hin & Hg). bools. naive_solver.
    + exists false. split; [done|]. rewrite Forall_cons. split; [done|].
      intros [(g & Hin & Hc & Hcov) _]. pose proof (existsb_false _ _ _ E Hin) as Hx. cbn in Hx.
      rewrite Hc, String.eqb_refl, Hcov in Hx. discriminate.
Qed.

Lemma evaluate_true f chain gs : formula_levels f ->
  evaluate f chain gs = Ok true <-> satisfied f chain gs.
Proof.
  intros H. destruct (evaluate_spec f chain gs H) as (b & -> & Hb). rewrite <- Hb.
  destruct b; naive_solver.
Qed.

Lemma evaluate_false f chain gs : formula_levels f ->
  evaluate f chain gs = Ok false <-> ~ satisfied f chain gs.
Proof.
  intros H. destruct (evaluate_spec f chain gs H) as (b & -> & Hb). rewrite <- Hb.
  destruct b; naive_solver.
Qed.

(** Registered formulas only name levels of the enumeration. *)
Lemma registered_levels op spec : registry !! op = Some spec -> formula_levels (formula spec).
Proof.
  intros H%registry_WellFormed. eapply Forall_impl; [apply (wf_atoms _ _ H)|].
  intros a (d & _ & Hl & _). exact Hl.
Qed.

(** ** Entitlement in terms of the stored grants *)

(** The principal holds [cap] at [target] by a grant stored there or above. *)
Definition entitled (active : bool) (db : DB) (principal : PrincipalID) (cap : Capability)
    (target : Scope) : Prop :=
  exists s, holds_grant active db principal cap s /\ ancestor s target.

Definition formula_entitled (active : bool) (db : DB) (principal : PrincipalID) (f : Formula)
    (chain : Scope) : Prop :=
  Forall (fun a => entitled active db principal (Cap a) (cut chain (At a))) f.

(** On the grants the resolver returns, satisfaction is entitlement. *)
Lemma satisfied_entitled active db principal gs f chain :
  grantsFromRows (grantRows active principal db) = Ok gs ->
  satisfied f chain gs <-> formula_entitled active db principal f chain.
Proof.
  intros [-> Hlev]%grantsFromRows_Ok. unfold satisfied, formula_entitled, entitled, holds_grant.
  rewrite Forall_forall in Hlev.
  enough (forall a, (exists g, In g (map (fun r => MkGrant (gr_capability r) (rowScope r))
      (grantRows active principal db)) /\ g_Capability g = Cap a /\
      covers (g_Scope g) (cut chain (At a)) = true) <->
    exists s, (exists g p, In g (grants db) /\ gr_principal_id g = principal /\
      gr_capability g = Cap a /\ rowScope g = s /\ In p (principals db) /\ pr_id p = principal /\
      (active = true -> pr_privacy_state p = "active") /\ reconciled db p = true) /\
      ancestor s (cut chain (At a))) as H
    by (split; (intros Hs; eapply Forall_impl; [exact Hs|]; intros a; apply H)).
  intros a. split.
  - intros (g & Hin & Hc & Hcov). apply in_map_iff in Hin as (r & <- & Hr). cbn in *.
    pose proof (Hlev r (proj2 (list_elem_of_In _ _) Hr)) as Hl.
    apply grantRows_spec in Hr as (Hg & Hp & p & Hpin & Hid & Hact & Hrec).
    exists (rowScope r). split; [by exists r, p|]. by apply covers_ancestor.
  - intros (s & (r & p & Hg & Hgp & Hcap & <- & Hpin & Hid & Hact & Hrec) & Hanc).
    assert (In r (grantRows active principal db)) as Hr by (apply grantRows_spec; eauto 10).
    exists (MkGrant (gr_capability r) (rowScope r)). split; [by apply in_map_iff; exists r|].
    split; [done|]. cbn. apply covers_ancestor; [|done]. apply Hlev. by apply list_elem_of_In.
Qed.

(** ** Steps of the authorizer *)
Section Steps.
Context (tx : TxEnv) (ctx : Ctx) (apiOps : option (list ApiOperation)).
Let db := tx_db tx.

Lemma res_Ok {A} (m : ST Resolver A) a x a' :
  res m a = (Ok x, a') <-> exists r', m (az_r a) = (Ok x, r') /\ a' = set_r r' a.
Proof.
  unfold res, st_zoom. destruct (m (az_r a)) as [o r'] eqn:E. split.
  - intros [= -> <-]. eauto.
  - intros (r0 & [= -> ->] & ->). done.
Qed.

Lemma st_try_Ok {S A} (m : ST S A) s x s' :
  st_try m s = (Ok x, s') <-> m s = (x, s') /\ is_panic x = false.
Proof. unfold st_try. destruct (m s) as [[a|e|p] s0]; naive_solver. Qed.

Lemma refuse_not_Ok {A} principal op spec resolution chain claimed e a (x : A) a' :
  refuse ctx principal op spec resolution chain claimed e a <> (Ok x, a').
Proof.
  unfold refuse, mbind, st_bind, st_err, st_result.
  destruct (captureDenial _ _ _ _ _ _ _ a) as [[|?|?] ?]; discriminate.
Qed.

(** The profile's answer in terms of the marker. *)
Lemma selfConfigProfile_Ok caller op chain gs a p a' :
  selfConfigProfile caller op chain gs a = (Ok p, a') ->
  a' = a /\ exists protected,
    protected = (selfConfigOrgID (az_r a) <>s "") && (Org chain =s selfConfigOrgID (az_r a)) /\
    p.1 = protected /\
    if protected then
      p.2 = true ->
        (id_Class caller = "" \/ id_Class caller = ClassHuman) /\
        flag selfConfigOperations op = true /\
        evaluate (profileFormula op) chain gs = Ok true
    else p.2 = (op <>s OpSelfConfigApply) && (op <>s OpSelfConfigTest).
Proof.
  unfold selfConfigProfile. intros H. apply st_bind_Ok in H as (protected & a1 & H1 & H).
  apply res_Ok in H1 as (r' & H1 & ->). unfold IsSelfConfigScope, mbind, st_bind, st_get, mret, st_ret in H1.
  injection H1 as Hp <-. replace (set_r (az_r a) a) with a in * by (by destruct a).
  rewrite Hp. destruct protected; cbn [negb] in H.
  - destruct (_ && _)%bool eqn:Hc in H.
    { injection H as <- <-. split; [done|]. exists true. split; [done|]. by split. }
    assert (id_Class caller = "" \/ id_Class caller = ClassHuman) as Hcls.
    { apply andb_false_iff in Hc as [Hc|Hc]; bools; auto. }
    destruct (flag selfConfigOperations op) eqn:Hop; cbn [negb] in H.
    + apply st_bind_Ok in H as (held & a2 & He & H). injection He as He <-.
      injection H as <- <-. split; [done|]. exists true. split; [done|]. split; [done|].
      cbn [fst snd]. intros ->. split; [exact Hcls|]. split; [reflexivity|exact He].
    + injection H as <- <-. split; [done|]. exists true. split; [done|]. by split.
  - injection H as <- <-. split; [done|]. by exists false.
Qed.

Lemma machineEnvDelete_Ok caller op chain a b a' :
  machineEnvDeleteRefused tx caller op chain a = (Ok b, a') ->
  exists r', a' = set_r r' a /\ answered tx (az_r a) r' /\
    selfConfigOrgID r' = selfConfigOrgID (az_r a) /\
    (IsServiceAccountKind (id_Class caller) = true -> op = OpEnvDelete -> b = false ->
     exists e, In e (environments db) /\ en_id e = Env chain /\
       boolColumn (tx_engine tx) (en_protected e) = false).
Proof.
  unfold machineEnvDeleteRefused. destruct (_ && _)%bool eqn:Hc.
  - intros H. apply st_bind_Ok in H as (st & a1 & H1 & H). injection H as <- <-.
    apply res_Ok in H1 as (r' & H1 & ->). unfold EnvironmentReauthSettings in H1.
    apply st_bind_Ok in H1 as (row & r1 & H1 & H2). injection H2 as <- <-.
    apply orNotFound_Ok, query_Ok in H1 as (Hf & -> & Ha). apply one_Ok in Hf.
    apply find_some in Hf as [Hin Hid]. eexists. split; [done|]. split; [done|]. split; [done|].
    cbn. intros _ _ Hp. exists row. bools. done.
  - intros H. injection H as <- <-. exists (az_r a). split; [by destruct a|].
    split; [apply answered_refl|]. split; [done|]. intros Hk -> _. rewrite Hk in Hc. discriminate.
Qed.

Lemma machineRevealWithdrawn_Ok caller f chain a b a' :
  machineRevealWithdrawn tx caller f chain a = (Ok b, a') ->
  exists r', a' = set_r r' a /\
    (b = false -> answered tx (az_r a) r') /\
    (IsServiceAccountKind (id_Class caller) = true -> Project chain <> "" -> demandsReveal f = true ->
     b = false -> exists p, In p (projects db) /\ pj_id p = Project chain /\
       boolColumn (tx_engine tx) (pj_machine_reveal p) = true).
Proof.
  unfold machineRevealWithdrawn. destruct (negb (IsServiceAccountKind _) || _)%bool eqn:Hc.
  - intros H. injection H as <- <-. exists (az_r a). split; [by destruct a|].
    split; [intros _; apply answered_refl|]. intros Hk Hp. rewrite Hk in Hc. cbn in Hc. by string_eqs.
  - destruct (demandsReveal f); cbn [negb].
    + intros H. apply st_bind_Ok in H as (st & a1 & H1 & H). apply st_try_Ok in H1 as [H1 _].
      unfold res, st_zoom in H1. destruct (ProjectMachineReveal tx _ _) as [o r'] eqn:Hq.
      injection H1 as -> <-. exists r'. destruct st as [st|e|m].
      * injection H as <- <-. split; [done|]. unfold ProjectMachineReveal in Hq.
        apply st_bind_Ok in Hq as (row & r1 & Hq & H2). injection H2 as <- <-.
        apply orNotFound_Ok, query_Ok in Hq as (Hf & -> & Ha). apply one_Ok in Hf.
        apply find_some in Hf as [Hin Hid]. split; [done|]. cbn. intros _ _ _ Hb.
        exists row. bools. done.
      * destruct (errors_Is e nameErrNotFound); [|discriminate]. injection H as <- <-.
        split; [done|]. by split.
      * discriminate.
    + intros H. injection H as <- <-. exists (az_r a). split; [by destruct a|].
      split; [intros _; apply answered_refl|]. done.
Qed.

(** Everything that holds when a tenant proof is minted. *)
Record TenantMint (caller : Identity) (op : Operation) (spec : opSpec) (scope : Scope)
    (a : TxAuthorizer) (pf : proof) (a' : TxAuthorizer) : Prop := {
  tm_level : Scope_Level scope = Ok (level spec);
  tm_exists : chain_exists db scope;
  tm_state : exists r', a' = set_r r' a /\ answered tx (az_r a) r';
  tm_grants : exists gs, grantsFromRows (grantRows (activeOnly (az_r a)) (id_Principal caller) db) = Ok gs /\
    satisfied (formula spec) scope gs /\
    (pf_selfConfig pf = true -> evaluate (profileFormula op) scope gs = Ok true);
  tm_marker : let m := markerOf tx (az_r a) (id_Principal caller) in
    pf_selfConfig pf = (m <>s "") && (Org scope =s m);
  tm_profile : if pf_selfConfig pf then
      (id_Class caller = "" \/ id_Class caller = ClassHuman) /\ flag selfConfigOperations op = true
    else op <> OpSelfConfigApply /\ op <> OpSelfConfigTest;
  tm_envDelete : IsServiceAccountKind (id_Class caller) = true -> op = OpEnvDelete ->
    exists e, In e (environments db) /\ en_id e = Env scope /\
      boolColumn (tx_engine tx) (en_protected e) = false;
  tm_reveal : IsServiceAccountKind (id_Class caller) = true -> Project scope <> "" ->
    demandsReveal (formula spec) = true ->
    exists p, In p (projects db) /\ pj_id p = Project scope /\
      boolColumn (tx_engine tx) (pj_machine_reveal p) = true;
  tm_assurance : id_SessionID caller <> "" ->
    FormulaDemandsMFA op = true \/ pf_selfConfig pf = true ->
    AdequateAssurance (id_Assurance caller) = true;
  tm_proof : pf = MkProof (pf_selfConfig pf) false "" kindTenant op "" scope (az_tok a) }.

Lemma authorizeResolved_Ok caller op spec scope gs a pf a' :
  formula_levels (formula spec) ->
  authorizeResolved tx ctx caller op (MkAuthorizationSpec (class spec) (level spec) (formula spec))
    scope scope gs a = (Ok pf, a') ->
  exists r', a' = set_r r' a /\ answered tx (az_r a) r' /\
  satisfied (formula spec) scope gs /\
  (pf_selfConfig pf = true -> evaluate (profileFormula op) scope gs = Ok true) /\
  pf_selfConfig pf = (selfConfigOrgID (az_r a) <>s "") && (Org scope =s selfConfigOrgID (az_r a)) /\
  (if pf_selfConfig pf then
     (id_Class caller = "" \/ id_Class caller = ClassHuman) /\ flag selfConfigOperations op = true
   else op <> OpSelfConfigApply /\ op <> OpSelfConfigTest) /\
  (IsServiceAccountKind (id_Class caller) = true -> op = OpEnvDelete ->
    exists e, In e (environments db) /\ en_id e = Env scope /\
      boolColumn (tx_engine tx) (en_protected e) = false) /\
  (IsServiceAccountKind (id_Class caller) = true -> Project scope <> "" ->
    demandsReveal (formula spec) = true ->
    exists p, In p (projects db) /\ pj_id p = Project scope /\
      boolColumn (tx_engine tx) (pj_machine_reveal p) = true) /\
  (id_SessionID caller <> "" -> FormulaDemandsMFA op = true \/ pf_selfConfig pf = true ->
    AdequateAssurance (id_Assurance caller) = true) /\
  pf = MkProof (pf_selfConfig pf) false "" kindTenant op "" scope (az_tok a).
Proof.
  intros Hlev H.
  unfold authorizeResolved in H. cbn [as_formula] in H.
  apply st_bind_Ok in H as (held & a1 & He & H). injection He as He <-.
  destruct held; cbn [negb] in H; [|exfalso; eapply refuse_not_Ok; exact H].
  apply evaluate_true in He; [|done].
  apply st_bind_Ok in H as (und & a1 & Hd & H). destruct und; [exfalso; eapply refuse_not_Ok; exact H|].
  apply machineEnvDelete_Ok in Hd as (r1 & -> & A1 & M1 & Hdel).
  apply st_bind_Ok in H as (prof & a2 & Hp & H).
  apply selfConfigProfile_Ok in Hp as (-> & prot & Hprot & Hp1 & Hp2).
  destruct (prof.2) eqn:Hperm; cbn [negb] in H; [|exfalso; eapply refuse_not_Ok; exact H].
  apply st_bind_Ok in H as (den & a3 & Hr & H). destruct den; [exfalso; eapply refuse_not_Ok; exact H|].
  apply machineRevealWithdrawn_Ok in Hr as (r3 & -> & A3 & Hrev).
  destruct (_ || _)%bool eqn:Hmfa in H; [exfalso; eapply refuse_not_Ok; exact H|].
  unfold mbind, st_bind, st_get, mret, st_ret in H. injection H as <- <-. cbn [pf_selfConfig az_r set_r az_tok] in *.
  exists r3. split; [by destruct a|]. split; [by eapply answered_trans; [exact A1|apply A3]|].
  split; [done|]. rewrite Hp1. rewrite M1 in Hprot.
  split; [by intros ->; apply Hp2|]. split; [done|].
  split. { destruct prot; [destruct (Hp2 eq_refl) as (? & ? & _); by split|]. symmetry in Hp2. by bools. }
  split; [by intros; apply Hdel|]. split; [by intros; apply Hrev|]. split; [|done].
  intros Hs [Hd|Hd]; unfold assuranceInadequate in Hmfa;
    destruct (AdequateAssurance _); [reflexivity| |reflexivity|]; apply orb_false_elim in Hmfa as [Hm1 Hm2].
  - rewrite (proj2 (String.eqb_neq _ _) Hs), Hd in Hm1. discriminate Hm1.
  - rewrite (proj2 (String.eqb_neq _ _) Hs), Hp1, Hd in Hm2. discriminate Hm2.
Qed.
Lemma authorizeTenant_Ok caller op spec scope a pf a' :
  registry !! op = Some spec -> class spec = ClassTenant ->
  authorizeTenant tx ctx caller op (MkAuthorizationSpec (class spec) (level spec) (formula spec))
    scope a = (Ok pf, a') ->
  TenantMint caller op spec scope a pf a'.
Proof.
  intros Hreg Hcls H. pose proof (registry_WellFormed op spec Hreg) as Hwf.
  pose proof (registered_levels op spec Hreg) as Hlev. clear Hreg.
  assert (level spec <> LevelNone) as Hne.
  { destruct (wf_class _ _ Hwf) as [[_ Hl]|[Hc _]]; [unfold LevelNone, LevelOrg in *; lia|].
    rewrite Hcls in Hc. discriminate Hc. }
  unfold authorizeTenant in H. destruct (Scope_Level scope) as [l|e|m] eqn:Hl; [|discriminate H..].
  cbn [as_level] in H. destruct (Z.eqb_spec l (level spec)) as [->|]; [|discriminate H]. cbn [negb] in H.
  apply st_bind_Ok in H as (rc & a1 & Hrc & H). apply st_try_Ok in Hrc as [Hrc _].
  destruct rc as [chain|e|m]; [|destruct (errors_Is e nameErrNotFound);
    [exfalso; eapply refuse_not_Ok; exact H|discriminate H]|discriminate H].
  apply res_Ok in Hrc as (r1 & Hrc & ->).
  apply (ResolveChain_Ok _ _ _ _ _ _ Hl Hne) in Hrc as (-> & Hex & Hm1 & A1).
  apply st_bind_Ok in H as (gs & a2 & Hg & H). apply res_Ok in Hg as (r2 & Hg & ->). cbn [az_r set_r] in Hg.
  apply Grants_Ok in Hg as (Hgs & Hm2 & A2).
  assert (activeOnly r1 = activeOnly (az_r a) /\ markerOf tx r1 (id_Principal caller) =
    markerOf tx (az_r a) (id_Principal caller)) as [Hact Hmk].
  { destruct A1 as [[E1 E2] _]. unfold activeOnly, markerOf. by rewrite E1, E2. }
  apply (authorizeResolved_Ok _ _ _ _ _ _ _ _ Hlev) in H
    as (r3 & -> & A3 & Hsat & Hprof & Hsc & Hpr & Hdel & Hrev & Hass & Hpf).
  cbn [az_r set_r az_tok] in *. rewrite Hact in Hgs. rewrite Hmk in Hm2. rewrite Hm2 in Hsc.
  constructor; try assumption.
  - exists r3. split; [reflexivity|]. eapply answered_trans; [exact A1|]. by eapply answered_trans.
  - exists gs. split; [exact Hgs|]. split; [exact Hsat|exact Hprof].
Qed.

(** Everything that holds when an instance proof is minted. *)
Record InstanceMint (caller : Identity) (op : Operation) (spec : opSpec)
    (a : TxAuthorizer) (pf : proof) (a' : TxAuthorizer) : Prop := {
  im_state : exists r', a' = set_r r' a /\ answered tx (az_r a) r';
  im_grants : exists gs, grantsFromRows (grantRows (activeOnly (az_r a)) (id_Principal caller) db) = Ok gs /\
    satisfied (formula spec) emptyScope gs /\
    (pf_selfConfigAdmin pf = true -> evaluate [MkAtom CapInstanceConfig LevelNone] emptyScope gs = Ok true);
  im_selfConfig : In op selfConfigInstanceOps -> id_Class caller = "" \/ id_Class caller = ClassHuman;
  im_admin : pf_selfConfigAdmin pf = true -> selfConfigSessionEligible caller = true;
  im_assurance : id_SessionID caller <> "" -> FormulaDemandsMFA op = true ->
    AdequateAssurance (id_Assurance caller) = true;
  im_proof : pf = MkProof false (pf_selfConfigAdmin pf) "" kindInstance op "" emptyScope (az_tok a) }.

Lemma authorizeInstance_Ok caller op spec a pf a' :
  registry !! op = Some spec ->
  authorizeInstance tx ctx caller op (MkAuthorizationSpec (class spec) (level spec) (formula spec))
    a = (Ok pf, a') ->
  InstanceMint caller op spec a pf a'.
Proof.
  intros Hreg H. pose proof (registered_levels op spec Hreg) as Hlev. clear Hreg.
  unfold authorizeInstance in H. destruct (_ && _)%bool eqn:Hc in H;
    [exfalso; eapply refuse_not_Ok; exact H|].
  apply st_bind_Ok in H as (gs & a1 & Hg & H). apply res_Ok in Hg as (r1 & Hg & ->).
  apply Grants_Ok in Hg as (Hgs & _ & A1).
  apply st_bind_Ok in H as (held & a2 & He & H). injection He as He <-. cbn [as_formula] in He.
  destruct held; cbn [negb] in H; [|exfalso; eapply refuse_not_Ok; exact H].
  apply evaluate_true in He; [|exact Hlev].
  destruct (assuranceInadequate caller op) eqn:Hmfa; [exfalso; eapply refuse_not_Ok; exact H|].
  apply st_bind_Ok in H as (adm & a3 & Ha & H).
  assert (a3 = set_r r1 a /\ (adm = true -> selfConfigSessionEligible caller = true /\
    evaluate [MkAtom CapInstanceConfig LevelNone] emptyScope gs = Ok true)) as [-> Hadm].
  { destruct (selfConfigSessionEligible caller).
    - injection Ha as Ha <-. split; [reflexivity|]. by intros ->.
    - injection Ha as <- <-. by split. }
  unfold mbind, st_bind, st_get, mret, st_ret in H. injection H as <- <-.
  constructor; cbn [pf_selfConfigAdmin az_tok set_r].
  - exists r1. by split.
  - exists gs. split; [exact Hgs|]. split; [exact He|]. intros Ht. by destruct (Hadm Ht).
  - intros Hin%contains_In. rewrite Hin in Hc. cbn in Hc. apply andb_false_iff in Hc as [Hc|Hc]; bools; auto.
  - intros Ht. by destruct (Hadm Ht).
  - intros Hs Hd. unfold assuranceInadequate in Hmfa.
    rewrite (proj2 (String.eqb_neq _ _) Hs), Hd in Hmfa. by apply negb_false_iff.
  - reflexivity.
Qed.

(** Inversion of a minted proof. *)
Lemma Authorize_Ok caller op scope a pf a' :
  Authorize tx ctx apiOps caller op scope a = (Ok pf, a') ->
  id_Principal caller <> "" /\
  exists spec, registry !! op = Some spec /\
    ((class spec = ClassTenant /\ TenantMint caller op spec scope a pf a') \/
     (class spec = ClassInstance /\ scope = emptyScope /\ InstanceMint caller op spec a pf a')).
Proof.
  unfold Authorize. intros H. apply st_bind_Ok in H as (sp & a1 & Hs & H). unfold lookupSpec in Hs.
  destruct (Registry_authorizationSpec op) as [sp'|] eqn:Hsp; [|discriminate Hs].
  injection Hs as <- <-. apply authorizationSpec_lookup in Hsp as (spec & Hreg & ->).
  destruct (String.eqb_spec (id_Principal caller) ""); [discriminate H|]. split; [assumption|].
  exists spec. split; [exact Hreg|]. cbn [as_class] in H.
  destruct (_ && _)%bool in H; [exfalso; eapply refuse_not_Ok; exact H|].
  destruct (Z.eqb_spec (class spec) ClassTenant) as [Hc|Hc].
  - left. split; [exact Hc|]. exact (authorizeTenant_Ok _ _ _ _ _ _ _ Hreg Hc H).
  - destruct (Z.eqb_spec (class spec) ClassInstance) as [Hi|Hi]; [|discriminate H].
    destruct (scope_eqb scope emptyScope) eqn:Hsc; [|discriminate H].
    right. split; [exact Hi|]. split; [apply scope_eqb_eq; exact Hsc|]. exact (authorizeInstance_Ok _ _ _ _ _ _ Hreg H).
Qed.
End Steps.
