(* ===== verification/Refusal.v ===== *)
(** * Refusals

    What the chokepoint leaves behind when it does not mint: every uniform
    answer has captured its denial, driver failures never turn into a uniform
    answer, and nothing panics. *)

From S2P Require Import Prelude Domain OperationNames EventNames OperationTable AuditTable Registry.
From S2P Require Import FreeText AuditEvent Resolver Authorize AuthorizeSpec.

#[local] Open Scope Z_scope.

(** The answers that stand for a denial: not found, or unauthorized. *)
Definition uniform (e : error) : bool :=
  errors_Is e nameErrNotFound || errors_Is e nameErrUnauthorized.

(** Where a denial may be filed: under a chain without gaps in the tenant
    trail, or under no chain in the instance trail. *)
Definition filed (trail : Trail) (scope : Scope) : Prop :=
  (trail = TrailTenant /\ is_ok (Scope_Level scope) = true /\ Org scope <> "") \/
  (trail = TrailInstance /\ scope = emptyScope).

Definition chainOK (chain : Scope) : Prop :=
  chain = emptyScope \/ (is_ok (Scope_Level chain) = true /\ Org chain <> "").

(** A captured denial of [op] to [principal]: the event the code builds, under
    a fresh id, filed where it can be stored. *)
Record denialFor (ctx : Ctx) (principal : PrincipalID) (op : Operation) (d : Denial) : Prop := {
  df_event : exists n id obj spec resolution claimed,
    NewEventID (cx_uuid ctx n) = Ok id /\
    (resolution = resolutionResolvable \/ resolution = resolutionUnresolvable) /\
    dn_Event d = denialEvent ctx id (cx_now ctx n) obj principal (denialPayload op spec resolution claimed);
  df_filed : filed (dn_Trail d) (dn_Scope d) }.

(** A denial was captured, or its capture failed loudly. *)
Definition recorded (ctx : Ctx) (principal : PrincipalID) (op : Operation) (a a' : TxAuthorizer) : Prop :=
  (exists d, az_denials a' = az_denials a ++ [d] /\ denialFor ctx principal op d) \/ az_captureErr a' <> None.

Lemma recorded_set_r ctx p op r a a' : recorded ctx p op (set_r r a) a' -> recorded ctx p op a a'.
Proof. done. Qed.

Lemma denialPlace_filed resolution chain : chainOK chain ->
  filed (denialPlace resolution chain).1 (denialPlace resolution chain).2.
Proof.
  unfold denialPlace, filed. intros [->|[Hl Ho]]; destruct (resolution =s _); cbn; [by right..|].
  destruct (scope_eqb chain emptyScope); cbn; [by right|by left].
Qed.

(** Documented driver behaviour: an error reported for a statement is neither
    a domain sentinel nor the empty-result sentinel. *)
Definition driver_errors (tx : TxEnv) : Prop :=
  forall n e, tx_fault tx n = Some e -> uniform e = false /\ isNoRows e = false.

Definition ids_no_panic (ctx : Ctx) : Prop := forall n, is_panic (cx_uuid ctx n) = false.

Lemma OpEnvDelete_level spec : registry !! OpEnvDelete = Some spec -> level spec = LevelEnv.
Proof.
  intros H. apply Z.eqb_eq.
  pose proof (registry_forall (fun op spec => negb (op =s OpEnvDelete) || (level spec =? LevelEnv)) ltac:(vm_compute; reflexivity)
    OpEnvDelete spec H) as Hx. cbn beta in Hx. rewrite String.eqb_refl in Hx. exact Hx.
Qed.

Lemma profileFormula_levels op : formula_levels (profileFormula op).
Proof.
  unfold profileFormula, formula_levels. destruct (contains _ _); repeat constructor; discriminate.
Qed.

Section Refusal.
Context (tx : TxEnv) (ctx : Ctx) (apiOps : option (list ApiOperation)).
Let db := tx_db tx.
Hypothesis Hdrv : driver_errors tx.
Hypothesis Hids : ids_no_panic ctx.

Definition oneResolution (resolution : string) : Prop :=
  resolution = resolutionResolvable \/ resolution = resolutionUnresolvable.

Lemma captureDenial_spec principal op spec resolution chain claimed a :
  exists a', captureDenial ctx principal op spec resolution chain claimed a = (Ok (), a') /\
    az_r a' = az_r a /\ (oneResolution resolution -> chainOK chain -> recorded ctx principal op a a').
Proof.
  unfold captureDenial. pose proof (Hids (az_minted a)) as Hp.
  destruct (NewEventID (cx_uuid ctx (az_minted a))) as [id| |] eqn:Eid;
    [| |unfold NewEventID in Eid; destruct (cx_uuid ctx (az_minted a)); discriminate];
    eexists; (split; [reflexivity|]); split; [reflexivity| |reflexivity|].
  - intros Hres Hch. left. eexists. split; [reflexivity|]. constructor; [|by apply denialPlace_filed].
    exists (az_minted a), id, (az_object a), spec, resolution, claimed. done.
  - intros _ _. right. discriminate.
Qed.

Lemma refuse_spec {A} principal op spec resolution chain claimed e a :
  exists a', refuse (A := A) ctx principal op spec resolution chain claimed e a = (Err e, a') /\
    az_r a' = az_r a /\ (oneResolution resolution -> chainOK chain -> recorded ctx principal op a a').
Proof.
  destruct (captureDenial_spec principal op spec resolution chain claimed a) as (a' & H & Hr).
  exists a'. unfold refuse, mbind, st_bind. rewrite H. done.
Qed.

Lemma refuse_Err {A} principal op spec resolution chain claimed e a e' a' :
  oneResolution resolution -> chainOK chain ->
  refuse (A := A) ctx principal op spec resolution chain claimed e a = (Err e', a') ->
  recorded ctx principal op a a'.
Proof.
  intros Hres Hch.
  destruct (refuse_spec (A := A) principal op spec resolution chain claimed e a) as (a0 & -> & _ & Hr).
  intros [= _ <-]. by apply Hr.
Qed.

(** A refusal at one of the two resolutions, under the chain in hand. *)
Ltac refused H :=
  eapply refuse_Err; [..|exact H]; [first [left; reflexivity|right; reflexivity]|first [assumption|left; reflexivity]].

Lemma refuse_Panic {A} principal op spec resolution chain claimed e a p a' :
  refuse (A := A) ctx principal op spec resolution chain claimed e a <> (Panic p, a').
Proof.
  destruct (refuse_spec (A := A) principal op spec resolution chain claimed e a) as (a0 & -> & _). discriminate.
Qed.

(** ** Errors of the resolution surface *)
Lemma query_Err {A} name (f : DB -> result A) r e r' :
  query tx name f r = (Err e, r') ->
  (uniform e = false /\ isNoRows e = false) \/ f db = Err e.
Proof.
  unfold query. destruct (tx_fault tx _) eqn:E.
  - intros [= -> _]. left. by eapply Hdrv.
  - intros H. injection H as H _. by right.
Qed.

Lemma query_Panic {A} name (f : DB -> result A) r p r' :
  query tx name f r = (Panic p, r') -> f db = Panic p.
Proof. unfold query. destruct (tx_fault tx _); [discriminate|]. intros H. by injection H. Qed.

Lemma one_no_panic {A} (o : option A) p : one tx o <> Panic p.
Proof. by destruct o. Qed.

(** A single-row statement fails with the driver's error or as not found. *)
Lemma one_query_Err {A} name (f : DB -> option A) r e r' :
  orNotFound (query tx name (fun db => one tx (f db))) r = (Err e, r') ->
  uniform e = false \/ (e = ErrNotFound /\ f db = None).
Proof.
  unfold orNotFound. destruct (query tx name _ r) as [[x|e0|p] r0] eqn:Hq; try discriminate.
  intros [= <- <-]. apply query_Err in Hq as [[Hu Hn]|Hf].
  - left. unfold notFoundOr. by rewrite Hn.
  - right. fold db in Hf. destruct (f db); [discriminate|]. injection Hf as <-.
    split; [|done]. by destruct (tx_engine tx).
Qed.

Lemma orNotFound_one_Panic {A} name (f : DB -> option A) r p r' :
  orNotFound (query tx name (fun db => one tx (f db))) r <> (Panic p, r').
Proof.
  unfold orNotFound. destruct (query tx name _ r) as [[x|e0|p0] r0] eqn:Hq; [discriminate..|].
  apply query_Panic in Hq. by apply one_no_panic in Hq.
Qed.

Lemma grantsFromRows_Err rows e : grantsFromRows rows = Err e -> uniform e = false.
Proof.
  induction rows as [|row rows IH]; cbn; [discriminate|].
  destruct (grantFromRow row) as [g|e0|m] eqn:Hg; cbn.
  - destruct (grantsFromRows rows); cbn; [discriminate| |discriminate]. intros [= ->]. by apply IH.
  - intros [= ->]. unfold grantFromRow, grantFrom in Hg. cbn in Hg.
    destruct (Scope_Level _) as [|e1|] eqn:Hs; [discriminate| |discriminate].
    injection Hg as <-. apply Scope_Level_Err in Hs. by subst.
  - discriminate.
Qed.

Lemma Grants_Err p r e r' : Grants tx p r = (Err e, r') -> uniform e = false.
Proof.
  intros H. destruct (Grants_spec tx p r) as (name & _ & _ & Hr). rewrite H in Hr. cbn in Hr.
  destruct (tx_fault tx _) eqn:Hf.
  - injection Hr as ->. by eapply Hdrv.
  - destruct Hr as [Hr _]. symmetry in Hr. by apply grantsFromRows_Err in Hr.
Qed.

Lemma Grants_Panic p r m r' : Grants tx p r <> (Panic m, r').
Proof.
  intros H. destruct (Grants_spec tx p r) as (name & _ & _ & Hr). rewrite H in Hr. cbn in Hr.
  destruct (tx_fault tx _) eqn:Hf; [discriminate|]. destruct Hr as [Hr _].
  pose proof (grantsFromRows_no_panic (grantRows (activeOnly r) p (tx_db tx))) as Hp.
  rewrite <- Hr in Hp. discriminate.
Qed.

Lemma ResolveChain_Panic s r m r' : ResolveChain tx s r <> (Panic m, r').
Proof.
  intros H. destruct (Scope_Level s) as [l|e|p] eqn:Hl.
  - destruct (Z.eq_dec l LevelNone) as [->|Hne].
    + unfold ResolveChain, mbind, st_bind, st_result in H. rewrite Hl in H. discriminate.
    + destruct (ResolveChain_spec tx s r l Hl Hne) as (name & _ & Hr). rewrite H in Hr. cbn in Hr.
      destruct (tx_fault tx _); [discriminate|]. destruct Hr as [[_ ?]|[_ ?]]; discriminate.
  - unfold ResolveChain, mbind, st_bind, st_result in H. rewrite Hl in H. discriminate.
  - pose proof (Scope_Level_no_panic s) as Hp. rewrite Hl in Hp. discriminate.
Qed.

(** A chain that does not resolve is not found; everything else is a driver error. *)
Lemma ResolveChain_Err s l r e r' :
  Scope_Level s = Ok l -> l <> LevelNone -> ResolveChain tx s r = (Err e, r') ->
  e = ErrNotFound \/ uniform e = false.
Proof.
  intros Hl Hne H. destruct (ResolveChain_spec tx s r l Hl Hne) as (name & _ & Hr). rewrite H in Hr. cbn in Hr.
  destruct (tx_fault tx _) eqn:Hf.
  - injection Hr as ->. destruct (Hdrv _ _ Hf) as [Hu Hn]. right. unfold notFoundOr. by rewrite Hn.
  - destruct Hr as [[_ ?]|[_ [= ->]]]; [discriminate|by left].
Qed.

Lemma res_Err {A} (m : ST Resolver A) a e a' :
  res m a = (Err e, a') -> exists r', m (az_r a) = (Err e, r') /\ a' = set_r r' a.
Proof. unfold res, st_zoom. destruct (m (az_r a)) as [o r'] eqn:E. intros [= -> <-]. eauto. Qed.

Lemma res_Panic {A} (m : ST Resolver A) a p a' :
  res m a = (Panic p, a') -> exists r', m (az_r a) = (Panic p, r').
Proof. unfold res, st_zoom. destruct (m (az_r a)) as [o r'] eqn:E. intros [= -> <-]. eauto. Qed.

(** ** The conjuncts after the grant check *)
Lemma machineEnvDelete_Err caller op chain a e a' :
  machineEnvDeleteRefused tx caller op chain a = (Err e, a') ->
  (op = OpEnvDelete -> exists r, In r (environments db) /\ en_id r = Env chain) ->
  uniform e = false.
Proof.
  unfold machineEnvDeleteRefused. destruct (_ && _)%bool eqn:Hc; [|discriminate].
  intros H Hex. apply andb_prop in Hc as [_ Hop]. apply String.eqb_eq in Hop.
  apply st_bind_Err in H as [H|(st & a1 & _ & H)]; [|discriminate H].
  apply res_Err in H as (r' & H & _). unfold EnvironmentReauthSettings in H.
  apply st_bind_Err in H as [H|(row & r1 & _ & H)]; [|discriminate H].
  apply (one_query_Err _ (fun db => find (fun e => en_id e =s Env chain) (environments db))) in H
    as [Hu|[_ Hf]]; [exact Hu|].
  destruct (Hex Hop) as (row & Hin & Hid). pose proof (find_none _ _ Hf row Hin) as Hx. cbn in Hx.
  rewrite Hid, String.eqb_refl in Hx. discriminate.
Qed.

Lemma machineEnvDelete_Panic caller op chain a p a' :
  machineEnvDeleteRefused tx caller op chain a <> (Panic p, a').
Proof.
  unfold machineEnvDeleteRefused. destruct (_ && _)%bool; [|discriminate]. intros H.
  apply st_bind_Panic in H as [H|(st & a1 & _ & H)]; [|discriminate H].
  apply res_Panic in H as (r' & H). unfold EnvironmentReauthSettings in H.
  apply st_bind_Panic in H as [H|(row & r1 & _ & H)]; [|discriminate H].
  by apply (orNotFound_one_Panic _ (fun db => find (fun e => en_id e =s Env chain) (environments db))) in H.
Qed.

(** The profile is decided from state already read: it always answers. *)
Lemma selfConfigProfile_total caller op chain gs a :
  exists p, selfConfigProfile caller op chain gs a = (Ok p, a).
Proof.
  unfold selfConfigProfile, IsSelfConfigScope, res, st_zoom, mbind, st_bind, st_get, mret, st_ret.
  replace (set_r (az_r a) a) with a by (by destruct a). destruct (_ && _)%bool; cbn [negb]; [|eauto].
  destruct (_ && _)%bool; [eauto|]. destruct (flag _ _); cbn [negb]; [|eauto].
  destruct (evaluate_spec (profileFormula op) chain gs (profileFormula_levels op)) as (b & Hb & _).
  unfold st_result. rewrite Hb. eauto.
Qed.

Lemma machineReveal_Err caller f chain a e a' :
  machineRevealWithdrawn tx caller f chain a = (Err e, a') -> uniform e = false.
Proof.
  unfold machineRevealWithdrawn. destruct (_ || _)%bool; [discriminate|].
  destruct (negb _); [discriminate|]. intros H.
  apply st_bind_Err in H as [H|(st & a1 & Ht & H)].
  { unfold st_try in H. destruct (res _ a) as [[| |] ?]; discriminate. }
  apply st_try_Ok in Ht as [Ht _]. destruct st as [st|e0|m]; [discriminate H| |discriminate H].
  destruct (errors_Is e0 nameErrNotFound) eqn:Hn; [discriminate H|]. injection H as <- <-.
  apply res_Err in Ht as (r' & Ht & _). unfold ProjectMachineReveal in Ht.
  apply st_bind_Err in Ht as [Ht|(row & r1 & _ & Ht)]; [|discriminate Ht].
  apply (one_query_Err _ (fun db => find (fun p => pj_id p =s Project chain) (projects db))) in Ht
    as [Hu|[-> _]]; [exact Hu|discriminate Hn].
Qed.

Lemma machineReveal_Panic caller f chain a p a' :
  machineRevealWithdrawn tx caller f chain a <> (Panic p, a').
Proof.
  unfold machineRevealWithdrawn. destruct (_ || _)%bool; [discriminate|].
  destruct (negb _); [discriminate|]. intros H.
  apply st_bind_Panic in H as [H|(st & a1 & Ht & H)].
  - unfold st_try in H. destruct (res _ a) as [[| |] ?] eqn:E; [discriminate..|].
    apply res_Panic in E as (r' & E). unfold ProjectMachineReveal in E.
    apply st_bind_Panic in E as [E|(row & r1 & _ & E)]; [|discriminate E].
    by apply (orNotFound_one_Panic _ (fun db => find (fun p => pj_id p =s Project chain) (projects db))) in E.
  - apply st_try_Ok in Ht as [_ Hp]. destruct st as [st|e0|m]; [discriminate H| |discriminate Hp].
    by destruct (errors_Is e0 nameErrNotFound).
Qed.

Lemma authorizeResolved_Err caller op spec scope chain gs a e a' :
  formula_levels (as_formula spec) ->
  (op = OpEnvDelete -> exists r, In r (environments db) /\ en_id r = Env chain) -> chainOK chain ->
  authorizeResolved tx ctx caller op spec scope chain gs a = (Err e, a') ->
  uniform e = true -> recorded ctx (id_Principal caller) op a a'.
Proof.
  intros Hlev Hex Hch H Hu. unfold authorizeResolved in H.
  destruct (evaluate_spec (as_formula spec) chain gs Hlev) as (b & Hb & _).
  apply st_bind_Err in H as [H|(held & a1 & He & H)]; [injection H as H _; congruence|].
  injection He as He <-.
  destruct held; cbn [negb] in H; [|refused H].
  apply st_bind_Err in H as [H|(und & a1 & Hd & H)].
  { apply machineEnvDelete_Err in H; [congruence|exact Hex]. }
  apply machineEnvDelete_Ok in Hd as (r1 & -> & _). apply (recorded_set_r _ _ _ r1).
  destruct und; [refused H|].
  destruct (selfConfigProfile_total caller op chain gs (set_r r1 a)) as (prof & Hp).
  apply st_bind_Err in H as [H|(prof' & a2 & Hp' & H)]; [congruence|].
  rewrite Hp in Hp'. injection Hp' as <- <-.
  destruct (negb prof.2); [refused H|].
  apply st_bind_Err in H as [H|(den & a3 & Hr & H)]; [apply machineReveal_Err in H; congruence|].
  apply machineRevealWithdrawn_Ok in Hr as (r3 & -> & _). apply (recorded_set_r _ _ _ r3).
  destruct den; [refused H|].
  destruct (_ || _)%bool; [refused H|discriminate H].
Qed.

Lemma authorizeResolved_Panic caller op spec scope chain gs a p a' :
  formula_levels (as_formula spec) ->
  authorizeResolved tx ctx caller op spec scope chain gs a <> (Panic p, a').
Proof.
  intros Hlev H. unfold authorizeResolved in H.
  destruct (evaluate_spec (as_formula spec) chain gs Hlev) as (b & Hb & _).
  apply st_bind_Panic in H as [H|(held & a1 & He & H)]; [injection H as H _; congruence|].
  destruct held; cbn [negb] in H; [|by apply refuse_Panic in H].
  apply st_bind_Panic in H as [H|(und & a2 & _ & H)]; [by apply machineEnvDelete_Panic in H|].
  destruct und; [by apply refuse_Panic in H|].
  destruct (selfConfigProfile_total caller op chain gs a2) as (prof & Hp).
  apply st_bind_Panic in H as [H|(prof' & a3 & Hp' & H)]; [congruence|].
  destruct (negb prof'.2); [by apply refuse_Panic in H|].
  apply st_bind_Panic in H as [H|(den & a4 & _ & H)]; [by apply machineReveal_Panic in H|].
  destruct den; [by apply refuse_Panic in H|].
  destruct (_ || _)%bool; [by apply refuse_Panic in H|discriminate H].
Qed.

(** ** The whole operation *)
Lemma chainOK_level s l : Scope_Level s = Ok l -> l <> LevelNone -> chainOK s.
Proof.
  intros Hl Hne. right. split; [by rewrite Hl|].
  apply Scope_Level_cases in Hl as [(? & _)|[(_ & ? & _)|[(_ & ? & _)|(_ & ? & _)]]]; done.
Qed.

Lemma tenant_level op spec : registry !! op = Some spec -> class spec = ClassTenant ->
  level spec <> LevelNone.
Proof.
  intros Hreg Hc. pose proof (registry_WellFormed op spec Hreg) as Hwf.
  destruct (wf_class _ _ Hwf) as [[_ Hl]|[Hi _]]; [unfold LevelNone, LevelOrg in *; lia|].
  rewrite Hc in Hi. discriminate Hi.
Qed.

Lemma authorizeTenant_Err caller op spec scope a e a' :
  registry !! op = Some spec -> class spec = ClassTenant ->
  authorizeTenant tx ctx caller op (MkAuthorizationSpec (class spec) (level spec) (formula spec))
    scope a = (Err e, a') ->
  uniform e = true -> recorded ctx (id_Principal caller) op a a'.
Proof.
  intros Hreg Hc H Hu. pose proof (tenant_level op spec Hreg Hc) as Hne.
  pose proof (registered_levels op spec Hreg) as Hlev.
  assert (op = OpEnvDelete -> level spec = LevelEnv) as Hdel
    by (intros ->; apply OpEnvDelete_level; exact Hreg).
  clear Hreg. unfold authorizeTenant in H.
  destruct (Scope_Level scope) as [l|e0|m] eqn:Hl.
  2: { injection H as <- _. apply Scope_Level_Err in Hl. by subst. }
  2: { discriminate H. }
  cbn [as_level] in H. destruct (Z.eqb_spec l (level spec)) as [->|]; cbn [negb] in H.
  2: { by injection H as <- _. }
  apply st_bind_Err in H as [H|(rc & a1 & Hrc & H)].
  { unfold st_try in H. destruct (res _ a) as [[| |] ?]; discriminate. }
  apply st_try_Ok in Hrc as [Hrc _]. destruct rc as [chain|e0|m].
  - apply res_Ok in Hrc as (r1 & Hrc & ->).
    apply (ResolveChain_Ok _ _ _ _ _ _ Hl Hne) in Hrc as (-> & Hex & _).
    apply (recorded_set_r _ _ _ r1). apply st_bind_Err in H as [H|(gs & a2 & Hg & H)].
    + apply res_Err in H as (r2 & H & _). apply Grants_Err in H. congruence.
    + apply res_Ok in Hg as (r2 & _ & ->). apply (recorded_set_r _ _ _ r2).
      eapply (authorizeResolved_Err _ _ (MkAuthorizationSpec _ _ _)); [exact Hlev| |by apply (chainOK_level _ _ Hl)|exact H|exact Hu].
      intros E. apply Hdel in E. rewrite E in Hl. apply Scope_Level_cases in Hl.
      destruct Hl as [(? & _)|[(? & _)|[(? & _)|(_ & _ & _ & He)]]]; [done..|].
      destruct Hex as [(_ & ? & _)|[(_ & ? & _)|(_ & r & Hin & _ & _ & Hid)]]; [done..|]. eauto.
  - apply res_Err in Hrc as (r1 & Hrc & ->). apply (recorded_set_r _ _ _ r1).
    destruct (errors_Is e0 nameErrNotFound) eqn:Hn; [refused H|].
    injection H as <- <-. apply (ResolveChain_Err _ _ _ _ _ Hl Hne) in Hrc as [->|Hf]; [discriminate Hn|].
    congruence.
  - discriminate H.
Qed.

Lemma authorizeInstance_Err caller op spec a e a' :
  formula_levels (as_formula spec) ->
  authorizeInstance tx ctx caller op spec a = (Err e, a') ->
  uniform e = true -> recorded ctx (id_Principal caller) op a a'.
Proof.
  intros Hlev H Hu. unfold authorizeInstance in H.
  destruct (_ && _)%bool in H; [refused H|].
  apply st_bind_Err in H as [H|(gs & a1 & Hg & H)].
  { apply res_Err in H as (r2 & H & _). apply Grants_Err in H. congruence. }
  apply res_Ok in Hg as (r1 & _ & ->). apply (recorded_set_r _ _ _ r1).
  destruct (evaluate_spec (as_formula spec) emptyScope gs Hlev) as (b & Hb & _).
  apply st_bind_Err in H as [H|(held & a1 & He & H)]; [injection H as H _; congruence|].
  injection He as He <-. destruct held; cbn [negb] in H; [|refused H].
  destruct (assuranceInadequate caller op); [refused H|].
  apply st_bind_Err in H as [H|(adm & a2 & _ & H)]; [|discriminate H].
  destruct (selfConfigSessionEligible caller); [|discriminate H].
  destruct (evaluate_spec [MkAtom CapInstanceConfig LevelNone] emptyScope gs) as (b2 & Hb2 & _).
  { repeat constructor; discriminate. }
  unfold st_result in H. rewrite Hb2 in H. discriminate H.
Qed.

Lemma Authorize_Err caller op scope a e a' :
  Authorize tx ctx apiOps caller op scope a = (Err e, a') ->
  uniform e = true -> recorded ctx (id_Principal caller) op a a'.
Proof.
  unfold Authorize. intros H Hu. apply st_bind_Err in H as [H|(sp & a1 & Hs & H)].
  { unfold lookupSpec in H. destruct (Registry_authorizationSpec op); [discriminate H|].
    by injection H as <- _. }
  unfold lookupSpec in Hs. destruct (Registry_authorizationSpec op) as [sp'|] eqn:Hsp; [|discriminate Hs].
  injection Hs as <- <-. apply authorizationSpec_lookup in Hsp as (spec & Hreg & ->).
  destruct (id_Principal caller =s ""); [injection H as <- _; discriminate Hu|]. cbn [as_class] in H.
  destruct (_ && _)%bool in H; [refused H|].
  destruct (Z.eqb_spec (class spec) ClassTenant) as [Hc|Hc].
  - eapply authorizeTenant_Err; [exact Hreg|exact Hc|exact H|exact Hu].
  - destruct (class spec =? ClassInstance); [|injection H as <- _; discriminate Hu].
    destruct (negb _); [injection H as <- _; discriminate Hu|].
    eapply (authorizeInstance_Err _ _ (MkAuthorizationSpec _ _ _)); [|exact H|exact Hu]. exact (registered_levels op spec Hreg).
Qed.

Lemma authorizeTenant_Panic caller op spec scope a p a' :
  formula_levels (as_formula spec) ->
  authorizeTenant tx ctx caller op spec scope a <> (Panic p, a').
Proof.
  intros Hlev H. unfold authorizeTenant in H. pose proof (Scope_Level_no_panic scope) as Hnp.
  destruct (Scope_Level scope) as [l|e0|m]; [|discriminate H|discriminate Hnp].
  destruct (negb _); [discriminate H|].
  apply st_bind_Panic in H as [H|(rc & a1 & Hrc & H)].
  - unfold st_try in H. destruct (res _ a) as [[| |] ?] eqn:E; [discriminate..|].
    apply res_Panic in E as (r' & E). by apply ResolveChain_Panic in E.
  - apply st_try_Ok in Hrc as [_ Hp]. destruct rc as [chain|e0|m]; [| |discriminate Hp].
    + apply st_bind_Panic in H as [H|(gs & a2 & _ & H)].
      * apply res_Panic in H as (r' & H). by apply Grants_Panic in H.
      * by apply authorizeResolved_Panic in H.
    + destruct (errors_Is e0 nameErrNotFound); [by apply refuse_Panic in H|discriminate H].
Qed.

Lemma authorizeInstance_Panic caller op spec a p a' :
  formula_levels (as_formula spec) ->
  authorizeInstance tx ctx caller op spec a <> (Panic p, a').
Proof.
  intros Hlev H. unfold authorizeInstance in H.
  destruct (_ && _)%bool in H; [by apply refuse_Panic in H|].
  apply st_bind_Panic in H as [H|(gs & a1 & _ & H)].
  { apply res_Panic in H as (r' & H). by apply Grants_Panic in H. }
  destruct (evaluate_spec (as_formula spec) emptyScope gs Hlev) as (b & Hb & _).
  apply st_bind_Panic in H as [H|(held & a2 & _ & H)]; [injection H as H _; congruence|].
  destruct (negb held); [by apply refuse_Panic in H|].
  destruct (assuranceInadequate caller op); [by apply refuse_Panic in H|].
  apply st_bind_Panic in H as [H|(adm & a3 & _ & H)]; [|discriminate H].
  destruct (selfConfigSessionEligible caller); [|discriminate H].
  destruct (evaluate_spec [MkAtom CapInstanceConfig LevelNone] emptyScope gs) as (b2 & Hb2 & _).
  { repeat constructor; discriminate. }
  unfold st_result in H. rewrite Hb2 in H. discriminate H.
Qed.
End Refusal.
