(* ===== verification/Samples.v ===== *)
(** * A small world

    Concrete tables, callers and request contexts the theorems are applied to. *)

From S2P Require Import Prelude Domain OperationNames EventNames OperationTable AuditTable Registry.
From S2P Require Import FreeText AuditEvent Resolver Authorize AuthorizeSpec Refusal.

#[local] Open Scope Z_scope.

(** Organisation [o1] with one project (machine reveal off) and a protected
    environment; [ops] is the bound self-configuration organisation. *)
Definition sampleDB : DB := {|
  orgs := [MkOrgRow "o1" "acme"; MkOrgRow "ops" "instance"];
  projects := [MkProjectRow "o1" "p1" 0 3; MkProjectRow "o1" "p2" 1 4; MkProjectRow "ops" "sp" 0 0];
  environments := [MkEnvironmentRow "o1" "p1" "e1" 1 None; MkEnvironmentRow "o1" "p2" "e2" 0 (Some 60);
    MkEnvironmentRow "ops" "sp" "se" 0 None];
  principals := [MkPrincipalRow "alice" "human" None "active" 0;
    MkPrincipalRow "bot" "machine" (Some ClassAutomation) "active" 0;
    MkPrincipalRow "root" "human" None "active" 0];
  grants := [MkGrantRow "alice" CapRead (Some "o1") None None;
    MkGrantRow "alice" CapReveal (Some "o1") (Some "p1") None;
    MkGrantRow "bot" CapRead (Some "o1") None None;
    MkGrantRow "bot" CapReveal (Some "o1") None None;
    MkGrantRow "bot" CapDefinitionsEdit (Some "o1") None None;
    MkGrantRow "root" CapRead None None None;
    MkGrantRow "root" CapInstanceConfig None None None];
  restore_epoch := Some 0;
  self_config_binding := Some (MkBindingRow "ops" "sp" "se" "snap1" 4);
  self_config_retention := ["snap1"];
  snapshots := [MkSnapshotRow "snap1" "ops" "sp" "se" 4 1] |}.

Definition sampleTx : TxEnv := MkTxEnv SQLite sampleDB (fun _ => None).

Definition sampleCtx : Ctx := {|
  cx_network := true; cx_contract := None;
  cx_wire := WithContext (MkContext "10.0.0.1" "curl" OriginAPI "");
  cx_uuid := fun n => Ok "0190-0001"; cx_now := fun n => 1000 |}.

Definition mfa : Assurance := MkAssurance "password" ["password"; "totp"] 5 "c1".
Definition alice : Identity := MkIdentity "alice" ClassHuman "s1" "" mfa.
Definition aliceWeak : Identity :=
  MkIdentity "alice" ClassHuman "s1" "" (MkAssurance "password" ["password"] 5 "c1").
Definition bot : Identity := MkIdentity "bot" ClassAutomation "" "cred1" noAssurance.
Definition root : Identity := MkIdentity "root" ClassHuman "s2" "" mfa.

Definition sampleAuthorizer : TxAuthorizer := NewTxAuthorizer NewResolver (Some 7%nat).

Lemma sample_no_fault : forall n, tx_fault sampleTx n = None.
Proof. reflexivity. Qed.

Lemma sample_driver : driver_errors sampleTx.
Proof. intros n e H. discriminate H. Qed.

Lemma sample_ids : ids_no_panic sampleCtx.
Proof. intros n. reflexivity. Qed.

Lemma sample_gapless :
  Forall (fun g => is_ok (Scope_Level (rowScope g)) = true) (grants sampleDB).
Proof. repeat constructor. Qed.

Abbreviation run caller op scope :=
  (Authorize sampleTx sampleCtx None caller op scope sampleAuthorizer).

Lemma minted {A} (x : result A * TxAuthorizer) :
  is_ok x.1 = true -> exists pf a', x = (Ok pf, a').
Proof. destruct x as [[pf| |] a']; [eauto|discriminate..]. Qed.

Definition scopeO1 : Scope := MkScope "o1" "" "".
Definition scopeE1 : Scope := MkScope "o1" "p1" "e1".
Definition scopeE2 : Scope := MkScope "o1" "p2" "e2".
Definition scopeOps : Scope := MkScope "ops" "" "".

Lemma alice_reads_org : is_ok (run alice OpOrgGet scopeO1).1 = true.
Proof. vm_compute. reflexivity. Qed.

Lemma alice_reveals : is_ok (run alice OpValueReveal scopeE1).1 = true.
Proof. vm_compute. reflexivity. Qed.

Lemma bot_reveals : is_ok (run bot OpValueReveal scopeE2).1 = true.
Proof. vm_compute. reflexivity. Qed.

Lemma bot_deletes : is_ok (run bot OpEnvDelete scopeE2).1 = true.
Proof. vm_compute. reflexivity. Qed.

Lemma root_reads_ops : is_ok (run root OpOrgGet scopeOps).1 = true.
Proof. vm_compute. reflexivity. Qed.

(** The row of a registered operation, as a value. *)
Definition specOf (op : Operation) : opSpec :=
  default (MkOpSpec 0 0 [] ∅ false [] false false) (registry !! op).

Lemma specOf_registered op : is_Some (registry !! op) -> registry !! op = Some (specOf op).
Proof. intros [spec H]. unfold specOf. rewrite H. reflexivity. Qed.

Lemma registered_check op : (match registry !! op with Some _ => true | None => false end) = true ->
  registry !! op = Some (specOf op).
Proof.
  intros H. apply specOf_registered. destruct (registry !! op); [eexists; reflexivity|discriminate H].
Qed.
