(* ===== verification/Guarantees.v ===== *)
(** * The chokepoint's guarantees

    The claims about [Authorize] and its probes, each with a witness on the
    sample world. *)

From S2P Require Import Prelude Domain OperationNames EventNames OperationTable AuditTable Registry.
From S2P Require Import FreeText AuditEvent Resolver Authorize AuthorizeSpec Refusal Samples.

#[local] Open Scope Z_scope.

(** ** Running the chokepoint forward *)

(** The tables satisfy the grants CHECK constraint: no scope with a gap. *)
Definition gapless (db : DB) : Prop :=
  Forall (fun g => is_ok (Scope_Level (rowScope g)) = true) (grants db).

Lemma grantsFromRows_gapless active principal db : gapless db ->
  exists gs, grantsFromRows (grantRows active principal db) = Ok gs.
Proof.
  intros H. eexists. apply grantsFromRows_Ok. split; [reflexivity|].
  apply Forall_forall. intros g Hg. unfold gapless in H. rewrite Forall_forall in H. apply H.
  apply list_elem_of_In. apply list_elem_of_In, grantRows_spec in Hg as [Hg _]. exact Hg.
Qed.

(** The callers the machine conjuncts do not concern. *)
Definition person (caller : Identity) : Prop :=
  id_Class caller = "" \/ id_Class caller = ClassHuman.

Lemma person_not_machine caller : person caller -> IsServiceAccountKind (id_Class caller) = false.
Proof. by intros [-> | ->]. Qed.

Lemma person_not_conn caller : person caller -> (id_Class caller =s ClassInstanceConn) = false.
Proof. by intros [-> | ->]. Qed.

Lemma person_route ctx caller : person caller ->
  IsNetwork ctx = true \/ id_Class caller <> ClassInstanceConn.
Proof. intros [-> | ->]; right; discriminate. Qed.

Section Forward.
Context (tx : TxEnv) (ctx : Ctx) (apiOps : option (list ApiOperation)).
Let db := tx_db tx.
Hypothesis Hnof : forall n, tx_fault tx n = None.
Hypothesis Hgap : gapless db.

Lemma ResolveChain_run s l r :
  Scope_Level s = Ok l -> l <> LevelNone ->
  exists name, ResolveChain tx s r = (Ok s, log_query name r) /\ chain_exists db s \/
    ResolveChain tx s r = (Err ErrNotFound, log_query name r) /\ ~ chain_exists db s.
Proof.
  intros Hl Hne. destruct (ResolveChain_spec tx s r l Hl Hne) as (name & H2 & H). rewrite Hnof in H.
  destruct (ResolveChain tx s r) as [o r']. cbn in *. subst r'. exists name.
  destruct H as [[? ->]|[? ->]]; [by left|by right].
Qed.

Lemma Grants_run p r :
  exists gs r' name, Grants tx p r = (Ok gs, r') /\
    grantsFromRows (grantRows (activeOnly r) p db) = Ok gs /\
    selfConfigOrgID r' = markerOf tx r p /\ queries r' = queries r ++ [name].
Proof.
  destruct (Grants_spec tx p r) as (name & Hq & _ & H). rewrite Hnof in H.
  destruct (Grants tx p r) as [o r']. cbn in *. destruct H as [-> Hm].
  destruct (grantsFromRows_gapless (activeOnly r) p db Hgap) as [gs Hgs].
  fold db in Hm |- *. rewrite Hgs in Hm |- *.
  exists gs, r', name. split; [reflexivity|]. split; [reflexivity|]. split; [by apply Hm|exact Hq].
Qed.

(** A registered tenant operation reaches [authorizeTenant]. *)
Lemma Authorize_tenant caller op spec scope a :
  registry !! op = Some spec -> class spec = ClassTenant -> id_Principal caller <> "" ->
  IsNetwork ctx = true \/ id_Class caller <> ClassInstanceConn ->
  Authorize tx ctx apiOps caller op scope a =
  authorizeTenant tx ctx caller op (MkAuthorizationSpec (class spec) (level spec) (formula spec)) scope a.
Proof.
  intros Hreg Hc Hp Hconn. unfold Authorize, lookupSpec, mbind, st_bind.
  assert (Registry_authorizationSpec op = Some (MkAuthorizationSpec (class spec) (level spec) (formula spec)))
    as -> by (apply authorizationSpec_lookup; exists spec; split; [exact Hreg|reflexivity]).
  clear Hreg. cbn [from_option mret st_ret as_class].
  rewrite (proj2 (String.eqb_neq _ _) Hp), Hc.
  replace (negb (IsNetwork ctx) && (id_Class caller =s ClassInstanceConn))%bool with false; [reflexivity|].
  destruct Hconn as [-> | Hn]; [reflexivity|]. by rewrite (proj2 (String.eqb_neq _ _) Hn), andb_false_r.
Qed.

Lemma selfConfigProfile_unprotected caller op chain gs a :
  (selfConfigOrgID (az_r a) <>s "") && (Org chain =s selfConfigOrgID (az_r a)) = false ->
  selfConfigProfile caller op chain gs a =
  (Ok (false, (op <>s OpSelfConfigApply) && (op <>s OpSelfConfigTest)), a).
Proof.
  intros H. unfold selfConfigProfile, IsSelfConfigScope, res, st_zoom, mbind, st_bind, st_get, mret, st_ret.
  rewrite H. cbn [negb]. by destruct a.
Qed.

(** For a person outside the protected organisation, the decision after the
    lookups is the formula and then the session's assurance. *)
Lemma authorizeResolved_person caller op spec scope gs a :
  person caller -> formula_levels (as_formula spec) ->
  (selfConfigOrgID (az_r a) <>s "") && (Org scope =s selfConfigOrgID (az_r a)) = false ->
  op <> OpSelfConfigApply -> op <> OpSelfConfigTest ->
  (exists pf a', authorizeResolved tx ctx caller op spec scope scope gs a = (Ok pf, a')) <->
  satisfied (as_formula spec) scope gs /\ assuranceInadequate caller op = false.
Proof.
  intros Hper Hlev Hmk H1 H2. pose proof (person_not_machine caller Hper) as Hm.
  unfold authorizeResolved, machineEnvDeleteRefused, machineRevealWithdrawn.
  destruct (evaluate_spec (as_formula spec) scope gs Hlev) as (b & Hb & Hsat).
  unfold mbind, st_bind, mret, st_ret, st_result. rewrite Hb, Hm. cbn [negb andb orb]. cbv beta iota.
  rewrite <- Hsat. destruct b; cbn [negb]; cbv beta iota.
  - rewrite selfConfigProfile_unprotected by exact Hmk. cbn [fst snd].
    rewrite (proj2 (String.eqb_neq _ _) H1), (proj2 (String.eqb_neq _ _) H2). cbn [negb andb].
    rewrite orb_false_r. destruct (assuranceInadequate caller op).
    + split; [intros (pf & a' & H); exfalso; eapply refuse_not_Ok; exact H|intros [_ H]; discriminate H].
    + split; [by split|]. intros _. eexists _, _. reflexivity.
  - split; [intros (pf & a' & H); exfalso; eapply refuse_not_Ok; exact H|intros [H _]; discriminate H].
Qed.
End Forward.

(** ** Minting *)

(** C1. A proof is minted only for a registered operation whose whole formula
    the caller is entitled to: the proof names that operation and this
    transaction's token, its chain is the addressed scope as it exists in the
    tables at the operation's own depth (or empty, for an instance operation),
    every atom is covered by a stored grant of the caller - at the atom's scope
    or an ancestor of it, of an active principal reconciled since the last
    restore - and nothing was recorded as denied. *)
Theorem proof_implies_entitlement (tx : TxEnv) (ctx : Ctx) (apiOps : option (list ApiOperation))
    (caller : Identity) (op : Operation) (scope : Scope) (a : TxAuthorizer) (pf : proof) (a' : TxAuthorizer) :
  Authorize tx ctx apiOps caller op scope a = (Ok pf, a') ->
  exists spec, registry !! op = Some spec /\
    pf_op pf = op /\ pf_tok pf = az_tok a /\ az_denials a' = az_denials a /\
    let active := negb (historicalRecoveryBeforePrivacy (az_r a)) in
    ((class spec = ClassTenant /\ pf_kind pf = kindTenant /\ pf_chain pf = scope /\
        chain_exists (tx_db tx) scope /\ Scope_Level scope = Ok (level spec) /\
        formula_entitled active (tx_db tx) (id_Principal caller) (formula spec) scope) \/
     (class spec = ClassInstance /\ pf_kind pf = kindInstance /\ scope = emptyScope /\
        pf_chain pf = emptyScope /\
        formula_entitled active (tx_db tx) (id_Principal caller) (formula spec) emptyScope)).
Proof.
  intros H. apply Authorize_Ok in H as (_ & spec & Hreg & H). exists spec. split; [exact Hreg|]. clear Hreg.
  destruct H as [(Hc & T)|(Hc & -> & T)].
  - destruct (tm_grants _ _ _ _ _ _ _ _ T) as (gs & Hgs & Hsat & _).
    destruct (tm_state _ _ _ _ _ _ _ _ T) as (r' & -> & _). rewrite (tm_proof _ _ _ _ _ _ _ _ T). cbn.
    do 3 (split; [reflexivity|]). left. split; [exact Hc|]. do 2 (split; [reflexivity|]).
    split; [exact (tm_exists _ _ _ _ _ _ _ _ T)|]. split; [exact (tm_level _ _ _ _ _ _ _ _ T)|].
    by apply (satisfied_entitled _ _ _ _ _ _ Hgs).
  - destruct (im_grants _ _ _ _ _ _ _ T) as (gs & Hgs & Hsat & _).
    destruct (im_state _ _ _ _ _ _ _ T) as (r' & -> & _). rewrite (im_proof _ _ _ _ _ _ _ T). cbn.
    do 3 (split; [reflexivity|]). right. split; [exact Hc|]. do 3 (split; [reflexivity|]).
    by apply (satisfied_entitled _ _ _ _ _ _ Hgs).
Qed.

Lemma proof_implies_entitlement_witness :
  exists spec, registry !! OpOrgGet = Some spec /\
    formula_entitled true sampleDB "alice" (formula spec) scopeO1.
Proof.
  destruct (minted _ alice_reads_org) as (pf & a' & E).
  destruct (proof_implies_entitlement sampleTx sampleCtx None alice OpOrgGet scopeO1
    sampleAuthorizer pf a' E) as (spec & H1 & _ & _ & _ & H).
  exists spec. split; [exact H1|].
  destruct H as [(_ & _ & _ & _ & _ & H)|(_ & _ & H & _)]; [exact H|discriminate H].
Defined.

(** C2. For a person (a human session or local host authority) with a principal
    id, a healthy driver and grant rows whose scopes have no gap (the CHECK of
    the grants table): for every tenant operation of the registry other than
    applying and testing the self-configuration, addressed at its own depth and
    outside the protected organisation, minting is decided by the stored policy
    alone. A proof is minted if and only if the addressed chain exists, the
    caller is entitled to the whole formula, and - when the formula touches an
    MFA-mandatory capability and the caller presents a session - the session's
    assurance is adequate. *)
Theorem person_authorized_iff (tx : TxEnv) (ctx : Ctx) (apiOps : option (list ApiOperation))
    (caller : Identity) (op : Operation) (spec : opSpec) (scope : Scope) (a : TxAuthorizer) :
  (forall n, tx_fault tx n = None) -> gapless (tx_db tx) ->
  registry !! op = Some spec -> class spec = ClassTenant -> Scope_Level scope = Ok (level spec) ->
  id_Principal caller <> "" -> person caller ->
  bindingOrg (tx_db tx) <> Org scope -> op <> OpSelfConfigApply -> op <> OpSelfConfigTest ->
  (exists pf a', Authorize tx ctx apiOps caller op scope a = (Ok pf, a')) <->
  chain_exists (tx_db tx) scope /\
  formula_entitled (activeOnly (az_r a)) (tx_db tx) (id_Principal caller) (formula spec) scope /\
  (id_SessionID caller = "" \/ FormulaDemandsMFA op = false \/
   AdequateAssurance (id_Assurance caller) = true).
Proof.
  intros Hnof Hgap Hreg Hc Hl Hp Hper Hb H1 H2.
  rewrite (Authorize_tenant tx ctx apiOps caller op spec scope a Hreg Hc Hp (person_route ctx caller Hper)).
  pose proof (tenant_level op spec Hreg Hc) as Hne. pose proof (registered_levels op spec Hreg) as Hlev.
  clear Hreg. unfold authorizeTenant. rewrite Hl. cbn [as_level]. rewrite Z.eqb_refl. cbn [negb].
  assert (assuranceInadequate caller op = false <-> (id_SessionID caller = "" \/
    FormulaDemandsMFA op = false \/ AdequateAssurance (id_Assurance caller) = true)) as Hass.
  { unfold assuranceInadequate. generalize (FormulaDemandsMFA op). intros d.
    destruct (String.eqb_spec (id_SessionID caller) ""), d, (AdequateAssurance _); cbn; naive_solver. }
  destruct (ResolveChain_run tx Hnof scope (level spec) (az_r a) Hl Hne) as (name & [[Hr Hex]|[Hr Hex]]).
  2: { split; [|naive_solver]. intros (pf & a' & H). exfalso. revert H. unfold mbind, st_bind, st_try, res, st_zoom.
       rewrite Hr. cbn -[refuse]. intros H. eapply refuse_not_Ok; exact H. }
  destruct (Grants_run tx Hnof Hgap (id_Principal caller) (log_query name (az_r a)))
    as (gs & r' & nm & Hg & Hgs & Hmk & _).
  assert (forall x, ((st_try (res (ResolveChain tx scope)) ≫= x) : ST TxAuthorizer proof) a =
    x (Ok scope) (set_r (log_query name (az_r a)) a)) as Hstep.
  { intros x. unfold mbind, st_bind, st_try, res, st_zoom. by rewrite Hr. }
  rewrite Hstep. cbv beta iota.
  assert (forall x, ((res (Grants tx (id_Principal caller)) ≫= x) : ST TxAuthorizer proof)
    (set_r (log_query name (az_r a)) a) = x gs (set_r r' a)) as Hstep2.
  { intros x. unfold mbind, st_bind, res, st_zoom. cbn [az_r set_r]. by rewrite Hg. }
  rewrite Hstep2. change (activeOnly (log_query name (az_r a))) with (activeOnly (az_r a)) in Hgs.
  rewrite <- (satisfied_entitled _ _ _ _ _ _ Hgs), <- Hass.
  rewrite <- (authorizeResolved_person tx ctx caller op
    (MkAuthorizationSpec (class spec) (level spec) (formula spec)) scope gs (set_r r' a) Hper Hlev); [|..|exact H1|exact H2].
  - split; [by split|by intros [_ H]].
  - cbn [az_r set_r]. rewrite Hmk. unfold markerOf.
    destruct (_ || _)%bool; [reflexivity|]. destruct (grantRows true _ _); [reflexivity|].
    rewrite (proj2 (String.eqb_neq (Org scope) _)) by congruence. apply andb_false_r.
Qed.

Lemma person_authorized_iff_witness :
  chain_exists sampleDB scopeE1 /\
  formula_entitled true sampleDB "alice" (formula (specOf OpValueReveal)) scopeE1.
Proof.
  destruct (minted _ alice_reveals) as (pf & a' & E).
  destruct (proj1 (person_authorized_iff sampleTx sampleCtx None alice OpValueReveal (specOf OpValueReveal)
    scopeE1 sampleAuthorizer sample_no_fault sample_gapless
    (registered_check OpValueReveal ltac:(vm_compute; reflexivity))
    ltac:(vm_compute; reflexivity) ltac:(vm_compute; reflexivity)
    ltac:(discriminate) (or_intror eq_refl) ltac:(discriminate) ltac:(discriminate) ltac:(discriminate))
    (ex_intro _ pf (ex_intro _ a' E))) as (H1 & H2 & _).
  split; [exact H1|exact H2].
Defined.

(** ** Refusals *)

(** The one statement that resolves a chain of each depth, and the one that
    lists a principal's grants in each mode of the resolver. *)
Definition chainStatement (l : Level) : string :=
  if l =? LevelOrg then "ResolveOrgChain" else if l =? LevelProject then "ResolveProjectChain" else "ResolveEnvChain".
Definition grantStatement (r : Resolver) : string :=
  if historicalRecoveryBeforePrivacy r then "RecoveryListGrantsBeforePrivacy"
  else if historicalRecoveryBeforeSelfConfig r then "RecoveryListGrantsBeforeSelfConfig" else "ListGrantsForPrincipal".

Lemma ResolveChain_logs tx s l r : Scope_Level s = Ok l -> l <> LevelNone ->
  queries (ResolveChain tx s r).2 = queries r ++ [chainStatement l].
Proof.
  intros Hl Hne. unfold ResolveChain, mbind, st_bind, st_result. rewrite Hl. apply Scope_Level_cases in Hl.
  destruct Hl as [(-> & _)|[(-> & _)|[(-> & _)|(-> & _)]]]; [done|..]; cbn;
    unfold resolveOrg, resolveProject, resolveEnv, mbind, st_bind, orNotFound, query; destruct (match tx_fault tx _ with Some _ => _ | None => _ end); reflexivity.
Qed.
Lemma Grants_logs tx p r : queries (Grants tx p r).2 = queries r ++ [grantStatement r].
Proof.
  unfold Grants, grantStatement, mbind, st_bind, st_modify, st_get. cbn.
  destruct (historicalRecoveryBeforePrivacy r); cbn; [|destruct (historicalRecoveryBeforeSelfConfig r); cbn].
  - unfold recoveryGrantsBeforePrivacy, mbind, st_bind, query, st_result. cbn. by destruct (tx_fault tx _).
  - unfold recoveryGrantsBeforeSelfConfig, mbind, st_bind, query, st_result. cbn. by destruct (tx_fault tx _).
  - unfold query, q_ListGrantsForPrincipal. cbn. destruct (tx_fault tx _); [done|]. by rewrite (proj1 (grantsLoop_frame _ _)).
Qed.

(** C3. Unauthorized is indistinguishable from nonexistent. For any caller with a
    principal id (an instance connection only over the network) and any tenant
    operation of the registry at its own depth, with a healthy driver, grant
    rows whose scopes have no gap and an id source that does not panic: whether
    the addressed chain is missing at some level or exists without the caller
    being entitled to the formula, the answer is the same not-found error and
    the denial was captured (or its capture failed, which the transaction layer
    turns into a loud refusal). The statements issued are the chain-resolution
    statement of that depth, first and once, and, exactly when the chain
    exists, one grant lookup after it; nothing else is read. *)
Theorem unauthorized_is_nonexistent (tx : TxEnv) (ctx : Ctx) (apiOps : option (list ApiOperation))
    (caller : Identity) (op : Operation) (spec : opSpec) (scope : Scope) (a : TxAuthorizer) :
  (forall n, tx_fault tx n = None) -> gapless (tx_db tx) -> ids_no_panic ctx ->
  registry !! op = Some spec -> class spec = ClassTenant -> Scope_Level scope = Ok (level spec) ->
  id_Principal caller <> "" -> IsNetwork ctx = true \/ id_Class caller <> ClassInstanceConn ->
  ~ (chain_exists (tx_db tx) scope /\
     formula_entitled (activeOnly (az_r a)) (tx_db tx) (id_Principal caller) (formula spec) scope) ->
  exists a',
    Authorize tx ctx apiOps caller op scope a = (Err ErrNotFound, a') /\
    recorded ctx (id_Principal caller) op a a' /\
    (chain_exists (tx_db tx) scope ->
     queries (az_r a') = queries (az_r a) ++ [chainStatement (level spec); grantStatement (az_r a)]) /\
    (~ chain_exists (tx_db tx) scope -> queries (az_r a') = queries (az_r a) ++ [chainStatement (level spec)]).
Proof.
  intros Hnof Hgap Hids Hreg Hc Hl Hp Hconn Hno.
  rewrite (Authorize_tenant tx ctx apiOps caller op spec scope a Hreg Hc Hp Hconn).
  pose proof (tenant_level op spec Hreg Hc) as Hne. pose proof (registered_levels op spec Hreg) as Hlev.
  clear Hreg. unfold authorizeTenant. rewrite Hl. cbn [as_level]. rewrite Z.eqb_refl. cbn [negb].
  unfold mbind, st_bind, st_try, res, st_zoom. pose proof (ResolveChain_logs tx scope (level spec) (az_r a) Hl Hne) as Hlog.
  destruct (ResolveChain_run tx Hnof scope (level spec) (az_r a) Hl Hne) as (name & [[Hr Hex]|[Hr Hex]]); rewrite Hr in Hlog |- *;
    cbn [snd queries log_query] in Hlog; apply app_inv_head in Hlog; injection Hlog as ->.
  - cbv beta iota. cbn [az_r set_r].
    pose proof (Grants_logs tx (id_Principal caller) (log_query (chainStatement (level spec)) (az_r a))) as Hq.
    destruct (Grants_run tx Hnof Hgap (id_Principal caller) (log_query (chainStatement (level spec)) (az_r a)))
      as (gs & r' & nm & Hg & Hgs & _ & _). rewrite Hg in Hq |- *. cbn [snd] in Hq.
    change (activeOnly (log_query _ (az_r a))) with (activeOnly (az_r a)) in Hgs.
    change (grantStatement (log_query _ (az_r a))) with (grantStatement (az_r a)) in Hq.
    assert (evaluate (formula spec) scope gs = Ok false) as Hev.
    { apply evaluate_false; [exact Hlev|]. rewrite (satisfied_entitled _ _ _ _ _ _ Hgs).
      intros He. apply Hno. by split. }
    unfold authorizeResolved, mbind, st_bind, st_result. cbn [as_formula]. rewrite Hev. cbn [negb].
    match goal with |- context [refuse ctx ?p ?o ?s ?rs ?c ?cl ?e ?st] =>
      destruct (refuse_spec (A := proof) ctx Hids p o s rs c cl e st) as (a' & -> & Haz & Hrec) end.
    exists a'. split; [reflexivity|]. split; [by apply Hrec; [left|apply (chainOK_level _ _ Hl)]|].
    split; [|by intros Hn; destruct (Hn Hex)]. intros _.
    rewrite Haz. cbn [az_r set_r]. rewrite Hq. cbn [queries log_query]. by rewrite <- app_assoc.
  - cbn -[refuse].
    match goal with |- context [refuse ctx ?p ?o ?s ?rs ?c ?cl ?e ?st] =>
      destruct (refuse_spec (A := proof) ctx Hids p o s rs c cl e st) as (a' & -> & Haz & Hrec) end.
    exists a'. split; [reflexivity|]. split; [apply Hrec; [by right|by left]|].
    split; [by intros He; destruct (Hex He)|]. intros _. rewrite Haz. reflexivity.
Qed.

Lemma no_such_org : ~ chain_exists sampleDB (MkScope "zz" "" "").
Proof.
  intros [(_ & _ & o & Hin & Hid)|[(H & _)|(H & _)]]; [|exact (H eq_refl)..].
  cbn in Hin. destruct Hin as [<-|[<-|[]]]; discriminate Hid.
Qed.

Lemma unauthorized_is_nonexistent_witness :
  exists a', run alice OpOrgGet (MkScope "zz" "" "") = (Err ErrNotFound, a') /\
    recorded sampleCtx "alice" OpOrgGet sampleAuthorizer a' /\
    queries (az_r a') = queries (az_r sampleAuthorizer) ++ ["ResolveOrgChain"].
Proof.
  destruct (unauthorized_is_nonexistent sampleTx sampleCtx None alice OpOrgGet (specOf OpOrgGet)
    (MkScope "zz" "" "") sampleAuthorizer sample_no_fault sample_gapless sample_ids
    (registered_check OpOrgGet ltac:(vm_compute; reflexivity))
    ltac:(vm_compute; reflexivity) ltac:(vm_compute; reflexivity)
    ltac:(discriminate) (or_introl eq_refl) (fun H => no_such_org (proj1 H))) as (a' & H1 & H2 & _ & H4).
  exists a'. split; [exact H1|]. split; [exact H2|exact (H4 no_such_org)].
Defined.

(** Every uniform answer is on record: whenever [Authorize] answers with an
    error that reads as not-found or unauthorized, the authorizer holds exactly
    one more captured denial than before - the event of this caller and this
    operation, filed under a chain the trail can store - or a capture error. Driver failures,
    unregistered operations and addressing mistakes never take that form. *)
Theorem uniform_answers_are_recorded (tx : TxEnv) (ctx : Ctx) (apiOps : option (list ApiOperation))
    (caller : Identity) (op : Operation) (scope : Scope) (a : TxAuthorizer) (e : error) (a' : TxAuthorizer) :
  driver_errors tx -> ids_no_panic ctx ->
  Authorize tx ctx apiOps caller op scope a = (Err e, a') ->
  errors_Is e nameErrNotFound = true \/ errors_Is e nameErrUnauthorized = true ->
  recorded ctx (id_Principal caller) op a a'.
Proof.
  intros Hd Hi H Hu. eapply (Authorize_Err tx ctx apiOps Hd Hi); [exact H|].
  unfold uniform. by destruct Hu as [-> | ->]; [|apply orb_true_r].
Qed.

(** The error of an outcome reads as the named sentinel. *)
Definition answers {A} (n : string) (x : result A * TxAuthorizer) : bool :=
  match x.1 with Err e => errors_Is e n | _ => false end.

Lemma refused {A} (n : string) (x : result A * TxAuthorizer) :
  answers n x = true -> exists e a', x = (Err e, a') /\ errors_Is e n = true.
Proof. unfold answers. destruct x as [[|e|] a']; [discriminate|eauto|discriminate]. Qed.

Lemma weak_session_refused :
  answers nameErrUnauthorized (run aliceWeak OpValueReveal scopeE1) = true.
Proof. vm_compute. reflexivity. Qed.

Lemma uniform_answers_are_recorded_witness :
  exists a', (exists e, run aliceWeak OpValueReveal scopeE1 = (Err e, a')) /\
    recorded sampleCtx "alice" OpValueReveal sampleAuthorizer a'.
Proof.
  destruct (refused _ _ weak_session_refused) as (e & a' & E & He).
  exists a'. split; [exists e; exact E|].
  exact (uniform_answers_are_recorded sampleTx sampleCtx None aliceWeak OpValueReveal scopeE1
    sampleAuthorizer e a' sample_driver sample_ids E (or_intror He)).
Defined.

(** The chokepoint never panics: for every operation name, registered or
    not, every caller, scope, table content and driver behaviour, [Authorize]
    returns a proof or an error. (The only panic in reach is an atom at an
    unknown level, which registry validation excludes.) *)
Theorem authorize_never_panics (tx : TxEnv) (ctx : Ctx) (apiOps : option (list ApiOperation))
    (caller : Identity) (op : Operation) (scope : Scope) (a : TxAuthorizer) :
  ids_no_panic ctx ->
  is_panic (Authorize tx ctx apiOps caller op scope a).1 = false.
Proof.
  intros Hi. destruct (Authorize tx ctx apiOps caller op scope a) as [[pf|e|p] a'] eqn:H; [reflexivity..|].
  exfalso. unfold Authorize in H. apply st_bind_Panic in H as [H|(sp & a1 & Hs & H)].
  { unfold lookupSpec in H. destruct (Registry_authorizationSpec op); discriminate H. }
  unfold lookupSpec in Hs. destruct (Registry_authorizationSpec op) as [sp'|] eqn:Hsp; [|discriminate Hs].
  injection Hs as <- <-. apply authorizationSpec_lookup in Hsp as (spec & Hreg & ->).
  pose proof (registered_levels op spec Hreg) as Hlev. clear Hreg.
  destruct (id_Principal caller =s ""); [discriminate H|].
  destruct (_ && _)%bool in H; [exact (refuse_Panic ctx Hi _ _ _ _ _ _ _ _ _ _ H)|].
  destruct (_ =? ClassTenant); [exact (authorizeTenant_Panic tx ctx Hi _ _ (MkAuthorizationSpec _ _ _) _ _ _ _ Hlev H)|].
  destruct (_ =? ClassInstance); [|discriminate H]. destruct (negb _); [discriminate H|].
  exact (authorizeInstance_Panic tx ctx Hi _ _ (MkAuthorizationSpec _ _ _) _ _ _ Hlev H).
Qed.

Lemma authorize_never_panics_witness :
  is_panic (run bot OpEnvDelete scopeE1).1 = false.
Proof.
  exact (authorize_never_panics sampleTx sampleCtx None bot OpEnvDelete scopeE1 sampleAuthorizer sample_ids).
Defined.

(** No proof after a driver failure: when a proof is minted, the driver
    answered every statement the authorization issued. *)
Theorem no_proof_after_driver_fault (tx : TxEnv) (ctx : Ctx) (apiOps : option (list ApiOperation))
    (caller : Identity) (op : Operation) (scope : Scope) (a : TxAuthorizer) (pf : proof) (a' : TxAuthorizer) :
  Authorize tx ctx apiOps caller op scope a = (Ok pf, a') ->
  (exists names, queries (az_r a') = queries (az_r a) ++ names) /\
  forall i, (length (queries (az_r a)) <= i < length (queries (az_r a')))%nat -> tx_fault tx i = None.
Proof.
  intros H. apply Authorize_Ok in H as (_ & spec & Hreg & H). clear Hreg.
  assert (exists r', a' = set_r r' a /\ answered tx (az_r a) r') as (r' & -> & _ & names & Hq & Hf).
  { destruct H as [(_ & T)|(_ & _ & T)]; [exact (tm_state _ _ _ _ _ _ _ _ T)|exact (im_state _ _ _ _ _ _ _ T)]. }
  split; [exists names; exact Hq|exact Hf].
Qed.

Lemma no_proof_after_driver_fault_witness :
  exists a', (exists pf, run bot OpValueReveal scopeE2 = (Ok pf, a')) /\
    exists names, queries (az_r a') = [] ++ names.
Proof.
  destruct (minted _ bot_reveals) as (pf & a' & E). exists a'. split; [exists pf; exact E|].
  exact (proj1 (no_proof_after_driver_fault sampleTx sampleCtx None bot OpValueReveal scopeE2
    sampleAuthorizer pf a' E)).
Defined.

(** ** The extra conjuncts *)

(** What a machine identity (a workload or automation account) can never
    do whatever it has been granted: obtain a proof for an operation whose
    formula discloses plaintext in a project whose machine-reveal opt-in is
    off right now, or a proof to delete an environment that is protected right
    now. *)
Theorem machine_conjuncts (tx : TxEnv) (ctx : Ctx) (apiOps : option (list ApiOperation))
    (caller : Identity) (op : Operation) (spec : opSpec) (scope : Scope) (a : TxAuthorizer) (pf : proof)
    (a' : TxAuthorizer) :
  registry !! op = Some spec -> IsServiceAccountKind (id_Class caller) = true ->
  Authorize tx ctx apiOps caller op scope a = (Ok pf, a') ->
  (demandsReveal (formula spec) = true -> Project scope <> "" ->
   exists p, In p (projects (tx_db tx)) /\ pj_id p = Project scope /\
     boolColumn (tx_engine tx) (pj_machine_reveal p) = true) /\
  (op = OpEnvDelete ->
   exists e, In e (environments (tx_db tx)) /\ en_id e = Env scope /\
     boolColumn (tx_engine tx) (en_protected e) = false).
Proof.
  intros Hreg Hm H. apply Authorize_Ok in H as (_ & spec' & Hreg' & H).
  rewrite Hreg in Hreg'. injection Hreg' as <-.
  assert (op = OpEnvDelete -> level spec = LevelEnv) as Hdel by (intros ->; apply OpEnvDelete_level; exact Hreg).
  pose proof (registry_WellFormed op spec Hreg) as Hwf. clear Hreg.
  destruct H as [(_ & T)|(Hc & -> & _)].
  - split; intros; [by eapply (tm_reveal _ _ _ _ _ _ _ _ T)|by eapply (tm_envDelete _ _ _ _ _ _ _ _ T)].
  - split; [intros _ Hp; by destruct Hp|]. intros E. apply Hdel in E.
    destruct (wf_class _ _ Hwf) as [[Ht _]|[_ Hl]]; [rewrite Hc in Ht; discriminate Ht|].
    rewrite E in Hl. discriminate Hl.
Qed.

Lemma machine_conjuncts_witness :
  exists p, In p (projects sampleDB) /\ pj_id p = "p2" /\ boolColumn SQLite (pj_machine_reveal p) = true.
Proof.
  destruct (minted _ bot_reveals) as (pf & a' & E).
  apply (machine_conjuncts sampleTx sampleCtx None bot OpValueReveal (specOf OpValueReveal) scopeE2
    sampleAuthorizer pf a' (registered_check OpValueReveal ltac:(vm_compute; reflexivity)) eq_refl E).
  - vm_compute. reflexivity.
  - discriminate.
Defined.

(** ** Session assurance *)
Lemma foldl_keys (fs : list string) : forall (d : gmap string unit) k,
  foldl (fun m f => <[f := ()]> m) d fs !! k = Some () <-> d !! k = Some () \/ In k fs.
Proof.
  induction fs as [|f fs IH]; intros d k; cbn; [naive_solver|]. rewrite IH.
  destruct (decide (f = k)) as [->|Hne].
  - rewrite lookup_insert_eq. naive_solver.
  - rewrite lookup_insert_ne by done. naive_solver.
Qed.

Lemma size_two (m : gmap string unit) :
  2 <= Z.of_nat (size m) <-> exists f g, f <> g /\ m !! f = Some () /\ m !! g = Some ().
Proof.
  split.
  - intros H. pose proof (NoDup_fst_map_to_list m) as Hnd. rewrite <- length_map_to_list in H.
    destruct (map_to_list m) as [|[f []] [|[g []] l]] eqn:E; cbn in H; [lia..|].
    exists f, g. cbn in Hnd. apply NoDup_cons in Hnd as [Hni _].
    split; [intros ->; apply Hni; by left|].
    split; apply elem_of_map_to_list; rewrite E; [by left|right; by left].
  - intros (f & g & Hne & Hf & Hg).
    assert (({[f := (); g := ()]} : gmap string unit) ⊆ m) as Hsub.
    { apply insert_subseteq_l; [done|]. apply insert_subseteq_l; [done|]. apply map_empty_subseteq. }
    apply map_subseteq_size in Hsub.
    rewrite map_size_insert_None in Hsub by (by apply lookup_singleton_None).
    rewrite map_size_singleton in Hsub. lia.
Qed.

Lemma adequate_loop_spec (fs : list string) : forall d : gmap string unit,
  adequate_loop d fs = true <->
  In "webauthn" fs \/ 2 <= Z.of_nat (size (foldl (fun m f => <[f := ()]> m) d fs)).
Proof.
  induction fs as [|f fs IH]; intros d; cbn; [rewrite Z.leb_le; naive_solver|].
  destruct (String.eqb_spec f "webauthn") as [->|Hne]; [naive_solver|]. rewrite IH. naive_solver.
Qed.

(** The MFA floor. A caller who presents a session gets a proof for an
    operation whose formula touches an MFA-mandatory capability (reveal,
    reveal-history, manage-members, credential-reset, instance-config,
    instance-directory) only if that session presented a WebAuthn assertion or
    two distinct factor classes. *)
Theorem mfa_floor (tx : TxEnv) (ctx : Ctx) (apiOps : option (list ApiOperation))
    (caller : Identity) (op : Operation) (spec : opSpec) (scope : Scope) (a : TxAuthorizer) (pf : proof)
    (a' : TxAuthorizer) (atom : Atom) :
  Authorize tx ctx apiOps caller op scope a = (Ok pf, a') ->
  registry !! op = Some spec -> In atom (formula spec) ->
  In (Cap atom) [CapReveal; CapRevealHistory; CapManageMembers; CapCredentialReset;
                 CapInstanceConfig; CapInstanceDirector] ->
  id_SessionID caller <> "" ->
  In "webauthn" (as_Factors (id_Assurance caller)) \/
  exists f g, f <> g /\ In f (as_Factors (id_Assurance caller)) /\ In g (as_Factors (id_Assurance caller)).
Proof.
  intros H Hreg Hin Hcap Hs.
  assert (AdequateAssurance (id_Assurance caller) = true) as Had.
  { assert (FormulaDemandsMFA op = true) as Hd.
    { unfold FormulaDemandsMFA.
      assert (Registry_authorizationSpec op =
        Some (MkAuthorizationSpec (class spec) (level spec) (formula spec))) as ->
        by (apply authorizationSpec_lookup; exists spec; split; [exact Hreg|reflexivity]).
      clear Hreg. cbn [from_option as_formula]. apply existsb_exists. exists atom. split; [exact Hin|].
      unfold MFAMandatory. rewrite flag_licensed. by apply contains_In. }
    apply Authorize_Ok in H as (_ & spec' & _ & [(_ & T)|(_ & _ & T)]).
    - exact (tm_assurance _ _ _ _ _ _ _ _ T Hs (or_introl Hd)).
    - exact (im_assurance _ _ _ _ _ _ _ T Hs Hd). }
  clear -Had. unfold AdequateAssurance in Had. apply adequate_loop_spec in Had as [Hw|Hsz]; [by left|right].
  apply size_two in Hsz as (f & g & Hne & Hf & Hg). apply foldl_keys in Hf as [Hf|Hf]; [discriminate Hf|].
  apply foldl_keys in Hg as [Hg|Hg]; [discriminate Hg|]. by exists f, g.
Qed.

Lemma mfa_floor_witness :
  In "webauthn" ["password"; "totp"] \/
  exists f g, f <> g /\ In f ["password"; "totp"] /\ In g ["password"; "totp"].
Proof.
  destruct (minted _ alice_reveals) as (pf & a' & E).
  apply (mfa_floor sampleTx sampleCtx None alice OpValueReveal (specOf OpValueReveal) scopeE1
    sampleAuthorizer pf a' (MkAtom CapReveal LevelEnv) E
    (registered_check OpValueReveal ltac:(vm_compute; reflexivity))).
  - vm_compute. auto.
  - vm_compute. auto.
  - discriminate.
Defined.

(** ** The protected self-configuration organisation *)
Lemma evaluate_instance_atom cap chain active db principal gs rest :
  grantsFromRows (grantRows active principal db) = Ok gs ->
  formula_levels rest ->
  evaluate (MkAtom cap LevelNone :: rest) chain gs = Ok true ->
  entitled active db principal cap emptyScope /\ evaluate rest chain gs = Ok true.
Proof.
  intros Hgs Hlev He. apply evaluate_true in He; [|constructor; [split; discriminate|exact Hlev]].
  rewrite evaluate_true by exact Hlev. inversion He as [|? ? Ha Hr]; subst. split; [|exact Hr].
  assert (satisfied [MkAtom cap LevelNone] chain gs) as Hs by (constructor; [exact Ha|constructor]).
  apply (satisfied_entitled _ _ _ _ _ _ Hgs) in Hs. inversion Hs; subst. assumption.
Qed.

(** The protected organisation cannot be entered through ordinary tenant
    power: once the instance is bound to its self-configuration organisation, a
    proof for anything inside it goes only to a person, for an operation of the
    closed list, who holds instance-config at instance scope (and
    manage-members there too, for the membership operations), with an adequate
    session if a session is presented; the proof carries the protected mark.
    The mark is read from the grant rows themselves, and no caller without
    grant rows reaches the check. *)
Theorem self_config_confined (tx : TxEnv) (ctx : Ctx) (apiOps : option (list ApiOperation))
    (caller : Identity) (op : Operation) (scope : Scope) (a : TxAuthorizer) (pf : proof) (a' : TxAuthorizer) :
  historicalRecoveryBeforePrivacy (az_r a) = false ->
  historicalRecoveryBeforeSelfConfig (az_r a) = false ->
  bindingOrg (tx_db tx) <> "" -> Org scope = bindingOrg (tx_db tx) ->
  Authorize tx ctx apiOps caller op scope a = (Ok pf, a') ->
  pf_selfConfig pf = true /\ person caller /\ flag selfConfigOperations op = true /\
  entitled true (tx_db tx) (id_Principal caller) CapInstanceConfig emptyScope /\
  (In op selfConfigMemberOps ->
   entitled true (tx_db tx) (id_Principal caller) CapManageMembers emptyScope) /\
  (id_SessionID caller <> "" -> AdequateAssurance (id_Assurance caller) = true).
Proof.
  intros Hh1 Hh2 Hb Ho H. apply Authorize_Ok in H as (_ & spec & Hreg & H).
  pose proof (wf_formula _ _ (registry_WellFormed op spec Hreg)) as Hf. clear Hreg.
  destruct H as [(_ & T)|(_ & -> & _)]; [|symmetry in Ho; contradiction].
  destruct (tm_grants _ _ _ _ _ _ _ _ T) as (gs & Hgs & Hsat & Hprof).
  assert (activeOnly (az_r a) = true) as Hact by (unfold activeOnly; by rewrite Hh1).
  rewrite Hact in Hgs.
  assert (pf_selfConfig pf = true) as Hsc.
  { rewrite (tm_marker _ _ _ _ _ _ _ _ T). cbv zeta. unfold markerOf. rewrite Hh1, Hh2. cbn [orb].
    destruct (grantRows true (id_Principal caller) (tx_db tx)) as [|g rows].
    - exfalso. cbn in Hgs. injection Hgs as <-. destruct (formula spec) as [|at0 f]; [by apply Hf|].
      inversion Hsat as [|? ? (g & [] & _) _].
    - rewrite Ho, String.eqb_refl, (proj2 (String.eqb_neq _ _) Hb). reflexivity. }
  pose proof (tm_profile _ _ _ _ _ _ _ _ T) as Hp. rewrite Hsc in Hp. destruct Hp as [Hper Hop].
  specialize (Hprof Hsc). unfold profileFormula in Hprof.
  pose proof (profileFormula_levels op) as Hlev. unfold profileFormula in Hlev.
  apply (evaluate_instance_atom _ _ _ _ _ _ _ Hgs) in Hprof as [Hic Hrest]; [|by inversion Hlev].
  split; [exact Hsc|]. split; [exact Hper|]. split; [exact Hop|]. split; [exact Hic|]. split.
  - intros Hin%contains_In. rewrite Hin in Hrest.
    by apply (evaluate_instance_atom _ _ _ _ _ _ _ Hgs) in Hrest as [? _]; [|constructor].
  - intros Hs. exact (tm_assurance _ _ _ _ _ _ _ _ T Hs (or_intror Hsc)).
Qed.

Lemma self_config_confined_witness :
  entitled true sampleDB "root" CapInstanceConfig emptyScope.
Proof.
  destruct (minted _ root_reads_ops) as (pf & a' & E).
  apply (self_config_confined sampleTx sampleCtx None root OpOrgGet scopeOps sampleAuthorizer pf a'
    eq_refl eq_refl ltac:(discriminate) eq_refl E).
Defined.

(** ** Grants are additive and inherit downward *)
Lemma ancestor_trans g s t : ancestor g s -> ancestor s t -> ancestor g t.
Proof.
  intros (l & Hl & Hc) (m & Hm & Hd). exists l. split; [exact Hl|].
  apply Scope_Level_cases in Hl, Hm. destruct g as [go gp ge], s as [so sp se], t as [to tp te].
  unfold cut, LevelNone, LevelOrg, LevelProject, LevelEnv, emptyScope in *; cbn in *.
  destruct Hl as [(-> & E)|[(-> & ? & -> & ->)|[(-> & ? & ? & ->)|(-> & ? & ? & ?)]]], 
    Hm as [(-> & E')|[(-> & ? & -> & ->)|[(-> & ? & ? & ->)|(-> & ? & ? & ?)]]]; cbn in *; naive_solver.
Qed.

(** There are no deny rules: a principal who is granted more, whose grants
    sit higher, or who is asked about a deeper chain, is never entitled to
    less. Entitlement is monotone in the grant rows and inherits from a scope
    to everything below it. *)
Theorem entitlement_monotone (active : bool) (db db' : DB) (principal : PrincipalID) (cap : Capability)
    (target deeper : Scope) :
  (forall g, In g (grants db) -> In g (grants db')) ->
  principals db' = principals db -> restore_epoch db' = restore_epoch db ->
  ancestor target deeper ->
  entitled active db principal cap target -> entitled active db' principal cap deeper.
Proof.
  intros Hg Hp He Hanc (s & (g & p & Hin & Hgp & Hc & Hs & Hpin & Hid & Hact & Hrec) & Ha).
  exists s. split.
  - exists g, p. rewrite Hp. unfold reconciled in *. rewrite He. auto 10.
  - by eapply ancestor_trans.
Qed.

Lemma entitlement_monotone_witness :
  entitled true sampleDB "alice" CapRead scopeO1 /\ entitled true sampleDB "alice" CapRead scopeE1.
Proof.
  assert (entitled true sampleDB "alice" CapRead scopeO1) as H.
  { exists scopeO1. split; [|exists LevelOrg; split; reflexivity].
    exists (MkGrantRow "alice" CapRead (Some "o1") None None), (MkPrincipalRow "alice" "human" None "active" 0).
    cbn. repeat split; auto. }
  split; [exact H|].
  apply (entitlement_monotone true sampleDB sampleDB "alice" CapRead scopeO1 scopeE1); auto.
  exists LevelOrg. split; reflexivity.
Defined.

(** ** The affordance probes agree with the chokepoint *)
Section Probes.
Context (tx : TxEnv) (ctx : Ctx) (apiOps : option (list ApiOperation)).
Let db := tx_db tx.
Hypothesis Hnof : forall n, tx_fault tx n = None.
Hypothesis Hgap : gapless db.

(** The profile does not look past the caller's class. *)
Lemma selfConfigProfile_person caller principal op chain gs a :
  person caller ->
  selfConfigProfile caller op chain gs a =
  selfConfigProfile (MkIdentity principal "" "" "" noAssurance) op chain gs a.
Proof. intros [H|H]; unfold selfConfigProfile; rewrite H; reflexivity. Qed.

Lemma eligible_person caller : person caller ->
  selfConfigSessionEligible caller =
  (id_SessionID caller =s "") || AdequateAssurance (id_Assurance caller).
Proof. intros [H|H]; unfold selfConfigSessionEligible; rewrite H; reflexivity. Qed.

(** From the lookups on, the probe and the chokepoint decide alike. *)
Lemma probe_agrees_resolved caller op spec scope gs a :
  person caller -> formula_levels (as_formula spec) ->
  ((exists pf a', authorizeResolved tx ctx caller op spec scope scope gs a = (Ok pf, a')) <->
   exists p, selfConfigProfile caller op scope gs a = (Ok p, a) /\
     evaluate (as_formula spec) scope gs = Ok true /\ p.2 = true /\
     (p.1 && negb (selfConfigSessionEligible caller)) = false /\ assuranceInadequate caller op = false).
Proof.
  intros Hper Hlev. pose proof (person_not_machine caller Hper) as Hm.
  rewrite eligible_person by exact Hper.
  unfold authorizeResolved, machineEnvDeleteRefused, machineRevealWithdrawn.
  destruct (evaluate_spec (as_formula spec) scope gs Hlev) as (b & Hb & _).
  destruct (selfConfigProfile_total caller op scope gs a) as ([prot perm] & Hp).
  unfold mbind, st_bind, mret, st_ret, st_result. rewrite Hb, Hm. cbn [negb andb orb]. cbv beta iota.
  destruct b; cbn [negb]; cbv beta iota.
  2: { split; [intros (pf & a' & H); exfalso; eapply refuse_not_Ok; exact H|].
       intros (p & _ & H & _). discriminate H. }
  rewrite Hp. cbn [fst snd]. destruct perm; cbn [negb]; cbv beta iota.
  2: { split; [intros (pf & a' & H); exfalso; eapply refuse_not_Ok; exact H|].
       intros (p & [= <-] & _ & H & _). discriminate H. }
  assert (negb ((id_SessionID caller =s "") || AdequateAssurance (id_Assurance caller)) =
    (id_SessionID caller <>s "") && negb (AdequateAssurance (id_Assurance caller))) as -> by apply negb_orb.
  rewrite <- andb_assoc. generalize (assuranceInadequate caller op). intros inad.
  set (weak := (prot && _)%bool).
  destruct (inad || weak)%bool eqn:Hw.
  - split; [intros (pf & a' & H); exfalso; eapply refuse_not_Ok; exact H|].
    intros (p & [= <-] & _ & _ & H1 & H2). cbn [fst] in H1. fold weak in H1. rewrite H1, H2 in Hw. discriminate Hw.
  - apply orb_false_elim in Hw as [-> Hw]. split; [|intros _; eexists _, _; reflexivity].
    intros _. exists (prot, true). cbn [fst snd]. fold weak. auto.
Qed.

Lemma IsSelfConfigScope_run chain a :
  res (IsSelfConfigScope chain) a =
  (Ok ((selfConfigOrgID (az_r a) <>s "") && (Org chain =s selfConfigOrgID (az_r a))), a).
Proof. unfold res, st_zoom, IsSelfConfigScope. cbn. by destruct a. Qed.

(** The probe's evaluation once the chain and the grants are read. *)
Lemma principalFormulaEvaluation_run principal op spec scope gs name r' a :
  registry !! op = Some spec ->
  ResolveChain tx scope (az_r a) = (Ok scope, log_query name (az_r a)) ->
  Grants tx principal (log_query name (az_r a)) = (Ok gs, r') ->
  exists p b,
    selfConfigProfile (MkIdentity principal "" "" "" noAssurance) op scope gs (set_r r' a) = (Ok p, set_r r' a) /\
    evaluate (formula spec) scope gs = Ok b /\
    principalFormulaEvaluation tx principal op scope a =
      (Ok (MkAuthorizationSpec (class spec) (level spec) (formula spec), scope, p.2 && b), set_r r' a).
Proof.
  intros Hreg Hr Hg. pose proof (registered_levels op spec Hreg) as Hlev.
  assert (Registry_authorizationSpec op = Some (MkAuthorizationSpec (class spec) (level spec) (formula spec)))
    as Hspec by (apply authorizationSpec_lookup; exists spec; split; [exact Hreg|reflexivity]).
  clear Hreg. destruct (evaluate_spec (formula spec) scope gs Hlev) as (b & Hb & _).
  destruct (selfConfigProfile_total (MkIdentity principal "" "" "" noAssurance) op scope gs (set_r r' a))
    as (p & Hp). exists p, b. split; [exact Hp|]. split; [exact Hb|].
  unfold principalFormulaEvaluation, lookupSpec. rewrite Hspec. clear Hspec.
  unfold mbind, st_bind, mret, st_ret, st_try. cbn [from_option].
  unfold res at 1 2, st_zoom. rewrite Hr. cbv beta iota. cbn [az_r set_r]. rewrite Hg. cbv beta iota.
  change (set_r r' (set_r (log_query name (az_r a)) a)) with (set_r r' a). rewrite Hp. cbn [as_formula].
  unfold st_result. rewrite Hb. by destruct (p.2).
Qed.

Lemma callerHolds_agrees caller op spec scope a :
  registry !! op = Some spec -> class spec = ClassTenant -> Scope_Level scope = Ok (level spec) ->
  id_Principal caller <> "" -> person caller ->
  (CallerHolds tx caller op scope a).1 = Ok true <->
  exists pf a', Authorize tx ctx apiOps caller op scope a = (Ok pf, a').
Proof.
  intros Hreg Hc Hl Hp Hper.
  rewrite (Authorize_tenant tx ctx apiOps caller op spec scope a Hreg Hc Hp (person_route ctx caller Hper)).
  pose proof (tenant_level op spec Hreg Hc) as Hne. pose proof (registered_levels op spec Hreg) as Hlev.
  unfold authorizeTenant. rewrite Hl. cbn [as_level]. rewrite Z.eqb_refl. cbn [negb].
  destruct (ResolveChain_run tx Hnof scope (level spec) (az_r a) Hl Hne) as (name & [[Hr _]|[Hr _]]).
  - destruct (Grants_run tx Hnof Hgap (id_Principal caller) (log_query name (az_r a)))
      as (gs & r' & nm & Hg & _ & _ & _).
    destruct (principalFormulaEvaluation_run _ _ _ _ _ _ _ _ Hreg Hr Hg) as (p & b & Hprof & Hb & Hpfe).
    clear Hreg.
    assert ((CallerHolds tx caller op scope a).1 =
      Ok (p.2 && b && negb (p.1 && negb (selfConfigSessionEligible caller)) &&
          negb (assuranceInadequate caller op))) as ->.
    { apply selfConfigProfile_Ok in Hprof as (_ & prot & Hprot & Hp1 & _).
      unfold CallerHolds. rewrite (proj2 (String.eqb_neq _ _) Hp). unfold mbind, st_bind. rewrite Hpfe.
      clear Hpfe. cbn [fst snd]. destruct (p.2 && b)%bool; cbn [negb andb]; [|reflexivity].
      rewrite IsSelfConfigScope_run, <- Hprot, <- Hp1. by destruct (p.1 && _)%bool. }
    clear Hpfe. unfold mbind, st_bind, st_try, res, st_zoom. rewrite Hr. cbv beta iota. cbn [az_r set_r].
    rewrite Hg. cbv beta iota.
    change (set_r r' (set_r (log_query name (az_r a)) a)) with (set_r r' a).
    rewrite (probe_agrees_resolved caller op (MkAuthorizationSpec (class spec) (level spec) (formula spec))
      scope gs (set_r r' a) Hper Hlev). cbn [as_formula].
    rewrite (selfConfigProfile_person caller (id_Principal caller) op scope gs (set_r r' a) Hper), Hprof, Hb.
    clear. generalize (assuranceInadequate caller op). intros inad.
    destruct p as [prot perm]; cbn [fst snd].
    destruct perm, b, prot, (selfConfigSessionEligible caller), inad; cbn; naive_solver.
  - split.
    + assert (Registry_authorizationSpec op = Some (MkAuthorizationSpec (class spec) (level spec) (formula spec)))
        as Hspec by (apply authorizationSpec_lookup; exists spec; split; [exact Hreg|reflexivity]).
      clear Hreg. unfold CallerHolds, principalFormulaEvaluation, lookupSpec.
      rewrite Hspec, (proj2 (String.eqb_neq _ _) Hp). clear Hspec.
      unfold mbind, st_bind, mret, st_ret, st_try, res, st_zoom. cbn [from_option]. rewrite Hr. cbn. discriminate.
    + clear Hreg. intros (pf & a' & H). exfalso. revert H. unfold mbind, st_bind, st_try, res, st_zoom. rewrite Hr.
      cbn -[refuse]. intros H. eapply refuse_not_Ok; exact H.
Qed.

Lemma holdsInstance_agrees caller op spec a :
  registry !! op = Some spec -> class spec = ClassInstance -> id_Principal caller <> "" -> person caller ->
  (HoldsInstanceCapability tx caller op a).1 = Ok true <->
  exists pf a', Authorize tx ctx apiOps caller op emptyScope a = (Ok pf, a').
Proof.
  intros Hreg Hc Hp Hper. pose proof (registered_levels op spec Hreg) as Hlev.
  assert (contains selfConfigInstanceOps op = true -> FormulaDemandsMFA op = true) as Hmfa.
  { intros [<-|[<-|[<-|[]]]]%contains_In; vm_compute; reflexivity. }
  assert (Registry_authorizationSpec op = Some (MkAuthorizationSpec (class spec) (level spec) (formula spec)))
    as Hspec by (apply authorizationSpec_lookup; exists spec; split; [exact Hreg|reflexivity]).
  clear Hreg.
  destruct (Grants_run tx Hnof Hgap (id_Principal caller) (az_r a)) as (gs & r' & nm & Hg & _).
  destruct (evaluate_spec (formula spec) emptyScope gs Hlev) as (b & Hb & _).
  assert ((HoldsInstanceCapability tx caller op a).1 =
    Ok (negb (contains selfConfigInstanceOps op && negb (selfConfigSessionEligible caller)) && b &&
        negb (assuranceInadequate caller op))) as ->.
  { unfold HoldsInstanceCapability, lookupSpec. rewrite Hspec, (proj2 (String.eqb_neq _ _) Hp). clear Hspec Hmfa.
    cbn [from_option]. unfold mbind, st_bind, mret, st_ret. cbn [as_class as_formula]. rewrite Hc.
    change (ClassInstance =? ClassInstance) with true. cbn [negb].
    destruct (contains _ _ && _)%bool; [reflexivity|]. unfold res, st_zoom. rewrite Hg.
    unfold st_result. rewrite Hb. by destruct b. }
  assert (Authorize tx ctx apiOps caller op emptyScope a = authorizeInstance tx ctx caller op
    (MkAuthorizationSpec (class spec) (level spec) (formula spec)) a) as ->.
  { unfold Authorize, lookupSpec. rewrite Hspec. clear Hspec Hmfa.
    cbn [from_option]. unfold mbind, st_bind, mret, st_ret. cbn [as_class].
    rewrite (proj2 (String.eqb_neq _ _) Hp), Hc, (person_not_conn caller Hper), andb_false_r. reflexivity. }
  clear Hspec. unfold authorizeInstance.
  assert ((id_Class caller <>s "") && (id_Class caller <>s ClassHuman) = false) as Hcls
    by (by destruct Hper as [-> | ->]).
  assert (contains selfConfigInstanceOps op && (id_Class caller <>s "") &&
    (id_Class caller <>s ClassHuman) = false) as -> by (rewrite <- andb_assoc, Hcls; apply andb_false_r).
  assert (exists adm, (if selfConfigSessionEligible caller
     then st_result (evaluate [MkAtom CapInstanceConfig LevelNone] emptyScope gs)
     else mret false) (set_r r' a) = (Ok adm, set_r r' a)) as (adm & Hadm).
  { destruct (selfConfigSessionEligible caller); [|eexists; reflexivity].
    destruct (evaluate_spec [MkAtom CapInstanceConfig LevelNone] emptyScope gs) as (b2 & Hb2 & _).
    { repeat constructor; discriminate. }
    unfold st_result. rewrite Hb2. eexists; reflexivity. }
  assert (contains selfConfigInstanceOps op && negb (selfConfigSessionEligible caller) = true ->
    assuranceInadequate caller op = true) as Hweak.
  { rewrite eligible_person by exact Hper. intros [Ho He]%andb_prop. unfold assuranceInadequate.
    rewrite (Hmfa Ho). clear Hmfa. by destruct (id_SessionID caller =s ""), (AdequateAssurance _). }
  clear Hmfa. revert Hweak. generalize (assuranceInadequate caller op). intros inad Hweak.
  assert (forall B (x : list Grant -> ST TxAuthorizer B),
    (res (Grants tx (id_Principal caller)) ≫= x) a = x gs (set_r r' a)) as Hstep.
  { intros B x. unfold mbind, st_bind, res, st_zoom. by rewrite Hg. }
  rewrite Hstep. cbn [as_formula]. unfold mbind at 1, st_bind at 1, st_result at 1. rewrite Hb.
  destruct (contains _ _ && _)%bool.
  - rewrite (Hweak eq_refl). cbn [negb andb]. split; [discriminate|]. intros (pf & a' & H). exfalso.
    destruct b; cbn [negb] in H; eapply refuse_not_Ok; exact H.
  - destruct b, inad; cbn [negb andb];
      try (split; [discriminate|intros (pf & a' & H); exfalso; eapply refuse_not_Ok; exact H]).
    split; [intros _|reflexivity]. unfold mbind, st_bind. rewrite Hadm. eexists _, _. reflexivity.
Qed.
End Probes.

(** The two affordance probes answer what the chokepoint would do: for a
    person and a healthy driver, [CallerHolds] says yes to a tenant operation
    at its depth, and [HoldsInstanceCapability] to an instance operation,
    exactly when [Authorize] in the same state mints a proof - inside the
    protected organisation too. *)
Theorem probes_agree_with_authorize (tx : TxEnv) (ctx : Ctx) (apiOps : option (list ApiOperation))
    (caller : Identity) (op : Operation) (spec : opSpec) (scope : Scope) (a : TxAuthorizer) :
  (forall n, tx_fault tx n = None) -> gapless (tx_db tx) ->
  registry !! op = Some spec -> id_Principal caller <> "" -> person caller ->
  (class spec = ClassTenant -> Scope_Level scope = Ok (level spec) ->
   (CallerHolds tx caller op scope a).1 = Ok true <->
   exists pf a', Authorize tx ctx apiOps caller op scope a = (Ok pf, a')) /\
  (class spec = ClassInstance ->
   (HoldsInstanceCapability tx caller op a).1 = Ok true <->
   exists pf a', Authorize tx ctx apiOps caller op emptyScope a = (Ok pf, a')).
Proof.
  intros Hnof Hgap Hreg Hp Hper. split.
  - intros Hc Hl. exact (callerHolds_agrees tx ctx apiOps Hnof Hgap caller op spec scope a Hreg Hc Hl Hp Hper).
  - intros Hc. exact (holdsInstance_agrees tx ctx apiOps Hnof Hgap caller op spec a Hreg Hc Hp Hper).
Qed.

Lemma probes_agree_with_authorize_witness :
  (CallerHolds sampleTx root OpOrgGet scopeOps sampleAuthorizer).1 = Ok true.
Proof.
  destruct (minted _ root_reads_ops) as (pf & a' & E).
  apply (proj1 (probes_agree_with_authorize sampleTx sampleCtx None root OpOrgGet (specOf OpOrgGet) scopeOps
    sampleAuthorizer sample_no_fault sample_gapless
    (registered_check OpOrgGet ltac:(vm_compute; reflexivity)) ltac:(discriminate) (or_intror eq_refl))).
  - vm_compute. reflexivity.
  - vm_compute. reflexivity.
  - exists pf, a'. exact E.
Defined.

(** The agreement stops at machine callers: [CallerHolds] does not read the
    machine-reveal opt-in, so for an automation account that holds read and
    reveal in a project whose opt-in is off it answers yes while [Authorize]
    refuses. *)
Theorem callerHolds_overstates_for_machines :
  (CallerHolds sampleTx bot OpValueReveal scopeE1 sampleAuthorizer).1 = Ok true /\
  answers nameErrNotFound (run bot OpValueReveal scopeE1) = true.
Proof. split; vm_compute; reflexivity. Qed.
