(* ===== verification/Boundary.v ===== *)
(** * The store boundary: [internal/authz/verify.go], [self_config.go]

    The checks every store method makes on the proof it is handed, over proof
    values as Go sees them (nil, a foreign implementation, the concrete type)
    and transaction tokens as pointers with a death flag; and the end-to-end
    consequences of pairing them with the chokepoint. *)

From S2P Require Import Prelude Domain OperationNames EventNames OperationTable AuditTable Registry.
From S2P Require Import FreeText AuditEvent Resolver Authorize AuthorizeSpec Refusal Samples.

#[local] Open Scope Z_scope.

(** ** Proof values and tokens *)

(** A value of the [Proof] interface: nil, a struct of another package that
    embeds it, a nil pointer of the concrete type, or the concrete type. *)
Inductive Proof := PNil | PForeign | PNilPointer | PConcrete (c : proof).

(** The type assertion to the concrete pointer type, with [ok && c != nil]. *)
Definition concrete (p : Proof) : option proof :=
  match p with PConcrete c => Some c | PNil | PForeign | PNilPointer => None end.

(** The tokens that have been invalidated. *)
Abbreviation Dead := (list nat).
Definition alive (dead : Dead) (t : TxToken) : bool := negb (existsb (Nat.eqb t) dead).
Definition Invalidate (t : TxToken) (dead : Dead) : Dead := t :: dead.

(** Pointer equality of tokens. *)
Definition same_token (a b : option TxToken) : bool :=
  match a, b with
  | Some x, Some y => Nat.eqb x y
  | None, None => true
  | _, _ => false
  end.

Definition siteAllows (site : SystemSite) (op : StoreOp) : bool :=
  flag (default ∅ (systemSites !! site)) op.

Definition Verify (dead : Dead) (p : Proof) (op : StoreOp) (tok : option TxToken) : result Scope :=
  match p with
  | PNil => Err (ENew "authz: store call without a proof")
  | _ =>
      match concrete p with
      | None => Err (ENew "authz: non-canonical proof")
      | Some c =>
          match tok with
          | None => Err (ENew "authz: proof presented outside its transaction")
          | Some t =>
              if negb (same_token (pf_tok c) tok) then
                Err (ENew "authz: proof presented outside its transaction")
              else if negb (alive dead t) then
                Err (ENew "authz: proof presented after its transaction ended")
              else match pf_kind c with
              | kindSystem =>
                  if negb (siteAllows (pf_site c) op) then
                    Err (ENew "authz: system proof may not invoke this store operation")
                  else Ok (pf_chain c)
              | kindTenant | kindInstance =>
                  if negb (permitsStoreOp (pf_op c) op) then
                    Err (ENew "authz: proof may not invoke this store operation")
                  else Ok (pf_chain c)
              end
          end
      end
  end.

Definition IsSystemProof (p : Proof) : bool :=
  match concrete p with
  | Some c => match pf_kind c with kindSystem => true | _ => false end
  | None => false
  end.

Definition VerifyEvent (dead : Dead) (p : Proof) (op : StoreOp) (tok : option TxToken) (et : EventType)
    : result Scope :=
  chain ← Verify dead p op tok;
  match concrete p with
  | None => Err (ENew "authz: non-canonical proof")
  | Some c =>
      let licensed := match pf_kind c with
        | kindSystem => contains (default [] (systemSiteEvents !! pf_site c)) et
        | kindTenant | kindInstance => permitsEvent (pf_op c) et
        end in
      if (licensed : bool) then Ok chain else Err (ENew "authz: proof may not emit this audit event")
  end.

Definition VerifySelfConfigSnapshot (p : Proof) (snapshotID : string) : result unit :=
  match concrete p with
  | None => Err (ENew "authz: non-canonical proof")
  | Some c =>
      if ((pf_site c =s SiteSelfConfigRuntime) || (pf_site c =s SiteSelfConfigRecovery)) &&
         (pf_runtimeSnapshotID c <>s snapshotID)
      then Err (ENew "authz: runtime proof does not address this snapshot")
      else Ok ()
  end.

Definition liveToken (dead : Dead) (c : proof) : bool :=
  match pf_tok c with Some t => alive dead t | None => false end.

Definition IsSelfConfig (dead : Dead) (p : Proof) : bool :=
  match concrete p with Some c => pf_selfConfig c && liveToken dead c | None => false end.

Definition IncludesSelfConfig (dead : Dead) (p : Proof) : bool :=
  match concrete p with Some c => pf_selfConfigAdmin c && liveToken dead c | None => false end.

Lemma permitsStoreOp_spec op so :
  permitsStoreOp op so = true <-> exists spec, registry !! op = Some spec /\ flag (storeOps spec) so = true.
Proof.
  unfold permitsStoreOp. destruct (registry !! op) as [spec|]; split.
  - intros H. by exists spec.
  - intros (s & [= <-] & H). exact H.
  - discriminate.
  - intros (s & H & _). discriminate H.
Qed.

Lemma permitsEvent_spec op et :
  permitsEvent op et = true <-> exists spec, registry !! op = Some spec /\ In et (events spec).
Proof.
  unfold permitsEvent. destruct (registry !! op) as [spec|]; split.
  - intros H. exists spec. split; [reflexivity|]. by apply contains_In.
  - intros (s & [= <-] & H). by apply contains_In.
  - discriminate.
  - intros (s & H & _). discriminate H.
Qed.

Lemma siteAllows_spec site so :
  siteAllows site so = true -> exists ops, systemSites !! site = Some ops /\ flag ops so = true.
Proof.
  unfold siteAllows. destruct (systemSites !! site) as [ops|]; cbn [default].
  - intros H. by exists ops.
  - unfold flag. rewrite lookup_empty. discriminate.
Qed.

#[global] Opaque permitsStoreOp permitsEvent siteAllows.

(** ** What the boundary accepts *)
Lemma alive_spec dead t : alive dead t = true <-> ~ In t dead.
Proof.
  unfold alive. rewrite negb_true_iff. split.
  - intros H Hin. pose proof (existsb_false _ _ _ H Hin) as Hx. by rewrite Nat.eqb_refl in Hx.
  - intros H. destruct (existsb _ _) eqn:E; [|done]. apply existsb_exists in E as (x & Hin & Hx).
    apply Nat.eqb_eq in Hx. by subst.
Qed.

Lemma same_token_spec a b : same_token a b = true <-> a = b.
Proof.
  destruct a, b; cbn; [rewrite Nat.eqb_eq|..]; naive_solver.
Qed.

(** The store operations a proof's binding licenses. *)
Definition licenses (c : proof) (op : StoreOp) : bool :=
  match pf_kind c with
  | kindSystem => siteAllows (pf_site c) op
  | kindTenant | kindInstance => permitsStoreOp (pf_op c) op
  end.

Lemma Verify_Ok dead p op tok s :
  Verify dead p op tok = Ok s <->
  exists c t, p = PConcrete c /\ tok = Some t /\ pf_tok c = Some t /\ ~ In t dead /\
    licenses c op = true /\ s = pf_chain c.
Proof.
  unfold Verify, licenses.
  destruct p as [| | |c]; cbn [concrete]; try (split; [discriminate|by intros (? & ? & ? & _)]).
  destruct tok as [t|]; [|split; [discriminate|by intros (? & ? & _ & ? & _)]].
  destruct (same_token (pf_tok c) (Some t)) eqn:Ht; cbn [negb].
  2: { split; [discriminate|]. intros (c' & t' & [= <-] & [= <-] & Hc & _).
       apply same_token_spec in Hc. rewrite Hc in Ht. discriminate. }
  apply same_token_spec in Ht. destruct (alive dead t) eqn:Ha; cbn [negb].
  2: { split; [discriminate|]. intros (c' & t' & [= <-] & [= <-] & _ & Hd & _).
       apply alive_spec in Hd. congruence. }
  apply alive_spec in Ha. split.
  - intros H. exists c, t. do 3 (split; [done|]). split; [done|].
    destruct (pf_kind c); [destruct (permitsStoreOp (pf_op c) op)..|destruct (siteAllows (pf_site c) op)];
      cbn [negb] in H; try discriminate H; (split; [reflexivity|congruence]).
  - intros (c' & t' & [= <-] & _ & _ & _ & Hl & ->). destruct (pf_kind c); by rewrite Hl.
Qed.

(** The boundary accepts a store call exactly when it is handed the concrete
    proof value, under the very token the proof was minted with, while that
    transaction is live, for a store operation the proof's operation (or system
    site) licenses - and then the only scope it hands out is the chain inside
    the proof. A nil proof, an embedded fake, another transaction's proof and a
    proof of an ended transaction are all refused. *)
Theorem Verify_exact (dead : Dead) (p : Proof) (op : StoreOp) (tok : option TxToken) :
  (forall s, Verify dead p op tok = Ok s <->
     exists c t, p = PConcrete c /\ tok = Some t /\ pf_tok c = Some t /\ ~ In t dead /\
       licenses c op = true /\ s = pf_chain c) /\
  is_panic (Verify dead p op tok) = false.
Proof.
  split; [intros s; apply Verify_Ok|]. unfold Verify.
  destruct p as [| | |c]; cbn [concrete]; [reflexivity..|]. destruct tok as [t|]; [|reflexivity].
  destruct (same_token (pf_tok c) (Some t)); cbn [negb]; [|reflexivity].
  destruct (alive dead t); cbn [negb]; [|reflexivity].
  destruct (pf_kind c); [destruct (permitsStoreOp (pf_op c) op)..|destruct (siteAllows (pf_site c) op)];
    cbn [negb]; reflexivity.
Qed.

(** A proof dies with its transaction: once the token is invalidated, no
    store call and no audit insert accepts any proof under it. *)
Theorem dead_token_verifies_nothing (dead : Dead) (t : TxToken) (p : Proof) (op : StoreOp) (et : EventType) :
  is_ok (Verify (Invalidate t dead) p op (Some t)) = false /\
  is_ok (VerifyEvent (Invalidate t dead) p op (Some t) et) = false.
Proof.
  assert (is_ok (Verify (Invalidate t dead) p op (Some t)) = false) as H.
  { destruct (Verify _ p op (Some t)) as [s| |] eqn:E; [|reflexivity..]. exfalso.
    apply Verify_Ok in E as (c & t' & _ & [= <-] & _ & Hd & _). apply Hd. by left. }
  split; [exact H|]. unfold VerifyEvent. by destruct (Verify _ p op (Some t)).
Qed.

(** ** Proofs from the chokepoint *)

(** The binding of a proof [Authorize] minted. *)
Lemma Authorize_binding tx ctx apiOps caller op scope a pf a' :
  Authorize tx ctx apiOps caller op scope a = (Ok pf, a') ->
  exists spec, registry !! op = Some spec /\ pf_op pf = op /\ pf_tok pf = az_tok a /\
    pf_kind pf <> kindSystem /\ pf_chain pf = scope.
Proof.
  intros H. apply Authorize_Ok in H as (_ & spec & Hreg & H). exists spec. split; [exact Hreg|]. clear Hreg.
  destruct H as [(_ & T)|(_ & -> & T)].
  - rewrite (tm_proof _ _ _ _ _ _ _ _ T). by split.
  - rewrite (im_proof _ _ _ _ _ _ _ T). by split.
Qed.

Lemma licenses_minted tx ctx apiOps caller op scope a pf a' so :
  Authorize tx ctx apiOps caller op scope a = (Ok pf, a') -> licenses pf so = true ->
  exists spec, registry !! op = Some spec /\ flag (storeOps spec) so = true.
Proof.
  intros H Hl. apply Authorize_binding in H as (_ & _ & Hop & _ & Hk & _). unfold licenses in Hl.
  rewrite Hop in Hl. destruct (pf_kind pf); [..|by destruct Hk]; by apply permitsStoreOp_spec.
Qed.

(** C28. End to end: a store call that the boundary accepts with a proof from the
    chokepoint runs under the authorizer's own token, at exactly the scope that
    was addressed - where the caller is entitled to the operation's formula by
    the stored grants - and is one of the store operations that operation's row
    licenses. *)
Theorem store_calls_stay_entitled (tx : TxEnv) (ctx : Ctx) (apiOps : option (list ApiOperation))
    (caller : Identity) (op : Operation) (scope : Scope) (a : TxAuthorizer) (pf : proof) (a' : TxAuthorizer)
    (dead : Dead) (so : StoreOp) (tok : option TxToken) (s : Scope) :
  Authorize tx ctx apiOps caller op scope a = (Ok pf, a') ->
  Verify dead (PConcrete pf) so tok = Ok s ->
  s = scope /\ tok = az_tok a /\
  exists spec, registry !! op = Some spec /\ flag (storeOps spec) so = true /\
    formula_entitled (activeOnly (az_r a)) (tx_db tx) (id_Principal caller) (formula spec) scope.
Proof.
  intros H Hv. apply Verify_Ok in Hv as (c & t & [= <-] & -> & Ht & _ & Hl & ->).
  destruct (licenses_minted _ _ _ _ _ _ _ _ _ _ H Hl) as (spec & Hreg & Hso).
  pose proof (Authorize_binding _ _ _ _ _ _ _ _ _ H) as (_ & _ & _ & Htok & _ & Hch).
  split; [exact Hch|]. split; [congruence|]. exists spec. split; [exact Hreg|]. split; [exact Hso|].
  apply Authorize_Ok in H as (_ & spec' & Hreg' & H). rewrite Hreg in Hreg'. injection Hreg' as <-. clear Hreg.
  destruct H as [(_ & T)|(_ & -> & T)].
  - destruct (tm_grants _ _ _ _ _ _ _ _ T) as (gs & Hgs & Hsat & _).
    by apply (satisfied_entitled _ _ _ _ _ _ Hgs).
  - destruct (im_grants _ _ _ _ _ _ _ T) as (gs & Hgs & Hsat & _).
    by apply (satisfied_entitled _ _ _ _ _ _ Hgs).
Qed.

Lemma sample_proof_verifies :
  match (run alice OpOrgGet scopeO1).1 with
  | Ok pf => is_ok (Verify [] (PConcrete pf) StoreOrgsGet (Some 7%nat))
  | _ => false
  end = true.
Proof. vm_compute. reflexivity. Qed.

Lemma sample_verified : exists pf a' s,
  run alice OpOrgGet scopeO1 = (Ok pf, a') /\ Verify [] (PConcrete pf) StoreOrgsGet (Some 7%nat) = Ok s.
Proof.
  pose proof sample_proof_verifies as H.
  destruct (run alice OpOrgGet scopeO1) as [[pf| |] a']; [|discriminate H..]. cbn [fst] in H.
  destruct (Verify [] (PConcrete pf) StoreOrgsGet (Some 7%nat)) as [s| |] eqn:E; [|discriminate H..].
  by exists pf, a', s.
Qed.

Lemma store_calls_stay_entitled_witness :
  exists s, s = scopeO1 /\ exists spec, registry !! OpOrgGet = Some spec /\
    formula_entitled true sampleDB "alice" (formula spec) scopeO1.
Proof.
  destruct sample_verified as (pf & a' & s & E & V). exists s.
  destruct (store_calls_stay_entitled sampleTx sampleCtx None alice OpOrgGet scopeO1 sampleAuthorizer pf a'
    [] StoreOrgsGet (Some 7%nat) s E V) as (H1 & _ & spec & H2 & _ & H3).
  split; [exact H1|]. exists spec. split; [exact H2|exact H3].
Defined.

(** An operation that leaves no audit record cannot change anything: a proof
    minted for an audited-none operation opens only store operations pinned as
    read-only, and never an audit insert. *)
Theorem audited_none_only_reads (tx : TxEnv) (ctx : Ctx) (apiOps : option (list ApiOperation))
    (caller : Identity) (op : Operation) (spec : opSpec) (scope : Scope) (a : TxAuthorizer) (pf : proof)
    (a' : TxAuthorizer) (dead : Dead) (so : StoreOp) (tok : option TxToken) :
  registry !! op = Some spec -> auditedNone spec = true ->
  Authorize tx ctx apiOps caller op scope a = (Ok pf, a') ->
  (is_ok (Verify dead (PConcrete pf) so tok) = true -> flag readOnlyStoreOps so = true) /\
  forall et, is_ok (VerifyEvent dead (PConcrete pf) so tok et) = false.
Proof.
  intros Hreg Hnone H. pose proof (registry_WellFormed op spec Hreg) as Hwf.
  pose proof (Authorize_binding _ _ _ _ _ _ _ _ _ H) as (_ & _ & Hop & _ & Hk & _). split.
  - destruct (Verify dead _ so tok) as [s| |] eqn:E; [intros _|discriminate..].
    apply Verify_Ok in E as (c & t & [= <-] & _ & _ & _ & Hl & _).
    destruct (licenses_minted _ _ _ _ _ _ _ _ _ _ H Hl) as (spec' & Hreg' & Hso).
    rewrite Hreg in Hreg'. injection Hreg' as <-. clear Hreg H.
    destruct (wf_auditedNone _ _ Hwf Hnone) as (_ & _ & Hro). unfold flag in Hso.
    destruct (storeOps spec !! so) as [b|] eqn:Hb; [exact (Hro so b Hb)|discriminate Hso].
  - intros et. unfold VerifyEvent. destruct (Verify dead _ so tok) as [s| |]; [|reflexivity..].
    cbn [mbind result_bind concrete].
    assert (permitsEvent (pf_op pf) et = false) as Hev.
    { destruct (permitsEvent (pf_op pf) et) eqn:E; [|reflexivity]. exfalso.
      apply permitsEvent_spec in E as (spec' & Hreg' & Hin). rewrite Hop, Hreg in Hreg'.
      injection Hreg' as <-. clear Hreg H.
      destruct (wf_disposition _ _ Hwf) as [(_ & Hx & _)|[(He & _)|(_ & Hx & _)]];
        [rewrite Hnone in Hx; discriminate Hx| |rewrite Hnone in Hx; discriminate Hx].
      rewrite He in Hin. exact Hin. }
    rewrite Hev. clear -Hk. destruct (pf_kind pf); [reflexivity..|]. exfalso. apply Hk. reflexivity.
Qed.

Lemma audited_none_only_reads_witness :
  flag readOnlyStoreOps StoreOrgsGet = true.
Proof.
  destruct sample_verified as (pf & a' & s & E & V).
  apply (audited_none_only_reads sampleTx sampleCtx None alice OpOrgGet (specOf OpOrgGet) scopeO1
    sampleAuthorizer pf a' [] StoreOrgsGet (Some 7%nat)
    (registered_check OpOrgGet ltac:(vm_compute; reflexivity)) ltac:(vm_compute; reflexivity) E).
  rewrite V. reflexivity.
Defined.

(** Every event a system site may emit is catalogued. *)
Lemma system_events_catalogued site l et :
  systemSiteEvents !! site = Some l -> In et l -> is_Some (Spec et).
Proof.
  intros Hs Hin.
  assert (forallb (fun p => forallb (fun e => match Spec e with Some _ => true | None => false end) p.2)
    (map_to_list systemSiteEvents) = true) as Hall by (vm_compute; reflexivity).
  apply elem_of_map_to_list, list_elem_of_In in Hs.
  pose proof (forallb_In _ _ _ Hall Hs) as H1. clear Hall Hs. cbn [snd] in H1.
  pose proof (forallb_In _ _ _ H1 Hin) as H2. cbn beta in H2.
  destruct (Spec et); [eexists; reflexivity|discriminate H2].
Qed.

(** No proof can write an event its operation does not declare: an audit
    insert is accepted only for a catalogued event type that the row of the
    proof's operation lists (or, for a system proof, that its mint site lists),
    and only where the plain boundary check passes, at the same chain. *)
Theorem audit_inserts_are_declared (dead : Dead) (p : Proof) (op : StoreOp) (tok : option TxToken)
    (et : EventType) (s : Scope) :
  VerifyEvent dead p op tok et = Ok s ->
  Verify dead p op tok = Ok s /\ is_Some (Spec et) /\
  exists c, p = PConcrete c /\
    ((pf_kind c = kindSystem /\ exists l, systemSiteEvents !! pf_site c = Some l /\ In et l) \/
     (pf_kind c <> kindSystem /\ exists spec, registry !! pf_op c = Some spec /\ In et (events spec))).
Proof.
  unfold VerifyEvent. intros H. apply bind_Ok in H as (chain & Hv & H).
  destruct p as [| | |c]; try discriminate Hv. cbn [concrete] in H.
  assert (chain = s /\ match pf_kind c with
    | kindSystem => contains (default [] (systemSiteEvents !! pf_site c)) et
    | kindTenant | kindInstance => permitsEvent (pf_op c) et end = true) as [-> Hl].
  { destruct (match pf_kind c with kindSystem => _ | _ => _ end); [by injection H as ->|discriminate H]. }
  split; [exact Hv|]. clear H Hv.
  assert (forall spec, registry !! pf_op c = Some spec -> In et (events spec) -> is_Some (Spec et)) as Hcat.
  { intros spec Hreg Hin. pose proof (registry_WellFormed _ _ Hreg) as Hwf.
    destruct (wf_events _ _ Hwf) as [_ Hev]. apply (Hev et). by apply list_elem_of_In. }
  destruct (pf_kind c) eqn:Hk.
  - apply permitsEvent_spec in Hl as (spec & Hreg & Hin). split; [exact (Hcat spec Hreg Hin)|].
    exists c. split; [reflexivity|]. right. split; [rewrite Hk; discriminate|]. exists spec. by split.
  - apply permitsEvent_spec in Hl as (spec & Hreg & Hin). split; [exact (Hcat spec Hreg Hin)|].
    exists c. split; [reflexivity|]. right. split; [rewrite Hk; discriminate|]. exists spec. by split.
  - apply contains_In in Hl. destruct (systemSiteEvents !! pf_site c) as [l|] eqn:Hs; [|destruct Hl].
    cbn [default] in Hl. split; [exact (system_events_catalogued _ _ _ Hs Hl)|].
    exists c. split; [reflexivity|]. left. split; [exact Hk|]. by exists l.
Qed.

(** ** System sites *)
Definition schedulerProof : proof :=
  MkProof false false "" kindSystem (systemOp SiteScheduler) SiteScheduler emptyScope (Some 7%nat).

Lemma audit_inserts_are_declared_witness : is_Some (Spec EventRetentionPruneRun).
Proof.
  apply (audit_inserts_are_declared [] (PConcrete schedulerProof) StoreAuditInstanceInsert (Some 7%nat)
    EventRetentionPruneRun emptyScope).
  vm_compute. reflexivity.
Defined.

(** What the minting of a system proof establishes. *)
Record SystemMint (tx : TxEnv) (ctx : Ctx) (pf : proof) : Prop := {
  sm_kind : pf_kind pf = kindSystem;
  sm_network : In (pf_site pf) resolverBoundSites -> IsNetwork ctx = false;
  sm_bound : pf_site pf = SiteSelfConfigRuntime \/ pf_site pf = SiteSelfConfigRecovery ->
    exists b, self_config_binding (tx_db tx) = Some b /\
      pf_chain pf = MkScope (bi_org_id b) (bi_project_id b) (bi_environment_id b);
  sm_retained : pf_site pf = SiteSelfConfigRuntime ->
    In (pf_runtimeSnapshotID pf) (self_config_retention (tx_db tx)) }.

Lemma unbound_mint tx ctx pf :
  pf_kind pf = kindSystem -> contains resolverBoundSites (pf_site pf) = false -> SystemMint tx ctx pf.
Proof.
  intros Hk Hc. apply contains_not_In in Hc. constructor; [exact Hk|..].
  - intros H. by destruct Hc.
  - intros [H|H]; destruct Hc; rewrite H; cbn; auto.
  - intros H. destruct Hc. rewrite H. cbn. auto.
Qed.

Lemma SystemAuthority_mint tx ctx site tok pf : SystemAuthority site tok = Ok pf -> SystemMint tx ctx pf.
Proof.
  unfold SystemAuthority. destruct (contains resolverBoundSites site) eqn:Hc; [discriminate|].
  destruct (systemSites !! site); [|discriminate]. destruct tok; [|discriminate].
  intros [= <-]. by apply unbound_mint.
Qed.

Lemma ScopedSystemAuthority_mint tx ctx site scope a pf a' :
  ScopedSystemAuthority tx site scope a = (Ok pf, a') -> SystemMint tx ctx pf.
Proof.
  unfold ScopedSystemAuthority. destruct (contains resolverBoundSites site) eqn:Hc; [discriminate|].
  destruct (systemSites !! site); [|discriminate]. intros H. apply st_bind_Ok in H as (a0 & a1 & _ & H).
  destruct (az_tok a0); [|discriminate H]. destruct (Org scope =s ""); [discriminate H|].
  apply st_bind_Ok in H as (chain & a2 & _ & H). injection H as <- _. by apply unbound_mint.
Qed.

Lemma SelfConfigSeed_mint tx ctx a pf a' :
  SelfConfigSeedAuthority ctx a = (Ok pf, a') -> SystemMint tx ctx pf.
Proof.
  unfold SelfConfigSeedAuthority. destruct (IsNetwork ctx) eqn:Hn; [discriminate|]. intros [= <- _].
  constructor; cbn; [reflexivity|done|intros [H|H]; discriminate H|discriminate].
Qed.

(** The binding a self-configuration authority reads. *)
Lemma SelfConfigBinding_Ok tx a b a' :
  res (Resolver_SelfConfigBinding tx) a = (Ok b, a') ->
  exists row, self_config_binding (tx_db tx) = Some row /\
    scb_Scope b = MkScope (bi_org_id row) (bi_project_id row) (bi_environment_id row).
Proof.
  intros H. apply res_Ok in H as (r' & H & _). unfold Resolver_SelfConfigBinding in H.
  apply st_bind_Ok in H as (r & r1 & _ & H). destruct (historicalRecoveryBeforeSelfConfig r); [discriminate H|].
  apply st_bind_Ok in H as (row & r2 & Hq & H). injection H as <- _.
  apply orNotFound_Ok, query_Ok in Hq as (Hf & _ & _). apply one_Ok in Hf. by exists row.
Qed.

Lemma SelfConfigRuntime_mint tx ctx snapshot a pf a' :
  SelfConfigRuntimeAuthority tx ctx snapshot a = (Ok pf, a') -> SystemMint tx ctx pf.
Proof.
  unfold SelfConfigRuntimeAuthority. destruct (IsNetwork ctx) eqn:Hn; [discriminate|]. intros H.
  apply st_bind_Ok in H as (b & a1 & Hb & H). apply SelfConfigBinding_Ok in Hb as (row & Hrow & Hsc).
  apply st_bind_Ok in H as (ret & a2 & Hr & H). destruct ret; cbn [negb] in H; [|discriminate H].
  unfold mbind, st_bind, st_get, mret, st_ret in H. injection H as <- _.
  apply res_Ok in Hr as (r' & Hr & _). unfold SelfConfigRetained in Hr.
  apply st_bind_Ok in Hr as (ids & r1 & Hq & Hr). apply query_Ok in Hq as ([= <-] & _ & _).
  injection Hr as Hr _. constructor; cbn [pf_kind pf_site pf_chain pf_runtimeSnapshotID].
  - reflexivity.
  - intros _. exact Hn.
  - intros _. exists row. by split.
  - intros _. by apply contains_In.
Qed.

Lemma SelfConfigRecovery_mint tx ctx revision a pf a' :
  SelfConfigRecoveryAuthority tx ctx revision a = (Ok pf, a') -> SystemMint tx ctx pf.
Proof.
  unfold SelfConfigRecoveryAuthority. destruct (IsNetwork ctx) eqn:Hn; [discriminate|].
  destruct (revision <? 1); [discriminate|]. intros H.
  apply st_bind_Ok in H as (b & a1 & Hb & H). apply SelfConfigBinding_Ok in Hb as (row & Hrow & Hsc).
  apply st_bind_Ok in H as (snap & a2 & _ & H).
  unfold mbind, st_bind, st_get, mret, st_ret in H. injection H as <- _.
  constructor; cbn [pf_kind pf_site pf_chain pf_runtimeSnapshotID]; [reflexivity|auto| |discriminate].
  intros _. exists row. by split.
Qed.

Lemma snapshot_check pf other :
  pf_site pf = SiteSelfConfigRuntime \/ pf_site pf = SiteSelfConfigRecovery ->
  VerifySelfConfigSnapshot (PConcrete pf) other = Ok () <-> other = pf_runtimeSnapshotID pf.
Proof.
  intros Hs. unfold VerifySelfConfigSnapshot. cbn [concrete].
  assert ((pf_site pf =s SiteSelfConfigRuntime) || (pf_site pf =s SiteSelfConfigRecovery) = true) as ->
    by (by destruct Hs as [-> | ->]).
  destruct (String.eqb_spec (pf_runtimeSnapshotID pf) other); cbn; naive_solver.
Qed.

Lemma system_store_ops dead pf so t :
  pf_kind pf = kindSystem -> is_ok (Verify dead (PConcrete pf) so t) = true ->
  exists ops, systemSites !! pf_site pf = Some ops /\ flag ops so = true.
Proof.
  intros Hk H. destruct (Verify dead _ so t) as [s| |] eqn:E; [|discriminate H..].
  apply Verify_Ok in E as (c & t' & [= <-] & _ & _ & _ & Hl & _). unfold licenses in Hl. rewrite Hk in Hl.
  by apply siteAllows_spec in Hl.
Qed.

(** System authority is confined. The general mint sites never yield a
    proof for the three resolver-bound self-configuration sites; no network
    request mints one of those; a runtime or recovery proof is bound to the
    binding's own chain and to one snapshot - a retained one, respectively one
    whose payload is present - and the snapshot check refuses every other; and
    whatever the site, the boundary opens only the store operations listed for
    it. *)
Theorem system_authority_confined (tx : TxEnv) (ctx : Ctx) (a a' : TxAuthorizer) (pf : proof) (site : SystemSite)
    (scope : Scope) (tok : option TxToken) (snapshot : string) (revision : Z) :
  SystemAuthority site tok = Ok pf \/ ScopedSystemAuthority tx site scope a = (Ok pf, a') \/
  SelfConfigSeedAuthority ctx a = (Ok pf, a') \/
  SelfConfigRuntimeAuthority tx ctx snapshot a = (Ok pf, a') \/
  SelfConfigRecoveryAuthority tx ctx revision a = (Ok pf, a') ->
  pf_kind pf = kindSystem /\
  (In (pf_site pf) resolverBoundSites -> IsNetwork ctx = false) /\
  (pf_site pf = SiteSelfConfigRuntime \/ pf_site pf = SiteSelfConfigRecovery ->
    (exists b, self_config_binding (tx_db tx) = Some b /\
       pf_chain pf = MkScope (bi_org_id b) (bi_project_id b) (bi_environment_id b)) /\
    (pf_site pf = SiteSelfConfigRuntime -> In (pf_runtimeSnapshotID pf) (self_config_retention (tx_db tx))) /\
    forall other, VerifySelfConfigSnapshot (PConcrete pf) other = Ok () <-> other = pf_runtimeSnapshotID pf) /\
  forall dead so t, is_ok (Verify dead (PConcrete pf) so t) = true ->
    exists ops, systemSites !! pf_site pf = Some ops /\ flag ops so = true.
Proof.
  intros H. assert (SystemMint tx ctx pf) as [Hk Hn Hb Hr].
  { destruct H as [H|[H|[H|[H|H]]]].
    - exact (SystemAuthority_mint tx ctx _ _ _ H).
    - exact (ScopedSystemAuthority_mint tx ctx _ _ _ _ _ H).
    - exact (SelfConfigSeed_mint tx ctx _ _ _ H).
    - exact (SelfConfigRuntime_mint tx ctx _ _ _ _ H).
    - exact (SelfConfigRecovery_mint tx ctx _ _ _ _ H). }
  split; [exact Hk|]. split; [exact Hn|]. split.
  - intros Hs. split; [exact (Hb Hs)|]. split; [exact Hr|]. intros other. exact (snapshot_check pf other Hs).
  - intros dead so t. exact (system_store_ops dead pf so t Hk).
Qed.

Definition localCtx : Ctx :=
  MkCtx false None None (fun _ => Ok "0190-0001") (fun _ => 1000).

Lemma runtime_minted :
  is_ok (SelfConfigRuntimeAuthority sampleTx localCtx "" sampleAuthorizer).1 = true.
Proof. vm_compute. reflexivity. Qed.

Lemma system_authority_confined_witness :
  exists pf a', SelfConfigRuntimeAuthority sampleTx localCtx "" sampleAuthorizer = (Ok pf, a') /\
    pf_kind pf = kindSystem /\ (In (pf_site pf) resolverBoundSites -> IsNetwork localCtx = false).
Proof.
  destruct (minted _ runtime_minted) as (pf & a' & E). exists pf, a'. split; [exact E|].
  destruct (system_authority_confined sampleTx localCtx sampleAuthorizer a' pf SiteScheduler emptyScope None
    "" 1 (or_intror (or_intror (or_intror (or_introl E))))) as (H1 & H2 & _).
  split; [exact H1|exact H2].
Defined.

(** ** Workloads *)

(** Everything a store call under a read-only formula can reach beyond the
    read-only pin: its own audit rows and the dynamic-lease tables. *)
Definition leaseAndAuditOps : list StoreOp := [
  StoreAuditTenantInsert; StoreAuditClaimOfflineRecord; StoreDynamicProvidersGet;
  StoreDynamicProvidersCredentialCiphertext; StoreDynamicLeasesCreate; StoreDynamicLeasesFinishMint;
  StoreDynamicLeasesEnqueueTransition].

Definition readFormulaConfined (op : Operation) (spec : opSpec) : bool :=
  negb (forallb (fun at_ => Cap at_ =s CapRead) (formula spec)) ||
  forallb (fun p => flag readOnlyStoreOps p.1 || contains leaseAndAuditOps p.1) (map_to_list (storeOps spec)).

Lemma readFormulaConfined_table :
  forallb (fun p => readFormulaConfined p.1 p.2) operationRows = true.
Proof. vm_compute. reflexivity. Qed.

Lemma read_formula_store_ops op spec so :
  registry !! op = Some spec -> Forall (fun at_ => Cap at_ = CapRead) (formula spec) ->
  flag (storeOps spec) so = true -> flag readOnlyStoreOps so = true \/ In so leaseAndAuditOps.
Proof.
  intros Hreg Hf Hso. pose proof (registry_forall _ readFormulaConfined_table op spec Hreg) as H.
  clear Hreg. unfold readFormulaConfined in H.
  assert (forallb (fun at_ => Cap at_ =s CapRead) (formula spec) = true) as Hr.
  { apply forallb_forall. intros x Hx. rewrite Forall_forall in Hf. rewrite (Hf x); [reflexivity|].
    by apply list_elem_of_In. }
  rewrite Hr in H. cbn [negb orb] in H. unfold flag in Hso.
  destruct (storeOps spec !! so) as [b|] eqn:Hb; [|discriminate Hso].
  apply elem_of_map_to_list, list_elem_of_In in Hb. pose proof (forallb_In _ _ _ H Hb) as Hx. cbn [fst] in Hx.
  apply orb_true_iff in Hx as [Hx|Hx]; [by left|right]. by apply contains_In.
Qed.

Lemma workload_allowlist cap : MachineMayHold ClassWorkload cap = true -> cap = CapRead.
Proof.
  unfold MachineMayHold. assert (machineAllowlists !! ClassWorkload = Some (licensed [CapRead])) as ->
    by (vm_compute; reflexivity).
  change (flag (licensed [CapRead]) cap = true -> cap = CapRead). rewrite flag_licensed.
  intros [H|[]]%contains_In. by rewrite H.
Qed.

(** A workload that holds what its class may hold cannot change
    configuration: if every capability stored for the principal is on the
    workload allowlist, then whatever operation it gets a proof for, the
    boundary opens only read-only store operations, its own audit rows and the
    dynamic-lease tables. *)
Theorem workload_confined (tx : TxEnv) (ctx : Ctx) (apiOps : option (list ApiOperation))
    (caller : Identity) (op : Operation) (scope : Scope) (a : TxAuthorizer) (pf : proof) (a' : TxAuthorizer)
    (dead : Dead) (so : StoreOp) (tok : option TxToken) :
  (forall g, In g (grants (tx_db tx)) -> gr_principal_id g = id_Principal caller ->
     MachineMayHold ClassWorkload (gr_capability g) = true) ->
  Authorize tx ctx apiOps caller op scope a = (Ok pf, a') ->
  is_ok (Verify dead (PConcrete pf) so tok) = true ->
  flag readOnlyStoreOps so = true \/ In so leaseAndAuditOps.
Proof.
  intros Hall H Hv. destruct (Verify dead _ so tok) as [s| |] eqn:E; [|discriminate Hv..].
  apply Verify_Ok in E as (c & t & [= <-] & _ & _ & _ & Hl & _).
  destruct (licenses_minted _ _ _ _ _ _ _ _ _ _ H Hl) as (spec & Hreg & Hso).
  apply Authorize_Ok in H as (_ & spec' & Hreg' & H). rewrite Hreg in Hreg'. injection Hreg' as <-.
  apply (read_formula_store_ops op spec so Hreg); [|exact Hso]. clear Hreg Hl Hv.
  assert (exists chain gs, grantsFromRows (grantRows (activeOnly (az_r a)) (id_Principal caller) (tx_db tx)) = Ok gs /\
    satisfied (formula spec) chain gs) as (chain & gs & Hgs & Hsat).
  { destruct H as [(_ & T)|(_ & _ & T)].
    - destruct (tm_grants _ _ _ _ _ _ _ _ T) as (gs & Hgs & Hsat & _). by exists scope, gs.
    - destruct (im_grants _ _ _ _ _ _ _ T) as (gs & Hgs & Hsat & _). by exists emptyScope, gs. }
  clear H. apply (satisfied_entitled _ _ _ _ _ _ Hgs) in Hsat.
  eapply Forall_impl; [exact Hsat|]. intros x (s' & (g & p & Hin & Hp & Hc & _) & _).
  apply workload_allowlist. rewrite <- Hc. by apply Hall.
Qed.

(** The sample tables with the workload [w] holding read on one environment. *)
Definition workloadTx : TxEnv := MkTxEnv SQLite
  (MkDB (orgs sampleDB) (projects sampleDB) (environments sampleDB)
    [MkPrincipalRow "w" "machine" (Some ClassWorkload) "active" 0]
    [MkGrantRow "w" CapRead (Some "o1") (Some "p1") (Some "e1")]
    (Some 0) None [] []) (fun _ => None).
Definition workload : Identity := MkIdentity "w" ClassWorkload "" "cred2" noAssurance.

Lemma workload_fetch_verifies :
  match (Authorize workloadTx sampleCtx None workload OpDeliveryFetch scopeE1 sampleAuthorizer).1 with
  | Ok pf => is_ok (Verify [] (PConcrete pf) StoreAuditTenantInsert (Some 7%nat))
  | _ => false
  end = true.
Proof. vm_compute. reflexivity. Qed.

Lemma workload_confined_witness :
  flag readOnlyStoreOps StoreAuditTenantInsert = true \/ In StoreAuditTenantInsert leaseAndAuditOps.
Proof.
  pose proof workload_fetch_verifies as H.
  destruct (Authorize workloadTx sampleCtx None workload OpDeliveryFetch scopeE1 sampleAuthorizer)
    as [[pf| |] a'] eqn:E; [|discriminate H..].
  apply (workload_confined workloadTx sampleCtx None workload OpDeliveryFetch scopeE1 sampleAuthorizer pf a'
    [] StoreAuditTenantInsert (Some 7%nat)); [|exact E|exact H].
  intros g [<-|[]] _. vm_compute. reflexivity.
Defined.
