(* ===== verification/Tx.v ===== *)
(** * The transaction boundary: [internal/store/tx/tx.go], [internal/store/authn/denial.go]

    Bounded retries around whole attempts, the single attempt with its fresh
    token and authorizer, the denial writer, and the settlement that makes every
    captured denial durable before the attempt's outcome is answered. The
    database engine is an interface: what its begin, statements, commit and
    rollback do to the durable content is stated as laws. *)

From S2P Require Import Prelude Domain OperationNames EventNames OperationTable AuditTable Registry.
From S2P Require Import FreeText AuditEvent Resolver Authorize.

#[local] Open Scope Z_scope.

(** ** Durable content *)
Record Durable := MkDurable {
  d_db : DB;
  d_tenantTrail : list Row;
  d_instanceTrail : list Row }.

(** ** Which failures are retried *)
Definition nameErrRetrySerialization : string := "store.ErrRetrySerialization".

Definition SQLITE_BUSY : Z := 5.
Definition SQLITE_LOCKED : Z := 6.

Definition retryable (engine : Engine) (e : error) : bool :=
  if errors_Is e nameErrRetrySerialization then true
  else match engine with
  | Postgres =>
      match errors_AsPg e with
      | Some code => (code =s "40001") || (code =s "40P01")
      | None => false
      end
  | SQLite =>
      match errors_AsSqlite e with
      | Some code => let primary := Z.land code 255 in (primary =? SQLITE_BUSY) || (primary =? SQLITE_LOCKED)
      | None => false
      end
  end.

(** ** The engine's promises

    A world is the durable content of the pending or committed database plus
    whatever the environment does next. An operation answers an error or none
    and the world after it. A commit is atomic: one that fails has had all of
    its effects or none (a lost connection does not tell which), and one that
    fails with a serialization error has had none. A failing statement is not
    reported as an empty result. *)
Class TxEngine (W : Type) := {
  te_engine : Engine;
  te_data : W -> Durable;
  te_set : Durable -> W -> W;
  te_begin : W -> option error * W;
  te_beginSerialized : Z -> W -> option error * W;   (* behind the advisory lock of that key *)
  te_guard : W -> option error * W;             (* the singleton-lease guard *)
  te_stmt : W -> option error * W;              (* one statement of the denial writer *)
  te_commit : W -> W -> option error * W;       (* before, pending *)
  te_rollback : W -> W -> W;                    (* before, pending *)
  te_wait : W -> bool * W;                      (* back-off; true when the deadline passed *)
  te_now : W -> Time;
  te_set_data : forall d w, te_data (te_set d w) = d;
  te_begin_data : forall w, te_data (te_begin w).2 = te_data w;
  te_beginSerialized_data : forall k w, te_data (te_beginSerialized k w).2 = te_data w;
  te_guard_data : forall w, te_data (te_guard w).2 = te_data w;
  te_stmt_data : forall w, te_data (te_stmt w).2 = te_data w;
  te_stmt_fault : forall w e w', te_stmt w = (Some e, w') -> isNoRows e = false;
  te_wait_data : forall w, te_data (te_wait w).2 = te_data w;
  te_rollback_data : forall b p, te_data (te_rollback b p) = te_data b;
  te_commit_Ok : forall b p w, te_commit b p = (None, w) -> te_data w = te_data p;
  te_commit_atomic : forall b p e w, te_commit b p = (Some e, w) ->
    te_data w = te_data b \/ te_data w = te_data p;
  te_commit_abort : forall b p e w, te_commit b p = (Some e, w) -> retryable te_engine e = true ->
    te_data w = te_data b }.

(** ** Retrying *)
(** Milliseconds before the first, second and third retry. *)
Definition backoff : list Z := [10; 50; 250].
Definition attempts : nat := length backoff + 1.

(** [retryLoop] over the state an attempt changes: [left] attempts remain after
    [attempt] were made; [wait] is the jittered back-off, true when the deadline
    passed first. *)
Section Retry.
Context {St : Type} (engine : Engine) (wait : St -> bool * St).

Fixpoint retryLoop_from (attempt left : nat) (attemptFn : St -> option error * St) (last : error) (w : St)
    : option error * St :=
  match left with
  | O => (Some (EWrap "tx: retries exhausted" last), w)
  | S k =>
      let '(expired, w) := if (attempt =? 0)%nat then (false, w) else wait w in
      if (expired : bool) then
        (Some (EWrap "tx: deadline while retrying" (EJoin [ESentinel "context.DeadlineExceeded"; last])), w)
      else
        let '(err, w) := attemptFn w in
        match err with
        | None => (None, w)
        | Some e => if negb (retryable engine e) then (Some e, w)
                    else retryLoop_from (S attempt) k attemptFn e w
        end
  end.

Definition retryLoop (attemptFn : St -> option error * St) (w : St) : option error * St :=
  retryLoop_from 0 attempts attemptFn (EJoin []) w.
End Retry.

(** [retryResult]: a captured variable takes the value of the attempt that
    succeeded; [zero] is the zero value of the result type. *)
Definition retryResult {St T} (engine : Engine) (wait : St -> bool * St) (zero : T)
    (attemptFn : St -> (T + error) * St) (w : St) : (T + error) * St :=
  let waitBoth := fun p : St * T => let '(b, w) := wait p.1 in (b, (w, p.2)) in
  let step := fun p : St * T =>
    let '(attemptResult, w) := attemptFn p.1 in
    match attemptResult with
    | inr e => (Some e, (w, p.2))
    | inl t => (None, (w, t))
    end in
  let '(err, (w, committed)) := retryLoop engine waitBoth step (w, zero) in
  match err with
  | Some e => (inr e, w)
  | None => (inl committed, w)
  end.

(** ** The advisory lock's key: FNV-1a over the name's bytes, as an [int32] *)
Definition fnv1a_step (h : Z) (c : Ascii.ascii) : Z :=
  (Z.lxor h (Z.of_nat (Ascii.nat_of_ascii c)) * 16777619) mod 2 ^ 32.

Definition fnv1a (name : string) : Z := fold_left fnv1a_step (String.list_ascii_of_string name) 2166136261.

Definition serializationKey (name : string) : Z :=
  let h := fnv1a name in if h <? 2 ^ 31 then h else h - 2 ^ 32.

Section Tx.
Context {W : Type} `{TxEngine W}.

(** ** The denial writer *)
Definition lookupKind (fault : option error) (d : Durable) (id : string) : result string :=
  match fault with
  | Some e => Err e
  | None => match find (fun p => pr_id p =s id) (principals (d_db d)) with
            | Some p => Ok (pr_kind p)
            | None => Err (noRows te_engine)
            end
  end.

Definition with_actor (actor : Actor) (e : Event) : Event :=
  MkEvent (ev_ID e) (ev_Type e) (ev_SchemaVersion e) (ev_OccurredAt e) (ev_OccurredAsserted e) actor
    (ev_AuthorityID e) (ev_Object e) (ev_Outcome e) (ev_CorrelationID e) (ev_SourceIP e) (ev_UserAgent e)
    (ev_Origin e) (ev_Payload e).

Definition insertRow (trail : Trail) (row : Row) (d : Durable) : Durable :=
  if trail =s TrailTenant
  then MkDurable (d_db d) (d_tenantTrail d ++ [row]) (d_instanceTrail d)
  else MkDurable (d_db d) (d_tenantTrail d) (d_instanceTrail d ++ [row]).

Definition recordedAt (w : W) : Time :=
  match te_engine with SQLite => te_now w | Postgres => 0 end.

(** Whether [ResolveActorClass] reads [principals.kind]. *)
Definition readsKind (a : Actor) : bool := (actor_Class a =s "") && (actor_ID a <>s "").

(** [WriteDenial]/[writeProofFreeEvent]: the actor's kind, the row, the insert. *)
Definition WriteDenial (dn : Denial) (w : W) : option error * W :=
  let e := dn_Event dn in
  let '(fault, w) := if readsKind (ev_Actor e) then te_stmt w else (None, w) in
  match ResolveActorClass (lookupKind fault (te_data w)) (ev_Actor e) true with
  | Err err => (Some (EWrap "authn: denial actor resolution" err), w)
  | Panic m => (Some (ENew m), w)
  | Ok actor =>
      match BuildRow (with_actor actor e) (dn_Trail dn) (dn_Scope dn) (recordedAt w) with
      | Err err => (Some (EWrap "authn: denial event refused at the write boundary" err), w)
      | Panic m => (Some (ENew m), w)
      | Ok row =>
          let '(fault, w) := te_stmt w in
          match fault with
          | Some err => (Some err, w)
          | None => (None, te_set (insertRow (dn_Trail dn) row (te_data w)) w)
          end
      end
  end.

Fixpoint writeDenials (denials : list Denial) (w : W) : option error * W :=
  match denials with
  | [] => (None, w)
  | dn :: rest =>
      match WriteDenial dn w with
      | (Some e, w) => (Some e, w)
      | (None, w) => writeDenials rest w
      end
  end.

Definition flushOnce (denials : list Denial) (w : W) : option error * W :=
  match te_begin w with
  | (Some e, w) => (Some e, w)
  | (None, wb) =>
      match writeDenials denials wb with
      | (Some e, wp) => (Some e, te_rollback wb wp)
      | (None, wp) => te_commit wb wp
      end
  end.

(** ** Settlement *)
(** The wrapped cause stays in the error chain; the suppressed outcome is text. *)
Definition refusingToAnswer (cause : error) : error :=
  EWrap "tx: denial audit record not durable - refusing to answer" cause.

Definition settleDenialResult (az : TxAuthorizer) (attemptErr : option error)
    (flush : list Denial -> W -> option error * W) (w : W) : option error * W :=
  if match attemptErr with Some e => retryable te_engine e | None => false end then (attemptErr, w)
  else match DenialCaptureError az with
  | Some cerr => (Some (refusingToAnswer cerr), w)
  | None =>
      match PendingDenials az with
      | [] => (attemptErr, w)
      | denials =>
          match retryLoop te_engine te_wait (flush denials) w with
          | (Some flushErr, w) => (Some (refusingToAnswer flushErr), w)
          | (None, w) => (attemptErr, w)
          end
      end
  end.

Definition settleDenials (az : TxAuthorizer) (attemptErr : option error) (w : W) : option error * W :=
  settleDenialResult az attemptErr flushOnce w.

(** ** One attempt *)

(** The closure: runs on the pending world with the attempt's authorizer. *)
Definition WriteFn (T : Type) : Type := W -> TxAuthorizer -> (T + error) * TxAuthorizer * W.

(** Roll back on an error, commit otherwise. *)
Definition finish {T} (wb : W) (r : T + error) (wp : W) : (T + error) * W :=
  match r with
  | inr e => (inr e, te_rollback wb wp)
  | inl t =>
      match te_commit wb wp with
      | (Some e, w) => (inr e, w)
      | (None, w) => (inl t, w)
      end
  end.

Definition errOf {T} (r : T + error) : option error :=
  match r with inl _ => None | inr e => Some e end.

Definition settled {T} (az : TxAuthorizer) (r : T + error) (w : W) : (T + error) * W :=
  match settleDenials az (errOf r) w with
  | (Some e, w) => (inr e, w)
  | (None, w) => (r, w)
  end.

(** The guarded body of a write transaction; no authorizer when the lease
    guard refuses. *)
Definition runTransaction {T} (tok : TxToken) (fn : WriteFn T) (wb : W)
    : option TxAuthorizer * (T + error) * W :=
  match te_guard wb with
  | (Some e, wg) => (None, inr e, te_rollback wb wg)
  | (None, wg) =>
      let '(r, az, wp) := fn wg (NewTxAuthorizer NewResolver (Some tok)) in
      let '(r, w) := finish wb r wp in (Some az, r, w)
  end.

(** What follows a successful begin. *)
Definition begun {T} (tok : TxToken) (fn : WriteFn T) (wb : W) : (T + error) * W :=
  match runTransaction tok fn wb with
  | (None, r, w) => (r, w)
  | (Some az, r, w) => settled az r w
  end.

Definition writeOnce {T} (tok : TxToken) (fn : WriteFn T) (w : W) : (T + error) * W :=
  match te_begin w with
  | (Some e, w) => (inr e, w)
  | (None, wb) => begun tok fn wb
  end.

Definition writeSerializedOnce {T} (key : Z) (tok : TxToken) (fn : WriteFn T) (w : W) : (T + error) * W :=
  match te_beginSerialized key w with
  | (Some e, w) => (inr e, w)
  | (None, wb) => begun tok fn wb
  end.

(** A read transaction: no lease guard, and repositories that only read. *)
Definition readOnce (tok : TxToken) (fn : WriteFn unit) (w : W) : (unit + error) * W :=
  match te_begin w with
  | (Some e, w) => (inr e, w)
  | (None, wb) =>
      let '(r, az, wp) := fn wb (NewTxAuthorizer NewResolver (Some tok)) in
      let '(r, w) := finish wb r wp in settled az r w
  end.

(** The tokens handed out so far and those invalidated. *)
Record Session := MkSession { s_world : W; s_next : TxToken; s_dead : list nat }.

Definition s_wait (st : Session) : bool * Session :=
  let '(b, w) := te_wait (s_world st) in (b, MkSession w (s_next st) (s_dead st)).

(** An attempt mints a fresh token and invalidates it when it ends. *)
Definition attempt {T} (once : TxToken -> W -> (T + error) * W) (st : Session) : (T + error) * Session :=
  let tok := s_next st in
  let '(r, w) := once tok (s_world st) in
  (r, MkSession w (S tok) (tok :: s_dead st)).

Definition WriteResult {T} (zero : T) (fn : WriteFn T) (st : Session) : (T + error) * Session :=
  retryResult te_engine s_wait zero (attempt (fun tok => writeOnce tok fn)) st.

(** An attempt whose value is unit, as [retryLoop] takes it. *)
Definition attemptErr (once : TxToken -> W -> (unit + error) * W) (st : Session) : option error * Session :=
  let '(r, st) := attempt once st in (errOf r, st).

Definition Write (fn : WriteFn unit) (st : Session) : option error * Session :=
  let '(r, st) := WriteResult () fn st in (errOf r, st).

Definition WriteSerialized (name : string) (fn : WriteFn unit) (st : Session) : option error * Session :=
  retryLoop te_engine s_wait
    (attemptErr (fun tok => match te_engine with
                            | SQLite => writeOnce tok fn
                            | Postgres => writeSerializedOnce (serializationKey name) tok fn
                            end)) st.

Definition Read (fn : WriteFn unit) (st : Session) : option error * Session :=
  retryLoop te_engine s_wait (attemptErr (fun tok => readOnce tok fn)) st.
End Tx.

Arguments Session W : clear implicits.
Arguments WriteFn W T : clear implicits.
