(* ===== verification/DenialRecord.v ===== *)
(** * A captured denial can always be stored

    The event [captureDenial] builds passes the write boundary, once its actor
    is resolved: validation never turns a recorded denial into a flush failure. *)

From S2P Require Import Prelude Domain OperationNames EventNames OperationTable AuditTable Registry.
From S2P Require Import FreeText AuditEvent Resolver Authorize AuthorizeSpec Refusal Samples Tx.

#[local] Open Scope Z_scope.

(** The request's metadata as the server attaches it: sanitized by
    [WithContext] under a known origin, or absent; and a running clock. *)
Record wiredContext (ctx : Ctx) : Prop := {
  wc_wire : cx_wire ctx = None \/
    exists c, cx_wire ctx = WithContext c /\ In (ctx_Origin c) validOrigins;
  wc_now : forall n, cx_now ctx n <> 0 }.

Definition denialSpec : TypeSpec := {|
  SchemaVersion := 1; Retention := RetentionAccess;
  Outcomes := licensed [OutcomeDenied]; Trails := licensed [TrailTenant; TrailInstance];
  Schema_ := [
    ("operation", fs KindString true);
    ("formula", fs KindString true);
    ("resolution", fs_enum ["resolvable"; "unresolvable"] (fs KindString true));
    ("claimed_org", fs KindFreeText false);
    ("claimed_project", fs KindFreeText false);
    ("claimed_env", fs KindFreeText false)] |}.

Lemma denialSpec_registered : Spec EventGrantDenied = Some denialSpec.
Proof. vm_compute. reflexivity. Qed.

Lemma sanitized_again s : checkSanitized (SanitizeFreeText s) = Ok ().
Proof. apply checkSanitized_spec, sanitized_storable. Qed.

Lemma wire_sanitized ctx : wiredContext ctx ->
  let wire := FromContext (cx_wire ctx) in
  contains validOrigins (ctx_Origin wire) = true /\
  checkSanitized (ctx_UserAgent wire) = Ok () /\ checkSanitized (ctx_SourceIP wire) = Ok ().
Proof.
  intros [[->|(c & -> & Ho)] _]; cbn -[contains validOrigins checkSanitized SanitizeFreeText].
  - vm_compute. done.
  - split; [by apply contains_In|]. split; apply sanitized_again.
Qed.

Lemma denialPayload_valid op spec resolution claimed :
  resolution = resolutionResolvable \/ resolution = resolutionUnresolvable ->
  Schema_validate (Schema_ denialSpec) (denialPayload op spec resolution claimed) = Ok ().
Proof.
  intros [-> | ->]; unfold denialPayload, claim.
  - reflexivity.
  - destruct (Org claimed <>s ""), (Project claimed <>s ""), (Env claimed <>s "");
      cbn -[checkSanitized SanitizeFreeText]; rewrite ?sanitized_again; cbn -[checkSanitized SanitizeFreeText];
      rewrite ?sanitized_again; cbn -[checkSanitized SanitizeFreeText]; rewrite ?sanitized_again; reflexivity.
Qed.

(** The actor a denial resolves to is one validation accepts. *)
Lemma resolved_actor kindOf principal actor :
  ResolveActorClass kindOf (MkActor principal "" "") true = Ok actor -> checkActor actor = Ok ().
Proof.
  unfold ResolveActorClass. cbn [actor_ID actor_Class actor_CredentialID].
  destruct (String.eqb_spec principal "") as [->|Hne]; [by intros [= <-]|]. cbn.
  destruct (kindOf principal) as [k|e|m]; [|destruct (isNoRows e); [by intros [= <-]|discriminate]|discriminate].
  unfold checkActor. destruct (k =s "human"); [|destruct (k =s "machine"); [|discriminate]];
    intros [= <-]; cbn; by apply String.eqb_neq in Hne as ->.
Qed.

Lemma filed_scopeClass trail scope : filed trail scope -> is_ok (ScopeClass trail scope) = true.
Proof.
  intros [(-> & Hl & Ho)|(-> & ->)]; [|reflexivity]. unfold ScopeClass. cbn.
  destruct (Scope_Level scope) as [l| |] eqn:E; [|discriminate..]. cbn.
  apply Scope_Level_cases in E as [(_ & ->)|[(-> & _)|[(-> & _)|(-> & _)]]]; done.
Qed.

Lemma NewEventID_nonempty uuid id : NewEventID uuid = Ok id -> (id =s "") = false.
Proof. unfold NewEventID. destruct uuid; [|discriminate..]. by intros [= <-]. Qed.

Lemma denialFor_row ctx principal op d kindOf actor now : wiredContext ctx ->
  denialFor ctx principal op d -> ResolveActorClass kindOf (ev_Actor (dn_Event d)) true = Ok actor ->
  exists row, BuildRow (with_actor actor (dn_Event d)) (dn_Trail d) (dn_Scope d) now = Ok row.
Proof.
  intros Hctx [(n & id & obj & spec & resolution & claimed & Hid & Hres & ->) Hfiled] Ha.
  pose proof (wire_sanitized ctx Hctx) as (Ho & Hua & Hip). pose proof (wc_now ctx Hctx n) as Hn.
  apply resolved_actor in Ha. apply NewEventID_nonempty in Hid. clear Hctx.
  assert (Validate (with_actor actor (denialEvent ctx id (cx_now ctx n) obj principal
    (denialPayload op spec resolution claimed))) (dn_Trail d) (dn_Scope d) = Ok ()) as Hv.
  { unfold Validate, with_actor, denialEvent. cbn [ev_Type]. rewrite denialSpec_registered. cbn [from_option].
    unfold validateAgainst. cbn [ev_ID ev_SchemaVersion ev_Outcome ev_OccurredAt ev_Actor ev_Origin
      ev_UserAgent ev_SourceIP ev_Payload].
    rewrite Hid, Ha, Ho, Hua, Hip. cbn [SchemaVersion denialSpec Outcomes Trails Schema_ negb].
    rewrite !flag_licensed. unfold IsZero. apply Z.eqb_neq in Hn as ->.
    rewrite (proj2 (checkTrailScope_spec (dn_Trail d) (dn_Scope d)) Hfiled).
    pose proof (denialPayload_valid op spec resolution claimed Hres) as Hp.
    destruct Hfiled as [[-> _]|[-> _]]; exact Hp. }
  unfold BuildRow. rewrite Hv. cbn [mbind result_bind]. clear Hv. apply filed_scopeClass in Hfiled.
  destruct (ScopeClass (dn_Trail d) (dn_Scope d)) as [c| |]; [eexists; reflexivity|discriminate Hfiled..].
Qed.

(** C39. A denial is always storable. When [Authorize] answers not-found or
    unauthorized and no capture failed, exactly one event was captured, and for
    whatever actor the stored principals resolve it to, the write boundary
    accepts it and builds its row: validation cannot turn a recorded denial
    into a failure to answer. *)
Theorem captured_denial_is_storable (tx : TxEnv) (ctx : Ctx) (apiOps : option (list ApiOperation))
    (caller : Identity) (op : Operation) (scope : Scope) (a a' : TxAuthorizer) (e : error) :
  driver_errors tx -> ids_no_panic ctx -> wiredContext ctx ->
  Authorize tx ctx apiOps caller op scope a = (Err e, a') -> uniform e = true -> az_captureErr a' = None ->
  exists d, az_denials a' = az_denials a ++ [d] /\
    forall kindOf actor now, ResolveActorClass kindOf (ev_Actor (dn_Event d)) true = Ok actor ->
      exists row, BuildRow (with_actor actor (dn_Event d)) (dn_Trail d) (dn_Scope d) now = Ok row.
Proof.
  intros Hd Hi Hw H Hu Hc. destruct (Authorize_Err tx ctx apiOps Hd Hi caller op scope a e a' H Hu)
    as [(d & Hden & Hfor)|Hbad]; [|congruence].
  exists d. split; [exact Hden|]. intros kindOf actor now Ha. by eapply denialFor_row.
Qed.

Lemma sampleCtx_wired : wiredContext sampleCtx.
Proof.
  constructor; [|discriminate]. right. eexists. split; [reflexivity|]. right. right. by left.
Qed.

Lemma weak_refused :
  match run aliceWeak OpValueReveal scopeE1 with
  | (Err e, a') => uniform e && match az_captureErr a' with None => true | Some _ => false end
  | _ => false
  end = true.
Proof. vm_compute. reflexivity. Qed.

Lemma captured_denial_is_storable_witness : exists e a' d row,
  run aliceWeak OpValueReveal scopeE1 = (Err e, a') /\ az_denials a' = [d] /\
  BuildRow (with_actor (MkActor "alice" ActorHuman "") (dn_Event d)) (dn_Trail d) (dn_Scope d) 9 = Ok row.
Proof.
  pose proof weak_refused as Hr. destruct (run aliceWeak OpValueReveal scopeE1) as [[|e|] a'] eqn:E;
    [discriminate Hr| |discriminate Hr].
  apply andb_prop in Hr as [Hu Hc]. destruct (az_captureErr a') eqn:Ec; [discriminate Hc|].
  destruct (captured_denial_is_storable sampleTx sampleCtx None aliceWeak OpValueReveal scopeE1 sampleAuthorizer a' e
    sample_driver sample_ids sampleCtx_wired E Hu Ec) as (d & Hd & Hrow).
  assert (ev_Actor (dn_Event d) = MkActor "alice" "" "") as Ha.
  { vm_compute in E. injection E as _ <-. cbn in Hd. injection Hd as <-. reflexivity. }
  destruct (Hrow (fun _ => Ok "human") (MkActor "alice" ActorHuman "") 9) as (row & Hb).
  { rewrite Ha. reflexivity. }
  exists e, a', d, row. split; [reflexivity|]. split; [exact Hd|exact Hb].
Defined.
