(* ===== verification/TxSpec.v ===== *)
(** * What the transaction boundary guarantees

    The retry loop's accounting, the durable effect of a write and of a read,
    the settlement of captured denials, and the life of an attempt's token. *)

From S2P Require Import Prelude Domain OperationNames EventNames OperationTable AuditTable Registry.
From S2P Require Import FreeText AuditEvent Resolver Authorize AuthorizeSpec Refusal Boundary Tx.

#[local] Open Scope Z_scope.

(** ** The retry loop *)
Section RetryLoop.
Context {St : Type} (engine : Engine) (wait : St -> bool * St).

(** How a run ends that gives up: the error names the last retryable failure. *)
Inductive gaveUp (last : error) : error -> Prop :=
  | gaveUp_exhausted : gaveUp last (EWrap "tx: retries exhausted" last)
  | gaveUp_deadline : gaveUp last
      (EWrap "tx: deadline while retrying" (EJoin [ESentinel "context.DeadlineExceeded"; last])).

(** A property that waiting and retryable failures preserve holds when the
    last attempt starts, or when the loop gives up. *)
Lemma retryLoop_from_inv (P : St -> Prop) (Q : error -> Prop) (fn : St -> option error * St)
    (Hwait : forall st, P st -> P (wait st).2)
    (Hretry : forall st e st', P st -> fn st = (Some e, st') -> retryable engine e = true -> P st' /\ Q e) :
  forall left attempt last st err st', P st -> (attempt <> 0%nat -> Q last) -> (left = 0%nat -> Q last) ->
  retryLoop_from engine wait attempt left fn last st = (err, st') ->
  (exists st0, P st0 /\ fn st0 = (err, st') /\ from_option (retryable engine) false err = false) \/
  (exists e last', err = Some e /\ gaveUp last' e /\ Q last' /\ P st').
Proof.
  induction left as [|left IH]; cbn; intros attempt last st err st' HP HQ HQ0 H.
  - injection H as <- <-. right. do 2 eexists. split; [done|]. split; [constructor|]. auto.
  - destruct (if (attempt =? 0)%nat then _ else _) as [expired st1] eqn:Ew.
    assert (P st1 /\ (expired = true -> attempt <> 0%nat)) as [HP1 Hne].
    { destruct (Nat.eqb_spec attempt 0); [by injection Ew; intros <- <-|].
      split; [|done]. specialize (Hwait _ HP). by rewrite Ew in Hwait. }
    destruct expired.
    + injection H as <- <-. right. do 2 eexists. split; [done|]. split; [constructor|]. auto.
    + destruct (fn st1) as [[e|] st2] eqn:Ef.
      * destruct (retryable engine e) eqn:Er; cbn [negb] in H.
        -- destruct (Hretry _ _ _ HP1 Ef Er) as [HP2 HQ2]. by eapply IH in H.
        -- injection H as <- <-. left. by exists st1.
      * injection H as <- <-. left. by exists st1.
Qed.

Lemma retryLoop_inv (P : St -> Prop) (Q : error -> Prop) (fn : St -> option error * St)
    (Hwait : forall st, P st -> P (wait st).2)
    (Hretry : forall st e st', P st -> fn st = (Some e, st') -> retryable engine e = true -> P st' /\ Q e)
    st err st' :
  P st -> retryLoop engine wait fn st = (err, st') ->
  (exists st0, P st0 /\ fn st0 = (err, st') /\ from_option (retryable engine) false err = false) \/
  (exists e last', err = Some e /\ gaveUp last' e /\ Q last' /\ P st').
Proof. intros HP H. by eapply retryLoop_from_inv in H. Qed.

(** A first attempt that is not retried ends the run. *)
Lemma retryLoop_first fn st err st' : fn st = (err, st') -> from_option (retryable engine) false err = false ->
  retryLoop engine wait fn st = (err, st').
Proof.
  intros E Hr. unfold retryLoop. change attempts with (S 3). cbn [retryLoop_from Nat.eqb]. rewrite E.
  destruct err as [e|]; [|done]. cbn in Hr. by rewrite Hr.
Qed.

(** The attempts made, in order, as a log beside the state. *)
Definition logged (fn : St -> option error * St) (p : St * list (option error))
    : option error * (St * list (option error)) :=
  let '(e, st) := fn p.1 in (e, (st, p.2 ++ [e])).

Definition logged_wait (p : St * list (option error)) : bool * (St * list (option error)) :=
  let '(b, st) := wait p.1 in (b, (st, p.2)).

Definition retryableFailure (o : option error) : Prop := exists e, o = Some e /\ retryable engine e = true.

(** What the log of a run says about its outcome. *)
Definition accounts (log : list (option error)) (err : option error) : Prop :=
  exists init final, log = init ++ [final] /\ Forall retryableFailure init /\
    ((err = final /\ ~ retryableFailure final) \/
     (exists last e, final = Some last /\ retryable engine last = true /\ err = Some e /\ gaveUp last e)).

Lemma accounts_final log final :
  Forall retryableFailure log -> ~ retryableFailure final -> accounts (log ++ [final]) final.
Proof. intros Hf Hn. exists log, final. split; [done|]. split; [done|]. by left. Qed.

Lemma accounts_gaveUp init last e :
  Forall retryableFailure (init ++ [Some last]) -> gaveUp last e -> accounts (init ++ [Some last]) (Some e).
Proof.
  intros [Hf (e' & [= <-] & He)%Forall_singleton]%Forall_app Hg. exists init, (Some last).
  split; [done|]. split; [done|]. right. by exists last, e.
Qed.

Lemma retryLoop_from_log fn : forall left st attempt last log err st' log',
  Forall retryableFailure log -> (attempt <> 0%nat -> exists init, log = init ++ [Some last]) ->
  (attempt + left <> 0)%nat -> length log = attempt ->
  retryLoop_from engine logged_wait attempt left (logged fn) last (st, log) = (err, (st', log')) ->
  retryLoop_from engine wait attempt left fn last st = (err, st') /\
  accounts log' err /\ (length log' <= attempt + left)%nat.
Proof.
  induction left as [|left IH]; cbn; intros st attempt last log err st' log' Hf Hlast Hne Hl H.
  - injection H as <- <- <-. split; [done|]. split; [|lia]. destruct Hlast as [init ->]; [lia|].
    apply accounts_gaveUp; [done|constructor].
  - destruct (if (attempt =? 0)%nat then (false, st) else wait st) as [expired st0] eqn:Ew.
    assert ((if (attempt =? 0)%nat then (false, (st, log)) else logged_wait (st, log)) = (expired, (st0, log)))
      as Ew'.
    { unfold logged_wait. cbn. destruct (attempt =? 0)%nat; [by injection Ew; intros <- <-|]. by rewrite Ew. }
    rewrite Ew' in H. destruct expired.
    { injection H as <- <- <-. split; [done|]. split; [|lia]. destruct (Nat.eqb_spec attempt 0); [done|].
      destruct Hlast as [init ->]; [done|]. apply accounts_gaveUp; [done|constructor]. }
    unfold logged in H at 1. cbn [fst snd] in H. destruct (fn st0) as [[e|] st1]; cbn in H.
    + destruct (retryable engine e) eqn:Er; cbn [negb] in *.
      * apply IH in H; [|apply Forall_app; split; [done|]; apply Forall_singleton; by exists e
                        |by exists log|lia|rewrite length_app; cbn; lia].
        destruct H as (? & ? & ?). split; [done|]. split; [done|lia].
      * injection H as <- <- <-. split; [done|]. split; [|rewrite length_app; cbn; lia].
        apply accounts_final; [done|]. intros (? & [= <-] & ?). congruence.
    + injection H as <- <- <-. split; [done|]. split; [|rewrite length_app; cbn; lia].
      apply accounts_final; [done|]. by intros (? & ? & ?).
Qed.

End RetryLoop.

(** A run of the retry loop makes between one and four attempts; every
    attempt before the last failed retryably; the run answers the last
    attempt's outcome when that is a success or a failure not worth retrying,
    and otherwise gives up with an error that names the last failure. Logging
    does not change the run. *)
Theorem retryLoop_accounting {St : Type} (engine : Engine) (wait : St -> bool * St)
    (fn : St -> option error * St) (st : St) :
  let '(err, (st', log)) := retryLoop engine (logged_wait wait) (logged fn) (st, []) in
  retryLoop engine wait fn st = (err, st') /\ accounts engine log err /\ (1 <= length log <= 4)%nat.
Proof.
  destruct (retryLoop engine (logged_wait wait) (logged fn) (st, [])) as [err [st' log]] eqn:E.
  apply (retryLoop_from_log engine wait fn attempts st 0 (EJoin []) []) in E; [|constructor|done|cbn; lia|done].
  destruct E as (H & Ha & Hl). split; [done|]. split; [done|]. change (0 + attempts)%nat with 4%nat in Hl.
  destruct Ha as (init & final & -> & _). rewrite length_app in *. cbn [length] in *. lia.
Qed.

Lemma retryResult_inv {St T} (engine : Engine) (wait : St -> bool * St) (P : St -> Prop) (Q : error -> Prop)
    (zero : T) (fn : St -> (T + error) * St)
    (Hwait : forall st, P st -> P (wait st).2)
    (Hretry : forall st e st', P st -> fn st = (inr e, st') -> retryable engine e = true -> P st' /\ Q e)
    st r st' :
  P st -> retryResult engine wait zero fn st = (r, st') ->
  (exists st0, P st0 /\ fn st0 = (r, st') /\ from_option (retryable engine) false (errOf r) = false) \/
  (exists e last, r = inr e /\ gaveUp last e /\ Q last /\ P st').
Proof.
  intros HP. unfold retryResult. destruct (retryLoop _ _ _ _) as [err [w t]] eqn:E. intros H.
  apply (retryLoop_inv engine _ (fun p => P p.1) Q) in E; [|..|done].
  - destruct E as [([st0 t0] & HP0 & Hf & Hr)|(e & last & -> & Hg & HQ & HP')]; cbn [fst] in *.
    + left. exists st0. split; [done|]. destruct (fn st0) as [[t1|e1] st1]; injection Hf as <- <- <-;
        injection H as <- <-; done.
    + right. exists e, last. by injection H as <- <-.
  - intros [s u] Hs. cbn. specialize (Hwait s Hs). by destruct (wait s).
  - intros [s u] e [s' u'] Hs Hf He. cbn in *. specialize (Hretry s e). destruct (fn s) as [[?|?] ?];
      [done|]. injection Hf as <- <- <-. by apply Hretry.
Qed.

(** ** Effects on the durable content *)

(** The row a denial becomes: its actor resolved against the stored
    principals, validated and built. *)
Definition recordOf (engine : Engine) (d : Durable) (dn : Denial) (row : Row) : Prop :=
  exists actor now,
    ResolveActorClass (fun id => match find (fun p => pr_id p =s id) (principals (d_db d)) with
                                 | Some p => Ok (pr_kind p) | None => Err (noRows engine) end)
      (ev_Actor (dn_Event dn)) true = Ok actor /\
    BuildRow (with_actor actor (dn_Event dn)) (dn_Trail dn) (dn_Scope dn) now = Ok row.

(** Every denial of the list was appended to its trail, in order; nothing else changed. *)
Inductive Flushed (engine : Engine) : list Denial -> Durable -> Durable -> Prop :=
  | Flushed_nil d : Flushed engine [] d d
  | Flushed_cons dn ds row d d' : recordOf engine d dn row ->
      Flushed engine ds (insertRow (dn_Trail dn) row d) d' -> Flushed engine (dn :: ds) d d'.

Lemma Flushed_nil_inv engine d d' : Flushed engine [] d d' -> d' = d.
Proof. by inversion 1. Qed.

Lemma Flushed_db engine ds d d' : Flushed engine ds d d' -> d_db d' = d_db d.
Proof.
  induction 1 as [|dn ds row d d' _ _ IH]; [done|]. rewrite IH. unfold insertRow. by destruct (_ =s _).
Qed.

Section Effects.
Context {W : Type} `{TxEngine W}.

(** The statement that reads the actor's kind, when there is one: a resolved
    actor is the one the stored principals give. *)
Lemma kind_read (a : Actor) (w : W) f w1 actor :
  (if readsKind a then te_stmt w else (None, w)) = (f, w1) ->
  ResolveActorClass (lookupKind f (te_data w1)) a true = Ok actor ->
  te_data w1 = te_data w /\
  ResolveActorClass (fun id => match find (fun p => pr_id p =s id) (principals (d_db (te_data w))) with
                               | Some p => Ok (pr_kind p) | None => Err (noRows te_engine) end) a true = Ok actor.
Proof.
  unfold readsKind. intros Hf Ha.
  assert (te_data w1 = te_data w) as D.
  { destruct (_ && _)%bool; [|by injection Hf as <- <-]. pose proof (te_stmt_data w) as D. by rewrite Hf in D. }
  split; [done|]. revert Ha. rewrite D. unfold ResolveActorClass, lookupKind.
  destruct (actor_Class a =s "") eqn:Ec, (actor_ID a =s "") eqn:Ei; cbn [andb negb] in Hf;
    try by injection Hf as <- <-.
  destruct f as [e|]; [|done]. apply te_stmt_fault in Hf. by rewrite Hf.
Qed.

Lemma WriteDenial_spec (dn : Denial) (w w' : W) err : WriteDenial dn w = (err, w') ->
  match err with
  | Some _ => te_data w' = te_data w
  | None => exists row, recordOf te_engine (te_data w) dn row /\
      te_data w' = insertRow (dn_Trail dn) row (te_data w)
  end.
Proof.
  unfold WriteDenial. destruct (if readsKind _ then _ else _) as [f w1] eqn:E1.
  assert (te_data w1 = te_data w) as D1.
  { destruct (readsKind _); [|by injection E1 as <- <-]. pose proof (te_stmt_data w) as D. by rewrite E1 in D. }
  destruct (ResolveActorClass _ _ _) as [actor|e|m] eqn:Ea; [|by intros [= <- <-]..].
  destruct (BuildRow _ _ _ _) as [row|e|m] eqn:Eb; [|by intros [= <- <-]..].
  destruct (te_stmt w1) as [f2 w2] eqn:E2. pose proof (te_stmt_data w1) as D2. rewrite E2 in D2. cbn in D2.
  destruct f2 as [e|]; intros [= <- <-]; [congruence|].
  exists row. split; [|by rewrite te_set_data, D2, D1]. exists actor, (recordedAt w1). split; [|done].
  by eapply kind_read in E1 as [_ ?].
Qed.

Lemma writeDenials_spec ds : forall (w w' : W), writeDenials ds w = (None, w') ->
  Flushed te_engine ds (te_data w) (te_data w').
Proof.
  induction ds as [|dn ds IH]; cbn; intros w w' E; [injection E as <-; constructor|].
  destruct (WriteDenial dn w) as [[e|] w1] eqn:E1; [discriminate|].
  apply WriteDenial_spec in E1 as (row & Hr & D). econstructor; [done|]. rewrite <- D. by apply IH.
Qed.

Lemma flushOnce_spec ds (w w' : W) err : flushOnce ds w = (err, w') ->
  (te_data w' = te_data w \/ Flushed te_engine ds (te_data w) (te_data w')) /\
  (err = None -> Flushed te_engine ds (te_data w) (te_data w')) /\
  (from_option (retryable te_engine) false err = true -> te_data w' = te_data w).
Proof.
  unfold flushOnce. destruct (te_begin w) as [[e|] wb] eqn:Eb; pose proof (te_begin_data w) as D;
    rewrite Eb in D; cbn in D; [intros [= <- <-]; naive_solver|].
  destruct (writeDenials ds wb) as [[e|] wp] eqn:Ew; [intros [= <- <-]; rewrite te_rollback_data; naive_solver|].
  apply writeDenials_spec in Ew. rewrite D in Ew. intros Hc. destruct err as [e|].
  - destruct (te_commit_atomic _ _ _ _ Hc) as [Dc|Dc]; rewrite Dc.
    + rewrite D. naive_solver.
    + split; [by right|]. split; [done|]. cbn. intros Hr. rewrite (te_commit_abort _ _ _ _ Hc Hr) in Dc. congruence.
  - rewrite (te_commit_Ok _ _ _ Hc). split; [by right|]. done.
Qed.

(** The retried flush: durable, or answered as an error that is loud when the
    effect is unknown. *)
Lemma flush_spec ds (w w' : W) err : retryLoop te_engine te_wait (flushOnce ds) w = (err, w') ->
  (te_data w' = te_data w \/ Flushed te_engine ds (te_data w) (te_data w')) /\
  (err = None -> Flushed te_engine ds (te_data w) (te_data w')) /\
  (from_option (retryable te_engine) false err = true -> te_data w' = te_data w).
Proof.
  intros E. apply (retryLoop_inv te_engine te_wait (fun x => te_data x = te_data w) (fun _ => True)) in E; [|..|done].
  - destruct E as [(w0 & D0 & Hf & Hr)|(e & last & -> & _ & _ & D)]; [|naive_solver].
    apply flushOnce_spec in Hf. rewrite D0 in Hf. destruct Hf as (? & ? & ?). rewrite Hr. naive_solver.
  - intros x Hx. by rewrite te_wait_data.
  - intros x e x' Hx Hf Hr. split; [|done]. apply flushOnce_spec in Hf as (_ & _ & Hf). rewrite Hf; [done|]. done.
Qed.
(** How a settled attempt ends, given its own outcome [r1] and world [w1]. *)
Inductive Settled {T} (az : TxAuthorizer) (r1 : T + error) (w1 : W) : T + error -> W -> Prop :=
  | Settled_retry e : r1 = inr e -> retryable te_engine e = true -> Settled az r1 w1 r1 w1
  | Settled_capture c : DenialCaptureError az = Some c -> Settled az r1 w1 (inr (refusingToAnswer c)) w1
  | Settled_flushed w' : DenialCaptureError az = None ->
      from_option (retryable te_engine) false (errOf r1) = false ->
      Flushed te_engine (PendingDenials az) (te_data w1) (te_data w') -> Settled az r1 w1 r1 w'
  | Settled_unflushed fe w' : DenialCaptureError az = None -> PendingDenials az <> [] ->
      retryLoop te_engine te_wait (flushOnce (PendingDenials az)) w1 = (Some fe, w') ->
      te_data w' = te_data w1 \/ Flushed te_engine (PendingDenials az) (te_data w1) (te_data w') ->
      (retryable te_engine fe = true -> te_data w' = te_data w1) ->
      Settled az r1 w1 (inr (refusingToAnswer fe)) w'.

Lemma settled_spec {T} (az : TxAuthorizer) (r1 : T + error) (w1 : W) r w' :
  settled az r1 w1 = (r, w') -> Settled az r1 w1 r w'.
Proof.
  unfold settled, settleDenials, settleDenialResult.
  destruct (match errOf r1 with Some e => _ | None => _ end) eqn:Er.
  - destruct r1 as [t|e]; cbn in *; [done|]. intros [= <- <-]. by econstructor.
  - destruct (DenialCaptureError az) as [c|] eqn:Ec; [intros [= <- <-]; by constructor|].
    assert (from_option (retryable te_engine) false (errOf r1) = false) as Er' by by destruct (errOf r1).
    destruct (PendingDenials az) as [|dn ds] eqn:Ed.
    + intros E. assert (r = r1 /\ w' = w1) as [-> ->] by (destruct r1; cbn in E; by simplify_eq).
      constructor; [done..|]. rewrite Ed. constructor.
    + destruct (retryLoop _ _ _ _) as [fe w2] eqn:Ef.
      pose proof (flush_spec _ _ _ _ Ef) as (Hd & Hok & Hr). destruct fe as [fe|].
      * intros [= <- <-]. by constructor; rewrite ?Ed.
      * intros E. assert (r = r1 /\ w' = w2) as [-> ->] by (destruct r1; cbn in E; by simplify_eq).
        constructor; [done..|]. rewrite Ed. by apply Hok.
Qed.

(** What ending the transaction does, given the closure's outcome. *)
Inductive Finished {T} (wb wp : W) : T + error -> T + error -> W -> Prop :=
  | Finished_rollback e w1 : te_data w1 = te_data wb -> Finished wb wp (inr e) (inr e) w1
  | Finished_commit t w1 : te_data w1 = te_data wp -> Finished wb wp (inl t) (inl t) w1
  | Finished_abort t e w1 : te_commit wb wp = (Some e, w1) ->
      te_data w1 = te_data wb \/ te_data w1 = te_data wp ->
      (retryable te_engine e = true -> te_data w1 = te_data wb) -> Finished wb wp (inl t) (inr e) w1.

Lemma finish_spec {T} (wb wp : W) (r0 r1 : T + error) w1 : finish wb r0 wp = (r1, w1) -> Finished wb wp r0 r1 w1.
Proof.
  unfold finish. destruct r0 as [t|e].
  - destruct (te_commit wb wp) as [[e|] w] eqn:Ec; intros [= <- <-].
    + constructor; [done|by eapply te_commit_atomic|by eapply te_commit_abort].
    + constructor. by eapply te_commit_Ok.
  - intros [= <- <-]. constructor. apply te_rollback_data.
Qed.

(** An attempt of [fn] from the durable content [d]: refused before the closure
    runs, or run, ended and settled. *)
Inductive Attempted {T} (tok : TxToken) (fn : WriteFn W T) (d : Durable) : T + error -> W -> Prop :=
  | Attempted_refused e w' : te_data w' = d ->
      (exists w wb, te_begin w = (Some e, wb) \/ te_guard w = (Some e, wb) \/
                    exists k, te_beginSerialized k w = (Some e, wb)) ->
      Attempted tok fn d (inr e) w'
  | Attempted_run wb w0 r0 az wp r1 w1 r w' : te_data wb = d -> te_data w0 = d ->
      fn w0 (NewTxAuthorizer NewResolver (Some tok)) = (r0, az, wp) ->
      Finished wb wp r0 r1 w1 -> Settled az r1 w1 r w' -> Attempted tok fn d r w'.

Lemma begun_spec {T} tok (fn : WriteFn W T) (wb : W) r w' :
  begun tok fn wb = (r, w') -> Attempted tok fn (te_data wb) r w'.
Proof.
  unfold begun, runTransaction. destruct (te_guard wb) as [[e|] wg] eqn:Eg.
  - intros [= <- <-]. constructor; [apply te_rollback_data|eauto].
  - pose proof (te_guard_data wb) as D. rewrite Eg in D. cbn in D.
    destruct (fn wg _) as [[r0 az] wp] eqn:Ef. destruct (finish wb r0 wp) as [r1 w1] eqn:Efi.
    intros Hs. apply finish_spec in Efi. apply settled_spec in Hs. by apply (Attempted_run tok fn _ wb wg r0 az wp r1 w1).
Qed.

Lemma writeOnce_spec {T} tok (fn : WriteFn W T) (w : W) r w' :
  writeOnce tok fn w = (r, w') -> Attempted tok fn (te_data w) r w'.
Proof.
  unfold writeOnce. destruct (te_begin w) as [[e|] wb] eqn:Eb; pose proof (te_begin_data w) as D;
    rewrite Eb in D; cbn in D.
  - intros [= <- <-]. constructor; [done|by eauto 8].
  - intros E%begun_spec. by rewrite <- D.
Qed.

Lemma writeSerializedOnce_spec {T} key tok (fn : WriteFn W T) (w : W) r w' :
  writeSerializedOnce key tok fn w = (r, w') -> Attempted tok fn (te_data w) r w'.
Proof.
  unfold writeSerializedOnce. destruct (te_beginSerialized key w) as [[e|] wb] eqn:Eb;
    pose proof (te_beginSerialized_data key w) as D; rewrite Eb in D; cbn in D.
  - intros [= <- <-]. constructor; [done|by eauto 8].
  - intros E%begun_spec. by rewrite <- D.
Qed.

Lemma readOnce_spec tok (fn : WriteFn W unit) (w : W) r w' :
  readOnce tok fn w = (r, w') -> Attempted tok fn (te_data w) r w'.
Proof.
  unfold readOnce. destruct (te_begin w) as [[e|] wb] eqn:Eb; pose proof (te_begin_data w) as D;
    rewrite Eb in D; cbn in D.
  - intros [= <- <-]. constructor; [done|by eauto 8].
  - destruct (fn wb _) as [[r0 az] wp] eqn:Ef. destruct (finish wb r0 wp) as [r1 w1] eqn:Efi.
    intros Hs. apply finish_spec in Efi. apply settled_spec in Hs. by apply (Attempted_run tok fn _ wb wb r0 az wp r1 w1).
Qed.

(** ** A write takes effect once *)

(** A closure that succeeds leaves nothing to settle. *)
Definition clean {T} (fn : WriteFn W T) : Prop := forall tok w t az wp,
  fn w (NewTxAuthorizer NewResolver (Some tok)) = (inl t, az, wp) ->
  PendingDenials az = [] /\ DenialCaptureError az = None.

Lemma Attempted_retry {T} tok (fn : WriteFn W T) d e (w' : W) : clean fn ->
  Attempted tok fn d (inr e) w' -> retryable te_engine e = true -> te_data w' = d.
Proof.
  intros Hc HA Hr. remember (inr e) as r eqn:Er. destruct HA as [e0 w' D _|wb w0 r0 az wp r1 w1 r w' Db D0 Hf Hfin Hset].
  { done. }
  destruct Hfin as [e0 w1 D1|t w1 D1|t e0 w1 _ D1 D2].
  - destruct Hset as [e1 He1 _|c Hcap|w' Hcap Hnr _|fe w' Hcap _ _ _ Hfe]; simplify_eq/=; [congruence|..].
    + congruence.
    + rewrite Hnr in Hr. done.
    + rewrite Hfe; [congruence|done].
  - apply Hc in Hf as [Hp Hn]. destruct Hset; simplify_eq/=; congruence.
  - apply Hc in Hf as [Hp Hn]. destruct Hset as [e1 He1 _|c Hcap|w' Hcap Hnr _|fe w' Hcap Hne _ _ Hfe]; simplify_eq/=.
    + rewrite D2; [congruence|done].
    + rewrite Hnr in Hr. done.
Qed.

(** The durable outcomes a write may leave, from [d] to [d']. *)
Definition wrote {T} (fn : WriteFn W T) (d : Durable) (r : T + error) (d' : Durable) : Prop :=
  match r with
  | inl t => exists tok w0 az wp, te_data w0 = d /\
      fn w0 (NewTxAuthorizer NewResolver (Some tok)) = (inl t, az, wp) /\ d' = te_data wp
  | inr e =>
      d' = d \/
      (exists tok w0 e0 az wp, te_data w0 = d /\
         fn w0 (NewTxAuthorizer NewResolver (Some tok)) = (inr e0, az, wp) /\
         Flushed te_engine (PendingDenials az) d d') \/
      (exists tok w0 t az wp wb w1, te_data w0 = d /\
         fn w0 (NewTxAuthorizer NewResolver (Some tok)) = (inl t, az, wp) /\
         te_commit wb wp = (Some e, w1) /\ d' = te_data wp)
  end.

Lemma Attempted_wrote {T} tok (fn : WriteFn W T) d r (w' : W) : clean fn ->
  Attempted tok fn d r w' -> wrote fn d r (te_data w').
Proof.
  intros Hc [e0 ww D _|wb w0 r0 az wp r1 w1 rr ww Db D0 Hf Hfin Hset].
  { by left. }
  destruct Hfin as [e0 w1 D1|t w1 D1|t e0 w1 Hcm D1 _].
  - assert (te_data w1 = te_data w0) as D by congruence. clear D1 Db.
    destruct Hset as [e1 He1 _|c Hcap|ww Hcap Hnr Hfl|fe ww Hcap _ _ Hfl _]; cbn [wrote];
      rewrite ?D in *; rewrite D0 in *.
    + by left.
    + by left.
    + right. left. by exists tok, w0, e0, az, wp.
    + destruct Hfl as [->|Hfl]; [by left|]. right. left. by exists tok, w0, e0, az, wp.
  - pose proof Hf as [Hp Hn]%Hc. destruct Hset as [| |ww _ _ Hfl|]; [discriminate|congruence| |congruence].
    exists tok, w0, az, wp. split; [done|]. split; [done|]. rewrite Hp in Hfl. apply Flushed_nil_inv in Hfl. congruence.
  - pose proof Hf as [Hp Hn]%Hc.
    assert (te_data w1 = d \/ te_data w1 = te_data wp) as D2 by (rewrite <- Db; done). clear D1.
    destruct Hset as [e1 He1 _| |ww _ _ Hfl|]; [|congruence| |congruence]; cbn [wrote].
    + destruct D2 as [->| ->]; [by left|]. right. right. by exists tok, w0, t, az, wp, wb, w1.
    + rewrite Hp in Hfl. apply Flushed_nil_inv in Hfl as ->. destruct D2 as [->| ->]; [by left|].
      right. right. by exists tok, w0, t, az, wp, wb, w1.
Qed.
End Effects.

