(* ===== verification/TxClaims.v ===== *)
(** * Transactions, end to end

    The guarantees of [Write], [WriteResult], [WriteSerialized] and [Read] over
    any engine that keeps its promises, a scripted engine that shows the
    hypotheses can hold, and the composition with the authorization chokepoint. *)

From S2P Require Import Prelude Domain OperationNames EventNames OperationTable AuditTable Registry.
From S2P Require Import FreeText AuditEvent AuditErrors Resolver Authorize AuthorizeSpec Refusal.
From S2P Require Import Samples Guarantees Boundary Tx DenialRecord TxSpec.

#[local] Open Scope Z_scope.

(** ** A scripted engine

    Each call of the engine takes the next entry of a script: no fault, or a
    SQLite result code. An exhausted script faults no more. *)
Record Scripted := MkScripted { sc_data : Durable; sc_script : list (option Z) }.

Definition sc_next (w : Scripted) : option error * Scripted :=
  match sc_script w with
  | [] => (None, w)
  | o :: rest => (ESqlite <$> o, MkScripted (sc_data w) rest)
  end.

Definition sc_commit (b p : Scripted) : option error * Scripted :=
  match sc_next p with
  | (Some e, w) => (Some e, MkScripted (sc_data b) (sc_script w))
  | (None, w) => (None, w)
  end.

Lemma sc_next_data w : sc_data (sc_next w).2 = sc_data w.
Proof. unfold sc_next. by destruct (sc_script w). Qed.

Lemma sc_next_fault w e w' : sc_next w = (Some e, w') -> exists c, e = ESqlite c.
Proof. unfold sc_next. destruct (sc_script w) as [|[c|] rest]; intros [= <- <-]. by exists c. Qed.

Lemma sc_stmt_fault w e w' : sc_next w = (Some e, w') -> isNoRows e = false.
Proof. intros H. by apply sc_next_fault in H as [c ->]. Qed.

Lemma sc_commit_Ok b p w : sc_commit b p = (None, w) -> sc_data w = sc_data p.
Proof.
  unfold sc_commit. destruct (sc_next p) as [[e|] w1] eqn:E; [discriminate|]. intros [= <-].
  pose proof (sc_next_data p) as D. by rewrite E in D.
Qed.

Lemma sc_commit_Err b p e w : sc_commit b p = (Some e, w) -> sc_data w = sc_data b.
Proof. unfold sc_commit. destruct (sc_next p) as [[e1|] w1]; by intros [= _ <-]. Qed.

#[export] Instance ScriptedEngine : TxEngine Scripted := {|
  te_engine := SQLite;
  te_data := sc_data;
  te_set d w := MkScripted d (sc_script w);
  te_begin := sc_next;
  te_beginSerialized _ := sc_next;
  te_guard := sc_next;
  te_stmt := sc_next;
  te_commit := sc_commit;
  te_rollback b p := MkScripted (sc_data b) (sc_script p);
  te_wait w := (false, w);
  te_now _ := 1000;
  te_set_data _ _ := eq_refl;
  te_begin_data := sc_next_data;
  te_beginSerialized_data _ := sc_next_data;
  te_guard_data := sc_next_data;
  te_stmt_data := sc_next_data;
  te_stmt_fault := sc_stmt_fault;
  te_wait_data _ := eq_refl;
  te_rollback_data _ _ := eq_refl;
  te_commit_Ok := sc_commit_Ok;
  te_commit_atomic b p e w H := or_introl (sc_commit_Err b p e w H);
  te_commit_abort b p e w H _ := sc_commit_Err b p e w H |}.

(** ** Writes *)
Section Claims.
Context {W : Type} `{TxEngine W}.

Lemma s_wait_data (st : Session W) : te_data (s_world (s_wait st).2) = te_data (s_world st).
Proof. unfold s_wait. pose proof (te_wait_data (s_world st)) as D. by destruct (te_wait (s_world st)). Qed.

Lemma attempt_spec {T} (fn : WriteFn W T) once st r st'
    (Honce : forall tok w r w', once tok w = (r, w') -> Attempted tok fn (te_data w) r w') :
  attempt once st = (r, st') -> Attempted (s_next st) fn (te_data (s_world st)) r (s_world st').
Proof. unfold attempt. destruct (once _ _) as [r0 w0] eqn:E. intros [= <- <-]. by apply Honce in E. Qed.

Lemma WriteResult_wrote {T} (zero : T) (fn : WriteFn W T) st r st' : clean fn ->
  WriteResult zero fn st = (r, st') -> wrote fn (te_data (s_world st)) r (te_data (s_world st')).
Proof.
  intros Hc. unfold WriteResult. set (d := te_data (s_world st)). intros E.
  apply (retryResult_inv te_engine s_wait (fun x => te_data (s_world x) = d) (fun _ => True)) in E; [|..|done].
  - destruct E as [(st0 & D0 & E & _)|(e & last & -> & _ & _ & D)]; [|by left].
    apply (attempt_spec fn) in E; [|intros *; apply writeOnce_spec]. rewrite D0 in E. by eapply Attempted_wrote.
  - intros x Hx. by rewrite s_wait_data.
  - intros x e x' Hx Ea Hr. split; [|done]. apply (attempt_spec fn) in Ea; [|intros *; apply writeOnce_spec].
    rewrite Hx in Ea. by eapply Attempted_retry.
Qed.

(** ** Answers that stand for a denial *)

(** Documented driver behaviour: what the engine reports is not a domain sentinel. *)
Record driverQuiet : Prop := {
  dq_begin : forall w e w', te_begin w = (Some e, w') -> uniform e = false;
  dq_beginSerialized : forall k w e w', te_beginSerialized k w = (Some e, w') -> uniform e = false;
  dq_guard : forall w e w', te_guard w = (Some e, w') -> uniform e = false;
  dq_stmt : forall w e w', te_stmt w = (Some e, w') -> uniform e = false;
  dq_commit : forall b p e w', te_commit b p = (Some e, w') -> uniform e = false }.

(** A closure whose failures worth retrying, and whose capture failures, are
    not themselves denials. *)
Record quiet {T} (fn : WriteFn W T) : Prop := {
  q_retry : forall tok w e az wp, fn w (NewTxAuthorizer NewResolver (Some tok)) = (inr e, az, wp) ->
    retryable te_engine e = true -> uniform e = false;
  q_capture : forall tok w r az wp c, fn w (NewTxAuthorizer NewResolver (Some tok)) = (r, az, wp) ->
    DenialCaptureError az = Some c -> uniform c = false }.

Lemma gaveUp_uniform last e : gaveUp last e -> uniform last = false -> uniform e = false.
Proof. unfold uniform. intros [] Hl; cbn; rewrite ?orb_false_r in *; exact Hl. Qed.

Hypothesis Hq : driverQuiet.

Lemma WriteDenial_quiet dn (w w' : W) e : WriteDenial dn w = (Some e, w') -> uniform e = false.
Proof.
  unfold WriteDenial. destruct (if readsKind _ then _ else _) as [f w1] eqn:E1.
  destruct (ResolveActorClass _ _ _) as [actor|e0|m] eqn:Ea; [|intros [= <- _]|by intros [= <- _]].
  - destruct (BuildRow _ _ _ _) as [row|e0|m] eqn:Eb; [|intros [= <- _]|by intros [= <- _]].
    + destruct (te_stmt w1) as [[e0|] w2] eqn:E2; intros [= <- _]. by eapply dq_stmt.
    + pose proof (plain_BuildRow (with_actor actor (dn_Event dn)) (dn_Trail dn) (dn_Scope dn) (recordedAt w1)) as Hp.
      rewrite Eb in Hp. by destruct Hp as [m ->].
  - destruct f as [fe|].
    + assert (uniform fe = false) as Hf by (destruct (readsKind _); [by eapply dq_stmt|discriminate]).
      revert Ea. unfold ResolveActorClass, lookupKind. repeat case_match; intros [= <-]; done.
    + revert Ea. unfold ResolveActorClass, lookupKind. destruct (find _ _) as [p|].
      * repeat case_match; intros [= <-]; done.
      * assert (isNoRows (noRows te_engine) = true) as -> by (by destruct te_engine).
        repeat case_match; intros [= <-]; done.
Qed.

Lemma flushOnce_quiet ds (w w' : W) e : flushOnce ds w = (Some e, w') -> uniform e = false.
Proof.
  unfold flushOnce. destruct (te_begin w) as [[e0|] wb] eqn:Eb; [intros [= <- _]; by eapply dq_begin|].
  destruct (writeDenials ds wb) as [[e0|] wp] eqn:Ew; [|by apply dq_commit].
  intros [= <- _]. clear Eb. revert wb Ew. induction ds as [|dn ds IH]; cbn; intros wb Ew; [discriminate|].
  destruct (WriteDenial dn wb) as [[e1|] w1] eqn:E1; [injection Ew as <- _; by eapply WriteDenial_quiet|].
  by eapply IH.
Qed.

Lemma flush_quiet ds (w w' : W) e :
  retryLoop te_engine te_wait (flushOnce ds) w = (Some e, w') -> uniform e = false.
Proof.
  intros E. apply (retryLoop_inv te_engine te_wait (fun _ => True) (fun e => uniform e = false)) in E; [|done|..|done].
  - destruct E as [(w0 & _ & Hf & _)|(e0 & last & [= <-] & Hg & Hl & _)];
      [by eapply flushOnce_quiet|by eapply gaveUp_uniform].
  - intros x e0 x' _ Hf _. split; [done|]. by eapply flushOnce_quiet.
Qed.

(** An attempt that answers a denial answered it for the closure, and its
    records are durable. *)
Lemma Attempted_uniform {T} tok (fn : WriteFn W T) d e (w' : W) : quiet fn ->
  Attempted tok fn d (inr e) w' -> uniform e = true ->
  retryable te_engine e = false /\
  exists w0 az wp, te_data w0 = d /\ fn w0 (NewTxAuthorizer NewResolver (Some tok)) = (inr e, az, wp) /\
    DenialCaptureError az = None /\ Flushed te_engine (PendingDenials az) d (te_data w').
Proof.
  intros Hfn HA Hu. remember (inr e) as r eqn:Er. destruct HA as [e0 ww D Hb|wb w0 r0 az wp r1 w1 r ww Db D0 Hf Hfin Hset].
  { injection Er as ->. destruct Hb as (w & wb & [Hb|[Hb|[k Hb]]]);
      [apply (dq_begin Hq) in Hb|apply (dq_guard Hq) in Hb|apply (dq_beginSerialized Hq) in Hb]; congruence. }
  destruct Hset as [e1 -> Hr|c Hcap|ww Hcap Hnr Hfl|fe ww Hcap _ Hfl _ _].
  - injection Er as ->. inversion Hfin as [e2 w2 D1|  |t e2 w2 Hc D1]; subst.
    + pose proof (q_retry _ Hfn _ _ _ _ _ Hf Hr). congruence.
    + apply (dq_commit Hq) in Hc. congruence.
  - injection Er as <-. pose proof (q_capture _ Hfn _ _ _ _ _ _ Hf Hcap) as Hcu. unfold uniform in *. cbn in Hu. congruence.
  - subst r1. inversion Hfin as [e2 w2 D1|  |t e2 w2 Hc D1]; subst.
    + split; [exact Hnr|]. exists w0, az, wp. split; [congruence|]. split; [done|]. split; [done|]. congruence.
    + apply (dq_commit Hq) in Hc. congruence.
  - injection Er as <-. apply flush_quiet in Hfl. unfold uniform in *. cbn in Hu. congruence.
Qed.

Lemma Attempted_retry_quiet {T} tok (fn : WriteFn W T) d e (w' : W) : quiet fn ->
  Attempted tok fn d (inr e) w' -> retryable te_engine e = true -> uniform e = false.
Proof.
  intros Hfn HA Hr. destruct (uniform e) eqn:Hu; [|done].
  eapply Attempted_uniform in HA as [Hn _]; [congruence|done..].
Qed.

(** The answered denial is the closure's own, and its records are durable on
    top of the content that attempt found. *)
Definition durableDenial {T} (fn : WriteFn W T) (e : error) (st' : Session W) : Prop :=
  exists tok w0 az wp, fn w0 (NewTxAuthorizer NewResolver (Some tok)) = (inr e, az, wp) /\
    DenialCaptureError az = None /\
    Flushed te_engine (PendingDenials az) (te_data w0) (te_data (s_world st')).

Lemma attempt_uniform {T} (fn : WriteFn W T) once st e st'
    (Honce : forall tok w r w', once tok w = (r, w') -> Attempted tok fn (te_data w) r w') :
  quiet fn -> attempt once st = (inr e, st') -> uniform e = true -> durableDenial fn e st'.
Proof.
  intros Hfn HA Hu. apply (attempt_spec fn) in HA; [|done].
  eapply Attempted_uniform in HA as (_ & w0 & az & wp & D & Hf & Hc & Hfl); [|done..].
  exists (s_next st), w0, az, wp. by rewrite D.
Qed.

Lemma WriteResult_uniform {T} (zero : T) (fn : WriteFn W T) st e st' : quiet fn ->
  WriteResult zero fn st = (inr e, st') -> uniform e = true -> durableDenial fn e st'.
Proof.
  intros Hfn E Hu. unfold WriteResult in E.
  apply (retryResult_inv te_engine s_wait (fun _ => True) (fun e => uniform e = false)) in E; [|done|..|done].
  - destruct E as [(st0 & _ & E & _)|(e0 & last & [= <-] & Hg & Hl & _)];
      [|apply gaveUp_uniform in Hg; congruence].
    eapply (attempt_uniform fn); [intros *; apply writeOnce_spec|done..].
  - intros x e0 x' _ Ea Hr. split; [done|]. apply (attempt_spec fn) in Ea; [|intros *; apply writeOnce_spec].
    by eapply Attempted_retry_quiet.
Qed.

Lemma retryLoop_uniform (fn : WriteFn W unit) once st e st'
    (Honce : forall tok w r w', once tok w = (r, w') -> Attempted tok fn (te_data w) r w') :
  quiet fn -> retryLoop te_engine s_wait (attemptErr once) st = (Some e, st') -> uniform e = true ->
  durableDenial fn e st'.
Proof.
  intros Hfn E Hu.
  apply (retryLoop_inv te_engine s_wait (fun _ => True) (fun e => uniform e = false)) in E; [|done|..|done].
  - destruct E as [(st0 & _ & E & _)|(e0 & last & [= <-] & Hg & Hl & _)];
      [|apply gaveUp_uniform in Hg; congruence].
    unfold attemptErr in E. destruct (attempt once st0) as [[|e1] st1] eqn:Ea; [discriminate|].
    injection E as -> ->. by eapply (attempt_uniform fn).
  - intros x e0 x' _ E' Hr. split; [done|]. unfold attemptErr in E'.
    destruct (attempt once x) as [[|e1] st1] eqn:Ea; [discriminate|]. injection E' as -> ->.
    apply (attempt_spec fn) in Ea; [|done]. by eapply Attempted_retry_quiet.
Qed.

Lemma serialized_spec (fn : WriteFn W unit) name tok (w : W) r w' :
  match te_engine with
  | SQLite => writeOnce tok fn
  | Postgres => writeSerializedOnce (serializationKey name) tok fn
  end w = (r, w') -> Attempted tok fn (te_data w) r w'.
Proof. destruct te_engine; [apply writeOnce_spec|apply writeSerializedOnce_spec]. Qed.
End Claims.

(** C27. A write takes effect once. When [WriteResult] answers a value, that
    value and the new durable content are those of one run of the closure from
    the content the call found, whatever earlier attempts did before they were
    rolled back. When it answers an error the content is unchanged, or only the
    denials of a refused attempt were appended to the trails, or the engine
    itself failed a commit whose outcome it does not know. The closure is one
    that leaves no record to settle when it succeeds. *)
Theorem write_exactly_once {W : Type} {HW : TxEngine W} {T : Type} (zero : T) (fn : WriteFn W T)
    (st st' : Session W) (r : T + error) :
  clean fn -> WriteResult zero fn st = (r, st') ->
  match r with
  | inl t => exists tok w0 az wp, te_data w0 = te_data (s_world st) /\
      fn w0 (NewTxAuthorizer NewResolver (Some tok)) = (inl t, az, wp) /\
      te_data (s_world st') = te_data wp
  | inr e =>
      te_data (s_world st') = te_data (s_world st) \/
      (exists tok w0 e0 az wp, te_data w0 = te_data (s_world st) /\
         fn w0 (NewTxAuthorizer NewResolver (Some tok)) = (inr e0, az, wp) /\
         Flushed te_engine (PendingDenials az) (te_data (s_world st)) (te_data (s_world st'))) \/
      (exists tok w0 t az wp wb w1, te_data w0 = te_data (s_world st) /\
         fn w0 (NewTxAuthorizer NewResolver (Some tok)) = (inl t, az, wp) /\
         te_commit wb wp = (Some e, w1) /\ te_data (s_world st') = te_data wp)
  end.
Proof. apply WriteResult_wrote. Qed.

(** A closure that bumps the restore epoch and returns the new one. *)
Definition bump (d : Durable) : Durable :=
  let db := d_db d in
  MkDurable {| orgs := orgs db; projects := projects db; environments := environments db;
               principals := principals db; grants := grants db;
               restore_epoch := (Z.add 1) <$> restore_epoch db;
               self_config_binding := self_config_binding db;
               self_config_retention := self_config_retention db; snapshots := snapshots db |}
    (d_tenantTrail d) (d_instanceTrail d).

Definition epochOf (d : Durable) : Z := default 0 (restore_epoch (d_db d)).

Definition bumpEpoch : WriteFn Scripted Z := fun w az =>
  let d := bump (sc_data w) in (inl (epochOf d), az, MkScripted d (sc_script w)).

(** The first commit is refused as busy. *)
Definition busyOnce : Session Scripted :=
  MkSession (MkScripted (MkDurable sampleDB [] []) [None; None; Some 5]) 0 [].

Lemma write_exactly_once_witness : exists st',
  WriteResult 0 bumpEpoch busyOnce = (inl 1, st') /\
  exists tok w0 az wp, sc_data w0 = MkDurable sampleDB [] [] /\
    bumpEpoch w0 (NewTxAuthorizer NewResolver (Some tok)) = (inl 1, az, wp) /\
    te_data (s_world st') = te_data wp.
Proof.
  eexists. split; [vm_compute; reflexivity|].
  refine (write_exactly_once 0 bumpEpoch busyOnce _ (inl 1) _ _).
  - intros tok w t az wp [= _ <- _]. split; reflexivity.
  - vm_compute. reflexivity.
Defined.

(** C4. No denial is answered without its record. Whenever a write, a serialized
    write or a read answers with an error that stands for a denial (not found,
    unauthorized), that error is the closure's own from its final attempt,
    nothing the attempt wanted recorded was lost, and every record it captured
    is durable in its trail, in order. A record that could not be captured or
    flushed never leads to such an answer. Assumed of the engine: its own faults
    do not carry a denial sentinel; and of the closure: neither do its retryable
    errors nor the errors of a failed capture. *)
Theorem uniform_answer_is_durable {W : Type} {HW : TxEngine W} (fn : WriteFn W unit) (name : string)
    (st st' : Session W) (e : error) :
  driverQuiet (W := W) -> quiet fn -> uniform e = true ->
  Write fn st = (Some e, st') \/ WriteSerialized name fn st = (Some e, st') \/ Read fn st = (Some e, st') ->
  exists tok w0 az wp, fn w0 (NewTxAuthorizer NewResolver (Some tok)) = (inr e, az, wp) /\
    DenialCaptureError az = None /\
    Flushed te_engine (PendingDenials az) (te_data w0) (te_data (s_world st')).
Proof.
  intros Hq Hfn Hu [E|[E|E]].
  - unfold Write in E. destruct (WriteResult () fn st) as [[u|e0] st0] eqn:Ew; [discriminate|].
    injection E as -> ->. by eapply WriteResult_uniform.
  - eapply retryLoop_uniform; [done| |done..]. intros *. apply serialized_spec.
  - eapply retryLoop_uniform; [done| |done..]. intros *. apply readOnce_spec.
Qed.

Lemma scripted_quiet : driverQuiet (W := Scripted).
Proof.
  assert (forall w e w', sc_next w = (Some e, w') -> uniform e = false) as Hn
    by (intros w e w' H; by apply sc_next_fault in H as [c ->]).
  constructor; cbn; [exact Hn|intros _; exact Hn|exact Hn|exact Hn|].
  intros b p e w'. unfold sc_commit. destruct (sc_next p) as [[e1|] w1] eqn:E; [|discriminate].
  intros [= <- _]. by eapply Hn.
Qed.

Definition sampleDenial : Denial := MkDenial TrailInstance emptyScope (with_actor (MkActor "alice" "" "") sampleDenied).

Definition refusing : WriteFn Scripted unit := fun w az => (inr ErrNotFound, set_denials [sampleDenial] az, w).

Lemma refusing_quiet : quiet refusing.
Proof.
  constructor.
  - intros tok w e az wp [= <- <- <-] Hr. discriminate Hr.
  - intros tok w r az wp c [= <- <- <-] Hc. discriminate Hc.
Qed.

(** The flush is refused as busy once before it is committed. *)
Definition busyFlush : Session Scripted :=
  MkSession (MkScripted (MkDurable sampleDB [] []) [None; None; Some 5]) 0 [].

Lemma uniform_answer_is_durable_witness : exists st' d,
  Write refusing busyFlush = (Some ErrNotFound, st') /\
  Flushed SQLite [sampleDenial] d (te_data (s_world st')) /\ length (d_instanceTrail (te_data (s_world st'))) = 1%nat.
Proof.
  assert (Write refusing busyFlush = (Some ErrNotFound, (Write refusing busyFlush).2)) as E
    by (vm_compute; reflexivity).
  destruct (uniform_answer_is_durable refusing "" busyFlush _ ErrNotFound scripted_quiet refusing_quiet eq_refl
    (or_introl E)) as (tok & w0 & az & wp & Hf & _ & Hfl).
  injection Hf as <- _. exists (Write refusing busyFlush).2, (te_data w0).
  split; [exact E|]. split; [exact Hfl|vm_compute; reflexivity].
Defined.

(** ** A refused call, from the chokepoint to the trail *)
Section Refused.
Context {W : Type} `{TxEngine W}.

(** An engine none of whose calls fails. *)
Record faultless : Prop := {
  fl_begin : forall w, (te_begin w).1 = None;
  fl_guard : forall w, (te_guard w).1 = None;
  fl_stmt : forall w, (te_stmt w).1 = None;
  fl_commit : forall b p, (te_commit b p).1 = None }.

(** The tables an attempt's resolver reads. *)
Definition envOf (w : W) : TxEnv := MkTxEnv te_engine (d_db (te_data w)) (fun _ => None).

(** The body runs under the proof; a refusal ends the call. *)
Definition under {T} (body : proof -> WriteFn W T) (w : W) (x : result proof * TxAuthorizer)
    : (T + error) * TxAuthorizer * W :=
  match x with
  | (Ok pf, az) => body pf w az
  | (Err e, az) => (inr e, az, w)
  | (Panic m, az) => (inr (ENew m), az, w)
  end.

(** A service call: authorize first, then the body under the proof. *)
Definition guarded {T} (ctx : Ctx) (apiOps : option (list ApiOperation)) (caller : Identity) (op : Operation)
    (scope : Scope) (body : proof -> WriteFn W T) : WriteFn W T :=
  fun w az => under body w (Authorize (envOf w) ctx apiOps caller op scope az).

Lemma envOf_data (w w' : W) : te_data w = te_data w' -> envOf w = envOf w'.
Proof. unfold envOf. by intros ->. Qed.

(** A write whose first attempt fails for good answers that failure. *)
Lemma Write_first (fn : WriteFn W unit) (st : Session W) e w' :
  writeOnce (s_next st) fn (s_world st) = (inr e, w') -> retryable te_engine e = false ->
  Write fn st = (Some e, MkSession w' (S (s_next st)) (s_next st :: s_dead st)).
Proof.
  intros Hw Hr. unfold Write, WriteResult, retryResult.
  rewrite (retryLoop_first _ _ _ _ (Some e) (MkSession w' (S (s_next st)) (s_next st :: s_dead st), ()));
    [reflexivity| |exact Hr].
  unfold attempt. cbn [fst]. by rewrite Hw.
Qed.

Hypothesis Hok : faultless.

Lemma step_None (f : W -> option error * W) w : (f w).1 = None -> f w = (None, (f w).2).
Proof. destruct (f w) as [o w']. by intros [= ->]. Qed.

Lemma WriteDenial_runs dn (w : W) actor :
  ResolveActorClass (lookupKind None (te_data w)) (ev_Actor (dn_Event dn)) true = Ok actor ->
  (forall now, exists row, BuildRow (with_actor actor (dn_Event dn)) (dn_Trail dn) (dn_Scope dn) now = Ok row) ->
  exists w' now row, WriteDenial dn w = (None, w') /\
    BuildRow (with_actor actor (dn_Event dn)) (dn_Trail dn) (dn_Scope dn) now = Ok row /\
    te_data w' = insertRow (dn_Trail dn) row (te_data w).
Proof.
  intros Ha Hrow. unfold WriteDenial.
  destruct (if readsKind _ then _ else _) as [f w1] eqn:E1.
  assert (f = None /\ te_data w1 = te_data w) as [-> D1].
  { destruct (readsKind _); [|by injection E1 as <- <-]. rewrite (step_None _ _ (fl_stmt Hok w)) in E1.
    injection E1 as <- <-. split; [done|apply te_stmt_data]. }
  rewrite D1, Ha. destruct (Hrow (recordedAt w1)) as [row Hb]. rewrite Hb.
  rewrite (step_None _ _ (fl_stmt Hok w1)). do 3 eexists. split; [reflexivity|]. split; [exact Hb|].
  by rewrite te_set_data, te_stmt_data, D1.
Qed.

Lemma flush_runs dn (w : W) actor :
  ResolveActorClass (lookupKind None (te_data w)) (ev_Actor (dn_Event dn)) true = Ok actor ->
  (forall now, exists row, BuildRow (with_actor actor (dn_Event dn)) (dn_Trail dn) (dn_Scope dn) now = Ok row) ->
  exists w' now row, retryLoop te_engine te_wait (flushOnce [dn]) w = (None, w') /\
    BuildRow (with_actor actor (dn_Event dn)) (dn_Trail dn) (dn_Scope dn) now = Ok row /\
    te_data w' = insertRow (dn_Trail dn) row (te_data w).
Proof.
  intros Ha Hrow.
  destruct (WriteDenial_runs dn (te_begin w).2 actor) as (wp & now & row & Hwd & Hb & D);
    [by rewrite te_begin_data|done|].
  pose proof (fl_commit Hok (te_begin w).2 wp) as Hc.
  destruct (te_commit (te_begin w).2 wp) as [o w'] eqn:Ec. cbn in Hc. subst o.
  exists w', now, row. split; [|split; [done|by rewrite (te_commit_Ok _ _ _ Ec), D, te_begin_data]].
  apply retryLoop_first; [|done]. unfold flushOnce. rewrite (step_None _ _ (fl_begin Hok w)).
  cbn [writeDenials]. by rewrite Hwd.
Qed.

(** The actor of a denial resolves when its principal is stored with a known kind. *)
Lemma stored_actor (d : Durable) principal p :
  principal <> "" -> find (fun r => pr_id r =s principal) (principals (d_db d)) = Some p ->
  pr_kind p = "human" \/ pr_kind p = "machine" ->
  exists actor, ResolveActorClass (lookupKind None d) (MkActor principal "" "") true = Ok actor /\
    actor_ID actor = principal.
Proof.
  intros Hne Hf Hk. unfold ResolveActorClass, lookupKind. cbn [actor_ID actor_Class actor_CredentialID].
  rewrite Hf. apply String.eqb_neq in Hne as ->. destruct Hk as [-> | ->]; cbn; by eexists.
Qed.

Lemma writeOnce_denied {T} tok (fn : WriteFn W T) (w : W) e az dn actor :
  (forall w', te_data w' = te_data w -> exists wp, fn w' (NewTxAuthorizer NewResolver (Some tok)) = (inr e, az, wp)) ->
  retryable te_engine e = false -> az_captureErr az = None -> az_denials az = [dn] ->
  ResolveActorClass (lookupKind None (te_data w)) (ev_Actor (dn_Event dn)) true = Ok actor ->
  (forall now, exists row, BuildRow (with_actor actor (dn_Event dn)) (dn_Trail dn) (dn_Scope dn) now = Ok row) ->
  exists w' now row, writeOnce tok fn w = (inr e, w') /\
    BuildRow (with_actor actor (dn_Event dn)) (dn_Trail dn) (dn_Scope dn) now = Ok row /\
    te_data w' = insertRow (dn_Trail dn) row (te_data w).
Proof.
  intros Hfn Hr Hc Hd Ha Hrow. unfold writeOnce. rewrite (step_None _ _ (fl_begin Hok w)).
  unfold begun, runTransaction. set (wb := (te_begin w).2). rewrite (step_None _ _ (fl_guard Hok wb)).
  destruct (Hfn (te_guard wb).2) as [wp Hf]; [by rewrite te_guard_data; apply te_begin_data|].
  rewrite Hf. cbn [finish]. unfold settled, settleDenials, settleDenialResult, DenialCaptureError, PendingDenials.
  cbn [errOf]. rewrite Hr, Hc, Hd.
  destruct (flush_runs dn (te_rollback wb wp) actor) as (w' & now & row & Hfl & Hb & D);
    [by rewrite te_rollback_data; unfold wb; rewrite te_begin_data|done|].
  rewrite Hfl. exists w', now, row. split; [done|]. split; [done|]. rewrite D, te_rollback_data.
  unfold wb. by rewrite te_begin_data.
Qed.
End Refused.

(** C32. A refused call ends in its answer and its record. On an engine that does
    not fail, a write whose closure authorizes first and is refused with
    not-found or unauthorized does answer exactly that error - it neither loops
    nor turns into an internal failure - and leaves exactly one more row in the
    durable content: a denial naming the caller, filed where the denial belongs.
    The body of the write never runs. *)
Theorem denied_write_is_answered_and_recorded {W : Type} {HW : TxEngine W} (ctx : Ctx)
    (apiOps : option (list ApiOperation)) (caller : Identity) (op : Operation) (scope : Scope)
    (body : proof -> WriteFn W unit) (st : Session W) (e : error) (az : TxAuthorizer) (p : PrincipalRow) :
  faultless (W := W) -> ids_no_panic ctx -> wiredContext ctx -> id_Principal caller <> "" ->
  find (fun r => pr_id r =s id_Principal caller) (principals (d_db (te_data (s_world st)))) = Some p ->
  pr_kind p = "human" \/ pr_kind p = "machine" ->
  Authorize (envOf (s_world st)) ctx apiOps caller op scope (NewTxAuthorizer NewResolver (Some (s_next st)))
    = (Err e, az) ->
  e = ErrNotFound \/ e = ErrUnauthorized -> az_captureErr az = None ->
  exists st' dn row, Write (guarded ctx apiOps caller op scope body) st = (Some e, st') /\
    az_denials az = [dn] /\ row_Type row = EventGrantDenied /\ row_ActorID row = Some (id_Principal caller) /\
    te_data (s_world st') = insertRow (dn_Trail dn) row (te_data (s_world st)).
Proof.
  intros Hok Hids Hctx Hp Hfind Hkind HA He Hc.
  assert (uniform e = true /\ retryable te_engine e = false) as [Hu Hr].
  { destruct He as [-> | ->]; (split; [reflexivity|]); unfold retryable; cbn; by destruct te_engine. }
  destruct (Authorize_Err (envOf (s_world st)) ctx apiOps ltac:(intros n x Hx; discriminate Hx) Hids
    caller op scope _ e az HA Hu) as [(dn & Hden & Hfor)|Hbad]; [|rewrite Hc in Hbad; exact (False_ind _ (Hbad eq_refl))].
  cbn [az_denials NewTxAuthorizer app] in Hden.
  pose proof Hfor as [(n & id & obj & spec & resolution & claimed & _ & _ & Hev) _].
  destruct (stored_actor (te_data (s_world st)) (id_Principal caller) p Hp Hfind Hkind) as (actor & Ha & Hid).
  assert (forall w1, te_data w1 = te_data (s_world st) -> exists wp,
    guarded ctx apiOps caller op scope body w1 (NewTxAuthorizer NewResolver (Some (s_next st))) = (inr e, az, wp)) as Hfn.
  { intros w1 Hw1. exists w1. unfold guarded. rewrite (envOf_data w1 (s_world st) Hw1), HA. reflexivity. }
  assert (ResolveActorClass (lookupKind None (te_data (s_world st))) (ev_Actor (dn_Event dn)) true = Ok actor) as Ha'.
  { rewrite Hev. exact Ha. }
  assert (forall now, exists row, BuildRow (with_actor actor (dn_Event dn)) (dn_Trail dn) (dn_Scope dn) now = Ok row)
    as Hrow.
  { intros now. exact (denialFor_row ctx _ op dn _ actor now Hctx Hfor Ha'). }
  clear HA.
  pose proof (writeOnce_denied Hok (s_next st) (guarded ctx apiOps caller op scope body) (s_world st) e az dn actor
    Hfn Hr Hc Hden Ha' Hrow) as (w' & now & row & Hw & Hb & D).
  exists (MkSession w' (S (s_next st)) (s_next st :: s_dead st)), dn, row.
  split; [|split; [exact Hden|]].
  - exact (Write_first _ st e w' Hw Hr).
  - rewrite Hev in Hb. unfold BuildRow in Hb. apply bind_Ok in Hb as ([] & _ & Hb).
    apply bind_Ok in Hb as (cls & _ & [= <-]). split; [reflexivity|]. split; [|exact D].
    cbn [row_ActorID with_actor ev_Actor]. rewrite Hid. unfold optional.
    apply String.eqb_neq in Hp. rewrite Hp. reflexivity.
Qed.

(** The engine that never fails: its world is the content itself. *)
Definition calm_commit (b p : Durable) : option error * Durable := (None, p).

Lemma calm_commit_Ok b p w : calm_commit b p = (None, w) -> w = p.
Proof. by intros [= <-]. Qed.

#[export] Instance CalmEngine : TxEngine Durable := {|
  te_engine := SQLite; te_data d := d; te_set d _ := d;
  te_begin w := (None, w); te_beginSerialized _ w := (None, w); te_guard w := (None, w); te_stmt w := (None, w);
  te_commit := calm_commit; te_rollback b _ := b; te_wait w := (false, w); te_now _ := 1000;
  te_set_data _ _ := eq_refl; te_begin_data _ := eq_refl; te_beginSerialized_data _ _ := eq_refl;
  te_guard_data _ := eq_refl; te_stmt_data _ := eq_refl;
  te_stmt_fault w e w' H := match H in _ = (o, _) return match o with Some _ => isNoRows e = false | None => True end
                            with eq_refl => I end;
  te_wait_data _ := eq_refl; te_rollback_data _ _ := eq_refl;
  te_commit_Ok := calm_commit_Ok;
  te_commit_atomic b p e w H := match H in _ = (o, _) return match o with Some _ => w = b \/ w = p | None => True end
                                with eq_refl => I end;
  te_commit_abort b p e w H _ := match H in _ = (o, _) return match o with Some _ => w = b | None => True end
                                 with eq_refl => I end |}.

Lemma calm_faultless : faultless (W := Durable).
Proof. constructor; reflexivity. Qed.

Definition calmSession : Session Durable := MkSession (MkDurable sampleDB [] []) 7 [].

Lemma calm_env : envOf (s_world calmSession) = sampleTx.
Proof. reflexivity. Qed.

Lemma weak_denied :
  match run aliceWeak OpValueReveal scopeE1 with
  | (Err (ESentinel n), a') => (n =s nameErrUnauthorized) && match az_captureErr a' with None => true | Some _ => false end
  | _ => false
  end = true.
Proof. vm_compute. reflexivity. Qed.

Definition noBody : proof -> WriteFn Durable unit := fun _ w az => (inl (), az, w).

Lemma denied_write_is_answered_and_recorded_witness :
  exists st' row,
    Write (guarded sampleCtx None aliceWeak OpValueReveal scopeE1 noBody) calmSession = (Some ErrUnauthorized, st') /\
    row_Type row = EventGrantDenied /\ row_ActorID row = Some "alice".
Proof.
  pose proof weak_denied as Hr. destruct (run aliceWeak OpValueReveal scopeE1) as [[|e|] a'] eqn:E;
    [discriminate Hr| |discriminate Hr].
  destruct e as [n| | | | |]; try discriminate Hr. apply andb_prop in Hr as [Hn Hc].
  apply String.eqb_eq in Hn. subst n. destruct (az_captureErr a') eqn:Ec; [discriminate Hc|].
  destruct (denied_write_is_answered_and_recorded sampleCtx None aliceWeak OpValueReveal scopeE1 noBody calmSession
    ErrUnauthorized a' (MkPrincipalRow "alice" "human" None "active" 0)
    calm_faultless sample_ids sampleCtx_wired ltac:(discriminate) eq_refl (or_introl eq_refl) E
    (or_intror eq_refl) Ec) as (st' & dn & row & H1 & _ & H2 & H3 & _).
  exists st', row. split; [exact H1|]. split; [exact H2|exact H3].
Defined.

(** ** The life of a token *)
Section Tokens.
Context {W : Type} `{TxEngine W}.

(** Every token issued since [n] was invalidated. *)
Definition ended (n : nat) (st : Session W) : Prop :=
  (n <= s_next st)%nat /\ forall t, (n <= t < s_next st)%nat -> In t (s_dead st).

Lemma ended_wait n st : ended n st -> ended n (s_wait st).2.
Proof. unfold s_wait, ended. destruct (te_wait (s_world st)). done. Qed.

Lemma ended_attempt {T} n once (st : Session W) (r : T + error) st' :
  ended n st -> attempt once st = (r, st') -> ended n st' /\ (n < s_next st')%nat.
Proof.
  unfold attempt, ended. destruct (once _ _) as [r0 w0]. intros [Hle Hd] [= _ <-]. cbn. split; [|lia].
  split; [lia|]. intros t Ht. destruct (Nat.eq_dec t (s_next st)) as [->|]; [by left|]. right. apply Hd. lia.
Qed.

Lemma WriteResult_ended {T} (zero : T) (fn : WriteFn W T) st r st' :
  WriteResult zero fn st = (r, st') -> ended (s_next st) st'.
Proof.
  intros E. unfold WriteResult in E.
  apply (retryResult_inv te_engine s_wait (ended (s_next st)) (fun _ => True)) in E.
  - destruct E as [(st0 & H0 & E & _)|(e & last & -> & _ & _ & D)]; [|done].
    by apply (ended_attempt (s_next st)) in E as [? _].
  - apply ended_wait.
  - intros x e x' Hx Ea _. by apply (ended_attempt (s_next st)) in Ea as [? _].
  - split; [lia|]. intros t Ht. lia.
Qed.
End Tokens.

(** A proof dies with its attempt. After a write returns, whatever it
    answered and however many attempts it took, no store operation accepts any
    proof under any token handed to any of those attempts; and the token an
    attempt is handed was never invalidated before. *)
Theorem proofs_die_with_their_attempt {W : Type} {HW : TxEngine W} {T : Type} (zero : T) (fn : WriteFn W T)
    (st st' : Session W) (r : T + error) :
  (forall t, In t (s_dead st) -> (t < s_next st)%nat) -> WriteResult zero fn st = (r, st') ->
  ~ In (s_next st) (s_dead st) /\
  forall t p op, (s_next st <= t < s_next st')%nat -> is_ok (Verify (s_dead st') p op (Some t)) = false.
Proof.
  intros Hfresh E. split; [intros Hin; apply Hfresh in Hin; lia|].
  apply WriteResult_ended in E as [_ Hd]. intros t p op Ht.
  destruct (Verify (s_dead st') p op (Some t)) as [s| |] eqn:Ev; [|reflexivity..]. exfalso.
  apply Verify_Ok in Ev as (c & t' & _ & [= <-] & _ & Hn & _). by apply Hn, Hd.
Qed.

Lemma proofs_die_with_their_attempt_witness : exists st',
  WriteResult 0 bumpEpoch busyOnce = (inl 1, st') /\ s_next st' = 2%nat /\
  forall p op, is_ok (Verify (s_dead st') p op (Some 0%nat)) = false /\
               is_ok (Verify (s_dead st') p op (Some 1%nat)) = false.
Proof.
  assert (WriteResult 0 bumpEpoch busyOnce = (inl 1, (WriteResult 0 bumpEpoch busyOnce).2)) as E
    by (vm_compute; reflexivity).
  assert (s_next (WriteResult 0 bumpEpoch busyOnce).2 = 2%nat) as N by (vm_compute; reflexivity).
  exists (WriteResult 0 bumpEpoch busyOnce).2. split; [exact E|]. split; [exact N|]. intros p op.
  destruct (proofs_die_with_their_attempt 0 bumpEpoch busyOnce _ _ ltac:(intros t []) E) as [_ H].
  rewrite N in H. cbn in H. split; apply H; lia.
Defined.

(** ** A committed closure can run again *)
Section Rerun.
Context {W : Type} `{TxEngine W} {T : Type} (fn : WriteFn W T).

(** One attempt from [w] under [tok] whose closure succeeded and was committed
    with the effects [wp], leaving captured records that the flush, its own
    retries included, failed to write with a retryable error. *)
Record unflushed (tok : TxToken) (w wp w2 : W) (e : error) : Prop := {
  uf_begun : exists wb wg t az w1, te_begin w = (None, wb) /\ te_guard wb = (None, wg) /\
    fn wg (NewTxAuthorizer NewResolver (Some tok)) = (inl t, az, wp) /\ te_commit wb wp = (None, w1) /\
    DenialCaptureError az = None /\ PendingDenials az <> [] /\
    retryLoop te_engine te_wait (flushOnce (PendingDenials az)) w1 = (Some e, w2);
  uf_retryable : retryable te_engine e = true }.

Lemma retryable_refusing e : retryable te_engine (refusingToAnswer e) = retryable te_engine e.
Proof. reflexivity. Qed.

Lemma unflushed_attempt tok w wp w2 e : unflushed tok w wp w2 e ->
  writeOnce tok fn w = (inr (refusingToAnswer e), w2) /\ te_data w2 = te_data wp.
Proof.
  intros [(wb & wg & t & az & w1 & Eb & Eg & Ef & Ec & Hcap & Hds & Efl) Hr]. split.
  - unfold writeOnce, begun, runTransaction, settled, settleDenials, settleDenialResult, finish. rewrite Eb, Eg, Ef, Ec. cbn [errOf].
    rewrite Hcap. destruct (PendingDenials az) as [|dn ds]; [done|]. by rewrite Efl.
  - apply flush_spec in Efl as (_ & _ & Hd). rewrite (Hd Hr). by apply te_commit_Ok in Ec.
Qed.
End Rerun.

(** C40. The retry loop does not confine itself to transactions that were rolled
    back. For any engine and any closure: when the first attempt's closure
    succeeds and is committed and leaves captured records, and the flush of those
    records fails after its own retries with a retryable error (and the deadline
    has not passed), the call runs the closure again on the data the first run
    committed; if that second attempt succeeds, the call answers success with the
    second result, and its effects stand on top of the first's. *)
Theorem committed_closure_reruns {W : Type} {HW : TxEngine W} {T : Type} (zero : T) (fn : WriteFn W T) (st : Session W)
    (wp w2 w3 : W) (e : error) :
  unflushed fn (s_next st) (s_world st) wp w2 e -> te_wait w2 = (false, w3) ->
  te_data w3 = te_data wp /\
  forall t w4, writeOnce (S (s_next st)) fn w3 = (inl t, w4) ->
    WriteResult zero fn st = (inl t, MkSession w4 (S (S (s_next st))) (S (s_next st) :: s_next st :: s_dead st)).
Proof.
  intros Hu Hw. pose proof Hu as [E D]%unflushed_attempt. pose proof (te_wait_data w2) as Dw. rewrite Hw in Dw. cbn in Dw.
  split; [congruence|]. intros t w4 E2. unfold WriteResult, retryResult, retryLoop, attempts. cbn [length backoff Nat.add retryLoop_from Nat.eqb fst snd].
  unfold attempt at 1. cbn [fst snd]. rewrite E. rewrite retryable_refusing, (uf_retryable _ _ _ _ _ _ Hu). cbn [negb].
  unfold s_wait at 1. cbn [s_world s_next s_dead fst snd]. rewrite Hw. unfold attempt at 1. cbn [s_world s_next s_dead fst snd]. rewrite E2. reflexivity.
Qed.

(** A closure that bumps the epoch and, like the reveal gate, leaves a record of
    its success to be flushed after the commit. *)
Definition bumpAndRecord : WriteFn Scripted Z := fun w az =>
  let d := bump (sc_data w) in
  (inl (epochOf d), set_denials [sampleDenial] az, MkScripted d (sc_script w)).

(** Begin, guard and commit succeed; the flush's four attempts find the
    database busy; then nothing fails. *)
Definition busyFlushes : Session Scripted :=
  MkSession (MkScripted (MkDurable sampleDB [] []) [None; None; None; Some 5; Some 5; Some 5; Some 5]) 0 [].

Lemma committed_closure_reruns_witness :
  restore_epoch sampleDB = Some 0 /\
  exists st', WriteResult 0 bumpAndRecord busyFlushes = (inl 2, st') /\ restore_epoch (d_db (te_data (s_world st'))) = Some 2.
Proof.
  set (tok := Some 0%nat). set (az := set_denials [sampleDenial] (NewTxAuthorizer NewResolver tok)).
  set (flushed := retryLoop te_engine te_wait (flushOnce [sampleDenial])
    (MkScripted (bump (MkDurable sampleDB [] [])) [Some 5; Some 5; Some 5; Some 5])).
  split; [vm_compute; reflexivity|].
  assert (unflushed bumpAndRecord 0%nat (s_world busyFlushes) (MkScripted (bump (MkDurable sampleDB [] [])) [None; Some 5; Some 5; Some 5; Some 5])
    flushed.2 (default (EJoin []) flushed.1)) as Hu.
  { split; [|vm_compute; reflexivity]. eexists _, _, _, az, _. split_and!; [reflexivity|reflexivity|reflexivity|reflexivity|reflexivity|discriminate|].
    vm_compute. reflexivity. }
  destruct (committed_closure_reruns 0 bumpAndRecord busyFlushes _ _ _ _ Hu ltac:(vm_compute; reflexivity)) as [_ Hrun].
  eexists. split; [apply Hrun; vm_compute; reflexivity|vm_compute; reflexivity].
Defined.

(** ** Reads *)
Section Reads.
Context {W : Type} `{TxEngine W}.

(** The repositories handed to a read only read. *)
Definition readOnly (fn : WriteFn W unit) : Prop :=
  forall w az r az' wp, fn w az = (r, az', wp) -> te_data wp = te_data w.

Lemma Finished_readOnly {T} (wb wp : W) (r0 r1 : T + error) w1 d :
  te_data wb = d -> te_data wp = d -> Finished wb wp r0 r1 w1 -> te_data w1 = d.
Proof. intros Hb Hp [e w D|t w D|t e w _ D _]; [congruence..|]. destruct D; congruence. Qed.

Lemma Attempted_readOnly tok (fn : WriteFn W unit) d r (w' : W) : readOnly fn -> Attempted tok fn d r w' ->
  (exists ds, Flushed te_engine ds d (te_data w')) /\
  (from_option (retryable te_engine) false (errOf r) = true -> te_data w' = d).
Proof.
  intros Hro [e w1 D _|wb w0 r0 az wp r1 w1 rr ww Db D0 Hf Hfin Hset].
  { rewrite D. split; [exists []; constructor|done]. }
  apply Hro in Hf. rewrite D0 in Hf. pose proof (Finished_readOnly _ _ _ _ _ _ Db Hf Hfin) as D1.
  destruct Hset as [e Hr1 _|c Hcap|ww Hcap Hnr Hfl|fe ww Hcap _ _ Hfl Hr]; rewrite ?D1 in *.
  - split; [exists []; constructor|done].
  - split; [exists []; constructor|done].
  - split; [eauto|]. rewrite Hnr. discriminate.
  - split; [|exact Hr]. destruct Hfl as [->|Hfl]; [exists []; constructor|eauto].
Qed.
End Reads.

(** A read leaves the tables alone: whatever its closure answers and however
    its attempts fail, the only durable effect of [Read] is that denials were
    appended to the audit trails. *)
Theorem read_only_appends_denials {W : Type} {HW : TxEngine W} (fn : WriteFn W unit) (st st' : Session W)
    (r : option error) :
  readOnly fn -> Read fn st = (r, st') ->
  d_db (te_data (s_world st')) = d_db (te_data (s_world st)) /\
  exists ds, Flushed te_engine ds (te_data (s_world st)) (te_data (s_world st')).
Proof.
  intros Hro E. set (d := te_data (s_world st)).
  assert (exists ds, Flushed te_engine ds d (te_data (s_world st'))) as [ds Hds].
  { unfold Read in E.
    apply (retryLoop_inv te_engine s_wait (fun x => te_data (s_world x) = d) (fun _ => True)) in E; [|..|done].
    - destruct E as [(st0 & D0 & Ea & _)|(e & last & _ & _ & _ & D)]; [|rewrite D; exists []; constructor].
      unfold attemptErr in Ea. destruct (attempt _ st0) as [r0 st1] eqn:Eat. injection Ea as _ <-.
      apply (attempt_spec fn) in Eat; [|intros *; apply readOnce_spec]. rewrite D0 in Eat.
      by apply Attempted_readOnly in Eat as [? _].
    - intros x Hx. by rewrite s_wait_data.
    - intros x e x' Hx Ea Hr. split; [|done]. unfold attemptErr in Ea.
      destruct (attempt _ x) as [r0 st1] eqn:Eat. injection Ea as Hr0 <-.
      apply (attempt_spec fn) in Eat; [|intros *; apply readOnce_spec]. rewrite Hx in Eat.
      apply Attempted_readOnly in Eat as [_ Heq]; [|done]. apply Heq. by rewrite Hr0. }
  split; [by eapply Flushed_db|eauto].
Qed.

Lemma read_only_appends_denials_witness : exists st',
  Read refusing busyFlush = (Some ErrNotFound, st') /\
  d_db (te_data (s_world st')) = sampleDB /\ length (d_instanceTrail (te_data (s_world st'))) = 1%nat.
Proof.
  assert (Read refusing busyFlush = (Some ErrNotFound, (Read refusing busyFlush).2)) as E
    by (vm_compute; reflexivity).
  exists (Read refusing busyFlush).2. split; [exact E|]. split; [|vm_compute; reflexivity].
  refine (proj1 (read_only_appends_denials refusing busyFlush _ _ _ E)).
  intros w az r az' wp [= _ _ <-]. reflexivity.
Defined.
