(* ===== verification/GoStrings.v ===== *)
(** * The [strings] functions the text formats use

    Byte-level models of the [strings] package where the parsers and printers
    of the program rely on it: trimming by cutset and by Unicode white space,
    splitting, cutting, and prefix tests. *)

From S2P Require Import Prelude Utf8.
From Stdlib Require Import Ascii.

#[local] Open Scope Z_scope.

Definition TAB : ascii := chr 9.
Definition LF : ascii := chr 10.
Definition CR : ascii := chr 13.
Definition SP : ascii := chr 32.
Definition DQ : ascii := chr 34.
Definition SQ : ascii := chr 39.
Definition HASH : ascii := chr 35.
Definition EQ : ascii := chr 61.
Definition BSL : ascii := chr 92.

(** The cutset [" \t"]. *)
Definition blank (c : ascii) : bool := Ascii.eqb c SP || Ascii.eqb c TAB.

(** [strings.TrimLeft] and [strings.TrimRight] with a cutset of ASCII bytes. *)
Fixpoint TrimLeft (cut : ascii -> bool) (s : bytes) : bytes :=
  match s with
  | c :: s' => if cut c then TrimLeft cut s' else s
  | [] => []
  end.

Definition TrimRight (cut : ascii -> bool) (s : bytes) : bytes := rev (TrimLeft cut (rev s)).

(** [strings.Split] by one byte. *)
Fixpoint Split (sep : ascii) (s : bytes) : list bytes :=
  match s with
  | [] => [[]]
  | c :: s' =>
      if Ascii.eqb c sep then [] :: Split sep s'
      else match Split sep s' with
           | l :: ls => (c :: l) :: ls
           | [] => [[c]]
           end
  end.

(** [strings.Cut] at one byte: before, after, found. *)
Fixpoint Cut (sep : ascii) (s : bytes) : option (bytes * bytes) :=
  match s with
  | [] => None
  | c :: s' =>
      if Ascii.eqb c sep then Some ([], s')
      else match Cut sep s' with
           | Some (a, b) => Some (c :: a, b)
           | None => None
           end
  end.

Fixpoint CutPrefix (p s : bytes) : option bytes :=
  match p, s with
  | [], _ => Some s
  | c :: p', d :: s' => if Ascii.eqb c d then CutPrefix p' s' else None
  | _ :: _, [] => None
  end.

Definition hasByte (c : ascii) (s : bytes) : bool := existsb (Ascii.eqb c) s.

(** ** White space *)

(** [unicode.IsSpace]. *)
Definition IsSpace (r : Z) : bool :=
  ((9 <=? r) && (r <=? 13)) || (r =? 32) || (r =? 133) || (r =? 160) || (r =? 5760) ||
  ((8192 <=? r) && (r <=? 8202)) || (r =? 8232) || (r =? 8233) || (r =? 8239) || (r =? 8287) ||
  (r =? 12288).

Fixpoint TrimLeftSpace (skip : nat) (s : bytes) : bytes :=
  match s with
  | [] => []
  | _ :: s' =>
      match skip with
      | S k => TrimLeftSpace k s'
      | O => let '(r, w) := DecodeRune s in if IsSpace r then TrimLeftSpace (pred w) s' else s
      end
  end.

(** [utf8.DecodeLastRuneInString], on the reversed string: the rune that ends
    the string starts at the nearest of the three preceding bytes that can
    start one. *)
Definition lastIs (w : bytes) : Z * nat :=
  let '(r, n) := DecodeRune w in if (n =? length w)%nat then (r, n) else (RuneError, 1%nat).

Definition DecodeLastRune (rs : bytes) : Z * nat :=
  match rs with
  | [] => (RuneError, 0%nat)
  | c0 :: t0 =>
      if ord c0 <? 128 then (ord c0, 1%nat)
      else match t0 with
      | [] => (RuneError, 1%nat)
      | c1 :: t1 =>
          if RuneStart c1 then lastIs [c1; c0]
          else match t1 with
          | [] => (RuneError, 1%nat)
          | c2 :: t2 =>
              if RuneStart c2 then lastIs [c2; c1; c0]
              else match t2 with
              | [] => (RuneError, 1%nat)
              | c3 :: _ => if RuneStart c3 then lastIs [c3; c2; c1; c0] else (RuneError, 1%nat)
              end
          end
      end
  end.

Fixpoint TrimRightSpace (skip : nat) (rs : bytes) : bytes :=
  match rs with
  | [] => []
  | _ :: rs' =>
      match skip with
      | S k => TrimRightSpace k rs'
      | O => let '(r, w) := DecodeLastRune rs in if IsSpace r then TrimRightSpace (pred w) rs' else rs
      end
  end.

Definition TrimSpace (s : bytes) : bytes := rev (TrimRightSpace 0 (rev (TrimLeftSpace 0 s))).

Example TrimSpace_nbsp : TrimSpace (map chr [194; 160; 65; 32; 66; 226; 128; 137; 9]) = map chr [65; 32; 66].
Proof. vm_compute. reflexivity. Qed.

(** ** Lemmas *)
Lemma TrimLeft_stop cut c s : cut c = false -> TrimLeft cut (c :: s) = c :: s.
Proof. intros H. cbn. by rewrite H. Qed.

Lemma TrimRight_stop cut s c : cut c = false -> TrimRight cut (s ++ [c]) = s ++ [c].
Proof. intros H. unfold TrimRight. rewrite rev_app_distr. cbn. rewrite H. cbn. by rewrite rev_involutive. Qed.

Lemma Split_line sep l s : hasByte sep l = false -> Split sep (l ++ sep :: s) = l :: Split sep s.
Proof.
  induction l as [|c l IH]; cbn.
  - by rewrite Ascii.eqb_refl.
  - intros [Hc Hl]%orb_false_elim. rewrite IH by done. rewrite Ascii.eqb_sym in Hc. by rewrite Hc.
Qed.

Lemma Cut_at sep a b : hasByte sep a = false -> Cut sep (a ++ sep :: b) = Some (a, b).
Proof.
  induction a as [|c a IH]; cbn.
  - by rewrite Ascii.eqb_refl.
  - intros [Hc Hl]%orb_false_elim. rewrite IH by done. rewrite Ascii.eqb_sym in Hc. by rewrite Hc.
Qed.

Lemma hasByte_app c a b : hasByte c (a ++ b) = hasByte c a || hasByte c b.
Proof. apply existsb_app. Qed.

Lemma hasByte_false c s : hasByte c s = false <-> Forall (fun d => d <> c) s.
Proof.
  unfold hasByte. induction s as [|d s IH]; cbn; [split; [constructor|done]|].
  rewrite Forall_cons, orb_false_iff, IH, Ascii.eqb_neq. naive_solver.
Qed.

(** A string equal to its own trimming neither starts nor ends with ASCII space. *)
Lemma TrimLeftSpace_length s : forall k, (length (TrimLeftSpace k s) <= length s)%nat.
Proof.
  induction s as [|c s IH]; intros k; [done|]. cbn -[DecodeRune].
  destruct k as [|k]; [|specialize (IH k); lia].
  destruct (DecodeRune (c :: s)) as [r w]. destruct (IsSpace r); [specialize (IH (pred w)); lia|cbn; lia].
Qed.

Lemma TrimRightSpace_length s : forall k, (length (TrimRightSpace k s) <= length s)%nat.
Proof.
  induction s as [|c s IH]; intros k; [done|]. cbn -[DecodeLastRune].
  destruct k as [|k]; [|specialize (IH k); lia].
  destruct (DecodeLastRune (c :: s)) as [r w]. destruct (IsSpace r); [specialize (IH (pred w)); lia|cbn; lia].
Qed.

Lemma TrimLeftSpace_suffix s : forall k, exists p, s = p ++ TrimLeftSpace k s.
Proof.
  induction s as [|c s IH]; intros k; [by exists []|]. cbn -[DecodeRune]. destruct k as [|k].
  - destruct (DecodeRune (c :: s)) as [r w]. destruct (IsSpace r); [|by exists []].
    destruct (IH (pred w)) as [p Hp]. exists (c :: p). cbn. by rewrite <- Hp.
  - destruct (IH k) as [p Hp]. exists (c :: p). cbn. by rewrite <- Hp.
Qed.

Lemma TrimSpace_fixed_start c s : TrimSpace (c :: s) = c :: s -> ord c < 128 -> IsSpace (ord c) = false.
Proof.
  intros H Hc. destruct (IsSpace (ord c)) eqn:E; [|done]. exfalso.
  apply (f_equal length) in H. unfold TrimSpace in H. rewrite length_rev in H.
  pose proof (TrimRightSpace_length (rev (TrimLeftSpace 0 (c :: s))) 0) as Hr. rewrite length_rev in Hr.
  revert H Hr. cbn -[IsSpace]. rewrite (proj2 (Z.ltb_lt _ _) Hc). cbn -[IsSpace]. rewrite E.
  pose proof (TrimLeftSpace_length s 0). cbn. lia.
Qed.

Lemma TrimSpace_fixed_end s c : TrimSpace (s ++ [c]) = s ++ [c] -> ord c < 128 -> IsSpace (ord c) = false.
Proof.
  intros H Hc. destruct (IsSpace (ord c)) eqn:E; [|done]. exfalso.
  assert (TrimLeftSpace 0 (s ++ [c]) = s ++ [c]) as Hl.
  { pose proof (TrimLeftSpace_suffix (s ++ [c]) 0) as [p Hp]. apply (f_equal length) in H as HL.
    unfold TrimSpace in HL. rewrite length_rev in HL.
    pose proof (TrimRightSpace_length (rev (TrimLeftSpace 0 (s ++ [c]))) 0) as Hr. rewrite length_rev in Hr.
    apply (f_equal length) in Hp as HpL. rewrite (length_app p) in HpL.
    destruct p; [symmetry; exact Hp|cbn in HpL; lia]. }
  unfold TrimSpace in H. rewrite Hl, rev_app_distr in H. apply (f_equal length) in H. rewrite length_rev in H.
  revert H. cbn -[IsSpace]. rewrite (proj2 (Z.ltb_lt _ _) Hc). cbn -[IsSpace]. rewrite E. cbn.
  pose proof (TrimRightSpace_length (rev s) 0) as Hr. rewrite length_rev in Hr. rewrite length_app. cbn. lia.
Qed.

(** ** Trimming is idempotent *)
Lemma TrimLeftSpace_stops s : forall k, TrimLeftSpace k s = [] \/ IsSpace (DecodeRune (TrimLeftSpace k s)).1 = false.
Proof.
  induction s as [|c s IH]; intros k; [by left|]. cbn -[DecodeRune IsSpace]. destruct k as [|k]; [|apply IH].
  destruct (DecodeRune (c :: s)) as [r w] eqn:Hd. destruct (IsSpace r) eqn:Hs; [apply IH|]. right. by rewrite Hd.
Qed.

Lemma TrimRightSpace_stops s : forall k, TrimRightSpace k s = [] \/ IsSpace (DecodeLastRune (TrimRightSpace k s)).1 = false.
Proof.
  induction s as [|c s IH]; intros k; [by left|]. cbn -[DecodeLastRune IsSpace]. destruct k as [|k]; [|apply IH].
  destruct (DecodeLastRune (c :: s)) as [r w] eqn:Hd. destruct (IsSpace r) eqn:Hs; [apply IH|]. right. by rewrite Hd.
Qed.

Lemma TrimRightSpace_suffix s : forall k, exists p, s = p ++ TrimRightSpace k s.
Proof.
  induction s as [|c s IH]; intros k; [by exists []|]. cbn -[DecodeLastRune]. destruct k as [|k].
  - destruct (DecodeLastRune (c :: s)) as [r w]. destruct (IsSpace r); [|by exists []].
    destruct (IH (pred w)) as [p Hp]. exists (c :: p). cbn. by rewrite <- Hp.
  - destruct (IH k) as [p Hp]. exists (c :: p). cbn. by rewrite <- Hp.
Qed.

(** A prefix starts with the rune of the whole, or with a broken one. *)
Lemma DecodeRune_prefix s q : s <> [] -> DecodeRune s = DecodeRune (s ++ q) \/ (DecodeRune s).1 = RuneError.
Proof.
  intros Hne. destruct s as [|a s]; [done|]. unfold DecodeRune. cbn [app].
  destruct (ord a <? 128); [by left|]. destruct (in_range 194 223 a); [destruct s as [|b s]; [by right|by left]|].
  destruct (in_range 224 239 a); [destruct s as [|b [|c s]]; [by right..|by left]|].
  destruct (in_range 240 244 a); [destruct s as [|b [|c [|d s]]]; [by right..|by left]|by left].
Qed.

Lemma TrimLeftSpace_fixed s : IsSpace (DecodeRune s).1 = false -> TrimLeftSpace 0 s = s.
Proof. destruct s as [|c s]; [done|]. cbn -[DecodeRune IsSpace]. destruct (DecodeRune (c :: s)) as [r w]. cbn -[IsSpace]. by intros ->. Qed.
Lemma TrimRightSpace_fixed s : IsSpace (DecodeLastRune s).1 = false -> TrimRightSpace 0 s = s.
Proof. destruct s as [|c s]; [done|]. cbn -[DecodeLastRune IsSpace]. destruct (DecodeLastRune (c :: s)) as [r w]. cbn -[IsSpace]. by intros ->. Qed.

Lemma TrimSpace_idem s : TrimSpace (TrimSpace s) = TrimSpace s.
Proof.
  unfold TrimSpace at 2 3. set (l := TrimLeftSpace 0 s). set (t := TrimRightSpace 0 (rev l)).
  destruct (TrimRightSpace_stops (rev l) 0) as [Ht|Ht]; fold t in Ht; [by rewrite Ht|].
  assert (TrimLeftSpace 0 (rev t) = rev t) as Hl.
  { destruct (decide (rev t = [])) as [->|Hne]; [done|]. apply TrimLeftSpace_fixed. destruct (TrimRightSpace_suffix (rev l) 0) as [p Hp]. fold t in Hp.
    assert (l = rev t ++ rev p) as Hlp by (rewrite <- rev_app_distr, <- Hp; by rewrite rev_involutive).
    destruct (DecodeRune_prefix (rev t) (rev p) Hne) as [->| ->]; [|done]. rewrite <- Hlp.
    destruct (TrimLeftSpace_stops s 0) as [Hz|Hz]; fold l in Hz; [|done]. rewrite Hz in Hlp. symmetry in Hlp. apply app_eq_nil in Hlp as [Hz' _]. by rewrite Hz' in Hne. }
  unfold TrimSpace. rewrite Hl, rev_involutive. by rewrite (TrimRightSpace_fixed _ Ht).
Qed.
