(* ===== verification/Dotenv.v ===== *)
(** * Dotenv documents: [internal/dotenv/dotenv.go]

    The parser and the printer of `.env` files, with the key-name grammar of
    [internal/schema/schema.go] they check. The theorems show that what
    [Encode] writes [Parse] reads back byte for byte, and what a parsed
    document guarantees. *)

From S2P Require Import Prelude Utf8 GoStrings.
From Stdlib Require Import Ascii.

#[local] Open Scope Z_scope.

(** ** Key names: [schema.CheckKeyName] *)
Definition MaxKeyNameBytes : Z := 128.

Definition keyStart (c : ascii) : bool := in_range 65 90 c || Ascii.eqb c (chr 95).
Definition keyChar (c : ascii) : bool := keyStart c || in_range 48 57 c.

(** [\A[A-Z_][A-Z0-9_]*\z] *)
Definition keyNameRe (name : bytes) : bool :=
  match name with
  | [] => false
  | c :: rest => keyStart c && forallb keyChar rest
  end.

Definition declErr {A} (msg : string) : result A := Err (EWrap msg (ESentinel "schema.ErrInvalidDeclaration")).

Definition CheckKeyName (name : bytes) : result unit :=
  match name with
  | [] => declErr "key name must not be empty"
  | _ => if MaxKeyNameBytes <? Z.of_nat (length name) then declErr "key name exceeds its bytes"
         else if negb (keyNameRe name) then declErr "key name does not match the canonical grammar"
         else Ok ()
  end.

(** ** Parsing *)
Record Entry := MkEntry { Key : bytes; Value : bytes }.

Definition dotenvErr {A} (msg : string) : result A := Err (ENew msg).

Definition onlyTrailingBlank (s : bytes) : result unit :=
  match TrimLeft blank s with
  | [] => Ok ()
  | _ => dotenvErr "unexpected content after the closing quote"
  end.

(** After the opening quote. *)
Definition parseSingleQuoted (v : bytes) : result bytes :=
  match Cut SQ v with
  | None => dotenvErr "unterminated single-quoted value"
  | Some (content, after) => _ ← onlyTrailingBlank after; Ok content
  end.

Definition unescape (c : ascii) : option ascii :=
  if Ascii.eqb c (chr 110) then Some LF
  else if Ascii.eqb c (chr 114) then Some CR
  else if Ascii.eqb c (chr 116) then Some TAB
  else if Ascii.eqb c BSL then Some BSL
  else if Ascii.eqb c DQ then Some DQ
  else if Ascii.eqb c SQ then Some SQ
  else None.

(** After the opening quote. *)
Fixpoint parseDoubleQuoted (v : bytes) : result bytes :=
  match v with
  | [] => dotenvErr "unterminated double-quoted value"
  | c :: v' =>
      if Ascii.eqb c DQ then _ ← onlyTrailingBlank v'; Ok []
      else if Ascii.eqb c BSL then
        match v' with
        | [] => dotenvErr "dangling backslash in double-quoted value"
        | d :: v'' =>
            match unescape d with
            | None => dotenvErr "unknown escape in double-quoted value"
            | Some x => rest ← parseDoubleQuoted v''; Ok (x :: rest)
            end
        end
      else rest ← parseDoubleQuoted v'; Ok (c :: rest)
  end.

Definition parseValue (v : bytes) : result bytes :=
  match v with
  | [] => Ok []
  | c :: v' =>
      if Ascii.eqb c DQ then parseDoubleQuoted v'
      else if Ascii.eqb c SQ then parseSingleQuoted v'
      else Ok (TrimRight blank v)
  end.

Definition exportWord : bytes := map chr [101; 120; 112; 111; 114; 116].

Definition cutExportPrefix (s : bytes) : option bytes :=
  match CutPrefix exportWord s with
  | Some (c :: rest) => if blank c then Some (TrimLeft blank (c :: rest)) else None
  | _ => None
  end.

Definition seenKey (seen : list bytes) (key : bytes) : bool := existsb (fun k => bool_decide (k = key)) seen.

(** One line: skipped, or an entry. *)
Definition parseLine (seen : list bytes) (raw : bytes) : result (option Entry) :=
  let line := TrimRight (Ascii.eqb CR) raw in
  let trimmed := TrimLeft blank line in
  match trimmed with
  | [] => Ok None
  | c :: _ =>
      if Ascii.eqb c HASH then Ok None
      else
        let trimmed := default trimmed (cutExportPrefix trimmed) in
        match Cut EQ trimmed with
        | None => dotenvErr "not a KEY=value assignment"
        | Some (before, after) =>
            let key := TrimRight blank before in
            match CheckKeyName key with
            | Err _ => dotenvErr "invalid key name"
            | Panic m => Panic m
            | Ok _ =>
                if seenKey seen key then dotenvErr "duplicate key"
                else
                  value ← parseValue (TrimLeft blank after);
                  Ok (Some (MkEntry key value))
            end
        end
  end.

Fixpoint parseLines (seen : list bytes) (lines : list bytes) : result (list Entry) :=
  match lines with
  | [] => Ok []
  | raw :: rest =>
      o ← parseLine seen raw;
      match o with
      | None => parseLines seen rest
      | Some e => es ← parseLines (Key e :: seen) rest; Ok (e :: es)
      end
  end.

Definition Parse (data : bytes) : result (list Entry) := parseLines [] (Split LF data).

(** ** Printing *)
Record Refusal := MkRefusal { ref_Key : bytes; ref_Reason : string }.

Definition NUL : ascii := chr 0.

Fixpoint refusals (entries : list Entry) : list Refusal :=
  match entries with
  | [] => []
  | e :: rest =>
      match CheckKeyName (Key e) with
      | Ok _ => if hasByte NUL (Value e) then MkRefusal (Key e) "NUL byte" :: refusals rest else refusals rest
      | Err _ | Panic _ => MkRefusal (Key e) "invalid name" :: refusals rest
      end
  end.

Definition bareForbidden (c : ascii) : bool :=
  Ascii.eqb c HASH || Ascii.eqb c BSL || Ascii.eqb c DQ || Ascii.eqb c LF || Ascii.eqb c CR ||
  Ascii.eqb c TAB || (ord c <? 32) || (ord c =? 127).

Definition needsQuoting (v : bytes) : bool :=
  match v with
  | [] => false
  | c :: _ =>
      if negb (bool_decide (v = TrimSpace v)) then true
      else if Ascii.eqb c DQ || Ascii.eqb c SQ then true
      else existsb bareForbidden v
  end.

Definition escape (c : ascii) : bytes :=
  if Ascii.eqb c BSL then [BSL; BSL]
  else if Ascii.eqb c DQ then [BSL; DQ]
  else if Ascii.eqb c LF then [BSL; chr 110]
  else if Ascii.eqb c CR then [BSL; chr 114]
  else if Ascii.eqb c TAB then [BSL; chr 116]
  else [c].

Definition encodeValue (v : bytes) : bytes :=
  if needsQuoting v then DQ :: concat (map escape v) ++ [DQ] else v.

Definition encodeLine (e : Entry) : bytes := Key e ++ EQ :: encodeValue (Value e).

(** The document, or the entries refused. *)
Definition Encode (entries : list Entry) : bytes + list Refusal :=
  match refusals entries with
  | [] => inl (concat (map (fun e => encodeLine e ++ [LF]) entries))
  | rs => inr rs
  end.

Example dotenv_sample :
  Parse (String.list_ascii_of_string "# c
export A_1 = plain # kept
B='it'
C=") = Ok [MkEntry (String.list_ascii_of_string "A_1") (String.list_ascii_of_string "plain # kept");
           MkEntry (String.list_ascii_of_string "B") (String.list_ascii_of_string "it");
           MkEntry (String.list_ascii_of_string "C") []].
Proof. vm_compute. reflexivity. Qed.

(** ** The round trip *)
Lemma keyChar_not c d : keyChar c = true -> keyChar d = false -> c <> d.
Proof. intros Hc Hd ->. congruence. Qed.

Lemma CheckKeyName_Ok key : CheckKeyName key = Ok () ->
  exists c rest, key = c :: rest /\ keyStart c = true /\ Forall (fun d => keyChar d = true) key.
Proof.
  destruct key as [|c rest]; [done|]. unfold CheckKeyName. destruct (_ <? _); [done|].
  destruct (keyNameRe (c :: rest)) eqn:E; [|done]. intros _. cbn in E. apply andb_prop in E as [Hc Hr].
  exists c, rest. split; [done|]. split; [done|]. constructor; [unfold keyChar; by rewrite Hc|].
  apply Forall_forall. intros d Hd. apply (forallb_In _ _ _ Hr). by apply list_elem_of_In.
Qed.

Lemma keyName_without key c : Forall (fun d => keyChar d = true) key -> keyChar c = false -> hasByte c key = false.
Proof.
  intros H Hc. apply hasByte_false. eapply Forall_impl; [exact H|]. intros d Hd. by apply keyChar_not.
Qed.

(** A non-empty string of key characters ends in one. *)
Lemma key_last key : key <> [] -> Forall (fun d => keyChar d = true) key ->
  exists init c, key = init ++ [c] /\ keyChar c = true.
Proof.
  intros Hne H. destruct (exists_last Hne) as (init & c & ->). exists init, c. split; [done|].
  apply Forall_app in H as [_ H]. apply Forall_cons in H as [H _]. exact H.
Qed.

Lemma keyChar_blank c : keyChar c = true -> blank c = false.
Proof.
  intros H. unfold blank. apply orb_false_iff. split; apply Ascii.eqb_neq; intros ->; discriminate H.
Qed.

Lemma escape_no_LF v : hasByte LF (concat (map escape v)) = false.
Proof.
  induction v as [|c v IH]; [done|]. cbn [map concat]. rewrite hasByte_app, IH, orb_false_r.
  unfold escape. destruct (Ascii.eqb c BSL); [done|]. destruct (Ascii.eqb c DQ); [done|].
  destruct (Ascii.eqb c LF) eqn:E; [done|]. destruct (Ascii.eqb c CR); [done|]. destruct (Ascii.eqb c TAB); [done|].
  unfold hasByte. cbn [existsb]. rewrite Ascii.eqb_sym, E. done.
Qed.

Lemma parseDoubleQuoted_step c t :
  parseDoubleQuoted (escape c ++ t) = (rest ← parseDoubleQuoted t; Ok (c :: rest)).
Proof.
  unfold escape.
  destruct (Ascii.eqb_spec c BSL) as [->|Hb]; [reflexivity|].
  destruct (Ascii.eqb_spec c DQ) as [->|Hq]; [reflexivity|].
  destruct (Ascii.eqb_spec c LF) as [->|_]; [reflexivity|].
  destruct (Ascii.eqb_spec c CR) as [->|_]; [reflexivity|].
  destruct (Ascii.eqb_spec c TAB) as [->|_]; [reflexivity|].
  apply Ascii.eqb_neq in Hb, Hq. cbn [app parseDoubleQuoted]. by rewrite Hb, Hq.
Qed.

Lemma parseDoubleQuoted_escape v : parseDoubleQuoted (concat (map escape v) ++ [DQ]) = Ok v.
Proof.
  induction v as [|c v IH]; [reflexivity|]. cbn [map concat]. rewrite <- app_assoc, parseDoubleQuoted_step, IH.
  reflexivity.
Qed.

(** What a bare value looks like. *)
Lemma bare_value v : needsQuoting v = false ->
  v = [] \/ (exists c rest, v = c :: rest /\ Ascii.eqb c DQ = false /\ Ascii.eqb c SQ = false /\ blank c = false) /\
            (exists init c, v = init ++ [c] /\ blank c = false /\ Ascii.eqb c CR = false) /\ hasByte LF v = false.
Proof.
  destruct v as [|c rest]; [by left|]. cbn [needsQuoting].
  destruct (bool_decide_reflect (c :: rest = TrimSpace (c :: rest))) as [Ht|]; [|done]. cbn [negb].
  destruct (Ascii.eqb c DQ || Ascii.eqb c SQ) eqn:Eq; [done|]. apply orb_false_elim in Eq as [Hd Hs]. intros Hf.
  assert (forall d, In d (c :: rest) -> bareForbidden d = false) as Hall
    by (intros d Hin; by apply (existsb_false _ _ _ Hf)).
  assert (forall d, In d (c :: rest) -> d <> LF /\ d <> CR /\ d <> TAB) as Hctl.
  { intros d Hin. specialize (Hall d Hin). unfold bareForbidden in Hall. bools.
    repeat split; by apply Ascii.eqb_neq. }
  right. split; [|split].
  - exists c, rest. split; [done|]. split; [done|]. split; [done|]. unfold blank.
    destruct (Hctl c (or_introl eq_refl)) as (_ & _ & HT). apply Ascii.eqb_neq in HT. rewrite HT, orb_false_r.
    apply Ascii.eqb_neq. intros ->. symmetry in Ht. by apply TrimSpace_fixed_start in Ht.
  - destruct (exists_last (l := c :: rest)) as (init & l & Hl); [done|]. exists init, l. split; [done|].
    assert (In l (c :: rest)) as Hin by (rewrite Hl; apply in_or_app; right; by left).
    destruct (Hctl l Hin) as (_ & HC & HT). apply Ascii.eqb_neq in HC, HT. split; [|done].
    unfold blank. rewrite HT, orb_false_r. apply Ascii.eqb_neq. intros ->. symmetry in Ht. rewrite Hl in Ht.
    by apply TrimSpace_fixed_end in Ht.
  - apply hasByte_false, Forall_forall. intros d Hin%list_elem_of_In. by destruct (Hctl d Hin).
Qed.

(** The encoded value: no newline, no trailing carriage return, no leading
    blank, and it parses back. *)
Lemma encodeValue_spec v :
  hasByte LF (encodeValue v) = false /\
  (encodeValue v = [] \/ exists init c, encodeValue v = init ++ [c] /\ Ascii.eqb c CR = false) /\
  TrimLeft blank (encodeValue v) = encodeValue v /\ parseValue (encodeValue v) = Ok v.
Proof.
  unfold encodeValue. destruct (needsQuoting v) eqn:E.
  - split; [|split; [|split]].
    + change (DQ :: concat (map escape v) ++ [DQ]) with ([DQ] ++ concat (map escape v) ++ [DQ]).
      by rewrite !hasByte_app, escape_no_LF.
    + right. by exists (DQ :: concat (map escape v)), DQ.
    + done.
    + cbn. apply parseDoubleQuoted_escape.
  - apply bare_value in E as [->|((c & rest & -> & Hd & Hs & Hb) & (init & l & Hl & Hbl & Hcr) & Hlf)].
    + split; [done|]. split; [by left|]. done.
    + split; [done|]. split; [right; by exists init, l|]. split; [by apply TrimLeft_stop|].
      cbn [parseValue]. rewrite Hd, Hs, Hl. f_equal. by apply TrimRight_stop.
Qed.

Lemma parseLine_encode seen e : CheckKeyName (Key e) = Ok () -> seenKey seen (Key e) = false ->
  hasByte LF (encodeLine e) = false /\ parseLine seen (encodeLine e) = Ok (Some e).
Proof.
  intros Hk Hseen. pose proof (CheckKeyName_Ok _ Hk) as (c & rest & Hkey & Hc & Hall).
  destruct (encodeValue_spec (Value e)) as (Hlf & Hend & Htl & Hpv).
  assert (hasByte EQ (Key e) = false) as Heq by (by apply keyName_without).
  split.
  { unfold encodeLine. rewrite hasByte_app, (keyName_without _ LF) by done. exact Hlf. }
  unfold parseLine.
  assert (TrimRight (Ascii.eqb CR) (encodeLine e) = encodeLine e) as ->.
  { unfold encodeLine. destruct Hend as [->|(init & l & -> & Hl)].
    - by apply TrimRight_stop.
    - change (EQ :: init ++ [l]) with ([EQ] ++ init ++ [l]). rewrite !app_assoc. apply TrimRight_stop.
      by rewrite Ascii.eqb_sym. }
  assert (encodeLine e = c :: rest ++ EQ :: encodeValue (Value e)) as Hline by (unfold encodeLine; by rewrite Hkey).
  assert (keyChar c = true) as Hcc by (rewrite Hkey in Hall; apply Forall_cons in Hall as [Hx _]; exact Hx).
  rewrite Hline, TrimLeft_stop by (by apply keyChar_blank).
  assert (Ascii.eqb c HASH = false) as -> by (apply Ascii.eqb_neq; intros ->; discriminate Hcc).
  assert (cutExportPrefix (c :: rest ++ EQ :: encodeValue (Value e)) = None) as ->.
  { unfold cutExportPrefix, exportWord. cbn [map CutPrefix]. destruct (Ascii.eqb_spec (chr 101) c) as [<-|]; [|done].
    discriminate Hcc. }
  cbn [default from_option]. rewrite <- Hline. unfold encodeLine. rewrite Cut_at by done.
  destruct (key_last (Key e)) as (init & l & Hl & Hlc); [by rewrite Hkey|done|].
  assert (TrimRight blank (Key e) = Key e) as ->
    by (rewrite Hl; apply TrimRight_stop; by apply keyChar_blank).
  rewrite Hk, Hseen, Htl, Hpv. by destruct e.
Qed.

Lemma seenKey_spec seen key : seenKey seen key = true <-> In key seen.
Proof.
  unfold seenKey. rewrite existsb_exists. split.
  - intros (k & Hin & Hk). apply bool_decide_eq_true_1 in Hk. by subst.
  - intros H. exists key. split; [done|]. by apply bool_decide_eq_true_2.
Qed.

Lemma parseLines_encode entries : forall seen,
  Forall (fun e => CheckKeyName (Key e) = Ok ()) entries -> NoDup (map Key entries) ->
  (forall e, In e entries -> ~ In (Key e) seen) ->
  parseLines seen (Split LF (concat (map (fun e => encodeLine e ++ [LF]) entries))) = Ok entries.
Proof.
  induction entries as [|e es IH]; intros seen Hk Hnd Hs; [reflexivity|].
  apply Forall_cons in Hk as [Hke Hkes]. cbn [map] in Hnd. apply NoDup_cons in Hnd as [Hnin Hnd].
  assert (seenKey seen (Key e) = false) as Hse.
  { destruct (seenKey seen (Key e)) eqn:E; [|done]. apply seenKey_spec in E. by apply (Hs e (or_introl eq_refl)) in E. }
  destruct (parseLine_encode seen e Hke Hse) as [Hlf Hpl].
  cbn [map concat]. rewrite <- app_assoc. cbn [app]. rewrite Split_line by done. cbn [parseLines].
  rewrite Hpl. cbn [mbind result_bind]. rewrite IH; [done|done|done|].
  intros e' Hin [Heq|Hin']; [|by apply (Hs e' (or_intror Hin))].
  apply Hnin. rewrite Heq. apply list_elem_of_In, in_map_iff. by exists e'.
Qed.

Lemma refusals_nil entries : refusals entries = [] ->
  Forall (fun e => CheckKeyName (Key e) = Ok () /\ hasByte NUL (Value e) = false) entries.
Proof.
  induction entries as [|e es IH]; cbn [refusals]; [constructor|].
  destruct (CheckKeyName (Key e)) as [[]|err|m] eqn:E; [|discriminate..].
  destruct (hasByte NUL (Value e)) eqn:En; [discriminate|]. intros H. constructor; [done|]. by apply IH.
Qed.

(** C33. What [Encode] prints, [Parse] reads back: for every list of entries
    with distinct names that [Encode] does not refuse, the document parses to
    exactly those entries, byte for byte and in order, whatever bytes the
    values hold (quotes, escapes, newlines, white space, ill-formed UTF-8). *)
Theorem dotenv_roundtrip (entries : list Entry) (doc : bytes) :
  NoDup (map Key entries) -> Encode entries = inl doc -> Parse doc = Ok entries.
Proof.
  intros Hnd. unfold Encode. destruct (refusals entries) eqn:E; [|done]. intros [= <-].
  apply parseLines_encode; [|done|by intros ? _ []].
  apply refusals_nil in E. eapply Forall_impl; [exact E|]. by intros e [? _].
Qed.

Definition sampleEntries : list Entry := [
  MkEntry (map chr [65; 95; 49]) (map chr [32; 34; 92; 10; 13; 9; 35; 255; 39]);
  MkEntry (map chr [66]) [];
  MkEntry (map chr [67]) (map chr [104; 105; 32; 61; 194; 160; 120])].

Lemma dotenv_roundtrip_witness : exists doc, Encode sampleEntries = inl doc /\ Parse doc = Ok sampleEntries.
Proof.
  eexists. split; [vm_compute; reflexivity|]. apply dotenv_roundtrip; [|vm_compute; reflexivity].
  repeat (apply NoDup_cons; split; [rewrite list_elem_of_In; vm_compute; intuition discriminate|]). constructor.
Defined.

(** ** What parsing guarantees *)
Lemma parseLine_Some seen raw e : parseLine seen raw = Ok (Some e) ->
  CheckKeyName (Key e) = Ok () /\ ~ In (Key e) seen.
Proof.
  unfold parseLine. destruct (TrimLeft blank _) as [|c t]; [discriminate|].
  destruct (Ascii.eqb c HASH); [discriminate|]. destruct (Cut EQ _) as [[before after]|]; [|discriminate].
  destruct (CheckKeyName _) as [[]|err|m] eqn:Ek; [|discriminate..].
  destruct (seenKey seen _) eqn:Es; [discriminate|]. intros (v & _ & [= <-])%bind_Ok. split; [done|].
  intros Hin. apply seenKey_spec in Hin. cbn in Hin. congruence.
Qed.

Lemma parseLines_Ok lines : forall seen es, parseLines seen lines = Ok es ->
  Forall (fun e => CheckKeyName (Key e) = Ok ()) es /\ NoDup (map Key es) /\
  (forall e, In e es -> ~ In (Key e) seen).
Proof.
  induction lines as [|raw lines IH]; intros seen es; cbn [parseLines].
  - intros [= <-]. split; [constructor|]. split; [constructor|by intros ? []].
  - intros (o & Hl & H)%bind_Ok. destruct o as [e|]; [|by apply IH].
    apply bind_Ok in H as (es' & H & [= <-]). apply parseLine_Some in Hl as [Hk Hs].
    apply IH in H as (Hall & Hnd & Hfresh). split; [by constructor|]. split.
    + cbn. apply NoDup_cons. split; [|done]. intros (e' & He & Hin)%list_elem_of_In%in_map_iff.
      apply (Hfresh e' Hin). by left.
    + intros e' [<-|Hin]; [done|]. intros Hin'. apply (Hfresh e' Hin). by right.
Qed.

Lemma refusals_none entries :
  Forall (fun e => CheckKeyName (Key e) = Ok ()) entries ->
  Forall (fun e => hasByte NUL (Value e) = false) entries -> refusals entries = [].
Proof.
  induction 1 as [|e es Hk _ IH]; [done|]. intros [Hn Hns]%Forall_cons. cbn [refusals].
  rewrite Hk, Hn. by apply IH.
Qed.

(** A parsed document has names of the canonical grammar, none of them
    twice, and a normal form: printed again it parses to the same entries. The
    only documents without one are those that carry a NUL byte in a value. *)
Theorem parsed_documents_reprint (doc : bytes) (entries : list Entry) :
  Parse doc = Ok entries ->
  Forall (fun e => CheckKeyName (Key e) = Ok ()) entries /\ NoDup (map Key entries) /\
  (Forall (fun e => hasByte NUL (Value e) = false) entries ->
   exists doc', Encode entries = inl doc' /\ Parse doc' = Ok entries).
Proof.
  intros (Hk & Hnd & _)%parseLines_Ok. split; [done|]. split; [done|]. intros Hn.
  unfold Encode. rewrite refusals_none by done. eexists. split; [done|].
  by apply parseLines_encode; [..|by intros ? _ []].
Qed.

Lemma parsed_documents_reprint_witness :
  NoDup [map chr [65]; map chr [66]] /\
  Parse (String.list_ascii_of_string "export A=1
B = x") = Ok [MkEntry (map chr [65]) (map chr [49]); MkEntry (map chr [66]) (map chr [120])].
Proof.
  assert (Parse (String.list_ascii_of_string "export A=1
B = x") = Ok [MkEntry (map chr [65]) (map chr [49]); MkEntry (map chr [66]) (map chr [120])]) as H
    by (vm_compute; reflexivity).
  split; [|exact H]. exact (proj1 (proj2 (parsed_documents_reprint _ _ H))).
Defined.

(** The printer accepts a list that names a key twice, and prints a document
    the parser refuses. *)
Lemma encode_accepts_duplicates :
  let entries := [MkEntry (map chr [65]) (map chr [49]); MkEntry (map chr [65]) (map chr [50])] in
  exists doc, Encode entries = inl doc /\ is_ok (Parse doc) = false.
Proof. eexists. split; vm_compute; reflexivity. Qed.

(** The grammar does carry a NUL byte: the parser reads one back. *)
Lemma parse_carries_nul :
  Parse (map chr [65; 61; 120; 0; 121]) = Ok [MkEntry (map chr [65]) (map chr [120; 0; 121])].
Proof. vm_compute. reflexivity. Qed.
