(* ===== verification/Parameters.v ===== *)
(** * Public parameters: [internal/parameters/parameters.go], [internal/service/parameters.go]

    Declared parameters, what a caller supplies, the bounded single-pass
    substitution of config templates, and the cache of compiled patterns. The
    RE2 compiler of the [regexp] package is a parameter of the model: from a
    pattern, an error or a predicate on strings. *)

From S2P Require Import Prelude Utf8 GoStrings.
From Stdlib Require Import Ascii.

#[local] Open Scope Z_scope.

Definition MaxCount : Z := 32.
Definition MaxValueBytes : Z := 256.
Definition MaxPatternBytes : Z := 512.

Abbreviation params := (gmap bytes bytes).

Definition paramErr {A} (msg : string) : result A := Err (ENew msg).

(** ** Names *)
Definition upper (c : ascii) : bool := in_range 65 90 c.
Definition nameChar (c : ascii) : bool := upper c || in_range 48 57 c || Ascii.eqb c (chr 95).

(** [^[A-Z][A-Z0-9_]{0,63}$] *)
Definition namePattern (name : bytes) : bool :=
  match name with
  | [] => false
  | c :: rest => upper c && forallb nameChar rest && (length rest <=? 63)%nat
  end.

Definition CheckName (name : bytes) : result unit :=
  if negb (namePattern name) then paramErr "parameter name must match its pattern" else Ok ().

(** ** Substitution *)
Definition DOLLAR : ascii := chr 36.
Definition LBRACE : ascii := chr 123.
Definition RBRACE : ascii := chr 125.

(** [strings.Index(value, "${")], as the text before it and after it. *)
Fixpoint indexRef (value : bytes) : option (bytes * bytes) :=
  match value with
  | c :: ((d :: rest) as tail) =>
      if Ascii.eqb c DOLLAR && Ascii.eqb d LBRACE then Some ([], rest)
      else match indexRef tail with
           | Some (before, after) => Some (c :: before, after)
           | None => None
           end
  | _ => None
  end.

(** [value[index-1] == '$'], and the text up to that byte. *)
Definition endsInDollar (before : bytes) : option bytes :=
  match rev before with
  | c :: r => if Ascii.eqb c DOLLAR then Some (rev r) else None
  | [] => None
  end.

Definition tooLong (maxBytes : Z) (out : bytes) : bool :=
  (0 <=? maxBytes) && (maxBytes <? Z.of_nat (length out)).

(** The loop of [transform]: [out] is the builder; [fuel] bounds the
    iterations, each of which consumes at least two bytes of [value]. *)
Section Transform.
Context {St : Type} (replacement : bytes -> ST St bytes) (maxBytes : Z).

Fixpoint transformLoop (fuel : nat) (value out : bytes) : ST St bytes :=
  match fuel with
  | O => st_result (Panic "unreachable")
  | S k =>
      match value with
      | [] => mret out
      | _ :: _ =>
          match indexRef value with
          | None => mret (out ++ value)
          | Some (before, after) =>
              next ← (match endsInDollar before with
                      | Some literal => mret (out ++ literal ++ [DOLLAR; LBRACE], after)
                      | None =>
                          match Cut RBRACE after with
                          | Some (name, rest) =>
                              if namePattern name then
                                text ← replacement name;
                                mret (out ++ before ++ text, rest)
                              else st_result (paramErr "invalid parameter reference")
                          | None => st_result (paramErr "invalid parameter reference")
                          end
                      end);
              if tooLong maxBytes (next.1) then st_result (paramErr "resolved config exceeds its bytes")
              else transformLoop k next.2 next.1
          end
      end
  end.

Definition transform (value : bytes) : ST St bytes :=
  out ← transformLoop (S (length value)) value [];
  if tooLong maxBytes out then st_result (paramErr "resolved config exceeds its bytes") else mret out.
End Transform.

(** The names referenced, in order; the closure appends to [refs]. *)
Definition References (value : bytes) : result (list bytes) :=
  match transform (fun name refs => (Ok [], refs ++ [name])) (-1) value [] with
  | (Ok _, refs) => Ok refs
  | (Err e, _) => Err e
  | (Panic m, _) => Panic m
  end.

Definition lookupParam (supplied : params) (name : bytes) : ST unit bytes :=
  st_result (match supplied !! name with
             | Some replacement => Ok replacement
             | None => paramErr "required parameter is missing"
             end).

Definition Resolve (value : bytes) (supplied : params) (maxBytes : Z) : result bytes :=
  (transform (lookupParam supplied) maxBytes value ()).1.

Definition CheckReferences (value : bytes) (declarations : params) : result unit :=
  if bool_decide (declarations = ∅) then Ok ()
  else
    refs ← References value;
    if forallb (fun name => match declarations !! name with Some _ => true | None => false end) refs
    then Ok () else paramErr "undeclared parameter".

Example resolve_sample :
  Resolve (String.list_ascii_of_string "a${X}$${b}") {[map chr [88] := String.list_ascii_of_string "${Y}"]} 64
  = Ok (String.list_ascii_of_string "a${Y}${b}").
Proof. vm_compute. reflexivity. Qed.

(** ** Templates

    A template is a sequence of literals, each followed by a reference, and a
    final literal. In a literal, the two bytes that open a reference are
    written with a dollar before them. *)
Record Template := MkTemplate { t_refs : list (bytes * bytes); t_tail : bytes }.

Definition opener : bytes := [DOLLAR; LBRACE].

Fixpoint escapeLit (b : bytes) : bytes :=
  match b with
  | c :: ((d :: rest) as tail) =>
      if Ascii.eqb c DOLLAR && Ascii.eqb d LBRACE then DOLLAR :: opener ++ escapeLit rest
      else c :: escapeLit tail
  | _ => b
  end.

Definition printRef (p : bytes * bytes) : bytes := escapeLit p.1 ++ opener ++ p.2 ++ [RBRACE].
Definition printTemplate (t : Template) : bytes := concat (map printRef (t_refs t)) ++ escapeLit (t_tail t).

Definition renderTemplate (f : bytes -> bytes) (t : Template) : bytes :=
  concat (map (fun p => p.1 ++ f p.2) (t_refs t)) ++ t_tail t.

Definition wellFormed (t : Template) : Prop :=
  Forall (fun p => namePattern p.2 = true /\ endsInDollar p.1 = None) (t_refs t).

(** *** The first opener of a text *)
Lemma indexRef_cons c d rest : indexRef (c :: d :: rest) =
  if Ascii.eqb c DOLLAR && Ascii.eqb d LBRACE then Some ([], rest)
  else match indexRef (d :: rest) with Some (before, after) => Some (c :: before, after) | None => None end.
Proof. reflexivity. Qed.

Lemma escapeLit_cons c d rest : escapeLit (c :: d :: rest) =
  if Ascii.eqb c DOLLAR && Ascii.eqb d LBRACE then DOLLAR :: opener ++ escapeLit rest else c :: escapeLit (d :: rest).
Proof. reflexivity. Qed.

Lemma indexRef_None_escape b : indexRef b = None -> escapeLit b = b.
Proof.
  induction b as [|c [|d rest] IH]; [done..|]. rewrite indexRef_cons, escapeLit_cons.
  destruct (_ && _); [done|]. destruct (indexRef (d :: rest)) as [[? ?]|]; [done|]. intros _. by rewrite IH.
Qed.

Lemma indexRef_split b before after : indexRef b = Some (before, after) -> b = before ++ opener ++ after.
Proof.
  revert before. induction b as [|c [|d rest] IH]; [done..|]. rewrite indexRef_cons. intros before.
  destruct (Ascii.eqb_spec c DOLLAR) as [->|]; [destruct (Ascii.eqb_spec d LBRACE) as [->|]|]; cbn [andb].
  - by intros [= <- <-].
  - destruct (indexRef (d :: rest)) as [[b' a']|] eqn:E; [|done]. intros [= <- <-]. by rewrite (IH b').
  - destruct (indexRef (d :: rest)) as [[b' a']|] eqn:E; [|done]. intros [= <- <-]. by rewrite (IH b').
Qed.

(** [clear b]: no opener in [b], nor one made by a dollar that follows it. *)
Lemma indexRef_before b before after : indexRef b = Some (before, after) -> indexRef before = None.
Proof.
  revert before. induction b as [|c [|d rest] IH]; [done..|]. intros before. rewrite indexRef_cons.
  destruct (Ascii.eqb c DOLLAR && Ascii.eqb d LBRACE)%bool eqn:Ecd; [by intros [= <- <-]|].
  destruct (indexRef (d :: rest)) as [[b' a']|] eqn:E; [|done]. intros [= <- <-].
  specialize (IH b' eq_refl). destruct b' as [|e b'']; [done|].
  assert (e = d) as ->.
  { apply indexRef_split in E. cbn in E. congruence. }
  rewrite indexRef_cons, Ecd. by rewrite IH.
Qed.

Lemma indexRef_app b after : indexRef b = None -> indexRef (b ++ opener ++ after) = Some (b, after).
Proof.
  induction b as [|c [|d rest] IH]; [done| |].
  - intros _. cbn. rewrite andb_false_r. reflexivity.
  - cbn [app]. rewrite !indexRef_cons. destruct (_ && _)%bool eqn:Ecd; [done|].
    destruct (indexRef (d :: rest)) as [[? ?]|] eqn:E; [done|]. intros _.
    change ((d :: rest ++ opener ++ after)) with ((d :: rest) ++ opener ++ after). by rewrite IH.
Qed.

Lemma endsInDollar_Some b lit : endsInDollar b = Some lit -> b = lit ++ [DOLLAR].
Proof.
  unfold endsInDollar. destruct (rev b) as [|c r] eqn:E; [done|].
  destruct (Ascii.eqb_spec c DOLLAR) as [->|]; [|done]. intros [= <-].
  apply (f_equal (@rev ascii)) in E. by rewrite rev_involutive in E.
Qed.

Lemma endsInDollar_snoc b : endsInDollar (b ++ [DOLLAR]) = Some b.
Proof. unfold endsInDollar. rewrite rev_app_distr. cbn. by rewrite rev_involutive. Qed.

Lemma indexRef_snoc_dollar b : indexRef b = None -> indexRef (b ++ [DOLLAR]) = None.
Proof.
  induction b as [|c [|d rest] IH]; [done| |].
  - intros _. cbn. rewrite andb_false_r. reflexivity.
  - cbn [app]. rewrite !indexRef_cons. destruct (_ && _)%bool eqn:Ecd; [done|].
    destruct (indexRef (d :: rest)) as [[? ?]|] eqn:E; [done|]. intros _.
    change ((d :: rest ++ [DOLLAR])) with ((d :: rest) ++ [DOLLAR]). by rewrite IH.
Qed.

Lemma indexRef_cut_dollar b : indexRef (b ++ [DOLLAR]) = None -> indexRef b = None.
Proof.
  induction b as [|c [|d rest] IH]; [done..|].
  cbn [app]. rewrite !indexRef_cons. destruct (_ && _)%bool; [done|].
  change ((d :: rest ++ [DOLLAR])) with ((d :: rest) ++ [DOLLAR]).
  destruct (indexRef ((d :: rest) ++ [DOLLAR])) as [[? ?]|]; [done|]. intros _. by rewrite IH.
Qed.

Lemma escapeLit_app b after : indexRef b = None -> escapeLit (b ++ opener ++ after) = b ++ DOLLAR :: opener ++ escapeLit after.
Proof.
  induction b as [|c [|d rest] IH]; [done| |].
  - intros _. cbn. rewrite andb_false_r. reflexivity.
  - cbn [app]. rewrite indexRef_cons, escapeLit_cons. destruct (_ && _)%bool eqn:Ecd; [done|].
    destruct (indexRef (d :: rest)) as [[? ?]|] eqn:E; [done|]. intros _.
    change ((d :: rest ++ opener ++ after)) with ((d :: rest) ++ opener ++ after). by rewrite IH.
Qed.

Lemma Cut_split sep s a b : Cut sep s = Some (a, b) -> s = a ++ sep :: b.
Proof.
  revert a. induction s as [|c s IH]; [done|]. cbn. intros a.
  destruct (Ascii.eqb_spec c sep) as [->|]; [by intros [= <- <-]|].
  destruct (Cut sep s) as [[a' b']|]; [|done]. intros [= <- <-]. by rewrite (IH a').
Qed.

(** *** The loop on a printed template *)
Lemma tooLong_app m a b : tooLong m (a ++ b) = false -> tooLong m a = false.
Proof. unfold tooLong. rewrite length_app, !andb_false_iff. intros [H|H]; [by left|right]. apply Z.ltb_ge in H. apply Z.ltb_ge. lia. Qed.

Lemma endsInDollar_app a b : endsInDollar (a ++ b) = None -> endsInDollar b = None.
Proof.
  unfold endsInDollar. rewrite rev_app_distr. destruct (rev b) as [|c r]; [done|]. cbn [app].
  by destruct (Ascii.eqb c DOLLAR).
Qed.

Lemma name_no_brace name : namePattern name = true -> hasByte RBRACE name = false.
Proof.
  destruct name as [|c rest]; [done|]. cbn [namePattern]. intros H. bools. apply hasByte_false.
  constructor; [intros ->; discriminate|]. apply Forall_forall. intros d Hd%list_elem_of_In ->.
  by apply (forallb_In _ _ _ H1) in Hd.
Qed.

Section Loop.
Context {St : Type} (replacement : bytes -> ST St bytes) (maxBytes : Z).
Abbreviation loop := (transformLoop replacement maxBytes).

Lemma loop_escaped k p rest out st : indexRef p = None ->
  loop (S k) (p ++ DOLLAR :: opener ++ rest) out st =
  (if tooLong maxBytes (out ++ p ++ opener) then st_result (paramErr "resolved config exceeds its bytes")
   else loop k rest (out ++ p ++ opener)) st.
Proof.
  intros Hp. cbn [transformLoop].
  assert (p ++ DOLLAR :: opener ++ rest = (p ++ [DOLLAR]) ++ opener ++ rest) as -> by (by rewrite <- app_assoc).
  rewrite indexRef_app by (by apply indexRef_snoc_dollar). rewrite endsInDollar_snoc.
  by destruct (p ++ [DOLLAR]).
Qed.

Lemma loop_plain k v out st : indexRef v = None -> loop (S k) v out st = (Ok (out ++ v), st).
Proof. intros Hv. cbn [transformLoop]. rewrite Hv. destruct v; [by rewrite app_nil_r|done]. Qed.

Lemma loop_ref k p name rest out st : indexRef p = None -> endsInDollar p = None -> namePattern name = true ->
  loop (S k) (p ++ opener ++ name ++ RBRACE :: rest) out st =
  (text ← replacement name;
   if tooLong maxBytes (out ++ p ++ text) then st_result (paramErr "resolved config exceeds its bytes")
   else loop k rest (out ++ p ++ text)) st.
Proof.
  intros Hp He Hn. cbn [transformLoop]. rewrite indexRef_app by done. rewrite He.
  rewrite Cut_at by (by apply name_no_brace). rewrite Hn.
  unfold mbind, st_bind, mret, st_ret. destruct (p ++ opener ++ _) eqn:E; [by destruct p|].
  by destruct (replacement name st) as [[t|e|m] st'].
Qed.

Lemma escaped_assoc (p x R : bytes) : (p ++ DOLLAR :: opener ++ x) ++ R = p ++ DOLLAR :: opener ++ x ++ R.
Proof. rewrite <- app_assoc. reflexivity. Qed.

Lemma loop_tail n : forall tail k out st, (length tail <= n)%nat -> (length (escapeLit tail) < k)%nat ->
  tooLong maxBytes (out ++ tail) = false -> loop k (escapeLit tail) out st = (Ok (out ++ tail), st).
Proof.
  induction n as [|n IH]; intros tail k out st Hn Hk Hfit; (destruct k as [|k]; [lia|]).
  - destruct tail; [|cbn in Hn; lia]. by apply loop_plain.
  - destruct (indexRef tail) as [[p q]|] eqn:E.
    + pose proof (indexRef_before _ _ _ E) as Hp. apply indexRef_split in E as ->.
      rewrite escapeLit_app in * by done. rewrite loop_escaped by done.
      rewrite !app_assoc in Hfit. rewrite (tooLong_app _ _ q) by (by rewrite !app_assoc).
      rewrite !length_app in Hn. rewrite length_app in Hk. cbn in Hn, Hk.
      rewrite IH; [by rewrite !app_assoc|lia|lia|by rewrite !app_assoc].
    + rewrite (indexRef_None_escape _ E). by apply loop_plain.
Qed.

Lemma loop_segment n : forall lit k name rest out st text st1,
  (length lit <= n)%nat -> endsInDollar lit = None -> namePattern name = true ->
  (length (escapeLit lit ++ opener ++ name ++ RBRACE :: rest) < k)%nat ->
  replacement name st = (Ok text, st1) -> tooLong maxBytes (out ++ lit ++ text) = false ->
  exists k', (length rest < k')%nat /\
    loop k (escapeLit lit ++ opener ++ name ++ RBRACE :: rest) out st = loop k' rest (out ++ lit ++ text) st1.
Proof.
  induction n as [|n IH]; intros lit k name rest out st text st1 Hn He Hnm Hk Hr Hfit;
    (destruct k as [|k]; [lia|]); (destruct (indexRef lit) as [[p q]|] eqn:E).
  - apply indexRef_split in E. subst lit. rewrite length_app in Hn. cbn in Hn. lia.
  - rewrite (indexRef_None_escape _ E) in *. exists k. rewrite !length_app in Hk. cbn in Hk. split; [lia|].
    rewrite loop_ref by done. unfold mbind, st_bind. rewrite Hr. by rewrite Hfit.
  - pose proof (indexRef_before _ _ _ E) as Hp. apply indexRef_split in E as ->.
    rewrite escapeLit_app in * by done. rewrite escaped_assoc in *. rewrite loop_escaped by done.
    assert (tooLong maxBytes (out ++ p ++ opener) = false) as Hpre.
    { apply (tooLong_app _ _ (q ++ text)). revert Hfit. by rewrite <- !app_assoc. }
    destruct (IH q k name rest (out ++ p ++ opener) st text st1) as (k' & Hk' & Heq).
    + rewrite !length_app in Hn. cbn in Hn. lia.
    + apply (endsInDollar_app (p ++ opener)). by rewrite <- app_assoc.
    + done.
    + rewrite length_app in Hk. cbn in Hk |- *. lia.
    + done.
    + revert Hfit. by rewrite <- !app_assoc.
    + exists k'. split; [done|]. rewrite Hpre. rewrite Heq. by rewrite <- !app_assoc.
  - rewrite (indexRef_None_escape _ E) in *. exists k. rewrite !length_app in Hk. cbn in Hk. split; [lia|].
    rewrite loop_ref by done. unfold mbind, st_bind. rewrite Hr. by rewrite Hfit.
Qed.
End Loop.

(** *** From template to result *)
Section Render.
Context {St : Type} (replacement : bytes -> ST St bytes) (maxBytes : Z) (f : bytes -> bytes) (g : bytes -> St -> St).

Lemma loop_template tail : forall refs k out st, wellFormed (MkTemplate refs tail) ->
  (length (printTemplate (MkTemplate refs tail)) < k)%nat ->
  (forall p st, In p refs -> replacement p.2 st = (Ok (f p.2), g p.2 st)) ->
  tooLong maxBytes (out ++ renderTemplate f (MkTemplate refs tail)) = false ->
  transformLoop replacement maxBytes k (printTemplate (MkTemplate refs tail)) out st =
  (Ok (out ++ renderTemplate f (MkTemplate refs tail)), fold_left (fun s p => g p.2 s) refs st).
Proof.
  induction refs as [|[lit name] refs IH]; intros k out st Hwf Hk Hrep Hfit.
  - by eapply loop_tail.
  - apply Forall_cons in Hwf as [[Hn He] Hwf]. cbn [fst snd] in Hn, He.
    unfold printTemplate, renderTemplate in *. cbn [t_refs t_tail map concat fst snd] in *.
    set (R := concat (map printRef refs) ++ escapeLit tail) in *.
    assert ((printRef (lit, name) ++ concat (map printRef refs)) ++ escapeLit tail =
            escapeLit lit ++ opener ++ name ++ RBRACE :: R) as Hpr.
    { unfold printRef, R. cbn [fst snd]. by rewrite <- !app_assoc. }
    rewrite Hpr in *. cbn [fold_left snd].
    destruct (loop_segment replacement maxBytes (length lit) lit k name R out st (f name) (g name st))
      as (k' & Hk' & ->); [done..|exact (Hrep (lit, name) st (or_introl eq_refl))| |].
    { apply (tooLong_app _ _ (concat (map (fun p => p.1 ++ f p.2) refs) ++ tail)). revert Hfit.
      by rewrite <- !app_assoc. }
    rewrite IH; [by rewrite <- !app_assoc|done|done|by intros; apply Hrep; right|].
    revert Hfit. by rewrite <- !app_assoc.
Qed.
End Render.

Lemma collect_fold (refs : list (bytes * bytes)) : forall acc,
  fold_left (fun (s : list bytes) p => s ++ [p.2]) refs acc = acc ++ map snd refs.
Proof.
  induction refs as [|[l n] refs IH]; intros acc; cbn [fold_left map]; [by rewrite app_nil_r|].
  rewrite IH, <- app_assoc. done.
Qed.

Lemma References_template t : wellFormed t -> References (printTemplate t) = Ok (map snd (t_refs t)).
Proof.
  destruct t as [refs tail]. intros Hwf. unfold References, transform, mbind, st_bind.
  rewrite (loop_template _ (-1) (fun _ => []) (fun name s => s ++ [name])); [|done|lia|done|done].
  unfold tooLong. cbn [Z.leb andb]. rewrite collect_fold. done.
Qed.

Lemma Resolve_template t supplied m : wellFormed t ->
  Forall (fun p => is_Some (supplied !! p.2)) (t_refs t) ->
  tooLong m (renderTemplate (fun n => default [] (supplied !! n)) t) = false ->
  Resolve (printTemplate t) supplied m = Ok (renderTemplate (fun n => default [] (supplied !! n)) t).
Proof.
  destruct t as [refs tail]. intros Hwf Hs Hfit. unfold Resolve, transform, mbind, st_bind.
  rewrite (loop_template _ m (fun n => default [] (supplied !! n)) (fun _ s => s)); [|done|lia| |done].
  - cbn [app]. by rewrite Hfit.
  - intros p st Hin. rewrite Forall_forall in Hs. apply list_elem_of_In, Hs in Hin as [v Hv].
    unfold lookupParam, st_result. by rewrite Hv.
Qed.

(** *** From value to template *)
Definition consLit (lit : bytes) (t : Template) : Template :=
  match t_refs t with
  | (l, n) :: refs => MkTemplate ((lit ++ opener ++ l, n) :: refs) (t_tail t)
  | [] => MkTemplate [] (lit ++ opener ++ t_tail t)
  end.

Lemma endsInDollar_opener lit l : endsInDollar l = None -> endsInDollar (lit ++ opener ++ l) = None.
Proof.
  unfold endsInDollar. rewrite !rev_app_distr. destruct (rev l) as [|c r]; [done|]. cbn [app].
  by destruct (Ascii.eqb c DOLLAR).
Qed.

Lemma consLit_spec lit t : indexRef lit = None -> wellFormed t ->
  wellFormed (consLit lit t) /\ printTemplate (consLit lit t) = lit ++ DOLLAR :: opener ++ printTemplate t /\
  map snd (t_refs (consLit lit t)) = map snd (t_refs t).
Proof.
  intros Hl. destruct t as [[|[l n] refs] tail]; unfold consLit, wellFormed, printTemplate;
    cbn [t_refs t_tail map concat app].
  - intros _. split; [constructor|]. split; [by apply escapeLit_app|done].
  - intros [[Hn He] Hwf]%Forall_cons. split; [|split; [|done]].
    + constructor; [|done]. split; [done|]. by apply endsInDollar_opener.
    + unfold printRef. cbn [fst snd] in *. rewrite escapeLit_app by done. rewrite <- !app_assoc. cbn [app].
      by rewrite <- !app_assoc.
Qed.

Lemma collect_template k : forall value out acc r acc',
  transformLoop (fun name refs => (Ok [], refs ++ [name])) (-1) k value out acc = (Ok r, acc') ->
  exists t, wellFormed t /\ value = printTemplate t /\ acc' = acc ++ map snd (t_refs t).
Proof.
  induction k as [|k IH]; intros value out acc r acc'; [discriminate|]. cbn [transformLoop].
  destruct (indexRef value) as [[before after]|] eqn:E.
  2: { intros H. exists (MkTemplate [] value). split; [constructor|]. split.
       - unfold printTemplate. cbn. by rewrite indexRef_None_escape.
       - cbn. rewrite app_nil_r. destruct value; by injection H as _ <-. }
  pose proof (indexRef_before _ _ _ E) as Hb. apply indexRef_split in E. destruct value as [|c value'].
  { by destruct before. }
  rewrite E. clear E c value'. destruct (endsInDollar before) as [lit|] eqn:Ed.
  - unfold mbind, st_bind, mret, st_ret. cbn [fst snd]. intros H. apply IH in H as (t & Hwf & -> & ->).
    apply endsInDollar_Some in Ed as ->. apply indexRef_cut_dollar in Hb.
    destruct (consLit_spec lit t Hb Hwf) as (Hwf' & Hp & Hr). exists (consLit lit t).
    split; [done|]. rewrite Hp, Hr, <- app_assoc. done.
  - destruct (Cut RBRACE after) as [[name rest]|] eqn:Ec; [|discriminate].
    destruct (namePattern name) eqn:En; [|discriminate].
    unfold mbind, st_bind, mret, st_ret. cbn [fst snd]. intros H. apply IH in H as (t & Hwf & -> & ->).
    apply Cut_split in Ec as ->. exists (MkTemplate ((before, name) :: t_refs t) (t_tail t)).
    split; [by constructor|]. unfold printTemplate, printRef. cbn [t_refs t_tail map concat fst snd].
    rewrite (indexRef_None_escape before) by done. rewrite <- !app_assoc. split; reflexivity.
Qed.

Lemma References_Ok value refs : References value = Ok refs ->
  exists t, wellFormed t /\ value = printTemplate t /\ refs = map snd (t_refs t).
Proof.
  unfold References, transform, mbind, st_bind.
  destruct (transformLoop _ _ _ _ _) as [[r|e|m] acc] eqn:E; [|discriminate..].
  apply collect_template in E as (t & Hwf & -> & ->). unfold tooLong. cbn. intros [= <-]. by exists t.
Qed.

(** ** Declarations, supplied values and the pattern cache *)

(** [unicode.IsControl] *)
Definition IsControl (r : Z) : bool := ((0 <=? r) && (r <? 32)) || ((127 <=? r) && (r <? 160)).

(** [utf8.ValidString] *)
Definition ValidString (s : bytes) : bool := negb (existsb ill_formed (chunks 0 s)).

Definition suppliedOK (value : bytes) : bool :=
  negb ((MaxValueBytes <? Z.of_nat (length value)) || negb (ValidString value) ||
        existsb (fun p => IsControl p.1) (chunks 0 value)).

Definition CheckSupplied (values : params) : result unit :=
  if MaxCount <? Z.of_nat (size values) then paramErr "too many parameters"
  else if forallb (fun kv => namePattern kv.1) (map_to_list values) then
    if forallb (fun kv => suppliedOK kv.2) (map_to_list values) then Ok ()
    else paramErr "parameter must be valid text"
  else paramErr "invalid parameter name".

(** [names]: the keys, sorted bytewise. *)
Fixpoint bytes_leb (a b : bytes) : bool :=
  match a, b with
  | [], _ => true
  | _ :: _, [] => false
  | c :: a', d :: b' => if ord c =? ord d then bytes_leb a' b' else ord c <? ord d
  end.
Fixpoint insertName (x : bytes) (l : list bytes) : list bytes :=
  match l with
  | [] => [x]
  | y :: l' => if bytes_leb x y then x :: l else y :: insertName x l'
  end.
Definition names (values : params) : list bytes := foldr insertName [] (map fst (map_to_list values)).

Definition maxCachedPatterns : nat := 128.

Section Patterns.
Context {M : Type} (Compile : bytes -> result M) (MatchString : M -> bytes -> bool).

Record Cache := MkCache { entries : gmap bytes M; order : list bytes }.
Definition emptyCache : Cache := MkCache ∅ [].

(** ["\\A(?:" + pattern + ")\\z"] *)
Definition anchored (pattern : bytes) : bytes :=
  map chr [92; 65; 40; 63; 58] ++ pattern ++ map chr [41; 92; 122].

Definition compiledPattern (pattern : bytes) : ST Cache M := fun c =>
  match entries c !! pattern with
  | Some re => (Ok re, c)
  | None =>
      match Compile (anchored pattern) with
      | Err e => (Err e, c)
      | Panic m => (Panic m, c)
      | Ok re =>
          let c := if (length (order c) =? maxCachedPatterns)%nat then
                     match order c with
                     | oldest :: rest => MkCache (delete oldest (entries c)) rest
                     | [] => c
                     end
                   else c in
          (Ok re, MkCache (<[pattern := re]> (entries c)) (order c ++ [pattern]))
      end
  end.

Definition CheckDeclaration (name pattern : bytes) : ST Cache unit :=
  _ ← st_result (CheckName name);
  if (length pattern =? 0)%nat || (MaxPatternBytes <? Z.of_nat (length pattern)) then
    st_result (paramErr "parameter pattern must contain 1 to 512 bytes")
  else if hasByte (chr 0) pattern then st_result (paramErr "parameter pattern must not contain a NUL character")
  else
    compiled ← st_try (compiledPattern pattern);
    match compiled with
    | Ok _ => mret ()
    | Err e => st_err (EWrap "parameter has an invalid pattern" e)
    | Panic m => st_result (Panic m)
    end.

(** The loop over the declared names. *)
Fixpoint validateDeclared (declarations supplied : params) (ns : list bytes) : ST Cache unit :=
  match ns with
  | [] => mret ()
  | name :: rest =>
      let pattern := default [] (declarations !! name) in
      _ ← CheckDeclaration name pattern;
      match supplied !! name with
      | None => st_result (paramErr "required parameter is missing")
      | Some value =>
          re ← compiledPattern pattern;
          if MatchString re value then validateDeclared declarations supplied rest
          else st_result (paramErr "parameter does not match its validation pattern")
      end
  end.

Definition Validate (declarations supplied : params) : ST Cache unit :=
  _ ← st_result (CheckSupplied supplied);
  if forallb (fun name => match declarations !! name with Some _ => true | None => false end) (names supplied)
  then validateDeclared declarations supplied (names declarations)
  else st_result (paramErr "undeclared parameter").

(** *** The cache is transparent and bounded *)
Record cacheOK (c : Cache) : Prop := {
  co_dom : forall p, is_Some (entries c !! p) <-> In p (order c);
  co_nodup : NoDup (order c);
  co_bound : (length (order c) <= maxCachedPatterns)%nat;
  co_right : forall p re, entries c !! p = Some re -> Compile (anchored p) = Ok re }.

Lemma emptyCache_OK : cacheOK emptyCache.
Proof.
  constructor; cbn; [|constructor|unfold maxCachedPatterns; lia|intros p re; by rewrite lookup_empty].
  intros p. rewrite lookup_empty. split; [by intros [? ?]|done].
Qed.

Lemma cacheOK_evict c : cacheOK c -> length (order c) = maxCachedPatterns ->
  exists oldest rest, order c = oldest :: rest /\ cacheOK (MkCache (delete oldest (entries c)) rest) /\
    (length rest < maxCachedPatterns)%nat.
Proof.
  intros [Hd Hn Hb Hr] Hl. destruct (order c) as [|oldest rest] eqn:E; [discriminate|].
  exists oldest, rest. split; [done|]. apply NoDup_cons in Hn as [Hnin Hn]. cbn in Hl. split; [|lia].
  constructor; cbn; [|done|lia|].
  - intros p. destruct (decide (p = oldest)) as [->|Hne].
    + rewrite lookup_delete_eq. split; [by intros [? ?]|]. intros Hin%list_elem_of_In. done.
    + rewrite lookup_delete_ne by done. rewrite Hd. split; [by intros [|]|by right].
  - intros p re H. apply lookup_delete_Some in H as [_ H]. by apply Hr.
Qed.

Lemma cacheOK_add c pattern re : cacheOK c -> (length (order c) < maxCachedPatterns)%nat ->
  entries c !! pattern = None -> Compile (anchored pattern) = Ok re ->
  cacheOK (MkCache (<[pattern := re]> (entries c)) (order c ++ [pattern])).
Proof.
  intros [Hd Hn Hb Hr] Hl Hnone Hc. constructor; cbn.
  - intros p. rewrite in_app_iff. destruct (decide (p = pattern)) as [->|Hne].
    + rewrite lookup_insert_eq. split; [by right; left|by eexists].
    + rewrite lookup_insert_ne by done. rewrite Hd. split; [by left|]. intros [|[|[]]]; [done|by subst].
  - apply NoDup_app. split; [done|]. split; [|apply NoDup_singleton].
    intros p Hin ->%list_elem_of_singleton. apply list_elem_of_In, Hd in Hin as [? Hx]. congruence.
  - rewrite length_app. cbn. lia.
  - intros p re' H. apply lookup_insert_Some in H as [[<- <-]|[_ H]]; [done|by apply Hr].
Qed.

Lemma compiledPattern_spec c pattern : cacheOK c ->
  (compiledPattern pattern c).1 = Compile (anchored pattern) /\ cacheOK (compiledPattern pattern c).2.
Proof.
  intros Hc. unfold compiledPattern. destruct (entries c !! pattern) as [re|] eqn:E.
  { cbn. split; [|done]. symmetry. by apply (co_right c Hc). }
  destruct (Compile (anchored pattern)) as [re|e|m] eqn:Ec; [|done..].
  destruct (Nat.eqb_spec (length (order c)) maxCachedPatterns) as [Hl|Hl].
  - destruct (cacheOK_evict c Hc Hl) as (oldest & rest & Ho & Hc' & Hlt). rewrite Ho. cbn. split; [done|].
    apply (cacheOK_add _ pattern re Hc'); [done| |done]. cbn. by apply lookup_delete_None; right.
  - cbn. split; [done|]. apply cacheOK_add; [done| |done|done]. pose proof (co_bound c Hc). lia.
Qed.
End Patterns.

Arguments Cache M : clear implicits.

(** A sequence of lookups, with the answers in order. *)
Fixpoint lookups {M} (Compile : bytes -> result M) (ps : list bytes) (c : Cache M) : list (result M) * Cache M :=
  match ps with
  | [] => ([], c)
  | p :: rest =>
      let '(r, c) := compiledPattern Compile p c in
      let '(rs, c) := lookups Compile rest c in (r :: rs, c)
  end.

Lemma lookups_spec {M} (Compile : bytes -> result M) ps : forall c, cacheOK Compile c ->
  (lookups Compile ps c).1 = map (fun p => Compile (anchored p)) ps /\ cacheOK Compile (lookups Compile ps c).2.
Proof.
  induction ps as [|p ps IH]; intros c Hc; [done|]. cbn [lookups map].
  destruct (compiledPattern_spec Compile c p Hc) as [H1 H2].
  destruct (compiledPattern Compile p c) as [r c1]. cbn in H1, H2. subst r.
  destruct (IH c1 H2) as [H3 H4]. destruct (lookups Compile ps c1) as [rs c2]. cbn in *. by rewrite H3.
Qed.

(** The pattern cache is invisible and bounded: over any sequence of
    lookups every answer is what compiling the anchored pattern afresh would
    give, errors included, and the cache never holds more than 128 patterns
    nor the same one twice. *)
Theorem pattern_cache_transparent {M : Type} (Compile : bytes -> result M) (ps : list bytes) :
  let '(answers, c) := lookups Compile ps (emptyCache (M := M)) in
  answers = map (fun p => Compile (anchored p)) ps /\
  (length (order c) <= 128)%nat /\ NoDup (order c) /\ forall p, is_Some (entries c !! p) <-> In p (order c).
Proof.
  destruct (lookups_spec Compile ps emptyCache (emptyCache_OK Compile)) as [Ha Hc].
  destruct (lookups Compile ps emptyCache) as [answers c]. destruct Hc as [Hd Hn Hb _]. done.
Qed.

(** *** Validated parameters resolve declared templates *)
Lemma insertName_In x y l : In y (insertName x l) <-> x = y \/ In y l.
Proof.
  induction l as [|z l IH]; [done|]. cbn [insertName]. destruct (bytes_leb x z); [done|].
  cbn. rewrite IH. naive_solver.
Qed.

Lemma names_In m n : In n (names m) <-> is_Some (m !! n).
Proof.
  unfold names. transitivity (In n (map fst (map_to_list m))).
  - induction (map fst (map_to_list m)) as [|x l IH]; [done|]. cbn [foldr]. rewrite insertName_In. cbn. by rewrite IH.
  - rewrite in_map_iff. split.
    + intros ([k v] & <- & Hin). apply list_elem_of_In, elem_of_map_to_list in Hin. by exists v.
    + intros [v Hv]. exists (n, v). split; [done|]. by apply list_elem_of_In, elem_of_map_to_list.
Qed.

Lemma validateDeclared_Ok {M} Compile (MatchString : M -> bytes -> bool) decls supplied ns : forall c c',
  validateDeclared Compile MatchString decls supplied ns c = (Ok (), c') ->
  forall n, In n ns -> is_Some (supplied !! n).
Proof.
  induction ns as [|n ns IH]; intros c c' H m Hin; [done|]. cbn [validateDeclared] in H.
  apply st_bind_Ok in H as ([] & c1 & _ & H). destruct (supplied !! n) as [v|] eqn:E; [|discriminate].
  apply st_bind_Ok in H as (re & c2 & _ & H). destruct (MatchString re v); [|discriminate].
  destruct Hin as [<-|Hin]; [by rewrite E|by eapply IH].
Qed.

Lemma Validate_Ok {M} Compile (MatchString : M -> bytes -> bool) decls supplied c c' :
  Validate Compile MatchString decls supplied c = (Ok (), c') ->
  forall n, is_Some (decls !! n) <-> is_Some (supplied !! n).
Proof.
  unfold Validate. intros ([] & c1 & _ & H)%st_bind_Ok n.
  destruct (forallb _ (names supplied)) eqn:E; [|discriminate]. split.
  - intros Hd. eapply validateDeclared_Ok; [exact H|]. by apply names_In.
  - intros Hs. apply names_In in Hs. apply (forallb_In _ _ _ E) in Hs. by destruct (decls !! n).
Qed.

Lemma Resolve_bounded value supplied m out : 0 <= m -> Resolve value supplied m = Ok out -> Z.of_nat (length out) <= m.
Proof.
  intros Hm. unfold Resolve, transform, mbind, st_bind.
  destruct (transformLoop _ _ _ _ _) as [[r|e|p] u]; [|discriminate..].
  destruct (tooLong m r) eqn:E; [discriminate|]. intros [= <-]. unfold tooLong in E.
  apply andb_false_iff in E as [E|E]; [apply Z.leb_gt in E; lia|apply Z.ltb_ge in E; lia].
Qed.

(** A config template accepted when it is published can be delivered.
    A value whose references are all declared is a template: literals and
    references. For every set of supplied values that passes validation against
    the declarations, resolving it substitutes each reference once - the
    substituted text is not scanned again - and the only way left to fail is
    the size bound, which the delivered text never exceeds. *)
Theorem declared_templates_resolve {M : Type} (Compile : bytes -> result M) (MatchString : M -> bytes -> bool)
    (value : bytes) (declarations supplied : params) (c c' : Cache M) (maxBytes : Z) :
  declarations <> ∅ -> CheckReferences value declarations = Ok () ->
  Validate Compile MatchString declarations supplied c = (Ok (), c') ->
  exists t, wellFormed t /\ value = printTemplate t /\
    let out := renderTemplate (fun n => default [] (supplied !! n)) t in
    (tooLong maxBytes out = false -> Resolve value supplied maxBytes = Ok out) /\
    (forall out', 0 <= maxBytes -> Resolve value supplied maxBytes = Ok out' -> Z.of_nat (length out') <= maxBytes).
Proof.
  intros Hne Hrefs Hv. unfold CheckReferences in Hrefs. rewrite bool_decide_eq_false_2 in Hrefs by done.
  apply bind_Ok in Hrefs as (refs & Hr & Hd). apply References_Ok in Hr as (t & Hwf & -> & ->).
  exists t. split; [done|]. split; [done|]. split; [|intros; by eapply Resolve_bounded].
  intros Hfit. apply Resolve_template; [done| |done]. destruct (forallb _ (map snd (t_refs t))) eqn:E; [|discriminate].
  apply Forall_forall. intros p Hin%list_elem_of_In. apply (Validate_Ok _ _ _ _ _ _ Hv).
  pose proof (forallb_In _ _ p.2 E (in_map snd _ _ Hin)) as Hp. cbn in Hp. by destruct (declarations !! p.2).
Qed.

(** The accept-everything compiler the witness uses. *)
Definition acceptAll : bytes -> result unit := fun _ => Ok ().
Definition X : bytes := map chr [88].
Definition sampleParams : params := {[X := map chr [118]]}.

Definition sampleTemplate : bytes := map chr [97; 36; 123; 88; 125].

Lemma declared_templates_resolve_witness :
  (exists t, wellFormed t /\ sampleTemplate = printTemplate t) /\
  Resolve sampleTemplate sampleParams 64 = Ok (map chr [97; 118]).
Proof.
  split; [|vm_compute; reflexivity].
  assert (Validate acceptAll (fun _ _ => true) sampleParams sampleParams emptyCache =
    (Ok (), (Validate acceptAll (fun _ _ => true) sampleParams sampleParams emptyCache).2)) as H
    by (vm_compute; reflexivity).
  assert (sampleParams <> ∅) as Hne.
  { intros E. apply (f_equal (fun m : params => m !! X)) in E. vm_compute in E. discriminate E. }
  destruct (declared_templates_resolve acceptAll (fun _ _ => true) sampleTemplate sampleParams sampleParams emptyCache
    _ 64 Hne ltac:(vm_compute; reflexivity) H) as (t & Hwf & Ht & _).
  exists t. split; [exact Hwf|exact Ht].
Defined.

(** Printing and scanning templates are inverse: every well-formed template
    prints to a value whose references are exactly its own, in order, whatever
    bytes its literals hold - openers included - and every value the scanner
    accepts is the print of such a template. *)
Theorem template_roundtrip (value : bytes) (refs : list bytes) :
  References value = Ok refs <->
  exists t, wellFormed t /\ value = printTemplate t /\ refs = map snd (t_refs t).
Proof.
  split; [apply References_Ok|]. intros (t & Hwf & -> & ->). by apply References_template.
Qed.

(** *** Published values that are not templates are delivered as they are *)
Fixpoint containsEscaped (v : bytes) : bool :=
  match v with
  | [] => false
  | _ :: v' => match CutPrefix (DOLLAR :: opener) v with Some _ => true | None => containsEscaped v' end
  end.

Lemma containsEscaped_app p rest : containsEscaped (p ++ DOLLAR :: opener ++ rest) = true.
Proof.
  induction p as [|c p IH]; [reflexivity|]. cbn [app containsEscaped]. by destruct (CutPrefix _ _).
Qed.

Lemma plain_value value : References value = Ok [] -> containsEscaped value = false -> indexRef value = None.
Proof.
  intros (t & _ & -> & Hr)%References_Ok Hc. destruct t as [[|] tail]; [|discriminate].
  unfold printTemplate in *. cbn [t_refs map concat t_tail app] in *.
  destruct (indexRef tail) as [[p q]|] eqn:E; [|by rewrite indexRef_None_escape].
  pose proof (indexRef_before _ _ _ E) as Hp. apply indexRef_split in E as ->.
  rewrite escapeLit_app in Hc by done. by rewrite containsEscaped_app in Hc.
Qed.

(** [publishEnvironment]: whether a set config cell's value is recorded as
    templated in the snapshot's contract ([declarations] is not empty). *)
Definition recordsSchema (declarations : params) (value : bytes) : result bool :=
  _ ← CheckReferences value declarations;
  refs ← References value;
  Ok (negb (length refs =? 0)%nat || containsEscaped value).

(** [resolveConfig] on a config key; [schemas] is the contract's record, and
    [validateLiteral] the declaration's check of the final text. *)
Definition resolveConfig (schemas : gmap bytes bytes) (validateLiteral : bytes -> bytes -> result unit)
    (maxBytes : Z) (supplied : params) (isConfig : bool) (name value : bytes) : result bytes :=
  if negb isConfig then Ok value
  else match schemas !! name with
  | None => Ok value
  | Some declaration =>
      match Resolve value supplied maxBytes with
      | Err e => paramErr "invalid: key"
      | Panic m => Panic m
      | Ok resolved => _ ← validateLiteral declaration resolved; Ok resolved
      end
  end.

Lemma recordsSchema_false declarations value supplied maxBytes :
  recordsSchema declarations value = Ok false -> tooLong maxBytes value = false ->
  Resolve value supplied maxBytes = Ok value.
Proof.
  intros Hr Hfit. unfold recordsSchema in Hr. apply bind_Ok in Hr as ([] & _ & Hr).
  apply bind_Ok in Hr as (refs & Hrefs & [= Hb]). apply orb_false_elim in Hb as [Hl Hc].
  destruct refs as [|? ?]; [|discriminate]. pose proof (plain_value value Hrefs Hc) as Hi.
  pose proof (Resolve_template (MkTemplate [] value) supplied maxBytes) as H.
  unfold printTemplate, renderTemplate in H. cbn [t_refs t_tail map concat app] in H.
  rewrite indexRef_None_escape in H by done. apply H; [constructor|constructor|done].
Qed.

(** Delivery agrees with resolution whether or not publication recorded the
    value as a template: a config value that was not recorded has neither a
    reference nor an escaped opener, so delivering it unchanged is exactly what
    resolving it would deliver, for every set of supplied parameters. *)
Theorem unrecorded_values_deliver_unchanged (declarations supplied : params) (schemas : gmap bytes bytes)
    (validateLiteral : bytes -> bytes -> result unit) (name value : bytes) (maxBytes : Z) :
  recordsSchema declarations value = Ok false -> schemas !! name = None -> tooLong maxBytes value = false ->
  resolveConfig schemas validateLiteral maxBytes supplied true name value = Ok value /\
  Resolve value supplied maxBytes = Ok value.
Proof.
  intros Hr Hs Hfit. split; [unfold resolveConfig; cbn [negb]; by rewrite Hs|]. by eapply recordsSchema_false.
Qed.

Lemma unrecorded_values_deliver_unchanged_witness :
  resolveConfig ∅ (fun _ _ => Ok ()) 64 sampleParams true X (map chr [36; 36; 97; 123]) = Ok (map chr [36; 36; 97; 123]).
Proof.
  refine (proj1 (unrecorded_values_deliver_unchanged sampleParams sampleParams ∅ (fun _ _ => Ok ()) X
    (map chr [36; 36; 97; 123]) 64 _ _ _)); vm_compute; reflexivity.
Defined.
