(* ===== verification/Coordination.v ===== *)
(** * Multi-node coordination: [internal/store/coordination*.go]

    The coordination tables and the operations on them, on the PostgreSQL
    engine (the only one multi-node installations run on): the fenced singleton
    leases, the node registry, the shared admission counters and the MCP
    admission tables. Every exported operation is one transaction; the fate of
    its connection (refused, committed, response lost) is an argument. *)

From S2P Require Import Prelude.
From S2P Require Import AuditEvent.

#[local] Open Scope Z_scope.

(** Durations in nanoseconds. *)
Definition Second : Z := 1000000000.
Definition Minute : Z := 60 * Second.

Definition accountWindow : Time := 62135596800 * Second.
Definition AccountBucket : string := "account".
Definition IPBucket : string := "ip".
Definition MetaBucket : string := "meta".
Definition IssuerBucket : string := "issuer".

Definition MCPRateCapacity : Z := 20.
Definition MCPRateRefillInterval : Z := Second.
Definition MCPPrincipalLimit : Z := 4.
Definition MCPOrganizationLimit : Z := 8.
Definition MCPInstanceLimit : Z := 64.

Definition ErrMCPAdmissionLimited : error := ESentinel "store.ErrMCPAdmissionLimited".
Definition ErrMixedRootKey : error := ESentinel "store.ErrMixedRootKey".
Definition ErrSingletonLeaseLost : error := ESentinel "store.ErrSingletonLeaseLost".
Definition ErrConflict : error := ESentinel "domain.ErrConflict".

(** ** Tables *)
Record leaseRow := MkLeaseRow { owner : string; fence_token : Z; acquired_at : Time; expires_at : Time }.
Record counterRow := MkCounterRow { hits : Z; failures : Z; until_at : option Time }.
Record inflightRow := MkInflightRow { principal_id : string; org_id : string; claim_expires : Time }.
Record HANode := MkHANode {
  NodeID : string; BinaryVersion : string; SchemaVersion : Z; RootKeyFingerprint : string;
  StartedAt : Time; HeartbeatAt : Time }.

(** The topology assignment in force, as [currentTopology] reads it. *)
Record topologyAssignment := MkTopology {
  After_NodeID : string; After_HA : bool; Stamp : string; Restoring : bool }.

(** [clock] is [clock_timestamp()]; a transaction's [now()] is the instant it
    began, an argument of the operations that read it. [topology] is what [currentTopology] answers. *)
Record DB := MkDB {
  clock : Time;
  topology : result (option topologyAssignment);
  singleton_leases : gmap string leaseRow;
  ha_nodes : gmap string HANode;
  admission_counters : gmap (string * string * Z) counterRow;
  mcp_rate_buckets : gmap string Time;
  mcp_inflight : gmap string inflightRow }.

Definition with_leases m d := MkDB (clock d) (topology d) m (ha_nodes d) (admission_counters d) (mcp_rate_buckets d) (mcp_inflight d).
Definition with_nodes m d := MkDB (clock d) (topology d) (singleton_leases d) m (admission_counters d) (mcp_rate_buckets d) (mcp_inflight d).
Definition with_counters m d := MkDB (clock d) (topology d) (singleton_leases d) (ha_nodes d) m (mcp_rate_buckets d) (mcp_inflight d).
Definition with_mcp r i d := MkDB (clock d) (topology d) (singleton_leases d) (ha_nodes d) (admission_counters d) r i.
Definition with_clock t d := MkDB t (topology d) (singleton_leases d) (ha_nodes d) (admission_counters d) (mcp_rate_buckets d) (mcp_inflight d).

(** ** Transactions *)

(** What becomes of a transaction's connection: it works, it fails before the
    commit, or the commit's response is lost, in which case the commit may or
    may not have happened. *)
Inductive weather := Fine | Broken (e : error) | ResponseLost (committed : bool) (e : error).

(** The closure's value is what it left in the captured variables; an error
    rolls back. *)
Definition transaction {A} (w : weather) (fn : ST DB A) (d : DB) : (option A * option error) * DB :=
  match w with
  | Broken e => ((None, Some e), d)
  | _ =>
      match fn d with
      | (Ok a, d') =>
          match w with
          | ResponseLost committed e => ((Some a, Some e), if committed then d' else d)
          | _ => ((Some a, None), d')
          end
      | (Err e, _) => ((None, Some e), d)
      | (Panic _, _) => ((None, None), d)
      end
  end.

(** The usual wrapper: an error discards the value. *)
Definition transactionResult {A} (w : weather) (fn : ST DB A) (d : DB) : result A * DB :=
  match transaction w fn d with
  | ((_, Some e), d') => (Err e, d')
  | ((Some a, None), d') => (Ok a, d')
  | ((None, None), d') => (Panic "coordination", d')
  end.

(** ** Singleton lease *)
Section Process.
(** The identity [ForSingletonProcess] binds at startup. *)
Context (runtimeNodeID runtimeTemplateStamp : string).

Definition topologyLeaseAllowed (nodeID : string) : ST DB () := fun d =>
  match topology d with
  | Err e => (Err e, d)
  | Panic p => (Panic p, d)
  | Ok None => (Ok (), d)
  | Ok (Some a) =>
      if Restoring a || negb (After_HA a) || (After_NodeID a <>s nodeID)
         || (runtimeNodeID <>s nodeID) || (runtimeTemplateStamp <>s Stamp a)
      then (Err ErrConflict, d) else (Ok (), d)
  end.

Definition leaseGate (name owner : string) : ST DB () :=
  if name =s "scheduler" then topologyLeaseAllowed owner else mret ().

(** [INSERT … ON CONFLICT (name) DO UPDATE … WHERE expires_at <= now RETURNING
    fence_token]; no row means the lease is not claimed. *)
Definition claimRow (name own : string) (now expires : Time) : ST DB (Z * bool) := fun d =>
  match singleton_leases d !! name with
  | None => (Ok (1, true), with_leases (<[name := MkLeaseRow own 1 now expires]> (singleton_leases d)) d)
  | Some r =>
      if expires_at r <=? now then
        (Ok (fence_token r + 1, true),
         with_leases (<[name := MkLeaseRow own (fence_token r + 1) now expires]> (singleton_leases d)) d)
      else (Ok (0, false), d)
  end.

Definition claimLeaseTx (name own : string) (now expires : Time) : ST DB (Z * bool) :=
  leaseGate name own ≫= fun _ => claimRow name own now expires.

(** The fence of a failed commit is returned beside the error. *)
Definition ClaimLease (w : weather) (name own : string) (now expires : Time) (d : DB) : (Z * bool * option error) * DB :=
  let '((captured, err), d') := transaction w (claimLeaseTx name own now expires) d in
  let '(fence, held) := default (0, false) captured in
  match err with
  | Some e => ((fence, false, Some e), d')
  | None => ((fence, held, None), d')
  end.

(** [UPDATE … SET expires_at WHERE name AND owner AND fence_token AND
    expires_at > now]: whether exactly one row matched. *)
Definition renewRow (name own : string) (fence : Z) (now expires : Time) : ST DB bool := fun d =>
  match singleton_leases d !! name with
  | Some r =>
      if (owner r =s own) && (fence_token r =? fence) && (now <? expires_at r) then
        (Ok true, with_leases (<[name := MkLeaseRow (owner r) (fence_token r) (acquired_at r) expires]> (singleton_leases d)) d)
      else (Ok false, d)
  | None => (Ok false, d)
  end.

Definition RenewLease (w : weather) (name own : string) (fence : Z) (now expires : Time) (d : DB) : result bool * DB :=
  transactionResult w (leaseGate name own ≫= fun _ => renewRow name own fence now expires) d.

Definition releaseRow (name own : string) (fence : Z) : ST DB () := fun d =>
  match singleton_leases d !! name with
  | Some r =>
      if (owner r =s own) && (fence_token r =? fence) then
        (Ok (), with_leases (<[name := MkLeaseRow (owner r) (fence_token r) (acquired_at r) accountWindow]> (singleton_leases d)) d)
      else (Ok (), d)
  | None => (Ok (), d)
  end.

Definition ReleaseLease (w : weather) (name own : string) (fence : Z) (d : DB) : result () * DB :=
  transactionResult w (releaseRow name own fence) d.

Definition Now (w : weather) (began : Time) (d : DB) : result Time * DB :=
  transactionResult w (fun d => (Ok began, d)) d.

Definition LeaseHolder (w : weather) (name : string) (now : Time) (d : DB) : result (string * Time * bool) * DB :=
  transactionResult w (fun d =>
    (match singleton_leases d !! name with
     | None => Ok ("", 0, false)
     | Some r => Ok (owner r, acquired_at r, now <? expires_at r)
     end, d)) d.

(** ** Node registry *)
Definition foreignLive (nodeID fingerprint : string) (since : Time) (n : HANode) : bool :=
  (NodeID n <>s nodeID) && (RootKeyFingerprint n <>s fingerprint) && (since <=? HeartbeatAt n).

(** [started_at] is kept on conflict. *)
Definition upsertRow (n : HANode) : ST DB () := fun d =>
  let started := match ha_nodes d !! NodeID n with Some old => StartedAt old | None => StartedAt n end in
  (Ok (), with_nodes (<[NodeID n := MkHANode (NodeID n) (BinaryVersion n) (SchemaVersion n) (RootKeyFingerprint n) started (HeartbeatAt n)]> (ha_nodes d)) d).

Definition UpsertNode (w : weather) (n : HANode) (d : DB) : result () * DB :=
  transactionResult w (topologyLeaseAllowed (NodeID n) ≫= fun _ => upsertRow n) d.

Definition foreignCount (n : HANode) (since : Time) (d : DB) : nat :=
  length (List.filter (foreignLive (NodeID n) (RootKeyFingerprint n) since) (map_to_list (ha_nodes d)).*2).

Definition registerRow (n : HANode) (since : Time) : ST DB () := fun d =>
  if (0 <? foreignCount n since d)%nat then (Err ErrMixedRootKey, d) else upsertRow n d.

Definition RegisterNodeChecked (w : weather) (n : HANode) (since : Time) (d : DB) : result () * DB :=
  transactionResult w (topologyLeaseAllowed (NodeID n) ≫= fun _ => registerRow n since) d.

Definition CountLiveNodes (w : weather) (since : Time) (d : DB) : result Z * DB :=
  transactionResult w (fun d =>
    (Ok (Z.of_nat (length (List.filter (fun n => since <=? HeartbeatAt n) (map_to_list (ha_nodes d)).*2))), d)) d.

Definition PruneNodes (w : weather) (cutoff : Time) (d : DB) : result () * DB :=
  transactionResult w (fun d =>
    (Ok (), with_nodes (filter (fun kv => negb (HeartbeatAt kv.2 <? cutoff) = true) (ha_nodes d)) d)) d.

Definition ForeignRootKeyFingerprints (w : weather) (nodeID fingerprint : string) (since : Time) (d : DB) : result (list string) * DB :=
  transactionResult w (fun d =>
    (Ok (remove_dups (map RootKeyFingerprint (List.filter (foreignLive nodeID fingerprint since) (map_to_list (ha_nodes d)).*2))), d)) d.
End Process.

(** ** Admission counters *)
Definition BumpWindow (w : weather) (bucket subject : string) (windowStart : Time) (d : DB) : result Z * DB :=
  transactionResult w (fun d =>
    let key := (bucket, subject, windowStart) in
    let row := default (MkCounterRow 0 0 None) (admission_counters d !! key) in
    (Ok (hits row + 1), with_counters (<[key := MkCounterRow (hits row + 1) (failures row) (until_at row)]> (admission_counters d)) d)) d.

Definition accountKey (subject : string) : string * string * Z := (AccountBucket, subject, accountWindow).

(** Failures, last failure, datastore time, presence. *)
Definition AccountFailureState (w : weather) (began : Time) (subject : string) (d : DB) : result (Z * Time * Time * bool) * DB :=
  transactionResult w (fun d =>
    (match admission_counters d !! accountKey subject with
     | None => Ok (0, 0, 0, false)
     | Some r => Ok (failures r, default 0 (until_at r), began, true)
     end, d)) d.

(** [GREATEST] ignores a NULL; the caller's clock is not used. *)
Definition RecordAccountFailure (w : weather) (began : Time) (subject : string) (now : Time) (d : DB) : result Z * DB :=
  transactionResult w (fun d =>
    let row :=
      match admission_counters d !! accountKey subject with
      | None => MkCounterRow 0 1 (Some began)
      | Some r => MkCounterRow (hits r) (failures r + 1) (Some (match until_at r with Some u => Z.max u began | None => began end))
      end in
    (Ok (failures row), with_counters (<[accountKey subject := row]> (admission_counters d)) d)) d.

Definition PruneAccountBackoff (w : weather) (cutoff : Time) (d : DB) : result () * DB :=
  transactionResult w (fun d =>
    (Ok (), with_counters (filter (fun kv =>
       negb ((kv.1.1.1 =s AccountBucket) && match until_at kv.2 with None => true | Some u => u <? cutoff end) = true)
       (admission_counters d)) d)) d.

Definition ClearAccount (w : weather) (subject : string) (d : DB) : result () * DB :=
  transactionResult w (fun d => (Ok (), with_counters (delete (accountKey subject) (admission_counters d)) d)) d.

Definition PruneAdmissionWindows (w : weather) (cutoff : Time) (d : DB) : result () * DB :=
  transactionResult w (fun d =>
    (Ok (), with_counters (filter (fun kv =>
       negb ((kv.1.1.1 <>s AccountBucket) && (kv.1.2 <? cutoff)) = true) (admission_counters d)) d)) d.

(** ** MCP admission *)
Definition countWhere (p : inflightRow -> bool) (m : gmap string inflightRow) : Z :=
  Z.of_nat (size (filter (fun kv => p kv.2 = true) m)).

Definition pruneExpired (now : Time) (m : gmap string inflightRow) : gmap string inflightRow :=
  filter (fun kv => negb (claim_expires kv.2 <=? now) = true) m.

Definition acquireMCPPostgres (now : Time) (callID principalID orgID : string) (ttl : Z) : ST DB () := fun d =>
  let inflight := pruneExpired now (mcp_inflight d) in
  let principalCount := countWhere (fun r => principal_id r =s principalID) inflight in
  let orgCount := countWhere (fun r => org_id r =s orgID) inflight in
  let instanceCount := countWhere (fun _ => true) inflight in
  if (MCPPrincipalLimit <=? principalCount) || (MCPOrganizationLimit <=? orgCount) || (MCPInstanceLimit <=? instanceCount)
  then (Err ErrMCPAdmissionLimited, d)
  else
    let nextAt := default now (mcp_rate_buckets d !! principalID) in
    if now + (MCPRateCapacity - 1) * MCPRateRefillInterval <? nextAt then (Err ErrMCPAdmissionLimited, d)
    else
      let nextAt := (if nextAt <? now then now else nextAt) + MCPRateRefillInterval in
      match inflight !! callID with
      | Some _ => (Err (EWrap "store: insert MCP claim" (EPg "23505")), d)
      | None => (Ok (), with_mcp (<[principalID := nextAt]> (mcp_rate_buckets d))
                                 (<[callID := MkInflightRow principalID orgID (now + ttl)]> inflight) d)
      end.

Definition AcquireMCP (w : weather) (began : Time) (callID principalID orgID : string) (ttl : Z) (d : DB) : result () * DB :=
  transactionResult w (fun d =>
    if (callID =s "") || (principalID =s "") || (orgID =s "") || (ttl <=? 0)
    then (Err (ENew "store: invalid MCP admission claim"), d)
    else acquireMCPPostgres began callID principalID orgID ttl d) d.

Definition ReleaseMCP (w : weather) (callID : string) (d : DB) : result () * DB :=
  transactionResult w (fun d =>
    if callID =s "" then (Err (ENew "store: empty MCP admission call id"), d)
    else (Ok (), with_mcp (mcp_rate_buckets d) (delete callID (mcp_inflight d)) d)) d.

(** ** The fence guard of a singleton job's transaction *)
Record singletonLease := MkSingletonLease { sl_name : string; sl_owner : string; sl_fence : Z }.

(** The update keeps the row; it matches while the term is current and live at
    [clock_timestamp()]. *)
Definition leaseLive (l : singletonLease) (d : DB) : bool :=
  match singleton_leases d !! sl_name l with
  | Some r => (owner r =s sl_owner l) && (fence_token r =? sl_fence l) && (clock d <? expires_at r)
  | None => false
  end.

Definition GuardPGSingletonLease (lease : option singletonLease) : ST DB () := fun d =>
  match lease with
  | None => (Ok (), d)
  | Some l => if leaseLive l d then (Ok (), d) else (Err ErrSingletonLeaseLost, d)
  end.
