(* ===== verification/CoordinationSpec.v ===== *)
(** * What the coordination tables guarantee

    MCP admission: the rate each principal gets in any interval and the
    capacity held at any instant, over every interleaving of calls, crashes and
    lost responses; and the root-key check of node registration. *)

From S2P Require Import Prelude.
From S2P Require Import AuditEvent.
From S2P Require Import Coordination.

#[local] Open Scope Z_scope.

(** ** Transactions *)
(** A transaction leaves the state the closure made, or the one it found. *)
Lemma transaction_states {A} w (fn : ST DB A) d o d' :
  transaction w fn d = (o, d') -> d' = d \/ exists a, fn d = (Ok a, d').
Proof.
  unfold transaction. destruct w as [|e|committed e]; [|by intros [= <- <-]; left|].
  - destruct (fn d) as [[a|e|m] d1]; intros [= <- <-]; [right; by eexists|by left..].
  - destruct (fn d) as [[a|e'|m] d1]; [|intros [= <- <-]; by left..].
    destruct committed; intros [= <- <-]; [right; by eexists|by left].
Qed.

Lemma transactionResult_states {A} w (fn : ST DB A) d r d' :
  transactionResult w fn d = (r, d') -> (d' = d \/ exists a, fn d = (Ok a, d')) /\ (forall a, r = Ok a -> fn d = (Ok a, d')).
Proof.
  unfold transactionResult. destruct (transaction w fn d) as [[cap err] d1] eqn:E. intros H.
  assert (d1 = d') as -> by (destruct err, cap; by injection H). split; [exact (transaction_states _ _ _ _ _ E)|].
  intros a ->. destruct err, cap; try discriminate H. injection H as ->. revert E. unfold transaction.
  destruct w as [|e|committed e]; [|discriminate|]; destruct (fn d) as [[a'|e'|m] d1]; try discriminate. by intros [= <- <-].
Qed.

(** ** MCP: the run of a cluster *)
Inductive mcpEvent :=
  | MAcquire (w : weather) (began : Time) (callID principalID orgID : string) (ttl : Z)
  | MRelease (w : weather) (callID : string)
  | MClock (t : Time).

(** One event: whether it was an admitted call, and the tables after it. *)
Definition mcpStep (ev : mcpEvent) (d : DB) : bool * DB :=
  match ev with
  | MAcquire w began c p o ttl => let '(r, d') := AcquireMCP w began c p o ttl d in (is_ok r, d')
  | MRelease w c => (false, (ReleaseMCP w c d).2)
  | MClock t => (false, with_clock t d)
  end.

Definition eventPrincipal (ev : mcpEvent) : string :=
  match ev with MAcquire _ _ _ p _ _ => p | _ => "" end.

Fixpoint mcpRun (evs : list mcpEvent) (d : DB) : DB :=
  match evs with [] => d | ev :: evs' => mcpRun evs' (mcpStep ev d).2 end.

(** How many calls of principal [p] the run admits. *)
Fixpoint admitted (p : string) (evs : list mcpEvent) (d : DB) : Z :=
  match evs with
  | [] => 0
  | ev :: evs' =>
      (if (mcpStep ev d).1 && (eventPrincipal ev =s p) then 1 else 0) + admitted p evs' (mcpStep ev d).2
  end.

Lemma acquire_effect now c p o ttl d d' :
  acquireMCPPostgres now c p o ttl d = (Ok (), d') ->
  let inflight := pruneExpired now (mcp_inflight d) in
  countWhere (fun r => principal_id r =s p) inflight < MCPPrincipalLimit /\
  countWhere (fun r => org_id r =s o) inflight < MCPOrganizationLimit /\
  countWhere (fun _ => true) inflight < MCPInstanceLimit /\
  inflight !! c = None /\
  let nextAt := default now (mcp_rate_buckets d !! p) in
  nextAt <= now + (MCPRateCapacity - 1) * MCPRateRefillInterval /\
  d' = with_mcp (<[p := Z.max nextAt now + MCPRateRefillInterval]> (mcp_rate_buckets d))
                (<[c := MkInflightRow p o (now + ttl)]> inflight) d.
Proof.
  unfold acquireMCPPostgres. cbv zeta. set (inflight := pruneExpired now (mcp_inflight d)).
  destruct ((MCPPrincipalLimit <=? _) || _ || _) eqn:E; [discriminate|]. bools. intros Hres.
  destruct (Z.ltb_spec (now + (MCPRateCapacity - 1) * MCPRateRefillInterval) (default now (mcp_rate_buckets d !! p))); [discriminate|].
  destruct (inflight !! c) eqn:El; [discriminate|]. injection Hres as <-.
  repeat match goal with H : (_ <=? _) = false |- _ => apply Z.leb_gt in H end.
  do 5 (split; [done|]). do 3 f_equal.
  destruct (Z.ltb_spec (default now (mcp_rate_buckets d !! p)) now); lia.
Qed.

Lemma acquire_state w began c p o ttl d r d' :
  AcquireMCP w began c p o ttl d = (r, d') -> d' = d \/ acquireMCPPostgres began c p o ttl d = (Ok (), d').
Proof.
  intros [[?|([] & Ha)] _]%transactionResult_states; [by left|]. right. revert Ha. by destruct (_ || _).
Qed.

Lemma acquire_Ok w began c p o ttl d d' :
  AcquireMCP w began c p o ttl d = (Ok (), d') -> acquireMCPPostgres began c p o ttl d = (Ok (), d').
Proof. intros [_ Ha]%transactionResult_states. specialize (Ha () eq_refl). revert Ha. by destruct (_ || _). Qed.

Lemma release_state w c d : exists m, (ReleaseMCP w c d).2 = with_mcp (mcp_rate_buckets d) m d /\ (m = mcp_inflight d \/ m = delete c (mcp_inflight d)).
Proof.
  destruct (ReleaseMCP w c d) as [r d'] eqn:E. apply transactionResult_states in E as [[->|([] & E)] _]; cbn.
  - exists (mcp_inflight d). split; [by destruct d|by left].
  - destruct (c =s ""); [discriminate|]. injection E as <-. eexists. split; [done|by right].
Qed.

(** ** Rate *)
Section Rate.
Context (p : string) (t0 t1 : Time).

(** The bucket's next instant, seen from the start of the interval. *)
Definition bucketLevel (d : DB) : Z := Z.max t0 (default t0 (mcp_rate_buckets d !! p)).

Definition begunWithin (ev : mcpEvent) : Prop :=
  match ev with MAcquire _ began _ _ _ _ => t0 <= began <= t1 | _ => True end.

Lemma bucket_after now q i d :
  t0 <= now ->
  bucketLevel d + (if q =s p then MCPRateRefillInterval else 0) <=
  bucketLevel (with_mcp (<[q := Z.max (default now (mcp_rate_buckets d !! q)) now + MCPRateRefillInterval]> (mcp_rate_buckets d)) i d).
Proof.
  unfold bucketLevel. intros Ht. cbn [mcp_rate_buckets with_mcp]. destruct (String.eqb_spec q p) as [->|Hne].
  - rewrite lookup_insert_eq. destruct (mcp_rate_buckets d !! p); cbn; unfold MCPRateRefillInterval, Second; lia.
  - rewrite lookup_insert_ne by done. lia.
Qed.

Lemma rate_step ev d :
  begunWithin ev ->
  bucketLevel d + (if (mcpStep ev d).1 && (eventPrincipal ev =s p) then MCPRateRefillInterval else 0) <= bucketLevel (mcpStep ev d).2.
Proof.
  destruct ev as [w began c q o ttl|w c|t]; cbn [begunWithin mcpStep eventPrincipal]; intros Hb.
  - destruct (AcquireMCP w began c q o ttl d) as [r d'] eqn:E. cbn [fst snd].
    assert (bucketLevel d + (if q =s p then MCPRateRefillInterval else 0) <= bucketLevel d' \/ (is_ok r = false /\ d' = d)) as Hl.
    { destruct r as [[]|e|m]; [left|..].
      - apply acquire_Ok, acquire_effect in E as (_ & _ & _ & _ & _ & ->). apply bucket_after, Hb.
      - apply acquire_state in E as [->|(_ & _ & _ & _ & _ & ->)%acquire_effect]; [by right|left]. apply bucket_after, Hb.
      - apply acquire_state in E as [->|(_ & _ & _ & _ & _ & ->)%acquire_effect]; [by right|left]. apply bucket_after, Hb. }
    destruct Hl as [Hl|[-> ->]]; [|cbn; lia].
    destruct (is_ok r), (q =s p); cbn in *; unfold MCPRateRefillInterval, Second in *; lia.
  - destruct (release_state w c d) as (m & -> & _). unfold bucketLevel. cbn. lia.
  - unfold bucketLevel. cbn. lia.
Qed.

Lemma rate_cap ev d :
  begunWithin ev -> (mcpStep ev d).1 && (eventPrincipal ev =s p) = true ->
  bucketLevel (mcpStep ev d).2 <= t1 + MCPRateCapacity * MCPRateRefillInterval.
Proof.
  destruct ev as [w began c q o ttl|w c|t]; cbn [begunWithin mcpStep eventPrincipal]; intros Hb; try discriminate.
  destruct (AcquireMCP w began c q o ttl d) as [r d'] eqn:E. cbn [fst snd]. intros Hok. bools. subst q.
  destruct r as [[]|e|m]; try discriminate.
  apply acquire_Ok, acquire_effect in E as (_ & _ & _ & _ & Hn & ->). unfold bucketLevel. cbn.
  rewrite lookup_insert_eq. cbn. unfold MCPRateCapacity, MCPRateRefillInterval, Second in *. lia.
Qed.

Lemma rate_run evs d :
  Forall begunWithin evs ->
  admitted p evs d = 0 \/ bucketLevel d + admitted p evs d * MCPRateRefillInterval <= t1 + MCPRateCapacity * MCPRateRefillInterval.
Proof.
  intros H. revert d. induction H as [|ev evs Hev _ IH]; intros d; [by left|]. cbn [admitted].
  pose proof (rate_step ev d Hev). pose proof (rate_cap ev d Hev) as Hcap.
  destruct (IH (mcpStep ev d).2) as [Hz|Hk].
  - rewrite Hz. destruct (_ && _); [|by left]. right. specialize (Hcap eq_refl). lia.
  - right. destruct (_ && _); lia.
Qed.
End Rate.

(** MCP rate: over any interval, whatever calls, releases, lost responses
    and other principals' traffic interleave in it, one principal is admitted
    at most the bucket's capacity of 20 plus one call per elapsed second. *)
Theorem mcp_rate_bounded (p : string) (t0 t1 : Time) (evs : list mcpEvent) (d : DB) :
  t0 <= t1 -> Forall (begunWithin t0 t1) evs ->
  admitted p evs d <= MCPRateCapacity + (t1 - t0) / MCPRateRefillInterval.
Proof.
  intros Ht H. pose proof (Z.div_pos (t1 - t0) MCPRateRefillInterval ltac:(lia) ltac:(done)).
  destruct (rate_run p t0 t1 evs d H) as [->|Hk]; [unfold MCPRateCapacity; lia|].
  assert (t0 <= bucketLevel p t0 d) by (unfold bucketLevel; lia).
  assert (admitted p evs d - MCPRateCapacity <= (t1 - t0) / MCPRateRefillInterval); [|lia].
  apply Z.div_le_lower_bound; [done|]. lia.
Qed.

Definition emptyDB (t : Time) : DB := MkDB t (Ok None) ∅ ∅ ∅ ∅ ∅.

Lemma mcp_rate_bounded_witness :
  exists evs, admitted "p" evs (emptyDB 0) = 2 /\
    admitted "p" evs (emptyDB 0) <= MCPRateCapacity + (Second - 0) / MCPRateRefillInterval.
Proof.
  exists [MAcquire Fine 0 "c1" "p" "o" 35; MRelease Fine "c1"; MAcquire Fine 7 "c2" "p" "o" 35].
  split; [vm_compute; reflexivity|].
  apply (mcp_rate_bounded "p" 0 Second); [done|]. repeat constructor; cbn; unfold Second; lia.
Defined.

(** ** Capacity *)
Lemma countWhere_mono (q q' : inflightRow -> bool) (m m' : gmap string inflightRow) :
  (forall k r, m !! k = Some r -> q r = true -> m' !! k = Some r /\ q' r = true) -> countWhere q m <= countWhere q' m'.
Proof.
  intros H. unfold countWhere. apply inj_le, map_subseteq_size, map_subseteq_spec.
  intros k r [Hk Hq]%map_lookup_filter_Some. cbn in Hq. destruct (H k r Hk Hq). by apply map_lookup_filter_Some.
Qed.

Lemma countWhere_insert (q : inflightRow -> bool) (m : gmap string inflightRow) k r :
  m !! k = None -> countWhere q (<[k := r]> m) = countWhere q m + (if q r then 1 else 0).
Proof.
  intros Hk. unfold countWhere. rewrite map_filter_insert. cbn. destruct (decide (q r = true)) as [E|E].
  - rewrite E, map_size_insert_None; [lia|]. apply map_lookup_filter_None. by left.
  - apply not_true_is_false in E as ->. rewrite delete_id by done. lia.
Qed.

(** The claims that are live now and satisfy [q]. *)
Definition liveHeld (q : inflightRow -> bool) (d : DB) : Z :=
  countWhere (fun r => (clock d <? claim_expires r) && q r) (mcp_inflight d).

(** A dimension of the capacity and its limit. *)
Inductive dimension := DPrincipal (p : string) | DOrg (o : string) | DInstance.

Definition inDimension (dim : dimension) (r : inflightRow) : bool :=
  match dim with DPrincipal p => principal_id r =s p | DOrg o => org_id r =s o | DInstance => true end.
Definition limitOf (dim : dimension) : Z :=
  match dim with DPrincipal _ => MCPPrincipalLimit | DOrg _ => MCPOrganizationLimit | DInstance => MCPInstanceLimit end.

(** A transaction begins no later than it takes effect, and the clock does not
    run backwards. *)
Definition timely (ev : mcpEvent) (d : DB) : Prop :=
  match ev with MAcquire _ began _ _ _ _ => began <= clock d | MRelease _ _ => True | MClock t => clock d <= t end.

Inductive mcpReachable : DB -> Prop :=
  | reach_start d : mcp_inflight d = ∅ -> mcpReachable d
  | reach_step d ev : mcpReachable d -> timely ev d -> mcpReachable (mcpStep ev d).2.

Lemma live_survives_prune now k r d :
  now <= clock d -> mcp_inflight d !! k = Some r -> (clock d <? claim_expires r) = true ->
  pruneExpired now (mcp_inflight d) !! k = Some r.
Proof.
  intros Hn Hk Hl. apply map_lookup_filter_Some. split; [done|]. cbn. apply Z.ltb_lt in Hl.
  apply negb_true_iff, Z.leb_gt. lia.
Qed.

Lemma acquire_capacity now c p o ttl d d' dim :
  now <= clock d -> acquireMCPPostgres now c p o ttl d = (Ok (), d') ->
  liveHeld (inDimension dim) d <= limitOf dim -> liveHeld (inDimension dim) d' <= limitOf dim.
Proof.
  intros Hn (Hp & Ho & Hi & Hc & _ & ->)%acquire_effect Hinv. unfold liveHeld in *. cbn [snd mcp_inflight with_mcp clock].
  rewrite countWhere_insert by done. set (m := pruneExpired now (mcp_inflight d)) in *.
  destruct (inDimension dim (MkInflightRow p o (now + ttl))) eqn:E.
  - (* the new claim counts: the check made room for it *)
    assert (countWhere (fun r => (clock d <? claim_expires r) && inDimension dim r) m <= countWhere (inDimension dim) m) as Hle.
    { apply countWhere_mono. intros k r Hk Hq. apply andb_prop in Hq as [_ Hq]. by split. }
    assert (countWhere (inDimension dim) m < limitOf dim) as Hlt.
    { destruct dim; cbn in E |- *; string_eqs; subst; done. }
    destruct (_ && _); lia.
  - rewrite andb_false_r, Z.add_0_r. etrans; [|exact Hinv]. apply countWhere_mono.
    intros k r Hk Hq. apply map_lookup_filter_Some in Hk as [Hk _]. by split.
Qed.

Lemma capacity_step dim ev d :
  timely ev d -> liveHeld (inDimension dim) d <= limitOf dim -> liveHeld (inDimension dim) (mcpStep ev d).2 <= limitOf dim.
Proof.
  destruct ev as [w began c p o ttl|w c|t]; cbn [timely mcpStep]; intros Ht Hinv.
  - destruct (AcquireMCP w began c p o ttl d) as [r d'] eqn:E. cbn [snd].
    apply acquire_state in E as [->|E]; [done|]. by eapply acquire_capacity.
  - destruct (release_state w c d) as (m & -> & Hm). unfold liveHeld in *. cbn [snd mcp_inflight with_mcp clock].
    etrans; [|exact Hinv]. apply countWhere_mono. intros k r Hk Hq. split; [|done].
    destruct Hm as [->| ->]; [done|]. cbn [snd mcp_inflight with_mcp] in Hk. by apply lookup_delete_Some in Hk as [_ Hk].
  - cbn [snd]. unfold liveHeld in *. cbn [mcp_inflight with_clock clock]. etrans; [|exact Hinv].
    apply countWhere_mono. intros k r Hk Hq. split; [done|]. bools. apply andb_true_iff. split; [|done].
    apply Z.ltb_lt. repeat match goal with H : (_ <? _) = true |- _ => apply Z.ltb_lt in H end. lia.
Qed.

(** MCP capacity: in every state a cluster reaches, however calls,
    releases, crashes (claims that simply expire) and lost responses interleave,
    the claims live at that instant number at most 4 per principal, 8 per
    organization and 64 for the whole installation. *)
Theorem mcp_capacity_bounded (dim : dimension) (d : DB) :
  mcpReachable d -> liveHeld (inDimension dim) d <= limitOf dim.
Proof.
  induction 1 as [d He|d ev _ IH Ht].
  - unfold liveHeld, countWhere. rewrite He, map_filter_empty, map_size_empty. destruct dim; done.
  - by apply capacity_step.
Qed.

Lemma mcp_capacity_bounded_witness :
  let d := mcpRun [MAcquire Fine 0 "c1" "p" "o" 35; MAcquire Fine 0 "c2" "p" "o" 35] (emptyDB 0) in
  liveHeld (inDimension (DPrincipal "p")) d = 2 /\ liveHeld (inDimension (DPrincipal "p")) d <= 4.
Proof.
  split; [vm_compute; reflexivity|]. apply (mcp_capacity_bounded (DPrincipal "p")).
  apply reach_step; [apply reach_step; [by apply reach_start|]|]; vm_compute; discriminate.
Defined.

(** ** Node registration *)
Lemma foreignCount_zero n since d :
  (0 <? foreignCount n since d)%nat = false <->
  forall k other, ha_nodes d !! k = Some other -> foreignLive (NodeID n) (RootKeyFingerprint n) since other = false.
Proof.
  unfold foreignCount. rewrite Nat.ltb_ge. split.
  - intros H k other Hk. destruct (foreignLive _ _ _ other) eqn:E; [|done].
    assert (In other (List.filter (foreignLive (NodeID n) (RootKeyFingerprint n) since) (map_to_list (ha_nodes d)).*2)) as Hin.
    { apply filter_In. split; [|done]. apply list_elem_of_In, list_elem_of_fmap. exists (k, other). split; [done|]. by apply elem_of_map_to_list. }
    destruct (List.filter _ _); [done|]. cbn in H. lia.
  - intros H. destruct (List.filter _ _) as [|x l] eqn:E; [done|].
    assert (In x (x :: l)) as Hin by by left. rewrite <- E in Hin. apply filter_In in Hin as [Hin Hx].
    apply list_elem_of_In, list_elem_of_fmap in Hin as ([k y] & -> & Hin). apply elem_of_map_to_list in Hin.
    cbn in Hx. rewrite (H k y Hin) in Hx. discriminate.
Qed.

(** A node that registers shares its root key with every live peer: the
    registration succeeds exactly when the topology admits the node and no
    other node with a heartbeat in the window carries another fingerprint, and
    a refused one changes nothing. *)
Theorem registration_refuses_mixed_roots (rid rstamp : string) (n : HANode) (since : Time) (d : DB) :
  (forall k v, ha_nodes d !! k = Some v -> NodeID v = k) ->
  topologyLeaseAllowed rid rstamp (NodeID n) d = (Ok (), d) ->
  let '(r, d') := RegisterNodeChecked rid rstamp Fine n since d in
  (r = Ok () \/ r = Err ErrMixedRootKey /\ d' = d) /\
  (r = Ok () <-> forall k v, ha_nodes d !! k = Some v -> k <> NodeID n -> since <= HeartbeatAt v ->
                             RootKeyFingerprint v = RootKeyFingerprint n) /\
  (r = Ok () -> exists v, ha_nodes d' !! NodeID n = Some v /\ RootKeyFingerprint v = RootKeyFingerprint n /\ HeartbeatAt v = HeartbeatAt n).
Proof.
  intros Hid Ht. unfold RegisterNodeChecked, transactionResult, transaction, mbind, st_bind. rewrite Ht. cbv iota.
  unfold registerRow. destruct (0 <? foreignCount n since d)%nat eqn:E; cbn.
  - split; [by right|]. split; [|done]. split; [done|]. intros H. exfalso.
    apply not_false_iff_true in E. apply E, foreignCount_zero. intros k v Hk. unfold foreignLive.
    destruct (String.eqb_spec (NodeID v) (NodeID n)); [done|]. destruct (Z.leb_spec since (HeartbeatAt v)); [|by rewrite andb_false_r].
    rewrite (H k v Hk) by first [done | by rewrite <- (Hid k v Hk)]. by rewrite String.eqb_refl.
  - split; [by left|]. split.
    + split; [|done]. intros _ k v Hk Hne Hl. pose proof (proj1 (foreignCount_zero _ _ _) E k v Hk) as Hf.
      unfold foreignLive in Hf. rewrite (Hid k v Hk) in Hf. apply String.eqb_neq in Hne. rewrite Hne in Hf.
      apply Z.leb_le in Hl. rewrite Hl, andb_true_r in Hf. cbn in Hf. by bools.
    + intros _. rewrite lookup_insert_eq. by eexists.
Qed.

Definition sampleNode (id fp : string) (t : Time) : HANode := MkHANode id "v1" 1 fp t t.

Lemma registration_refuses_mixed_roots_witness :
  let d := with_nodes {["a" := sampleNode "a" "root1" 5]} (emptyDB 5) in
  (RegisterNodeChecked "b" "" Fine (sampleNode "b" "root2" 6) 0 d).1 <> Ok ().
Proof.
  intros d. assert (forall k v, ha_nodes d !! k = Some v -> NodeID v = k) as Hid.
  { intros k v Hk. unfold d in Hk. cbn in Hk. apply lookup_singleton_Some in Hk as [<- <-]. reflexivity. }
  pose proof (registration_refuses_mixed_roots "b" "" (sampleNode "b" "root2" 6) 0 d Hid ltac:(reflexivity)) as H.
  destruct (RegisterNodeChecked _ _ _ _ _ _) as [r d']. destruct H as (_ & [H _] & _). cbn. intros Hr.
  discriminate (H Hr "a" (sampleNode "a" "root1" 5) eq_refl ltac:(discriminate) ltac:(cbn; lia)).
Defined.
