(* ===== verification/Scheduler.v ===== *)
(** * The leadership loop: [internal/app/scheduler.go]

    One iteration of [runHA] as a program over the lease manager: it asks (the
    datastore clock, a claim, a renewal, whether its context is cancelled),
    and what it does with the answer is its own state change up to the next
    question. The system runs the loops of all nodes, and the terms they
    start, interleaved at every question, over one coordination database. *)

From S2P Require Import Prelude.
From S2P Require Import AuditEvent.
From S2P Require Import Coordination.

#[local] Open Scope Z_scope.

Definition schedulerLeaseName : string := "scheduler".
Definition defaultLeaseTTL : Z := 30 * Second.
Definition defaultHeartbeat : Z := 10 * Second.

(** ** One node

    A running term goroutine: its [done] channel's identity, the fence in its
    context and whether its context is cancelled. *)
Record term := MkTerm { t_id : nat; t_fence : Z; t_cancelled : bool }.

(** [runHA]'s variables and the scheduler's fields; [terms] are the term
    goroutines that have not exited, [ctxDone] the loop's own context. A done
    channel is closed when its term is no longer running. *)
Record node := MkNode {
  sch_NodeID : string; sch_Stamp : string; sch_LeaseTTL : Z;
  leader : bool; fence : Z; unconfirmedClaim : bool; expiresAt : Time;
  termCancel : option nat; termDone : option nat; terms : list term; nextTerm : nat; ctxDone : bool }.

Definition leaseTTL (n : node) : Z := if sch_LeaseTTL n <=? 0 then defaultLeaseTTL else sch_LeaseTTL n.

Definition startup (id stamp : string) (ttl : Z) : node :=
  MkNode id stamp ttl false 0 false 0 None None [] 0 false.

Definition cancelTerm (c : option nat) (t : term) : term :=
  match c with
  | Some id => if (t_id t =? id)%nat then MkTerm (t_id t) (t_fence t) true else t
  | None => t
  end.

Definition dropLeadership (n : node) : node :=
  MkNode (sch_NodeID n) (sch_Stamp n) (sch_LeaseTTL n) false (fence n) (unconfirmedClaim n) (expiresAt n)
    None (termDone n) (map (cancelTerm (termCancel n)) (terms n)) (nextTerm n) (ctxDone n).

Definition exited (id : nat) (n : node) : bool := forallb (fun t => negb (t_id t =? id)%nat) (terms n).

Definition termDraining (n : node) : bool * node :=
  match termDone n with
  | None => (false, n)
  | Some id =>
      if exited id n then
        (false, MkNode (sch_NodeID n) (sch_Stamp n) (sch_LeaseTTL n) (leader n) (fence n) (unconfirmedClaim n) (expiresAt n)
                  (termCancel n) None (terms n) (nextTerm n) (ctxDone n))
      else (true, n)
  end.

Definition startTerm (expires : Time) (n : node) : node :=
  MkNode (sch_NodeID n) (sch_Stamp n) (sch_LeaseTTL n) true (fence n) false expires
    (Some (nextTerm n)) (Some (nextTerm n)) (MkTerm (nextTerm n) (fence n) false :: terms n) (S (nextTerm n)) (ctxDone n).

Definition set_expiresAt (t : Time) (n : node) : node :=
  MkNode (sch_NodeID n) (sch_Stamp n) (sch_LeaseTTL n) (leader n) (fence n) (unconfirmedClaim n) t
    (termCancel n) (termDone n) (terms n) (nextTerm n) (ctxDone n).
Definition set_claim (f : Z) (unconfirmed : bool) (n : node) : node :=
  MkNode (sch_NodeID n) (sch_Stamp n) (sch_LeaseTTL n) (leader n) f unconfirmed (expiresAt n)
    (termCancel n) (termDone n) (terms n) (nextTerm n) (ctxDone n).

(** ** The loop body as a program *)
Inductive call :=
  | CNow
  | CRenew (fence : Z) (now expires : Time)
  | CClaim (now expires : Time)
  | CRelease (fence : Z)
  | CCtxErr
  | CJoin (done : nat)
  | COnTick.

Inductive answer :=
  | ANow (r : result Time)
  | ARenew (r : result bool)
  | AClaim (gotFence : Z) (held : bool) (err : option error)
  | ARelease
  | ACtxErr (cancelled : bool)
  | AJoin (joined : bool)
  | AOnTick.

Inductive prog :=
  | Stop
  | Ask (c : call) (k : answer -> node -> node * prog).

Definition runOnTick : prog :=
  Ask CCtxErr (fun a n =>
    match a with
    | ACtxErr false => (n, Ask COnTick (fun _ n => (n, Stop)))
    | _ => (n, Stop)
    end).

(** [startTerm] behind its [ctx.Err() == nil]. *)
Definition startUnlessCancelled (expires : Time) (k : node -> node * prog) : prog :=
  Ask CCtxErr (fun a n =>
    match a with
    | ACtxErr false => k (startTerm expires n)
    | _ => k n
    end).

Definition claimPhase (now expires : Time) (n : node) : node * prog :=
  if leader n || unconfirmedClaim n then (n, runOnTick)
  else (n, Ask CCtxErr (fun a n =>
    match a with
    | ACtxErr false => (n, Ask (CClaim now expires) (fun a n =>
        match a with
        | AClaim gotFence held err =>
            let n := if negb (gotFence =? 0) && (held || match err with Some _ => true | None => false end)
                     then set_claim gotFence true n else n in
            match err with
            | Some _ => (n, runOnTick)
            | None => if held then (n, startUnlessCancelled expires (fun n => (n, runOnTick))) else (n, runOnTick)
            end
        | _ => (n, Stop)
        end))
    | _ => (n, runOnTick)
    end)).

Definition acquirePhase (now expires : Time) (n : node) : node * prog :=
  if leader n then (n, runOnTick)
  else
    let '(draining, n) := termDraining n in
    if draining then (n, runOnTick)
    else if unconfirmedClaim n then
      (n, Ask (CRenew (fence n) now expires) (fun a n =>
        match a with
        | ARenew (Ok true) => (n, startUnlessCancelled expires (claimPhase now expires))
        | ARenew (Ok false) => claimPhase now expires (set_claim 0 false n)
        | _ => claimPhase now expires n
        end))
    else claimPhase now expires n.

Definition afterRenewal (now expires : Time) : prog :=
  Ask CCtxErr (fun a n =>
    match a with
    | ACtxErr false => acquirePhase now expires n
    | _ => (n, Stop)
    end).

Definition withClock (now : Time) (n : node) : node * prog :=
  let n := if leader n && negb (now <? expiresAt n) then dropLeadership n else n in
  let expires := now + leaseTTL n in
  if leader n then
    (n, Ask (CRenew (fence n) now expires) (fun a n =>
      match a with
      | ARenew (Ok true) => (set_expiresAt expires n, afterRenewal now expires)
      | _ => (dropLeadership n, afterRenewal now expires)
      end))
  else (n, afterRenewal now expires).

(** The [ticker.C] case. *)
Definition tick : prog :=
  Ask CNow (fun a n =>
    match a with
    | ANow (Ok now) => withClock now n
    | _ => (if leader n then dropLeadership n else n, Stop)
    end).

(** The [ctx.Done] case; the loop returns afterwards. *)
Definition release (joined : bool) (n : node) : node * prog :=
  if negb (fence n =? 0) && joined then (n, Ask (CRelease (fence n)) (fun _ n => (n, Stop))) else (n, Stop).

Definition shutdown (n : node) : node * prog :=
  let done := termDone n in
  let n := dropLeadership n in
  match done with
  | None => release true n
  | Some id => (n, Ask (CJoin id) (fun a n => match a with AJoin j => release j n | _ => (n, Stop) end))
  end.

(** ** What a question is answered by

    The datastore calls run as one transaction with its weather; [began] is
    the transaction's start. *)
Definition perform (n : node) (w : weather) (began : Time) (c : call) (d : DB) : answer * DB :=
  match c with
  | CNow => let '(r, d') := Now w began d in (ANow r, d')
  | CRenew f now expires =>
      let '(r, d') := RenewLease (sch_NodeID n) (sch_Stamp n) w schedulerLeaseName (sch_NodeID n) f now expires d in (ARenew r, d')
  | CClaim now expires =>
      let '((f, held, err), d') := ClaimLease (sch_NodeID n) (sch_Stamp n) w schedulerLeaseName (sch_NodeID n) now expires d in
      (AClaim f held err, d')
  | CRelease f => (ARelease, (ReleaseLease w schedulerLeaseName (sch_NodeID n) f d).2)
  | CCtxErr => (ACtxErr (ctxDone n), d)
  | CJoin id => (AJoin (exited id n), d)
  | COnTick => (AOnTick, d)
  end.

(** The loop body of one node run alone, with a healthy datastore. *)
Fixpoint drive (p : prog) (n : node) (began : Time) (d : DB) : node * DB :=
  match p with
  | Stop => (n, d)
  | Ask c k =>
      let '(a, d') := perform n Fine began c d in
      match k a n with (n', p') => drive p' n' began d' end
  end.
