(* ===== verification/SchedulerSpec.v ===== *)
(** * The cluster: every node's leadership loop over one database

    The step relation of a multi-node installation and what holds in every
    state it reaches: terms of one node never overlap, every term runs under a
    fence the database granted to its node, and the writes singleton jobs
    commit are totally ordered by term. *)

From S2P Require Import Prelude.
From S2P Require Import AuditEvent.
From S2P Require Import Coordination.
From S2P Require Import CoordinationSpec.
From S2P Require Import Scheduler.
From Stdlib Require Import Sorted.

#[local] Open Scope Z_scope.

Definition leaseOf (d : DB) : option leaseRow := singleton_leases d !! schedulerLeaseName.

(** ** The system *)
Record proc := MkProc { pnode : node; pc : option prog; returned : bool }.

(** [grants] lists the terms the lease row has named, newest first, and
    [commits] the term of every committed singleton write, newest first. *)
Record sys := MkSys { sdb : DB; procs : gmap string proc; grants : list (string * Z); commits : list (string * Z) }.

Definition observe (d d' : DB) (g : list (string * Z)) : list (string * Z) :=
  match leaseOf d' with
  | None => g
  | Some r' =>
      match leaseOf d with
      | Some r => if fence_token r =? fence_token r' then g else (owner r', fence_token r') :: g
      | None => (owner r', fence_token r') :: g
      end
  end.

Definition set_db (d : DB) (s : sys) : sys := MkSys d (procs s) (observe (sdb s) d (grants s)) (commits s).
Definition set_proc (id : string) (p : proc) (s : sys) : sys := MkSys (sdb s) (<[id := p]> (procs s)) (grants s) (commits s).

Definition termExits (id : nat) (n : node) : node :=
  MkNode (sch_NodeID n) (sch_Stamp n) (sch_LeaseTTL n) (leader n) (fence n) (unconfirmedClaim n) (expiresAt n)
    (termCancel n) (termDone n) (List.filter (fun t => negb (t_id t =? id)%nat) (terms n)) (nextTerm n) (ctxDone n).
Definition cancelCtx (n : node) : node :=
  MkNode (sch_NodeID n) (sch_Stamp n) (sch_LeaseTTL n) (leader n) (fence n) (unconfirmedClaim n) (expiresAt n)
    (termCancel n) (termDone n) (terms n) (nextTerm n) true.

Definition termLease (id : string) (t : term) : singletonLease := MkSingletonLease schedulerLeaseName id (t_fence t).

Inductive step : sys -> sys -> Prop :=
  (* the loop's select picks the ticker, or the cancelled context *)
  | step_tick s id n : procs s !! id = Some (MkProc n None false) -> step s (set_proc id (MkProc n (Some tick) false) s)
  | step_shutdown s id n :
      procs s !! id = Some (MkProc n None false) -> ctxDone n = true ->
      step s (set_proc id (MkProc (shutdown n).1 (Some (shutdown n).2) true) s)
  (* a question is put and answered; the node goes on to its next one *)
  | step_ask s id n c k ret w began a d' :
      procs s !! id = Some (MkProc n (Some (Ask c k)) ret) -> perform n w began c (sdb s) = (a, d') ->
      step s (set_db d' (set_proc id (MkProc (k a n).1 (Some (k a n).2) ret) s))
  | step_join_timeout s id n done k ret :
      procs s !! id = Some (MkProc n (Some (Ask (CJoin done) k)) ret) ->
      step s (set_proc id (MkProc (k (AJoin false) n).1 (Some (k (AJoin false) n).2) ret) s)
  | step_idle s id n ret : procs s !! id = Some (MkProc n (Some Stop) ret) -> step s (set_proc id (MkProc n None ret) s)
  (* the environment of a node *)
  | step_exit s id n p ret t : procs s !! id = Some (MkProc n p ret) -> step s (set_proc id (MkProc (termExits t n) p ret) s)
  | step_cancel s id n p ret : procs s !! id = Some (MkProc n p ret) -> step s (set_proc id (MkProc (cancelCtx n) p ret) s)
  | step_crash s id n p ret : procs s !! id = Some (MkProc n p ret) ->
      step s (set_proc id (MkProc (startup id (sch_Stamp n) (sch_LeaseTTL n)) None false) s)
  | step_join s id stamp ttl : procs s !! id = None -> step s (set_proc id (MkProc (startup id stamp ttl) None false) s)
  (* a singleton job of a term, cancelled or not, writes under the fence guard *)
  | step_write s id n p ret t :
      procs s !! id = Some (MkProc n p ret) -> In t (terms n) ->
      GuardPGSingletonLease (Some (termLease id t)) (sdb s) = (Ok (), sdb s) ->
      step s (MkSys (sdb s) (procs s) (grants s) ((id, t_fence t) :: commits s))
  (* a call whose client gave up reaches the database late *)
  | step_late s n w began c :
      step s (set_db (perform n w began c (sdb s)).2 s)
  (* everything else that happens to the database *)
  | step_other s d' : singleton_leases d' = singleton_leases (sdb s) -> step s (set_db d' s).

Inductive reachable : sys -> Prop :=
  | reachable_start d : leaseOf d = None -> reachable (MkSys d ∅ [] [])
  | reachable_step s s' : reachable s -> step s s' -> reachable s'.

(** ** The lease row

    What any call of node [id] can do to it. *)
Definition leaseMoves (id : string) (d d' : DB) : Prop :=
  match leaseOf d, leaseOf d' with
  | None, None => True
  | None, Some r' => owner r' = id /\ fence_token r' = 1
  | Some r, Some r' => (owner r' = owner r /\ fence_token r' = fence_token r) \/ (owner r' = id /\ fence_token r' = fence_token r + 1)
  | Some _, None => False
  end.

Lemma leaseMoves_refl id d : leaseMoves id d d.
Proof. unfold leaseMoves. destruct (leaseOf d); auto. Qed.

Lemma leaseOf_with m d : leaseOf (with_leases m d) = m !! schedulerLeaseName.
Proof. reflexivity. Qed.

Lemma leaseGate_state rid rs name own d r d' : leaseGate rid rs name own d = (r, d') -> d' = d.
Proof.
  unfold leaseGate, topologyLeaseAllowed. destruct (name =s _); [|by intros [= <- <-]].
  destruct (topology d) as [[a|]|e|m]; try (by intros [= <- <-]). destruct (_ || _); by intros [= <- <-].
Qed.

Lemma gated_state {A} rid rs name own (f : ST DB A) d r d' :
  (leaseGate rid rs name own ≫= fun _ => f) d = (r, d') ->
  (is_ok r = false /\ d' = d) \/ f d = (r, d').
Proof.
  unfold mbind, st_bind. destruct (leaseGate rid rs name own d) as [g d1] eqn:E. apply leaseGate_state in E as ->.
  destruct g; intros H; [by right|left; by injection H as <- <-..].
Qed.

Lemma claimRow_moves id now expires d r d' :
  claimRow schedulerLeaseName id now expires d = (r, d') ->
  leaseMoves id d d' /\
  (forall f, r = Ok (f, true) -> exists row, leaseOf d' = Some row /\ owner row = id /\ fence_token row = f).
Proof.
  unfold claimRow, leaseMoves, leaseOf. destruct (singleton_leases d !! schedulerLeaseName) as [row|] eqn:E.
  - destruct (expires_at row <=? now); intros [= <- <-]; cbn [singleton_leases with_leases].
    + rewrite lookup_insert_eq. split; [by right|]. intros f [= <-]. by eexists.
    + rewrite E. split; [by left|]. discriminate.
  - intros [= <- <-]. cbn [singleton_leases with_leases]. rewrite lookup_insert_eq. split; [done|]. intros f [= <-]. by eexists.
Qed.

Lemma renewRow_moves id f now expires d r d' :
  renewRow schedulerLeaseName id f now expires d = (r, d') ->
  leaseMoves id d d' /\ (r = Ok true -> exists row, leaseOf d' = Some row /\ owner row = id /\ fence_token row = f).
Proof.
  unfold renewRow, leaseMoves, leaseOf. destruct (singleton_leases d !! schedulerLeaseName) as [row|] eqn:E.
  - destruct (_ && _) eqn:G; intros [= <- <-]; cbn [singleton_leases with_leases].
    + rewrite lookup_insert_eq. split; [by left|]. intros _. bools. eexists. split; [done|]. cbn. split; [done|lia].
    + rewrite E. split; [by left|discriminate].
  - intros [= <- <-]. rewrite E. split; [done|discriminate].
Qed.

Lemma releaseRow_moves id f d r d' : releaseRow schedulerLeaseName id f d = (r, d') -> leaseMoves id d d'.
Proof.
  unfold releaseRow, leaseMoves, leaseOf. destruct (singleton_leases d !! schedulerLeaseName) as [row|] eqn:E.
  - destruct (_ && _); intros [= <- <-]; cbn [singleton_leases with_leases]; rewrite ?lookup_insert_eq, ?E; by left.
  - intros [= <- <-]. by rewrite E.
Qed.

(** Every question moves the lease row as one of the node's calls may, and a
    claim or renewal answered positively names the node's term in the row. *)
Definition named (id : string) (f : Z) (d : DB) : Prop :=
  exists row, leaseOf d = Some row /\ owner row = id /\ fence_token row = f.

Lemma renew_moves rid rs w id f now expires d r d' :
  RenewLease rid rs w schedulerLeaseName id f now expires d = (r, d') ->
  leaseMoves id d d' /\ (r = Ok true -> named id f d').
Proof.
  intros [Hs Hok]%transactionResult_states. split.
  - destruct Hs as [->|(b & Hs)]; [apply leaseMoves_refl|].
    apply gated_state in Hs as [[_ ->]|Hs]; [apply leaseMoves_refl|by apply renewRow_moves in Hs as []].
  - intros ->. specialize (Hok true eq_refl). apply gated_state in Hok as [[? _]|Hok]; [done|].
    apply renewRow_moves in Hok as [_ H]. by apply H.
Qed.

Lemma release_moves w id f d r d' : ReleaseLease w schedulerLeaseName id f d = (r, d') -> leaseMoves id d d'.
Proof.
  intros [[->|([] & Hs)] _]%transactionResult_states; [apply leaseMoves_refl|]. by eapply releaseRow_moves.
Qed.

Lemma claim_moves rid rs w id now expires d f held err d' :
  ClaimLease rid rs w schedulerLeaseName id now expires d = ((f, held, err), d') ->
  leaseMoves id d d' /\ (held = true -> err = None /\ named id f d').
Proof.
  unfold ClaimLease. destruct (transaction w _ d) as [[cap e] d1] eqn:E. destruct (default (0, false) cap) as [f0 h0] eqn:Ec.
  intros H. assert (d1 = d') as -> by (destruct e; by injection H). split.
  - apply transaction_states in E as [->|(b & Hs)]; [apply leaseMoves_refl|].
    apply gated_state in Hs as [[_ ->]|Hs]; [apply leaseMoves_refl|by apply claimRow_moves in Hs as []].
  - intros ->. destruct e; [discriminate H|]. injection H as -> -> <-. split; [done|].
    destruct cap as [[f1 h1]|]; [|discriminate Ec]. cbn in Ec. injection Ec as -> ->.
    assert (claimLeaseTx rid rs schedulerLeaseName id now expires d = (Ok (f, true), d')) as Hc.
    { revert E. unfold transaction. destruct w as [|e|committed e]; [|discriminate|];
        destruct (claimLeaseTx _ _ _ _ _ _ d) as [[a'|e'|m] d2]; try discriminate. by intros [= <- <-]. }
    apply gated_state in Hc as [[? _]|Hc]; [done|]. apply claimRow_moves in Hc as [_ H]. by apply H.
Qed.

(** Answers the database backs. *)
Definition backed (id : string) (c : call) (a : answer) (d : DB) : Prop :=
  match c, a with
  | CRenew f _ _, ARenew (Ok true) => named id f d
  | CClaim _ _, AClaim f true None => named id f d
  | _, _ => True
  end.

Lemma perform_moves n w began c d a d' :
  perform n w began c d = (a, d') -> leaseMoves (sch_NodeID n) d d' /\ backed (sch_NodeID n) c a d'.
Proof.
  destruct c as [|f now expires|now expires|f| |t|]; cbn [perform].
  - destruct (Now w began d) as [r d1] eqn:E. apply transactionResult_states in E as [[->|(b & E)] _]; intros [= <- <-].
    + split; [apply leaseMoves_refl|done].
    + injection E as <- <-. split; [apply leaseMoves_refl|done].
  - destruct (RenewLease _ _ _ _ _ _ _ _ d) as [r d1] eqn:E. apply renew_moves in E as [Hm Hr]. intros [= <- <-].
    split; [done|]. cbn. destruct r as [[]|?|?]; auto.
  - destruct (ClaimLease _ _ _ _ _ _ _ d) as [[[f held] err] d1] eqn:E. apply claim_moves in E as [Hm Hr]. intros [= <- <-].
    split; [done|]. cbn. destruct held, err; auto. by apply Hr.
  - destruct (ReleaseLease _ _ _ _ d) as [r d1] eqn:E. apply release_moves in E. by intros [= <- <-].
  - intros [= <- <-]. split; [apply leaseMoves_refl|done].
  - intros [= <- <-]. split; [apply leaseMoves_refl|done].
  - intros [= <- <-]. split; [apply leaseMoves_refl|done].
Qed.

(** ** The grant history *)
Definition newestFirst (g : list (string * Z)) : Prop :=
  StronglySorted (fun a b => b.2 < a.2) g /\ List.Forall (fun a => 1 <= a.2) g.

(** The row names the newest grant. *)
Definition history (d : DB) (g : list (string * Z)) : Prop :=
  newestFirst g /\
  match leaseOf d with None => g = [] | Some r => exists g', g = (owner r, fence_token r) :: g' end.

Lemma history_named id f d g : history d g -> named id f d -> In (id, f) g.
Proof. intros [_ H] (r & E & <- & <-). rewrite E in H. destruct H as [g' ->]. by left. Qed.

Lemma history_moves id d d' g : history d g -> leaseMoves id d d' -> history d' (observe d d' g).
Proof.
  unfold history, leaseMoves, observe. intros [Hs Hh]. destruct (leaseOf d) as [r|], (leaseOf d') as [r'|]; try done.
  - destruct Hh as [g' ->]. intros [[Ho Hf]|[Ho Hf]].
    + rewrite Hf, Z.eqb_refl, Ho. split; [done|]. by eexists.
    + destruct (Z.eqb_spec (fence_token r) (fence_token r')); [lia|]. split; [|by eexists].
      destruct Hs as [Hs Hpos]. pose proof (Forall_inv Hpos) as Hp. cbn in Hp. split; [|constructor; [cbn; lia|done]].
      constructor; [done|]. constructor; [cbn; lia|]. apply StronglySorted_inv in Hs as [_ Hs].
      eapply List.Forall_impl; [|exact Hs]. cbn. lia.
  - subst g. intros [_ ->]. split; [|by eexists]. split; repeat constructor; done.
Qed.

Lemma observe_grows d d' g : incl g (observe d d' g).
Proof.
  unfold observe. destruct (leaseOf d'), (leaseOf d); try destruct (_ =? _); try apply incl_refl; apply incl_tl, incl_refl.
Qed.

Lemma history_other d d' g : singleton_leases d' = singleton_leases d -> history d g -> history d' (observe d d' g) /\ observe d d' g = g.
Proof.
  unfold history, observe, leaseOf. intros ->. destruct (_ !! _); [|done]. by rewrite Z.eqb_refl.
Qed.

Lemma grants_functional g : newestFirst g -> forall o o' f, In (o, f) g -> In (o', f) g -> o = o'.
Proof.
  intros [Hs _]. induction Hs as [|[o1 f1] g _ IH Hall]; [done|]. rewrite List.Forall_forall in Hall. intros o o' f [E|H1] [E'|H2].
  - congruence.
  - injection E as -> ->. specialize (Hall _ H2). cbn in Hall. lia.
  - injection E' as -> ->. specialize (Hall _ H1). cbn in Hall. lia.
  - by eapply IH.
Qed.

(** ** A node between two questions

    At most one term goroutine, the one whose done channel the loop tracks,
    and its fence is one the database granted to this node. *)
Definition nodeInv (g : list (string * Z)) (n : node) : Prop :=
  match terms n with
  | [] => True
  | [t] => termDone n = Some (t_id t) /\ In (sch_NodeID n, t_fence t) g
  | _ => False
  end.

(** What the node's environment may do while a question is out: terms exit,
    the context is cancelled. *)
Definition rely (n n' : node) : Prop :=
  exists ts ctx, List.incl ts (terms n) /\ (length ts <= length (terms n))%nat /\
  n' = MkNode (sch_NodeID n) (sch_Stamp n) (sch_LeaseTTL n) (leader n) (fence n) (unconfirmedClaim n) (expiresAt n)
         (termCancel n) (termDone n) ts (nextTerm n) ctx.

Lemma rely_refl n : rely n n.
Proof. exists (terms n), (ctxDone n). split; [apply incl_refl|]. split; [done|by destruct n]. Qed.

Lemma rely_trans n n1 n2 : rely n n1 -> rely n1 n2 -> rely n n2.
Proof.
  intros (ts & ctx & Hi & Hl & ->) (ts' & ctx' & Hi' & Hl' & ->). cbn in *. exists ts', ctx'.
  split; [by eapply incl_tran|]. split; [lia|done].
Qed.

Lemma nodeInv_rely g n n' : rely n n' -> nodeInv g n -> nodeInv g n'.
Proof.
  intros (ts & ctx & Hi & Hl & ->). unfold nodeInv. cbn. destruct (terms n) as [|t [|]]; cbn in Hl; [by destruct ts; cbn in *; try lia| |done].
  destruct ts as [|t' [|]]; cbn in Hl; [done| |lia]. by destruct (Hi t' ltac:(by left)) as [<-|[]].
Qed.

Lemma nodeInv_grows g g' n : incl g g' -> nodeInv g n -> nodeInv g' n.
Proof. unfold nodeInv. intros Hi. destruct (terms n) as [|t [|]]; [done| |done]. intros [? ?]. split; auto. Qed.

Lemma nodeInv_drop g n : nodeInv g n -> nodeInv g (dropLeadership n).
Proof.
  unfold nodeInv. cbn. destruct (terms n) as [|t [|]]; cbn; [done| |done]. unfold cancelTerm.
  destruct (termCancel n) as [i|]; [|done]. by destruct (_ =? _)%nat.
Qed.

(** Answers that agree with the grants so far. *)
Definition legit (g : list (string * Z)) (id : string) (c : call) (a : answer) : Prop :=
  match c, a with
  | CRenew f _ _, ARenew (Ok true) => In (id, f) g
  | CClaim _ _, AClaim f true None => In (id, f) g /\ f <> 0
  | _, _ => True
  end.

(** A paused program keeps the invariant whatever the answers and the
    environment do from here on. *)
Fixpoint wf (p : prog) (g : list (string * Z)) (n : node) : Prop :=
  nodeInv g n /\
  match p with
  | Stop => True
  | Ask c k => forall a n' g', rely n n' -> incl g g' -> legit g' (sch_NodeID n') c a ->
      match k a n' with (n2, p2) => wf p2 g' n2 /\ sch_NodeID n2 = sch_NodeID n' end
  end.

Lemma wf_inv p g n : wf p g n -> nodeInv g n.
Proof. destruct p; by intros []. Qed.

Lemma wf_ask c k g n :
  nodeInv g n ->
  (forall a n' g', rely n n' -> incl g g' -> nodeInv g' n' -> legit g' (sch_NodeID n') c a ->
     wf (k a n').2 g' (k a n').1 /\ sch_NodeID (k a n').1 = sch_NodeID n') ->
  wf (Ask c k) g n.
Proof.
  intros Hn H. split; [done|]. intros a n' g' Hr Hi Hl. specialize (H a n' g' Hr Hi).
  destruct (k a n') as [n2 p2]. apply H; [|done]. eapply nodeInv_rely; [done|]. by eapply nodeInv_grows.
Qed.

Lemma rely_fields n n' : rely n n' ->
  leader n' = leader n /\ fence n' = fence n /\ unconfirmedClaim n' = unconfirmedClaim n /\ sch_NodeID n' = sch_NodeID n /\
  termDone n' = termDone n /\ (terms n = [] -> terms n' = []).
Proof.
  intros (ts & ctx & Hi & Hl & ->). cbn. do 5 (split; [done|]). intros E. rewrite E in Hl. by destruct ts; cbn in Hl; [|lia].
Qed.

(** No term is running: the only state a term is started in. *)
Definition noTerm (n : node) : Prop := terms n = [].

Lemma nodeInv_start g n expires :
  noTerm n -> In (sch_NodeID n, fence n) g -> nodeInv g (startTerm expires n).
Proof. unfold nodeInv, noTerm. cbn. intros ->. done. Qed.

Lemma nodeInv_noTerm g n : noTerm n -> nodeInv g n.
Proof. unfold nodeInv, noTerm. by intros ->. Qed.

Lemma runOnTick_wf g n : nodeInv g n -> wf runOnTick g n.
Proof.
  intros Hn. apply wf_ask; [done|]. intros a n' g' _ _ Hn' _.
  destruct a as [| | | |[]| |]; cbn [fst snd]; (split; [|done]); [done..| |done|done].
  apply wf_ask; [done|]. intros b n2 g2 _ _ Hn2 _. done.
Qed.

(** A phase that continues from a node state: it keeps the node's identity. *)
Definition phaseOk (g : list (string * Z)) (n : node) (r : node * prog) : Prop :=
  wf r.2 g r.1 /\ sch_NodeID r.1 = sch_NodeID n.

Lemma onTick_phase g n : nodeInv g n -> phaseOk g n (n, runOnTick).
Proof. intros H. split; [by apply runOnTick_wf|done]. Qed.

Lemma stop_phase g n n' : nodeInv g n' -> sch_NodeID n' = sch_NodeID n -> phaseOk g n (n', Stop).
Proof. by intros H E. Qed.

Lemma start_wf expires k g n :
  noTerm n -> In (sch_NodeID n, fence n) g ->
  (forall n' g', rely n n' -> incl g g' -> phaseOk g' n' (k n')) ->
  (forall n' g', rely n n' -> incl g g' -> nodeInv g' (startTerm expires n') -> phaseOk g' (startTerm expires n') (k (startTerm expires n'))) ->
  wf (startUnlessCancelled expires k) g n.
Proof.
  intros Ht Hg Hk Hs. apply wf_ask; [by apply nodeInv_noTerm|]. intros a n' g' Hr Hi _ _.
  destruct (rely_fields _ _ Hr) as (_ & Hf & _ & Hid & _ & Hts).
  destruct a as [| | | |[]| |]; try (by apply (Hk n' g')).
  destruct (Hs n' g' Hr Hi) as [Hw E]; [|by split].
  apply nodeInv_start; [by apply Hts|]. rewrite Hid, Hf. by apply Hi.
Qed.

Lemma claimPhase_ok now expires g n :
  nodeInv g n -> (leader n || unconfirmedClaim n = false -> noTerm n) -> phaseOk g n (claimPhase now expires n).
Proof.
  intros Hn Ht. unfold claimPhase. destruct (leader n || unconfirmedClaim n) eqn:E; [by apply onTick_phase|].
  specialize (Ht eq_refl). split; [|done]. cbn [fst snd]. apply wf_ask; [done|]. intros a n1 g1 Hr1 _ Hn1 _.
  destruct (rely_fields _ _ Hr1) as (_ & _ & _ & _ & _ & Ht1). specialize (Ht1 Ht).
  destruct a as [| | | |[]| |]; try (by apply onTick_phase). split; [|done]. cbn [fst snd].
  apply wf_ask; [done|]. intros a n2 g2 Hr2 _ Hn2 Hl.
  destruct (rely_fields _ _ Hr2) as (_ & _ & _ & _ & _ & Ht2). specialize (Ht2 Ht1).
  destruct a as [| |f held err| | | |]; try (by split). cbv zeta.
  set (n3 := if negb (f =? 0) && _ then _ else _).
  assert (noTerm n3 /\ sch_NodeID n3 = sch_NodeID n2) as [Ht3 Hid3] by (unfold n3; destruct (_ && _); done).
  rewrite <- Hid3. destruct err as [e|]; [apply onTick_phase; by apply nodeInv_noTerm|].
  destruct held; [|apply onTick_phase; by apply nodeInv_noTerm]. split; [|done]. cbn [fst snd].
  destruct Hl as [Hl Hnz]. assert (fence n3 = f) as Hf3.
  { unfold n3. destruct (Z.eqb_spec f 0); [done|]. done. }
  apply start_wf; [done|by rewrite Hid3, Hf3|..].
  - intros n4 g4 Hr4 _. apply onTick_phase, nodeInv_noTerm. by apply (rely_fields _ _ Hr4).
  - intros n4 g4 _ _ Hn4. by apply onTick_phase.
Qed.

(** Draining answers false only once the tracked term has exited. *)
Lemma draining_false g n n' :
  nodeInv g n -> termDraining n = (false, n') -> noTerm n' /\ leader n' = leader n /\ fence n' = fence n /\
  unconfirmedClaim n' = unconfirmedClaim n /\ sch_NodeID n' = sch_NodeID n.
Proof.
  unfold termDraining, nodeInv, noTerm. intros Hn. destruct (termDone n) as [id|] eqn:E.
  - destruct (exited id n) eqn:Ex; [|discriminate]. intros [= <-]. cbn. split; [|done]. unfold exited in Ex.
    destruct (terms n) as [|t [|]]; [done| |done]. destruct Hn as [[= ->] _]. cbn in Ex. by rewrite Nat.eqb_refl in Ex.
  - intros [= <-]. destruct (terms n) as [|t [|]]; [done| |done]. by destruct Hn.
Qed.

Lemma acquirePhase_ok now expires g n : nodeInv g n -> phaseOk g n (acquirePhase now expires n).
Proof.
  intros Hn. unfold acquirePhase. destruct (leader n) eqn:El; [by apply onTick_phase|].
  destruct (termDraining n) as [dr n1] eqn:Ed. destruct dr.
  { unfold termDraining in Ed. destruct (termDone n) as [i|]; [destruct (exited i n)|]; try discriminate Ed.
    injection Ed as <-. by apply onTick_phase. }
  destruct (draining_false g n n1 Hn Ed) as (Ht & Hl & Hf & Hu & Hid). rewrite El in Hl.
  unfold phaseOk. rewrite <- Hid. change (phaseOk g n1 (if unconfirmedClaim n1 then
    (n1, Ask (CRenew (fence n1) now expires) (fun a n => match a with
        | ARenew (Ok true) => (n, startUnlessCancelled expires (claimPhase now expires))
        | ARenew (Ok false) => claimPhase now expires (set_claim 0 false n)
        | _ => claimPhase now expires n end)) else claimPhase now expires n1)).
  destruct (unconfirmedClaim n1) eqn:Eu; [|apply claimPhase_ok; [by apply nodeInv_noTerm|done]].
  split; [|done]. cbn [fst snd]. apply wf_ask; [by apply nodeInv_noTerm|]. intros a n2 g2 Hr _ Hn2 Hleg.
  destruct (rely_fields _ _ Hr) as (Hl2 & Hf2 & Hu2 & _ & _ & Ht2). specialize (Ht2 Ht).
  assert (phaseOk g2 n2 (claimPhase now expires n2)) as Hc by (apply claimPhase_ok; [done|by intros _]).
  destruct a as [|[[]|?|?]| | | | |]; try exact Hc.
  - split; [|done]. cbn [fst snd]. apply start_wf; [done|by rewrite Hf2|..].
    + intros n3 g3 Hr3 _. destruct (rely_fields _ _ Hr3) as (_ & _ & _ & _ & _ & Ht3).
      apply claimPhase_ok; [apply nodeInv_noTerm; by apply Ht3|]. intros _. by apply Ht3.
    + intros n3 g3 _ _ Hn3. apply claimPhase_ok; [done|]. discriminate.
  - apply (claimPhase_ok now expires g2 (set_claim 0 false n2)); [by apply nodeInv_noTerm|by intros _].
Qed.

Lemma afterRenewal_wf now expires g n : nodeInv g n -> wf (afterRenewal now expires) g n.
Proof.
  intros Hn. apply wf_ask; [done|]. intros a n' g' _ _ Hn' _.
  destruct a as [| | | |[]| |]; try (by split). by apply acquirePhase_ok.
Qed.

Lemma tick_wf g n : nodeInv g n -> wf tick g n.
Proof.
  intros Hn. apply wf_ask; [done|]. intros a n1 g1 _ _ Hn1 _.
  destruct a as [[now|?|?]| | | | | |].
  2-9: apply stop_phase; destruct (leader n1); first [by apply nodeInv_drop | done].
  unfold withClock. set (n2 := if _ && _ then _ else _).
  assert (nodeInv g1 n2 /\ sch_NodeID n2 = sch_NodeID n1) as [Hn2 Hid] by (unfold n2; destruct (_ && _); [split; [by apply nodeInv_drop|done]|done]).
  rewrite <- Hid. cbv zeta. destruct (leader n2); (split; [|done]); [|by apply afterRenewal_wf]. cbn [fst snd].
  apply wf_ask; [done|]. intros a n3 g3 _ _ Hn3 _.
  destruct a as [|[[]|?|?]| | | | |]; (split; [|done]); apply afterRenewal_wf; try (by apply nodeInv_drop). exact Hn3.
Qed.

Lemma shutdown_wf g n : nodeInv g n -> phaseOk g n (shutdown n).
Proof.
  intros Hn. assert (forall j g' n', nodeInv g' n' -> phaseOk g' n' (release j n')) as Hrel.
  { intros j g' n' Hn'. unfold release. destruct (_ && _); split; try done. by apply wf_ask. }
  unfold shutdown. destruct (termDone n); [|apply (Hrel true g (dropLeadership n)); by apply nodeInv_drop].
  split; [|done]. cbn [fst snd]. apply wf_ask; [by apply nodeInv_drop|]. intros a n1 g1 _ _ Hn1 _.
  destruct a; try (by split). by apply Hrel.
Qed.

Lemma wf_rely p g g' n n' : wf p g n -> rely n n' -> incl g g' -> wf p g' n'.
Proof.
  intros Hw Hr Hi. assert (nodeInv g' n') as Hn.
  { eapply nodeInv_rely; [done|]. eapply nodeInv_grows; [done|]. by eapply wf_inv. }
  destruct p as [|c k]; [by split|]. split; [done|]. intros a n2 g2 Hr2 Hi2 Hl. destruct Hw as [_ Hk].
  apply Hk; [by eapply rely_trans|by eapply incl_tran|done].
Qed.

(** ** The invariant of the system *)
Definition procOk (g : list (string * Z)) (id : string) (p : proc) : Prop :=
  sch_NodeID (pnode p) = id /\ wf (default Stop (pc p)) g (pnode p).

Definition commitsOk (g cs : list (string * Z)) : Prop :=
  StronglySorted (fun a b => b.2 <= a.2) cs /\ incl cs g.

Definition sysInv (s : sys) : Prop :=
  history (sdb s) (grants s) /\ commitsOk (grants s) (commits s) /\
  map_Forall (fun id p => procOk (grants s) id p) (procs s).

Lemma procOk_rely g g' id n n' p ret ret' :
  procOk g id (MkProc n p ret) -> rely n n' -> incl g g' -> procOk g' id (MkProc n' p ret').
Proof.
  intros [Hid Hw] Hr Hi. split; [|by eapply wf_rely]. destruct (rely_fields _ _ Hr) as (_ & _ & _ & E & _). cbn in *. congruence.
Qed.

Lemma procOk_phase g id n r ret : procOk g id (MkProc n None false) -> phaseOk g n r -> procOk g id (MkProc r.1 (Some r.2) ret).
Proof. intros [Hid _] [Hw E]. split; [cbn in *; congruence|done]. Qed.

Lemma sysInv_proc s id p : sysInv s -> procOk (grants s) id p -> sysInv (set_proc id p s).
Proof. intros (Hh & Hc & Hp) Hok. split; [done|]. split; [done|]. cbn. by apply map_Forall_insert_2. Qed.

(** A database step keeps the invariant when the lease row moves as a call may. *)
Lemma sysInv_db s d' :
  sysInv s -> history d' (observe (sdb s) d' (grants s)) -> sysInv (set_db d' s).
Proof.
  intros (Hh & (Hs & Hc) & Hp) Hh'. pose proof (observe_grows (sdb s) d' (grants s)) as Hi.
  split; [done|]. split; [split; [done|by eapply incl_tran]|]. cbn.
  intros id [n p ret] Hid. eapply procOk_rely; [by apply Hp|apply rely_refl|done].
Qed.

Lemma legit_backed d g id c a : history d g -> backed id c a d -> legit g id c a.
Proof.
  intros Hh. unfold backed, legit. destruct c, a as [|[[]|?|?]|f [] []| | | |]; try done; intros H.
  - by eapply history_named.
  - pose proof (history_named _ _ _ _ Hh H) as Hin. split; [done|]. destruct Hh as [[_ Hpos] _].
    rewrite List.Forall_forall in Hpos. specialize (Hpos _ Hin). cbn in Hpos. lia.
Qed.

Lemma commit_ordered d g cs id f :
  history d g -> commitsOk g cs -> named id f d -> commitsOk g ((id, f) :: cs).
Proof.
  intros Hh [Hs Hc] Hn. pose proof (history_named _ _ _ _ Hh Hn) as Hin. split.
  - constructor; [done|]. apply List.Forall_forall. intros x Hx. apply Hc in Hx. destruct Hn as (r & E & <- & <-).
    destruct Hh as [[Hsort _] Hh]. rewrite E in Hh. destruct Hh as [g' Eg]. rewrite Eg in Hx, Hsort. cbn.
    destruct Hx as [<-|Hx]; [done|]. apply StronglySorted_inv in Hsort as [_ Hall].
    rewrite List.Forall_forall in Hall. specialize (Hall _ Hx). cbn in Hall. lia.
  - intros x [<-|Hx]; [done|by apply Hc].
Qed.

Lemma guard_named id t d : GuardPGSingletonLease (Some (termLease id t)) d = (Ok (), d) -> named id (t_fence t) d.
Proof.
  unfold GuardPGSingletonLease, leaseLive, named, leaseOf. cbn. destruct (_ !! _) as [r|]; [|discriminate].
  destruct (_ && _) eqn:E; [|discriminate]. intros _. bools. exists r. split; [done|]. split; [done|]. lia.
Qed.

Lemma ask_step s id n c k ret w began a d' :
  sysInv s -> procs s !! id = Some (MkProc n (Some (Ask c k)) ret) -> perform n w began c (sdb s) = (a, d') ->
  sysInv (set_db d' (set_proc id (MkProc (k a n).1 (Some (k a n).2) ret) s)).
Proof.
  intros (Hh & Hc & Hp) Hid Hperf. destruct (perform_moves _ _ _ _ _ _ _ Hperf) as [Hm Hb].
  destruct (Hp _ _ Hid) as [Hn Hw]. cbn in Hn. subst id. cbn in Hw. destruct Hw as [Hn Hk].
  pose proof (history_moves _ _ _ _ Hh Hm) as Hh'. pose proof (observe_grows (sdb s) d' (grants s)) as Hi.
  specialize (Hk a n (observe (sdb s) d' (grants s)) (rely_refl n) Hi (legit_backed _ _ _ _ _ Hh' Hb)).
  destruct (k a n) as [n2 p2]. destruct Hk as [Hw2 Hid2].
  split; [done|]. split; [by split; [apply Hc|eapply incl_tran; [apply Hc|]]|]. cbn [procs set_db set_proc grants].
  apply map_Forall_insert_2; [by split|]. intros id' [n' p' r'] Hid'. eapply procOk_rely; [by apply Hp|apply rely_refl|done].
Qed.

Lemma startup_ok g id stamp ttl : procOk g id (MkProc (startup id stamp ttl) None false).
Proof. by repeat split. Qed.

Lemma step_preserves s s' : sysInv s -> step s s' -> sysInv s'.
Proof.
  intros Hinv Hstep. pose proof Hinv as (Hh & Hc & Hp).
  destruct Hstep as [s id n Hid|s id n Hid _|s id n c k ret w began a d' Hid Hperf|s id n dn k ret Hid|s id n ret Hid
    |s id n p ret t Hid|s id n p ret Hid|s id n p ret Hid|s id stamp ttl _|s id n p ret t Hid Ht Hg|s n w began c|s d' Hd].
  - apply sysInv_proc; [done|]. destruct (Hp _ _ Hid) as [? Hw]. split; [done|]. by eapply tick_wf, wf_inv.
  - apply sysInv_proc; [done|]. eapply procOk_phase; [by apply Hp|]. apply shutdown_wf. eapply wf_inv, (Hp _ _ Hid).
  - by eapply ask_step.
  - apply sysInv_proc; [done|]. destruct (Hp _ _ Hid) as [Hn [_ Hk]]. specialize (Hk (AJoin false) n (grants s) (rely_refl n) (incl_refl _) I).
    destruct (k (AJoin false) n) as [n2 p2]. destruct Hk as [Hw E]. split; [cbn in *; congruence|done].
  - apply sysInv_proc; [done|]. exact (Hp _ _ Hid).
  - apply sysInv_proc; [done|]. eapply procOk_rely; [by apply Hp| |apply incl_refl].
    eexists _, (ctxDone n). split; [|split; [|reflexivity]]; [intros x; rewrite filter_In; tauto|apply filter_length_le].
  - apply sysInv_proc; [done|]. eapply procOk_rely; [by apply Hp| |apply incl_refl].
    exists (terms n), true. split; [apply incl_refl|]. by split.
  - apply sysInv_proc; [done|]. apply startup_ok.
  - apply sysInv_proc; [done|]. apply startup_ok.
  - split; [done|]. split; [|done]. eapply commit_ordered; [done|done|]. by apply guard_named.
  - apply sysInv_db; [done|]. destruct (perform n w began c (sdb s)) as [a d'] eqn:E. apply perform_moves in E as [Hm _].
    by eapply history_moves.
  - apply sysInv_db; [done|]. by apply history_other.
Qed.

Lemma reachable_inv s : reachable s -> sysInv s.
Proof.
  induction 1 as [d Hd|s s' _ IH Hstep]; [|by eapply step_preserves].
  split; [|split]; cbn; [|split; [constructor|apply incl_refl]|apply map_Forall_empty].
  split; [split; constructor|by rewrite Hd].
Qed.

Lemma StronglySorted_suffix {A} (R : A -> A -> Prop) l l' : StronglySorted R (l ++ l') -> StronglySorted R l'.
Proof. induction l as [|x l IH]; [done|]. cbn. intros [Hs _]%StronglySorted_inv. by apply IH. Qed.

(** C26. Fencing: whatever the nodes, crashes, lost responses, late calls and
    clock skews, the writes that singleton jobs commit are ordered by
    leadership term. Of two committed writes the later one carries the same
    fence or a newer one, and equal fences mean the same node: once a newer
    term has committed anything, no older term ever commits again. The
    self-configuration topology fence and the upgrade's maintenance bump, which
    also write the lease row, are not steps of the relation; both only raise the
    fence. *)
Theorem singleton_commits_are_fenced (s : sys) (later between earlier : list (string * Z)) (o1 o2 : string) (f1 f2 : Z) :
  reachable s -> commits s = later ++ (o1, f1) :: between ++ (o2, f2) :: earlier ->
  f2 <= f1 /\ (f1 = f2 -> o1 = o2).
Proof.
  intros (Hh & [Hs Hc] & _)%reachable_inv E. rewrite E in Hs, Hc. split.
  - apply StronglySorted_suffix in Hs. apply StronglySorted_inv in Hs as [_ Hall].
    rewrite List.Forall_forall in Hall. apply (Hall (o2, f2)). apply in_or_app. right. by left.
  - intros ->. destruct Hh as [Hsort _]. eapply grants_functional; [done|apply Hc..].
    + apply in_or_app. right. by left.
    + apply in_or_app. right. right. apply in_or_app. right. by left.
Qed.

(** One leader may write: in every reachable state each node runs at most
    one term, every term runs under a fence the lease row granted to that node,
    and no two terms of the cluster pass the fence guard at the same time. *)
Theorem one_term_may_commit (s : sys) (id id' : string) (p p' : proc) (t t' : term) :
  reachable s -> procs s !! id = Some p -> procs s !! id' = Some p' -> In t (terms (pnode p)) -> In t' (terms (pnode p')) ->
  (length (terms (pnode p)) <= 1)%nat /\ In (id, t_fence t) (grants s) /\
  (leaseLive (termLease id t) (sdb s) = true -> leaseLive (termLease id' t') (sdb s) = true -> id = id' /\ t = t').
Proof.
  intros (Hh & _ & Hp)%reachable_inv Hid Hid' Ht Ht'.
  destruct (Hp _ _ Hid) as [Hn Hw%wf_inv]. destruct (Hp _ _ Hid') as [Hn' Hw'%wf_inv]. unfold nodeInv in *.
  destruct (terms (pnode p)) as [|u [|]] eqn:E; [done| |done]. destruct Ht as [->|[]]. rewrite <- Hn.
  split; [done|]. split; [apply Hw|]. intros Hl Hl'.
  assert (named id (t_fence t) (sdb s)) as (r & Er & Ho & _) by (apply guard_named; unfold GuardPGSingletonLease; by rewrite <- Hn, Hl).
  assert (named id' (t_fence t') (sdb s)) as (r' & Er' & Ho' & _) by (apply guard_named; unfold GuardPGSingletonLease; by rewrite Hl').
  assert (id = id') as <- by congruence. split; [congruence|]. rewrite Hid in Hid'. injection Hid' as <-. rewrite E in Ht'.
  by destruct Ht' as [->|[]].
Qed.

(** ** Running schedules

    An executable scheduler for the relation, for concrete runs. *)
Inductive action :=
  | DoJoin (id stamp : string) (ttl : Z)
  | DoTick (id : string)
  | DoAsk (id : string) (w : weather) (began : Time)
  | DoIdle (id : string)
  | DoWrite (id : string)
  | DoClock (t : Time).

Definition act (a : action) (s : sys) : option sys :=
  match a with
  | DoJoin id stamp ttl =>
      match procs s !! id with None => Some (set_proc id (MkProc (startup id stamp ttl) None false) s) | Some _ => None end
  | DoTick id =>
      match procs s !! id with Some (MkProc n None false) => Some (set_proc id (MkProc n (Some tick) false) s) | _ => None end
  | DoAsk id w began =>
      match procs s !! id with
      | Some (MkProc n (Some (Ask c k)) ret) =>
          let r := perform n w began c (sdb s) in
          Some (set_db r.2 (set_proc id (MkProc (k r.1 n).1 (Some (k r.1 n).2) ret) s))
      | _ => None
      end
  | DoIdle id =>
      match procs s !! id with Some (MkProc n (Some Stop) ret) => Some (set_proc id (MkProc n None ret) s) | _ => None end
  | DoWrite id =>
      match procs s !! id with
      | Some (MkProc n p ret) =>
          match terms n with
          | t :: _ => if leaseLive (termLease id t) (sdb s)
                      then Some (MkSys (sdb s) (procs s) (grants s) ((id, t_fence t) :: commits s)) else None
          | [] => None
          end
      | None => None
      end
  | DoClock t => Some (set_db (with_clock t (sdb s)) s)
  end.

Lemma act_step a s s' : act a s = Some s' -> step s s'.
Proof.
  destruct a as [id stamp ttl|id|id w began|id|id|t]; cbn; intros H.
  - destruct (procs s !! id) eqn:E; [discriminate|]. injection H as <-. by apply step_join.
  - destruct (procs s !! id) as [[n [p|] []]|] eqn:E; try discriminate. injection H as <-. by apply step_tick.
  - destruct (procs s !! id) as [[n [[|c k]|] ret]|] eqn:E; try discriminate. injection H as <-.
    eapply step_ask; [done|]. by apply surjective_pairing.
  - destruct (procs s !! id) as [[n [[|c k]|] ret]|] eqn:E; try discriminate. injection H as <-. by apply step_idle.
  - destruct (procs s !! id) as [[n p ret]|] eqn:E; try discriminate. destruct (terms n) as [|t ts] eqn:Et; [discriminate|].
    destruct (leaseLive _ _) eqn:El; [|discriminate]. injection H as <-. eapply step_write; [done|rewrite Et; by left|].
    cbn. by rewrite El.
  - injection H as <-. by apply step_other.
Qed.

Fixpoint acts (l : list action) (s : sys) : option sys :=
  match l with
  | [] => Some s
  | a :: l' => match act a s with Some s' => acts l' s' | None => None end
  end.

Lemma acts_reachable l s s' : reachable s -> acts l s = Some s' -> reachable s'.
Proof.
  revert s. induction l as [|a l IH]; intros s Hr; cbn; [by intros [= <-]|].
  destruct (act a s) as [s1|] eqn:E; [|discriminate]. apply IH. eapply reachable_step; [done|]. by apply act_step in E.
Qed.

(** A takeover: node [a] leads and writes, stalls past its deadline, and node
    [b] claims the next term and writes. *)
Definition wholeTick (id : string) (began : Time) (questions : nat) : list action :=
  DoTick id :: repeat (DoAsk id Fine began) questions ++ [DoIdle id].

Definition takeoverScript : list action :=
  [DoJoin "a" "s" 0; DoJoin "b" "s" 0] ++ wholeTick "a" 0 7 ++ [DoWrite "a"; DoClock (31 * Second)] ++
  wholeTick "b" (31 * Second) 7 ++ [DoWrite "b"].

Definition takeover : sys := default (MkSys (emptyDB 0) ∅ [] []) (acts takeoverScript (MkSys (emptyDB 0) ∅ [] [])).

Lemma takeover_reachable : reachable takeover.
Proof.
  apply (acts_reachable takeoverScript (MkSys (emptyDB 0) ∅ [] [])); [by apply reachable_start|].
  assert (is_Some (acts takeoverScript (MkSys (emptyDB 0) ∅ [] []))) as [s Hs] by (vm_compute; by eexists).
  unfold takeover. by rewrite Hs.
Qed.

Lemma singleton_commits_are_fenced_witness :
  exists s, commits s = [("b", 2); ("a", 1)] /\ 1 <= 2 /\ (2 = 1 -> "b" = "a").
Proof.
  exists takeover. assert (commits takeover = [("b", 2); ("a", 1)]) as E by (vm_compute; reflexivity).
  split; [exact E|]. exact (singleton_commits_are_fenced takeover [] [] [] "b" "a" 2 1 takeover_reachable E).
Defined.

Definition procOf (id : string) (s : sys) : proc := default (MkProc (startup id "" 0) None false) (procs s !! id).
Definition termOf (id : string) (s : sys) : term := default (MkTerm 0 0 false) (head (terms (pnode (procOf id s)))).

(** Both nodes still run a term; only the new one passes the guard. *)
Lemma one_term_may_commit_witness :
  leaseLive (termLease "b" (termOf "b" takeover)) (sdb takeover) = true /\
  (leaseLive (termLease "a" (termOf "a" takeover)) (sdb takeover) = true -> "a" = "b").
Proof.
  split; [vm_compute; reflexivity|]. intros Ha.
  assert (procs takeover !! "a" = Some (procOf "a" takeover)) as Ea by (vm_compute; reflexivity).
  assert (procs takeover !! "b" = Some (procOf "b" takeover)) as Eb by (vm_compute; reflexivity).
  apply (one_term_may_commit takeover "a" "b" _ _ (termOf "a" takeover) (termOf "b" takeover) takeover_reachable Ea Eb).
  - vm_compute. by left.
  - vm_compute. by left.
  - exact Ha.
  - vm_compute. reflexivity.
Defined.

(** ** Progress *)
Definition nextFence (d : DB) : Z := match leaseOf d with Some r => fence_token r + 1 | None => 1 end.

Definition claimable (now : Time) (d : DB) : Prop :=
  match leaseOf d with Some r => expires_at r <= now | None => True end.

Lemma claim_expired rid rs id now expires d :
  topologyLeaseAllowed rid rs id d = (Ok (), d) -> claimable now d ->
  ClaimLease rid rs Fine schedulerLeaseName id now expires d =
  ((nextFence d, true, None), with_leases (<[schedulerLeaseName := MkLeaseRow id (nextFence d) now expires]> (singleton_leases d)) d).
Proof.
  unfold ClaimLease, transaction, claimLeaseTx, mbind, st_bind, leaseGate. intros Ht. rewrite String.eqb_refl, Ht.
  unfold claimRow, claimable, nextFence, leaseOf. destruct (singleton_leases d !! schedulerLeaseName) as [r|]; [|done].
  intros Hc%Z.leb_le. by rewrite Hc.
Qed.

Lemma drive_onTick n began d : ctxDone n = false -> drive runOnTick n began d = (n, d).
Proof. intros H. unfold runOnTick. cbn. by rewrite H. Qed.

(** Takeover: when the lease row is absent or expired at the datastore's
    clock and the topology admits the node, one heartbeat of an idle standby,
    with the datastore answering, makes it the leader of a fresh term: the row
    names it under the next fence until clock plus TTL, and a running,
    uncancelled term carries that fence. *)
Theorem expired_lease_is_taken_over (n : node) (began : Time) (d : DB) :
  leader n = false -> unconfirmedClaim n = false -> ctxDone n = false -> (termDraining n).1 = false -> 1 <= nextFence d ->
  topologyLeaseAllowed (sch_NodeID n) (sch_Stamp n) (sch_NodeID n) d = (Ok (), d) -> claimable began d ->
  let '(n', d') := drive tick n began d in
  leader n' = true /\ fence n' = nextFence d /\
  leaseOf d' = Some (MkLeaseRow (sch_NodeID n) (nextFence d) began (began + leaseTTL n)) /\
  exists t, In t (terms n') /\ t_fence t = nextFence d /\ t_cancelled t = false /\
            (clock d < began + leaseTTL n -> leaseLive (termLease (sch_NodeID n) t) d' = true).
Proof.
  intros Hl Hu Hctx Hdr Hpos Ht Hc. destruct (termDraining n) as [dr n1] eqn:Ed. cbn in Hdr. subst dr.
  assert (leader n1 = false /\ unconfirmedClaim n1 = false /\ ctxDone n1 = false /\ sch_NodeID n1 = sch_NodeID n /\ sch_Stamp n1 = sch_Stamp n)
    as (Hl1 & Hu1 & Hctx1 & Hid1 & Hst1).
  { unfold termDraining in Ed. destruct (termDone n) as [i|]; [destruct (exited i n); [|discriminate Ed]|]; injection Ed as <-; cbn; auto. }
  unfold tick, withClock. cbn [drive perform Now transactionResult transaction fst snd].
  rewrite Hl. cbn [andb]. cbn [drive perform]. rewrite Hl. unfold afterRenewal. cbn [drive perform]. rewrite Hctx.
  unfold acquirePhase. rewrite Hl, Ed, Hu1. unfold claimPhase. rewrite Hl1, Hu1. cbn [orb drive perform]. rewrite Hctx1.
  cbn [drive perform]. rewrite Hid1, Hst1, (claim_expired _ _ _ _ _ _ Ht Hc).
  assert (negb (nextFence d =? 0) = true) as -> by (apply negb_true_iff, Z.eqb_neq; lia). cbn [andb orb].
  unfold startUnlessCancelled. cbn [drive perform ctxDone set_claim]. rewrite Hctx1. cbn [fst snd]. rewrite drive_onTick by exact Hctx1.
  split; [done|]. split; [done|]. split; [unfold leaseOf; cbn; by rewrite lookup_insert_eq|].
  eexists. split; [left; reflexivity|]. split; [done|]. split; [done|]. intros Hclk%Z.ltb_lt.
  unfold leaseLive. cbn. rewrite lookup_insert_eq. cbn. by rewrite String.eqb_refl, Z.eqb_refl, Hclk.
Qed.

Lemma expired_lease_is_taken_over_witness :
  exists n', (drive tick (startup "b" "s" 0) (31 * Second) (sdb takeover)).1 = n' /\ leader n' = false /\
  leader (drive tick (startup "c" "s" 0) (90 * Second) (sdb takeover)).1 = true.
Proof.
  eexists. split; [reflexivity|]. split; [vm_compute; reflexivity|].
  pose proof (expired_lease_is_taken_over (startup "c" "s" 0) (90 * Second) (sdb takeover)) as H.
  destruct (drive tick (startup "c" "s" 0) (90 * Second) (sdb takeover)) as [n' d'].
  apply H; vm_compute; first [reflexivity | discriminate].
Defined.
