(* ===== verification/Admission.v ===== *)
(** * Admission control: [internal/admission/{admission,inherit}.go]

    The limiter in front of password verification: the derived concurrency,
    the per-subject sliding windows with bounded tracking, the per-account
    backoff curve (in process and shared), the slot semaphore with its bounded
    queue, and the handoff of counters to a replacement limiter. The order in
    which Go ranges over a map is an argument wherever it can matter, the
    clock reading is an argument of each operation, and the shared backend is
    the [SharedStore] interface. *)

From S2P Require Import Prelude.
From S2P Require Import AuditEvent.
From S2P Require Import Coordination.

#[local] Open Scope Z_scope.

Definition DefaultBudgetMiB : Z := 272.
Definition HeadroomMiB : Z := 16.
Definition MaxConcurrency : Z := 8.
Definition QueueDepth : Z := 16.
Definition PerIPPerMinute : Z := 10.
Definition MetaPerIPPerMinute : Z := 60.
Definition IssuerRefreshPerMinute : Z := 5.
Definition FailuresBeforeBackoff : Z := 5.
Definition MaxAccountBackoff : Z := 60 * Second.
Definition RetryAfter : Z := 5 * Second.
Definition MaxTrackedSubjects : Z := 4096.

Definition ErrOverloaded : error := ESentinel "admission.ErrOverloaded".
Definition ErrNotQuiescent : error := ESentinel "admission.ErrNotQuiescent".
Definition ErrCountersNotEmpty : error := ESentinel "admission.ErrCountersNotEmpty".
Definition ErrSharedBackendChanged : error := ESentinel "admission.ErrSharedBackendChanged".

Definition sharedBucketIP : string := "ip".
Definition sharedBucketMeta : string := "meta".
Definition sharedBucketIssuer : string := "issuer".

(** ** State *)
Record Config := MkConfig { BudgetMiB : Z; ArgonMemoryKiB : Z; cfg_PerIPPerMinute : Z }.

Abbreviation windows := (gmap string (list Time)).

(** The key type of the account map: a hash, as text. *)
Abbreviation subjectKey := string (only parsing).

Record accountBackoff := MkBackoff { ab_failures : Z; ab_until : Time }.

(** The identity of an attached backend and whether its type is comparable. *)
Record backend := MkBackend { backend_id : nat; backend_comparable : bool }.

(** [slots] counts the free slots of the channel; [None] is the nil channel. *)
Record Limiter := MkLimiter {
  concurrency : Z; perIP : Z; discoveryPerIP : Z; slots : option Z; shared : option backend; log : option nat;
  waiting : Z; ipHits : windows; metaHits : windows; issuerRefreshes : windows;
  accounts : gmap subjectKey accountBackoff }.

Definition with_ipHits m l := MkLimiter (concurrency l) (perIP l) (discoveryPerIP l) (slots l) (shared l) (log l) (waiting l) m (metaHits l) (issuerRefreshes l) (accounts l).
Definition with_metaHits m l := MkLimiter (concurrency l) (perIP l) (discoveryPerIP l) (slots l) (shared l) (log l) (waiting l) (ipHits l) m (issuerRefreshes l) (accounts l).
Definition with_issuerRefreshes m l := MkLimiter (concurrency l) (perIP l) (discoveryPerIP l) (slots l) (shared l) (log l) (waiting l) (ipHits l) (metaHits l) m (accounts l).
Definition with_accounts m l := MkLimiter (concurrency l) (perIP l) (discoveryPerIP l) (slots l) (shared l) (log l) (waiting l) (ipHits l) (metaHits l) (issuerRefreshes l) m.
Definition with_waiting w l := MkLimiter (concurrency l) (perIP l) (discoveryPerIP l) (slots l) (shared l) (log l) w (ipHits l) (metaHits l) (issuerRefreshes l) (accounts l).
Definition with_slots s l := MkLimiter (concurrency l) (perIP l) (discoveryPerIP l) s (shared l) (log l) (waiting l) (ipHits l) (metaHits l) (issuerRefreshes l) (accounts l).

Definition New (cfg : Config) : result Limiter :=
  let budget := if BudgetMiB cfg <=? 0 then DefaultBudgetMiB else BudgetMiB cfg in
  if ArgonMemoryKiB cfg =? 0 then Err (ENew "admission: Argon2id memory must be stated")
  else
    let argonMiB := (ArgonMemoryKiB cfg + 1023) / 1024 in
    if budget <? argonMiB + HeadroomMiB then Err (ENew "admission: budget cannot hold one verification")
    else
      let c := Z.max 1 (Z.min MaxConcurrency ((budget - HeadroomMiB) / argonMiB)) in
      let p := if cfg_PerIPPerMinute cfg <=? 0 then PerIPPerMinute else cfg_PerIPPerMinute cfg in
      Ok (MkLimiter c p (Z.max MetaPerIPPerMinute p) (Some c) None None 0 ∅ ∅ ∅ ∅).

Definition UseShared (s : backend) (lg : option nat) (l : Limiter) : Limiter :=
  MkLimiter (concurrency l) (perIP l) (discoveryPerIP l) (slots l) (Some s) lg (waiting l) (ipHits l) (metaHits l) (issuerRefreshes l) (accounts l).

(** ** Sliding windows *)
Definition live (cutoff : Time) (hits : list Time) : list Time := List.filter (fun t => cutoff <? t) hits.

(** The oldest of the subjects in iteration order: the scan of the fallback
    eviction. *)
Definition scanOldest (bucket : windows) (acc : string * Time) (k : string) : string * Time :=
  match bucket !! k with
  | Some (h :: _) => if (acc.1 =s "") || (h <? acc.2) then (k, h) else acc
  | _ => acc
  end.

(** The order in which [range] visits a map's keys: all of them. *)
Definition visitsAll {A} (iter : gmap string A -> list string) : Prop :=
  forall m k, In k (iter m) <-> is_Some (m !! k).

Definition evictStale (iter : windows -> list string) (bucket : windows) (cutoff : Time) : windows :=
  let bucket := filter (fun kv => existsb (fun t => cutoff <? t) kv.2 = true) bucket in
  if MaxTrackedSubjects <=? Z.of_nat (size bucket) then
    let oldest := fold_left (scanOldest bucket) (iter bucket) ("", 0) in
    let bucket := filter (fun kv => negb (length kv.2 =? 0)%nat = true) bucket in
    if oldest.1 <>s "" then delete oldest.1 bucket else bucket
  else bucket.

Definition allowIPIn (iter : windows -> list string) (bucket : windows) (ip : string) (allowance : Z) (now : Time) : bool * windows :=
  if ip =s "" then (true, bucket)
  else
    let cutoff := now - Minute in
    let kept := live cutoff (default [] (bucket !! ip)) in
    if allowance <=? Z.of_nat (length kept) then (false, <[ip := kept]> bucket)
    else
      let bucket := if (length kept =? 0)%nat && (MaxTrackedSubjects <=? Z.of_nat (size bucket))
                    then evictStale iter bucket cutoff else bucket in
      (true, <[ip := kept ++ [now]]> bucket).

(** ** The shared backend *)
Class SharedStore (S : Type) := {
  shBumpWindow : string -> string -> Time -> ST S Z;
  shAccountFailureState : string -> ST S (Z * Time * Time * bool);
  shRecordAccountFailure : string -> Time -> ST S Z;
  shClearAccount : string -> ST S () }.

Definition truncateMinute (t : Time) : Time := t - t mod Minute.

Definition allowShared {S} `{SharedStore S} (bucket subject : string) (allowance : Z) (now : Time) (s : S) : bool * S :=
  if subject =s "" then (true, s)
  else match shBumpWindow bucket subject (truncateMinute now) s with
       | (Ok count, s') => (count <=? allowance, s')
       | (_, s') => (false, s')
       end.

Section Allowances.
Context {S : Type} `{SharedStore S} (iter : windows -> list string) (now : Time).

Definition allowIP (ip : string) (l : Limiter) (s : S) : bool * Limiter * S :=
  match shared l with
  | Some _ => let '(b, s') := allowShared sharedBucketIP ip (perIP l) now s in (b, l, s')
  | None => let '(b, m) := allowIPIn iter (ipHits l) ip (perIP l) now in (b, with_ipHits m l, s)
  end.

Definition AllowDiscovery (ip : string) (l : Limiter) (s : S) : bool * Limiter * S :=
  match shared l with
  | Some _ => let '(b, s') := allowShared sharedBucketMeta ip (discoveryPerIP l) now s in (b, l, s')
  | None => let '(b, m) := allowIPIn iter (metaHits l) ip (discoveryPerIP l) now in (b, with_metaHits m l, s)
  end.

Definition AllowIssuerRefresh (issuer : string) (l : Limiter) (s : S) : bool * Limiter * S :=
  match shared l with
  | Some _ => let '(b, s') := allowShared sharedBucketIssuer issuer IssuerRefreshPerMinute now s in (b, l, s')
  | None => let '(b, m) := allowIPIn iter (issuerRefreshes l) issuer IssuerRefreshPerMinute now in (b, with_issuerRefreshes m l, s)
  end.
End Allowances.

(** ** The account curve *)
Definition backoffDelay (failures : Z) : Z :=
  if failures <=? FailuresBeforeBackoff then 0
  else Z.min (Z.shiftl 1 (Z.min (failures - FailuresBeforeBackoff - 1) 16) * Second) MaxAccountBackoff.

Definition accountDelay (key : subjectKey) (now : Time) (l : Limiter) : Z :=
  match accounts l !! key with
  | None => 0
  | Some st => if IsZero (ab_until st) then 0 else if 0 <? ab_until st - now then ab_until st - now else 0
  end.

(** The account whose delay expires soonest, in iteration order. *)
Definition scanSoonest (m : gmap subjectKey accountBackoff) (acc : option (string * Time)) (k : string) : option (string * Time) :=
  match m !! k with
  | None => acc
  | Some st =>
      match acc with
      | None => Some (k, ab_until st)
      | Some (_, soonest) => if ab_until st <? soonest then Some (k, ab_until st) else acc
      end
  end.

Definition evictAccounts (iter : gmap subjectKey accountBackoff -> list string) (now : Time) (m : gmap subjectKey accountBackoff) : gmap subjectKey accountBackoff :=
  let m := filter (fun kv => now <? ab_until kv.2 = true) m in
  if Z.of_nat (size m) <? MaxTrackedSubjects then m
  else match fold_left (scanSoonest m) (iter m) None with
       | Some (k, _) => delete k m
       | None => m
       end.

Definition recordFailure (iter : gmap subjectKey accountBackoff -> list string) (key : subjectKey) (now : Time) (l : Limiter) : bool * Limiter :=
  let m := if negb (bool_decide (is_Some (accounts l !! key))) && (MaxTrackedSubjects <=? Z.of_nat (size (accounts l)))
           then evictAccounts iter now (accounts l) else accounts l in
  let st := default (MkBackoff 0 0) (accounts l !! key) in
  let n := ab_failures st + 1 in
  if n <=? FailuresBeforeBackoff then (false, with_accounts (<[key := MkBackoff n (ab_until st)]> m) l)
  else
    let delay := Z.min (Z.shiftl 1 (Z.min (n - FailuresBeforeBackoff - 1) 16) * Second) MaxAccountBackoff in
    (n =? FailuresBeforeBackoff + 1, with_accounts (<[key := MkBackoff n (now + delay)]> m) l).

Definition recordSuccess (key : subjectKey) (l : Limiter) : Limiter := with_accounts (delete key (accounts l)) l.

Section Accounts.
(** SHA-256 of the presented identifier, and hex encoding. *)
Context (bucketKey : string -> subjectKey) (hexEncode : subjectKey -> string).
Context {S : Type} `{SharedStore S}.

Definition sharedAccountSubject (presented : string) : string := hexEncode (bucketKey presented).

Definition sharedAccountDelay (presented : string) (s : S) : Z * S :=
  match shAccountFailureState (sharedAccountSubject presented) s with
  | (Ok (failures, lastFailure, dbNow, ok), s') =>
      if negb ok then (0, s')
      else let d := lastFailure + backoffDelay failures - dbNow in (if 0 <? d then d else 0, s')
  | (_, s') => (RetryAfter, s')
  end.

Definition AccountDelay (presented : string) (now : Time) (l : Limiter) (s : S) : Z * S :=
  match shared l with
  | Some _ => sharedAccountDelay presented s
  | None => (accountDelay (bucketKey presented) now l, s)
  end.

Definition sharedRecordFailure (presented : string) (now : Time) (s : S) : bool * S :=
  match shRecordAccountFailure (sharedAccountSubject presented) now s with
  | (Ok failures, s') => (failures =? FailuresBeforeBackoff + 1, s')
  | (_, s') => (false, s')
  end.

Definition RecordFailure (iter : gmap subjectKey accountBackoff -> list string) (presented : string) (now : Time) (l : Limiter) (s : S) : bool * Limiter * S :=
  match shared l with
  | Some _ => let '(b, s') := sharedRecordFailure presented now s in (b, l, s')
  | None => let '(b, l') := recordFailure iter (bucketKey presented) now l in (b, l', s)
  end.

Definition RecordSuccess (presented : string) (l : Limiter) (s : S) : Limiter * S :=
  match shared l with
  | Some _ => (l, (shClearAccount (sharedAccountSubject presented) s).2)
  | None => (recordSuccess (bucketKey presented) l, s)
  end.
End Accounts.

(** ** Queue and pressure *)
Definition enqueue (l : Limiter) : bool * Limiter :=
  if QueueDepth <=? waiting l then (false, l) else (true, with_waiting (waiting l + 1) l).

Definition dequeue (l : Limiter) : Limiter := with_waiting (waiting l - 1) l.

(** [Enter] up to its select: the per-IP check, then the queue. *)
Definition enterFront {S} `{SharedStore S} (iter : windows -> list string) (now : Time) (sourceIP : string) (l : Limiter) (s : S) : bool * Limiter * S :=
  let '(ok, l1, s1) := allowIP iter now sourceIP l s in
  if negb ok then (false, l1, s1)
  else let '(q, l2) := enqueue l1 in (q, l2, s1).

Record Snapshot := MkSnapshot {
  ConcurrencyLimit : Z; InFlight : Z; QueueDepthLimit : Z; Waiting : Z; ActiveBackoffs : Z }.

Definition takeSnapshot (now : Time) (l : Limiter) : Snapshot :=
  MkSnapshot (concurrency l) (concurrency l - default 0 (slots l)) QueueDepth (waiting l)
    (Z.of_nat (size (filter (fun kv => now <? ab_until kv.2 = true) (accounts l)))).

(** ** Generation handoff

    Limiters live in a heap; each lifecycle lock is free or held by an
    operation in progress. *)
Definition sameBackend (a b : option backend) : bool :=
  match a, b with
  | Some x, Some y => (backend_id x =? backend_id y)%nat
  | None, None => true
  | _, _ => false
  end.

Definition cloneWindows (previous : windows) : windows := (fun hits => hits) <$> previous.

Definition quiescent (l : Limiter) : bool :=
  (waiting l =? 0) && match slots l with Some free => free =? concurrency l | None => false end.

Definition InheritCounters (busy : nat -> bool) (heap : gmap nat Limiter) (recv previous : option nat) : result () * gmap nat Limiter :=
  match recv, previous with
  | Some r, Some p =>
      if (r =? p)%nat then (Err (ENew "admission: generation handoff requires distinct initialized limiters"), heap)
      else if busy p || busy r then (Err ErrNotQuiescent, heap)
      else match heap !! r, heap !! p with
           | Some l, Some prev =>
               if bool_decide (slots prev = None) || bool_decide (slots l = None)
               then (Err (ENew "admission: generation handoff requires initialized limiters"), heap)
               else if negb (quiescent prev && quiescent l) then (Err ErrNotQuiescent, heap)
               else if negb (bool_decide (ipHits l = ∅)) || negb (bool_decide (metaHits l = ∅))
                       || negb (bool_decide (issuerRefreshes l = ∅)) || negb (bool_decide (accounts l = ∅))
               then (Err ErrCountersNotEmpty, heap)
               else if match shared l with
                       | Some b => negb (backend_comparable b) || negb (sameBackend (shared l) (shared prev))
                       | None => false
                       end
               then (Err ErrSharedBackendChanged, heap)
               else
                 let l' := MkLimiter (concurrency l) (perIP l) (discoveryPerIP l) (slots l) (shared prev)
                             (match log l with None => log prev | Some x => Some x end) (waiting l)
                             (cloneWindows (ipHits prev)) (cloneWindows (metaHits prev)) (cloneWindows (issuerRefreshes prev))
                             (accounts prev) in
                 (Ok (), <[r := l']> heap)
           | _, _ => (Panic "nil dereference", heap)
           end
  | _, _ => (Err (ENew "admission: generation handoff requires distinct initialized limiters"), heap)
  end.
