(* ===== verification/AdmissionSpec.v ===== *)
(** * What admission control guarantees

    The slot semaphore as a step relation over concurrent callers with the
    memory it bounds; the windows against an exact sliding-window
    specification; the size of the tracked state; the in-process account curve
    against the shared one; and the generation handoff. *)

From S2P Require Import Prelude.
From S2P Require Import AuditEvent.
From S2P Require Import Coordination.
From S2P Require Import CoordinationSpec.
From S2P Require Import Admission.
From Stdlib Require Import Sorted.

#[local] Open Scope Z_scope.

(** The derived concurrency fits the budget. *)
Lemma New_fits_budget (cfg : Config) (l : Limiter) :
  0 <= ArgonMemoryKiB cfg -> New cfg = Ok l ->
  let budget := if BudgetMiB cfg <=? 0 then DefaultBudgetMiB else BudgetMiB cfg in
  1 <= concurrency l <= MaxConcurrency /\ slots l = Some (concurrency l) /\ waiting l = 0 /\
  concurrency l * ArgonMemoryKiB cfg <= (budget - HeadroomMiB) * 1024 /\ 1 <= perIP l <= discoveryPerIP l.
Proof.
  intros Ha. unfold New. set (budget := if BudgetMiB cfg <=? 0 then _ else _). cbv zeta.
  destruct (Z.eqb_spec (ArgonMemoryKiB cfg) 0); [discriminate|]. set (m := (ArgonMemoryKiB cfg + 1023) / 1024).
  destruct (Z.ltb_spec budget (m + HeadroomMiB)); [discriminate|]. intros [= <-]. cbn [concurrency slots waiting perIP discoveryPerIP].
  assert (1 <= m /\ ArgonMemoryKiB cfg <= m * 1024) as [Hm HA] by (unfold m; Z.to_euclidean_division_equations; lia).
  unfold HeadroomMiB, MaxConcurrency, MetaPerIPPerMinute, PerIPPerMinute in *.
  set (q := (budget - 16) / m).
  assert (1 <= q /\ q * m <= budget - 16) as [Hq Hqm].
  { unfold q. split; [apply Z.div_le_lower_bound; lia|]. rewrite Z.mul_comm. apply Z.mul_div_le. lia. }
  split; [lia|]. split; [done|]. split; [done|]. split.
  - assert (Z.max 1 (Z.min 8 q) <= q) by lia. nia.
  - destruct (Z.leb_spec (cfg_PerIPPerMinute cfg) 0); lia.
Qed.

(** ** The slot semaphore

    A caller of [Enter]: waiting in the select, past it with the deferred
    dequeue still to run, holding a slot until its release runs, or done. *)
Inductive phase := Queued | Taken | GaveUp | Running | Finished.
#[export] Instance phase_eq_dec : EqDecision phase.
Proof. solve_decision. Defined.

Record gate := MkGate { lim : Limiter; callers : gmap nat phase }.

Definition countIn (ps : list phase) (m : gmap nat phase) : Z :=
  Z.of_nat (size (filter (fun kv => bool_decide (kv.2 ∈ ps) = true) m)).

Definition freed (l : Limiter) : Limiter := with_slots (match slots l with Some f => Some (f + 1) | None => None end) l.
Definition taken (l : Limiter) : Limiter := with_slots (match slots l with Some f => Some (f - 1) | None => None end) l.

(** Whatever the other operations do, they leave the semaphore alone. *)
Definition sameGate (l l' : Limiter) : Prop :=
  slots l' = slots l /\ waiting l' = waiting l /\ concurrency l' = concurrency l.

Section Gate.
Context {S : Type} `{SharedStore S}.

Inductive gateStep : gate -> gate -> Prop :=
  | gate_other l cs l' : sameGate l l' -> gateStep (MkGate l cs) (MkGate l' cs)
  (* Enter: the per-IP check, then the queue *)
  | gate_refused l cs iter now ip (s s' : S) l' :
      enterFront iter now ip l s = (false, l', s') -> gateStep (MkGate l cs) (MkGate l' cs)
  | gate_enter l cs iter now ip (s s' : S) l' c :
      enterFront iter now ip l s = (true, l', s') -> cs !! c = None -> gateStep (MkGate l cs) (MkGate l' (<[c := Queued]> cs))
  (* the select: a slot or the cancelled context *)
  | gate_take l cs c free : cs !! c = Some Queued -> slots l = Some free -> 0 < free ->
      gateStep (MkGate l cs) (MkGate (taken l) (<[c := Taken]> cs))
  | gate_giveup l cs c : cs !! c = Some Queued -> gateStep (MkGate l cs) (MkGate l (<[c := GaveUp]> cs))
  (* the deferred dequeue *)
  | gate_admitted l cs c : cs !! c = Some Taken -> gateStep (MkGate l cs) (MkGate (dequeue l) (<[c := Running]> cs))
  | gate_overloaded l cs c : cs !! c = Some GaveUp -> gateStep (MkGate l cs) (MkGate (dequeue l) (<[c := Finished]> cs))
  (* release: effective once *)
  | gate_release l cs c : cs !! c = Some Running -> gateStep (MkGate l cs) (MkGate (freed l) (<[c := Finished]> cs))
  | gate_release_again l cs c : cs !! c = Some Finished -> gateStep (MkGate l cs) (MkGate l cs).

Inductive gateReachable (cfg : Config) : gate -> Prop :=
  | gate_boot l : New cfg = Ok l -> gateReachable cfg (MkGate l ∅)
  | gate_next g g' : gateReachable cfg g -> gateStep g g' -> gateReachable cfg g'.

Lemma countIn_delete ps m c ph :
  m !! c = Some ph -> countIn ps m = countIn ps (delete c m) + (if bool_decide (ph ∈ ps) then 1 else 0).
Proof.
  intros Hc. unfold countIn. rewrite <- (insert_delete_id m c ph Hc) at 1. rewrite map_filter_insert. cbn.
  assert (filter (fun kv : nat * phase => bool_decide (kv.2 ∈ ps) = true) (delete c m) !! c = None) as Hn.
  { apply map_lookup_filter_None. left. apply lookup_delete_eq. }
  destruct (bool_decide (ph ∈ ps)).
  - rewrite decide_True, map_size_insert_None by done. lia.
  - rewrite decide_False, delete_delete_eq by done. lia.
Qed.

Lemma countIn_insert ps m c ph :
  countIn ps (<[c := ph]> m) =
  countIn ps m + (if bool_decide (ph ∈ ps) then 1 else 0)
  - (match m !! c with Some old => if bool_decide (old ∈ ps) then 1 else 0 | None => 0 end).
Proof.
  rewrite (countIn_delete ps (<[c := ph]> m) c ph) by apply lookup_insert_eq. rewrite delete_insert_eq.
  destruct (m !! c) as [old|] eqn:E; [rewrite (countIn_delete ps m c old E); lia|]. rewrite delete_id by done. lia.
Qed.

Lemma countIn_empty ps : countIn ps ∅ = 0.
Proof. unfold countIn. by rewrite map_filter_empty, map_size_empty. Qed.

Lemma countIn_nonneg ps m : 0 <= countIn ps m.
Proof. unfold countIn. lia. Qed.

(** Callers holding a slot, and callers counted in the queue. *)
Definition holding (g : gate) : Z := countIn [Taken; Running] (callers g).
Definition queueing (g : gate) : Z := countIn [Queued; Taken; GaveUp] (callers g).

Definition gateInv (g : gate) : Prop :=
  exists free, slots (lim g) = Some free /\ free + holding g = concurrency (lim g) /\ 0 <= free /\
  waiting (lim g) = queueing g /\ waiting (lim g) <= QueueDepth.

Ltac gate_counts :=
  unfold holding, queueing in *; cbn [callers lim] in *; rewrite ?countIn_insert;
  repeat match goal with H : ?m !! ?c = _ |- context [?m !! ?c] => rewrite H end; cbn [bool_decide decide_rel];
  repeat (first [rewrite bool_decide_true by set_solver | rewrite bool_decide_false by set_solver]).

Lemma allowIP_gate iter now ip l (s : S) b l' s' : allowIP iter now ip l s = (b, l', s') -> sameGate l l'.
Proof.
  unfold allowIP. destruct (shared l); [destruct (allowShared _ _ _ _ _)|destruct (allowIPIn _ _ _ _ _)]; by intros [= <- <- <-].
Qed.

Lemma enterFront_gate iter now ip l (s : S) b l' s' :
  enterFront iter now ip l s = (b, l', s') ->
  slots l' = slots l /\ concurrency l' = concurrency l /\
  (if b then waiting l' = waiting l + 1 /\ waiting l < QueueDepth else waiting l' = waiting l).
Proof.
  unfold enterFront. destruct (allowIP iter now ip l s) as [[ok l1] s1] eqn:E. apply allowIP_gate in E as (E1 & E2 & E3).
  destruct ok; cbn; [|by intros [= <- <- <-]]. unfold enqueue.
  destruct (Z.leb_spec QueueDepth (waiting l1)); intros [= <- <- <-]; cbn; rewrite ?E1, ?E2, ?E3; auto. rewrite E2 in *. auto.
Qed.

Lemma gateStep_inv g g' : gateInv g -> gateStep g g' -> gateInv g' /\ concurrency (lim g') = concurrency (lim g).
Proof.
  intros (free & Hs & Hc & Hf & Hw & Hq) Hstep.
  destruct Hstep as [l cs l' (E1 & E2 & E3)|l cs iter now ip s s' l' (E1 & E2 & E3)%enterFront_gate
    |l cs iter now ip s s' l' c (E1 & E2 & E3)%enterFront_gate Hn|l cs c free' Hcl Hs' Hpos
    |l cs c Hcl|l cs c Hcl|l cs c Hcl|l cs c Hcl|l cs c Hcl]; cbn [lim] in *; (split; [|done]).
  - exists free. cbn. rewrite E1, E2, E3. auto.
  - exists free. cbn. rewrite E1, E2, E3. auto.
  - exists free. gate_counts. rewrite E1, E2. destruct E3 as [E3 E4]. split; [done|]. lia.
  - rewrite Hs in Hs'. injection Hs' as <-. unfold taken. rewrite Hs. exists (free - 1). gate_counts. cbn. split; [done|]. lia.
  - exists free. gate_counts. split; [done|]. lia.
  - exists free. gate_counts. cbn. split; [done|]. lia.
  - exists free. gate_counts. cbn. split; [done|]. lia.
  - unfold freed. rewrite Hs. exists (free + 1). gate_counts. cbn. split; [done|]. lia.
  - exists free. auto.
Qed.

Lemma gateReachable_inv cfg g : 0 <= ArgonMemoryKiB cfg -> gateReachable cfg g ->
  gateInv g /\ exists l, New cfg = Ok l /\ concurrency (lim g) = concurrency l.
Proof.
  intros Ha. induction 1 as [l Hl|g g' _ (IH & l & Hl & Ec) Hstep].
  - split; [|by exists l]. destruct (New_fits_budget cfg l Ha Hl) as (Hc & Hs & Hw & _). exists (concurrency l). cbn.
    unfold holding, queueing. cbn [callers]. rewrite !countIn_empty, Hw. unfold QueueDepth. split; [done|]. lia.
  - destruct (gateStep_inv _ _ IH Hstep) as [IH' Ec']. split; [done|]. exists l. split; [done|]. congruence.
Qed.

Lemma countIn_zero ps m : countIn ps m = 0 <-> forall c ph, m !! c = Some ph -> ph ∉ ps.
Proof.
  unfold countIn. split.
  - intros E c ph Hc Hin. assert (size (filter (fun kv : nat * phase => bool_decide (kv.2 ∈ ps) = true) m) = 0%nat) as E0 by lia.
    apply map_size_empty_inv in E0. apply (map_filter_empty_not_lookup _ _ c ph E0 ltac:(by apply bool_decide_eq_true)). done.
  - intros H0. assert (filter (fun kv : nat * phase => bool_decide (kv.2 ∈ ps) = true) m = ∅) as ->; [|by rewrite map_size_empty].
    apply map_eq. intros c. rewrite lookup_empty. apply map_lookup_filter_None. right. intros ph Hc Hb%bool_decide_eq_true. by eapply H0.
Qed.

Lemma idle_callers g : 
  holding g = 0 /\ queueing g = 0 <-> forall c ph, callers g !! c = Some ph -> ph = Finished.
Proof.
  unfold holding, queueing. rewrite !countIn_zero. split.
  - intros [H1 H2] c ph Hc. specialize (H1 c ph Hc). specialize (H2 c ph Hc). destruct ph; set_solver.
  - intros H0. split; intros c ph ->%H0; set_solver.
Qed.

(** C34. Verification memory is bounded: in every interleaving of callers
    entering, waiting, giving up, running and releasing (once or repeatedly),
    the verifications holding a slot fit in the memory budget less its
    headroom, at most 16 callers wait, the pressure gauge reports exactly the
    slots held, and the limiter reads as quiescent exactly when every caller is
    done. *)
Theorem verification_memory_bounded (cfg : Config) (g : gate) (now : Time) :
  0 <= ArgonMemoryKiB cfg -> gateReachable cfg g ->
  let budget := if BudgetMiB cfg <=? 0 then DefaultBudgetMiB else BudgetMiB cfg in
  holding g * ArgonMemoryKiB cfg <= (budget - HeadroomMiB) * 1024 /\
  waiting (lim g) <= QueueDepth /\ InFlight (takeSnapshot now (lim g)) = holding g /\
  (quiescent (lim g) = true <-> forall c ph, callers g !! c = Some ph -> ph = Finished).
Proof.
  intros Ha Hg. destruct (gateReachable_inv _ _ Ha Hg) as ((free & Hs & Hc & Hf & Hw & Hq) & l & Hl & Ec).
  destruct (New_fits_budget cfg l Ha Hl) as (_ & _ & _ & Hm & _). cbv zeta in *.
  pose proof (countIn_nonneg [Taken; Running] (callers g) : 0 <= holding g).
  split; [nia|]. split; [done|]. split; [cbn; rewrite Hs; cbn; lia|].
  rewrite <- idle_callers. unfold quiescent. rewrite Hs, andb_true_iff, !Z.eqb_eq. lia.
Qed.
End Gate.

(** The limiter's shared backend under HA. *)
#[export] Instance coordination_store : SharedStore DB := {
  shBumpWindow b s w := BumpWindow Fine b s w;
  shAccountFailureState s d := AccountFailureState Fine (clock d) s d;
  shRecordAccountFailure s t d := RecordAccountFailure Fine (clock d) s t d;
  shClearAccount s := ClearAccount Fine s }.

Definition sampleConfig : Config := MkConfig 0 65536 0.
Definition bootGate : gate := MkGate (from_ok (MkLimiter 0 0 0 None None None 0 ∅ ∅ ∅ ∅) (New sampleConfig)) ∅.

Lemma verification_memory_bounded_witness :
  exists g, holding g = 1 /\ waiting (lim g) = 1 /\ holding g * 65536 <= (272 - 16) * 1024.
Proof.
  pose (l0 := lim bootGate).
  pose (l1 := (enterFront (fun _ => []) 5 "10.0.0.1" l0 (emptyDB 0)).1.2).
  assert (gateReachable (S := DB) sampleConfig (MkGate (taken l1) {[0%nat := Taken]})) as Hg.
  { eapply gate_next; [eapply gate_next; [apply gate_boot; reflexivity|]|].
    - eapply (gate_enter _ _ (fun _ => []) 5 "10.0.0.1" (emptyDB 0) (emptyDB 0) l1 0%nat); vm_compute; reflexivity.
    - replace ({[0%nat := Taken]} : gmap nat phase) with (<[0%nat := Taken]> (<[0%nat := Queued]> (∅ : gmap nat phase))) by (vm_compute; reflexivity).
      eapply gate_take with (free := 4); vm_compute; reflexivity. }
  exists (MkGate (taken l1) {[0%nat := Taken]}). split; [vm_compute; reflexivity|]. split; [vm_compute; reflexivity|].
  exact (proj1 (verification_memory_bounded (S := DB) sampleConfig _ 0 ltac:(vm_compute; discriminate) Hg)).
Defined.

(** ** Bounded tracking *)
Lemma scanOldest_result (b : windows) l acc :
  (acc.1 = "" \/ is_Some (b !! acc.1)) ->
  let r := fold_left (scanOldest b) l acc in
  (r.1 = "" \/ is_Some (b !! r.1)) /\
  ((acc.1 <> "" \/ exists k h t, In k l /\ b !! k = Some (h :: t)) -> b !! "" = None -> r.1 <> "").
Proof.
  revert acc. induction l as [|k l IH]; intros acc Hacc; cbn [fold_left].
  - split; [done|]. intros [H|(k & _ & _ & [] & _)] _. done.
  - assert ((scanOldest b acc k).1 = "" \/ is_Some (b !! (scanOldest b acc k).1)) as Hacc'.
    { unfold scanOldest. destruct (b !! k) as [[|h t]|] eqn:E; [done| |done].
      destruct (_ || _); [|done]. right. cbn. by rewrite E. }
    destruct (IH _ Hacc') as [H1 H2]. split; [done|]. intros H Hemp. apply H2; [|done].
    unfold scanOldest. destruct H as [H|(k' & h & t & [->|Hin] & Hk)].
    + left. destruct (b !! k) as [[|h t]|] eqn:E; [done| |done]. destruct (_ || _); [|done]. cbn. congruence.
    + left. rewrite Hk. destruct (acc.1 =s "") eqn:Ee; cbn [orb fst].
      * intros ->. congruence.
      * string_eqs. destruct (_ <? _); [|done]. cbn. congruence.
    + right. by exists k', h, t.
Qed.

(** A window map the limiter may hold: bounded, no anonymous bucket, no list
    past the allowance. *)
Definition windowsOk (a : Z) (b : windows) : Prop :=
  Z.of_nat (size b) <= MaxTrackedSubjects /\ b !! "" = None /\ map_Forall (fun _ hits => Z.of_nat (length hits) <= a) b.

Lemma filter_size_le {A} (P : string * A -> Prop) `{!forall x, Decision (P x)} (m : gmap string A) : (size (filter P m) <= size m)%nat.
Proof. apply map_subseteq_size, map_filter_subseteq. Qed.

Lemma delete_size_lt {A} (m : gmap string A) k : is_Some (m !! k) -> (size (delete k m) < size m)%nat.
Proof.
  intros [v Hv]. rewrite map_size_delete_Some by done. assert (size m <> 0)%nat; [|lia].
  intros E%map_size_empty_inv. by rewrite E, lookup_empty in Hv.
Qed.

Lemma evictStale_sub iter b cutoff : evictStale iter b cutoff ⊆ b.
Proof.
  unfold evictStale. destruct (_ <=? _); [|apply map_filter_subseteq].
  destruct (_ <>s _); [etrans; [apply delete_subseteq|]|]; (etrans; [apply map_filter_subseteq|apply map_filter_subseteq]).
Qed.

Lemma evictStale_makes_room iter b cutoff :
  visitsAll iter -> b !! "" = None -> Z.of_nat (size b) <= MaxTrackedSubjects ->
  Z.of_nat (size (evictStale iter b cutoff)) < MaxTrackedSubjects.
Proof.
  intros Hit Hemp Hsz. unfold evictStale.
  set (b1 := filter (fun kv : string * list Time => existsb (fun t => cutoff <? t) kv.2 = true) b).
  destruct (Z.leb_spec MaxTrackedSubjects (Z.of_nat (size b1))) as [Hbig|]; [|lia].
  assert (b1 !! "" = None) as Hemp1 by (apply map_lookup_filter_None; by left).
  assert (exists k h t, In k (iter b1) /\ b1 !! k = Some (h :: t)) as Hex.
  { destruct (decide (b1 = ∅)) as [E|(k & hits & Hk)%map_choose]; [rewrite E, map_size_empty in Hbig; unfold MaxTrackedSubjects in *; lia|].
    pose proof Hk as [_ Hl]%map_lookup_filter_Some. destruct hits as [|h t]; [discriminate Hl|].
    exists k, h, t. split; [|done]. apply Hit. by eexists. }
  destruct (scanOldest_result b1 (iter b1) ("", 0)) as [Hin Hne]; [by left|].
  specialize (Hne (or_intror Hex) Hemp1). destruct Hin as [|Hin]; [done|].
  apply String.eqb_neq in Hne as ->. cbn [negb].
  set (k := (fold_left _ _ _).1) in *.
  assert (size (delete k (filter (fun kv : string * list Time => negb (length kv.2 =? 0)%nat = true) b1)) <= size (delete k b1))%nat.
  { apply map_subseteq_size, delete_mono, map_filter_subseteq. }
  pose proof (delete_size_lt b1 k Hin). pose proof (filter_size_le (fun kv : string * list Time => existsb (fun t => cutoff <? t) kv.2 = true) b).
  unfold b1 in *. lia.
Qed.

Lemma live_length c hits : (length (live c hits) <= length hits)%nat.
Proof. apply filter_length_le. Qed.

Lemma insert_size_le {A} (m : gmap string A) k v n :
  (is_Some (m !! k) -> (size m <= n)%nat) -> (m !! k = None -> (size m < n)%nat) -> (size (<[k := v]> m) <= n)%nat.
Proof.
  intros H1 H2. destruct (m !! k) as [x|] eqn:E.
  - rewrite map_size_insert_Some by by eexists. apply H1. by eexists.
  - rewrite map_size_insert_None by done. specialize (H2 eq_refl). lia.
Qed.

Lemma allowIPIn_ok iter a b ip now :
  visitsAll iter -> 1 <= a -> windowsOk a b -> windowsOk a (allowIPIn iter b ip a now).2.
Proof.
  intros Hit Ha (Hsz & Hemp & Hlen). unfold allowIPIn. destruct (String.eqb_spec ip "") as [->|Hip]; [done|]. cbv zeta.
  set (kept := live (now - Minute) (default [] (b !! ip))).
  assert (Z.of_nat (length kept) <= a) as Hk.
  { pose proof (live_length (now - Minute) (default [] (b !! ip))). unfold kept. destruct (b !! ip) as [hits|] eqn:E; cbn in *; [|lia].
    specialize (Hlen _ _ E). cbn in Hlen. lia. }
  assert ((0 < length kept)%nat -> is_Some (b !! ip)) as Hin.
  { unfold kept. destruct (b !! ip); cbn; [by eexists|lia]. }
  destruct (Z.leb_spec a (Z.of_nat (length kept))); cbn [snd].
  - split; [|split].
    + assert (size (<[ip := kept]> b) <= Z.to_nat MaxTrackedSubjects)%nat; [|unfold MaxTrackedSubjects in *; lia].
      apply insert_size_le; [unfold MaxTrackedSubjects in *; lia|]. intros E. destruct (Hin ltac:(lia)) as [? Hs]. congruence.
    + by rewrite lookup_insert_ne.
    + by apply map_Forall_insert_2.
  - set (b2 := if _ && _ then _ else _).
    assert (b2 ⊆ b) as Hsub by (unfold b2; destruct (_ && _); [apply evictStale_sub|done]).
    split; [|split].
    + assert (size (<[ip := kept ++ [now]]> b2) <= Z.to_nat MaxTrackedSubjects)%nat; [|unfold MaxTrackedSubjects in *; lia].
      apply insert_size_le; [pose proof (map_subseteq_size _ _ Hsub); unfold MaxTrackedSubjects in *; lia|]. intros E. unfold b2 in *.
      destruct (Nat.eqb_spec (length kept) 0); cbn [andb] in *.
      * destruct (Z.leb_spec MaxTrackedSubjects (Z.of_nat (size b))); [|unfold MaxTrackedSubjects in *; lia].
        pose proof (evictStale_makes_room iter b (now - Minute) Hit Hemp Hsz). unfold MaxTrackedSubjects in *. lia.
      * destruct (Hin ltac:(lia)) as [? Hs]. congruence.
    + rewrite lookup_insert_ne by done. eapply lookup_weaken_None; done.
    + apply map_Forall_insert_2; [rewrite length_app; cbn; lia|]. intros k hits Hkb. apply (Hlen k). by eapply lookup_weaken.
Qed.

Lemma scanSoonest_result (m : gmap string accountBackoff) l acc :
  (forall k t, acc = Some (k, t) -> is_Some (m !! k)) ->
  let r := fold_left (scanSoonest m) l acc in
  (forall k t, r = Some (k, t) -> is_Some (m !! k)) /\ ((is_Some acc \/ exists k, In k l /\ is_Some (m !! k)) -> is_Some r).
Proof.
  revert acc. induction l as [|k l IH]; intros acc Hacc; cbn [fold_left].
  - split; [done|]. intros [H|(k & [] & _)]. done.
  - assert (forall k' t, scanSoonest m acc k = Some (k', t) -> is_Some (m !! k')) as Hacc'.
    { intros k' t. unfold scanSoonest. destruct (m !! k) eqn:E; [|by apply Hacc]. destruct acc as [[k0 s0]|].
      - destruct (_ <? _); [|by apply Hacc]. intros [= <- _]. by rewrite E.
      - intros [= <- _]. by rewrite E. }
    destruct (IH _ Hacc') as [H1 H2]. split; [done|]. intros H. apply H2. unfold scanSoonest.
    destruct H as [[[k0 s0] ->]|(k' & [->|Hin] & [st Hk])].
    + left. destruct (m !! k); [destruct (_ <? _)|]; by eexists.
    + left. rewrite Hk. destruct acc as [[k0 s0]|]; [destruct (_ <? _)|]; by eexists.
    + right. exists k'. by split; [|eexists].
Qed.

Lemma evictAccounts_makes_room iter now (m : gmap string accountBackoff) :
  visitsAll iter -> Z.of_nat (size m) <= MaxTrackedSubjects -> Z.of_nat (size (evictAccounts iter now m)) < MaxTrackedSubjects.
Proof.
  intros Hit Hsz. unfold evictAccounts.
  pose proof (filter_size_le (fun kv : string * accountBackoff => now <? ab_until kv.2 = true) m) as Hle.
  set (m1 := filter (fun kv : string * accountBackoff => now <? ab_until kv.2 = true) m) in *.
  destruct (Z.ltb_spec (Z.of_nat (size m1)) MaxTrackedSubjects) as [|Hbig]; [done|].
  destruct (scanSoonest_result m1 (iter m1) None) as [Hin Hsome]; [done|].
  assert (is_Some (fold_left (scanSoonest m1) (iter m1) None)) as [[k t] Hk].
  { apply Hsome. right. destruct (decide (m1 = ∅)) as [E|(k & st & Hk)%map_choose].
    - rewrite E, map_size_empty in Hbig. unfold MaxTrackedSubjects in *. lia.
    - exists k. split; [apply Hit|]; by eexists. }
  rewrite Hk. pose proof (delete_size_lt m1 k (Hin k t Hk)). lia.
Qed.

(** The limiter's tracked state. *)
Definition trackOk (l : Limiter) : Prop :=
  windowsOk (perIP l) (ipHits l) /\ windowsOk (discoveryPerIP l) (metaHits l) /\
  windowsOk IssuerRefreshPerMinute (issuerRefreshes l) /\ Z.of_nat (size (accounts l)) <= MaxTrackedSubjects /\
  1 <= perIP l <= discoveryPerIP l /\ shared l = None.

Lemma recordFailure_ok iter key now l : visitsAll iter -> trackOk l -> trackOk (recordFailure iter key now l).2.
Proof.
  intros Hit (H1 & H2 & H3 & Ha & H5 & H6).
  assert (forall st, Z.of_nat (size (<[key := st]> (if negb (bool_decide (is_Some (accounts l !! key))) && (MaxTrackedSubjects <=? Z.of_nat (size (accounts l)))
     then evictAccounts iter now (accounts l) else accounts l))) <= MaxTrackedSubjects) as Hs.
  { intros st. pose proof (evictAccounts_makes_room iter now (accounts l) Hit Ha) as Hev.
    set (m := if _ && _ then _ else _).
    assert (size (<[key := st]> m) <= Z.to_nat MaxTrackedSubjects)%nat; [|unfold MaxTrackedSubjects in *; lia].
    apply insert_size_le; unfold m; clear m; [destruct (_ && _); unfold MaxTrackedSubjects in *; lia|].
    case_bool_decide as Hk; cbn [negb andb].
    - intros E. rewrite E in Hk. by destruct Hk.
    - intros _. destruct (Z.leb_spec MaxTrackedSubjects (Z.of_nat (size (accounts l)))); unfold MaxTrackedSubjects in *; lia. }
  unfold recordFailure. destruct (_ <=? FailuresBeforeBackoff); cbn [snd]; unfold trackOk; cbn; auto 10.
Qed.

(** What callers do to one limiter without a shared backend; each operation
    carries its clock reading and the iteration orders it meets. *)
Inductive limiterOp :=
  | OpEnterIP (ip : string) | OpDiscovery (ip : string) | OpIssuer (issuer : string)
  | OpFailure (key : string) | OpSuccess (key : string).

Record timedOp := MkTimedOp {
  op_now : Time; op_kind : limiterOp;
  op_iter : windows -> list string; op_iterAccounts : gmap string accountBackoff -> list string }.

Definition applyOp (o : timedOp) (l : Limiter) : Limiter :=
  match op_kind o with
  | OpEnterIP ip => (allowIP (op_iter o) (op_now o) ip l (emptyDB 0)).1.2
  | OpDiscovery ip => (AllowDiscovery (op_iter o) (op_now o) ip l (emptyDB 0)).1.2
  | OpIssuer i => (AllowIssuerRefresh (op_iter o) (op_now o) i l (emptyDB 0)).1.2
  | OpFailure k => (recordFailure (op_iterAccounts o) k (op_now o) l).2
  | OpSuccess k => recordSuccess k l
  end.

Definition fairOp (o : timedOp) : Prop := visitsAll (op_iter o) /\ visitsAll (op_iterAccounts o).

Lemma applyOp_ok o l : fairOp o -> trackOk l -> trackOk (applyOp o l).
Proof.
  intros [Hi Hia] Hok. pose proof Hok as (H1 & H2 & H3 & H4 & H5 & H6). unfold applyOp.
  destruct (op_kind o) as [ip|ip|i|k|k].
  - unfold allowIP. rewrite H6. pose proof (allowIPIn_ok (op_iter o) (perIP l) (ipHits l) ip (op_now o) Hi ltac:(lia) H1) as Hw.
    destruct (allowIPIn _ _ _ _ _). unfold trackOk. cbn in *. auto 10.
  - unfold AllowDiscovery. rewrite H6. pose proof (allowIPIn_ok (op_iter o) (discoveryPerIP l) (metaHits l) ip (op_now o) Hi ltac:(lia) H2) as Hw.
    destruct (allowIPIn _ _ _ _ _). unfold trackOk. cbn in *. auto 10.
  - unfold AllowIssuerRefresh. rewrite H6.
    pose proof (allowIPIn_ok (op_iter o) IssuerRefreshPerMinute (issuerRefreshes l) i (op_now o) Hi ltac:(done) H3) as Hw.
    destruct (allowIPIn _ _ _ _ _). unfold trackOk. cbn in *. auto 10.
  - by apply recordFailure_ok.
  - unfold trackOk. cbn. split; [done|]. split; [done|]. split; [done|]. split; [|done].
    pose proof (map_subseteq_size _ _ (delete_subseteq (accounts l) k)). lia.
Qed.

(** Tracked state is bounded: from boot, after any sequence of attempts,
    discovery calls, issuer refreshes, failures and successes over any subjects
    at any times, each of the three window maps and the account map holds at
    most 4096 subjects and no subject's list grows past its allowance, whatever
    order the eviction scans visit the maps in. *)
Theorem tracked_state_bounded (cfg : Config) (l : Limiter) (ops : list timedOp) :
  0 <= ArgonMemoryKiB cfg -> New cfg = Ok l -> Forall fairOp ops ->
  trackOk (fold_left (fun l o => applyOp o l) ops l).
Proof.
  intros Ha Hl Hops. assert (trackOk l) as H0.
  { destruct (New_fits_budget cfg l Ha Hl) as (_ & _ & _ & _ & Hp). revert Hl. unfold New. cbv zeta.
    destruct (_ =? 0); [discriminate|]. destruct (_ <? _); [discriminate|]. intros [= <-].
    unfold trackOk, windowsOk. cbn in *. rewrite !map_size_empty. repeat split; try done; try lia; apply map_Forall_empty. }
  clear Hl. revert l H0. induction Hops as [|o ops Ho _ IH]; intros l H0; [done|]. cbn. apply IH. by apply applyOp_ok.
Qed.

Definition iterKeys {A} (m : gmap string A) : list string := (map_to_list m).*1.

Lemma iterKeys_all {A} : visitsAll (@iterKeys A).
Proof.
  intros m k. unfold iterKeys. rewrite <- list_elem_of_In, list_elem_of_fmap. split.
  - intros ([k' v] & -> & Hin%elem_of_map_to_list). by eexists.
  - intros [v Hv]. exists (k, v). split; [done|]. by apply elem_of_map_to_list.
Qed.

Lemma tracked_state_bounded_witness :
  exists l, New sampleConfig = Ok l /\
  trackOk (fold_left (fun l o => applyOp o l)
    [MkTimedOp 5 (OpEnterIP "a") iterKeys iterKeys; MkTimedOp 6 (OpFailure "k") iterKeys iterKeys] l).
Proof.
  eexists. split; [reflexivity|]. apply (tracked_state_bounded sampleConfig); [vm_compute; discriminate|reflexivity|].
  repeat constructor; apply iterKeys_all.
Defined.

(** ** The exact sliding window

    The specification keeps every admission ever made and admits a subject when
    fewer than its allowance of them fall in the last minute. *)
Definition admissions (ip : string) (h : list (string * Time)) : list Time :=
  map snd (List.filter (fun x => x.1 =s ip) h).

Definition specAllows (a : Z) (h : list (string * Time)) (ip : string) (now : Time) : bool :=
  (ip =s "") || (Z.of_nat (length (live (now - Minute) (admissions ip h))) <? a).

Fixpoint specRun (a : Z) (evs : list ((windows -> list string) * string * Time)) (h : list (string * Time)) : list bool :=
  match evs with
  | [] => []
  | (_, ip, now) :: evs' =>
      let ok := specAllows a h ip now in
      ok :: specRun a evs' (if ok then h ++ [(ip, now)] else h)
  end.

Fixpoint windowRun (a : Z) (evs : list ((windows -> list string) * string * Time)) (b : windows) : list bool :=
  match evs with
  | [] => []
  | (iter, ip, now) :: evs' => let '(ok, b') := allowIPIn iter b ip a now in ok :: windowRun a evs' b'
  end.

Lemma live_live c c' hits : c <= c' -> live c' (live c hits) = live c' hits.
Proof.
  intros H. unfold live. induction hits as [|t hits IH]; [done|]. cbn. destruct (Z.ltb_spec c t); cbn; rewrite IH; [done|].
  destruct (Z.ltb_spec c' t); [lia|done].
Qed.

Lemma live_app c l l' : live c (l ++ l') = live c l ++ live c l'.
Proof. apply List.filter_app. Qed.

Lemma live_nil_weaken c c' hits : c <= c' -> live c hits = [] -> live c' hits = [].
Proof. intros H E. by rewrite <- (live_live c c'), E. Qed.

Lemma live_existsb c hits : existsb (fun t => c <? t) hits = false -> live c hits = [].
Proof.
  unfold live. induction hits as [|t hits IH]; [done|]. cbn. intros [H1 H2]%orb_false_elim. rewrite H1. by apply IH.
Qed.

Lemma admissions_app ip h ip' t : admissions ip (h ++ [(ip', t)]) = admissions ip h ++ (if ip' =s ip then [t] else []).
Proof. unfold admissions. rewrite List.filter_app, map_app. cbn. by destruct (ip' =s ip). Qed.

Section Exact.
(** The subjects of the run: as many as the limiter can track. *)
Context (a : Z) (subs : gset string) (Hsubs : Z.of_nat (size subs) <= MaxTrackedSubjects).

Definition agrees (t0 : Time) (b : windows) (h : list (string * Time)) : Prop :=
  dom b ⊆ subs /\ forall ip c, ip <> "" -> t0 - Minute <= c -> live c (default [] (b !! ip)) = live c (admissions ip h).

Lemma fresh_has_room (b : windows) ip : dom b ⊆ subs -> ip ∈ subs -> b !! ip = None -> Z.of_nat (size b) < MaxTrackedSubjects.
Proof.
  intros Hd Hip Hn. assert (size b < size subs)%nat; [|lia].
  rewrite <- size_dom. apply subset_size. split; [done|]. intros Hs. apply Hs in Hip. by apply not_elem_of_dom in Hn.
Qed.

(** With all its subjects tracked, eviction forgets nothing inside the window. *)
Lemma evict_forgets_nothing iter (b : windows) ip cutoff :
  dom b ⊆ subs -> ip ∈ subs -> live cutoff (default [] (b !! ip)) = [] -> MaxTrackedSubjects <= Z.of_nat (size b) ->
  forall k c, cutoff <= c -> live c (default [] (evictStale iter b cutoff !! k)) = live c (default [] (b !! k)).
Proof.
  intros Hd Hip Hstale Hbig. unfold evictStale.
  set (b1 := filter (fun kv : string * list Time => existsb (fun t => cutoff <? t) kv.2 = true) b).
  assert (Z.of_nat (size b1) < MaxTrackedSubjects) as Hroom.
  { destruct (b !! ip) as [hits|] eqn:E; [|pose proof (fresh_has_room b ip Hd Hip E); lia].
    assert (b1 ⊆ delete ip b) as Hsub.
    { apply map_subseteq_spec. intros k hs [Hk Hl]%map_lookup_filter_Some. apply lookup_delete_Some. split; [|done].
      intros ->. rewrite E in Hk. injection Hk as <-. cbn in *. clear -Hl Hstale.
      apply existsb_exists in Hl as (t & Hin & Ht). assert (In t (live cutoff hits)) as H by (by apply filter_In). unfold live in *. by rewrite Hstale in H. }
    apply map_subseteq_size in Hsub. pose proof (delete_size_lt b ip ltac:(by eexists)).
    assert (size b <= size subs)%nat by (rewrite <- size_dom; by apply subseteq_size). lia. }
  destruct (Z.leb_spec MaxTrackedSubjects (Z.of_nat (size b1))); [lia|]. intros k c Hc.
  destruct (b !! k) as [hits|] eqn:Ek.
  - destruct (existsb (fun t => cutoff <? t) hits) eqn:El.
    + assert (b1 !! k = Some hits) as ->; [|done]. by apply map_lookup_filter_Some.
    + assert (b1 !! k = None) as ->; [|cbn; symmetry; eapply live_nil_weaken, live_existsb; done].
      apply map_lookup_filter_None. right. intros x Hx. rewrite Ek in Hx. injection Hx as <-. cbn. by rewrite El.
  - assert (b1 !! k = None) as ->; [|done]. apply map_lookup_filter_None. by left.
Qed.

Lemma agrees_insert t0 (b b2 : windows) h ip hits hits' :
  agrees t0 b h -> dom b2 ⊆ subs -> ip ∈ subs -> ip <> "" ->
  (forall k c, k <> ip -> t0 - Minute <= c -> live c (default [] (b2 !! k)) = live c (default [] (b !! k))) ->
  (forall c, t0 - Minute <= c -> live c hits = live c hits') ->
  forall h', (forall k, admissions k h' = if k =s ip then hits' else admissions k h) ->
  agrees t0 (<[ip := hits]> b2) h'.
Proof.
  intros [Hd Ha] Hd2 Hip Hne Hother Hhits h' Hh'. split; [rewrite dom_insert; set_solver|]. intros k c Hk Hc. rewrite Hh'.
  destruct (String.eqb_spec k ip) as [->|Hki].
  - rewrite lookup_insert_eq. by apply Hhits.
  - rewrite lookup_insert_ne by done. rewrite Hother by done. by apply Ha.
Qed.

Lemma agrees_later t0 t1 b h : t0 <= t1 -> agrees t0 b h -> agrees t1 b h.
Proof. intros Ht [Hd H]. split; [done|]. intros ip c Hip Hc. apply H; [done|lia]. Qed.

Lemma window_step iter t0 b h ip now :
  t0 <= now -> agrees t0 b h -> (ip = "" \/ ip ∈ subs) ->
  let ok := specAllows a h ip now in
  (allowIPIn iter b ip a now).1 = ok /\ agrees now (allowIPIn iter b ip a now).2 (if ok then h ++ [(ip, now)] else h).
Proof.
  intros Ht Hag%(agrees_later t0 now) Hip; [|done]. unfold specAllows, allowIPIn.
  destruct (String.eqb_spec ip "") as [->|Hne]; cbn [orb].
  { split; [done|]. cbn [snd]. destruct Hag as [Hd H]. split; [done|]. intros k c Hk Hc. rewrite admissions_app.
    destruct (String.eqb_spec "" k); [congruence|]. rewrite app_nil_r. by apply H. }
  destruct Hip as [|Hip]; [done|]. cbv zeta. pose proof Hag as [Hd Ha].
  rewrite (Ha ip (now - Minute) Hne ltac:(lia)). set (kept := live (now - Minute) (admissions ip h)).
  assert (forall c, now - Minute <= c -> live c kept = live c (admissions ip h)) as Hkept by (intros; by apply live_live).
  destruct (Z.ltb_spec (Z.of_nat (length kept)) a); destruct (Z.leb_spec a (Z.of_nat (length kept))); try lia; cbn [fst snd]; (split; [done|]).
  - eapply (agrees_insert now b _ h ip (kept ++ [now]) (admissions ip h ++ [now])); try done.
    + destruct (_ && _); [|done]. etrans; [|exact Hd]. apply subseteq_dom, evictStale_sub.
    + intros k c _ Hc. destruct (Nat.eqb_spec (length kept) 0) as [E|]; [|done].
      destruct (Z.leb_spec MaxTrackedSubjects (Z.of_nat (size b))); cbn [andb]; [|done].
      apply (evict_forgets_nothing iter b ip); [done|done| |done|done]. rewrite (Ha ip); [by apply nil_length_inv|done|lia].
    + intros c Hc. rewrite !live_app. by rewrite Hkept.
    + intros k. rewrite admissions_app. rewrite (String.eqb_sym ip k). destruct (String.eqb_spec k ip) as [->|]; [done|]. by rewrite app_nil_r.
  - eapply (agrees_insert now b b h ip kept (admissions ip h)); try done. intros k. by destruct (String.eqb_spec k ip) as [->|].
Qed.

Lemma window_run t0 evs b h :
  agrees t0 b h -> StronglySorted Z.le (t0 :: map snd evs) -> Forall (fun ev => ev.1.2 = "" \/ ev.1.2 ∈ subs) evs ->
  windowRun a evs b = specRun a evs h.
Proof.
  revert t0 b h. induction evs as [|[[iter ip] now] evs IH]; intros t0 b h Hag Hs Hip; [done|]. cbn.
  apply StronglySorted_inv in Hs as [Hs Hall]. apply Forall_cons in Hip as [Hip Hips].
  destruct (window_step iter t0 b h ip now (Forall_inv Hall) Hag Hip) as [Hd Hag'].
  destruct (allowIPIn iter b ip a now) as [ok b'] eqn:E. cbn [fst snd] in *. subst ok. f_equal. by eapply IH.
Qed.
End Exact.

(** C31. The windows are exact sliding windows: while the clock does not run
    backwards and no more subjects appear than the limiter tracks, every
    decision equals the specification's, which remembers every admission and
    lets a subject in exactly when fewer than its allowance fall in the last
    minute. Pruning lists in place and evicting stale subjects change no
    answer. The windows are those kept in process memory, and the readings of the
    clock are taken in the order of the decisions. *)
Theorem window_decisions_exact (a : Z) (subs : gset string) (t0 : Time) (evs : list ((windows -> list string) * string * Time)) :
  Z.of_nat (size subs) <= MaxTrackedSubjects -> StronglySorted Z.le (t0 :: map snd evs) ->
  Forall (fun ev => ev.1.2 = "" \/ ev.1.2 ∈ subs) evs ->
  windowRun a evs ∅ = specRun a evs [].
Proof.
  intros Hs Ht Hip. apply (window_run a subs Hs t0); [|done|done]. split; [set_solver|]. intros ip c _ _. by rewrite lookup_empty.
Qed.

Lemma window_decisions_exact_witness :
  let evs := map (fun t => (iterKeys, "a", t)) [1; 2; 3; 61 * Second] in
  windowRun 2 evs ∅ = [true; true; false; true] /\ windowRun 2 evs ∅ = specRun 2 evs [].
Proof.
  split; [vm_compute; reflexivity|]. apply (window_decisions_exact 2 {["a"]} 0).
  - rewrite size_singleton. unfold MaxTrackedSubjects. lia.
  - cbn. repeat constructor; unfold Second; lia.
  - repeat constructor; cbn; set_solver.
Defined.

(** ** The account curve, in process and shared *)

(** The closed form of the delay. *)
Lemma backoffDelay_formula n :
  backoffDelay n = if n <=? 5 then 0 else Z.min (2 ^ (n - 6)) 60 * Second.
Proof.
  unfold backoffDelay, FailuresBeforeBackoff, MaxAccountBackoff. destruct (Z.leb_spec n 5); [done|].
  replace (n - 5 - 1) with (n - 6) by lia. rewrite Z.shiftl_mul_pow2, Z.mul_1_l by lia.
  destruct (Z.le_gt_cases (n - 6) 16) as [Hle|Hgt]; [rewrite (Z.min_l (n - 6) 16) by lia; unfold Second; lia|].
  rewrite (Z.min_r (n - 6) 16) by lia. assert (2 ^ 16 <= 2 ^ (n - 6)) by (apply Z.pow_le_mono_r; lia).
  change (2 ^ 16) with 65536 in *. unfold Second. lia.
Qed.

(** The sixth consecutive failure delays by one second: the exponent is the
    failures past the threshold less one. *)
Lemma backoff_starts_at_one_second : backoffDelay 6 = Second /\ Z.min (2 ^ (6 - 5)) 60 * Second = 2 * Second.
Proof. split; reflexivity. Qed.

Lemma backoffDelay_nonneg n : 0 <= backoffDelay n.
Proof.
  rewrite backoffDelay_formula. destruct (Z.leb_spec n 5); [done|]. assert (0 < 2 ^ (n - 6)) by (apply Z.pow_pos_nonneg; lia).
  unfold Second. lia.
Qed.

Inductive acctOp := AcctFailure (presented : string) | AcctSuccess (presented : string) | AcctDelay (presented : string).
Inductive acctOut := OutCrossed (b : bool) | OutReset | OutDelay (d : Z).

Section Curve.
Context (bucketKey : string -> string) (hexEncode : string -> string) `{!Inj (=) (=) hexEncode}.
Context (iter : gmap string accountBackoff -> list string).

(** One call at clock [now], the node's clock and the datastore's agreeing. *)
Definition acctStep (now : Time) (o : acctOp) (l : Limiter) (d : DB) : acctOut * Limiter * DB :=
  let d := with_clock now d in
  match o with
  | AcctFailure p => let '(b, l', d') := RecordFailure bucketKey hexEncode iter p now l d in (OutCrossed b, l', d')
  | AcctSuccess p => let '(l', d') := RecordSuccess bucketKey hexEncode p l d in (OutReset, l', d')
  | AcctDelay p => let '(dl, d') := AccountDelay bucketKey hexEncode p now l d in (OutDelay dl, l, d')
  end.

Fixpoint acctRun (ops : list (Time * acctOp)) (l : Limiter) (d : DB) : list acctOut :=
  match ops with
  | [] => []
  | (now, o) :: ops' => let '(out, l', d') := acctStep now o l d in out :: acctRun ops' l' d'
  end.

Definition presentedOf (o : acctOp) : string := match o with AcctFailure p | AcctSuccess p | AcctDelay p => p end.

(** One account's two representations. *)
Definition sameAccount (t0 : Time) (st : option accountBackoff) (row : option counterRow) : Prop :=
  match st, row with
  | None, None => True
  | Some st, Some r =>
      ab_failures st = failures r /\ exists last, until_at r = Some last /\ 0 < last <= t0 /\
      ab_until st = if failures r <=? FailuresBeforeBackoff then 0 else last + backoffDelay (failures r)
  | _, _ => False
  end.

Context (keys : gset string) (Hkeys : Z.of_nat (size keys) <= MaxTrackedSubjects).

Definition curveAgrees (t0 : Time) (l : Limiter) (d : DB) : Prop :=
  dom (accounts l) ⊆ keys /\ shared l = None /\
  forall k, sameAccount t0 (accounts l !! k) (admission_counters d !! accountKey (hexEncode k)).

Lemma accountKey_inj k k' : accountKey (hexEncode k) = accountKey (hexEncode k') -> k = k'.
Proof. intros H. unfold accountKey in H. injection H as H. by apply (inj hexEncode). Qed.

Lemma sameAccount_later t0 t1 st row : t0 <= t1 -> sameAccount t0 st row -> sameAccount t1 st row.
Proof.
  unfold sameAccount. destruct st, row; try done. intros Ht (Hf & last & Hl & Hr & Hu). split; [done|]. exists last.
  split; [done|]. split; [lia|done].
Qed.

Lemma curve_insert t0 l d k st row m :
  curveAgrees t0 l d -> k ∈ keys -> m = accounts l -> sameAccount t0 (Some st) (Some row) ->
  curveAgrees t0 (with_accounts (<[k := st]> m) l) (with_counters (<[accountKey (hexEncode k) := row]> (admission_counters d)) d).
Proof.
  intros (Hd & Hs & Hall) Hk -> Hsame. split; [cbn; rewrite dom_insert; set_solver|]. split; [done|]. intros k'. cbn.
  destruct (decide (k = k')) as [->|Hne]; [by rewrite !lookup_insert_eq|].
  rewrite !lookup_insert_ne; [apply Hall| |done]. by intros ?%accountKey_inj.
Qed.

Lemma AccountFailureState_fine t subj d :
  AccountFailureState Fine t subj d =
  (match admission_counters d !! accountKey subj with
   | None => Ok (0, 0, 0, false)
   | Some r => Ok (failures r, default 0 (until_at r), t, true)
   end, d).
Proof. unfold AccountFailureState, transactionResult, transaction. by destruct (_ !! _). Qed.

Lemma curve_delay t0 l d p now :
  0 < now -> t0 <= now -> curveAgrees t0 l d ->
  accountDelay (bucketKey p) now l = (sharedAccountDelay bucketKey hexEncode p (with_clock now d)).1.
Proof.
  intros H0 Ht (_ & _ & Hall). specialize (Hall (bucketKey p)). unfold accountDelay, sharedAccountDelay, sameAccount in *. cbn [shAccountFailureState coordination_store].
  rewrite AccountFailureState_fine. cbn [clock with_clock admission_counters]. unfold sharedAccountSubject. destruct (accounts l !! bucketKey p) as [st|], (admission_counters d !! _) as [r|]; try done.
  destruct Hall as (Hf & last & -> & Hr & ->). cbn. pose proof (backoffDelay_nonneg (failures r)) as Hb.
  destruct (Z.leb_spec (failures r) FailuresBeforeBackoff) as [Hle|Hgt].
  - assert (backoffDelay (failures r) = 0) as -> by (unfold backoffDelay; by rewrite (proj2 (Z.leb_le _ _) Hle)).
    cbn. destruct (Z.ltb_spec 0 (last + 0 - now)); lia.
  - unfold IsZero. destruct (Z.eqb_spec (last + backoffDelay (failures r)) 0); [lia|]. done.
Qed.

Lemma curve_failure t0 l d p now :
  0 < now -> t0 <= now -> curveAgrees t0 l d -> bucketKey p ∈ keys ->
  let '(b, l') := recordFailure iter (bucketKey p) now l in
  let '(b', d') := sharedRecordFailure bucketKey hexEncode p now (with_clock now d) in
  b = b' /\ curveAgrees now l' d'.
Proof.
  intros H0 Ht (Hd & Hs & Hall) Hk.
  assert (curveAgrees now l (with_clock now d)) as Hag.
  { split; [done|]. split; [done|]. intros k. eapply sameAccount_later; [done|apply Hall]. }
  specialize (Hall (bucketKey p)). unfold sharedRecordFailure, recordFailure. cbn.
  assert (negb (bool_decide (is_Some (accounts l !! bucketKey p))) && (MaxTrackedSubjects <=? Z.of_nat (size (accounts l))) = false) as ->.
  { case_bool_decide as Hin; [done|]. cbn. apply Z.leb_gt. rewrite <- eq_None_not_Some in Hin.
    assert (size (accounts l) < size keys)%nat; [|lia]. rewrite <- size_dom. apply subset_size. split; [done|].
    intros Hsub. apply Hsub in Hk. by apply not_elem_of_dom in Hin. }
  unfold sameAccount, sharedAccountSubject in *.
  destruct (accounts l !! bucketKey p) as [st|] eqn:Es, (admission_counters d !! _) as [r|] eqn:Er; try done; cbn.
  - destruct Hall as (Hf & last & -> & Hr & Hu). rewrite Hf in *. set (n := failures r + 1).
    assert (forall u, (if n <=? FailuresBeforeBackoff then u = 0 else u = now + backoffDelay n) ->
      curveAgrees now (with_accounts (<[bucketKey p := MkBackoff n u]> (accounts l)) l)
        (with_counters (<[accountKey (hexEncode (bucketKey p)) := MkCounterRow (hits r) n (Some (Z.max last now))]> (admission_counters d)) (with_clock now d))) as Hins.
    { intros u Hu'. apply (curve_insert now l (with_clock now d)); [done|done|done|]. cbn. split; [done|].
      exists (Z.max last now). split; [done|]. split; [lia|]. replace (Z.max last now) with now by lia. by destruct (n <=? _). }
    destruct (Z.leb_spec n FailuresBeforeBackoff) as [Hle|Hgt].
    + split; [unfold FailuresBeforeBackoff in *; symmetry; apply Z.eqb_neq; lia|]. apply Hins.
      destruct (Z.leb_spec n FailuresBeforeBackoff); [|lia]. rewrite Hu. unfold n in *.
      destruct (Z.leb_spec (failures r) FailuresBeforeBackoff); [done|lia].
    + split; [done|]. apply Hins. destruct (Z.leb_spec n FailuresBeforeBackoff); [lia|]. f_equal. unfold backoffDelay.
      by destruct (Z.leb_spec n FailuresBeforeBackoff); [lia|].
  - split; [done|]. apply (curve_insert now l (with_clock now d)); [done|done|done|]. cbn. split; [done|]. exists now. split; [done|]. split; [lia|done].
Qed.

Lemma curve_success t0 l d p :
  curveAgrees t0 l d -> curveAgrees t0 (recordSuccess (bucketKey p) l) (shClearAccount (sharedAccountSubject bucketKey hexEncode p) d).2.
Proof.
  intros (Hd & Hs & Hall). split; [cbn; rewrite dom_delete; set_solver|]. split; [done|]. intros k. cbn. unfold sharedAccountSubject.
  destruct (decide (k = bucketKey p)) as [->|Hne]; [by rewrite !lookup_delete_eq|].
  rewrite !lookup_delete_ne; [apply Hall| |done]. by intros ?%accountKey_inj.
Qed.

Lemma curve_run t0 ops l l2 d0 d :
  curveAgrees t0 l d -> is_Some (shared l2) -> 0 < t0 -> StronglySorted Z.le (t0 :: map fst ops) ->
  Forall (fun o => bucketKey (presentedOf o.2) ∈ keys) ops ->
  acctRun ops l d0 = acctRun ops l2 d.
Proof.
  revert t0 l l2 d0 d. induction ops as [|[now o] ops IH]; intros t0 l l2 d0 d Hag Hsh H0 Hs Hk; [done|].
  apply StronglySorted_inv in Hs as [Hs Hall]. apply Forall_cons in Hk as [Hk Hks]. pose proof (Forall_inv Hall) as Ht. cbn in Ht.
  assert (0 < now) as Hpos by lia. pose proof Hag as (_ & Hn & _). destruct Hsh as [bk Hsh]. cbn [acctRun acctStep]. destruct o as [p|p|p]; cbn in Hk.
  - unfold acctStep, RecordFailure. rewrite Hn, Hsh. pose proof (curve_failure t0 l d p now Hpos Ht Hag Hk) as Hf.
    destruct (recordFailure iter (bucketKey p) now l) as [b l'], (sharedRecordFailure _ _ _ _ _) as [b' d'].
    destruct Hf as [<- Hag']. f_equal. eapply (IH now); [done|by eexists|done|done|done].
  - unfold acctStep, RecordSuccess. rewrite Hn, Hsh. f_equal. eapply (IH now); [|by eexists|done|done|done].
    apply curve_success. destruct Hag as (Hd & _ & Ha). split; [done|]. split; [done|]. intros k. eapply sameAccount_later; [done|apply Ha].
  - unfold acctStep, AccountDelay. rewrite Hn, Hsh. rewrite (curve_delay t0 l d p now Hpos Ht Hag).
    destruct (sharedAccountDelay _ _ _ _) as [dl d'] eqn:E. f_equal. eapply (IH now); [|by eexists|done|done|done].
    assert (d' = with_clock now d) as -> by (unfold sharedAccountDelay in E; cbn [shAccountFailureState coordination_store] in E; rewrite AccountFailureState_fine in E; destruct (_ !! _) in E; by injection E).
    destruct Hag as (Hd & _ & Ha). split; [done|]. split; [done|]. intros k. eapply sameAccount_later; [done|apply Ha].
Qed.
End Curve.

(** One account curve: with the node and the datastore on the same
    nondecreasing clock and no more accounts than the limiter tracks, the
    in-process limiter and the one backed by the shared table give the same
    answers to every sequence of failures, successes and delay queries: the
    same delays, and a threshold crossing reported at the same failures. *)
Theorem shared_curve_equals_local
    (bucketKey hexEncode : string -> string) (iter : gmap string accountBackoff -> list string) (keys : gset string)
    (t0 : Time) (ops : list (Time * acctOp)) (l : Limiter) (bk : backend) (d0 d : DB) :
  Inj (=) (=) hexEncode -> Z.of_nat (size keys) <= MaxTrackedSubjects -> 0 < t0 ->
  accounts l = ∅ -> shared l = None -> (forall k, admission_counters d !! accountKey k = None) ->
  StronglySorted Z.le (t0 :: map fst ops) -> Forall (fun o => bucketKey (presentedOf o.2) ∈ keys) ops ->
  acctRun bucketKey hexEncode iter ops l d0 = acctRun bucketKey hexEncode iter ops (UseShared bk None l) d.
Proof.
  intros Hinj Hkeys H0 Ha Hs Hd Hsort Hin.
  apply (curve_run bucketKey hexEncode iter keys Hkeys t0); [|by eexists|done|done|done].
  split; [rewrite Ha; set_solver|]. split; [done|]. intros k. by rewrite Ha, lookup_empty, Hd.
Qed.

Definition sampleCurve : list (Time * acctOp) :=
  map (fun t => (t * Second, AcctFailure "alice")) [1; 2; 3; 4; 5; 6; 7] ++ [(8 * Second, AcctDelay "alice"); (9 * Second, AcctSuccess "alice"); (9 * Second, AcctDelay "alice")].

Lemma shared_curve_equals_local_witness :
  let l := lim bootGate in
  acctRun id id iterKeys sampleCurve l (emptyDB 0) =
    map OutCrossed [false; false; false; false; false; true; false] ++ [OutDelay Second; OutReset; OutDelay 0] /\
  acctRun id id iterKeys sampleCurve l (emptyDB 0) = acctRun id id iterKeys sampleCurve (UseShared (MkBackend 0 true) None l) (emptyDB 0).
Proof.
  split; [vm_compute; reflexivity|].
  apply (shared_curve_equals_local id id iterKeys {["alice"]} 1); [apply _|rewrite size_singleton; unfold MaxTrackedSubjects; lia|lia|reflexivity|reflexivity|reflexivity|..].
  - cbn. repeat constructor; unfold Second; lia.
  - repeat constructor; cbn; set_solver.
Defined.

(** ** Generation handoff *)

(** Handoff keeps the abuse history or changes nothing: when
    [InheritCounters] succeeds, the replacement holds exactly the previous
    limiter's windows, accounts and backend under its own limits and
    semaphore, it was idle and empty before, the previous limiter and every
    other one are untouched, and every account keeps its delay; when it fails,
    no limiter changes. *)
Theorem handoff_keeps_counters (busy : nat -> bool) (heap : gmap nat Limiter) (recv previous : option nat) :
  match InheritCounters busy heap recv previous with
  | (Ok (), heap') => exists r p l prev l',
      recv = Some r /\ previous = Some p /\ r <> p /\ busy r = false /\ busy p = false /\
      heap !! r = Some l /\ heap !! p = Some prev /\ heap' = <[r := l']> heap /\
      quiescent prev = true /\ quiescent l = true /\ accounts l = ∅ /\ ipHits l = ∅ /\
      ipHits l' = ipHits prev /\ metaHits l' = metaHits prev /\ issuerRefreshes l' = issuerRefreshes prev /\
      accounts l' = accounts prev /\ shared l' = shared prev /\
      concurrency l' = concurrency l /\ slots l' = slots l /\ perIP l' = perIP l /\
      forall key now, accountDelay key now l' = accountDelay key now prev
  | (_, heap') => heap' = heap
  end.
Proof.
  unfold InheritCounters. destruct recv as [r|], previous as [p|]; [|done..].
  destruct (Nat.eqb_spec r p); [done|]. destruct (busy p) eqn:Ep; [done|]. destruct (busy r) eqn:Er; [done|]. cbn [orb].
  destruct (heap !! r) as [l|] eqn:El; [|done]. destruct (heap !! p) as [prev|] eqn:Epv; [|done].
  destruct (_ || _); [done|]. destruct (negb (quiescent prev && quiescent l)) eqn:Eq; [done|].
  destruct (negb (bool_decide (ipHits l = ∅)) || _ || _ || _) eqn:Ee; [done|].
  destruct (match shared l with Some _ => _ | None => _ end); [done|].
  bools. repeat match goal with H : bool_decide _ = true |- _ => apply bool_decide_eq_true in H end.
  eexists r, p, l, prev, _. cbn. unfold cloneWindows. rewrite !map_fmap_id. auto 30.
Qed.
