(* ===== verification/Digraph.v ===== *)
(** * Reference graphs: cycles and path counts

    The two graph algorithms of the JSON Schema profile
    ([internal/schema/jsonschema.go], [checkAcyclic] and [expandedPaths]) over
    an adjacency map, with their correctness against the graph itself: the
    colouring search refuses exactly the graphs with a cycle, and the memoized
    saturating counter is the number of paths, cut at the limit. Recursion is
    by fuel; one unit more than the number of nodes is always enough. *)

From S2P Require Import Prelude.
From stdpp Require Import relations.

#[local] Open Scope Z_scope.

(** [slices.Sorted] on strings. *)
Fixpoint insertSorted (x : string) (l : list string) : list string :=
  match l with
  | [] => [x]
  | y :: l' => if String.leb x y then x :: l else y :: insertSorted x l'
  end.
Definition sortStrings (l : list string) : list string := foldr insertSorted [] l.

Lemma insertSorted_In x l y : In y (insertSorted x l) <-> y = x \/ In y l.
Proof. induction l as [|z l IH]; cbn; [intuition|]. destruct (String.leb x z); cbn; [intuition|]. rewrite IH. intuition. Qed.

Lemma sortStrings_In l y : In y (sortStrings l) <-> In y l.
Proof. induction l as [|x l IH]; cbn; [done|]. rewrite insertSorted_In, IH. intuition. Qed.

Inductive colour := grey | black.

Section Graph.
Context (edges : gmap string (list string)).

Definition succs (node : string) : list string := default [] (edges !! node).

(** ** The colouring search *)
Definition errCycle : error := ENew "reference cycle".

Fixpoint visit (fuel : nat) (node : string) : ST (gmap string colour) () := fun col =>
  match fuel with
  | O => (Panic "visit: out of fuel", col)
  | S fuel' =>
      match col !! node with
      | Some grey => (Err errCycle, col)
      | Some black => (Ok (), col)
      | None =>
          let targets := sortStrings (succs node) in
          match (fix visitAll (ts : list string) : ST (gmap string colour) () := fun col =>
                   match ts with
                   | [] => (Ok (), col)
                   | t :: ts' =>
                       match visit fuel' t col with
                       | (Ok (), col') => visitAll ts' col'
                       | (r, col') => (r, col')
                       end
                   end) targets (<[node := grey]> col) with
          | (Ok (), col') => (Ok (), <[node := black]> col')
          | (r, col') => (r, col')
          end
      end
  end.

Fixpoint visitAll (fuel : nat) (ts : list string) : ST (gmap string colour) () := fun col =>
  match ts with
  | [] => (Ok (), col)
  | t :: ts' =>
      match visit fuel t col with
      | (Ok (), col') => visitAll fuel ts' col'
      | (r, col') => (r, col')
      end
  end.

Lemma visit_unfold fuel node col :
  visit (S fuel) node col =
  match col !! node with
  | Some grey => (Err errCycle, col)
  | Some black => (Ok (), col)
  | None =>
      match visitAll fuel (sortStrings (succs node)) (<[node := grey]> col) with
      | (Ok (), col') => (Ok (), <[node := black]> col')
      | (r, col') => (r, col')
      end
  end.
Proof.
  cbn. destruct (col !! node) as [[]|]; [done..|]. generalize (sortStrings (succs node)) as ts. intros ts.
  assert (forall ts c, (fix visitAll (ts : list string) : ST (gmap string colour) () := fun col =>
                   match ts with
                   | [] => (Ok (), col)
                   | t :: ts' =>
                       match visit fuel t col with
                       | (Ok (), col') => visitAll ts' col'
                       | (r, col') => (r, col')
                       end
                   end) ts c = visitAll fuel ts c) as ->; [|done].
  clear. induction ts as [|t ts IH]; intros c; cbn; [done|]. destruct (visit fuel t c) as [[[]| |] c']; auto.
Qed.

(** One step along an edge. *)
Definition edge (n m : string) : Prop := In m (succs n).

Definition acyclic : Prop := forall n, ~ tc edge n n.

Lemma sn_no_cycle n : sn edge n -> ~ tc edge n n.
Proof.
  induction 1 as [n _ IH]. intros H.
  assert (exists m, edge n m /\ rtc edge m n) as (m & Hm & Hr).
  { inversion H as [? ? He|? m ? He Ht]; subst; [by exists n|]. exists m. split; [done|]. by apply tc_rtc. }
  apply (IH m Hm). eapply tc_rtc_l; [exact Hr|]. by apply tc_once.
Qed.

(** The nodes, closed under edges. *)
Context (V : gset string) (Hclosed : forall n m, n ∈ V -> edge n m -> m ∈ V).

(** Uncoloured nodes, and what a colouring promises: below a black node there
    is no cycle. *)
Definition whites (col : gmap string colour) : nat := size (V ∖ dom col).
Definition blackOk (col : gmap string colour) : Prop := forall n, col !! n = Some black -> sn edge n.

(** From [col] to [col']: greys as they were, blacks kept, nothing uncoloured. *)
Definition grows (col col' : gmap string colour) : Prop :=
  (forall n, col' !! n = Some grey <-> col !! n = Some grey) /\ (forall n, col !! n = Some black -> col' !! n = Some black).

Lemma grows_refl col : grows col col.
Proof. done. Qed.

Lemma grows_trans c1 c2 c3 : grows c1 c2 -> grows c2 c3 -> grows c1 c3.
Proof. intros [H1 H2] [H3 H4]. split; [intros n; by rewrite H3, H1|auto]. Qed.

Lemma grows_whites col col' : grows col col' -> (whites col' <= whites col)%nat.
Proof.
  intros [H1 H2]. unfold whites. apply subseteq_size. assert (dom col ⊆ dom col') as Hd; [|set_solver].
  intros n [c Hc]%elem_of_dom. apply elem_of_dom. destruct c; eauto. exists grey. by apply H1.
Qed.

(** What visiting [n] from a colouring may answer: a cycle that really exists,
    or a colouring in which [n] is black. *)
Definition visited (n : string) (col : gmap string colour) (out : result () * gmap string colour) : Prop :=
  match out with
  | (Ok (), col') => grows col col' /\ blackOk col' /\ col' !! n = Some black
  | (Err _, _) => (forall g, col !! g = Some grey -> tc edge g n) -> exists m, tc edge m m
  | (Panic _, _) => False
  end.

Definition visitedAll (ts : list string) (col : gmap string colour) (out : result () * gmap string colour) : Prop :=
  match out with
  | (Ok (), col') => grows col col' /\ blackOk col' /\ forall t, In t ts -> col' !! t = Some black
  | (Err _, _) => (forall g t, col !! g = Some grey -> In t ts -> tc edge g t) -> exists m, tc edge m m
  | (Panic _, _) => False
  end.

Lemma visitAll_spec fuel ts col :
  (forall n c, n ∈ V -> blackOk c -> (whites c < fuel)%nat -> visited n c (visit fuel n c)) ->
  (forall t, In t ts -> t ∈ V) -> blackOk col -> (whites col < fuel)%nat -> visitedAll ts col (visitAll fuel ts col).
Proof.
  intros Hv. revert col. induction ts as [|t ts IH]; intros col Hts Hb Hw; cbn.
  - split; [apply grows_refl|]. split; [done|]. done.
  - pose proof (Hv t col (Hts t ltac:(by left)) Hb Hw) as Ht. destruct (visit fuel t col) as [[[]|e|m] c1]; cbn in Ht; [|intros Hg; apply Ht; intros g Hgg; apply Hg; [done|by left]|done].
    destruct Ht as (Hgr & Hb1 & Htb). pose proof (grows_whites _ _ Hgr).
    specialize (IH c1 ltac:(intros u Hu; apply Hts; by right) Hb1 ltac:(lia)).
    destruct (visitAll fuel ts c1) as [[[]|e|m] c2]; cbn in IH |- *; [| |done].
    + destruct IH as (Hgr2 & Hb2 & Hall). split; [by eapply grows_trans|]. split; [done|]. intros u [<-|Hu]; [|by apply Hall].
      by apply Hgr2.
    + intros Hg. apply IH. intros g u Hgg Hu. apply Hg; [by apply Hgr|by right].
Qed.

Lemma whites_insert n c col : n ∈ V -> col !! n = None -> (whites (<[n := c]> col) < whites col)%nat.
Proof.
  intros Hn Hc. unfold whites. apply subset_size. rewrite dom_insert_L. apply not_elem_of_dom in Hc. split; [set_solver|].
  intros H. assert (n ∈ V ∖ dom col) as Hin by set_solver. apply H in Hin. set_solver.
Qed.

Lemma visit_spec fuel : forall n col, n ∈ V -> blackOk col -> (whites col < fuel)%nat -> visited n col (visit fuel n col).
Proof.
  induction fuel as [|fuel IH]; intros n col Hn Hb Hw; [lia|]. rewrite visit_unfold.
  destruct (col !! n) as [[]|] eqn:E; cbn.
  - intros Hg. exists n. by apply Hg.
  - split; [apply grows_refl|]. by split.
  - pose proof (whites_insert n grey col Hn E).
    pose proof (visitAll_spec fuel (sortStrings (succs n)) (<[n := grey]> col) IH) as Hall.
    assert (forall t, In t (sortStrings (succs n)) -> edge n t) as He by (intros t; by rewrite sortStrings_In).
    assert (blackOk (<[n := grey]> col)) as Hb'.
    { intros m [[_ Hm]|[_ Hm]]%lookup_insert_Some; [discriminate Hm|by apply Hb]. }
    specialize (Hall ltac:(intros t Ht; by apply (Hclosed n t), He) Hb' ltac:(lia)).
    destruct (visitAll fuel _ _) as [[[]|e|p] c1]; cbn in Hall |- *; [| |done].
    + destruct Hall as ([Hg Hk] & Hb1 & Hall). split; [split|split].
      * intros m. destruct (decide (m = n)) as [->|Hne]; [rewrite lookup_insert_eq, E; split; discriminate|].
        rewrite lookup_insert_ne by done. rewrite Hg. by rewrite lookup_insert_ne.
      * intros m Hm. destruct (decide (m = n)) as [->|Hne]; [congruence|]. rewrite lookup_insert_ne by done.
        apply Hk. by rewrite lookup_insert_ne.
      * intros m [[<- _]|[_ Hm]]%lookup_insert_Some; [|by apply Hb1]. constructor. intros t Ht. apply Hb1, Hall.
        by apply sortStrings_In.
      * apply lookup_insert_eq.
    + intros Hg. apply Hall. intros g t Hgg Ht. apply He in Ht.
      apply lookup_insert_Some in Hgg as [[<- _]|[_ Hgg]]; [by apply tc_once|]. eapply tc_r; [by apply Hg|done].
Qed.

(** [checkAcyclic]: every node, in sorted order. *)
Definition checkAcyclic : result () := (visitAll (S (size V)) (sortStrings (elements V)) ∅).1.

Lemma checkAcyclic_spec :
  match checkAcyclic with
  | Ok () => forall n, n ∈ V -> sn edge n
  | Err _ => exists m, tc edge m m
  | Panic _ => False
  end.
Proof.
  unfold checkAcyclic. assert (whites ∅ < S (size V))%nat as Hw by (unfold whites; rewrite dom_empty_L, difference_empty_L; lia).
  pose proof (visitAll_spec (S (size V)) (sortStrings (elements V)) ∅ (visit_spec _)) as H.
  specialize (H ltac:(intros t; rewrite sortStrings_In; by rewrite <- list_elem_of_In, elem_of_elements) ltac:(done) Hw).
  destruct (visitAll _ _ _) as [[[]|e|m] c]; cbn in *; [| |done].
  - destruct H as (_ & Hb & Hall). intros n Hn. apply Hb, Hall, sortStrings_In. by rewrite <- list_elem_of_In, elem_of_elements.
  - by apply H.
Qed.

(** ** Counting paths

    How many times a node is entered when the walk starts at it: once, plus
    the entries through each outgoing edge. *)
Inductive npaths : string -> Z -> Prop :=
  | npaths_node n k : npathsAll (succs n) k -> npaths n (1 + k)
with npathsAll : list string -> Z -> Prop :=
  | npathsAll_nil : npathsAll [] 0
  | npathsAll_cons c cs k ks : npaths c k -> npathsAll cs ks -> npathsAll (c :: cs) (k + ks).

Scheme npaths_mut := Induction for npaths Sort Prop
  with npathsAll_mut := Induction for npathsAll Sort Prop.

Lemma npaths_pos n k : npaths n k -> 1 <= k.
Proof. revert n k. apply (npaths_mut (fun n k _ => 1 <= k) (fun cs k _ => 0 <= k)); intros; lia. Qed.

Lemma npathsAll_pos cs k : npathsAll cs k -> 0 <= k.
Proof. induction 1 as [|c cs k ks Hk _ IH]; [lia|]. apply npaths_pos in Hk. lia. Qed.

Lemma npathsAll_exists cs : (forall c, In c cs -> exists k, npaths c k) -> exists k, npathsAll cs k.
Proof.
  induction cs as [|c cs IH]; intros H; [exists 0; constructor|]. destruct (H c ltac:(by left)) as [k Hk].
  destruct IH as [ks Hks]; [intros d Hd; apply H; by right|]. eexists. by constructor.
Qed.

(** A cycle-free node has a number of paths, and only one. *)
Lemma npaths_exists n : sn edge n -> exists k, npaths n k.
Proof.
  induction 1 as [n _ IH]. destruct (npathsAll_exists (succs n)) as [k Hk]; [intros c Hc; by apply IH|].
  eexists. by constructor.
Qed.

Lemma npaths_functional n k : npaths n k -> forall k', npaths n k' -> k = k'.
Proof.
  revert n k. apply (npaths_mut (fun n k _ => forall k', npaths n k' -> k = k') (fun cs k _ => forall k', npathsAll cs k' -> k = k')).
  - intros n k _ IH k' H. inversion H; subst. by rewrite (IH _ H0).
  - intros k' H. by inversion H.
  - intros c cs k ks _ IH1 _ IH2 k' H. inversion H; subst. by rewrite (IH1 k0), (IH2 ks0).
Qed.

Section Count.
Context (limit : Z) (Hlimit : 0 <= limit).

Fixpoint count (fuel : nat) (node : string) (memo : gmap string Z) : Z * gmap string Z :=
  match fuel with
  | O => (0, memo)
  | S fuel' =>
      match memo !! node with
      | Some n => (n, memo)
      | None =>
          let '(total, memo') :=
            (fix loop (total : Z) (cs : list string) (memo : gmap string Z) : Z * gmap string Z :=
               match cs with
               | [] => (total, memo)
               | c :: cs' =>
                   let '(n, memo') := count fuel' c memo in
                   if limit <? total + n then (limit + 1, memo') else loop (total + n) cs' memo'
               end) 1 (succs node) memo in
          (total, <[node := total]> memo')
      end
  end.

Fixpoint countLoop (fuel : nat) (total : Z) (cs : list string) (memo : gmap string Z) : Z * gmap string Z :=
  match cs with
  | [] => (total, memo)
  | c :: cs' =>
      let '(n, memo') := count fuel c memo in
      if limit <? total + n then (limit + 1, memo') else countLoop fuel (total + n) cs' memo'
  end.

Lemma count_unfold fuel node memo :
  count (S fuel) node memo =
  match memo !! node with
  | Some n => (n, memo)
  | None => let '(total, memo') := countLoop fuel 1 (succs node) memo in (total, <[node := total]> memo')
  end.
Proof.
  cbn. destruct (memo !! node); [done|].
  assert (forall cs t m, (fix loop (total : Z) (cs : list string) (memo : gmap string Z) : Z * gmap string Z :=
               match cs with
               | [] => (total, memo)
               | c :: cs' =>
                   let '(n, memo') := count fuel c memo in
                   if limit <? total + n then (limit + 1, memo') else loop (total + n) cs' memo'
               end) t cs m = countLoop fuel t cs m) as Heq; [|by rewrite Heq].
  clear. induction cs as [|c cs IH]; intros t m; cbn; [done|]. destruct (count fuel c m). destruct (_ <? _); auto.
Qed.

(** The count of a node, cut just past the limit. *)
Definition cutCount (n : string) (v : Z) : Prop := exists k, npaths n k /\ v = Z.min k (limit + 1).
Definition memoOk (memo : gmap string Z) : Prop := forall n v, memo !! n = Some v -> cutCount n v.

Lemma countLoop_spec fuel total cs memo :
  (forall c m, In c cs -> memoOk m -> cutCount c (count fuel c m).1 /\ memoOk (count fuel c m).2) ->
  (forall c, In c cs -> sn edge c) -> memoOk memo -> 1 <= total <= Z.max limit 1 ->
  exists k, npathsAll cs k /\ (countLoop fuel total cs memo).1 = (if limit <? total + k then if (length cs =? 0)%nat then total + k else limit + 1 else total + k) /\
            memoOk (countLoop fuel total cs memo).2.
Proof.
  intros Hc Hsn. revert total memo. induction cs as [|c cs IH]; intros total memo Hm Ht; cbn [countLoop].
  - exists 0. split; [constructor|]. cbn. rewrite Z.add_0_r. by destruct (_ <? _).
  - destruct (Hc c memo ltac:(by left) Hm) as [(k & Hk & Hv) Hm1]. destruct (count fuel c memo) as [v m1]. cbn [fst snd] in *.
    pose proof (npaths_pos _ _ Hk) as Hkp. cbn [length Nat.eqb].
    destruct (Z.ltb_spec limit (total + v)) as [Hbig|Hsmall].
    + destruct (npathsAll_exists cs) as [ks Hks]; [intros d Hd; apply npaths_exists, Hsn; by right|].
      exists (k + ks). split; [by constructor|]. cbn [fst snd]. pose proof (npathsAll_pos _ _ Hks).
      destruct (Z.ltb_spec limit (total + (k + ks))); [done|]. lia.
    + assert (v = k) as -> by lia.
      destruct (IH ltac:(intros d m Hd; apply Hc; by right) ltac:(intros d Hd; apply Hsn; by right) (total + k) m1 Hm1 ltac:(lia)) as (ks & Hks & Hr & Hmr).
      exists (k + ks). split; [by constructor|]. split; [|done]. rewrite Hr. rewrite Z.add_assoc.
      destruct (Z.ltb_spec limit (total + k + ks)); [|done]. destruct cs; cbn; [|done]. inversion Hks; subst. lia.
Qed.

Lemma count_spec fuel : forall n memo A,
  n ∈ V -> (forall v, v ∈ V -> sn edge v) -> A ⊆ V -> (forall a, a ∈ A -> tc edge a n) -> (size (V ∖ A) < fuel)%nat -> memoOk memo ->
  cutCount n (count fuel n memo).1 /\ memoOk (count fuel n memo).2.
Proof.
  induction fuel as [|fuel IH]; intros n memo A Hn Hsn HA Htc Hf Hm; [lia|]. rewrite count_unfold.
  destruct (memo !! n) as [v|] eqn:E; [split; [by apply Hm|done]|].
  assert (n ∉ A) as HnA by (intros Hin; eapply sn_no_cycle; [by apply (Hsn n)|by apply Htc]).
  destruct (countLoop_spec fuel 1 (succs n) memo) as (k & Hk & Hr & Hmr); [| |done|lia|].
  - intros c m Hc Hm'. apply (IH c m (A ∪ {[n]})); [by apply (Hclosed n)|done|set_solver| | |done].
    + intros a [Ha| ->%elem_of_singleton]%elem_of_union; [eapply tc_r; [by apply Htc|done]|by apply tc_once].
    + assert (size (V ∖ (A ∪ {[n]})) < size (V ∖ A))%nat; [|lia]. apply subset_size. split; [set_solver|]. intros H.
      assert (n ∈ V ∖ A) as Hin by set_solver. apply H in Hin. set_solver.
  - intros c Hc. by apply Hsn, (Hclosed n).
  - destruct (countLoop fuel 1 (succs n) memo) as [total m1]. cbn [fst snd] in *.
    assert (cutCount n total) as Hcut.
    { exists (1 + k). split; [by constructor|]. rewrite Hr. pose proof (npathsAll_pos _ _ Hk).
      destruct (Z.ltb_spec limit (1 + k)); [|lia]. destruct (succs n); cbn; [|lia]. inversion Hk; subst. lia. }
    split; [done|]. intros m v [[<- <-]|[_ Hv]]%lookup_insert_Some; [done|by apply Hmr].
Qed.

Definition expandedPaths (root : string) : Z := (count (S (size V)) root ∅).1.

(** The memoized counter is the number of paths, cut just past the limit. *)
Lemma expandedPaths_spec root k :
  root ∈ V -> (forall v, v ∈ V -> sn edge v) -> npaths root k -> expandedPaths root = Z.min k (limit + 1).
Proof.
  intros Hr Hsn Hk. destruct (count_spec (S (size V)) root ∅ ∅) as [(k' & Hk' & E) _]; [done|done|set_solver|set_solver| |done|].
  - rewrite difference_empty_L. lia.
  - unfold expandedPaths. rewrite E. by rewrite (npaths_functional _ _ Hk _ Hk').
Qed.
End Count.
End Graph.
