(* ===== verification/SchemaProfile.v ===== *)
(** * The JSON Schema profile: [internal/schema/jsonschema.go]

    The pre-pass run over a declared JSON Schema before the validation library
    sees it: the keyword allowlist, the shape of each keyword's value, the
    depth and node bounds, the reference graph, and the two checks on it. A Go
    [map[string]any] is the list of its members in key order, which is the
    order the walk visits them in. *)

From S2P Require Import Prelude.
From S2P Require Import Digraph.
From stdpp Require Import pretty.
From Stdlib Require Import Ascii.

#[local] Open Scope Z_scope.

(** ** Decoded JSON *)
Inductive jvalue :=
  | JNull
  | JBool (b : bool)
  | JNumber (text : string)
  | JString (s : string)
  | JArray (items : list jvalue)
  | JObject (members : list (string * jvalue)).

(** ** Bounds *)
Definition MaxValueBytes : Z := 65536.
Definition MaxJSONSchemaBytes : Z := 65536.
Definition MaxJSONSchemaDepth : Z := 32.
Definition MaxValidatedInstanceBytes : Z := MaxValueBytes.
Definition MaxEvaluationWork : Z := Z.shiftl 16 20.
Definition MaxJSONSchemaSubschemas : Z := MaxEvaluationWork / MaxValidatedInstanceBytes.

(** ** The profile *)
Inductive keywordKind := kindData | kindSchema | kindSchemaArray | kindSchemaMap.

Definition allowedKeywords : gmap string keywordKind := list_to_map [
  ("$schema", kindData); ("$comment", kindData); ("$ref", kindData); ("$defs", kindSchemaMap);
  ("type", kindData); ("enum", kindData); ("const", kindData); ("multipleOf", kindData);
  ("maximum", kindData); ("exclusiveMaximum", kindData); ("minimum", kindData); ("exclusiveMinimum", kindData);
  ("maxLength", kindData); ("minLength", kindData); ("pattern", kindData);
  ("maxItems", kindData); ("minItems", kindData); ("maxProperties", kindData); ("minProperties", kindData);
  ("required", kindData); ("dependentRequired", kindData);
  ("properties", kindSchemaMap); ("patternProperties", kindSchemaMap); ("dependentSchemas", kindSchemaMap);
  ("additionalProperties", kindSchema); ("propertyNames", kindSchema); ("items", kindSchema);
  ("prefixItems", kindSchemaArray); ("allOf", kindSchemaArray); ("anyOf", kindSchemaArray); ("oneOf", kindSchemaArray);
  ("not", kindSchema); ("if", kindSchema); ("then", kindSchema); ("else", kindSchema);
  ("title", kindData); ("description", kindData); ("examples", kindData);
  ("deprecated", kindData); ("readOnly", kindData); ("writeOnly", kindData)].

(** The reasons are message text. *)
Definition excludedKeywords : list string := [
  "$dynamicRef"; "$dynamicAnchor"; "unevaluatedProperties"; "unevaluatedItems"; "contains"; "uniqueItems";
  "minContains"; "maxContains"; "default"; "format"; "$id"; "$anchor"; "$vocabulary";
  "contentEncoding"; "contentMediaType"; "contentSchema"].

Definition dialect2020 : string := "https://json-schema.org/draft/2020-12/schema".

Definition profileErr {A} (msg : string) : result A := Err (EWrap msg (ESentinel "schema.ErrInvalidDeclaration")).

(** ** Pointers *)
Definition TILDE : ascii := "126"%char.
Definition SLASH : ascii := "047"%char.

(** [strings.ReplaceAll] of one character. *)
Fixpoint replaceChar (old : ascii) (new s : string) : string :=
  match s with
  | EmptyString => EmptyString
  | String c s' => if Ascii.eqb c old then new +:+ replaceChar old new s' else String c (replaceChar old new s')
  end.

Definition escapePointer (token : string) : string := replaceChar SLASH "~1" (replaceChar TILDE "~0" token).

Definition unescapeRefTarget (ref : string) : string :=
  match ref with String c rest => if Ascii.eqb c "#"%char then rest else ref | EmptyString => ref end.

(** ** The walk *)
Record profileWalk := MkWalk { nodes : gset string; edges : gmap string (list string); walkCount : Z }.

Definition addEdge (from to : string) : ST profileWalk () := fun w =>
  (Ok (), MkWalk (nodes w) (<[from := default [] (edges w !! from) ++ [to]]> (edges w)) (walkCount w)).

(** Entering a node: depth, count and the node set. *)
Definition enterNode (ptr : string) (depth : Z) : ST profileWalk () := fun w =>
  if MaxJSONSchemaDepth <? depth then (profileErr "nesting depth", w)
  else
    let w := MkWalk (nodes w) (edges w) (walkCount w + 1) in
    if MaxJSONSchemaSubschemas <? walkCount w then (profileErr "subschema count", w)
    else (Ok (), MkWalk ({[ptr]} ∪ nodes w) (edges w) (walkCount w)).

Definition isPointerRef (ref : string) : bool := (ref =s "#") || String.prefix "#/" ref.

Definition dataKeyword (ptr name : string) (value : jvalue) : ST profileWalk () :=
  if name =s "$schema" then
    match value with
    | JString declared => if declared =s dialect2020 then mret () else st_result (profileErr "$schema")
    | _ => st_result (profileErr "$schema")
    end
  else if name =s "$ref" then
    match value with
    | JString ref => if isPointerRef ref then addEdge ptr (unescapeRefTarget ref) else st_result (profileErr "$ref form")
    | _ => st_result (profileErr "$ref must be a string")
    end
  else mret ().

Definition kindOf (name : string) : result keywordKind :=
  if contains excludedKeywords name then profileErr "keyword is excluded from the supported profile"
  else match allowedKeywords !! name with
       | None => profileErr "keyword is not in the supported profile"
       | Some kind => Ok kind
       end.

Definition Itoa (i : nat) : string := pretty (N.of_nat i).

Fixpoint walkSchema (node : jvalue) (ptr : string) (depth : Z) : ST profileWalk () :=
  enterNode ptr depth ≫= fun _ =>
  match node with
  | JBool _ => mret ()
  | JObject obj =>
      (fix members (ms : list (string * jvalue)) : ST profileWalk () :=
         match ms with
         | [] => mret ()
         | (name, value) :: ms' =>
             let child := ptr +:+ "/" +:+ escapePointer name in
             (st_result (kindOf name) ≫= fun kind =>
              match kind with
              | kindData => dataKeyword ptr name value
              | kindSchema => addEdge ptr child ≫= fun _ => walkSchema value child (depth + 1)
              | kindSchemaArray =>
                  match value with
                  | JArray items =>
                      (fix loop (i : nat) (items : list jvalue) : ST profileWalk () :=
                         match items with
                         | [] => mret ()
                         | item :: items' =>
                             let sub := child +:+ "/" +:+ Itoa i in
                             addEdge ptr sub ≫= fun _ => walkSchema item sub (depth + 1) ≫= fun _ => loop (S i) items'
                         end) O items
                  | _ => st_result (profileErr "keyword must hold an array of schemas")
                  end
              | kindSchemaMap =>
                  match value with
                  | JObject subs =>
                      (fix loop (subs : list (string * jvalue)) : ST profileWalk () :=
                         match subs with
                         | [] => mret ()
                         | (member, v) :: subs' =>
                             let sub := child +:+ "/" +:+ escapePointer member in
                             addEdge ptr sub ≫= fun _ => walkSchema v sub (depth + 1) ≫= fun _ => loop subs'
                         end) subs
                  | _ => st_result (profileErr "keyword must hold an object of schemas")
                  end
              end) ≫= fun _ => members ms'
         end) obj
  | _ => st_result (profileErr "must be a JSON object or boolean schema")
  end.

Definition unresolvedRef (w : profileWalk) : bool :=
  existsb (fun kv => existsb (fun to => negb (bool_decide (to ∈ nodes w))) kv.2) (map_to_list (edges w)).

Definition checkWorkBudget (w : profileWalk) : result () :=
  let limit := MaxEvaluationWork / MaxValidatedInstanceBytes in
  if limit <? expandedPaths (edges w) (nodes w) limit "" then profileErr "evaluation paths exceed the work budget" else Ok ().

Definition checkProfile (doc : jvalue) : result () :=
  match walkSchema doc "" 1 (MkWalk ∅ ∅ 0) with
  | (Ok (), w) =>
      if unresolvedRef w then profileErr "$ref does not resolve to a subschema in this document"
      else _ ← checkAcyclic (edges w) (nodes w); checkWorkBudget w
  | (Err e, _) => Err e
  | (Panic p, _) => Panic p
  end.

(** Compilation: the library is asked only about documents the profile admits. *)
Definition compileJSONSchema {S : Type} (UnmarshalJSON : string -> option jvalue) (libCompile : jvalue -> option S) (raw : string) : result S :=
  if MaxJSONSchemaBytes <? Z.of_nat (String.length raw) then profileErr "json_schema exceeds its byte bound"
  else match UnmarshalJSON raw with
       | None => profileErr "json_schema: parse"
       | Some doc =>
           _ ← checkProfile doc;
           match libCompile doc with None => profileErr "json_schema: compile" | Some s => Ok s end
       end.
