(* ===== verification/SchemaProfileSpec.v ===== *)
(** * What the JSON Schema profile guarantees

    The subschemas of a document by JSON pointer, the reference graph they
    form, and the number of times evaluation enters a subschema; and that a
    document the profile admits stays inside all its bounds. *)

From S2P Require Import Prelude.
From S2P Require Import Digraph.
From S2P Require Import SchemaProfile.
From stdpp Require Import relations pretty.
From Stdlib Require Import Ascii Sorted.

#[local] Open Scope Z_scope.
#[local] Opaque allowedKeywords.

(** ** Pointers are injective *)
Fixpoint noSlash (s : string) : bool :=
  match s with EmptyString => true | String c s' => negb (Ascii.eqb c SLASH) && noSlash s' end.

Lemma escape_cons c s :
  escapePointer (String c s) =
  (if Ascii.eqb c TILDE then "~0" else if Ascii.eqb c SLASH then "~1" else String c "") +:+ escapePointer s.
Proof.
  unfold escapePointer. cbn [replaceChar]. destruct (Ascii.eqb c TILDE); [done|]. cbn [replaceChar].
  by destruct (Ascii.eqb c SLASH).
Qed.

Lemma app_cons c s t : String c s +:+ t = String c (s +:+ t).
Proof. reflexivity. Qed.

Lemma noSlash_app s t : noSlash (s +:+ t) = noSlash s && noSlash t.
Proof. induction s as [|c s IH]; [done|]. rewrite app_cons. cbn [noSlash]. by rewrite IH, andb_assoc. Qed.

Lemma escape_noSlash s : noSlash (escapePointer s) = true.
Proof.
  induction s as [|c s IH]; [done|]. rewrite escape_cons, noSlash_app, IH, andb_true_r.
  destruct (Ascii.eqb c TILDE); [done|]. destruct (Ascii.eqb c SLASH) eqn:E; [done|]. cbn. by rewrite E.
Qed.

Lemma escape_inj s t : escapePointer s = escapePointer t -> s = t.
Proof.
  revert t. induction s as [|c s IH]; intros [|d t]; rewrite ?escape_cons; [done|..].
  - destruct (Ascii.eqb d TILDE), (Ascii.eqb d SLASH); discriminate.
  - destruct (Ascii.eqb c TILDE), (Ascii.eqb c SLASH); discriminate.
  - destruct (Ascii.eqb_spec c TILDE), (Ascii.eqb_spec d TILDE); subst; cbn; intros H.
    + injection H as H. f_equal. by apply IH.
    + unfold TILDE in *. destruct (Ascii.eqb_spec d SLASH); injection H; intros; congruence.
    + unfold TILDE in *. destruct (Ascii.eqb_spec c SLASH); injection H; intros; congruence.
    + unfold TILDE in *. destruct (Ascii.eqb_spec c SLASH), (Ascii.eqb_spec d SLASH); subst; cbn in H; injection H; intros; try congruence.
      * f_equal. by apply IH.
      * f_equal; [done|]. by apply IH.
Qed.

Definition render (tp : list string) : string := foldr (fun t acc => "/" +:+ escapePointer t +:+ acc) "" tp.

Definition bounded (s : string) : Prop := s = "" \/ exists s', s = String SLASH s'.

Lemma render_bounded tp : bounded (render tp).
Proof. destruct tp; [by left|right]. by eexists. Qed.

(** A slash-free head is determined by what follows it. *)
Lemma head_split a b r s :
  noSlash a = true -> noSlash b = true -> bounded r -> bounded s -> a +:+ r = b +:+ s -> a = b /\ r = s.
Proof.
  revert b. induction a as [|c a IH]; intros [|d b] Ha Hb Hr Hs H; rewrite ?app_cons in H; cbn [noSlash] in *.
  - done.
  - destruct Hr as [->|[r' ->]]; [discriminate|]. injection H as <- _. by rewrite Ascii.eqb_refl in Hb.
  - destruct Hs as [->|[s' ->]]; [discriminate|]. injection H as -> _. by rewrite Ascii.eqb_refl in Ha.
  - injection H as -> H. apply andb_prop in Ha as [_ Ha], Hb as [_ Hb]. destruct (IH b Ha Hb Hr Hs H) as [-> ->]. done.
Qed.

Lemma render_cons t tp : render (t :: tp) = String SLASH (escapePointer t +:+ render tp).
Proof. reflexivity. Qed.

Lemma render_inj tp tp' : render tp = render tp' -> tp = tp'.
Proof.
  revert tp'. induction tp as [|t tp IH]; intros [|t' tp']; rewrite ?render_cons; [done|discriminate|discriminate|].
  intros H. injection H as H.
  apply head_split in H as [Ht Hr]; [|apply escape_noSlash|apply escape_noSlash|apply render_bounded|apply render_bounded].
  apply escape_inj in Ht as ->. f_equal. by apply IH.
Qed.

Lemma string_app_assoc (a b c : string) : a +:+ (b +:+ c) = (a +:+ b) +:+ c.
Proof. induction a as [|x a IH]; [done|]. rewrite !app_cons. by rewrite IH. Qed.

Lemma string_app_nil (a : string) : a +:+ "" = a.
Proof. induction a as [|x a IH]; [done|]. rewrite app_cons. by rewrite IH. Qed.

Lemma render_app tp tp' : render (tp ++ tp') = render tp +:+ render tp'.
Proof.
  induction tp as [|t tp IH]; [done|]. rewrite <- app_comm_cons, !render_cons, app_cons, IH. by rewrite string_app_assoc.
Qed.

Lemma render_snoc tp t : render (tp ++ [t]) = render tp +:+ "/" +:+ escapePointer t.
Proof. rewrite render_app, render_cons. change (render []) with "". by rewrite string_app_nil. Qed.

Definition plain (s : string) : Prop := escapePointer s = s.

Lemma digit_plain x s : plain s -> plain (String (pretty_N_char x) s).
Proof.
  unfold plain. intros H. rewrite escape_cons, H. assert (Ascii.eqb (pretty_N_char x) TILDE = false /\ Ascii.eqb (pretty_N_char x) SLASH = false) as [-> ->]; [|done].
  unfold pretty_N_char. repeat case_match; by split.
Qed.

Lemma pretty_go_plain x s : plain s -> plain (pretty_N_go x s).
Proof.
  revert s. induction (N.lt_wf_0 x) as [x _ IH]. intros s Hs. destruct (decide (x = 0)%N) as [->|Hx]; [done|].
  rewrite pretty_N_go_step by lia. apply IH; [apply N.div_lt; lia|]. by apply digit_plain.
Qed.

Lemma Itoa_plain i : plain (Itoa i).
Proof. unfold Itoa, pretty, pretty_N. destruct (decide _); [done|]. by apply pretty_go_plain. Qed.

Lemma Itoa_inj i j : Itoa i = Itoa j -> i = j.
Proof. unfold Itoa. intros H%(inj pretty). lia. Qed.

(** ** Subschemas of a document

    The children a member contributes at token path [tp], the references it
    makes, and the nodes its subschema leads to, in walk order. *)
Fixpoint elementsAt (tp : list string) (name : string) (i : nat) (items : list jvalue) : list (list string * jvalue) :=
  match items with [] => [] | v :: items' => (tp ++ [name; Itoa i], v) :: elementsAt tp name (S i) items' end.

Definition childOf (tp : list string) (m : string * jvalue) : list (list string * jvalue) :=
  match allowedKeywords !! m.1, m.2 with
  | Some kindSchema, v => [(tp ++ [m.1], v)]
  | Some kindSchemaArray, JArray items => elementsAt tp m.1 0 items
  | Some kindSchemaMap, JObject subs => map (fun kv => (tp ++ [m.1; kv.1], kv.2)) subs
  | _, _ => []
  end.

Definition refOf (m : string * jvalue) : list string :=
  if m.1 =s "$ref" then match m.2 with JString r => [unescapeRefTarget r] | _ => [] end else [].

Definition contrib (tp : list string) (m : string * jvalue) : list string := refOf m ++ map (fun cu => render cu.1) (childOf tp m).

Definition succsAt (tp : list string) (v : jvalue) : list string :=
  match v with JObject obj => flat_map (contrib tp) obj | _ => [] end.

(** [subschema tp v d tp' v' d']: below the subschema [v] at path [tp] and
    depth [d] there is the subschema [v'] at path [tp'] and depth [d']. *)
Inductive subschema : list string -> jvalue -> Z -> list string -> jvalue -> Z -> Prop :=
  | sub_here tp v d : subschema tp v d tp v d
  | sub_child tp obj d m c u tp' v' d' :
      In m obj -> In (c, u) (childOf tp m) -> subschema c u (d + 1) tp' v' d' -> subschema tp (JObject obj) d tp' v' d'.

(** What the profile demands of one member, and of one subschema. *)
Definition memberOk (m : string * jvalue) : Prop :=
  ~ In m.1 excludedKeywords /\
  exists kind, allowedKeywords !! m.1 = Some kind /\
  match kind with
  | kindData => (m.1 = "$schema" -> m.2 = JString dialect2020) /\
                (m.1 = "$ref" -> exists r, m.2 = JString r /\ isPointerRef r = true)
  | kindSchema => True
  | kindSchemaArray => exists items, m.2 = JArray items
  | kindSchemaMap => exists subs, m.2 = JObject subs
  end.

Definition nodeOk (v : jvalue) : Prop :=
  match v with JBool _ => True | JObject obj => Forall memberOk obj | _ => False end.

(** ** The walk, step by step *)
Inductive childrenRun (tp : list string) (depth : Z) : list (list string * jvalue) -> profileWalk -> profileWalk -> Prop :=
  | cr_nil w : childrenRun tp depth [] w w
  | cr_cons c u cs w w1 w2 :
      walkSchema u (render c) (depth + 1) (addEdge (render tp) (render c) w).2 = (Ok (), w1) ->
      childrenRun tp depth cs w1 w2 -> childrenRun tp depth ((c, u) :: cs) w w2.

Inductive membersRun (tp : list string) (depth : Z) : list (string * jvalue) -> profileWalk -> profileWalk -> Prop :=
  | mr_nil w : membersRun tp depth [] w w
  | mr_data m ms w w1 w2 :
      memberOk m -> allowedKeywords !! m.1 = Some kindData -> dataKeyword (render tp) m.1 m.2 w = (Ok (), w1) ->
      membersRun tp depth ms w1 w2 -> membersRun tp depth (m :: ms) w w2
  | mr_children m ms kind w w1 w2 :
      memberOk m -> allowedKeywords !! m.1 = Some kind -> kind <> kindData -> childrenRun tp depth (childOf tp m) w w1 ->
      membersRun tp depth ms w1 w2 -> membersRun tp depth (m :: ms) w w2.

Lemma kindOf_Ok name kind : kindOf name = Ok kind -> ~ In name excludedKeywords /\ allowedKeywords !! name = Some kind.
Proof.
  unfold kindOf. destruct (contains excludedKeywords name) eqn:E; [discriminate|]. apply contains_not_In in E.
  destruct (allowedKeywords !! name); [|discriminate]. by intros [= ->].
Qed.

Lemma dataKeyword_ok ptr m w w1 :
  dataKeyword ptr m.1 m.2 w = (Ok (), w1) ->
  (m.1 = "$schema" -> m.2 = JString dialect2020) /\ (m.1 = "$ref" -> exists r, m.2 = JString r /\ isPointerRef r = true) /\
  w1 = (if m.1 =s "$ref" then match m.2 with JString r => (addEdge ptr (unescapeRefTarget r) w).2 | _ => w end else w).
Proof.
  unfold dataKeyword. destruct (String.eqb_spec m.1 "$schema") as [->|].
  - destruct m.2; try discriminate. destruct (String.eqb_spec s dialect2020); [|discriminate]. intros [= <-].
    split; [congruence|]. by split.
  - destruct (String.eqb_spec m.1 "$ref") as [->|]; [|by intros [= <-]].
    destruct m.2; try discriminate. destruct (isPointerRef s) eqn:E; [|discriminate]. intros H. split; [done|].
    split; [by eexists|]. by injection H as <-.
Qed.

Lemma child_ptr tp name : render tp +:+ "/" +:+ escapePointer name = render (tp ++ [name]).
Proof. symmetry. apply render_snoc. Qed.

Lemma grandchild_ptr tp name t : render (tp ++ [name]) +:+ "/" +:+ escapePointer t = render (tp ++ [name; t]).
Proof. rewrite child_ptr. by rewrite <- app_assoc. Qed.

Lemma index_ptr tp name i : render (tp ++ [name]) +:+ "/" +:+ Itoa i = render (tp ++ [name; Itoa i]).
Proof. rewrite <- grandchild_ptr. by rewrite (Itoa_plain i). Qed.

Lemma walkSchema_inv node tp depth w w' :
  walkSchema node (render tp) depth w = (Ok (), w') ->
  exists w1, enterNode (render tp) depth w = (Ok (), w1) /\
  ((exists b, node = JBool b) /\ w' = w1 \/ exists obj, node = JObject obj /\ membersRun tp depth obj w1 w').
Proof.
  destruct node as [|b|?|?|?|obj]; cbn [walkSchema]; intros H; apply st_bind_Ok in H as ([] & w1 & He & H); exists w1; (split; [done|]);
    try discriminate H.
  - left. injection H as <-. by split; [exists b|].
  - right. exists obj. split; [done|]. clear He w. revert w1 H. induction obj as [|[name value] ms IH]; intros w1 H.
    { injection H as <-. constructor. }
    apply st_bind_Ok in H as ([] & w2 & Hm & H). apply IH in H. clear IH.
    apply st_bind_Ok in Hm as (kind & w0 & Hk & Hm). unfold st_result in Hk. injection Hk as Hk <-.
    apply kindOf_Ok in Hk as [Hx Ha]. destruct kind.
    + pose proof (dataKeyword_ok _ (name, value) _ _ Hm) as (H1 & H2 & _).
      eapply mr_data; [|exact Ha|exact Hm|exact H]. split; [done|]. exists kindData. by split.
    + apply st_bind_Ok in Hm as ([] & w3 & Hadd & Hm). rewrite child_ptr in Hm, Hadd.
      eapply (mr_children tp depth (name, value) ms kindSchema w1 w2 w'); [split; [done|by exists kindSchema]|done|done| |exact H].
      unfold childOf. cbn [fst snd]. rewrite Ha. econstructor; [|constructor]. by rewrite Hadd.
    + destruct value as [|?|?|?|items|?]; try discriminate Hm.
      eapply (mr_children tp depth (name, JArray items) ms kindSchemaArray w1 w2 w'); [split; [done|exists kindSchemaArray; split; [done|by exists items]]|done|done| |exact H].
      unfold childOf. cbn [fst snd]. rewrite Ha. revert Hm. generalize 0%nat as i. clear -tp. revert w1.
      induction items as [|item items IH]; intros w1 i Hm; [injection Hm as <-; constructor|].
      apply st_bind_Ok in Hm as ([] & w3 & Hadd & Hm). apply st_bind_Ok in Hm as ([] & w4 & Hw & Hm).
      rewrite child_ptr, index_ptr in Hadd, Hw. cbn [elementsAt]. econstructor; [rewrite Hadd; exact Hw|]. apply IH. exact Hm.
    + destruct value as [|?|?|?|?|subs]; try discriminate Hm.
      eapply (mr_children tp depth (name, JObject subs) ms kindSchemaMap w1 w2 w'); [split; [done|exists kindSchemaMap; split; [done|by exists subs]]|done|done| |exact H].
      unfold childOf. cbn [fst snd]. rewrite Ha. revert Hm. clear -tp. revert w1.
      induction subs as [|[k v] subs IH]; intros w1 Hm; [injection Hm as <-; constructor|].
      apply st_bind_Ok in Hm as ([] & w3 & Hadd & Hm). apply st_bind_Ok in Hm as ([] & w4 & Hw & Hm).
      rewrite child_ptr, grandchild_ptr in Hadd, Hw. cbn [map]. econstructor; [cbn [fst snd]; rewrite Hadd; exact Hw|]. apply IH. exact Hm.
Qed.

(** ** Regions of the document

    A decoded object has each key once. *)
Fixpoint jwf (v : jvalue) : Prop :=
  match v with
  | JArray items => (fix all (l : list jvalue) : Prop := match l with [] => True | x :: l' => jwf x /\ all l' end) items
  | JObject ms =>
      NoDup (map fst ms) /\
      (fix all (l : list (string * jvalue)) : Prop := match l with [] => True | (_, x) :: l' => jwf x /\ all l' end) ms
  | _ => True
  end.

Lemma jwf_items items v : jwf (JArray items) -> In v items -> jwf v.
Proof. cbn. induction items as [|x l IH]; [done|]. intros [Hx Hl] [<-|Hin]; [done|by apply IH]. Qed.

Lemma jwf_members ms : jwf (JObject ms) -> NoDup (map fst ms) /\ forall m, In m ms -> jwf m.2.
Proof.
  cbn. intros [Hn Hall]. split; [done|]. clear Hn. induction ms as [|[k x] l IH]; [done|]. destruct Hall as [Hx Hl].
  intros m [<-|Hin]; [done|by apply IH].
Qed.

Definition inRegion (c : list string) (q : string) : Prop := exists ext, q = render (c ++ ext).
Definition apart (c c' : list string) : Prop := forall e e', c ++ e <> c' ++ e'.

Lemma apart_tokens (tp : list string) t t' x x' : t <> t' -> apart (tp ++ t :: x) (tp ++ t' :: x').
Proof. intros Ht e e' H. rewrite <- !app_assoc in H. apply app_inv_head in H. cbn in H. congruence. Qed.

Lemma apart_next (tp : list string) n t t' : t <> t' -> apart (tp ++ [n; t]) (tp ++ [n; t']).
Proof.
  intros Ht. change [n; t] with ([n] ++ [t]). change [n; t'] with ([n] ++ [t']). rewrite !app_assoc. by apply apart_tokens.
Qed.

Lemma apart_regions c c' q : apart c c' -> inRegion c q -> ~ inRegion c' q.
Proof. intros Ha [e ->] [e' H%render_inj]. by apply (Ha e e'). Qed.

Lemma below_region (tp : list string) t x : ~ inRegion (tp ++ t :: x) (render tp).
Proof.
  intros [e H%render_inj]. apply (f_equal length) in H. rewrite !length_app in H. cbn in H. lia.
Qed.

Lemma childOf_path tp m c u : In (c, u) (childOf tp m) -> exists x, c = tp ++ m.1 :: x.
Proof.
  unfold childOf. destruct (allowedKeywords !! m.1) as [[]|]; [done| | | |done].
  - intros [[= <- _]|[]]. by exists [].
  - destruct m.2 as [|?|?|?|items|?]; try done. generalize 0%nat. induction items as [|v l IH]; [done|].
    intros i [[= <- _]|Hin]; [by exists [Itoa i]|]. by eapply IH.
  - destruct m.2 as [|?|?|?|?|subs]; try done. intros ([k v] & [= <- _] & _)%in_map_iff. by exists [k].
Qed.

Lemma childOf_wf tp m c u : jwf m.2 -> In (c, u) (childOf tp m) -> jwf u.
Proof.
  unfold childOf. intros Hw. destruct (allowedKeywords !! m.1) as [[]|]; [done| | | |done].
  - intros [[= _ <-]|[]]. done.
  - destruct m.2 as [|?|?|?|items|?]; try done. pose proof (fun v => jwf_items items v Hw) as Hall. clear Hw. revert Hall.
    generalize 0%nat. induction items as [|v l IH]; [done|]. intros i Hall [[= _ <-]|Hin]; [apply Hall; by left|].
    eapply (IH (S i)); [intros x Hx; apply Hall; by right|exact Hin].
  - destruct m.2 as [|?|?|?|?|subs]; try done. intros ([k v] & [= _ <-] & Hin)%in_map_iff. by apply (proj2 (jwf_members _ Hw) (k, v)).
Qed.

Definition childrenApart (cs : list (list string * jvalue)) : Prop := ForallOrdPairs (fun x y => apart x.1 y.1) cs.

Lemma elementsAt_index tp name i items c u : In (c, u) (elementsAt tp name i items) -> exists j, (i <= j)%nat /\ c = tp ++ [name; Itoa j].
Proof.
  revert i. induction items as [|v l IH]; intros i; [done|]. intros [[= <- _]|Hin]; [by exists i|].
  destruct (IH _ Hin) as (j & Hj & ->). exists j. split; [lia|done].
Qed.

Lemma childOf_apart tp m : jwf m.2 -> childrenApart (childOf tp m).
Proof.
  unfold childOf, childrenApart. intros Hw. destruct (allowedKeywords !! m.1) as [[]|]; try constructor; [constructor|constructor|..].
  - destruct m.2 as [|?|?|?|items|?]; try constructor. clear Hw. generalize 0%nat. induction items as [|v l IH]; intros i; [constructor|].
    cbn. constructor; [|apply IH]. apply List.Forall_forall. intros [c u] Hin. destruct (elementsAt_index _ _ _ _ _ _ Hin) as (j & Hj & ->).
    cbn. apply apart_next. intros E%Itoa_inj. lia.
  - destruct m.2 as [|?|?|?|?|subs]; try constructor. apply jwf_members in Hw as [Hn _]. clear -Hn. induction subs as [|[k v] l IH]; [constructor|].
    cbn in *. apply NoDup_cons in Hn as [Hk Hn]. constructor; [|by apply IH]. apply List.Forall_forall. intros [c u] ([k' v'] & [= <- <-] & Hin)%in_map_iff.
    cbn. apply apart_next. intros ->. apply Hk, list_elem_of_In, in_map_iff. by exists (k', v').
Qed.

(** ** What a walk leaves behind *)
Definition fresh (c : list string) (w : profileWalk) : Prop := forall q, inRegion c q -> edges w !! q = None.

(** A subschema recorded faithfully: inside the profile and the depth bound,
    with exactly its own outgoing edges. *)
Definition recorded (w : profileWalk) (tp : list string) (v : jvalue) (d : Z) : Prop :=
  nodeOk v /\ d <= MaxJSONSchemaDepth /\ succs (edges w) (render tp) = succsAt tp v.

Record walked (tp : list string) (node : jvalue) (depth : Z) (w w' : profileWalk) : Prop := {
  wk_frame : forall q, ~ inRegion tp q -> edges w' !! q = edges w !! q;
  wk_nodes : forall q, q ∈ nodes w' <-> q ∈ nodes w \/ exists tp' v d, subschema tp node depth tp' v d /\ q = render tp';
  wk_recorded : forall tp' v d, subschema tp node depth tp' v d -> recorded w' tp' v d }.

Record walkedAll (tp : list string) (out : list string) (depth : Z) (cs : list (list string * jvalue)) (w w' : profileWalk) : Prop := {
  wa_frame : forall q, q <> render tp -> (forall c u, In (c, u) cs -> ~ inRegion c q) -> edges w' !! q = edges w !! q;
  wa_succs : succs (edges w') (render tp) = succs (edges w) (render tp) ++ out;
  wa_nodes : forall q, q ∈ nodes w' <-> q ∈ nodes w \/ exists c u tp' v d, In (c, u) cs /\ subschema c u (depth + 1) tp' v d /\ q = render tp';
  wa_recorded : forall c u tp' v d, In (c, u) cs -> subschema c u (depth + 1) tp' v d -> recorded w' tp' v d }.

Definition strictlyBelow (tp c : list string) : Prop := exists t x, c = tp ++ t :: x.

Lemma subschema_region tp v d tp' v' d' : subschema tp v d tp' v' d' -> exists ext, tp' = tp ++ ext.
Proof.
  induction 1 as [tp v d|tp obj d m c u tp' v' d' _ Hc _ [ext ->]]; [exists []; by rewrite app_nil_r|].
  apply childOf_path in Hc as [x ->]. eexists. by rewrite <- app_assoc.
Qed.

Lemma subschema_inRegion tp v d tp' v' d' : subschema tp v d tp' v' d' -> inRegion tp (render tp').
Proof. intros [ext ->]%subschema_region. by exists ext. Qed.

Lemma succs_addEdge from to w q :
  succs (edges (addEdge from to w).2) q = if q =s from then succs (edges w) q ++ [to] else succs (edges w) q.
Proof.
  unfold succs. cbn. destruct (String.eqb_spec q from) as [->|Hne]; [by rewrite lookup_insert_eq|by rewrite lookup_insert_ne].
Qed.

Lemma edges_addEdge_ne from to w q : q <> from -> edges (addEdge from to w).2 !! q = edges w !! q.
Proof. intros H. cbn. by rewrite lookup_insert_ne. Qed.

Lemma walkedAll_nil tp depth w : walkedAll tp [] depth [] w w.
Proof. constructor; [done|by rewrite app_nil_r|naive_solver|done]. Qed.

Lemma walkedAll_edge tp to depth w : walkedAll tp [to] depth [] w (addEdge (render tp) to w).2.
Proof.
  constructor; [intros q Hq _; by apply edges_addEdge_ne|by rewrite succs_addEdge, String.eqb_refl|naive_solver|done].
Qed.

(** One walked child, behind the edge to it. *)
Lemma walkedAll_child tp c u depth w w1 :
  strictlyBelow tp c -> walked c u (depth + 1) (addEdge (render tp) (render c) w).2 w1 -> walkedAll tp [render c] depth [(c, u)] w w1.
Proof.
  intros (t & x & Hb) [Hf Hn Hr]. assert (~ inRegion c (render tp)) as Htp by (rewrite Hb; apply below_region). constructor.
  - intros q Hq Hout. rewrite Hf by (by apply (Hout c u); left). by apply edges_addEdge_ne.
  - unfold succs. rewrite Hf by done. cbn. by rewrite lookup_insert_eq.
  - intros q. rewrite Hn. cbn. split.
    + intros [?|(tp' & v & d & ? & ?)]; [by left|right]. exists c, u, tp', v, d. by split; [left|].
    + intros [?|(c' & u' & tp' & v & d & [[= <- <-]|[]] & ? & ?)]; [by left|right]. by exists tp', v, d.
  - intros c' u' tp' v d [[= <- <-]|[]]. apply Hr.
Qed.

(** Walks of apart sets of children compose. *)
Lemma walkedAll_app tp o1 o2 depth cs1 cs2 w w1 w2 :
  (forall c u, In (c, u) (cs1 ++ cs2) -> strictlyBelow tp c) ->
  (forall x y, In x cs1 -> In y cs2 -> apart x.1 y.1) ->
  walkedAll tp o1 depth cs1 w w1 -> walkedAll tp o2 depth cs2 w1 w2 -> walkedAll tp (o1 ++ o2) depth (cs1 ++ cs2) w w2.
Proof.
  intros Hb Hap [Hf1 Hs1 Hn1 Hr1] [Hf2 Hs2 Hn2 Hr2]. constructor.
  - intros q Hq Hout. rewrite Hf2, Hf1; [done|done| |done|]; intros c u Hin; apply (Hout c u), in_or_app; auto.
  - rewrite Hs2, Hs1. by rewrite app_assoc.
  - intros q. rewrite Hn2, Hn1. setoid_rewrite in_app_iff. naive_solver.
  - intros c u tp' v d [Hin|Hin]%in_app_or Hsub; [|by eapply Hr2].
    destruct (Hr1 c u tp' v d Hin Hsub) as (Hok & Hd & Hs). split; [done|]. split; [done|]. rewrite <- Hs. unfold succs. rewrite Hf2; [done|..].
    + intros E. apply (subschema_inRegion _ _ _ _ _ _) in Hsub. rewrite E in Hsub. destruct (Hb c u ltac:(by apply in_or_app; left)) as (t & x & ->).
      by apply below_region in Hsub.
    + intros c' u' Hin'. eapply apart_regions; [exact (Hap (c, u) (c', u') Hin Hin')|]. by eapply subschema_inRegion.
Qed.

(** Freshness of the children survives a walk that is apart from them. *)
Lemma fresh_after tp o depth cs w w1 c :
  walkedAll tp o depth cs w w1 -> fresh c w -> strictlyBelow tp c -> (forall x, In x cs -> apart x.1 c) -> fresh c w1.
Proof.
  intros [Hf _ _ _] Hfr (t & x & Hc) Hap q Hq. rewrite Hf; [by apply Hfr| |].
  - intros ->. rewrite Hc in Hq. by apply below_region in Hq.
  - intros c' u Hin Hq'. by apply (apart_regions _ _ _ (Hap (c', u) Hin) Hq').
Qed.

(** ** The walk is faithful *)
Fixpoint jsize (v : jvalue) : nat :=
  match v with
  | JArray items => S (list_sum (map jsize items))
  | JObject ms => S (list_sum (map (fun kv => jsize kv.2) ms))
  | _ => 1
  end.

Lemma list_sum_In n l : In n l -> (n <= list_sum l)%nat.
Proof. unfold list_sum. induction l as [|m l IH]; [done|]. cbn. intros [->|Hin]; [lia|]. apply IH in Hin. lia. Qed.

Lemma childOf_size tp m c u : In (c, u) (childOf tp m) -> (jsize u <= jsize m.2)%nat.
Proof.
  unfold childOf. destruct (allowedKeywords !! m.1) as [[]|]; [done| | | |done].
  - intros [[= _ <-]|[]]. done.
  - destruct m.2 as [|?|?|?|items|?]; try done. cbn [jsize]. unfold list_sum. generalize 0%nat at 1. induction items as [|v l IH]; [done|].
    intros i [[= _ <-]|Hin]; [cbn; lia|]. apply IH in Hin. cbn in *. lia.
  - destruct m.2 as [|?|?|?|?|subs]; try done. intros ([k v] & [= _ <-] & Hin)%in_map_iff. cbn [jsize].
    apply (in_map (fun kv => jsize kv.2)) in Hin. apply list_sum_In in Hin. cbn in Hin. lia.
Qed.

(** What is known of smaller documents. *)
Definition faithful (u : jvalue) : Prop := forall c depth w w',
  jwf u -> walkSchema u (render c) depth w = (Ok (), w') -> fresh c w -> walked c u depth w w'.

Lemma childrenRun_walked tp depth cs w w' :
  childrenRun tp depth cs w w' ->
  (forall c u, In (c, u) cs -> faithful u /\ jwf u /\ strictlyBelow tp c /\ fresh c w) -> childrenApart cs ->
  walkedAll tp (map (fun cu => render cu.1) cs) depth cs w w'.
Proof.
  induction 1 as [w|c u cs w w1 w2 Hw _ IH]; intros Hall Hap; [apply walkedAll_nil|].
  inversion Hap as [|? ? Hhd Htl]; subst. destruct (Hall c u ltac:(by left)) as (Hf & Hj & Hb & Hfr).
  assert (walkedAll tp [render c] depth [(c, u)] w w1) as H1.
  { apply walkedAll_child; [done|]. eapply Hf; [done|exact Hw|]. intros q Hq. destruct Hb as (t & x & Hb). rewrite edges_addEdge_ne; [by apply Hfr|].
    intros ->. rewrite Hb in Hq. by apply below_region in Hq. }
  rewrite List.Forall_forall in Hhd.
  apply (walkedAll_app tp [render c] _ depth [(c, u)] cs w w1 w2); [|intros x y [<-|[]] Hy; by apply Hhd|exact H1|].
  - intros c' u' Hin. by apply (Hall c' u').
  - apply IH; [|done]. intros c' u' Hin. destruct (Hall c' u' ltac:(by right)) as (? & ? & ? & ?). do 3 (split; [done|]).
    eapply fresh_after; [exact H1|done|done|]. intros x [<-|[]]. exact (Hhd (c', u') Hin).
Qed.

Lemma ref_is_data name kind : allowedKeywords !! name = Some kind -> kind <> kindData -> name <> "$ref".
Proof. intros Ha Hk ->. apply Hk. vm_compute in Ha. congruence. Qed.

Lemma childOf_data tp m : allowedKeywords !! m.1 = Some kindData -> childOf tp m = [].
Proof. unfold childOf. by intros ->. Qed.

Lemma membersRun_walked tp depth ms w w' :
  membersRun tp depth ms w w' -> NoDup (map fst ms) -> (forall m, In m ms -> jwf m.2) ->
  (forall m c u, In m ms -> In (c, u) (childOf tp m) -> faithful u /\ fresh c w) ->
  Forall memberOk ms /\ walkedAll tp (flat_map (contrib tp) ms) depth (flat_map (childOf tp) ms) w w'.
Proof.
  intros Hrun. assert (forall (ms0 : list (string * jvalue)) c u, In (c, u) (flat_map (childOf tp) ms0) -> strictlyBelow tp c) as Hbelow.
  { intros ms0 c u (m & _ & Hin)%in_flat_map. apply childOf_path in Hin as [x ->]. by eexists _, _. }
  induction Hrun as [w|m ms w w1 w2 Hm Ha Hd _ IH|m ms kind w w1 w2 Hm Ha Hk Hc _ IH]; intros Hn Hj Hfr.
  - split; [constructor|apply walkedAll_nil].
  - cbn [map] in Hn. apply NoDup_cons in Hn as [_ Hn]. cbn [flat_map]. rewrite (childOf_data _ _ Ha).
    assert (walkedAll tp (contrib tp m) depth [] w w1) as H1.
    { unfold contrib. rewrite (childOf_data _ _ Ha), app_nil_r. apply dataKeyword_ok in Hd as (_ & Href & ->). unfold refOf.
      destruct (String.eqb_spec m.1 "$ref") as [E|]; [|apply walkedAll_nil]. destruct (Href E) as (r & -> & _). apply walkedAll_edge. }
    clear Ha Hd. destruct IH as [Hok H2]; [done|intros; apply Hj; by right| |].
    { intros m' c u Hin Hcu. destruct (Hfr m' c u ltac:(by right) Hcu) as [? ?]. split; [done|].
      eapply fresh_after; [exact H1|assumption|apply (Hbelow ms c u), in_flat_map; exists m'; split; assumption|intros x []]. }
    split; [by constructor|]. eapply (walkedAll_app tp _ _ depth [] _ w w1 w2); [|done|exact H1|exact H2]. apply Hbelow.
  - cbn [map] in Hn. apply NoDup_cons in Hn as [Hnin Hn]. cbn [flat_map].
    assert (walkedAll tp (contrib tp m) depth (childOf tp m) w w1) as H1.
    { unfold contrib, refOf. destruct (String.eqb_spec m.1 "$ref") as [E|_]; [exfalso; exact (ref_is_data _ _ Ha Hk E)|]. cbn [app].
      apply (childrenRun_walked tp depth _ w w1 Hc); [|apply childOf_apart, Hj; left; reflexivity]. intros c u Hin.
      destruct (Hfr m c u ltac:(left; reflexivity) Hin) as [? ?]. split; [assumption|]. split; [eapply childOf_wf; [apply Hj; left; reflexivity|exact Hin]|].
      split; [|assumption]. apply childOf_path in Hin as [x ->]. by eexists _, _. }
    clear Ha Hk Hc. assert (forall x m' c u, In x (childOf tp m) -> In m' ms -> In (c, u) (childOf tp m') -> apart x.1 c) as Hapart.
    { intros [c' u'] m' c u Hx Hm' Hcu. apply childOf_path in Hx as [y ->], Hcu as [z ->]. cbn. apply apart_tokens. intros E.
      apply Hnin, list_elem_of_In. rewrite E. by apply in_map. }
    destruct IH as [Hok H2]; [done|intros; apply Hj; by right| |].
    { intros m' c u Hin Hcu. destruct (Hfr m' c u ltac:(by right) Hcu) as [? ?]. split; [done|].
      eapply fresh_after; [exact H1|assumption|apply (Hbelow ms c u), in_flat_map; exists m'; split; assumption|]. intros x Hx. by eapply Hapart. }
    split; [by constructor|]. eapply (walkedAll_app tp _ _ depth (childOf tp m) _ w w1 w2); [|  |exact H1|exact H2].
    + intros c u Hin. by apply (Hbelow (m :: ms) c u).
    + intros x [c u] Hx (m' & Hm' & Hcu)%in_flat_map. by eapply Hapart.
Qed.

Lemma enterNode_ok ptr depth w w1 :
  enterNode ptr depth w = (Ok (), w1) ->
  depth <= MaxJSONSchemaDepth /\ edges w1 = edges w /\ nodes w1 = {[ptr]} ∪ nodes w /\ walkCount w1 = walkCount w + 1 /\ walkCount w1 <= MaxJSONSchemaSubschemas.
Proof.
  unfold enterNode. destruct (Z.ltb_spec MaxJSONSchemaDepth depth); [discriminate|]. cbn [walkCount].
  destruct (Z.ltb_spec MaxJSONSchemaSubschemas (walkCount w + 1)); [discriminate|]. intros [= <-]. cbn. auto.
Qed.

Lemma fresh_succs tp w : fresh tp w -> succs (edges w) (render tp) = [].
Proof. intros H. unfold succs. rewrite H; [done|]. exists []. by rewrite app_nil_r. Qed.

Lemma walk_faithful v : faithful v.
Proof.
  remember (jsize v) as n eqn:Hn. revert v Hn. induction (lt_wf n) as [n _ IH]. intros v -> tp depth w w' Hj Hw Hfr.
  apply walkSchema_inv in Hw as (w1 & He & Hw). apply enterNode_ok in He as (Hd & Ee & En & _).
  assert (fresh tp w1) as Hfr1 by (intros q Hq; rewrite Ee; by apply Hfr).
  assert (forall q, q ∈ nodes w1 <-> q ∈ nodes w \/ q = render tp) as Hnodes by (intros q; rewrite En; set_solver).
  destruct Hw as [[[b ->] ->]|(obj & -> & Hrun)].
  - constructor.
    + intros q _. by rewrite Ee.
    + intros q. rewrite Hnodes. split; [intros [?| ->]; [by left|right; by eexists _, _, _; split; [constructor|]]|].
      intros [?|(tp' & v & d & Hsub & ->)]; [by left|]. inversion Hsub; subst. by right.
    + intros tp' v d Hsub. inversion Hsub; subst. split; [done|]. split; [done|]. by apply fresh_succs.
  - destruct (jwf_members _ Hj) as [Hnd Hjm].
    destruct (membersRun_walked tp depth obj w1 w' Hrun Hnd Hjm) as [Hok [Hf Hs Hns Hr]].
    { intros m c u Hm Hcu. split.
      - apply (IH (jsize u)); [|done]. apply childOf_size in Hcu. apply (in_map (fun kv => jsize kv.2)) in Hm. apply list_sum_In in Hm. cbn [jsize]. cbn in Hm. lia.
      - intros q [ext ->]. apply Hfr1. apply childOf_path in Hcu as [x ->]. eexists. by rewrite <- app_assoc. }
    constructor.
    + intros q Hq. rewrite Hf; [by rewrite Ee| |].
      * intros ->. apply Hq. exists []. by rewrite app_nil_r.
      * intros c u (m & _ & Hcu)%in_flat_map [ext ->]. apply Hq. apply childOf_path in Hcu as [x ->]. eexists. by rewrite <- app_assoc.
    + intros q. rewrite Hns, Hnodes. split.
      * intros [[?| ->]|(c & u & tp' & v & d & (m & Hm & Hcu)%in_flat_map & Hsub & ->)]; [by left|right..].
        -- by eexists _, _, _; split; [constructor|].
        -- eexists _, _, _. split; [|done]. by econstructor.
      * intros [?|(tp' & v & d & Hsub & ->)]; [by left; left|]. inversion Hsub as [|? ? ? m c u ? ? ? Hm Hcu Hsub']; subst; [by left; right|].
        right. exists c, u, tp', v, d. split; [|done]. apply in_flat_map. by exists m.
    + intros tp' v d Hsub. inversion Hsub as [|? ? ? m c u ? ? ? Hm Hcu Hsub']; subst.
      * split; [done|]. split; [done|]. rewrite Hs, (fresh_succs _ _ Hfr1). done.
      * eapply Hr; [|exact Hsub']. apply in_flat_map. by exists m.
Qed.

(** ** The reference graph of a document *)

(** Evaluating the subschema at [p] leads to the one at [q]: it contains it or
    refers to it. *)
Definition leadsTo (doc : jvalue) (p q : string) : Prop :=
  exists tp v d, subschema [] doc 1 tp v d /\ p = render tp /\ In q (succsAt tp v).

(** How often evaluation enters a subschema when the one at [p] is applied
    once, counting every containment and every reference separately. *)
Inductive entries (doc : jvalue) : string -> Z -> Prop :=
  | entries_node tp v d k : subschema [] doc 1 tp v d -> entriesAll doc (succsAt tp v) k -> entries doc (render tp) (1 + k)
with entriesAll (doc : jvalue) : list string -> Z -> Prop :=
  | entriesAll_nil : entriesAll doc [] 0
  | entriesAll_cons p ps k ks : entries doc p k -> entriesAll doc ps ks -> entriesAll doc (p :: ps) (k + ks).

Section Accepted.
Context (doc : jvalue) (w : profileWalk).
Context (Hnodes : forall q, q ∈ nodes w <-> exists tp v d, subschema [] doc 1 tp v d /\ q = render tp).
Context (Hrec : forall tp v d, subschema [] doc 1 tp v d -> recorded w tp v d).
Context (Hres : unresolvedRef w = false).

Lemma targets_resolve n m : In m (succs (edges w) n) -> m ∈ nodes w.
Proof.
  unfold succs. destruct (edges w !! n) as [l|] eqn:E; [|done]. cbn. intros Hm.
  apply elem_of_map_to_list, list_elem_of_In in E. apply (existsb_false _ _ _ Hres) in E. cbn in E.
  apply (existsb_false _ _ _ E) in Hm. apply negb_false_iff in Hm. by apply bool_decide_eq_true in Hm.
Qed.

Lemma walk_edges p q : leadsTo doc p q -> edge (edges w) p q.
Proof. intros (tp & v & d & Hsub & -> & Hq). unfold edge. destruct (Hrec tp v d Hsub) as (_ & _ & ->). done. Qed.

Lemma npaths_entries n k : npaths (edges w) n k -> n ∈ nodes w -> entries doc n k.
Proof.
  revert n k. apply (npaths_mut (edges w) (fun n k _ => n ∈ nodes w -> entries doc n k)
    (fun cs k _ => (forall c, In c cs -> c ∈ nodes w) -> entriesAll doc cs k)).
  - intros n k _ IH Hn. pose proof Hn as (tp & v & d & Hsub & ->)%Hnodes. destruct (Hrec tp v d Hsub) as (_ & _ & Es).
    rewrite Es in IH. econstructor; [exact Hsub|]. apply IH. intros c Hc. apply (targets_resolve (render tp)). by rewrite Es.
  - constructor.
  - intros c cs k ks _ IH1 _ IH2 Hall. constructor; [apply IH1, Hall; by left|]. apply IH2. intros d Hd. apply Hall. by right.
Qed.

Lemma root_node : "" ∈ nodes w.
Proof. apply Hnodes. exists [], doc, 1. by split; [constructor|]. Qed.

Lemma accepted_graph :
  checkAcyclic (edges w) (nodes w) = Ok () -> checkWorkBudget w = Ok () ->
  (forall p, ~ tc (leadsTo doc) p p) /\ exists k, entries doc "" k /\ 1 <= k <= MaxJSONSchemaSubschemas.
Proof.
  intros Hac Hwb. assert (forall n m, n ∈ nodes w -> edge (edges w) n m -> m ∈ nodes w) as Hcl by (intros n m _; apply targets_resolve).
  pose proof (checkAcyclic_spec (edges w) (nodes w) Hcl) as Hsn. rewrite Hac in Hsn. split.
  - intros p Hp. assert (tc (edge (edges w)) p p) as Ht by (eapply tc_congruence with (f := id); [exact walk_edges|exact Hp]).
    apply (sn_no_cycle (edges w) p); [|done]. apply Hsn. inversion Hp as [? ? (tp & v & d & Hs & -> & _)|? ? ? (tp & v & d & Hs & -> & _)]; subst; apply Hnodes; by exists tp, v, d.
  - destruct (npaths_exists (edges w) "" (Hsn _ root_node)) as [k Hk]. exists k.
    split; [apply npaths_entries; [done|apply root_node]|]. split; [by eapply npaths_pos|].
    unfold checkWorkBudget in Hwb. change (MaxEvaluationWork / MaxValidatedInstanceBytes) with MaxJSONSchemaSubschemas in Hwb.
    rewrite (expandedPaths_spec (edges w) (nodes w) Hcl MaxJSONSchemaSubschemas ltac:(vm_compute; discriminate) "" k root_node Hsn Hk) in Hwb.
    destruct (Z.ltb_spec MaxJSONSchemaSubschemas (Z.min k (MaxJSONSchemaSubschemas + 1))); [discriminate Hwb|]. lia.
Qed.
End Accepted.

(** An accepted JSON Schema has bounded evaluation: in a document the
    profile admits, every subschema uses only allowed keywords with values of
    the right shape at nesting depth at most 32, every reference names a
    subschema of the document, following containment and references never
    comes back to where it started, and applying the root once enters at most
    256 subschemas however references are reused, so that each entered
    subschema reading the largest instance stays within the step budget. *)
Theorem accepted_schema_is_bounded (doc : jvalue) :
  jwf doc -> checkProfile doc = Ok () ->
  (forall tp v d, subschema [] doc 1 tp v d ->
     nodeOk v /\ d <= MaxJSONSchemaDepth /\
     forall q, In q (succsAt tp v) -> exists tp' v' d', subschema [] doc 1 tp' v' d' /\ q = render tp') /\
  (forall p, ~ tc (leadsTo doc) p p) /\
  exists k, entries doc "" k /\ 1 <= k /\ k * MaxValidatedInstanceBytes <= MaxEvaluationWork.
Proof.
  intros Hj. unfold checkProfile. destruct (walkSchema doc "" 1 (MkWalk ∅ ∅ 0)) as [[[]|e|p] w] eqn:E; try discriminate.
  destruct (unresolvedRef w) eqn:Hres; [discriminate|]. intros (a & Hac & Hwb)%bind_Ok. destruct a.
  assert (fresh [] (MkWalk ∅ ∅ 0)) as Hfr by (intros q _; apply lookup_empty).
  destruct (walk_faithful doc [] 1 (MkWalk ∅ ∅ 0) w Hj E Hfr) as [_ Hn Hr].
  assert (forall q, q ∈ nodes w <-> exists tp v d, subschema [] doc 1 tp v d /\ q = render tp) as Hnodes.
  { intros q. rewrite Hn. cbn. split; [intros [[]%not_elem_of_empty|H]; done|by right]. }
  split; [|split].
  - intros tp v d Hsub. destruct (Hr tp v d Hsub) as (Hok & Hd & Hs). split; [done|]. split; [done|]. intros q Hq.
    apply Hnodes, (targets_resolve w Hres (render tp)). by rewrite Hs.
  - by apply (accepted_graph doc w Hnodes Hr Hres).
  - destruct (accepted_graph doc w Hnodes Hr Hres Hac Hwb) as [_ (k & Hk & H1 & H2)]. exists k. split; [done|]. split; [done|].
    change (k * 65536 <= 16777216). change MaxJSONSchemaSubschemas with 256 in H2. lia.
Qed.

(** A document with a shared definition. *)
Definition sampleSchema : jvalue := JObject [
  ("$defs", JObject [("port", JObject [("maximum", JNumber "65535"); ("minimum", JNumber "1"); ("type", JString "integer")])]);
  ("properties", JObject [("http", JObject [("$ref", JString "#/$defs/port")]); ("https", JObject [("$ref", JString "#/$defs/port")])]);
  ("type", JString "object")].

Lemma accepted_schema_is_bounded_witness :
  checkProfile sampleSchema = Ok () /\ exists k, entries sampleSchema "" k /\ 1 <= k /\ k * MaxValidatedInstanceBytes <= MaxEvaluationWork.
Proof.
  assert (checkProfile sampleSchema = Ok ()) as E by (vm_compute; reflexivity). split; [exact E|].
  apply (accepted_schema_is_bounded sampleSchema); [|exact E].
  cbn. repeat split; refine (bool_decide_unpack _ _); vm_compute; exact I.
Defined.

(** ** Percent-encoded references

    In a URI fragment a JSON pointer is percent-encoded (RFC 6901, section 6).
    The walk compares fragments undecoded. *)
Definition hexValue (c : ascii) : option nat :=
  let n := nat_of_ascii c in
  if (48 <=? n)%nat && (n <=? 57)%nat then Some (n - 48)%nat
  else if (65 <=? n)%nat && (n <=? 70)%nat then Some (n - 55)%nat
  else if (97 <=? n)%nat && (n <=? 102)%nat then Some (n - 87)%nat else None.

Fixpoint percentDecode (s : string) : string :=
  match s with
  | String "%" (String a (String b s')) =>
      match hexValue a, hexValue b with
      | Some x, Some y => String (ascii_of_nat (16 * x + y)) (percentDecode s')
      | _, _ => s
      end
  | String c s' => String c (percentDecode s')
  | EmptyString => EmptyString
  end.

Definition hiddenCycle : jvalue := JObject [
  ("$defs", JObject [("%41", JBool true); ("A", JObject [("$ref", JString "#/$defs/%41")])]);
  ("$ref", JString "#/$defs/A")].

(** The profile admits a schema whose definition [A] refers, once its fragment
    is decoded, to itself: the walk resolves the reference to the unrelated
    definition spelled [%41]. *)
Lemma percent_encoded_ref_hides_a_cycle :
  checkProfile hiddenCycle = Ok () /\
  subschema [] hiddenCycle 1 ["$defs"; "A"] (JObject [("$ref", JString "#/$defs/%41")]) 2 /\
  percentDecode (unescapeRefTarget "#/$defs/%41") = render ["$defs"; "A"].
Proof.
  split; [vm_compute; reflexivity|]. split; [|vm_compute; reflexivity].
  eapply (sub_child [] _ 1 _ ["$defs"; "A"]); [left; reflexivity| |constructor]. vm_compute. right. left. reflexivity.
Qed.
