(* ===== verification/Schema.v ===== *)
(** * Key declarations and value validation: [internal/schema]

    Declarations ([schema.go], [declare.go], [classification.go]), presence
    rules ([presence.go]) and the value-validation engine ([validate.go]). The
    functions of Go's library and of the JSON Schema library the engine calls
    are the fields of [Engine]; an evaluation of a JSON Schema ends completed,
    overrun or refused, as the argument [eval] of [Validate] decides per
    alternative: the deadline and the load are not a function of the value. *)

From S2P Require Import Prelude.
From S2P Require Import Utf8.
From S2P Require Import GoStrings.
From S2P Require Import Dotenv.
From S2P Require Import Parameters.
From S2P Require Import SchemaProfile.
From stdpp Require Import pretty.
From Stdlib Require Import Ascii.

#[local] Open Scope Z_scope.

(** ** Vocabulary *)
Definition Config : string := "config".
Definition Secret : string := "secret".
Definition Classification_Valid (c : string) : bool := (c =s Config) || (c =s Secret).

Definition TypeString : string := "string".
Definition TypeInteger : string := "integer".
Definition TypeBoolean : string := "boolean".
Definition TypeEnum : string := "enum".
Definition TypeURL : string := "url".
Definition TypeJSON : string := "json".

Definition TypeExpression (types : list string) : string :=
  match types with
  | [] => ""
  | [t] => t
  | _ => "any_of(" +:+ String.concat "|" types +:+ ")"
  end.

Definition MaxDescriptionBytes : Z := 4096.
Definition MaxEnumMembers : Z := 256.
Definition MaxEnumMemberBytes : Z := 512.
Definition MaxPatternBytes : Z := 512.
Definition MaxAnyOfAlternatives : Z := 8.
Definition MaxVerdictErrors : nat := 100.
Definition MaxVerdictErrorBytes : Z := 65536.

Definition blen (s : bytes) : Z := Z.of_nat (length s).

Definition CheckGroupName (name : bytes) : result () :=
  match name with
  | [] => declErr "key group name must not be empty"
  | _ => if MaxKeyNameBytes <? blen name then declErr "key group name exceeds its bytes"
         else if negb (bool_decide (TrimSpace name = name)) then declErr "key group name has leading or trailing whitespace"
         else if negb (ValidString name) then declErr "key group name is not valid UTF-8"
         else if hasByte NUL name then declErr "key group name contains a NUL byte"
         else Ok ()
  end.

Definition CheckDescription (s : bytes) : result () :=
  if MaxDescriptionBytes <? blen s then declErr "exceeds its bytes"
  else if negb (ValidString s) then declErr "is not valid UTF-8"
  else if hasByte NUL s then declErr "contains a NUL byte"
  else Ok ().

(** ** Declarations *)
Record Rule := MkRule {
  r_Type : string;
  r_MinLength : option Z; r_MaxLength : option Z; r_Pattern : bytes; r_AllowEmpty : bool;
  r_Min : option Z; r_Max : option Z;
  r_Members : list bytes;
  r_Schemes : list bytes;
  r_JSONSchema : bytes }.

Record Declaration := MkDeclaration { d_Rule : option Rule; d_AnyOf : list Rule }.

Definition alternatives (d : Declaration) : list Rule :=
  match d_Rule d with Some r => [r] | None => d_AnyOf d end.

(** ** Presence *)
Definition PresenceNone : string := "none".
Definition PresenceAll : string := "all".
Definition PresenceExplicit : string := "explicit".

Record Presence := MkPresence { p_Mode : string; p_Environments : list string }.
Record PresenceRules := MkPresenceRules { Required : Presence; Forbidden : Presence }.

Definition DefaultPresenceRules : PresenceRules := MkPresenceRules (MkPresence PresenceNone []) (MkPresence PresenceNone []).

Definition Covers (p : Presence) (envID : string) : bool :=
  if p_Mode p =s PresenceAll then true
  else if p_Mode p =s PresenceExplicit then contains (p_Environments p) envID
  else false.

Fixpoint checkIDs (seen ids : list string) : result () :=
  match ids with
  | [] => Ok ()
  | id :: ids' =>
      if id =s "" then declErr "names an empty environment id"
      else if contains seen id then declErr "names an environment more than once"
      else checkIDs (id :: seen) ids'
  end.

Definition checkPresenceShape (p : Presence) : result () :=
  if (p_Mode p =s PresenceNone) || (p_Mode p =s PresenceAll) then
    match p_Environments p with [] => Ok () | _ => declErr "mode carries no environment ids" end
  else if p_Mode p =s PresenceExplicit then
    match p_Environments p with [] => declErr "mode explicit names at least one environment" | ids => checkIDs [] ids end
  else declErr "mode is not one of all|none|explicit".

Definition overlap (required forbidden : Presence) : bool :=
  if (p_Mode required =s PresenceNone) || (p_Mode forbidden =s PresenceNone) then false
  else if (p_Mode required =s PresenceAll) || (p_Mode forbidden =s PresenceAll) then true
  else existsb (contains (p_Environments required)) (p_Environments forbidden).

Definition CheckPresence (required forbidden : Presence) : result () :=
  _ ← checkPresenceShape required;
  _ ← checkPresenceShape forbidden;
  if overlap required forbidden then declErr "a key cannot be both required_in and forbidden_in the same environment" else Ok ().

Definition CheckGroupPresence (a b : PresenceRules) : result () :=
  if overlap (Required a) (Forbidden b) || overlap (Required b) (Forbidden a)
  then declErr "two members of one key group cannot be required_in and forbidden_in the same environment" else Ok ().

(** ** Strict JSON

    A document as the decoder's token stream gives it: members in order,
    repeated keys kept. *)
Inductive jdoc :=
  | DAtom (text : string)
  | DString (s : string)
  | DArray (items : list jdoc)
  | DObject (members : list (string * jdoc)).

Inductive token := TDelim (open object : bool) | TString (s : string) | TAtom (text : string).

Fixpoint tokens (d : jdoc) : list token :=
  match d with
  | DAtom t => [TAtom t]
  | DString s => [TString s]
  | DArray items => TDelim true false :: flat_map tokens items ++ [TDelim false false]
  | DObject ms => TDelim true true :: flat_map (fun m => TString m.1 :: tokens m.2) ms ++ [TDelim false true]
  end.

Record frame := MkFrame { f_object : bool; f_seen : list string; f_expectKey : bool }.

Definition errDuplicateKey : error := ESentinel "schema.errDuplicateKey".

Definition fillSlot (stack : list frame) : list frame :=
  match stack with
  | f :: rest => if f_object f then MkFrame true (f_seen f) true :: rest else stack
  | [] => []
  end.

(** The token walk; the innermost frame is first. *)
Fixpoint dupWalk (ts : list token) (stack : list frame) : result () :=
  match ts with
  | [] => Ok ()
  | TDelim true obj :: ts' => dupWalk ts' ((if obj then MkFrame true [] true else MkFrame false [] false) :: fillSlot stack)
  | TDelim false _ :: ts' =>
      match stack with [] => Panic "slice bounds out of range" | _ :: rest => dupWalk ts' rest end
  | tok :: ts' =>
      match stack with
      | f :: rest =>
          if f_object f && f_expectKey f then
            match tok with
            | TString name =>
                if contains (f_seen f) name then Err (EWrap name errDuplicateKey)
                else dupWalk ts' (MkFrame true (name :: f_seen f) false :: rest)
            | _ => Err (ENew "object key is not a string")
            end
          else dupWalk ts' (fillSlot stack)
      | [] => dupWalk ts' []
      end
  end.

Definition checkNoDuplicateKeys (d : jdoc) : result () := dupWalk (tokens d) [].

(** ** The engine *)
Record leafError := MkLeaf { KeywordPath : list string; SchemaURL : string; InstanceLocation : list string; leafMessage : string }.

(** The tree the library answers with. *)
Inductive validationError := VError (self : leafError) (causes : list validationError).

Inductive evalOutcome := evalCompleted (err : option (option validationError)) | evalOverran | evalRefused.

Record Failure := MkFailure { Alternative : Z; Keyword : bytes; Message : bytes; InstancePath : bytes }.
Record Verdict := MkVerdict { Valid : bool; Errors : list Failure }.

#[export] Instance Failure_eq_dec : EqDecision Failure.
Proof. solve_decision. Defined.

Definition B (s : string) : bytes := String.list_ascii_of_string s.

(** *** The encoded verdict

    [json.Marshal] of a string: the characters that are escaped, HTML-sensitive
    ones included, and the replacement of ill-formed bytes. The templates below
    write the quotes of the encoding as apostrophes. *)
Definition shortEscape (r : Z) : bool :=
  (r =? 34) || (r =? 92) || (r =? 8) || (r =? 9) || (r =? 10) || (r =? 12) || (r =? 13).
Definition longEscape (r : Z) : bool :=
  (r <? 32) || (r =? 38) || (r =? 60) || (r =? 62) || (r =? 8232) || (r =? 8233).

Definition encodedRune (p : Z * bytes) : Z :=
  if shortEscape p.1 then 2 else if longEscape p.1 || ill_formed p then 6 else blen p.2.

Definition encodedString (s : bytes) : Z := 2 + foldr Z.add 0 (map encodedRune (chunks 0 s)).

Definition encodedFailure (f : Failure) : Z :=
  blen (B "{'alternative':,'keyword':,'message':}") + blen (B (pretty (Alternative f)))
    + encodedString (Keyword f) + encodedString (Message f)
    + match InstancePath f with [] => 0 | p => blen (B ",'instance_path':") + encodedString p end.

(** The byte length of [json.Marshal(Verdict{Errors: failures})]. *)
Definition encodedSize (failures : list Failure) : Z :=
  blen (B "{'valid':false}") +
  match failures with
  | [] => 0
  | _ => blen (B ",'errors':[]") + foldr Z.add 0 (map encodedFailure failures) + (Z.of_nat (length failures) - 1)
  end.

(** *** Caps *)
Definition trimTo (s : bytes) : nat -> bytes :=
  fix loop (n : nat) : bytes :=
    match n with
    | O => []
    | S k => if ValidString (take n s) then take n s else loop k
    end.

Definition trimRunes (s : bytes) (n : nat) : bytes :=
  trimTo s (if (length s <=? n)%nat then pred (length s) else n).

(** The shrinking loop; each turn shortens the message or the keyword, so
    [fuel] past their lengths is never used up. *)
Fixpoint truncateLoop (fuel : nat) (f : Failure) : Failure :=
  match fuel with
  | O => f
  | S k =>
      if MaxVerdictErrorBytes <? encodedSize [f] then
        match Message f, Keyword f with
        | (_ :: _) as m, kw => truncateLoop k (MkFailure (Alternative f) kw (trimRunes m ((length m + 1) / 2)) (InstancePath f))
        | [], (_ :: _) as kw => truncateLoop k (MkFailure (Alternative f) (trimRunes kw ((length kw + 1) / 2)) (Message f) (InstancePath f))
        | [], [] => f
        end
      else f
  end.

Definition truncateFailure (f : Failure) : Failure :=
  truncateLoop (S (length (Message f) + length (Keyword f))) (MkFailure (Alternative f) (Keyword f) (Message f) []).

(** [seen] holds the failures met, [out] the ones kept. *)
Fixpoint capLoop (seen out rest : list Failure) : list Failure :=
  match rest with
  | [] => out
  | f :: rest' =>
      if bool_decide (f ∈ seen) then capLoop seen out rest'
      else if (MaxVerdictErrors <=? length out)%nat then out
      else if MaxVerdictErrorBytes <? encodedSize (out ++ [f]) then out
      else capLoop (f :: seen) (out ++ [f]) rest'
  end.

Definition capFailures (input : list Failure) : list Failure :=
  match capLoop [] [] input, input with
  | [], f :: _ => [truncateFailure f]
  | out, _ => out
  end.

Record Engine := MkEngine {
  RE : Type; JS : Type;
  re_Compile : bytes -> option RE;                       (* regexp.Compile *)
  re_MatchString : RE -> bytes -> bool;
  decode : bytes -> option jdoc;                         (* one JSON document, nothing after it *)
  reencode : jdoc -> bytes;                              (* json.Marshal of the decoded value *)
  UnmarshalJSON : string -> option jvalue;               (* the JSON Schema library's decoder *)
  libCompile : jvalue -> option JS;                      (* AddResource and Compile *)
  url_Parse : bytes -> option (bytes * bytes);           (* scheme and opaque part *)
  ToLower : bytes -> bytes }.

Section Engine.
Context (E : Engine).

(** [strictJSON]: the decoded document. *)
Definition strictJSON (raw : bytes) : result jdoc :=
  match decode E raw with
  | None => Err (ENew "not a single well-formed JSON document")
  | Some d => _ ← checkNoDuplicateKeys d; Ok d
  end.

Definition normRule (r : Rule) : result Rule :=
  let out schema := MkRule (r_Type r) (r_MinLength r) (r_MaxLength r) (r_Pattern r) (r_AllowEmpty r) (r_Min r) (r_Max r)
                      (map TrimSpace (r_Members r)) (map (fun s => ToLower E (TrimSpace s)) (r_Schemes r)) schema in
  match r_JSONSchema r with
  | [] => Ok (out [])
  | raw => if MaxJSONSchemaBytes <? blen raw then declErr "json_schema exceeds its bytes"
           else match strictJSON raw with
                | Ok d => Ok (out (reencode E d))
                | Err e => declErr "json_schema: parse"
                | Panic p => Panic p
                end
  end.

Fixpoint normAll (rs : list Rule) : result (list Rule) :=
  match rs with
  | [] => Ok []
  | r :: rs' => n ← normRule r; ns ← normAll rs'; Ok (n :: ns)
  end.

Definition normalize (d : Declaration) : result Declaration :=
  rule ← match d_Rule d with None => Ok None | Some r => n ← normRule r; Ok (Some n) end;
  alts ← normAll (d_AnyOf d);
  Ok (MkDeclaration rule alts).

Definition isNone {A} (o : option A) : bool := match o with None => true | Some _ => false end.

Definition normalizeForCompile (d : Declaration) : result Declaration :=
  if Bool.eqb (isNone (d_Rule d)) (length (d_AnyOf d) =? 0)%nat then declErr "a declaration carries exactly one of rule or any_of"
  else if isNone (d_Rule d) && (length (d_AnyOf d) <? 2)%nat then declErr "an any_of union carries at least two alternatives"
  else if MaxAnyOfAlternatives <? Z.of_nat (length (d_AnyOf d)) then declErr "an any_of union carries too many alternatives"
  else normalize d.

(** Value literals anywhere in an embedded schema. *)
Definition literalKeywords : list string := ["const"; "enum"; "examples"].

Fixpoint valueLiteralKeyword (d : jdoc) : bool :=
  match d with
  | DObject ms => existsb (fun m => contains literalKeywords m.1) ms || existsb (fun m => valueLiteralKeyword m.2) ms
  | DArray items => existsb valueLiteralKeyword items
  | _ => false
  end.

Fixpoint checkSecretRules (rs : list Rule) : result () :=
  match rs with
  | [] => Ok ()
  | r :: rs' =>
      if (r_Type r =s TypeEnum) || negb (length (r_Members r) =? 0)%nat then declErr "secret declaration uses value-literal members"
      else match r_JSONSchema r with
           | [] => checkSecretRules rs'
           | raw => match strictJSON raw with
                    | Ok d => if valueLiteralKeyword d then declErr "secret declaration uses value-literal JSON Schema keyword"
                              else checkSecretRules rs'
                    | Err e => declErr "json_schema: parse"
                    | Panic p => Panic p
                    end
           end
  end.

Definition checkDeclarationClassification (classification : string) (d : Declaration) : result () :=
  if classification <>s Secret then Ok () else checkSecretRules (alternatives d).

(** ** Compilation *)
Record compiledRule := MkCompiledRule { cr_rule : Rule; cr_pattern : option (RE E); cr_schema : option (JS E) }.
Record Compiled := MkCompiled { c_classification : string; c_decl : Declaration; c_alts : list compiledRule }.

Definition anchor (p : bytes) : bytes := map chr [92; 65; 40; 63; 58] ++ p ++ map chr [41; 92; 122].

Definition compilePattern (p : bytes) : result (RE E) :=
  if MaxPatternBytes <? blen p then declErr "pattern exceeds its bytes"
  else match re_Compile E (anchor p) with
       | None => declErr "pattern is not a valid RE2 expression"
       | Some re => Ok re
       end.

Fixpoint checkMembers (seen members : list bytes) : result () :=
  match members with
  | [] => Ok ()
  | m :: ms =>
      if (length m =? 0)%nat then declErr "an enum member must not be empty after the write-time trim"
      else if MaxEnumMemberBytes <? blen m then declErr "an enum member exceeds its bytes"
      else if negb (ValidString m) then declErr "an enum member is not valid UTF-8"
      else if hasByte NUL m then declErr "an enum member contains a NUL byte"
      else if seenKey seen m then declErr "enum members must be distinct after the write-time trim"
      else checkMembers (m :: seen) ms
  end.

Definition checkEnumMembers (members : list bytes) : result () :=
  match members with
  | [] => declErr "an enum declares at least one member"
  | _ => if MaxEnumMembers <? Z.of_nat (length members) then declErr "an enum declares too many members" else checkMembers [] members
  end.

(** [\A[a-z][a-z0-9+.-]*\z] *)
Definition schemeChar (c : ascii) : bool :=
  in_range 97 122 c || in_range 48 57 c || Ascii.eqb c (chr 43) || Ascii.eqb c (chr 46) || Ascii.eqb c (chr 45).
Definition schemeRe (s : bytes) : bool :=
  match s with [] => false | c :: rest => in_range 97 122 c && forallb schemeChar rest end.

Fixpoint checkSchemeList (seen schemes : list bytes) : result () :=
  match schemes with
  | [] => Ok ()
  | s :: ss =>
      if negb (schemeRe s) then declErr "schemes entry is not a valid URL scheme"
      else if seenKey seen s then declErr "schemes entries must be distinct"
      else checkSchemeList (s :: seen) ss
  end.

Definition checkSchemes (schemes : list bytes) : result () :=
  match schemes with [] => declErr "a url declares at least one allowed scheme" | _ => checkSchemeList [] schemes end.

Definition negative (o : option Z) : bool := match o with Some z => z <? 0 | None => false end.
Definition exceeds (lo hi : option Z) : bool := match lo, hi with Some a, Some b => b <? a | _, _ => false end.

Definition compileRule (r : Rule) : result compiledRule :=
  if r_Type r =s "any_of" then declErr "an any_of alternative may not itself be an any_of"
  else if (r_Type r <>s TypeString) && negb (length (r_Pattern r) =? 0)%nat then declErr "pattern is declared on a string"
  else if (r_Type r <>s TypeString) && negb (isNone (r_MinLength r)) then declErr "min_length is declared on a string"
  else if (r_Type r <>s TypeString) && negb (isNone (r_MaxLength r)) then declErr "max_length is declared on a string"
  else if (r_Type r <>s TypeString) && r_AllowEmpty r then declErr "allow_empty is declared on a string"
  else if (r_Type r <>s TypeInteger) && (negb (isNone (r_Min r)) || negb (isNone (r_Max r))) then declErr "min/max are declared on an integer"
  else if (r_Type r <>s TypeEnum) && negb (length (r_Members r) =? 0)%nat then declErr "members are declared on an enum"
  else if (r_Type r <>s TypeURL) && negb (length (r_Schemes r) =? 0)%nat then declErr "schemes are declared on a url"
  else if (r_Type r <>s TypeJSON) && negb (length (r_JSONSchema r) =? 0)%nat then declErr "json_schema is declared on a json key"
  else if r_Type r =s TypeString then
    if negative (r_MinLength r) then declErr "min_length must not be negative"
    else if negative (r_MaxLength r) then declErr "max_length must not be negative"
    else if exceeds (r_MinLength r) (r_MaxLength r) then declErr "min_length exceeds max_length"
    else match r_Pattern r with
         | [] => Ok (MkCompiledRule r None None)
         | p => re ← compilePattern p; Ok (MkCompiledRule r (Some re) None)
         end
  else if r_Type r =s TypeInteger then
    if exceeds (r_Min r) (r_Max r) then declErr "min exceeds max" else Ok (MkCompiledRule r None None)
  else if r_Type r =s TypeBoolean then Ok (MkCompiledRule r None None)
  else if r_Type r =s TypeEnum then _ ← checkEnumMembers (r_Members r); Ok (MkCompiledRule r None None)
  else if r_Type r =s TypeURL then _ ← checkSchemes (r_Schemes r); Ok (MkCompiledRule r None None)
  else if r_Type r =s TypeJSON then
    match r_JSONSchema r with
    | [] => Ok (MkCompiledRule r None None)
    | raw => sch ← compileJSONSchema (UnmarshalJSON E) (libCompile E) (String.string_of_list_ascii raw); Ok (MkCompiledRule r None (Some sch))
    end
  else declErr "type is not one of the six primitives".

Fixpoint compileAll (rs : list Rule) : result (list compiledRule) :=
  match rs with
  | [] => Ok []
  | r :: rs' => c ← compileRule r; cs ← compileAll rs'; Ok (c :: cs)
  end.

Definition CompileClassified (classification : string) (d : Declaration) : result Compiled :=
  if negb (Classification_Valid classification) then declErr "classification is neither secret nor config"
  else
    norm ← normalizeForCompile d;
    _ ← checkDeclarationClassification classification norm;
    alts ← compileAll (alternatives norm);
    Ok (MkCompiled classification norm alts).

(** ** Validation *)
Definition Normalize (value : bytes) : bytes := TrimSpace value.

(** [\A-?[0-9]+\z] *)
Definition digit (c : ascii) : bool := in_range 48 57 c.
Definition MINUS : ascii := chr 45.
Definition digits1 (s : bytes) : bool := match s with [] => false | _ => forallb digit s end.
Definition integerRe (s : bytes) : bool :=
  match CutPrefix [MINUS] s with Some rest => digits1 rest | None => digits1 s end.

Definition canonicalInteger (v : bytes) : bytes :=
  let '(sign, v) := match CutPrefix [MINUS] v with Some rest => ([MINUS], rest) | None => ([], v) end in
  let v := TrimLeft (Ascii.eqb (chr 48)) v in
  sign ++ match v with [] => [chr 48] | _ => v end.

(** [strconv.ParseInt(s, 10, 64)] of a string of an optional sign and digits. *)
Definition decimal (s : bytes) : Z := foldl (fun n c => 10 * n + (ord c - 48)) 0 s.

Definition ParseInt (s : bytes) : option Z :=
  let '(neg, ds) := match CutPrefix [MINUS] s with Some rest => (true, rest) | None => (false, s) end in
  if digits1 ds then
    let n := decimal ds in
    if neg then if 2 ^ 63 <? n then None else Some (- n)
    else if 2 ^ 63 <=? n then None else Some n
  else None.

Definition RuneCount (s : bytes) : Z := Z.of_nat (length (chunks 0 s)).

Fixpoint flattenValidationError (e : validationError) : list leafError :=
  match e with
  | VError self [] => [self]
  | VError _ causes => flat_map flattenValidationError causes
  end.

Definition keywordSuffix (e : leafError) : string :=
  match KeywordPath e with [] => "" | path => "/" +:+ String.concat "/" path end.

Definition schemaResourceURL : string := "https://schema.hikyo.invalid/declaration".

Fixpoint TrimPrefix (p s : string) : option string :=
  match p, s with
  | EmptyString, _ => Some s
  | String a p', String b s' => if Ascii.eqb a b then TrimPrefix p' s' else None
  | _, _ => None
  end.

Definition schemaLocation (e : leafError) : string :=
  match default (SchemaURL e) (TrimPrefix schemaResourceURL (SchemaURL e)) with
  | EmptyString => "#"
  | loc => loc
  end.

Definition instancePointer (tokens : list string) : string :=
  String.concat "" (map (fun t => "/" +:+ escapePointer t) tokens).

Definition leafFailure (cls : string) (alt : Z) (leaf : leafError) : Failure :=
  let keyword := B ("json_schema" +:+ keywordSuffix leaf) in
  if cls =s Config then MkFailure alt keyword (B (leafMessage leaf)) (B (instancePointer (InstanceLocation leaf)))
  else MkFailure alt keyword (B ("value failed the declared JSON Schema at " +:+ schemaLocation leaf)) [].

Definition jsonSchemaFailures (outcome : evalOutcome) (cls : string) (alt : Z) : list Failure :=
  match outcome with
  | evalOverran => [MkFailure alt (B "budget.deadline") (B "validation exceeded the 100ms evaluation deadline") []]
  | evalRefused => [MkFailure alt (B "budget.concurrency") (B "more than 8 JSON Schema evaluations are already in flight") []]
  | evalCompleted None => []
  | evalCompleted (Some None) => [MkFailure alt (B "json_schema") (B "value failed the declared JSON Schema") []]
  | evalCompleted (Some (Some verr)) => map (leafFailure cls alt) (flattenValidationError verr)
  end.

Context (eval : Z -> JS E -> jdoc -> evalOutcome).

Definition below (bound : option Z) (n : Z) : bool := match bound with Some b => n <? b | None => false end.
Definition above (bound : option Z) (n : Z) : bool := match bound with Some b => b <? n | None => false end.

Definition rule_validate (cr : compiledRule) (value : bytes) (cls : string) (alt : Z) : list Failure :=
  let failure keyword message := MkFailure alt (B keyword) (B message) [] in
  let fail keyword message := [failure keyword message] in
  let r := cr_rule cr in
  let bound (o : option Z) := pretty (default 0 o) in
  if r_Type r =s TypeString then
    if bool_decide (value = []) && negb (r_AllowEmpty r) then fail "allow_empty" "value is empty and `allow_empty` is not declared"
    else
      let length := RuneCount value in
      (if below (r_MinLength r) length then fail "min_length" ("value is shorter than the declared `min_length` of " +:+ bound (r_MinLength r)) else []) ++
      (if above (r_MaxLength r) length then fail "max_length" ("value is longer than the declared `max_length` of " +:+ bound (r_MaxLength r)) else []) ++
      (if match cr_pattern cr with Some re => negb (re_MatchString E re value) | None => false end
       then fail "pattern" "value does not match the declared `pattern` over its whole length" else [])
  else if r_Type r =s TypeInteger then
    if negb (integerRe value) then
      fail "type" "value is not an integer (`-?[0-9]+`: no leading `+`, no underscores, no hex, no exponent)"
    else match ParseInt (canonicalInteger value) with
         | None => fail "magnitude" "integer magnitude does not fit signed 64-bit"
         | Some n =>
             (if below (r_Min r) n then fail "min" ("value is below the declared `min` of " +:+ bound (r_Min r)) else []) ++
             (if above (r_Max r) n then fail "max" ("value is above the declared `max` of " +:+ bound (r_Max r)) else [])
         end
  else if r_Type r =s TypeBoolean then
    if bool_decide (value = B "true") || bool_decide (value = B "false") then []
    else fail "type" "value is not the canonical `true` or `false`"
  else if r_Type r =s TypeEnum then
    if seenKey (r_Members r) value then []
    else fail "members" ("value is not one of the " +:+ Itoa (length (r_Members r)) +:+ " declared `enum` members")
  else if r_Type r =s TypeURL then
    match url_Parse E value with
    | Some ((_ :: _) as scheme, []) =>
        if seenKey (r_Schemes r) (ToLower E scheme) then []
        else fail "schemes" "URL scheme is not in the declared `schemes` allowlist"
    | _ => fail "absolute" "value is not an absolute hierarchical URL"
    end
  else if r_Type r =s TypeJSON then
    match strictJSON value with
    | Ok doc => match cr_schema cr with None => [] | Some sch => jsonSchemaFailures (eval alt sch doc) cls alt end
    | Err e => if errors_Is e "schema.errDuplicateKey" then fail "duplicate_key" "value contains a duplicate object key"
               else fail "type" "value is not a single well-formed JSON document"
    | Panic _ => fail "type" "value is not a single well-formed JSON document" (* not reached: strictJSON_no_panic *)
    end
  else fail "type" "declaration carries an unsupported type".

(** [None] when an alternative accepts, the collected failures otherwise. *)
Fixpoint validateAlts (single : bool) (cls : string) (value : bytes) (i : Z) (alts : list compiledRule) (all : list Failure) : option (list Failure) :=
  match alts with
  | [] => Some all
  | alt :: alts' =>
      match rule_validate alt value cls (if single then -1 else i) with
      | [] => None
      | failures => validateAlts single cls value (i + 1) alts' (all ++ failures)
      end
  end.

Definition Verdict_fail (f : Failure) : Verdict := MkVerdict false [f].

Definition Validate (c : Compiled) (value : bytes) : Verdict :=
  let trimmed := Normalize value in
  if MaxValueBytes <? blen trimmed then
    Verdict_fail (MkFailure (-1) (B "budget.value_bytes") (B "value exceeds the 65536-byte validation budget") [])
  else if negb (ValidString trimmed) then Verdict_fail (MkFailure (-1) (B "lexical.utf8") (B "value is not valid UTF-8") [])
  else if hasByte NUL trimmed then Verdict_fail (MkFailure (-1) (B "lexical.nul") (B "value contains a NUL byte") [])
  else match validateAlts (negb (isNone (d_Rule (c_decl c)))) (c_classification c) trimmed 0 (c_alts c) [] with
       | None => MkVerdict true []
       | Some all => MkVerdict false (capFailures all)
       end.
End Engine.
