(* ===== verification/SchemaSpec.v ===== *)
(** * What a declaration and its verdicts promise

    Reference meanings for the presence rules, the duplicate-key check, the
    types of [schema.go] and the verdict of [Validate], and the proofs that the
    engine implements them. *)

From S2P Require Import Prelude.
From S2P Require Import Utf8.
From S2P Require Import GoStrings.
From S2P Require Import Dotenv.
From S2P Require Import Parameters.
From S2P Require Import SchemaProfile.
From S2P Require Import Schema.
From stdpp Require Import pretty.
From Stdlib Require Import Ascii.

#[local] Open Scope Z_scope.

(** ** Presence *)
Lemma checkIDs_spec ids : forall seen,
  checkIDs seen ids = Ok () <-> NoDup ids /\ ~ In "" ids /\ (forall x, In x ids -> ~ In x seen).
Proof.
  induction ids as [|id ids IH]; intros seen; cbn.
  { split; [|done]. intros _. repeat split; [constructor| |]; set_solver. }
  rewrite NoDup_cons, list_elem_of_In.
  destruct (id =s "") eqn:Hid; string_eqs; [split; [done|naive_solver]|].
  destruct (contains seen id) eqn:Hs; [apply contains_In in Hs|apply contains_not_In in Hs; rewrite IH; cbn]; naive_solver.
Qed.

(** What each mode may carry. *)
Definition shaped (p : Presence) : Prop :=
  ((p_Mode p = PresenceNone \/ p_Mode p = PresenceAll) /\ p_Environments p = []) \/
  (p_Mode p = PresenceExplicit /\ p_Environments p <> [] /\ NoDup (p_Environments p) /\ ~ In "" (p_Environments p)).

Lemma checkPresenceShape_spec p : checkPresenceShape p = Ok () <-> shaped p.
Proof.
  unfold checkPresenceShape, shaped. destruct p as [mode ids]; cbn [p_Mode p_Environments].
  destruct (mode =s PresenceNone) eqn:H1; [|destruct (mode =s PresenceAll) eqn:H2]; string_eqs; subst; cbn [orb].
  1,2: destruct ids; split; [naive_solver|naive_solver|done|intros [[_ ?]|[? _]]; done].
  destruct (mode =s PresenceExplicit) eqn:H3; string_eqs; [|split; [done|naive_solver]].
  destruct ids as [|i ids]; [split; [done|naive_solver]|].
  rewrite checkIDs_spec. subst. cbn [In]. naive_solver.
Qed.

Lemma overlap_spec r f : shaped r -> shaped f ->
  overlap r f = true <-> exists env, Covers r env = true /\ Covers f env = true.
Proof.
  destruct r as [mr er], f as [mf ef]. unfold shaped, overlap, Covers; cbn.
  assert (forall (l : list string), l <> [] -> exists x, contains l x = true) as Hne.
  { intros [|x l] ?; [done|]. exists x. apply contains_In. by left. }
  intros [([-> | ->] & ->)|(-> & Hr & _)] [([-> | ->] & ->)|(-> & Hf & _)]; cbn;
    try (split; [done|intros (? & ? & ?); done]).
  - split; [|done]. intros _. by exists "".
  - split; [|done]. intros _. destruct (Hne _ Hf) as [x Hx]. by exists x.
  - split; [|done]. intros _. destruct (Hne _ Hr) as [x Hx]. by exists x.
  - rewrite existsb_exists. split; intros (x & H1 & H2); exists x; rewrite <- ?contains_In in *; auto.
Qed.

(** No environment is covered by both. *)
Definition exclusive (r f : Presence) : Prop := forall env, Covers r env = true -> Covers f env = false.

Lemma overlap_exclusive r f : shaped r -> shaped f -> overlap r f = false <-> exclusive r f.
Proof.
  intros Hr Hf. pose proof (overlap_spec r f Hr Hf) as H. unfold exclusive. split.
  - intros Ho env Hc. destruct (Covers f env) eqn:?; [|done]. rewrite Ho in H. naive_solver.
  - intros He. destruct (overlap r f) eqn:?; [|done]. destruct H as [H _]. destruct (H eq_refl) as (env & H1 & H2).
    by rewrite (He _ H1) in H2.
Qed.

Lemma CheckPresence_spec r f : CheckPresence r f = Ok () <-> shaped r /\ shaped f /\ exclusive r f.
Proof.
  unfold CheckPresence. rewrite !bind_Ok. split.
  - intros ([] & H1 & H2). apply bind_Ok in H2 as ([] & H2 & H3).
    apply checkPresenceShape_spec in H1, H2. destruct (overlap r f) eqn:Ho; [done|]. by apply overlap_exclusive in Ho.
  - intros (H1 & H2 & H3). exists (). split; [by apply checkPresenceShape_spec|]. apply bind_Ok.
    exists (). split; [by apply checkPresenceShape_spec|]. by apply overlap_exclusive in H3 as ->.
Qed.

Lemma refuse_either (b1 b2 : bool) msg : (if b1 || b2 then declErr msg else Ok ()) = Ok () <-> b1 = false /\ b2 = false.
Proof. destruct b1, b2; cbn; naive_solver. Qed.

(** Presence rules are accepted exactly when they are satisfiable. A key's
    [required_in] and [forbidden_in] pass [CheckPresence] iff each carries the
    environment list its mode admits (none for [none] and [all]; for
    [explicit] a non-empty one, without repeats or empty ids) and no
    environment at all is covered by both; and of two keys that pass, one
    group may hold both ([CheckGroupPresence]) iff no environment requires one
    of them and forbids the other, in either direction. *)
Theorem presence_rules_consistent (a b : PresenceRules) :
  (CheckPresence (Required a) (Forbidden a) = Ok () <->
   shaped (Required a) /\ shaped (Forbidden a) /\
   (forall env, Covers (Required a) env && Covers (Forbidden a) env = false)) /\
  (CheckPresence (Required a) (Forbidden a) = Ok () -> CheckPresence (Required b) (Forbidden b) = Ok () ->
   CheckGroupPresence a b = Ok () <->
   (forall env, Covers (Required a) env && Covers (Forbidden b) env = false /\
                Covers (Required b) env && Covers (Forbidden a) env = false)).
Proof.
  assert (forall r f, exclusive r f <-> forall env, Covers r env && Covers f env = false) as He.
  { intros r f. unfold exclusive. split; intros H env; specialize (H env);
      destruct (Covers r env), (Covers f env); naive_solver. }
  split; [rewrite CheckPresence_spec, He; done|].
  intros (Ha1 & Ha2 & _)%CheckPresence_spec (Hb1 & Hb2 & _)%CheckPresence_spec. unfold CheckGroupPresence.
  pose proof (overlap_exclusive _ _ Ha1 Hb2) as E1. pose proof (overlap_exclusive _ _ Hb1 Ha2) as E2.
  rewrite He in E1, E2.
  rewrite refuse_either, E1, E2. split; [intros [H1 H2] env; auto|intros H; split; intros env; apply H].
Qed.

Lemma presence_rules_consistent_witness :
  let prod := MkPresenceRules (MkPresence PresenceExplicit ["prod"]) (MkPresence PresenceExplicit ["dev"]) in
  CheckGroupPresence prod DefaultPresenceRules = Ok ().
Proof.
  intros prod. refine (proj2 (proj2 (presence_rules_consistent prod DefaultPresenceRules) _ _) _); [reflexivity..|].
  intros env. split; [|reflexivity]. cbn [Forbidden DefaultPresenceRules]. unfold Covers at 2. cbn. apply andb_false_r.
Defined.

(** ** Duplicate keys *)
Section jdoc_ind.
Context (P : jdoc -> Prop)
  (HA : forall t, P (DAtom t)) (HS : forall s, P (DString s))
  (HL : forall items, Forall P items -> P (DArray items))
  (HO : forall ms, Forall (fun m => P m.2) ms -> P (DObject ms)).

Fixpoint jdoc_induction (d : jdoc) : P d :=
  match d with
  | DAtom t => HA t
  | DString s => HS s
  | DArray items => HL items ((fix go l : Forall P l := match l with [] => List.Forall_nil _ | x :: l' => List.Forall_cons _ x l' (jdoc_induction x) (go l') end) items)
  | DObject ms => HO ms ((fix go l : Forall (fun m => P m.2) l := match l with [] => List.Forall_nil _ | x :: l' => List.Forall_cons _ x l' (jdoc_induction x.2) (go l') end) ms)
  end.
End jdoc_ind.

(** Every object of the document, at any depth, has distinct member names. *)
Fixpoint keysDistinct (d : jdoc) : bool :=
  match d with
  | DArray items => forallb keysDistinct items
  | DObject ms => bool_decide (NoDup (map fst ms)) && forallb (fun m => keysDistinct m.2) ms
  | _ => true
  end.

Definition duplicateError (r : result ()) : Prop := exists name, r = Err (EWrap name errDuplicateKey).

(** The innermost frame is not waiting for a member name. *)
Definition valueSlot (stack : list frame) : Prop :=
  match stack with f :: _ => f_object f && f_expectKey f = false | [] => True end.

Definition walksAs (d : jdoc) : Prop := forall ts stack, valueSlot stack ->
  if keysDistinct d then dupWalk (tokens d ++ ts) stack = dupWalk ts (fillSlot stack)
  else duplicateError (dupWalk (tokens d ++ ts) stack).

Lemma dupWalk_items items ts stack : Forall walksAs items ->
  let inner := MkFrame false [] false :: stack in
  if forallb keysDistinct items then dupWalk (flat_map tokens items ++ ts) inner = dupWalk ts inner
  else duplicateError (dupWalk (flat_map tokens items ++ ts) inner).
Proof.
  intros Hall inner. induction Hall as [|d items Hd _ IH]; [done|].
  cbn [flat_map forallb]. rewrite <- app_assoc. specialize (Hd (flat_map tokens items ++ ts) inner eq_refl).
  destruct (keysDistinct d); cbn [andb]; [|exact Hd]. destruct (forallb keysDistinct items); rewrite Hd; exact IH.
Qed.

Lemma dupWalk_members ms ts stack : Forall (fun m => walksAs m.2) ms -> forall seen,
  let after := flat_map (fun m => TString m.1 :: tokens m.2) ms ++ TDelim false true :: ts in
  if bool_decide (NoDup (map fst ms)) && bool_decide (Forall (fun m => m.1 ∉ seen) ms) && forallb (fun m => keysDistinct m.2) ms
  then dupWalk after (MkFrame true seen true :: stack) = dupWalk ts stack
  else duplicateError (dupWalk after (MkFrame true seen true :: stack)).
Proof.
  intros Hall. induction Hall as [|[k d] ms Hd _ IH]; intros seen; [done|].
  cbn [flat_map map fst snd forallb]. cbn zeta. cbn [app dupWalk f_object f_expectKey f_seen andb].
  destruct (contains seen k) eqn:Hseen.
  { rewrite (bool_decide_eq_false_2 (Forall _ (_ :: _))), andb_false_r; [by exists k|].
    intros [H _]%Forall_cons. apply H, list_elem_of_In, contains_In, Hseen. }
  apply contains_not_In in Hseen. rewrite <- app_assoc. cbn [snd] in Hd.
  specialize (Hd (flat_map (fun m => TString m.1 :: tokens m.2) ms ++ TDelim false true :: ts) (MkFrame true (k :: seen) false :: stack) eq_refl).
  destruct (keysDistinct d); cbn [andb]; [|rewrite andb_false_r; exact Hd].
  rewrite Hd. cbn [fillSlot f_object f_seen]. specialize (IH (k :: seen)). cbn zeta in IH.
  replace (bool_decide (NoDup (k :: map fst ms)) && bool_decide (Forall (fun m => m.1 ∉ seen) ((k, d) :: ms)))
    with (bool_decide (NoDup (map fst ms)) && bool_decide (Forall (fun m => m.1 ∉ k :: seen) ms)); [exact IH|].
  rewrite <- !bool_decide_and. apply bool_decide_ext.
  rewrite NoDup_cons, Forall_cons, !Forall_forall. cbn. rewrite list_elem_of_fmap. rewrite list_elem_of_In. set_solver.
Qed.

Lemma tokens_walk d : walksAs d.
Proof.
  induction d as [t|s|items IH|ms IH] using jdoc_induction; intros ts stack Hslot.
  1,2: destruct stack as [|f rest]; cbn; [done|]; cbn in Hslot; rewrite Hslot; done.
  - cbn [tokens keysDistinct app dupWalk]. rewrite <- app_assoc. cbn [app].
    pose proof (dupWalk_items items (TDelim false false :: ts) (fillSlot stack) IH) as H. cbn zeta in H.
    destruct (forallb keysDistinct items); [rewrite H; done|exact H].
  - cbn [tokens keysDistinct app dupWalk]. rewrite <- app_assoc. cbn [app].
    pose proof (dupWalk_members ms ts (fillSlot stack) IH []) as H. cbn zeta in H.
    rewrite (bool_decide_eq_true_2 (Forall _ _)), andb_true_r in H; [exact H|]. apply Forall_forall. set_solver.
Qed.

(** The token walk refuses repeated keys exactly. [checkNoDuplicateKeys]
    never panics; it accepts a document iff every object in it, at every depth
    and inside arrays, has distinct member names, and otherwise answers the
    duplicate-key error that the validator reports as [duplicate_key] (so
    [encoding/json]'s last-wins reading is never reached). *)
Theorem duplicate_keys_refused (d : jdoc) :
  (keysDistinct d = true /\ checkNoDuplicateKeys d = Ok ()) \/
  (keysDistinct d = false /\ exists name, checkNoDuplicateKeys d = Err (EWrap name errDuplicateKey)).
Proof.
  pose proof (tokens_walk d [] [] I) as H. rewrite app_nil_r in H. unfold checkNoDuplicateKeys.
  destruct (keysDistinct d); [left|right]; auto.
Qed.

Lemma checkNoDuplicateKeys_Ok d : checkNoDuplicateKeys d = Ok () <-> keysDistinct d = true.
Proof.
  pose proof (tokens_walk d [] [] I) as H. rewrite app_nil_r in H. unfold checkNoDuplicateKeys.
  destruct (keysDistinct d); [done|]. destruct H as [? ->]. done.
Qed.

Lemma strictJSON_Ok E raw d : strictJSON E raw = Ok d <-> decode E raw = Some d /\ keysDistinct d = true.
Proof.
  unfold strictJSON. rewrite <- checkNoDuplicateKeys_Ok. destruct (decode E raw) as [d'|]; [|naive_solver].
  rewrite bind_Ok. split.
  - intros ([] & H & [= <-]). done.
  - intros [[= <-] H]. exists (). done.
Qed.

Lemma strictJSON_no_panic E raw : is_panic (strictJSON E raw) = false.
Proof.
  unfold strictJSON. destruct (decode E raw) as [d|]; [|done]. apply bind_no_panic; [|done].
  pose proof (tokens_walk d [] [] I) as H. rewrite app_nil_r in H. unfold checkNoDuplicateKeys.
  destruct (keysDistinct d); [by rewrite H|by destruct H as [? ->]].
Qed.

(** ** Integers *)

(** The value of a decimal integer, at any width. *)
Definition intValue (v : bytes) : option Z :=
  match CutPrefix [MINUS] v with
  | Some rest => if digits1 rest then Some (- decimal rest) else None
  | None => if digits1 v then Some (decimal v) else None
  end.

Lemma forallb_TrimLeft f cut s : forallb f s = true -> forallb f (TrimLeft cut s) = true.
Proof. induction s as [|c s IH]; cbn; [done|]. intros H. destruct (cut c); [bools; auto|exact H]. Qed.

Lemma decimal_TrimLeft s : decimal (TrimLeft (Ascii.eqb (chr 48)) s) = decimal s.
Proof.
  unfold decimal. induction s as [|c s IH]; [done|]. cbn [TrimLeft]. destruct (Ascii.eqb_spec (chr 48) c) as [<-|]; [exact IH|done].
Qed.

Lemma decimal_nonneg s : forallb digit s = true -> 0 <= decimal s.
Proof.
  unfold decimal. enough (forall n, 0 <= n -> forallb digit s = true -> 0 <= foldl (fun n c => 10 * n + (ord c - 48)) n s) by (intros; auto with lia).
  induction s as [|c s IH]; cbn; [done|]. intros n Hn H. apply andb_prop in H as [Hc H]. apply IH; [|done].
  apply in_range_spec in Hc. lia.
Qed.

Lemma digits_no_sign s : digits1 s = true -> CutPrefix [MINUS] s = None.
Proof.
  destruct s as [|c s]; [done|]. cbn [digits1 forallb CutPrefix]. intros H. apply andb_prop in H as [H _].
  destruct (Ascii.eqb_spec MINUS c) as [<-|]; [done|done].
Qed.

(** The digits [canonicalInteger] leaves. *)
Definition stripped (s : bytes) : bytes := match TrimLeft (Ascii.eqb (chr 48)) s with [] => [chr 48] | _ => TrimLeft (Ascii.eqb (chr 48)) s end.

Lemma stripped_spec s : digits1 s = true -> digits1 (stripped s) = true /\ decimal (stripped s) = decimal s.
Proof.
  intros H. assert (forallb digit s = true) as Hd by (destruct s; done).
  pose proof (decimal_TrimLeft s) as Hv. pose proof (forallb_TrimLeft _ (Ascii.eqb (chr 48)) s Hd) as Hf. unfold stripped.
  destruct (TrimLeft _ s); [rewrite <- Hv; done|done].
Qed.

Definition int64 (n : Z) : bool := (- 2 ^ 63 <=? n) && (n <? 2 ^ 63).

Lemma ParseInt_canonical v :
  match intValue v with
  | None => integerRe v = false
  | Some n => integerRe v = true /\ ParseInt (canonicalInteger v) = if int64 n then Some n else None
  end.
Proof.
  unfold intValue, integerRe, canonicalInteger. destruct (CutPrefix [MINUS] v) as [rest|] eqn:Hp.
  - destruct (digits1 rest) eqn:Hd; [|done]. split; [done|]. fold (stripped rest).
    destruct (stripped_spec rest Hd) as [H1 H2]. unfold ParseInt. cbn [CutPrefix app]. rewrite Ascii.eqb_refl, H1, H2.
    assert (0 <= decimal rest) by (apply decimal_nonneg; by destruct rest).
    unfold int64. destruct (Z.ltb_spec (2 ^ 63) (decimal rest)), (Z.leb_spec (- 2 ^ 63) (- decimal rest)), (Z.ltb_spec (- decimal rest) (2 ^ 63)); cbn; lia || done.
  - destruct (digits1 v) eqn:Hd; [|done]. split; [done|]. fold (stripped v). cbn [app].
    destruct (stripped_spec v Hd) as [H1 H2]. unfold ParseInt. rewrite (digits_no_sign _ H1), H1, H2.
    assert (0 <= decimal v) by (apply decimal_nonneg; by destruct v).
    unfold int64. destruct (Z.leb_spec (2 ^ 63) (decimal v)), (Z.leb_spec (- 2 ^ 63) (decimal v)), (Z.ltb_spec (decimal v) (2 ^ 63)); cbn; lia || done.
Qed.

(** ** Acceptance *)
Section Acceptance.
Context (E : Engine) (eval : Z -> JS E -> jdoc -> evalOutcome).

Definition within (lo hi : option Z) (n : Z) : Prop :=
  (forall b, lo = Some b -> b <= n) /\ (forall b, hi = Some b -> n <= b).

(** What a value must be for a rule to accept it, read off the rule itself. *)
Inductive accepts (alt : Z) (r : Rule) (v : bytes) : Prop :=
  | accepts_string : r_Type r = TypeString ->
      (v = [] -> r_AllowEmpty r = true) -> within (r_MinLength r) (r_MaxLength r) (RuneCount v) ->
      (r_Pattern r <> [] -> exists re, re_Compile E (anchor (r_Pattern r)) = Some re /\ re_MatchString E re v = true) ->
      accepts alt r v
  | accepts_integer n : r_Type r = TypeInteger ->
      intValue v = Some n -> - 2 ^ 63 <= n < 2 ^ 63 -> within (r_Min r) (r_Max r) n -> accepts alt r v
  | accepts_boolean : r_Type r = TypeBoolean -> v = B "true" \/ v = B "false" -> accepts alt r v
  | accepts_enum : r_Type r = TypeEnum -> In v (r_Members r) -> accepts alt r v
  | accepts_url scheme : r_Type r = TypeURL ->
      scheme <> [] -> url_Parse E v = Some (scheme, []) -> In (ToLower E scheme) (r_Schemes r) -> accepts alt r v
  | accepts_json doc : r_Type r = TypeJSON ->
      decode E v = Some doc -> keysDistinct doc = true ->
      (r_JSONSchema r <> [] -> exists sch,
         compileJSONSchema (UnmarshalJSON E) (libCompile E) (String.string_of_list_ascii (r_JSONSchema r)) = Ok sch /\
         eval alt sch doc = evalCompleted None) ->
      accepts alt r v.

(** What compilation leaves beside the rule. *)
Definition compiledFrom (r : Rule) (cr : compiledRule E) : Prop :=
  cr_rule E cr = r /\
  ((r_Type r = TypeString /\ cr_pattern E cr = match r_Pattern r with [] => None | p => re_Compile E (anchor p) end /\
      (r_Pattern r <> [] -> is_Some (cr_pattern E cr))) \/
   r_Type r = TypeInteger \/ r_Type r = TypeBoolean \/ r_Type r = TypeEnum \/ r_Type r = TypeURL \/
   (r_Type r = TypeJSON /\ match r_JSONSchema r with
      | [] => cr_schema E cr = None
      | raw => exists sch, compileJSONSchema (UnmarshalJSON E) (libCompile E) (String.string_of_list_ascii raw) = Ok sch /\
                           cr_schema E cr = Some sch
      end)).

Lemma compileRule_inv r cr : compileRule E r = Ok cr -> compiledFrom r cr.
Proof.
  unfold compileRule, compiledFrom. intros H.
  do 9 (match type of H with (if ?b then _ else _) = _ => destruct b; [discriminate H|] end).
  destruct (r_Type r =s TypeString) eqn:T1; string_eqs.
  { destruct (negative (r_MinLength r)), (negative (r_MaxLength r)), (exceeds (r_MinLength r) (r_MaxLength r)); try discriminate H.
    destruct (r_Pattern r) as [|c p] eqn:Hp; [injection H as <-; cbn; naive_solver|].
    apply bind_Ok in H as (re & Hc & [= <-]). cbn. split; [done|]. left. split; [done|].
    unfold compilePattern in Hc. destruct (_ <? _); [done|]. destruct (re_Compile E _); [|done]. injection Hc as ->. eauto. }
  destruct (r_Type r =s TypeInteger) eqn:T2; string_eqs.
  { destruct (exceeds _ _); [done|]. injection H as <-. cbn. auto. }
  destruct (r_Type r =s TypeBoolean) eqn:T3; string_eqs; [injection H as <-; cbn; auto|].
  destruct (r_Type r =s TypeEnum) eqn:T4; string_eqs; [apply bind_Ok in H as (? & _ & [= <-]); cbn; auto 10|].
  destruct (r_Type r =s TypeURL) eqn:T5; string_eqs; [apply bind_Ok in H as (? & _ & [= <-]); cbn; auto 10|].
  destruct (r_Type r =s TypeJSON) eqn:T6; string_eqs; [|done].
  destruct (r_JSONSchema r) as [|c raw]; [injection H as <-; cbn; auto 10|].
  apply bind_Ok in H as (sch & Hc & [= <-]). cbn. split; [done|]. do 5 right. eauto.
Qed.

Lemma flatten_nonempty e : flattenValidationError e <> [].
Proof.
  revert e. fix IH 1. intros [self causes]. destruct causes as [|c cs]; [discriminate|].
  change (flattenValidationError c ++ flat_map flattenValidationError cs <> []).
  intros [H _]%app_eq_nil. exact (IH c H).
Qed.

Lemma jsonSchemaFailures_nil o cls alt : jsonSchemaFailures o cls alt = [] <-> o = evalCompleted None.
Proof.
  destruct o as [[[e|]|]| |]; cbn; try naive_solver.
  split; [|done]. intros H%map_eq_nil. by destruct (flatten_nonempty e).
Qed.

Lemma below_spec lo n : below lo n = false <-> (forall b, lo = Some b -> b <= n).
Proof. destruct lo as [b|]; cbn; [rewrite Z.ltb_ge|]; naive_solver. Qed.

Lemma above_spec hi n : above hi n = false <-> (forall b, hi = Some b -> n <= b).
Proof. destruct hi as [b|]; cbn; [rewrite Z.ltb_ge|]; naive_solver. Qed.

Lemma if_cons_nil {A} (b : bool) (x : A) : (if b then [x] else []) = [] <-> b = false.
Proof. destruct b; naive_solver. Qed.

Lemma seenKey_In l v : seenKey l v = true <-> In v l.
Proof.
  unfold seenKey. rewrite existsb_exists. split.
  - intros (x & Hx & ->%bool_decide_eq_true). done.
  - intros H. exists v. split; [done|]. by apply bool_decide_eq_true.
Qed.

(** Decides the type tests of a rule whose type is known. *)
Ltac pick_type HT :=
  unfold rule_validate; cbv zeta; rewrite HT;
  repeat match goal with |- context [?a =s ?b] =>
    let v := eval vm_compute in (a =s b) in change (a =s b) with v; cbv iota
  end.

(** Inverts acceptance by a rule of known type. *)
Ltac by_type HT Hacc := destruct Hacc; match goal with H : r_Type _ = _ |- _ => rewrite HT in H; try discriminate H end.

Lemma string_accepts cr alt cls v : r_Type (cr_rule E cr) = TypeString -> compiledFrom (cr_rule E cr) cr ->
  rule_validate E eval cr v cls alt = [] <-> accepts alt (cr_rule E cr) v.
Proof.
  intros HT [_ [(_ & Hp & Hs)|Hc]]; [|rewrite HT in Hc; naive_solver]. pick_type HT.
  assert (match cr_pattern E cr with Some re => negb (re_MatchString E re v) | None => false end = false <->
    (r_Pattern (cr_rule E cr) <> [] -> exists re, re_Compile E (anchor (r_Pattern (cr_rule E cr))) = Some re /\ re_MatchString E re v = true)) as Hpat.
  { destruct (r_Pattern _) as [|c p]; [rewrite Hp; naive_solver|]. rewrite <- Hp. destruct Hs as [re ->]; [done|].
    rewrite negb_false_iff. naive_solver. }
  destruct (bool_decide (v = []) && negb (r_AllowEmpty (cr_rule E cr))) eqn:He.
  - bools. rewrite bool_decide_eq_true in *. split; [done|]. intros Hacc. by_type HT Hacc. exfalso; intuition congruence.
  - rewrite !app_nil, !if_cons_nil, below_spec, above_spec, Hpat. split.
    + intros (Hlo & Hhi & Hm). apply accepts_string; [done| |done|done].
      intros ->. destruct (r_AllowEmpty _); done.
    + intros Hacc. by_type HT Hacc. unfold within in *. tauto.
Qed.

Lemma integer_accepts cr alt cls v : r_Type (cr_rule E cr) = TypeInteger ->
  rule_validate E eval cr v cls alt = [] <-> accepts alt (cr_rule E cr) v.
Proof.
  intros HT. pick_type HT. pose proof (ParseInt_canonical v) as H. destruct (intValue v) as [n|] eqn:Hn.
  - destruct H as [-> ->]. cbn [negb]. unfold int64. destruct (Z.leb_spec (- 2 ^ 63) n), (Z.ltb_spec n (2 ^ 63)); cbn [andb].
    2-4: split; [done|]; intros Hacc; by_type HT Hacc; simplify_eq; lia.
    rewrite app_nil, !if_cons_nil, below_spec, above_spec. split; [intros; by apply (accepts_integer _ _ _ n)|].
    intros Hacc. by_type HT Hacc. simplify_eq. done.
  - rewrite H. split; [done|]. intros Hacc. by_type HT Hacc. congruence.
Qed.

Lemma other_accepts cr alt cls v : compiledFrom (cr_rule E cr) cr ->
  r_Type (cr_rule E cr) <> TypeString -> r_Type (cr_rule E cr) <> TypeInteger ->
  rule_validate E eval cr v cls alt = [] <-> accepts alt (cr_rule E cr) v.
Proof.
  intros [_ Hc] Hns Hni. destruct Hc as [[? _]|[?|[HT|[HT|[HT|[HT Hs]]]]]]; [done|done|..]; pick_type HT.
  - destruct (bool_decide_reflect (v = B "true")); [by split; [intros; apply accepts_boolean; auto|]|].
    destruct (bool_decide_reflect (v = B "false")); [by split; [intros; apply accepts_boolean; auto|]|].
    split; [done|]. intros Hacc. by_type HT Hacc. tauto.
  - destruct (seenKey _ v) eqn:Hk; split; try done.
    + intros _. apply accepts_enum; [done|]. by apply seenKey_In.
    + intros Hacc. by_type HT Hacc. rewrite (proj2 (seenKey_In _ _)) in Hk by eassumption. done.
  - destruct (url_Parse E v) as [[[|c scheme] [|]]|] eqn:Hu;
      try (split; [done|]; intros Hacc; by_type HT Hacc; congruence).
    destruct (seenKey _ _) eqn:Hk; split; try done.
    + intros _. apply (accepts_url _ _ _ (c :: scheme)); try done. by apply seenKey_In.
    + intros Hacc. by_type HT Hacc. simplify_eq. rewrite (proj2 (seenKey_In _ _)) in Hk by eassumption. done.
  - pose proof (strictJSON_Ok E v) as Hj. pose proof (strictJSON_no_panic E v) as Hp.
    destruct (strictJSON E v) as [doc|e|p]; [|destruct (errors_Is e _)|done].
    2-3: split; [done|]; intros Hacc; by_type HT Hacc;
      match goal with Hd : decode _ _ = Some ?d, Hk : keysDistinct ?d = true |- _ => discriminate (proj2 (Hj d) (conj Hd Hk)) end.
    destruct (proj1 (Hj doc) eq_refl) as [Hd Hk].
    destruct (r_JSONSchema _) as [|c raw] eqn:Hr.
    + rewrite Hs. split; [|done]. intros _. by apply (accepts_json _ _ _ doc); rewrite ?Hr.
    + destruct Hs as (sch & Hsch & ->). rewrite jsonSchemaFailures_nil, <- Hr in *. split.
      * intros He. apply (accepts_json _ _ _ doc); eauto.
      * intros Hacc. by_type HT Hacc. simplify_eq.
        match goal with H : _ -> exists _, _ |- _ => destruct H as (sch' & ? & ?); [by rewrite Hr|] end. congruence.
Qed.

Lemma rule_accepts r cr alt cls v : compileRule E r = Ok cr ->
  rule_validate E eval cr v cls alt = [] <-> accepts alt r v.
Proof.
  intros H%compileRule_inv. pose proof H as [<- _].
  destruct (decide (r_Type (cr_rule E cr) = TypeString)); [by apply string_accepts|].
  destruct (decide (r_Type (cr_rule E cr) = TypeInteger)); [by apply integer_accepts|by apply other_accepts].
Qed.

Lemma compileAll_Forall2 rs : forall crs, compileAll E rs = Ok crs -> Forall2 (fun r cr => compileRule E r = Ok cr) rs crs.
Proof.
  induction rs as [|r rs IH]; cbn; intros crs H; [injection H as <-; constructor|].
  apply bind_Ok in H as (c & Hc & H). apply bind_Ok in H as (cs & Hcs & [= <-]). constructor; auto.
Qed.

(** What a compilation answers, and what it has checked. *)
Lemma CompileClassified_inv cls d c : CompileClassified E cls d = Ok c ->
  Classification_Valid cls = true /\ c_classification E c = cls /\ normalizeForCompile E d = Ok (c_decl E c) /\
  checkDeclarationClassification E cls (c_decl E c) = Ok () /\
  Forall2 (fun r cr => compileRule E r = Ok cr) (alternatives (c_decl E c)) (c_alts E c).
Proof.
  unfold CompileClassified. destruct (Classification_Valid cls); [|done]. cbn [negb].
  intros (norm & Hn & H)%bind_Ok. apply bind_Ok in H as ([] & Hc & H). apply bind_Ok in H as (alts & Ha & [= <-]).
  cbn. split_and!; auto using compileAll_Forall2.
Qed.

Lemma validateAlts_None single cls v rs crs : Forall2 (fun r cr => compileRule E r = Ok cr) rs crs -> forall i all,
  validateAlts E eval single cls v i crs all = None <->
  exists k r, rs !! k = Some r /\ accepts (if single then -1 else i + Z.of_nat k) r v.
Proof.
  induction 1 as [|r cr rs crs Hc _ IH]; intros i all; cbn [validateAlts].
  { split; [done|]. intros (k & r & H & _). by rewrite lookup_nil in H. }
  pose proof (rule_accepts r cr (if single then -1 else i) cls v Hc) as Ha.
  destruct (rule_validate E eval cr v cls _) as [|f fs].
  - split; [|done]. intros _. exists 0%nat, r. split; [done|]. rewrite Z.add_0_r. by apply Ha.
  - rewrite IH. split.
    + intros (k & r' & Hk & Hr). exists (S k), r'. split; [done|]. replace (i + Z.of_nat (S k)) with (i + 1 + Z.of_nat k) by lia. done.
    + intros ([|k] & r' & Hk & Hr); [exfalso|].
      * injection Hk as ->. rewrite Z.add_0_r in Hr. by apply Ha in Hr.
      * exists k, r'. split; [done|]. replace (i + 1 + Z.of_nat k) with (i + Z.of_nat (S k)) by lia. done.
Qed.

Definition lexicallyValid (v : bytes) : Prop := blen v <= MaxValueBytes /\ ValidString v = true /\ hasByte NUL v = false.

Definition single (d : Declaration) : bool := negb (isNone (d_Rule d)).
End Acceptance.

(** C35. A verdict is valid exactly when some alternative of the declaration
    accepts. For a declaration that compiles, the trimmed value is valid iff it
    is within the byte budget, is UTF-8 without NUL, and one of the normalized
    alternatives accepts it by its own meaning: string length in runes and an
    anchored pattern; an integer of any number of leading zeros whose value
    fits signed 64-bit and the declared bounds; the two booleans; a listed
    member; an absolute non-opaque URL of a listed scheme; one JSON document
    without repeated keys whose schema, admitted by the profile, was evaluated
    to completion without error. An overrun or refused evaluation never
    accepts. *)
Theorem validate_exact (E : Engine) (eval : Z -> JS E -> jdoc -> evalOutcome) (cls : string) (d : Declaration)
    (c : Compiled E) (value : bytes) (Hc : CompileClassified E cls d = Ok c) :
  exists norm, normalizeForCompile E d = Ok norm /\
  (Valid (Validate E eval c value) = true <->
   lexicallyValid (Normalize value) /\
   exists k r, alternatives norm !! k = Some r /\
     accepts E eval (if single norm then -1 else Z.of_nat k) r (Normalize value)).
Proof.
  apply CompileClassified_inv in Hc as (_ & _ & Hn & _ & Hall). exists (c_decl E c). split; [done|].
  pose proof (validateAlts_None E eval (single (c_decl E c)) (c_classification E c) (Normalize value) _ _ Hall 0 []) as Hv.
  unfold Validate, lexicallyValid. fold (single (c_decl E c)).
  destruct (Z.ltb_spec MaxValueBytes (blen (Normalize value))); [split; [done|lia]|].
  destruct (ValidString (Normalize value)); [cbn [negb]|split; naive_solver].
  destruct (hasByte NUL (Normalize value)); [split; naive_solver|].
  destruct (validateAlts _ _ _ _ _ _ _ _); cbn [Valid].
  - split; [done|]. intros [_ Hk]. by apply Hv in Hk.
  - split; [|done]. intros _. split; [done|]. by apply Hv.
Qed.

(** A concrete engine: patterns match literally, the JSON documents are the
    empty object and one with a repeated key, every schema is admitted. *)
Definition sampleEngine : Engine := {|
  RE := bytes; JS := unit;
  re_Compile p := Some p;
  re_MatchString re v := bool_decide (re = anchor v);
  decode raw := if bool_decide (raw = B "{}") then Some (DObject [])
                else if bool_decide (raw = B "{dup}") then Some (DObject [("a", DAtom "1"); ("a", DAtom "2")]) else None;
  reencode _ := B "{}";
  UnmarshalJSON _ := Some (JObject []);
  libCompile _ := Some ();
  url_Parse v := match Cut (chr 58) v with Some (s, _) => Some (s, []) | None => None end;
  ToLower v := v |}.

Definition intRule : Rule := MkRule TypeInteger None None [] false (Some 1) (Some 65535) [] [] [].
Definition jsonRule : Rule := MkRule TypeJSON None None [] false None None [] [] (B "{}").
Definition sampleDecl : Declaration := MkDeclaration None [intRule; jsonRule].

Lemma validate_exact_witness :
  match CompileClassified sampleEngine Config sampleDecl with
  | Ok c => Valid (Validate sampleEngine (fun _ _ _ => evalOverran) c (B " 00080 ")) = true /\
            Valid (Validate sampleEngine (fun _ _ _ => evalOverran) c (B "{}")) = false
  | _ => False
  end.
Proof.
  destruct (CompileClassified sampleEngine Config sampleDecl) as [c|e|p] eqn:Hc; [|vm_compute in Hc; discriminate..].
  destruct (validate_exact sampleEngine (fun _ _ _ => evalOverran) Config sampleDecl c (B " 00080 ") Hc) as (norm & Hn & Hv).
  vm_compute in Hn. injection Hn as <-. split.
  - apply Hv. split; [vm_compute; intuition discriminate|]. exists 0%nat, intRule. split; [reflexivity|].
    apply (accepts_integer _ _ _ _ _ 80); [reflexivity..| |split; intros b [= <-]]; vm_compute; intuition discriminate.
  - vm_compute in Hc. injection Hc as <-. vm_compute. reflexivity.
Defined.

(** ** Caps *)
Lemma trimTo_length s n : (length (trimTo s n) <= n)%nat.
Proof. induction n as [|n IH]; cbn [trimTo]; [cbn; lia|]. destruct (ValidString _); [rewrite length_take|]; lia. Qed.

Lemma trimRunes_shorter s n : s <> [] -> (length (trimRunes s n) < length s)%nat.
Proof.
  intros Hs. unfold trimRunes. assert (0 < length s)%nat by (destruct s; [done|cbn; lia]).
  pose proof (trimTo_length s (if (length s <=? n)%nat then pred (length s) else n)).
  destruct (Nat.leb_spec (length s) n); lia.
Qed.

(** The envelope of one failure without text fits the cap. *)
Definition fits (alt : Z) : Prop := encodedSize [MkFailure alt [] [] []] <= MaxVerdictErrorBytes.

Lemma truncateLoop_fits fuel : forall f, InstancePath f = [] -> fits (Alternative f) ->
  (length (Message f) + length (Keyword f) < fuel)%nat ->
  encodedSize [truncateLoop fuel f] <= MaxVerdictErrorBytes.
Proof.
  induction fuel as [|k IH]; intros f Hp Hf Hlen; [lia|]. cbn [truncateLoop].
  destruct (Z.ltb_spec MaxVerdictErrorBytes (encodedSize [f])); [|lia].
  destruct (Message f) as [|b m] eqn:Hm.
  - destruct (Keyword f) as [|b kw] eqn:Hk.
    + destruct f as [alt kw' m' p']; cbn in *. subst. exact Hf.
    + apply IH; [done..|]. cbn [Message Keyword].
      pose proof (trimRunes_shorter (b :: kw) ((length (b :: kw) + 1) / 2) ltac:(done)). cbn [length] in *. lia.
  - apply IH; [done..|]. cbn [Message Keyword].
    pose proof (trimRunes_shorter (b :: m) ((length (b :: m) + 1) / 2) ltac:(done)). cbn [length] in *. lia.
Qed.

Lemma truncateFailure_fits f : fits (Alternative f) -> encodedSize [truncateFailure f] <= MaxVerdictErrorBytes.
Proof. intros. apply truncateLoop_fits; cbn; [done..|lia]. Qed.

(** What [capFailures] maintains of the list it keeps. *)
Definition capped (out : list Failure) : Prop :=
  NoDup out /\ (length out <= MaxVerdictErrors)%nat /\ encodedSize out <= MaxVerdictErrorBytes.

Lemma capLoop_capped rest : forall seen out, capped out -> (forall f, f ∈ out -> f ∈ seen) -> capped (capLoop seen out rest).
Proof.
  induction rest as [|f rest IH]; intros seen out Hout Hseen; cbn [capLoop]; [done|].
  destruct (bool_decide_reflect (f ∈ seen)) as [|Hn]; [auto|].
  destruct (Nat.leb_spec MaxVerdictErrors (length out)); [done|].
  destruct (Z.ltb_spec MaxVerdictErrorBytes (encodedSize (out ++ [f]))); [done|].
  destruct Hout as (Hnd & _ & _). apply IH.
  - split_and!; [|rewrite length_app; cbn; lia|done]. apply NoDup_app. split_and!; [done| |apply NoDup_singleton]. set_solver.
  - set_solver.
Qed.

Lemma capFailures_capped input : Forall (fun f => fits (Alternative f)) input -> capped (capFailures input) /\ (input <> [] -> capFailures input <> []).
Proof.
  intros Hfit. assert (capped (capLoop [] [] input)) as Hc.
  { apply capLoop_capped; [|done]. split_and!; [constructor|cbn; lia|by vm_compute]. }
  unfold capFailures. destruct (capLoop [] [] input) as [|g out] eqn:Hout; [|done].
  destruct input as [|f input]; [done|]. split; [|done].
  split_and!; [apply NoDup_singleton|cbn; unfold MaxVerdictErrors; lia|]. apply Forall_cons in Hfit as [Hfit _]. by apply truncateFailure_fits.
Qed.

(** *** What is kept *)

(** The failures met for the first time. *)
Fixpoint firsts (seen fs : list Failure) : list Failure :=
  match fs with
  | [] => []
  | f :: fs' => if bool_decide (f ∈ seen) then firsts seen fs' else f :: firsts (f :: seen) fs'
  end.

Definition oversized (fs : list Failure) : Prop := MaxVerdictErrorBytes < encodedSize fs.

(** [t] is [s] cut to at most half its length, rounded up and less than the whole,
    at the last rune boundary there. *)
Definition half (s : bytes) : nat := Nat.min ((length s + 1) / 2) (pred (length s)).
Record halved (s t : bytes) : Prop := {
  hv_prefix : t `prefix_of` s;
  hv_short : (length t <= half s)%nat;
  hv_boundary : t = [] \/ ValidString t = true;
  hv_longest : forall n, (length t < n <= half s)%nat -> ValidString (take n s) = false }.

(** What a failure that does not fit on its own is reported as: without its
    instance path, and if that is still too large with its message halved until
    it fits; only when the keyword does not fit with no message at all is the
    keyword halved. *)
Inductive cutOf (f : Failure) : Failure -> Prop :=
  | cut_path : cutOf f (MkFailure (Alternative f) (Keyword f) (Message f) [])
  | cut_message m m' : m `prefix_of` Message f -> oversized [MkFailure (Alternative f) (Keyword f) m []] -> halved m m' ->
      cutOf f (MkFailure (Alternative f) (Keyword f) m' [])
  | cut_keyword kw kw' : kw `prefix_of` Keyword f -> oversized [MkFailure (Alternative f) kw [] []] -> halved kw kw' ->
      cutOf f (MkFailure (Alternative f) kw' [] []).

(** The list reported for the failures found: the distinct ones in order, up to
    the first that passes a cap; or a cut of the first, when that alone does. *)
Inductive keptOf (found : list Failure) : list Failure -> Prop :=
  | kept_first out rest : firsts [] found = out ++ rest -> out <> [] ->
      (rest = [] \/ length out = MaxVerdictErrors \/ exists f rest', rest = f :: rest' /\ oversized (out ++ [f])) -> keptOf found out
  | kept_cut f found' g : found = f :: found' -> oversized [f] -> cutOf f g -> keptOf found [g].

Lemma trimTo_spec s n : (n <= length s)%nat ->
  trimTo s n `prefix_of` s /\ (trimTo s n = [] \/ ValidString (trimTo s n) = true) /\
  forall k, (length (trimTo s n) < k <= n)%nat -> ValidString (take k s) = false.
Proof.
  induction n as [|n IH]; intros Hn; cbn [trimTo]; [split_and!; [by apply prefix_nil|by left|cbn; lia]|].
  destruct (ValidString (take (S n) s)) eqn:Hv.
  - split_and!; [apply prefix_take|by right|]. rewrite length_take. lia.
  - destruct (IH ltac:(lia)) as (H1 & H2 & H3). split_and!; [done..|]. intros k Hk. destruct (decide (k = S n)) as [->|]; [done|]. apply H3. lia.
Qed.

Lemma trimRunes_halved s : halved s (trimRunes s ((length s + 1) / 2)).
Proof.
  unfold trimRunes. replace (if (length s <=? _)%nat then _ else _) with (half s).
  2: { unfold half. destruct (Nat.leb_spec (length s) ((length s + 1) / 2)); lia. }
  assert (half s <= length s)%nat as Hh by (unfold half; lia).
  destruct (trimTo_spec s (half s) Hh) as (H1 & H2 & H3). split; [done|apply trimTo_length|done|done].
Qed.

(** The loop from a text-preserving stage [f] of the failure [f0]. *)
Lemma truncateLoop_cut f0 fuel : forall f, InstancePath f = [] -> Alternative f = Alternative f0 -> cutOf f0 f ->
  (Keyword f = Keyword f0 /\ Message f `prefix_of` Message f0 \/ Message f = [] /\ Keyword f `prefix_of` Keyword f0) -> cutOf f0 (truncateLoop fuel f).
Proof.
  induction fuel as [|n IH]; intros [alt kw m path] Hp Ha Hcut Htext; cbn [truncateLoop]; [done|]. cbn in Hp, Ha, Htext. subst path alt.
  cbn [Message Keyword Alternative InstancePath]. destruct (Z.ltb_spec MaxVerdictErrorBytes (encodedSize [MkFailure (Alternative f0) kw m []])) as [Hbig|]; [|done].
  destruct m as [|b m].
  - assert (kw `prefix_of` Keyword f0) as Hk by (destruct Htext as [[-> _]|[_ ?]]; done). destruct kw as [|b kw]; [done|].
    pose proof (trimRunes_halved (b :: kw)) as Hh. apply IH; [done..|by eapply cut_keyword|]. right. split; [done|]. cbn [Keyword]. etrans; [apply Hh|done].
  - destruct Htext as [[-> Hm]|[? _]]; [|done]. pose proof (trimRunes_halved (b :: m)) as Hh.
    apply IH; [done..|by eapply cut_message|]. left. split; [done|]. cbn [Message]. etrans; [apply Hh|done].
Qed.

Lemma truncateFailure_cut f : cutOf f (truncateFailure f).
Proof. apply truncateLoop_cut; [done..|apply cut_path|by left]. Qed.

Lemma capLoop_kept fs : forall seen out, exists more rest, capLoop seen out fs = out ++ more /\ firsts seen fs = more ++ rest /\
  (rest = [] \/ (MaxVerdictErrors <= length (out ++ more))%nat \/ exists f rest', rest = f :: rest' /\ oversized ((out ++ more) ++ [f])).
Proof.
  induction fs as [|f fs IH]; intros seen out; cbn [capLoop firsts]; [exists [], []; rewrite app_nil_r; auto|].
  destruct (bool_decide (f ∈ seen)); [apply IH|].
  destruct (Nat.leb_spec MaxVerdictErrors (length out)).
  { exists [], (f :: firsts (f :: seen) fs). rewrite app_nil_r. auto. }
  destruct (Z.ltb_spec MaxVerdictErrorBytes (encodedSize (out ++ [f]))).
  { exists [], (f :: firsts (f :: seen) fs). rewrite app_nil_r. split_and!; [done..|]. right. right. by eexists _, _. }
  destruct (IH (f :: seen) (out ++ [f])) as (more & rest & -> & -> & Hend). exists (f :: more), rest. rewrite <- app_assoc in Hend |- *. done.
Qed.

Lemma capFailures_kept found : found <> [] -> Forall (fun f => fits (Alternative f)) found -> keptOf found (capFailures found).
Proof.
  intros Hne Hfit. destruct (capFailures_capped found Hfit) as [(_ & Hlen & _) Hout]. unfold capFailures in *.
  destruct (capLoop_kept found [] []) as (more & rest & Hc & Hf & Hend). cbn [app] in Hc, Hend. rewrite Hc in *. destruct found as [|f found]; [done|].
  destruct more as [|g more].
  - apply (kept_cut _ f found); [done| |apply truncateFailure_cut]. cbn [firsts] in Hf. cbn in Hf. destruct Hend as [->|[Hl|(f' & rest' & -> & Hbig)]]; [done|cbn in Hl; unfold MaxVerdictErrors in Hl; lia|].
    by injection Hf as <- _.
  - eapply kept_first; [exact Hf|done|]. destruct Hend as [?|[?|?]]; [by left|right; left; lia|by right; right].
Qed.

Section Verdicts.
Context (E : Engine) (eval : Z -> JS E -> jdoc -> evalOutcome).

Lemma rule_validate_alternative cr v cls alt : Forall (fun f => Alternative f = alt) (rule_validate E eval cr v cls alt).
Proof.
  assert (forall o, Forall (fun f => Alternative f = alt) (jsonSchemaFailures o cls alt)) as Hj.
  { intros [[[e|]|]| |]; cbn [jsonSchemaFailures]; try (repeat constructor).
    apply Forall_map, Forall_forall. intros leaf _. unfold leafFailure. by destruct (cls =s Config). }
  unfold rule_validate. cbv zeta.
  repeat match goal with
  | |- Forall _ (_ ++ _) => apply Forall_app; split
  | |- Forall _ (if ?b then _ else _) => destruct b
  | |- Forall _ (match ?x with _ => _ end) => destruct x
  | |- Forall _ (jsonSchemaFailures _ _ _) => apply Hj
  | |- Forall _ _ => repeat constructor
  end.
Qed.

Lemma validateAlts_Some single cls v crs : forall i all out, 0 <= i ->
  validateAlts E eval single cls v i crs all = Some out ->
  (crs <> [] \/ all <> [] -> out <> []) /\
  (Forall (fun f => -1 <= Alternative f < i + Z.of_nat (length crs)) all ->
   Forall (fun f => -1 <= Alternative f < i + Z.of_nat (length crs)) out).
Proof.
  induction crs as [|cr crs IH]; intros i all out Hi H; cbn [validateAlts] in H.
  { injection H as <-. split; [intros [?|?]; done|done]. }
  pose proof (rule_validate_alternative cr v cls (if single then -1 else i)) as Ha.
  destruct (rule_validate _ _ _ _ _ _) as [|f fs]; [done|].
  apply IH in H as [H1 H2]; [|lia]. split.
  - intros _. apply H1. right. intros [_ ?]%app_nil. done.
  - cbn [length]. replace (i + Z.of_nat (S (length crs))) with (i + 1 + Z.of_nat (length crs)) by lia. intros Hall. apply H2, Forall_app. split; [done|].
    eapply Forall_impl; [exact Ha|]. cbn. intros g ->. destruct single; lia.
Qed.

(** The failures of every alternative, in order. *)
Definition found (c : Compiled E) (v : bytes) : list Failure :=
  concat (imap (fun i alt => rule_validate E eval alt v (c_classification E c) (if single (c_decl E c) then -1 else Z.of_nat i)) (c_alts E c)).

Lemma validateAlts_found sgl cls v crs : forall i all out, validateAlts E eval sgl cls v i crs all = Some out ->
  out = all ++ concat (imap (fun n alt => rule_validate E eval alt v cls (if sgl then -1 else i + Z.of_nat n)) crs).
Proof.
  induction crs as [|cr crs IH]; intros i all out H; cbn [validateAlts] in H; cbn [imap concat]; [injection H as <-; by rewrite app_nil_r|].
  rewrite Z.add_0_r. destruct (rule_validate _ _ _ _ _ _) as [|f fs]; [done|]. apply IH in H as ->. rewrite <- app_assoc. f_equal. cbn [concat app]. f_equal. f_equal. f_equal.
  apply imap_ext. intros n cr' _. cbn. destruct sgl; [done|]. f_equal. lia.
Qed.

Lemma normalize_alternatives d norm : normalizeForCompile E d = Ok norm ->
  (0 < length (alternatives norm) <= 8)%nat.
Proof.
  unfold normalizeForCompile. intros H. destruct (Bool.eqb _ _) eqn:H1 in H; [done|]. destruct (_ && _) in H; [done|].
  destruct (Z.ltb_spec MaxAnyOfAlternatives (Z.of_nat (length (d_AnyOf d)))) as [|H3]; [done|].
  assert (forall rs ns, normAll E rs = Ok ns -> length ns = length rs) as Hall.
  { induction rs as [|r rs IH]; cbn; intros ns Hn; [by injection Hn as <-|].
    apply bind_Ok in Hn as (n & _ & Hn). apply bind_Ok in Hn as (ns' & Hns & [= <-]). cbn. f_equal. auto. }
  unfold normalize in H. apply bind_Ok in H as (rule & Hr & H). apply bind_Ok in H as (alts & Ha & [= <-]). apply Hall in Ha.
  unfold alternatives. cbn [d_Rule d_AnyOf].
  destruct (d_Rule d) as [r|]; cbn in *.
  - apply bind_Ok in Hr as (n & _ & [= <-]). cbn. lia.
  - injection Hr as <-. rewrite Ha. unfold MaxAnyOfAlternatives in *. destruct (d_AnyOf d) as [|r rs]; [done|]. split; [cbn; lia|lia].
Qed.

Lemma small_alternatives_fit alt : -1 <= alt < 8 -> fits alt.
Proof.
  intros H. assert (alt = -1 \/ alt = 0 \/ alt = 1 \/ alt = 2 \/ alt = 3 \/ alt = 4 \/ alt = 5 \/ alt = 6 \/ alt = 7) as Ha by lia.
  clear H. repeat (destruct Ha as [->|Ha]; [by vm_compute|]). subst. by vm_compute.
Qed.
End Verdicts.

(** C37. Verdicts are sound for consumers, bounded and drawn from what was found.
    For every compiled declaration and every value: [Errors] is empty exactly
    when the verdict is valid, so no consumer that tests [len(Errors) == 0]
    accepts an invalid value; there are at most 100 errors, all distinct; and the
    encoded verdict is at most 65,536 bytes whatever the JSON Schema library
    reports (the cutting loop ends). An invalid verdict on a value within the
    budget, UTF-8 and without NUL lists the distinct failures of the alternatives
    in order, stopping only at the end, at 100 or before the first that would
    pass the byte cap; when the very first passes it alone, the one error is a
    cut of it: the same alternative, no instance path, and its keyword with its
    message, or with a prefix of the message that is the longest rune-aligned
    half of one that did not fit; or, when the keyword does not fit even with an
    empty message, an empty message and such a prefix of the keyword (which the
    comment on [truncateFailure] says is kept whole). *)
Theorem verdict_contract (E : Engine) (eval : Z -> JS E -> jdoc -> evalOutcome) (cls : string) (d : Declaration)
    (c : Compiled E) (value : bytes) (Hc : CompileClassified E cls d = Ok c) :
  let v := Validate E eval c value in
  (Errors v = [] <-> Valid v = true) /\ NoDup (Errors v) /\ (length (Errors v) <= MaxVerdictErrors)%nat /\
  encodedSize (Errors v) <= MaxVerdictErrorBytes /\
  (lexicallyValid (Normalize value) -> Valid v = false -> keptOf (found E eval c (Normalize value)) (Errors v)).
Proof.
  apply CompileClassified_inv in Hc as (_ & _ & Hn & _ & Hall). apply normalize_alternatives in Hn.
  apply Forall2_length in Hall.
  assert (forall f (P Q : Prop), encodedSize [f] <= MaxVerdictErrorBytes -> ~ P ->
    let v := Verdict_fail f in (Errors v = [] <-> Valid v = true) /\ NoDup (Errors v) /\ (length (Errors v) <= MaxVerdictErrors)%nat /\
      encodedSize (Errors v) <= MaxVerdictErrorBytes /\ (P -> Valid v = false -> Q)) as Hone.
  { intros f P Q Hsz HP. split_and!; [done|apply NoDup_singleton|cbn; unfold MaxVerdictErrors; lia|done|done]. }
  cbv zeta. unfold Validate. fold (single (c_decl E c)).
  destruct (Z.ltb_spec MaxValueBytes (blen (Normalize value))); [apply Hone; [by vm_compute|]; unfold lexicallyValid; lia|].
  destruct (ValidString (Normalize value)) eqn:Hutf; [cbn [negb]|apply Hone; [by vm_compute|]; intros (_ & Hl & _); congruence].
  destruct (hasByte NUL (Normalize value)) eqn:Hnul; [apply Hone; [by vm_compute|]; intros (_ & _ & Hl); congruence|].
  destruct (validateAlts _ _ _ _ _ _ _ _) as [all|] eqn:Hv; [|split_and!; [done|constructor|cbn; lia|by vm_compute|done]].
  pose proof (validateAlts_found _ _ _ _ _ _ _ _ _ Hv) as Hfound. change (all = found E eval c (Normalize value)) in Hfound.
  apply validateAlts_Some in Hv as [Hne Hal]; [|done]. assert (Forall (fun f => fits (Alternative f)) all) as Hfit.
  { eapply Forall_impl; [apply Hal; constructor|]. cbn. intros f Hf. apply small_alternatives_fit. lia. }
  assert (all <> []) as Hall0 by (apply Hne; left; intros H0; rewrite H0 in Hall; cbn in Hall; lia).
  destruct (capFailures_capped all Hfit) as [(H1 & H2 & H3) Hcne]. cbn [Errors Valid]. split; [split; [intros He; by destruct (Hcne Hall0)|done]|].
  split_and!; [done..|]. intros _ _. rewrite <- Hfound. by apply capFailures_kept.
Qed.

Lemma verdict_contract_witness :
  match CompileClassified sampleEngine Config sampleDecl with
  | Ok c =>
      let v := Validate sampleEngine (fun _ _ _ => evalRefused) c (B "{}") in
      Valid v = false /\ length (Errors v) = 2%nat /\ Errors v <> [] /\ keptOf (found sampleEngine (fun _ _ _ => evalRefused) c (Normalize (B "{}"))) (Errors v)
  | _ => False
  end.
Proof.
  destruct (CompileClassified sampleEngine Config sampleDecl) as [c|e|p] eqn:Hc; [|vm_compute in Hc; discriminate..].
  destruct (verdict_contract sampleEngine (fun _ _ _ => evalRefused) Config sampleDecl c (B "{}") Hc) as (H & _ & _ & _ & Hk).
  vm_compute in Hc. injection Hc as <-. cbv zeta. split; [|split; [|split]].
  - vm_compute. reflexivity.
  - vm_compute. reflexivity.
  - intros He. apply H in He. vm_compute in He. discriminate.
  - apply Hk; [split; [vm_compute; discriminate|split; vm_compute; reflexivity]|vm_compute; reflexivity].
Defined.

Lemma encodedString_nonempty s : 2 <= encodedString s.
Proof.
  unfold encodedString. assert (0 <= foldr Z.add 0 (map encodedRune (chunks 0 s))); [|lia].
  induction (chunks 0 s) as [|p ps IH]; cbn [map foldr]; [lia|]. unfold encodedRune at 1, blen. destruct (shortEscape _); [lia|]. destruct (_ || _); lia.
Qed.

(** A keyword that does not fit with an empty message is not kept whole. *)
Lemma truncateFailure_cuts_keyword f : fits (Alternative f) -> oversized [MkFailure (Alternative f) (Keyword f) [] []] -> Keyword (truncateFailure f) <> Keyword f.
Proof.
  intros Hfit Hbig Hk. pose proof (truncateFailure_fits f Hfit) as Hsz. pose proof (encodedString_nonempty (Message (truncateFailure f))) as Hm.
  assert (Alternative (truncateFailure f) = Alternative f /\ InstancePath (truncateFailure f) = []) as [Ha Hp] by (by destruct (truncateFailure_cut f)).
  unfold oversized, encodedSize, encodedFailure in Hbig, Hsz. cbn [map foldr length Alternative Keyword Message InstancePath] in Hbig, Hsz. rewrite Hk, Ha, Hp in Hsz.
  change (encodedString []) with 2 in Hbig. lia.
Qed.

(** ** Secret keys *)
Definition redactLeaf (e : leafError) : leafError := MkLeaf (KeywordPath e) (SchemaURL e) [] "".

Fixpoint redactTree (e : validationError) : validationError :=
  match e with VError self causes => VError (redactLeaf self) (map redactTree causes) end.

(** The outcome with everything derived from the instance erased. *)
Definition redact (o : evalOutcome) : evalOutcome :=
  match o with evalCompleted (Some (Some e)) => evalCompleted (Some (Some (redactTree e))) | _ => o end.

Lemma flatten_redact : forall e, flattenValidationError (redactTree e) = map redactLeaf (flattenValidationError e).
Proof.
  fix IH 1. intros [self causes]. destruct causes as [|c cs]; [reflexivity|].
  change (flattenValidationError (redactTree c) ++ flat_map flattenValidationError (map redactTree cs) =
          map redactLeaf (flattenValidationError c ++ flat_map flattenValidationError cs)).
  rewrite map_app, (IH c). f_equal. induction cs as [|c' cs IHcs]; [reflexivity|].
  cbn [map flat_map]. rewrite map_app, (IH c'). f_equal. exact IHcs.
Qed.

Lemma jsonSchemaFailures_redact o cls alt : cls <> Config -> jsonSchemaFailures (redact o) cls alt = jsonSchemaFailures o cls alt.
Proof.
  intros Hc. destruct o as [[[e|]|]| |]; try done. cbn [redact jsonSchemaFailures].
  rewrite flatten_redact, map_map. apply map_ext. intros leaf. unfold leafFailure.
  rewrite (proj2 (String.eqb_neq cls Config) Hc). done.
Qed.

(** An object of the document, at any depth, has a member of this name. *)
Inductive hasMember (k : string) : jdoc -> Prop :=
  | hasMember_here ms d : In (k, d) ms -> hasMember k (DObject ms)
  | hasMember_member ms k' d : In (k', d) ms -> hasMember k d -> hasMember k (DObject ms)
  | hasMember_item items d : In d items -> hasMember k d -> hasMember k (DArray items).

Lemma valueLiteralKeyword_complete k d : In k literalKeywords -> hasMember k d -> valueLiteralKeyword d = true.
Proof.
  intros Hk. induction 1 as [ms d Hin|ms k' d Hin _ IH|items d Hin _ IH]; cbn [valueLiteralKeyword].
  - apply orb_true_iff. left. apply existsb_exists. exists (k, d). split; [done|]. by apply contains_In.
  - apply orb_true_iff. right. apply existsb_exists. exists (k', d). done.
  - apply existsb_exists. exists d. done.
Qed.

Section Secrets.
Context (E : Engine).

(** A rule that could not disclose a value by naming it. *)
Definition literalFree (r : Rule) : Prop :=
  r_Type r <> TypeEnum /\ r_Members r = [] /\
  (r_JSONSchema r <> [] -> exists doc, decode E (r_JSONSchema r) = Some doc /\
     forall k, In k ["const"; "enum"; "examples"] -> ~ hasMember k doc).

Lemma checkSecretRules_literalFree rs : checkSecretRules E rs = Ok () -> Forall literalFree rs.
Proof.
  induction rs as [|r rs IH]; cbn [checkSecretRules]; [constructor|].
  destruct (r_Type r =s TypeEnum) eqn:HT; [done|]. cbn [orb]. destruct (r_Members r) as [|m ms] eqn:Hm; [cbn [length Nat.eqb negb]|done].
  string_eqs. destruct (r_JSONSchema r) as [|b raw] eqn:Hr.
  { intros H. constructor; [|auto]. unfold literalFree. rewrite Hr. done. }
  destruct (strictJSON E (b :: raw)) as [doc|e|p] eqn:Hj; [|done..].
  destruct (valueLiteralKeyword doc) eqn:Hv; [done|]. intros H. constructor; [|auto].
  unfold literalFree. rewrite Hr. split_and!; [done..|]. intros _. exists doc. apply strictJSON_Ok in Hj as [Hj _]. split; [done|].
  intros k Hk Hh. rewrite (valueLiteralKeyword_complete k doc Hk Hh) in Hv. done.
Qed.

Context (eval : Z -> JS E -> jdoc -> evalOutcome).
Let erased : Z -> JS E -> jdoc -> evalOutcome := fun alt sch doc => redact (eval alt sch doc).

Lemma validateAlts_redact single cls v crs : cls <> Config -> forall i all,
  validateAlts E erased single cls v i crs all = validateAlts E eval single cls v i crs all.
Proof.
  intros Hc. induction crs as [|cr crs IH]; intros i all; [done|]. cbn [validateAlts].
  replace (rule_validate E erased cr v cls (if single then -1 else i)) with (rule_validate E eval cr v cls (if single then -1 else i)).
  { destruct (rule_validate E eval cr v cls _); [done|apply IH]. }
  unfold rule_validate. cbv zeta. do 5 (match goal with |- (if ?b then _ else _) = _ => destruct b; [reflexivity|] end).
  destruct (_ =s TypeJSON); [|reflexivity]. destruct (strictJSON E v); [|reflexivity..].
  destruct (cr_schema E cr); [|reflexivity]. symmetry. by apply jsonSchemaFailures_redact.
Qed.
End Secrets.

(** C36. A secret key discloses nothing through its declaration or its
    verdicts. A declaration compiled as [secret] has no enum, no members, and
    no [const], [enum] or [examples] member anywhere in its JSON Schemas; and
    for every value the verdict is the one computed after the library's error
    tree has lost its instance locations and its messages (where property
    names and fragments of the value appear), so the verdict cannot depend on
    them. *)
Theorem secret_discloses_nothing (E : Engine) (eval : Z -> JS E -> jdoc -> evalOutcome) (d : Declaration)
    (c : Compiled E) (value : bytes) (Hc : CompileClassified E Secret d = Ok c) :
  Forall (literalFree E) (alternatives (c_decl E c)) /\
  Validate E (fun alt sch doc => redact (eval alt sch doc)) c value = Validate E eval c value.
Proof.
  apply CompileClassified_inv in Hc as (_ & Hcls & _ & Hcheck & _). split.
  - by apply checkSecretRules_literalFree.
  - unfold Validate. rewrite Hcls, validateAlts_redact; done.
Qed.

Lemma secret_discloses_nothing_witness :
  match CompileClassified sampleEngine Secret sampleDecl with
  | Ok c =>
      let leaf := MkLeaf ["additionalProperties"] "https://schema.hikyo.invalid/declaration#" ["AKIA"] "additional properties AKIA not allowed" in
      Errors (Validate sampleEngine (fun _ _ _ => evalCompleted (Some (Some (VError leaf [])))) c (B "{}")) =
      Errors (Validate sampleEngine (fun _ _ _ => evalCompleted (Some (Some (VError (redactLeaf leaf) [])))) c (B "{}"))
  | _ => False
  end.
Proof.
  destruct (CompileClassified sampleEngine Secret sampleDecl) as [c|e|p] eqn:Hc; [|vm_compute in Hc; discriminate..].
  intros leaf. destruct (secret_discloses_nothing sampleEngine (fun _ _ _ => evalCompleted (Some (Some (VError leaf [])))) sampleDecl c (B "{}") Hc) as [_ H].
  rewrite <- H. reflexivity.
Defined.
