(* ===== verification/EvalSlots.v ===== *)
(** * The evaluation slots: [runWithDeadline] of [internal/schema/validate.go]

    Concurrent evaluations against the process-wide slot channel, as a labelled
    transition system: the goroutine that evaluates, sends its result into the
    buffered channel and gives its slot back, and the caller that polls the
    timer, then waits for the result or the timer. The error value an
    evaluation ends with, and when the timer fires, are the environment's. *)

From S2P Require Import Prelude.

Definition MaxConcurrentJSONSchemaEvaluations : nat := 8.

Section Slots.
Context {V : Type}.

Inductive outcome := Completed (err : V) | Overran | Refused.
Inductive goroutine := NotStarted | Evaluating | Sent | Released.
Inductive caller := Polling | Waiting | Returned (o : outcome).

(** One call: its goroutine, its caller, the buffered channel [done] (here [doneCh]), whether
    the timer has fired, and the value [run] returned once it has. *)
Record call := MkCall { go : goroutine; pc : caller; doneCh : option V; fired : bool; ran : option V }.
Record slots := MkSlots { held : nat; calls : gmap nat call }.

Inductive label := Admit | Refuse | Complete (err : V) | Release | Fire | PollExpired | PollPending | Receive | TimeOut.

Definition set_call (s : slots) (i : nat) (c : call) : slots := MkSlots (held s) (<[i := c]> (calls s)).

Inductive step (s : slots) (i : nat) : label -> slots -> Prop :=
  | step_admit : calls s !! i = None -> held s < MaxConcurrentJSONSchemaEvaluations ->
      step s i Admit (MkSlots (S (held s)) (<[i := MkCall Evaluating Polling None false None]> (calls s)))
  | step_refuse : calls s !! i = None -> ~ held s < MaxConcurrentJSONSchemaEvaluations ->
      step s i Refuse (set_call s i (MkCall NotStarted (Returned Refused) None false None))
  | step_complete c err : calls s !! i = Some c -> go c = Evaluating -> doneCh c = None ->
      step s i (Complete err) (set_call s i (MkCall Sent (pc c) (Some err) (fired c) (Some err)))
  | step_release c : calls s !! i = Some c -> go c = Sent -> 0 < held s ->
      step s i Release (MkSlots (pred (held s)) (<[i := MkCall Released (pc c) (doneCh c) (fired c) (ran c)]> (calls s)))
  | step_fire c : calls s !! i = Some c -> go c <> NotStarted ->
      step s i Fire (set_call s i (MkCall (go c) (pc c) (doneCh c) true (ran c)))
  | step_poll_expired c : calls s !! i = Some c -> pc c = Polling -> fired c = true ->
      step s i PollExpired (set_call s i (MkCall (go c) (Returned Overran) (doneCh c) (fired c) (ran c)))
  | step_poll_pending c : calls s !! i = Some c -> pc c = Polling -> fired c = false ->
      step s i PollPending (set_call s i (MkCall (go c) Waiting (doneCh c) (fired c) (ran c)))
  | step_receive c err : calls s !! i = Some c -> pc c = Waiting -> doneCh c = Some err ->
      step s i Receive (set_call s i (MkCall (go c) (Returned (Completed err)) None (fired c) (ran c)))
  | step_timeout c : calls s !! i = Some c -> pc c = Waiting -> fired c = true ->
      step s i TimeOut (set_call s i (MkCall (go c) (Returned Overran) (doneCh c) (fired c) (ran c))).

Definition initial : slots := MkSlots 0 ∅.

Inductive reachable : slots -> Prop :=
  | reachable_initial : reachable initial
  | reachable_step s i l s' : reachable s -> step s i l s' -> reachable s'.

(** ** Invariant *)
Definition in_flight (c : call) : bool := match go c with Evaluating | Sent => true | _ => false end.
Definition flights (s : slots) : nat := size (filter (fun kv : nat * call => in_flight kv.2 = true) (calls s)).

Definition coherent (c : call) : Prop :=
  match go c with
  | NotStarted => pc c = Returned Refused /\ ran c = None
  | Evaluating => doneCh c = None /\ ran c = None /\ pc c <> Returned Refused /\ (forall e, pc c <> Returned (Completed e))
  | _ => pc c <> Returned Refused /\ (forall e, pc c = Returned (Completed e) -> ran c = Some e) /\
         (forall e, doneCh c = Some e -> ran c = Some e) /\ ((forall e, pc c <> Returned (Completed e)) -> is_Some (doneCh c))
  end.

Definition slots_inv (s : slots) : Prop :=
  held s = flights s /\ held s <= MaxConcurrentJSONSchemaEvaluations /\ map_Forall (fun _ c => coherent c) (calls s).

Lemma flights_fresh (m : gmap nat call) i c : m !! i = None ->
  size (filter (fun kv : nat * call => in_flight kv.2 = true) (<[i := c]> m)) =
  (if in_flight c then 1 else 0) + size (filter (fun kv : nat * call => in_flight kv.2 = true) m).
Proof.
  intros Hi. rewrite map_filter_insert. cbn. destruct (in_flight c) eqn:Hc; case_decide; try done.
  - rewrite map_size_insert_None; [done|]. by apply map_lookup_filter_None_2; left.
  - by rewrite delete_id.
Qed.

Lemma flights_update h h' (m : gmap nat call) i c c' : m !! i = Some c ->
  flights (MkSlots h (<[i := c']> m)) + (if in_flight c then 1 else 0) = flights (MkSlots h' m) + (if in_flight c' then 1 else 0).
Proof.
  intros Hi. unfold flights. cbn [calls]. rewrite <- (insert_delete_id m i c Hi) at 2. rewrite <- insert_delete_eq.
  rewrite !flights_fresh by apply lookup_delete_eq. lia.
Qed.

Lemma flights_positive s i c : calls s !! i = Some c -> in_flight c = true -> 0 < flights s.
Proof.
  intros Hi Hc. unfold flights. rewrite <- (insert_delete_id _ i c Hi), flights_fresh by apply lookup_delete_eq.
  rewrite Hc. lia.
Qed.

Lemma slots_inv_update h m i c c' : slots_inv (MkSlots h m) -> m !! i = Some c ->
  (coherent c -> coherent c') -> in_flight c' = in_flight c -> slots_inv (MkSlots h (<[i := c']> m)).
Proof.
  intros (Hh & Hm & Hc) Hi Hco Hfl. cbn [held calls] in *. split_and!; [|done|].
  - pose proof (flights_update h h m i c c' Hi) as H. rewrite Hfl in H. cbn [held]. lia.
  - apply map_Forall_insert_2; [|done]. apply Hco. exact (Hc i c Hi).
Qed.

(** The steps of a call keep it coherent. *)
Ltac call_steps c := destruct c as [g p d f r]; destruct g; unfold coherent; cbn in *; subst; try discriminate; naive_solver.

Lemma slots_inv_step s i l s' : slots_inv s -> step s i l s' -> slots_inv s'.
Proof.
  intros Hinv Hs. destruct s as [h m]. pose proof Hinv as (Hh & Hm & Hc). cbn [held calls] in *.
  destruct Hs as [Hi Hlt|Hi Hlt|c err Hi Hg Hd|c Hi Hg Hpos|c Hi Hg|c Hi Hp Hf|c Hi Hp Hf|c err Hi Hp Hd|c Hi Hp Hf];
    cbn [held calls] in *; unfold set_call; cbn [held calls].
  - split_and!; [|exact Hlt|by apply map_Forall_insert_2].
    unfold flights. cbn [held calls]. rewrite flights_fresh by done. cbn. f_equal. exact Hh.
  - split_and!; [|exact Hm|by apply map_Forall_insert_2].
    unfold flights. cbn [held calls]. rewrite flights_fresh by done. exact Hh.
  - apply (slots_inv_update _ _ _ c); [done..| |by unfold in_flight; rewrite Hg]. call_steps c.
  - split_and!; [|cbn [held]; lia|].
    + pose proof (flights_update (pred h) h m i c (MkCall Released (pc c) (doneCh c) (fired c) (ran c)) Hi) as H.
      unfold in_flight in H. rewrite Hg in H. cbn [go held] in *. lia.
    + apply map_Forall_insert_2; [|done]. specialize (Hc i c Hi). unfold coherent in *. rewrite Hg in Hc. exact Hc.
  - apply (slots_inv_update _ _ _ c); [done..| |done]. call_steps c.
  - apply (slots_inv_update _ _ _ c); [done..| |done]. call_steps c.
  - apply (slots_inv_update _ _ _ c); [done..| |done]. call_steps c.
  - apply (slots_inv_update _ _ _ c); [done..| |done]. call_steps c.
  - apply (slots_inv_update _ _ _ c); [done..| |done]. call_steps c.
Qed.

Lemma slots_reachable_inv s : reachable s -> slots_inv s.
Proof.
  induction 1 as [|s i l s' _ IH Hs]; [|by eapply slots_inv_step].
  split_and!; [done|cbn; lia|apply map_Forall_empty].
Qed.
End Slots.
Arguments slots : clear implicits.
Arguments call : clear implicits.
Arguments outcome : clear implicits.
Arguments label : clear implicits.

(** JSON Schema evaluation is bounded, never queued and never lost. In
    every reachable state of any number of concurrent calls: at most eight
    goroutines are in flight, abandoned ones included, because a slot is given
    back only by the goroutine that took it; a call is refused only when all
    eight are in flight, and a new call is always admitted or refused at once
    (no waiting); a goroutine can always send its result and give its slot
    back, even when nobody waits for it; a caller whose timer has fired can
    return; and a caller is told [Completed] only with the value its own
    evaluation returned, [Refused] only when nothing ran. *)
Theorem evaluation_slots_bounded (V : Type) (s : slots V) (H : reachable s) :
  flights s <= MaxConcurrentJSONSchemaEvaluations /\
  (forall i s', step s i Refuse s' -> flights s = MaxConcurrentJSONSchemaEvaluations) /\
  (forall i, calls s !! i = None -> exists s', step s i Admit s' \/ step s i Refuse s') /\
  (forall i c, calls s !! i = Some c ->
     (go c = Evaluating -> forall err, exists s', step s i (Complete err) s') /\
     (go c = Sent -> exists s', step s i Release s') /\
     (fired c = true -> (exists o, pc c = Returned o) \/ exists s' l, step s i l s' /\ exists c' o, calls s' !! i = Some c' /\ pc c' = Returned o) /\
     (forall err, pc c = Returned (Completed err) -> ran c = Some err) /\
     (pc c = Returned Refused -> ran c = None)).
Proof.
  apply slots_reachable_inv in H as (Hh & Hm & Hc). rewrite <- Hh. split_and!; [done| | |].
  - intros i s' Hs. inversion Hs; subst. lia.
  - intros i Hi. destruct (decide (held s < MaxConcurrentJSONSchemaEvaluations)); eexists; [left|right]; by constructor.
  - intros i c Hi. specialize (Hc i c Hi). unfold coherent in Hc. split_and!.
    + intros Hg err. rewrite Hg in Hc. destruct Hc as [Hd _]. eexists. by eapply step_complete.
    + intros Hg. eexists. eapply step_release; [done..|]. rewrite Hh. apply (flights_positive s i c Hi). by unfold in_flight; rewrite Hg.
    + intros Hf. destruct (pc c) as [| |o] eqn:Hp; [right|right|left; eauto].
      * eexists _, _. split; [by eapply step_poll_expired|]. cbn. eexists _, _. by rewrite lookup_insert_eq.
      * eexists _, _. split; [by eapply step_timeout|]. cbn. eexists _, _. by rewrite lookup_insert_eq.
    + intros err Hp. destruct (go c); [destruct Hc; congruence|by destruct Hc as (_ & _ & _ & []%(fun H => H err))|destruct Hc as (_ & H & _); auto..].
    + intros Hp. destruct (go c); [by destruct Hc|exfalso; destruct Hc as (_ & _ & ? & _); done|destruct Hc; done..].
Qed.

Lemma evaluation_slots_bounded_witness :
  exists s : slots nat, reachable s /\ flights s <= 8 /\
    exists c, calls s !! 0 = Some c /\ pc c = Returned Overran /\ exists s', step s 0 (Complete 7) s'.
Proof.
  pose (c0 := MkCall (V := nat) Evaluating Polling None false None).
  pose (c1 := MkCall (V := nat) Evaluating Polling None true None).
  pose (c2 := MkCall (V := nat) Evaluating (Returned Overran) None true None).
  assert (reachable (MkSlots 1 {[ 0 := c2 ]})) as Hr.
  { apply (reachable_step (MkSlots 1 {[ 0 := c1 ]}) 0 PollExpired).
    - apply (reachable_step (MkSlots 1 {[ 0 := c0 ]}) 0 Fire).
      + apply (reachable_step initial 0 Admit); [constructor|]. apply step_admit; [reflexivity|cbn; unfold MaxConcurrentJSONSchemaEvaluations; lia].
      + exact (step_fire (MkSlots 1 {[ 0 := c0 ]}) 0 c0 eq_refl ltac:(discriminate)).
    - exact (step_poll_expired (MkSlots 1 {[ 0 := c1 ]}) 0 c1 eq_refl eq_refl eq_refl). }
  exists (MkSlots 1 {[ 0 := c2 ]}). split; [exact Hr|].
  destruct (evaluation_slots_bounded nat _ Hr) as (Hb & _ & _ & Hcalls). split; [exact Hb|].
  exists c2. split; [reflexivity|]. split; [reflexivity|]. apply (Hcalls 0 c2 eq_refl). reflexivity.
Defined.
