(* ===== verification/Envelope.v ===== *)
(** * The ciphertext envelope: [internal/crypto/{aad,envelope,crypto}.go]

    The versioned record header, the per-kind associated data with its
    length-prefixed encoding, sealing and opening. The AEAD of
    [golang.org/x/crypto/chacha20poly1305] is the class [AEAD]: two functions
    and what the package promises of them. Lengths and versions are [uint32],
    big-endian. *)

From S2P Require Import Prelude Utf8 GoStrings.
From Stdlib Require Import Ascii.

#[local] Open Scope Z_scope.

Definition KeySize : nat := 32.
Definition NonceSizeX : nat := 24.
Definition MaxUint32 : Z := 2 ^ 32 - 1.

(** ** Kinds and formats *)
Definition KindValue : Z := 1.
Definition KindWrappedDEK : Z := 2.
Definition KindWrappedMaster : Z := 3.
Definition KindWrappedTokenKey : Z := 4.
Definition KindProjectField : Z := 5.
Definition KindInstanceField : Z := 6.
Definition KindComposeSnapshot : Z := 7.
Definition formatV1 : Z := 1.
Definition algXChaCha20Poly1305 : Z := 1.

Definition ErrUnknownFormat : error := ESentinel "crypto.ErrUnknownFormat".
Definition ErrDecrypt : error := ESentinel "crypto.ErrDecrypt".

(** ** Associated data *)
Definition be32 (v : Z) : bytes :=
  [chr (v / 2 ^ 24 mod 256); chr (v / 2 ^ 16 mod 256); chr (v / 2 ^ 8 mod 256); chr (v mod 256)].

(** [binary.BigEndian.Uint32] of the first four bytes. *)
Definition Uint32 (b : bytes) : Z :=
  match b with
  | b0 :: b1 :: b2 :: b3 :: _ => ((ord b0 * 256 + ord b1) * 256 + ord b2) * 256 + ord b3
  | _ => 0
  end.

Definition bsize (b : bytes) : Z := Z.of_nat (length b).

Definition appendLP (dst field : bytes) : result bytes :=
  if MaxUint32 <? bsize field then Panic "crypto: length-prefixed field exceeds uint32"
  else Ok (dst ++ be32 (bsize field) ++ field).

Inductive AAD :=
  | ValueAAD (OrgID ProjectID EnvID KeyID RowID FieldTag : bytes)
  | WrappedDEKAAD (OrgID ProjectID DEKID : bytes) (DEKVersion MasterKeyVersion : Z)
  | WrappedMasterAAD (MasterKeyVersion RootKeyEpoch : Z)
  | WrappedTokenKeyAAD (TokenKeyVersion MasterKeyVersion : Z)
  | ProjectFieldAAD (OrgID ProjectID OwnerTable OwnerRowID FieldTag EnvironmentID KeyID SnapshotID : bytes)
  | InstanceFieldAAD (OwnerTable OwnerRowID FieldTag : bytes)
  | RawAAD (canonical : bytes).

Definition kind (a : AAD) : Z :=
  match a with
  | ValueAAD _ _ _ _ _ _ => KindValue
  | WrappedDEKAAD _ _ _ _ _ => KindWrappedDEK
  | WrappedMasterAAD _ _ => KindWrappedMaster
  | WrappedTokenKeyAAD _ _ => KindWrappedTokenKey
  | ProjectFieldAAD _ _ _ _ _ _ _ _ => KindProjectField
  | InstanceFieldAAD _ _ _ => KindInstanceField
  | RawAAD _ => KindComposeSnapshot
  end.

Definition fields (a : AAD) : list bytes :=
  match a with
  | ValueAAD o p e k r t => [o; p; e; k; r; t]
  | WrappedDEKAAD o p d v m => [o; p; d; be32 v; be32 m]
  | WrappedMasterAAD m e => [be32 m; be32 e]
  | WrappedTokenKeyAAD t m => [be32 t; be32 m]
  | ProjectFieldAAD o p t r f [] [] [] => [o; p; t; r; f]
  | ProjectFieldAAD o p t r f e k s => [o; p; t; r; f; e; k; s]
  | InstanceFieldAAD t r f => [t; r; f]
  | RawAAD c => [c]
  end.

Fixpoint appendFields (dst : bytes) (fs : list bytes) : result bytes :=
  match fs with
  | [] => Ok dst
  | f :: fs' => out ← appendLP dst f; appendFields out fs'
  end.

Definition appendAAD (header : bytes) (a : AAD) : result bytes := appendFields header (fields a).

(** ** The header *)
Record header := MkHeader { h_format : Z; h_kind : Z; h_alg : Z; h_keyID : bytes; h_keyVersion : Z; h_nonce : bytes }.

Definition appendHeader (dst : bytes) (h : header) : result bytes :=
  dst ← appendLP (dst ++ [chr (h_format h); chr (h_kind h); chr (h_alg h)]) (h_keyID h);
  appendLP (dst ++ be32 (h_keyVersion h)) (h_nonce h).

(** [readLP] at a position, as the rest of the buffer after it. *)
Definition readLP (buf : bytes) : result (bytes * bytes) :=
  if bsize buf <? 4 then Err ErrDecrypt
  else
    let n := Z.to_nat (Uint32 buf) in
    let rest := drop 4 buf in
    if (length rest <? n)%nat then Err ErrDecrypt else Ok (take n rest, drop n rest).

(** The header and what follows it; the position is the difference of lengths. *)
Definition parseHeader (record : bytes) : result (header * bytes) :=
  match record with
  | f :: k :: a :: rest =>
      if negb (ord f =? formatV1) then Err (EWrap "format" ErrUnknownFormat)
      else
        '(keyID, rest) ← readLP rest;
        if bsize rest <? 4 then Err ErrDecrypt
        else
          let version := Uint32 rest in
          '(nonce, rest) ← readLP (drop 4 rest);
          Ok (MkHeader (ord f) (ord k) (ord a) keyID version nonce, rest)
  | _ => Err ErrDecrypt
  end.

Definition RecordKeyVersion (record : bytes) : result Z :=
  '(h, _) ← parseHeader record; Ok (h_keyVersion h).

(** ** Sealing and opening *)

(** XChaCha20-Poly1305 as an ideal AEAD: the events its security bounds make
    negligible (a forgery, a record that opens under a second key) do not
    happen. *)
Class AEAD := {
  aead_Seal : bytes -> bytes -> bytes -> bytes -> bytes;          (* key, nonce, plaintext, associated data *)
  aead_Open : bytes -> bytes -> bytes -> bytes -> option bytes;   (* key, nonce, ciphertext, associated data *)
  (** What was sealed opens under the same key, nonce and associated data… *)
  aead_correct : forall k n p a, length k = KeySize -> length n = NonceSizeX -> aead_Open k n (aead_Seal k n p a) a = Some p;
  (** …and under nothing else. *)
  aead_authentic : forall k k' n n' p p' a a', length k = KeySize -> length k' = KeySize ->
    aead_Open k' n' (aead_Seal k n p a) a' = Some p' -> k' = k /\ n' = n /\ a' = a /\ p' = p }.

Section Seal.
Context `{AEAD}.

Definition badKeyLength : error := ENew "chacha20poly1305: bad key length".

(** [io.ReadFull(rnd, make([]byte, n))]: a failed or short read is an error. *)
Definition ReadFull (rnd : option bytes) (n : nat) : result bytes :=
  match rnd with
  | Some b => if (length b =? n)%nat then Ok b else Err (ENew "unexpected EOF")
  | None => Err (ENew "randomness unavailable")
  end.

Definition seal (rnd : option bytes) (key keyID : bytes) (keyVersion : Z) (a : AAD) (plaintext : bytes) : result bytes :=
  nonce ← ReadFull rnd NonceSizeX;
  if negb (length key =? KeySize)%nat then Err (EWrap "crypto" badKeyLength)
  else
    record ← appendHeader [] (MkHeader formatV1 (kind a) algXChaCha20Poly1305 keyID keyVersion nonce);
    aad ← appendAAD record a;
    Ok (record ++ aead_Seal key nonce plaintext aad).

Definition open (key keyID : bytes) (keyVersion : Z) (a : AAD) (record : bytes) : result bytes :=
  '(h, rest) ← parseHeader record;
  if negb (h_kind h =? kind a) || negb (h_alg h =? algXChaCha20Poly1305) || negb (bool_decide (h_keyID h = keyID))
     || negb (h_keyVersion h =? keyVersion) || negb (length (h_nonce h) =? NonceSizeX)%nat
  then Err ErrDecrypt
  else if negb (length key =? KeySize)%nat then Err (EWrap "crypto" badKeyLength)
  else
    aad ← appendAAD (take (length record - length rest) record) a;
    match aead_Open key (h_nonce h) rest aad with
    | Some pt => Ok pt
    | None => Err ErrDecrypt
    end.
End Seal.

(** ** Encodings *)
Lemma ord_chr z : 0 <= z < 256 -> ord (chr z) = z.
Proof. intros Hz. unfold ord, chr. rewrite N_ascii_embedding by lia. lia. Qed.

Lemma chr_ord_eq c z : ord c = z -> chr z = c.
Proof. intros <-. apply chr_ord. Qed.

Definition uint32 (v : Z) : Prop := 0 <= v < 2 ^ 32.

Lemma Uint32_be32 v t : uint32 v -> Uint32 (be32 v ++ t) = v.
Proof.
  unfold uint32. intros Hv. unfold be32, Uint32. cbn [app]. rewrite !ord_chr by (apply Z.mod_pos_bound; lia).
  change (2 ^ 24) with (256 * 256 * 256). change (2 ^ 16) with (256 * 256). change (2 ^ 8) with 256.
  rewrite <- !Z.div_div by lia. pose proof (Z.div_mod v 256 ltac:(lia)). pose proof (Z.div_mod (v / 256) 256 ltac:(lia)).
  pose proof (Z.div_mod (v / 256 / 256) 256 ltac:(lia)).
  assert (0 <= v / 256 / 256 / 256 < 256) by (rewrite !Z.div_div by lia; split; [apply Z.div_pos; lia|apply Z.div_lt_upper_bound; lia]).
  rewrite (Z.mod_small (v / 256 / 256 / 256)) by lia. lia.
Qed.

Lemma be32_Uint32 b0 b1 b2 b3 t : be32 (Uint32 (b0 :: b1 :: b2 :: b3 :: t)) = [b0; b1; b2; b3].
Proof.
  unfold be32, Uint32. pose proof (ord_bounds b0). pose proof (ord_bounds b1). pose proof (ord_bounds b2). pose proof (ord_bounds b3).
  set (x := ord b0 * 256 + ord b1). set (y := x * 256 + ord b2).
  change (2 ^ 24) with (256 * 256 * 256). change (2 ^ 16) with (256 * 256). change (2 ^ 8) with 256.
  rewrite <- !Z.div_div by lia. rewrite (Z.div_add_l y 256 (ord b3)), (Z.div_small (ord b3)), Z.add_0_r by lia. unfold y.
  rewrite (Z.div_add_l x 256 (ord b2)), (Z.div_small (ord b2)), Z.add_0_r by lia. unfold x.
  rewrite (Z.div_add_l (ord b0) 256 (ord b1)), (Z.div_small (ord b1)), Z.add_0_r by lia.
  rewrite !(Z.add_comm (_ * 256)), !Z.mod_add, !Z.mod_small by lia. by rewrite !chr_ord.
Qed.

Lemma be32_inj v w : uint32 v -> uint32 w -> be32 v = be32 w -> v = w.
Proof. intros Hv Hw He. rewrite <- (Uint32_be32 v [] Hv), <- (Uint32_be32 w [] Hw). by rewrite He. Qed.

Lemma Uint32_bound b : uint32 (Uint32 b).
Proof.
  unfold uint32, Uint32. destruct b as [|b0 [|b1 [|b2 [|b3 t]]]]; [lia..|].
  pose proof (ord_bounds b0). pose proof (ord_bounds b1). pose proof (ord_bounds b2). pose proof (ord_bounds b3). lia.
Qed.

(** One length-prefixed field. *)
Definition LP (f : bytes) : bytes := be32 (bsize f) ++ f.
Definition short (f : bytes) : Prop := bsize f <= MaxUint32.

Lemma short_uint32 f : short f -> uint32 (bsize f).
Proof. unfold short, uint32, MaxUint32, bsize. lia. Qed.

Lemma appendLP_Ok dst f out : appendLP dst f = Ok out <-> short f /\ out = dst ++ LP f.
Proof. unfold appendLP, short, LP. destruct (Z.ltb_spec MaxUint32 (bsize f)); split; intros Hx; [done|lia|injection Hx as <-; done|by destruct Hx as [_ ->]]. Qed.

Lemma length_LP f : length (LP f) = (4 + length f)%nat.
Proof. done. Qed.

Lemma readLP_LP f t : short f -> readLP (LP f ++ t) = Ok (f, t).
Proof.
  intros Hf. unfold readLP, LP. rewrite <- app_assoc, Uint32_be32 by by apply short_uint32.
  assert (bsize (be32 (bsize f) ++ f ++ t) <? 4 = false) as ->. { apply Z.ltb_ge. unfold bsize. cbn [be32 app length]. lia. }
  change (drop 4 (be32 (bsize f) ++ f ++ t)) with (f ++ t). cbv zeta. unfold bsize. rewrite Nat2Z.id, length_app.
  assert (length f + length t <? length f = false)%nat as -> by (apply Nat.ltb_ge; lia).
  rewrite take_app_length, drop_app_length. done.
Qed.

Lemma readLP_Ok buf f t : readLP buf = Ok (f, t) -> buf = LP f ++ t /\ short f.
Proof.
  unfold readLP. destruct (Z.ltb_spec (bsize buf) 4) as [|Hlen]; [done|].
  destruct (Nat.ltb_spec (length (drop 4 buf)) (Z.to_nat (Uint32 buf))) as [|Hn]; [done|]. intros [= <- <-].
  destruct buf as [|b0 [|b1 [|b2 [|b3 rest]]]]; [unfold bsize in Hlen; cbn in Hlen; lia..|]. change (drop 4 (b0 :: b1 :: b2 :: b3 :: rest)) with rest in *.
  pose proof (Uint32_bound (b0 :: b1 :: b2 :: b3 :: rest)) as Hb. set (n := Uint32 _) in *.
  assert (bsize (take (Z.to_nat n) rest) = n) as Hs. { unfold bsize. rewrite length_take. unfold uint32 in Hb. lia. }
  split; [|unfold short, MaxUint32; unfold uint32 in Hb; lia].
  unfold LP. rewrite Hs. unfold n. rewrite be32_Uint32. cbn [app]. by rewrite take_drop.
Qed.

Definition LPs (fs : list bytes) : bytes := concat (map LP fs).

Lemma appendFields_Ok fs : forall dst out, appendFields dst fs = Ok out <-> Forall short fs /\ out = dst ++ LPs fs.
Proof.
  induction fs as [|f fs IH]; intros dst out; cbn [appendFields].
  - unfold LPs. cbn. rewrite app_nil_r. split; [intros [= <-]; done|by intros [_ ->]].
  - rewrite bind_Ok. unfold LPs in *. cbn [map concat]. rewrite Forall_cons. split.
    + intros (mid & [Hs ->]%appendLP_Ok & [Hf ->]%IH). by rewrite app_assoc.
    + intros ([Hs Hf] & ->). exists (dst ++ LP f). rewrite appendLP_Ok, IH, app_assoc. done.
Qed.

Lemma LPs_inj fs : forall gs, Forall short fs -> Forall short gs -> LPs fs = LPs gs -> fs = gs.
Proof.
  induction fs as [|f fs IH]; intros [|g gs] Hf Hg He; [done|done|done|].
  apply Forall_cons in Hf as [Hf Hfs]. apply Forall_cons in Hg as [Hg Hgs].
  unfold LPs in He. cbn [map concat] in He.
  pose proof (readLP_LP f (concat (map LP fs)) Hf) as H1. rewrite He, readLP_LP in H1 by done. injection H1 as -> H1.
  f_equal. by apply IH.
Qed.

(** The version fields of an AAD are 32-bit integers, as their type says. *)
Definition aad_typed (a : AAD) : Prop :=
  match a with
  | WrappedDEKAAD _ _ _ v m => uint32 v /\ uint32 m
  | WrappedMasterAAD v m | WrappedTokenKeyAAD v m => uint32 v /\ uint32 m
  | _ => True
  end.

Lemma project_fields o p t r f e k s :
  fields (ProjectFieldAAD o p t r f e k s) =
  [o; p; t; r; f] ++ (if bool_decide (e = [] /\ k = [] /\ s = []) then [] else [e; k; s]).
Proof. case_bool_decide as Hc; [by destruct Hc as (-> & -> & ->)|]. cbn. destruct e, k, s; try done. naive_solver. Qed.

Lemma fields_inj a b : kind a = kind b -> aad_typed a -> aad_typed b -> fields a = fields b -> a = b.
Proof.
  destruct a, b; intros Hk Ha Hb; try discriminate Hk; clear Hk.
  5: { rewrite !project_fields. intros [H1 H2]%app_inj_1; [|done]. simplify_eq.
       do 2 case_bool_decide; [|done|done|]; destruct_and?; simplify_eq; done. }
  all: cbn [fields aad_typed] in *; intros He;
    repeat match goal with H : _ /\ _ |- _ => destruct H end;
    pose proof (f_equal (fun l => nth 0 l []) He); pose proof (f_equal (fun l => nth 1 l []) He);
    pose proof (f_equal (fun l => nth 2 l []) He); pose proof (f_equal (fun l => nth 3 l []) He);
    pose proof (f_equal (fun l => nth 4 l []) He); pose proof (f_equal (fun l => nth 5 l []) He); clear He; cbn [nth] in *;
    repeat match goal with H : be32 _ = be32 _ |- _ => apply be32_inj in H; [|assumption..] end; congruence.
Qed.

(** ** The header *)
Definition byte (z : Z) : Prop := 0 <= z < 256.

Record header_typed (h : header) : Prop := {
  ht_format : byte (h_format h); ht_kind : byte (h_kind h); ht_alg : byte (h_alg h);
  ht_id : short (h_keyID h); ht_version : uint32 (h_keyVersion h); ht_nonce : short (h_nonce h) }.

Definition header_bytes (h : header) : bytes :=
  [chr (h_format h); chr (h_kind h); chr (h_alg h)] ++ LP (h_keyID h) ++ be32 (h_keyVersion h) ++ LP (h_nonce h).

Lemma appendHeader_Ok h out : appendHeader [] h = Ok out <-> short (h_keyID h) /\ short (h_nonce h) /\ out = header_bytes h.
Proof.
  unfold appendHeader, header_bytes. rewrite bind_Ok. cbn [app]. split.
  - intros (mid & [H1 ->]%appendLP_Ok & [H2 ->]%appendLP_Ok). split_and!; [done..|]. by rewrite <- !app_assoc.
  - intros (H1 & H2 & ->). eexists. rewrite !appendLP_Ok. split; [by split|]. split; [done|]. by rewrite <- !app_assoc.
Qed.

Lemma parseHeader_bytes h rest : header_typed h -> h_format h = formatV1 -> parseHeader (header_bytes h ++ rest) = Ok (h, rest).
Proof.
  intros [Hf Hk Ha Hi Hv Hn] Hfmt. destruct h as [fmt kd alg kid ver nonce].
  cbn [h_format h_kind h_alg h_keyID h_keyVersion h_nonce] in *. subst fmt.
  unfold header_bytes. cbn [h_format h_kind h_alg h_keyID h_keyVersion h_nonce]. rewrite <- !app_assoc.
  pose proof (readLP_LP kid (be32 ver ++ LP nonce ++ rest) Hi) as HX. revert HX.
  generalize (LP kid ++ be32 ver ++ LP nonce ++ rest). intros X HX. cbn [app parseHeader].
  rewrite !ord_chr by done. change (formatV1 =? formatV1) with true. cbn [negb]. rewrite HX. cbn [mbind result_bind].
  assert (bsize (be32 ver ++ LP nonce ++ rest) <? 4 = false) as ->. { apply Z.ltb_ge. unfold bsize. cbn [be32 app length]. lia. }
  rewrite Uint32_be32 by done. change (drop 4 (be32 ver ++ LP nonce ++ rest)) with (LP nonce ++ rest). rewrite readLP_LP by done. done.
Qed.

Lemma parseHeader_Ok record h rest : parseHeader record = Ok (h, rest) ->
  record = header_bytes h ++ rest /\ header_typed h /\ h_format h = formatV1.
Proof.
  destruct record as [|f [|k [|a buf]]]; [done..|]. cbn [parseHeader].
  destruct (Z.eqb_spec (ord f) formatV1) as [Hf|]; [cbn [negb]|done].
  intros ([kid buf1] & H1 & H2)%bind_Ok. destruct (Z.ltb_spec (bsize buf1) 4) as [|Hlen]; [done|].
  apply bind_Ok in H2 as ([nonce buf2] & H2 & [= <- <-]).
  apply readLP_Ok in H1 as [-> Hs1]. apply readLP_Ok in H2 as [H2 Hs2].
  destruct buf1 as [|b0 [|b1 [|b2 [|b3 t]]]]; [unfold bsize in Hlen; cbn in Hlen; lia..|].
  change (drop 4 (b0 :: b1 :: b2 :: b3 :: t)) with t in H2.
  pose proof (Uint32_bound (b0 :: b1 :: b2 :: b3 :: t)) as Hb.
  split_and!; [|split; cbn; try done; unfold byte; pose proof (ord_bounds f); pose proof (ord_bounds k); pose proof (ord_bounds a); lia|done].
  unfold header_bytes. cbn [h_format h_kind h_alg h_keyID h_keyVersion h_nonce]. rewrite !chr_ord, be32_Uint32, H2.
  cbn [app]. by rewrite <- !app_assoc.
Qed.

(** ** Records *)
Section Records.
Context `{AEAD}.

(** The header of a record, and the associated data it is sealed with. *)
Definition record_header (id : bytes) (v : Z) (a : AAD) (nonce : bytes) : header :=
  MkHeader formatV1 (kind a) algXChaCha20Poly1305 id v nonce.
Definition record_aad (id : bytes) (v : Z) (a : AAD) (nonce : bytes) : bytes :=
  header_bytes (record_header id v a nonce) ++ LPs (fields a).

Lemma short_nonce n : length n = NonceSizeX -> short n.
Proof. unfold short, bsize, MaxUint32, NonceSizeX. lia. Qed.

Lemma seal_Ok rnd key id v a pt record : seal rnd key id v a pt = Ok record <->
  exists nonce, rnd = Some nonce /\ length nonce = NonceSizeX /\ length key = KeySize /\ short id /\ Forall short (fields a) /\
    record = header_bytes (record_header id v a nonce) ++ aead_Seal key nonce pt (record_aad id v a nonce).
Proof.
  unfold seal, ReadFull, appendAAD. split.
  - intros (nonce & Hr & Hs)%bind_Ok. destruct rnd as [b|]; [|done].
    destruct (Nat.eqb_spec (length b) NonceSizeX) as [Hn|]; [injection Hr as <-|done].
    destruct (Nat.eqb_spec (length key) KeySize); [cbn [negb] in Hs|done].
    apply bind_Ok in Hs as (hd & (Hi & _ & ->)%appendHeader_Ok & Hs).
    apply bind_Ok in Hs as (aad & (Hf & ->)%appendFields_Ok & [= <-]). exists b. done.
  - intros (nonce & -> & Hn & Hk & Hi & Hf & ->). rewrite (proj2 (Nat.eqb_eq _ _) Hn). cbn [mbind result_bind].
    rewrite (proj2 (Nat.eqb_eq _ _) Hk). cbn [negb]. apply bind_Ok. eexists. split; [apply appendHeader_Ok; split_and!; [done|by apply short_nonce|done]|].
    apply bind_Ok. eexists. split; [by apply appendFields_Ok|done].
Qed.

Lemma typed_record_header id v a nonce : short id -> uint32 v -> length nonce = NonceSizeX -> header_typed (record_header id v a nonce).
Proof.
  intros. assert (byte (kind a)) by
    (unfold byte, kind, KindValue, KindWrappedDEK, KindWrappedMaster, KindWrappedTokenKey, KindProjectField,
      KindInstanceField, KindComposeSnapshot; destruct a; lia).
  assert (byte 1) by (unfold byte; lia). split; [assumption|assumption|assumption|assumption|assumption|by apply short_nonce].
Qed.

Lemma open_Ok key id v a record pt : open key id v a record = Ok pt <->
  exists nonce ct, record = header_bytes (record_header id v a nonce) ++ ct /\
    length nonce = NonceSizeX /\ length key = KeySize /\ short id /\ uint32 v /\ Forall short (fields a) /\
    aead_Open key nonce ct (record_aad id v a nonce) = Some pt.
Proof.
  unfold open, appendAAD. split.
  - intros ([h rest] & Hp & Ho)%bind_Ok. apply parseHeader_Ok in Hp as (-> & Ht & Hfmt).
    destruct (_ || _) eqn:Hc in Ho; [done|]. bools.
    repeat match goal with Hb : (_ =? _) = true |- _ => apply Z.eqb_eq in Hb end. rewrite bool_decide_eq_true in *.
    match goal with Hb : (_ =? _)%nat = true |- _ => apply Nat.eqb_eq in Hb end.
    destruct (Nat.eqb_spec (length key) KeySize); [cbn [negb] in Ho|done].
    apply bind_Ok in Ho as (aad & (Hf & ->)%appendFields_Ok & Ho).
    destruct h as [fmt kd alg kid ver nonce]; cbn [h_format h_kind h_alg h_keyID h_keyVersion h_nonce] in *. subst.
    rewrite length_app, Nat.add_sub, take_app_length in Ho.
    exists nonce, rest. destruct Ht as [_ _ _ Hi Hv _]. cbn [h_keyID h_keyVersion] in *.
    split_and!; try done. unfold record_aad, record_header. destruct (aead_Open _ _ _ _); congruence.
  - intros (nonce & ct & -> & Hn & Hk & Hi & Hv & Hf & Ho).
    rewrite parseHeader_bytes by (by apply typed_record_header || done). cbn [mbind result_bind].
    cbn [record_header h_kind h_alg h_keyID h_keyVersion h_nonce].
    rewrite !Z.eqb_refl, bool_decide_eq_true_2 by done. rewrite (proj2 (Nat.eqb_eq _ _) Hn). cbn [negb orb].
    rewrite (proj2 (Nat.eqb_eq _ _) Hk). cbn [negb]. rewrite length_app, Nat.add_sub, take_app_length.
    apply bind_Ok. eexists. split; [by apply appendFields_Ok|]. unfold record_aad in Ho. by rewrite Ho.
Qed.

Lemma header_bytes_inj h h' t t' : header_typed h -> header_typed h' -> h_format h = formatV1 -> h_format h' = formatV1 ->
  header_bytes h ++ t = header_bytes h' ++ t' -> h = h' /\ t = t'.
Proof.
  intros H1 H2 F1 F2 He. pose proof (parseHeader_bytes h t H1 F1) as P1. rewrite He, parseHeader_bytes in P1 by done.
  by injection P1.
Qed.

Lemma seal_opens rnd key id v a pt record : seal rnd key id v a pt = Ok record -> uint32 v -> open key id v a record = Ok pt.
Proof.
  intros (nonce & -> & Hn & Hk & Hi & Hf & ->)%seal_Ok Hv. apply open_Ok. exists nonce. eexists. split; [done|].
  split_and!; [done..|]. by apply aead_correct.
Qed.

Lemma seal_binds rnd key id v a pt record key' id' v' a' pt' :
  seal rnd key id v a pt = Ok record -> uint32 v -> aad_typed a -> aad_typed a' -> open key' id' v' a' record = Ok pt' ->
  key' = key /\ id' = id /\ v' = v /\ a' = a /\ pt' = pt.
Proof.
  intros (nonce & -> & Hn & Hk & Hi & Hf & ->)%seal_Ok Hv Ta Ta' (nonce' & ct & He & Hn' & Hk' & Hi' & Hv' & Hf' & Ho)%open_Ok.
  apply header_bytes_inj in He as [He <-]; [|by apply typed_record_header|by apply typed_record_header|done..].
  injection He as Hkind <- <- <-.
  apply aead_authentic in Ho as (-> & _ & Ha & ->); [|done..]. unfold record_aad in Ha.
  apply header_bytes_inj in Ha as [_ Ha]; [|by apply typed_record_header..|done|done].
  apply LPs_inj in Ha; [|done..]. split_and!; try done. by apply fields_inj.
Qed.
End Records.

(** ** A transparent AEAD

    An instance of the class: the ciphertext spells out what it was sealed
    with. It keeps the promises of the interface (not secrecy, which no theorem
    here is about). *)
Definition esc (s : bytes) : bytes := flat_map (fun c => [chr 1; c]) s ++ [chr 0].

Lemma esc_inj s : forall s' t t', esc s ++ t = esc s' ++ t' -> s = s' /\ t = t'.
Proof.
  unfold esc. induction s as [|c s IH]; intros [|c' s'] t t' He; cbn [flat_map app] in He.
  - injection He as He. done.
  - discriminate He.
  - discriminate He.
  - injection He as -> He. apply IH in He as [-> ->]. done.
Qed.

Lemma CutPrefix_app p s : CutPrefix p (p ++ s) = Some s.
Proof. induction p as [|c p IH]; [done|]. cbn. by rewrite Ascii.eqb_refl. Qed.

Lemma CutPrefix_Some p : forall s r, CutPrefix p s = Some r -> s = p ++ r.
Proof.
  induction p as [|c p IH]; intros s r; [by intros [= ->]|]. destruct s as [|d s]; [done|]. cbn.
  destruct (Ascii.eqb_spec c d) as [->|]; [|done]. intros H. by rewrite (IH _ _ H).
Qed.

#[local, refine] Instance transparentAEAD : AEAD := {
  aead_Seal k n p a := esc k ++ esc n ++ esc a ++ p;
  aead_Open k n c a := CutPrefix (esc k ++ esc n ++ esc a) c }.
Proof.
  - intros k n p a _ _. rewrite !app_assoc. rewrite <- (app_assoc (esc k)). apply CutPrefix_app.
  - intros k k' n n' p p' a a' _ _ H. apply CutPrefix_Some in H. rewrite <- !app_assoc in H.
    apply esc_inj in H as [-> H]. apply esc_inj in H as [-> H]. apply esc_inj in H as [-> H]. done.
Defined.

(** C24. A sealed record opens exactly in its own context. For every AEAD that
    keeps its promises, a record [seal] returned opens under a key, wrapping-key
    id and version, and a row context if and only if they are the ones it was
    sealed with, and then gives back the plaintext: no ciphertext can be moved
    to another row, field, kind, tenant or key version. The length-prefixed
    encoding leaves nothing to confuse: no two contexts have the same
    associated data. *)
Theorem record_opens_only_in_context `{AEAD} (rnd : option bytes) (key id : bytes) (v : Z) (a : AAD) (pt record : bytes)
    (key' id' : bytes) (v' : Z) (a' : AAD) (pt' : bytes)
    (Hs : seal rnd key id v a pt = Ok record) (Hv : uint32 v) (Ta : aad_typed a) (Ta' : aad_typed a') :
  open key' id' v' a' record = Ok pt' <-> key' = key /\ id' = id /\ v' = v /\ a' = a /\ pt' = pt.
Proof.
  split; [by apply (seal_binds rnd)|]. intros (-> & -> & -> & -> & ->). by apply (seal_opens rnd).
Qed.

Lemma record_opens_only_in_context_witness :
  let key := repeat (chr 7) 32 in
  let row id := ValueAAD [chr 1] [chr 2] [chr 3] [chr 4] [id] [chr 5] in
  exists record, seal (Some (repeat (chr 9) 24)) key [chr 6] 1 (row (chr 8)) [chr 42] = Ok record /\
    open key [chr 6] 1 (row (chr 9)) record <> Ok [chr 42].
Proof.
  intros key row. destruct (seal (Some (repeat (chr 9) 24)) key [chr 6] 1 (row (chr 8)) [chr 42]) as [record|e|p] eqn:Hs;
    [|vm_compute in Hs; discriminate..].
  exists record. split; [reflexivity|]. intros Ho.
  apply (record_opens_only_in_context _ _ _ _ _ _ record key [chr 6] 1 (row (chr 9)) [chr 42] Hs) in Ho;
    [|split; [discriminate|reflexivity]|exact I|exact I].
  destruct Ho as (_ & _ & _ & Ho & _). injection Ho as Ho. vm_compute in Ho. discriminate.
Defined.
