(* ===== verification/KeyTables.v ===== *)
(** * The key tables: [internal/store/keys_mutations.go], [internal/store/keyring/keyring.go]

    The three keyring tables of [migrations/postgres/00002_keyring.sql], the
    statements of [queries/postgres/keyring.sql] as what they do to them, and
    the key mutations the store composes from them: creation, DEK, token,
    scanning, master and root rotation, retirement. A mutation runs inside one
    transaction: an error anywhere leaves the tables as they were ([transact]).
    The proof check that opens each of them is [Boundary.Verify]; the locks it
    takes serialize the transactions. Creation times are not kept. *)

From S2P Require Import Prelude Utf8 Envelope.
From Stdlib Require Import Ascii.

#[local] Open Scope Z_scope.

Definition PurposeProject : string := "project".
Definition PurposeInstance : string := "instance".
Definition PurposeToken : string := "token".
Definition PurposeScanning : string := "scanning".

Record WrappedKey := MkWrappedKey {
  wk_ID : bytes; wk_Purpose : string; wk_OrgID : bytes; wk_ProjectID : bytes;
  wk_Version : Z; wk_MasterKeyVersion : Z; wk_RootKeyEpoch : Z; wk_Blob : bytes }.

Inductive keyState := active | retiring | retired.
#[export] Instance keyState_eq_dec : EqDecision keyState.
Proof. solve_decision. Defined.

Record keyRow := MkRow { row_key : WrappedKey; row_state : keyState }.

Record Tables := MkTables { master_keys : list keyRow; tier3_keys : list keyRow; key_generations : list string }.

(** What the migration installs. *)
Definition emptyTables : Tables := MkTables [] [] ["hierarchy"].

Definition ErrNoKey : error := ESentinel "crypto.ErrNoKey".
Definition ErrKeyExists : error := ESentinel "crypto.ErrKeyExists".
Definition ErrStaleMaster : error := ESentinel "crypto.ErrStaleMaster".
Definition ErrMasterRotationBlocked : error := ESentinel "crypto.ErrMasterRotationBlocked".
Definition ErrRootRotationBlocked : error := ESentinel "crypto.ErrRootRotationBlocked".
Definition ErrNotDualWrapped : error := ESentinel "crypto.ErrNotDualWrapped".
Definition ErrRotationSuperseded : error := ESentinel "store.ErrRotationSuperseded".
Definition ErrRootFinalizationPendingDeployment : error := ESentinel "store.ErrRootFinalizationPendingDeployment".
Definition ErrStaleDEK : error := ESentinel "store.ErrStaleDEK".
Definition ErrConflict : error := ESentinel "store.ErrConflict".
Definition ErrNoRows : error := ESentinel "sql.ErrNoRows".

(** ** Statements *)
Definition is_active (r : keyRow) : bool := bool_decide (row_state r = active).
Definition is_retiring (r : keyRow) : bool := bool_decide (row_state r = retiring).
Definition openable (r : keyRow) : bool := is_active r || is_retiring r.

Definition in_scope (p : string) (org project : bytes) (k : WrappedKey) : bool :=
  (wk_Purpose k =s p) && bool_decide (wk_OrgID k = org) && bool_decide (wk_ProjectID k = project).

(** [ORDER BY … DESC] on one column. *)
Fixpoint insertDesc (key : WrappedKey -> Z) (k : WrappedKey) (l : list WrappedKey) : list WrappedKey :=
  match l with
  | [] => [k]
  | x :: l' => if key x <=? key k then k :: l else x :: insertDesc key k l'
  end.
Definition orderDesc (key : WrappedKey -> Z) (l : list WrappedKey) : list WrappedKey := foldr (insertDesc key) [] l.

Definition keysWhere (f : keyRow -> bool) (rows : list keyRow) : list WrappedKey := map row_key (List.filter f rows).

Definition GetActiveMasterKeys (t : Tables) : list WrappedKey :=
  orderDesc wk_RootKeyEpoch (keysWhere is_active (master_keys t)).

Definition GetActiveTier3Key (p : string) (org project : bytes) (t : Tables) : option WrappedKey :=
  head (keysWhere (fun r => is_active r && in_scope p org project (row_key r)) (tier3_keys t)).

Definition GetTier3Versions (p : string) (org project : bytes) (t : Tables) : list WrappedKey :=
  orderDesc wk_Version (keysWhere (fun r => openable r && in_scope p org project (row_key r)) (tier3_keys t)).

(** The statement's order is immaterial: its caller treats each row alone. *)
Definition AllOpenableTier3 (t : Tables) : list WrappedKey := keysWhere openable (tier3_keys t).

(** An [UPDATE]: the rows it touches and how many there were. *)
Definition updateRows (sel : keyRow -> bool) (f : keyRow -> keyRow) (rows : list keyRow) : Z * list keyRow :=
  (Z.of_nat (length (List.filter sel rows)), map (fun r => if sel r then f r else r) rows).

Definition set_state (s : keyState) (r : keyRow) : keyRow := MkRow (row_key r) s.

Definition updateTier3 (sel : keyRow -> bool) (f : keyRow -> keyRow) : ST Tables Z := fun t =>
  let '(n, rows) := updateRows sel f (tier3_keys t) in (Ok n, MkTables (master_keys t) rows (key_generations t)).

Definition updateMasters (sel : keyRow -> bool) (f : keyRow -> keyRow) : ST Tables Z := fun t =>
  let '(n, rows) := updateRows sel f (master_keys t) in (Ok n, MkTables rows (tier3_keys t) (key_generations t)).

(** *** The adapter *)
Definition acquireHierarchy : ST Tables () := fun t =>
  (if contains (key_generations t) "hierarchy" then Ok () else Err ErrNoRows, t).

Definition acquireScope (scope : string) : ST Tables () := fun t =>
  (if contains (key_generations t) scope then Ok () else Err ErrNoRows, t).

Definition activeMasters : ST Tables (list WrappedKey) := fun t => (Ok (GetActiveMasterKeys t), t).

(** Primary key [(version, root_key_epoch)], one active row per epoch. *)
Definition masterConflict (k : WrappedKey) (r : keyRow) : bool :=
  (wk_RootKeyEpoch (row_key r) =? wk_RootKeyEpoch k) && ((wk_Version (row_key r) =? wk_Version k) || is_active r).

Definition insertMasterRow (k : WrappedKey) : ST Tables () := fun t =>
  if existsb (masterConflict k) (master_keys t) then (Err ErrKeyExists, t)
  else (Ok (), MkTables (master_keys t ++ [MkRow k active]) (tier3_keys t) (key_generations t)).

(** Primary key [id], unique [(purpose, org, project, version)], one active row per scope. *)
Definition tier3Conflict (k : WrappedKey) (r : keyRow) : bool :=
  bool_decide (wk_ID (row_key r) = wk_ID k) ||
  in_scope (wk_Purpose k) (wk_OrgID k) (wk_ProjectID k) (row_key r) && ((wk_Version (row_key r) =? wk_Version k) || is_active r).

Definition insertTier3Row (k : WrappedKey) : ST Tables () := fun t =>
  if existsb (tier3Conflict k) (tier3_keys t) then (Err ErrKeyExists, t)
  else (Ok (), MkTables (master_keys t) (tier3_keys t ++ [MkRow k active]) (key_generations t)).

Definition at_version (p : string) (org project : bytes) (v : Z) (r : keyRow) : bool :=
  in_scope p org project (row_key r) && (wk_Version (row_key r) =? v).

Definition retireTier3AtVersion (p : string) (org project : bytes) (v : Z) : ST Tables Z :=
  updateTier3 (fun r => is_active r && at_version p org project v r) (set_state retired).

Definition demoteTier3AtVersion (k : WrappedKey) (v : Z) : ST Tables Z :=
  updateTier3 (fun r => is_active r && at_version (wk_Purpose k) (wk_OrgID k) (wk_ProjectID k) v r) (set_state retiring).

Definition retireMasterAtVersion (v : Z) : ST Tables Z :=
  updateMasters (fun r => is_active r && (wk_Version (row_key r) =? v)) (set_state retired).

Definition retireMasterWrapper (m : WrappedKey) : ST Tables Z :=
  updateMasters (fun r => is_active r && (wk_Version (row_key r) =? wk_Version m) && (wk_RootKeyEpoch (row_key r) =? wk_RootKeyEpoch m))
    (set_state retired).

Definition rewrap (blob : bytes) (mkv : Z) (k : WrappedKey) : WrappedKey :=
  MkWrappedKey (wk_ID k) (wk_Purpose k) (wk_OrgID k) (wk_ProjectID k) (wk_Version k) mkv (wk_RootKeyEpoch k) blob.

Definition updateTier3Wrapping (k : WrappedKey) : ST Tables Z :=
  updateTier3 (fun r => bool_decide (wk_ID (row_key r) = wk_ID k) && (wk_Version (row_key r) =? wk_Version k))
    (fun r => MkRow (rewrap (wk_Blob k) (wk_MasterKeyVersion k) (row_key r)) (row_state r)).

Definition countOpenableTier3NotAtMaster (v : Z) : ST Tables Z := fun t =>
  (Ok (Z.of_nat (length (List.filter (fun r => openable r && negb (wk_MasterKeyVersion (row_key r) =? v)) (tier3_keys t)))), t).

Definition activeTier3State (p : string) (org project : bytes) (v : Z) : ST Tables keyState := fun t =>
  match List.filter (at_version p org project v) (tier3_keys t) with
  | r :: _ => (Ok (row_state r), t)
  | [] => (Err ErrStaleDEK, t)
  end.

Definition retireRetiringTier3ForScope (p : string) (org project : bytes) : ST Tables Z :=
  updateTier3 (fun r => is_retiring r && in_scope p org project (row_key r)) (set_state retired).

Definition insertScopeGenerationRow (scope : string) : ST Tables () := fun t =>
  if contains (key_generations t) scope then (Err ErrKeyExists, t)
  else (Ok (), MkTables (master_keys t) (tier3_keys t) (key_generations t ++ [scope])).

Definition scopeGenerationKey (p : string) (org project : bytes) : string :=
  "tier3:" +:+ p +:+ ":" +:+ String.string_of_list_ascii org +:+ ":" +:+ String.string_of_list_ascii project.

(** ** Mutations *)
Definition one_row (n : Z) : ST Tables () := if n =? 1 then mret () else st_err ErrRotationSuperseded.

Definition assertActiveMaster (masterVersion : Z) : ST Tables () :=
  masters ← activeMasters;
  match masters with
  | [] => st_err (ENew "store: no active master key")
  | _ => if forallb (fun m => wk_Version m =? masterVersion) masters then mret () else st_err ErrStaleMaster
  end.

Definition rotateRootScopedTier3 (k : WrappedKey) (purpose : string) : ST Tables () :=
  _ ← acquireHierarchy;
  n ← retireTier3AtVersion purpose [] [] (wk_Version k - 1);
  _ ← one_row n;
  insertTier3Row k.

Definition rotateDEK (k : WrappedKey) : ST Tables () :=
  _ ← acquireHierarchy;
  _ ← acquireScope (scopeGenerationKey (wk_Purpose k) (wk_OrgID k) (wk_ProjectID k));
  _ ← assertActiveMaster (wk_MasterKeyVersion k);
  n ← demoteTier3AtVersion k (wk_Version k - 1);
  _ ← one_row n;
  insertTier3Row k.

Definition assertActiveDEKVersion (p : string) (org project : bytes) (v : Z) : ST Tables () :=
  s ← activeTier3State p org project v;
  if bool_decide (s = active) then mret () else st_err ErrStaleDEK.

Fixpoint rewrapAll (rows : list WrappedKey) : ST Tables () :=
  match rows with
  | [] => mret ()
  | k :: rows' =>
      n ← updateTier3Wrapping k;
      if n =? 1 then rewrapAll rows' else st_err (ENew "store: tier-3 key vanished during master rotation")
  end.

Definition rotateMasterKey (newMaster : WrappedKey) (rewrapped : list WrappedKey) : ST Tables () :=
  _ ← acquireHierarchy;
  masters ← activeMasters;
  match masters with
  | [m] =>
      if negb (wk_Version newMaster =? wk_Version m + 1) then st_err ErrRotationSuperseded
      else
        n ← retireMasterAtVersion (wk_Version m);
        _ ← one_row n;
        _ ← insertMasterRow newMaster;
        _ ← rewrapAll rewrapped;
        stranded ← countOpenableTier3NotAtMaster (wk_Version newMaster);
        if stranded =? 0 then mret () else st_err ErrRotationSuperseded
  | _ => st_err ErrMasterRotationBlocked
  end.

Definition retireRetiringTier3 (p : string) (org project : bytes) : ST Tables Z :=
  _ ← acquireScope (scopeGenerationKey p org project);
  retireRetiringTier3ForScope p org project.

Definition rootKeyRotatePrepare (w : WrappedKey) : ST Tables () :=
  _ ← acquireHierarchy;
  masters ← activeMasters;
  match masters with
  | [m] => if (wk_Version m =? wk_Version w) && (wk_RootKeyEpoch m + 1 =? wk_RootKeyEpoch w)
           then insertMasterRow w else st_err ErrRootRotationBlocked
  | _ => st_err ErrRootRotationBlocked
  end.

(** [blocked]: a configuration deployment still needs both roots. *)
Definition rootKeyRotateFinalize (blocked : bool) : ST Tables Z :=
  if blocked then st_err ErrRootFinalizationPendingDeployment
  else
    _ ← acquireHierarchy;
    masters ← activeMasters;
    match masters with
    | [new; old] => n ← retireMasterWrapper old; _ ← one_row n; mret (wk_RootKeyEpoch new)
    | _ => st_err ErrNotDualWrapped
    end.

Definition assertRootKeyEpoch (epoch : Z) : ST Tables () :=
  _ ← acquireHierarchy;
  masters ← activeMasters;
  match masters with
  | [a; b] =>
      let latest := Z.max (Z.max 0 (wk_RootKeyEpoch a)) (wk_RootKeyEpoch b) in
      if (epoch =? 0) || negb (latest =? epoch) then st_err ErrRootRotationBlocked else mret ()
  | _ => st_err ErrNotDualWrapped
  end.

(** ** The key store *)
Definition CreateTier3 (k : WrappedKey) : ST Tables () :=
  _ ← acquireHierarchy;
  _ ← assertActiveMaster (wk_MasterKeyVersion k);
  _ ← insertTier3Row k;
  insertScopeGenerationRow (scopeGenerationKey (wk_Purpose k) (wk_OrgID k) (wk_ProjectID k)).

Fixpoint insertTier3All (ks : list WrappedKey) : ST Tables () :=
  match ks with
  | [] => mret ()
  | k :: ks' =>
      _ ← insertTier3Row k;
      _ ← insertScopeGenerationRow (scopeGenerationKey (wk_Purpose k) (wk_OrgID k) (wk_ProjectID k));
      insertTier3All ks'
  end.

Definition CreateHierarchy (master : WrappedKey) (tier3 : list WrappedKey) : ST Tables () :=
  _ ← acquireHierarchy;
  _ ← insertMasterRow master;
  insertTier3All tier3.

(** [chain]: the organization and project the proof is for. *)
Definition insertInitialProjectDEK (org project : bytes) (k : WrappedKey) : ST Tables () :=
  if bool_decide (project = []) || negb (in_scope PurposeProject org project k) || negb (wk_Version k =? 1) then st_err ErrConflict
  else CreateTier3 k.

(** One transaction. *)
Definition transact {A} (f : ST Tables A) : ST Tables A := fun t =>
  match f t with
  | (Ok a, t') => (Ok a, t')
  | (r, _) => (r, t)
  end.
