(* ===== verification/Keyring.v ===== *)
(** * The keyring: [internal/crypto/keyring.go], [token.go], [scanning.go], [project_provision.go]

    The unwrapped key hierarchy of a server process: master keys by version,
    the instance DEK's version set, the token and scanning handles, the bounded
    cache of project DEK sets; loading and first-boot minting, the sealers, and
    the two-phase rotations (prepare, persist, adopt or abort). Key material is
    immutable here: the zeroing of buffers nothing aliases is not modelled.
    Randomness and generated ids are read from the [World]; the key store is
    the tables of [KeyTables.v], each call one transaction. *)

From S2P Require Import Prelude Utf8 Envelope KeyTables.
From Stdlib Require Import Ascii.

#[local] Open Scope Z_scope.

Definition u32 (z : Z) : Z := z mod 2 ^ 32.
Definition B (s : string) : bytes := String.list_ascii_of_string s.

Definition ErrRootKeyFormat : error := ESentinel "crypto.ErrRootKeyFormat".
Definition ErrRootKeyMismatch : error := ESentinel "crypto.ErrRootKeyMismatch".

(** ** The world *)
Record World := MkWorld { w_tables : Tables; w_rnd : list (option bytes); w_ids : list (option bytes) }.

Definition set_tables (t : Tables) (w : World) : World := MkWorld t (w_rnd w) (w_ids w).

Definition store {A} (f : ST Tables A) : ST World A := fun w =>
  let '(r, t) := transact f (w_tables w) in (r, set_tables t w).

(** The next read of [rand.Reader]; an exhausted script is a failing source. *)
Definition nextRandom : ST World (option bytes) := fun w =>
  (Ok (default None (head (w_rnd w))), MkWorld (w_tables w) (tail (w_rnd w)) (w_ids w)).

Definition NewV7 : ST World bytes := fun w =>
  (match default None (head (w_ids w)) with Some id => Ok id | None => Err (ENew "crypto: generate key id") end,
   MkWorld (w_tables w) (w_rnd w) (tail (w_ids w))).

Definition newKey : ST World bytes := r ← nextRandom; st_result (ReadFull r KeySize).

(** The key store's reads. *)
Definition ActiveMasterWrappers : ST World (list WrappedKey) := store (fun t => (Ok (GetActiveMasterKeys t), t)).
Definition ActiveTier3 (p : string) (org project : bytes) : ST World WrappedKey :=
  store (fun t => (match GetActiveTier3Key p org project t with Some k => Ok k | None => Err ErrNoKey end, t)).
Definition Tier3Versions (p : string) (org project : bytes) : ST World (list WrappedKey) :=
  store (fun t => (Ok (GetTier3Versions p org project t), t)).

(** ** Handles *)
Record keyHandle := MkHandle { kh_id : bytes; kh_version : Z; kh_key : bytes }.

Record masterSet := MkMasterSet { ms_active : Z; ms_byVer : gmap Z bytes }.
Definition activeKey (m : masterSet) : bytes := default [] (ms_byVer m !! ms_active m).
Definition singleMaster (version : Z) (key : bytes) : masterSet := MkMasterSet version {[ version := key ]}.

Definition addMaster (version : Z) (key : bytes) (old : masterSet) : masterSet :=
  match ms_byVer old !! version with
  | Some _ => old
  | None => MkMasterSet (ms_active old) (<[ version := key ]> (ms_byVer old))
  end.

Definition activateMaster (version : Z) (old : masterSet) : masterSet :=
  if version <=? ms_active old then old else MkMasterSet version (ms_byVer old).

Definition removeMaster (version : Z) (old : masterSet) : masterSet :=
  if ms_active old =? version then old else MkMasterSet (ms_active old) (delete version (ms_byVer old)).

Record versionSet := MkVersionSet { vs_active : Z; vs_byVer : gmap Z keyHandle }.
Definition activeHandle (vs : versionSet) : keyHandle := default (MkHandle [] 0 []) (vs_byVer vs !! vs_active vs).
Definition singleVersion (h : keyHandle) : versionSet := MkVersionSet (kh_version h) {[ kh_version h := h ]}.

(** [swapHandle.adopt]. *)
Definition adoptHandle (next : keyHandle) (current : option keyHandle) : option keyHandle :=
  match current with
  | Some c => if kh_version next <=? kh_version c then current else Some next
  | None => Some next
  end.

Record Keyring := MkKeyring {
  k_master : masterSet; k_instance : versionSet;
  k_token : option keyHandle; k_scanning : option keyHandle;
  k_deks : list (bytes * bytes * versionSet);    (* most recently used first *)
  k_rootRotationPending : bool; k_haFreshness : bool }.

Definition with_master (f : masterSet -> masterSet) (k : Keyring) : Keyring :=
  MkKeyring (f (k_master k)) (k_instance k) (k_token k) (k_scanning k) (k_deks k) (k_rootRotationPending k) (k_haFreshness k).
Definition with_instance (vs : versionSet) (k : Keyring) : Keyring :=
  MkKeyring (k_master k) vs (k_token k) (k_scanning k) (k_deks k) (k_rootRotationPending k) (k_haFreshness k).
Definition with_deks (d : list (bytes * bytes * versionSet)) (k : Keyring) : Keyring :=
  MkKeyring (k_master k) (k_instance k) (k_token k) (k_scanning k) d (k_rootRotationPending k) (k_haFreshness k).

Section Keyring.
Context `{AEAD}.

Definition sealW (key id : bytes) (v : Z) (a : AAD) (pt : bytes) : ST World bytes :=
  r ← nextRandom; st_result (seal r key id v a pt).

Definition masterKeyID : bytes := B "master".

Definition tier3AAD (row : WrappedKey) : AAD :=
  if wk_Purpose row =s PurposeToken then WrappedTokenKeyAAD (wk_Version row) (wk_MasterKeyVersion row)
  else WrappedDEKAAD (wk_OrgID row) (wk_ProjectID row) (wk_ID row) (wk_Version row) (wk_MasterKeyVersion row).

(** ** Minting and unwrapping *)
Definition mintTier3At (m : masterSet) (p : string) (org project : bytes) (version : Z) : ST World (keyHandle * WrappedKey) :=
  key ← newKey;
  id ← NewV7;
  let row := MkWrappedKey (B "dek_" ++ id) p org project version (ms_active m) 0 [] in
  blob ← sealW (activeKey m) masterKeyID (ms_active m) (tier3AAD row) key;
  mret (MkHandle (wk_ID row) version key, rewrap blob (ms_active m) row).

Definition mintTier3 (m : masterSet) (p : string) (org project : bytes) : ST World (keyHandle * WrappedKey) :=
  mintTier3At m p org project 1.

Definition unwrapTier3 (m : masterSet) (row : WrappedKey) : result keyHandle :=
  match ms_byVer m !! wk_MasterKeyVersion row with
  | None => Err (ENew "crypto: key wrapped under a master version which is not held")
  | Some mkey =>
      match open mkey masterKeyID (wk_MasterKeyVersion row) (tier3AAD row) (wk_Blob row) with
      | Ok key => Ok (MkHandle (wk_ID row) (wk_Version row) key)
      | Err e => Err (EWrap "crypto: unwrap key" e)
      | Panic p => Panic p
      end
  end.

Fixpoint buildFrom (m : masterSet) (vs : versionSet) (rows : list WrappedKey) : result versionSet :=
  match rows with
  | [] => Ok vs
  | row :: rows' =>
      h ← unwrapTier3 m row;
      buildFrom m (MkVersionSet (if vs_active vs <? wk_Version row then wk_Version row else vs_active vs)
                     (<[ wk_Version row := h ]> (vs_byVer vs))) rows'
  end.
Definition buildVersionSet (m : masterSet) (rows : list WrappedKey) : result versionSet := buildFrom m (MkVersionSet 0 ∅) rows.

Definition loadTier3 (m : masterSet) (p : string) (org project : bytes) : ST World keyHandle :=
  row ← ActiveTier3 p org project; st_result (unwrapTier3 m row).

Definition loadTier3Versions (m : masterSet) (p : string) (org project : bytes) : ST World versionSet :=
  rows ← Tier3Versions p org project;
  match rows with
  | [] => st_err (EWrap "crypto: load key" ErrNoKey)
  | _ => st_result (buildVersionSet m rows)
  end.

(** ** Loading *)
Definition masterAAD (w : WrappedKey) : AAD := WrappedMasterAAD (wk_Version w) (wk_RootKeyEpoch w).

Definition unknownFormat (blob : bytes) : bool :=
  match parseHeader blob with Err e => errors_Is e "crypto.ErrUnknownFormat" | _ => false end.

Fixpoint tryWrappers (root : bytes) (wrappers : list WrappedKey) : result (Z * bytes) :=
  match wrappers with
  | [] => Err ErrRootKeyMismatch
  | w :: ws =>
      match open root (be32 (wk_RootKeyEpoch w)) 0 (masterAAD w) (wk_Blob w) with
      | Ok master => Ok (wk_Version w, master)
      | Err _ => tryWrappers root ws
      | Panic p => Panic p
      end
  end.

Definition unwrapMaster (root : bytes) (wrappers : list WrappedKey) : result (Z * bytes) :=
  if existsb (fun w => unknownFormat (wk_Blob w)) wrappers then Err (EWrap "crypto: master key" ErrUnknownFormat)
  else tryWrappers root wrappers.

Definition mintHierarchy (root : bytes) : ST World Keyring :=
  master ← newKey;
  let row := MkWrappedKey [] "" [] [] 1 0 1 [] in
  blob ← sealW root (be32 1) 0 (masterAAD row) master;
  let m := singleMaster 1 master in
  '(instance, instanceRow) ← mintTier3 m PurposeInstance [] [];
  '(token, tokenRow) ← mintTier3 m PurposeToken [] [];
  '(scanning, scanningRow) ← mintTier3 m PurposeScanning [] [];
  _ ← store (CreateHierarchy (rewrap blob 0 row) [instanceRow; tokenRow; scanningRow]);
  mret (MkKeyring m (singleVersion instance) (Some token) (Some scanning) [] false false).

(** [errors.Is(err, ErrX)] on the outcome of a call. *)
Definition attempt {A} (f : ST World A) : ST World (result A) := fun w => let '(r, w') := f w in
  match r with Panic p => (Panic p, w') | _ => (Ok r, w') end.

Definition loadOrMintScanning (m : masterSet) : ST World keyHandle :=
  found ← attempt (ActiveTier3 PurposeScanning [] []);
  let use (r : result WrappedKey) : ST World keyHandle :=
    match r with
    | Ok row => st_result (unwrapTier3 m row)
    | Err e => st_err (EWrap "crypto: load scanning key" e)
    | Panic p => st_result (Panic p)
    end in
  match found with
  | Err e =>
      if errors_Is e "crypto.ErrNoKey" then
        '(handle, newRow) ← mintTier3 m PurposeScanning [] [];
        created ← attempt (store (CreateTier3 newRow));
        match created with
        | Err e' => if errors_Is e' "crypto.ErrKeyExists"
                    then again ← attempt (ActiveTier3 PurposeScanning [] []); use again
                    else st_err e'
        | _ => mret handle
        end
      else use found
  | _ => use found
  end.

Definition loadExisting (root : bytes) (wrappers : list WrappedKey) : ST World Keyring :=
  '(version, master) ← st_result (unwrapMaster root wrappers);
  let m := singleMaster version master in
  instance ← loadTier3Versions m PurposeInstance [] [];
  token ← loadTier3 m PurposeToken [] [];
  scanning ← loadOrMintScanning m;
  mret (MkKeyring m instance (Some token) (Some scanning) [] (1 <? length wrappers)%nat false).

Definition LoadKeyring (root : bytes) : ST World Keyring :=
  if negb (length root =? KeySize)%nat then st_err ErrRootKeyFormat
  else
    wrappers ← ActiveMasterWrappers;
    match wrappers with
    | [] =>
        minted ← attempt (mintHierarchy root);
        match minted with
        | Err e => if errors_Is e "crypto.ErrKeyExists"
                   then wrappers ← ActiveMasterWrappers; loadExisting root wrappers
                   else st_err e
        | _ => st_result minted
        end
    | _ => loadExisting root wrappers
    end.

(** ** Project DEKs *)
Definition dekCacheSize : nat := 1024.

(** The cache is keyed by the length-prefixed pair, so by the pair itself. *)
Definition dekHit (org project : bytes) (e : bytes * bytes * versionSet) : bool :=
  bool_decide (e.1 = (org, project)).
Definition evictDEK (org project : bytes) (d : list (bytes * bytes * versionSet)) : list (bytes * bytes * versionSet) :=
  List.filter (fun e => negb (dekHit org project e)) d.
Definition cacheDEK (org project : bytes) (set : versionSet) (d : list (bytes * bytes * versionSet)) : list (bytes * bytes * versionSet) :=
  take dekCacheSize ((org, project, set) :: d).

Definition evictProjectDEK (org project : bytes) (k : Keyring) : Keyring := with_deks (evictDEK org project (k_deks k)) k.

(** The slow path, under the mutex. *)
Definition rebuildDEKSet (org project : bytes) (k : Keyring) : ST World (versionSet * Keyring) :=
  rows ← Tier3Versions PurposeProject org project;
  let build (rows : list WrappedKey) : ST World (versionSet * Keyring) :=
    set ← st_result (buildVersionSet (k_master k) rows);
    mret (set, with_deks (cacheDEK org project set (k_deks k)) k) in
  match rows with
  | [] =>
      '(handle, newRow) ← mintTier3 (k_master k) PurposeProject org project;
      created ← attempt (store (CreateTier3 newRow));
      match created with
      | Err e => if errors_Is e "crypto.ErrKeyExists" then rows ← Tier3Versions PurposeProject org project; build rows
                 else st_err e
      | _ => let set := singleVersion handle in mret (set, with_deks (cacheDEK org project set (k_deks k)) k)
      end
  | _ => build rows
  end.

Definition projectDEKSet (org project : bytes) (k : Keyring) : ST World (versionSet * Keyring) :=
  match List.filter (dekHit org project) (k_deks k) with
  | e :: _ =>
      let k := with_deks (e :: evictDEK org project (k_deks k)) k in
      if negb (k_haFreshness k) then mret (e.2, k)
      else
        found ← attempt (ActiveTier3 PurposeProject org project);
        match found with
        | Ok row => if wk_Version row =? vs_active e.2 then mret (e.2, k)
                    else rebuildDEKSet org project (evictProjectDEK org project k)
        | Err err => if errors_Is err "crypto.ErrNoKey" then rebuildDEKSet org project (evictProjectDEK org project k)
                     else st_err (EWrap "crypto: revalidate project key" err)
        | Panic p => st_result (Panic p)
        end
  | [] => rebuildDEKSet org project k
  end.

Record ProjectSealer := MkProjectSealer { ps_orgID : bytes; ps_projectID : bytes; ps_deks : versionSet }.

Definition noScope {A} : ST World A := st_err (ENew "crypto: project scope requires org and project ids").
Definition emptyScope (org project : bytes) : bool := bool_decide (org = []) || bool_decide (project = []).

Definition ForProject (org project : bytes) (k : Keyring) : ST World (ProjectSealer * Keyring) :=
  if emptyScope org project then noScope
  else '(set, k) ← projectDEKSet org project k; mret (MkProjectSealer org project set, k).

Definition PrepareNewProject (org project : bytes) (k : Keyring) : ST World (WrappedKey * ProjectSealer) :=
  if emptyScope org project then noScope
  else '(handle, row) ← mintTier3 (k_master k) PurposeProject org project;
       mret (row, MkProjectSealer org project (singleVersion handle)).

(** ** Sealers *)
Definition openVersioned (deks : versionSet) (a : AAD) (record : bytes) : result bytes :=
  '(h, _) ← parseHeader record;
  match vs_byVer deks !! h_keyVersion h with
  | None => Err ErrDecrypt
  | Some dek => open (kh_key dek) (kh_id dek) (kh_version dek) a record
  end.

Definition checkScope (s : ProjectSealer) (org project : bytes) : result () :=
  if bool_decide (org = ps_orgID s) && bool_decide (project = ps_projectID s) then Ok ()
  else Err (ENew "crypto: AAD names another scope").

Definition checkAADScope (s : ProjectSealer) (a : AAD) : result () :=
  match a with
  | ValueAAD org project _ _ _ _ => checkScope s org project
  | ProjectFieldAAD org project _ _ _ _ _ _ => checkScope s org project
  | _ => Err (ENew "crypto: project sealer cannot handle AAD kind")
  end.

Definition ActiveVersion (s : ProjectSealer) : Z := vs_active (ps_deks s).

Definition ProjectSealer_Open (s : ProjectSealer) (a : AAD) (record : bytes) : result bytes :=
  _ ← checkAADScope s a; openVersioned (ps_deks s) a record.

Definition sealUnder (d : keyHandle) (a : AAD) (pt : bytes) : ST World bytes := sealW (kh_key d) (kh_id d) (kh_version d) a pt.

Definition ProjectSealer_Seal (s : ProjectSealer) (a : AAD) (pt : bytes) : ST World bytes :=
  _ ← st_result (checkAADScope s a); sealUnder (activeHandle (ps_deks s)) a pt.

(** The instance sealer writes under the handle captured when it was built. *)
Definition ForInstance (k : Keyring) : keyHandle := activeHandle (k_instance k).
Definition InstanceSealer_SealField (wh : keyHandle) (a : AAD) (pt : bytes) : ST World bytes := sealUnder wh a pt.
Definition InstanceSealer_OpenField (k : Keyring) (a : AAD) (record : bytes) : result bytes := openVersioned (k_instance k) a record.

(** ** Rotations *)
Definition PrepareProjectDEKRotation (org project : bytes) (k : Keyring) : ST World (WrappedKey * Keyring) :=
  if emptyScope org project then noScope
  else
    '(set, k) ← projectDEKSet org project k;
    '(_, row) ← mintTier3At (k_master k) PurposeProject org project (u32 (vs_active set + 1));
    mret (row, k).

Definition PrepareInstanceDEKRotation (k : Keyring) : ST World (keyHandle * WrappedKey) :=
  mintTier3At (k_master k) PurposeInstance [] [] (u32 (vs_active (k_instance k) + 1)).

Definition adoptInstanceDEK (h : keyHandle) (k : Keyring) : Keyring :=
  let old := k_instance k in
  if kh_version h <=? vs_active old then k
  else with_instance (MkVersionSet (kh_version h) (<[ kh_version h := h ]> (vs_byVer old))) k.

Definition ReloadInstanceDEK (k : Keyring) : ST World Keyring :=
  set ← loadTier3Versions (k_master k) PurposeInstance [] []; mret (with_instance set k).

Definition uninitialized {A} : ST World A := st_result (Panic "crypto: uninitialized derivation key handle").

Definition PrepareTokenKeyRotation (k : Keyring) : ST World (keyHandle * WrappedKey) :=
  match k_token k with
  | Some live => mintTier3At (k_master k) PurposeToken [] [] (u32 (kh_version live + 1))
  | None => uninitialized
  end.

Definition PrepareScanningKeyRotation (k : Keyring) : ST World (keyHandle * WrappedKey) :=
  match k_scanning k with
  | Some live => mintTier3At (k_master k) PurposeScanning [] [] (u32 (kh_version live + 1))
  | None => uninitialized
  end.

Definition adoptToken (next : keyHandle) (k : Keyring) : Keyring :=
  MkKeyring (k_master k) (k_instance k) (adoptHandle next (k_token k)) (k_scanning k) (k_deks k) (k_rootRotationPending k) (k_haFreshness k).
Definition adoptScanning (next : keyHandle) (k : Keyring) : Keyring :=
  MkKeyring (k_master k) (k_instance k) (k_token k) (adoptHandle next (k_scanning k)) (k_deks k) (k_rootRotationPending k) (k_haFreshness k).

Fixpoint rewrapRows (m : masterSet) (newMaster : bytes) (newVersion : Z) (rows : list WrappedKey) : ST World (list WrappedKey) :=
  match rows with
  | [] => mret []
  | row :: rows' =>
      h ← st_result (unwrapTier3 m row);
      let moved := rewrap (wk_Blob row) newVersion row in
      blob ← sealW newMaster masterKeyID newVersion (tier3AAD moved) (kh_key h);
      rest ← rewrapRows m newMaster newVersion rows';
      mret (rewrap blob newVersion row :: rest)
  end.

(** The new master row, the re-wrapped rows, the new key, and the keyring in
    which the new version resolves but is not active. *)
Definition PrepareMasterKeyRotation (root : bytes) (k : Keyring) : ST World (WrappedKey * list WrappedKey * Keyring) :=
  if negb (length root =? KeySize)%nat then st_err ErrRootKeyFormat
  else
    wrappers ← ActiveMasterWrappers;
    match wrappers with
    | [cur] =>
        match open root (be32 (wk_RootKeyEpoch cur)) 0 (masterAAD cur) (wk_Blob cur) with
        | Ok _ =>
            let newVersion := u32 (wk_Version cur + 1) in
            newMaster ← newKey;
            let row := MkWrappedKey [] "" [] [] newVersion 0 (wk_RootKeyEpoch cur) [] in
            blob ← sealW root (be32 (wk_RootKeyEpoch cur)) 0 (masterAAD row) newMaster;
            tier3 ← store (fun t => (Ok (AllOpenableTier3 t), t));
            rewrapped ← rewrapRows (k_master k) newMaster newVersion tier3;
            mret (rewrap blob 0 row, rewrapped, with_master (addMaster newVersion newMaster) k)
        | Err _ => st_err ErrRootKeyMismatch
        | Panic p => st_result (Panic p)
        end
    | _ => st_err ErrMasterRotationBlocked
    end.

Definition PrepareRootKeyRotation (newRoot : bytes) (k : Keyring) : ST World WrappedKey :=
  if negb (length newRoot =? KeySize)%nat then st_err ErrRootKeyFormat
  else
    wrappers ← ActiveMasterWrappers;
    match wrappers with
    | [cur] =>
        if negb (ms_active (k_master k) =? wk_Version cur) then st_err ErrStaleMaster
        else
          let newEpoch := u32 (wk_RootKeyEpoch cur + 1) in
          let row := MkWrappedKey [] "" [] [] (wk_Version cur) 0 newEpoch [] in
          blob ← sealW newRoot (be32 newEpoch) 0 (masterAAD row) (activeKey (k_master k));
          mret (rewrap blob 0 row)
    | _ => st_err ErrRootRotationBlocked
    end.

Definition newestWrapper (first : WrappedKey) (rest : list WrappedKey) : WrappedKey :=
  foldl (fun newest w => if wk_RootKeyEpoch newest <? wk_RootKeyEpoch w then w else newest) first rest.

Definition VerifyRootKeyRotation (primaryRoot : bytes) (k : Keyring) : ST World Z :=
  if negb (length primaryRoot =? KeySize)%nat then st_err ErrRootKeyFormat
  else
    wrappers ← ActiveMasterWrappers;
    match wrappers with
    | first :: (_ :: _) as rest =>
        let newest := newestWrapper first rest in
        match open primaryRoot (be32 (wk_RootKeyEpoch newest)) 0 (masterAAD newest) (wk_Blob newest) with
        | Ok master =>
            if (wk_Version newest =? ms_active (k_master k)) && bool_decide (master = activeKey (k_master k))
            then mret (wk_RootKeyEpoch newest) else st_err ErrRootKeyMismatch
        | Err _ => st_err ErrRootKeyMismatch
        | Panic p => st_result (Panic p)
        end
    | _ => st_err ErrNotDualWrapped
    end.
End Keyring.
