(* ===== verification/KeyLifecycle.v ===== *)
(** * The life of keys and ciphertexts: [internal/service/{rotation,reencrypt,fence}.go]

    One server process over the key tables and the ciphertexts sealed under
    them, as a step relation. Every transaction is one step; between the steps
    of one request any other request may run, and the process may crash and be
    booted again at any point. The requests are the writers behind the writer
    fence, [rotate-dek], [rotate-token-key], [rotate-scanning-key],
    [rotate-master-key], the phases of [rotate-root-key], and [reencrypt] with
    its dryness gate. The hierarchy lock of the keyring serializes master and
    root rotations, as the services take it. *)

From S2P Require Import Prelude Utf8 Envelope KeyTables Keyring.
From Stdlib Require Import Ascii.

#[local] Open Scope Z_scope.

(** ** Ciphertexts *)

(** A ciphertext cell: its key scope, the context its AAD names, the record, the
    [dek_version] column of the instance tables that have one, and the plaintext
    it was sealed from, which no operation reads. *)
Record cell := MkCell { c_purpose : string; c_org : bytes; c_project : bytes; c_aad : AAD; c_record : bytes; c_column : option Z; c_plain : bytes }.
Abbreviation cells := (gmap nat cell).

(** A writer's captured write side: the scope and the handle it seals under. *)
Record writer := MkWriter { wr_purpose : string; wr_org : bytes; wr_project : bytes; wr_handle : keyHandle }.

Definition cell_in (p : string) (org project : bytes) (c : cell) : bool :=
  (c_purpose c =s p) && bool_decide (c_org c = org) && bool_decide (c_project c = project).

Section Lifecycle.
Context `{AEAD}.

(** The version column of a row: six of the seven instance tables store one;
    [remotes] and the project tables do not. *)
Definition columnOf (hasColumn : bool) (wr : writer) : option Z :=
  if hasColumn && (wr_purpose wr =s PurposeInstance) then Some (kh_version (wr_handle wr)) else None.

(** A fenced write: [fenceProject] / [fenceInstance], then the row. *)
Definition writeCell (t : Tables) (wr : writer) (hasColumn : bool) (rnd : option bytes) (a : AAD) (pt : bytes) : result cell :=
  _ ← (assertActiveDEKVersion (wr_purpose wr) (wr_org wr) (wr_project wr) (kh_version (wr_handle wr)) t).1;
  record ← seal rnd (kh_key (wr_handle wr)) (kh_id (wr_handle wr)) (kh_version (wr_handle wr)) a pt;
  Ok (MkCell (wr_purpose wr) (wr_org wr) (wr_project wr) a record (columnOf hasColumn wr) pt).

(** [versionOf] of the table: the column where there is one, else the version the
    record names. *)
Definition versionOf (c : cell) : result Z := match c_column c with Some v => Ok v | None => RecordKeyVersion (c_record c) end.

(** One row of the re-encryption walk, under the version set and write handle
    of the sealer the walk holds. *)
Definition resealCell (t : Tables) (set : versionSet) (wr : writer) (rnd : option bytes) (c : cell) : result cell :=
  _ ← (assertActiveDEKVersion (wr_purpose wr) (wr_org wr) (wr_project wr) (kh_version (wr_handle wr)) t).1;
  v ← versionOf c;
  if v =? kh_version (wr_handle wr) then Ok c
  else
    plain ← openVersioned set (c_aad c) (c_record c);
    resealed ← seal rnd (kh_key (wr_handle wr)) (kh_id (wr_handle wr)) (kh_version (wr_handle wr)) (c_aad c) plain;
    Ok (MkCell (c_purpose c) (c_org c) (c_project c) (c_aad c) resealed ((fun _ => kh_version (wr_handle wr)) <$> c_column c) plain).

(** [projectTableStraggler] / [instanceStraggler] over every cell of the scope. *)
Definition straggler (p : string) (org project : bytes) (version : Z) (c : cell) : bool :=
  cell_in p org project c && match versionOf c with Ok v => negb (v =? version) | _ => true end.

Definition dry (p : string) (org project : bytes) (version : Z) (cs : cells) : bool :=
  forallb (fun kc => negb (straggler p org project version kc.2)) (map_to_list cs).

(** [retireProject] / [retireInstance]. *)
Definition retireScope (p : string) (org project : bytes) (version : Z) (cs : cells) : ST Tables () :=
  _ ← assertActiveDEKVersion p org project version;
  if dry p org project version cs then _ ← retireRetiringTier3 p org project; mret () else st_err ErrConflict.

(** ** The system *)

(** What the holder of the hierarchy lock is doing. *)
Inductive hierarchyOp :=
  | MasterRotation (row : WrappedKey) (rewrapped : list WrappedKey) (committed : bool)
  | RootRotation (row : WrappedKey) (newRoot : bytes).

Record Sys := MkSys {
  s_tables : Tables;
  s_cells : cells;
  s_proc : option Keyring;
  s_lock : option hierarchyOp;
  s_rows : list (keyHandle * WrappedKey);      (* tier-3 successors prepared, not committed *)
  s_done : list (keyHandle * WrappedKey);      (* committed, not adopted *)
  s_writers : list writer;
  s_sets : list (string * bytes * bytes * versionSet);   (* version sets sealers hold *)
  s_roots : gmap Z bytes }.                    (* the operator's root key of each epoch *)

Definition set_proc (k : Keyring) (s : Sys) : Sys :=
  MkSys (s_tables s) (s_cells s) (Some k) (s_lock s) (s_rows s) (s_done s) (s_writers s) (s_sets s) (s_roots s).
Definition set_lock (l : option hierarchyOp) (s : Sys) : Sys :=
  MkSys (s_tables s) (s_cells s) (s_proc s) l (s_rows s) (s_done s) (s_writers s) (s_sets s) (s_roots s).
Definition set_tab (t : Tables) (s : Sys) : Sys :=
  MkSys t (s_cells s) (s_proc s) (s_lock s) (s_rows s) (s_done s) (s_writers s) (s_sets s) (s_roots s).
Definition set_cells (c : cells) (s : Sys) : Sys :=
  MkSys (s_tables s) c (s_proc s) (s_lock s) (s_rows s) (s_done s) (s_writers s) (s_sets s) (s_roots s).
Definition add_row (r : keyHandle * WrappedKey) (s : Sys) : Sys :=
  MkSys (s_tables s) (s_cells s) (s_proc s) (s_lock s) (r :: s_rows s) (s_done s) (s_writers s) (s_sets s) (s_roots s).
Definition add_done (r : keyHandle * WrappedKey) (s : Sys) : Sys :=
  MkSys (s_tables s) (s_cells s) (s_proc s) (s_lock s) (s_rows s) (r :: s_done s) (s_writers s) (s_sets s) (s_roots s).
Definition add_sealer (p : string) (org project : bytes) (set : versionSet) (s : Sys) : Sys :=
  MkSys (s_tables s) (s_cells s) (s_proc s) (s_lock s) (s_rows s) (s_done s)
    (MkWriter p org project (activeHandle set) :: s_writers s) ((p, org, project, set) :: s_sets s) (s_roots s).
Definition set_roots (m : gmap Z bytes) (s : Sys) : Sys :=
  MkSys (s_tables s) (s_cells s) (s_proc s) (s_lock s) (s_rows s) (s_done s) (s_writers s) (s_sets s) m.

(** A process that has just booted over these tables. *)
Definition booted (t : Tables) (cs : cells) (roots : gmap Z bytes) (k : Keyring) : Sys :=
  MkSys t cs (Some k) None [] [] [] [] roots.

(** The store does not compare the master a token or scanning successor was
    wrapped under with the active one when it commits it. [guard] is a condition
    on those commits: [unchecked] is the code, [masterActive] the check that
    [rotateDEK] and [CreateTier3] make. *)
Definition unchecked (t : Tables) (row : WrappedKey) : bool := true.
Definition masterActive (t : Tables) (row : WrappedKey) : bool := is_ok (assertActiveMaster (wk_MasterKeyVersion row) t).1.

Context (guard : Tables -> WrappedKey -> bool).

Inductive step (s : Sys) : Sys -> Prop :=
  (** The process dies: what it had prepared or adopted in memory is gone. *)
  | step_crash : step s (MkSys (s_tables s) (s_cells s) None None [] [] [] [] (s_roots s))
  | step_boot e root rnd ids k w : s_proc s = None -> s_roots s !! e = Some root ->
      LoadKeyring root (MkWorld (s_tables s) rnd ids) = (Ok k, w) ->
      step s (booted (w_tables w) (s_cells s) (s_roots s) k)
  (** Sealers. *)
  | step_project_sealer k org project rnd ids ps k' w : s_proc s = Some k ->
      ForProject org project k (MkWorld (s_tables s) rnd ids) = (Ok (ps, k'), w) ->
      step s (add_sealer PurposeProject org project (ps_deks ps) (set_proc k' (set_tab (w_tables w) s)))
  | step_instance_sealer k : s_proc s = Some k ->
      step s (add_sealer PurposeInstance [] [] (k_instance k) s)
  | step_write wr hasColumn rnd a pt i c : In wr (s_writers s) -> aad_typed a -> writeCell (s_tables s) wr hasColumn rnd a pt = Ok c ->
      step s (set_cells (<[ i := c ]> (s_cells s)) s)
  | step_delete i : step s (set_cells (delete i (s_cells s)) s)
  (** Re-encryption. *)
  | step_reseal p org project set wr rnd i c c' : In (p, org, project, set) (s_sets s) ->
      wr = MkWriter p org project (activeHandle set) -> s_cells s !! i = Some c -> cell_in p org project c = true ->
      resealCell (s_tables s) set wr rnd c = Ok c' ->
      step s (set_cells (<[ i := c' ]> (s_cells s)) s)
  | step_retire p org project version t : transact (retireScope p org project version (s_cells s)) (s_tables s) = (Ok (), t) ->
      step s (set_tab t s)
  | step_evict k org project : s_proc s = Some k -> step s (set_proc (evictProjectDEK org project k) s)
  | step_reload k rnd ids k' w : s_proc s = Some k ->
      ReloadInstanceDEK k (MkWorld (s_tables s) rnd ids) = (Ok k', w) -> step s (set_proc k' s)
  (** Tier-3 rotations: prepare, commit, adopt. *)
  | step_prepare_project k org project rnd ids row k' w : s_proc s = Some k ->
      PrepareProjectDEKRotation org project k (MkWorld (s_tables s) rnd ids) = (Ok (row, k'), w) ->
      step s (add_row (MkHandle (wk_ID row) (wk_Version row) [], row) (set_proc k' (set_tab (w_tables w) s)))
  | step_prepare_instance k rnd ids h row w : s_proc s = Some k ->
      PrepareInstanceDEKRotation k (MkWorld (s_tables s) rnd ids) = (Ok (h, row), w) -> step s (add_row (h, row) s)
  | step_prepare_token k rnd ids h row w : s_proc s = Some k ->
      PrepareTokenKeyRotation k (MkWorld (s_tables s) rnd ids) = (Ok (h, row), w) -> step s (add_row (h, row) s)
  | step_prepare_scanning k rnd ids h row w : s_proc s = Some k ->
      PrepareScanningKeyRotation k (MkWorld (s_tables s) rnd ids) = (Ok (h, row), w) -> step s (add_row (h, row) s)
  | step_rotate_dek h row t : In (h, row) (s_rows s) -> transact (rotateDEK row) (s_tables s) = (Ok (), t) ->
      wk_Purpose row = PurposeProject \/ wk_Purpose row = PurposeInstance ->
      step s (add_done (h, row) (set_tab t s))
  | step_rotate_token h row p t : In (h, row) (s_rows s) -> wk_Purpose row = p -> p = PurposeToken \/ p = PurposeScanning ->
      guard (s_tables s) row = true ->
      transact (rotateRootScopedTier3 row p) (s_tables s) = (Ok (), t) ->
      step s (add_done (h, row) (set_tab t s))
  | step_adopt_instance k h row : s_proc s = Some k -> In (h, row) (s_done s) -> wk_Purpose row = PurposeInstance ->
      step s (set_proc (adoptInstanceDEK h k) s)
  | step_adopt_token k h row : s_proc s = Some k -> In (h, row) (s_done s) -> wk_Purpose row = PurposeToken ->
      step s (set_proc (adoptToken h k) s)
  | step_adopt_scanning k h row : s_proc s = Some k -> In (h, row) (s_done s) -> wk_Purpose row = PurposeScanning ->
      step s (set_proc (adoptScanning h k) s)
  (** Master rotation. *)
  | step_prepare_master k root rnd ids row rewrapped k' w : s_proc s = Some k -> s_lock s = None ->
      PrepareMasterKeyRotation root k (MkWorld (s_tables s) rnd ids) = (Ok (row, rewrapped, k'), w) ->
      step s (set_lock (Some (MasterRotation row rewrapped false)) (set_proc k' s))
  | step_commit_master row rewrapped t : s_lock s = Some (MasterRotation row rewrapped false) ->
      transact (rotateMasterKey row rewrapped) (s_tables s) = (Ok (), t) ->
      step s (set_lock (Some (MasterRotation row rewrapped true)) (set_tab t s))
  | step_adopt_master k row rewrapped : s_proc s = Some k -> s_lock s = Some (MasterRotation row rewrapped true) ->
      step s (set_lock None (set_proc (with_master (activateMaster (wk_Version row)) k) s))
  (** The transaction failed, or its answer was lost. *)
  | step_abort_master k row rewrapped committed : s_proc s = Some k -> s_lock s = Some (MasterRotation row rewrapped committed) ->
      step s (set_lock None (set_proc (with_master (removeMaster (wk_Version row)) k) s))
  (** Root rotation. *)
  | step_prepare_root k newRoot rnd ids row w : s_proc s = Some k -> s_lock s = None ->
      PrepareRootKeyRotation newRoot k (MkWorld (s_tables s) rnd ids) = (Ok row, w) ->
      step s (set_lock (Some (RootRotation row newRoot)) s)
  | step_commit_root row newRoot t : s_lock s = Some (RootRotation row newRoot) ->
      transact (rootKeyRotatePrepare row) (s_tables s) = (Ok (), t) ->
      step s (set_lock None (set_roots (<[ wk_RootKeyEpoch row := newRoot ]> (s_roots s)) (set_tab t s)))
  | step_abort_root row newRoot : s_lock s = Some (RootRotation row newRoot) -> step s (set_lock None s)
  | step_finalize k primary blocked rnd ids epoch w e t : s_proc s = Some k -> s_lock s = None ->
      VerifyRootKeyRotation primary k (MkWorld (s_tables s) rnd ids) = (Ok epoch, w) ->
      transact (rootKeyRotateFinalize blocked) (s_tables s) = (Ok e, t) ->
      step s (set_tab t s).

(** The first boot over empty tables, and everything after it. *)
Inductive reachable : Sys -> Prop :=
  | reachable_first root rnd ids k w : LoadKeyring root (MkWorld emptyTables rnd ids) = (Ok k, w) ->
      reachable (booted (w_tables w) ∅ {[ 1 := root ]} k)
  | reachable_step s s' : reachable s -> step s s' -> reachable s'.
End Lifecycle.
