(* ===== verification/KeyLifecycleSpec.v ===== *)
(** * What the key lifecycle guarantees

    The invariant of the system of [KeyLifecycle.v]: every still-openable
    tier-3 row is wrapped under the active master, every active master wrapper
    opens under its epoch's root, and every stored ciphertext opens under an
    openable version of its scope's key. It holds as long as token and scanning
    rotations commit under the active master, which the code does not check:
    without that the hierarchy can become unbootable. *)

From S2P Require Import Prelude Utf8 Envelope KeyTables Keyring KeyLifecycle.
From Stdlib Require Import Ascii.

#[local] Open Scope Z_scope.

(** ** Tables *)
Lemma insertDesc_In f k l x : In x (insertDesc f k l) <-> x = k \/ In x l.
Proof.
  induction l as [|y l IH]; cbn; [naive_solver|]. destruct (f y <=? f k); cbn; [naive_solver|]. rewrite IH. naive_solver.
Qed.

Lemma orderDesc_In f l x : In x (orderDesc f l) <-> In x l.
Proof. unfold orderDesc. induction l as [|y l IH]; cbn; [done|]. rewrite insertDesc_In, IH. naive_solver. Qed.

Lemma keysWhere_In f rows k : In k (keysWhere f rows) <-> exists r, In r rows /\ f r = true /\ row_key r = k.
Proof. unfold keysWhere. rewrite in_map_iff. setoid_rewrite filter_In. naive_solver. Qed.

Lemma activeMaster_In t k : In k (GetActiveMasterKeys t) <-> exists r, In r (master_keys t) /\ is_active r = true /\ row_key r = k.
Proof. unfold GetActiveMasterKeys. by rewrite orderDesc_In, keysWhere_In. Qed.

Lemma tier3Versions_In p org project t k : In k (GetTier3Versions p org project t) <->
  exists r, In r (tier3_keys t) /\ openable r = true /\ in_scope p org project (row_key r) = true /\ row_key r = k.
Proof. unfold GetTier3Versions. rewrite orderDesc_In, keysWhere_In. split; [intros (r & H1 & [H2 H3]%andb_prop & H4)|intros (r & H1 & H2 & H3 & H4)]; exists r; rewrite ?H2, ?H3; auto. Qed.

Lemma in_scope_eq p org project k : in_scope p org project k = true <-> wk_Purpose k = p /\ wk_OrgID k = org /\ wk_ProjectID k = project.
Proof. unfold in_scope. rewrite !andb_true_iff, String.eqb_eq, !bool_decide_eq_true. tauto. Qed.

Lemma active_openable r : is_active r = true -> openable r = true.
Proof. unfold openable. by intros ->. Qed.

(** A transaction that succeeded ran its statements. *)
Lemma transact_Ok {A} (f : ST Tables A) t a t' : transact f t = (Ok a, t') <-> f t = (Ok a, t').
Proof. unfold transact. destruct (f t) as [[?|?|?] ?]; naive_solver. Qed.

Lemma one_row_Ok n t t' : one_row n t = (Ok (), t') <-> n = 1 /\ t' = t.
Proof. unfold one_row. destruct (Z.eqb_spec n 1); split; [intros [= <-]; done|intros [_ ->]; done|done|intros [? _]; done]. Qed.

Lemma acquireHierarchy_Ok t t' : acquireHierarchy t = (Ok (), t') -> t' = t.
Proof. unfold acquireHierarchy. destruct (contains _ _); [intros [= <-]; done|done]. Qed.

Lemma acquireScope_Ok p t t' : acquireScope p t = (Ok (), t') -> t' = t.
Proof. unfold acquireScope. destruct (contains _ _); [intros [= <-]; done|done]. Qed.

Lemma assertActiveMaster_Ok v t t' : assertActiveMaster v t = (Ok (), t') ->
  t' = t /\ GetActiveMasterKeys t <> [] /\ (forall k, In k (GetActiveMasterKeys t) -> wk_Version k = v).
Proof.
  unfold assertActiveMaster. intros (masters & t1 & H1 & H2)%st_bind_Ok. injection H1 as <- <-.
  destruct (GetActiveMasterKeys t) as [|m ms]; [done|]. destruct (forallb _ _) eqn:Hall; [|done]. injection H2 as <-.
  split_and!; [done..|]. intros k Hk. apply (forallb_In _ _ _ Hall) in Hk. by apply Z.eqb_eq.
Qed.

(** What [INSERT] into the tier-3 table does when no constraint refuses it. *)
Lemma insertTier3Row_Ok k t t' : insertTier3Row k t = (Ok (), t') ->
  t' = MkTables (master_keys t) (tier3_keys t ++ [MkRow k active]) (key_generations t) /\
  (forall r, In r (tier3_keys t) -> wk_ID (row_key r) <> wk_ID k /\
     (in_scope (wk_Purpose k) (wk_OrgID k) (wk_ProjectID k) (row_key r) = true -> wk_Version (row_key r) <> wk_Version k)).
Proof.
  unfold insertTier3Row. destruct (existsb _ _) eqn:He; [done|]. intros [= <-]. split; [done|].
  intros r Hr. apply (existsb_false _ _ _ He) in Hr. unfold tier3Conflict in Hr. bools. rewrite bool_decide_eq_false in *.
  split; [done|]. intros Hs. rewrite Hs in *. cbn [andb] in *. bools. by apply Z.eqb_neq.
Qed.

Lemma insertMasterRow_Ok k t t' : insertMasterRow k t = (Ok (), t') ->
  t' = MkTables (master_keys t ++ [MkRow k active]) (tier3_keys t) (key_generations t) /\
  (forall r, In r (master_keys t) -> is_active r = true -> wk_RootKeyEpoch (row_key r) <> wk_RootKeyEpoch k).
Proof.
  unfold insertMasterRow. destruct (existsb _ _) eqn:He; [done|]. intros [= <-]. split; [done|].
  intros r Hr Ha. apply (existsb_false _ _ _ He) in Hr. unfold masterConflict in Hr. rewrite Ha, orb_true_r, andb_true_r in Hr.
  by apply Z.eqb_neq.
Qed.

Lemma insertScopeGeneration_Ok s t t' : insertScopeGenerationRow s t = (Ok (), t') ->
  master_keys t' = master_keys t /\ tier3_keys t' = tier3_keys t.
Proof. unfold insertScopeGenerationRow. destruct (contains _ _); [done|]. intros [= <-]. done. Qed.

Lemma assertActiveDEK_Ok p org project v t t' : assertActiveDEKVersion p org project v t = (Ok (), t') ->
  t' = t /\ exists r, In r (tier3_keys t) /\ in_scope p org project (row_key r) = true /\ wk_Version (row_key r) = v /\ is_active r = true.
Proof.
  unfold assertActiveDEKVersion. intros (st & t1 & H1 & H2)%st_bind_Ok. unfold activeTier3State in H1.
  destruct (List.filter _ _) as [|r rs] eqn:Hf; [done|]. injection H1 as <- <-.
  destruct (bool_decide_reflect (row_state r = active)) as [Hs|]; [|done]. injection H2 as <-. split; [done|].
  assert (In r (List.filter (at_version p org project v) (tier3_keys t))) as Hr by (rewrite Hf; by left).
  apply filter_In in Hr as [Hr Ha]. unfold at_version in Ha. apply andb_prop in Ha as [Ha1 Ha2]. exists r.
  split_and!; [done..|by apply Z.eqb_eq|]. by apply bool_decide_eq_true.
Qed.

(** ** Reads of the key store *)
Lemma store_Ok {A} (f : ST Tables A) w a w' : store f w = (Ok a, w') <-> exists t', f (w_tables w) = (Ok a, t') /\ w' = set_tables t' w.
Proof.
  unfold store. destruct (transact f (w_tables w)) as [r t] eqn:Hf. split.
  - intros [= -> <-]. rewrite transact_Ok in Hf. by exists t.
  - intros (t' & Hf' & ->). rewrite <- transact_Ok, Hf in Hf'. by simplify_eq.
Qed.

Lemma masters_read w : ActiveMasterWrappers w = (Ok (GetActiveMasterKeys (w_tables w)), w).
Proof. by destruct w. Qed.

Lemma versions_read p org project w : Tier3Versions p org project w = (Ok (GetTier3Versions p org project (w_tables w)), w).
Proof. by destruct w. Qed.

Lemma active_read p org project w : ActiveTier3 p org project w =
  (match GetActiveTier3Key p org project (w_tables w) with Some k => Ok k | None => Err ErrNoKey end, w).
Proof. unfold ActiveTier3, store, transact. destruct w as [t r i]. cbn [w_tables]. by destruct (GetActiveTier3Key _ _ _ _). Qed.

(** ** The invariant *)
Section Invariant.
Context `{AEAD}.

(** The key a wrapped row opens to under a master key. *)
Definition wraps (mk : bytes) (k : WrappedKey) (key : bytes) : Prop :=
  open mk masterKeyID (wk_MasterKeyVersion k) (tier3AAD k) (wk_Blob k) = Ok key.

(** A master wrapper sealed under a root. *)
Definition sealedUnder (root : bytes) (w : WrappedKey) (mk : bytes) : Prop :=
  exists rnd, seal rnd root (be32 (wk_RootKeyEpoch w)) 0 (masterAAD w) mk = Ok (wk_Blob w).

Definition tier3Key (r : keyRow) : string * bytes * bytes * Z :=
  (wk_Purpose (row_key r), wk_OrgID (row_key r), wk_ProjectID (row_key r), wk_Version (row_key r)).

Definition activeEpochs (t : Tables) : list Z := map (fun r => wk_RootKeyEpoch (row_key r)) (List.filter is_active (master_keys t)).

Record tables_ok (roots : gmap Z bytes) (V : Z) (mk : bytes) (t : Tables) : Prop := {
  to_version : uint32 V;
  to_masters : forall r, In r (master_keys t) -> is_active r = true ->
    wk_Version (row_key r) = V /\ uint32 (wk_RootKeyEpoch (row_key r)) /\
    exists root, roots !! wk_RootKeyEpoch (row_key r) = Some root /\ sealedUnder root (row_key r) mk;
  to_some : exists r, In r (master_keys t) /\ is_active r = true;
  to_epochs : NoDup (activeEpochs t);
  to_rows : forall r, In r (tier3_keys t) -> openable r = true ->
    wk_MasterKeyVersion (row_key r) = V /\ exists key, wraps mk (row_key r) key;
  to_typed : forall r, In r (tier3_keys t) -> uint32 (wk_Version (row_key r));
  to_ids : NoDup (map (fun r => wk_ID (row_key r)) (tier3_keys t));
  to_keys : NoDup (map tier3Key (tier3_keys t));
  to_present : forall p, In p [PurposeInstance; PurposeToken; PurposeScanning] ->
    exists r, In r (tier3_keys t) /\ is_active r = true /\ in_scope p [] [] (row_key r) = true }.

(** A handle of the process is the key of a stored row. *)
Definition handle_ok (mk : bytes) (t : Tables) (p : string) (org project : bytes) (h : keyHandle) : Prop :=
  exists r, In r (tier3_keys t) /\ in_scope p org project (row_key r) = true /\
    wk_ID (row_key r) = kh_id h /\ wk_Version (row_key r) = kh_version h /\
    (openable r = true -> wraps mk (row_key r) (kh_key h)).

Definition set_ok (mk : bytes) (t : Tables) (p : string) (org project : bytes) (vs : versionSet) : Prop :=
  forall v h, vs_byVer vs !! v = Some h -> kh_version h = v /\ handle_ok mk t p org project h.

(** The scopes ciphertexts have: a named project's, or the instance's. *)
Definition dek_scope (p : string) (org project : bytes) : Prop :=
  p = PurposeProject /\ emptyScope org project = false \/ p = PurposeInstance /\ org = [] /\ project = [].

(** The context is well typed, and a version column repeats the record's header. *)
Definition cell_typed (c : cell) : Prop := aad_typed (c_aad c) /\ forall v, c_column c = Some v -> RecordKeyVersion (c_record c) = Ok v.

Definition cell_ok (mk : bytes) (t : Tables) (c : cell) : Prop :=
  dek_scope (c_purpose c) (c_org c) (c_project c) /\ cell_typed c /\
  exists r key, In r (tier3_keys t) /\ openable r = true /\ in_scope (c_purpose c) (c_org c) (c_project c) (row_key r) = true /\
    wraps mk (row_key r) key /\ open key (wk_ID (row_key r)) (wk_Version (row_key r)) (c_aad c) (c_record c) = Ok (c_plain c).

Definition writer_ok (mk : bytes) (t : Tables) (wr : writer) : Prop :=
  dek_scope (wr_purpose wr) (wr_org wr) (wr_project wr) /\
  (kh_key (wr_handle wr) = [] \/ handle_ok mk t (wr_purpose wr) (wr_org wr) (wr_project wr) (wr_handle wr)).

Definition pendingVersion (l : option hierarchyOp) (v : Z) : Prop :=
  exists row rewrapped, l = Some (MasterRotation row rewrapped false) /\ wk_Version row = v.

Record proc_ok (V : Z) (mk : bytes) (t : Tables) (l : option hierarchyOp) (k : Keyring) : Prop := {
  po_current : forall key, ms_byVer (k_master k) !! V = Some key -> key = mk;
  po_held : forall v key, ms_byVer (k_master k) !! v = Some key -> v <= V \/ pendingVersion l v;
  po_active : 0 <= ms_active (k_master k) <= V;
  po_key : is_Some (ms_byVer (k_master k) !! ms_active (k_master k));
  po_instance : set_ok mk t PurposeInstance [] [] (k_instance k);
  po_deks : forall org project set, In (org, project, set) (k_deks k) -> set_ok mk t PurposeProject org project set }.

(** A successor prepared and not yet committed. *)
Definition prepared_ok (V : Z) (mk : bytes) (hr : keyHandle * WrappedKey) : Prop :=
  let '(h, row) := hr in
  wk_MasterKeyVersion row <= V /\ uint32 (wk_Version row) /\ kh_id h = wk_ID row /\ kh_version h = wk_Version row /\
  (wk_Purpose row <> PurposeProject -> wk_OrgID row = [] /\ wk_ProjectID row = []) /\
  (wk_MasterKeyVersion row = V -> exists key, wraps mk row key /\ (wk_Purpose row <> PurposeProject -> key = kh_key h)).

Definition committed_ok (mk : bytes) (t : Tables) (hr : keyHandle * WrappedKey) : Prop :=
  wk_Purpose hr.2 = PurposeInstance -> handle_ok mk t PurposeInstance [] [] hr.1.

(** A row the master rotation has re-wrapped, against the row it will replace. *)
Definition rewrapped_ok (V : Z) (mk nk : bytes) (t : Tables) (k : WrappedKey) : Prop :=
  wk_MasterKeyVersion k = V /\
  exists r key, In r (tier3_keys t) /\ wk_ID (row_key r) = wk_ID k /\
    tier3Key r = (wk_Purpose k, wk_OrgID k, wk_ProjectID k, wk_Version k) /\
    wraps nk k key /\ (openable r = true -> wraps mk (row_key r) key).

Definition lock_ok (roots : gmap Z bytes) (V : Z) (mk : bytes) (t : Tables) (proc : option Keyring) (l : option hierarchyOp) : Prop :=
  match l with
  | None => True
  | Some (MasterRotation row rewrapped false) =>
      wk_Version row <> V /\
      (wk_Version row = V + 1 -> uint32 (V + 1) /\ uint32 (wk_RootKeyEpoch row) /\
       exists root nk, roots !! wk_RootKeyEpoch row = Some root /\ sealedUnder root row nk /\
         (forall k, proc = Some k -> ms_byVer (k_master k) !! (V + 1) = Some nk) /\
         Forall (rewrapped_ok (V + 1) mk nk t) rewrapped)
  | Some (MasterRotation row rewrapped true) =>
      wk_Version row <= V /\ forall k, proc = Some k -> is_Some (ms_byVer (k_master k) !! wk_Version row)
  | Some (RootRotation row newRoot) =>
      uint32 (wk_RootKeyEpoch row) /\ (wk_Version row = V -> sealedUnder newRoot row mk)
  end.

Record sys_ok (V : Z) (mk : bytes) (s : Sys) : Prop := {
  so_tables : tables_ok (s_roots s) V mk (s_tables s);
  so_cells : forall i c, s_cells s !! i = Some c -> cell_ok mk (s_tables s) c;
  so_proc : forall k, s_proc s = Some k -> proc_ok V mk (s_tables s) (s_lock s) k;
  so_lock : lock_ok (s_roots s) V mk (s_tables s) (s_proc s) (s_lock s);
  so_rows : Forall (prepared_ok V mk) (s_rows s);
  so_done : Forall (committed_ok mk (s_tables s)) (s_done s);
  so_writers : Forall (writer_ok mk (s_tables s)) (s_writers s);
  so_sets : Forall (fun x => let '(p, org, project, set) := x in
                   dek_scope p org project /\ set_ok mk (s_tables s) p org project set) (s_sets s) }.

(** ** How tables evolve *)

(** The keys ciphertexts are sealed under. *)
Definition durable (r : keyRow) : Prop := wk_Purpose (row_key r) = PurposeProject \/ wk_Purpose (row_key r) = PurposeInstance.

(** Rows stay, with their identity and their key; what is openable afterwards
    was openable before, and the rows of [keep] stay openable. *)
Definition evolves_keeping (keep : keyRow -> Prop) (mk mk' : bytes) (t t' : Tables) : Prop :=
  forall r, In r (tier3_keys t) -> exists r', In r' (tier3_keys t') /\
    wk_ID (row_key r') = wk_ID (row_key r) /\ tier3Key r' = tier3Key r /\
    (openable r' = true -> openable r = true) /\ (keep r -> openable r = true -> openable r' = true) /\
    (forall key, openable r' = true -> wraps mk (row_key r) key -> wraps mk' (row_key r') key).
Definition evolves : bytes -> bytes -> Tables -> Tables -> Prop := evolves_keeping durable.

Lemma tier3Key_scope p org project r r' : tier3Key r' = tier3Key r ->
  in_scope p org project (row_key r) = true -> in_scope p org project (row_key r') = true /\ wk_Version (row_key r') = wk_Version (row_key r).
Proof. intros [= E1 E2 E3 E4] Hs. apply in_scope_eq in Hs as (? & ? & ?). rewrite in_scope_eq. split_and!; congruence. Qed.

Lemma handle_ok_evolves keep mk mk' t t' p org project h : evolves_keeping keep mk mk' t t' ->
  handle_ok mk t p org project h -> handle_ok mk' t' p org project h.
Proof.
  intros He (r & Hr & Hs & Hid & Hv & Hk). destruct (He r Hr) as (r' & Hr' & Hid' & Hkey & Hop & _ & Hw).
  destruct (tier3Key_scope p org project r r' Hkey Hs) as [Hs' Hv']. exists r'. split_and!; [done..|congruence|congruence|auto].
Qed.

Lemma set_ok_evolves keep mk mk' t t' p org project vs : evolves_keeping keep mk mk' t t' ->
  set_ok mk t p org project vs -> set_ok mk' t' p org project vs.
Proof. intros He Hs v h Hv. destruct (Hs v h Hv). eauto using handle_ok_evolves. Qed.

Lemma cell_ok_keeping keep mk mk' t t' c : evolves_keeping keep mk mk' t t' ->
  (forall r key, In r (tier3_keys t) -> openable r = true -> in_scope (c_purpose c) (c_org c) (c_project c) (row_key r) = true ->
     dek_scope (c_purpose c) (c_org c) (c_project c) ->
     open key (wk_ID (row_key r)) (wk_Version (row_key r)) (c_aad c) (c_record c) = Ok (c_plain c) -> keep r) ->
  cell_ok mk t c -> cell_ok mk' t' c.
Proof.
  intros He Hkeep (Hp & Ht & r & key & Hr & Hop & Hs & Hw & Ho). split_and!; [done..|].
  destruct (He r Hr) as (r' & Hr' & Hid & Hkey & _ & Hk & Hw').
  destruct (tier3Key_scope _ _ _ r r' Hkey Hs) as [Hs' Hv].
  assert (openable r' = true) as Hop' by eauto.
  exists r', key. split_and!; [done..|auto|congruence].
Qed.

Lemma cell_ok_evolves mk mk' t t' c : evolves mk mk' t t' -> cell_ok mk t c -> cell_ok mk' t' c.
Proof.
  intros He. apply (cell_ok_keeping _ _ _ _ _ _ He). intros r key _ _ (Hs & _)%in_scope_eq Hp _. unfold durable. rewrite Hs. destruct Hp as [[-> _]|[-> _]]; auto.
Qed.

Lemma evolves_refl mk t : evolves mk mk t t.
Proof. intros r Hr. exists r. split_and!; auto. Qed.

(** ** Unwrapping *)
Lemma short_be32 v : short (be32 v).
Proof. unfold short, bsize, MaxUint32. cbn [be32 length]. lia. Qed.

Lemma masterAAD_short w : Forall short (fields (masterAAD w)).
Proof. unfold masterAAD. cbn [fields]. repeat constructor; apply short_be32. Qed.

Lemma uint32_0 : uint32 0.
Proof. unfold uint32. lia. Qed.

Lemma sealed_opens root w mk : sealedUnder root w mk -> open root (be32 (wk_RootKeyEpoch w)) 0 (masterAAD w) (wk_Blob w) = Ok mk.
Proof. intros [rnd Hs]. exact (seal_opens _ _ _ _ _ _ _ Hs uint32_0). Qed.

Lemma sealed_binds root root' w mk m : uint32 (wk_Version w) -> uint32 (wk_RootKeyEpoch w) -> sealedUnder root w mk ->
  open root' (be32 (wk_RootKeyEpoch w)) 0 (masterAAD w) (wk_Blob w) = Ok m -> root' = root /\ m = mk.
Proof.
  intros Hv He [rnd Hs] Ho. eapply seal_binds in Ho as (-> & _ & _ & _ & ->); [done|exact Hs|exact uint32_0|done|done].
Qed.

Lemma sealed_format root w mk : sealedUnder root w mk -> unknownFormat (wk_Blob w) = false.
Proof.
  intros [rnd (nonce & _ & Hn & _ & Hi & _ & ->)%seal_Ok]. unfold unknownFormat.
  rewrite parseHeader_bytes; [done| |done]. by apply typed_record_header; [|exact uint32_0|].
Qed.

Lemma readLP_no_panic b : is_panic (readLP b) = false.
Proof. unfold readLP. destruct (_ <? _); [done|]. cbv zeta. destruct (_ <? _)%nat; done. Qed.

Lemma parseHeader_no_panic b : is_panic (parseHeader b) = false.
Proof.
  destruct b as [|f [|k [|a rest]]]; [done..|]. cbn [parseHeader]. destruct (negb _); [done|].
  apply bind_no_panic; [apply readLP_no_panic|]. intros [kid r] _. destruct (_ <? _); [done|].
  apply bind_no_panic; [apply readLP_no_panic|]. intros [n r'] _. done.
Qed.

Lemma open_no_panic key id v a record : Forall short (fields a) -> is_panic (open key id v a record) = false.
Proof.
  intros Hf. unfold open. apply bind_no_panic; [apply parseHeader_no_panic|]. intros [h rest] _.
  destruct (_ || _); [done|]. destruct (negb _); [done|]. apply bind_no_panic.
  - destruct (appendAAD _ a) as [x|e|p] eqn:Ha; [done|done|]. exfalso. unfold appendAAD in Ha.
    pose proof (proj2 (appendFields_Ok (fields a) (take (length record - length rest) record) _) (conj Hf eq_refl)) as Ho.
    rewrite Ho in Ha. discriminate Ha.
  - intros aad _. destruct (aead_Open _ _ _ _); done.
Qed.

Section Loaded.
Context (roots : gmap Z bytes) (V : Z) (mk : bytes) (t : Tables) (Ht : tables_ok roots V mk t).

Lemma wrapper_facts w : In w (GetActiveMasterKeys t) ->
  wk_Version w = V /\ uint32 (wk_RootKeyEpoch w) /\ exists root, roots !! wk_RootKeyEpoch w = Some root /\ sealedUnder root w mk.
Proof. intros (r & Hr & Ha & <-)%activeMaster_In. by apply (to_masters _ _ _ _ Ht). Qed.

Lemma tryWrappers_Ok root ws : (forall w, In w ws -> In w (GetActiveMasterKeys t)) ->
  match tryWrappers root ws with
  | Ok (v, m) => v = V /\ m = mk
  | Err _ => forall w, In w ws -> ~ sealedUnder root w mk
  | Panic _ => False
  end.
Proof.
  induction ws as [|w ws IH]; intros Hin; cbn [tryWrappers]; [by intros w []|].
  destruct (wrapper_facts w (Hin w (or_introl eq_refl))) as (Hv & He & root' & _ & Hs).
  pose proof (open_no_panic root (be32 (wk_RootKeyEpoch w)) 0 (masterAAD w) (wk_Blob w) (masterAAD_short w)) as Hp.
  destruct (open root _ 0 _ _) as [m|e|p] eqn:Ho; [|specialize (IH (fun w' H' => Hin w' (or_intror H')))|done].
  - split; [done|]. eapply (sealed_binds root' root w mk m); [rewrite Hv; exact (to_version _ _ _ _ Ht)|done|done|done].
  - destruct (tryWrappers root ws) as [[v m]|?|?]; [done| |done]. intros w' [<-|Hw']; [|by apply IH].
    intros Hs'%sealed_opens. congruence.
Qed.

Lemma unwrapMaster_Ok root v m : unwrapMaster root (GetActiveMasterKeys t) = Ok (v, m) -> v = V /\ m = mk.
Proof.
  unfold unwrapMaster. destruct (existsb _ _); [done|]. intros Ho. pose proof (tryWrappers_Ok root _ (fun w H => H)) as Hx.
  by rewrite Ho in Hx.
Qed.

Lemma unwrapMaster_total root w : In w (GetActiveMasterKeys t) -> sealedUnder root w mk -> unwrapMaster root (GetActiveMasterKeys t) = Ok (V, mk).
Proof.
  intros Hw Hs. unfold unwrapMaster. destruct (existsb _ _) eqn:He.
  - apply existsb_exists in He as (w' & Hw' & Hf). destruct (wrapper_facts w' Hw') as (_ & _ & root' & _ & Hs').
    rewrite (sealed_format root' w' mk Hs') in Hf. done.
  - pose proof (tryWrappers_Ok root _ (fun w H => H)) as Hx. destruct (tryWrappers _ _) as [[v m]|e|p]; [|by destruct (Hx w)|done].
    by destruct Hx as [-> ->].
Qed.

Lemma unwrapTier3_single row key : wk_MasterKeyVersion row = V -> wraps mk row key ->
  unwrapTier3 (singleMaster V mk) row = Ok (MkHandle (wk_ID row) (wk_Version row) key).
Proof. intros Hv Hw. unfold unwrapTier3, singleMaster. cbn [ms_byVer]. rewrite Hv, lookup_singleton_eq, <- Hv. unfold wraps in Hw. by rewrite Hw. Qed.

(** A master set that holds no other key for the active version. *)
Definition current (m : masterSet) : Prop := forall key, ms_byVer m !! V = Some key -> key = mk.

Lemma unwrapTier3_inv m row h : current m -> wk_MasterKeyVersion row = V -> unwrapTier3 m row = Ok h ->
  kh_id h = wk_ID row /\ kh_version h = wk_Version row /\ wraps mk row (kh_key h).
Proof.
  intros Hm Hv. unfold unwrapTier3. rewrite Hv. destruct (ms_byVer m !! V) as [mkey|] eqn:Hl; [|done].
  rewrite (Hm _ Hl). destruct (open mk masterKeyID V (tier3AAD row) (wk_Blob row)) as [key|e|p] eqn:Ho; [|done..]. intros [= <-]. cbn.
  split_and!; [done..|]. unfold wraps. by rewrite Hv.
Qed.

Lemma buildFrom_inv m rows : forall vs vs', buildFrom m vs rows = Ok vs' -> forall v h, vs_byVer vs' !! v = Some h ->
  vs_byVer vs !! v = Some h \/ exists row, In row rows /\ wk_Version row = v /\ unwrapTier3 m row = Ok h.
Proof.
  induction rows as [|row rows IH]; intros vs vs' Hb v h Hl; cbn [buildFrom] in Hb; [injection Hb as <-; by left|].
  apply bind_Ok in Hb as (h0 & Hu & Hb). destruct (IH _ _ Hb v h Hl) as [Hi|(row' & Hr & Hv & Hu')]; [|right; exists row'; split_and!; [by right|done..]].
  cbn [vs_byVer] in Hi. destruct (decide (wk_Version row = v)) as [<-|Hne].
  - rewrite lookup_insert_eq in Hi. injection Hi as <-. right. exists row. split_and!; [by left|done..].
  - rewrite lookup_insert_ne in Hi by done. by left.
Qed.

Lemma buildFrom_total m rows : (forall row, In row rows -> exists h, unwrapTier3 m row = Ok h) -> forall vs,
  exists vs', buildFrom m vs rows = Ok vs' /\
    (forall v, is_Some (vs_byVer vs !! v) \/ (exists row, In row rows /\ wk_Version row = v) -> is_Some (vs_byVer vs' !! v)).
Proof.
  induction rows as [|row rows IH]; intros Hall vs; cbn [buildFrom].
  { exists vs. split; [done|]. intros v [?|(? & [] & _)]; done. }
  destruct (Hall row (or_introl eq_refl)) as [h Hu]. rewrite Hu. cbn [mbind result_bind].
  edestruct (IH (fun r Hr => Hall r (or_intror Hr))) as (vs' & Hb & Hv). exists vs'. split; [exact Hb|].
  intros v Hcase. apply Hv. cbn [vs_byVer]. destruct (decide (wk_Version row = v)) as [<-|Hne].
  - left. rewrite lookup_insert_eq. eauto.
  - rewrite lookup_insert_ne by done. destruct Hcase as [?|(row' & [<-|Hr] & He)]; [by left|done|right; eauto].
Qed.

Lemma versions_set_ok m p org project vs : current m -> buildVersionSet m (GetTier3Versions p org project t) = Ok vs -> set_ok mk t p org project vs.
Proof.
  intros Hm Hb v h Hl. destruct (buildFrom_inv _ _ _ _ Hb v h Hl) as [Hi|(row & Hrow & Hv & Hu)]; [cbn [vs_byVer] in Hi; by rewrite lookup_empty in Hi|].
  apply tier3Versions_In in Hrow as (r & Hr & Ho & Hs & <-). destruct (to_rows _ _ _ _ Ht r Hr Ho) as [Hmv _].
  destruct (unwrapTier3_inv m _ h Hm Hmv Hu) as (Hid & Hver & Hw). split; [congruence|]. exists r. split_and!; auto; congruence.
Qed.

Lemma versions_total p org project : exists vs, buildVersionSet (singleMaster V mk) (GetTier3Versions p org project t) = Ok vs /\
  forall r, In r (tier3_keys t) -> openable r = true -> in_scope p org project (row_key r) = true -> is_Some (vs_byVer vs !! wk_Version (row_key r)).
Proof.
  destruct (buildFrom_total (singleMaster V mk) (GetTier3Versions p org project t)) with (vs := MkVersionSet 0 ∅) as (vs & Hb & Hv).
  { intros row (r & Hr & Ho & _ & <-)%tier3Versions_In. destruct (to_rows _ _ _ _ Ht r Hr Ho) as (Hmv & key & Hw).
    eexists. by apply unwrapTier3_single. }
  exists vs. split; [exact Hb|]. intros r Hr Ho Hs. apply Hv. right. exists (row_key r). split; [|done].
  apply tier3Versions_In. eauto.
Qed.
(** *** Loading *)
Lemma active_found p org project r : In r (tier3_keys t) -> is_active r = true -> in_scope p org project (row_key r) = true ->
  exists r', GetActiveTier3Key p org project t = Some (row_key r') /\ In r' (tier3_keys t) /\ is_active r' = true /\
    in_scope p org project (row_key r') = true.
Proof.
  intros Hr Ha Hs. unfold GetActiveTier3Key, keysWhere.
  assert (In r (List.filter (fun r => is_active r && in_scope p org project (row_key r)) (tier3_keys t))) as Hin
    by (apply filter_In; by rewrite Ha, Hs).
  destruct (List.filter _ _) as [|r' rs] eqn:Hf; [done|]. exists r'. split; [done|].
  assert (In r' (r' :: rs)) as Hr' by (by left). rewrite <- Hf in Hr'. apply filter_In in Hr' as [? [? ?]%andb_prop]. done.
Qed.

Lemma active_unwraps p w : In p [PurposeInstance; PurposeToken; PurposeScanning] -> w_tables w = t ->
  exists row h, ActiveTier3 p [] [] w = (Ok row, w) /\ unwrapTier3 (singleMaster V mk) row = Ok h.
Proof.
  intros Hp Hw. destruct (to_present _ _ _ _ Ht p Hp) as (r & Hr & Ha & Hs).
  destruct (active_found p [] [] r Hr Ha Hs) as (r' & Hg & Hr' & Ha' & _).
  destruct (to_rows _ _ _ _ Ht r' Hr' (active_openable _ Ha')) as (Hv & key & Hk).
  exists (row_key r'). eexists. rewrite active_read, Hw, Hg. split; [done|]. by apply unwrapTier3_single.
Qed.

Lemma current_single : current (singleMaster V mk).
Proof. intros key. cbn [singleMaster ms_byVer]. rewrite lookup_singleton_eq. by intros [= <-]. Qed.

Lemma masters_nonempty : GetActiveMasterKeys t <> [].
Proof.
  destruct (to_some _ _ _ _ Ht) as (r & Hr & Ha). intros Hn.
  assert (In (row_key r) (GetActiveMasterKeys t)) as Hin by (apply activeMaster_In; eauto). by rewrite Hn in Hin.
Qed.

(** Loading over tables that satisfy the invariant never mints, and whatever
    root opened a wrapper, gives the keys of the tables. *)
Lemma LoadKeyring_cases root w : w_tables w = t -> length root = KeySize ->
  match unwrapMaster root (GetActiveMasterKeys t) with
  | Ok (v, m) => exists k, LoadKeyring root w = (Ok k, w) /\ proc_ok V mk t None k /\ k_master k = singleMaster V mk /\ k_deks k = [] /\
      buildVersionSet (singleMaster V mk) (GetTier3Versions PurposeInstance [] [] t) = Ok (k_instance k)
  | _ => is_ok (LoadKeyring root w).1 = false
  end.
Proof.
  intros Hw Hl. unfold LoadKeyring. rewrite Hl, Nat.eqb_refl. cbn [negb].
  rewrite (st_run _ _ _ _ _ (masters_read w)), Hw. pose proof masters_nonempty as Hm.
  destruct (unwrapMaster root (GetActiveMasterKeys t)) as [[v m]|e|p] eqn:Hu; cycle 1.
  1,2: destruct (GetActiveMasterKeys t) as [|m0 ms]; [done|]; unfold loadExisting; rewrite Hu; reflexivity.
  apply unwrapMaster_Ok in Hu as Hvm. destruct Hvm as [-> ->].
  destruct (versions_total PurposeInstance [] []) as (vs & Hb & _).
  destruct (active_unwraps PurposeToken w ltac:(cbn; auto) Hw) as (trow & th & Ht1 & Ht2).
  destruct (active_unwraps PurposeScanning w ltac:(cbn; auto) Hw) as (srow & sh & Hs1 & Hs2).
  assert (GetTier3Versions PurposeInstance [] [] t <> []) as Hne.
  { destruct (to_present _ _ _ _ Ht PurposeInstance ltac:(cbn; auto)) as (r & Hr & Ha & Hs). intros Hn.
    assert (In (row_key r) (GetTier3Versions PurposeInstance [] [] t)) as Hin
      by (apply tier3Versions_In; exists r; split_and!; auto using active_openable). by rewrite Hn in Hin. }
  destruct (GetActiveMasterKeys t) as [|m0 ms]; [done|]. eexists. split_and!.
  - unfold loadExisting. rewrite (st_result_run _ _ _ _ Hu).
    rewrite (st_run _ _ w vs w); cycle 1.
    { unfold loadTier3Versions. rewrite (st_run _ _ _ _ _ (versions_read _ _ _ _)), Hw.
      destruct (GetTier3Versions PurposeInstance [] [] t); [done|]. by rewrite Hb. }
    rewrite (st_run _ _ w th w) by (unfold loadTier3; rewrite (st_run _ _ _ _ _ Ht1); by rewrite Ht2).
    rewrite (st_run _ _ w sh w); [reflexivity|]. unfold loadOrMintScanning.
    rewrite (st_run _ _ w (Ok srow) w) by (unfold attempt; by rewrite Hs1). by rewrite Hs2.
  - split; cbn [k_master k_instance k_deks].
    + exact current_single.
    + intros v key. cbn [singleMaster ms_byVer]. intros [<- _]%lookup_singleton_Some. left. lia.
    + cbn [singleMaster ms_active]. pose proof (to_version _ _ _ _ Ht) as [? _]. lia.
    + cbn [singleMaster ms_active ms_byVer]. rewrite lookup_singleton_eq. by eexists.
    + by apply (versions_set_ok _ _ _ _ _ current_single).
    + done.
  - reflexivity.
  - reflexivity.
  - exact Hb.
Qed.
End Loaded.
End Invariant.
