(* ===== verification/KeyLifecycleSteps.v ===== *)
(** * The steps of the key lifecycle keep its invariant

    What each mutation of the key tables does to the invariant of
    [KeyLifecycleSpec.v], and that every step of the system keeps it. *)

From S2P Require Import Prelude Utf8 Envelope KeyTables Keyring KeyLifecycle KeyLifecycleSpec.
From Stdlib Require Import Ascii.

#[local] Open Scope Z_scope.

Section Steps.
Context `{AEAD}.

(** ** A new row, and the one it supersedes *)
Definition superseding (sel : keyRow -> bool) (st : keyState) (t : Tables) : Tables :=
  MkTables (master_keys t) (map (fun r => if sel r then set_state st r else r) (tier3_keys t)) (key_generations t).

Lemma superseded_In sel st t r : In r (tier3_keys (superseding sel st t)) ->
  exists r0, In r0 (tier3_keys t) /\ row_key r = row_key r0 /\ (r = r0 \/ sel r0 = true /\ row_state r = st).
Proof.
  cbn [superseding tier3_keys]. intros (r0 & <- & Hr)%in_map_iff. exists r0. destruct (sel r0); cbn; auto.
Qed.

Lemma superseded_keys {A} (f : WrappedKey -> A) sel st t :
  map (fun r => f (row_key r)) (tier3_keys (superseding sel st t)) = map (fun r => f (row_key r)) (tier3_keys t).
Proof. cbn [superseding tier3_keys]. rewrite map_map. apply map_ext. intros r. by destruct (sel r). Qed.

Lemma insertion_ok roots V mk t sel st row t' : tables_ok roots V mk t ->
  (forall r, sel r = true -> is_active r = true /\ in_scope (wk_Purpose row) (wk_OrgID row) (wk_ProjectID row) (row_key r) = true) ->
  (st = retiring \/ st = retired /\ ~ durable (MkRow row active)) ->
  insertTier3Row row (superseding sel st t) = (Ok (), t') ->
  wk_MasterKeyVersion row = V -> (exists key, wraps mk row key) -> uint32 (wk_Version row) ->
  tables_ok roots V mk t' /\ evolves mk mk t t' /\ In (MkRow row active) (tier3_keys t').
Proof.
  intros Ht Hsel Hst [-> Hfree]%insertTier3Row_Ok HV Hw Hu. cbn [superseding master_keys key_generations].
  set (rows := tier3_keys (superseding sel st t)) in *.
  assert (forall r, In r (tier3_keys t) -> In (if sel r then set_state st r else r) rows) as Hrows by (intros r Hr; by apply in_map_iff; eauto).
  split_and!.
  - split; cbn [master_keys tier3_keys]; try apply Ht.
    + intros r [Hr|[<-|[]]]%in_app_or Ho; [|by split].
      apply superseded_In in Hr as (r0 & Hr0 & Hk & Hcase). rewrite Hk. apply (to_rows _ _ _ _ Ht r0 Hr0).
      destruct Hcase as [->|[Hs _]]; [done|]. apply active_openable, Hsel, Hs.
    + intros r [Hr|[<-|[]]]%in_app_or; [|done]. apply superseded_In in Hr as (r0 & Hr0 & Hk & _). rewrite Hk. by apply (to_typed _ _ _ _ Ht).
    + apply (NoDup_snoc (fun r => wk_ID (row_key r))); [unfold rows; rewrite (superseded_keys wk_ID); apply Ht|]. intros r Hr. by apply Hfree.
    + apply NoDup_snoc.
      * unfold rows, tier3Key. rewrite (superseded_keys (fun k => (wk_Purpose k, wk_OrgID k, wk_ProjectID k, wk_Version k))). apply Ht.
      * intros r Hr [= E1 E2 E3 E4]. apply (Hfree r Hr); [|done]. by apply in_scope_eq.
    + intros p Hp. destruct (to_present _ _ _ _ Ht p Hp) as (r & Hr & Ha & Hs). specialize (Hrows r Hr). destruct (sel r) eqn:Hse.
      * exists (MkRow row active). split_and!; [apply in_or_app; right; by left|done|]. destruct (Hsel r Hse) as [_ Hs']. cbn [row_key].
        apply in_scope_eq in Hs as (? & ? & ?), Hs' as (? & ? & ?). apply in_scope_eq. split_and!; congruence.
      * exists r. split_and!; [apply in_or_app; by left|done|done].
  - intros r Hr. exists (if sel r then set_state st r else r). cbn [tier3_keys].
    assert (row_key (if sel r then set_state st r else r) = row_key r) as Hk by by destruct (sel r). unfold tier3Key. rewrite Hk.
    split_and!; [apply in_or_app; left; auto|done|done| |intros Hd|done]; destruct (sel r) eqn:Hse; try done.
    + intros _. apply active_openable, Hsel, Hse.
    + intros _. destruct Hst as [->|[-> Hnd]]; [done|]. destruct Hnd. destruct (Hsel r Hse) as [_ (Hs & _)%in_scope_eq].
      unfold durable in *. cbn [row_key]. by rewrite Hs in Hd.
  - cbn [tier3_keys]. apply in_or_app. right. by left.
Qed.

Lemma superseding_nothing st t : superseding (fun _ => false) st t = t.
Proof. unfold superseding. rewrite map_id. by destruct t. Qed.

Lemma assertActiveMaster_version roots V mk t v t' : tables_ok roots V mk t -> assertActiveMaster v t = (Ok (), t') -> t' = t /\ v = V.
Proof.
  intros Ht (-> & Hne & Hall)%assertActiveMaster_Ok. split; [done|]. destruct (to_some _ _ _ _ Ht) as (r & Hr & Ha).
  destruct (to_masters _ _ _ _ Ht r Hr Ha) as [<- _]. symmetry. apply Hall, activeMaster_In. eauto.
Qed.

(** *** Creation, DEK rotation, token and scanning rotation *)
Lemma CreateTier3_ok roots V mk t row t' : tables_ok roots V mk t -> CreateTier3 row t = (Ok (), t') ->
  (wk_MasterKeyVersion row = V -> exists key, wraps mk row key) -> uint32 (wk_Version row) ->
  tables_ok roots V mk t' /\ evolves mk mk t t' /\ In (MkRow row active) (tier3_keys t') /\ wk_MasterKeyVersion row = V.
Proof.
  intros Ht Hc Hw Hu. unfold CreateTier3 in Hc. apply st_bind_Ok in Hc as ([] & t1 & ->%acquireHierarchy_Ok & Hc).
  apply st_bind_Ok in Hc as ([] & t2 & Ha & Hc). destruct (assertActiveMaster_version _ _ _ _ _ _ Ht Ha) as [-> HV].
  apply st_bind_Ok in Hc as ([] & t3 & Hi & [Hm H3]%insertScopeGeneration_Ok).
  rewrite <- (superseding_nothing retiring t) in Hi.
  destruct (insertion_ok roots V mk t (fun _ => false) retiring row t3 Ht ltac:(done) (or_introl eq_refl) Hi HV (Hw HV) Hu) as (Hok & Hev & Hin).
  split_and!; [|intros r Hr; rewrite H3; by apply Hev|by rewrite H3|done].
  destruct Hok. split; rewrite ?H3; unfold activeEpochs in *; rewrite ?Hm; done.
Qed.
Lemma retired_not_durable row p : wk_Purpose row = p -> p = PurposeToken \/ p = PurposeScanning -> ~ durable (MkRow row active).
Proof. unfold durable. cbn [row_key]. intros -> [->| ->] [?|?]; done. Qed.

Lemma rotateDEK_ok roots V mk t row t' : tables_ok roots V mk t -> rotateDEK row t = (Ok (), t') ->
  (wk_MasterKeyVersion row = V -> exists key, wraps mk row key) -> uint32 (wk_Version row) ->
  tables_ok roots V mk t' /\ evolves mk mk t t' /\ In (MkRow row active) (tier3_keys t') /\ wk_MasterKeyVersion row = V.
Proof.
  intros Ht Hc Hw Hu. unfold rotateDEK in Hc. apply st_bind_Ok in Hc as ([] & t1 & ->%acquireHierarchy_Ok & Hc).
  apply st_bind_Ok in Hc as ([] & t1 & ->%acquireScope_Ok & Hc).
  apply st_bind_Ok in Hc as ([] & t2 & Ha & Hc). destruct (assertActiveMaster_version _ _ _ _ _ _ Ht Ha) as [-> HV].
  apply st_bind_Ok in Hc as (n & t3 & Hd & Hc). apply st_bind_Ok in Hc as ([] & t4 & [_ ->]%one_row_Ok & Hi).
  injection Hd as _ <-.
  unshelve epose proof (insertion_ok roots V mk t _ retiring row t' Ht _ (or_introl eq_refl) Hi HV (Hw HV) Hu) as (?&?&?); [|by split_and!].
  cbn beta. intros r [? [? _]%andb_prop]%andb_prop. done.
Qed.

Lemma rotateRootScopedTier3_ok roots V mk t row p t' : tables_ok roots V mk t -> rotateRootScopedTier3 row p t = (Ok (), t') ->
  wk_Purpose row = p -> p = PurposeToken \/ p = PurposeScanning -> wk_OrgID row = [] -> wk_ProjectID row = [] ->
  wk_MasterKeyVersion row = V -> (exists key, wraps mk row key) -> uint32 (wk_Version row) ->
  tables_ok roots V mk t' /\ evolves mk mk t t' /\ In (MkRow row active) (tier3_keys t').
Proof.
  intros Ht Hc Hp Hpp Ho Hpr HV Hw Hu. unfold rotateRootScopedTier3 in Hc. apply st_bind_Ok in Hc as ([] & t1 & ->%acquireHierarchy_Ok & Hc).
  apply st_bind_Ok in Hc as (n & t3 & Hd & Hc). apply st_bind_Ok in Hc as ([] & t4 & [_ ->]%one_row_Ok & Hi).
  injection Hd as _ <-. eapply (insertion_ok roots V mk t _ retired row t' Ht); [| |exact Hi|done..].
  - cbn beta. intros r [? [? _]%andb_prop]%andb_prop. by rewrite Hp, Ho, Hpr.
  - right. split; [done|]. by apply (retired_not_durable row p).
Qed.
(** ** Minting *)
Lemma newKey_tables w key w' : newKey w = (Ok key, w') -> w_tables w' = w_tables w.
Proof. unfold newKey. intros (r & w1 & [= <- <-] & [= _ <-])%st_bind_Ok. done. Qed.

Lemma NewV7_tables w id w' : NewV7 w = (Ok id, w') -> w_tables w' = w_tables w.
Proof. unfold NewV7. destruct (default None _); [|done]. intros [= <- <-]. done. Qed.

Lemma sealW_Ok key id v a pt w blob w' : sealW key id v a pt w = (Ok blob, w') ->
  w_tables w' = w_tables w /\ exists rnd, seal rnd key id v a pt = Ok blob.
Proof. unfold sealW. intros (r & w1 & [= <- <-] & [= Hs <-])%st_bind_Ok. eauto. Qed.

Lemma mint_Ok m p org project version w h row w' : mintTier3At m p org project version w = (Ok (h, row), w') ->
  w_tables w' = w_tables w /\ wk_Purpose row = p /\ wk_OrgID row = org /\ wk_ProjectID row = project /\ wk_Version row = version /\
  wk_MasterKeyVersion row = ms_active m /\ kh_id h = wk_ID row /\ kh_version h = version /\
  (uint32 (ms_active m) -> exists mkey, ms_byVer m !! ms_active m = Some mkey /\ wraps mkey row (kh_key h)).
Proof.
  unfold mintTier3At. intros (key & w1 & H1%newKey_tables & Hm)%st_bind_Ok. apply st_bind_Ok in Hm as (id & w2 & H2%NewV7_tables & Hm).
  apply st_bind_Ok in Hm as (blob & w3 & [H3 [rnd Hs]]%sealW_Ok & [= <- <- <-]). split_and!; try done; [congruence|].
  intros Hu. unfold activeKey in Hs. destruct (ms_byVer m !! ms_active m) as [mkey|].
  - exists mkey. split; [done|]. unfold wraps. exact (seal_opens _ _ _ _ _ _ _ Hs Hu).
  - cbn [default] in Hs. apply seal_Ok in Hs as (? & _ & _ & Hl & _). done.
Qed.

Lemma uint32_u32 z : uint32 (u32 z).
Proof. unfold uint32, u32. apply Z.mod_pos_bound. done. Qed.

(** A row the process mints is one the invariant lets wait for its commit. *)
Lemma mint_prepared V mk t l k p org project version w h row w' : uint32 V -> proc_ok V mk t l k -> uint32 version ->
  mintTier3At (k_master k) p org project version w = (Ok (h, row), w') ->
  (p <> PurposeProject -> org = [] /\ project = []) ->
  w_tables w' = w_tables w /\ wk_Purpose row = p /\ wk_OrgID row = org /\ wk_ProjectID row = project /\ wk_Version row = version /\
  kh_id h = wk_ID row /\ kh_version h = version /\ prepared_ok V mk (h, row) /\ (wk_MasterKeyVersion row = V -> wraps mk row (kh_key h)).
Proof.
  intros HV Hp Hv (Ht & Hpp & Ho & Hpr & Hver & Hm & Hid & Hhv & Hw)%mint_Ok Hscope.
  pose proof (po_active _ _ _ _ _ Hp) as Ha. assert (uint32 (ms_active (k_master k))) as Hu by (unfold uint32 in *; lia).
  destruct (Hw Hu) as (mkey & Hl & Hk).
  assert (wk_MasterKeyVersion row = V -> wraps mk row (kh_key h)) as Hwr.
  { intros He. rewrite He in Hm. rewrite <- Hm in Hl. by rewrite <- (po_current _ _ _ _ _ Hp _ Hl). }
  split_and!; try done. unfold prepared_ok. rewrite Hm, Hver, Hpp, Ho, Hpr. split_and!; [lia|done|done|done|done|].
  intros He. exists (kh_key h). split; [|done]. apply Hwr. congruence.
Qed.
(** ** Project key sets *)
Lemma proc_ok_evolves keep V mk t t' l k : evolves_keeping keep mk mk t t' -> proc_ok V mk t l k -> proc_ok V mk t' l k.
Proof. intros He [H1 H2 H3 H4 H5 H6]. split; eauto using set_ok_evolves. Qed.

Lemma proc_ok_deks V mk t l k d : proc_ok V mk t l k ->
  (forall org project set, In (org, project, set) d -> set_ok mk t PurposeProject org project set) -> proc_ok V mk t l (with_deks d k).
Proof. intros [H1 H2 H3 H4 H5 H6] Hd. by split. Qed.

Lemma handle_row mk t p org project h row : In (MkRow row active) (tier3_keys t) -> in_scope p org project row = true ->
  kh_id h = wk_ID row -> kh_version h = wk_Version row -> wraps mk row (kh_key h) -> handle_ok mk t p org project h.
Proof. intros Hin Hs Hid Hv Hw. exists (MkRow row active). by split_and!. Qed.

Lemma set_ok_single mk t p org project h : handle_ok mk t p org project h -> set_ok mk t p org project (singleVersion h).
Proof. intros Hh v h'. cbn [singleVersion vs_byVer]. intros [<- <-]%lookup_singleton_Some. done. Qed.

Lemma cacheDEK_In org project set d e : In e (cacheDEK org project set d) -> e = (org, project, set) \/ In e d.
Proof.
  unfold cacheDEK. intros He. assert (In e ((org, project, set) :: d)) as [<-|?]; [|by left|by right].
  rewrite <- (take_drop dekCacheSize ((org, project, set) :: d)). apply in_or_app. by left.
Qed.

Lemma evictDEK_In org project d e : In e (evictDEK org project d) -> In e d.
Proof. unfold evictDEK. intros [? _]%filter_In. done. Qed.

Section Deks.
Context (roots : gmap Z bytes) (V : Z) (mk : bytes) (l : option hierarchyOp).

(** What a call that returns a project's set leaves. *)
Definition dek_result (m : masterSet) (t : Tables) (org project : bytes) (set : versionSet) (k : Keyring) (t' : Tables) : Prop :=
  k_master k = m /\ tables_ok roots V mk t' /\ evolves mk mk t t' /\ proc_ok V mk t' l k /\ set_ok mk t' PurposeProject org project set.

Lemma dek_cached t t' org project set k : tables_ok roots V mk t' -> evolves mk mk t t' -> proc_ok V mk t' l k ->
  set_ok mk t' PurposeProject org project set -> dek_result (k_master k) t org project set (with_deks (cacheDEK org project set (k_deks k)) k) t'.
Proof.
  intros Ht He Hp Hs. split_and!; [reflexivity|done..| |done]. apply proc_ok_deks; [done|].
  intros o p' s [[= -> -> ->]|Hin]%cacheDEK_In; [done|]. by apply (po_deks _ _ _ _ _ Hp).
Qed.

Lemma build_ok t org project k set : tables_ok roots V mk t -> proc_ok V mk t l k ->
  buildVersionSet (k_master k) (GetTier3Versions PurposeProject org project t) = Ok set ->
  dek_result (k_master k) t org project set (with_deks (cacheDEK org project set (k_deks k)) k) t.
Proof.
  intros Ht Hp Hb. apply dek_cached; [done|apply evolves_refl|done|].
  by apply (versions_set_ok roots V mk t Ht (k_master k)); [exact (po_current _ _ _ _ _ Hp)|].
Qed.

Lemma rebuildDEKSet_ok org project k w set k' w' : tables_ok roots V mk (w_tables w) -> proc_ok V mk (w_tables w) l k ->
  rebuildDEKSet org project k w = (Ok (set, k'), w') -> dek_result (k_master k) (w_tables w) org project set k' (w_tables w').
Proof.
  intros Ht Hp. unfold rebuildDEKSet. rewrite (st_run _ _ _ _ _ (versions_read _ _ _ _)). cbv zeta.
  destruct (GetTier3Versions PurposeProject org project (w_tables w)) as [|r rs] eqn:Hr.
  - intros ([h row] & w1 & Hm & Hrest)%st_bind_Ok.
    eapply (mint_prepared V mk (w_tables w) l k) in Hm as (Hw1 & Hpp & Ho & Hpr & Hver & Hid & Hhv & Hprep & Hwr);
      [|exact (to_version _ _ _ _ Ht)|done|split; done|done].
    apply st_bind_Ok in Hrest as (created & w2 & Hc & Hrest). unfold attempt in Hc.
    destruct (store (CreateTier3 row) w1) as [[[]|e|q] w3] eqn:Hcr; [| |done]; injection Hc as <- <-.
    + injection Hrest as <- <- <-. apply store_Ok in Hcr as (t' & Hcr & ->). cbn [set_tables w_tables]. rewrite Hw1 in Hcr.
      apply (CreateTier3_ok roots V mk) in Hcr as (Ht' & He & Hin & HV); [|done|intros HV; eauto|rewrite Hver; done].
      apply dek_cached; [done|done|by eapply proc_ok_evolves|]. apply set_ok_single.
      eapply handle_row; [done|by apply in_scope_eq|done|congruence|auto].
    + assert (w_tables w3 = w_tables w) as Hw3.
      { rewrite <- Hw1. unfold store, transact in Hcr. by destruct (CreateTier3 row (w_tables w1)) as [[?|?|?] ?]; simplify_eq/=. }
      destruct (errors_Is e _); [|done]. rewrite (st_run _ _ _ _ _ (versions_read _ _ _ _)), Hw3 in Hrest.
      apply st_bind_Ok in Hrest as (set' & w4 & [= Hb <-] & [= <- <- <-]). rewrite Hw3. by apply build_ok.
  - intros (set' & w4 & [= Hb <-] & [= <- <- <-])%st_bind_Ok. apply build_ok; [done..|]. by rewrite Hr.
Qed.

Lemma projectDEKSet_ok org project k w set k' w' : tables_ok roots V mk (w_tables w) -> proc_ok V mk (w_tables w) l k ->
  projectDEKSet org project k w = (Ok (set, k'), w') -> dek_result (k_master k) (w_tables w) org project set k' (w_tables w').
Proof.
  intros Ht Hp. unfold projectDEKSet. destruct (List.filter _ _) as [|e es] eqn:Hf; [by apply rebuildDEKSet_ok|]. cbv zeta.
  assert (In e (List.filter (dekHit org project) (k_deks k))) as [Hin Hhit]%filter_In by (rewrite Hf; by left).
  destruct e as [[o p] s]. unfold dekHit in Hhit. apply bool_decide_eq_true in Hhit. injection Hhit as -> ->.
  set (k1 := with_deks ((org, project, s) :: evictDEK org project (k_deks k)) k).
  assert (proc_ok V mk (w_tables w) l k1) as Hp1.
  { apply proc_ok_deks; [done|]. intros o p' s' [[= -> -> ->]|Hi%evictDEK_In]; by apply (po_deks _ _ _ _ _ Hp). }
  assert (proc_ok V mk (w_tables w) l (evictProjectDEK org project k1)) as Hp2.
  { apply proc_ok_deks; [done|]. intros o p' s' Hi%evictDEK_In. by apply (po_deks _ _ _ _ _ Hp1). }
  assert (dek_result (k_master k) (w_tables w) org project s k1 (w_tables w)) as Hhit.
  { split_and!; [reflexivity|done|apply evolves_refl|done|]. by apply (po_deks _ _ _ _ _ Hp). }
  destruct (negb _); [by intros [= <- <- <-]|]. intros (found & w1 & Ha & Hrest)%st_bind_Ok. unfold attempt in Ha.
  rewrite active_read in Ha. destruct (GetActiveTier3Key _ _ _ _) as [row|]; injection Ha as <- <-.
  - destruct (_ =? _); [by injection Hrest as <- <- <-|by apply rebuildDEKSet_ok in Hrest].
  - by apply rebuildDEKSet_ok in Hrest.
Qed.
End Deks.
(** ** Master rotation *)
Lemma Forall2_map_l {A B C} (f : A -> B) (R : B -> C -> Prop) l : forall l', Forall2 R (map f l) l' -> Forall2 (fun x => R (f x)) l l'.
Proof. induction l as [|x l IH]; intros l' Hf; inversion Hf; subst; constructor; auto. Qed.

Definition moved (ks : list WrappedKey) (r r' : keyRow) : Prop :=
  r' = r \/ exists k, In k ks /\ wk_ID (row_key r) = wk_ID k /\ wk_Version (row_key r) = wk_Version k /\
    r' = MkRow (rewrap (wk_Blob k) (wk_MasterKeyVersion k) (row_key r)) (row_state r).

Lemma moved_key ks r r' : moved ks r r' ->
  wk_ID (row_key r') = wk_ID (row_key r) /\ tier3Key r' = tier3Key r /\ row_state r' = row_state r.
Proof. intros [->|(k & _ & _ & _ & ->)]; done. Qed.

Lemma rewrapAll_Ok ks : forall t t', rewrapAll ks t = (Ok (), t') ->
  master_keys t' = master_keys t /\ Forall2 (moved ks) (tier3_keys t) (tier3_keys t').
Proof.
  induction ks as [|k ks IH]; intros t t'; cbn [rewrapAll].
  { intros [= <-]. split; [done|]. apply Forall_Forall2_diag, Forall_true. intros r. by left. }
  intros (n & t1 & Hu & Hr)%st_bind_Ok. injection Hu as <- <-. destruct (_ =? 1); [|done].
  apply IH in Hr as [Hm Hf]. cbn [master_keys tier3_keys] in *. split; [done|]. apply Forall2_map_l in Hf.
  eapply Forall2_impl; [exact Hf|]. intros r r'. cbn beta.
  destruct (bool_decide_reflect (wk_ID (row_key r) = wk_ID k)) as [Hid|]; cbn [andb];
    [destruct (Z.eqb_spec (wk_Version (row_key r)) (wk_Version k)) as [Hv|]|].
  2,3: intros [->|(k' & Hin & Hrest)]; [by left|right; exists k'; split; [by right|done]].
  intros [->|(k' & Hin & Hid' & Hv' & ->)]; right; [exists k|exists k']; split_and!; try done; [by left|by right].
Qed.

Lemma moved_map {A} (f : keyRow -> A) ks l l' : (forall r r', moved ks r r' -> f r' = f r) -> Forall2 (moved ks) l l' -> map f l' = map f l.
Proof. intros Hf. induction 1 as [|r r' l l' Hm Hl IH]; [done|]. cbn [map]. by rewrite IH, (Hf _ _ Hm). Qed.

Lemma no_active_left V l : (forall r, In r l -> is_active r = true -> wk_Version (row_key r) = V) ->
  List.filter is_active (map (fun r => if is_active r && (wk_Version (row_key r) =? V) then set_state retired r else r) l) = [].
Proof.
  induction l as [|r l IH]; intros Hv; [done|]. cbn [map List.filter]. rewrite IH by (intros r' Hr'; apply Hv; by right).
  destruct (is_active r) eqn:Ha; cbn [andb]; [|by rewrite Ha]. rewrite (Hv r (or_introl eq_refl) Ha), Z.eqb_refl. done.
Qed.

(** A row that a rotation to the next master left openable was re-wrapped, and
    holds the key it held. *)
Lemma moved_wraps roots V mk nk t ks r r' : tables_ok roots V mk t -> Forall (rewrapped_ok (V + 1) mk nk t) ks ->
  In r (tier3_keys t) -> moved ks r r' -> openable r' = true -> wk_MasterKeyVersion (row_key r') = V + 1 ->
  exists key, wraps nk (row_key r') key /\ wraps mk (row_key r) key.
Proof.
  intros Ht Hks Hr Hmv Ho Hver. destruct (moved_key _ _ _ Hmv) as (_ & _ & Hst).
  assert (openable r = true) as Hor by (unfold openable, is_active, is_retiring in *; by rewrite <- Hst).
  destruct Hmv as [->|(k & Hk & Hid & Hv & ->)].
  - destruct (to_rows _ _ _ _ Ht r Hr Hor) as [Hm _]. lia.
  - rewrite Forall_forall in Hks. apply list_elem_of_In, Hks in Hk as (Hkv & r0 & key & Hr0 & Hid0 & Hkey & Hw & Hw0).
    assert (r0 = r) as -> by (apply (NoDup_map_inj _ _ _ _ (to_ids _ _ _ _ Ht)); congruence).
    exists key. split; [|by apply Hw0]. injection Hkey as E1 E2 E3 E4. unfold wraps, tier3AAD in *.
    cbn [row_key rewrap wk_Purpose wk_MasterKeyVersion wk_Version wk_OrgID wk_ProjectID wk_ID wk_Blob].
    by rewrite E1, E2, E3, E4, Hid.
Qed.

Lemma rotateMasterKey_ok roots V mk t row rewrapped t' : tables_ok roots V mk t ->
  rotateMasterKey row rewrapped t = (Ok (), t') ->
  wk_Version row = V + 1 /\ forall root nk, uint32 (V + 1) -> uint32 (wk_RootKeyEpoch row) -> roots !! wk_RootKeyEpoch row = Some root ->
    sealedUnder root row nk -> Forall (rewrapped_ok (V + 1) mk nk t) rewrapped ->
    tables_ok roots (V + 1) nk t' /\ evolves mk nk t t'.
Proof.
  intros Ht Hc. unfold rotateMasterKey in Hc. apply st_bind_Ok in Hc as ([] & t1 & ->%acquireHierarchy_Ok & Hc).
  apply st_bind_Ok in Hc as (ms & t1 & [= <- <-] & Hc). destruct (GetActiveMasterKeys t) as [|m [|]] eqn:Hms; [done| |done].
  destruct (wrapper_facts roots V mk t Ht m) as [HV _]; [rewrite Hms; by left|].
  destruct (Z.eqb_spec (wk_Version row) (wk_Version m + 1)) as [Hrow|]; [cbn [negb] in Hc|done]. rewrite HV in Hrow.
  apply st_bind_Ok in Hc as (n & t2 & Hret & Hc). injection Hret as _ <-. apply st_bind_Ok in Hc as ([] & t3 & [_ ->]%one_row_Ok & Hc).
  apply st_bind_Ok in Hc as ([] & t3 & [-> _]%insertMasterRow_Ok & Hc).
  apply st_bind_Ok in Hc as ([] & t4 & [Hmk Hf]%rewrapAll_Ok & Hc). apply st_bind_Ok in Hc as (st & t5 & Hcount & Hc).
  injection Hcount as <- <-. destruct (Z.eqb_spec (Z.of_nat (length (List.filter (fun r => openable r && negb (wk_MasterKeyVersion (row_key r) =? wk_Version row)) (tier3_keys t4)))) 0) as [Hz|]; [|done].
  injection Hc as <-. split; [done|]. intros root nk Hu He Hroot Hseal Hks. cbn [master_keys tier3_keys] in *. rewrite HV in Hmk.
  assert (forall r, In r (tier3_keys t4) -> openable r = true -> wk_MasterKeyVersion (row_key r) = V + 1) as Hver.
  { intros r Hr Ho. destruct (List.filter _ _) eqn:Hnil in Hz; [|cbn in Hz; lia]. destruct (Z.eqb_spec (wk_MasterKeyVersion (row_key r)) (wk_Version row)) as [|Hne]; [lia|].
    exfalso. apply (in_nil (a := r)). rewrite <- Hnil. apply filter_In. split; [done|]. rewrite Ho. apply Z.eqb_neq in Hne. by rewrite Hne. }
  assert (List.filter is_active (master_keys t4) = [MkRow row active]) as Hact.
  { rewrite Hmk, List.filter_app, no_active_left; [done|]. intros r Hr Ha. by apply (to_masters _ _ _ _ Ht). }
  destruct (Forall2_In _ _ _ Hf) as [Hfl Hfr]. split.
  - split; try done.
    + intros r Hr Ha. assert (In r [MkRow row active]) as [<-|[]] by (rewrite <- Hact; by apply filter_In). cbn [row_key]. eauto.
    + exists (MkRow row active). rewrite Hmk. split; [apply in_or_app; right; by left|done].
    + unfold activeEpochs. rewrite Hact. apply NoDup_singleton.
    + intros r' Hr' Ho. split; [by apply Hver|]. destruct (Hfr r' Hr') as (r & Hr & Hmv).
      destruct (moved_wraps _ _ _ _ _ _ _ _ Ht Hks Hr Hmv Ho (Hver _ Hr' Ho)) as (key & Hw & _). eauto.
    + intros r' Hr'. destruct (Hfr r' Hr') as (r & Hr & (_ & [= _ _ _ ->] & _)%moved_key). by apply (to_typed _ _ _ _ Ht).
    + rewrite (moved_map (fun r => wk_ID (row_key r)) rewrapped _ _ (fun r r' Hm => proj1 (moved_key _ _ _ Hm)) Hf). apply Ht.
    + rewrite (moved_map tier3Key rewrapped _ _ (fun r r' Hm => proj1 (proj2 (moved_key _ _ _ Hm))) Hf). apply Ht.
    + intros p Hp. destruct (to_present _ _ _ _ Ht p Hp) as (r & Hr & Ha & Hs). destruct (Hfl r Hr) as (r' & Hr' & (_ & Hk & Hst)%moved_key).
      exists r'. split_and!; [done|unfold is_active in *; by rewrite Hst|]. by apply (tier3Key_scope p [] [] r r').
  - intros r Hr. destruct (Hfl r Hr) as (r' & Hr' & Hmv). destruct (moved_key _ _ _ Hmv) as (Hid & Hk & Hst). exists r'.
    assert (openable r' = openable r) as Ho by (unfold openable, is_active, is_retiring; by rewrite Hst).
    split_and!; try done; [by rewrite Ho|by rewrite Ho|]. intros key Ho' Hw.
    destruct (moved_wraps _ _ _ _ _ _ _ _ Ht Hks Hr Hmv Ho' (Hver _ Hr' Ho')) as (key' & Hw' & Hw0). unfold wraps in *. congruence.
Qed.

(** ** Root rotation *)
Lemma tables_ok_masters roots roots' V mk t t' : tables_ok roots V mk t -> tier3_keys t' = tier3_keys t ->
  (forall r, In r (master_keys t') -> is_active r = true -> wk_Version (row_key r) = V /\ uint32 (wk_RootKeyEpoch (row_key r)) /\
     exists root, roots' !! wk_RootKeyEpoch (row_key r) = Some root /\ sealedUnder root (row_key r) mk) ->
  (exists r, In r (master_keys t') /\ is_active r = true) -> NoDup (activeEpochs t') -> tables_ok roots' V mk t'.
Proof. intros [H1 H2 H3 H4 H5 H6 H7 H8 H9] He Hm Hs Hn. split; rewrite ?He; done. Qed.

Lemma evolves_same mk t t' : tier3_keys t' = tier3_keys t -> evolves mk mk t t'.
Proof. intros He r Hr. exists r. rewrite He. split_and!; auto. Qed.

Lemma insertDesc_perm f k l : insertDesc f k l ≡ₚ k :: l.
Proof. induction l as [|x l IH]; cbn; [done|]. destruct (_ <=? _); [done|]. rewrite IH. apply perm_swap. Qed.

Lemma orderDesc_perm f l : orderDesc f l ≡ₚ l.
Proof. induction l as [|x l IH]; cbn; [done|]. rewrite insertDesc_perm. by rewrite IH. Qed.

Lemma active_epochs_perm t : map wk_RootKeyEpoch (GetActiveMasterKeys t) ≡ₚ activeEpochs t.
Proof.
  unfold GetActiveMasterKeys, activeEpochs, keysWhere. rewrite <- (map_map row_key wk_RootKeyEpoch).
  apply Permutation_map, orderDesc_perm.
Qed.

Lemma rootKeyRotatePrepare_ok roots V mk t row newRoot t' : tables_ok roots V mk t -> rootKeyRotatePrepare row t = (Ok (), t') ->
  uint32 (wk_RootKeyEpoch row) -> (wk_Version row = V -> sealedUnder newRoot row mk) ->
  tables_ok (<[ wk_RootKeyEpoch row := newRoot ]> roots) V mk t' /\ evolves mk mk t t'.
Proof.
  intros Ht Hc Hu Hs. unfold rootKeyRotatePrepare in Hc. apply st_bind_Ok in Hc as ([] & t1 & ->%acquireHierarchy_Ok & Hc).
  apply st_bind_Ok in Hc as (ms & t1 & [= <- <-] & Hc). destruct (GetActiveMasterKeys t) as [|m [|]] eqn:Hms; [done| |done].
  destruct (wrapper_facts roots V mk t Ht m) as [HV _]; [rewrite Hms; by left|].
  destruct (_ && _) eqn:Hg; [|done]. apply andb_prop in Hg as [?%Z.eqb_eq ?%Z.eqb_eq]. apply insertMasterRow_Ok in Hc as [-> Hfree].
  split; [|by apply evolves_same]. eapply tables_ok_masters; [exact Ht|done|..]; cbn [master_keys].
  - intros r [Hr|[<-|[]]]%in_app_or Ha; cbn [row_key].
    + rewrite lookup_insert_ne by (intros He; by apply (Hfree r Hr Ha)). by apply (to_masters _ _ _ _ Ht).
    + rewrite lookup_insert_eq. split_and!; [lia|done|]. exists newRoot. split; [done|]. apply Hs. lia.
  - exists (MkRow row active). split; [apply in_or_app; right; by left|done].
  - unfold activeEpochs. cbn [master_keys]. rewrite List.filter_app. apply (NoDup_snoc (fun r => wk_RootKeyEpoch (row_key r))); [apply Ht|].
    intros r [Hr Ha]%filter_In. by apply Hfree.
Qed.

Lemma active_set_state (sel : keyRow -> bool) l : List.filter is_active (map (fun r => if sel r then set_state retired r else r) l)
  = List.filter (fun r => is_active r && negb (sel r)) l.
Proof. induction l as [|r l IH]; [done|]. cbn [map List.filter]. rewrite IH. destruct (sel r); cbn; [by rewrite andb_false_r|by rewrite andb_true_r]. Qed.

Lemma rootKeyRotateFinalize_ok roots V mk t blocked e t' : tables_ok roots V mk t -> rootKeyRotateFinalize blocked t = (Ok e, t') ->
  tables_ok roots V mk t' /\ evolves mk mk t t'.
Proof.
  intros Ht. unfold rootKeyRotateFinalize. destruct blocked; [done|]. intros ([] & t1 & ->%acquireHierarchy_Ok & Hc)%st_bind_Ok.
  apply st_bind_Ok in Hc as (ms & t1 & [= <- <-] & Hc). destruct (GetActiveMasterKeys t) as [|new [|old [|]]] eqn:Hms; [done|done| |done].
  apply st_bind_Ok in Hc as (n & t2 & Hret & Hc). injection Hret as _ <-. apply st_bind_Ok in Hc as ([] & t3 & [_ ->]%one_row_Ok & [= <- <-]).
  split; [|by apply evolves_same].
  pose proof (active_epochs_perm t) as Hperm. rewrite Hms in Hperm. pose proof (to_epochs _ _ _ _ Ht) as Hnd. rewrite <- Hperm in Hnd.
  cbn [map] in Hnd. apply NoDup_cons in Hnd as [Hne _]. rewrite list_elem_of_singleton in Hne.
  eapply tables_ok_masters; [exact Ht|done|..]; cbn [master_keys].
  - intros r (r0 & <- & Hr)%in_map_iff. destruct (_ && _ && _); [done|]. by apply (to_masters _ _ _ _ Ht).
  - assert (In new (GetActiveMasterKeys t)) as (r & Hr & Ha & Hk)%activeMaster_In by (rewrite Hms; by left).
    exists r. split; [|done]. apply in_map_iff. exists r. split; [|done]. rewrite Hk. apply Z.eqb_neq in Hne. by rewrite Hne, andb_false_r.
  - unfold activeEpochs. cbn [master_keys]. rewrite active_set_state. apply (NoDup_map_filter (fun r => wk_RootKeyEpoch (row_key r))), Ht.
Qed.

(** ** Writers and re-encryption *)
Lemma activeHandle_ok mk t p org project set : dek_scope p org project -> set_ok mk t p org project set ->
  writer_ok mk t (MkWriter p org project (activeHandle set)).
Proof.
  intros Hp Hs. split; [done|]. cbn [wr_handle wr_purpose wr_org wr_project]. unfold activeHandle.
  destruct (vs_byVer set !! vs_active set) as [h|] eqn:Hl; [right|by left]. cbn [default]. by apply (Hs _ _ Hl).
Qed.

Lemma same_row roots V mk t p org project r r' : tables_ok roots V mk t -> In r (tier3_keys t) -> In r' (tier3_keys t) ->
  in_scope p org project (row_key r) = true -> in_scope p org project (row_key r') = true ->
  wk_Version (row_key r) = wk_Version (row_key r') -> r = r'.
Proof.
  intros Ht Hr Hr' (E1 & E2 & E3)%in_scope_eq (F1 & F2 & F3)%in_scope_eq Hv.
  apply (NoDup_map_inj _ _ _ _ (to_keys _ _ _ _ Ht) Hr Hr'). unfold tier3Key. congruence.
Qed.

Lemma opened_version key id v a record pt : open key id v a record = Ok pt -> RecordKeyVersion record = Ok v.
Proof.
  intros (nonce & ct & -> & Hn & _ & Hi & Hv & _)%open_Ok. unfold RecordKeyVersion.
  rewrite parseHeader_bytes; [done|by apply typed_record_header|done].
Qed.

(** A version column, where there is one, names the same version. *)
Lemma versionOf_record mk t c : cell_ok mk t c -> versionOf c = RecordKeyVersion (c_record c).
Proof. intros (_ & [_ Hcol] & _). unfold versionOf. destruct (c_column c) as [v|]; [|done]. by rewrite (Hcol v). Qed.

(** The row a fenced writer seals under is its scope's active one. *)
Lemma fenced_seal roots V mk t wr rnd a pt record column u t' : (column = None \/ column = Some (kh_version (wr_handle wr))) -> tables_ok roots V mk t -> writer_ok mk t wr -> aad_typed a ->
  assertActiveDEKVersion (wr_purpose wr) (wr_org wr) (wr_project wr) (kh_version (wr_handle wr)) t = (Ok u, t') ->
  seal rnd (kh_key (wr_handle wr)) (kh_id (wr_handle wr)) (kh_version (wr_handle wr)) a pt = Ok record ->
  cell_ok mk t (MkCell (wr_purpose wr) (wr_org wr) (wr_project wr) a record column pt).
Proof.
  intros Hcol Ht [Hp Hh] Ha Hact Hs. destruct u. apply assertActiveDEK_Ok in Hact as (_ & r & Hr & Hsc & Hv & Hst).
  destruct Hh as [Hk|(r0 & Hr0 & Hsc0 & Hid & Hv0 & Hw)]; [rewrite Hk in Hs; by apply seal_Ok in Hs as (? & _ & _ & Hl & _)|].
  assert (r0 = r) as -> by (eapply same_row; eauto; congruence).
  assert (open (kh_key (wr_handle wr)) (kh_id (wr_handle wr)) (kh_version (wr_handle wr)) a record = Ok pt) as Hop
    by (eapply seal_opens; [exact Hs|]; rewrite <- Hv0; by apply (to_typed _ _ _ _ Ht)).
  split; [done|]. split.
  - split; [done|]. cbn [c_column c_record]. intros v [= ->]. rewrite (opened_version _ _ _ _ _ _ Hop). destruct Hcol; congruence.
  - exists r, (kh_key (wr_handle wr)). cbn [c_purpose c_org c_project c_aad c_record c_plain]. split_and!; auto using active_openable. by rewrite Hid, Hv0.
Qed.

Lemma fst_Ok {A B} (x : result A * B) a : x.1 = Ok a -> x = (Ok a, x.2).
Proof. destruct x. by intros [= ->]. Qed.

Lemma writeCell_ok roots V mk t wr hasColumn rnd a pt c : tables_ok roots V mk t -> writer_ok mk t wr -> aad_typed a ->
  writeCell t wr hasColumn rnd a pt = Ok c -> cell_ok mk t c.
Proof.
  intros Ht Hwr Ha Hc. unfold writeCell in Hc. apply bind_Ok in Hc as (u & Hact%fst_Ok & Hc). apply bind_Ok in Hc as (record & Hs & [= <-]).
  eapply fenced_seal; eauto. unfold columnOf. destruct (hasColumn && _); auto.
Qed.

(** Whatever set of its scope opens a cell's record, gives the cell's plaintext. *)
Lemma openVersioned_plain roots V mk t set c pt : tables_ok roots V mk t -> cell_ok mk t c ->
  set_ok mk t (c_purpose c) (c_org c) (c_project c) set -> openVersioned set (c_aad c) (c_record c) = Ok pt -> pt = c_plain c.
Proof.
  intros Ht (_ & _ & r & key & Hr & Ho & Hsc & Hw & Hop) Hset. unfold openVersioned. intros ([h rest] & Hh & Hx)%bind_Ok.
  pose proof (opened_version _ _ _ _ _ _ Hop) as Hv. unfold RecordKeyVersion in Hv. rewrite Hh in Hv. injection Hv as Hv.
  destruct (vs_byVer set !! h_keyVersion h) as [d|] eqn:Hd; [|done]. destruct (Hset _ _ Hd) as (Hdv & r0 & Hr0 & Hsc0 & Hid0 & Hv0 & Hw0).
  assert (r0 = r) as -> by (eapply same_row; eauto; congruence). specialize (Hw0 Ho).
  assert (kh_key d = key) as Hkey by (unfold wraps in *; congruence). rewrite Hkey, <- Hid0, <- Hv0 in Hx. congruence.
Qed.

(** What a set's active handle seals, the set opens. *)
Lemma resealed_opens mk t p org project set rnd a pt record : set_ok mk t p org project set -> uint32 (kh_version (activeHandle set)) ->
  seal rnd (kh_key (activeHandle set)) (kh_id (activeHandle set)) (kh_version (activeHandle set)) a pt = Ok record -> openVersioned set a record = Ok pt.
Proof.
  intros Hset Hu Hs. pose proof (seal_opens _ _ _ _ _ _ _ Hs Hu) as Hop. pose proof Hs as (_ & _ & _ & Hlen & _)%seal_Ok. unfold activeHandle in *.
  destruct (vs_byVer set !! vs_active set) as [h|] eqn:Hh; [|done]. cbn [default from_option id] in *. destruct (Hset _ _ Hh) as [Hv _].
  unfold openVersioned. pose proof (opened_version _ _ _ _ _ _ Hop) as Hver. unfold RecordKeyVersion in Hver.
  destruct (parseHeader record) as [[hd rest]| |]; [|done..]. injection Hver as Hver. cbn [mbind result_bind]. by rewrite Hver, Hv, Hh, Hv in *.
Qed.

Lemma resealCell_ok roots V mk t p org project set rnd c c' : tables_ok roots V mk t -> dek_scope p org project ->
  set_ok mk t p org project set -> cell_ok mk t c -> cell_in p org project c = true ->
  resealCell t set (MkWriter p org project (activeHandle set)) rnd c = Ok c' ->
  cell_ok mk t c' /\ RecordKeyVersion (c_record c') = Ok (kh_version (activeHandle set)) /\
  (c' = c \/ c_aad c' = c_aad c /\ exists pt, openVersioned set (c_aad c) (c_record c) = Ok pt /\ openVersioned set (c_aad c) (c_record c') = Ok pt).
Proof.
  intros Ht Hp Hset Hc Hin Hre. unfold resealCell in Hre. apply bind_Ok in Hre as (u & Hact%fst_Ok & Hre). apply bind_Ok in Hre as (v & Hv & Hre).
  rewrite (versionOf_record _ _ _ Hc) in Hv.
  destruct (Z.eqb_spec v (kh_version (wr_handle (MkWriter p org project (activeHandle set))))) as [->|_]; [injection Hre as <-; auto|].
  apply bind_Ok in Hre as (plain & Hop & Hre). apply bind_Ok in Hre as (record & Hs & [= <-]).
  unfold cell_in in Hin. apply andb_prop in Hin as [[E1%String.eqb_eq E2%bool_decide_eq_true]%andb_prop E3%bool_decide_eq_true].
  assert (set_ok mk t (c_purpose c) (c_org c) (c_project c) set) as Hset' by (by rewrite E1, E2, E3).
  cbn [c_aad c_record]. rewrite E1, E2, E3. destruct Hc as (Hcp & [Hca _] & Hrest).
  assert (cell_ok mk t (MkCell p org project (c_aad c) record ((fun _ => kh_version (activeHandle set)) <$> c_column c) plain)) as Hok'.
  { eapply (fenced_seal roots V mk t (MkWriter p org project (activeHandle set))); eauto using activeHandle_ok. destruct (c_column c); cbn; auto. }
  assert (uint32 (kh_version (activeHandle set))) as Hu.
  { destruct u. apply assertActiveDEK_Ok in Hact as (_ & r & Hr & _ & Hvr & _). cbn [wr_handle] in Hvr. rewrite <- Hvr. by apply (to_typed _ _ _ _ Ht). }
  split; [exact Hok'|]. split.
  - eapply opened_version, seal_opens; [exact Hs|exact Hu].
  - right. split; [done|]. exists plain. split; [done|]. by eapply resealed_opens.
Qed.

Lemma retireScope_ok roots V mk t p org project version cs t' : tables_ok roots V mk t ->
  (forall i c, cs !! i = Some c -> cell_ok mk t c) -> retireScope p org project version cs t = (Ok (), t') ->
  tables_ok roots V mk t' /\ (exists keep, evolves_keeping keep mk mk t t') /\ (forall i c, cs !! i = Some c -> cell_ok mk t' c).
Proof.
  intros Ht Hcs Hre. unfold retireScope in Hre. apply st_bind_Ok in Hre as ([] & t1 & (-> & ra & Hra & Hsa & Hva & Hact)%assertActiveDEK_Ok & Hre).
  destruct (dry _ _ _ _ _) eqn:Hdry; [|done]. apply st_bind_Ok in Hre as (n & t2 & Hre & [= <-]).
  unfold retireRetiringTier3 in Hre. apply st_bind_Ok in Hre as ([] & t3 & ->%acquireScope_Ok & Hre). injection Hre as _ <-.
  set (sel := fun r => is_retiring r && in_scope p org project (row_key r)).
  set (f := fun r => if sel r then set_state retired r else r).
  change (map _ (tier3_keys t)) with (map f (tier3_keys t)).
  assert (forall r, row_key (f r) = row_key r) as Hkey by (intros r; unfold f; by destruct (sel r)).
  assert (forall r, openable (f r) = true -> f r = r) as Hopen by (intros r; unfold f; by destruct (sel r)).
  assert (evolves_keeping (fun r => sel r = false) mk mk t (MkTables (master_keys t) (map f (tier3_keys t)) (key_generations t))) as Hev.
  { intros r Hr. exists (f r). unfold tier3Key. rewrite Hkey. split_and!; try done; [by apply in_map| |].
    - intros Ho. by rewrite <- (Hopen r Ho).
    - unfold f. by intros ->. }
  split_and!; [|by eexists|].
  - destruct Ht as [H1 H2 H3 H4 H5 H6 H7 H8 H9]. split; cbn [tier3_keys master_keys]; try done.
    + intros r (r0 & <- & Hr0)%in_map_iff Ho. rewrite (Hopen _ Ho) in Ho |- *. by apply H5.
    + intros r (r0 & <- & Hr0)%in_map_iff. rewrite Hkey. by apply H6.
    + rewrite map_map. rewrite (map_ext _ (fun r => wk_ID (row_key r))); [done|]. intros r. by rewrite Hkey.
    + rewrite map_map. rewrite (map_ext _ tier3Key); [done|]. intros r. unfold tier3Key. by rewrite Hkey.
    + intros q Hq. destruct (H9 q Hq) as (r & Hr & Ha & Hs). exists r. split_and!; [|done|done]. apply in_map_iff. exists r. split; [|done].
      unfold f, sel, is_retiring. unfold is_active in Ha. apply bool_decide_eq_true in Ha. by rewrite Ha.
  - intros i c Hi. apply (cell_ok_keeping _ _ _ _ _ _ Hev); [|by eauto]. intros r key Hr Ho Hs _ Hop.
    destruct (sel r) eqn:Hse; [|done]. apply andb_prop in Hse as [Hret Hin]. exfalso.
    unfold dry in Hdry. apply (forallb_In _ _ (i, c)) in Hdry; [|by apply list_elem_of_In, elem_of_map_to_list].
    cbn [snd] in Hdry. unfold straggler in Hdry. rewrite (versionOf_record _ _ _ (Hcs _ _ Hi)), (opened_version _ _ _ _ _ _ Hop) in Hdry.
    apply in_scope_eq in Hs as (E1 & E2 & E3). pose proof Hin as (F1 & F2 & F3)%in_scope_eq.
    unfold cell_in in Hdry. rewrite <- E1, <- E2, <- E3, F1, F2, F3, String.eqb_refl, !bool_decide_eq_true_2, andb_true_l in Hdry by done.
    rewrite negb_involutive in Hdry. apply Z.eqb_eq in Hdry. assert (r = ra) as -> by (eapply same_row; eauto; congruence).
    unfold is_active, is_retiring in *. apply bool_decide_eq_true in Hact, Hret. congruence.
Qed.

(** ** Preparing a master or root rotation *)
Lemma rewrapped_ok_evolves keep V mk nk t t' k : evolves_keeping keep mk mk t t' -> rewrapped_ok V mk nk t k -> rewrapped_ok V mk nk t' k.
Proof.
  intros He (Hv & r & key & Hr & Hid & Hk & Hw & Ho). destruct (He r Hr) as (r' & Hr' & Hid' & Hk' & Hop & _ & Hw').
  split; [done|]. exists r', key. split_and!; [done|congruence|congruence|done|auto].
Qed.

Lemma lock_ok_evolves keep roots V mk t t' proc l : evolves_keeping keep mk mk t t' -> lock_ok roots V mk t proc l -> lock_ok roots V mk t' proc l.
Proof.
  intros He. destruct l as [[row rew []|row nr]|]; [done| |done|done]. intros [Hne Hl]. split; [done|].
  intros Hv. destruct (Hl Hv) as (Hu & Hue & root & nk & Hr & Hs & Hp & Hf). split_and!; [done..|]. exists root, nk. split_and!; [done..|].
  eapply Forall_impl; [exact Hf|]. intros k. by apply (rewrapped_ok_evolves keep).
Qed.

Lemma proc_ok_lock V mk t l k : proc_ok V mk t None k -> proc_ok V mk t l k.
Proof.
  intros [H1 H2 H3 H4 H5 H6]. split; try done. intros v key Hv. left. destruct (H2 v key Hv) as [?|(? & ? & ? & _)]; done.
Qed.

Lemma rewrapRows_ok roots V mk nk nv t m rows : tables_ok roots V mk t -> current V mk m -> uint32 nv ->
  (forall k, In k rows -> In k (AllOpenableTier3 t)) ->
  forall w rew w', rewrapRows m nk nv rows w = (Ok rew, w') -> Forall (rewrapped_ok nv mk nk t) rew.
Proof.
  intros Ht Hm Hu. induction rows as [|row rows IH]; intros Hin w rew w'; cbn [rewrapRows]; [by intros [= <- <-]|].
  intros (h & w1 & [= Hun <-] & Hr)%st_bind_Ok. apply st_bind_Ok in Hr as (blob & w2 & [_ [rnd Hs]]%sealW_Ok & Hr).
  apply st_bind_Ok in Hr as (rest & w3 & Hrest & [= <- <-]). constructor; [|eapply IH; [|exact Hrest]; intros k Hk; apply Hin; by right].
  destruct (proj1 (keysWhere_In _ _ _) (Hin row (or_introl eq_refl))) as (r & Hr & Ho & <-).
  destruct (to_rows _ _ _ _ Ht r Hr Ho) as [Hv _].
  destruct (unwrapTier3_inv V mk m _ h Hm Hv Hun) as (_ & _ & Hw).
  split; [done|]. exists r, (kh_key h). split_and!; try done. unfold wraps. exact (seal_opens _ _ _ _ _ _ _ Hs Hu).
Qed.

Lemma u32_succ V : uint32 V -> u32 (V + 1) <> V.
Proof.
  unfold uint32, u32. intros Hv. destruct (Z.eq_dec (V + 1) (2 ^ 32)) as [He|Hne]; [rewrite He, Z.mod_same by done; lia|].
  rewrite Z.mod_small by lia. lia.
Qed.

Lemma addMaster_Some v key m v' key' : ms_byVer (addMaster v key m) !! v' = Some key' -> ms_byVer m !! v' = Some key' \/ v' = v.
Proof.
  unfold addMaster. destruct (ms_byVer m !! v); [by left|]. cbn [ms_byVer].
  destruct (decide (v = v')) as [<-|Hne]; [by right|]. rewrite lookup_insert_ne by done. by left.
Qed.

Lemma PrepareMaster_ok roots V mk k root w row rew k' w' : tables_ok roots V mk (w_tables w) -> proc_ok V mk (w_tables w) None k ->
  PrepareMasterKeyRotation root k w = (Ok (row, rew, k'), w') ->
  let l := Some (MasterRotation row rew false) in
  lock_ok roots V mk (w_tables w) (Some k') l /\ proc_ok V mk (w_tables w) l k'.
Proof.
  intros Ht Hp. unfold PrepareMasterKeyRotation. destruct (negb _); [done|]. rewrite (st_run _ _ _ _ _ (masters_read w)).
  destruct (GetActiveMasterKeys (w_tables w)) as [|cur [|]] eqn:Hms; [done| |done].
  destruct (wrapper_facts roots V mk _ Ht cur) as (HV & He & root' & Hroot & Hseal); [rewrite Hms; by left|].
  destruct (open root _ 0 _ _) as [m|e|p] eqn:Ho; [|done..].
  destruct (sealed_binds root' root cur mk m ltac:(rewrite HV; exact (to_version _ _ _ _ Ht)) He Hseal Ho) as [-> ->].
  intros (nk & w1 & Hnk%newKey_tables & Hr)%st_bind_Ok. apply st_bind_Ok in Hr as (blob & w2 & [Hw2 [rnd Hs]]%sealW_Ok & Hr).
  apply st_bind_Ok in Hr as (tier3 & w3 & (t3 & [= <- <-] & ->)%store_Ok & Hr). apply st_bind_Ok in Hr as (rew' & w4 & Hrew & [= <- <- <- <-]).
  rewrite Hw2, Hnk, HV in *. pose proof (to_version _ _ _ _ Ht) as HuV. pose proof (u32_succ V HuV) as Hne.
  assert (wk_RootKeyEpoch (rewrap blob 0 (MkWrappedKey [] "" [] [] (u32 (V + 1)) 0 (wk_RootKeyEpoch cur) [])) = wk_RootKeyEpoch cur) as Hep by done.
  cbv zeta. split.
  - cbn [lock_ok rewrap wk_Version wk_RootKeyEpoch]. split; [done|]. intros Hv1.
    assert (uint32 (V + 1)) as HuV1 by (rewrite <- Hv1; apply uint32_u32). split_and!; [done..|]. exists root', nk. split_and!; [done|by exists rnd| |].
    + intros k0 [= <-]. cbn [with_master k_master]. rewrite Hv1. unfold addMaster.
      destruct (ms_byVer (k_master k) !! (V + 1)) as [key|] eqn:Hl; [|cbn [ms_byVer]; by rewrite lookup_insert_eq].
      destruct (po_held _ _ _ _ _ Hp _ _ Hl) as [?|(? & ? & ? & _)]; [lia|done].
    + rewrite Hv1 in Hrew. eapply (rewrapRows_ok roots V mk nk (V + 1)); [exact Ht|exact (po_current _ _ _ _ _ Hp)|done| |exact Hrew]. done.
  - destruct Hp as [H1 H2 H3 H4 H5 H6]. split; cbn [with_master k_master k_instance k_deks]; try done.
    + intros key [Hk|Heq]%addMaster_Some; [by apply H1|by destruct Hne].
    + intros v key [Hk| ->]%addMaster_Some.
      * left. destruct (H2 _ _ Hk) as [?|(? & ? & ? & _)]; done.
      * right. by eexists _, _.
    + unfold addMaster. destruct (ms_byVer (k_master k) !! u32 (V + 1)); exact H3.
    + unfold addMaster. destruct (ms_byVer (k_master k) !! u32 (V + 1)) eqn:Hl; [done|]. cbn [ms_active ms_byVer].
      rewrite lookup_insert_ne; [done|]. intros Heq. rewrite <- Heq, Hl in H4. by destruct H4.
Qed.

Lemma PrepareRoot_ok roots V mk k newRoot w row w' : tables_ok roots V mk (w_tables w) -> proc_ok V mk (w_tables w) None k ->
  PrepareRootKeyRotation newRoot k w = (Ok row, w') -> lock_ok roots V mk (w_tables w) (Some k) (Some (RootRotation row newRoot)).
Proof.
  intros Ht Hp. unfold PrepareRootKeyRotation. destruct (negb _); [done|]. rewrite (st_run _ _ _ _ _ (masters_read w)).
  destruct (GetActiveMasterKeys (w_tables w)) as [|cur [|]] eqn:Hms; [done| |done].
  destruct (wrapper_facts roots V mk _ Ht cur) as (HV & _); [rewrite Hms; by left|].
  destruct (Z.eqb_spec (ms_active (k_master k)) (wk_Version cur)) as [Ha|]; [cbn [negb]|done].
  intros (blob & w2 & [Hw2 [rnd Hs]]%sealW_Ok & [= <- <-])%st_bind_Ok. cbn [lock_ok rewrap wk_RootKeyEpoch wk_Version].
  split; [apply uint32_u32|]. intros _. exists rnd. unfold activeKey in Hs. destruct (po_key _ _ _ _ _ Hp) as [key Hk]. rewrite Hk in Hs.
  rewrite Ha, HV in Hk. by rewrite (po_current _ _ _ _ _ Hp _ Hk) in Hs.
Qed.
End Steps.
