(* ===== verification/KeyLifecycleClaims.v ===== *)
(** * The guarantees of the key lifecycle

    The invariant holds in every reachable state of the system in which a
    token or scanning rotation commits only under the active master: the
    hierarchy always boots and every ciphertext stays readable. The code makes
    no such check for those two rotations, and a run of it ends in a hierarchy
    that no root key opens. *)

From S2P Require Import Prelude Utf8 Envelope KeyTables Keyring KeyLifecycle KeyLifecycleSpec KeyLifecycleSteps.
From Stdlib Require Import Ascii.

#[local] Open Scope Z_scope.

Section Preservation.
Context `{AEAD}.

(** ** Parts of the state *)
Lemma committed_evolves keep mk mk' t t' l : evolves_keeping keep mk mk' t t' -> Forall (committed_ok mk t) l -> Forall (committed_ok mk' t') l.
Proof. intros He Hl. eapply Forall_impl; [exact Hl|]. intros hr Hx Hp. eapply handle_ok_evolves; [exact He|by apply Hx]. Qed.

Lemma writers_evolve keep mk mk' t t' l : evolves_keeping keep mk mk' t t' -> Forall (writer_ok mk t) l -> Forall (writer_ok mk' t') l.
Proof.
  intros He Hl. eapply Forall_impl; [exact Hl|]. intros wr [Hp [Hk|Hh]]; split; [done|by left|done|right]. by eapply handle_ok_evolves.
Qed.

Lemma sets_evolve keep mk mk' t t' (l : list (string * bytes * bytes * versionSet)) : evolves_keeping keep mk mk' t t' ->
  Forall (fun x => let '(p, org, project, set) := x in dek_scope p org project /\ set_ok mk t p org project set) l ->
  Forall (fun x => let '(p, org, project, set) := x in dek_scope p org project /\ set_ok mk' t' p org project set) l.
Proof. intros He Hl. eapply Forall_impl; [exact Hl|]. intros [[[p o] q] set] [Hp Hset]. split; [done|]. by eapply set_ok_evolves. Qed.

Section Parts.
Context (V : Z) (mk : bytes) (s : Sys) (Hs : sys_ok V mk s).

Lemma sys_tab keep t' : tables_ok (s_roots s) V mk t' -> evolves_keeping keep mk mk (s_tables s) t' ->
  (forall i c, s_cells s !! i = Some c -> cell_ok mk t' c) -> sys_ok V mk (set_tab t' s).
Proof.
  intros Ht He Hc. destruct Hs as [H1 H2 H3 H4 H5 H6 H7 H8].
  split; cbn [set_tab s_tables s_cells s_proc s_lock s_rows s_done s_writers s_sets s_roots]; try done.
  - intros k Hk. eapply proc_ok_evolves; [exact He|by apply H3].
  - by eapply lock_ok_evolves.
  - by eapply committed_evolves.
  - by eapply writers_evolve.
  - by eapply sets_evolve.
Qed.

Lemma sys_evolves t' : tables_ok (s_roots s) V mk t' -> evolves mk mk (s_tables s) t' -> sys_ok V mk (set_tab t' s).
Proof. intros Ht He. apply (sys_tab durable); [done..|]. intros i c Hi. eapply cell_ok_evolves; [exact He|]. by apply (so_cells _ _ _ Hs i). Qed.

Lemma sys_proc k k' : s_proc s = Some k -> k_master k' = k_master k -> proc_ok V mk (s_tables s) (s_lock s) k' -> sys_ok V mk (set_proc k' s).
Proof.
  intros Hk Hm Hp. destruct Hs as [H1 H2 H3 H4 H5 H6 H7 H8].
  split; cbn [set_proc s_tables s_cells s_proc s_lock s_rows s_done s_writers s_sets s_roots]; try done.
  - by intros k0 [= <-].
  - unfold lock_ok in *. rewrite Hk in H4. destruct (s_lock s) as [[row rew []|row nr]|]; [| |done|done].
    + destruct H4 as [Hv Hl]. split; [done|]. intros k0 [= <-]. rewrite Hm. by apply Hl.
    + destruct H4 as [Hv Hl]. split; [done|]. intros Hx. destruct (Hl Hx) as (Hu & Hue & root & nk & Hr & Hse & Hpr & Hf).
      split_and!; [done..|]. exists root, nk. split_and!; [done..| |done]. intros k0 [= <-]. rewrite Hm. by apply Hpr.
Qed.

Lemma sys_row r : prepared_ok V mk r -> sys_ok V mk (add_row r s).
Proof. intros Hr. destruct Hs. split; try done. by constructor. Qed.

Lemma sys_done r : committed_ok mk (s_tables s) r -> sys_ok V mk (add_done r s).
Proof. intros Hr. destruct Hs. split; try done. by constructor. Qed.

Lemma sys_sealer p org project set : dek_scope p org project -> set_ok mk (s_tables s) p org project set ->
  sys_ok V mk (add_sealer p org project set s).
Proof. intros Hp Hset. pose proof (activeHandle_ok mk (s_tables s) p org project set Hp Hset). destruct Hs. split; try done; by constructor. Qed.

Lemma sys_cells c' : (forall i c, c' !! i = Some c -> cell_ok mk (s_tables s) c) -> sys_ok V mk (set_cells c' s).
Proof. intros Hc. destruct Hs. by split. Qed.

Lemma sys_cell i c : cell_ok mk (s_tables s) c -> sys_ok V mk (set_cells (<[ i := c ]> (s_cells s)) s).
Proof.
  intros Hc. apply sys_cells. intros j c' [[<- <-]|[_ Hj]]%lookup_insert_Some; [done|]. by apply (so_cells _ _ _ Hs j).
Qed.

Lemma sys_lock_with l k' : (match s_proc s with Some _ => proc_ok V mk (s_tables s) l k' | None => False end) ->
  lock_ok (s_roots s) V mk (s_tables s) (Some k') l -> sys_ok V mk (set_lock l (set_proc k' s)).
Proof.
  intros Hp Hl. destruct (s_proc s); [|done]. destruct Hs as [H1 H2 H3 H4 H5 H6 H7 H8].
  split; cbn [set_proc set_lock s_tables s_cells s_proc s_lock s_rows s_done s_writers s_sets s_roots]; try done. by intros k0 [= <-].
Qed.

Lemma sys_unlock : (forall row rew, s_lock s <> Some (MasterRotation row rew false)) -> sys_ok V mk (set_lock None s).
Proof.
  intros Hno. destruct Hs as [H1 H2 H3 H4 H5 H6 H7 H8].
  split; cbn [set_lock s_tables s_cells s_proc s_lock s_rows s_done s_writers s_sets s_roots]; try done.
  intros k Hk. destruct (H3 k Hk) as [P1 P2 P3 P4 P5 P6]. split; try done. intros v key Hv. left.
  destruct (P2 v key Hv) as [?|(row & rew & Hl & _)]; [done|]. by destruct (Hno row rew).
Qed.

Lemma sys_booted k t' : t' = s_tables s -> proc_ok V mk t' None k -> sys_ok V mk (booted t' (s_cells s) (s_roots s) k).
Proof.
  intros -> Hk. destruct Hs as [H1 H2 H3 H4 H5 H6 H7 H8]. split; try done. cbn [booted s_proc s_tables s_lock]. by intros k0 [= <-].
Qed.
End Parts.

Lemma LoadKeyring_length root w k w' : LoadKeyring root w = (Ok k, w') -> length root = KeySize.
Proof. unfold LoadKeyring. destruct (Nat.eqb_spec (length root) KeySize); done. Qed.

Lemma LoadKeyring_inv roots V mk root w k w' : tables_ok roots V mk (w_tables w) -> LoadKeyring root w = (Ok k, w') ->
  w' = w /\ proc_ok V mk (w_tables w) None k.
Proof.
  intros Ht Hl. pose proof (LoadKeyring_cases roots V mk _ Ht root w eq_refl (LoadKeyring_length _ _ _ _ Hl)) as Hc.
  destruct (unwrapMaster _ _) as [[v m]|e|p]; [|by rewrite Hl in Hc..]. destruct Hc as (k0 & Hk & Hp & _). rewrite Hl in Hk. by simplify_eq.
Qed.

(** ** Every step keeps the invariant *)
Section Step.
Context (V : Z) (mk : bytes) (s : Sys) (Hs : sys_ok V mk s).

Let Ht : tables_ok (s_roots s) V mk (s_tables s) := so_tables _ _ _ Hs.

Lemma version_typed : uint32 V.
Proof. exact (to_version _ _ _ _ Ht). Qed.

Lemma keep_crash : sys_ok V mk (MkSys (s_tables s) (s_cells s) None None [] [] [] [] (s_roots s)).
Proof. destruct Hs. by split. Qed.

Lemma keep_project_sealer k org project rnd ids ps k' w : s_proc s = Some k ->
  ForProject org project k (MkWorld (s_tables s) rnd ids) = (Ok (ps, k'), w) ->
  sys_ok V mk (add_sealer PurposeProject org project (ps_deks ps) (set_proc k' (set_tab (w_tables w) s))).
Proof.
  intros Hk. unfold ForProject. destruct (emptyScope org project) eqn:Hem; [done|]. intros ([set k1] & w1 & Hd & [= <- <- <-])%st_bind_Ok.
  eapply projectDEKSet_ok in Hd as (Hm & Ht' & He & Hp & Hset); [|exact Ht|exact (so_proc _ _ _ Hs k Hk)]. cbn [ps_deks].
  apply sys_sealer; [|by left; split|done]. apply (sys_proc _ _ _ (sys_evolves _ _ _ Hs _ Ht' He) k); done.
Qed.

Lemma keep_prepare_project k org project rnd ids row k' w : s_proc s = Some k ->
  PrepareProjectDEKRotation org project k (MkWorld (s_tables s) rnd ids) = (Ok (row, k'), w) ->
  sys_ok V mk (add_row (MkHandle (wk_ID row) (wk_Version row) [], row) (set_proc k' (set_tab (w_tables w) s))).
Proof.
  intros Hk. unfold PrepareProjectDEKRotation. destruct (emptyScope _ _); [done|]. intros ([set k1] & w1 & Hd & Hr)%st_bind_Ok.
  eapply projectDEKSet_ok in Hd as (Hm & Ht' & He & Hp & Hset); [|exact Ht|exact (so_proc _ _ _ Hs k Hk)].
  apply st_bind_Ok in Hr as ([h row'] & w2 & Hmint & [= <- <- <-]).
  eapply (mint_prepared V mk _ (s_lock s) k1) in Hmint as (Hw & Hpp & Ho & Hpr & Hver & Hid & Hhv & Hprep & _);
    [|exact version_typed|exact Hp|apply uint32_u32|done]. rewrite Hw.
  apply sys_row; [apply (sys_proc _ _ _ (sys_evolves _ _ _ Hs _ Ht' He) k); done|].
  destruct Hprep as (P1 & P2 & P3 & P4 & P5 & P6). split_and!; try done. intros Hx. destruct (P6 Hx) as (key & Hkey & _).
  exists key. split; [done|]. by intros [].
Qed.

Lemma keep_prepare k p w v h row w' : s_proc s = Some k -> mintTier3At (k_master k) p [] [] (u32 v) w = (Ok (h, row), w') ->
  sys_ok V mk (add_row (h, row) s).
Proof.
  intros Hk Hm. apply sys_row; [done|].
  eapply (mint_prepared V mk _ (s_lock s) k) in Hm as (_ & _ & _ & _ & _ & _ & _ & Hprep & _);
    [done|exact version_typed|exact (so_proc _ _ _ Hs k Hk)|apply uint32_u32|done].
Qed.

Lemma prepared_in h row : In (h, row) (s_rows s) -> prepared_ok V mk (h, row).
Proof. intros Hin. pose proof (so_rows _ _ _ Hs) as Hr. rewrite Forall_forall in Hr. by apply Hr, list_elem_of_In. Qed.

(** A commit that put a prepared successor in the table. *)
Lemma keep_commit h row t' : prepared_ok V mk (h, row) -> wk_MasterKeyVersion row = V ->
  tables_ok (s_roots s) V mk t' -> evolves mk mk (s_tables s) t' -> In (MkRow row active) (tier3_keys t') ->
  sys_ok V mk (add_done (h, row) (set_tab t' s)).
Proof.
  intros (P1 & P2 & P3 & P4 & P5 & P6) HV Ht' He Hin. apply sys_done; [by apply sys_evolves|]. intros Hp. cbn [fst snd] in *.
  destruct (P6 HV) as (key & Hw & Hkey). assert (wk_Purpose row <> PurposeProject) as Hne by by rewrite Hp.
  destruct (P5 Hne) as [Ho Hpr]. eapply handle_row; [exact Hin|by apply in_scope_eq|done|done|]. by rewrite <- (Hkey Hne).
Qed.

Lemma keep_rotate_dek h row t' : In (h, row) (s_rows s) -> rotateDEK row (s_tables s) = (Ok (), t') ->
  sys_ok V mk (add_done (h, row) (set_tab t' s)).
Proof.
  intros Hin%prepared_in Hr. pose proof Hin as (P1 & P2 & P3 & P4 & P5 & P6).
  apply (rotateDEK_ok (s_roots s) V mk) in Hr as (Ht' & He & Hrow & HV); [by apply keep_commit|done| |done].
  intros HV. destruct (P6 HV) as (key & Hw & _). eauto.
Qed.

Lemma keep_rotate_token h row p t' : In (h, row) (s_rows s) -> wk_Purpose row = p -> p = PurposeToken \/ p = PurposeScanning ->
  masterActive (s_tables s) row = true -> rotateRootScopedTier3 row p (s_tables s) = (Ok (), t') ->
  sys_ok V mk (add_done (h, row) (set_tab t' s)).
Proof.
  intros Hin%prepared_in Hp Hpp Hg Hr. pose proof Hin as (P1 & P2 & P3 & P4 & P5 & P6).
  unfold masterActive in Hg. destruct (assertActiveMaster _ _) as [[[]|?|?] t1] eqn:Ha; [|done..].
  destruct (assertActiveMaster_version _ _ _ _ _ _ Ht Ha) as [_ HV]. destruct (P6 HV) as (key & Hw & _).
  assert (wk_Purpose row <> PurposeProject) as Hne by (rewrite Hp; by destruct Hpp as [->| ->]). destruct (P5 Hne) as [Ho Hpr].
  apply (rotateRootScopedTier3_ok (s_roots s) V mk) in Hr as (Ht' & He & Hrow); try done; [by apply keep_commit|eauto].
Qed.

Lemma keep_adopt_instance k h row : s_proc s = Some k -> In (h, row) (s_done s) -> wk_Purpose row = PurposeInstance ->
  sys_ok V mk (set_proc (adoptInstanceDEK h k) s).
Proof.
  intros Hk Hin Hp. pose proof (so_proc _ _ _ Hs k Hk) as [P1 P2 P3 P4 P5 P6].
  pose proof (so_done _ _ _ Hs) as Hd. rewrite Forall_forall in Hd. apply list_elem_of_In, Hd in Hin. specialize (Hin Hp). cbn [fst] in Hin.
  apply (sys_proc _ _ _ Hs k); [done| |]; unfold adoptInstanceDEK; destruct (_ <=? _); try done.
  split; cbn [with_instance k_master k_instance k_deks]; try done.
  intros v h'. cbn [vs_byVer]. intros [[<- <-]|[_ Hl]]%lookup_insert_Some; [done|by apply P5].
Qed.

Lemma keep_reload k rnd ids k' w : s_proc s = Some k -> ReloadInstanceDEK k (MkWorld (s_tables s) rnd ids) = (Ok k', w) -> sys_ok V mk (set_proc k' s).
Proof.
  intros Hk. unfold ReloadInstanceDEK. intros (set & w1 & Hl & [= <- <-])%st_bind_Ok. unfold loadTier3Versions in Hl.
  rewrite (st_run _ _ _ _ _ (versions_read _ _ _ _)) in Hl. cbn [w_tables] in Hl.
  pose proof (so_proc _ _ _ Hs k Hk) as [P1 P2 P3 P4 P5 P6].
  destruct (GetTier3Versions PurposeInstance [] [] (s_tables s)) eqn:Hv; [done|]. injection Hl as Hl <-. rewrite <- Hv in Hl.
  apply (sys_proc _ _ _ Hs k); [done..|]. split; try done. cbn [with_instance k_instance].
  by eapply (versions_set_ok (s_roots s) V mk).
Qed.

Lemma keep_evict k org project : s_proc s = Some k -> sys_ok V mk (set_proc (evictProjectDEK org project k) s).
Proof.
  intros Hk. pose proof (so_proc _ _ _ Hs k Hk) as Hp. apply (sys_proc _ _ _ Hs k); [done..|]. apply proc_ok_deks; [done|].
  intros o p set Hin%evictDEK_In. by apply (po_deks _ _ _ _ _ Hp).
Qed.

(** *** Master rotation *)
Lemma keep_commit_master row rew t' : s_lock s = Some (MasterRotation row rew false) -> rotateMasterKey row rew (s_tables s) = (Ok (), t') ->
  exists nk, sys_ok (V + 1) nk (set_lock (Some (MasterRotation row rew true)) (set_tab t' s)).
Proof.
  intros Hl Hr. destruct (rotateMasterKey_ok (s_roots s) V mk _ _ _ _ Ht Hr) as [HV Hrest].
  pose proof (so_lock _ _ _ Hs) as Hlk. rewrite Hl in Hlk. destruct Hlk as [_ Hlk].
  destruct (Hlk HV) as (Hu & Hue & root & nk & Hroot & Hseal & Hproc & Hf). destruct (Hrest root nk Hu Hue Hroot Hseal Hf) as [Ht' He].
  exists nk. destruct Hs as [H1 H2 H3 H4 H5 H6 H7 H8].
  split; cbn [set_lock set_tab s_tables s_cells s_proc s_lock s_rows s_done s_writers s_sets s_roots lock_ok].
  - done.
  - intros i c Hi. eapply cell_ok_evolves; [exact He|]. by apply (H2 i).
  - intros k Hk. destruct (H3 k Hk) as [P1 P2 P3 P4 P5 P6]. split.
    + intros key. rewrite (Hproc k Hk). by intros [= <-].
    + intros v key Hv. left. destruct (P2 v key Hv) as [?|(row' & rew' & Hl' & <-)]; [lia|]. rewrite Hl in Hl'. injection Hl' as <- <-. lia.
    + lia.
    + done.
    + by eapply set_ok_evolves.
    + intros org project set Hin. eapply set_ok_evolves; [exact He|by apply P6].
  - split; [lia|]. intros k Hk. rewrite HV, (Hproc k Hk). by eexists.
  - eapply Forall_impl; [exact H5|]. intros [h r] (P1 & P2 & P3 & P4 & P5 & P6). split_and!; try done; [lia|]. intros Hx. exfalso. lia.
  - by eapply committed_evolves.
  - by eapply writers_evolve.
  - by eapply sets_evolve.
Qed.

Lemma keep_adopt_master k row rew : s_proc s = Some k -> s_lock s = Some (MasterRotation row rew true) ->
  sys_ok V mk (set_lock None (set_proc (with_master (activateMaster (wk_Version row)) k) s)).
Proof.
  intros Hk Hl. pose proof (so_proc _ _ _ Hs k Hk) as [P1 P2 P3 P4 P5 P6]. pose proof (so_lock _ _ _ Hs) as Hlk. rewrite Hl in Hlk.
  destruct Hlk as [HV Hheld]. apply sys_lock_with; [done| |done]. rewrite Hk. unfold with_master, activateMaster.
  destruct (Z.leb_spec (wk_Version row) (ms_active (k_master k))) as [Hle|Hgt]; split; cbn [k_master k_instance k_deks ms_active ms_byVer]; try done.
  1,2: intros v key Hv; left; destruct (P2 v key Hv) as [?|(? & ? & Hx & _)]; [done|]; by rewrite Hl in Hx.
  - lia.
  - by apply Hheld.
Qed.

Lemma keep_abort_master k row rew committed : s_proc s = Some k -> s_lock s = Some (MasterRotation row rew committed) ->
  sys_ok V mk (set_lock None (set_proc (with_master (removeMaster (wk_Version row)) k) s)).
Proof.
  intros Hk Hl. pose proof (so_proc _ _ _ Hs k Hk) as [P1 P2 P3 P4 P5 P6]. apply sys_lock_with; [done| |done]. rewrite Hk. unfold with_master, removeMaster.
  assert (forall v key, ms_byVer (k_master k) !! v = Some key -> v <= V \/ v = wk_Version row) as Hheld.
  { intros v key Hv. destruct (P2 v key Hv) as [?|(row' & rew' & Hx & <-)]; [by left|]. rewrite Hl in Hx. injection Hx as <- <- _. by right. }
  destruct (Z.eqb_spec (ms_active (k_master k)) (wk_Version row)) as [Heq|Hne]; split;
    cbn [k_master k_instance k_deks ms_active ms_byVer]; try done.
  - intros v key Hv. left. destruct (Hheld v key Hv); lia.
  - intros key [_ Hx]%lookup_delete_Some. by apply P1.
  - intros v key [Hvne Hx]%lookup_delete_Some. left. destruct (Hheld v key Hx); [done|]. by destruct Hvne.
  - rewrite lookup_delete_ne; done.
Qed.

Lemma keep_prepare_master k root rnd ids row rew k' w : s_proc s = Some k -> s_lock s = None ->
  PrepareMasterKeyRotation root k (MkWorld (s_tables s) rnd ids) = (Ok (row, rew, k'), w) ->
  sys_ok V mk (set_lock (Some (MasterRotation row rew false)) (set_proc k' s)).
Proof.
  intros Hk Hl Hp. pose proof (so_proc _ _ _ Hs k Hk) as Hpk. rewrite Hl in Hpk.
  destruct (PrepareMaster_ok (s_roots s) V mk k root (MkWorld (s_tables s) rnd ids) row rew k' w Ht Hpk Hp) as [Hlk Hpr]. apply sys_lock_with; [done| |done]. by rewrite Hk.
Qed.

(** *** Root rotation *)
Lemma keep_prepare_root k newRoot rnd ids row w : s_proc s = Some k -> s_lock s = None ->
  PrepareRootKeyRotation newRoot k (MkWorld (s_tables s) rnd ids) = (Ok row, w) -> sys_ok V mk (set_lock (Some (RootRotation row newRoot)) s).
Proof.
  intros Hk Hl Hp. pose proof (so_proc _ _ _ Hs k Hk) as Hpk. rewrite Hl in Hpk.
  pose proof (PrepareRoot_ok (s_roots s) V mk k newRoot (MkWorld (s_tables s) rnd ids) row w Ht Hpk Hp) as Hlk. destruct Hs as [H1 H2 H3 H4 H5 H6 H7 H8].
  split; cbn [set_lock s_tables s_cells s_proc s_lock s_rows s_done s_writers s_sets s_roots]; try done.
  intros k0 Hk0. rewrite Hk in Hk0. injection Hk0 as <-. by apply proc_ok_lock.
Qed.

Lemma keep_commit_root row newRoot t' : s_lock s = Some (RootRotation row newRoot) -> rootKeyRotatePrepare row (s_tables s) = (Ok (), t') ->
  sys_ok V mk (set_lock None (set_roots (<[ wk_RootKeyEpoch row := newRoot ]> (s_roots s)) (set_tab t' s))).
Proof.
  intros Hl Hr. pose proof (so_lock _ _ _ Hs) as Hlk. rewrite Hl in Hlk. destruct Hlk as [Hu Hse].
  destruct (rootKeyRotatePrepare_ok (s_roots s) V mk _ _ newRoot _ Ht Hr Hu Hse) as [Ht' He].
  destruct Hs as [H1 H2 H3 H4 H5 H6 H7 H8].
  split; cbn [set_lock set_roots set_tab s_tables s_cells s_proc s_lock s_rows s_done s_writers s_sets s_roots]; try done.
  - intros i c Hi. eapply cell_ok_evolves; [exact He|]. by apply (H2 i).
  - intros k Hk. destruct (H3 k Hk) as [P1 P2 P3 P4 P5 P6]. rewrite Hl in P2. split; try done.
    + intros v key Hv. left. by destruct (P2 v key Hv) as [?|(? & ? & ? & _)].
    + by eapply set_ok_evolves.
    + intros org project set Hin. eapply set_ok_evolves; [exact He|by apply P6].
  - by eapply committed_evolves.
  - by eapply writers_evolve.
  - by eapply sets_evolve.
Qed.
End Step.

(** ** The first boot *)
Definition quiet {A} (f : ST World A) : Prop := forall w, w_tables (f w).2 = w_tables w.
Definition rolls_back {A} (f : ST World A) : Prop := forall w e w', f w = (Err e, w') -> w_tables w' = w_tables w.

Lemma quiet_result {A} (r : result A) : quiet (st_result r).
Proof. done. Qed.

Lemma quiet_bind {A B} (m : ST World A) (f : A -> ST World B) : quiet m -> (forall a, quiet (f a)) -> quiet (m ≫= f).
Proof.
  intros Hm Hf w. unfold mbind, st_bind. specialize (Hm w). destruct (m w) as [[a|e|p] w']; cbn [snd] in *; [|done..]. rewrite <- Hm. apply Hf.
Qed.

Lemma quiet_random : quiet nextRandom.
Proof. done. Qed.

Lemma quiet_id : quiet NewV7.
Proof. done. Qed.

Lemma quiet_newKey : quiet newKey.
Proof. apply quiet_bind; [exact quiet_random|]. intros r. apply quiet_result. Qed.

Lemma quiet_sealW key id v a pt : quiet (sealW key id v a pt).
Proof. apply quiet_bind; [exact quiet_random|]. intros r. apply quiet_result. Qed.

Lemma quiet_mint m p org project v : quiet (mintTier3At m p org project v).
Proof.
  apply quiet_bind; [exact quiet_newKey|]. intros key. apply quiet_bind; [exact quiet_id|]. intros id.
  apply quiet_bind; [apply quiet_sealW|]. done.
Qed.

Lemma rolls_back_bind {A B} (m : ST World A) (f : A -> ST World B) : quiet m -> (forall a, rolls_back (f a)) -> rolls_back (m ≫= f).
Proof.
  intros Hm Hf w e w'. unfold mbind, st_bind. specialize (Hm w). destruct (m w) as [[a|e'|p] w1]; cbn [snd] in *; [|by intros [= <- <-]|done].
  intros Hx. rewrite <- Hm. by apply (Hf a _ e).
Qed.

Lemma rolls_back_store {A B} (f : ST Tables A) (b : A -> B) : rolls_back (store f ≫= fun a => mret (b a)).
Proof.
  intros w e w'. unfold mbind, st_bind, store, transact. by destruct (f (w_tables w)) as [[a|e'|p] t]; intros [= <- <-].
Qed.

Lemma mintHierarchy_rolls_back root : rolls_back (mintHierarchy root).
Proof.
  unfold mintHierarchy, mintTier3. apply rolls_back_bind; [exact quiet_newKey|]. intros master. apply rolls_back_bind; [apply quiet_sealW|]. intros blob.
  do 3 (apply rolls_back_bind; [apply quiet_mint|]; intros [? ?]). apply rolls_back_store.
Qed.

(** What the first boot leaves. *)
Lemma CreateHierarchy_empty m a b c t' : CreateHierarchy m [a; b; c] emptyTables = (Ok (), t') ->
  master_keys t' = [MkRow m active] /\ tier3_keys t' = [MkRow a active; MkRow b active; MkRow c active] /\
  NoDup (map (fun r => wk_ID (row_key r)) (tier3_keys t')).
Proof.
  unfold CreateHierarchy. intros ([] & t0 & ->%acquireHierarchy_Ok & Hc)%st_bind_Ok.
  apply st_bind_Ok in Hc as ([] & t0 & [-> _]%insertMasterRow_Ok & Hc). cbn [insertTier3All] in Hc.
  apply st_bind_Ok in Hc as ([] & t1 & [-> _]%insertTier3Row_Ok & Hc). apply st_bind_Ok in Hc as ([] & t2 & [M1 R1]%insertScopeGeneration_Ok & Hc).
  apply st_bind_Ok in Hc as ([] & t3 & [-> F1]%insertTier3Row_Ok & Hc). apply st_bind_Ok in Hc as ([] & t4 & [M2 R2]%insertScopeGeneration_Ok & Hc).
  apply st_bind_Ok in Hc as ([] & t5 & [-> F2]%insertTier3Row_Ok & Hc). apply st_bind_Ok in Hc as ([] & t6 & [M3 R3]%insertScopeGeneration_Ok & [= <-]).
  cbn [master_keys tier3_keys emptyTables app] in *. rewrite R1 in *. cbn [app] in *. rewrite R2 in *. cbn [app] in *.
  rewrite M3, M2, M1, R3. split_and!; [done..|]. cbn [map row_key].
  destruct (F1 (MkRow a active) (or_introl eq_refl)) as [N1 _]. destruct (F2 (MkRow a active) (or_introl eq_refl)) as [N2 _].
  destruct (F2 (MkRow b active) (or_intror (or_introl eq_refl))) as [N3 _]. cbn [row_key] in *.
  repeat (apply NoDup_cons; split); [..|apply NoDup_nil; exact I]; rewrite list_elem_of_In; cbn [In]; naive_solver.
Qed.

Lemma mint_first master p org project w h row w' : mintTier3 (singleMaster 1 master) p org project w = (Ok (h, row), w') ->
  w_tables w' = w_tables w /\ wk_Purpose row = p /\ wk_OrgID row = org /\ wk_ProjectID row = project /\ wk_Version row = 1 /\
  wk_MasterKeyVersion row = 1 /\ kh_id h = wk_ID row /\ kh_version h = 1 /\ wraps master row (kh_key h).
Proof.
  intros (H1 & H2 & H3 & H4 & H5 & H6 & H7 & H8 & Hw)%mint_Ok. split_and!; try done.
  destruct Hw as (mkey & Hl & Hw); [done|]. cbn [singleMaster ms_byVer ms_active] in Hl. rewrite lookup_singleton_eq in Hl. by injection Hl as <-.
Qed.

Lemma first_tables root master mrow a b c t' ka kb kc : sealedUnder root mrow master -> wk_Version mrow = 1 -> wk_RootKeyEpoch mrow = 1 ->
  CreateHierarchy mrow [a; b; c] emptyTables = (Ok (), t') ->
  in_scope PurposeInstance [] [] a = true -> in_scope PurposeToken [] [] b = true -> in_scope PurposeScanning [] [] c = true ->
  Forall (fun k => wk_Version k = 1 /\ wk_MasterKeyVersion k = 1) [a; b; c] ->
  wraps master a ka -> wraps master b kb -> wraps master c kc ->
  tables_ok {[ 1 := root ]} 1 master t' /\ In (MkRow a active) (tier3_keys t').
Proof.
  intros Hse Hv He (Hm & Hr & Hnd)%CreateHierarchy_empty Sa Sb Sc Hall Wa Wb Wc.
  pose proof Sa as (A1 & A2 & A3)%in_scope_eq. pose proof Sb as (B1 & B2 & B3)%in_scope_eq. pose proof Sc as (C1 & C2 & C3)%in_scope_eq.
  split; [|rewrite Hr; by left]. assert (uint32 1) as Hu by (unfold uint32; lia).
  split; rewrite ?Hm, ?Hr; try done.
  - intros r [<-|[]] _. cbn [row_key]. rewrite He. split_and!; [done..|]. exists root. by rewrite lookup_singleton_eq.
  - exists (MkRow mrow active). split; [by left|done].
  - unfold activeEpochs. rewrite Hm. apply NoDup_singleton.
  - rewrite !Forall_cons in Hall. destruct Hall as ([? ?] & [? ?] & [? ?] & _).
    intros r [<-|[<-|[<-|[]]]] _; cbn [row_key]; eauto.
  - rewrite !Forall_cons in Hall. destruct Hall as ([Ha _] & [Hb _] & [Hc _] & _).
    intros r [<-|[<-|[<-|[]]]]; cbn [row_key]; congruence.
  - by rewrite <- Hr.
  - unfold tier3Key. cbn [map row_key]. rewrite A1, B1, C1.
    repeat (apply NoDup_cons; split); [..|apply NoDup_nil; exact I]; rewrite list_elem_of_In; cbn [In]; unfold PurposeInstance, PurposeToken, PurposeScanning; intuition discriminate.
  - intros p [<-|[<-|[<-|[]]]]; [exists (MkRow a active)|exists (MkRow b active)|exists (MkRow c active)]; split_and!; cbn; auto.
Qed.

Lemma first_boot root rnd ids k w : LoadKeyring root (MkWorld emptyTables rnd ids) = (Ok k, w) ->
  exists master, sys_ok 1 master (booted (w_tables w) ∅ {[ 1 := root ]} k).
Proof.
  unfold LoadKeyring. destruct (negb _); [done|]. rewrite (st_run _ _ _ _ _ (masters_read _)). cbn [w_tables GetActiveMasterKeys emptyTables master_keys].
  change (orderDesc wk_RootKeyEpoch (keysWhere is_active [])) with (@nil WrappedKey). intros (minted & w1 & Ha & Hr)%st_bind_Ok.
  unfold attempt in Ha. destruct (mintHierarchy root _) as [[k0|e|p] w2] eqn:Hmint; [| |done]; injection Ha as <- <-; cycle 1.
  { apply mintHierarchy_rolls_back in Hmint. destruct (errors_Is e _); [|done].
    rewrite (st_run _ _ _ _ _ (masters_read _)), Hmint in Hr. done. }
  injection Hr as <- <-. unfold mintHierarchy in Hmint.
  apply st_bind_Ok in Hmint as (master & w3 & T3%newKey_tables & Hmint).
  apply st_bind_Ok in Hmint as (blob & w4 & [T4 [rnd' Hse]]%sealW_Ok & Hmint).
  apply st_bind_Ok in Hmint as ([hi ri] & w5 & (T5 & I1 & I2 & I3 & I4 & I5 & I6 & I7 & I8)%mint_first & Hmint).
  apply st_bind_Ok in Hmint as ([ht rt] & w6 & (T6 & J1 & J2 & J3 & J4 & J5 & J6 & J7 & J8)%mint_first & Hmint).
  apply st_bind_Ok in Hmint as ([hs rs] & w7 & (T7 & K1 & K2 & K3 & K4 & K5 & K6 & K7 & K8)%mint_first & Hmint).
  apply st_bind_Ok in Hmint as ([] & w8 & (t' & Hc & ->)%store_Ok & [= <- <-]). rewrite T7, T6, T5, T4, T3 in Hc. cbn [w_tables set_tables] in *.
  eapply (first_tables root master _ _ _ _ _ (kh_key hi) (kh_key ht) (kh_key hs)) in Hc as [Ht Hin];
    [|by exists rnd'|done|done|by apply in_scope_eq|by apply in_scope_eq|by apply in_scope_eq|by repeat constructor|done..].
  exists master. split; try done. cbn [booted s_proc s_tables s_lock]. intros k [= <-].
  split; cbn [k_master k_instance k_deks singleMaster ms_active ms_byVer]; try done.
  - intros key. rewrite lookup_singleton_eq. by intros [= <-].
  - intros v key [<- _]%lookup_singleton_Some. by left.
  - apply set_ok_single. eapply handle_row; [exact Hin|by apply in_scope_eq|done|congruence|done].
Qed.

Lemma step_keeps V mk s s' : sys_ok V mk s -> step masterActive s s' -> exists V' mk', sys_ok V' mk' s'.
Proof.
  intros Hs Hst. pose proof (so_tables _ _ _ Hs) as Ht. destruct Hst.
  - exists V, mk. by apply keep_crash.
  - exists V, mk. eapply (LoadKeyring_inv (s_roots s) V mk) in H2 as [-> Hp]; [|exact Ht]. by apply sys_booted.
  - exists V, mk. eapply keep_project_sealer; eauto.
  - exists V, mk. apply sys_sealer; [done|right; by split_and!|]. by apply (po_instance _ _ _ _ _ (so_proc _ _ _ Hs k H0)).
  - exists V, mk. apply sys_cell; [done|]. pose proof (so_writers _ _ _ Hs) as Hw. rewrite Forall_forall in Hw.
    eapply writeCell_ok; [exact Ht|apply Hw, list_elem_of_In; exact H0|done|done].
  - exists V, mk. apply sys_cells; [done|]. intros j c [_ Hj]%lookup_delete_Some. by apply (so_cells _ _ _ Hs j).
  - exists V, mk. subst wr. apply sys_cell; [done|]. pose proof (so_sets _ _ _ Hs) as Hw. rewrite Forall_forall in Hw.
    apply list_elem_of_In, Hw in H0 as [Hp Hset]. by eapply resealCell_ok; [exact Ht|exact Hp|exact Hset|apply (so_cells _ _ _ Hs i)| |].
  - exists V, mk. rewrite transact_Ok in H0. eapply retireScope_ok in H0 as (Ht' & [keep He] & Hc); [|exact Ht|exact (so_cells _ _ _ Hs)]. by eapply sys_tab.
  - exists V, mk. by apply keep_evict.
  - exists V, mk. eapply keep_reload; eauto.
  - exists V, mk. eapply keep_prepare_project; eauto.
  - exists V, mk. eapply keep_prepare; eauto.
  - exists V, mk. unfold PrepareTokenKeyRotation in H1. destruct (k_token k); [|done]. eapply keep_prepare; eauto.
  - exists V, mk. unfold PrepareScanningKeyRotation in H1. destruct (k_scanning k); [|done]. eapply keep_prepare; eauto.
  - exists V, mk. rewrite transact_Ok in H1. by eapply keep_rotate_dek.
  - exists V, mk. rewrite transact_Ok in H4. by eapply keep_rotate_token.
  - exists V, mk. eapply keep_adopt_instance; eauto.
  - exists V, mk. pose proof (so_proc _ _ _ Hs k H0) as Hp. by apply (sys_proc _ _ _ Hs k); [..|destruct Hp; split].
  - exists V, mk. pose proof (so_proc _ _ _ Hs k H0) as Hp. by apply (sys_proc _ _ _ Hs k); [..|destruct Hp; split].
  - exists V, mk. eapply keep_prepare_master; eauto.
  - rewrite transact_Ok in H1. destruct (keep_commit_master _ _ _ Hs _ _ _ H0 H1) as [nk Hn]. exists (V + 1), nk. exact Hn.
  - exists V, mk. eapply keep_adopt_master; eauto.
  - exists V, mk. eapply keep_abort_master; eauto.
  - exists V, mk. eapply keep_prepare_root; eauto.
  - exists V, mk. rewrite transact_Ok in H1. by eapply keep_commit_root.
  - exists V, mk. apply sys_unlock; [done|]. intros r rew Hx. congruence.
  - exists V, mk. rewrite transact_Ok in H3. eapply rootKeyRotateFinalize_ok in H3 as [Ht' He]; [|exact Ht]. by apply sys_evolves.
Qed.

Lemma lifecycle_invariant s : reachable masterActive s -> exists V mk, sys_ok V mk s.
Proof.
  induction 1 as [root rnd ids k w Hl|s s' _ (V & mk & Hs) Hst].
  - destruct (first_boot root rnd ids k w Hl) as [master Hm]. eauto.
  - by apply (step_keeps V mk s s').
Qed.

(** ** Reading *)
Section Reading.
Context (roots : gmap Z bytes) (V : Z) (mk : bytes) (t : Tables) (Ht : tables_ok roots V mk t).

Lemma boots m root w : w_tables w = t -> In m (GetActiveMasterKeys t) -> roots !! wk_RootKeyEpoch m = Some root ->
  exists k, LoadKeyring root w = (Ok k, w) /\ k_master k = singleMaster V mk.
Proof.
  intros Hw Hm Hr. destruct (wrapper_facts roots V mk t Ht m Hm) as (_ & _ & root' & Hr' & Hs).
  rewrite Hr in Hr'. injection Hr' as <-. pose proof Hs as [rnd (_ & _ & _ & Hlen & _)%seal_Ok].
  pose proof (LoadKeyring_cases roots V mk t Ht root w Hw Hlen) as Hc.
  rewrite (unwrapMaster_total roots V mk t Ht root m Hm Hs) in Hc. destruct Hc as (k & Hk & _ & Hmk & _). eauto.
Qed.

Lemma load_facts root w k w' : w_tables w = t -> LoadKeyring root w = (Ok k, w') -> w' = w /\ k_master k = singleMaster V mk /\ k_deks k = [] /\
  buildVersionSet (singleMaster V mk) (GetTier3Versions PurposeInstance [] [] t) = Ok (k_instance k).
Proof.
  intros Hw Hl. pose proof (LoadKeyring_cases roots V mk t Ht root w Hw (LoadKeyring_length _ _ _ _ Hl)) as Hc.
  destruct (unwrapMaster _ _) as [[v m]|e|p]; [|by rewrite Hl in Hc..]. destruct Hc as (k0 & Hk & _ & Hmk & Hd & Hi). rewrite Hl in Hk. by simplify_eq.
Qed.

(** The set built from its scope's rows opens a cell. *)
Lemma set_opens c vs : cell_ok mk t c -> buildVersionSet (singleMaster V mk) (GetTier3Versions (c_purpose c) (c_org c) (c_project c) t) = Ok vs ->
  openVersioned vs (c_aad c) (c_record c) = Ok (c_plain c).
Proof.
  intros (_ & _ & r & key & Hr & Ho & Hsc & Hw & Hop) Hb.
  destruct (versions_total roots V mk t Ht (c_purpose c) (c_org c) (c_project c)) as (vs' & Hb' & Hall). rewrite Hb in Hb'. injection Hb' as <-.
  destruct (Hall r Hr Ho Hsc) as [h Hh].
  destruct (versions_set_ok roots V mk t Ht _ _ _ _ vs (current_single V mk) Hb _ _ Hh) as (Hv & r0 & Hr0 & Hsc0 & Hid & Hv0 & Hw0).
  assert (r0 = r) as -> by (eapply same_row; eauto; congruence). specialize (Hw0 Ho).
  unfold openVersioned. pose proof (opened_version _ _ _ _ _ _ Hop) as Hver. unfold RecordKeyVersion in Hver.
  destruct (parseHeader (c_record c)) as [[hd rest]|e|p]; [|done..]. injection Hver as Hver. cbn [mbind result_bind]. rewrite Hver, Hh.
  rewrite <- Hid, <- Hv0. assert (kh_key h = key) as -> by (unfold wraps in *; congruence). done.
Qed.

Lemma project_set_opens c k w : w_tables w = t -> cell_ok mk t c -> c_purpose c = PurposeProject -> k_master k = singleMaster V mk -> k_deks k = [] ->
  exists ps k', ForProject (c_org c) (c_project c) k w = (Ok (ps, k'), w) /\ openVersioned (ps_deks ps) (c_aad c) (c_record c) = Ok (c_plain c).
Proof.
  intros Hwt Hc Hp Hm Hd. pose proof Hc as (Hsc & _ & r & key & Hr & Ho & Hs & _).
  destruct Hsc as [[_ Hem]|[Hx _]]; [|by rewrite Hp in Hx].
  destruct (versions_total roots V mk t Ht PurposeProject (c_org c) (c_project c)) as (vs & Hb & _). rewrite Hp in Hs.
  assert (In (row_key r) (GetTier3Versions PurposeProject (c_org c) (c_project c) t)) as Hin by (apply tier3Versions_In; eauto).
  assert (rebuildDEKSet (c_org c) (c_project c) k w = (Ok (vs, with_deks (cacheDEK (c_org c) (c_project c) vs (k_deks k)) k), w)) as Hre.
  { unfold rebuildDEKSet. rewrite (st_run _ _ _ _ _ (versions_read _ _ _ _)), Hwt, Hm. cbv zeta.
    destruct (GetTier3Versions _ _ _ t) as [|r0 rs]; [done|]. by rewrite (st_result_run _ _ _ _ Hb). }
  do 2 eexists. split.
  - unfold ForProject. rewrite Hem. rewrite (st_run _ _ w (vs, with_deks (cacheDEK (c_org c) (c_project c) vs (k_deks k)) k) w); [done|].
    unfold projectDEKSet. assert (List.filter (dekHit (c_org c) (c_project c)) (k_deks k) = []) as -> by (by rewrite Hd). exact Hre.
  - cbn [ps_deks]. apply set_opens; [done|]. rewrite Hp. exact Hb.
Qed.
End Reading.

(** C5. The hierarchy always boots. In every reachable state of the system in
    which token and scanning rotations commit under the active master, whatever
    rotations ran, interleaved, crashed or were aborted: some active master
    wrapper is sealed under a root the operator holds, and a boot with the root
    of any active wrapper loads the keyring and leaves the tables as they are. *)
Theorem hierarchy_always_boots (s : Sys) (Hr : reachable masterActive s) :
  (exists m root, In m (GetActiveMasterKeys (s_tables s)) /\ s_roots s !! wk_RootKeyEpoch m = Some root) /\
  forall m root rnd ids, In m (GetActiveMasterKeys (s_tables s)) -> s_roots s !! wk_RootKeyEpoch m = Some root ->
    exists k, LoadKeyring root (MkWorld (s_tables s) rnd ids) = (Ok k, MkWorld (s_tables s) rnd ids).
Proof.
  destruct (lifecycle_invariant s Hr) as (V & mk & Hs). pose proof (so_tables _ _ _ Hs) as Ht. split.
  - destruct (to_some _ _ _ _ Ht) as (r & Hin & Ha). destruct (to_masters _ _ _ _ Ht r Hin Ha) as (_ & _ & root & Hroot & _).
    exists (row_key r), root. split; [apply activeMaster_In; eauto|done].
  - intros m root rnd ids Hm Hroot. destruct (boots _ _ _ _ Ht m root (MkWorld (s_tables s) rnd ids) eq_refl Hm Hroot) as (k & Hk & _). eauto.
Qed.

(** C6. Ciphertexts stay readable. In every reachable state of the system in which
    token and scanning rotations commit under the active master, after any boot, every
    stored ciphertext opens to the plaintext it was written with: an instance
    field under the instance sealer, a project's cell under the sealer its
    project resolves to. No rotation, re-encryption or retirement of keys loses
    a value. *)
Theorem ciphertexts_stay_readable (s : Sys) (i : nat) (c : cell) (root : bytes) (w : World) (k : Keyring) (w' : World)
    (Hr : reachable masterActive s) (Hc : s_cells s !! i = Some c)
    (Hw : w_tables w = s_tables s) (Hl : LoadKeyring root w = (Ok k, w')) :
  w_tables w' = s_tables s /\
  ((c_purpose c = PurposeInstance /\ InstanceSealer_OpenField k (c_aad c) (c_record c) = Ok (c_plain c)) \/
   (c_purpose c = PurposeProject /\ exists ps k', ForProject (c_org c) (c_project c) k w' = (Ok (ps, k'), w') /\
      openVersioned (ps_deks ps) (c_aad c) (c_record c) = Ok (c_plain c))).
Proof.
  destruct (lifecycle_invariant s Hr) as (V & mk & Hs). pose proof (so_tables _ _ _ Hs) as Ht. pose proof (so_cells _ _ _ Hs i c Hc) as Hok.
  destruct (load_facts _ _ _ _ Ht root w k w' Hw Hl) as (-> & Hm & Hd & Hi). split; [done|]. pose proof Hok as (Hsc & _).
  destruct Hsc as [[Hp _]|(Hp & Ho & Hq)]; [right|left]; (split; [done|]).
  - by eapply project_set_opens.
  - unfold InstanceSealer_OpenField. eapply set_opens; [exact Ht|done|]. by rewrite Hp, Ho, Hq.
Qed.

(** C25. Re-encryption moves a record and keeps what it opens to. In every
    reachable state of the system in which token and scanning rotations commit
    under the active master, for any version set a process holds: when the walk
    over the set's scope processes a stored cell of that scope and succeeds, either it leaves the cell
    as it is, or the record it writes opens, under the walk's key versions and in
    the cell's own context, to exactly the plaintext the old record opened to
    there. Either way the record, and the version column of the tables that have
    one, name the version the walk writes under, so the dryness gate that retires
    the old versions counts the cell as done. *)
Theorem reencryption_keeps_plaintext (s : Sys) (i : nat) (c c' : cell) (p : string) (org project : bytes) (set : versionSet) (rnd : option bytes)
    (Hr : reachable masterActive s) (Hset : In (p, org, project, set) (s_sets s)) (Hc : s_cells s !! i = Some c)
    (Hin : cell_in p org project c = true)
    (Hre : resealCell (s_tables s) set (MkWriter p org project (activeHandle set)) rnd c = Ok c') :
  (c' = c \/ c_aad c' = c_aad c /\ exists pt, openVersioned set (c_aad c) (c_record c) = Ok pt /\ openVersioned set (c_aad c) (c_record c') = Ok pt) /\
  RecordKeyVersion (c_record c') = Ok (kh_version (activeHandle set)) /\ versionOf c' = Ok (kh_version (activeHandle set)) /\
  straggler p org project (kh_version (activeHandle set)) c' = false.
Proof.
  destruct (lifecycle_invariant s Hr) as (V & mk & Hs). pose proof (so_sets _ _ _ Hs) as Hw. rewrite Forall_forall in Hw.
  apply list_elem_of_In, Hw in Hset as [Hp Hset].
  destruct (resealCell_ok _ V mk _ p org project set rnd c c' (so_tables _ _ _ Hs) Hp Hset (so_cells _ _ _ Hs i c Hc) Hin Hre) as (Hok & Hv & Hopen).
  assert (versionOf c' = Ok (kh_version (activeHandle set))) as Hver by (by rewrite (versionOf_record _ _ _ Hok)).
  split_and!; [done..|]. unfold straggler. rewrite Hver, Z.eqb_refl. apply andb_false_r.
Qed.
End Preservation.

(** ** The run

    A concrete run over the transparent AEAD of [Envelope.v]: first boot, an
    instance field written, a token rotation prepared, the instance DEK and
    then the master rotated. Up to here it satisfies any guard on token
    commits. The token rotation, prepared under the first master, commits last. *)
#[local] Existing Instance transparentAEAD.

(** Scripted randomness: keys of 32 bytes and nonces of 24. *)
Definition rkey (i : Z) : option bytes := Some (repeat (chr i) 32).
Definition rnonce (i : Z) : option bytes := Some (repeat (chr i) 24).
Definition script (i : Z) : list (option bytes) := [rkey i; rnonce (i + 1); rkey (i + 2); rnonce (i + 3); rkey (i + 4); rnonce (i + 5); rkey (i + 6); rnonce (i + 7)].
Definition scriptIDs (i : Z) : list (option bytes) := [Some [chr i]; Some [chr (i + 1)]; Some [chr (i + 2)]].
Definition world (t : Tables) (i : Z) : World := MkWorld t (script i) (scriptIDs i).

Definition value {A} (d : A) (r : result A) : A := match r with Ok a => a | _ => d end.
Definition noKeyring : Keyring := MkKeyring (singleMaster 0 []) (MkVersionSet 0 ∅) None None [] false false.
Definition noRow : WrappedKey := MkWrappedKey [] "" [] [] 0 0 0 [].
Definition noHandle : keyHandle := MkHandle [] 0 [].

Definition runRoot : bytes := repeat (chr 200) 32.
Definition runAAD : AAD := InstanceFieldAAD (B "users") (B "u1") (B "totp").

Definition runBoot := LoadKeyring runRoot (world emptyTables 1).
Definition runK0 : Keyring := value noKeyring runBoot.1.
Definition run0 : Sys := booted (w_tables runBoot.2) ∅ {[ 1 := runRoot ]} runK0.

Definition runSet : versionSet := k_instance runK0.
Definition runWriter : writer := MkWriter PurposeInstance [] [] (activeHandle runSet).
Definition run1 : Sys := add_sealer PurposeInstance [] [] runSet run0.
Definition noCell : cell := MkCell "" [] [] runAAD [] None [].
Definition runCell : cell := value noCell (writeCell (s_tables run1) runWriter true (rnonce 20) runAAD (B "seed")).
Definition run2 : Sys := set_cells (<[ 0%nat := runCell ]> (s_cells run1)) run1.

Definition runToken := value (noHandle, noRow) (PrepareTokenKeyRotation runK0 (world (s_tables run2) 30)).1.
Definition run3 : Sys := add_row runToken run2.
Definition runDEK := value (noHandle, noRow) (PrepareInstanceDEKRotation runK0 (MkWorld (s_tables run3) (script 40) [Some [chr 40]])).1.
Definition run4 : Sys := add_row runDEK run3.
Definition run5 : Sys := add_done runDEK (set_tab (transact (rotateDEK runDEK.2) (s_tables run4)).2 run4).

Definition runMasterWorld : World :=
  MkWorld (s_tables run5) [rkey 50; rnonce 51; rnonce 52; rnonce 53; rnonce 54; rnonce 55; rnonce 56] [].
Definition runMaster := value (noRow, [], noKeyring) (PrepareMasterKeyRotation runRoot runK0 runMasterWorld).1.
Definition run6 : Sys := set_lock (Some (MasterRotation runMaster.1.1 runMaster.1.2 false)) (set_proc runMaster.2 run5).
Definition run7 : Sys :=
  set_lock (Some (MasterRotation runMaster.1.1 runMaster.1.2 true))
    (set_tab (transact (rotateMasterKey runMaster.1.1 runMaster.1.2) (s_tables run6)).2 run6).

(** The instance sealer of the rotated keyring. *)
Definition runK1 : Keyring := adoptInstanceDEK runDEK.1 runMaster.2.
Definition run8 : Sys := set_proc runK1 run7.
Definition run9 : Sys := add_sealer PurposeInstance [] [] (k_instance runK1) run8.

(** The token rotation commits. *)
Definition runStranded : Sys := add_done runToken (set_tab (transact (rotateRootScopedTier3 runToken.2 PurposeToken) (s_tables run7)).2 run7).

Section Reached.
Context (guard : Tables -> WrappedKey -> bool).

Lemma run0_reached : reachable guard run0.
Proof. apply (reachable_first guard runRoot (script 1) (scriptIDs 1)). vm_compute. reflexivity. Qed.

Lemma run2_reached : reachable guard run2.
Proof.
  apply (reachable_step guard run1); [apply (reachable_step guard run0); [exact run0_reached|]|].
  - apply step_instance_sealer. reflexivity.
  - apply (step_write guard run1 runWriter true (rnonce 20) runAAD (B "seed") 0%nat runCell); [by left|exact I|vm_compute; reflexivity].
Qed.

Lemma run4_reached : reachable guard run4.
Proof.
  apply (reachable_step guard run3); [apply (reachable_step guard run2); [exact run2_reached|]|].
  - unfold run3. rewrite (surjective_pairing runToken). eapply (step_prepare_token guard run2 runK0 (script 30) (scriptIDs 30)); [reflexivity|].
    vm_compute. reflexivity.
  - unfold run4. rewrite (surjective_pairing runDEK). eapply (step_prepare_instance guard run3 runK0 (script 40) [Some [chr 40]]); [reflexivity|].
    vm_compute. reflexivity.
Qed.

Lemma run5_reached : reachable guard run5.
Proof.
  eapply reachable_step; [exact run4_reached|]. unfold run5. rewrite (surjective_pairing runDEK).
  apply step_rotate_dek; [left; vm_compute; reflexivity|vm_compute; reflexivity|right; vm_compute; reflexivity].
Qed.

Lemma run7_reached : reachable guard run7.
Proof.
  apply (reachable_step guard run6); [apply (reachable_step guard run5); [exact run5_reached|]|].
  - eapply (step_prepare_master guard run5 runK0 runRoot (w_rnd runMasterWorld) (w_ids runMasterWorld) runMaster.1.1 runMaster.1.2 runMaster.2);
      [vm_compute; reflexivity|vm_compute; reflexivity|]. vm_compute. reflexivity.
  - apply step_commit_master; [vm_compute; reflexivity|]. vm_compute. reflexivity.
Qed.

Lemma run9_reached : reachable guard run9.
Proof.
  apply (reachable_step guard run8); [apply (reachable_step guard run7); [exact run7_reached|]|].
  - apply (step_adopt_instance guard run7 runMaster.2 runDEK.1 runDEK.2); [vm_compute; reflexivity|left; vm_compute; reflexivity|vm_compute; reflexivity].
  - apply step_instance_sealer. vm_compute. reflexivity.
Qed.
End Reached.

Lemma stranded_reached : reachable unchecked runStranded.
Proof.
  eapply reachable_step; [exact (run7_reached unchecked)|]. unfold runStranded. rewrite (surjective_pairing runToken).
  apply (step_rotate_token unchecked run7 runToken.1 runToken.2 PurposeToken);
    [right; left; vm_compute; reflexivity|vm_compute; reflexivity|by left|reflexivity|vm_compute; reflexivity].
Qed.

(** C7. Without the check, the hierarchy can be lost. The store commits a token
    rotation without comparing the master its key was wrapped under with the
    active one. A run the code allows: the token successor is prepared, the
    master is rotated, and the successor commits. In the state it ends in no
    boot succeeds, under any root key the operator holds. *)
Theorem token_rotation_can_strand_the_hierarchy :
  exists s, reachable unchecked s /\
    forall e root rnd ids, s_roots s !! e = Some root -> is_ok (LoadKeyring root (MkWorld (s_tables s) rnd ids)).1 = false.
Proof.
  exists runStranded. split; [exact stranded_reached|]. intros e root rnd ids Hr.
  assert (s_roots runStranded = {[ 1 := runRoot ]}) as He by reflexivity. rewrite He in Hr.
  apply lookup_singleton_Some in Hr as [_ <-]. vm_compute. reflexivity.
Qed.

Lemma hierarchy_always_boots_witness :
  exists k, LoadKeyring runRoot (MkWorld (s_tables run7) [] []) = (Ok k, MkWorld (s_tables run7) [] []).
Proof.
  destruct (hierarchy_always_boots run7 (run7_reached masterActive)) as [_ Hb].
  destruct (GetActiveMasterKeys (s_tables run7)) as [|m ms] eqn:Hm; [vm_compute in Hm; discriminate|].
  apply (Hb m); [left; reflexivity|]. vm_compute in Hm. injection Hm as <- <-. vm_compute. reflexivity.
Defined.

Lemma ciphertexts_stay_readable_witness :
  exists k w, LoadKeyring runRoot (MkWorld (s_tables run7) [] []) = (Ok k, w) /\
    InstanceSealer_OpenField k runAAD (c_record runCell) = Ok (B "seed").
Proof.
  destruct (LoadKeyring runRoot (MkWorld (s_tables run7) [] [])) as [[k|e|p] w] eqn:Hl; [|vm_compute in Hl; discriminate..].
  exists k, w. split; [reflexivity|].
  destruct (ciphertexts_stay_readable run7 0%nat runCell runRoot (MkWorld (s_tables run7) [] []) k w (run7_reached masterActive)
              ltac:(vm_compute; reflexivity) eq_refl Hl) as [_ [[_ Ho]|[Hp _]]]; [exact Ho|vm_compute in Hp; discriminate].
Defined.

Lemma reencryption_keeps_plaintext_witness :
  exists c', resealCell (s_tables run9) (k_instance runK1) (MkWriter PurposeInstance [] [] (activeHandle (k_instance runK1))) (rnonce 60) runCell = Ok c' /\
    openVersioned (k_instance runK1) runAAD (c_record c') = Ok (B "seed") /\ c_column c' = Some 2 /\ RecordKeyVersion (c_record c') = Ok 2.
Proof.
  destruct (resealCell (s_tables run9) (k_instance runK1) (MkWriter PurposeInstance [] [] (activeHandle (k_instance runK1))) (rnonce 60) runCell)
    as [c'|e|p] eqn:Hre; [|vm_compute in Hre; discriminate..].
  exists c'. split; [reflexivity|].
  destruct (reencryption_keeps_plaintext run9 0%nat runCell c' PurposeInstance [] [] (k_instance runK1) (rnonce 60)
              (run9_reached masterActive) (or_introl eq_refl) ltac:(vm_compute; reflexivity) ltac:(vm_compute; reflexivity) Hre) as ([He|(_ & pt & H1 & H2)] & Hv & _ & _).
  - exfalso. rewrite He in Hv. vm_compute in Hv. discriminate.
  - assert (pt = B "seed") as -> by (vm_compute in H1; by injection H1 as <-). split; [exact H2|]. split; [vm_compute in Hre; by injection Hre as <-|exact Hv].
Defined.
