(* ===== verification/Definitions.v ===== *)
(** * Definition bundles: [internal/definitions], and their use in [internal/service/definitions.go]

    A bundle declares a project's shape: environments, key groups and keys.
    This file is the pure engine: matching bundle entries to database
    identities, the executable diff, drift classification, bundle
    normalization, and the export of the current state as a bundle. The JSON
    form of bundles and declarations is behind [DeclarationCodec]. *)

From S2P Require Import Prelude Domain Schema.

#[local] Open Scope Z_scope.

Definition FormatVersion : Z := 1.
Definition MaxBundleBytes : Z := 2 ^ 20.
Definition MaxBundleEntries : Z := 10000.

Definition invalidDetail (msg : string) : error := EWrap msg ErrInvalid.
Definition ErrLimitExceeded : error := ESentinel "domain.ErrLimitExceeded".
Definition limitDetail (msg : string) : error := EWrap msg ErrLimitExceeded.

(** The refusal names the key; it unwraps to [ErrInvalid], and [errors.As] finds
    it by its type, which is its message here. *)
Definition additivePrefix : string := "additive bundle may not modify existing key ".
Definition AdditiveModificationError (key : string) : error := EWrap (additivePrefix +:+ key) ErrInvalid.
Definition asAdditiveModification (e : error) : option string :=
  match e with
  | EWrap msg _ => if String.prefix additivePrefix msg then Some (String.substring (String.length additivePrefix) (String.length msg) msg) else None
  | _ => None
  end.

(** What this component relies on from declarations: compilation under a
    classification, giving the normalized declaration; the stored form of a
    compiled declaration; parsing of a stored form; and the canonical form that
    decides whether two declarations differ. *)
Class DeclarationCodec := {
  decl : Type;
  CompileClassified : string -> decl -> result decl;
  compiledCanonical : decl -> result string;
  ParseDeclaration : string -> result decl;
  Canonical : decl -> result string;
  (** A compiled declaration renders, the rendering is the canonical form of
      the source and of the normalized declaration, and it reads back to a
      declaration of that form. *)
  codec_stored : forall c d n, CompileClassified c d = Ok n ->
    exists s, compiledCanonical n = Ok s /\ Canonical d = Ok s /\ Canonical n = Ok s /\
      exists d', ParseDeclaration s = Ok d' /\ Canonical d' = Ok s }.

(** [slices.Sort] and [slices.SortStableFunc]: a stable insertion sort. *)
Fixpoint insertLe {A} (le : A -> A -> bool) (x : A) (l : list A) : list A :=
  match l with
  | [] => [x]
  | y :: l' => if le x y then x :: l else y :: insertLe le x l'
  end.
Definition isort {A} (le : A -> A -> bool) (l : list A) : list A := foldr (insertLe le) [] l.
Definition sortStrings : list string -> list string := isort String.leb.
Definition sortBy {A} (key : A -> string) : list A -> list A := isort (fun x y => String.leb (key x) (key y)).

(** ** Bundles *)

(** [Environment], [KeyGroup] and the matcher's [entity] have the same two
    fields. *)
Record entity := MkEntity { en_id : string; en_name : string }.
#[export] Instance entity_eq_dec : EqDecision entity.
Proof. solve_decision. Defined.

Section Definitions.
Context `{DeclarationCodec}.

Record Key := MkKey {
  k_ID : string; k_Name : string; k_FolderPath : string; k_Classification : string;
  k_Description : string; k_Deprecated : bool; k_DeprecationNote : string; k_Group : string;
  k_Declaration : decl;
  k_RequiredIn : Presence; k_ForbiddenIn : Presence }.   (* environments by name *)

Record Bundle := MkBundle {
  b_FormatVersion : Z; b_BaseRevision : option Z;
  b_Environments : list entity; b_KeyGroups : list entity; b_Keys : list Key }.

Definition Additive (b : Bundle) : bool := match b_BaseRevision b with None => true | Some _ => false end.

Record CurrentKey := MkCurrentKey {
  ck_ID : string; ck_Name : string; ck_FolderPath : string; ck_Classification : string;
  ck_Description : string; ck_Deprecated : bool; ck_DeprecationNote : string; ck_GroupID : string;
  ck_Declaration : decl;
  ck_Required : Presence; ck_Forbidden : Presence }.     (* environments by id *)

Record CurrentState := MkCurrent {
  SchemaRevision : Z; cs_Environments : list entity; cs_KeyGroups : list entity; cs_Keys : list CurrentKey }.

Definition bundleKeyEntities (keys : list Key) : list entity := map (fun k => MkEntity (k_ID k) (k_Name k)) keys.
Definition currentKeyEntities (keys : list CurrentKey) : list entity := map (fun k => MkEntity (ck_ID k) (ck_Name k)) keys.

(** ** Matching *)
Record kindMatch := MkMatch { boundDBID : list string; creates : list nat; deletes : list string }.

(** Steps 1-2: entries with an id bind it. *)
Fixpoint bindIDs (kind : string) (dbIDs : list string) (i : nat) (bundle : list entity) (boundBy : gmap string nat) :
    result (list string * gmap string nat) :=
  match bundle with
  | [] => Ok ([], boundBy)
  | e :: rest =>
      if en_id e =s "" then '(bound, m) ← bindIDs kind dbIDs (S i) rest boundBy; Ok ("" :: bound, m)
      else if negb (contains dbIDs (en_id e)) then Err (invalidDetail ("bundle " +:+ kind +:+ " binds an id which does not exist"))
      else match boundBy !! en_id e with
           | Some _ => Err (invalidDetail ("two bundle entries bind one identity: " +:+ kind))
           | None => '(bound, m) ← bindIDs kind dbIDs (S i) rest (<[ en_id e := i ]> boundBy); Ok (en_id e :: bound, m)
           end
  end.

(** The map from names to ids: the last entry of a name wins. *)
Definition byName (current : list entity) : gmap string string :=
  foldl (fun m c => <[ en_name c := en_id c ]> m) ∅ current.

(** Steps 3-4: the others match an unbound identity by name, or are created. *)
Fixpoint bindNames (dbByName : gmap string string) (i : nat) (bundle : list entity) (bound : list string) (boundBy : gmap string nat) :
    list string * list nat * gmap string nat :=
  match bundle, bound with
  | e :: rest, b :: bs =>
      if negb (en_id e =s "") then
        let '(bound', new, m) := bindNames dbByName (S i) rest bs boundBy in (b :: bound', new, m)
      else
        match dbByName !! en_name e with
        | Some dbID =>
            match boundBy !! dbID with
            | None => let '(bound', new, m) := bindNames dbByName (S i) rest bs (<[ dbID := i ]> boundBy) in (dbID :: bound', new, m)
            | Some _ => let '(bound', new, m) := bindNames dbByName (S i) rest bs boundBy in ("" :: bound', i :: new, m)
            end
        | None => let '(bound', new, m) := bindNames dbByName (S i) rest bs boundBy in ("" :: bound', i :: new, m)
        end
  | _, _ => ([], [], boundBy)
  end.

Definition matchEntities (kind : string) (bundle current : list entity) (additive : bool) : result kindMatch :=
  '(bound, boundBy) ← bindIDs kind (map en_id current) 0 bundle ∅;
  let '(bound, new, boundBy) := bindNames (byName current) 0 bundle bound boundBy in
  if negb (dup_free ∅ (map en_name bundle)) then Err (invalidDetail ("two bundle entries resolve to one final name: " +:+ kind))
  else
    Ok (MkMatch bound new
          (if additive then []
           else List.filter (fun id => match boundBy !! id with None => true | Some _ => false end) (map en_id current))).

(** ** The diff *)
Record Rename := MkRename { rn_ID : string; rn_From : string; rn_To : string }.
Record Ref := MkRef { rf_ID : string; rf_Name : string }.

Record KeyUpdate := MkUpdate {
  u_ID : string; u_PrevName : string; u_Desired : Key;
  u_Renamed : bool; u_MetaChanged : bool; u_DeclChanged : bool; u_Reclassified : bool; u_GroupChanged : bool; u_PresenceChanged : bool;
  u_PrevClassification : string; u_PrevDeclaration : decl }.

Record Resolution := MkResolution {
  r_Additive : bool;
  EnvCreates : list string; EnvRenames : list Rename; EnvDeletes : list Ref;
  GroupCreates : list string; GroupRenames : list Rename; GroupDeletes : list Ref;
  KeyCreates : list Key; KeyUpdates : list KeyUpdate; KeyDeletes : list Ref;
  RevealKeys : list string }.

Definition nameFor (items : list entity) (id : string) : string :=
  match List.filter (fun e => en_id e =s id) items with e :: _ => en_name e | [] => "" end.

Definition refsFor (items : list entity) (ids : list string) : list Ref := map (fun id => MkRef id (nameFor items id)) ids.

(** The identity each declared name resolves to: the bound id, or a marker for
    an entry still to be created. *)
Definition identities (bundle : list entity) (bound : list string) : gmap string string :=
  foldl (fun m eb => <[ en_name eb.1 := if eb.2 =s "" then "new:" +:+ en_name eb.1 else eb.2 ]> m) ∅ (zip bundle bound).

(** Creates and renames of environments and groups. *)
Definition topology (current bundle : list entity) (bound : list string) : list string * list Rename :=
  (map (fun eb => en_name eb.1) (List.filter (fun eb => eb.2 =s "") (zip bundle bound)),
   flat_map (fun eb => if eb.2 =s "" then []
                       else let from := nameFor current eb.2 in
                            if from =s en_name eb.1 then [] else [MkRename eb.2 from (en_name eb.1)]) (zip bundle bound)).

(** [schema.ValueDependentChange]. *)
Definition ValueDependentChange (before after : decl) : bool :=
  match Canonical before, Canonical after with
  | Ok a, Ok b => negb (a =s b)
  | _, _ => true
  end.

Definition presenceChanged (before desired : Presence) (envIdentity : gmap string string) : bool :=
  if negb (p_Mode before =s p_Mode desired) then true
  else if negb (p_Mode desired =s PresenceExplicit) then false
  else if negb (length (p_Environments before) =? length (p_Environments desired))%nat then true
  else negb (forallb (fun name => contains (p_Environments before) (default "" (envIdentity !! name))) (p_Environments desired)).

Definition diffKey (before : CurrentKey) (desired : Key) (envIdentity groupIdentity : gmap string string) : KeyUpdate :=
  let desiredGroup := if k_Group desired =s "" then "" else default "" (groupIdentity !! k_Group desired) in
  MkUpdate (ck_ID before) (ck_Name before) desired
    (negb (ck_Name before =s k_Name desired))
    (negb (ck_FolderPath before =s k_FolderPath desired) || negb (ck_Description before =s k_Description desired) ||
     negb (eqb (ck_Deprecated before) (k_Deprecated desired)) || negb (ck_DeprecationNote before =s k_DeprecationNote desired))
    (ValueDependentChange (ck_Declaration before) (k_Declaration desired))
    (negb (ck_Classification before =s k_Classification desired))
    (negb (desiredGroup =s ck_GroupID before))
    (presenceChanged (ck_Required before) (k_RequiredIn desired) envIdentity ||
     presenceChanged (ck_Forbidden before) (k_ForbiddenIn desired) envIdentity)
    (ck_Classification before) (ck_Declaration before).

Definition changed (u : KeyUpdate) : bool :=
  u_Renamed u || u_MetaChanged u || u_DeclChanged u || u_Reclassified u || u_GroupChanged u || u_PresenceChanged u.

Definition NeedsReveal (u : KeyUpdate) : bool :=
  let wasSecret := u_PrevClassification u =s Secret in
  (wasSecret && u_DeclChanged u) || (wasSecret && (k_Classification (u_Desired u) =s Config)).

Definition validateKeyReferences (k : Key) (envNames groupNames : list string) : result () :=
  if negb (k_Group k =s "") && negb (contains groupNames (k_Group k))
  then Err (invalidDetail "key references a key group the bundle does not declare")
  else if forallb (contains envNames) (p_Environments (k_RequiredIn k)) && forallb (contains envNames) (p_Environments (k_ForbiddenIn k))
  then Ok () else Err (invalidDetail "key references an environment the bundle does not declare").

Definition curKeyByID (cur : list CurrentKey) (id : string) : option CurrentKey := last (List.filter (fun c => ck_ID c =s id) cur).

(** The key loop: creates, updates, and the names whose update needs reveal. *)
Fixpoint diffKeys (strict additive : bool) (cur : list CurrentKey) (envNames groupNames : list string) (envIdentity groupIdentity : gmap string string)
    (keys : list (Key * string)) : result (list Key * list KeyUpdate * list string) :=
  match keys with
  | [] => Ok ([], [], [])
  | (k, b) :: rest =>
      _ ← validateKeyReferences k envNames groupNames;
      if b =s "" then
        '(new, upds, reveal) ← diffKeys strict additive cur envNames groupNames envIdentity groupIdentity rest;
        Ok (k :: new, upds, reveal)
      else
        match curKeyByID cur b with
        | None => Panic "unreachable: a bound id is one of the current keys"
        | Some before =>
            let upd := diffKey before k envIdentity groupIdentity in
            if changed upd && additive && strict then Err (AdditiveModificationError (k_Name k))
            else
              '(new, upds, reveal) ← diffKeys strict additive cur envNames groupNames envIdentity groupIdentity rest;
              if changed upd then Ok (new, upd :: upds, if NeedsReveal upd then k_Name k :: reveal else reveal)
              else Ok (new, upds, reveal)
        end
  end.

Definition resolve (b : Bundle) (cur : CurrentState) (strict : bool) : result Resolution :=
  let additive := Additive b in
  envMatch ← matchEntities "environment" (b_Environments b) (cs_Environments cur) additive;
  groupMatch ← matchEntities "key group" (b_KeyGroups b) (cs_KeyGroups cur) additive;
  keyMatch ← matchEntities "key" (bundleKeyEntities (b_Keys b)) (currentKeyEntities (cs_Keys cur)) additive;
  let '(envCreates, envRenames) := topology (cs_Environments cur) (b_Environments b) (boundDBID envMatch) in
  let '(groupCreates, groupRenames) := topology (cs_KeyGroups cur) (b_KeyGroups b) (boundDBID groupMatch) in
  '(keyCreates, keyUpdates, reveal) ←
    diffKeys strict additive (cs_Keys cur) (map en_name (b_Environments b)) (map en_name (b_KeyGroups b))
      (identities (b_Environments b) (boundDBID envMatch)) (identities (b_KeyGroups b) (boundDBID groupMatch))
      (zip (b_Keys b) (boundDBID keyMatch));
  Ok (MkResolution additive
        envCreates envRenames (refsFor (cs_Environments cur) (deletes envMatch))
        groupCreates groupRenames (refsFor (cs_KeyGroups cur) (deletes groupMatch))
        keyCreates keyUpdates (refsFor (currentKeyEntities (cs_Keys cur)) (deletes keyMatch))
        (sortStrings reveal)).

Definition Resolve (b : Bundle) (cur : CurrentState) : result Resolution := resolve b cur true.

Definition is_nil {A} (l : list A) : bool := match l with [] => true | _ => false end.

Definition Empty (r : Resolution) : bool :=
  is_nil (EnvCreates r) && is_nil (EnvRenames r) && is_nil (EnvDeletes r) &&
  is_nil (GroupCreates r) && is_nil (GroupRenames r) && is_nil (GroupDeletes r) &&
  is_nil (KeyCreates r) && is_nil (KeyUpdates r) && is_nil (KeyDeletes r).

Definition DeletionsPresent (r : Resolution) : bool :=
  negb (is_nil (EnvDeletes r)) || negb (is_nil (GroupDeletes r)) || negb (is_nil (KeyDeletes r)).

(** ** Drift *)
Inductive DriftState := DriftEqual | DriftFileAhead | DriftDBAhead | DriftDiverged.

Record KindDiff := MkKindDiff { d_Creates : list string; d_Updates : list string; d_Renames : list Rename; d_Deletes : list string }.
Record Diff := MkDiff { d_Environments : KindDiff; d_KeyGroups : KindDiff; d_Keys : KindDiff; d_RevealRequired : list string }.

Definition renderDiff (r : Resolution) : Diff :=
  MkDiff
    (MkKindDiff (EnvCreates r) [] (EnvRenames r) (map rf_Name (EnvDeletes r)))
    (MkKindDiff (GroupCreates r) [] (GroupRenames r) (map rf_Name (GroupDeletes r)))
    (MkKindDiff (map k_Name (KeyCreates r)) (map (fun u => k_Name (u_Desired u)) (KeyUpdates r))
       (flat_map (fun u => if u_Renamed u then [MkRename (u_ID u) (u_PrevName u) (k_Name (u_Desired u))] else []) (KeyUpdates r))
       (map rf_Name (KeyDeletes r)))
    (RevealKeys r).

Definition Compare (b : Bundle) (cur : CurrentState) : result (DriftState * Diff) :=
  res ← resolve b cur false;
  let diff := negb (Empty res) in
  match b_BaseRevision b with
  | None => Ok (if diff then DriftFileAhead else DriftEqual, renderDiff res)
  | Some base =>
      if SchemaRevision cur <? base then Err (invalidDetail "bundle base revision is ahead of the current definitions revision")
      else if base =? SchemaRevision cur then Ok (if diff then DriftFileAhead else DriftEqual, renderDiff res)
      else Ok (if diff then DriftDiverged else DriftDBAhead, renderDiff res)
  end.

Definition Classify (b : Bundle) (cur : CurrentState) : result DriftState := '(state, _) ← Compare b cur; Ok state.

(** ** Normalization *)
Definition hasIDs (b : Bundle) : bool :=
  existsb (fun e => negb (en_id e =s "")) (b_Environments b) || existsb (fun g => negb (en_id g =s "")) (b_KeyGroups b) ||
  existsb (fun k => negb (k_ID k =s "")) (b_Keys b).

Definition validateBundle (b : Bundle) : result () :=
  if negb (b_FormatVersion b =? FormatVersion) then Err (invalidDetail "bundle format_version: version mismatch")
  else if MaxBundleEntries <? Z.of_nat (length (b_Keys b) + length (b_Environments b) + length (b_KeyGroups b))
  then Err (limitDetail "bundle holds too many entries")
  else if Additive b && hasIDs b then Err (invalidDetail "malformed template: ids without base revision") else Ok ().

Definition normalizePresence (p : Presence) : result Presence :=
  let envs := sortStrings (p_Environments p) in
  if (p_Mode p =s PresenceNone) || (p_Mode p =s PresenceAll) then
    if is_nil envs then Ok (MkPresence (p_Mode p) []) else Err (invalidDetail "presence mode carries no environments")
  else if p_Mode p =s PresenceExplicit then
    if is_nil envs then Err (invalidDetail "presence mode explicit names at least one environment")
    else if existsb (fun n => n =s "") envs then Err (invalidDetail "presence names an empty environment")
    else if negb (dup_free ∅ envs) then Err (invalidDetail "presence names an environment more than once")
    else Ok (MkPresence (p_Mode p) envs)
  else Err (invalidDetail "presence mode is not one of all|none|explicit").

Definition compileKey (k : Key) : result Key :=
  if negb (Classification_Valid (k_Classification k)) then Err (invalidDetail "key declares a classification which is neither secret nor config")
  else
    match CompileClassified (k_Classification k) (k_Declaration k) with
    | Err e => Err (invalidDetail "key has an invalid declaration")
    | Panic p => Panic p
    | Ok d =>
        req ← normalizePresence (k_RequiredIn k);
        forb ← normalizePresence (k_ForbiddenIn k);
        Ok (MkKey (k_ID k) (k_Name k) (k_FolderPath k) (k_Classification k) (k_Description k) (k_Deprecated k) (k_DeprecationNote k)
              (k_Group k) d req forb)
    end.

Fixpoint compileKeys (keys : list Key) : result (list Key) :=
  match keys with
  | [] => Ok []
  | k :: rest => k' ← compileKey k; rest' ← compileKeys rest; Ok (k' :: rest')
  end.

(** [encodedSize]: the length of the canonical encoding. *)
Definition compileCanonical (encodedSize : Bundle -> Z) (b : Bundle) : result Bundle :=
  keys ← compileKeys (sortBy k_Name (b_Keys b));
  let out := MkBundle FormatVersion (b_BaseRevision b) (sortBy en_name (b_Environments b)) (sortBy en_name (b_KeyGroups b)) keys in
  if MaxBundleBytes <? encodedSize out then Err (limitDetail "bundle is over the byte limit") else Ok out.

Definition Canonicalize (encodedSize : Bundle -> Z) (b : Bundle) : result Bundle :=
  _ ← validateBundle b; compileCanonical encodedSize b.

(** ** Export *)
Definition bundlePresence (p : Presence) (envs : list entity) : Presence :=
  MkPresence (p_Mode p) (map (nameFor envs) (p_Environments p)).

Definition bundleFromState (cur : CurrentState) (withIDs : bool) : Bundle :=
  let stamp id := if withIDs then id else "" in
  MkBundle FormatVersion (if withIDs then Some (SchemaRevision cur) else None)
    (map (fun e => MkEntity (stamp (en_id e)) (en_name e)) (cs_Environments cur))
    (map (fun g => MkEntity (stamp (en_id g)) (en_name g)) (cs_KeyGroups cur))
    (map (fun k => MkKey (stamp (ck_ID k)) (ck_Name k) (ck_FolderPath k) (ck_Classification k) (ck_Description k)
                     (ck_Deprecated k) (ck_DeprecationNote k) (nameFor (cs_KeyGroups cur) (ck_GroupID k)) (ck_Declaration k)
                     (bundlePresence (ck_Required k) (cs_Environments cur)) (bundlePresence (ck_Forbidden k) (cs_Environments cur)))
       (cs_Keys cur)).
End Definitions.
