(* ===== verification/DefinitionsSpec.v ===== *)
(** * What the definitions diff guarantees

    Matching pairs every bundle entry with at most one identity; a bundle whose
    entries already name the current state resolves to no change at all; the
    export of a state is such a bundle. *)

From S2P Require Import Prelude Domain Schema Definitions.

#[local] Open Scope Z_scope.

(** ** Lists of entities *)
Lemma zip_In {A B} (l : list A) (k : list B) x y : In (x, y) (zip l k) -> exists i, l !! i = Some x /\ k !! i = Some y.
Proof.
  revert k. induction l as [|a l IH]; intros [|b k]; cbn; try done. intros [[= <- <-]|Hin]; [exists 0%nat; done|].
  destruct (IH k Hin) as (i & ? & ?). by exists (S i).
Qed.

Lemma byName_fold (l : list entity) : forall m : gmap string string,
  forall name id, foldl (fun m c => <[ en_name c := en_id c ]> m) m l !! name = Some id ->
    In (MkEntity id name) l \/ (m !! name = Some id /\ ~ In name (map en_name l)).
Proof.
  induction l as [|e l IH]; intros m name id Hl; cbn [foldl] in Hl; [right; split; [done|]; intros []|].
  apply IH in Hl as [Hin|[Hm Hn]]; [left; by right|]. destruct (decide (en_name e = name)) as [<-|Hne].
  - rewrite lookup_insert_eq in Hm. injection Hm as <-. left. left. by destruct e.
  - rewrite lookup_insert_ne in Hm by done. right. split; [done|]. cbn [map]. intros [?|?]; done.
Qed.

Lemma byName_In l name id : byName l !! name = Some id -> In (MkEntity id name) l.
Proof. intros [?|[Hm _]]%byName_fold; [done|]. by rewrite lookup_empty in Hm. Qed.

Lemma byName_Some l e : NoDup (map en_name l) -> In e l -> byName l !! en_name e = Some (en_id e).
Proof.
  unfold byName. generalize (∅ : gmap string string) as m. induction l as [|x l IH]; intros m Hn Hin; [done|].
  cbn [map] in Hn. apply NoDup_cons in Hn as [Hx Hn]. cbn [foldl]. destruct Hin as [<-|Hin]; [|by apply IH].
  clear IH. assert (forall m' : gmap string string, m' !! en_name x = Some (en_id x) ->
    foldl (fun m c => <[ en_name c := en_id c ]> m) m' l !! en_name x = Some (en_id x)) as Hk.
  { rewrite list_elem_of_In in Hx. clear Hn. induction l as [|y l IH]; intros m' Hm; [done|]. cbn [foldl]. cbn [map] in Hx. apply IH.
    - intros Hin. apply Hx. by right.
    - rewrite lookup_insert_ne; [done|]. intros He. apply Hx. left. done. }
  apply Hk. apply lookup_insert_eq.
Qed.

(** ** A bundle that names the current state *)

(** Entry by entry: the identity it stands for, under its own name. *)
Record settled (bundle current : list entity) (ids : list string) : Prop := {
  st_length : length ids = length bundle;
  st_entry : forall i e id, bundle !! i = Some e -> ids !! i = Some id -> In (MkEntity id (en_name e)) current /\ (en_id e = "" \/ en_id e = id);
  st_names : NoDup (map en_name bundle) }.

(** What the tables guarantee of the current entities. *)
Record entities_ok (current : list entity) : Prop := {
  eo_ids : NoDup (map en_id current);
  eo_names : NoDup (map en_name current);
  eo_nonempty : forall e, In e current -> en_id e <> "" }.

Section Settled.
Context (current : list entity) (Hc : entities_ok current).

Lemma bindIDs_settled kind bundle : forall (ids : list string) i m,
  length ids = length bundle ->
  (forall j e id, bundle !! j = Some e -> ids !! j = Some id -> In (MkEntity id (en_name e)) current /\ (en_id e = "" \/ en_id e = id)) ->
  NoDup (map en_name bundle) ->
  (forall j id, ids !! j = Some id -> m !! id = None) ->
  exists m', bindIDs kind (map en_id current) i bundle m = Ok (map en_id bundle, m') /\
    (forall id, is_Some (m' !! id) <-> is_Some (m !! id) \/ (exists e, In e bundle /\ en_id e = id /\ id <> "")).
Proof.
  induction bundle as [|e bundle IH]; intros [|id ids] i m Hl He Hn Hm; [|done|done|].
  { exists m. split; [done|]. intros id. split; [by left|]. intros [?|(? & [] & _)]. done. }
  cbn [map] in Hn. apply NoDup_cons in Hn as [Hne Hn]. cbn [bindIDs].
  assert (forall j e' id', bundle !! j = Some e' -> ids !! j = Some id' -> In (MkEntity id' (en_name e')) current /\ (en_id e' = "" \/ en_id e' = id')) as He'
    by (intros j; apply (He (S j))).
  destruct (He 0%nat e id eq_refl eq_refl) as [Hin Hcase].
  assert (id <> "") as Hid by (apply (eo_nonempty _ Hc _ Hin)).
  destruct (String.eqb_spec (en_id e) "") as [Hempty|Hnonempty].
  - destruct (IH ids (S i) m) as (m' & Hb & Hm'); [by injection Hl|done|done|intros j; apply (Hm (S j))|].
    exists m'. rewrite Hb. cbn [mbind result_bind map]. rewrite Hempty. split; [done|]. intros id'. rewrite Hm'. split.
    + intros [?|(e' & ? & ? & ?)]; [by left|right; exists e'; split_and!; [by right|done..]].
    + intros [?|(e' & [<-|?] & <- & ?)]; [by left|done|right; exists e'; auto].
  - assert (en_id e = id) as Heq by (by destruct Hcase). rewrite Heq in *.
    assert (contains (map en_id current) id = true) as -> by (apply contains_In; change id with (en_id (MkEntity id (en_name e))); by apply in_map).
    cbn [negb]. rewrite (Hm 0%nat id eq_refl).
    destruct (IH ids (S i) (<[ id := i ]> m)) as (m' & Hb & Hm'); [by injection Hl|done|done| |].
    { intros j id' Hj. rewrite lookup_insert_ne; [by apply (Hm (S j))|]. intros <-.
      destruct (lookup_lt_is_Some_2 bundle j) as [e' He2]; [injection Hl as Hl; rewrite <- Hl; by eapply lookup_lt_Some|].
      destruct (He' j e' id He2 Hj) as [Hin' _].
      assert (MkEntity id (en_name e) = MkEntity id (en_name e')) as [= Hnn] by (apply (NoDup_map_inj _ _ _ _ (eo_ids _ Hc) Hin Hin'); done).
      apply Hne. rewrite Hnn. apply list_elem_of_In, in_map, list_elem_of_In. by eapply list_elem_of_lookup_2. }
    exists m'. rewrite Hb. cbn [mbind result_bind map]. rewrite Heq. split; [done|]. intros id'. rewrite Hm'. split.
    + intros [Hx|(e' & ? & ? & ?)]; [|right; exists e'; split_and!; [by right|done..]].
      destruct (decide (id = id')) as [<-|]; [right; exists e; split_and!; [by left|done..]|]. rewrite lookup_insert_ne in Hx by done. by left.
    + intros [Hx|(e' & [<-|?] & <- & ?)].
      * left. destruct (decide (id = id')) as [<-|]; [rewrite lookup_insert_eq; by eexists|by rewrite lookup_insert_ne].
      * left. rewrite Heq, lookup_insert_eq. by eexists.
      * right. exists e'. auto.
Qed.

(** Distinct entries stand for distinct identities. *)
Lemma settled_ids_inj (bundle : list entity) (ids : list string) e id e' j :
  (forall j e id, bundle !! j = Some e -> ids !! j = Some id -> In (MkEntity id (en_name e)) current /\ (en_id e = "" \/ en_id e = id)) ->
  In (MkEntity id (en_name e)) current -> bundle !! j = Some e' -> ids !! j = Some id -> en_name e' = en_name e.
Proof.
  intros He Hin Hj Hi. destruct (He j e' id Hj Hi) as [Hin' _].
  assert (MkEntity id (en_name e) = MkEntity id (en_name e')) as [= ->] by (by apply (NoDup_map_inj _ _ _ _ (eo_ids _ Hc) Hin Hin')). done.
Qed.

Lemma bindNames_settled bundle : forall (ids : list string) i m,
  length ids = length bundle ->
  (forall j e id, bundle !! j = Some e -> ids !! j = Some id -> In (MkEntity id (en_name e)) current /\ (en_id e = "" \/ en_id e = id)) ->
  NoDup (map en_name bundle) ->
  (forall j e id, bundle !! j = Some e -> ids !! j = Some id -> en_id e = "" -> m !! id = None) ->
  exists m', bindNames (byName current) i bundle (map en_id bundle) m = (ids, [], m') /\
    (forall id, is_Some (m' !! id) <-> is_Some (m !! id) \/ exists j e, bundle !! j = Some e /\ ids !! j = Some id /\ en_id e = "").
Proof.
  induction bundle as [|e bundle IH]; intros [|id ids] i m Hl He Hn Hm; [|done|done|].
  { exists m. split; [done|]. intros id. split; [by left|]. intros [?|(? & ? & ? & _)]; done. }
  cbn [map] in Hn. apply NoDup_cons in Hn as [Hne Hn]. cbn [map bindNames]. injection Hl as Hl.
  assert (forall j e' id', bundle !! j = Some e' -> ids !! j = Some id' -> In (MkEntity id' (en_name e')) current /\ (en_id e' = "" \/ en_id e' = id')) as He'
    by (intros j; apply (He (S j))).
  destruct (He 0%nat e id eq_refl eq_refl) as [Hin Hcase].
  destruct (String.eqb_spec (en_id e) "") as [Hempty|Hnonempty]; cbn [negb].
  - rewrite (byName_Some current (MkEntity id (en_name e)) (eo_names _ Hc) Hin : byName current !! en_name e = Some id).
    rewrite (Hm 0%nat e id eq_refl eq_refl Hempty).
    destruct (IH ids (S i) (<[ id := i ]> m) Hl He' Hn) as (m' & Hb & Hm').
    { intros j e' id' Hj Hi Hx. rewrite lookup_insert_ne; [by apply (Hm (S j) e' id')|]. intros <-.
      apply Hne. rewrite <- (settled_ids_inj bundle ids e id e' j He' Hin Hj Hi). by eapply list_elem_of_In, in_map, list_elem_of_In, list_elem_of_lookup_2. }
    exists m'. rewrite Hb. split; [done|]. intros id'. rewrite Hm'. split.
    + intros [Hx|(j & e' & ? & ? & ?)]; [|right; by exists (S j), e'].
      destruct (decide (id = id')) as [<-|]; [right; by exists 0%nat, e|]. rewrite lookup_insert_ne in Hx by done. by left.
    + intros [Hx|([|j] & e' & Hj & Hi & Hx)].
      * left. destruct (decide (id = id')) as [<-|]; [rewrite lookup_insert_eq; by eexists|by rewrite lookup_insert_ne].
      * left. injection Hi as <-. rewrite lookup_insert_eq. by eexists.
      * right. by exists j, e'.
  - assert (en_id e = id) as Heq by (by destruct Hcase).
    destruct (IH ids (S i) m Hl He' Hn) as (m' & Hb & Hm'); [intros j; apply (Hm (S j))|].
    exists m'. rewrite Hb, Heq. split; [done|]. intros id'. rewrite Hm'. split.
    + intros [?|(j & e' & ? & ? & ?)]; [by left|right; by exists (S j), e'].
    + intros [?|([|j] & e' & Hj & Hi & Hx)]; [by left| |right; by exists j, e']. injection Hj as <-. done.
Qed.

(** A settled kind matches entry by entry: nothing is created, and only
    identities no entry stands for are deleted. *)
Lemma match_settled kind bundle ids additive : settled bundle current ids ->
  exists dels, matchEntities kind bundle current additive = Ok (MkMatch ids [] dels) /\
    ((additive = true \/ forall e, In e current -> In (en_id e) ids) -> dels = []).
Proof.
  intros [Hl He Hn]. unfold matchEntities.
  destruct (bindIDs_settled kind bundle ids 0 ∅ Hl He Hn) as (m & Hb & Hm); [intros j id _; apply lookup_empty|].
  rewrite Hb. cbn [mbind result_bind].
  assert (forall id, is_Some (m !! id) <-> exists e, In e bundle /\ en_id e = id /\ id <> "") as Hm0.
  { intros id. rewrite Hm, lookup_empty. split; [intros [[? ?]|?]; done|by right]. }
  destruct (bindNames_settled bundle ids 0 m Hl He Hn) as (m' & Hb' & Hm').
  { intros j e id Hj Hi Hempty. destruct (m !! id) eqn:Hx; [|done]. exfalso.
    destruct (proj1 (Hm0 id) ltac:(by rewrite Hx; eexists)) as (e' & Hin & Hid & Hne).
    apply list_elem_of_In, list_elem_of_lookup in Hin as [j' Hj'].
    destruct (lookup_lt_is_Some_2 ids j') as [id' Hi']; [rewrite Hl; by eapply lookup_lt_Some|].
    destruct (He j' e' id' Hj' Hi') as [Hin' [?|Heq]]; [congruence|]. assert (id' = id) as -> by congruence.
    pose proof (settled_ids_inj bundle ids e' id e j He Hin' Hj Hi) as Hnn.
    assert (j = j') as <-.
    { change (NoDup (en_name <$> bundle)) in Hn. eapply NoDup_lookup; [exact Hn| |]; rewrite list_lookup_fmap.
      - rewrite Hj. reflexivity.
      - rewrite Hj'. cbn. by rewrite Hnn. }
    rewrite Hj in Hj'. injection Hj' as <-. congruence. }
  rewrite Hb'. assert (dup_free ∅ (map en_name bundle) = true) as -> by (apply dup_free_spec; split; [done|]; intros x _; apply lookup_empty).
  cbn [negb]. eexists. split; [reflexivity|]. intros [->|Hall]; [done|]. destruct additive; [done|].
  assert (forall l, (forall e, In e l -> In e current) ->
    List.filter (fun id => match m' !! id with None => true | Some _ => false end) (map en_id l) = []) as Hf.
  { induction l as [|e l IH]; intros Hsub; [done|]. cbn [map List.filter].
    assert (is_Some (m' !! en_id e)) as [x ->].
    { apply Hm'. specialize (Hall e (Hsub e (or_introl eq_refl))). apply list_elem_of_In, list_elem_of_lookup in Hall as [j Hj].
      destruct (lookup_lt_is_Some_2 bundle j) as [e' He2]; [rewrite <- Hl; by eapply lookup_lt_Some|].
      destruct (He j e' (en_id e) He2 Hj) as [Hin [Hx|Hx]]; [right; eauto|]. left. apply Hm0. exists e'.
      split_and!; [by eapply list_elem_of_In, list_elem_of_lookup_2|done|]. apply (eo_nonempty _ Hc _ Hin). }
    apply IH. intros e' ?. apply Hsub. by right. }
  by apply Hf.
Qed.

Lemma nameFor_In id name : In (MkEntity id name) current -> nameFor current id = name.
Proof.
  intros Hin. unfold nameFor.
  assert (In (MkEntity id name) (List.filter (fun e => en_id e =s id) current)) as Hf by (apply filter_In; split; [done|apply String.eqb_refl]).
  destruct (List.filter _ _) as [|e es] eqn:Hx; [done|].
  assert (In e (e :: es)) as He by (by left). rewrite <- Hx in He. apply filter_In in He as [He Hid]. apply String.eqb_eq in Hid.
  assert (e = MkEntity id name) as -> by (by apply (NoDup_map_inj _ _ _ _ (eo_ids _ Hc) He Hin)). done.
Qed.

Lemma topology_settled bundle ids : settled bundle current ids -> topology current bundle ids = ([], []).
Proof.
  intros [Hl He Hn]. unfold topology.
  assert (forall e id, In (e, id) (zip bundle ids) -> id <> "" /\ nameFor current id = en_name e) as Hz.
  { intros e id (i & Hi & Hj)%zip_In. destruct (He i e id Hi Hj) as [Hin _]. split; [apply (eo_nonempty _ Hc _ Hin)|by apply nameFor_In]. }
  clear Hl He Hn. induction (zip bundle ids) as [|[e id] l IH]; [done|]. cbn [List.filter flat_map map fst snd].
  destruct (Hz e id (or_introl eq_refl)) as [Hne Hnm]. destruct (String.eqb_spec id ""); [done|].
  rewrite Hnm, String.eqb_refl. cbn [app]. apply IH. intros e' id' ?. apply Hz. by right.
Qed.
End Settled.

Lemma identities_fold (l : list (entity * string)) : forall (m : gmap string string) e id, NoDup (map (fun eb => en_name eb.1) l) -> In (e, id) l ->
  foldl (fun m eb => <[ en_name eb.1 := if eb.2 =s "" then "new:" +:+ en_name eb.1 else eb.2 ]> m) m l !! en_name e =
  Some (if id =s "" then "new:" +:+ en_name e else id).
Proof.
  induction l as [|[e0 id0] l IH]; intros m e id Hn Hin; [done|]. cbn [map fst] in Hn. apply NoDup_cons in Hn as [Hx Hn]. cbn [foldl fst snd].
  destruct Hin as [[= -> ->]|Hin]; [|by apply IH].
  assert (forall (m' : gmap string string) v, m' !! en_name e = Some v ->
    foldl (fun m eb => <[ en_name eb.1 := if eb.2 =s "" then "new:" +:+ en_name eb.1 else eb.2 ]> m) m' l !! en_name e = Some v) as Hk.
  { rewrite list_elem_of_In in Hx. clear IH Hn. induction l as [|y l IH]; intros m' v Hm; [done|]. cbn [foldl]. cbn [map] in Hx. apply IH.
    - intros Hin. apply Hx. by right.
    - rewrite lookup_insert_ne; [done|]. intros He. apply Hx. by left. }
  apply Hk. by rewrite lookup_insert_eq.
Qed.

Lemma map_zip_names (bundle : list entity) : forall ids : list string, length ids = length bundle -> map (fun eb => en_name eb.1) (zip bundle ids) = map en_name bundle.
Proof. induction bundle as [|e bundle IH]; intros [|id ids] Hl; [done..|]. cbn. f_equal. apply IH. by injection Hl. Qed.

Lemma zip_lookup {A B} (l : list A) (k : list B) : forall i x y, l !! i = Some x -> k !! i = Some y -> In (x, y) (zip l k).
Proof.
  revert k. induction l as [|a l IH]; intros [|b k] [|i] x y Hx Hy; try done; cbn in *; [left; congruence|right; by eapply IH].
Qed.

Lemma identities_entry bundle ids i e id : NoDup (map en_name bundle) -> length ids = length bundle ->
  bundle !! i = Some e -> ids !! i = Some id -> identities bundle ids !! en_name e = Some (if id =s "" then "new:" +:+ en_name e else id).
Proof.
  intros Hn Hl Hi Hj. unfold identities. apply identities_fold; [by rewrite map_zip_names|by eapply zip_lookup].
Qed.

Lemma identities_bound bundle ids i e id : NoDup (map en_name bundle) -> length ids = length bundle ->
  bundle !! i = Some e -> ids !! i = Some id -> id <> "" -> identities bundle ids !! en_name e = Some id.
Proof. intros Hn Hl Hi Hj Hne. rewrite (identities_entry _ _ i e id) by done. by destruct (String.eqb_spec id ""). Qed.

(** ** Sorting *)
Lemma insertLe_perm {A} (le : A -> A -> bool) x l : Permutation (insertLe le x l) (x :: l).
Proof.
  induction l as [|y l IH]; [done|]. cbn [insertLe]. destruct (le x y); [done|]. rewrite IH. apply perm_swap.
Qed.

Lemma isort_perm {A} (le : A -> A -> bool) l : Permutation (isort le l) l.
Proof. induction l as [|x l IH]; [done|]. cbn. etransitivity; [apply insertLe_perm|]. by constructor. Qed.

Lemma Permutation_filter {A} (f : A -> bool) l l' : Permutation l l' -> Permutation (List.filter f l) (List.filter f l').
Proof.
  induction 1 as [|x l l' Hp IH|x y l|l1 l2 l3 H1 IH1 H2 IH2]; cbn; [done|destruct (f x); [by constructor|done]| |by etransitivity].
  destruct (f x), (f y); [apply perm_swap|done..].
Qed.

(** The only element with a key is the last one with it. *)
Lemma last_filter {A} (f : A -> string) l x : NoDup (map f l) -> In x l -> last (List.filter (fun y => f y =s f x) l) = Some x.
Proof.
  intros Hn Hin. assert (In x (List.filter (fun y => f y =s f x) l)) as Hf by (apply filter_In; split; [done|apply String.eqb_refl]).
  destruct (last _) as [y|] eqn:Hl.
  - apply last_Some in Hl as [l' Hl]. f_equal.
    assert (In y (List.filter (fun y => f y =s f x) l)) as Hy by (rewrite Hl; apply in_or_app; right; by left).
    apply filter_In in Hy as [Hy He]. apply String.eqb_eq in He. by apply (NoDup_map_inj _ _ _ _ Hn Hy Hin).
  - apply last_None in Hl. by rewrite Hl in Hf.
Qed.

Section Resolve.
Context `{DeclarationCodec}.

(** What the tables guarantee of a current state. *)
Record state_ok (cur : CurrentState) : Prop := {
  so_envs : entities_ok (cs_Environments cur);
  so_groups : entities_ok (cs_KeyGroups cur);
  so_keys : entities_ok (currentKeyEntities (cs_Keys cur)) }.

Lemma curKeyByID_In keys c : NoDup (map en_id (currentKeyEntities keys)) -> In c keys -> curKeyByID keys (ck_ID c) = Some c.
Proof. intros Hn. unfold currentKeyEntities in Hn. rewrite map_map in Hn. by apply last_filter. Qed.

Lemma curKeyByID_Some keys id c : curKeyByID keys id = Some c -> In c keys /\ ck_ID c = id.
Proof.
  unfold curKeyByID. intros [l Hl]%last_Some.
  assert (In c (List.filter (fun c' => ck_ID c' =s id) keys)) as Hc by (rewrite Hl; apply in_or_app; right; by left).
  apply filter_In in Hc as [Hc He]. split; [done|]. by apply String.eqb_eq.
Qed.

Lemma diffKeys_settled strict additive cur envNames groupNames envIdentity groupIdentity keys :
  (forall k id, In (k, id) keys -> validateKeyReferences k envNames groupNames = Ok () /\ id <> "" /\
     exists c, curKeyByID cur id = Some c /\ changed (diffKey c k envIdentity groupIdentity) = false) ->
  diffKeys strict additive cur envNames groupNames envIdentity groupIdentity keys = Ok ([], [], []).
Proof.
  induction keys as [|[k id] keys IH]; intros Hk; [done|]. cbn [diffKeys].
  destruct (Hk k id (or_introl eq_refl)) as (-> & Hne & c & -> & Hch). cbn [mbind result_bind].
  destruct (String.eqb_spec id ""); [done|]. rewrite Hch. cbn [andb].
  rewrite IH by (intros k' id' ?; apply Hk; by right). done.
Qed.

Definition noChange (additive : bool) : Resolution := MkResolution additive [] [] [] [] [] [] [] [] [] [].

(** A bundle whose every entry stands for a current identity under its own name,
    with equal keys, and which leaves no identity out, changes nothing. *)
Lemma resolve_settled b cur strict eIds gIds kIds : state_ok cur ->
  settled (b_Environments b) (cs_Environments cur) eIds ->
  settled (b_KeyGroups b) (cs_KeyGroups cur) gIds ->
  settled (bundleKeyEntities (b_Keys b)) (currentKeyEntities (cs_Keys cur)) kIds ->
  (Additive b = true \/
     ((forall e, In e (cs_Environments cur) -> In (en_id e) eIds) /\ (forall g, In g (cs_KeyGroups cur) -> In (en_id g) gIds) /\
      (forall c, In c (cs_Keys cur) -> In (ck_ID c) kIds))) ->
  (forall i k id, b_Keys b !! i = Some k -> kIds !! i = Some id ->
     validateKeyReferences k (map en_name (b_Environments b)) (map en_name (b_KeyGroups b)) = Ok () /\
     exists c, curKeyByID (cs_Keys cur) id = Some c /\
       changed (diffKey c k (identities (b_Environments b) eIds) (identities (b_KeyGroups b) gIds)) = false) ->
  resolve b cur strict = Ok (noChange (Additive b)).
Proof.
  intros [Hoe Hog Hok] He Hg Hk Hcov Hkeys. unfold resolve.
  destruct (match_settled _ Hoe "environment" _ _ (Additive b) He) as (de & -> & Hde).
  destruct (match_settled _ Hog "key group" _ _ (Additive b) Hg) as (dg & -> & Hdg).
  destruct (match_settled _ Hok "key" _ _ (Additive b) Hk) as (dk & -> & Hdk).
  cbn [mbind result_bind boundDBID deletes].
  rewrite (topology_settled _ Hoe _ _ He), (topology_settled _ Hog _ _ Hg). cbv beta iota zeta.
  rewrite diffKeys_settled.
  - cbn [mbind result_bind]. unfold noChange. destruct Hcov as [Ha|(Hce & Hcg & Hck)].
    + rewrite Hde, Hdg, Hdk by auto. done.
    + rewrite Hde, Hdg by auto. rewrite Hdk; [done|]. right. intros e Hin. apply in_map_iff in Hin as (c & <- & Hin). by apply Hck.
  - intros k id (i & Hi & Hj)%zip_In. destruct (Hkeys i k id Hi Hj) as [Hv Hc]. split_and!; [done| |done].
    destruct (st_entry _ _ _ Hk i (MkEntity (k_ID k) (k_Name k)) id) as [Hin _]; [|done|apply (eo_nonempty _ Hok _ Hin)].
    unfold bundleKeyEntities. change (map ?f ?l) with (f <$> l). rewrite list_lookup_fmap, Hi. done.
Qed.

(** *** By name

    Names are unique on both sides, so an entry stands for the current identity
    of its name. *)
Record named (bundle current : list entity) : Prop := {
  nm_unique : NoDup (map en_name bundle);
  nm_entry : forall e, In e bundle -> exists c, In c current /\ en_name c = en_name e /\ (en_id e = "" \/ en_id e = en_id c) }.

Definition idsByName (current bundle : list entity) : list string := map (fun e => default "" (byName current !! en_name e)) bundle.

Definition covers (bundle current : list entity) : Prop := forall c, In c current -> exists e, In e bundle /\ en_name e = en_name c.

Lemma map_lookup_Some {A B} (f : A -> B) l i y : map f l !! i = Some y <-> exists x, l !! i = Some x /\ y = f x.
Proof. change (map f l) with (f <$> l). rewrite list_lookup_fmap. destruct (l !! i); cbn; naive_solver. Qed.

Lemma byName_entity current e c : entities_ok current -> In c current -> en_name c = en_name e -> byName current !! en_name e = Some (en_id c).
Proof. intros Hc Hin <-. apply byName_Some; [apply Hc|done]. Qed.

Lemma named_settled bundle current : entities_ok current -> named bundle current -> settled bundle current (idsByName current bundle).
Proof.
  intros Hc [Hn He]. split; [by unfold idsByName; rewrite length_map| |done].
  intros i e id Hi (e' & Hi' & ->)%map_lookup_Some. rewrite Hi in Hi'. injection Hi' as <-.
  destruct (He e) as (c & Hin & Hname & Hid); [by eapply list_elem_of_In, list_elem_of_lookup_2|].
  rewrite (byName_entity current e c Hc Hin Hname). cbn [default]. rewrite <- Hname. split; [by destruct c|done].
Qed.

Lemma named_covers bundle current : entities_ok current -> named bundle current -> covers bundle current ->
  forall c, In c current -> In (en_id c) (idsByName current bundle).
Proof.
  intros Hc Hn Hcov c Hin. destruct (Hcov c Hin) as (e & He & Hname). apply in_map_iff. exists e. split; [|done].
  by rewrite (byName_entity current e c Hc Hin).
Qed.

Lemma named_identities bundle current name : entities_ok current -> named bundle current -> In name (map en_name bundle) ->
  identities bundle (idsByName current bundle) !! name = byName current !! name.
Proof.
  intros Hc [Hn He] Hin. apply in_map_iff in Hin as (e & <- & Hin). destruct (He e Hin) as (c & Hcin & Hname & _).
  rewrite (byName_entity current e c Hc Hcin Hname).
  apply list_elem_of_In, list_elem_of_lookup in Hin as [i Hi].
  apply (identities_bound _ _ i e); [done|by unfold idsByName; rewrite length_map|done| |].
  - apply map_lookup_Some. exists e. split; [done|]. by rewrite (byName_entity current e c Hc Hcin Hname).
  - apply (eo_nonempty _ Hc _ Hcin).
Qed.

(** The bound key is unchanged whatever the identity maps, as long as they give
    each declared name its current identity. *)
Definition key_settled (b : Bundle) (cur : CurrentState) (k : Key) (c : CurrentKey) : Prop := forall E G : gmap string string,
  (forall n, In n (map en_name (b_Environments b)) -> E !! n = byName (cs_Environments cur) !! n) ->
  (forall n, In n (map en_name (b_KeyGroups b)) -> G !! n = byName (cs_KeyGroups cur) !! n) ->
  changed (diffKey c k E G) = false.

Record realized (b : Bundle) (cur : CurrentState) : Prop := {
  rz_envs : named (b_Environments b) (cs_Environments cur);
  rz_groups : named (b_KeyGroups b) (cs_KeyGroups cur);
  rz_keys : named (bundleKeyEntities (b_Keys b)) (currentKeyEntities (cs_Keys cur));
  rz_cover : Additive b = true \/
    (covers (b_Environments b) (cs_Environments cur) /\ covers (b_KeyGroups b) (cs_KeyGroups cur) /\
     covers (bundleKeyEntities (b_Keys b)) (currentKeyEntities (cs_Keys cur)));
  rz_refs : forall k, In k (b_Keys b) -> validateKeyReferences k (map en_name (b_Environments b)) (map en_name (b_KeyGroups b)) = Ok ();
  rz_key : forall k c, In k (b_Keys b) -> In c (cs_Keys cur) -> ck_Name c = k_Name k -> key_settled b cur k c }.

Lemma resolve_realized b cur strict : state_ok cur -> realized b cur -> resolve b cur strict = Ok (noChange (Additive b)).
Proof.
  intros Hs [He Hg Hk Hcov Hrefs Hkey]. destruct Hs as [Hoe Hog Hok].
  apply (resolve_settled b cur strict _ _ _ (Build_state_ok cur Hoe Hog Hok)
           (named_settled _ _ Hoe He) (named_settled _ _ Hog Hg) (named_settled _ _ Hok Hk)).
  - destruct Hcov as [?|(Hce & Hcg & Hck)]; [by left|]. right. split_and!; try by apply named_covers.
    intros c Hin. change (ck_ID c) with (en_id (MkEntity (ck_ID c) (ck_Name c))). apply named_covers; [done..|]. by apply (in_map (fun k => MkEntity (ck_ID k) (ck_Name k))).
  - intros i k id Hi (e & Hj & ->)%map_lookup_Some. apply map_lookup_Some in Hj as (k' & Hi' & ->). rewrite Hi in Hi'. injection Hi' as <-.
    assert (In k (b_Keys b)) as Hin by (by eapply list_elem_of_In, list_elem_of_lookup_2). split; [by apply Hrefs|].
    destruct (nm_entry _ _ Hk (MkEntity (k_ID k) (k_Name k))) as (e' & Hin' & Hname & _); [by apply (in_map (fun k => MkEntity (k_ID k) (k_Name k)))|].
    apply in_map_iff in Hin' as (c & <- & Hc). cbn [en_name] in Hname |- *. exists c. split.
    + assert (byName (currentKeyEntities (cs_Keys cur)) !! k_Name k = Some (ck_ID c)) as ->.
      { rewrite <- Hname. apply (byName_Some _ (MkEntity (ck_ID c) (ck_Name c))); [apply Hok|]. by apply (in_map (fun k => MkEntity (ck_ID k) (ck_Name k))). }
      apply curKeyByID_In; [apply Hok|done].
    + apply Hkey; [done..| |]; intros n Hn; by apply named_identities.
Qed.
End Resolve.
