(* ===== verification/DefinitionsExport.v ===== *)
(** * Exporting a project's definitions

    What normalization does to a bundle, and the round trip of the export: the
    exported document, with its ids or as a portable template, is equal to the
    state it came from. *)

From S2P Require Import Prelude Domain Schema Definitions DefinitionsSpec.

#[local] Open Scope Z_scope.

(** ** Normalization *)
Section Normalize.
Context `{DeclarationCodec}.

(** A rule and its normal form. *)
Record normalized (p p' : Presence) : Prop := {
  np_mode : p_Mode p' = p_Mode p;
  np_perm : Permutation (p_Environments p') (p_Environments p);
  np_unique : NoDup (p_Environments p');
  np_explicit : p_Mode p' <> PresenceExplicit -> p_Environments p' = [] }.

Lemma is_nil_spec {A} (l : list A) : is_nil l = true <-> l = [].
Proof. by destruct l. Qed.

Lemma normalizePresence_Ok p p' : normalizePresence p = Ok p' -> normalized p p'.
Proof.
  unfold normalizePresence. pose proof (isort_perm String.leb (p_Environments p)) as Hp. fold sortStrings in Hp.
  destruct (_ || _) eqn:Hm.
  - destruct (is_nil _) eqn:Hn; [|done]. apply is_nil_spec in Hn. intros [= <-]. rewrite Hn in Hp. split; cbn [p_Mode p_Environments]; [done..|constructor|done].
  - destruct (String.eqb_spec (p_Mode p) PresenceExplicit) as [He|]; [|done]. destruct (is_nil _) eqn:Hn; [done|].
    destruct (existsb _ _); [done|]. destruct (dup_free _ _) eqn:Hd; [|done]. cbn [negb]. intros [= <-].
    apply dup_free_spec in Hd as [Hd _]. split; cbn [p_Mode p_Environments]; [done..|]. intros Hne. by rewrite He in Hne.
Qed.

(** A key and its compiled form. *)
Record compiled (k k' : Key) : Prop := {
  cp_id : k_ID k' = k_ID k; cp_name : k_Name k' = k_Name k; cp_folder : k_FolderPath k' = k_FolderPath k;
  cp_class : k_Classification k' = k_Classification k; cp_desc : k_Description k' = k_Description k;
  cp_depr : k_Deprecated k' = k_Deprecated k; cp_note : k_DeprecationNote k' = k_DeprecationNote k; cp_group : k_Group k' = k_Group k;
  cp_valid : Classification_Valid (k_Classification k') = true;
  cp_decl : CompileClassified (k_Classification k) (k_Declaration k) = Ok (k_Declaration k');
  cp_required : normalized (k_RequiredIn k) (k_RequiredIn k');
  cp_forbidden : normalized (k_ForbiddenIn k) (k_ForbiddenIn k') }.

Lemma compileKey_Ok k k' : compileKey k = Ok k' -> compiled k k'.
Proof.
  unfold compileKey. destruct (Classification_Valid _) eqn:Hv; [|done]. cbn [negb].
  destruct (CompileClassified _ _) as [d| |] eqn:Hd; [|done..].
  intros (req & Hreq & (forb & Hforb & [= <-])%bind_Ok)%bind_Ok.
  apply normalizePresence_Ok in Hreq, Hforb. by split.
Qed.

Lemma compileKeys_Ok keys keys' : compileKeys keys = Ok keys' -> Forall2 compiled keys keys'.
Proof.
  revert keys'. induction keys as [|k keys IH]; intros keys'; cbn [compileKeys]; [intros [= <-]; constructor|].
  intros (k' & Hk & (rest & Hr & [= <-])%bind_Ok)%bind_Ok. constructor; [by apply compileKey_Ok|by apply IH].
Qed.

(** A canonical bundle is a permutation of its source, key by key compiled. *)
Record canonical (b b' : Bundle) : Prop := {
  cn_base : b_BaseRevision b' = b_BaseRevision b;
  cn_envs : Permutation (b_Environments b') (b_Environments b);
  cn_groups : Permutation (b_KeyGroups b') (b_KeyGroups b);
  cn_keys : exists keys, Permutation keys (b_Keys b) /\ Forall2 compiled keys (b_Keys b') }.

Lemma Canonicalize_Ok size b b' : Canonicalize size b = Ok b' -> canonical b b'.
Proof.
  intros (_ & _ & Hc)%bind_Ok. unfold compileCanonical in Hc. apply bind_Ok in Hc as (keys & Hk & Hc).
  destruct (_ <? _); [done|]. injection Hc as <-. apply compileKeys_Ok in Hk.
  split; cbn [b_BaseRevision b_Environments b_KeyGroups b_Keys]; [done|apply isort_perm..|]. exists (sortBy k_Name (b_Keys b)). split; [apply isort_perm|done].
Qed.

Lemma canonical_key b b' k' : canonical b b' -> In k' (b_Keys b') -> exists k, In k (b_Keys b) /\ compiled k k'.
Proof.
  intros [_ _ _ (keys & Hp & Hf)] Hin. apply (Forall2_In _ _ _ Hf) in Hin as (k & Hk & Hc). exists k. split; [|done].
  by eapply Permutation_in.
Qed.

Lemma canonical_key_entities b b' : canonical b b' -> Permutation (bundleKeyEntities (b_Keys b')) (bundleKeyEntities (b_Keys b)).
Proof.
  intros [_ _ _ (keys & Hp & Hf)]. unfold bundleKeyEntities. rewrite <- (Permutation_map _ Hp). clear Hp.
  induction Hf as [|k k' l l' Hc Hf IH]; [done|]. cbn [map]. rewrite (cp_id _ _ Hc), (cp_name _ _ Hc). by constructor.
Qed.
End Normalize.

(** ** The round trip *)
Section Exported.
Context `{DeclarationCodec}.

(** What the tables guarantee of a state with its references: a key's group and
    the environments of its rules exist, and a rule lists each once. *)
Record exportable (cur : CurrentState) : Prop := {
  ex_state : state_ok cur;
  ex_group_name : forall g, In g (cs_KeyGroups cur) -> en_name g <> "";
  ex_group : forall c, In c (cs_Keys cur) -> ck_GroupID c = "" \/ exists name, In (MkEntity (ck_GroupID c) name) (cs_KeyGroups cur);
  ex_env : forall c id, In c (cs_Keys cur) -> In id (p_Environments (ck_Required c) ++ p_Environments (ck_Forbidden c)) ->
    exists name, In (MkEntity id name) (cs_Environments cur) }.

Lemma presence_unchanged before desired (E : gmap string string) :
  p_Mode before = p_Mode desired -> length (p_Environments before) = length (p_Environments desired) ->
  (forall name, In name (p_Environments desired) -> exists id, In id (p_Environments before) /\ E !! name = Some id) ->
  presenceChanged before desired E = false.
Proof.
  intros Hm Hl Hin. unfold presenceChanged. rewrite Hm, String.eqb_refl. cbn [negb].
  destruct (p_Mode desired =s PresenceExplicit); [cbn [negb]|done]. rewrite Hl, Nat.eqb_refl. cbn [negb].
  apply negb_false_iff, forallb_forall. intros name Hn. destruct (Hin name Hn) as (id & Hid & ->). by apply contains_In.
Qed.

Lemma compiled_unchanged c d n : CompileClassified c d = Ok n -> ValueDependentChange d n = false.
Proof. intros (s & _ & Hd & Hn & _)%codec_stored. unfold ValueDependentChange. by rewrite Hd, Hn, String.eqb_refl. Qed.

Section State.
Context (cur : CurrentState) (Hx : exportable cur) (withIDs : bool).

Let stamp (id : string) := if withIDs then id else "".
Let source := bundleFromState cur withIDs.

Lemma stamped_named (l bundle : list entity) : entities_ok l -> Permutation bundle (map (fun e => MkEntity (stamp (en_id e)) (en_name e)) l) -> named bundle l /\ covers bundle l.
Proof.
  intros Hl Hp. split; [split|].
  - rewrite (Permutation_map en_name Hp), map_map. apply Hl.
  - intros e Hin. apply (Permutation_in _ Hp), in_map_iff in Hin as (c & <- & Hc). exists c. cbn. split_and!; [done..|].
    unfold stamp. destruct withIDs; auto.
  - intros c Hc. exists (MkEntity (stamp (en_id c)) (en_name c)). split; [|done]. apply (Permutation_in _ (Permutation_sym Hp)).
    by apply (in_map (fun e => MkEntity (stamp (en_id e)) (en_name e))).
Qed.

Lemma source_key_entities : bundleKeyEntities (b_Keys source) = map (fun e => MkEntity (stamp (en_id e)) (en_name e)) (currentKeyEntities (cs_Keys cur)).
Proof. unfold bundleKeyEntities, currentKeyEntities. cbn [source bundleFromState b_Keys]. rewrite !map_map. done. Qed.

Lemma exported_group c : In c (cs_Keys cur) ->
  (ck_GroupID c = "" /\ nameFor (cs_KeyGroups cur) (ck_GroupID c) = "") \/
  (nameFor (cs_KeyGroups cur) (ck_GroupID c) <> "" /\ In (MkEntity (ck_GroupID c) (nameFor (cs_KeyGroups cur) (ck_GroupID c))) (cs_KeyGroups cur)).
Proof.
  intros Hin. pose proof (so_groups _ (ex_state _ Hx)) as Hg. destruct (ex_group _ Hx c Hin) as [He|[name Hn]].
  - left. split; [done|]. rewrite He. unfold nameFor. destruct (List.filter _ _) as [|e es] eqn:Hf; [done|]. exfalso.
    assert (In e (e :: es)) as Hi by (by left). rewrite <- Hf in Hi. apply filter_In in Hi as [Hi Hid]. apply String.eqb_eq in Hid.
    by apply (eo_nonempty _ Hg e Hi).
  - right. rewrite (nameFor_In _ Hg _ _ Hn). split; [|done]. by apply (ex_group_name _ Hx _ Hn).
Qed.

(** The environments a rule names are the ones it listed. *)
Lemma exported_presence p p' c : In c (cs_Keys cur) -> (p = ck_Required c \/ p = ck_Forbidden c) -> normalized (bundlePresence p (cs_Environments cur)) p' ->
  (forall name, In name (p_Environments p') -> exists id, In id (p_Environments p) /\ In (MkEntity id name) (cs_Environments cur)) /\
  p_Mode p = p_Mode p' /\ length (p_Environments p) = length (p_Environments p').
Proof.
  intros Hc Hp [Hm Hperm _ _]. split_and!; [|by rewrite Hm|by rewrite (Permutation_length Hperm); cbn; rewrite length_map].
  intros name Hin. apply (Permutation_in _ Hperm), in_map_iff in Hin as (id & <- & Hid). exists id. split; [done|].
  destruct (ex_env _ Hx c id Hc) as [n Hn]; [apply in_or_app; destruct Hp as [->| ->]; auto|].
  by rewrite (nameFor_In _ (so_envs _ (ex_state _ Hx)) _ _ Hn).
Qed.

Lemma names_of_canonical b : canonical source b ->
  (forall n, In n (map en_name (b_Environments b)) <-> In n (map en_name (cs_Environments cur))) /\
  (forall n, In n (map en_name (b_KeyGroups b)) <-> In n (map en_name (cs_KeyGroups cur))).
Proof.
  intros [_ He Hg _]. split; intros n.
  - rewrite (Permutation_map en_name He). cbn [source bundleFromState b_Environments]. by rewrite map_map.
  - rewrite (Permutation_map en_name Hg). cbn [source bundleFromState b_KeyGroups]. by rewrite map_map.
Qed.

(** The compiled export of a key. *)
Definition exports (c : CurrentKey) (k : Key) : Prop :=
  compiled (MkKey (stamp (ck_ID c)) (ck_Name c) (ck_FolderPath c) (ck_Classification c) (ck_Description c)
                     (ck_Deprecated c) (ck_DeprecationNote c) (nameFor (cs_KeyGroups cur) (ck_GroupID c)) (ck_Declaration c)
                     (bundlePresence (ck_Required c) (cs_Environments cur)) (bundlePresence (ck_Forbidden c) (cs_Environments cur))) k.

Lemma export_presence_unchanged b c p p' (E : gmap string string) : canonical source b -> In c (cs_Keys cur) -> (p = ck_Required c \/ p = ck_Forbidden c) ->
  normalized (bundlePresence p (cs_Environments cur)) p' ->
  (forall n, In n (map en_name (b_Environments b)) -> E !! n = byName (cs_Environments cur) !! n) ->
  presenceChanged p p' E = false.
Proof.
  intros Hb Hc Hp Hn HE. destruct (exported_presence p p' c Hc Hp Hn) as (Hin & Hm & Hl). apply presence_unchanged; [done..|].
  intros name Hname. destruct (Hin name Hname) as (id & Hid & He). exists id. split; [done|]. rewrite HE.
  - by apply (byName_Some _ (MkEntity id name)); [apply (so_envs _ (ex_state _ Hx))|].
  - apply (proj1 (names_of_canonical b Hb)). by apply (in_map en_name _ (MkEntity id name)).
Qed.

Lemma exported_key_settled b c k : canonical source b -> In c (cs_Keys cur) -> exports c k -> key_settled b cur k c.
Proof.
  intros Hb Hc Hk E G HE HG. unfold changed, diffKey. cbn [u_Renamed u_MetaChanged u_DeclChanged u_Reclassified u_GroupChanged u_PresenceChanged].
  rewrite (cp_name _ _ Hk), (cp_folder _ _ Hk), (cp_desc _ _ Hk), (cp_depr _ _ Hk), (cp_note _ _ Hk), (cp_class _ _ Hk), (cp_group _ _ Hk).
  cbn [k_Name k_FolderPath k_Description k_Deprecated k_DeprecationNote k_Classification k_Group].
  rewrite !String.eqb_refl, eqb_reflx. rewrite (compiled_unchanged _ _ _ (cp_decl _ _ Hk) : ValueDependentChange (ck_Declaration c) (k_Declaration k) = false).
  rewrite (export_presence_unchanged b c _ _ E Hb Hc (or_introl eq_refl) (cp_required _ _ Hk) HE).
  rewrite (export_presence_unchanged b c _ _ E Hb Hc (or_intror eq_refl) (cp_forbidden _ _ Hk) HE).
  cbn [negb orb]. apply orb_false_iff. split; [|done]. apply negb_false_iff, String.eqb_eq.
  destruct (exported_group c Hc) as [[Hid Hn]|[Hn Hin]]; [by rewrite Hn, Hid|].
  destruct (String.eqb_spec (nameFor (cs_KeyGroups cur) (ck_GroupID c)) ""); [done|]. rewrite HG.
  - pose proof (byName_Some _ _ (eo_names _ (so_groups _ (ex_state _ Hx))) Hin) as Hb'. cbn [en_name en_id] in Hb'. by rewrite Hb'.
  - apply (proj2 (names_of_canonical b Hb)). by apply (in_map en_name _ _ Hin).
Qed.

Lemma exported_key b k : canonical source b -> In k (b_Keys b) -> exists c, In c (cs_Keys cur) /\ exports c k.
Proof.
  intros Hb Hk. destruct (canonical_key _ _ _ Hb Hk) as (k0 & Hk0 & Hc). cbn [source bundleFromState b_Keys] in Hk0.
  apply in_map_iff in Hk0 as (c & <- & Hin). by exists c.
Qed.

Lemma exported_refs b k : canonical source b -> In k (b_Keys b) ->
  validateKeyReferences k (map en_name (b_Environments b)) (map en_name (b_KeyGroups b)) = Ok ().
Proof.
  intros Hb Hk. destruct (exported_key b k Hb Hk) as (c & Hc & He). destruct (names_of_canonical b Hb) as [HE HG].
  assert (forall p p', (p = ck_Required c \/ p = ck_Forbidden c) -> normalized (bundlePresence p (cs_Environments cur)) p' ->
    forallb (contains (map en_name (b_Environments b))) (p_Environments p') = true) as Hp.
  { intros p p' Hpp Hn. apply forallb_forall. intros name Hin. destruct (exported_presence p p' c Hc Hpp Hn) as (Hx' & _).
    destruct (Hx' name Hin) as (id & _ & Hi). apply contains_In, HE. by apply (in_map en_name _ _ Hi). }
  unfold validateKeyReferences. rewrite (Hp _ _ (or_introl eq_refl) (cp_required _ _ He)), (Hp _ _ (or_intror eq_refl) (cp_forbidden _ _ He)).
  rewrite (cp_group _ _ He). cbn [k_Group andb].
  destruct (exported_group c Hc) as [[_ ->]|[Hn Hin]]; [done|].
  assert (contains (map en_name (b_KeyGroups b)) (nameFor (cs_KeyGroups cur) (ck_GroupID c)) = true) as ->
    by (apply contains_In, HG; by apply (in_map en_name _ _ Hin)).
  by rewrite andb_false_r.
Qed.

Lemma export_realized b : canonical source b -> realized b cur.
Proof.
  intros Hb. destruct (ex_state _ Hx) as [Hoe Hog Hok].
  destruct (stamped_named _ _ Hoe (cn_envs _ _ Hb)) as [Hne Hce]. destruct (stamped_named _ _ Hog (cn_groups _ _ Hb)) as [Hng Hcg].
  pose proof (canonical_key_entities _ _ Hb) as Hp. rewrite source_key_entities in Hp. destruct (stamped_named _ _ Hok Hp) as [Hnk Hck].
  split; [done..|by right|intros k Hk; by apply exported_refs|].
  intros k c Hk Hc Hname. destruct (exported_key b k Hb Hk) as (c0 & Hc0 & He).
  assert (c0 = c) as ->; [|by apply exported_key_settled].
  apply (NoDup_map_inj ck_Name (cs_Keys cur)); [|done..|].
  - pose proof (eo_names _ Hok) as Hn. unfold currentKeyEntities in Hn. by rewrite map_map in Hn.
  - rewrite Hname. symmetry. apply (cp_name _ _ He).
Qed.
End State.

(** The drift report of a document that is equal to the state. *)
Definition noDrift : Diff := MkDiff (MkKindDiff [] [] [] []) (MkKindDiff [] [] [] []) (MkKindDiff [] [] [] []) [].

(** C30. Exporting and checking round-trip: for a state that satisfies the
    catalogue's constraints, the exported document, normalized for the wire, is
    reported equal to that very state with an empty difference, whether it
    carries the server's ids and base revision or is a portable template; and a
    strict resolution of it, the one a plan makes, changes nothing. *)
Theorem export_is_equal cur withIDs size b : exportable cur -> Canonicalize size (bundleFromState cur withIDs) = Ok b ->
  Compare b cur = Ok (DriftEqual, noDrift) /\ Resolve b cur = Ok (noChange (negb withIDs)).
Proof.
  intros Hx Hc%Canonicalize_Ok. pose proof (export_realized cur Hx withIDs b Hc) as Hr.
  pose proof (cn_base _ _ Hc) as Hbase. cbn [bundleFromState b_BaseRevision] in Hbase.
  assert (Additive b = negb withIDs) as Ha by (unfold Additive; rewrite Hbase; by destruct withIDs).
  unfold Compare, Resolve. rewrite !(resolve_realized _ _ _ (ex_state _ Hx) Hr), Ha. cbn [mbind result_bind]. split; [|done].
  rewrite Hbase. destruct withIDs; [|done]. rewrite Z.ltb_irrefl, Z.eqb_refl. done.
Qed.
End Exported.
