(* ===== verification/DefinitionsStore.v ===== *)
(** * The tables behind a project's definitions

    [internal/store]: the environment, key-group, key and presence tables of one
    project with their UNIQUE, FOREIGN KEY and CHECK constraints, the tables that
    hang off an environment or a key, and the repository methods the definitions
    flow calls. Chain columns are left out: a store operation is bound to one
    project by its proof. *)

From S2P Require Import Prelude Domain EventNames Schema AuditEvent Definitions.

#[local] Open Scope Z_scope.

(** [store.ErrConflict] is [domain.ErrConflict]. *)
Definition ErrConflict : error := ESentinel "domain.ErrConflict".

Definition PresenceRuleRequired : string := "required".
Definition PresenceRuleForbidden : string := "forbidden".

(** ** Rows *)
Record Environment := MkEnv { e_Name : string; e_DisplayOrder : Z; e_Protected : bool }.

Record CatalogueKey := MkCatalogueKey {
  ca_Name : string; ca_FolderPath : string; ca_Classification : string; ca_Description : string;
  ca_Deprecated : bool; ca_DeprecationNote : string; ca_Declaration : string;
  ca_RequiredMode : string; ca_ForbiddenMode : string; ca_GroupID : string }.

Record KeyPresence := MkKeyPresence { kp_KeyID : string; kp_EnvironmentID : string; kp_Rule : string }.
#[export] Instance KeyPresence_eq_dec : EqDecision KeyPresence.
Proof. solve_decision. Defined.

Record AdapterPin := MkPin { ap_KeyID : string; ap_AdapterID : string; ap_TargetID : string }.
Record GrantLine := MkGrant { gl_ID : string; gl_Principal : string; gl_Capability : string; gl_Env : string; gl_Origins : list string }.

(** The preview a plan stores: the structural diff and the concrete deletions. *)
Record KeyDeletion := MkKeyDeletion { kd_Name : string; kd_LiveIn : list string }.
Record EnvDeletion := MkEnvDeletion { ed_Name : string; ed_Occurrences : Z }.
Record PlanDiff := MkPlanDiff {
  pd_Environments : KindDiff; pd_KeyGroups : KindDiff; pd_Keys : KindDiff;
  pd_KeyDeletions : list KeyDeletion; pd_EnvDeletions : list EnvDeletion; pd_RevealRequired : list string }.
Record protectedEnvironmentPin := MkProtectedPin { pp_ID : string; pp_Name : string }.

Section Store.
Context `{DeclarationCodec}.

(** A stored plan: the pinned canonical bundle, the pins, the rendered preview,
    and the stamp of its apply. *)
Record DefinitionsPlan := MkPlan {
  pl_ExpiresAt : Z; pl_Bundle : Bundle; pl_Digest : string; pl_BaseSchemaRevision : Z;
  pl_EnvRevisions : gmap string Z; pl_ProtectedEnvs : list protectedEnvironmentPin; pl_Diff : PlanDiff;
  pl_Additive : bool; pl_Applied : bool;
  pl_AppliedAt : Z; pl_AppliedBy : string; pl_Commit : string; pl_Ref : string; pl_Actor : string }.

Definition AuditEntry : Type := EventType * Object_ * Payload.

(** The project's rows, and what the service draws on: the identifiers
    [uuid.NewV7] will return, the events captured for the denial flush. *)
Record World := MkWorld {
  environments : gmap string Environment;
  key_groups : gmap string string;
  keys : gmap string CatalogueKey;
  key_presence : list KeyPresence;
  value_entries : list (string * string);          (* environment, key *)
  pending_changes : list (string * string);        (* environment, key *)
  scanning_dismissals : list string;               (* key *)
  snapshots : list (string * Z);                   (* environment, revision *)
  revision_pins : list string;                     (* environment *)
  other_env_refs : list string;                    (* environments adapter, dynamic-secret and configuration rows name *)
  adapter_pins : list AdapterPin;
  grants : list GrantLine;
  generations : gmap string Z;                     (* principal *)
  schema_revision : Z;
  plans : gmap string DefinitionsPlan;
  tenant_audit : list AuditEntry;
  uuids : list string;
  captured : list AuditEntry;
  definitions_source : string }.

Definition set_environments (x : gmap string Environment) (w : World) : World :=
  MkWorld x (key_groups w) (keys w) (key_presence w) (value_entries w) (pending_changes w) (scanning_dismissals w) (snapshots w) (revision_pins w)
    (other_env_refs w) (adapter_pins w) (grants w) (generations w) (schema_revision w) (plans w) (tenant_audit w) (uuids w) (captured w) (definitions_source w).
Definition set_key_groups (x : gmap string string) (w : World) : World :=
  MkWorld (environments w) x (keys w) (key_presence w) (value_entries w) (pending_changes w) (scanning_dismissals w) (snapshots w) (revision_pins w)
    (other_env_refs w) (adapter_pins w) (grants w) (generations w) (schema_revision w) (plans w) (tenant_audit w) (uuids w) (captured w) (definitions_source w).
Definition set_keys (x : gmap string CatalogueKey) (w : World) : World :=
  MkWorld (environments w) (key_groups w) x (key_presence w) (value_entries w) (pending_changes w) (scanning_dismissals w) (snapshots w) (revision_pins w)
    (other_env_refs w) (adapter_pins w) (grants w) (generations w) (schema_revision w) (plans w) (tenant_audit w) (uuids w) (captured w) (definitions_source w).
Definition set_presence (x : list KeyPresence) (w : World) : World :=
  MkWorld (environments w) (key_groups w) (keys w) x (value_entries w) (pending_changes w) (scanning_dismissals w) (snapshots w) (revision_pins w)
    (other_env_refs w) (adapter_pins w) (grants w) (generations w) (schema_revision w) (plans w) (tenant_audit w) (uuids w) (captured w) (definitions_source w).
(** The dependent tables and the ledgers, together. *)
Definition set_dependents (values pending : list (string * string)) (dismissals : list string) (snaps : list (string * Z)) (pins : list string)
    (gs : list GrantLine) (gens : gmap string Z) (w : World) : World :=
  MkWorld (environments w) (key_groups w) (keys w) (key_presence w) values pending dismissals snaps pins
    (other_env_refs w) (adapter_pins w) gs gens (schema_revision w) (plans w) (tenant_audit w) (uuids w) (captured w) (definitions_source w).
Definition set_ledger (revision : Z) (ps : gmap string DefinitionsPlan) (audit : list AuditEntry) (ids : list string) (cap : list AuditEntry) (w : World) : World :=
  MkWorld (environments w) (key_groups w) (keys w) (key_presence w) (value_entries w) (pending_changes w) (scanning_dismissals w) (snapshots w) (revision_pins w)
    (other_env_refs w) (adapter_pins w) (grants w) (generations w) revision ps audit ids cap (definitions_source w).

Definition set_source (source : string) (w : World) : World :=
  MkWorld (environments w) (key_groups w) (keys w) (key_presence w) (value_entries w) (pending_changes w) (scanning_dismissals w) (snapshots w) (revision_pins w)
    (other_env_refs w) (adapter_pins w) (grants w) (generations w) (schema_revision w) (plans w) (tenant_audit w) (uuids w) (captured w) source.

(** [constraint] and [affected]: a violated constraint is a conflict, an update
    of no row is not found. *)
Definition conflict {A} : ST World A := st_err ErrConflict.
Definition notFound {A} : ST World A := st_err ErrNotFound.

(** Another row has the name already. *)
Definition nameTaken {A} (nameOf : A -> string) (id name : string) (m : gmap string A) : bool :=
  existsb (fun kv => negb (kv.1 =s id) && (nameOf kv.2 =s name)) (map_to_list m).

(** ** [EnvironmentRepo] *)
Definition NextOrder : ST World Z := fun w =>
  (Ok (foldr Z.max 0 (map (fun kv => e_DisplayOrder kv.2 + 1) (map_to_list (environments w)))), w).

Definition Environments_Create (id name : string) (order : Z) : ST World () := fun w =>
  match environments w !! id with
  | Some _ => conflict w
  | None => if nameTaken e_Name id name (environments w) || (order <? 0) then conflict w
            else (Ok (), set_environments (<[ id := MkEnv name order false ]> (environments w)) w)
  end.

Definition Environments_Rename (id name : string) : ST World () := fun w =>
  match environments w !! id with
  | None => notFound w
  | Some e => if nameTaken e_Name id name (environments w) then conflict w
              else (Ok (), set_environments (<[ id := MkEnv name (e_DisplayOrder e) (e_Protected e) ]> (environments w)) w)
  end.

(** Rows of every table that references environments. *)
Definition envReferenced (id : string) (w : World) : bool :=
  existsb (fun p => kp_EnvironmentID p =s id) (key_presence w) || existsb (fun v => v.1 =s id) (value_entries w) ||
  existsb (fun v => v.1 =s id) (pending_changes w) || existsb (fun s => s.1 =s id) (snapshots w) ||
  contains (revision_pins w) id || contains (other_env_refs w) id || existsb (fun g => gl_Env g =s id) (grants w).

Definition Environments_Delete (id : string) : ST World () := fun w =>
  match environments w !! id with
  | None => notFound w
  | Some _ => if envReferenced id w then conflict w else (Ok (), set_environments (delete id (environments w)) w)
  end.

(** ORDER BY display_order, name. *)
Definition envLe (a b : string * Environment) : bool :=
  (e_DisplayOrder a.2 <? e_DisplayOrder b.2) || ((e_DisplayOrder a.2 =? e_DisplayOrder b.2) && String.leb (e_Name a.2) (e_Name b.2)).
Definition Environments_List (w : World) : list (string * Environment) := isort envLe (map_to_list (environments w)).

(** Identity and protection, in no particular order. *)
Definition ListProtection (w : World) : list (string * bool) := map (fun kv => (kv.1, e_Protected kv.2)) (map_to_list (environments w)).

(** ** [CatalogueRepo]: groups *)
Definition CreateGroup (id name : string) : ST World () := fun w =>
  match key_groups w !! id with
  | Some _ => conflict w
  | None => if nameTaken (fun n => n) id name (key_groups w) then conflict w
            else (Ok (), set_key_groups (<[ id := name ]> (key_groups w)) w)
  end.

Definition RenameGroup (id name : string) : ST World () := fun w =>
  match key_groups w !! id with
  | None => notFound w
  | Some _ => if nameTaken (fun n => n) id name (key_groups w) then conflict w
              else (Ok (), set_key_groups (<[ id := name ]> (key_groups w)) w)
  end.

Definition clearGroup (id : string) (row : CatalogueKey) : CatalogueKey :=
  if negb (id =s "") && (ca_GroupID row =s id) then
    MkCatalogueKey (ca_Name row) (ca_FolderPath row) (ca_Classification row) (ca_Description row) (ca_Deprecated row) (ca_DeprecationNote row)
      (ca_Declaration row) (ca_RequiredMode row) (ca_ForbiddenMode row) ""
  else row.
Definition ClearGroupMembers (id : string) : ST World () := fun w => (Ok (), set_keys (clearGroup id <$> keys w) w).

Definition DeleteGroup (id : string) : ST World () := fun w =>
  match key_groups w !! id with
  | None => notFound w
  | Some _ => if existsb (fun kv => ca_GroupID kv.2 =s id) (map_to_list (keys w)) then conflict w
              else (Ok (), set_key_groups (delete id (key_groups w)) w)
  end.

Definition ListGroups (w : World) : list (string * string) := isort (fun a b => String.leb a.2 b.2) (map_to_list (key_groups w)).

(** ** [CatalogueRepo]: keys *)
Definition validMode (m : string) : bool := contains [PresenceAll; PresenceNone; PresenceExplicit] m.
Definition groupExists (id : string) (w : World) : bool := (id =s "") || bool_decide (is_Some (key_groups w !! id)).

Definition Catalogue_Get (id : string) : ST World CatalogueKey := fun w =>
  match keys w !! id with Some row => (Ok row, w) | None => notFound w end.

Definition Catalogue_Create (id : string) (row : CatalogueKey) : ST World () := fun w =>
  match keys w !! id with
  | Some _ => conflict w
  | None => if nameTaken ca_Name id (ca_Name row) (keys w) || negb (Classification_Valid (ca_Classification row)) ||
               negb (validMode (ca_RequiredMode row)) || negb (validMode (ca_ForbiddenMode row)) || negb (groupExists (ca_GroupID row) w)
            then conflict w else (Ok (), set_keys (<[ id := row ]> (keys w)) w)
  end.

(** An UPDATE of one key under the row's constraints. *)
Definition updateKeyRow (id : string) (bad : World -> bool) (f : CatalogueKey -> CatalogueKey) : ST World () := fun w =>
  match keys w !! id with
  | None => notFound w
  | Some row => if bad w then conflict w else (Ok (), set_keys (<[ id := f row ]> (keys w)) w)
  end.

Definition withName (name : string) (r : CatalogueKey) : CatalogueKey :=
  MkCatalogueKey name (ca_FolderPath r) (ca_Classification r) (ca_Description r) (ca_Deprecated r) (ca_DeprecationNote r)
    (ca_Declaration r) (ca_RequiredMode r) (ca_ForbiddenMode r) (ca_GroupID r).
Definition withMetadata (folder desc : string) (depr : bool) (note : string) (r : CatalogueKey) : CatalogueKey :=
  MkCatalogueKey (ca_Name r) folder (ca_Classification r) desc depr note
    (ca_Declaration r) (ca_RequiredMode r) (ca_ForbiddenMode r) (ca_GroupID r).
Definition withDeclaration (decl reqMode forbMode : string) (r : CatalogueKey) : CatalogueKey :=
  MkCatalogueKey (ca_Name r) (ca_FolderPath r) (ca_Classification r) (ca_Description r) (ca_Deprecated r) (ca_DeprecationNote r)
    decl reqMode forbMode (ca_GroupID r).
Definition withClassification (c : string) (r : CatalogueKey) : CatalogueKey :=
  MkCatalogueKey (ca_Name r) (ca_FolderPath r) c (ca_Description r) (ca_Deprecated r) (ca_DeprecationNote r)
    (ca_Declaration r) (ca_RequiredMode r) (ca_ForbiddenMode r) (ca_GroupID r).
Definition withGroup (g : string) (r : CatalogueKey) : CatalogueKey :=
  MkCatalogueKey (ca_Name r) (ca_FolderPath r) (ca_Classification r) (ca_Description r) (ca_Deprecated r) (ca_DeprecationNote r)
    (ca_Declaration r) (ca_RequiredMode r) (ca_ForbiddenMode r) g.

Definition Catalogue_Rename (id name : string) : ST World () :=
  updateKeyRow id (fun w => nameTaken ca_Name id name (keys w)) (withName name).
Definition UpdateMetadata (id folder desc : string) (depr : bool) (note : string) : ST World () :=
  updateKeyRow id (fun _ => false) (withMetadata folder desc depr note).
Definition UpdateDeclaration (id decl reqMode forbMode : string) : ST World () :=
  updateKeyRow id (fun _ => negb (validMode reqMode) || negb (validMode forbMode)) (withDeclaration decl reqMode forbMode).
Definition SetClassification (id c : string) : ST World () := updateKeyRow id (fun _ => negb (Classification_Valid c)) (withClassification c).
Definition SetGroup (id g : string) : ST World () := updateKeyRow id (fun w => negb (groupExists g w)) (withGroup g).

(** A key is referenced by presence rows, values, pending changes and dismissals;
    adapter rows cascade. *)
Definition keyReferenced (id : string) (w : World) : bool :=
  existsb (fun p => kp_KeyID p =s id) (key_presence w) || existsb (fun v => v.2 =s id) (value_entries w) ||
  existsb (fun v => v.2 =s id) (pending_changes w) || contains (scanning_dismissals w) id.

Definition Catalogue_Delete (id : string) : ST World () := fun w =>
  match keys w !! id with
  | None => notFound w
  | Some _ => if keyReferenced id w then conflict w else (Ok (), set_keys (delete id (keys w)) w)
  end.

Definition Catalogue_List (w : World) : list (string * CatalogueKey) := isort (fun a b => String.leb (ca_Name a.2) (ca_Name b.2)) (map_to_list (keys w)).
Definition AdapterPins (id : string) (w : World) : list AdapterPin := List.filter (fun p => ap_KeyID p =s id) (adapter_pins w).

(** ** [CatalogueRepo]: presence *)
Definition presenceLe (a b : KeyPresence) : bool :=
  let lt x y := match String.compare x y with Lt => true | _ => false end in
  lt (kp_KeyID a) (kp_KeyID b) ||
  ((kp_KeyID a =s kp_KeyID b) && (lt (kp_Rule a) (kp_Rule b) || ((kp_Rule a =s kp_Rule b) && String.leb (kp_EnvironmentID a) (kp_EnvironmentID b)))).
Definition ListPresence (w : World) : list KeyPresence := isort presenceLe (key_presence w).

Definition InsertKeyPresence (row : KeyPresence) : ST World () := fun w =>
  if bool_decide (row ∈ key_presence w) || negb (bool_decide (is_Some (keys w !! kp_KeyID row))) ||
     negb (bool_decide (is_Some (environments w !! kp_EnvironmentID row))) || negb (contains [PresenceRuleRequired; PresenceRuleForbidden] (kp_Rule row))
  then conflict w else (Ok (), set_presence (key_presence w ++ [row]) w).

Fixpoint insertPresenceRows (rows : list KeyPresence) : ST World () :=
  match rows with
  | [] => mret ()
  | row :: rest => InsertKeyPresence row ;; insertPresenceRows rest
  end.

Definition ReplacePresence (keyID : string) (rows : list KeyPresence) : ST World () :=
  st_modify (fun w => set_presence (List.filter (fun p => negb (kp_KeyID p =s keyID)) (key_presence w)) w) ;;
  insertPresenceRows (map (fun row => MkKeyPresence keyID (kp_EnvironmentID row) (kp_Rule row)) rows).

Definition DeletePresenceForEnvironment (env : string) : ST World () :=
  st_modify (fun w => set_presence (List.filter (fun p => negb (kp_EnvironmentID p =s env)) (key_presence w)) w).

Definition BumpSchemaRevision : ST World () :=
  st_modify (fun w => set_ledger (schema_revision w + 1) (plans w) (tenant_audit w) (uuids w) (captured w) w).

(** ** The dependent tables *)
Definition CountEnvironmentValues (env : string) (w : World) : Z := Z.of_nat (length (List.filter (fun v => v.1 =s env) (value_entries w))).

Definition ClearKey (id : string) : ST World () := st_modify (fun w =>
  set_dependents (List.filter (fun v => negb (v.2 =s id)) (value_entries w)) (pending_changes w) (scanning_dismissals w) (snapshots w)
    (revision_pins w) (grants w) (generations w) w).
Definition DiscardKey (id : string) : ST World () := st_modify (fun w =>
  set_dependents (value_entries w) (List.filter (fun v => negb (v.2 =s id)) (pending_changes w)) (scanning_dismissals w) (snapshots w)
    (revision_pins w) (grants w) (generations w) w).
Definition DeleteByKey (id : string) : ST World () := st_modify (fun w =>
  set_dependents (value_entries w) (pending_changes w) (List.filter (fun k => negb (k =s id)) (scanning_dismissals w)) (snapshots w)
    (revision_pins w) (grants w) (generations w) w).
Definition DiscardEnvironment (env : string) : ST World () := st_modify (fun w =>
  set_dependents (value_entries w) (List.filter (fun v => negb (v.1 =s env)) (pending_changes w)) (scanning_dismissals w) (snapshots w)
    (revision_pins w) (grants w) (generations w) w).
Definition Snapshots_DeleteEnvironment (env : string) : ST World () := st_modify (fun w =>
  set_dependents (value_entries w) (pending_changes w) (scanning_dismissals w) (List.filter (fun s => negb (s.1 =s env)) (snapshots w))
    (revision_pins w) (grants w) (generations w) w).
Definition Pins_DeleteEnvironment (env : string) : ST World () := st_modify (fun w =>
  set_dependents (value_entries w) (pending_changes w) (scanning_dismissals w) (snapshots w)
    (List.filter (fun e => negb (e =s env)) (revision_pins w)) (grants w) (generations w) w).
(** The environments that hold a value for a key, and the project's source. *)
Definition EnvironmentsWithValue (key : string) (w : World) : list string :=
  map fst (List.filter (fun v => v.2 =s key) (value_entries w)).
Definition SetDefinitionsSource (source : string) : ST World () := st_modify (set_source source).
End Store.
