(* ===== verification/DefinitionsApply.v ===== *)
(** * Planning and applying definitions: [internal/service/definitions*.go]

    The service layer over the diff engine and the tables: reading the current
    state, the plan pins and their re-check, the deletion and reveal guards, and
    the executor that turns a resolution into store writes. The parts of the
    service it calls, the authorizer, the scanner's verdict, the publisher and
    the rate budget, are the fields of [ApplyContext]. *)

From stdpp Require Import pretty.
From Stdlib Require Import Ascii.
From S2P Require Import Prelude Domain EventNames OperationNames Utf8 GoStrings FreeText Dotenv Parameters Schema AuditEvent Definitions DefinitionsStore.

#[local] Open Scope Z_scope.

Definition PlanTTL : Z := 24 * 3600 * 1000000000.
Definition MaxOpenPlansPerProject : Z := 20.
Definition MaxProvenanceBytes : Z := 256.
Definition MaxEnvironmentsPerProject : Z := 50.
Definition MaxKeyGroupsPerProject : Z := 100.
Definition MaxKeysPerProject : Z := 1000.
Definition maxNameBytes : Z := 128.

Definition definitionInvalid (detail : string) : error := EWrap detail ErrInvalid.
Definition definitionLimit (detail : string) : error := EWrap detail ErrLimitExceeded.
Definition refused (detail : string) : error := EWrap detail ErrConflict.

Definition bytesOf (s : string) : bytes := String.list_ascii_of_string s.

(** ** Names and provenance labels *)

(** [unicode.IsControl]: C0, DEL and C1. *)
Definition unicodeControl (r : Z) : bool := (r <? 32) || ((127 <=? r) && (r <=? 159)).

Definition checkName (name : string) : result () :=
  let s := bytesOf name in
  if name =s "" then Err (definitionInvalid "must not be empty")
  else if maxNameBytes <? Z.of_nat (length s) then Err (definitionInvalid "exceeds its bytes")
  else if negb (ValidString s) then Err (definitionInvalid "is not valid UTF-8")
  else if negb (bool_decide (TrimSpace s = s)) then Err (definitionInvalid "has leading or trailing whitespace")
  else if existsb (fun p => unicodeControl p.1) (chunks 0 s) then Err (definitionInvalid "contains a control character")
  else Ok ().

(** [[A-Za-z0-9_\-]{32,}] somewhere in the text. *)
Definition bearerChar (c : ascii) : bool := base62 c || Ascii.eqb c (chr 95) || Ascii.eqb c (chr 45).
Fixpoint longestRun (run : nat) (s : bytes) : nat :=
  match s with
  | [] => run
  | c :: s' => if bearerChar c then longestRun (S run) s' else Nat.max run (longestRun 0 s')
  end.
Definition bearerShapedRe (s : bytes) : bool := (32 <=? longestRun 0 s)%nat.

Definition sanitizeProvenance (s : string) : result string :=
  if s =s "" then Ok ""
  else if MaxProvenanceBytes <? Z.of_nat (length (bytesOf s)) then Err (definitionInvalid "exceeds its bytes")
  else if existsb (fun p => isControl p.1) (chunks 0 (bytesOf s)) then Err (definitionInvalid "contains a control character")
  else if negb (RedactTokens s =s s) || bearerShapedRe (bytesOf s) then Err (definitionInvalid "looks like a credential; provenance is a label, not a secret")
  else Ok s.

Section Apply.
Context `{DeclarationCodec}.

(** What the handler is handed. *)
Record ApplyContext := MkApplyContext {
  ax_now : Z;
  ax_principal : string;
  ax_authorize : Operation -> string -> result ();      (* the operation, in an environment or, for the empty id, the project *)
  ax_gateAllows : string -> bool;                       (* the reveal-gate limiter, by key id *)
  ax_charge : result ();                                (* the schema-revision budget *)
  ax_scan : result (list AuditEntry);                   (* the scanner's verdict on the bundle: the events of acknowledged findings *)
  ax_digest : Bundle -> string;                         (* definitions.Digest *)
  ax_encodedSize : Bundle -> Z;                         (* the length of definitions.Encode *)
  ax_entry : Operation -> result ();                    (* chargeDefaultAtEntry *)
  ax_findings : Bundle -> result (list string);         (* scanBundleForCheck *)
  ax_fanOut : ST World () }.                            (* schemaPublisher.fanOut *)

(** ** Presence rules and rows *)
Definition presenceIDs (keyID mode rule : string) (rows : list KeyPresence) : list string :=
  if mode =s PresenceExplicit
  then map kp_EnvironmentID (List.filter (fun row => (kp_KeyID row =s keyID) && (kp_Rule row =s rule)) rows) else [].

Definition presenceOf (keyID requiredMode forbiddenMode : string) (rows : list KeyPresence) : PresenceRules :=
  MkPresenceRules (MkPresence requiredMode (presenceIDs keyID requiredMode PresenceRuleRequired rows))
                  (MkPresence forbiddenMode (presenceIDs keyID forbiddenMode PresenceRuleForbidden rows)).

Definition presenceRowsFor (keyID : string) (p : PresenceRules) : list KeyPresence :=
  (if p_Mode (Required p) =s PresenceExplicit then map (fun id => MkKeyPresence keyID id PresenceRuleRequired) (p_Environments (Required p)) else []) ++
  (if p_Mode (Forbidden p) =s PresenceExplicit then map (fun id => MkKeyPresence keyID id PresenceRuleForbidden) (p_Environments (Forbidden p)) else []).

Definition checkPresenceRules (p : PresenceRules) : result () :=
  match CheckPresence (Required p) (Forbidden p) with
  | Ok _ => Ok ()
  | Err e => Err (EWrap "presence" ErrInvalid)
  | Panic m => Panic m
  end.

(** ** The current state *)
Fixpoint currentKeys (rows : list (string * CatalogueKey)) (presence : list KeyPresence) : result (list CurrentKey) :=
  match rows with
  | [] => Ok []
  | (id, row) :: rest =>
      match ParseDeclaration (ca_Declaration row) with
      | Err e => Err (EWrap "stored declaration unreadable" e)
      | Panic m => Panic m
      | Ok d =>
          let rules := presenceOf id (ca_RequiredMode row) (ca_ForbiddenMode row) presence in
          ks ← currentKeys rest presence;
          Ok (MkCurrentKey id (ca_Name row) (ca_FolderPath row) (ca_Classification row) (ca_Description row) (ca_Deprecated row)
                (ca_DeprecationNote row) (ca_GroupID row) d (Required rules) (Forbidden rules) :: ks)
      end
  end.

Definition buildCurrentState (w : World) : result CurrentState :=
  ks ← currentKeys (Catalogue_List w) (ListPresence w);
  Ok (MkCurrent (schema_revision w) (map (fun kv => MkEntity kv.1 (e_Name kv.2)) (Environments_List w))
        (map (fun kv => MkEntity kv.1 kv.2) (ListGroups w)) ks).

(** ** The final set

    The names each kind ends up with, keyed by identity. *)
Definition finalNames (current : list entity) (deleted : list Ref) (renamed : list (string * string)) (created : list string) : gmap string string :=
  let m := foldl (fun m e => <[ en_id e := en_name e ]> m) (∅ : gmap string string) current in
  let m := foldl (fun m d => delete (rf_ID d) m) m deleted in
  let m := foldl (fun m r => <[ r.1 := r.2 ]> m) m renamed in
  foldl (fun m n => <[ "new:" +:+ n := n ]> m) m created.

Definition checkFinal (limit : Z) (check : string -> result ()) (m : gmap string string) : result () :=
  if limit <? Z.of_nat (size m) then Err (definitionLimit "final definitions hold too many entries")
  else if forallb (fun kv => match check kv.2 with Ok _ => true | _ => false end) (map_to_list m) then Ok ()
  else Err (definitionInvalid "final definitions hold an invalid name").

Definition renamePairs (l : list Rename) : list (string * string) := map (fun r => (rn_ID r, rn_To r)) l.

Definition validateFinalDefinitions (cur : CurrentState) (res : Resolution) : result () :=
  _ ← checkFinal MaxEnvironmentsPerProject checkName
        (finalNames (cs_Environments cur) (EnvDeletes res) (renamePairs (EnvRenames res)) (EnvCreates res));
  _ ← checkFinal MaxKeyGroupsPerProject (fun n => CheckGroupName (bytesOf n))
        (finalNames (cs_KeyGroups cur) (GroupDeletes res) (renamePairs (GroupRenames res)) (GroupCreates res));
  checkFinal MaxKeysPerProject (fun n => CheckKeyName (bytesOf n))
    (finalNames (currentKeyEntities (cs_Keys cur)) (KeyDeletes res)
       (map (fun u => (u_ID u, k_Name (u_Desired u))) (KeyUpdates res)) (map k_Name (KeyCreates res))).

(** ** Pins *)
Definition projectRevision (env : string) (w : World) : Z :=
  foldr Z.max 0 (map snd (List.filter (fun s => s.1 =s env) (snapshots w))).

Definition envRevisions (w : World) (cur : CurrentState) : gmap string Z :=
  foldl (fun m e => <[ en_id e := projectRevision (en_id e) w ]> m) ∅ (cs_Environments cur).

Definition sameRevisionKeys (a b : gmap string Z) : bool :=
  (size a =? size b)%nat && forallb (fun kv => bool_decide (is_Some (b !! kv.1))) (map_to_list a).

Definition changedRevision (a b : gmap string Z) : bool :=
  existsb (fun kv => negb (kv.2 =? default 0 (b !! kv.1))) (map_to_list a).

Definition protectedSetGrew (pinned current : list string) : bool := existsb (fun id => negb (contains pinned id)) current.

Definition protectedPins (prot : list (string * bool)) (cur : CurrentState) : list protectedEnvironmentPin :=
  sortBy pp_ID (map (fun kv => MkProtectedPin kv.1 (nameFor (cs_Environments cur) kv.1)) (List.filter snd prot)).
Definition protectedPinNames (pins : list protectedEnvironmentPin) : list string := sortStrings (map pp_Name pins).
Definition protectedPinIDs (pins : list protectedEnvironmentPin) : list string := sortStrings (map pp_ID pins).

Section Handler.
Context (X : ApplyContext).

(** [az.CaptureAudit]: the event survives the rollback. *)
Definition CaptureAudit (e : AuditEntry) : ST World () :=
  st_modify (fun w => set_ledger (schema_revision w) (plans w) (tenant_audit w) (uuids w) (captured w ++ [e]) w).

Definition insertEvent (e : AuditEntry) : ST World () :=
  st_modify (fun w => set_ledger (schema_revision w) (plans w) (tenant_audit w ++ [e]) (uuids w) (captured w) w).

Definition insertDefinitionEvent (typ objType objID : string) (payload : Payload) : ST World () :=
  insertEvent (typ, MkObject objType objID, payload).

Definition text (s : string) : value := VString (SanitizeFreeText s).

Definition newID (prefix : string) : ST World string := fun w =>
  match uuids w with
  | [] => (Err (ENew ("service: generate " +:+ prefix +:+ " id")), w)
  | u :: rest => (Ok (prefix +:+ "_" +:+ u), set_ledger (schema_revision w) (plans w) (tenant_audit w) rest (captured w) w)
  end.

Definition moved (planID what : string) : ST World () :=
  CaptureAudit (EventDefinitionsApplyRejectedStale, MkObject "definitions-plan" planID, [("plan_id", VString planID); ("moved", VString what)]) ;;
  st_err (refused (what +:+ " moved since the plan")).

Definition recheckPins (planID : string) (plan : DefinitionsPlan) (cur : CurrentState) (optDigest : string) : ST World () :=
  w ← st_get;
  let d := ax_digest X (pl_Bundle plan) in
  let revs := envRevisions w cur in
  if negb (d =s pl_Digest plan) || (negb (optDigest =s "") && negb (optDigest =s pl_Digest plan)) then moved planID "bundle digest"
  else if negb (sameRevisionKeys revs (pl_EnvRevisions plan)) then moved planID "environment topology"
  else if negb (SchemaRevision cur =? pl_BaseSchemaRevision plan) then moved planID "definitions revision"
  else if changedRevision revs (pl_EnvRevisions plan) then moved planID "environment value revision"
  else if protectedSetGrew (protectedPinIDs (pl_ProtectedEnvs plan)) (protectedPinIDs (protectedPins (ListProtection w) cur)) then moved planID "the protected-environment set"
  else mret ().

(** ** Guards *)
Definition refuseDeletion (planID detail : string) : ST World () :=
  CaptureAudit (EventDefinitionsDeletionRefused, MkObject "definitions-plan" planID, [("plan_id", VString planID)]) ;;
  st_err (refused detail).

Fixpoint refuseLive (planID : string) (dels : list Ref) : ST World () :=
  match dels with
  | [] => mret ()
  | d :: rest => w ← st_get;
      if 0 <? CountEnvironmentValues (rf_ID d) w then refuseDeletion planID "environment holds live values and must be emptied before it can be deleted"
      else refuseLive planID rest
  end.

Definition guardDeletions (planID : string) (res : Resolution) (allowDelete : bool) : ST World () :=
  refuseLive planID (EnvDeletes res) ;;
  if DeletionsPresent res && negb allowDelete then refuseDeletion planID "plan deletes definitions; pass --allow-delete" else mret ().

Definition revealGate (op : Operation) (id : string) (key : CatalogueKey) (gate : string) : ST World () :=
  CaptureAudit (EventKeyRevealGateAttempt, MkObject "key" id, [("key_id", VString id); ("name", text (ca_Name key)); ("gate", VString gate)]) ;;
  match ax_authorize X op "" with
  | Err e => st_err e
  | Panic m => st_result (Panic m)
  | Ok _ => if ax_gateAllows X id then mret () else st_err (EWrap "too many reveal-gated changes" ErrLimitExceeded)
  end.

Definition refuseApplyDeclassification : error := EWrap "definitions apply cannot declassify a key from secret to config" ErrInvalid.

Fixpoint enforceReveal (upds : list KeyUpdate) : ST World () :=
  match upds with
  | [] => mret ()
  | u :: rest =>
      if negb (NeedsReveal u) then enforceReveal rest
      else
        key ← Catalogue_Get (u_ID u);
        let wasSecret := u_PrevClassification u =s Secret in
        (if wasSecret && u_DeclChanged u then revealGate OpKeySecretRuleChange (u_ID u) key "value-dependent-rule-change" else mret ()) ;;
        if wasSecret && (k_Classification (u_Desired u) =s Config) then st_err refuseApplyDeclassification
        else enforceReveal rest
  end.

Definition refuseAdapterPinnedKey (id : string) : ST World () :=
  w ← st_get; if is_nil (AdapterPins id w) then mret () else st_err (refused "key is pinned by an adapter target").

(** ** The executor *)

(** 1. Key deletes. *)
Fixpoint deleteKeys (dels : list Ref) : ST World () :=
  match dels with
  | [] => mret ()
  | d :: rest =>
      Catalogue_Get (rf_ID d) ;;
      refuseAdapterPinnedKey (rf_ID d) ;;
      ClearKey (rf_ID d) ;;
      ReplacePresence (rf_ID d) [] ;;
      DiscardKey (rf_ID d) ;;
      DeleteByKey (rf_ID d) ;;
      Catalogue_Delete (rf_ID d) ;;
      insertDefinitionEvent EventKeyDeleted "key" (rf_ID d) [("name", text (rf_Name d))] ;;
      deleteKeys rest
  end.

(** 2. Group deletes. *)
Fixpoint deleteGroups (dels : list Ref) : ST World () :=
  match dels with
  | [] => mret ()
  | d :: rest =>
      w ← st_get;
      let released := Z.of_nat (length (List.filter (fun kv => ca_GroupID kv.2 =s rf_ID d) (Catalogue_List w))) in
      ClearGroupMembers (rf_ID d) ;;
      DeleteGroup (rf_ID d) ;;
      insertDefinitionEvent EventKeyGroupDeleted "key_group" (rf_ID d) [("name", text (rf_Name d)); ("members_released", VInt released)] ;;
      deleteGroups rest
  end.

(** [releaseEnvironmentGrants]: every grant scoped to the environment goes, with
    its origins; a principal that lost one has its generation advanced. In the
    events the environment's id stands for the rendered scope. *)
Definition compact (l : list string) : list string := remove_dups (sortStrings l).

Definition revokeEvent (actor : string) (g : GrantLine) : AuditEntry :=
  (EventGrantRevoked, MkObject "grant" (gl_ID g),
   [("target_principal", VString (gl_Principal g)); ("capability", VString (gl_Capability g)); ("scope", VString (gl_Env g));
    ("origin_kind", VString (String.concat "," (compact (gl_Origins g)))); ("self_grant", VBool (gl_Principal g =s actor)); ("unheld", VBool false);
    ("target_class", VString ""); ("origins_remaining", VInt 0); ("sessions_revoked", VBool true)]).

Definition advance (gens : gmap string Z) (p : string) : gmap string Z := <[ p := default 0 (gens !! p) + 1 ]> gens.

Definition releaseEnvironmentGrants (env : string) : ST World () := fun w =>
  let scoped := List.filter (fun g => gl_Env g =s env) (grants w) in
  let w := set_dependents (value_entries w) (pending_changes w) (scanning_dismissals w) (snapshots w) (revision_pins w)
             (List.filter (fun g => negb (gl_Env g =s env)) (grants w))
             (foldl advance (generations w) (compact (map gl_Principal scoped))) w in
  (Ok (), set_ledger (schema_revision w) (plans w) (tenant_audit w ++ map (revokeEvent (ax_principal X)) scoped) (uuids w) (captured w) w).

(** 3. Environment deletes. *)
Definition deleteEnvironment (env : string) : ST World () :=
  st_result (ax_authorize X OpEnvDelete env) ;;
  DiscardEnvironment env ;;
  Snapshots_DeleteEnvironment env ;;
  Pins_DeleteEnvironment env ;;
  DeletePresenceForEnvironment env ;;
  releaseEnvironmentGrants env ;;
  Environments_Delete env.

Fixpoint deleteEnvironments (dels : list Ref) : ST World () :=
  match dels with
  | [] => mret ()
  | d :: rest =>
      deleteEnvironment (rf_ID d) ;;
      insertDefinitionEvent EventEnvDeleted "environment" (rf_ID d) [("name", text (rf_Name d))] ;;
      deleteEnvironments rest
  end.

(** 4. Parking: a reserved name no current or desired entry uses. *)
Definition tempName (n : nat) : string := "TMP_RENAME_" +:+ pretty n.

Fixpoint temp (fuel : nat) (used : gset string) (counter : nat) : result (string * nat) :=
  match fuel with
  | O => Panic "unreachable: a name among the first is unused"
  | S f => if decide (tempName counter ∈ used) then temp f used (S counter) else Ok (tempName counter, S counter)
  end.

(** Each identity in turn to the next temporary name. *)
Fixpoint park (rename : string -> string -> ST World ()) (ids : list string) (used : gset string) (counter : nat) : ST World (gset string * nat) :=
  match ids with
  | [] => mret (used, counter)
  | id :: rest =>
      '(name, counter) ← st_result (temp (S (size used)) used counter);
      rename id name ;;
      park rename rest ({[ name ]} ∪ used) counter
  end.

Definition renameEnv (env name : string) : ST World () :=
  st_result (ax_authorize X OpEnvRename env) ;; Environments_Rename env name.

Definition usedNames (res : Resolution) (cur : CurrentState) : gset string :=
  list_to_set (map en_name (cs_Environments cur) ++ map en_name (cs_KeyGroups cur) ++ map ck_Name (cs_Keys cur) ++
    EnvCreates res ++ GroupCreates res ++ map k_Name (KeyCreates res) ++
    map rn_To (EnvRenames res) ++ map rn_To (GroupRenames res) ++ map (fun u => k_Name (u_Desired u)) (KeyUpdates res)).

Definition renamedKeys (res : Resolution) : list KeyUpdate := List.filter u_Renamed (KeyUpdates res).

Definition parkRenames (res : Resolution) (cur : CurrentState) : ST World () :=
  '(used, counter) ← park renameEnv (map rn_ID (EnvRenames res)) (usedNames res cur) 0;
  '(used, counter) ← park RenameGroup (map rn_ID (GroupRenames res)) used counter;
  park Catalogue_Rename (map u_ID (renamedKeys res)) used counter ;; mret ().

(** 5-6. Creates; the name maps start from the current state less the deletes. *)
Definition survivors (current : list entity) (dels : list Ref) : gmap string string :=
  filter (fun kv => kv.2 ∉ map rf_ID dels) (byName current).

Fixpoint createNamed (prefix : string) (create : string -> string -> ST World ()) (typ objType : string) (names : list string) (idByName : gmap string string) :
    ST World (gmap string string) :=
  match names with
  | [] => mret idByName
  | name :: rest =>
      id ← newID prefix;
      create id name ;;
      insertDefinitionEvent typ objType id [("name", text name)] ;;
      createNamed prefix create typ objType rest (<[ name := id ]> idByName)
  end.

(** An environment goes at the next display position. *)
Definition createEnv (id name : string) : ST World () := order ← NextOrder; Environments_Create id name order.

Definition createEnvs : list string -> gmap string string -> ST World (gmap string string) := createNamed "env" createEnv EventEnvCreated "environment".
Definition createGroups : list string -> gmap string string -> ST World (gmap string string) := createNamed "kgr" CreateGroup EventKeyGroupCreated "key_group".

(** 7. The final names. *)
Definition renamedPayload (from to : string) : Payload := [("previous_name", text from); ("name", text to)].

Fixpoint finishRenames (rename : string -> string -> ST World ()) (typ objType : string) (rns : list Rename) (idByName : gmap string string) :
    ST World (gmap string string) :=
  match rns with
  | [] => mret idByName
  | r :: rest =>
      rename (rn_ID r) (rn_To r) ;;
      insertDefinitionEvent typ objType (rn_ID r) (renamedPayload (rn_From r) (rn_To r)) ;;
      finishRenames rename typ objType rest (<[ rn_To r := rn_ID r ]> idByName)
  end.

Definition keyRename (u : KeyUpdate) : Rename := MkRename (u_ID u) (u_PrevName u) (k_Name (u_Desired u)).

(** 8. Keys. *)
Fixpoint resolveNames (names : list string) (envIDByName : gmap string string) : result (list string) :=
  match names with
  | [] => Ok []
  | n :: rest =>
      match envIDByName !! n with
      | None => Err (EWrap "presence references unknown environment" ErrInvalid)
      | Some id => ids ← resolveNames rest envIDByName; Ok (id :: ids)
      end
  end.

Definition resolvePresenceRule (p : Presence) (envIDByName : gmap string string) : result Presence :=
  ids ← resolveNames (p_Environments p) envIDByName; Ok (MkPresence (p_Mode p) ids).

Definition resolvePresence (k : Key) (envIDByName : gmap string string) : result PresenceRules :=
  req ← resolvePresenceRule (k_RequiredIn k) envIDByName;
  forb ← resolvePresenceRule (k_ForbiddenIn k) envIDByName;
  Ok (MkPresenceRules req forb).

Definition groupIDFor (k : Key) (groupIDByName : gmap string string) : string :=
  if k_Group k =s "" then "" else default "" (groupIDByName !! k_Group k).

Definition canonicalOf (compiled : decl) : result string :=
  match compiledCanonical compiled with
  | Ok s => Ok s
  | Err e => Err (EWrap "declaration" ErrInvalid)
  | Panic m => Panic m
  end.

Definition createKey (k : Key) (compiled : decl) (envIDByName groupIDByName : gmap string string) : ST World () :=
  presence ← st_result (resolvePresence k envIDByName);
  st_result (checkPresenceRules presence) ;;
  canonical ← st_result (canonicalOf compiled);
  id ← newID "key";
  Catalogue_Create id (MkCatalogueKey (k_Name k) (k_FolderPath k) (k_Classification k) (k_Description k) (k_Deprecated k) (k_DeprecationNote k)
    canonical (p_Mode (Required presence)) (p_Mode (Forbidden presence)) (groupIDFor k groupIDByName)) ;;
  ReplacePresence id (presenceRowsFor id presence) ;;
  insertDefinitionEvent EventKeyCreated "key" id
    [("name", text (k_Name k)); ("classification", VString (k_Classification k)); ("namespace", text (k_FolderPath k))].

Definition when (b : bool) (m : ST World ()) : ST World () := if b then m else mret ().

Definition updateKey (u : KeyUpdate) (compiled : decl) (envIDByName groupIDByName : gmap string string) (finalRevision : Z) : ST World () :=
  let k := u_Desired u in
  before ← Catalogue_Get (u_ID u);
  presence ← st_result (resolvePresence k envIDByName);
  st_result (checkPresenceRules presence) ;;
  when (u_MetaChanged u)
    (UpdateMetadata (u_ID u) (k_FolderPath k) (k_Description k) (k_Deprecated k) (k_DeprecationNote k) ;;
     insertDefinitionEvent EventKeyMetadataChanged "key" (u_ID u) [("name", text (k_Name k)); ("namespace", text (k_FolderPath k))]) ;;
  when (u_DeclChanged u || u_PresenceChanged u)
    (canonical ← st_result (canonicalOf compiled);
     UpdateDeclaration (u_ID u) canonical (p_Mode (Required presence)) (p_Mode (Forbidden presence)) ;;
     ReplacePresence (u_ID u) (presenceRowsFor (u_ID u) presence) ;;
     insertDefinitionEvent EventKeyDeclarationChanged "key" (u_ID u)
       [("name", text (k_Name k)); ("schema_revision", VInt64 finalRevision); ("rules_changed", VBool (u_DeclChanged u));
        ("presence_changed", VBool (u_PresenceChanged u))]) ;;
  when (u_Reclassified u)
    (Catalogue_Get (u_ID u) ;;
     refuseAdapterPinnedKey (u_ID u) ;;
     (if (u_PrevClassification u =s Secret) && (k_Classification k =s Config) then st_err refuseApplyDeclassification else mret ()) ;;
     SetClassification (u_ID u) (k_Classification k) ;;
     when ((u_PrevClassification u =s Config) && (k_Classification k =s Secret)) (DeleteByKey (u_ID u)) ;;
     insertDefinitionEvent EventKeyReclassified "key" (u_ID u)
       [("name", text (k_Name k)); ("previous_classification", VString (u_PrevClassification u)); ("classification", VString (k_Classification k))]) ;;
  when (u_GroupChanged u)
    (SetGroup (u_ID u) (groupIDFor k groupIDByName) ;;
     insertDefinitionEvent EventKeyGroupMembershipChanged "key" (u_ID u)
       [("name", text (k_Name k)); ("previous_group_id", VString (ca_GroupID before)); ("group_id", VString (groupIDFor k groupIDByName))]).

(** [CompiledBundle.CompiledDeclaration]: the last declaration of a name. *)
Definition CompiledDeclaration (compiledKeys : list Key) (name : string) : result decl :=
  match last (List.filter (fun k => k_Name k =s name) compiledKeys) with
  | Some k => Ok (k_Declaration k)
  | None => Err (ENew "service: compiled declaration missing")
  end.

Fixpoint createKeys (compiledKeys ks : list Key) (envIDByName groupIDByName : gmap string string) : ST World () :=
  match ks with
  | [] => mret ()
  | k :: rest =>
      compiled ← st_result (CompiledDeclaration compiledKeys (k_Name k));
      createKey k compiled envIDByName groupIDByName ;;
      createKeys compiledKeys rest envIDByName groupIDByName
  end.

Fixpoint updateKeys (compiledKeys : list Key) (us : list KeyUpdate) (envIDByName groupIDByName : gmap string string) (finalRevision : Z) : ST World () :=
  match us with
  | [] => mret ()
  | u :: rest =>
      compiled ← st_result (CompiledDeclaration compiledKeys (k_Name (u_Desired u)));
      updateKey u compiled envIDByName groupIDByName finalRevision ;;
      updateKeys compiledKeys rest envIDByName groupIDByName finalRevision
  end.

(** 4-7. The topology: parked renames, creates, final names. *)
Definition retopologize (res : Resolution) (cur : CurrentState) : ST World (gmap string string * gmap string string) :=
  parkRenames res cur ;;
  envIDByName ← createEnvs (EnvCreates res) (survivors (cs_Environments cur) (EnvDeletes res));
  groupIDByName ← createGroups (GroupCreates res) (survivors (cs_KeyGroups cur) (GroupDeletes res));
  envIDByName ← finishRenames renameEnv EventEnvRenamed "environment" (EnvRenames res) envIDByName;
  groupIDByName ← finishRenames RenameGroup EventKeyGroupRenamed "key_group" (GroupRenames res) groupIDByName;
  finishRenames Catalogue_Rename EventKeyRenamed "key" (map keyRename (renamedKeys res)) ∅ ;;
  mret (envIDByName, groupIDByName).

Definition executeResolution (res : Resolution) (cur : CurrentState) (compiledKeys : list Key) (finalRevision : Z) : ST World () :=
  deleteKeys (KeyDeletes res) ;;
  deleteGroups (GroupDeletes res) ;;
  deleteEnvironments (EnvDeletes res) ;;
  '(envIDByName, groupIDByName) ← retopologize res cur;
  createKeys compiledKeys (KeyCreates res) envIDByName groupIDByName ;;
  updateKeys compiledKeys (KeyUpdates res) envIDByName groupIDByName finalRevision.

(** ** Plans *)
Definition CreatePlan (id : string) (plan : DefinitionsPlan) : ST World () := fun w =>
  match plans w !! id with
  | Some _ => conflict w
  | None => (Ok (), set_ledger (schema_revision w) (<[ id := plan ]> (plans w)) (tenant_audit w) (uuids w) (captured w) w)
  end.

Definition GetPlan (id : string) : ST World DefinitionsPlan := fun w =>
  match plans w !! id with Some plan => (Ok plan, w) | None => notFound w end.

Definition CountOpenPlans (now : Z) (w : World) : Z :=
  Z.of_nat (length (List.filter (fun kv => negb (pl_Applied kv.2) && (now <? pl_ExpiresAt kv.2)) (map_to_list (plans w)))).

(** The UPDATE touches only a plan that is still open. *)
Definition MarkPlanApplied (id : string) (at_ : Z) (who commit ref actor : string) : ST World bool := fun w =>
  match plans w !! id with
  | Some plan =>
      if pl_Applied plan then (Ok false, w)
      else (Ok true, set_ledger (schema_revision w)
              (<[ id := MkPlan (pl_ExpiresAt plan) (pl_Bundle plan) (pl_Digest plan) (pl_BaseSchemaRevision plan) (pl_EnvRevisions plan)
                          (pl_ProtectedEnvs plan) (pl_Diff plan) (pl_Additive plan) true at_ who commit ref actor ]> (plans w))
              (tenant_audit w) (uuids w) (captured w) w)
  | None => (Ok false, w)
  end.

Definition PruneExpiredPlans (now : Z) : ST World Z := fun w =>
  let kept := filter (fun kv => pl_Applied kv.2 = true \/ now < pl_ExpiresAt kv.2) (plans w) in
  (Ok (Z.of_nat (size (plans w)) - Z.of_nat (size kept)), set_ledger (schema_revision w) kept (tenant_audit w) (uuids w) (captured w) w).

(** *** The preview *)
Record PlanView := MkPlanView {
  pv_ID : string; pv_Digest : string; pv_BaseRevision : option Z; pv_CurrentRevision : Z; pv_Additive : bool; pv_ExpiresAt : Z;
  pv_ProtectedEnvironments : list string; pv_Diff : PlanDiff; pv_DeletionsPresent : bool; pv_RevealRequired : list string }.

Definition planDiff (w : World) (cur : CurrentState) (res : Resolution) : PlanDiff :=
  let diff := renderDiff res in
  MkPlanDiff (d_Environments diff) (d_KeyGroups diff) (d_Keys diff)
    (map (fun d => MkKeyDeletion (rf_Name d) (sortStrings (map (nameFor (cs_Environments cur)) (EnvironmentsWithValue (rf_ID d) w)))) (KeyDeletes res))
    (map (fun d => MkEnvDeletion (rf_Name d) (CountEnvironmentValues (rf_ID d) w)) (EnvDeletes res))
    (d_RevealRequired diff).

Definition persistPlan (bundle : Bundle) (cur : CurrentState) (res : Resolution) : ST World PlanView :=
  w ← st_get;
  let diff := planDiff w cur res in
  let digest := ax_digest X bundle in
  let protected := protectedPins (ListProtection w) cur in
  planID ← newID "dpl";
  CreatePlan planID (MkPlan (ax_now X + PlanTTL) bundle digest (SchemaRevision cur) (envRevisions w cur) protected diff
                       (Additive bundle) false 0 "" "" "" "") ;;
  insertDefinitionEvent EventDefinitionsPlanCreated "definitions-plan" planID
    [("plan_id", VString planID); ("additive", VBool (Additive bundle)); ("deletions_present", VBool (DeletionsPresent res))] ;;
  mret (MkPlanView planID digest (b_BaseRevision bundle) (SchemaRevision cur) (Additive bundle) (ax_now X + PlanTTL)
          (protectedPinNames protected) diff (DeletionsPresent res) (RevealKeys res)).

(** The refusal of an additive bundle that edits a key is recorded. *)
Definition captureAdditive (r : result Resolution) : ST World () :=
  match r with
  | Err e =>
      match asAdditiveModification e with
      | Some key => CaptureAudit (EventDefinitionsAdditiveModificationRefused, MkObject "project" "", [("name", text key)])
      | None => mret ()
      end
  | _ => mret ()
  end.

(** [Plan], after parsing: [canonical] is the parsed document. *)
Definition PlanDefinitions (canonical : Bundle) : ST World PlanView :=
  st_result (ax_authorize X OpDefinitionsPlanCreate "") ;;
  w ← st_get;
  cur ← st_result (buildCurrentState w);
  match b_BaseRevision canonical with
  | Some base => if negb (base =? SchemaRevision cur) then st_err (refused "bundle base revision is not the current definitions revision") else mret ()
  | None => mret ()
  end ;;
  captureAdditive (Resolve canonical cur) ;;
  res ← st_result (Resolve canonical cur);
  st_result (validateFinalDefinitions cur res) ;;
  overridden ← st_result (ax_scan X);
  st_modify (fun w => set_ledger (schema_revision w) (plans w) (tenant_audit w ++ overridden) (uuids w) (captured w) w) ;;
  w ← st_get;
  if MaxOpenPlansPerProject <=? CountOpenPlans (ax_now X) w then st_err (EWrap "project already holds its open definitions plans" ErrLimitExceeded)
  else persistPlan canonical cur res.

(** ** Apply *)
Record ApplyOptions := MkOptions { o_AllowDelete : bool; o_Digest : string; o_Commit : string; o_Ref : string; o_Actor : string }.
Record ApplyResult := MkApplyResult { ar_Revision : Z; ar_Published : list string; ar_PlanID : string }.

Definition bumpSchemaRevision : ST World () := st_result (ax_charge X) ;; BumpSchemaRevision.

(** The transaction's body. *)
Definition applyBody (planID : string) (opts : ApplyOptions) (commit ref actor : string) : ST World ApplyResult :=
  st_result (ax_authorize X OpDefinitionsApply "") ;;
  plan ← GetPlan planID;
  if pl_Applied plan then st_err (refused "plan already applied; re-plan")
  else if pl_ExpiresAt plan <=? ax_now X then st_err (refused "plan expired; re-plan")
  else
    let bundle := pl_Bundle plan in
    w ← st_get;
    cur ← st_result (buildCurrentState w);
    recheckPins planID plan cur (o_Digest opts) ;;
    if Additive bundle && o_AllowDelete opts then st_err (EWrap "additive bundle derives no deletion; --allow-delete is meaningless" ErrInvalid)
    else
      res ← st_result (Resolve bundle cur);
      st_result (validateFinalDefinitions cur res) ;;
      if Empty res then mret (MkApplyResult (SchemaRevision cur) [] planID)
      else
        guardDeletions planID res (o_AllowDelete opts) ;;
        enforceReveal (KeyUpdates res) ;;
        executeResolution res cur (b_Keys bundle) (SchemaRevision cur + 1) ;;
        bumpSchemaRevision ;;
        w ← st_get;
        let newRevision := schema_revision w in
        applied ← MarkPlanApplied planID (ax_now X) (ax_principal X) commit ref actor;
        if negb applied then st_err (refused "plan is already applied")
        else
          insertDefinitionEvent EventDefinitionsApplied "definitions-plan" planID
            [("plan_id", VString planID); ("revision", VInt64 newRevision); ("commit", text commit); ("ref", text ref); ("actor", text actor)] ;;
          overridden ← st_result (ax_scan X);
          st_modify (fun w => set_ledger (schema_revision w) (plans w) (tenant_audit w ++ overridden) (uuids w) (captured w) w) ;;
          ax_fanOut X ;;
          w ← st_get;
          mret (MkApplyResult newRevision (map (fun kv => e_Name kv.2) (Environments_List w)) planID).

(** The scanner's pre-flight and the labels come before the transaction; a
    refused apply leaves the rows as they were, with the captured events. *)
Definition ApplyDefinitions (planID : string) (opts : ApplyOptions) : ST World ApplyResult := fun w =>
  match sanitizeProvenance (o_Commit opts), sanitizeProvenance (o_Ref opts), sanitizeProvenance (o_Actor opts), ax_scan X with
  | Ok commit, Ok ref, Ok actor, Ok _ =>
      match applyBody planID opts commit ref actor w with
      | (Ok r, w') => (Ok r, w')
      | (e, w') => (e, set_ledger (schema_revision w) (plans w) (tenant_audit w) (uuids w) (captured w') w)
      end
  | Err e, _, _, _ | Ok _, Err e, _, _ | Ok _, Ok _, Err e, _ | Ok _, Ok _, Ok _, Err e => (Err e, w)
  | Panic p, _, _, _ | Ok _, Panic p, _, _ | Ok _, Ok _, Panic p, _ | Ok _, Ok _, Ok _, Panic p => (Panic p, w)
  end.
End Handler.
End Apply.
