(* ===== verification/DefinitionsSteps.v ===== *)
(** * What each part of the executor does to the tables

    For every loop of [executeResolution] that returns, the tables it leaves as
    a function of the tables it found. *)

From S2P Require Import Prelude Domain Schema AuditEvent Definitions DefinitionsSpec DefinitionsStore DefinitionsApply.

#[local] Open Scope Z_scope.

Lemma filter_filter {A} (f g : A -> bool) l : List.filter f (List.filter g l) = List.filter (fun x => g x && f x) l.
Proof. induction l as [|x l IH]; [done|]. cbn. destruct (g x); cbn; [destruct (f x); by rewrite IH|done]. Qed.

Lemma filter_false {A} (l : list A) : List.filter (fun _ => false) l = [].
Proof. by induction l. Qed.

Lemma filter_true {A} (f : A -> bool) l : (forall x, In x l -> f x = true) -> List.filter f l = l.
Proof. induction l as [|x l IH]; intros Hf; [done|]. cbn. rewrite Hf by (by left). f_equal. apply IH. intros y ?. apply Hf. by right. Qed.

Lemma NoDup_list_filter {A} (f : A -> bool) (l : list A) : NoDup l -> NoDup (List.filter f l).
Proof.
  induction l as [|x l IH]; [done|]. intros [Hx Hn]%NoDup_cons. cbn. destruct (f x); [|by apply IH].
  constructor; [|by apply IH]. rewrite list_elem_of_In in *. by intros [? _]%filter_In.
Qed.

Section Steps.
Context `{DeclarationCodec}.

(** The tables the definitions live in, and the values. *)
Record tables := MkTables {
  t_envs : gmap string Environment; t_groups : gmap string string; t_keys : gmap string CatalogueKey;
  t_presence : list KeyPresence; t_values : list (string * string) }.

Definition tablesOf (w : World) : tables := MkTables (environments w) (key_groups w) (keys w) (key_presence w) (value_entries w).

(** ** Inverting a run *)
Ltac next H H1 := rewrite st_bind_Ok in H; destruct H as (? & ? & H1 & H).
Ltac ledger H := unfold insertDefinitionEvent, insertEvent, CaptureAudit, DiscardKey, DeleteByKey, DiscardEnvironment,
  Snapshots_DeleteEnvironment, Pins_DeleteEnvironment, st_modify in H; injection H as <- <-.

Lemma get_Ok (w w0 w' : World) : st_get w = (Ok w0, w') -> w0 = w /\ w' = w.
Proof. by intros [= <- <-]. Qed.

Lemma result_Ok {A} (r : result A) (w : World) a w' : st_result r w = (Ok a, w') -> r = Ok a /\ w' = w.
Proof. by intros [= <- <-]. Qed.

Lemma check_Ok (r : result ()) (w : World) u w' : st_result r w = (Ok u, w') -> r = Ok () /\ w' = w.
Proof. destruct u. by intros [= <- <-]. Qed.

Lemma refuseAdapterPinnedKey_Ok id w u w' : refuseAdapterPinnedKey id w = (Ok u, w') -> w' = w.
Proof. unfold refuseAdapterPinnedKey. intros Hr. next Hr Hg. apply get_Ok in Hg as [-> ->]. destruct (is_nil _); [by injection Hr as _ <-|done]. Qed.

Lemma Catalogue_Get_Ok id w row w' : Catalogue_Get id w = (Ok row, w') -> keys w !! id = Some row /\ w' = w.
Proof. unfold Catalogue_Get. destruct (keys w !! id); [|done]. by intros [= -> ->]. Qed.

(** ** Presence rows *)
Definition rowsOf (id : string) (l : list KeyPresence) : list KeyPresence := List.filter (fun p => kp_KeyID p =s id) l.

Lemma insertPresenceRows_Ok rows : forall w u w', insertPresenceRows rows w = (Ok u, w') ->
  tablesOf w' = MkTables (environments w) (key_groups w) (keys w) (key_presence w ++ rows) (value_entries w) /\
  (forall row, In row rows -> is_Some (environments w !! kp_EnvironmentID row)) /\ (NoDup (key_presence w) -> NoDup (key_presence w ++ rows)).
Proof.
  induction rows as [|row rows IH]; intros w u w' Hr; cbn [insertPresenceRows] in Hr.
  { injection Hr as _ <-. unfold tablesOf. rewrite app_nil_r. split_and!; [done|done|by rewrite ?app_nil_r]. }
  next Hr Hi. unfold InsertKeyPresence in Hi. destruct (_ || _) eqn:Hb in Hi; [done|]. injection Hi as <- <-.
  apply orb_false_iff in Hb as [Hb _]. apply orb_false_iff in Hb as [Hb He]. apply orb_false_iff in Hb as [Hnew _].
  apply bool_decide_eq_false in Hnew. apply negb_false_iff, bool_decide_eq_true in He.
  apply IH in Hr as (Ht & Hin & Hn). unfold set_presence in Ht, Hin, Hn. cbn [environments key_groups keys key_presence value_entries] in Ht, Hin, Hn.
  rewrite <- app_assoc in Ht, Hn. split_and!; [done| |].
  - intros row' [<-|?]; [done|by apply Hin].
  - intros Hd. apply Hn. apply NoDup_app. split_and!; [done| |apply NoDup_singleton]. intros x Hx Hxr. by apply list_elem_of_singleton in Hxr as ->.
Qed.

Lemma ReplacePresence_Ok id rows w u w' : ReplacePresence id rows w = (Ok u, w') -> (forall r, In r rows -> kp_KeyID r = id) ->
  tablesOf w' = MkTables (environments w) (key_groups w) (keys w) (List.filter (fun p => negb (kp_KeyID p =s id)) (key_presence w) ++ rows) (value_entries w) /\
  (forall row, In row rows -> is_Some (environments w !! kp_EnvironmentID row)) /\ (NoDup (key_presence w) -> NoDup (key_presence w')).
Proof.
  intros Hr Hid. unfold ReplacePresence in Hr. next Hr Hi. injection Hi as <- <-.
  assert (map (fun row => MkKeyPresence id (kp_EnvironmentID row) (kp_Rule row)) rows = rows) as Hm.
  { clear Hr. induction rows as [|r rows IH]; [done|]. cbn [map]. rewrite IH by (intros; apply Hid; by right). f_equal.
    rewrite <- (Hid r (or_introl eq_refl)). by destruct r. }
  rewrite Hm in Hr. apply insertPresenceRows_Ok in Hr as (Ht & Hin & Hn). unfold set_presence in Ht, Hin, Hn.
  cbn [environments key_groups keys key_presence value_entries] in Ht, Hin, Hn.
  split_and!; [done|done|]. intros Hd. assert (key_presence w' = List.filter (fun p => negb (kp_KeyID p =s id)) (key_presence w) ++ rows) as ->
    by (by change (key_presence w') with (t_presence (tablesOf w')); rewrite Ht).
  apply Hn. by apply NoDup_list_filter.
Qed.

(** ** Deletes *)
Definition without {A} (ids : list string) (m : gmap string A) : gmap string A := foldl (fun m id => delete id m) m ids.

Lemma lookup_without {A} ids : forall (m : gmap string A) id, without ids m !! id = if contains ids id then None else m !! id.
Proof.
  unfold without. induction ids as [|x ids IH]; intros m id; [done|]. cbn [foldl]. rewrite IH. change (contains (x :: ids) id) with ((id =s x) || contains ids id).
  destruct (String.eqb_spec id x) as [->|Hne]; cbn [orb]; [rewrite lookup_delete_eq; by destruct (contains ids x)|].
  rewrite lookup_delete_ne by done. done.
Qed.

Definition keyDeleted (ids : list string) (p : KeyPresence) : bool := negb (contains ids (kp_KeyID p)).
Definition envDeleted (ids : list string) (p : KeyPresence) : bool := negb (contains ids (kp_EnvironmentID p)).
Definition valueDeleted (ids : list string) (v : string * string) : bool := negb (contains ids v.2).

Lemma filter_step {A} (f : A -> string) id ids (l : list A) :
  List.filter (fun x => negb (contains ids (f x))) (List.filter (fun x => negb (f x =s id)) l) = List.filter (fun x => negb (contains (id :: ids) (f x))) l.
Proof. rewrite filter_filter. apply filter_ext. intros x. change (contains (id :: ids) (f x)) with ((f x =s id) || contains ids (f x)). by rewrite negb_orb. Qed.

Lemma deleteKeys_Ok dels : forall w u w', deleteKeys dels w = (Ok u, w') ->
  tablesOf w' = MkTables (environments w) (key_groups w) (without (map rf_ID dels) (keys w))
    (List.filter (keyDeleted (map rf_ID dels)) (key_presence w)) (List.filter (valueDeleted (map rf_ID dels)) (value_entries w)).
Proof.
  induction dels as [|d dels IH]; intros w u w' Hr; cbn [deleteKeys] in Hr.
  { injection Hr as _ <-. unfold keyDeleted, valueDeleted. cbn. by rewrite !filter_true. }
  next Hr Hg. apply Catalogue_Get_Ok in Hg as [_ ->]. next Hr Hp. apply refuseAdapterPinnedKey_Ok in Hp as ->.
  next Hr Hc. injection Hc as _ <-. next Hr Hp. apply ReplacePresence_Ok in Hp as (Ht & _ & _); [|done].
  next Hr Hd. injection Hd as _ <-. next Hr Hd. injection Hd as _ <-. next Hr Hd. unfold Catalogue_Delete in Hd.
  destruct (_ !! _) in Hd; [|done]. destruct (keyReferenced _ _) in Hd; [done|]. injection Hd as _ <-.
  next Hr Hi. injection Hi as _ <-. apply IH in Hr. rewrite Hr.
  cbn [environments key_groups keys key_presence value_entries set_keys set_dependents set_ledger] in Ht |- *.
  unfold tablesOf in Ht. injection Ht as -> -> -> -> ->. cbn [environments key_groups keys key_presence value_entries set_dependents].
  rewrite app_nil_r. unfold keyDeleted, valueDeleted. rewrite !filter_step. done.
Qed.

Lemma clearGroup_other id row : ca_GroupID row <> id -> clearGroup id row = row.
Proof. unfold clearGroup. destruct (String.eqb_spec (ca_GroupID row) id); [done|]. by rewrite andb_false_r. Qed.

Definition clearGroups (ids : list string) (row : CatalogueKey) : CatalogueKey := foldl (fun r id => clearGroup id r) row ids.

Lemma deleteGroups_Ok dels : forall w u w', deleteGroups dels w = (Ok u, w') ->
  tablesOf w' = MkTables (environments w) (without (map rf_ID dels) (key_groups w)) (clearGroups (map rf_ID dels) <$> keys w) (key_presence w) (value_entries w).
Proof.
  induction dels as [|d dels IH]; intros w u w' Hr; cbn [deleteGroups] in Hr.
  { injection Hr as _ <-. unfold tablesOf, clearGroups. cbn. by rewrite map_fmap_id. }
  next Hr Hg. apply get_Ok in Hg as [-> ->]. next Hr Hc. injection Hc as _ <-. next Hr Hd. unfold DeleteGroup in Hd.
  destruct (_ !! _) in Hd; [|done]. destruct (existsb _ _) in Hd; [done|]. injection Hd as _ <-.
  next Hr Hi. injection Hi as _ <-. apply IH in Hr. rewrite Hr.
  cbn [environments key_groups keys key_presence value_entries set_keys set_key_groups set_ledger].
  by rewrite <- map_fmap_compose.
Qed.

(** A step that writes other tables only. *)
Definition keeps {A} (m : ST World A) : Prop := forall w a w', m w = (Ok a, w') -> tablesOf w' = tablesOf w.

Lemma keeps_modify (f : World -> World) : (forall w, tablesOf (f w) = tablesOf w) -> keeps (st_modify f).
Proof. intros Hf w a w' [= _ <-]. apply Hf. Qed.

Lemma keeps_bind {A B} (m : ST World A) (f : A -> ST World B) : keeps m -> (forall a, keeps (f a)) -> keeps (m ≫= f).
Proof. intros Hm Hf w b w' Hr. next Hr H1. rewrite (Hf _ _ _ _ Hr). by eapply Hm. Qed.

Lemma keeps_ret {A} (a : A) : keeps (mret a).
Proof. by intros w a' w' [= _ <-]. Qed.

Lemma keeps_result {A} (r : result A) : keeps (st_result r).
Proof. by intros w a' w' [_ ->]%result_Ok. Qed.

Lemma keeps_event typ objType objID payload : keeps (insertDefinitionEvent typ objType objID payload).
Proof. by apply keeps_modify. Qed.

Lemma keeps_release X env : keeps (releaseEnvironmentGrants X env).
Proof. by intros w a w' [= _ <-]. Qed.

Lemma keeps_DiscardEnvironment env : keeps (DiscardEnvironment env).
Proof. by apply keeps_modify. Qed.

Lemma keeps_Snapshots env : keeps (Snapshots_DeleteEnvironment env).
Proof. by apply keeps_modify. Qed.

Lemma keeps_Pins env : keeps (Pins_DeleteEnvironment env).
Proof. by apply keeps_modify. Qed.

Lemma deleteEnvironment_Ok X env w u w' : deleteEnvironment X env w = (Ok u, w') ->
  tablesOf w' = MkTables (delete env (environments w)) (key_groups w) (keys w)
    (List.filter (fun p => negb (kp_EnvironmentID p =s env)) (key_presence w)) (value_entries w) /\
  ax_authorize X OperationNames.OpEnvDelete env = Ok ().
Proof.
  intros He. unfold deleteEnvironment in He. next He Ha. apply check_Ok in Ha as [Ha ->]. split; [|done].
  next He H1. apply keeps_DiscardEnvironment in H1. next He H2. apply keeps_Snapshots in H2. next He H3. apply keeps_Pins in H3. next He H4. injection H4 as _ <-. next He H5. apply keeps_release in H5.
  rewrite H2, H1 in H3. unfold tablesOf, set_presence in *. cbn [environments key_groups keys key_presence value_entries] in H5.
  injection H3 as E1 E2 E3 E4 E5. injection H5 as F1 F2 F3 F4 F5. unfold Environments_Delete in He.
  destruct (_ !! _) in He; [|done]. destruct (envReferenced _ _) in He; [done|]. injection He as _ <-.
  cbn [set_environments environments key_groups keys key_presence value_entries]. by rewrite F1, F2, F3, F4, F5, E1, E2, E3, E4, E5.
Qed.

Lemma deleteEnvironments_Ok X dels : forall w u w', deleteEnvironments X dels w = (Ok u, w') ->
  tablesOf w' = MkTables (without (map rf_ID dels) (environments w)) (key_groups w) (keys w)
    (List.filter (envDeleted (map rf_ID dels)) (key_presence w)) (value_entries w) /\
  forall d, In d dels -> ax_authorize X OperationNames.OpEnvDelete (rf_ID d) = Ok ().
Proof.
  induction dels as [|d dels IH]; intros w u w' Hr; cbn [deleteEnvironments] in Hr.
  { injection Hr as _ <-. unfold envDeleted. cbn. by rewrite filter_true. }
  next Hr He. apply deleteEnvironment_Ok in He as [He Ha]. next Hr Hi. apply keeps_event in Hi. rewrite He in Hi.
  apply IH in Hr as [Hr Hall]. rewrite Hr. injection Hi as E1 E2 E3 E4 E5. rewrite E1, E2, E3, E4, E5.
  unfold envDeleted. rewrite filter_step. split; [done|]. intros d' [<-|?]; [done|by apply Hall].
Qed.

(** ** Names

    A kind's names as a view of the tables, with everything else beside it. *)
Definition envNames (t : tables) : gmap string string := e_Name <$> t_envs t.
Definition keyNames (t : tables) : gmap string string := ca_Name <$> t_keys t.
Definition keyBodies (t : tables) : gmap string CatalogueKey := withName "" <$> t_keys t.

Definition besideEnvs (t : tables) := (t_groups t, t_keys t, t_presence t, t_values t).
Definition besideGroups (t : tables) := (t_envs t, t_keys t, t_presence t, t_values t).
Definition besideNames (t : tables) := (t_envs t, t_groups t, keyBodies t, t_presence t, t_values t).

Definition goodID (id : string) : Prop := id <> "" /\ String.prefix "new:" id = false.

(** No two rows share a name; a write whose name no other row has keeps it so. *)
Definition unique (m : gmap string string) : Prop := forall i j n, m !! i = Some n -> m !! j = Some n -> i = j.
Definition nameFree (m : gmap string string) (id n : string) : Prop := forall id', m !! id' = Some n -> id' = id.

Lemma unique_insert m id n : unique m -> nameFree m id n -> unique (<[ id := n ]> m).
Proof.
  intros Hu Hf i j n'. destruct (decide (id = i)) as [<-|Hi], (decide (id = j)) as [<-|Hj];
    rewrite ?lookup_insert_eq, ?lookup_insert_ne by done; [done| | |apply Hu].
  - intros [= <-] Hj'. symmetry. by apply Hf.
  - intros Hi' [= <-]. by apply Hf.
Qed.

Lemma nameTaken_false {A} (nameOf : A -> string) id name (m : gmap string A) : nameTaken nameOf id name m = false -> nameFree (nameOf <$> m) id name.
Proof.
  unfold nameTaken. intros Ht id' Hl. rewrite lookup_fmap in Hl. destruct (m !! id') as [a|] eqn:Ha; [|done]. injection Hl as Hl.
  destruct (decide (id' = id)) as [|Hne]; [done|]. exfalso.
  rewrite <- not_true_iff_false in Ht. apply Ht, existsb_exists. exists (id', a). split; [by apply list_elem_of_In, elem_of_map_to_list|].
  cbn. rewrite Hl, String.eqb_refl. by destruct (String.eqb_spec id' id).
Qed.

Lemma unique_without m ids : unique m -> unique (without ids m).
Proof. intros Hu i j n. rewrite !lookup_without. destruct (contains ids i), (contains ids j); [done..|]. apply Hu. Qed.

Section Kind.
Context {R : Type} (view : tables -> gmap string string) (beside : tables -> R).

Definition renames (op : string -> string -> ST World ()) : Prop := forall id n w u w', op id n w = (Ok u, w') ->
  is_Some (view (tablesOf w) !! id) /\ nameFree (view (tablesOf w)) id n /\ view (tablesOf w') = <[ id := n ]> (view (tablesOf w)) /\ beside (tablesOf w') = beside (tablesOf w).

Definition makes (op : string -> string -> ST World ()) : Prop := forall id n w u w', op id n w = (Ok u, w') ->
  view (tablesOf w) !! id = None /\ nameFree (view (tablesOf w)) id n /\ view (tablesOf w') = <[ id := n ]> (view (tablesOf w)) /\ beside (tablesOf w') = beside (tablesOf w).

Lemma park_Ok op : renames op -> forall ids used counter w r w', park op ids used counter w = (Ok r, w') ->
  beside (tablesOf w') = beside (tablesOf w) /\ (forall id, ~ In id ids -> view (tablesOf w') !! id = view (tablesOf w) !! id) /\
  (forall id, is_Some (view (tablesOf w') !! id) <-> is_Some (view (tablesOf w) !! id)) /\ (forall id, In id ids -> is_Some (view (tablesOf w) !! id)) /\
  (unique (view (tablesOf w)) -> unique (view (tablesOf w'))).
Proof.
  intros Hop. induction ids as [|id ids IH]; intros used counter w r w' Hr; cbn [park] in Hr.
  { injection Hr as _ <-. done. }
  next Hr Ht. apply result_Ok in Ht as [_ ->]. destruct x as [name c]. next Hr Ho. apply Hop in Ho as (Hs & Hfree & Hv & Hb).
  apply IH in Hr as (Hb' & Hsame & Hdom & Hall & Huniq).
  assert (forall id', is_Some (view (tablesOf x0) !! id') <-> is_Some (view (tablesOf w) !! id')) as Hd.
  { intros id'. rewrite Hv. destruct (decide (id = id')) as [<-|]; [rewrite lookup_insert_eq|by rewrite lookup_insert_ne]. split; [done|by eexists]. }
  split_and!.
  - congruence.
  - intros id' Hni. rewrite Hsame by (intros ?; apply Hni; by right). rewrite Hv, lookup_insert_ne; [done|]. intros ->. apply Hni. by left.
  - intros id'. by rewrite Hdom, Hd.
  - intros id' [<-|Hin]; [done|]. by apply Hd, Hall.
  - intros Hu. apply Huniq. rewrite Hv. by apply unique_insert.
Qed.

Lemma finishRenames_Ok op typ objType : renames op -> forall rns m w m' w', NoDup (map rn_ID rns) -> NoDup (map rn_To rns) ->
  finishRenames op typ objType rns m w = (Ok m', w') ->
  beside (tablesOf w') = beside (tablesOf w) /\ (forall id, ~ In id (map rn_ID rns) -> view (tablesOf w') !! id = view (tablesOf w) !! id) /\
  (forall r, In r rns -> view (tablesOf w') !! rn_ID r = Some (rn_To r) /\ m' !! rn_To r = Some (rn_ID r)) /\
  (forall n, ~ In n (map rn_To rns) -> m' !! n = m !! n) /\ (unique (view (tablesOf w)) -> unique (view (tablesOf w'))).
Proof.
  intros Hop. induction rns as [|r rns IH]; intros m w m' w' Hn1 Hn2 Hr; cbn [finishRenames] in Hr.
  { injection Hr as <- <-. done. }
  cbn [map] in Hn1, Hn2. apply NoDup_cons in Hn1 as [Hi Hn1]. apply NoDup_cons in Hn2 as [Ht Hn2]. rewrite list_elem_of_In in Hi, Ht.
  next Hr Ho. apply Hop in Ho as (Hs & Hfree & Hv & Hb). next Hr He. apply keeps_event in He.
  apply IH in Hr as (Hb' & Hsame & Hall & Hm & Huniq); [|done..]. rewrite He in Hb', Hsame, Huniq. split_and!.
  - congruence.
  - intros id Hni. rewrite Hsame by (intros ?; apply Hni; by right). rewrite Hv, lookup_insert_ne; [done|]. intros <-. apply Hni. by left.
  - intros r' [<-|Hin]; [|by apply Hall]. rewrite Hsame, Hm by done. rewrite Hv. by rewrite !lookup_insert_eq.
  - intros n Hni. rewrite Hm by (intros ?; apply Hni; by right). rewrite lookup_insert_ne; [done|]. intros <-. apply Hni. by left.
  - intros Hu. apply Huniq. rewrite Hv. by apply unique_insert.
Qed.

Lemma newID_Ok prefix w id w' : newID prefix w = (Ok id, w') -> tablesOf w' = tablesOf w /\ exists u, id = prefix +:+ "_" +:+ u.
Proof. unfold newID. destruct (uuids w) as [|u l]; [done|]. intros [= <- <-]. split; [done|]. by exists u. Qed.

Lemma createNamed_Ok prefix op typ objType : makes op -> forall names m w m' w', NoDup names ->
  createNamed prefix op typ objType names m w = (Ok m', w') ->
  exists fresh, beside (tablesOf w') = beside (tablesOf w) /\
    Forall2 (fun n id => view (tablesOf w') !! id = Some n) names fresh /\ Forall2 (fun n id => m' !! n = Some id) names fresh /\
    (forall id, In id fresh -> view (tablesOf w) !! id = None /\ exists u, id = prefix +:+ "_" +:+ u) /\
    (forall id, ~ In id fresh -> view (tablesOf w') !! id = view (tablesOf w) !! id) /\ (forall n, ~ In n names -> m' !! n = m !! n) /\
    (unique (view (tablesOf w)) -> unique (view (tablesOf w'))).
Proof.
  intros Hop. induction names as [|name names IH]; intros m w m' w' Hn Hr; cbn [createNamed] in Hr.
  { injection Hr as <- <-. exists []. by split_and!. }
  apply NoDup_cons in Hn as [Hni Hn]. rewrite list_elem_of_In in Hni.
  next Hr Hu. apply newID_Ok in Hu as [Hu Hid]. next Hr Ho. apply Hop in Ho as (Hnone & Hfree & Hv & Hb). rewrite Hu in Hnone, Hfree, Hv, Hb.
  next Hr He. apply keeps_event in He. apply IH in Hr as (fresh & Hb' & Hf & Hm & Hfresh & Hsame & Hrest & Huniq); [|done].
  rewrite He in Hb', Hfresh, Hsame, Huniq. rewrite Hv in Hfresh, Hsame, Huniq.
  assert (~ In x fresh) as Hx by (intros Hx; destruct (Hfresh x Hx) as [Hl _]; by rewrite lookup_insert_eq in Hl).
  exists (x :: fresh). split_and!.
  - congruence.
  - constructor; [|done]. by rewrite Hsame, lookup_insert_eq.
  - constructor; [|done]. by rewrite Hrest, lookup_insert_eq.
  - intros id [<-|Hin]; [done|]. destruct (Hfresh id Hin) as [Hl ?]. split; [|done]. by apply lookup_insert_None in Hl as [? _].
  - intros id Hn'. rewrite Hsame by (intros ?; apply Hn'; by right). rewrite lookup_insert_ne; [done|]. intros <-. apply Hn'. by left.
  - intros n Hn'. rewrite Hrest by (intros ?; apply Hn'; by right). rewrite lookup_insert_ne; [done|]. intros <-. apply Hn'. by left.
  - intros Hun. apply Huniq. by apply unique_insert.
Qed.
End Kind.

Lemma renames_env X : renames envNames besideEnvs (renameEnv X).
Proof.
  intros id n w u w' Hr. unfold renameEnv in Hr. next Hr Ha. apply check_Ok in Ha as [_ ->]. unfold Environments_Rename in Hr.
  destruct (environments w !! id) as [e|] eqn:He; [|done]. destruct (nameTaken _ _ _ _) eqn:Hf; [done|]. apply nameTaken_false in Hf. injection Hr as _ <-.
  unfold envNames, besideEnvs, tablesOf. cbn. rewrite lookup_fmap, He, fmap_insert. split_and!; [by eexists|done..].
Qed.

Lemma makes_env : makes envNames besideEnvs createEnv.
Proof.
  intros id n w u w' Hr. unfold createEnv in Hr. next Hr Ho. injection Ho as _ <-. unfold Environments_Create in Hr.
  destruct (environments w !! id) as [e|] eqn:He; [done|]. destruct (_ || _) eqn:Hf; [done|]. apply orb_false_iff in Hf as [Hf%nameTaken_false _]. injection Hr as _ <-.
  unfold envNames, besideEnvs, tablesOf. cbn. rewrite lookup_fmap, He, fmap_insert. by split_and!.
Qed.

Lemma renames_group : renames t_groups besideGroups RenameGroup.
Proof.
  intros id n w u w' Hr. unfold RenameGroup in Hr. destruct (key_groups w !! id) as [e|] eqn:He; [|done].
  destruct (nameTaken _ _ _ _) eqn:Hf; [done|]. apply nameTaken_false in Hf. rewrite map_fmap_id in Hf.
  injection Hr as _ <-. unfold besideGroups, tablesOf. cbn. rewrite He. split_and!; [by eexists|done..].
Qed.

Lemma makes_group : makes t_groups besideGroups CreateGroup.
Proof.
  intros id n w u w' Hr. unfold CreateGroup in Hr. destruct (key_groups w !! id) as [e|] eqn:He; [done|].
  destruct (nameTaken _ _ _ _) eqn:Hf; [done|]. apply nameTaken_false in Hf. rewrite map_fmap_id in Hf.
  injection Hr as _ <-. unfold besideGroups, tablesOf. cbn. by rewrite He.
Qed.

Lemma renames_key : renames keyNames besideNames Catalogue_Rename.
Proof.
  intros id n w u w' Hr. unfold Catalogue_Rename, updateKeyRow in Hr. destruct (keys w !! id) as [row|] eqn:He; [|done].
  destruct (nameTaken _ _ _ _) eqn:Hf; [done|]. apply nameTaken_false in Hf. injection Hr as _ <-. unfold keyNames, besideNames, keyBodies, tablesOf. cbn.
  rewrite lookup_fmap, He, !fmap_insert. split_and!; [by eexists|done|done|]. f_equal. f_equal. f_equal. apply insert_id. by rewrite lookup_fmap, He.
Qed.

(** ** Keys *)
Lemma resolveNames_Ok em names : forall ids, resolveNames names em = Ok ids -> Forall2 (fun n id => em !! n = Some id) names ids.
Proof.
  induction names as [|n names IH]; intros ids Hr; cbn [resolveNames] in Hr; [injection Hr as <-; constructor|].
  destruct (em !! n) eqn:He; [|done]. apply bind_Ok in Hr as (ids' & Hr & [= <-]). constructor; [done|by apply IH].
Qed.

(** The rules a key's names stand for. *)
Record resolves (em : gmap string string) (k : Key) (p : PresenceRules) : Prop := {
  rp_req_mode : p_Mode (Required p) = p_Mode (k_RequiredIn k);
  rp_forb_mode : p_Mode (Forbidden p) = p_Mode (k_ForbiddenIn k);
  rp_req : Forall2 (fun n id => em !! n = Some id) (p_Environments (k_RequiredIn k)) (p_Environments (Required p));
  rp_forb : Forall2 (fun n id => em !! n = Some id) (p_Environments (k_ForbiddenIn k)) (p_Environments (Forbidden p)) }.

Lemma resolvePresence_Ok em k p : resolvePresence k em = Ok p -> resolves em k p.
Proof.
  unfold resolvePresence, resolvePresenceRule. intros Hr. apply bind_Ok in Hr as (req & Hq & Hr). apply bind_Ok in Hr as (forb & Hf & [= <-]).
  apply bind_Ok in Hq as (ids & Hq%resolveNames_Ok & [= <-]). apply bind_Ok in Hf as (ids' & Hf%resolveNames_Ok & [= <-]). by split.
Qed.

Lemma canonicalOf_Ok d s : canonicalOf d = Ok s -> compiledCanonical d = Ok s.
Proof. unfold canonicalOf. by destruct (compiledCanonical d). Qed.

Lemma presenceRowsFor_key id p r : In r (presenceRowsFor id p) -> kp_KeyID r = id.
Proof.
  unfold presenceRowsFor. intros Hin. apply in_app_iff in Hin as [Hin|Hin]; destruct (_ =s _) in Hin; try done;
    by apply in_map_iff in Hin as (? & <- & _).
Qed.

Definition newRow (k : Key) (p : PresenceRules) (canonical : string) (gm : gmap string string) : CatalogueKey :=
  MkCatalogueKey (k_Name k) (k_FolderPath k) (k_Classification k) (k_Description k) (k_Deprecated k) (k_DeprecationNote k)
    canonical (p_Mode (Required p)) (p_Mode (Forbidden p)) (groupIDFor k gm).

Lemma createKey_Ok k d em gm w u w' : createKey k d em gm w = (Ok u, w') ->
  exists id p canonical, resolves em k p /\ compiledCanonical d = Ok canonical /\ (exists uuid, id = "key" +:+ "_" +:+ uuid) /\
    keys w !! id = None /\ nameFree (keyNames (tablesOf w)) id (k_Name k) /\
    tablesOf w' = MkTables (environments w) (key_groups w) (<[ id := newRow k p canonical gm ]> (keys w))
      (List.filter (fun r => negb (kp_KeyID r =s id)) (key_presence w) ++ presenceRowsFor id p) (value_entries w).
Proof.
  intros Hr. unfold createKey in Hr. next Hr Hp. apply result_Ok in Hp as [Hp ->]. apply resolvePresence_Ok in Hp.
  next Hr Hc. apply check_Ok in Hc as [_ ->]. next Hr Hc. apply result_Ok in Hc as [Hc%canonicalOf_Ok ->].
  next Hr Hu. apply newID_Ok in Hu as [Hu Hid]. next Hr Hk. unfold Catalogue_Create in Hk.
  injection Hu as E1 E2 E3 E4 E5. rewrite E3 in Hk. destruct (keys w !! _) eqn:Hnone in Hk; [done|].
  destruct (_ || _) eqn:Hf in Hk; [done|]. injection Hk as _ <-. repeat (apply orb_false_iff in Hf as [Hf _]). apply nameTaken_false in Hf.
  next Hr Hr'. apply ReplacePresence_Ok in Hr' as (Ht & _ & _); [|by intros r; apply presenceRowsFor_key].
  apply keeps_event in Hr. rewrite Hr, Ht. cbn [set_keys environments key_groups keys key_presence value_entries].
  rewrite E1, E2, E4, E5. eexists _, _, _. by split_and!.
Qed.

(** A step on one key's row and presence rows. *)
Definition touches (id : string) (f : CatalogueKey -> CatalogueKey) (g : list KeyPresence -> list KeyPresence) (m : ST World ()) : Prop :=
  forall row w u w', keys w !! id = Some row -> m w = (Ok u, w') ->
    tablesOf w' = MkTables (environments w) (key_groups w) (<[ id := f row ]> (keys w)) (g (key_presence w)) (value_entries w).

Definition asIs {A} (x : A) : A := x.

Lemma touches_then id f1 g1 f2 g2 m1 m2 : touches id f1 g1 m1 -> touches id f2 g2 m2 ->
  touches id (fun r => f2 (f1 r)) (fun l => g2 (g1 l)) (m1 ;; m2).
Proof.
  intros H1 H2 row w u w' Hk Hr. next Hr Hm. apply (H1 row) in Hm; [|done]. injection Hm as E1 E2 E3 E4 E5.
  apply (H2 (f1 row)) in Hr; [|by rewrite E3, lookup_insert_eq]. by rewrite Hr, E1, E2, E3, E4, E5, insert_insert_eq.
Qed.

Lemma touches_keeps id (m : ST World ()) : keeps m -> touches id asIs asIs m.
Proof. intros Hm row w u w' Hk Hr. apply Hm in Hr. unfold asIs. rewrite Hr, insert_id by done. done. Qed.

Lemma touches_row id bad f : touches id f asIs (updateKeyRow id bad f).
Proof. intros row w u w' Hk Hr. unfold updateKeyRow in Hr. rewrite Hk in Hr. destruct (bad w); [done|]. by injection Hr as _ <-. Qed.

Lemma touches_presence id (rows : list KeyPresence) : (forall r, In r rows -> kp_KeyID r = id) ->
  touches id asIs (fun l => List.filter (fun r : KeyPresence => negb (kp_KeyID r =s id)) l ++ rows) (ReplacePresence id rows).
Proof.
  intros Hrows row w u w' Hk Hr. apply ReplacePresence_Ok in Hr as (Ht & _ & _); [|done]. unfold asIs. by rewrite Ht, insert_id.
Qed.

Lemma touches_when id f g (b : bool) m : touches id f g m -> touches id (if b then f else asIs) (if b then g else asIs) (when b m).
Proof. intros Hm. destruct b; [done|]. apply touches_keeps. apply keeps_ret. Qed.

Lemma touches_check id (r : result ()) : touches id asIs asIs (st_result r).
Proof. apply touches_keeps, keeps_result. Qed.

(** The row and the presence rows an update leaves. *)
Definition updatedRow (u : KeyUpdate) (p : PresenceRules) (canonical : string) (gm : gmap string string) (r : CatalogueKey) : CatalogueKey :=
  let k := u_Desired u in
  let r := if u_MetaChanged u then withMetadata (k_FolderPath k) (k_Description k) (k_Deprecated k) (k_DeprecationNote k) r else r in
  let r := if u_DeclChanged u || u_PresenceChanged u then withDeclaration canonical (p_Mode (Required p)) (p_Mode (Forbidden p)) r else r in
  let r := if u_Reclassified u then withClassification (k_Classification k) r else r in
  if u_GroupChanged u then withGroup (groupIDFor k gm) r else r.

Definition updatedPresence (u : KeyUpdate) (p : PresenceRules) (l : list KeyPresence) : list KeyPresence :=
  if u_DeclChanged u || u_PresenceChanged u
  then List.filter (fun r => negb (kp_KeyID r =s u_ID u)) l ++ presenceRowsFor (u_ID u) p else l.

Lemma keeps_get id : keeps (Catalogue_Get id).
Proof. by intros w a w' [_ ->]%Catalogue_Get_Ok. Qed.

Lemma keeps_pinned id : keeps (refuseAdapterPinnedKey id).
Proof. by intros w a w' ->%refuseAdapterPinnedKey_Ok. Qed.

Lemma keeps_dismissals b id : keeps (when b (DeleteByKey id)).
Proof. destruct b; [by apply keeps_modify|apply keeps_ret]. Qed.

Lemma touches_reclassify (u : KeyUpdate) (m : ST World ()) : keeps m ->
  touches (u_ID u) (withClassification (k_Classification (u_Desired u))) asIs
    (Catalogue_Get (u_ID u) ;; refuseAdapterPinnedKey (u_ID u) ;;
     (if (u_PrevClassification u =s Secret) && (k_Classification (u_Desired u) =s Config) then st_err refuseApplyDeclassification else mret ()) ;;
     SetClassification (u_ID u) (k_Classification (u_Desired u)) ;; m).
Proof.
  intros Hm row w v w' Hk Hr. next Hr H1. apply Catalogue_Get_Ok in H1 as [_ ->]. next Hr H1. apply refuseAdapterPinnedKey_Ok in H1 as ->.
  next Hr H1. destruct (_ && _) in H1; [done|]. injection H1 as _ <-. next Hr H1. apply (touches_row _ _ _ row) in H1; [|done].
  apply Hm in Hr. by rewrite Hr, H1.
Qed.

Lemma touches_metadata id folder desc depr note (m : ST World ()) : keeps m ->
  touches id (withMetadata folder desc depr note) asIs (UpdateMetadata id folder desc depr note ;; m).
Proof. intros Hm. apply (touches_then id _ _ asIs asIs); [apply touches_row|by apply touches_keeps]. Qed.

Lemma touches_group id g (m : ST World ()) : keeps m -> touches id (withGroup g) asIs (SetGroup id g ;; m).
Proof. intros Hm. apply (touches_then id _ _ asIs asIs); [apply touches_row|by apply touches_keeps]. Qed.

Lemma touches_declaration id canonical (p : PresenceRules) (m : ST World ()) : keeps m ->
  touches id (withDeclaration canonical (p_Mode (Required p)) (p_Mode (Forbidden p)))
    (fun l => List.filter (fun r : KeyPresence => negb (kp_KeyID r =s id)) l ++ presenceRowsFor id p)
    (UpdateDeclaration id canonical (p_Mode (Required p)) (p_Mode (Forbidden p)) ;; ReplacePresence id (presenceRowsFor id p) ;; m).
Proof.
  intros Hm. apply (touches_then id _ asIs asIs (fun l => List.filter (fun r : KeyPresence => negb (kp_KeyID r =s id)) l ++ presenceRowsFor id p)); [apply touches_row|].
  apply (touches_then id asIs _ asIs asIs); [apply touches_presence; by intros r; apply presenceRowsFor_key|by apply touches_keeps].
Qed.

(** The declaration block, with the canonical text when it is used. *)
Lemma when_declaration (b : bool) id d (p : PresenceRules) (m : ST World ()) w v w' row : keeps m ->
  when b (canonical ← st_result (canonicalOf d);
          UpdateDeclaration id canonical (p_Mode (Required p)) (p_Mode (Forbidden p)) ;; ReplacePresence id (presenceRowsFor id p) ;; m) w = (Ok v, w') ->
  keys w !! id = Some row ->
  exists canonical, (b = true -> compiledCanonical d = Ok canonical) /\
    tablesOf w' = MkTables (environments w) (key_groups w)
      (<[ id := if b then withDeclaration canonical (p_Mode (Required p)) (p_Mode (Forbidden p)) row else row ]> (keys w))
      (if b then List.filter (fun r => negb (kp_KeyID r =s id)) (key_presence w) ++ presenceRowsFor id p else key_presence w) (value_entries w).
Proof.
  intros Hm Hr Hk. destruct b; cbn [when] in Hr.
  - next Hr Hc. apply result_Ok in Hc as [Hc%canonicalOf_Ok ->]. exists x. split; [done|].
    by apply (touches_declaration id x p m Hm row) in Hr.
  - exists "". split; [done|]. injection Hr as _ <-. by rewrite insert_id.
Qed.

Lemma updateKey_Ok u d em gm rev w v w' row : updateKey u d em gm rev w = (Ok v, w') -> keys w !! u_ID u = Some row ->
  exists p canonical, resolves em (u_Desired u) p /\ (u_DeclChanged u || u_PresenceChanged u = true -> compiledCanonical d = Ok canonical) /\
    tablesOf w' = MkTables (environments w) (key_groups w) (<[ u_ID u := updatedRow u p canonical gm row ]> (keys w))
      (updatedPresence u p (key_presence w)) (value_entries w).
Proof.
  intros Hr Hk. unfold updateKey in Hr. next Hr H1. apply Catalogue_Get_Ok in H1 as [_ ->].
  next Hr Hp. apply result_Ok in Hp as [Hp%resolvePresence_Ok ->]. next Hr Hc. apply check_Ok in Hc as [_ ->].
  next Hr HA. apply (touches_when _ _ _ _ _ (touches_metadata _ _ _ _ _ _ (keeps_event _ _ _ _)) row) in HA; [|done].
  injection HA as A1 A2 A3 A4 A5. next Hr HB. eapply when_declaration in HB as (canonical & Hcan & HB); [|apply keeps_event|by rewrite A3, lookup_insert_eq].
  injection HB as B1 B2 B3 B4 B5. rewrite A3, insert_insert_eq in B3.
  next Hr HC. eapply (touches_when _ _ _ _ _ (touches_reclassify u _ (keeps_bind _ _ (keeps_dismissals _ _) (fun _ => keeps_event _ _ _ _)))) in HC;
    [|by rewrite B3, lookup_insert_eq].
  injection HC as C1 C2 C3 C4 C5. rewrite B3, insert_insert_eq in C3.
  eapply (touches_when _ _ _ _ _ (touches_group _ _ _ (keeps_event _ _ _ _))) in Hr; [|by rewrite C3, lookup_insert_eq].
  rewrite C3, insert_insert_eq in Hr. eexists _, canonical. split_and!; [done..|]. rewrite Hr. clear Hr.
  rewrite C1, C2, C4, C5, B1, B2, B4, B5, A1, A2, A4, A5. unfold updatedRow, updatedPresence, asIs.
  f_equal; [by destruct (u_MetaChanged u), (u_DeclChanged u || u_PresenceChanged u), (u_Reclassified u), (u_GroupChanged u)|].
  by destruct (u_MetaChanged u), (u_DeclChanged u || u_PresenceChanged u), (u_Reclassified u), (u_GroupChanged u).
Qed.

(** *** One key's presence rows *)
Lemma rowsOf_replaced id id' (l rows : list KeyPresence) : (forall r, In r rows -> kp_KeyID r = id') ->
  rowsOf id (List.filter (fun r => negb (kp_KeyID r =s id')) l ++ rows) = if id =s id' then rows else rowsOf id l.
Proof.
  intros Hrows. unfold rowsOf. rewrite List.filter_app, filter_filter. destruct (String.eqb_spec id id') as [->|Hne].
  - rewrite (filter_true _ rows) by (intros r Hr; rewrite (Hrows r Hr); apply String.eqb_refl).
    rewrite (filter_ext _ (fun _ => false)); [by rewrite filter_false|]. intros r. apply andb_negb_l.
  - rewrite (filter_ext_in _ (fun _ => false) rows).
    + rewrite filter_false, app_nil_r. apply filter_ext. intros r. destruct (String.eqb_spec (kp_KeyID r) id') as [->|]; [|done].
      cbn. symmetry. apply String.eqb_neq. congruence.
    + intros r Hr. rewrite (Hrows r Hr). apply String.eqb_neq. congruence.
Qed.

(** *** The loops *)
Record sameKey (w w' : World) (id : string) : Prop := {
  sk_row : keys w' !! id = keys w !! id;
  sk_rows : rowsOf id (key_presence w') = rowsOf id (key_presence w) }.

Definition sideTables (w : World) := (environments w, key_groups w, value_entries w).

(** A key the executor created. *)
Definition created (compiledKeys : list Key) (em gm : gmap string string) (w' : World) (k : Key) (id : string) : Prop :=
  exists d p canonical, CompiledDeclaration compiledKeys (k_Name k) = Ok d /\ compiledCanonical d = Ok canonical /\ resolves em k p /\
    keys w' !! id = Some (newRow k p canonical gm) /\ rowsOf id (key_presence w') = presenceRowsFor id p.

Lemma createKeys_Ok cks em gm ks : forall w u w', createKeys cks ks em gm w = (Ok u, w') ->
  exists fresh, Forall2 (created cks em gm w') ks fresh /\ (forall id, In id fresh -> keys w !! id = None /\ exists uuid, id = "key" +:+ "_" +:+ uuid) /\
    (forall id, ~ In id fresh -> sameKey w w' id) /\ sideTables w' = sideTables w /\
    (unique (keyNames (tablesOf w)) -> unique (keyNames (tablesOf w'))).
Proof.
  induction ks as [|k ks IH]; intros w u w' Hr; cbn [createKeys] in Hr.
  { injection Hr as _ <-. exists []. by split_and!. }
  next Hr Hd. apply result_Ok in Hd as [Hd ->]. next Hr Hk.
  apply createKey_Ok in Hk as (id & p & canonical & Hp & Hcan & Hid & Hnone & Hfree & Ht).
  apply IH in Hr as (fresh & Hall & Hfresh & Hsame & Hside & Huniq). injection Ht as T1 T2 T3 T4 T5. rewrite T3 in Hfresh.
  assert (~ In id fresh) as Hni by (intros Hin; destruct (Hfresh id Hin) as [Hx _]; by rewrite lookup_insert_eq in Hx).
  exists (id :: fresh). split_and!.
  - constructor; [|done]. destruct (Hsame id Hni) as [Hrow Hrows]. exists x, p, canonical. split_and!; [done..| |].
    + by rewrite Hrow, T3, lookup_insert_eq.
    + rewrite Hrows, T4, rowsOf_replaced by (by intros r; apply presenceRowsFor_key). by rewrite String.eqb_refl.
  - intros id' [<-|Hin]; [done|]. destruct (Hfresh id' Hin) as [Hx ?]. split; [|done]. by apply lookup_insert_None in Hx as [? _].
  - intros id' Hn'. assert (id <> id') as Hne by (intros ->; apply Hn'; by left).
    destruct (Hsame id') as [Hrow Hrows]; [intros ?; apply Hn'; by right|]. split.
    + by rewrite Hrow, T3, lookup_insert_ne.
    + rewrite Hrows, T4, rowsOf_replaced by (by intros r; apply presenceRowsFor_key). by destruct (String.eqb_spec id' id).
  - rewrite Hside. unfold sideTables. congruence.
  - intros Hu. apply Huniq. unfold keyNames in *. cbn [tablesOf t_keys] in *. rewrite T3, fmap_insert. by apply unique_insert.
Qed.

(** A key the executor updated. *)
Definition updated (compiledKeys : list Key) (em gm : gmap string string) (w w' : World) (u : KeyUpdate) : Prop :=
  exists row d p canonical, keys w !! u_ID u = Some row /\ CompiledDeclaration compiledKeys (k_Name (u_Desired u)) = Ok d /\
    resolves em (u_Desired u) p /\ (u_DeclChanged u || u_PresenceChanged u = true -> compiledCanonical d = Ok canonical) /\
    keys w' !! u_ID u = Some (updatedRow u p canonical gm row) /\
    rowsOf (u_ID u) (key_presence w') = (if u_DeclChanged u || u_PresenceChanged u then presenceRowsFor (u_ID u) p else rowsOf (u_ID u) (key_presence w)).

Lemma updatedRow_name u p canonical gm r : ca_Name (updatedRow u p canonical gm r) = ca_Name r.
Proof.
  unfold updatedRow. by destruct (u_MetaChanged u), (u_DeclChanged u || u_PresenceChanged u), (u_Reclassified u), (u_GroupChanged u).
Qed.

Lemma updatedPresence_rows u p l id : rowsOf id (updatedPresence u p l) =
  if (id =s u_ID u) && (u_DeclChanged u || u_PresenceChanged u) then presenceRowsFor (u_ID u) p else rowsOf id l.
Proof.
  unfold updatedPresence. destruct (_ || _); [|by rewrite andb_false_r]. rewrite rowsOf_replaced by (by intros r; apply presenceRowsFor_key).
  by rewrite andb_true_r.
Qed.

Lemma updateKeys_Ok cks em gm rev us : forall w v w', NoDup (map u_ID us) -> updateKeys cks us em gm rev w = (Ok v, w') ->
  (forall u, In u us -> updated cks em gm w w' u) /\ (forall id, ~ In id (map u_ID us) -> sameKey w w' id) /\
  sideTables w' = sideTables w /\ keyNames (tablesOf w') = keyNames (tablesOf w).
Proof.
  induction us as [|u us IH]; intros w v w' Hn Hr; cbn [updateKeys] in Hr.
  { injection Hr as _ <-. by split_and!. }
  cbn [map] in Hn. apply NoDup_cons in Hn as [Hni Hn]. rewrite list_elem_of_In in Hni.
  next Hr Hd. apply result_Ok in Hd as [Hd ->]. next Hr Hk.
  assert (exists row, keys w !! u_ID u = Some row) as [row Hrow].
  { unfold updateKey in Hk. next Hk Hg. apply Catalogue_Get_Ok in Hg as [Hg _]. by eexists. }
  apply (updateKey_Ok _ _ _ _ _ _ _ _ row) in Hk as (p & canonical & Hp & Hcan & Ht); [|done].
  apply IH in Hr as (Hall & Hsame & Hside & Hnames); [|done]. injection Ht as T1 T2 T3 T4 T5.
  assert (forall id, id <> u_ID u -> sameKey w x1 id) as Hfirst.
  { intros id Hne. split; [by rewrite T3, lookup_insert_ne|]. rewrite T4, updatedPresence_rows. by destruct (String.eqb_spec id (u_ID u)). }
  split_and!.
  - intros u' [<-|Hin].
    + destruct (Hsame (u_ID u) Hni) as [Hr1 Hr2]. exists row, x, p, canonical. split_and!; [done..| |].
      * by rewrite Hr1, T3, lookup_insert_eq.
      * rewrite Hr2, T4, updatedPresence_rows, String.eqb_refl. cbn [andb]. by destruct (_ || _).
    + destruct (Hall u' Hin) as (row' & d' & p' & can' & H1 & H2 & H3 & H4 & H5 & H6).
      destruct (Hfirst (u_ID u')) as [Hr1 Hr2]; [intros He; apply Hni; rewrite <- He; by apply in_map|].
      exists row', d', p', can'. rewrite <- Hr1, <- Hr2. by split_and!.
  - intros id Hn'. destruct (Hsame id) as [Hr1 Hr2]; [intros ?; apply Hn'; by right|].
    destruct (Hfirst id) as [Hf1 Hf2]; [intros ->; apply Hn'; by left|]. split; congruence.
  - rewrite Hside. unfold sideTables. congruence.
  - rewrite Hnames. unfold keyNames, tablesOf. cbn [t_keys]. rewrite T3, fmap_insert, updatedRow_name. apply insert_id. by rewrite lookup_fmap, Hrow.
Qed.
End Steps.
