(* ===== verification/DefinitionsMatch.v ===== *)
(** * What matching a bundle gives

    The pairing of entries with identities that [matchEntities] returns, and the
    names a kind ends up with once the pairing has been executed. *)

From S2P Require Import Prelude Domain Schema Definitions DefinitionsSpec DefinitionsExport DefinitionsStore DefinitionsApply DefinitionsSteps.

#[local] Open Scope Z_scope.

(** ** The pairing *)
Record matched (bundle current : list entity) (additive : bool) (bound dels : list string) : Prop := {
  mt_length : length bound = length bundle;
  mt_names : NoDup (map en_name bundle);
  mt_id : forall i e b, bundle !! i = Some e -> bound !! i = Some b -> en_id e = "" \/ en_id e = b;
  mt_current : forall i b, bound !! i = Some b -> b <> "" -> In b (map en_id current);
  mt_inj : forall i j b, bound !! i = Some b -> bound !! j = Some b -> b <> "" -> i = j;
  mt_name : forall i e b, bundle !! i = Some e -> bound !! i = Some b -> en_id e = "" -> b <> "" -> byName current !! en_name e = Some b;
  mt_free : forall i e, bundle !! i = Some e -> bound !! i = Some "" ->
    byName current !! en_name e = None \/ exists b, byName current !! en_name e = Some b /\ In b bound;
  mt_dels : forall id, In id dels <-> additive = false /\ In id (map en_id current) /\ ~ In id bound }.

Lemma bindIDs_Ok kind ids bundle : forall i m bound m', bindIDs kind ids i bundle m = Ok (bound, m') ->
  bound = map en_id bundle /\
  (forall e, In e bundle -> en_id e <> "" -> In (en_id e) ids /\ m !! en_id e = None) /\
  (forall j j' e e', bundle !! j = Some e -> bundle !! j' = Some e' -> en_id e = en_id e' -> en_id e <> "" -> j = j') /\
  (forall id, is_Some (m' !! id) <-> is_Some (m !! id) \/ (id <> "" /\ In id bound)).
Proof.
  induction bundle as [|e bundle IH]; intros i m bound m' Hb; cbn [bindIDs] in Hb.
  { injection Hb as <- <-. split_and!; [done..|]. intros id. split; [by left|]. intros [?|[_ []]]. done. }
  destruct (String.eqb_spec (en_id e) "") as [He|He].
  - apply bind_Ok in Hb as ([bound0 m0] & Hb & [= <- <-]). apply IH in Hb as (-> & Hin & Hinj & Hm). split_and!.
    + cbn [map]. by rewrite He.
    + intros e' [<-|?] ?; [done|]. by apply Hin.
    + intros [|j] [|j'] e1 e2 H1 H2 Heq Hne; [done|injection H1 as <-; done|injection H2 as <-; congruence|]. f_equal. by eapply Hinj.
    + intros id. rewrite Hm. split; [intros [?|[? ?]]; [by left|right; split; [done|by right]]|].
      intros [?|[Hne [<-|?]]]; [by left|done|by right].
  - destruct (contains ids (en_id e)) eqn:Hc; [|done]. cbn [negb] in Hb. destruct (m !! en_id e) eqn:Hm0; [done|].
    apply bind_Ok in Hb as ([bound0 m0] & Hb & [= <- <-]). apply IH in Hb as (-> & Hin & Hinj & Hm). split_and!.
    + done.
    + intros e' [<-|Hi] Hne; [by apply contains_In in Hc|]. destruct (Hin e' Hi Hne) as [? Hl]. split; [done|].
      apply lookup_insert_None in Hl as [Hl _]. done.
    + assert (forall j e', bundle !! j = Some e' -> en_id e' <> en_id e) as Hd.
      { intros j e' Hj Heq. destruct (Hin e') as [_ Hl]; [by eapply list_elem_of_In, list_elem_of_lookup_2|by rewrite Heq|].
        by rewrite Heq, lookup_insert_eq in Hl. }
      intros [|j] [|j'] e1 e2 H1 H2 Heq Hne; [done| | |f_equal; by eapply Hinj].
      * injection H1 as <-. exfalso. by eapply (Hd j' e2).
      * injection H2 as <-. exfalso. by eapply (Hd j e1).
    + intros id. rewrite Hm. destruct (decide (en_id e = id)) as [<-|Hne].
      * rewrite lookup_insert_eq. split; [intros _; right; split; [done|by left]|]. intros _. left. by eexists.
      * rewrite lookup_insert_ne by done. split; [intros [?|[? ?]]; [by left|right; split; [done|by right]]|].
        intros [?|[? [?|?]]]; [by left|done|by right].
Qed.

(** The second pass, over the identities [m] already taken. *)
Record paired (names : gmap string string) (bundle : list entity) (m : gmap string nat) (bound : list string) (m' : gmap string nat) : Prop := {
  pr_length : length bound = length bundle;
  pr_id : forall j e b, bundle !! j = Some e -> bound !! j = Some b -> en_id e = "" \/ en_id e = b;
  pr_name : forall j e b, bundle !! j = Some e -> bound !! j = Some b -> en_id e = "" -> b <> "" -> names !! en_name e = Some b /\ m !! b = None;
  pr_inj : forall j j' e e' b, bundle !! j = Some e -> en_id e = "" -> bundle !! j' = Some e' -> en_id e' = "" ->
    bound !! j = Some b -> bound !! j' = Some b -> b <> "" -> j = j';
  pr_free : forall j e, bundle !! j = Some e -> bound !! j = Some "" ->
    names !! en_name e = None \/ exists b, names !! en_name e = Some b /\ (is_Some (m !! b) \/ In b bound);
  pr_taken : forall id, is_Some (m' !! id) <->
    is_Some (m !! id) \/ exists j e, bundle !! j = Some e /\ en_id e = "" /\ bound !! j = Some id /\ id <> "" }.

(** An entry that keeps its own id, or stays unbound. *)
Lemma paired_keep names e bundle m bound m' : paired names bundle m bound m' ->
  (en_id e = "" -> names !! en_name e = None \/ exists b, names !! en_name e = Some b /\ is_Some (m !! b)) ->
  paired names (e :: bundle) m (en_id e :: bound) m'.
Proof.
  intros [Hl Hid Hnm Hinj Hfree Hm'] He. split.
  - cbn. by rewrite Hl.
  - intros [|j] e' b Hj Hbj; [injection Hj as <-; injection Hbj as <-; by right|by eapply Hid].
  - intros [|j] e' b Hj Hbj; [injection Hj as <-; injection Hbj as <-; intros ->; done|by eapply Hnm].
  - intros [|j] [|j'] e1 e2 b H1 He1 H2 He2 Hb1 Hb2 Hne; [done| | |f_equal; by eapply Hinj].
    + injection H1 as <-. injection Hb1 as <-. done.
    + injection H2 as <-. injection Hb2 as <-. done.
  - intros [|j] e' Hj Hbj.
    + injection Hj as <-. injection Hbj as Hbj. destruct (He Hbj) as [?|(b & ? & ?)]; [by left|right; eauto].
    + destruct (Hfree j e' Hj Hbj) as [?|(b & ? & [?|?])]; [by left|right; eauto|right; exists b; split; [done|right; by right]].
  - intros id. rewrite Hm'. split; [intros [?|(j & e' & ?)]; [by left|right; by exists (S j), e']|].
    intros [?|([|j] & e' & Hj & Hi & Hx & ?)]; [by left| |right; by exists j, e']. injection Hj as <-. injection Hx as <-. done.
Qed.

(** An entry that takes the identity of its name. *)
Lemma paired_bind names e bundle m i id bound m' : en_id e = "" -> names !! en_name e = Some id -> id <> "" -> m !! id = None ->
  paired names bundle (<[ id := i ]> m) bound m' -> paired names (e :: bundle) m (id :: bound) m'.
Proof.
  intros He Hn Hne0 Hm [Hl Hid Hnm Hinj Hfree Hm'].
  assert (forall j e', bundle !! j = Some e' -> en_id e' = "" -> bound !! j <> Some id) as Hd.
  { intros j e' Hj He' Hbj. destruct (Hnm j e' id Hj Hbj He' Hne0) as [_ Hx]. by rewrite lookup_insert_eq in Hx. }
  split.
  - cbn. by rewrite Hl.
  - intros [|j] e' b Hj Hbj; [injection Hj as <-; by left|by eapply Hid].
  - intros [|j] e' b Hj Hbj He' Hne; [injection Hj as <-; injection Hbj as <-; done|].
    destruct (Hnm j e' b Hj Hbj He' Hne) as [? Hx]. split; [done|]. apply lookup_insert_None in Hx as [? _]. done.
  - intros [|j] [|j'] e1 e2 b H1 He1 H2 He2 Hb1 Hb2 Hne; [done| | |f_equal; by eapply Hinj].
    + injection Hb1 as <-. by destruct (Hd j' e2 H2 He2).
    + injection Hb2 as <-. by destruct (Hd j e1 H1 He1).
  - intros [|j] e' Hj Hbj; [by injection Hbj|].
    destruct (Hfree j e' Hj Hbj) as [?|(b & Hb & [Hx|?])]; [by left| |right; exists b; split; [done|right; by right]].
    right. exists b. split; [done|]. destruct (decide (id = b)) as [<-|]; [right; by left|]. rewrite lookup_insert_ne in Hx by done. by left.
  - intros id'. rewrite Hm'. destruct (decide (id = id')) as [<-|Hne].
    + rewrite lookup_insert_eq. split; [intros _; right; by exists 0%nat, e|intros _; left; by eexists].
    + rewrite lookup_insert_ne by done. split; [intros [?|(j & e' & ?)]; [by left|right; by exists (S j), e']|].
      intros [?|([|j] & e' & Hj & ? & Hx & ?)]; [by left|injection Hx as <-; done|right; by exists j, e'].
Qed.

Lemma bindNames_Ok names bundle : forall i m bound new m', (forall n id, names !! n = Some id -> id <> "") ->
  bindNames names i bundle (map en_id bundle) m = (bound, new, m') -> paired names bundle m bound m'.
Proof.
  induction bundle as [|e bundle IH]; intros i m bound new m' Hnames Hb; cbn [map bindNames] in Hb.
  { injection Hb as <- <- <-. split; try done. intros id. split; [by left|]. intros [?|(? & ? & ? & _)]; done. }
  destruct (String.eqb_spec (en_id e) "") as [He|He]; cbn [negb] in Hb.
  - destruct (names !! en_name e) as [dbID|] eqn:Hn; [destruct (m !! dbID) eqn:Hm|].
    + destruct (bindNames names (S i) bundle (map en_id bundle) m) as [[bound0 new0] m0] eqn:Hr. injection Hb as <- <- <-.
      rewrite <- He. apply paired_keep; [by eapply IH|]. intros _. right. exists dbID. split; [done|]. rewrite Hm. by eexists.
    + destruct (bindNames names (S i) bundle (map en_id bundle) (<[dbID:=i]> m)) as [[bound0 new0] m0] eqn:Hr. injection Hb as <- <- <-.
      apply (paired_bind names e bundle m i dbID); [done..|by eapply Hnames|done|by eapply IH].
    + destruct (bindNames names (S i) bundle (map en_id bundle) m) as [[bound0 new0] m0] eqn:Hr. injection Hb as <- <- <-.
      rewrite <- He. apply paired_keep; [by eapply IH|]. by left.
  - destruct (bindNames names (S i) bundle (map en_id bundle) m) as [[bound0 new0] m0] eqn:Hr. injection Hb as <- <- <-.
    apply paired_keep; [by eapply IH|done].
Qed.

(** [matchEntities] pairs. *)
Lemma match_matched kind bundle current additive m : entities_ok current -> matchEntities kind bundle current additive = Ok m ->
  matched bundle current additive (boundDBID m) (deletes m).
Proof.
  intros Hc. unfold matchEntities. intros ([ids m1] & Hi & Hm)%bind_Ok.
  apply bindIDs_Ok in Hi as (-> & Hin & Hinj & Hm1).
  destruct (bindNames _ _ _ _ _) as [[bound new] m2] eqn:Hb. destruct (dup_free ∅ _) eqn:Hd; [|done]. cbn [negb] in Hm. injection Hm as <-.
  apply dup_free_spec in Hd as [Hd _].
  apply bindNames_Ok in Hb as [Hl Hid Hnm Hinj2 Hfree Hm2]; [|intros n id Hx%byName_In; by apply (eo_nonempty _ Hc _ Hx)].
  assert (forall id, is_Some (m1 !! id) <-> id <> "" /\ In id (map en_id bundle)) as Hm1'.
  { intros id. rewrite Hm1, lookup_empty. split; [intros [[? ?]|?]; done|by right]. }
  assert (forall j e b, bundle !! j = Some e -> bound !! j = Some b -> en_id e <> "" -> is_Some (m1 !! b)) as Hidm.
  { intros j e b Hj Hb Hne. apply Hm1'. destruct (Hid j e b Hj Hb) as [?|<-]; [done|]. split; [done|].
    apply in_map, list_elem_of_In. by eapply list_elem_of_lookup_2. }
  assert (forall j b, bound !! j = Some b -> exists e, bundle !! j = Some e) as Hlk
    by (intros j b Hb; apply lookup_lt_is_Some_2; rewrite <- Hl; by eapply lookup_lt_Some).
  assert (forall id, is_Some (m2 !! id) <-> id <> "" /\ In id bound) as Htaken.
  { intros id. rewrite Hm2, Hm1'. split.
    - intros [[Hne Hi]|(j & e & Hj & He & Hb & Hne)]; (split; [done|]).
      + apply in_map_iff in Hi as (e & <- & He). apply list_elem_of_In, list_elem_of_lookup in He as [j Hj].
        destruct (lookup_lt_is_Some_2 bound j) as [b Hb]; [rewrite Hl; by eapply lookup_lt_Some|].
        destruct (Hid j e b Hj Hb) as [?| ->]; [done|]. by eapply list_elem_of_In, list_elem_of_lookup_2.
      + by eapply list_elem_of_In, list_elem_of_lookup_2.
    - intros [Hne Hinb]. apply list_elem_of_In, list_elem_of_lookup in Hinb as [j Hb]. destruct (Hlk j id Hb) as [e Hj].
      destruct (Hid j e id Hj Hb) as [He|<-]; [right; by exists j, e|].
      left. split; [done|]. apply in_map, list_elem_of_In. by eapply list_elem_of_lookup_2. }
  split; cbn [boundDBID deletes]; [done..| | | | |].
  - intros j b Hb Hne. destruct (Hlk j b Hb) as [e Hj]. destruct (decide (en_id e = "")) as [He|He].
    + destruct (Hnm j e b Hj Hb He Hne) as [Hx%byName_In _]. by apply (in_map en_id _ _ Hx).
    + destruct (Hid j e b Hj Hb) as [?|<-]; [done|]. apply Hin; [by eapply list_elem_of_In, list_elem_of_lookup_2|done].
  - intros j j' b Hb Hb' Hne. destruct (Hlk j b Hb) as [e Hj]. destruct (Hlk j' b Hb') as [e' Hj'].
    destruct (decide (en_id e = "")) as [He|He], (decide (en_id e' = "")) as [He'|He'].
    + by eapply (Hinj2 j j').
    + destruct (Hnm j e b Hj Hb He Hne) as [_ Hx]. destruct (Hidm j' e' b Hj' Hb' He') as [? Hs]. congruence.
    + destruct (Hnm j' e' b Hj' Hb' He' Hne) as [_ Hx]. destruct (Hidm j e b Hj Hb He) as [? Hs]. congruence.
    + destruct (Hid j e b Hj Hb) as [?|Hi1]; [done|]. destruct (Hid j' e' b Hj' Hb') as [?|Hi2]; [done|]. eapply Hinj; [done..|congruence|done].
  - intros j e b Hj Hb He Hne. by apply (Hnm j e b).
  - intros j e Hj Hb. destruct (Hfree j e Hj Hb) as [?|(b & Hb' & [Hx|?])]; [by left| |right; eauto].
    right. exists b. split; [done|]. apply Htaken, Hm2. by left.
  - intros id. destruct additive; [split; [done|by intros [? _]]|]. rewrite filter_In. split.
    + intros [Hi Hx]. split_and!; [done..|]. intros Hb. destruct (m2 !! id) eqn:Hm; [done|].
      assert (is_Some (m2 !! id)) as [? Hs]; [|congruence]. apply Htaken. split; [|done].
      apply in_map_iff in Hi as (e & <- & He). by apply (eo_nonempty _ Hc).
    + intros (_ & Hi & Hb). split; [done|]. destruct (m2 !! id) eqn:Hm; [|done]. destruct (proj1 (Htaken id)); [by rewrite Hm; eexists|done].
Qed.

(** ** The executed pairing

    A table of names before and after: entries without an identity got fresh
    ones, renamed identities their new names, the rest is as it was. *)
Record executed (T0 T' : gmap string string) (dels news : list string) (rens : list Rename) (fresh : list string) : Prop := {
  xe_new : Forall2 (fun n id => T' !! id = Some n) news fresh;
  xe_fresh : forall id, In id fresh -> T0 !! id = None \/ In id dels;
  xe_ren : forall r, In r rens -> T' !! rn_ID r = Some (rn_To r);
  xe_rest : forall id, ~ In id fresh -> ~ In id (map rn_ID rens) -> T' !! id = if contains dels id then None else T0 !! id }.

(** The map from final names to identities the executor builds beside it. *)
Record resolved (current : list entity) (dels : list Ref) (news : list string) (rens : list Rename) (fresh : list string) (M : gmap string string) : Prop := {
  rs_new : Forall2 (fun n id => M !! n = Some id) news fresh;
  rs_ren : forall r, In r rens -> M !! rn_To r = Some (rn_ID r);
  rs_rest : forall n, ~ In n news -> ~ In n (map rn_To rens) -> M !! n = survivors current dels !! n }.

Lemma survivors_Some current dels e : entities_ok current -> In e current -> ~ In (en_id e) (map rf_ID dels) ->
  survivors current dels !! en_name e = Some (en_id e).
Proof.
  intros Hc Hin Hd. unfold survivors. apply map_lookup_filter_Some. split; [by apply byName_Some; [apply Hc|]|]. cbn. by rewrite list_elem_of_In.
Qed.

(** How the executor gets there: deletes, parking, creates, final names. *)
Lemma executed_creates_first (T0 T2 T3 T4 : gmap string string) dels news rens fresh :
  (forall id, ~ In id (map rn_ID rens) -> T2 !! id = without dels T0 !! id) ->
  (forall id, is_Some (T2 !! id) <-> is_Some (without dels T0 !! id)) ->
  (forall id, In id (map rn_ID rens) -> is_Some (T2 !! id)) ->
  Forall2 (fun n id => T3 !! id = Some n) news fresh -> (forall id, In id fresh -> T2 !! id = None) -> (forall id, ~ In id fresh -> T3 !! id = T2 !! id) ->
  (forall id, ~ In id (map rn_ID rens) -> T4 !! id = T3 !! id) -> (forall r, In r rens -> T4 !! rn_ID r = Some (rn_To r)) ->
  executed T0 T4 dels news rens fresh.
Proof.
  intros Hp Hdom Hr Hc Hfresh Hcsame Hf Hren. split; [| |done|].
  - assert (forall id, In id fresh -> T4 !! id = T3 !! id) as He.
    { intros id Hi. apply Hf. intros Hx. destruct (Hr id Hx) as [? Hs]. rewrite (Hfresh id Hi) in Hs. done. }
    clear Hfresh Hcsame. induction Hc as [|n id news fresh Hn Hc IH]; [constructor|]. constructor; [rewrite He by (by left); done|].
    apply IH. intros id' ?. apply He. by right.
  - intros id Hi. pose proof (Hfresh id Hi) as Hn. destruct (without dels T0 !! id) eqn:Hw; [destruct (proj2 (Hdom id)) as [? Hs]; [by rewrite Hw; eexists|congruence]|].
    rewrite lookup_without in Hw. destruct (contains dels id) eqn:Hd; [right; by apply contains_In|by left].
  - intros id Hi Hx. rewrite Hf, Hcsame, Hp, lookup_without by done. done.
Qed.

Lemma executed_creates_last (T0 T2 T3 T4 : gmap string string) dels news rens fresh :
  (forall id, ~ In id (map rn_ID rens) -> T2 !! id = without dels T0 !! id) ->
  (forall id, ~ In id (map rn_ID rens) -> T3 !! id = T2 !! id) -> (forall r, In r rens -> T3 !! rn_ID r = Some (rn_To r)) ->
  Forall2 (fun n id => T4 !! id = Some n) news fresh -> (forall id, In id fresh -> T3 !! id = None) -> (forall id, ~ In id fresh -> T4 !! id = T3 !! id) ->
  executed T0 T4 dels news rens fresh.
Proof.
  intros Hp Hf Hren Hc Hfresh Hcsame.
  assert (forall id, In id fresh -> ~ In id (map rn_ID rens)) as Hx.
  { intros id Hi Hr. apply in_map_iff in Hr as (r & <- & Hr). pose proof (Hfresh _ Hi) as Hn. rewrite (Hren r Hr) in Hn. done. }
  split; [done| | |].
  - intros id Hi. pose proof (Hfresh id Hi) as Hn. rewrite Hf, Hp, lookup_without in Hn by (by apply Hx).
    destruct (contains dels id) eqn:Hd; [right; by apply contains_In|by left].
  - intros r Hr. rewrite Hcsame; [by apply Hren|]. intros Hi. apply (Hx _ Hi). by apply in_map.
  - intros id Hi Hr. rewrite Hcsame, Hf, Hp, lookup_without by done. done.
Qed.

Section Executed.
Context (bundle current : list entity) (additive : bool) (bound dels : list string).
Context (Hc : entities_ok current) (Hm : matched bundle current additive bound dels).

Let news := (topology current bundle bound).1.
Let rens := (topology current bundle bound).2.

Lemma entry_bound i e : bundle !! i = Some e -> exists b, bound !! i = Some b.
Proof. intros He. apply lookup_lt_is_Some_2. rewrite (mt_length _ _ _ _ _ Hm). by eapply lookup_lt_Some. Qed.

Lemma same_name i j e e' : bundle !! i = Some e -> bundle !! j = Some e' -> en_name e = en_name e' -> i = j.
Proof.
  intros Hi Hj Heq. pose proof (mt_names _ _ _ _ _ Hm) as Hn. change (NoDup (en_name <$> bundle)) in Hn.
  eapply NoDup_lookup; [exact Hn| |]; rewrite list_lookup_fmap; [by rewrite Hi|]. rewrite Hj. cbn. by rewrite Heq.
Qed.

Lemma news_In n : In n news <-> exists i e, bundle !! i = Some e /\ bound !! i = Some "" /\ en_name e = n.
Proof.
  unfold news, topology. cbn [fst]. rewrite in_map_iff. split.
  - intros ([e b] & <- & [Hin Hb]%filter_In). apply zip_In in Hin as (i & Hi & Hj). apply String.eqb_eq in Hb. cbn in Hb. subst b. by exists i, e.
  - intros (i & e & Hi & Hj & <-). exists (e, ""). split; [done|]. apply filter_In. split; [by eapply zip_lookup|done].
Qed.

Lemma rens_In r : In r rens <-> exists i e b, bundle !! i = Some e /\ bound !! i = Some b /\ b <> "" /\ nameFor current b <> en_name e /\
  r = MkRename b (nameFor current b) (en_name e).
Proof.
  unfold rens, topology. cbn [snd]. rewrite in_flat_map. split.
  - intros ([e b] & Hin & Hr). apply zip_In in Hin as (i & Hi & Hj). cbn [fst snd] in Hr. destruct (String.eqb_spec b ""); [done|].
    destruct (String.eqb_spec (nameFor current b) (en_name e)); [done|]. destruct Hr as [<-|[]]. by exists i, e, b.
  - intros (i & e & b & Hi & Hj & Hb & Hn & ->). exists (e, b). split; [by eapply zip_lookup|]. cbn [fst snd].
    destruct (String.eqb_spec b ""); [done|]. destruct (String.eqb_spec (nameFor current b) (en_name e)); [done|by left].
Qed.

Lemma bound_entity i b : bound !! i = Some b -> b <> "" -> In (MkEntity b (nameFor current b)) current.
Proof.
  intros Hi Hb. pose proof (mt_current _ _ _ _ _ Hm i b Hi Hb) as Hin. apply in_map_iff in Hin as ([id n] & Hid & Hin).
  cbn in Hid. subst id. by rewrite (nameFor_In _ Hc _ _ Hin).
Qed.

Lemma bound_not_deleted i b : bound !! i = Some b -> ~ In b dels.
Proof. intros Hi (_ & _ & Hn)%(mt_dels _ _ _ _ _ Hm). apply Hn. by eapply list_elem_of_In, list_elem_of_lookup_2. Qed.

Lemma zip_names (l : list (entity * string)) : NoDup (map (fun eb => en_name eb.1) l) ->
  NoDup (map (fun eb => en_name eb.1) (List.filter (fun eb => eb.2 =s "") l)) /\
  NoDup (map rn_To (flat_map (fun eb => if eb.2 =s "" then [] else let from := nameFor current eb.2 in
                            if from =s en_name eb.1 then [] else [MkRename eb.2 from (en_name eb.1)]) l)).
Proof.
  induction l as [|[e b] l IH]; [done|]. cbn [map fst]. intros [Hx Hn]%NoDup_cons. destruct (IH Hn) as [H1 H2]. rewrite list_elem_of_In in Hx.
  cbn [List.filter flat_map fst snd]. destruct (b =s "").
  - cbn [map app fst]. split; [|done]. constructor; [|done]. rewrite list_elem_of_In. intros Hi. apply Hx.
    apply in_map_iff in Hi as (x & Hxn & [Hxl _]%filter_In). apply in_map_iff. by exists x.
  - split; [done|]. destruct (nameFor current b =s en_name e); [done|]. cbn [map app rn_To]. constructor; [|done]. rewrite list_elem_of_In. intros Hi. apply Hx.
    apply in_map_iff in Hi as (r & Hr & Hrl). apply in_flat_map in Hrl as ([e' b'] & Hl & Hrl). cbn [fst snd] in Hrl.
    destruct (b' =s ""); [done|]. destruct (nameFor current b' =s en_name e'); [done|]. destruct Hrl as [<-|[]]. cbn in Hr.
    apply in_map_iff. by exists (e', b').
Qed.

Lemma news_unique : NoDup news.
Proof.
  destruct (zip_names (zip bundle bound)) as [Hn _]; [|done]. rewrite map_zip_names by apply (mt_length _ _ _ _ _ Hm). apply (mt_names _ _ _ _ _ Hm).
Qed.

Lemma rens_to_unique : NoDup (map rn_To rens).
Proof.
  destruct (zip_names (zip bundle bound)) as [_ Hn]; [|done]. rewrite map_zip_names by apply (mt_length _ _ _ _ _ Hm). apply (mt_names _ _ _ _ _ Hm).
Qed.

(** Distinct renames are of distinct identities. *)
Lemma rens_ids_unique : NoDup (map rn_ID rens).
Proof.
  assert (forall r r', In r rens -> In r' rens -> rn_ID r = rn_ID r' -> rn_To r = rn_To r') as Hinj.
  { intros r r' (i & e & b & Hi & Hb & Hne & _ & ->)%rens_In (j & e' & b' & Hj & Hb' & _ & _ & ->)%rens_In. cbn. intros <-.
    assert (i = j) as <- by (by eapply (mt_inj _ _ _ _ _ Hm)). congruence. }
  pose proof rens_to_unique as Hn. induction rens as [|r l IH]; [constructor|]. cbn [map] in *. apply NoDup_cons in Hn as [Hx Hn].
  rewrite list_elem_of_In in Hx. constructor; [|apply IH; [|done]; intros r1 r2 ? ?; apply Hinj; by right].
  rewrite list_elem_of_In. intros Hi. apply in_map_iff in Hi as (r' & Hr & Hr'). apply Hx.
  rewrite (Hinj r r' (or_introl eq_refl) (or_intror Hr') (eq_sym Hr)). by apply in_map.
Qed.

Lemma news_not_to n : In n news -> ~ In n (map rn_To rens).
Proof.
  intros (i & e & Hi & Hb & <-)%news_In Hr. apply in_map_iff in Hr as (r & Hto & Hr). apply rens_In in Hr as (j & e' & b' & Hj & Hb' & Hne & _ & ->).
  cbn in Hto. assert (i = j) as <- by (by eapply same_name). congruence.
Qed.

Context (T0 T' : gmap string string) (fresh : list string).
Context (HT : forall id n, T0 !! id = Some n <-> In (MkEntity id n) current) (Hx : executed T0 T' dels news rens fresh).

(** An entry that stays as it is. *)
Lemma kept_entry i e b : bundle !! i = Some e -> bound !! i = Some b -> b <> "" -> nameFor current b = en_name e ->
  T' !! b = Some (en_name e) /\ ~ In (en_name e) news /\ ~ In (en_name e) (map rn_To rens).
Proof.
  intros He Hb Hne Hn. pose proof (bound_entity i b Hb Hne) as Hin. rewrite Hn in Hin. split_and!.
  - rewrite (xe_rest _ _ _ _ _ _ Hx).
    + destruct (contains dels b) eqn:Hd; [|by apply HT]. apply contains_In in Hd. by destruct (bound_not_deleted i b Hb).
    + intros Hf. destruct (xe_fresh _ _ _ _ _ _ Hx b Hf) as [Hx0|Hd]; [|by destruct (bound_not_deleted i b Hb)].
      apply HT in Hin. congruence.
    + intros Hr. apply in_map_iff in Hr as (r & Hid & Hr). apply rens_In in Hr as (j & e' & b' & He' & Hb' & _ & Hn' & ->). cbn in Hid. subst b'.
      assert (i = j) as <- by (by eapply (mt_inj _ _ _ _ _ Hm)). congruence.
  - intros (j & e' & He' & Hb' & Hnn)%news_In. assert (i = j) as <- by (by eapply same_name). congruence.
  - intros Hr. apply in_map_iff in Hr as (r & Hto & Hr). apply rens_In in Hr as (j & e' & b' & He' & Hb' & _ & Hn' & ->). cbn in Hto.
    assert (i = j) as <- by (by eapply same_name). congruence.
Qed.

(** An identity is fresh, or was there before. *)
Lemma final_ids id n : T' !! id = Some n -> In id fresh \/ is_Some (T0 !! id).
Proof.
  intros Hn. destruct (in_dec String.string_dec id fresh) as [|Hf]; [by left|]. right.
  destruct (in_dec String.string_dec id (map rn_ID rens)) as [Hr|Hr].
  - apply in_map_iff in Hr as (r & <- & Hr). apply rens_In in Hr as (i & e & b & _ & Hb & Hne & _ & ->). cbn.
    eexists. apply HT. by eapply bound_entity.
  - rewrite (xe_rest _ _ _ _ _ _ Hx id Hf Hr) in Hn. destruct (contains dels id); [done|]. by eexists.
Qed.

(** Every entry has its identity under its name. *)
Lemma final_name i e : bundle !! i = Some e ->
  exists id, T' !! id = Some (en_name e) /\ (en_id e = "" \/ en_id e = id) /\ forall b, bound !! i = Some b -> b <> "" -> id = b.
Proof.
  intros He. destruct (entry_bound i e He) as [b Hb]. destruct (decide (b = "")) as [->|Hne].
  - assert (In (en_name e) news) as Hin by (apply news_In; by exists i, e). apply list_elem_of_In, list_elem_of_lookup in Hin as [j Hj].
    destruct (Forall2_lookup_l _ _ _ _ _ (xe_new _ _ _ _ _ _ Hx) Hj) as (id & Hf & HT').
    exists id. split_and!; [done| |intros b' Hb'; congruence]. left. by destruct (mt_id _ _ _ _ _ Hm i e "" He Hb).
  - exists b. assert (en_id e = "" \/ en_id e = b) as Hid by (by apply (mt_id _ _ _ _ _ Hm i)). split_and!; [|done|congruence].
    destruct (decide (nameFor current b = en_name e)) as [Hn|Hn]; [by apply (kept_entry i)|].
    apply (xe_ren _ _ _ _ _ _ Hx (MkRename b (nameFor current b) (en_name e))). apply rens_In. by exists i, e, b.
Qed.

(** Every entry has its identity under its name, and the name map finds it. *)
Lemma final_entry (refs : list Ref) (M : gmap string string) i e : map rf_ID refs = dels -> resolved current refs news rens fresh M -> bundle !! i = Some e ->
  exists id, T' !! id = Some (en_name e) /\ M !! en_name e = Some id /\ (en_id e = "" \/ en_id e = id) /\
    forall b, bound !! i = Some b -> b <> "" -> id = b.
Proof.
  intros Hrefs HM He. destruct (entry_bound i e He) as [b Hb]. destruct (decide (b = "")) as [->|Hne].
  - assert (In (en_name e) news) as Hin by (apply news_In; by exists i, e).
    apply list_elem_of_In, list_elem_of_lookup in Hin as [j Hj].
    destruct (Forall2_lookup_l _ _ _ _ _ (xe_new _ _ _ _ _ _ Hx) Hj) as (id & Hf & HT').
    destruct (Forall2_lookup_l _ _ _ _ _ (rs_new _ _ _ _ _ _ HM) Hj) as (id' & Hf' & HM'). rewrite Hf in Hf'. injection Hf' as <-.
    exists id. split_and!; [done..| |intros b' Hb'; congruence]. left. by destruct (mt_id _ _ _ _ _ Hm i e "" He Hb).
  - exists b. assert (en_id e = "" \/ en_id e = b) as Hid by (by apply (mt_id _ _ _ _ _ Hm i)).
    destruct (decide (nameFor current b = en_name e)) as [Hn|Hn].
    + destruct (kept_entry i e b He Hb Hne Hn) as (HT' & Hnew & Hto). split_and!; [done| |done|congruence].
      rewrite (rs_rest _ _ _ _ _ _ HM) by done. rewrite <- Hn.
      apply (survivors_Some current refs (MkEntity b (nameFor current b)) Hc); [by eapply bound_entity|]. rewrite Hrefs. by eapply bound_not_deleted.
    + assert (In (MkRename b (nameFor current b) (en_name e)) rens) as Hr by (apply rens_In; by exists i, e, b).
      split_and!; [apply (xe_ren _ _ _ _ _ _ Hx _ Hr)|apply (rs_ren _ _ _ _ _ _ HM _ Hr)|done|congruence].
Qed.

(** Without an additive bundle nothing else is left. *)
Lemma final_cover id n : additive = false -> T' !! id = Some n -> exists e, In e bundle /\ en_name e = n.
Proof.
  intros Ha Hn. destruct (in_dec String.string_dec id fresh) as [Hf|Hf].
  - apply list_elem_of_In, list_elem_of_lookup in Hf as [j Hj].
    destruct (Forall2_lookup_r _ _ _ _ _ (xe_new _ _ _ _ _ _ Hx) Hj) as (n' & Hn' & HT').
    assert (In n' news) as Hin by (by eapply list_elem_of_In, list_elem_of_lookup_2).
    apply news_In in Hin as (i & e & He & _ & <-). exists e. split; [by eapply list_elem_of_In, list_elem_of_lookup_2|congruence].
  - destruct (in_dec String.string_dec id (map rn_ID rens)) as [Hr|Hr].
    + apply in_map_iff in Hr as (r & Hid & Hr). pose proof (xe_ren _ _ _ _ _ _ Hx r Hr) as HT'.
      apply rens_In in Hr as (i & e & b & He & _ & _ & _ & ->). cbn in Hid, HT'. subst b. exists e.
      split; [by eapply list_elem_of_In, list_elem_of_lookup_2|congruence].
    + pose proof Hn as Hn'. rewrite (xe_rest _ _ _ _ _ _ Hx id Hf Hr) in Hn'. destruct (contains dels id) eqn:Hd; [done|]. apply HT in Hn'.
      assert (In id bound) as Hb.
      { destruct (in_dec String.string_dec id bound) as [|Hnb]; [done|]. exfalso.
        assert (In id dels) as Hdd%contains_In by (apply (mt_dels _ _ _ _ _ Hm); split_and!; [done|by apply (in_map en_id _ _ Hn')|done]). congruence. }
      apply list_elem_of_In, list_elem_of_lookup in Hb as [i Hi].
      destruct (lookup_lt_is_Some_2 bundle i) as [e He]; [rewrite <- (mt_length _ _ _ _ _ Hm); by eapply lookup_lt_Some|].
      exists e. split; [by eapply list_elem_of_In, list_elem_of_lookup_2|].
      assert (nameFor current id = n) as Hnf by (by apply nameFor_In).
      assert (id <> "") as Hne by (apply (eo_nonempty _ Hc _ Hn')).
      destruct (decide (nameFor current id = en_name e)) as [Heq|Hneq]; [congruence|].
      destruct Hr. apply in_map_iff. exists (MkRename id (nameFor current id) (en_name e)). split; [done|]. apply rens_In. by exists i, e, id.
Qed.
End Executed.

(** * Tables and the state read from them

    The constraints of the tables, and what [buildCurrentState] reads. *)

Section World.
Context `{DeclarationCodec}.

(** The constraints: unique names, server-made ids, references that exist,
    presence rows that are not repeated. *)
Record world_ok (w : World) : Prop := {
  wo_envs : unique (envNames (tablesOf w));
  wo_groups : unique (key_groups w);
  wo_keys : unique (keyNames (tablesOf w));
  wo_env_ids : forall id, is_Some (environments w !! id) -> goodID id;
  wo_group_ids : forall id, is_Some (key_groups w !! id) -> goodID id;
  wo_key_ids : forall id, is_Some (keys w !! id) -> goodID id;
  wo_group : forall id row, keys w !! id = Some row -> ca_GroupID row = "" \/ is_Some (key_groups w !! ca_GroupID row);
  wo_presence : forall r, In r (key_presence w) -> is_Some (environments w !! kp_EnvironmentID r);
  wo_rows : NoDup (key_presence w) }.

(** ** Entities of a table *)
Definition entitiesOf (m : gmap string string) (l : list entity) : Prop :=
  Permutation l (map (fun kv => MkEntity kv.1 kv.2) (map_to_list m)).

Lemma entitiesOf_In m l id n : entitiesOf m l -> m !! id = Some n <-> In (MkEntity id n) l.
Proof.
  intros Hp. rewrite <- elem_of_map_to_list, list_elem_of_In. split.
  - intros Hin. apply (Permutation_in _ (Permutation_sym Hp)). by apply (in_map (fun kv => MkEntity kv.1 kv.2) _ (id, n)).
  - intros Hin. apply (Permutation_in _ Hp), in_map_iff in Hin as ([id' n'] & [= -> ->] & Hin). done.
Qed.

Lemma entitiesOf_ok m l : entitiesOf m l -> unique m -> (forall id, is_Some (m !! id) -> id <> "") -> entities_ok l.
Proof.
  intros Hp Hu Hne. pose proof (entitiesOf_In m l) as Hin.
  assert (NoDup (map en_id l)) as Hids.
  { rewrite (Permutation_map en_id Hp), map_map. change (map _ (map_to_list m)) with ((map_to_list m).*1). apply NoDup_fst_map_to_list. }
  split; [done| |].
  - assert (forall e, In e l -> m !! en_id e = Some (en_name e)) as Hm by (intros [id n] He; by apply (Hin id n Hp)).
    clear Hp Hin Hne. induction l as [|e l IH]; [constructor|]. cbn [map] in *. apply NoDup_cons in Hids as [Hx Hids].
    constructor; [|apply IH; [done|]; intros e' ?; apply Hm; by right].
    rewrite list_elem_of_In in *. intros Hn. apply in_map_iff in Hn as (e' & Hn & He'). apply Hx.
    assert (en_id e = en_id e') as ->; [|by apply in_map].
    apply (Hu _ _ (en_name e)); [apply Hm; by left|]. rewrite <- Hn. apply Hm. by right.
  - intros [id n] He. apply (Hne id). apply (Hin id n Hp) in He. by eexists.
Qed.

Lemma environments_entities w : entitiesOf (envNames (tablesOf w)) (map (fun kv => MkEntity kv.1 (e_Name kv.2)) (Environments_List w)).
Proof.
  unfold entitiesOf, Environments_List, envNames. cbn [tablesOf t_envs]. rewrite (Permutation_map _ (isort_perm _ _)).
  rewrite map_to_list_fmap. change (?f <$> ?l) with (map f l). rewrite map_map. by apply Permutation_refl'.
Qed.

Lemma groups_entities w : entitiesOf (key_groups w) (map (fun kv => MkEntity kv.1 kv.2) (ListGroups w)).
Proof. unfold entitiesOf, ListGroups. by rewrite (Permutation_map _ (isort_perm _ _)). Qed.

(** ** Keys *)
Definition currentKey (w : World) (id : string) (row : CatalogueKey) (d : decl) : CurrentKey :=
  let rules := presenceOf id (ca_RequiredMode row) (ca_ForbiddenMode row) (ListPresence w) in
  MkCurrentKey id (ca_Name row) (ca_FolderPath row) (ca_Classification row) (ca_Description row) (ca_Deprecated row)
    (ca_DeprecationNote row) (ca_GroupID row) d (Required rules) (Forbidden rules).

Lemma currentKeys_Ok w rows : forall cs, currentKeys rows (ListPresence w) = Ok cs ->
  Forall2 (fun kv c => exists d, ParseDeclaration (ca_Declaration kv.2) = Ok d /\ c = currentKey w kv.1 kv.2 d) rows cs.
Proof.
  induction rows as [|[id row] rows IH]; intros cs Hr; cbn [currentKeys] in Hr; [injection Hr as <-; constructor|].
  destruct (ParseDeclaration _) as [d| |] eqn:Hd; [|done..]. apply bind_Ok in Hr as (cs' & Hr & [= <-]). constructor; [|by apply IH]. by exists d.
Qed.

Lemma currentKeys_total w rows : (forall id row, In (id, row) rows -> exists d, ParseDeclaration (ca_Declaration row) = Ok d) ->
  exists cs, currentKeys rows (ListPresence w) = Ok cs.
Proof.
  induction rows as [|[id row] rows IH]; intros Hall; cbn [currentKeys]; [by eexists|].
  destruct (Hall id row) as [d ->]; [by left|]. destruct IH as [cs ->]; [intros; eapply Hall; by right|]. cbn [mbind result_bind]. by eexists.
Qed.

(** The state a world shows. *)
Record shows (w : World) (cur : CurrentState) : Prop := {
  sh_revision : SchemaRevision cur = schema_revision w;
  sh_envs : entitiesOf (envNames (tablesOf w)) (cs_Environments cur);
  sh_groups : entitiesOf (key_groups w) (cs_KeyGroups cur);
  sh_keys : entitiesOf (keyNames (tablesOf w)) (currentKeyEntities (cs_Keys cur));
  sh_key : forall c, In c (cs_Keys cur) -> exists row d, keys w !! ck_ID c = Some row /\ ParseDeclaration (ca_Declaration row) = Ok d /\ c = currentKey w (ck_ID c) row d;
  sh_row : forall id row, keys w !! id = Some row -> exists c, In c (cs_Keys cur) /\ ck_ID c = id }.

Lemma Catalogue_List_In w id row : keys w !! id = Some row <-> In (id, row) (Catalogue_List w).
Proof. unfold Catalogue_List. by rewrite <- list_elem_of_In, isort_perm, elem_of_map_to_list. Qed.

Lemma buildCurrentState_Ok w cur : buildCurrentState w = Ok cur -> shows w cur.
Proof.
  unfold buildCurrentState. intros Hb. apply bind_Ok in Hb as (cs & Hk%currentKeys_Ok & [= <-]).
  pose proof (Catalogue_List_In w) as Hl.
  split; cbn [SchemaRevision cs_Environments cs_KeyGroups cs_Keys]; [done|apply environments_entities|apply groups_entities| | |].
  - unfold entitiesOf, keyNames. cbn [tablesOf t_keys]. rewrite map_to_list_fmap.
    etransitivity; [|apply (Permutation_map (fun kv => MkEntity kv.1 kv.2)), (Permutation_map (prod_map id ca_Name)), (isort_perm (fun a b => String.leb (ca_Name a.2) (ca_Name b.2)))].
    rewrite map_map. fold (Catalogue_List w). unfold currentKeyEntities.
    clear Hl. induction Hk as [|[id row] c rows cs (d & _ & ->) Hk IH]; [done|]. cbn [map]. by constructor.
  - intros c Hc. destruct (proj2 (Forall2_In _ _ _ Hk) c Hc) as ([id row] & Hin & d & Hd & ->). cbn in *. exists row, d. by rewrite Hl.
  - intros id row Hr%Hl. destruct (proj1 (Forall2_In _ _ _ Hk) _ Hr) as (c & Hin & d & _ & ->). by eexists.
Qed.

Lemma buildCurrentState_total w : (forall id row, keys w !! id = Some row -> exists d, ParseDeclaration (ca_Declaration row) = Ok d) ->
  exists cur, buildCurrentState w = Ok cur.
Proof.
  intros Hall. unfold buildCurrentState. destruct (currentKeys_total w (Catalogue_List w)) as [cs ->].
  - intros id row Hin. by apply (Hall id), Catalogue_List_In.
  - cbn [mbind result_bind]. by eexists.
Qed.

Lemma shows_state_ok w cur : shows w cur -> unique (envNames (tablesOf w)) -> unique (key_groups w) -> unique (keyNames (tablesOf w)) ->
  (forall id, is_Some (environments w !! id) \/ is_Some (key_groups w !! id) \/ is_Some (keys w !! id) -> id <> "") -> state_ok cur.
Proof.
  intros Hs He Hg Hk Hne. split.
  - apply (entitiesOf_ok _ _ (sh_envs _ _ Hs) He). intros id Hi. apply Hne. left. unfold envNames in Hi. cbn in Hi. rewrite lookup_fmap in Hi. by destruct (environments w !! id); [eexists|destruct Hi].
  - apply (entitiesOf_ok _ _ (sh_groups _ _ Hs) Hg). intros id Hi. apply Hne. by right; left.
  - apply (entitiesOf_ok _ _ (sh_keys _ _ Hs) Hk). intros id Hi. apply Hne. right; right. unfold keyNames in Hi. cbn in Hi. rewrite lookup_fmap in Hi. by destruct (keys w !! id); [eexists|destruct Hi].
Qed.

Lemma world_state_ok w cur : world_ok w -> shows w cur -> state_ok cur.
Proof.
  intros Hw Hs. apply (shows_state_ok w cur Hs); [apply Hw..|]. intros id [Hi|[Hi|Hi]]; [apply (wo_env_ids _ Hw _ Hi)|apply (wo_group_ids _ Hw _ Hi)|apply (wo_key_ids _ Hw _ Hi)].
Qed.

(** What the constraints give an export. *)
Lemma presenceIDs_env w id mode rule x : In x (presenceIDs id mode rule (ListPresence w)) -> exists r, In r (key_presence w) /\ kp_EnvironmentID r = x.
Proof.
  unfold presenceIDs. destruct (_ =s _); [|done]. intros (r & <- & [Hr _]%filter_In)%in_map_iff. exists r. split; [|done].
  apply (Permutation_in _ (isort_perm presenceLe (key_presence w))), Hr.
Qed.

Lemma world_exportable w cur : world_ok w -> (forall id n, key_groups w !! id = Some n -> n <> "") -> buildCurrentState w = Ok cur -> exportable cur.
Proof.
  intros Hw Hn Hs%buildCurrentState_Ok. split; [by eapply world_state_ok| | |].
  - intros [id n] Hg. apply (entitiesOf_In _ _ _ _ (sh_groups _ _ Hs)) in Hg. by eapply Hn.
  - intros c Hc. destruct (sh_key _ _ Hs c Hc) as (row & d & Hr & _ & Hck). rewrite Hck. cbn [currentKey ck_GroupID]. destruct (wo_group _ Hw _ _ Hr) as [|[n Hg]]; [by left|right].
    exists n. by apply (entitiesOf_In _ _ _ _ (sh_groups _ _ Hs)).
  - intros c id Hc Hin. destruct (sh_key _ _ Hs c Hc) as (row & d & Hr & _ & Hck). rewrite Hck in Hin. cbn [currentKey ck_Required ck_Forbidden presenceOf Required Forbidden p_Environments] in Hin.
    assert (exists r, In r (key_presence w) /\ kp_EnvironmentID r = id) as (r & Hin' & <-) by (apply in_app_iff in Hin as [?|?]; by eapply presenceIDs_env).
    destruct (wo_presence _ Hw r Hin') as [e He]. exists (e_Name e). apply (entitiesOf_In _ _ _ _ (sh_envs _ _ Hs)). unfold envNames. cbn. by rewrite lookup_fmap, He.
Qed.
End World.
