(* ===== verification/DefinitionsConverge.v ===== *)
(** * A plan that applies converges

    The resolution of a bundle, executed: the resulting tables realize the
    bundle, so resolving it again changes nothing. *)

From S2P Require Import Prelude Domain Schema Definitions DefinitionsSpec DefinitionsExport DefinitionsStore DefinitionsApply DefinitionsSteps DefinitionsMatch.

#[local] Open Scope Z_scope.

Section Converge.
Context `{DeclarationCodec}.

(** ** The resolution *)
Section Diff.
Context (cur : list CurrentKey) (E G : gmap string string).

Definition updateOf (kb : Key * string) : list KeyUpdate :=
  if kb.2 =s "" then []
  else match curKeyByID cur kb.2 with
       | Some c => let u := diffKey c kb.1 E G in if changed u then [u] else []
       | None => []
       end.

Lemma diffKeys_Ok strict additive envNames groupNames keys : forall new upds reveal,
  diffKeys strict additive cur envNames groupNames E G keys = Ok (new, upds, reveal) ->
  new = map fst (List.filter (fun kb => kb.2 =s "") keys) /\ upds = flat_map updateOf keys /\
  (forall k b, In (k, b) keys -> validateKeyReferences k envNames groupNames = Ok () /\ (b <> "" -> exists c, curKeyByID cur b = Some c)).
Proof.
  induction keys as [|[k b] keys IH]; intros new upds reveal Hd; cbn [diffKeys] in Hd.
  { injection Hd as <- <- <-. done. }
  apply bind_Ok in Hd as ([] & Hv & Hd). cbn [List.filter flat_map updateOf fst snd]. unfold updateOf at 1. cbn [fst snd].
  destruct (String.eqb_spec b "") as [Hb|Hb].
  - apply bind_Ok in Hd as ([[new0 upds0] rev0] & Hd & [= <- <- <-]). apply IH in Hd as (-> & -> & Hall). split_and!; [done..|].
    intros k' b' [[= <- <-]|Hin]; [done|by apply Hall].
  - destruct (curKeyByID cur b) as [c|] eqn:Hc; [|done]. destruct (_ && _ && _) in Hd; [done|].
    apply bind_Ok in Hd as ([[new0 upds0] rev0] & Hd & He). apply IH in Hd as (-> & -> & Hall).
    cbv zeta. destruct (changed _) eqn:Hch in He; rewrite Hch; injection He as <- <- <-;
      (split_and!; [done..|]; intros k' b' [[= <- <-]|Hin]; [split; [done|by eexists]|by apply Hall]).
Qed.

Lemma updateOf_In k b u : In u (updateOf (k, b)) <-> b <> "" /\ exists c, curKeyByID cur b = Some c /\ u = diffKey c k E G /\ changed u = true.
Proof.
  unfold updateOf. cbn [fst snd]. destruct (String.eqb_spec b "") as [|Hb]; [naive_solver|]. destruct (curKeyByID cur b) as [c|]; [|naive_solver].
  cbv zeta. destruct (changed _) eqn:Hc; split.
  - intros [<-|[]]. split; [done|]. by exists c.
  - intros (_ & c' & [= <-] & -> & _). by left.
  - done.
  - intros (_ & c' & [= <-] & -> & Hc'). congruence.
Qed.

Lemma updates_unique (l : list (Key * string)) : (forall i j k k' b, l !! i = Some (k, b) -> l !! j = Some (k', b) -> b <> "" -> i = j) ->
  NoDup (map u_ID (flat_map updateOf l)).
Proof.
  assert (forall k b u, In u (updateOf (k, b)) -> u_ID u = b) as Hid.
  { intros k b u (_ & c & Hc & -> & _)%updateOf_In. cbn. by apply curKeyByID_Some in Hc as [_ ?]. }
  induction l as [|[k b] l IH]; intros Hinj; [constructor|]. cbn [flat_map]. rewrite map_app. apply NoDup_app. split_and!.
  - unfold updateOf. cbn [fst snd]. destruct (_ =s _); [constructor|]. destruct (curKeyByID cur b); [|constructor].
    cbv zeta. destruct (changed _); [apply NoDup_singleton|constructor].
  - intros id H1 H2. rewrite list_elem_of_In in H1, H2. apply in_map_iff in H1 as (u & <- & Hu). apply in_map_iff in H2 as (u' & Heq & Hu').
    apply in_flat_map in Hu' as ([k' b'] & Hin & Hu'). pose proof (Hid _ _ _ Hu) as Hb. pose proof (Hid _ _ _ Hu') as Hb'.
    apply updateOf_In in Hu as [Hne _]. assert (b' = b) as -> by congruence. apply list_elem_of_In, list_elem_of_lookup in Hin as [j Hj].
    by assert (0%nat = S j) by (by eapply (Hinj 0%nat (S j))).
  - apply IH. intros i j k1 k2 b' Hi Hj Hne. assert (S i = S j) as [=] by (by eapply (Hinj (S i) (S j))). done.
Qed.

(** The renames among the updates are the topology's. *)
Lemma renames_topology (l : list (Key * string)) : NoDup (map en_id (currentKeyEntities cur)) ->
  (forall k b, In (k, b) l -> b <> "" -> exists c, curKeyByID cur b = Some c) -> entities_ok (currentKeyEntities cur) ->
  map keyRename (List.filter u_Renamed (flat_map updateOf l)) =
  flat_map (fun eb => if eb.2 =s "" then [] else let from := nameFor (currentKeyEntities cur) eb.2 in
                      if from =s en_name eb.1 then [] else [MkRename eb.2 from (en_name eb.1)])
    (map (fun kb => (MkEntity (k_ID kb.1) (k_Name kb.1), kb.2)) l).
Proof.
  intros Hn Hall Hok. induction l as [|[k b] l IH]; [done|]. cbn [flat_map map fst snd]. rewrite List.filter_app, map_app, IH by (intros; eapply Hall; [by right|done]).
  f_equal. unfold updateOf. cbn [fst snd]. destruct (String.eqb_spec b "") as [|Hb]; [done|].
  destruct (Hall k b (or_introl eq_refl) Hb) as [c Hc]. rewrite Hc. apply curKeyByID_Some in Hc as [Hin Hid]. cbv zeta.
  assert (nameFor (currentKeyEntities cur) b = ck_Name c) as ->.
  { apply nameFor_In; [done|]. rewrite <- Hid. by apply (in_map (fun k => MkEntity (ck_ID k) (ck_Name k))). }
  cbn [en_name]. unfold changed, diffKey at 1. cbn [u_Renamed]. destruct (String.eqb_spec (ck_Name c) (k_Name k)) as [He|He]; cbn [negb orb].
  - destruct (_ || _); [|done]. cbn [List.filter u_Renamed diffKey]. rewrite He, String.eqb_refl. done.
  - cbn [List.filter u_Renamed diffKey]. destruct (String.eqb_spec (ck_Name c) (k_Name k)); [done|]. cbn [negb map]. unfold keyRename, diffKey. cbn [u_ID u_PrevName u_Desired]. by rewrite Hid.
Qed.
End Diff.

(** What a strict resolution consists of. *)
Section Planned.
Context (b : Bundle) (cur : CurrentState).

Definition planEnvs (eb : list string) : gmap string string := identities (b_Environments b) eb.
Definition planGroups (gb : list string) : gmap string string := identities (b_KeyGroups b) gb.

Record planned (res : Resolution) (eb gb kb : list string) : Prop := {
  pn_envs : matched (b_Environments b) (cs_Environments cur) (Additive b) eb (map rf_ID (EnvDeletes res));
  pn_groups : matched (b_KeyGroups b) (cs_KeyGroups cur) (Additive b) gb (map rf_ID (GroupDeletes res));
  pn_keys : matched (bundleKeyEntities (b_Keys b)) (currentKeyEntities (cs_Keys cur)) (Additive b) kb (map rf_ID (KeyDeletes res));
  pn_env_topology : topology (cs_Environments cur) (b_Environments b) eb = (EnvCreates res, EnvRenames res);
  pn_group_topology : topology (cs_KeyGroups cur) (b_KeyGroups b) gb = (GroupCreates res, GroupRenames res);
  pn_key_topology : topology (currentKeyEntities (cs_Keys cur)) (bundleKeyEntities (b_Keys b)) kb =
    (map k_Name (KeyCreates res), map keyRename (renamedKeys res));
  pn_creates : KeyCreates res = map fst (List.filter (fun kb => kb.2 =s "") (zip (b_Keys b) kb));
  pn_updates : KeyUpdates res = flat_map (updateOf (cs_Keys cur) (planEnvs eb) (planGroups gb)) (zip (b_Keys b) kb);
  pn_refs : forall k, In k (b_Keys b) -> validateKeyReferences k (map en_name (b_Environments b)) (map en_name (b_KeyGroups b)) = Ok ();
  pn_bound : forall i k id, b_Keys b !! i = Some k -> kb !! i = Some id -> id <> "" -> exists c, curKeyByID (cs_Keys cur) id = Some c }.

Lemma refsFor_ids items ids : map rf_ID (refsFor items ids) = ids.
Proof. unfold refsFor. rewrite map_map. apply map_id. Qed.

Lemma zip_map_l {A B C} (f : A -> B) (l : list A) : forall k : list C, zip (map f l) k = map (fun xy => (f xy.1, xy.2)) (zip l k).
Proof. induction l as [|x l IH]; intros [|y k]; [done..|]. cbn. f_equal. apply IH. Qed.

Lemma zip_fst {A B} (l : list A) : forall (k : list B) x, length k = length l -> In x l -> exists y, In (x, y) (zip l k).
Proof.
  induction l as [|a l IH]; intros [|y k] x Hl Hin; try done. destruct Hin as [<-|Hin]; [exists y; by left|].
  destruct (IH k x) as [z Hz]; [by injection Hl|done|]. exists z. by right.
Qed.

Lemma resolve_planned res : state_ok cur -> Resolve b cur = Ok res -> exists eb gb kb, planned res eb gb kb.
Proof.
  intros [Hoe Hog Hok] Hr. unfold Resolve, resolve in Hr.
  apply bind_Ok in Hr as (me & He & Hr). apply bind_Ok in Hr as (mg & Hg & Hr). apply bind_Ok in Hr as (mk & Hk & Hr).
  apply (match_matched _ _ _ _ _ Hoe) in He. apply (match_matched _ _ _ _ _ Hog) in Hg. apply (match_matched _ _ _ _ _ Hok) in Hk.
  destruct (topology _ _ _) as [ec er] eqn:Hte in Hr. destruct (topology _ _ _) as [gc gr] eqn:Htg in Hr.
  apply bind_Ok in Hr as ([[kc ku] rev] & Hd & [= <-]). apply diffKeys_Ok in Hd as (Hkc & Hku & Hall).
  exists (boundDBID me), (boundDBID mg), (boundDBID mk).
  assert (length (boundDBID mk) = length (b_Keys b)) as Hlen by (rewrite (mt_length _ _ _ _ _ Hk); unfold bundleKeyEntities; by rewrite length_map).
  split; cbn [EnvCreates EnvRenames EnvDeletes GroupCreates GroupRenames GroupDeletes KeyCreates KeyUpdates KeyDeletes renamedKeys]; rewrite ?refsFor_ids; try done.
  - unfold renamedKeys. cbn [KeyUpdates]. rewrite Hku, renames_topology; [|apply Hok| |done].
    + unfold topology, bundleKeyEntities. rewrite zip_map_l. f_equal. rewrite Hkc, map_map. generalize (zip (b_Keys b) (boundDBID mk)) as l. clear.
      induction l as [|[k id] l IH]; [done|]. cbn [map List.filter fst snd]. destruct (id =s ""); [cbn; by rewrite IH|done].
    + intros k id Hin Hne. by apply (Hall k id Hin).
  - intros k Hin. destruct (zip_fst (b_Keys b) (boundDBID mk) k Hlen Hin) as [id Hz]. by apply (Hall k id Hz).
  - intros i k id Hi Hj Hne. apply (Hall k id); [by eapply zip_lookup|done].
Qed.
End Planned.

(** ** The execution *)
Lemma keyBodies_clear ids (m : gmap string CatalogueKey) : withName "" <$> (clearGroups ids <$> m) = clearGroups ids <$> (withName "" <$> m).
Proof.
  rewrite <- !map_fmap_compose. apply map_fmap_ext. intros id row _. cbn. unfold clearGroups. revert row.
  induction ids as [|x ids IH]; intros row; [done|]. cbn [foldl]. rewrite IH. f_equal. unfold clearGroup. cbn [withName ca_GroupID].
  by destruct (_ && _).
Qed.

Lemma keyNames_clear ids (m : gmap string CatalogueKey) : ca_Name <$> (clearGroups ids <$> m) = ca_Name <$> m.
Proof.
  rewrite <- map_fmap_compose. apply map_fmap_ext. intros id row _. cbn. unfold clearGroups. revert row.
  induction ids as [|x ids IH]; intros row; [done|]. cbn [foldl]. rewrite IH. unfold clearGroup. by destruct (_ && _).
Qed.

Lemma fmap_without {A B} (f : A -> B) ids : forall m : gmap string A, f <$> without ids m = without ids (f <$> m).
Proof. unfold without. induction ids as [|x ids IH]; intros m; [done|]. cbn [foldl]. by rewrite IH, fmap_delete. Qed.

(** The tables a successful execution leaves, with the world [mid] in which the
    keys still stand as they were and the name maps are complete. *)
Record performed (res : Resolution) (cur : CurrentState) (cks : list Key) (w w' mid : World) (em gm : gmap string string) (fE fG fK : list string) : Prop := {
  pf_envs : executed (envNames (tablesOf w)) (envNames (tablesOf w')) (map rf_ID (EnvDeletes res)) (EnvCreates res) (EnvRenames res) fE;
  pf_em : resolved (cs_Environments cur) (EnvDeletes res) (EnvCreates res) (EnvRenames res) fE em;
  pf_groups : executed (key_groups w) (key_groups w') (map rf_ID (GroupDeletes res)) (GroupCreates res) (GroupRenames res) fG;
  pf_gm : resolved (cs_KeyGroups cur) (GroupDeletes res) (GroupCreates res) (GroupRenames res) fG gm;
  pf_keys : executed (keyNames (tablesOf w)) (keyNames (tablesOf w')) (map rf_ID (KeyDeletes res)) (map k_Name (KeyCreates res)) (map keyRename (renamedKeys res)) fK;
  pf_mid_bodies : keyBodies (tablesOf mid) = clearGroups (map rf_ID (GroupDeletes res)) <$> without (map rf_ID (KeyDeletes res)) (keyBodies (tablesOf w));
  pf_mid_rows : key_presence mid =
    List.filter (envDeleted (map rf_ID (EnvDeletes res))) (List.filter (keyDeleted (map rf_ID (KeyDeletes res))) (key_presence w));
  pf_created : Forall2 (created cks em gm w') (KeyCreates res) fK;
  pf_updated : forall u, In u (KeyUpdates res) -> updated cks em gm mid w' u;
  pf_same : forall id, ~ In id fK -> ~ In id (map u_ID (KeyUpdates res)) -> sameKey mid w' id;
  pf_values : value_entries w' = List.filter (valueDeleted (map rf_ID (KeyDeletes res))) (value_entries w);
  pf_unique : unique (envNames (tablesOf w)) -> unique (key_groups w) -> unique (keyNames (tablesOf w)) ->
    unique (envNames (tablesOf w')) /\ unique (key_groups w') /\ unique (keyNames (tablesOf w'));
  pf_fresh : forall id, In id (fE ++ fG ++ fK) -> goodID id }.

Lemma prefix_good p u : (p = "env" \/ p = "kgr" \/ p = "key") -> goodID (p +:+ "_" +:+ u).
Proof. intros [->|[->| ->]]; by split. Qed.

Section Perform.
Context (X : ApplyContext) (b : Bundle) (cur : CurrentState) (res : Resolution) (cks : list Key) (rev : Z).
Context (eb gb kb : list string) (Hpl : planned b cur res eb gb kb) (Hst : state_ok cur).

Lemma news_of l cur' bound ec er : topology cur' l bound = (ec, er) -> (topology cur' l bound).1 = ec /\ (topology cur' l bound).2 = er.
Proof. by intros ->. Qed.

Lemma parkRenames_Ok w u w' : parkRenames X res cur w = (Ok u, w') ->
  (forall id, ~ In id (map rn_ID (EnvRenames res)) -> envNames (tablesOf w') !! id = envNames (tablesOf w) !! id) /\
  (forall id, is_Some (envNames (tablesOf w') !! id) <-> is_Some (envNames (tablesOf w) !! id)) /\
  (forall id, In id (map rn_ID (EnvRenames res)) -> is_Some (envNames (tablesOf w) !! id)) /\
  (forall id, ~ In id (map rn_ID (GroupRenames res)) -> key_groups w' !! id = key_groups w !! id) /\
  (forall id, is_Some (key_groups w' !! id) <-> is_Some (key_groups w !! id)) /\
  (forall id, In id (map rn_ID (GroupRenames res)) -> is_Some (key_groups w !! id)) /\
  (forall id, ~ In id (map u_ID (renamedKeys res)) -> keyNames (tablesOf w') !! id = keyNames (tablesOf w) !! id) /\
  keyBodies (tablesOf w') = keyBodies (tablesOf w) /\ key_presence w' = key_presence w /\ value_entries w' = value_entries w /\
  (unique (envNames (tablesOf w)) -> unique (envNames (tablesOf w'))) /\ (unique (key_groups w) -> unique (key_groups w')) /\
  (unique (keyNames (tablesOf w)) -> unique (keyNames (tablesOf w'))).
Proof.
  intros Hr. unfold parkRenames in Hr. apply st_bind_Ok in Hr as ([used c] & w1 & He & Hr). apply st_bind_Ok in Hr as ([used2 c2] & w2 & Hg & Hr).
  apply st_bind_Ok in Hr as ([used3 c3] & w3 & Hk & Hr). injection Hr as _ <-.
  apply (park_Ok _ _ _ (renames_env X)) in He as (Be & Se & De & Ae & Ue).
  apply (park_Ok _ _ _ renames_group) in Hg as (Bg & Sg & Dg & Ag & Ug).
  apply (park_Ok _ _ _ renames_key) in Hk as (Bk & Sk & Dk & Ak & Uk).
  unfold besideEnvs, besideGroups, besideNames in Be, Bg, Bk. cbn [tablesOf t_envs t_groups t_keys t_presence t_values] in *.
  injection Be as E1 E2 E3 E4. injection Bg as G1 G2 G3 G4. injection Bk as K1 K2 K3 K4 K5.
  assert (envNames (tablesOf w3) = envNames (tablesOf w1)) as -> by (unfold envNames; cbn; by rewrite K1, G1).
  rewrite K2. assert (keyNames (tablesOf w2) = keyNames (tablesOf w)) as Hkn by (unfold keyNames; cbn; by rewrite G2, E2). rewrite Hkn in *.
  assert (keyBodies (tablesOf w2) = keyBodies (tablesOf w)) as Hkb by (unfold keyBodies; cbn; by rewrite G2, E2). rewrite Hkb in K3. rewrite E1 in *.
  split_and!; [done..| | |done|done|done]; congruence.
Qed.

Lemma env_topology : NoDup (EnvCreates res) /\ NoDup (map rn_ID (EnvRenames res)) /\ NoDup (map rn_To (EnvRenames res)) /\
  (forall n, In n (EnvCreates res) -> ~ In n (map rn_To (EnvRenames res))).
Proof.
  destruct (news_of _ _ _ _ _ (pn_env_topology _ _ _ _ _ _ Hpl)) as [<- <-]. pose proof (pn_envs _ _ _ _ _ _ Hpl) as Hm. pose proof (so_envs _ Hst) as Ho.
  split_and!; [by eapply news_unique|by eapply rens_ids_unique|by eapply rens_to_unique|intros n; by eapply news_not_to].
Qed.

Lemma group_topology : NoDup (GroupCreates res) /\ NoDup (map rn_ID (GroupRenames res)) /\ NoDup (map rn_To (GroupRenames res)) /\
  (forall n, In n (GroupCreates res) -> ~ In n (map rn_To (GroupRenames res))).
Proof.
  destruct (news_of _ _ _ _ _ (pn_group_topology _ _ _ _ _ _ Hpl)) as [<- <-]. pose proof (pn_groups _ _ _ _ _ _ Hpl) as Hm. pose proof (so_groups _ Hst) as Ho.
  split_and!; [by eapply news_unique|by eapply rens_ids_unique|by eapply rens_to_unique|intros n; by eapply news_not_to].
Qed.

Lemma key_topology : NoDup (map rn_ID (map keyRename (renamedKeys res))) /\ NoDup (map rn_To (map keyRename (renamedKeys res))).
Proof.
  destruct (news_of _ _ _ _ _ (pn_key_topology _ _ _ _ _ _ Hpl)) as [_ <-]. pose proof (pn_keys _ _ _ _ _ _ Hpl) as Hm. pose proof (so_keys _ Hst) as Ho.
  split; [by eapply rens_ids_unique|by eapply rens_to_unique].
Qed.

(** Creates, then final names, as one map. *)
Lemma resolved_map current refs news rens fresh (m0 m1 m2 : gmap string string) :
  m0 = survivors current refs -> Forall2 (fun n id => m1 !! n = Some id) news fresh -> (forall n, ~ In n news -> m1 !! n = m0 !! n) ->
  (forall r, In r rens -> m2 !! rn_To r = Some (rn_ID r)) -> (forall n, ~ In n (map rn_To rens) -> m2 !! n = m1 !! n) ->
  (forall n, In n news -> ~ In n (map rn_To rens)) -> resolved current refs news rens fresh m2.
Proof.
  intros -> Hf Hn Hr Hs Hd. split; [|done|].
  - assert (forall n, In n news -> m2 !! n = m1 !! n) as He by (intros; by apply Hs, Hd). clear Hn Hd.
    induction Hf as [|n id news fresh Hx Hf IH]; [constructor|]. constructor; [rewrite He by (by left); done|]. apply IH. intros; apply He. by right.
  - intros n H1 H2. by rewrite Hs, Hn.
Qed.

(** Nothing the updates address was just created. *)
Lemma update_known w (fK : list string) u : shows w cur -> (forall id, In id fK -> keyNames (tablesOf w) !! id = None \/ In id (map rf_ID (KeyDeletes res))) ->
  In u (KeyUpdates res) -> ~ In (u_ID u) fK.
Proof.
  intros Hsh Hf Hu Hin. rewrite (pn_updates _ _ _ _ _ _ Hpl) in Hu. apply in_flat_map in Hu as ([k id] & Hz & Hu). apply updateOf_In in Hu as (Hne & c & Hc & -> & _).
  apply curKeyByID_Some in Hc as [Hcin Hid]. cbn [u_ID diffKey] in Hin. rewrite Hid in Hin. apply zip_In in Hz as (i & Hi & Hb).
  destruct (Hf id Hin) as [Hnone|Hd].
  - assert (keyNames (tablesOf w) !! id = Some (ck_Name c)) as Hs; [|congruence].
    apply (entitiesOf_In _ _ _ _ (sh_keys _ _ Hsh)). rewrite <- Hid. by apply (in_map (fun k => MkEntity (ck_ID k) (ck_Name k))).
  - eapply (bound_not_deleted _ _ _ _ _ (pn_keys _ _ _ _ _ _ Hpl)); [exact Hb|done].
Qed.

Lemma updates_ids_unique : NoDup (map u_ID (KeyUpdates res)).
Proof.
  rewrite (pn_updates _ _ _ _ _ _ Hpl). apply updates_unique. intros i j k k' id Hi Hj Hne.
  assert (forall i k, zip (b_Keys b) kb !! i = Some (k, id) -> kb !! i = Some id) as Hz.
  { generalize (b_Keys b) as l. generalize kb as l'. clear. intros l' l. revert l'. induction l as [|x l IH]; intros [|y l'] [|i] k Hi; try done; cbn in *; [congruence|by eapply IH]. }
  eapply (mt_inj _ _ _ _ _ (pn_keys _ _ _ _ _ _ Hpl)); [by eapply Hz|by eapply Hz|done].
Qed.

(** The keys' part: parked and renamed in [mid], then created and updated. *)
Record key_run (w mid w10 w' : World) (em gm : gmap string string) (fK : list string) : Prop := {
  kr_created : Forall2 (created cks em gm w10) (KeyCreates res) fK;
  kr_fresh : forall id, In id fK -> keys mid !! id = None;
  kr_same : forall id, ~ In id fK -> sameKey mid w10 id;
  kr_updated : forall u, In u (KeyUpdates res) -> updated cks em gm w10 w' u;
  kr_rest : forall id, ~ In id (map u_ID (KeyUpdates res)) -> sameKey w10 w' id;
  kr_names : keyNames (tablesOf w') = keyNames (tablesOf w10);
  kr_parked : exists m4 : gmap string string,
    (forall id, ~ In id (map rn_ID (map keyRename (renamedKeys res))) -> m4 !! id = without (map rf_ID (KeyDeletes res)) (keyNames (tablesOf w)) !! id) /\
    (forall id, ~ In id (map rn_ID (map keyRename (renamedKeys res))) -> keyNames (tablesOf mid) !! id = m4 !! id) /\
    (forall r, In r (map keyRename (renamedKeys res)) -> keyNames (tablesOf mid) !! rn_ID r = Some (rn_To r)) }.

Lemma keyNames_None (w : World) id : keyNames (tablesOf w) !! id = None <-> keys w !! id = None.
Proof. unfold keyNames. cbn. rewrite lookup_fmap. by destruct (keys w !! id). Qed.

Lemma key_run_fresh w mid w10 w' em gm fK : key_run w mid w10 w' em gm fK ->
  forall id, In id fK -> keyNames (tablesOf w) !! id = None \/ In id (map rf_ID (KeyDeletes res)).
Proof.
  intros Hk id Hi. destruct (kr_parked _ _ _ _ _ _ _ Hk) as (m4 & H1 & H2 & H3). pose proof (kr_fresh _ _ _ _ _ _ _ Hk id Hi) as Hn.
  apply keyNames_None in Hn. destruct (in_dec String.string_dec id (map rn_ID (map keyRename (renamedKeys res)))) as [Hr|Hr].
  - apply in_map_iff in Hr as (r & <- & Hr). rewrite (H3 r Hr) in Hn. done.
  - rewrite H2, H1, lookup_without in Hn by done. destruct (contains _ id) eqn:Hc in Hn; [right; by apply contains_In|by left].
Qed.

Lemma key_run_executed w mid w10 w' em gm fK : shows w cur -> key_run w mid w10 w' em gm fK ->
  executed (keyNames (tablesOf w)) (keyNames (tablesOf w')) (map rf_ID (KeyDeletes res)) (map k_Name (KeyCreates res)) (map keyRename (renamedKeys res)) fK /\
  Forall2 (created cks em gm w') (KeyCreates res) fK /\ (forall u, In u (KeyUpdates res) -> updated cks em gm mid w' u) /\
  (forall id, ~ In id fK -> ~ In id (map u_ID (KeyUpdates res)) -> sameKey mid w' id).
Proof.
  intros Hsh Hk. pose proof (key_run_fresh _ _ _ _ _ _ _ Hk) as Hf. destruct (kr_parked _ _ _ _ _ _ _ Hk) as (m4 & H1 & H2 & H3).
  assert (Forall2 (created cks em gm w') (KeyCreates res) fK) as Hc.
  { apply Forall2_same_length_lookup. pose proof (kr_created _ _ _ _ _ _ _ Hk) as Hc. split; [by eapply Forall2_length|].
    intros i k id Hi Hj. destruct (Forall2_lookup_lr _ _ _ _ _ _ Hc Hi Hj) as (d & p & can & E1 & E2 & E3 & E4 & E5).
    destruct (kr_rest _ _ _ _ _ _ _ Hk id) as [S1 S2].
    { intros Hin. apply in_map_iff in Hin as (u & <- & Hu). apply (update_known w fK u Hsh Hf Hu). by eapply list_elem_of_In, list_elem_of_lookup_2. }
    exists d, p, can. rewrite S1, S2. by split_and!. }
  split_and!; [|done| |].
  - apply (executed_creates_last _ m4 (keyNames (tablesOf mid))); [done..| | |].
    + clear - Hc. induction Hc as [|k id ks fK (d & p & can & _ & _ & _ & E4 & _) Hc IH]; [constructor|]. cbn [map]. constructor; [|done].
      unfold keyNames. cbn. by rewrite lookup_fmap, E4.
    + intros id Hi. apply keyNames_None. by apply (kr_fresh _ _ _ _ _ _ _ Hk).
    + intros id Hi. rewrite (kr_names _ _ _ _ _ _ _ Hk). unfold keyNames. cbn. rewrite !lookup_fmap. by rewrite (sk_row _ _ _ (kr_same _ _ _ _ _ _ _ Hk id Hi)).
  - intros u Hu. destruct (kr_updated _ _ _ _ _ _ _ Hk u Hu) as (row & d & p & can & E1 & E2 & E3 & E4 & E5 & E6).
    destruct (kr_same _ _ _ _ _ _ _ Hk (u_ID u)) as [S1 S2]; [by apply (update_known w fK u Hsh Hf)|].
    exists row, d, p, can. rewrite <- S1, <- S2. by split_and!.
  - intros id Hn1 Hn2. destruct (kr_same _ _ _ _ _ _ _ Hk id Hn1). destruct (kr_rest _ _ _ _ _ _ _ Hk id Hn2). split; congruence.
Qed.

Lemma execute_performed w u w' : shows w cur -> executeResolution X res cur cks rev w = (Ok u, w') ->
  exists mid em gm fE fG fK, performed res cur cks w w' mid em gm fE fG fK.
Proof.
  intros Hsh Hr. unfold executeResolution in Hr.
  apply st_bind_Ok in Hr as (? & w1 & H1%deleteKeys_Ok & Hr). apply st_bind_Ok in Hr as (? & w2 & H2%deleteGroups_Ok & Hr).
  apply st_bind_Ok in Hr as (? & w3 & H3 & Hr). apply deleteEnvironments_Ok in H3 as [H3 _].
  apply st_bind_Ok in Hr as ([em gm] & w9 & Ht & Hr). unfold retopologize in Ht.
  apply st_bind_Ok in Ht as (? & w4 & H4%parkRenames_Ok & Ht). destruct H4 as (P1 & P2 & P3 & P4 & P5 & P6 & P7 & P8 & P9 & P10 & PU1 & PU2 & PU3).
  destruct env_topology as (ND1 & ND2 & ND3 & ND4). destruct group_topology as (MD1 & MD2 & MD3 & MD4). destruct key_topology as (KD1 & KD2).
  apply st_bind_Ok in Ht as (em0 & w5 & H5 & Ht). apply (createNamed_Ok _ _ _ _ _ _ makes_env) in H5 as (fE & B5 & C1 & C2 & C3 & C4 & C5 & CU); [|done].
  apply st_bind_Ok in Ht as (gm0 & w6 & H6 & Ht). apply (createNamed_Ok _ _ _ _ _ _ makes_group) in H6 as (fG & B6 & D1 & D2 & D3 & D4 & D5 & DU); [|done].
  apply st_bind_Ok in Ht as (em' & w7 & H7 & Ht). apply (finishRenames_Ok _ _ _ _ _ (renames_env X)) in H7 as (B7 & F1 & F2 & F3 & FU); [|done..].
  apply st_bind_Ok in Ht as (gm' & w8 & H8 & Ht). apply (finishRenames_Ok _ _ _ _ _ renames_group) in H8 as (B8 & G1 & G2 & G3 & GU); [|done..].
  apply st_bind_Ok in Ht as (? & w9' & H9 & Ht). injection Ht as -> -> ->. apply (finishRenames_Ok _ _ _ _ _ renames_key) in H9 as (B9 & K1 & K2 & K3 & KU); [|done..].
  apply st_bind_Ok in Hr as (? & w10 & H10 & H11).
  apply createKeys_Ok in H10 as (fK & L1 & L2 & L3 & L4 & LU). apply updateKeys_Ok in H11 as (U1 & U2 & U3 & U4); [|apply updates_ids_unique].
  exists w9, em, gm, fE, fG, fK.
  injection H1 as A11 A12 A13 A14 A15. injection H2 as A21 A22 A23 A24 A25. injection H3 as A31 A32 A33 A34 A35.
  unfold besideEnvs, besideGroups, besideNames, sideTables in *. cbn [tablesOf t_envs t_groups t_keys t_presence t_values] in *.
  injection B5 as B51 B52 B53 B54. injection B6 as B61 B62 B63 B64. injection B7 as B71 B72 B73 B74. injection B8 as B81 B82 B83 B84.
  injection B9 as B91 B92 B93 B94 B95. injection L4 as L41 L42 L43. injection U3 as U31 U32 U33.
  assert (keys w8 = keys w4) as Hk8 by congruence.
  assert (forall l, map rn_ID (map keyRename l) = map u_ID l) as Hids by (intros l; rewrite map_map; by apply map_ext).
  assert (envNames (tablesOf w3) = without (map rf_ID (EnvDeletes res)) (envNames (tablesOf w))) as HE3.
  { unfold envNames. cbn [tablesOf t_envs]. by rewrite A31, A21, A11, fmap_without. }
  assert (key_groups w3 = without (map rf_ID (GroupDeletes res)) (key_groups w)) as HG3 by congruence.
  assert (keyNames (tablesOf w3) = without (map rf_ID (KeyDeletes res)) (keyNames (tablesOf w))) as HK3.
  { unfold keyNames. cbn [tablesOf t_keys]. by rewrite A33, A23, A13, keyNames_clear, fmap_without. }
  assert (keyNames (tablesOf w8) = keyNames (tablesOf w4)) as HK8 by (unfold keyNames; cbn; by rewrite Hk8).
  assert (envNames (tablesOf w6) = envNames (tablesOf w5)) as HE6 by (unfold envNames; cbn; by rewrite B61).
  assert (envNames (tablesOf w') = envNames (tablesOf w7)) as HE' by (unfold envNames; cbn; f_equal; congruence).
  assert (key_groups w' = key_groups w8) as HG' by congruence. rewrite HE3 in *. rewrite HG3 in *. rewrite HE6 in *. rewrite HK3 in *.
  destruct (key_run_executed w w9 w10 w' em gm fK Hsh) as (X1 & X2 & X3 & X4).
  { split; [done|by intros id Hi; apply (L2 id Hi)|done..|]. exists (keyNames (tablesOf w4)). rewrite Hids. split_and!; [done| |by apply K2].
    intros id Hi. rewrite K1 by (by rewrite Hids). by rewrite HK8. }
  split; [| | | |done| | |done..| | |].
  - rewrite HE'. apply (executed_creates_first _ (envNames (tablesOf w4)) (envNames (tablesOf w5))); [done|done| |done|by intros id Hi; apply (C3 id Hi)|done|done|by apply F2].
    intros id Hi. by apply P2, P3.
  - eapply resolved_map; [reflexivity|exact C2|exact C5|by apply F2|done|done].
  - rewrite HG'. apply (executed_creates_first _ (key_groups w4) (key_groups w6)); [done|done| |done| |intros id Hi; rewrite D4, B51; done|intros id Hi; by rewrite G1, B71|by apply G2].
    + intros id Hi. by apply P5, P6.
    + intros id Hi. rewrite <- B51. by apply (D3 id Hi).
  - eapply resolved_map; [reflexivity|exact D2|exact D5|by apply G2|done|done].
  - assert (keyBodies (tablesOf w8) = keyBodies (tablesOf w4)) as HB8 by (unfold keyBodies; cbn; by rewrite Hk8).
    rewrite B93, HB8, P8. unfold keyBodies. cbn [tablesOf t_keys].
    by rewrite A33, A23, A13, keyBodies_clear, fmap_without.
  - congruence.
  - congruence.
  - intros E0 G0 K0. rewrite HE', HG', U4. split_and!.
    + apply FU, CU, PU1, unique_without, E0.
    + rewrite B71 in GU. apply GU, DU. rewrite B51. apply PU2, unique_without, G0.
    + apply LU, KU. rewrite HK8. apply PU3, unique_without, K0.
  - intros id. rewrite !in_app_iff. intros [Hi|[Hi|Hi]].
    + destruct (C3 id Hi) as [_ [uu ->]]. apply prefix_good. auto.
    + destruct (D3 id Hi) as [_ [uu ->]]. apply prefix_good. auto.
    + destruct (L2 id Hi) as [_ [uu ->]]. apply prefix_good. auto.
Qed.
End Perform.
End Converge.
