(* ===== verification/DefinitionsSettle.v ===== *)
(** * The keys an apply leaves

    Every key of the bundle, created, updated or left alone, ends up with the
    row and the presence rows the bundle declares. *)

From S2P Require Import Prelude Domain Schema Definitions DefinitionsSpec DefinitionsExport DefinitionsStore DefinitionsApply DefinitionsSteps DefinitionsMatch DefinitionsConverge.

#[local] Open Scope Z_scope.

Section Settle.
Context `{DeclarationCodec}.

Definition ruleIDs (rule : string) (rows : list KeyPresence) : list string := map kp_EnvironmentID (List.filter (fun r => kp_Rule r =s rule) rows).

(** The rows list the environments the rule names, one each. *)
Record presenceSettled (em : gmap string string) (desired : Presence) (ids : list string) : Prop := {
  ps_length : length ids = length (p_Environments desired);
  ps_names : forall n, In n (p_Environments desired) -> exists id, em !! n = Some id /\ In id ids }.

Record rowSettled (em gm : gmap string string) (k : Key) (row : CatalogueKey) (rows : list KeyPresence) : Prop := {
  rw_folder : ca_FolderPath row = k_FolderPath k;
  rw_class : ca_Classification row = k_Classification k;
  rw_desc : ca_Description row = k_Description k;
  rw_depr : ca_Deprecated row = k_Deprecated k;
  rw_note : ca_DeprecationNote row = k_DeprecationNote k;
  rw_decl : exists d, ParseDeclaration (ca_Declaration row) = Ok d /\ ValueDependentChange d (k_Declaration k) = false;
  rw_group : ca_GroupID row = groupIDFor k gm;
  rw_req_mode : ca_RequiredMode row = p_Mode (k_RequiredIn k);
  rw_forb_mode : ca_ForbiddenMode row = p_Mode (k_ForbiddenIn k);
  rw_req : p_Mode (k_RequiredIn k) = PresenceExplicit -> presenceSettled em (k_RequiredIn k) (ruleIDs PresenceRuleRequired rows);
  rw_forb : p_Mode (k_ForbiddenIn k) = PresenceExplicit -> presenceSettled em (k_ForbiddenIn k) (ruleIDs PresenceRuleForbidden rows) }.

Lemma NoDup_map_inj_on {A B} (f : A -> B) l : NoDup l -> (forall x y, In x l -> In y l -> f x = f y -> x = y) -> NoDup (map f l).
Proof.
  intros Hn Hf. induction l as [|x l IH]; [constructor|]. apply NoDup_cons in Hn as [Hx Hn]. cbn [map]. constructor; [|apply IH; [done|intros a a' Ha Ha'; apply Hf; by right]].
  rewrite list_elem_of_In in *. intros Hi. apply in_map_iff in Hi as (y & He & Hy). apply Hx, list_elem_of_In. by rewrite (Hf x y (or_introl eq_refl) (or_intror Hy) (eq_sym He)).
Qed.

(** ** Written rules *)
Lemma ruleIDs_written id p rule : (rule = PresenceRuleRequired \/ rule = PresenceRuleForbidden) ->
  ruleIDs rule (presenceRowsFor id p) =
  (let q := if rule =s PresenceRuleRequired then Required p else Forbidden p in if p_Mode q =s PresenceExplicit then p_Environments q else []).
Proof.
  assert (forall r r' l, ruleIDs r (map (fun e => MkKeyPresence id e r') l) = if r' =s r then l else []) as Hm.
  { intros r r' l. unfold ruleIDs. induction l as [|x l IH]; [by destruct (_ =s _)|]. cbn [map List.filter kp_Rule].
    destruct (r' =s r); [cbn [map]; by rewrite IH|done]. }
  assert (forall r l l', ruleIDs r (l ++ l') = ruleIDs r l ++ ruleIDs r l') as Ha
    by (intros; unfold ruleIDs; by rewrite List.filter_app, map_app).
  intros [-> | ->]; unfold presenceRowsFor; rewrite Ha; cbn [PresenceRuleRequired];
    destruct (p_Mode (Required p) =s PresenceExplicit) eqn:H1, (p_Mode (Forbidden p) =s PresenceExplicit) eqn:H2; rewrite ?Hm; cbn; rewrite ?H1, ?H2, ?app_nil_r; done.
Qed.

Lemma written_settled (em : gmap string string) names ids : Forall2 (fun n id => em !! n = Some id) names ids ->
  length ids = length names /\ forall n, In n names -> exists id, em !! n = Some id /\ In id ids.
Proof.
  intros Hf. split; [symmetry; by eapply Forall2_length|]. intros n Hn. destruct (proj1 (Forall2_In _ _ _ Hf) n Hn) as (id & Hi & He). eauto.
Qed.

Lemma written_rules em k p id : resolves em k p ->
  (p_Mode (k_RequiredIn k) = PresenceExplicit -> presenceSettled em (k_RequiredIn k) (ruleIDs PresenceRuleRequired (presenceRowsFor id p))) /\
  (p_Mode (k_ForbiddenIn k) = PresenceExplicit -> presenceSettled em (k_ForbiddenIn k) (ruleIDs PresenceRuleForbidden (presenceRowsFor id p))).
Proof.
  intros [Hr Hf Hreq Hforb]. split; intros Hm.
  - rewrite ruleIDs_written by auto. cbn. rewrite Hr, Hm, String.eqb_refl. destruct (written_settled _ _ _ Hreq). by split.
  - rewrite ruleIDs_written by auto. cbn. rewrite Hf, Hm, String.eqb_refl. destruct (written_settled _ _ _ Hforb). by split.
Qed.

(** ** Written declarations *)
Lemma written_declaration k0 k s : compiled k0 k -> compiledCanonical (k_Declaration k) = Ok s ->
  exists d, ParseDeclaration s = Ok d /\ ValueDependentChange d (k_Declaration k) = false.
Proof.
  intros Hc Hs. destruct (codec_stored _ _ _ (cp_decl _ _ Hc)) as (s' & Hs' & _ & Hn & d & Hd & Hcan).
  rewrite Hs in Hs'. injection Hs' as <-. exists d. split; [done|]. unfold ValueDependentChange. by rewrite Hcan, Hn, String.eqb_refl.
Qed.

Lemma CompiledDeclaration_In (l : list Key) k : NoDup (map k_Name l) -> In k l -> CompiledDeclaration l (k_Name k) = Ok (k_Declaration k).
Proof. intros Hn Hin. unfold CompiledDeclaration. by rewrite last_filter. Qed.

Lemma created_settled (l : list Key) em gm w' k0 k id : NoDup (map k_Name l) -> In k l -> compiled k0 k -> created l em gm w' k id ->
  exists row, keys w' !! id = Some row /\ ca_Name row = k_Name k /\ rowSettled em gm k row (rowsOf id (key_presence w')).
Proof.
  intros Hn Hin Hc (d & p & s & Hd & Hs & Hp & Hrow & Hrows). rewrite CompiledDeclaration_In in Hd by done. injection Hd as <-.
  exists (newRow k p s gm). split_and!; [done..|]. rewrite Hrows. destruct (written_rules em k p id Hp) as [Hreq Hforb].
  split; cbn [newRow ca_FolderPath ca_Classification ca_Description ca_Deprecated ca_DeprecationNote ca_Declaration ca_GroupID ca_RequiredMode ca_ForbiddenMode]; try done.
  - by eapply written_declaration.
  - apply (rp_req_mode _ _ _ Hp).
  - apply (rp_forb_mode _ _ _ Hp).
Qed.

(** ** Groups left alone *)
Lemma withGroup_id r : withGroup (ca_GroupID r) r = r.
Proof. by destruct r. Qed.

Lemma clearGroups_eq ids : forall r, clearGroups ids r = withGroup (if contains ids (ca_GroupID r) then "" else ca_GroupID r) r.
Proof.
  induction ids as [|x ids IH]; intros r; [symmetry; apply withGroup_id|]. cbn [clearGroups foldl]. fold (clearGroups ids (clearGroup x r)). rewrite IH.
  change (contains (x :: ids) (ca_GroupID r)) with ((ca_GroupID r =s x) || contains ids (ca_GroupID r)). unfold clearGroup.
  destruct (String.eqb_spec (ca_GroupID r) x) as [Hg|Hne]; [|by rewrite andb_false_r].
  destruct (String.eqb_spec x "") as [Hx|Hx]; cbn [negb andb orb]; [rewrite Hg, Hx; by destruct (contains ids "")|].
  cbn [ca_GroupID]. by destruct (contains ids "").
Qed.

(** ** Rules left alone *)

(** A name of the bundle whose planned identity is one of the store's. *)
Lemma planned_identity bundle current additive bound (refs : list Ref) T0 T' news rens fresh M n id :
  entities_ok current -> matched bundle current additive bound (map rf_ID refs) -> topology current bundle bound = (news, rens) ->
  (forall id n, T0 !! id = Some n <-> In (MkEntity id n) current) -> executed T0 T' (map rf_ID refs) news rens fresh -> resolved current refs news rens fresh M ->
  In n (map en_name bundle) -> identities bundle bound !! n = Some id -> goodID id ->
  M !! n = Some id /\ ~ In id (map rf_ID refs) /\ exists i e, bundle !! i = Some e /\ bound !! i = Some id /\ en_name e = n.
Proof.
  intros Hc Hm Ht HT Hx HM Hin Hid Hgood. destruct (news_of _ _ _ _ _ Ht) as [<- <-].
  apply in_map_iff in Hin as (e & <- & Hin). apply list_elem_of_In, list_elem_of_lookup in Hin as [i Hi].
  destruct (entry_bound _ _ _ _ _ Hm i e Hi) as [b Hb].
  rewrite (identities_entry _ _ i e b (mt_names _ _ _ _ _ Hm) (mt_length _ _ _ _ _ Hm) Hi Hb) in Hid. injection Hid as Hid.
  destruct (decide (b = "")) as [Hbe|Hne]; [exfalso; destruct Hgood as [_ Hp]; rewrite <- Hid, Hbe in Hp; cbn in Hp; by destruct (en_name e)|].
  apply String.eqb_neq in Hne as Hnb. rewrite Hnb in Hid. subst b.
  destruct (final_entry _ _ _ _ _ Hc Hm T0 T' fresh HT Hx refs M i e eq_refl HM Hi) as (id' & _ & HMn & _ & Hbid). rewrite (Hbid id Hb Hne) in HMn.
  split_and!; [done|by eapply bound_not_deleted|]. exists i, e. done.
Qed.

Lemma identity_nonempty bundle current additive bound dels n : matched bundle current additive bound dels -> In n (map en_name bundle) ->
  exists id, identities bundle bound !! n = Some id /\ id <> "".
Proof.
  intros Hm Hin. apply in_map_iff in Hin as (e & <- & Hin). apply list_elem_of_In, list_elem_of_lookup in Hin as [i Hi].
  destruct (entry_bound _ _ _ _ _ Hm i e Hi) as [b Hb]. exists (if b =s "" then "new:" +:+ en_name e else b).
  split; [apply (identities_entry _ _ i e b (mt_names _ _ _ _ _ Hm) (mt_length _ _ _ _ _ Hm) Hi Hb)|]. destruct (String.eqb_spec b ""); done.
Qed.

(** What the state lists for a rule is what the rows hold. *)
Lemma presenceIDs_perm id rule (w : World) : Permutation (presenceIDs id PresenceExplicit rule (ListPresence w)) (ruleIDs rule (rowsOf id (key_presence w))).
Proof.
  unfold presenceIDs, ruleIDs, rowsOf, ListPresence. rewrite String.eqb_refl, filter_filter. apply Permutation_map.
  apply Permutation_filter, isort_perm.
Qed.

Lemma presenceChanged_false before desired E : presenceChanged before desired E = false ->
  p_Mode before = p_Mode desired /\
  (p_Mode desired = PresenceExplicit -> length (p_Environments before) = length (p_Environments desired) /\
     forall n, In n (p_Environments desired) -> In (default "" (E !! n)) (p_Environments before)).
Proof.
  unfold presenceChanged. destruct (String.eqb_spec (p_Mode before) (p_Mode desired)) as [Hm|]; [|done]. cbn [negb].
  destruct (String.eqb_spec (p_Mode desired) PresenceExplicit) as [He|]; [|done]. cbn [negb].
  destruct (Nat.eqb_spec (length (p_Environments before)) (length (p_Environments desired))) as [Hl|]; [|done]. cbn [negb].
  intros Hf. apply negb_false_iff in Hf. rewrite forallb_forall in Hf. split; [done|]. intros _. split; [done|]. intros n Hn. by apply contains_In, Hf.
Qed.

Section Bound.
Context (w w' mid : World) (cur : CurrentState) (b0 b : Bundle) (res : Resolution) (eb gb kb : list string) (em gm : gmap string string) (fE fG fK : list string).
Context (Hw : world_ok w) (Hsh : shows w cur) (Hcan : canonical b0 b) (Hpl : planned b cur res eb gb kb).
Context (Hpf : performed res cur (b_Keys b) w w' mid em gm fE fG fK).

Let Hst : state_ok cur := world_state_ok w cur Hw Hsh.

Lemma env_identity n id : In n (map en_name (b_Environments b)) -> planEnvs b eb !! n = Some id -> is_Some (environments w !! id) ->
  em !! n = Some id /\ ~ In id (map rf_ID (EnvDeletes res)) /\ exists i e, b_Environments b !! i = Some e /\ eb !! i = Some id /\ en_name e = n.
Proof.
  intros Hn Hid Hi. eapply (planned_identity _ _ _ _ _ (envNames (tablesOf w)) (envNames (tablesOf w')));
    [apply Hst|apply Hpl|apply Hpl|intros; by apply entitiesOf_In, Hsh|apply Hpf|apply Hpf|done|done|by apply (wo_env_ids _ Hw)].
Qed.

Lemma group_identity n id : In n (map en_name (b_KeyGroups b)) -> planGroups b gb !! n = Some id -> is_Some (key_groups w !! id) ->
  gm !! n = Some id /\ ~ In id (map rf_ID (GroupDeletes res)).
Proof.
  intros Hn Hid Hi. edestruct (planned_identity (b_KeyGroups b) (cs_KeyGroups cur) (Additive b) gb (GroupDeletes res) (key_groups w) (key_groups w')) as (H1 & H2 & _);
    [apply Hst|apply Hpl|apply Hpl|intros; by apply entitiesOf_In, Hsh|apply Hpf|apply Hpf|exact Hn|exact Hid|by apply (wo_group_ids _ Hw)|done].
Qed.

(** A rule the diff found unchanged keeps all its rows. *)
Lemma kept_rule id rule mode desired : NoDup (p_Environments desired) -> (forall n, In n (p_Environments desired) -> In n (map en_name (b_Environments b))) ->
  presenceChanged (MkPresence mode (presenceIDs id mode rule (ListPresence w))) desired (planEnvs b eb) = false -> p_Mode desired = PresenceExplicit ->
  presenceSettled em desired (ruleIDs rule (List.filter (envDeleted (map rf_ID (EnvDeletes res))) (rowsOf id (key_presence w)))).
Proof.
  intros Hnd Hnames Hch Hmode. apply presenceChanged_false in Hch as [Hm Hch]. cbn [p_Mode p_Environments] in Hm, Hch.
  destruct (Hch Hmode) as [Hlen Hin]. rewrite Hm, Hmode in Hlen, Hin. clear Hch Hm.
  pose proof (presenceIDs_perm id rule w) as Hp. set (L0 := ruleIDs rule (rowsOf id (key_presence w))) in *. rewrite (Permutation_length Hp) in Hlen.
  assert (forall x, In x L0 -> is_Some (environments w !! x)) as HL0.
  { intros x Hx. apply in_map_iff in Hx as (r & <- & [Hr _]%filter_In). apply filter_In in Hr as [Hr _]. by apply (wo_presence _ Hw). }
  set (f := fun n => default "" (planEnvs b eb !! n)).
  assert (forall n, In n (p_Environments desired) -> In (f n) L0) as Hf by (intros n Hn; apply (Permutation_in _ Hp), Hin; done).
  assert (forall n, In n (p_Environments desired) -> em !! n = Some (f n) /\ ~ In (f n) (map rf_ID (EnvDeletes res)) /\
    exists i e, b_Environments b !! i = Some e /\ eb !! i = Some (f n) /\ en_name e = n) as Hid.
  { intros n Hn. pose proof (HL0 _ (Hf n Hn)) as Hs. apply env_identity; [by apply Hnames| |done].
    unfold f in *. destruct (planEnvs b eb !! n) eqn:Hx; [done|]. cbn in Hs. destruct (wo_env_ids _ Hw _ Hs) as [? _]. done. }
  assert (NoDup (map f (p_Environments desired))) as Hnd'.
  { apply NoDup_map_inj_on; [done|]. intros n n' Hn Hn' Heq. destruct (Hid n Hn) as (_ & _ & i & e & He & Hb & <-). destruct (Hid n' Hn') as (_ & _ & j & e' & He' & Hb' & <-).
    rewrite Heq in Hb. assert (i = j) as <-; [|congruence]. eapply (mt_inj _ _ _ _ _ (pn_envs _ _ _ _ _ _ Hpl)); [done..|].
    pose proof (HL0 _ (Hf _ Hn')) as Hs. by destruct (wo_env_ids _ Hw _ Hs). }
  assert (forall x, In x L0 -> ~ In x (map rf_ID (EnvDeletes res))) as Hkeep.
  { intros x Hx. assert (In x (map f (p_Environments desired))) as Hi.
    { apply (NoDup_length_incl (l := map f (p_Environments desired)) (l' := L0)); [by apply NoDup_ListNoDup|rewrite length_map; lia| |done].
      intros y Hy. apply in_map_iff in Hy as (n & <- & Hn). by apply Hf. }
    apply in_map_iff in Hi as (n & <- & Hn). by apply (Hid n Hn). }
  assert (ruleIDs rule (List.filter (envDeleted (map rf_ID (EnvDeletes res))) (rowsOf id (key_presence w))) = L0) as ->.
  { unfold L0, ruleIDs. rewrite filter_filter. f_equal. apply filter_ext_in. intros r Hr. destruct (String.eqb_spec (kp_Rule r) rule) as [He|]; [|by rewrite andb_false_r].
    rewrite andb_true_r. unfold envDeleted. apply negb_true_iff. rewrite <- not_true_iff_false, contains_In. apply Hkeep.
    apply in_map, filter_In. split; [done|]. rewrite He. apply String.eqb_refl. }
  split; [done|]. intros n Hn. exists (f n). split; [by apply Hid|by apply Hf].
Qed.

(** *** A bound key *)
Section Key.
Context (i : nat) (k : Key) (id : string) (c : CurrentKey) (row0 : CatalogueKey) (d0 : decl).
Context (Hk : b_Keys b !! i = Some k) (Hid : kb !! i = Some id) (Hne : id <> "").
Context (Hc : curKeyByID (cs_Keys cur) id = Some c) (Hrow0 : keys w !! id = Some row0) (Hd0 : ParseDeclaration (ca_Declaration row0) = Ok d0).
Context (Hck : c = currentKey w id row0 d0).

Let u := diffKey c k (planEnvs b eb) (planGroups b gb).
Let dG := map rf_ID (GroupDeletes res).
Let dE := map rf_ID (EnvDeletes res).
Let rewritten := u_DeclChanged u || u_PresenceChanged u.

Lemma bound_alive : ~ In id (map rf_ID (KeyDeletes res)) /\ ~ In id fK.
Proof.
  pose proof (bound_not_deleted _ _ _ _ _ (pn_keys _ _ _ _ _ _ Hpl) i id Hid) as Hnd. split; [done|].
  intros Hf. destruct (xe_fresh _ _ _ _ _ _ (pf_keys _ _ _ _ _ _ _ _ _ _ _ Hpf) id Hf) as [Hn|?]; [|done].
  unfold keyNames in Hn. cbn in Hn. by rewrite lookup_fmap, Hrow0 in Hn.
Qed.

Lemma bound_mid : exists rowm, keys mid !! id = Some rowm /\ withName "" rowm = clearGroups dG (withName "" row0) /\
  rowsOf id (key_presence mid) = List.filter (envDeleted dE) (rowsOf id (key_presence w)).
Proof.
  destruct bound_alive as [Hnd _]. assert (contains (map rf_ID (KeyDeletes res)) id = false) as Hcd by (by rewrite <- not_true_iff_false, contains_In).
  pose proof (f_equal (fun m => m !! id) (pf_mid_bodies _ _ _ _ _ _ _ _ _ _ _ Hpf)) as Hb. cbn in Hb. unfold keyBodies in Hb. cbn [tablesOf t_keys] in Hb.
  rewrite !lookup_fmap, lookup_without, Hcd, lookup_fmap, Hrow0 in Hb. cbn in Hb. destruct (keys mid !! id) as [rowm|]; [|done]. injection Hb as Hb.
  exists rowm. split_and!; [done|exact Hb|]. rewrite (pf_mid_rows _ _ _ _ _ _ _ _ _ _ _ Hpf). unfold rowsOf. rewrite !filter_filter. apply filter_ext.
  intros r. unfold keyDeleted, dE. destruct (String.eqb_spec (kp_KeyID r) id) as [->|]; [rewrite Hcd|]; by rewrite ?andb_true_r, ?andb_false_r.
Qed.

(** An update of this identity is this key's. *)
Lemma bound_update u' : In u' (KeyUpdates res) -> u_ID u' = id -> u' = u /\ changed u = true.
Proof.
  rewrite (pn_updates _ _ _ _ _ _ Hpl). intros Hu Hi. apply in_flat_map in Hu as ([k' id'] & Hz & Hu). apply updateOf_In in Hu as (Hn' & c' & Hc' & -> & Hch).
  cbn [u_ID diffKey] in Hi. pose proof (curKeyByID_Some _ _ _ Hc') as [_ Hid']. assert (id' = id) as -> by congruence.
  rewrite Hc in Hc'. injection Hc' as <-. apply zip_In in Hz as (j & Hj & Hb).
  assert (i = j) as <- by (by eapply (mt_inj _ _ _ _ _ (pn_keys _ _ _ _ _ _ Hpl))). rewrite Hk in Hj. injection Hj as <-. done.
Qed.

Lemma unchanged_row p s r : changed u = false -> updatedRow u p s gm r = r.
Proof.
  unfold changed. intros Hch. repeat (apply orb_false_iff in Hch as [Hch ?]). unfold updatedRow.
  destruct (u_MetaChanged u), (u_DeclChanged u), (u_Reclassified u), (u_GroupChanged u), (u_PresenceChanged u); done.
Qed.

Lemma bound_row : exists rowm p s, withName "" rowm = clearGroups dG (withName "" row0) /\ keys w' !! id = Some (updatedRow u p s gm rowm) /\
  (rewritten = true -> resolves em k p /\ compiledCanonical (k_Declaration k) = Ok s) /\
  rowsOf id (key_presence w') = (if rewritten then presenceRowsFor id p else List.filter (envDeleted dE) (rowsOf id (key_presence w))).
Proof.
  destruct bound_mid as (rowm & Hm & Hbody & Hrows). destruct bound_alive as [_ Hf].
  assert (In k (b_Keys b)) as Hin by (by eapply list_elem_of_In, list_elem_of_lookup_2).
  pose proof (curKeyByID_Some _ _ _ Hc) as [_ Hcid]. destruct (changed u) eqn:Hch.
  - assert (In u (KeyUpdates res)) as Hu.
    { rewrite (pn_updates _ _ _ _ _ _ Hpl). apply in_flat_map. exists (k, id). split; [by eapply zip_lookup|]. apply updateOf_In. split; [done|]. by exists c. }
    destruct (pf_updated _ _ _ _ _ _ _ _ _ _ _ Hpf u Hu) as (row & d & p & s & E1 & E2 & E3 & E4 & E5 & E6).
    assert (u_ID u = id) as Hui by done. rewrite Hui in *. change (u_Desired u) with k in *.
    rewrite Hm in E1. injection E1 as <-. rewrite CompiledDeclaration_In in E2; [|pose proof (mt_names _ _ _ _ _ (pn_keys _ _ _ _ _ _ Hpl)) as Hn; unfold bundleKeyEntities in Hn; by rewrite map_map in Hn|done].
    injection E2 as <-. exists rowm, p, s. split_and!; [done..|intros Hr; split; [done|by apply E4]|]. rewrite E6. fold rewritten. by rewrite Hrows.
  - destruct (pf_same _ _ _ _ _ _ _ _ _ _ _ Hpf id Hf) as [S1 S2].
    { intros Hi. apply in_map_iff in Hi as (u' & Hi & Hu'). destruct (bound_update u' Hu' Hi). congruence. }
    exists rowm, DefaultPresenceRules, "". rewrite unchanged_row by done.
    assert (rewritten = false) as Hrw. { unfold changed in Hch. repeat (apply orb_false_iff in Hch as [Hch ?]). unfold rewritten. by apply orb_false_iff. }
    rewrite Hrw. split_and!; [done|by rewrite S1|done|by rewrite S2].
Qed.

(** The row before the update, field by field. *)
Lemma rowm_fields rowm : withName "" rowm = clearGroups dG (withName "" row0) ->
  ca_FolderPath rowm = ca_FolderPath row0 /\ ca_Classification rowm = ca_Classification row0 /\ ca_Description rowm = ca_Description row0 /\
  ca_Deprecated rowm = ca_Deprecated row0 /\ ca_DeprecationNote rowm = ca_DeprecationNote row0 /\ ca_Declaration rowm = ca_Declaration row0 /\
  ca_RequiredMode rowm = ca_RequiredMode row0 /\ ca_ForbiddenMode rowm = ca_ForbiddenMode row0 /\
  ca_GroupID rowm = (if contains dG (ca_GroupID row0) then "" else ca_GroupID row0).
Proof. rewrite clearGroups_eq. unfold withName, withGroup. cbn. destruct rowm, row0. cbn. intros [= ? ? ? ? ? ? ? ? ?]. by subst. Qed.

(** A membership the diff found unchanged is the final one. *)
Lemma kept_group : u_GroupChanged u = false -> (if contains dG (ca_GroupID row0) then "" else ca_GroupID row0) = groupIDFor k gm.
Proof.
  intros Hg. unfold u, diffKey in Hg. cbn [u_GroupChanged] in Hg. apply negb_false_iff, String.eqb_eq in Hg. rewrite Hck in Hg. cbn [currentKey ck_GroupID] in Hg.
  unfold groupIDFor. destruct (String.eqb_spec (k_Group k) "") as [He|He].
  - rewrite <- Hg. by destruct (contains dG "").
  - assert (In k (b_Keys b)) as Hin by (by eapply list_elem_of_In, list_elem_of_lookup_2).
    pose proof (pn_refs _ _ _ _ _ _ Hpl k Hin) as Href. unfold validateKeyReferences in Href.
    destruct (String.eqb_spec (k_Group k) ""); [done|]. cbn [negb andb] in Href. destruct (contains (map en_name (b_KeyGroups b)) (k_Group k)) eqn:Hcn; [|done].
    apply contains_In in Hcn. destruct (identity_nonempty _ _ _ _ _ _ (pn_groups _ _ _ _ _ _ Hpl) Hcn) as (g & Hpg & Hgne).
    unfold planGroups in Hg. rewrite Hpg in Hg. cbn in Hg. subst g. destruct (wo_group _ Hw id row0 Hrow0) as [Hz|Hs]; [done|].
    destruct (group_identity (k_Group k) (ca_GroupID row0) Hcn Hpg Hs) as [Hgm Hnd]. rewrite Hgm.
    assert (contains dG (ca_GroupID row0) = false) as -> by (by rewrite <- not_true_iff_false, contains_In). done.
Qed.

Lemma bound_refs p : (p = k_RequiredIn k \/ p = k_ForbiddenIn k) -> NoDup (p_Environments p) /\ forall n, In n (p_Environments p) -> In n (map en_name (b_Environments b)).
Proof.
  intros Hp. assert (In k (b_Keys b)) as Hin by (by eapply list_elem_of_In, list_elem_of_lookup_2).
  destruct (canonical_key _ _ _ Hcan Hin) as (k0 & _ & Hcp). split; [destruct Hp as [-> | ->]; [apply (cp_required _ _ Hcp)|apply (cp_forbidden _ _ Hcp)]|].
  intros n Hn. pose proof (pn_refs _ _ _ _ _ _ Hpl k Hin) as Href. unfold validateKeyReferences in Href.
  destruct (_ && _) in Href; [done|]. destruct (_ && _) eqn:Hf in Href; [|done]. apply andb_prop in Hf as [H1 H2]. rewrite forallb_forall in H1, H2.
  apply contains_In. destruct Hp as [-> | ->]; [by apply H1|by apply H2].
Qed.

(** The flags that are down say the fields agree. *)
Lemma kept_metadata : u_MetaChanged u = false ->
  ca_FolderPath row0 = k_FolderPath k /\ ca_Description row0 = k_Description k /\ ca_Deprecated row0 = k_Deprecated k /\ ca_DeprecationNote row0 = k_DeprecationNote k.
Proof.
  unfold u, diffKey. cbn [u_MetaChanged]. rewrite Hck. cbn [currentKey ck_FolderPath ck_Description ck_Deprecated ck_DeprecationNote]. intros Hm.
  repeat (apply orb_false_iff in Hm as [Hm ?]). repeat match goal with H : negb _ = false |- _ => apply negb_false_iff in H end.
  repeat match goal with H : (_ =s _) = true |- _ => apply String.eqb_eq in H end. by split_and!; [..|apply eqb_prop|].
Qed.

Lemma kept_class : u_Reclassified u = false -> ca_Classification row0 = k_Classification k.
Proof. unfold u, diffKey. cbn [u_Reclassified]. rewrite Hck. cbn. intros Hm%negb_false_iff. by apply String.eqb_eq. Qed.

Lemma kept_rules : rewritten = false ->
  ValueDependentChange d0 (k_Declaration k) = false /\ ca_RequiredMode row0 = p_Mode (k_RequiredIn k) /\ ca_ForbiddenMode row0 = p_Mode (k_ForbiddenIn k) /\
  (p_Mode (k_RequiredIn k) = PresenceExplicit -> presenceSettled em (k_RequiredIn k) (ruleIDs PresenceRuleRequired (List.filter (envDeleted dE) (rowsOf id (key_presence w))))) /\
  (p_Mode (k_ForbiddenIn k) = PresenceExplicit -> presenceSettled em (k_ForbiddenIn k) (ruleIDs PresenceRuleForbidden (List.filter (envDeleted dE) (rowsOf id (key_presence w))))).
Proof.
  unfold rewritten. intros [Hd Hp]%orb_false_iff. unfold u, diffKey in Hd, Hp. cbn [u_DeclChanged u_PresenceChanged] in Hd, Hp. rewrite Hck in Hd, Hp.
  cbn [currentKey ck_Declaration ck_Required ck_Forbidden presenceOf Required Forbidden] in Hd, Hp. apply orb_false_iff in Hp as [Hr Hf].
  destruct (bound_refs _ (or_introl eq_refl)) as [N1 R1]. destruct (bound_refs _ (or_intror eq_refl)) as [N2 R2].
  split_and!; [done|by apply presenceChanged_false in Hr as [? _]|by apply presenceChanged_false in Hf as [? _]| |]; intros Hm; by eapply kept_rule.
Qed.

Lemma bound_settled : exists row, keys w' !! id = Some row /\ rowSettled em gm k row (rowsOf id (key_presence w')).
Proof.
  destruct bound_row as (rowm & p & s & Hbody & Hrow & Hrw & Hrows). exists (updatedRow u p s gm rowm). split; [done|]. rewrite Hrows.
  destruct (rowm_fields rowm Hbody) as (F1 & F2 & F3 & F4 & F5 & F6 & F7 & F8 & F9).
  assert (In k (b_Keys b)) as Hin by (by eapply list_elem_of_In, list_elem_of_lookup_2).
  destruct (canonical_key _ _ _ Hcan Hin) as (k0 & _ & Hcp). pose proof kept_metadata as Hmeta. pose proof kept_class as Hcls. pose proof kept_group as Hgrp.
  pose proof kept_rules as Hrules. rewrite <- F1, <- F3, <- F4, <- F5 in Hmeta. rewrite <- F2 in Hcls. rewrite <- F9 in Hgrp. rewrite <- F7, <- F8 in Hrules. rewrite <- F6 in Hd0.
  assert (rewritten = true -> rowSettled em gm k (updatedRow u p s gm rowm) (presenceRowsFor id p)) as Hyes.
  { intros Hr. destruct (Hrw Hr) as [Hp Hs]. destruct (written_rules em k p id Hp) as [W1 W2]. unfold updatedRow. fold rewritten. rewrite Hr.
    destruct (u_MetaChanged u), (u_Reclassified u), (u_GroupChanged u); split; cbn; try done;
      try (by apply Hmeta); try (by apply Hcls); try (by apply Hgrp); try (by eapply written_declaration); try apply Hp. }
  destruct rewritten eqn:Hr; [by apply Hyes|]. destruct (Hrules eq_refl) as (R1 & R2 & R3 & R4 & R5). unfold updatedRow. fold rewritten. rewrite Hr.
  destruct (u_MetaChanged u), (u_Reclassified u), (u_GroupChanged u); split; cbn; try done; try (by apply Hmeta); try (by apply Hcls); try (by apply Hgrp); by exists d0.
Qed.
End Key.
End Bound.
End Settle.
