(* ===== verification/DefinitionsRealize.v ===== *)
(** * The executed resolution realizes the bundle

    The tables the executor leaves, read back as a state, realize the bundle
    it was given. *)

From S2P Require Import Prelude Domain Schema Definitions DefinitionsSpec DefinitionsExport DefinitionsStore DefinitionsApply DefinitionsSteps DefinitionsMatch DefinitionsConverge DefinitionsSettle.

#[local] Open Scope Z_scope.

Section Realize.
Context `{DeclarationCodec}.

(** ** The final state realizes the bundle *)
Section Final.
Context (w w' mid : World) (cur : CurrentState) (b0 b : Bundle) (res : Resolution) (eb gb kb : list string) (em gm : gmap string string) (fE fG fK : list string).
Context (Hw : world_ok w) (Hsh : shows w cur) (Hcan : canonical b0 b) (Hpl : planned b cur res eb gb kb).
Context (Hpf : performed res cur (b_Keys b) w w' mid em gm fE fG fK).

Let Hst : state_ok cur := world_state_ok w cur Hw Hsh.

Lemma final_unique : unique (envNames (tablesOf w')) /\ unique (key_groups w') /\ unique (keyNames (tablesOf w')).
Proof. apply (pf_unique _ _ _ _ _ _ _ _ _ _ _ Hpf); apply Hw. Qed.

Lemma final_env i e : b_Environments b !! i = Some e ->
  exists id, envNames (tablesOf w') !! id = Some (en_name e) /\ em !! en_name e = Some id /\ (en_id e = "" \/ en_id e = id).
Proof.
  intros Hi. destruct (news_of _ _ _ _ _ (pn_env_topology _ _ _ _ _ _ Hpl)) as [H1 H2].
  pose proof (pf_envs _ _ _ _ _ _ _ _ _ _ _ Hpf) as Hx. pose proof (pf_em _ _ _ _ _ _ _ _ _ _ _ Hpf) as Hm. rewrite <- H1, <- H2 in Hx, Hm.
  destruct (final_entry _ _ _ _ _ (so_envs _ Hst) (pn_envs _ _ _ _ _ _ Hpl) _ _ _ (fun id n => entitiesOf_In _ _ id n (sh_envs _ _ Hsh)) Hx _ _ i e eq_refl Hm Hi)
    as (id & ? & ? & ? & _). eauto.
Qed.

Lemma final_group i e : b_KeyGroups b !! i = Some e ->
  exists id, key_groups w' !! id = Some (en_name e) /\ gm !! en_name e = Some id /\ (en_id e = "" \/ en_id e = id).
Proof.
  intros Hi. destruct (news_of _ _ _ _ _ (pn_group_topology _ _ _ _ _ _ Hpl)) as [H1 H2].
  pose proof (pf_groups _ _ _ _ _ _ _ _ _ _ _ Hpf) as Hx. pose proof (pf_gm _ _ _ _ _ _ _ _ _ _ _ Hpf) as Hm. rewrite <- H1, <- H2 in Hx, Hm.
  destruct (final_entry _ _ _ _ _ (so_groups _ Hst) (pn_groups _ _ _ _ _ _ Hpl) _ _ _ (fun id n => entitiesOf_In _ _ id n (sh_groups _ _ Hsh)) Hx _ _ i e eq_refl Hm Hi)
    as (id & ? & ? & ? & _). eauto.
Qed.

Lemma final_key i k : b_Keys b !! i = Some k ->
  exists id, keyNames (tablesOf w') !! id = Some (k_Name k) /\ (k_ID k = "" \/ k_ID k = id) /\ forall x, kb !! i = Some x -> x <> "" -> id = x.
Proof.
  intros Hi. destruct (news_of _ _ _ _ _ (pn_key_topology _ _ _ _ _ _ Hpl)) as [H1 H2].
  pose proof (pf_keys _ _ _ _ _ _ _ _ _ _ _ Hpf) as Hx. rewrite <- H1, <- H2 in Hx.
  apply (final_name _ _ _ _ _ (so_keys _ Hst) (pn_keys _ _ _ _ _ _ Hpl) _ _ _ (fun id n => entitiesOf_In _ _ id n (sh_keys _ _ Hsh)) Hx i (MkEntity (k_ID k) (k_Name k))).
  apply map_lookup_Some. by exists k.
Qed.

Lemma keyNames_row (v : World) id n : keyNames (tablesOf v) !! id = Some n <-> exists row, keys v !! id = Some row /\ ca_Name row = n.
Proof. unfold keyNames. cbn. rewrite lookup_fmap. destruct (keys v !! id); cbn; naive_solver. Qed.

Lemma bundle_names : NoDup (map k_Name (b_Keys b)).
Proof. pose proof (mt_names _ _ _ _ _ (pn_keys _ _ _ _ _ _ Hpl)) as Hn. unfold bundleKeyEntities in Hn. by rewrite map_map in Hn. Qed.

(** Created, updated or left alone, a key of the bundle is settled. *)
Lemma settle_key i k : b_Keys b !! i = Some k ->
  exists id row, keys w' !! id = Some row /\ ca_Name row = k_Name k /\ rowSettled em gm k row (rowsOf id (key_presence w')).
Proof.
  intros Hi. assert (In k (b_Keys b)) as Hin by (by eapply list_elem_of_In, list_elem_of_lookup_2).
  destruct (canonical_key _ _ _ Hcan Hin) as (k0 & _ & Hcp).
  destruct (lookup_lt_is_Some_2 kb i) as [id Hid].
  { rewrite (mt_length _ _ _ _ _ (pn_keys _ _ _ _ _ _ Hpl)). unfold bundleKeyEntities. rewrite length_map. by eapply lookup_lt_Some. }
  destruct (decide (id = "")) as [->|Hne].
  - assert (In k (KeyCreates res)) as Hc.
    { rewrite (pn_creates _ _ _ _ _ _ Hpl). apply in_map_iff. exists (k, ""). split; [done|]. apply filter_In. split; [by eapply zip_lookup|done]. }
    destruct (proj1 (Forall2_In _ _ _ (pf_created _ _ _ _ _ _ _ _ _ _ _ Hpf)) k Hc) as (id & _ & Hcr).
    destruct (created_settled _ _ _ _ _ _ _ bundle_names Hin Hcp Hcr) as (row & ? & ? & ?). by exists id, row.
  - destruct (pn_bound _ _ _ _ _ _ Hpl i k id Hi Hid Hne) as [c Hc]. pose proof (curKeyByID_Some _ _ _ Hc) as [Hcin Hcid].
    destruct (sh_key _ _ Hsh c Hcin) as (row0 & d0 & Hrow0 & Hd0 & Hck). rewrite Hcid in *.
    destruct (bound_settled w w' mid cur b0 b res eb gb kb em gm fE fG fK Hw Hsh Hcan Hpl Hpf i k id c row0 d0) as (row & Hrow & Hset); [done..|].
    exists id, row. split_and!; [done| |done]. destruct (final_key i k Hi) as (id' & Hn & _ & Hb). rewrite (Hb id Hid Hne) in Hn.
    apply keyNames_row in Hn as (row' & Hr & <-). congruence.
Qed.

(** Ids stay the server's. *)
Lemma final_good id : is_Some (environments w' !! id) \/ is_Some (key_groups w' !! id) \/ is_Some (keys w' !! id) -> goodID id.
Proof.
  pose proof (pf_fresh _ _ _ _ _ _ _ _ _ _ _ Hpf) as Hf. intros [Hi|[[n Hi]|[row Hi]]].
  - destruct (news_of _ _ _ _ _ (pn_env_topology _ _ _ _ _ _ Hpl)) as [H1 H2]. pose proof (pf_envs _ _ _ _ _ _ _ _ _ _ _ Hpf) as Hx. rewrite <- H1, <- H2 in Hx.
    destruct Hi as [e Hi]. destruct (final_ids _ _ _ _ _ (so_envs _ Hst) (pn_envs _ _ _ _ _ _ Hpl) _ _ _ (fun id n => entitiesOf_In _ _ id n (sh_envs _ _ Hsh)) Hx id (e_Name e)) as [Hi'|[x Hi']].
    + unfold envNames. cbn. by rewrite lookup_fmap, Hi.
    + apply Hf, in_app_iff. by left.
    + unfold envNames in Hi'. cbn in Hi'. rewrite lookup_fmap in Hi'. apply (wo_env_ids _ Hw). by destruct (environments w !! id); [eexists|].
  - destruct (news_of _ _ _ _ _ (pn_group_topology _ _ _ _ _ _ Hpl)) as [H1 H2]. pose proof (pf_groups _ _ _ _ _ _ _ _ _ _ _ Hpf) as Hx. rewrite <- H1, <- H2 in Hx.
    destruct (final_ids _ _ _ _ _ (so_groups _ Hst) (pn_groups _ _ _ _ _ _ Hpl) _ _ _ (fun id n => entitiesOf_In _ _ id n (sh_groups _ _ Hsh)) Hx id n Hi) as [Hi'|Hi'].
    + apply Hf. rewrite !in_app_iff. by right; left.
    + by apply (wo_group_ids _ Hw).
  - destruct (news_of _ _ _ _ _ (pn_key_topology _ _ _ _ _ _ Hpl)) as [H1 H2]. pose proof (pf_keys _ _ _ _ _ _ _ _ _ _ _ Hpf) as Hx. rewrite <- H1, <- H2 in Hx.
    destruct (final_ids _ _ _ _ _ (so_keys _ Hst) (pn_keys _ _ _ _ _ _ Hpl) _ _ _ (fun id n => entitiesOf_In _ _ id n (sh_keys _ _ Hsh)) Hx id (ca_Name row)) as [Hi'|[x Hi']].
    + apply keyNames_row. eauto.
    + apply Hf. rewrite !in_app_iff. by right; right.
    + apply keyNames_row in Hi' as (r & Hr & _). apply (wo_key_ids _ Hw). by eexists.
Qed.

(** A key the bundle does not mention keeps its declaration. *)
Lemma unbound_readable id row : keys w' !! id = Some row -> ~ In id fK -> ~ In id kb -> exists d, ParseDeclaration (ca_Declaration row) = Ok d.
Proof.
  intros Hrow Hf Hb. destruct (news_of _ _ _ _ _ (pn_key_topology _ _ _ _ _ _ Hpl)) as [_ H2].
  assert (forall u, In u (KeyUpdates res) -> In (u_ID u) kb) as Hukb.
  { intros u Hu. rewrite (pn_updates _ _ _ _ _ _ Hpl) in Hu. apply in_flat_map in Hu as ([k x] & Hz & Hu). apply updateOf_In in Hu as (_ & c & Hc & -> & _).
    apply curKeyByID_Some in Hc as [_ Hc]. cbn [u_ID diffKey]. rewrite Hc. apply zip_In in Hz as (j & _ & Hj). by eapply list_elem_of_In, list_elem_of_lookup_2. }
  assert (~ In id (map rn_ID (map keyRename (renamedKeys res)))) as Hr.
  { rewrite map_map. intros Hi. apply in_map_iff in Hi as (u & <- & [Hu _]%filter_In). by apply Hb, Hukb. }
  pose proof (xe_rest _ _ _ _ _ _ (pf_keys _ _ _ _ _ _ _ _ _ _ _ Hpf) id Hf Hr) as Hx.
  assert (keyNames (tablesOf w') !! id = Some (ca_Name row)) as Hn by (apply keyNames_row; eauto). rewrite Hn in Hx.
  destruct (contains (map rf_ID (KeyDeletes res)) id) eqn:Hd; [done|]. symmetry in Hx. apply keyNames_row in Hx as (row0 & Hrow0 & _).
  destruct (pf_same _ _ _ _ _ _ _ _ _ _ _ Hpf id Hf) as [S1 _]; [intros Hi; apply in_map_iff in Hi as (u & <- & Hu); by apply Hb, Hukb|].
  pose proof (f_equal (fun m => m !! id) (pf_mid_bodies _ _ _ _ _ _ _ _ _ _ _ Hpf)) as Hbody. cbn in Hbody. unfold keyBodies in Hbody. cbn [tablesOf t_keys] in Hbody.
  rewrite !lookup_fmap, lookup_without, Hd, lookup_fmap, <- S1, Hrow, Hrow0 in Hbody. cbn in Hbody. injection Hbody as Hbody. rewrite clearGroups_eq in Hbody.
  apply (f_equal ca_Declaration) in Hbody. cbn in Hbody. rewrite Hbody.
  destruct (sh_row _ _ Hsh id row0 Hrow0) as (c & Hc & Hcid). destruct (sh_key _ _ Hsh c Hc) as (row1 & d & Hr1 & Hp & _). rewrite Hcid in Hr1. exists d. congruence.
Qed.

Lemma final_readable id row : keys w' !! id = Some row -> exists d, ParseDeclaration (ca_Declaration row) = Ok d.
Proof.
  intros Hrow. destruct (final_good id) as [Hne _]; [eauto|].
  assert (forall i k, b_Keys b !! i = Some k -> ca_Name row = k_Name k -> exists d, ParseDeclaration (ca_Declaration row) = Ok d) as Hset.
  { intros i k Hi Hn. destruct (settle_key i k Hi) as (id' & row' & Hr' & Hn' & Hs).
    assert (id' = id) as ->; [|rewrite Hrow in Hr'; injection Hr' as <-; destruct (rw_decl _ _ _ _ _ Hs) as (d & Hd & _); by exists d].
    destruct final_unique as (_ & _ & Hu). apply (Hu _ _ (k_Name k)); apply keyNames_row; eauto. }
  destruct (in_dec String.string_dec id fK) as [Hf|Hf]; [|destruct (in_dec String.string_dec id kb) as [Hb|Hb]; [|by eapply unbound_readable]].
  - destruct (proj2 (Forall2_In _ _ _ (pf_created _ _ _ _ _ _ _ _ _ _ _ Hpf)) id Hf) as (k & Hk & d & p & s & _ & _ & _ & Hr & _).
    rewrite Hrow in Hr. injection Hr as ->. rewrite (pn_creates _ _ _ _ _ _ Hpl) in Hk. apply in_map_iff in Hk as ([k' x] & <- & [Hz _]%filter_In).
    apply zip_In in Hz as (i & Hi & _). by apply (Hset i k').
  - apply list_elem_of_In, list_elem_of_lookup in Hb as [i Hi]. destruct (lookup_lt_is_Some_2 (b_Keys b) i) as [k Hk].
    { pose proof (mt_length _ _ _ _ _ (pn_keys _ _ _ _ _ _ Hpl)) as Hl. unfold bundleKeyEntities in Hl. rewrite length_map in Hl. rewrite <- Hl. by eapply lookup_lt_Some. }
    apply (Hset i k Hk). destruct (final_key i k Hk) as (id' & Hn & _ & Hb). rewrite (Hb id Hi Hne) in Hn. apply keyNames_row in Hn as (row' & Hr & <-). congruence.
Qed.

(** *** The state the final tables show *)
Section Shown.
Context (cur' : CurrentState) (Hsh' : shows w' cur').

Lemma final_state_ok : state_ok cur'.
Proof.
  destruct final_unique as (Hu1 & Hu2 & Hu3). apply (shows_state_ok w' cur' Hsh' Hu1 Hu2 Hu3). intros id Hi. by apply final_good in Hi as [? _].
Qed.

Lemma In_lookup {A} (x : A) l : In x l -> exists i, l !! i = Some x.
Proof. intros Hin. by apply list_elem_of_In, list_elem_of_lookup in Hin. Qed.

Lemma byName_shown (m : gmap string string) l id n : entitiesOf m l -> entities_ok l -> m !! id = Some n -> byName l !! n = Some id.
Proof. intros He Hok Hm. apply (entitiesOf_In _ _ _ _ He) in Hm. by apply (byName_Some l (MkEntity id n)); [apply Hok|]. Qed.

Lemma shown_rule id mode rule desired (E : gmap string string) k0p : normalized k0p desired -> mode = p_Mode desired ->
  (forall n, In n (p_Environments desired) -> In n (map en_name (b_Environments b))) ->
  (p_Mode desired = PresenceExplicit -> presenceSettled em desired (ruleIDs rule (rowsOf id (key_presence w')))) ->
  (forall n, In n (map en_name (b_Environments b)) -> E !! n = byName (cs_Environments cur') !! n) ->
  presenceChanged (MkPresence mode (presenceIDs id mode rule (ListPresence w'))) desired E = false.
Proof.
  intros Hnorm -> Hrefs Hset HE. destruct (decide (p_Mode desired = PresenceExplicit)) as [Hm|Hm].
  - destruct (Hset Hm) as [Hl Hn]. rewrite Hm. apply presence_unchanged; cbn [p_Mode p_Environments]; [done|by rewrite (Permutation_length (presenceIDs_perm _ _ _))|].
    intros n Hin. destruct (Hn n Hin) as (x & Hx & Hxin). exists x. split; [by apply (Permutation_in _ (Permutation_sym (presenceIDs_perm _ _ _)))|].
    pose proof (Hrefs n Hin) as Hnb. rewrite (HE n Hnb). apply in_map_iff in Hnb as (e & <- & Hein). apply In_lookup in Hein as [i Hi].
    destruct (final_env i e Hi) as (id' & Ht & Hem & _). rewrite Hem in Hx. injection Hx as <-.
    apply (byName_shown _ _ _ _ (sh_envs _ _ Hsh')); [apply final_state_ok|done].
  - apply presence_unchanged; cbn [p_Mode p_Environments]; [done| |]; rewrite (np_explicit _ _ Hnorm Hm); [|done].
    unfold presenceIDs. by destruct (String.eqb_spec (p_Mode desired) PresenceExplicit).
Qed.

Lemma settled_key i k c : b_Keys b !! i = Some k -> In c (cs_Keys cur') -> ck_Name c = k_Name k -> key_settled b cur' k c.
Proof.
  intros Hi Hc Hname E G HE HG. assert (In k (b_Keys b)) as Hin by (by eapply list_elem_of_In, list_elem_of_lookup_2).
  destruct (canonical_key _ _ _ Hcan Hin) as (k0 & _ & Hcp). destruct (sh_key _ _ Hsh' c Hc) as (row & d & Hrow & Hd & Hck).
  destruct (settle_key i k Hi) as (id & row' & Hrow' & Hn' & Hs).
  assert (id = ck_ID c) as ->.
  { destruct final_unique as (_ & _ & Hu). apply (Hu _ _ (k_Name k)); apply keyNames_row; [by exists row'|]. exists row. split; [done|]. rewrite <- Hname, Hck. done. }
  rewrite Hrow in Hrow'. injection Hrow' as <-. destruct (rw_decl _ _ _ _ _ Hs) as (d' & Hd' & Hv). rewrite Hd in Hd'. injection Hd' as <-.
  assert (forall p, (p = k_RequiredIn k \/ p = k_ForbiddenIn k) -> forall n, In n (p_Environments p) -> In n (map en_name (b_Environments b))) as Hrefs
    by (intros p Hp; by apply (bound_refs cur b0 b res eb gb kb Hcan Hpl i k Hi p Hp)).
  rewrite Hck. unfold changed, diffKey. cbn [u_Renamed u_MetaChanged u_DeclChanged u_Reclassified u_GroupChanged u_PresenceChanged].
  cbn [currentKey ck_Name ck_FolderPath ck_Description ck_Deprecated ck_DeprecationNote ck_Classification ck_Declaration ck_GroupID ck_Required ck_Forbidden presenceOf Required Forbidden].
  rewrite Hn', (rw_folder _ _ _ _ _ Hs), (rw_class _ _ _ _ _ Hs), (rw_desc _ _ _ _ _ Hs), (rw_depr _ _ _ _ _ Hs), (rw_note _ _ _ _ _ Hs), Hv.
  rewrite (shown_rule _ _ _ _ E _ (cp_required _ _ Hcp) (rw_req_mode _ _ _ _ _ Hs) (Hrefs _ (or_introl eq_refl)) (rw_req _ _ _ _ _ Hs) HE).
  rewrite (shown_rule _ _ _ _ E _ (cp_forbidden _ _ Hcp) (rw_forb_mode _ _ _ _ _ Hs) (Hrefs _ (or_intror eq_refl)) (rw_forb _ _ _ _ _ Hs) HE).
  rewrite !String.eqb_refl, eqb_reflx. cbn [negb orb]. apply orb_false_iff. split; [|done]. apply negb_false_iff, String.eqb_eq.
  rewrite (rw_group _ _ _ _ _ Hs). unfold groupIDFor. destruct (String.eqb_spec (k_Group k) "") as [|Hg]; [done|].
  pose proof (pn_refs _ _ _ _ _ _ Hpl k Hin) as Href. unfold validateKeyReferences in Href. destruct (String.eqb_spec (k_Group k) ""); [done|].
  cbn [negb andb] in Href. destruct (contains (map en_name (b_KeyGroups b)) (k_Group k)) eqn:Hcn; [|done]. apply contains_In in Hcn.
  rewrite (HG _ Hcn). apply in_map_iff in Hcn as (e & <- & Hein). apply In_lookup in Hein as [j Hj]. destruct (final_group j e Hj) as (gid & Ht & Hgm & _).
  by rewrite Hgm, (byName_shown _ _ _ _ (sh_groups _ _ Hsh') (so_groups _ final_state_ok) Ht).
Qed.

Lemma final_realized : realized b cur'.
Proof.
  split.
  - split; [apply (mt_names _ _ _ _ _ (pn_envs _ _ _ _ _ _ Hpl))|]. intros e Hein. apply In_lookup in Hein as [i Hi].
    destruct (final_env i e Hi) as (id & Ht & _ & Hid). exists (MkEntity id (en_name e)). split_and!; [|done..]. by apply (entitiesOf_In _ _ _ _ (sh_envs _ _ Hsh')).
  - split; [apply (mt_names _ _ _ _ _ (pn_groups _ _ _ _ _ _ Hpl))|]. intros e Hein. apply In_lookup in Hein as [i Hi].
    destruct (final_group i e Hi) as (id & Ht & _ & Hid). exists (MkEntity id (en_name e)). split_and!; [|done..]. by apply (entitiesOf_In _ _ _ _ (sh_groups _ _ Hsh')).
  - split; [apply (mt_names _ _ _ _ _ (pn_keys _ _ _ _ _ _ Hpl))|]. intros e Hein. apply in_map_iff in Hein as (k & <- & Hk). apply In_lookup in Hk as [i Hi].
    destruct (final_key i k Hi) as (id & Ht & Hid & _). exists (MkEntity id (k_Name k)). split_and!; [|done..]. by apply (entitiesOf_In _ _ _ _ (sh_keys _ _ Hsh')).
  - destruct (Additive b) eqn:Ha; [by left|]. right.
    destruct (news_of _ _ _ _ _ (pn_env_topology _ _ _ _ _ _ Hpl)) as [E1 E2]. destruct (news_of _ _ _ _ _ (pn_group_topology _ _ _ _ _ _ Hpl)) as [G1 G2].
    destruct (news_of _ _ _ _ _ (pn_key_topology _ _ _ _ _ _ Hpl)) as [K1 K2].
    pose proof (pf_envs _ _ _ _ _ _ _ _ _ _ _ Hpf) as Xe. pose proof (pf_groups _ _ _ _ _ _ _ _ _ _ _ Hpf) as Xg. pose proof (pf_keys _ _ _ _ _ _ _ _ _ _ _ Hpf) as Xk.
    rewrite <- E1, <- E2 in Xe. rewrite <- G1, <- G2 in Xg. rewrite <- K1, <- K2 in Xk. split_and!; intros [id n] Hin.
    + apply (entitiesOf_In _ _ _ _ (sh_envs _ _ Hsh')) in Hin.
      by apply (final_cover _ _ _ _ _ (so_envs _ Hst) (pn_envs _ _ _ _ _ _ Hpl) _ _ _ (fun id n => entitiesOf_In _ _ id n (sh_envs _ _ Hsh)) Xe id n Ha).
    + apply (entitiesOf_In _ _ _ _ (sh_groups _ _ Hsh')) in Hin.
      by apply (final_cover _ _ _ _ _ (so_groups _ Hst) (pn_groups _ _ _ _ _ _ Hpl) _ _ _ (fun id n => entitiesOf_In _ _ id n (sh_groups _ _ Hsh)) Xg id n Ha).
    + apply (entitiesOf_In _ _ _ _ (sh_keys _ _ Hsh')) in Hin.
      by apply (final_cover _ _ _ _ _ (so_keys _ Hst) (pn_keys _ _ _ _ _ _ Hpl) _ _ _ (fun id n => entitiesOf_In _ _ id n (sh_keys _ _ Hsh)) Xk id n Ha).
  - apply (pn_refs _ _ _ _ _ _ Hpl).
  - intros k c Hk Hc Hn. apply In_lookup in Hk as [i Hi]. by eapply settled_key.
Qed.
End Shown.
End Final.

(** The executor's result, read back. *)
Lemma execute_converges X w w' u cur b0 b res rev : world_ok w -> canonical b0 b -> buildCurrentState w = Ok cur -> Resolve b cur = Ok res ->
  executeResolution X res cur (b_Keys b) rev w = (Ok u, w') ->
  exists cur', buildCurrentState w' = Ok cur' /\ state_ok cur' /\ realized b cur'.
Proof.
  intros Hw Hcan Hcur%buildCurrentState_Ok Hres Hex. pose proof (world_state_ok _ _ Hw Hcur) as Hst.
  destruct (resolve_planned b cur res Hst Hres) as (eb & gb & kb & Hpl).
  destruct (execute_performed X b cur res (b_Keys b) rev eb gb kb Hpl Hst w u w' Hcur Hex) as (mid & em & gm & fE & fG & fK & Hpf).
  destruct (buildCurrentState_total w') as [cur' Hcur'].
  { intros id row. by eapply (final_readable w w' mid cur b0 b res eb gb kb em gm fE fG fK). }
  exists cur'. apply buildCurrentState_Ok in Hcur' as Hsh'. split_and!; [done|by eapply final_state_ok|by eapply final_realized].
Qed.
End Realize.
