(* ===== verification/DefinitionsClaims.v ===== *)
(** * Claims about the definitions flow

    [ApplyDefinitions] from the plan to the tables: a plan that applies converges
    to its bundle, and what an apply can never do. *)

From S2P Require Import Prelude Domain Schema Definitions DefinitionsSpec DefinitionsExport DefinitionsStore DefinitionsApply DefinitionsSteps DefinitionsMatch DefinitionsConverge DefinitionsSettle DefinitionsRealize.

#[local] Open Scope Z_scope.

Section Claims.
Context `{DeclarationCodec}.

(** ** The whole handler *)

(** Reading depends on the tables and the revision only. *)
Definition at_revision (rev : Z) (cur : CurrentState) : CurrentState := MkCurrent rev (cs_Environments cur) (cs_KeyGroups cur) (cs_Keys cur).

Lemma buildCurrentState_tables w1 w2 cur : tablesOf w1 = tablesOf w2 -> buildCurrentState w1 = Ok cur ->
  buildCurrentState w2 = Ok (at_revision (schema_revision w2) cur).
Proof.
  unfold tablesOf. intros [= E1 E2 E3 E4 _]. unfold buildCurrentState, Catalogue_List, ListPresence, Environments_List, ListGroups. rewrite E1, E2, E3, E4.
  intros (ks & -> & [= <-])%bind_Ok. done.
Qed.

Lemma realized_at_revision b cur rev : realized b cur -> realized b (at_revision rev cur).
Proof. intros [H1 H2 H3 H4 H5 H6]. by split. Qed.

Lemma state_ok_at_revision cur rev : state_ok cur -> state_ok (at_revision rev cur).
Proof. intros [H1 H2 H3]. by split. Qed.

Lemma Empty_noChange additive : Empty (noChange additive) = true.
Proof. done. Qed.

Section Handler.
Context (X : ApplyContext) (planID : string) (opts : ApplyOptions).

(** What an apply that changed something went through. *)
Record applied (r : ApplyResult) (w w' : World) (plan : DefinitionsPlan) (cur : CurrentState) (res : Resolution) (w0 w1 w2 : World) : Prop := {
  ad_plan : plans w !! planID = Some plan;
  ad_open : pl_Applied plan = false;
  ad_cur : buildCurrentState w = Ok cur;
  ad_base : SchemaRevision cur = pl_BaseSchemaRevision plan;
  ad_res : Resolve (pl_Bundle plan) cur = Ok res;
  ad_guard : guardDeletions planID res (o_AllowDelete opts) w = (Ok (), w0);
  ad_reveal : enforceReveal X (KeyUpdates res) w0 = (Ok (), w1);
  ad_execute : executeResolution X res cur (b_Keys (pl_Bundle plan)) (SchemaRevision cur + 1) w1 = (Ok (), w2);
  ad_tables : (forall v a v', ax_fanOut X v = (Ok a, v') -> tablesOf v' = tablesOf v) -> tablesOf w' = tablesOf w2;
  ad_ledger : (forall v a v', ax_fanOut X v = (Ok a, v') -> schema_revision v' = schema_revision v /\ plans v' = plans v) ->
    schema_revision w' = schema_revision w2 + 1 /\ ar_Revision r = schema_revision w2 + 1 /\
    exists plan', plans w' !! planID = Some plan' /\ pl_Applied plan' = true /\
      (forall plan2, plans w2 !! planID = Some plan2 -> pl_BaseSchemaRevision plan' = pl_BaseSchemaRevision plan2) }.

Lemma recheckPins_Ok plan cur digest w u w' : recheckPins X planID plan cur digest w = (Ok u, w') -> w' = w /\ SchemaRevision cur = pl_BaseSchemaRevision plan.
Proof.
  assert (forall what v u v', moved planID what v <> (Ok u, v')) as Hm by done.
  intros Hr. unfold recheckPins in Hr. apply st_bind_Ok in Hr as (v & w1 & [= <- <-] & Hr).
  repeat (match goal with Hr : (if ?c then _ else _) _ = _ |- _ => destruct c eqn:?; [by apply Hm in Hr|] end). injection Hr as _ <-.
  split; [done|]. match goal with H : negb (SchemaRevision _ =? _) = false |- _ => apply negb_false_iff, Z.eqb_eq in H end. done.
Qed.

Lemma keeps_refuse detail w u w' : refuseDeletion planID detail w <> (Ok u, w').
Proof. done. Qed.

Lemma refuseLive_Ok dels : forall w u w', refuseLive planID dels w = (Ok u, w') -> w' = w /\ forall d, In d dels -> CountEnvironmentValues (rf_ID d) w = 0.
Proof.
  induction dels as [|d dels IH]; intros w u w' Hr; cbn [refuseLive] in Hr; [injection Hr as _ <-; done|].
  apply st_bind_Ok in Hr as (v & w1 & [= <- <-] & Hr). destruct (Z.ltb_spec 0 (CountEnvironmentValues (rf_ID d) w)) as [|Hle]; [by apply keeps_refuse in Hr|].
  apply IH in Hr as [-> Hall]. split; [done|]. intros d' [<-|Hin]; [|by apply Hall]. unfold CountEnvironmentValues in *. lia.
Qed.

Lemma guardDeletions_Ok res allow w u w' : guardDeletions planID res allow w = (Ok u, w') ->
  w' = w /\ (forall d, In d (EnvDeletes res) -> CountEnvironmentValues (rf_ID d) w = 0) /\ (DeletionsPresent res = true -> allow = true).
Proof.
  unfold guardDeletions. intros Hr. apply st_bind_Ok in Hr as (? & w1 & [-> Hl]%refuseLive_Ok & Hr).
  destruct (_ && _) eqn:Hd in Hr; [by apply keeps_refuse in Hr|]. injection Hr as _ <-. split_and!; [done|done|]. intros Hp. rewrite Hp in Hd. by destruct allow.
Qed.

Lemma keeps_mark now who commit ref actor : keeps (MarkPlanApplied planID now who commit ref actor).
Proof. intros w a w' Hr. unfold MarkPlanApplied in Hr. destruct (plans w !! planID) as [p|]; [destruct (pl_Applied p)|]; by injection Hr as _ <-. Qed.

Lemma applyBody_Ok commit ref actor w r w' : applyBody X planID opts commit ref actor w = (Ok r, w') ->
  (exists plan cur res, plans w !! planID = Some plan /\ pl_Applied plan = false /\ buildCurrentState w = Ok cur /\ SchemaRevision cur = pl_BaseSchemaRevision plan /\
     Resolve (pl_Bundle plan) cur = Ok res /\ Empty res = true /\ ar_Revision r = SchemaRevision cur /\ w' = w) \/
  exists plan cur res w0 w1 w2, applied r w w' plan cur res w0 w1 w2.
Proof.
  intros Hr. unfold applyBody in Hr. apply st_bind_Ok in Hr as (? & w1 & [_ ->]%check_Ok & Hr).
  apply st_bind_Ok in Hr as (plan & w1' & Hp & Hr). unfold GetPlan in Hp. destruct (plans w !! planID) as [plan0|] eqn:Hplan; [|done]. injection Hp as -> <-.
  destruct (pl_Applied plan) eqn:Hopen; [done|]. destruct (_ <=? _) in Hr; [done|]. cbv zeta in Hr.
  apply st_bind_Ok in Hr as (v & w3 & [= <- <-] & Hr). apply st_bind_Ok in Hr as (cur & w4 & [Hcur ->]%result_Ok & Hr).
  apply st_bind_Ok in Hr as (? & w5 & [-> Hbase]%recheckPins_Ok & Hr). destruct (_ && _) in Hr; [done|].
  apply st_bind_Ok in Hr as (res & w6 & [Hres ->]%result_Ok & Hr). apply st_bind_Ok in Hr as (? & w7 & [_ ->]%check_Ok & Hr).
  destruct (Empty res) eqn:Hempty.
  { left. injection Hr as <- <-. by exists plan, cur, res. }
  right. apply st_bind_Ok in Hr as ([] & w8 & Hg & Hr). apply st_bind_Ok in Hr as ([] & w9 & Hrev & Hr). apply st_bind_Ok in Hr as ([] & w10 & Hex & Hr).
  exists plan, cur, res, w8, w9, w10. apply st_bind_Ok in Hr as (? & w11 & Hb & Hr). unfold bumpSchemaRevision in Hb.
  apply st_bind_Ok in Hb as (? & ? & [_ ->]%check_Ok & Hb). injection Hb as _ <-.
  apply st_bind_Ok in Hr as (v & w12 & [-> ->]%get_Ok & Hr). cbv zeta in Hr. apply st_bind_Ok in Hr as (ok & w13 & Hmark & Hr).
  destruct ok; [cbn [negb] in Hr|done]. apply st_bind_Ok in Hr as (? & w14 & He & Hr). injection He as _ <-. apply st_bind_Ok in Hr as (ov & w15 & [_ ->]%result_Ok & Hr).
  apply st_bind_Ok in Hr as (? & w16 & Hov & Hr). injection Hov as _ <-. apply st_bind_Ok in Hr as (? & w17 & Hf & Hr). apply st_bind_Ok in Hr as (v & w18 & [-> ->]%get_Ok & Hr).
  injection Hr as <- <-. split; [done..| |].
  - intros Hfan. apply Hfan in Hf. apply keeps_mark in Hmark. rewrite Hf. exact Hmark.
  - intros Hfan. apply Hfan in Hf as [-> ->]. cbn [ar_Revision schema_revision plans set_ledger]. unfold MarkPlanApplied in Hmark. cbn [plans set_ledger] in Hmark.
    destruct (plans w10 !! planID) as [p2|] eqn:Hp2; [|done]. destruct (pl_Applied p2); [done|]. injection Hmark as <-. split_and!; [done..|].
    eexists. cbn [plans set_ledger]. rewrite lookup_insert_eq. split_and!; [done|done|]. by intros plan2 [= <-].
Qed.
End Handler.

(** ** Convergence *)
Lemma world_ok_tables w1 w2 : tablesOf w1 = tablesOf w2 -> world_ok w1 -> world_ok w2.
Proof.
  intros He [H1 H2 H3 H4 H5 H6 H7 H8 H9]. rewrite He in H1, H3. unfold tablesOf in He. injection He as E1 E2 E3 E4 _.
  rewrite E1 in *. rewrite E2 in *. rewrite E3 in *. rewrite E4 in *. by split.
Qed.

Lemma keeps_enforceReveal X upds : keeps (enforceReveal X upds).
Proof.
  induction upds as [|u upds IH]; [apply keeps_ret|]. cbn [enforceReveal]. destruct (negb _); [done|]. apply keeps_bind; [apply keeps_get|]. intros key. cbv zeta.
  apply keeps_bind; [|intros _; destruct (_ && _); [done|done]]. destruct (_ && _); [|apply keeps_ret]. unfold revealGate. apply keeps_bind; [by apply keeps_modify|].
  intros _. destruct (ax_authorize _ _ _); [|done..]. destruct (ax_gateAllows _ _); [apply keeps_ret|done].
Qed.

(** The bundle a plan stores is a canonical document. *)
Definition plan_canonical (w : World) (planID : string) : Prop :=
  forall plan, plans w !! planID = Some plan -> exists size src, Canonicalize size src = Ok (pl_Bundle plan).

(** The publisher writes snapshots, not definitions nor plans. *)
Record publishes (X : ApplyContext) : Prop := {
  ps_tables : keeps (ax_fanOut X);
  ps_ledger : forall v a v', ax_fanOut X v = (Ok a, v') -> schema_revision v' = schema_revision v /\ plans v' = plans v }.

Lemma ApplyDefinitions_Ok X planID opts w r w' : ApplyDefinitions X planID opts w = (Ok r, w') ->
  exists commit ref actor, applyBody X planID opts commit ref actor w = (Ok r, w').
Proof.
  unfold ApplyDefinitions. destruct (sanitizeProvenance (o_Commit opts)) as [c| |], (sanitizeProvenance (o_Ref opts)) as [f| |], (sanitizeProvenance (o_Actor opts)) as [a| |];
    destruct (ax_scan X); try done. intros Hr. exists c, f, a. destruct (applyBody _ _ _ _ _ _ _) as [[r0| |] w0]; try done.
Qed.

(** C21. Applying a plan converges to the plan's bundle. In a world that satisfies
    the tables' constraints, with a stored plan whose bundle is canonical and a
    fan-out that writes neither the catalogue nor the plans, a successful
    [ApplyDefinitions] leaves tables from which the current state can be rebuilt,
    and resolving the plan's bundle against that state succeeds with nothing left
    to create, change, rename or delete. *)
Theorem apply_converges X planID opts w r w' : world_ok w -> plan_canonical w planID -> publishes X ->
  ApplyDefinitions X planID opts w = (Ok r, w') ->
  exists plan cur res, plans w !! planID = Some plan /\ buildCurrentState w' = Ok cur /\ Resolve (pl_Bundle plan) cur = Ok res /\ Empty res = true.
Proof.
  intros Hw Hcan Hpub (commit & ref & actor & Hr)%ApplyDefinitions_Ok.
  apply applyBody_Ok in Hr as [(plan & cur & res & Hp & _ & Hcur & _ & Hres & He & _ & ->)|(plan & cur & res & w0 & w1 & w2 & Ha)]; [by exists plan, cur, res|].
  destruct (Hcan plan (ad_plan _ _ _ _ _ _ _ _ _ _ _ _ Ha)) as (size & src & Hsrc%Canonicalize_Ok).
  pose proof (ad_guard _ _ _ _ _ _ _ _ _ _ _ _ Ha) as [-> _]%guardDeletions_Ok. pose proof (keeps_enforceReveal _ _ _ _ _ (ad_reveal _ _ _ _ _ _ _ _ _ _ _ _ Ha)) as H1.
  pose proof (buildCurrentState_tables _ w1 _ (eq_sym H1) (ad_cur _ _ _ _ _ _ _ _ _ _ _ _ Ha)) as Hc1.
  destruct (execute_converges X w1 w2 () _ src _ res _ (world_ok_tables _ _ (eq_sym H1) Hw) Hsrc Hc1 (ad_res _ _ _ _ _ _ _ _ _ _ _ _ Ha) (ad_execute _ _ _ _ _ _ _ _ _ _ _ _ Ha))
    as (cur' & Hc2 & Hst & Hreal).
  pose proof (buildCurrentState_tables _ w' _ (eq_sym (ad_tables _ _ _ _ _ _ _ _ _ _ _ _ Ha (ps_tables _ Hpub))) Hc2) as Hc3.
  exists plan, (at_revision (schema_revision w') cur'), (noChange (Additive (pl_Bundle plan))). split_and!; [apply Ha|done| |done].
  apply resolve_realized; [by apply state_ok_at_revision|by apply realized_at_revision].
Qed.
(** ** Safety *)
Lemma In_length {A} (x : A) l : In x l -> (0 < length l)%nat.
Proof. destruct l; [done|]. cbn. lia. Qed.

Lemma enforceReveal_Ok X upds : forall w u w', enforceReveal X upds w = (Ok u, w') ->
  forall upd, In upd upds -> u_PrevClassification upd = Secret -> k_Classification (u_Desired upd) <> Config.
Proof.
  induction upds as [|x upds IH]; intros w u w' Hr upd Hin Hp Hd; [done|]. cbn [enforceReveal] in Hr. destruct Hin as [->|Hin].
  - unfold NeedsReveal in Hr. rewrite Hp, Hd, orb_true_r in Hr. cbn [negb] in Hr. apply st_bind_Ok in Hr as (key & ? & _ & Hr). by apply st_bind_Ok in Hr as (? & ? & _ & Hr).
  - destruct (negb _) in Hr; [by eapply (IH _ _ _ Hr)|]. apply st_bind_Ok in Hr as (key & ? & _ & Hr). cbv zeta in Hr. apply st_bind_Ok in Hr as (? & ? & _ & Hr).
    destruct (_ && _) in Hr; [done|by eapply (IH _ _ _ Hr)].
Qed.

Lemma fmap_is_Some {A B} (f : A -> B) (m : gmap string A) id : is_Some ((f <$> m) !! id) <-> is_Some (m !! id).
Proof. rewrite lookup_fmap. apply fmap_is_Some. Qed.

(** A name that was not deleted is still there. *)
Lemma executed_kept (T0 T' : gmap string string) dels news rens fresh id : executed T0 T' dels news rens fresh ->
  is_Some (T0 !! id) -> ~ In id dels -> is_Some (T' !! id).
Proof.
  intros Hx Hs Hd. destruct (in_dec String.string_dec id fresh) as [Hf|Hf].
  { destruct (xe_fresh _ _ _ _ _ _ Hx id Hf) as [Hn|?]; [|done]. rewrite Hn in Hs. by destruct Hs. }
  destruct (in_dec String.string_dec id (map rn_ID rens)) as [Hr|Hr].
  - apply in_map_iff in Hr as (r & <- & Hr). rewrite (xe_ren _ _ _ _ _ _ Hx r Hr). by eexists.
  - rewrite (xe_rest _ _ _ _ _ _ Hx id Hf Hr). assert (contains dels id = false) as -> by (by rewrite <- not_true_iff_false, contains_In). done.
Qed.

Section Kept.
Context (w w' mid : World) (cur : CurrentState) (b : Bundle) (res : Resolution) (eb gb kb : list string) (em gm : gmap string string) (fE fG fK : list string).
Context (Hsh : shows w cur) (Hpl : planned b cur res eb gb kb) (Hpf : performed res cur (b_Keys b) w w' mid em gm fE fG fK).

(** A key that was not deleted keeps its classification, or takes that of its update. *)
Lemma kept_classification id row : keys w !! id = Some row -> ~ In id (map rf_ID (KeyDeletes res)) ->
  exists row', keys w' !! id = Some row' /\
    (ca_Classification row' = ca_Classification row \/
     exists u, In u (KeyUpdates res) /\ In (u_Desired u) (b_Keys b) /\ u_PrevClassification u = ca_Classification row /\ ca_Classification row' = k_Classification (u_Desired u)).
Proof.
  intros Hrow Hd. assert (contains (map rf_ID (KeyDeletes res)) id = false) as Hcd by (by rewrite <- not_true_iff_false, contains_In).
  assert (exists rowm, keys mid !! id = Some rowm /\ ca_Classification rowm = ca_Classification row) as (rowm & Hm & Hcls).
  { pose proof (f_equal (fun m => m !! id) (pf_mid_bodies _ _ _ _ _ _ _ _ _ _ _ Hpf)) as Hb. cbn in Hb. unfold keyBodies in Hb. cbn [tablesOf t_keys] in Hb.
    rewrite !lookup_fmap, lookup_without, Hcd, lookup_fmap, Hrow in Hb. cbn in Hb. destruct (keys mid !! id) as [rowm|]; [|done]. injection Hb as Hb.
    exists rowm. split; [done|]. rewrite clearGroups_eq in Hb. by apply (f_equal ca_Classification) in Hb. }
  destruct (in_dec String.string_dec id (map u_ID (KeyUpdates res))) as [Hu|Hu].
  - apply in_map_iff in Hu as (u & <- & Hu). destruct (pf_updated _ _ _ _ _ _ _ _ _ _ _ Hpf u Hu) as (row1 & d & p & s & E1 & _ & _ & _ & E5 & _).
    rewrite Hm in E1. injection E1 as <-. eexists. split; [done|]. rewrite <- Hcls.
    assert (In (u_Desired u) (b_Keys b) /\ u_PrevClassification u = ca_Classification row) as [Hdes Hprev].
    { rewrite (pn_updates _ _ _ _ _ _ Hpl) in Hu. apply in_flat_map in Hu as ([k x] & Hz & Hu). apply updateOf_In in Hu as (_ & c & Hc & -> & _).
      apply zip_In in Hz as (i & Hi & _). split; [by eapply list_elem_of_In, list_elem_of_lookup_2|].
      apply curKeyByID_Some in Hc as [Hc _]. cbn [u_PrevClassification diffKey u_ID] in *. destruct (sh_key _ _ Hsh c Hc) as (row2 & d2 & R2 & _ & ->).
      cbn [ck_ID currentKey ck_Classification] in *. congruence. }
    assert (ca_Classification (updatedRow u p s gm rowm) = if u_Reclassified u then k_Classification (u_Desired u) else ca_Classification rowm) as ->
      by (unfold updatedRow; by destruct (u_MetaChanged u), (u_DeclChanged u || u_PresenceChanged u), (u_Reclassified u), (u_GroupChanged u)).
    destruct (u_Reclassified u); [right; exists u; by rewrite Hcls|by left].
  - exists rowm. split; [|by left]. rewrite <- Hm. apply (pf_same _ _ _ _ _ _ _ _ _ _ _ Hpf); [|done].
    intros Hf. destruct (xe_fresh _ _ _ _ _ _ (pf_keys _ _ _ _ _ _ _ _ _ _ _ Hpf) id Hf) as [Hn|?]; [|done]. apply keyNames_None in Hn. congruence.
Qed.
End Kept.

(** Everything of one world is still in the other. *)
Record retained (w w' : World) : Prop := {
  rt_envs : forall id, is_Some (environments w !! id) -> is_Some (environments w' !! id);
  rt_groups : forall id, is_Some (key_groups w !! id) -> is_Some (key_groups w' !! id);
  rt_keys : forall id, is_Some (keys w !! id) -> is_Some (keys w' !! id);
  rt_values : value_entries w' = value_entries w }.

(** C22. What a successful apply can never do. Take a world that satisfies the
    tables' constraints, a stored plan whose bundle is canonical, a schema fan-out
    that only publishes (it leaves the catalogue, the value entries and the plans
    alone), and value entries that refer to existing environments and keys. When
    [ApplyDefinitions] succeeds: without the allow-delete option every
    environment, group and key that was there still is, and the value entries are
    exactly what they were; with or without it, no environment that held a value
    is removed; and a key that was secret and still has a value afterwards is
    still secret, so no apply exposes a stored secret by reclassifying its key. *)
Theorem apply_safe X planID opts w r w' : world_ok w -> plan_canonical w planID -> publishes X ->
  (forall e k, In (e, k) (value_entries w) -> is_Some (environments w !! e) /\ is_Some (keys w !! k)) ->
  ApplyDefinitions X planID opts w = (Ok r, w') ->
  (o_AllowDelete opts = false -> retained w w') /\
  (forall e k, In (e, k) (value_entries w) -> is_Some (environments w' !! e)) /\
  (forall e k row, In (e, k) (value_entries w') -> keys w !! k = Some row -> ca_Classification row = Secret ->
     exists row', keys w' !! k = Some row' /\ ca_Classification row' = Secret).
Proof.
  intros Hw Hcan Hpub Hval (commit & ref & actor & Hr)%ApplyDefinitions_Ok.
  apply applyBody_Ok in Hr as [(plan & cur & res & _ & _ & _ & _ & _ & _ & _ & ->)|(plan & cur & res & w0 & w1 & w2 & Ha)].
  { split_and!; [done|by intros e k [? _]%Hval|]. intros e k row _ Hk Hs. by exists row. }
  pose proof (ad_guard _ _ _ _ _ _ _ _ _ _ _ _ Ha) as (-> & Hlive & Hdel)%guardDeletions_Ok. pose proof (ad_reveal _ _ _ _ _ _ _ _ _ _ _ _ Ha) as Hrev.
  pose proof (keeps_enforceReveal _ _ _ _ _ Hrev) as H1. pose proof (ad_tables _ _ _ _ _ _ _ _ _ _ _ _ Ha (ps_tables _ Hpub)) as H2.
  pose proof (buildCurrentState_tables _ w1 _ (eq_sym H1) (ad_cur _ _ _ _ _ _ _ _ _ _ _ _ Ha)) as Hsh%buildCurrentState_Ok.
  pose proof (world_state_ok _ _ (world_ok_tables _ _ (eq_sym H1) Hw) Hsh) as Hst.
  destruct (resolve_planned _ _ _ Hst (ad_res _ _ _ _ _ _ _ _ _ _ _ _ Ha)) as (eb & gb & kb & Hpl).
  destruct (execute_performed X _ _ _ _ _ _ _ _ Hpl Hst w1 () w2 Hsh (ad_execute _ _ _ _ _ _ _ _ _ _ _ _ Ha)) as (mid & em & gm & fE & fG & fK & Hpf).
  pose proof (enforceReveal_Ok _ _ _ _ _ Hrev) as Hcls. unfold tablesOf in H1, H2. injection H1 as A1 A2 A3 A4 A5. injection H2 as B1 B2 B3 B4 B5.
  assert (forall id, is_Some (environments w !! id) -> ~ In id (map rf_ID (EnvDeletes res)) -> is_Some (environments w' !! id)) as Henv.
  { intros id Hs Hn. rewrite B1. rewrite <- A1 in Hs. apply (fmap_is_Some e_Name). apply (fmap_is_Some e_Name) in Hs.
    exact (executed_kept _ _ _ _ _ _ _ (pf_envs _ _ _ _ _ _ _ _ _ _ _ Hpf) Hs Hn). }
  pose proof (pf_values _ _ _ _ _ _ _ _ _ _ _ Hpf) as Hv. rewrite A5, <- B5 in Hv. split_and!.
  - intros Hno. assert (EnvDeletes res = [] /\ GroupDeletes res = [] /\ KeyDeletes res = []) as (N1 & N2 & N3).
    { rewrite Hno in Hdel. unfold DeletionsPresent in Hdel. destruct (EnvDeletes res), (GroupDeletes res), (KeyDeletes res); try done; by specialize (Hdel eq_refl). }
    split.
    + intros id Hs. apply Henv; [done|]. rewrite N1; by intros [].
    + intros id Hs. rewrite B2. rewrite <- A2 in Hs. apply (executed_kept _ _ _ _ _ _ _ (pf_groups _ _ _ _ _ _ _ _ _ _ _ Hpf) Hs). rewrite N2; by intros [].
    + intros id [row Hs]. rewrite B3. rewrite <- A3 in Hs. destruct (kept_classification _ _ _ _ _ _ _ _ _ _ _ _ _ _ Hsh Hpl Hpf id row Hs) as (row' & Hk & _); [rewrite N3; by intros []|by eexists].
    + rewrite Hv, N3. by apply filter_true.
  - intros e k Hin. apply Henv; [by apply (Hval e k)|]. intros Hd. apply in_map_iff in Hd as (d & <- & Hd). pose proof (Hlive d Hd) as Hz.
    unfold CountEnvironmentValues in Hz. assert (In (rf_ID d, k) (List.filter (fun v => v.1 =s rf_ID d) (value_entries w))) as Hf by (apply filter_In; split; [done|apply String.eqb_refl]).
    apply In_length in Hf. lia.
  - intros e k row Hin Hk Hs. rewrite Hv in Hin. apply filter_In in Hin as [_ Hnd]. unfold valueDeleted in Hnd. apply negb_true_iff in Hnd. rewrite <- A3 in Hk. rewrite B3.
    destruct (kept_classification _ _ _ _ _ _ _ _ _ _ _ _ _ _ Hsh Hpl Hpf k row Hk) as (row' & Hk' & [Hc|(u & Hu & Hdes & Hp & Hc)]); [intros Hi; apply contains_In in Hi; cbn in Hnd; congruence| |];
      exists row'; (split; [done|]); rewrite Hc; [done|].
    destruct (Hcan plan (ad_plan _ _ _ _ _ _ _ _ _ _ _ _ Ha)) as (size & src & Hsrc%Canonicalize_Ok). destruct (canonical_key _ _ _ Hsrc Hdes) as (k0 & _ & Hcp%cp_valid).
    pose proof (Hcls u Hu (eq_trans Hp Hs)) as Hnc. unfold Classification_Valid in Hcp. apply orb_prop in Hcp as [Hx|Hx]; apply String.eqb_eq in Hx; congruence.
Qed.
End Claims.
