(* ===== verification/DefinitionsService.v ===== *)
(** * The other definitions handlers, and the life of a plan

    [internal/service/definitions.go]: export, drift check, the stored plan's
    view, and the project's definitions source, with the guard every ordinary
    definition edit takes. What a fresh plan guarantees its apply, and what an
    apply leaves of its plan. *)

From S2P Require Import Prelude Domain EventNames OperationNames Schema AuditEvent Definitions DefinitionsStore DefinitionsApply DefinitionsSteps DefinitionsMatch DefinitionsClaims.

#[local] Open Scope Z_scope.

Section Service.
Context `{DeclarationCodec}.

Definition ListAppliedPlans (w : World) : list (string * DefinitionsPlan) :=
  isort (fun a b => pl_AppliedAt b.2 <=? pl_AppliedAt a.2) (List.filter (fun kv => pl_Applied kv.2) (map_to_list (plans w))).
Definition LatestAppliedPlan (w : World) : option (string * DefinitionsPlan) := head (ListAppliedPlans w).

(** ** Views *)
Record LastApply := MkLastApply {
  la_PlanID : string; la_AppliedAt : Z; la_AppliedBy : string; la_Commit : string; la_Ref : string; la_Actor : string; la_Revision : Z }.
Record DefinitionsSettings := MkSettings { ds_Source : string; ds_LastApply : option LastApply }.
Record CheckResult := MkCheckResult {
  cr_State : DriftState; cr_BaseRevision : option Z; cr_CurrentRevision : Z; cr_Differences : Diff; cr_Findings : list string }.

Definition lastApplyOf (id : string) (plan : DefinitionsPlan) : LastApply :=
  MkLastApply id (pl_AppliedAt plan) (pl_AppliedBy plan) (pl_Commit plan) (pl_Ref plan) (pl_Actor plan) (pl_BaseSchemaRevision plan + 1).

Definition planViewOf (id : string) (plan : DefinitionsPlan) : PlanView :=
  let diff := pl_Diff plan in
  MkPlanView id (pl_Digest plan) (if pl_Additive plan then None else Some (pl_BaseSchemaRevision plan)) (pl_BaseSchemaRevision plan)
    (pl_Additive plan) (pl_ExpiresAt plan) (protectedPinNames (pl_ProtectedEnvs plan)) diff
    (negb (is_nil (pd_KeyDeletions diff)) || negb (is_nil (pd_EnvDeletions diff)) ||
     negb (is_nil (d_Deletes (pd_Environments diff))) || negb (is_nil (d_Deletes (pd_KeyGroups diff))))
    (pd_RevealRequired diff).

(** ** Handlers *)
Section Handlers.
Context (X : ApplyContext).

(** The bundle, before encoding. *)
Definition Export (portable : bool) : ST World Bundle :=
  st_result (ax_entry X OpDefinitionsExport) ;;
  st_result (ax_authorize X OpDefinitionsExport "") ;;
  w ← st_get;
  cur ← st_result (buildCurrentState w);
  st_result (Canonicalize (ax_encodedSize X) (bundleFromState cur (negb portable))).

(** The submitted document after parsing, or its refusal. *)
Definition CheckDefinitions (parsed : result Bundle) : ST World CheckResult :=
  st_result (ax_entry X OpDefinitionsCheck) ;;
  st_result (ax_authorize X OpDefinitionsCheck "") ;;
  bundle ← st_result parsed;
  w ← st_get;
  cur ← st_result (buildCurrentState w);
  '(state, diff) ← st_result (Compare bundle cur);
  findings ← st_result (ax_findings X bundle);
  mret (MkCheckResult state (b_BaseRevision bundle) (SchemaRevision cur) diff findings).

Definition GetPlanView (planID : string) : ST World PlanView :=
  st_result (ax_authorize X OpDefinitionsPlanGet "") ;;
  plan ← GetPlan planID;
  mret (planViewOf planID plan).

Definition settings (source : string) (w : World) : DefinitionsSettings :=
  MkSettings source (match LatestAppliedPlan w with Some (id, plan) => Some (lastApplyOf id plan) | None => None end).

Definition GetSettings : ST World DefinitionsSettings :=
  st_result (ax_authorize X OpDefinitionsSettingsGet "") ;;
  w ← st_get;
  mret (settings (definitions_source w) w).

Definition SetSettings (source : string) : ST World DefinitionsSettings :=
  if negb (source =s "db") && negb (source =s "git") then st_err (EWrap "definitions_source must be db or git" ErrInvalid)
  else
    st_result (ax_authorize X OpDefinitionsSettingsSet "") ;;
    w ← st_get;
    (if negb (definitions_source w =s source) then
       SetDefinitionsSource source ;;
       insertEvent (EventSettingsDefinitionsSourceChanged, MkObject "project" "", [("previous_source", VString (definitions_source w)); ("source", VString source)])
     else mret ()) ;;
    w ← st_get;
    mret (settings source w).

(** Every ordinary edit of definitions passes here after authorization. *)
Definition requireDBManagedDefinitions : ST World () :=
  w ← st_get; if definitions_source w =s "git" then st_err (refused "definitions are managed in Git") else mret ().
End Handlers.

(** ** A fresh plan *)
Lemma is_nil_map {A B} (f : A -> B) l : is_nil (map f l) = is_nil l.
Proof. by destruct l. Qed.

Lemma sameRevisionKeys_refl (m : gmap string Z) : sameRevisionKeys m m = true.
Proof.
  unfold sameRevisionKeys. rewrite Nat.eqb_refl. apply forallb_forall. intros [k v] Hin. apply list_elem_of_In, elem_of_map_to_list in Hin. cbn. rewrite Hin. done.
Qed.

Lemma changedRevision_refl (m : gmap string Z) : changedRevision m m = false.
Proof.
  unfold changedRevision. apply not_true_iff_false. intros ([k v] & Hin & Hne)%existsb_exists. apply list_elem_of_In, elem_of_map_to_list in Hin. cbn in Hne.
  rewrite Hin, Z.eqb_refl in Hne. done.
Qed.

Lemma protectedSetGrew_refl l : protectedSetGrew l l = false.
Proof. unfold protectedSetGrew. apply not_true_iff_false. intros (id & Hin & Hne)%existsb_exists. apply contains_In in Hin. by rewrite Hin in Hne. Qed.

(** What a plan's creation reads is still there afterwards. *)
Definition pinned (w : World) := (tablesOf w, snapshots w, schema_revision w).

Lemma persistPlan_Ok X b cur res w v w' : persistPlan X b cur res w = (Ok v, w') ->
  pinned w' = pinned w /\ plans w' !! pv_ID v = Some (MkPlan (ax_now X + PlanTTL) b (ax_digest X b) (SchemaRevision cur) (envRevisions w cur)
    (protectedPins (ListProtection w) cur) (planDiff w cur res) (Additive b) false 0 "" "" "" "") /\
  v = MkPlanView (pv_ID v) (ax_digest X b) (b_BaseRevision b) (SchemaRevision cur) (Additive b) (ax_now X + PlanTTL)
        (protectedPinNames (protectedPins (ListProtection w) cur)) (planDiff w cur res) (DeletionsPresent res) (RevealKeys res).
Proof.
  unfold persistPlan. intros Hr. apply st_bind_Ok in Hr as (v0 & w0 & [-> ->]%get_Ok & Hr). cbv zeta in Hr.
  apply st_bind_Ok in Hr as (id & w1 & Hid & Hr). unfold newID in Hid. destruct (uuids w) as [|u rest]; [done|]. injection Hid as <- <-.
  apply st_bind_Ok in Hr as (? & w2 & Hc & Hr). unfold CreatePlan in Hc. destruct (plans _ !! _) eqn:Hp in Hc; [done|]. injection Hc as _ <-.
  apply st_bind_Ok in Hr as (? & w3 & He & Hr). injection He as _ <-. injection Hr as <- <-. cbn [pv_ID]. split_and!; [done| |done].
  cbn. by rewrite lookup_insert_eq.
Qed.
Lemma PlanDefinitions_Ok X b w v w' : PlanDefinitions X b w = (Ok v, w') ->
  exists cur res w0, buildCurrentState w = Ok cur /\ Resolve b cur = Ok res /\ (forall base, b_BaseRevision b = Some base -> base = SchemaRevision cur) /\
    pinned w0 = pinned w /\ plans w0 = plans w /\ persistPlan X b cur res w0 = (Ok v, w').
Proof.
  unfold PlanDefinitions. intros Hr. apply st_bind_Ok in Hr as (? & ? & [_ ->]%check_Ok & Hr). apply st_bind_Ok in Hr as (v0 & w0 & [-> ->]%get_Ok & Hr).
  apply st_bind_Ok in Hr as (cur & ? & [Hcur ->]%result_Ok & Hr). apply st_bind_Ok in Hr as (? & w1 & Hb & Hr).
  assert (w1 = w /\ forall base, b_BaseRevision b = Some base -> base = SchemaRevision cur) as [-> Hbase].
  { destruct (b_BaseRevision b) as [base|]; [|by injection Hb as _ <-]. destruct (Z.eqb_spec base (SchemaRevision cur)); [|done]. injection Hb as _ <-. split; [done|]. by intros ? [= <-]. }
  apply st_bind_Ok in Hr as (? & w2 & Hc & Hr). apply st_bind_Ok in Hr as (res & w3 & [Hres ->]%result_Ok & Hr). rewrite Hres in Hc. injection Hc as _ <-.
  apply st_bind_Ok in Hr as (? & w4 & [_ ->]%check_Ok & Hr). apply st_bind_Ok in Hr as (ov & w5 & [_ ->]%result_Ok & Hr).
  apply st_bind_Ok in Hr as (? & w6 & Hm & Hr). injection Hm as _ <-. apply st_bind_Ok in Hr as (v1 & w7 & [-> ->]%get_Ok & Hr).
  destruct (_ <=? _) in Hr; [done|]. by exists cur, res, (set_ledger (schema_revision w) (plans w) (tenant_audit w ++ ov) (uuids w) (captured w) w).
Qed.

Lemma pinned_state w1 w2 cur : pinned w1 = pinned w2 -> buildCurrentState w1 = Ok cur -> buildCurrentState w2 = Ok cur.
Proof.
  unfold pinned. intros [= E1 E2 E3 E4 E5 E6 E7] Hc. rewrite (buildCurrentState_tables w1 w2 cur) by (unfold tablesOf; congruence).
  pose proof (sh_revision _ _ (buildCurrentState_Ok _ _ Hc)) as Hrev. destruct cur. cbn in *. unfold at_revision. cbn. congruence.
Qed.

Lemma preview_deletions w cur res : negb (is_nil (pd_KeyDeletions (planDiff w cur res))) || negb (is_nil (pd_EnvDeletions (planDiff w cur res))) ||
  negb (is_nil (d_Deletes (pd_Environments (planDiff w cur res)))) || negb (is_nil (d_Deletes (pd_KeyGroups (planDiff w cur res)))) = DeletionsPresent res.
Proof.
  unfold planDiff, renderDiff, DeletionsPresent. cbn [pd_KeyDeletions pd_EnvDeletions pd_Environments pd_KeyGroups d_Environments d_KeyGroups d_Deletes]. rewrite !is_nil_map.
  by destruct (EnvDeletes res), (GroupDeletes res), (KeyDeletes res).
Qed.

(** A plan is remembered as it was shown and is not stale when it is made:
    when planning a bundle succeeds, the stored plan carries that bundle and is
    open, reading it back gives the very preview the planner was answered with
    (digest, base revision, expiry, protected environments, the rendered
    difference and its concrete deletions), and, with nothing in between,
    re-checking its pins with the previewed digest finds nothing moved. *)
Theorem plan_is_fresh X b w v w' : PlanDefinitions X b w = (Ok v, w') ->
  exists plan cur, plans w' !! pv_ID v = Some plan /\ pl_Bundle plan = b /\ pl_Applied plan = false /\ planViewOf (pv_ID v) plan = v /\
    buildCurrentState w' = Ok cur /\ recheckPins X (pv_ID v) plan cur (pv_Digest v) w' = (Ok (), w').
Proof.
  intros (cur & res & w0 & Hcur & Hres & Hbase & Hpin & _ & (Hpin' & Hplan & Hv)%persistPlan_Ok)%PlanDefinitions_Ok.
  pose proof (pinned_state _ _ _ (eq_sym Hpin) Hcur) as Hc0. pose proof (pinned_state _ _ _ (eq_sym Hpin') Hc0) as Hc'.
  eexists _, cur. split_and!; [exact Hplan|done..| |done|].
  - rewrite Hv at 2. unfold planViewOf. cbn [pl_Digest pl_Additive pl_BaseSchemaRevision pl_ExpiresAt pl_ProtectedEnvs pl_Diff]. rewrite preview_deletions.
    f_equal. unfold Additive. destruct (b_BaseRevision b) as [base|] eqn:Hb; [|done]. by rewrite (Hbase base eq_refl).
  - unfold recheckPins, mbind, st_bind, st_get. cbn [pl_Bundle pl_Digest pl_EnvRevisions pl_BaseSchemaRevision pl_ProtectedEnvs].
    assert (envRevisions w' cur = envRevisions w0 cur /\ ListProtection w' = ListProtection w0) as [-> ->].
    { unfold pinned, tablesOf in Hpin'. injection Hpin' as E1 _ _ _ _ E6 _. unfold envRevisions, projectRevision, ListProtection. by rewrite E1, E6. }
    rewrite Hv. cbn [pv_Digest]. rewrite !String.eqb_refl, sameRevisionKeys_refl, Z.eqb_refl, changedRevision_refl, protectedSetGrew_refl. cbn [negb andb orb]. by rewrite andb_false_r.
Qed.
(** ** An applied plan *)

(** The plans and the revision are left alone by everything the executor does. *)
Definition ledger (w : World) := (plans w, schema_revision w).
Definition still {A} (m : ST World A) : Prop := forall w a w', m w = (Ok a, w') -> ledger w' = ledger w.

Lemma still_bind {A B} (m : ST World A) (f : A -> ST World B) : still m -> (forall a, still (f a)) -> still (m ≫= f).
Proof. intros Hm Hf w b w' (a & w0 & H1%Hm & H2%Hf)%st_bind_Ok. congruence. Qed.

Lemma still_ret {A} (a : A) : still (mret a).
Proof. by intros w b w' [= _ <-]. Qed.

Lemma still_err {A} e : still (st_err e : ST World A).
Proof. done. Qed.

Lemma still_get : still st_get.
Proof. by intros w b w' [= _ <-]. Qed.

Lemma still_result {A} (r : result A) : still (st_result r).
Proof. by intros w b w' [_ ->]%result_Ok. Qed.

Lemma still_modify (f : World -> World) : (forall w, ledger (f w) = ledger w) -> still (st_modify f).
Proof. intros Hf w b w' [= _ <-]. apply Hf. Qed.

Lemma still_newID prefix : still (newID prefix).
Proof. intros w a w' Hr. unfold newID in Hr. destruct (uuids w); [done|]. by injection Hr as _ <-. Qed.

Lemma still_row id bad f : still (updateKeyRow id bad f).
Proof. intros w a w' Hr. unfold updateKeyRow in Hr. destruct (keys w !! id); [|done]. destruct (bad w); [done|]. by injection Hr as _ <-. Qed.

Ltac still_table := unfold still; intros; repeat (case_match; try done); by simplify_eq.

Lemma still_tables :
  (forall id, still (Catalogue_Get id)) /\ (forall id row, still (Catalogue_Create id row)) /\ (forall id, still (Catalogue_Delete id)) /\ (forall id n, still (CreateGroup id n)) /\
  (forall id n, still (RenameGroup id n)) /\ (forall id, still (DeleteGroup id)) /\ (forall id n o, still (Environments_Create id n o)) /\
  (forall id n, still (Environments_Rename id n)) /\ (forall id, still (Environments_Delete id)) /\ still NextOrder /\ (forall row, still (InsertKeyPresence row)).
Proof.
  unfold Catalogue_Get, Catalogue_Create, Catalogue_Delete, CreateGroup, RenameGroup, DeleteGroup, Environments_Create, Environments_Rename, Environments_Delete, NextOrder, InsertKeyPresence, conflict, notFound.
  split_and!; still_table.
Qed.

(** A handler made of still steps is still. *)
Ltac still_run :=
  match goal with
  | |- still (_ ≫= _) => apply still_bind; [still_run|intros ?; still_run]
  | |- still (let '(_, _) := ?x in _) => destruct x; still_run
  | |- still (if ?c then _ else _) => destruct c; still_run
  | |- still (when ?c _) => destruct c; cbn [when]; still_run
  | |- still (st_modify _) => by apply still_modify
  | |- still (mret _) => apply still_ret
  | |- still (st_err _) => apply still_err
  | |- still st_get => apply still_get
  | |- still (st_result _) => apply still_result
  | |- still (newID _) => apply still_newID
  | |- still (updateKeyRow _ _ _) => apply still_row
  | |- still _ => first [assumption | apply still_tables | match goal with H : _ |- _ => apply H end]
  end.

Lemma still_event typ objType objID payload : still (insertDefinitionEvent typ objType objID payload).
Proof. by apply still_modify. Qed.

Lemma still_presence id rows : still (ReplacePresence id rows).
Proof.
  apply still_bind; [by apply still_modify|]. intros _. generalize (map (fun row => MkKeyPresence id (kp_EnvironmentID row) (kp_Rule row)) rows) as l.
  induction l as [|row l IH]; cbn [insertPresenceRows]; [apply still_ret|]. apply still_bind; [apply still_tables|done].
Qed.

Lemma still_pinned id : still (refuseAdapterPinnedKey id).
Proof. unfold refuseAdapterPinnedKey. still_run. Qed.

Lemma still_clear id : still (ClearGroupMembers id).
Proof. by intros w a w' [= _ <-]. Qed.

Lemma still_release X env : still (releaseEnvironmentGrants X env).
Proof. by intros w a w' [= _ <-]. Qed.

Lemma still_deletes X res : still (deleteKeys (KeyDeletes res)) /\ still (deleteGroups (GroupDeletes res)) /\ still (deleteEnvironments X (EnvDeletes res)).
Proof.
  pose proof still_event as He. pose proof still_presence as Hp. pose proof still_pinned as Hn. pose proof still_clear as Hc. pose proof still_release as Hg.
  split_and!; [induction (KeyDeletes res)|induction (GroupDeletes res)|induction (EnvDeletes res)]; cbn [deleteKeys deleteGroups deleteEnvironments];
    unfold ClearKey, DiscardKey, DeleteByKey, deleteEnvironment, DiscardEnvironment, Snapshots_DeleteEnvironment, Pins_DeleteEnvironment, DeletePresenceForEnvironment;
    cbv zeta; still_run.
Qed.
Lemma still_renames op : (forall id n, still (op id n)) -> (forall ids used c, still (park op ids used c)) /\ (forall typ objType rns m, still (finishRenames op typ objType rns m)).
Proof.
  intros Hop. pose proof still_event as He. split.
  - induction ids as [|id ids IH]; intros used c; cbn [park]; still_run.
  - intros typ objType. induction rns as [|r rns IH]; intros m; cbn [finishRenames]; still_run.
Qed.

Lemma still_creates prefix op typ objType : (forall id n, still (op id n)) -> forall names m, still (createNamed prefix op typ objType names m).
Proof. intros Hop. pose proof still_event as He. induction names as [|n names IH]; intros m; cbn [createNamed]; still_run. Qed.

Lemma still_keys cks em gm rev : (forall ks, still (createKeys cks ks em gm)) /\ (forall us, still (updateKeys cks us em gm rev)).
Proof.
  pose proof still_event as He. pose proof still_presence as Hp. pose proof still_pinned as Hn.
  split; [induction ks as [|k ks IH]|induction us as [|u us IH]]; cbn [createKeys updateKeys]; unfold createKey, updateKey, UpdateMetadata, UpdateDeclaration, SetClassification, SetGroup, DeleteByKey;
    cbv zeta; still_run.
Qed.

Lemma still_execute X res cur cks rev : still (executeResolution X res cur cks rev).
Proof.
  destruct (still_deletes X res) as (D1 & D2 & D3). assert (forall id n, still (renameEnv X id n)) as R1 by (intros; unfold renameEnv; still_run).
  assert (forall id n, still (RenameGroup id n)) as R2 by (apply still_tables). assert (forall id n, still (Catalogue_Rename id n)) as R3 by (intros; apply still_row).
  destruct (still_renames _ R1) as [P1 F1]. destruct (still_renames _ R2) as [P2 F2]. destruct (still_renames _ R3) as [P3 F3].
  assert (forall names m, still (createEnvs names m)) as C1 by (apply still_creates; intros; unfold createEnv; still_run).
  assert (forall names m, still (createGroups names m)) as C2 by (apply still_creates; intros; apply still_tables).
  pose proof (fun em gm => proj1 (still_keys cks em gm rev)) as K1. pose proof (fun em gm => proj2 (still_keys cks em gm rev)) as K2.
  unfold executeResolution, retopologize, parkRenames. still_run.
Qed.

Lemma still_reveal X upds : still (enforceReveal X upds).
Proof.
  induction upds as [|u upds IH]; cbn [enforceReveal]; unfold revealGate, CaptureAudit; cbv zeta; [apply still_ret|]. destruct (negb _); [done|].
  apply still_bind; [apply still_tables|]. intros key. apply still_bind; [|intros _; still_run]. destruct (_ && _); [|apply still_ret].
  apply still_bind; [by apply still_modify|]. intros _. destruct (ax_authorize _ _ _); still_run.
Qed.

(** C29. A plan is spent by its apply, and its revision is known: a successful
    apply finds the plan open and the project at the plan's base revision. Either
    nothing was left to change, and the apply leaves everything as it was and
    answers the base revision; or the definitions revision becomes the base
    revision plus one, which is the revision the apply answers and the one the
    settings derive from the plan's row, the plan is marked applied, and no apply
    of it ever succeeds again from that state, by anyone with any options. The
    fan-out is assumed to write neither the catalogue nor the plans. *)
Theorem applied_plan_is_spent X planID opts w r w' : publishes X -> ApplyDefinitions X planID opts w = (Ok r, w') ->
  exists plan, plans w !! planID = Some plan /\ pl_Applied plan = false /\ schema_revision w = pl_BaseSchemaRevision plan /\
    ((w' = w /\ ar_Revision r = pl_BaseSchemaRevision plan) \/
     (ar_Revision r = pl_BaseSchemaRevision plan + 1 /\ schema_revision w' = ar_Revision r /\
      exists plan', plans w' !! planID = Some plan' /\ pl_Applied plan' = true /\ la_Revision (lastApplyOf planID plan') = ar_Revision r /\
        forall X' opts' r' w'', ApplyDefinitions X' planID opts' w' <> (Ok r', w''))).
Proof.
  intros Hpub (commit & ref & actor & Hr)%ApplyDefinitions_Ok.
  apply applyBody_Ok in Hr as [(plan & cur & res & Hp & Hopen & Hcur & Hbase & _ & _ & Hrev & ->)|(plan & cur & res & w0 & w1 & w2 & Ha)].
  { exists plan. apply buildCurrentState_Ok, sh_revision in Hcur. split_and!; [done|done|congruence|]. left. split; [done|congruence]. }
  pose proof (sh_revision _ _ (buildCurrentState_Ok _ _ (ad_cur _ _ _ _ _ _ _ _ _ _ _ _ Ha))) as Hrev. pose proof (ad_base _ _ _ _ _ _ _ _ _ _ _ _ Ha) as Hbase.
  pose proof (ad_guard _ _ _ _ _ _ _ _ _ _ _ _ Ha) as [-> _]%guardDeletions_Ok.
  pose proof (still_execute _ _ _ _ _ _ _ _ (ad_execute _ _ _ _ _ _ _ _ _ _ _ _ Ha)) as Q2. rewrite (still_reveal _ _ _ _ _ (ad_reveal _ _ _ _ _ _ _ _ _ _ _ _ Ha)) in Q2.
  injection Q2 as Q3 Q4. destruct (ad_ledger _ _ _ _ _ _ _ _ _ _ _ _ Ha (ps_ledger _ Hpub)) as (L1 & L2 & plan' & L3 & L4 & L5).
  exists plan. split_and!; [apply Ha|apply Ha|congruence|]. right. split_and!; [congruence|congruence|]. exists plan'. split_and!; [done|done| |].
  - cbn [la_Revision lastApplyOf]. rewrite (L5 plan); [congruence|]. rewrite Q3. apply Ha.
  - intros X' opts' r' w'' (? & ? & ? & Hr)%ApplyDefinitions_Ok. apply applyBody_Ok in Hr as [(plan1 & ? & ? & Hp1 & Hopen & _)|(plan1 & ? & ? & ? & ? & ? & Ha')].
    + congruence.
    + pose proof (ad_plan _ _ _ _ _ _ _ _ _ _ _ _ Ha'). pose proof (ad_open _ _ _ _ _ _ _ _ _ _ _ _ Ha'). congruence.
Qed.
End Service.
