(* ===== verification/DefinitionsProgress.v ===== *)
(** * Renames never collide

    Parking every renamed identity on a reserved name, creating, and only then
    writing the final names meets no name conflict, whatever permutation of the
    current names a bundle asks for. *)

From stdpp Require Import pretty.
From S2P Require Import Prelude Domain OperationNames Schema AuditEvent Definitions DefinitionsSpec DefinitionsExport DefinitionsStore DefinitionsApply DefinitionsSteps DefinitionsMatch DefinitionsConverge.

#[local] Open Scope Z_scope.

(** ** Reserved names *)
Lemma append_inj s a b : s +:+ a = s +:+ b -> a = b.
Proof. induction s as [|c s IH]; [done|]. intros [= Hs]. by apply IH. Qed.

Lemma tempName_inj i j : tempName i = tempName j -> i = j.
Proof. intros He%append_inj. by apply (inj pretty) in He. Qed.

Lemma temp_taken fuel : forall used c m, temp fuel used c = Panic m -> list_to_set (map tempName (seq c fuel)) ⊆ used.
Proof.
  induction fuel as [|f IH]; intros used c m Ht; cbn [temp seq map] in *; [set_solver|]. destruct (decide _); [|done]. apply IH in Ht. set_solver.
Qed.

(** A reserved name is always found: the used names cannot cover one more than
    their number. *)
Lemma temp_total used c : exists n c', temp (S (size used)) used c = Ok (n, c') /\ n ∉ used.
Proof.
  assert (forall fuel c r, temp fuel used c = r -> match r with Ok (n, _) => n ∉ used | Err _ => False | Panic _ => True end) as Hshape.
  { induction fuel as [|f IH]; intros c' r; cbn [temp]; [by intros <-|]. destruct (decide _); [apply IH|by intros <-]. }
  destruct (temp (S (size used)) used c) as [[n c']| |m] eqn:Ht; [exists n, c'; split; [done|by apply Hshape in Ht]|by apply Hshape in Ht|].
  exfalso. apply temp_taken, subseteq_size in Ht. rewrite size_list_to_set in Ht; [rewrite length_map, length_seq in Ht; lia|].
  apply NoDup_fmap_2; [intros i j; apply tempName_inj|apply NoDup_seq].
Qed.

Section Progress.
Context `{DeclarationCodec}.

(** ** One kind of entity *)
Section Kind.
Context {R : Type} (view : tables -> gmap string string) (beside : tables -> R).

Let V (w : World) := view (tablesOf w).

Definition can_rename (op : string -> string -> ST World ()) : Prop := forall id n w, is_Some (V w !! id) -> nameFree (V w) id n ->
  exists w', op id n w = (Ok (), w') /\ uuids w' = uuids w.
Definition can_make (op : string -> string -> ST World ()) : Prop := forall id n w, V w !! id = None -> nameFree (V w) id n ->
  exists w', op id n w = (Ok (), w') /\ uuids w' = uuids w.

Definition named (used : gset string) (w : World) : Prop := forall id n, V w !! id = Some n -> n ∈ used.

Lemma park_total op : renames view beside op -> can_rename op -> forall ids used c w, (forall id, In id ids -> is_Some (V w !! id)) -> named used w ->
  exists used' c' w', park op ids used c w = (Ok (used', c'), w') /\ uuids w' = uuids w /\ used ⊆ used' /\ (forall id, In id ids -> exists t, V w' !! id = Some t /\ t ∉ used).
Proof.
  intros Hren Hcan. induction ids as [|id ids IH]; intros used c w Hin Hnamed; cbn [park]; [by exists used, c, w|].
  destruct (temp_total used c) as (n & c' & Ht & Hn). rewrite Ht.
  destruct (Hcan id n w) as (w1 & Hr & Hu); [apply Hin; by left|intros id' Hid'; by apply Hnamed in Hid'|].
  pose proof (Hren _ _ _ _ _ Hr) as (_ & _ & Hv & _). destruct (IH ({[ n ]} ∪ used) c' w1) as (used' & c2 & w2 & Hp & Hu2 & Hsub & Hall).
  { intros id' Hi. unfold V. rewrite Hv. destruct (decide (id = id')) as [<-|]; [rewrite lookup_insert_eq; by eexists|]. rewrite lookup_insert_ne by done. apply Hin. by right. }
  { intros id' n' Hn'. unfold V in Hn'. rewrite Hv in Hn'. destruct (decide (id = id')) as [<-|]; [rewrite lookup_insert_eq in Hn'; injection Hn' as <-; set_solver|].
    rewrite lookup_insert_ne in Hn' by done. apply Hnamed in Hn'. set_solver. }
  exists used', c2, w2. split_and!.
  - rewrite (st_result_run (Ok (n, c')) _ _ (n, c') eq_refl). rewrite (st_run _ _ _ () w1 Hr). done.
  - congruence.
  - set_solver.
  - intros id' [<-|Hi]; [|destruct (Hall id' Hi) as (t & Ht' & Hnt); exists t; split; [done|set_solver]].
    destruct (in_dec String.string_dec id ids) as [Hi|Hi]; [destruct (Hall id Hi) as (t & Ht' & Hnt); exists t; split; [done|set_solver]|].
    destruct (park_Ok _ _ _ Hren _ _ _ _ _ _ Hp) as (_ & Hsame & _). exists n. split; [|done]. unfold V. by rewrite Hsame, Hv, lookup_insert_eq.
Qed.

Lemma finishRenames_total op typ objType : renames view beside op -> can_rename op -> forall rns m w, NoDup (map rn_ID rns) -> NoDup (map rn_To rns) ->
  (forall r, In r rns -> is_Some (V w !! rn_ID r)) -> (forall r id, In r rns -> V w !! id <> Some (rn_To r)) ->
  exists m' w', finishRenames op typ objType rns m w = (Ok m', w') /\ uuids w' = uuids w.
Proof.
  intros Hren Hcan. induction rns as [|r rns IH]; intros m w Hn1 Hn2 Hin Hfree; cbn [finishRenames]; [by exists m, w|].
  cbn [map] in Hn1, Hn2. apply NoDup_cons in Hn1 as [Hi Hn1]. apply NoDup_cons in Hn2 as [Ht Hn2]. rewrite list_elem_of_In in Hi, Ht.
  destruct (Hcan (rn_ID r) (rn_To r) w) as (w1 & Hr & Hu); [apply Hin; by left|intros id' Hid'; by apply Hfree in Hid'; [|left]|].
  pose proof (Hren _ _ _ _ _ Hr) as (_ & _ & Hv & _). rewrite (st_run _ _ _ () w1 Hr).
  destruct (insertDefinitionEvent typ objType (rn_ID r) (renamedPayload (rn_From r) (rn_To r)) w1) as [[[]| |] w2] eqn:He; [|done..].
  rewrite (st_run _ _ _ () w2 He). injection He as <-.
  destruct (IH (<[ rn_To r := rn_ID r ]> m) (set_ledger (schema_revision w1) (plans w1) (tenant_audit w1 ++ [(typ, MkObject objType (rn_ID r), renamedPayload (rn_From r) (rn_To r))]) (uuids w1) (captured w1) w1))
    as (m' & w' & Hf & Hu'); [done|done| | |exists m', w'; split; [done|]; cbn in Hu'; congruence].
  - intros r' Hr'. change (is_Some (view (tablesOf w1) !! rn_ID r')). rewrite Hv, lookup_insert_ne by (intros He; apply Hi; rewrite He; by apply in_map). apply Hin. by right.
  - intros r' id Hr'. change (view (tablesOf w1) !! id <> Some (rn_To r')). rewrite Hv. destruct (decide (rn_ID r = id)) as [<-|].
    + rewrite lookup_insert_eq. intros [= He]. apply Ht. rewrite He. by apply in_map.
    + rewrite lookup_insert_ne by done. apply Hfree. by right.
Qed.

(** Fresh identifiers to draw from. *)
Definition fresh_ids (prefix : string) (w : World) : Prop := NoDup (uuids w) /\ forall u, In u (uuids w) -> V w !! (prefix +:+ "_" +:+ u) = None.

Lemma createNamed_total prefix op typ objType : makes view beside op -> can_make op -> forall names m w, NoDup names -> (length names <= length (uuids w))%nat -> fresh_ids prefix w ->
  (forall n id, In n names -> V w !! id <> Some n) ->
  exists m' w', createNamed prefix op typ objType names m w = (Ok m', w') /\ uuids w' = drop (length names) (uuids w).
Proof.
  intros Hmk Hcan. induction names as [|n names IH]; intros m w Hn Hlen [Hnu Hfresh] Hfree; cbn [createNamed]; [by exists m, w|].
  apply NoDup_cons in Hn as [Hni Hn]. rewrite list_elem_of_In in Hni. destruct (uuids w) as [|u us] eqn:Hus; [cbn in Hlen; lia|].
  set (w0 := set_ledger (schema_revision w) (plans w) (tenant_audit w) us (captured w) w).
  assert (newID prefix w = (Ok (prefix +:+ "_" +:+ u), w0)) as Hid by (unfold newID; by rewrite Hus). rewrite (st_run _ _ _ _ w0 Hid).
  destruct (Hcan (prefix +:+ "_" +:+ u) n w0) as (w1 & Hr & Hu).
  { apply Hfresh. by left. }
  { intros id' Hid'. by destruct (Hfree n id' (or_introl eq_refl)). }
  rewrite (st_run _ _ _ () w1 Hr). pose proof (Hmk _ _ _ _ _ Hr) as (_ & _ & Hv & _). change (view (tablesOf w0)) with (view (tablesOf w)) in Hv.
  destruct (insertDefinitionEvent typ objType (prefix +:+ "_" +:+ u) [("name", text n)] w1) as [[[]| |] w2] eqn:He; [|done..]. rewrite (st_run _ _ _ () w2 He). injection He as <-.
  apply NoDup_cons in Hnu as [Hnu Hnus]. rewrite list_elem_of_In in Hnu. change (uuids w0) with us in Hu.
  destruct (IH (<[ n := prefix +:+ "_" +:+ u ]> m) (set_ledger (schema_revision w1) (plans w1) (tenant_audit w1 ++ [(typ, MkObject objType (prefix +:+ "_" +:+ u), [("name", text n)])]) (uuids w1) (captured w1) w1))
    as (m' & w' & Hf & Hu'); [done|cbn; rewrite Hu; cbn in Hlen; lia| | |exists m', w'; split; [done|]; cbn in Hu'; by rewrite Hu', Hu].
  - split; cbn [uuids set_ledger]; rewrite Hu; [done|]. intros u' Hu''. change (view (tablesOf w1) !! (prefix +:+ "_" +:+ u') = None). rewrite Hv, lookup_insert_ne; [apply Hfresh; by right|].
    intros He. apply append_inj, append_inj in He. by subst u'.
  - intros n' id Hn'. change (view (tablesOf w1) !! id <> Some n'). rewrite Hv. destruct (decide (prefix +:+ "_" +:+ u = id)) as [<-|].
    + rewrite lookup_insert_eq. intros [= ->]. done.
    + rewrite lookup_insert_ne by done. apply Hfree. by right.
Qed.
End Kind.
(** ** The store admits a free name *)
Lemma nameTaken_free {A} (nameOf : A -> string) id n (m : gmap string A) : nameFree (nameOf <$> m) id n -> nameTaken nameOf id n m = false.
Proof.
  intros Hf. apply not_true_iff_false. intros ([id' a] & Hin & Ht)%existsb_exists. apply list_elem_of_In, elem_of_map_to_list in Hin. cbn in Ht.
  apply andb_prop in Ht as [Hne Hn]. apply String.eqb_eq in Hn. rewrite (Hf id') in Hne; [by rewrite String.eqb_refl in Hne|]. by rewrite lookup_fmap, Hin, <- Hn.
Qed.

Definition may_rename (X : ApplyContext) : Prop := forall env, ax_authorize X OpEnvRename env = Ok ().

Lemma can_rename_env X : may_rename X -> can_rename envNames (renameEnv X).
Proof.
  intros HX id n w Hs Hf. unfold renameEnv. rewrite (st_result_run _ _ _ () (HX id)). unfold Environments_Rename. unfold envNames in *. cbn [tablesOf t_envs] in *.
  rewrite lookup_fmap in Hs. destruct (environments w !! id) as [e|]; [|by destruct Hs]. rewrite (nameTaken_free _ _ _ _ Hf). by eexists.
Qed.

Lemma can_make_env : can_make envNames createEnv.
Proof.
  intros id n w Hs Hf. unfold createEnv. unfold envNames in *. cbn [tablesOf t_envs] in *. rewrite lookup_fmap in Hs.
  rewrite (st_run NextOrder _ w _ w eq_refl). unfold Environments_Create. destruct (environments w !! id); [done|]. rewrite (nameTaken_free _ _ _ _ Hf).
  assert (forall l, 0 <= foldr Z.max 0 l) as Hmax by (induction l as [|x l IH]; cbn; lia). rewrite (proj2 (Z.ltb_ge _ _) (Hmax _)). by eexists.
Qed.

Lemma can_rename_group : can_rename t_groups RenameGroup.
Proof.
  intros id n w [x Hs] Hf. unfold RenameGroup. cbn in Hs. rewrite Hs, (nameTaken_free (fun n => n)) by (by rewrite map_fmap_id). by eexists.
Qed.

Lemma can_make_group : can_make t_groups CreateGroup.
Proof. intros id n w Hs Hf. unfold CreateGroup. cbn in Hs. rewrite Hs, (nameTaken_free (fun n => n)) by (by rewrite map_fmap_id). by eexists. Qed.

Lemma can_rename_key : can_rename keyNames Catalogue_Rename.
Proof.
  intros id n w Hs Hf. unfold Catalogue_Rename, updateKeyRow. unfold keyNames in *. cbn [tablesOf t_keys] in *. rewrite lookup_fmap in Hs.
  destruct (keys w !! id); [|by destruct Hs]. rewrite (nameTaken_free _ _ _ _ Hf). by eexists.
Qed.

(** ** The names a bundle claims are free *)
Section Claimed.
Context (bundle current : list entity) (additive : bool) (bound dels : list string).
Context (Hc : entities_ok current) (Hm : matched bundle current additive bound dels).
Context (Hadd : additive = true -> forall e, In e bundle -> en_id e = "").

Let news := (topology current bundle bound).1.
Let rens := (topology current bundle bound).2.

(** An entity that neither goes nor moves has a name no create and no rename claims. *)
Lemma staying_name e0 : In e0 current -> ~ In (en_id e0) dels -> ~ In (en_id e0) (map rn_ID rens) -> ~ In (en_name e0) news /\ ~ In (en_name e0) (map rn_To rens).
Proof.
  destruct e0 as [id n]. cbn [en_id en_name]. intros Hin Hnd Hnr. pose proof (eo_nonempty _ Hc _ Hin) as Hne. cbn in Hne.
  destruct (in_dec String.string_dec id bound) as [Hb|Hb].
  - apply list_elem_of_In, list_elem_of_lookup in Hb as [i Hi]. assert (exists e, bundle !! i = Some e) as [e He].
    { apply lookup_lt_is_Some_2. rewrite <- (mt_length _ _ _ _ _ Hm). by eapply lookup_lt_Some. }
    pose proof (nameFor_In _ Hc _ _ Hin) as Hn.
    assert (en_name e = n) as Hen.
    { destruct (String.string_dec (nameFor current id) (en_name e)) as [|Hx]; [congruence|]. exfalso. apply Hnr, in_map_iff. exists (MkRename id (nameFor current id) (en_name e)).
      split; [done|]. apply (rens_In bundle). by exists i, e, id. }
    split.
    + intros (j & e' & He' & Hb' & Hnn)%(news_In bundle). assert (i = j) as <- by (eapply (same_name _ _ _ _ _ Hm); [done|done|congruence]). congruence.
    + intros Hr. apply in_map_iff in Hr as (r & Hto & Hr). apply (rens_In bundle) in Hr as (j & e' & b' & He' & Hb' & _ & Hn' & ->). cbn in Hto.
      assert (i = j) as <- by (eapply (same_name _ _ _ _ _ Hm); [done|done|congruence]). congruence.
  - assert (additive = true) as Ha.
    { destruct additive eqn:Ha; [done|]. exfalso. apply Hnd, (mt_dels _ _ _ _ _ Hm). split_and!; [done| |done]. by apply (in_map en_id _ (MkEntity id n)). }
    pose proof (byName_Some _ _ (eo_names _ Hc) Hin) as Hby. cbn in Hby. split.
    + intros (i & e & He & Hbi & <-)%(news_In bundle). destruct (mt_free _ _ _ _ _ Hm i e He Hbi) as [Hno|(b & Hb' & Hbb)]; congruence.
    + intros Hr. apply in_map_iff in Hr as (r & <- & Hr). apply (rens_In bundle) in Hr as (i & e & b & He & Hbi & Hnb & _ & ->). cbn in *.
      assert (In e bundle) as Hine by (by eapply list_elem_of_In, list_elem_of_lookup_2).
      pose proof (mt_name _ _ _ _ _ Hm i e b He Hbi (Hadd Ha e Hine) Hnb) as Hby'. rewrite Hby in Hby'. injection Hby' as <-. apply Hb. by eapply list_elem_of_In, list_elem_of_lookup_2.
Qed.

Lemma renamed_present (T0 : gmap string string) id : (forall id n, T0 !! id = Some n <-> In (MkEntity id n) current) -> In id (map rn_ID rens) -> is_Some (without dels T0 !! id).
Proof.
  intros HT Hr. apply in_map_iff in Hr as (r & <- & Hr). apply (rens_In bundle) in Hr as (i & e & b & _ & Hb & Hnb & _ & ->). cbn.
  rewrite lookup_without. destruct (contains dels b) eqn:Hd; [apply contains_In in Hd; by destruct (bound_not_deleted _ _ _ _ _ Hm i b Hb)|].
  eexists. apply HT. by eapply (bound_entity _ _ _ _ _ Hc Hm).
Qed.

(** Parked, then created, then renamed: every claimed name is free when claimed. *)
Context (T0 T4 : gmap string string) (used : gset string).
Context (HT : forall id n, T0 !! id = Some n <-> In (MkEntity id n) current).
Context (Hpark : forall id, In id (map rn_ID rens) -> exists t, T4 !! id = Some t /\ t ∉ used).
Context (Hstay : forall id, ~ In id (map rn_ID rens) -> T4 !! id = without dels T0 !! id).
Context (Hnews : forall n, In n news -> n ∈ used) (Htos : forall n, In n (map rn_To rens) -> n ∈ used).

Lemma staying_row id n : T4 !! id = Some n -> ~ In id (map rn_ID rens) -> ~ In n news /\ ~ In n (map rn_To rens).
Proof.
  intros Hl Hr. rewrite Hstay, lookup_without in Hl by done. destruct (contains dels id) eqn:Hd; [done|]. apply HT in Hl.
  apply (staying_name (MkEntity id n)); [done| |done]. intros Hi%contains_In. cbn in *. congruence.
Qed.

Lemma claimed_free n id : In n news \/ In n (map rn_To rens) -> T4 !! id <> Some n.
Proof.
  intros Hn Hl. destruct (in_dec String.string_dec id (map rn_ID rens)) as [Hr|Hr].
  - destruct (Hpark id Hr) as (t & Ht & Hnt). apply Hnt. rewrite Hl in Ht. injection Ht as <-. destruct Hn; auto.
  - destruct (staying_row id n Hl Hr). tauto.
Qed.

Lemma renames_free fresh (T6 : gmap string string) r id : Forall2 (fun n id => T6 !! id = Some n) news fresh -> (forall id, ~ In id fresh -> T6 !! id = T4 !! id) ->
  In r rens -> T6 !! id <> Some (rn_To r).
Proof.
  intros Hf Hs Hr Hl. assert (In (rn_To r) (map rn_To rens)) as Hto by (by apply in_map).
  destruct (in_dec String.string_dec id fresh) as [Hi|Hi].
  - destruct (proj2 (Forall2_In _ _ _ Hf) id Hi) as (n & Hn & Hl'). rewrite Hl in Hl'. injection Hl' as <-. by apply (news_not_to _ _ _ _ _ Hm _ Hn).
  - rewrite Hs in Hl by done. by apply (claimed_free (rn_To r) id); [right|].
Qed.
End Claimed.
(** A document without a base names no identity. *)
Lemma canonical_no_ids size src b : Canonicalize size src = Ok b -> Additive b = true ->
  (forall e, In e (b_Environments b) -> en_id e = "") /\ (forall e, In e (b_KeyGroups b) -> en_id e = "") /\ (forall e, In e (bundleKeyEntities (b_Keys b)) -> en_id e = "").
Proof.
  intros Hcan Ha. pose proof (Canonicalize_Ok _ _ _ Hcan) as [Hb He Hg (ks & Hk & Hc)]. unfold Canonicalize in Hcan. apply bind_Ok in Hcan as ([] & Hv & _).
  assert (Additive src = true) as Has by (unfold Additive in *; by rewrite <- Hb). unfold validateBundle in Hv. destruct (negb _); [done|]. destruct (_ <? _); [done|].
  rewrite Has in Hv. cbn [andb] in Hv. destruct (hasIDs src) eqn:Hh; [done|]. unfold hasIDs in Hh. apply orb_false_iff in Hh as [Hh H3]. apply orb_false_iff in Hh as [H1 H2].
  assert (forall A (f : A -> string) l x, existsb (fun e => negb (f e =s "")) l = false -> In x l -> f x = "") as Hex.
  { intros A f l x Hl Hx. destruct (String.eqb_spec (f x) "") as [|Hn]; [done|]. rewrite <- not_true_iff_false in Hl. destruct Hl. apply existsb_exists. exists x. split; [done|].
    by destruct (String.eqb_spec (f x) ""). }
  split_and!; [intros e Hin; apply (Hex _ en_id _ _ H1), (Permutation_in _ He Hin)|intros e Hin; apply (Hex _ en_id _ _ H2), (Permutation_in _ Hg Hin)|].
  intros e Hin. apply in_map_iff in Hin as (k & <- & Hin). cbn. destruct (proj2 (Forall2_In _ _ _ Hc) k Hin) as (k0 & Hin0 & Hcp). rewrite (cp_id _ _ Hcp).
  apply (Hex _ k_ID _ _ H3), (Permutation_in _ Hk Hin0).
Qed.

(** Names to draw from, in the tables the deletes leave. *)
Record draws (res : Resolution) (w : World) : Prop := {
  dr_unique : NoDup (uuids w);
  dr_enough : (length (EnvCreates res) + length (GroupCreates res) <= length (uuids w))%nat;
  dr_env : forall u, In u (uuids w) -> environments w !! ("env" +:+ "_" +:+ u) = None;
  dr_group : forall u, In u (uuids w) -> key_groups w !! ("kgr" +:+ "_" +:+ u) = None }.

Lemma used_In res cur n : n ∈ usedNames res cur <-> In n (map en_name (cs_Environments cur)) \/ In n (map en_name (cs_KeyGroups cur)) \/ In n (map ck_Name (cs_Keys cur)) \/
  In n (EnvCreates res) \/ In n (GroupCreates res) \/ In n (map k_Name (KeyCreates res)) \/ In n (map rn_To (EnvRenames res)) \/ In n (map rn_To (GroupRenames res)) \/
  In n (map (fun u => k_Name (u_Desired u)) (KeyUpdates res)).
Proof. unfold usedNames. by rewrite elem_of_list_to_set, list_elem_of_In, !in_app_iff. Qed.
(** ** The whole phase *)
Section Phase.
Context (X : ApplyContext) (b : Bundle) (cur : CurrentState) (res : Resolution) (eb gb kb : list string) (w0 w3 : World).
Context (HX : may_rename X) (Hpl : planned b cur res eb gb kb) (Hst : state_ok cur) (Hsh : shows w0 cur).
Context (HE : Additive b = true -> forall e, In e (b_Environments b) -> en_id e = "") (HG : Additive b = true -> forall e, In e (b_KeyGroups b) -> en_id e = "")
  (HK : Additive b = true -> forall e, In e (bundleKeyEntities (b_Keys b)) -> en_id e = "").
Context (HE3 : envNames (tablesOf w3) = without (map rf_ID (EnvDeletes res)) (envNames (tablesOf w0))).
Context (HG3 : key_groups w3 = without (map rf_ID (GroupDeletes res)) (key_groups w0)).
Context (HK3 : keyNames (tablesOf w3) = without (map rf_ID (KeyDeletes res)) (keyNames (tablesOf w0))).

Let used := usedNames res cur.
Let TE := fun id n => entitiesOf_In _ _ id n (sh_envs _ _ Hsh).
Let TG := fun id n => entitiesOf_In _ _ id n (sh_groups _ _ Hsh).
Let TK := fun id n => entitiesOf_In _ _ id n (sh_keys _ _ Hsh).

Lemma rest_named (T : gmap string string) l dels : (forall id n, T !! id = Some n <-> In (MkEntity id n) l) -> (forall n, In n (map en_name l) -> n ∈ used) ->
  forall id n, without dels T !! id = Some n -> n ∈ used.
Proof. intros HT Hl id n. rewrite lookup_without. destruct (contains dels id); [done|]. intros Hin%HT. apply Hl. by apply (in_map en_name _ (MkEntity id n)). Qed.

Lemma park_phase : exists w4, parkRenames X res cur w3 = (Ok (), w4) /\ uuids w4 = uuids w3 /\
  (forall id, In id (map rn_ID (EnvRenames res)) -> exists t, envNames (tablesOf w4) !! id = Some t /\ t ∉ used) /\
  (forall id, In id (map rn_ID (GroupRenames res)) -> exists t, key_groups w4 !! id = Some t /\ t ∉ used) /\
  (forall id, In id (map rn_ID (map keyRename (renamedKeys res))) -> exists t, keyNames (tablesOf w4) !! id = Some t /\ t ∉ used).
Proof.
  destruct (news_of _ _ _ _ _ (pn_env_topology _ _ _ _ _ _ Hpl)) as [_ RE]. destruct (news_of _ _ _ _ _ (pn_group_topology _ _ _ _ _ _ Hpl)) as [_ RG].
  destruct (news_of _ _ _ _ _ (pn_key_topology _ _ _ _ _ _ Hpl)) as [_ RK]. unfold parkRenames.
  destruct (park_total _ _ _ (renames_env X) (can_rename_env X HX) (map rn_ID (EnvRenames res)) used 0 w3) as (u1 & c1 & v1 & P1 & U1 & S1 & A1).
  { intros id Hi. cbv beta. rewrite HE3. rewrite <- RE in Hi. by apply (renamed_present _ _ _ _ _ (so_envs _ Hst) (pn_envs _ _ _ _ _ _ Hpl) _ _ TE). }
  { intros id n Hn. cbv beta in Hn. rewrite HE3 in Hn. eapply (rest_named _ _ _ TE); [|exact Hn]. intros n' Hn'. apply used_In. by left. }
  rewrite (st_run _ _ _ _ _ P1). destruct (park_Ok _ _ _ (renames_env X) _ _ _ _ _ _ P1) as (B1 & _). injection B1 as B11 B12 B13 B14.
  destruct (park_total _ _ _ renames_group can_rename_group (map rn_ID (GroupRenames res)) u1 c1 v1) as (u2 & c2 & v2 & P2 & U2 & S2 & A2).
  { intros id Hi. cbn [tablesOf t_groups]. rewrite B11, HG3. rewrite <- RG in Hi. by apply (renamed_present _ _ _ _ _ (so_groups _ Hst) (pn_groups _ _ _ _ _ _ Hpl) _ _ TG). }
  { intros id n Hn. cbn [tablesOf t_groups] in Hn. rewrite B11, HG3 in Hn. apply S1. eapply (rest_named _ _ _ TG); [|exact Hn]. intros n' Hn'. apply used_In. by right; left. }
  rewrite (st_run _ _ _ _ _ P2). destruct (park_Ok _ _ _ renames_group _ _ _ _ _ _ P2) as (B2 & _). injection B2 as B21 B22 B23 B24.
  assert (keyNames (tablesOf v2) = keyNames (tablesOf w3)) as HKn by (unfold keyNames; cbn; by rewrite B22, B12).
  destruct (park_total _ _ _ renames_key can_rename_key (map u_ID (renamedKeys res)) u2 c2 v2) as (u3 & c3 & v3 & P3 & U3 & S3 & A3).
  { intros id Hi. rewrite HKn, HK3. apply (renamed_present _ _ _ _ _ (so_keys _ Hst) (pn_keys _ _ _ _ _ _ Hpl) _ _ TK). rewrite RK, map_map. done. }
  { intros id n Hn. rewrite HKn, HK3 in Hn. apply S2, S1. eapply (rest_named _ _ _ TK); [|exact Hn]. intros n' Hn'. apply used_In. right; right; left.
    unfold currentKeyEntities in Hn'. by rewrite map_map in Hn'. }
  rewrite (st_run _ _ _ _ _ P3). destruct (park_Ok _ _ _ renames_key _ _ _ _ _ _ P3) as (B3 & _). injection B3 as B31 B32 B33 B34 B35.
  exists v3. split_and!; [done|congruence| | |].
  - intros id Hi. destruct (A1 id Hi) as (t & Ht & Hn). exists t. split; [|done]. unfold envNames in *. cbn in *. by rewrite B31, B21.
  - intros id Hi. destruct (A2 id Hi) as (t & Ht & Hn). exists t. split; [cbn in Ht; by rewrite B32|]. intros Hx. by apply Hn, S1.
  - intros id Hi. rewrite map_map in Hi. destruct (A3 id Hi) as (t & Ht & Hn). exists t. split; [done|]. intros Hx. by apply Hn, S2, S1.
Qed.
Lemma claims_used : (forall n, In n (EnvCreates res) -> n ∈ used) /\ (forall n, In n (GroupCreates res) -> n ∈ used) /\ (forall n, In n (map k_Name (KeyCreates res)) -> n ∈ used) /\
  (forall n, In n (map rn_To (EnvRenames res)) -> n ∈ used) /\ (forall n, In n (map rn_To (GroupRenames res)) -> n ∈ used) /\
  (forall n, In n (map rn_To (map keyRename (renamedKeys res))) -> n ∈ used).
Proof.
  split_and!; intros n Hn; apply used_In; [tauto..|]. do 8 right. rewrite map_map in Hn. apply in_map_iff in Hn as (u & <- & [Hu _]%filter_In).
  by apply (in_map (fun u => k_Name (u_Desired u))).
Qed.

Lemma topology_phase : draws res w3 -> exists em gm w', retopologize X res cur w3 = (Ok (em, gm), w').
Proof.
  intros [Hnd Hlen Hue Hug]. destruct park_phase as (w4 & P & U4 & PE & PG & PK). unfold retopologize. rewrite (st_run _ _ _ _ _ P).
  apply parkRenames_Ok in P as (SE & DE & _ & SG & DG & _ & SK & _). pose proof (env_topology b cur res eb gb kb Hpl Hst) as (NE1 & NE2 & NE3 & _).
  pose proof (group_topology b cur res eb gb kb Hpl Hst) as (NG1 & NG2 & NG3 & _). pose proof (key_topology b cur res eb gb kb Hpl Hst) as (NK1 & NK2).
  destruct (news_of _ _ _ _ _ (pn_env_topology _ _ _ _ _ _ Hpl)) as [CE RE]. destruct (news_of _ _ _ _ _ (pn_group_topology _ _ _ _ _ _ Hpl)) as [CG RG].
  destruct (news_of _ _ _ _ _ (pn_key_topology _ _ _ _ _ _ Hpl)) as [CK RK].
  destruct claims_used as (UE & UG & UK & UE' & UG' & UK').
  assert (forall u, In u (uuids w3) -> envNames (tablesOf w4) !! ("env" +:+ "_" +:+ u) = None) as FE.
  { intros u Hu. apply eq_None_not_Some. rewrite DE. unfold envNames. cbn [tablesOf t_envs]. rewrite lookup_fmap, (Hue u Hu). by intros []. }
  assert (forall u, In u (uuids w3) -> key_groups w4 !! ("kgr" +:+ "_" +:+ u) = None) as FG.
  { intros u Hu. apply eq_None_not_Some. rewrite DG, (Hug u Hu). by intros []. }
  rewrite HE3 in SE. rewrite HG3 in SG. rewrite HK3 in SK.
  assert (forall id, ~ In id (map rn_ID (map keyRename (renamedKeys res))) -> keyNames (tablesOf w4) !! id = without (map rf_ID (KeyDeletes res)) (keyNames (tablesOf w0)) !! id) as SK'
    by (intros id; rewrite map_map; apply SK). rewrite <- RE in PE, SE, UE', NE2, NE3 |- *. rewrite <- CE in UE, NE1 |- *. rewrite <- RG in PG, SG, UG', NG2, NG3 |- *. rewrite <- CG in UG, NG1 |- *.
  rewrite <- RK in PK, SK', UK', NK1, NK2 |- *. rewrite <- CK in UK.
  destruct (createNamed_total _ _ "env" createEnv EventNames.EventEnvCreated "environment" makes_env can_make_env _ (survivors (cs_Environments cur) (EnvDeletes res)) w4 NE1) as (em0 & w5 & H5 & U5).
  { rewrite U4, CE. lia. }
  { split; rewrite U4; [done|]. apply FE. }
  { intros n id Hn. apply (claimed_free _ _ _ _ _ (so_envs _ Hst) (pn_envs _ _ _ _ _ _ Hpl) HE _ _ used TE PE SE UE UE'). by left. }
  unfold createEnvs. rewrite (st_run _ _ _ _ _ H5). destruct (createNamed_Ok _ _ _ _ _ _ makes_env _ _ _ _ _ NE1 H5) as (fE & B5 & V5 & _ & F5 & S5 & _).
  injection B5 as B51 B52 _ _. rewrite U4 in U5.
  destruct (createNamed_total _ _ "kgr" CreateGroup EventNames.EventKeyGroupCreated "key_group" makes_group can_make_group _ (survivors (cs_KeyGroups cur) (GroupDeletes res)) w5 NG1) as (gm0 & w6 & H6 & _).
  { rewrite U5, length_drop, CE, CG. lia. }
  { split; rewrite U5; [|intros u Hu; cbn [tablesOf t_groups]; rewrite B51; apply FG].
    - rewrite <- (take_drop (length (topology (cs_Environments cur) (b_Environments b) eb).1) (uuids w3)) in Hnd. by apply NoDup_app in Hnd as (_ & _ & ?).
    - rewrite <- (take_drop (length (topology (cs_Environments cur) (b_Environments b) eb).1) (uuids w3)). apply in_app_iff. by right. }
  { intros n id Hn. cbn [tablesOf t_groups]. rewrite B51. apply (claimed_free _ _ _ _ _ (so_groups _ Hst) (pn_groups _ _ _ _ _ _ Hpl) HG _ _ used TG PG SG UG UG'). by left. }
  unfold createGroups. rewrite (st_run _ _ _ _ _ H6). destruct (createNamed_Ok _ _ _ _ _ _ makes_group _ _ _ _ _ NG1 H6) as (fG & B6 & V6 & _ & F6 & S6 & _).
  injection B6 as B61 B62 _ _. cbn [tablesOf t_groups] in V6, F6, S6. rewrite B51 in F6, S6.
  assert (envNames (tablesOf w6) = envNames (tablesOf w5)) as E6 by (unfold envNames; cbn; by rewrite B61).
  destruct (finishRenames_total _ _ (renameEnv X) EventNames.EventEnvRenamed "environment" (renames_env X) (can_rename_env X HX) _ em0 w6 NE2 NE3) as (em & w7 & H7 & _).
  { intros r Hr. rewrite E6, S5. - destruct (PE (rn_ID r)) as (t & Ht & _); [by apply in_map|by eexists].
    - intros Hf. destruct (F5 _ Hf) as [Hx _]. destruct (PE (rn_ID r)) as (t & Ht & _); [by apply in_map|congruence]. }
  { intros r id Hr. rewrite E6. by eapply (renames_free _ _ _ _ _ (so_envs _ Hst) (pn_envs _ _ _ _ _ _ Hpl) HE _ _ used TE PE SE UE UE'). }
  rewrite (st_run _ _ _ _ _ H7). destruct (finishRenames_Ok _ _ _ _ _ (renames_env X) _ _ _ _ _ NE2 NE3 H7) as (B7 & _). injection B7 as B71 B72 _ _.
  destruct (finishRenames_total _ _ RenameGroup EventNames.EventKeyGroupRenamed "key_group" renames_group can_rename_group _ gm0 w7 NG2 NG3) as (gm & w8 & H8 & _).
  { intros r Hr. cbn [tablesOf t_groups]. rewrite B71, S6. - destruct (PG (rn_ID r)) as (t & Ht & _); [by apply in_map|by eexists].
    - intros Hf. destruct (F6 _ Hf) as [Hx _]. destruct (PG (rn_ID r)) as (t & Ht & _); [by apply in_map|congruence]. }
  { intros r id Hr. cbn [tablesOf t_groups]. rewrite B71. by eapply (renames_free _ _ _ _ _ (so_groups _ Hst) (pn_groups _ _ _ _ _ _ Hpl) HG _ _ used TG PG SG UG UG'). }
  rewrite (st_run _ _ _ _ _ H8). destruct (finishRenames_Ok _ _ _ _ _ renames_group _ _ _ _ _ NG2 NG3 H8) as (B8 & _). injection B8 as _ B82 _ _.
  assert (keyNames (tablesOf w8) = keyNames (tablesOf w4)) as K8 by (unfold keyNames; cbn; congruence).
  destruct (finishRenames_total _ _ Catalogue_Rename EventNames.EventKeyRenamed "key" renames_key can_rename_key _ ∅ w8 NK1 NK2) as (km & w9 & H9 & _).
  { intros r Hr. rewrite K8. destruct (PK (rn_ID r)) as (t & Ht & _); [by apply in_map|by eexists]. }
  { intros r id Hr. rewrite K8. apply (claimed_free _ _ _ _ _ (so_keys _ Hst) (pn_keys _ _ _ _ _ _ Hpl) HK _ _ used TK PK SK' UK UK'). right. by apply in_map. }
  rewrite (st_run _ _ _ _ _ H9). by eexists _, _, _.
Qed.
End Phase.
(** C23. Renames never collide. From a project whose tables satisfy their
    constraints and a canonical bundle that resolves against it, once the deletes
    have run and the caller may rename environments: whatever swaps, rotations
    and hand-overs of names the bundle asks for, parking every renamed
    identity on a reserved name, creating the new environments and groups and
    then writing the final names all succeed; no intermediate state
    violates the uniqueness of names, and the search for a reserved name ends.
    The identifiers drawn have to be new and enough. *)
Theorem renames_never_conflict X size src b w cur res w1 w2 w3 : world_ok w -> Canonicalize size src = Ok b -> buildCurrentState w = Ok cur -> Resolve b cur = Ok res ->
  may_rename X -> deleteKeys (KeyDeletes res) w = (Ok (), w1) -> deleteGroups (GroupDeletes res) w1 = (Ok (), w2) -> deleteEnvironments X (EnvDeletes res) w2 = (Ok (), w3) ->
  draws res w3 -> exists envIDByName groupIDByName w', retopologize X res cur w3 = (Ok (envIDByName, groupIDByName), w').
Proof.
  intros Hw Hcan Hcur%buildCurrentState_Ok Hres HX H1%deleteKeys_Ok H2%deleteGroups_Ok [H3 _]%deleteEnvironments_Ok Hdr.
  pose proof (world_state_ok _ _ Hw Hcur) as Hst. destruct (resolve_planned _ _ _ Hst Hres) as (eb & gb & kb & Hpl). pose proof (canonical_no_ids _ _ _ Hcan) as Hno.
  injection H1 as A1 A2 A3 _ _. injection H2 as B1 B2 B3 _ _. injection H3 as C1 C2 C3 _ _.
  apply (topology_phase X b cur res eb gb kb w w3); [done..|by intros Ha; apply (Hno Ha)|by intros Ha; apply (Hno Ha)|by intros Ha; apply (Hno Ha)| |congruence| |done].
  - unfold envNames. cbn [tablesOf t_envs]. by rewrite C1, B1, A1, fmap_without.
  - unfold keyNames. cbn [tablesOf t_keys]. by rewrite C3, B3, A3, keyNames_clear, fmap_without.
Qed.
End Progress.
