(* ===== verification/DefinitionsRun.v ===== *)
(** * A project's definitions in use

    A concrete project and a concrete plan: two environments swap their names,
    one key takes the name another gives up, a group is renamed and its old name
    taken by a new one, a key is deleted with its values. *)

From S2P Require Import Prelude Domain Schema AuditEvent Definitions DefinitionsSpec DefinitionsExport DefinitionsStore DefinitionsApply DefinitionsSteps DefinitionsMatch DefinitionsClaims DefinitionsService DefinitionsProgress.

#[local] Open Scope Z_scope.

(** Declarations as their own text. *)
Lemma text_stored (d n : string) : Ok d = Ok n ->
  exists s, Ok n = Ok s /\ Ok d = Ok s /\ Ok n = Ok s /\ exists d', Ok s = Ok d' /\ Ok d' = Ok s.
Proof. intros [= <-]. exists d. split_and!; [done..|]. by exists d. Qed.

#[local] Instance textCodec : DeclarationCodec := {|
  decl := string;
  CompileClassified := fun _ d => Ok d;
  compiledCanonical := fun d => Ok d;
  ParseDeclaration := fun s => Ok s;
  Canonical := fun d => Ok d;
  codec_stored := fun _ => text_stored |}.

Definition none : Presence := MkPresence PresenceNone [].
Definition explicit (l : list string) : Presence := MkPresence PresenceExplicit l.

Definition row (name declaration reqMode group : string) : CatalogueKey :=
  MkCatalogueKey name "" Secret "" false "" declaration reqMode PresenceNone group.

Definition noPreview : PlanDiff := let none := MkKindDiff [] [] [] [] in MkPlanDiff none none none [] [] [].

Definition desired (b : Bundle) : DefinitionsPlan :=
  MkPlan 100 b "digest" 7 (list_to_map [("env_1", 3); ("env_2", 0)]) [MkProtectedPin "env_1" "prod"] noPreview (Additive b) false 0 "" "" "" "".

(** [env_1] is live and protected; [key_1] is required in both environments. *)
Definition project (b : Bundle) : World := {|
  environments := list_to_map [("env_1", MkEnv "prod" 0 true); ("env_2", MkEnv "stage" 1 false)];
  key_groups := list_to_map [("kgr_1", "database")];
  keys := list_to_map [("key_1", row "DB_URL" "url" PresenceExplicit "kgr_1"); ("key_2", row "DB_PASSWORD" "string" PresenceNone "kgr_1");
                       ("key_3", row "OLD" "string" PresenceExplicit "")];
  key_presence := [MkKeyPresence "key_1" "env_1" "required"; MkKeyPresence "key_1" "env_2" "required"; MkKeyPresence "key_3" "env_2" "required"];
  value_entries := [("env_1", "key_1"); ("env_1", "key_3")];
  pending_changes := [("env_1", "key_3")];
  scanning_dismissals := ["key_3"];
  snapshots := [("env_1", 2); ("env_1", 3)];
  revision_pins := []; other_env_refs := []; adapter_pins := []; grants := []; generations := ∅;
  schema_revision := 7;
  plans := list_to_map [("dpl_1", desired b)];
  tenant_audit := []; uuids := ["a"; "b"; "c"; "d"; "e"]; captured := []; definitions_source := "git" |}.

(** The environments swap names; [DB_URL] and [DB_PASSWORD] rotate through a new
    key; the group moves over for a new one; [OLD] goes. *)
Definition bundle : Bundle := {|
  b_FormatVersion := FormatVersion; b_BaseRevision := Some 7;
  b_Environments := [MkEntity "env_2" "prod"; MkEntity "env_1" "stage"];
  b_KeyGroups := [MkEntity "" "database"; MkEntity "kgr_1" "storage"];
  b_Keys := [
    MkKey "key_1" "DB_PASSWORD" "" Secret "" false "" "storage" "url" (explicit ["prod"; "stage"]) none;
    MkKey "" "DB_TOKEN" "" Secret "" false "" "database" "string" (explicit ["stage"]) none;
    MkKey "key_2" "DB_URL" "db" Secret "" false "" "" "string" (explicit ["prod"]) none] |}.

Definition context : ApplyContext := {|
  ax_now := 50; ax_principal := "usr_1"; ax_authorize := fun _ _ => Ok (); ax_gateAllows := fun _ => true; ax_charge := Ok ();
  ax_scan := Ok []; ax_digest := fun _ => "digest"; ax_encodedSize := fun _ => 0; ax_entry := fun _ => Ok (); ax_findings := fun _ => Ok []; ax_fanOut := mret () |}.

Definition options : ApplyOptions := MkOptions true "digest" "c0ffee" "main" "ci".

Definition outcome : result ApplyResult * World := ApplyDefinitions context "dpl_1" options (project bundle).

(** ** The constraints hold *)
Lemma rows_of {A} (l : list (string * A)) id a : (list_to_map l : gmap string A) !! id = Some a -> In (id, a) l.
Proof. intros Hl. by apply list_elem_of_In, elem_of_list_to_map_2. Qed.

Ltac rows H := apply rows_of in H; cbn in H; repeat (destruct H as [H|H]; [injection H as <- <-|]); [.. |done].

Lemma unique_rows (l : list (string * string)) : NoDup (map snd l) -> unique (list_to_map l).
Proof.
  intros Hn i j n Hi%rows_of Hj%rows_of. revert Hn Hi Hj. induction l as [|[x y] l IH]; [done|]. cbn [map snd]. intros [Hx Hn]%NoDup_cons.
  rewrite list_elem_of_In in Hx. intros [He|Hi] [Hf|Hj]; [congruence|injection He as -> ->|injection Hf as -> ->|by apply IH].
  - exfalso. apply Hx, (in_map snd _ _ Hj).
  - exfalso. apply Hx, (in_map snd _ _ Hi).
Qed.

Lemma project_ok b : world_ok (project b).
Proof.
  split; cbn [project environments key_groups keys key_presence].
  - apply (unique_rows [("env_1", "prod"); ("env_2", "stage")]). by apply (bool_decide_unpack _).
  - apply unique_rows. by apply (bool_decide_unpack _).
  - apply (unique_rows [("key_1", "DB_URL"); ("key_2", "DB_PASSWORD"); ("key_3", "OLD")]). by apply (bool_decide_unpack _).
  - intros id [e He]. rows He; by split.
  - intros id [e He]. rows He; by split.
  - intros id [e He]. rows He; by split.
  - intros id e He. rows He; cbn; [right|right|left]; by vm_compute; eexists.
  - intros r Hr. cbn in Hr. repeat (destruct Hr as [<-|Hr]); [by vm_compute; eexists..|done].
  - by apply (bool_decide_unpack _).
Qed.

Lemma bundle_canonical : plan_canonical (project bundle) "dpl_1".
Proof. intros plan [= <-]. exists (fun _ => 0), bundle. by vm_compute. Qed.

Lemma context_publishes : publishes context.
Proof. split; [apply keeps_ret|]. by intros v a v' [= _ <-]. Qed.

(** ** Witnesses *)
Lemma apply_converges_witness : exists plan cur res, plans (project bundle) !! "dpl_1" = Some plan /\
  buildCurrentState outcome.2 = Ok cur /\ Resolve (pl_Bundle plan) cur = Ok res /\ Empty res = true.
Proof.
  apply (apply_converges context "dpl_1" options (project bundle) (MkApplyResult 8 ["stage"; "prod"] "dpl_1") outcome.2);
    [apply project_ok|apply bundle_canonical|apply context_publishes|by vm_compute].
Defined.

Lemma apply_safe_witness : is_Some (environments outcome.2 !! "env_1") /\
  exists row, keys outcome.2 !! "key_1" = Some row /\ ca_Classification row = Secret.
Proof.
  destruct (apply_safe context "dpl_1" options (project bundle) (MkApplyResult 8 ["stage"; "prod"] "dpl_1") outcome.2) as (_ & Henv & Hcls);
    [apply project_ok|apply bundle_canonical|apply context_publishes| |by vm_compute|].
  - intros e k Hin. cbn in Hin. repeat (destruct Hin as [[= <- <-]|Hin]); [by split; vm_compute; eexists..|done].
  - split; [apply (Henv "env_1" "key_1"); by left|]. apply (Hcls "env_1" "key_1" (row "DB_URL" "url" PresenceExplicit "kgr_1")); [|done..]. vm_compute. by left.
Defined.

Definition current : CurrentState := match buildCurrentState (project bundle) with Ok cur => cur | _ => MkCurrent 0 [] [] [] end.
Definition exported : Bundle := match Canonicalize (fun _ => 0) (bundleFromState current true) with Ok b => b | _ => bundle end.

Lemma export_is_equal_witness : map k_Name (b_Keys exported) = ["DB_PASSWORD"; "DB_URL"; "OLD"] /\
  Compare exported current = Ok (DriftEqual, noDrift) /\ Resolve exported current = Ok (noChange false).
Proof.
  split; [by vm_compute|]. apply (export_is_equal current true (fun _ => 0)); [|by vm_compute].
  apply (world_exportable (project bundle)); [apply project_ok| |by vm_compute]. intros id n Hn. by rows Hn.
Defined.

Definition planned : result PlanView * World := PlanDefinitions context bundle (project bundle).
Definition view : PlanView := match planned.1 with Ok v => v | _ => MkPlanView "" "" None 0 false 0 [] noPreview false [] end.

Lemma plan_is_fresh_witness : pd_KeyDeletions (pv_Diff view) = [MkKeyDeletion "OLD" ["prod"]] /\
  exists plan cur, plans planned.2 !! pv_ID view = Some plan /\ pl_Bundle plan = bundle /\ pl_Applied plan = false /\ planViewOf (pv_ID view) plan = view /\
    buildCurrentState planned.2 = Ok cur /\ recheckPins context (pv_ID view) plan cur (pv_Digest view) planned.2 = (Ok (), planned.2).
Proof. split; [by vm_compute|]. apply (plan_is_fresh context bundle (project bundle) view planned.2). by vm_compute. Defined.

Lemma applied_plan_is_spent_witness : exists plan, plans (project bundle) !! "dpl_1" = Some plan /\ pl_Applied plan = false /\ schema_revision (project bundle) = pl_BaseSchemaRevision plan /\
  ((outcome.2 = project bundle /\ 8 = pl_BaseSchemaRevision plan) \/
   (8 = pl_BaseSchemaRevision plan + 1 /\ schema_revision outcome.2 = 8 /\
    exists plan', plans outcome.2 !! "dpl_1" = Some plan' /\ pl_Applied plan' = true /\ la_Revision (lastApplyOf "dpl_1" plan') = 8 /\
      forall X' opts' r' w'', ApplyDefinitions X' "dpl_1" opts' outcome.2 <> (Ok r', w''))).
Proof. apply (applied_plan_is_spent context "dpl_1" options (project bundle) (MkApplyResult 8 ["stage"; "prod"] "dpl_1") outcome.2); [apply context_publishes|by vm_compute]. Defined.

Definition resolution : Resolution := match Resolve bundle current with Ok res => res | _ => noChange false end.
Definition afterKeys : World := (deleteKeys (KeyDeletes resolution) (project bundle)).2.

Lemma renames_never_conflict_witness : map rn_To (EnvRenames resolution) = ["prod"; "stage"] /\
  exists em gm w', retopologize context resolution current afterKeys = (Ok (em, gm), w').
Proof.
  split; [by vm_compute|]. apply (renames_never_conflict context (fun _ => 0) bundle bundle (project bundle) current resolution afterKeys afterKeys afterKeys);
    [apply project_ok|by vm_compute|by vm_compute|by vm_compute|done|by vm_compute|by vm_compute|by vm_compute|].
  assert (uuids afterKeys = ["a"; "b"; "c"; "d"; "e"]) as Hids by (by vm_compute). split; rewrite Hids.
  - by apply (bool_decide_unpack _).
  - by vm_compute; lia.
  - intros u [<-|[<-|[<-|[<-|[<-|[]]]]]]; by vm_compute.
  - intros u [<-|[<-|[<-|[<-|[<-|[]]]]]]; by vm_compute.
Defined.
