(* ===== verification/Delivery.v ===== *)
(** * The encodings of the fetch path

    [internal/delivery]: the manifest a change token covers, the tuple a
    conditional cursor is bound to, the occurrence of an import, and the
    loader-control rule. Recompute-and-compare is sound exactly when the encodings
    separate what they must separate and nothing else; that is proved here. *)

From stdpp Require Import sorting.
From S2P Require Import Prelude Utf8 GoStrings Schema Envelope Definitions DefinitionsSpec.
From Stdlib Require Import Ascii.

#[local] Open Scope Z_scope.

(** ** [encoding/binary] *)

(** Seven bits at a time, the low ones first; nine continuation bytes are enough
    for 64 bits. *)
Fixpoint putUvarint (fuel : nat) (x : Z) : bytes :=
  match fuel with
  | O => [chr x]
  | S k => if x <? 128 then [chr x] else chr (Z.lor (x mod 256) 128) :: putUvarint k (Z.shiftr x 7)
  end.
Definition AppendUvarint (dst : bytes) (x : Z) : bytes := dst ++ putUvarint 9 (x mod 2 ^ 64).
(** Zig-zag: the sign in the lowest bit. *)
Definition AppendVarint (dst : bytes) (x : Z) : bytes :=
  let ux := Z.shiftl x 1 mod 2 ^ 64 in
  AppendUvarint dst (if x <? 0 then 2 ^ 64 - 1 - ux else ux).

Definition appendField (dst s : bytes) : bytes := AppendUvarint dst (blen s) ++ s.

(** ** The manifest *)
Definition ManifestVersion : string := "v1".
Definition MaxAcknowledgedKeys : Z := 64.
Record Row := MkDeliveryRow { dr_Key : string; dr_Classification : string; dr_Value : bytes }.

Definition appendRow (out : bytes) (r : Row) : bytes := appendField (appendField (appendField out (B (dr_Key r))) (B (dr_Classification r))) (dr_Value r).
Definition Manifest (rows : list Row) : bytes :=
  let sorted := sortBy dr_Key rows in
  foldl appendRow (AppendUvarint (appendField [] (B ManifestVersion)) (Z.of_nat (length sorted))) sorted.

(** ** The cursor *)
Definition ModeFull : string := "full".
Definition ModeConfigOnly : string := "config-only".
Definition NormalizeMode (m : string) : string := if m =s "" then ModeFull else m.

Record Cursor := MkCursor {
  cu_ChangeToken : string; cu_Projection : list string; cu_AuthorizationRevision : Z; cu_PinGeneration : Z; cu_Mode : string;
  cu_PinnedHistoricalRevision : Z }.
Definition CursorVersion : string := "v1".

(** [slices.Sort] and [slices.Compact]: adjacent repetitions go. *)
Fixpoint compactAdjacent (l : list string) : list string :=
  match l with
  | a :: (b :: _) as rest => if a =s b then compactAdjacent rest else a :: compactAdjacent rest
  | _ => l
  end.
Definition sortedProjection (l : list string) : list string := compactAdjacent (sortStrings l).

Definition EncodeCursor (c : Cursor) : bytes :=
  let projection := sortedProjection (cu_Projection c) in
  let out := appendField (appendField [] (B CursorVersion)) (B (cu_ChangeToken c)) in
  let out := appendField out (B (NormalizeMode (cu_Mode c))) in
  let out := foldl (fun out p => appendField out (B p)) (AppendUvarint out (Z.of_nat (length projection))) projection in
  AppendVarint (AppendVarint (AppendVarint out (cu_AuthorizationRevision c)) (cu_PinGeneration c)) (cu_PinnedHistoricalRevision c).

(** ** The occurrence of an import *)
Definition OccurrenceVersion : string := "v1".
Record Occurrence := MkOccurrence {
  oc_Declared : bool; oc_Name : string; oc_KeyID : string; oc_EntryID : string; oc_Classification : string; oc_Declaration : string;
  oc_IntendedClassification : string; oc_IntendedType : string }.

Definition EncodeOccurrence (o : Occurrence) : bytes :=
  let kind := if oc_Declared o then "declared" else "undeclared" in
  let out := appendField (appendField (appendField [] (B OccurrenceVersion)) (B kind)) (B (oc_Name o)) in
  if negb (oc_Declared o) then appendField (appendField out (B (oc_IntendedClassification o))) (B (oc_IntendedType o))
  else appendField (appendField (appendField (appendField out (B (oc_KeyID o))) (B (oc_EntryID o))) (B (oc_Classification o))) (B (oc_Declaration o)).

(** ** Loader control *)
Definition loaderControlPrefixes : list string := ["LD_"; "GIT_"].
Definition loaderControlExact : list string :=
  ["PATH"; "IFS"; "ENV"; "BASH_ENV"; "SHELLOPTS"; "NODE_OPTIONS"; "PYTHONSTARTUP"; "PYTHONPATH"; "PERL5OPT"; "PERL5LIB"; "RUBYOPT"; "RUBYLIB";
   "JAVA_TOOL_OPTIONS"; "_JAVA_OPTIONS"; "JDK_JAVA_OPTIONS"; "CLASSPATH"; "SSL_CERT_FILE"; "SSL_CERT_DIR"; "CURL_CA_BUNDLE"; "REQUESTS_CA_BUNDLE";
   "NODE_EXTRA_CA_CERTS"].
Definition IsLoaderControlKey (name : string) : bool :=
  contains loaderControlExact name || existsb (fun p => String.prefix p name) loaderControlPrefixes.

(** The first occurrences, in order, of the names that satisfy the test. *)
Fixpoint firstSeen (keep : string -> bool) (seen : gset string) (l : list string) : list string :=
  match l with
  | [] => []
  | a :: rest => if keep a && negb (bool_decide (a ∈ seen)) then a :: firstSeen keep ({[ a ]} ∪ seen) rest else firstSeen keep seen rest
  end.
Definition ackCount (acknowledged : list string) (a : string) : nat := length (List.filter (String.eqb a) acknowledged).
Definition Unacknowledged (mapped acknowledged : list string) : list string * list string :=
  let mappedLC := List.filter IsLoaderControlKey mapped in
  let refused := firstSeen (fun m => IsLoaderControlKey m && negb (contains acknowledged m)) ∅ mapped in
  let extraAcks := firstSeen (fun a => negb (contains mappedLC a) || (1 <? ackCount acknowledged a)%nat) ∅ acknowledged in
  (sortStrings refused, sortStrings extraAcks).

(** ** Varints *)
Definition uint64 (x : Z) : Prop := 0 <= x < 2 ^ 64.
Definition int64 (x : Z) : Prop := - 2 ^ 63 <= x < 2 ^ 63.

Lemma continuation x : Z.lor (x mod 256) 128 = 128 + x mod 128.
Proof.
  assert (forall n, (n < 256)%nat -> Z.lor (Z.of_nat n) 128 = 128 + Z.of_nat n mod 128) as Hall.
  { intros n Hn. assert (Forall (fun n => Z.lor (Z.of_nat n) 128 = 128 + Z.of_nat n mod 128) (seq 0 256)) as Hf by (apply (bool_decide_unpack _); vm_compute; exact I).
    rewrite Forall_forall in Hf. apply Hf, elem_of_seq. lia. }
  pose proof (Z.mod_pos_bound x 256 ltac:(lia)) as Hb. specialize (Hall (Z.to_nat (x mod 256)) ltac:(lia)). rewrite Z2Nat.id in Hall by lia. rewrite Hall.
  f_equal. symmetry. apply Znumtheory.Zmod_div_mod; [lia|lia|]. by exists 2.
Qed.

Lemma putUvarint_inj k : forall x y t u, 0 <= x < 2 ^ (7 * (Z.of_nat k + 1)) -> 0 <= y < 2 ^ (7 * (Z.of_nat k + 1)) ->
  putUvarint k x ++ t = putUvarint k y ++ u -> x = y /\ t = u.
Proof.
  induction k as [|k IH]; intros x y t u Hx Hy.
  - cbn in *. intros [= He ->]. apply (f_equal ord) in He. rewrite !ord_chr in He by lia. done.
  - cbn [putUvarint]. rewrite !continuation. pose proof (Z.mod_pos_bound x 128 ltac:(lia)). pose proof (Z.mod_pos_bound y 128 ltac:(lia)).
    destruct (Z.ltb_spec x 128) as [Hx1|Hx1], (Z.ltb_spec y 128) as [Hy1|Hy1]; cbn [app]; intros [= He Ht]; apply (f_equal ord) in He; rewrite !ord_chr in He by lia; [done|lia|lia|].
    rewrite !Z.shiftr_div_pow2 in Ht by lia. change (2 ^ 7) with 128 in Ht.
    assert (2 ^ (7 * (Z.of_nat (S k) + 1)) = 128 * 2 ^ (7 * (Z.of_nat k + 1))) as Hp by (rewrite Nat2Z.inj_succ; replace (7 * (Z.succ (Z.of_nat k) + 1)) with (7 + 7 * (Z.of_nat k + 1)) by lia; rewrite Z.pow_add_r by lia; done).
    apply IH in Ht as [Hd ->]; [split; [|done]; rewrite (Z.div_mod x 128), (Z.div_mod y 128) by lia; lia|..];
      (split; [apply Z.div_pos; lia|apply Z.div_lt_upper_bound; lia]).
Qed.

Lemma uvarint_inj x y t u : uint64 x -> uint64 y -> AppendUvarint [] x ++ t = AppendUvarint [] y ++ u -> x = y /\ t = u.
Proof.
  unfold uint64, AppendUvarint. intros Hx Hy. cbn [app]. rewrite !Z.mod_small by lia. apply putUvarint_inj; cbn; lia.
Qed.
Lemma AppendUvarint_app dst x : AppendUvarint dst x = dst ++ AppendUvarint [] x.
Proof. done. Qed.

Definition zigzag (x : Z) : Z := if x <? 0 then 2 ^ 64 - 1 - Z.shiftl x 1 mod 2 ^ 64 else Z.shiftl x 1 mod 2 ^ 64.
Lemma zigzag_eq x : int64 x -> zigzag x = if x <? 0 then -2 * x - 1 else 2 * x.
Proof.
  unfold zigzag, int64. intros Hx. rewrite Z.shiftl_mul_pow2 by lia. change (2 ^ 1) with 2. destruct (Z.ltb_spec x 0).
  - replace (x * 2) with (x * 2 + 2 ^ 64 + -1 * 2 ^ 64) by lia. rewrite Z.mod_add, Z.mod_small by lia. lia.
  - rewrite Z.mod_small by lia. lia.
Qed.
Lemma varint_inj x y t u : int64 x -> int64 y -> AppendVarint [] x ++ t = AppendVarint [] y ++ u -> x = y /\ t = u.
Proof.
  unfold AppendVarint. fold (zigzag x) (zigzag y). intros Hx Hy He.
  assert (forall z, int64 z -> uint64 (zigzag z)) as Hz by (intros z Hz; rewrite zigzag_eq by done; unfold int64, uint64 in *; destruct (Z.ltb_spec z 0); lia).
  apply uvarint_inj in He as [He ->]; [|by apply Hz..]. split; [|done]. rewrite !zigzag_eq in He by done. destruct (Z.ltb_spec x 0), (Z.ltb_spec y 0); lia.
Qed.
Lemma AppendVarint_app dst x : AppendVarint dst x = dst ++ AppendVarint [] x.
Proof. done. Qed.

(** ** Fields *)

(** A Go string's length is an [int]. *)
Definition sized (s : bytes) : Prop := blen s < 2 ^ 63.

Lemma appendField_app dst s : appendField dst s = dst ++ appendField [] s.
Proof. unfold appendField, AppendUvarint. cbn [app]. by rewrite app_assoc. Qed.
Lemma field_inj s s' t u : sized s -> sized s' -> appendField [] s ++ t = appendField [] s' ++ u -> s = s' /\ t = u.
Proof.
  unfold appendField, sized, blen. intros Hs Hs'. rewrite <- !app_assoc. intros [Hl He]%uvarint_inj; [|unfold uint64; lia..]. apply app_inj_1 in He; [done|lia].
Qed.
Lemma B_inj s s' : B s = B s' -> s = s'.
Proof. intros He. rewrite <- (String.string_of_list_ascii_of_string s), <- (String.string_of_list_ascii_of_string s'). unfold B in He. by rewrite He. Qed.
Lemma text_inj s s' t u : sized (B s) -> sized (B s') -> appendField [] (B s) ++ t = appendField [] (B s') ++ u -> s = s' /\ t = u.
Proof. intros Hs Hs' [He ->]%field_inj; [|done|done]. split; [by apply B_inj|done]. Qed.

(** ** Order *)
Lemma leb_trans a b c : String.leb a b = true -> String.leb b c = true -> String.leb a c = true.
Proof.
  unfold String.leb. revert b c. induction a as [|x a IH]; intros [|y b] [|z c]; cbn; try done.
  unfold Ascii.compare. destruct (N.compare_spec (N_of_ascii x) (N_of_ascii y)) as [Hxy|Hxy|Hxy], (N.compare_spec (N_of_ascii y) (N_of_ascii z)) as [Hyz|Hyz|Hyz],
    (N.compare_spec (N_of_ascii x) (N_of_ascii z)) as [Hxz|Hxz|Hxz]; try done; try lia. apply IH.
Qed.

Section Sorted.
Context {A : Type} (key : A -> string).
Let R (x y : A) : Prop := String.leb (key x) (key y) = true.

Lemma insertLe_sorted x l : StronglySorted R l -> StronglySorted R (insertLe (fun x y => String.leb (key x) (key y)) x l).
Proof.
  induction 1 as [|y l Hl IH Hy]; cbn [insertLe]; [repeat constructor|]. destruct (String.leb (key x) (key y)) eqn:Hle.
  - constructor; [by constructor|]. constructor; [done|]. eapply Forall_impl; [exact Hy|]. intros z Hz. by eapply leb_trans.
  - constructor; [done|]. rewrite (insertLe_perm _ x l). constructor; [|done]. destruct (String.leb_total (key x) (key y)); [congruence|done].
Qed.
Lemma sortBy_sorted l : StronglySorted R (sortBy key l).
Proof. induction l as [|x l IH]; [constructor|]. by apply insertLe_sorted. Qed.

(** Sorting forgets the order and nothing else. *)
Lemma sortBy_canonical l l' : NoDup (map key l) -> Permutation l l' -> sortBy key l = sortBy key l'.
Proof.
  intros Hnd Hp. apply (StronglySorted_unique_strong R); [|apply sortBy_sorted..|].
  - intros x y Hx%list_elem_of_In Hy%list_elem_of_In Hxy Hyx. apply (Permutation_in _ (isort_perm _ _)) in Hx, Hy. apply (Permutation_in _ (Permutation_sym Hp)) in Hy.
    apply (NoDup_map_inj key l); [done..|]. by apply String.leb_antisym.
  - etransitivity; [apply isort_perm|]. etransitivity; [exact Hp|]. symmetry. apply isort_perm.
Qed.
End Sorted.

(** ** The manifest covers the content *)
Definition rowBytes (r : Row) : bytes := appendField [] (B (dr_Key r)) ++ appendField [] (B (dr_Classification r)) ++ appendField [] (dr_Value r).
Definition row_sized (r : Row) : Prop := sized (B (dr_Key r)) /\ sized (B (dr_Classification r)) /\ sized (dr_Value r).

Lemma rowBytes_inj r r' t u : row_sized r -> row_sized r' -> rowBytes r ++ t = rowBytes r' ++ u -> r = r' /\ t = u.
Proof.
  intros (K & C & V) (K' & C' & V'). unfold rowBytes. rewrite <- !app_assoc. intros [Hk [Hc [Hv ->]%field_inj]%text_inj]%text_inj; try done. destruct r, r'; cbn in *; by subst.
Qed.
Lemma appendRows_eq rows : forall out, foldl appendRow out rows = out ++ concat (map rowBytes rows).
Proof.
  induction rows as [|r rows IH]; intros out; cbn [foldl map concat]; [by rewrite app_nil_r|]. rewrite IH. unfold appendRow, rowBytes.
  rewrite (appendField_app (appendField (appendField _ _) _)), (appendField_app (appendField _ _)), (appendField_app out). by rewrite <- !app_assoc.
Qed.
Lemma rowsBytes_inj rows : forall rows', length rows = length rows' -> Forall row_sized rows -> Forall row_sized rows' ->
  concat (map rowBytes rows) = concat (map rowBytes rows') -> rows = rows'.
Proof.
  induction rows as [|r rows IH]; intros [|r' rows'] Hl Hs Hs'; [done..|]. cbn [map concat]. inversion Hs; inversion Hs'; subst. intros [-> Ht]%rowBytes_inj; [|done|done].
  f_equal. apply IH; [by injection Hl|done|done|done].
Qed.

(** What a fetch of an environment delivers: a row per key. *)
Record delivery (rows : list Row) : Prop := {
  de_keys : NoDup (map dr_Key rows);
  de_sized : Forall row_sized rows;
  de_length : Z.of_nat (length rows) < 2 ^ 63 }.

(** C19. The manifest moves exactly when the delivered content does. Two deliveries
    have the same canonical encoding, whatever order their rows are read in, if
    and only if they are the same rows: the same keys with the same
    classifications and the same values. So a keyed token over it cannot miss a
    change, and does not move without one. *)
Theorem manifest_covers_content (rows rows' : list Row) : delivery rows -> delivery rows' -> Manifest rows = Manifest rows' <-> Permutation rows rows'.
Proof.
  intros [K S L] [K' S' L']. unfold Manifest. rewrite !appendRows_eq. rewrite !(AppendUvarint_app (appendField _ _)). rewrite <- !app_assoc.
  pose proof (isort_perm (fun x y => String.leb (dr_Key x) (dr_Key y)) rows) as Hp. pose proof (isort_perm (fun x y => String.leb (dr_Key x) (dr_Key y)) rows') as Hp'.
  fold (sortBy dr_Key rows) in Hp. fold (sortBy dr_Key rows') in Hp'. split.
  - intros [Hl He]%app_inv_head%uvarint_inj; [|rewrite ?Hp, ?Hp'; unfold uint64; lia..]. apply rowsBytes_inj in He; [|lia|by rewrite Hp|by rewrite Hp'].
    by rewrite <- Hp, <- Hp', He.
  - intros Hperm. by rewrite (sortBy_canonical dr_Key rows rows').
Qed.

Lemma manifest_covers_content_witness :
  let rows := [MkDeliveryRow "A" "config" (B "1"); MkDeliveryRow "B" "secret" (B "2")] in
  Manifest rows = Manifest (rev rows) /\ Manifest rows <> Manifest [MkDeliveryRow "A" "secret" (B "1"); MkDeliveryRow "B" "secret" (B "2")].
Proof.
  intros rows. assert (delivery rows /\ delivery (rev rows) /\ delivery [MkDeliveryRow "A" "secret" (B "1"); MkDeliveryRow "B" "secret" (B "2")]) as (H1 & H2 & H3).
  { split_and!; (split; [apply (bool_decide_unpack _); vm_compute; exact I|repeat constructor|reflexivity]). }
  split; [apply (manifest_covers_content rows (rev rows) H1 H2); apply Permutation_rev|]. intros He.
  apply (manifest_covers_content rows _ H1 H3) in He. apply (Permutation_in (MkDeliveryRow "A" "config" (B "1"))) in He; [|by left]. cbn in He. destruct He as [He|[He|[]]]; discriminate He.
Defined.

(** ** The cursor is bound to its tuple *)
Lemma compactAdjacent_In l x : In x (compactAdjacent l) <-> In x l.
Proof.
  induction l as [|a [|b l] IH]; [done..|]. change (compactAdjacent (a :: b :: l)) with (if a =s b then compactAdjacent (b :: l) else a :: compactAdjacent (b :: l)).
  destruct (String.eqb_spec a b) as [->|Hne]; [rewrite IH; cbn; tauto|]. cbn [In]. rewrite IH. done.
Qed.
Lemma compactAdjacent_sorted l : StronglySorted (fun x y => String.leb x y = true) l -> StronglySorted (fun x y => String.leb x y = true) (compactAdjacent l) /\ NoDup (compactAdjacent l).
Proof.
  induction l as [|a [|b l] IH]; intros Hs; [split; constructor|split; [done|apply NoDup_singleton]|]. inversion Hs as [|? ? Hs' Ha]; subst. destruct (IH Hs') as [IHs IHn].
  change (compactAdjacent (a :: b :: l)) with (if a =s b then compactAdjacent (b :: l) else a :: compactAdjacent (b :: l)). destruct (String.eqb_spec a b) as [->|Hne]; [done|]. split.
  - constructor; [done|]. apply Forall_forall. intros x. rewrite list_elem_of_In, compactAdjacent_In, <- list_elem_of_In. rewrite Forall_forall in Ha. apply Ha.
  - constructor; [|done]. rewrite list_elem_of_In, compactAdjacent_In. intros Hin. inversion Hs' as [|? ? _ Hb]; subst. destruct Hin as [->|Hin]; [done|].
    rewrite Forall_forall in Hb. specialize (Hb a ltac:(by apply list_elem_of_In)). apply Hne, String.leb_antisym; [|done]. by inversion Ha.
Qed.
Lemma sortedProjection_eq l l' : sortedProjection l = sortedProjection l' <-> forall x, In x l <-> In x l'.
Proof.
  assert (forall l x, In x (sortedProjection l) <-> In x l) as Hin.
  { intros k x. unfold sortedProjection, sortStrings. rewrite compactAdjacent_In. split; [apply (Permutation_in _ (isort_perm _ _))|apply (Permutation_in _ (Permutation_sym (isort_perm _ _)))]. }
  split; [intros He x; by rewrite <- (Hin l), <- (Hin l'), He|]. intros Heq.
  assert (forall k, StronglySorted (fun x y => String.leb x y = true) (sortedProjection k) /\ NoDup (sortedProjection k)) as Hs by (intros k; apply compactAdjacent_sorted, (sortBy_sorted (fun x => x))).
  apply (StronglySorted_unique_strong (fun x y => String.leb x y = true)); [|apply Hs..|].
  - intros x y _ _ Hxy Hyx. by apply String.leb_antisym.
  - apply NoDup_Permutation; [apply Hs..|]. intros x. rewrite !list_elem_of_In, !Hin. apply Heq.
Qed.

Definition projectionBytes (l : list string) : bytes := concat (map (fun p => appendField [] (B p)) l).
Lemma appendProjection_eq l : forall out, foldl (fun out p => appendField out (B p)) out l = out ++ projectionBytes l.
Proof. induction l as [|p l IH]; intros out; unfold projectionBytes; cbn; [by rewrite app_nil_r|]. rewrite IH, (appendField_app out). by rewrite <- app_assoc. Qed.
Lemma projectionBytes_inj l : forall l' t u, length l = length l' -> Forall (fun p => sized (B p)) l -> Forall (fun p => sized (B p)) l' ->
  projectionBytes l ++ t = projectionBytes l' ++ u -> l = l' /\ t = u.
Proof.
  induction l as [|p l IH]; intros [|p' l'] t u Hl Hs Hs'; [done..|]. unfold projectionBytes. cbn [map concat]. rewrite <- !app_assoc. inversion Hs; inversion Hs'; subst.
  intros [-> Ht]%text_inj; [|done|done]. destruct (IH l' t u) as [-> ->]; [by injection Hl|done|done|done|done].
Qed.

Record cursor_sized (c : Cursor) : Prop := {
  cs_token : sized (B (cu_ChangeToken c)); cs_mode : sized (B (NormalizeMode (cu_Mode c)));
  cs_projection : Forall (fun p => sized (B p)) (sortedProjection (cu_Projection c)) /\ Z.of_nat (length (sortedProjection (cu_Projection c))) < 2 ^ 63;
  cs_widths : int64 (cu_AuthorizationRevision c) /\ int64 (cu_PinGeneration c) /\ int64 (cu_PinnedHistoricalRevision c) }.

(** The same tuple: the projection as a set, the empty mode as the default. *)
Record same_tuple (c c' : Cursor) : Prop := {
  st_token : cu_ChangeToken c = cu_ChangeToken c';
  st_mode : NormalizeMode (cu_Mode c) = NormalizeMode (cu_Mode c');
  st_projection : forall p, In p (cu_Projection c) <-> In p (cu_Projection c');
  st_authorization : cu_AuthorizationRevision c = cu_AuthorizationRevision c';
  st_pin : cu_PinGeneration c = cu_PinGeneration c';
  st_history : cu_PinnedHistoricalRevision c = cu_PinnedHistoricalRevision c' }.

Lemma EncodeCursor_eq c : EncodeCursor c = appendField [] (B CursorVersion) ++ appendField [] (B (cu_ChangeToken c)) ++ appendField [] (B (NormalizeMode (cu_Mode c))) ++
  AppendUvarint [] (Z.of_nat (length (sortedProjection (cu_Projection c)))) ++ projectionBytes (sortedProjection (cu_Projection c)) ++
  AppendVarint [] (cu_AuthorizationRevision c) ++ AppendVarint [] (cu_PinGeneration c) ++ AppendVarint [] (cu_PinnedHistoricalRevision c) ++ [].
Proof.
  unfold EncodeCursor. rewrite appendProjection_eq, (AppendUvarint_app (appendField _ _)), (appendField_app (appendField (appendField _ _) _)), (appendField_app (appendField _ _)).
  rewrite (AppendVarint_app (AppendVarint _ _)), (AppendVarint_app (AppendVarint _ _)), (AppendVarint_app (_ ++ _)). rewrite app_nil_r. by rewrite <- !app_assoc.
Qed.

(** C20. A cursor matches exactly the fetch state it was minted for: two tuples have
    the same encoding if and only if they agree on the change token, the
    delivery mode, the set of capabilities, the authorization revision, the pin
    generation and the pinned historical revision. *)
Theorem cursor_is_bound (c c' : Cursor) : cursor_sized c -> cursor_sized c' -> EncodeCursor c = EncodeCursor c' <-> same_tuple c c'.
Proof.
  intros [T M [P L] (A & G & R)] [T' M' [P' L'] (A' & G' & R')]. rewrite !EncodeCursor_eq. split.
  - intros [Ht [Hm [Hl He]%uvarint_inj]%text_inj]%app_inv_head%text_inj; try done; [|unfold uint64; lia..].
    apply projectionBytes_inj in He as [Hp [Ha [Hg [Hr _]%varint_inj]%varint_inj]%varint_inj]; try done; [|lia]. split; try done. by apply sortedProjection_eq.
  - intros [-> -> Hp%sortedProjection_eq -> -> ->]. by rewrite Hp.
Qed.

Definition sampleCursor : Cursor := MkCursor "tok" ["reveal"; "read"; "read"] 3 1 "" 0.
Lemma sampleCursor_sized m : m = "" \/ m = "config-only" -> cursor_sized (MkCursor "tok" ["reveal"; "read"; "read"] 3 1 m 0).
Proof. intros [->| ->]; (split; [reflexivity..|split; [repeat constructor|reflexivity]|done]). Qed.
Lemma cursor_is_bound_witness :
  EncodeCursor sampleCursor = EncodeCursor (MkCursor "tok" ["read"; "reveal"] 3 1 "full" 0) /\ EncodeCursor sampleCursor <> EncodeCursor (MkCursor "tok" ["reveal"; "read"; "read"] 3 1 "config-only" 0).
Proof.
  split.
  - apply (cursor_is_bound sampleCursor (MkCursor "tok" ["read"; "reveal"] 3 1 "full" 0)); [by apply sampleCursor_sized; left|split; [reflexivity..|split; [repeat constructor|reflexivity]|done]|].
    split; try done. intros p. cbn. tauto.
  - intros He. apply (cursor_is_bound sampleCursor) in He; [|by apply sampleCursor_sized; left|by apply sampleCursor_sized; right]. destruct He as [_ Hm _ _ _ _]. discriminate Hm.
Defined.

(** ** The occurrence of an import *)
Record occurrence_sized (o : Occurrence) : Prop := {
  os_name : sized (B (oc_Name o)); os_key : sized (B (oc_KeyID o)); os_entry : sized (B (oc_EntryID o)); os_class : sized (B (oc_Classification o));
  os_decl : sized (B (oc_Declaration o)); os_intended : sized (B (oc_IntendedClassification o)) /\ sized (B (oc_IntendedType o)) }.

Definition same_occurrence (o o' : Occurrence) : Prop :=
  oc_Declared o = oc_Declared o' /\ oc_Name o = oc_Name o' /\
  (if oc_Declared o then oc_KeyID o = oc_KeyID o' /\ oc_EntryID o = oc_EntryID o' /\ oc_Classification o = oc_Classification o' /\ oc_Declaration o = oc_Declaration o'
   else oc_IntendedClassification o = oc_IntendedClassification o' /\ oc_IntendedType o = oc_IntendedType o').

Lemma EncodeOccurrence_eq o : EncodeOccurrence o = appendField [] (B OccurrenceVersion) ++ appendField [] (B (if oc_Declared o then "declared" else "undeclared")) ++ appendField [] (B (oc_Name o)) ++
  (if oc_Declared o then appendField [] (B (oc_KeyID o)) ++ appendField [] (B (oc_EntryID o)) ++ appendField [] (B (oc_Classification o)) ++ appendField [] (B (oc_Declaration o)) ++ []
   else appendField [] (B (oc_IntendedClassification o)) ++ appendField [] (B (oc_IntendedType o)) ++ []).
Proof.
  unfold EncodeOccurrence. rewrite (appendField_app (appendField (appendField [] (B OccurrenceVersion)) _)), (appendField_app (appendField [] (B OccurrenceVersion))). destruct (oc_Declared o); cbn [negb].
  - rewrite (appendField_app (appendField (appendField (appendField _ _) _) _)), (appendField_app (appendField (appendField _ _) _)), (appendField_app (appendField _ _)), (appendField_app (_ ++ _)).
    rewrite app_nil_r. by rewrite <- !app_assoc.
  - rewrite (appendField_app (appendField _ _)), (appendField_app (_ ++ _)). rewrite app_nil_r. by rewrite <- !app_assoc.
Qed.

(** An import token names one occurrence: encodings agree exactly when the two
    observations do, and no declared key collides with an undeclared one. *)
Theorem occurrence_is_bound (o o' : Occurrence) : occurrence_sized o -> occurrence_sized o' -> EncodeOccurrence o = EncodeOccurrence o' <-> same_occurrence o o'.
Proof.
  intros [N K E C D [I T]] [N' K' E' C' D' [I' T']]. rewrite !EncodeOccurrence_eq. unfold same_occurrence. split.
  - intros [Hk [Hn He]%text_inj]%app_inv_head%text_inj; try done; [|by destruct (oc_Declared o)|by destruct (oc_Declared o')].
    assert (oc_Declared o = oc_Declared o') as Hd by (destruct (oc_Declared o), (oc_Declared o'); done). split; [done|]. split; [done|]. rewrite <- Hd in He. destruct (oc_Declared o).
    + apply text_inj in He as [-> [-> [-> [-> _]%text_inj]%text_inj]%text_inj]; done.
    + apply text_inj in He as [-> [-> _]%text_inj]; done.
  - intros (Hd & -> & Hr). rewrite <- Hd. destruct (oc_Declared o); [destruct Hr as (-> & -> & -> & ->)|destruct Hr as (-> & ->)]; done.
Qed.

(** ** Loader control *)
Lemma firstSeen_In keep l : forall seen x, In x (firstSeen keep seen l) <-> In x l /\ keep x = true /\ x ∉ seen.
Proof.
  induction l as [|a l IH]; intros seen x; cbn [firstSeen]; [split; [done|by intros []]|]. cbn [In].
  destruct (keep a) eqn:Hk; cbn [andb]; [destruct (bool_decide (a ∈ seen)) eqn:Hs; cbn [negb]|].
  - apply bool_decide_eq_true in Hs. rewrite IH. split; [tauto|]. intros [[->|?] ?]; tauto.
  - apply bool_decide_eq_false in Hs. cbn [In]. rewrite IH, not_elem_of_union, not_elem_of_singleton. split.
    + intros [->|(Hl & Hx & Hn)]; tauto.
    + intros [[->|Hin] Hr]; [by left|]. destruct (decide (x = a)) as [->|Hne]; [by left|]. right. tauto.
  - rewrite IH. split; [tauto|]. intros [[->|?] [Hx ?]]; [congruence|tauto].
Qed.
Lemma sorted_nil l : sortStrings l = [] <-> forall x, ~ In x l.
Proof.
  split.
  - intros He x Hx. apply (Permutation_in _ (Permutation_sym (isort_perm String.leb l))) in Hx. unfold sortStrings in He. by rewrite He in Hx.
  - intros Hno. destruct l as [|a l]; [done|]. destruct (Hno a). by left.
Qed.
Lemma ackCount_NoDup l : (forall a, In a l -> (ackCount l a <= 1)%nat) <-> NoDup l.
Proof.
  unfold ackCount. induction l as [|a l IH]; [split; [constructor|by intros _ ? []]|]. cbn [List.filter]. split.
  - intros Hc. constructor.
    + rewrite list_elem_of_In. intros Hin. specialize (Hc a (or_introl eq_refl)). rewrite String.eqb_refl in Hc. cbn in Hc.
      assert (In a (List.filter (String.eqb a) l)) as Hf by (apply filter_In; by rewrite String.eqb_refl). destruct (List.filter (String.eqb a) l); [done|cbn in Hc; lia].
    + apply IH. intros b Hb. specialize (Hc b (or_intror Hb)). destruct (b =s a); cbn in Hc; lia.
  - intros [Ha Hn]%NoDup_cons b. rewrite list_elem_of_In in Ha. assert (forall b, In b l -> (length (List.filter (String.eqb b) l) <= 1)%nat) as Hl by by apply IH.
    intros [<-|Hb].
    + rewrite String.eqb_refl. cbn [length]. assert (List.filter (String.eqb a) l = []) as ->; [|cbn; lia]. destruct (List.filter (String.eqb a) l) as [|c r] eqn:Hf; [done|].
      assert (In c (List.filter (String.eqb a) l)) as [Hc He]%filter_In by (rewrite Hf; by left). apply String.eqb_eq in He as <-. done.
    + destruct (String.eqb_spec b a) as [->|]; [done|]. by apply Hl.
Qed.

(** The loader-control rule is set equality: nothing is refused exactly when the
    acknowledgement lists, once each, the loader-control keys of the mapping and
    no other name. *)
Theorem acknowledgement_is_exact (mapped acknowledged : list string) :
  Unacknowledged mapped acknowledged = ([], []) <-> NoDup acknowledged /\ forall x, In x acknowledged <-> In x mapped /\ IsLoaderControlKey x = true.
Proof.
  unfold Unacknowledged. split.
  - intros [= Hr He]. rewrite sorted_nil in Hr, He. setoid_rewrite firstSeen_In in Hr. setoid_rewrite firstSeen_In in He.
    assert (forall x, In x acknowledged -> (In x mapped /\ IsLoaderControlKey x = true) /\ (ackCount acknowledged x <= 1)%nat) as Hack.
    { intros x Hx. destruct (negb (contains (List.filter IsLoaderControlKey mapped) x) || (1 <? ackCount acknowledged x)%nat) eqn:Hb; [destruct (He x); split; [done|split; [done|set_solver]]|].
      apply orb_false_iff in Hb as [Hc Hn]. apply negb_false_iff, contains_In, filter_In in Hc. apply Nat.ltb_ge in Hn. done. }
    split; [apply ackCount_NoDup; intros a Ha; by apply Hack|]. intros x. split; [intros Hx; by apply Hack|]. intros [Hm Hl].
    destruct (contains acknowledged x) eqn:Hc; [by apply contains_In|]. destruct (Hr x). split; [done|]. rewrite Hl, Hc. split; [done|set_solver].
  - intros [Hn Hin]. f_equal; apply sorted_nil; intros x [Hx [Hb _]]%firstSeen_In.
    + apply andb_true_iff in Hb as [Hl Hc]. apply negb_true_iff in Hc. assert (In x acknowledged) as Hc'%contains_In by by apply Hin. congruence.
    + apply orb_true_iff in Hb as [Hb|Hb].
      * apply negb_true_iff in Hb. apply Hin in Hx. assert (In x (List.filter IsLoaderControlKey mapped)) as Hc%contains_In by by apply filter_In. congruence.
      * apply Nat.ltb_lt in Hb. pose proof (proj2 (ackCount_NoDup acknowledged) Hn x Hx). lia.
Qed.
