(* ===== verification/PublishStore.v ===== *)
(** * The tables behind published values, drafts and revisions

    [internal/store/repos_values.go], [internal/store/repos_revisions.go]: one
    project's value cells, pending changes, snapshots, snapshot entries, lineage
    rows and secret-value occurrences, and the repository methods the publish
    pipeline calls. A table is a map from the columns of its UNIQUE constraint;
    the primary key on [id] is checked at every insert. Chain columns are left
    out: a store operation is bound to one project by its proof, and the
    environment a method takes is the one its proof resolved. *)

From S2P Require Import Prelude Domain EventNames Utf8 Schema AuditEvent Parameters Definitions DefinitionsStore.
From Stdlib Require Import Ascii.

#[local] Open Scope Z_scope.

(** ** Rows *)
Inductive PendingOperation := PendingSet | PendingUnset.
Inductive PendingSource := PendingSourceValues | PendingSourceRestore.
Inductive RevisionChange := RevisionChangeAdded | RevisionChangeEdited | RevisionChangeRemoved.
#[export] Instance PendingOperation_eq_dec : EqDecision PendingOperation.
Proof. solve_decision. Defined.
#[export] Instance PendingSource_eq_dec : EqDecision PendingSource.
Proof. solve_decision. Defined.
#[export] Instance RevisionChange_eq_dec : EqDecision RevisionChange.
Proof. solve_decision. Defined.

Definition operationName (o : PendingOperation) : string := match o with PendingSet => "set" | PendingUnset => "unset" end.

Record ValueEntry := MkValueEntry {
  ve_ID : string; ve_EnvironmentID : string; ve_KeyID : string; ve_Ciphertext : bytes; ve_UpdatedAt : Z; ve_UpdatedBy : string }.
Record valueRow := MkValueRow { vr_ID : string; vr_Ciphertext : bytes; vr_UpdatedAt : Z; vr_UpdatedBy : string }.

Record PendingChange := MkPending {
  pc_ID : string; pc_EnvironmentID : string; pc_KeyID : string; pc_OwnerID : string;
  pc_Operation : PendingOperation; pc_Ciphertext : bytes; pc_StagedFromRevision : Z; pc_StagedFromEntry : string;
  pc_CreatedAt : Z; pc_Source : PendingSource; pc_Secret : bool; pc_MaterialSecret : bool }.
Record NewPendingChange := MkNewPending {
  np_ID : string; np_Operation : PendingOperation; np_Ciphertext : bytes; np_StagedFromRevision : Z; np_StagedFromEntry : string;
  np_CreatedAt : Z; np_Source : PendingSource; np_Secret : bool; np_MaterialSecret : bool }.

(** What [ListMarkers] discloses of a draft: never its material. *)
Record PendingMarker := MkMarker { pm_ID : string; pm_EnvironmentID : string; pm_KeyID : string; pm_OwnerID : string }.

(** [sn_Collected]: when and under which policy the payload was collected. *)
Record Snapshot := MkSnapshot {
  sn_ID : string; sn_EnvironmentID : string; sn_Revision : Z; sn_SchemaRevision : Z; sn_ParameterContract : bytes;
  sn_PublishedBy : string; sn_PublishedAt : Z; sn_Collected : option (Z * string) }.
Record SnapshotEntry := MkSnapshotEntry {
  se_ID : string; se_EnvironmentID : string; se_SnapshotID : string; se_KeyID : string; se_KeyName : string; se_Classification : string;
  se_Ciphertext : bytes; se_ValueEntryID : string }.
#[export] Instance SnapshotEntry_eq_dec : EqDecision SnapshotEntry.
Proof. solve_decision. Defined.

(** ** The catalogue as the pipeline reads it *)
Definition CatalogueRow : Type := string * CatalogueKey.
Record Catalogue := MkCatalogue {
  cat_keys : list CatalogueRow;                     (* ORDER BY name *)
  cat_presence : list KeyPresence;
  cat_schemaRevision : Z;
  cat_environments : list string;                   (* ORDER BY display_order, name *)
  cat_parameters : gmap string params }.            (* by environment: the declared delivery parameters *)

(** ** Approval rows *)
Inductive ApprovalRequestState := ApprovalStateOpen | ApprovalStateApproved | ApprovalStateMerged | ApprovalStateRejected |
  ApprovalStateExpired | ApprovalStateInvalidated | ApprovalStateBypassed.
#[export] Instance ApprovalRequestState_eq_dec : EqDecision ApprovalRequestState.
Proof. solve_decision. Defined.
Inductive ApprovalVoteDecision := ApprovalDecisionApprove | ApprovalDecisionReject.
#[export] Instance ApprovalVoteDecision_eq_dec : EqDecision ApprovalVoteDecision.
Proof. solve_decision. Defined.
Inductive ApprovalApproverKind := ApprovalApproverPrincipal | ApprovalApproverSCIMGroup.
#[export] Instance ApprovalApproverKind_eq_dec : EqDecision ApprovalApproverKind.
Proof. solve_decision. Defined.

Record ApprovalPolicy := MkPolicy {
  po_ID : string; po_EnvironmentID : string; po_MinApprovals : Z; po_AllowSelfApproval : bool; po_RequestTTLSeconds : Z;
  po_Enabled : bool; po_Version : Z; po_CreatedBy : string; po_CreatedAt : Z; po_UpdatedAt : Z }.
Record ApprovalApprover := MkApprover { aa_ID : string; aa_PolicyID : string; aa_Kind : ApprovalApproverKind; aa_SubjectID : string; aa_ScopeBindingID : string }.
Record ApprovalBypasser := MkBypasser { ab_ID : string; ab_PolicyID : string; ab_PrincipalID : string }.
Record ApprovalRequest := MkRequest {
  rq_ID : string; rq_EnvironmentID : string; rq_PolicyID : string; rq_PolicyVersion : Z; rq_RequesterPrincipalID : string;
  rq_VersionIDs : list string; rq_ClosedVersionIDs : list string; rq_KeyIDs : list string; rq_PreviewTokenDigest : string;
  rq_BaseRevision : Z; rq_Purpose : string; rq_State : ApprovalRequestState; rq_InvalidatedCause : string;
  rq_CreatedAt : Z; rq_ExpiresAt : Z; rq_ResolvedAt : option Z }.
Record ApprovalVote := MkVote { av_ID : string; av_RequestID : string; av_PrincipalID : string; av_Decision : ApprovalVoteDecision; av_CreatedAt : Z }.

(** [gt_votes] by request and principal, its UNIQUE constraint. *)
Record GateTables := MkGate {
  gt_policies : gmap string ApprovalPolicy; gt_approvers : list ApprovalApprover; gt_bypassers : list ApprovalBypasser;
  gt_requests : gmap string ApprovalRequest; gt_votes : gmap (string * string) ApprovalVote }.

(** ** The project's rows, and what the service draws on *)
Record Pub := MkPub {
  pb_cat : Catalogue;
  pb_values : gmap (string * string) valueRow;                 (* environment, key *)
  pb_pending : gmap (string * string * string) NewPendingChange;  (* environment, key, owner *)
  pb_snapshots : gmap (string * Z) Snapshot;                   (* environment, revision *)
  pb_entries : gmap (string * string) SnapshotEntry;           (* snapshot, key *)
  pb_changes : gmap (string * Z * string) (string * RevisionChange);  (* environment, revision, key *)
  pb_occurrences : gmap string string;                         (* value entry: its environment *)
  pb_gate : GateTables;
  pb_audit : list AuditEntry;
  pb_uuids : list string;
  pb_rnd : list (option bytes) }.

Definition set_cat (x : Catalogue) (s : Pub) : Pub :=
  MkPub x (pb_values s) (pb_pending s) (pb_snapshots s) (pb_entries s) (pb_changes s) (pb_occurrences s) (pb_gate s) (pb_audit s) (pb_uuids s) (pb_rnd s).
Definition set_values (x : gmap (string * string) valueRow) (s : Pub) : Pub :=
  MkPub (pb_cat s) x (pb_pending s) (pb_snapshots s) (pb_entries s) (pb_changes s) (pb_occurrences s) (pb_gate s) (pb_audit s) (pb_uuids s) (pb_rnd s).
Definition set_pending (x : gmap (string * string * string) NewPendingChange) (s : Pub) : Pub :=
  MkPub (pb_cat s) (pb_values s) x (pb_snapshots s) (pb_entries s) (pb_changes s) (pb_occurrences s) (pb_gate s) (pb_audit s) (pb_uuids s) (pb_rnd s).
Definition set_snapshots (x : gmap (string * Z) Snapshot) (s : Pub) : Pub :=
  MkPub (pb_cat s) (pb_values s) (pb_pending s) x (pb_entries s) (pb_changes s) (pb_occurrences s) (pb_gate s) (pb_audit s) (pb_uuids s) (pb_rnd s).
Definition set_entries (x : gmap (string * string) SnapshotEntry) (s : Pub) : Pub :=
  MkPub (pb_cat s) (pb_values s) (pb_pending s) (pb_snapshots s) x (pb_changes s) (pb_occurrences s) (pb_gate s) (pb_audit s) (pb_uuids s) (pb_rnd s).
Definition set_changes (x : gmap (string * Z * string) (string * RevisionChange)) (s : Pub) : Pub :=
  MkPub (pb_cat s) (pb_values s) (pb_pending s) (pb_snapshots s) (pb_entries s) x (pb_occurrences s) (pb_gate s) (pb_audit s) (pb_uuids s) (pb_rnd s).
Definition set_occurrences (x : gmap string string) (s : Pub) : Pub :=
  MkPub (pb_cat s) (pb_values s) (pb_pending s) (pb_snapshots s) (pb_entries s) (pb_changes s) x (pb_gate s) (pb_audit s) (pb_uuids s) (pb_rnd s).
Definition set_gate (x : GateTables) (s : Pub) : Pub :=
  MkPub (pb_cat s) (pb_values s) (pb_pending s) (pb_snapshots s) (pb_entries s) (pb_changes s) (pb_occurrences s) x (pb_audit s) (pb_uuids s) (pb_rnd s).
Definition set_audit (x : list AuditEntry) (s : Pub) : Pub :=
  MkPub (pb_cat s) (pb_values s) (pb_pending s) (pb_snapshots s) (pb_entries s) (pb_changes s) (pb_occurrences s) (pb_gate s) x (pb_uuids s) (pb_rnd s).
Definition set_sources (ids : list string) (rnd : list (option bytes)) (s : Pub) : Pub :=
  MkPub (pb_cat s) (pb_values s) (pb_pending s) (pb_snapshots s) (pb_entries s) (pb_changes s) (pb_occurrences s) (pb_gate s) (pb_audit s) ids rnd.

Definition pub_conflict {A} : ST Pub A := st_err ErrConflict.

(** Some row already has the primary key. *)
Definition idTaken {K} `{Countable K} {A} (idOf : A -> string) (id : string) (m : gmap K A) : bool :=
  existsb (fun kv => idOf kv.2 =s id) (map_to_list m).

Definition keyDeclared (s : Pub) (keyID : string) : bool := contains (map fst (cat_keys (pb_cat s))) keyID.
Definition envExists (s : Pub) (env : string) : bool := contains (cat_environments (pb_cat s)) env.

(** [uuid.NewV7] and the next read of the randomness source. *)
Definition newID (prefix : string) : ST Pub string := fun s =>
  match pb_uuids s with
  | [] => (Err (ENew ("service: generate " +:+ prefix +:+ " id")), s)
  | u :: rest => (Ok (prefix +:+ "_" +:+ u), set_sources rest (pb_rnd s) s)
  end.
Definition nextNonce : ST Pub (option bytes) := fun s =>
  (Ok (default None (head (pb_rnd s))), set_sources (pb_uuids s) (tail (pb_rnd s)) s).

Definition insertTenant (e : AuditEntry) : ST Pub () := st_modify (fun s => set_audit (pb_audit s ++ [e]) s).

(** ** [ValueRepo] *)
Definition valueEntry (kv : string * string * valueRow) : ValueEntry :=
  MkValueEntry (vr_ID kv.2) kv.1.1 kv.1.2 (vr_Ciphertext kv.2) (vr_UpdatedAt kv.2) (vr_UpdatedBy kv.2).

Definition Values_Get (env keyID : string) (s : Pub) : result ValueEntry :=
  match pb_values s !! (env, keyID) with
  | Some row => Ok (valueEntry (env, keyID, row))
  | None => Err ErrNotFound
  end.

(** ORDER BY key_id. *)
Definition Values_List (env : string) (s : Pub) : list ValueEntry :=
  sortBy ve_KeyID (List.filter (fun e => ve_EnvironmentID e =s env) (map valueEntry (map_to_list (pb_values s)))).

(** Delete, then insert. *)
Definition Values_Put (env keyID : string) (row : valueRow) : ST Pub () := fun s =>
  let others := delete (env, keyID) (pb_values s) in
  if idTaken vr_ID (vr_ID row) others || negb (envExists s env) || negb (keyDeclared s keyID) then pub_conflict s
  else (Ok (), set_values (<[ (env, keyID) := row ]> others) s).

(** Rows affected: whether the cell existed. *)
Definition Values_Clear (env keyID : string) : ST Pub bool := fun s =>
  (Ok (bool_decide (is_Some (pb_values s !! (env, keyID)))), set_values (delete (env, keyID) (pb_values s)) s).

Definition Values_PayloadBytesForProject (s : Pub) : Z := foldr Z.add 0 (map (fun kv => blen (vr_Ciphertext kv.2)) (map_to_list (pb_values s))).

(** ** [PendingRepo] *)
Definition pendingChange (kv : string * string * string * NewPendingChange) : PendingChange :=
  let '((env, keyID, owner), n) := kv in
  MkPending (np_ID n) env keyID owner (np_Operation n) (np_Ciphertext n) (np_StagedFromRevision n) (np_StagedFromEntry n)
    (np_CreatedAt n) (np_Source n) (np_Secret n) (np_MaterialSecret n).
Definition allPending (s : Pub) : list PendingChange := map pendingChange (map_to_list (pb_pending s)).

Definition strLt (x y : string) : bool := match String.compare x y with Lt => true | _ => false end.
(** ORDER BY environment_id, key_id (, owner_id). *)
Definition pendingLe (a b : PendingChange) : bool :=
  strLt (pc_EnvironmentID a) (pc_EnvironmentID b) ||
  ((pc_EnvironmentID a =s pc_EnvironmentID b) && (strLt (pc_KeyID a) (pc_KeyID b) ||
    ((pc_KeyID a =s pc_KeyID b) && String.leb (pc_OwnerID a) (pc_OwnerID b)))).

Definition ListForOwner (owner : string) (s : Pub) : list PendingChange :=
  isort pendingLe (List.filter (fun c => pc_OwnerID c =s owner) (allPending s)).

Definition markerOf (c : PendingChange) : PendingMarker := MkMarker (pc_ID c) (pc_EnvironmentID c) (pc_KeyID c) (pc_OwnerID c).
Definition ListMarkers (s : Pub) : list PendingMarker := map markerOf (isort pendingLe (allPending s)).

Definition CountForProjectExcludingCell (env keyID owner : string) (s : Pub) : Z :=
  Z.of_nat (size (pb_pending s)) - (if bool_decide (is_Some (pb_pending s !! (env, keyID, owner))) then 1 else 0).

(** The CHECK on [operation] and [ciphertext]: [np_Ciphertext] of an unset draft
    is NULL, the empty slice. *)
Definition Pending_Stage (env keyID owner : string) (change : NewPendingChange) : ST Pub () := fun s =>
  let others := delete (env, keyID, owner) (pb_pending s) in
  if idTaken np_ID (np_ID change) others || negb (envExists s env) || negb (keyDeclared s keyID) then pub_conflict s
  else (Ok (), set_pending (<[ (env, keyID, owner) := change ]> others) s).

(** By id, within the environment. *)
Definition isDraft (env id : string) (kv : string * string * string * NewPendingChange) : bool := (kv.1.1.1 =s env) && (np_ID kv.2 =s id).
Definition Pending_Discard (env id : string) : ST Pub bool := fun s =>
  (Ok (existsb (isDraft env id) (map_to_list (pb_pending s))),
   set_pending (filter (fun kv => isDraft env id kv = false) (pb_pending s)) s).

(** ** [SnapshotRepo] *)
Definition revisionsOf (env : string) (s : Pub) : list Z := map (fun kv => kv.1.2) (List.filter (fun kv => kv.1.1 =s env) (map_to_list (pb_snapshots s))).
Definition latestRevision (env : string) (s : Pub) : Z := foldr Z.max 0 (revisionsOf env s).

Definition AtRevision (env : string) (revision : Z) (s : Pub) : result Snapshot :=
  match pb_snapshots s !! (env, revision) with Some row => Ok row | None => Err ErrNotFound end.

(** ORDER BY revision DESC LIMIT 1; revisions are positive. *)
Definition Latest (env : string) (s : Pub) : result Snapshot := AtRevision env (latestRevision env s) s.

Definition PayloadPresent (snapshot : Snapshot) : bool := match sn_Collected snapshot with None => true | Some _ => false end.
Definition ErrRevisionCollected : error := ESentinel "domain.ErrRevisionCollected".
Definition liveSnapshot (snapshot : Snapshot) : result Snapshot :=
  if PayloadPresent snapshot then Ok snapshot else Err (EWrap "collected" ErrRevisionCollected).

(** ORDER BY key_name; the row is read again after its entries. *)
Definition Entries (env : string) (snapshot : Snapshot) (s : Pub) : result (list SnapshotEntry) :=
  _ ← liveSnapshot snapshot;
  let rows := sortBy se_KeyName (List.filter (fun e => (se_SnapshotID e =s sn_ID snapshot) && (se_EnvironmentID e =s env)) (map snd (map_to_list (pb_entries s)))) in
  fresh ← AtRevision env (sn_Revision snapshot) s;
  _ ← liveSnapshot fresh;
  Ok rows.

Definition SecretValueOccurrenceIDs (env : string) (s : Pub) : list string :=
  sortStrings (map fst (List.filter (fun kv => kv.2 =s env) (map_to_list (pb_occurrences s)))).

Definition nonEmptyJSON (raw : bytes) : bytes := match raw with [] => B "{}" | _ => raw end.

Definition Snapshots_Insert (env : string) (row : Snapshot) : ST Pub () := fun s =>
  if bool_decide (is_Some (pb_snapshots s !! (env, sn_Revision row))) || idTaken sn_ID (sn_ID row) (pb_snapshots s) || negb (envExists s env)
  then pub_conflict s
  else (Ok (), set_snapshots (<[ (env, sn_Revision row) := row ]> (pb_snapshots s)) s).

Definition Snapshots_InsertEntry (e : SnapshotEntry) : ST Pub () := fun s =>
  if bool_decide (is_Some (pb_entries s !! (se_SnapshotID e, se_KeyID e))) || idTaken se_ID (se_ID e) (pb_entries s) ||
     negb (idTaken sn_ID (se_SnapshotID e) (pb_snapshots s)) || negb (Classification_Valid (se_Classification e))
  then pub_conflict s
  else (Ok (), set_entries (<[ (se_SnapshotID e, se_KeyID e) := e ]> (pb_entries s)) s).

Definition RecordSecretValueOccurrence (env valueEntryID : string) : ST Pub () := fun s =>
  if bool_decide (is_Some (pb_occurrences s !! valueEntryID)) || negb (envExists s env) then pub_conflict s
  else (Ok (), set_occurrences (<[ valueEntryID := env ]> (pb_occurrences s)) s).

Definition InsertChange (env : string) (revision : Z) (keyID keyName : string) (change : RevisionChange) : ST Pub () := fun s =>
  if bool_decide (is_Some (pb_changes s !! (env, revision, keyID))) || negb (envExists s env) then pub_conflict s
  else (Ok (), set_changes (<[ (env, revision, keyID) := (keyName, change) ]> (pb_changes s)) s).

(** Snapshot ciphertext and parameter contracts; an empty contract counts nothing. *)
Definition contractBytes (contract : bytes) : Z := if bool_decide (contract = B "{}") then 0 else blen contract.
Definition Snapshots_PayloadBytesForProject (s : Pub) : Z :=
  foldr Z.add 0 (map (fun kv => blen (se_Ciphertext kv.2)) (map_to_list (pb_entries s))) +
  foldr Z.add 0 (map (fun kv => contractBytes (sn_ParameterContract kv.2)) (map_to_list (pb_snapshots s))).
