(* ===== verification/GroupIndex.v ===== *)
(** * Key groups and publish-time validation

    [internal/service/group_index.go] and the value validation of
    [internal/service/values.go]: the index of one catalogue and presence
    snapshot, the authority a publish consults over the resolved state of an
    environment, and what an accepted state satisfies. *)

From S2P Require Import Prelude Domain Utf8 Schema AuditEvent Parameters Definitions DefinitionsStore DefinitionsApply PublishStore.
From Stdlib Require Import Ascii.

#[local] Open Scope Z_scope.

(** ** The index *)
Record groupIndex := MkGroupIndex {
  gi_keys : list CatalogueRow;
  gi_keyByID : gmap string CatalogueKey;
  gi_membersByGroup : gmap string (list CatalogueRow);
  gi_presenceByKey : gmap string PresenceRules }.

Fixpoint indexKeys (keys : list CatalogueRow) (byID : gmap string CatalogueKey) (members : gmap string (list CatalogueRow)) (presence : gmap string PresenceRules) :
    result (gmap string CatalogueKey * gmap string (list CatalogueRow) * gmap string PresenceRules) :=
  match keys with
  | [] => Ok (byID, members, presence)
  | (id, key) :: rest =>
      match byID !! id with
      | Some _ => Err (ENew ("service: group index: duplicate catalogue key " +:+ id))
      | None =>
          indexKeys rest (<[ id := key ]> byID)
            (if ca_GroupID key =s "" then members else <[ ca_GroupID key := default [] (members !! ca_GroupID key) ++ [(id, key)] ]> members)
            (<[ id := MkPresenceRules (MkPresence (ca_RequiredMode key) []) (MkPresence (ca_ForbiddenMode key) []) ]> presence)
      end
  end.

Definition addEnv (p : Presence) (env : string) : Presence := MkPresence (p_Mode p) (p_Environments p ++ [env]).
Definition indexRow (row : KeyPresence) (rules : PresenceRules) : PresenceRules :=
  if (kp_Rule row =s PresenceRuleRequired) && (p_Mode (Required rules) =s PresenceExplicit)
  then MkPresenceRules (addEnv (Required rules) (kp_EnvironmentID row)) (Forbidden rules)
  else if (kp_Rule row =s PresenceRuleForbidden) && (p_Mode (Forbidden rules) =s PresenceExplicit)
  then MkPresenceRules (Required rules) (addEnv (Forbidden rules) (kp_EnvironmentID row))
  else rules.

Fixpoint indexPresence (rows : list KeyPresence) (presence : gmap string PresenceRules) : result (gmap string PresenceRules) :=
  match rows with
  | [] => Ok presence
  | row :: rest =>
      match presence !! kp_KeyID row with
      | None => Err (ENew ("service: group index: presence row names unknown key " +:+ kp_KeyID row))
      | Some rules => indexPresence rest (<[ kp_KeyID row := indexRow row rules ]> presence)
      end
  end.

Definition newGroupIndex (keys : list CatalogueRow) (presence : list KeyPresence) : result groupIndex :=
  '(byID, members, rules) ← indexKeys keys ∅ ∅ ∅;
  rules ← indexPresence presence rules;
  Ok (MkGroupIndex keys byID members rules).

Definition loadGroupIndex (s : Pub) : result groupIndex := newGroupIndex (cat_keys (pb_cat s)) (cat_presence (pb_cat s)).
(** For closure-only phases: no presence is read. *)
Definition loadGroupMembershipIndex (s : Pub) : result groupIndex := newGroupIndex (cat_keys (pb_cat s)) [].

(** [groupIndexPhase.snapshot]: loaded once, then shared. *)
Definition phaseSnapshot (phase : option groupIndex) (s : Pub) : result groupIndex :=
  match phase with Some index => Ok index | None => loadGroupIndex s end.

Definition members (g : groupIndex) (groupID : string) : list CatalogueRow := default [] (gi_membersByGroup g !! groupID).
Definition presenceFor (g : groupIndex) (keyID : string) : result PresenceRules :=
  match gi_presenceByKey g !! keyID with
  | Some rules => Ok rules
  | None => Err (ENew ("service: group index: key " +:+ keyID +:+ " is not indexed"))
  end.

(** ** Resolved cells *)

(** One key's outcome in one environment after the selected drafts are applied. *)
Record resolvedCell := MkCell { rc_key : CatalogueRow; rc_set : bool; rc_value : bytes; rc_entryID : string; rc_materialSecret : bool }.

(** The schema engine: the libraries it calls, the evaluation of a compiled JSON
    Schema under its deadline, and the reader of a stored declaration. *)
Record SchemaEnv := MkSchemaEnv {
  sc_engine : Engine; sc_eval : Z -> JS sc_engine -> jdoc -> evalOutcome; sc_parse : string -> result Declaration }.

Section Values.
Context (V : SchemaEnv).

Definition validateLiteralValue (key : CatalogueRow) (value : bytes) : result () :=
  match sc_parse V (ca_Declaration key.2) with
  | Err e => Err (EWrap "stored declaration unreadable" e)
  | Panic p => Panic p
  | Ok decl =>
      match Schema.CompileClassified (sc_engine V) (ca_Classification key.2) decl with
      | Err e => Err (EWrap "stored declaration does not compile" e)
      | Panic p => Panic p
      | Ok compiled => if Valid (Schema.Validate (sc_engine V) (sc_eval V) compiled value) then Ok () else Err (invalidDetail ("value for " +:+ ca_Name key.2 +:+ " is invalid"))
      end
  end.

Definition containsOpener (value : bytes) : bool := match indexRef value with Some _ => true | None => false end.

Definition validateValueWithParameters (key : CatalogueRow) (value : bytes) (declarations : params) : result () :=
  if negb (ca_Classification key.2 =s Config) || bool_decide (declarations = ∅) || negb (containsOpener value) then validateLiteralValue key value
  else if SchemaProfile.MaxValueBytes <? blen value then Err (invalidDetail ("key " +:+ ca_Name key.2 +:+ " exceeds the value byte limit"))
  else match References value with
  | Err e => Err (invalidDetail ("key " +:+ ca_Name key.2 +:+ ": reference"))
  | Panic p => Panic p
  | Ok refs =>
      if negb (forallb (fun name => bool_decide (is_Some (declarations !! name))) refs) then Err (invalidDetail ("key " +:+ ca_Name key.2 +:+ ": undeclared parameter"))
      else if (0 <? Z.of_nat (length refs)) then Ok ()
      else match Parameters.Resolve value ∅ SchemaProfile.MaxValueBytes with
           | Err e => Err (invalidDetail ("key " +:+ ca_Name key.2 +:+ ": reference"))
           | Panic p => Panic p
           | Ok resolved => validateLiteralValue key resolved
           end
  end.

(** Per-key refusals, in catalogue order; the group buckets on the side. *)
Fixpoint validateCells (g : groupIndex) (env : string) (declarations : params) (cells : list resolvedCell) (groups : gmap string (list resolvedCell)) :
    result (gmap string (list resolvedCell)) :=
  match cells with
  | [] => Ok groups
  | cell :: rest =>
      let key := (rc_key cell).2 in
      rules ← presenceFor g (rc_key cell).1;
      if Covers (Required rules) env && negb (rc_set cell) then Err (invalidDetail ("key " +:+ ca_Name key +:+ " is `required_in` environment " +:+ env))
      else if Covers (Forbidden rules) env && rc_set cell then Err (invalidDetail ("key " +:+ ca_Name key +:+ " is `forbidden_in` environment " +:+ env))
      else
        _ ← (if rc_set cell then validateValueWithParameters (rc_key cell) (rc_value cell) declarations else Ok ());
        validateCells g env declarations rest
          (if ca_GroupID key =s "" then groups else <[ ca_GroupID key := default [] (groups !! ca_GroupID key) ++ [cell] ]> groups)
  end.

Definition splitGroup (ms : list resolvedCell) : bool := existsb rc_set ms && existsb (fun m => negb (rc_set m)) ms.

Fixpoint validateGroups (buckets : list (string * list resolvedCell)) : result () :=
  match buckets with
  | [] => Ok ()
  | (group, ms) :: rest => if splitGroup ms then Err (invalidDetail ("key group " +:+ group +:+ " resolves partially")) else validateGroups rest
  end.

Definition validateResolvedPublish (g : groupIndex) (cells : list resolvedCell) (env : string) (declarations : params) : result () :=
  groups ← validateCells g env declarations cells ∅;
  validateGroups (map_to_list groups).
End Values.

(** ** What the index holds *)
Lemma indexKeys_Ok keys : forall byID mem pres byID' mem' pres',
  indexKeys keys byID mem pres = Ok (byID', mem', pres') ->
  NoDup (map fst keys) /\ (forall id, In id (map fst keys) -> byID !! id = None) /\
  (forall id, byID' !! id = match list_to_map (M := gmap string CatalogueKey) keys !! id with Some k => Some k | None => byID !! id end) /\
  (forall g, g <> "" -> default [] (mem' !! g) = default [] (mem !! g) ++ List.filter (fun r => ca_GroupID r.2 =s g) keys) /\
  (forall id, pres' !! id = match list_to_map (M := gmap string CatalogueKey) keys !! id with
     | Some k => Some (MkPresenceRules (MkPresence (ca_RequiredMode k) []) (MkPresence (ca_ForbiddenMode k) [])) | None => pres !! id end).
Proof.
  induction keys as [|[id key] rest IH]; intros byID mem pres byID' mem' pres'; cbn [indexKeys].
  - intros [= -> -> ->]. repeat split; [constructor|by intros ? []|..].
    intros g _. by rewrite app_nil_r.
  - destruct (byID !! id) eqn:Hid; [discriminate|]. intros (Hnd & Hfresh & Hby & Hmem & Hpres)%IH.
    assert (~ In id (map fst rest)) as Hnew by (intros Hin; specialize (Hfresh id Hin); by rewrite lookup_insert_eq in Hfresh).
    assert (list_to_map (M := gmap string CatalogueKey) rest !! id = None) as Hrest.
    { apply not_elem_of_list_to_map. by rewrite list_elem_of_In. }
    repeat split.
    + cbn [map fst]. constructor; [by rewrite list_elem_of_In|done].
    + intros i [<-|Hin]; [done|]. specialize (Hfresh i Hin). apply lookup_insert_None in Hfresh. tauto.
    + intros i. rewrite Hby. cbn [list_to_map foldr]. change (fst (id, key)) with id. change (snd (id, key)) with key.
      destruct (decide (i = id)) as [->|Hne].
      * by rewrite !lookup_insert_eq, Hrest.
      * by rewrite !lookup_insert_ne by done.
    + intros g Hg. rewrite Hmem by done. cbn [List.filter snd]. destruct (String.eqb_spec (ca_GroupID key) g) as [->|Hne].
      * destruct (String.eqb_spec g "") as [|_]; [done|]. rewrite lookup_insert_eq. change (default [] (Some ?l)) with l. by rewrite <- app_assoc.
      * destruct (String.eqb_spec (ca_GroupID key) ""); [done|]. by rewrite lookup_insert_ne.
    + intros i. rewrite Hpres. cbn [list_to_map foldr]. change (fst (id, key)) with id. change (snd (id, key)) with key.
      destruct (decide (i = id)) as [->|Hne].
      * by rewrite !lookup_insert_eq, Hrest.
      * by rewrite !lookup_insert_ne by done.
Qed.

Lemma indexPresence_Ok rows : forall pres pres', indexPresence rows pres = Ok pres' ->
  (forall row, In row rows -> is_Some (pres !! kp_KeyID row)) /\
  forall id, pres' !! id = (fun rules => foldl (fun rules row => indexRow row rules) rules (List.filter (fun row => kp_KeyID row =s id) rows)) <$> (pres !! id).
Proof.
  induction rows as [|row rest IH]; intros pres pres'; cbn [indexPresence].
  - intros [= ->]. split; [by intros ? []|]. intros id. by destruct (pres' !! id).
  - destruct (pres !! kp_KeyID row) as [rules|] eqn:Hr; [|discriminate]. intros (Hin & Hp)%IH. split.
    + intros r [<-|Hr']; [by rewrite Hr|]. destruct (decide (kp_KeyID r = kp_KeyID row)) as [->|Hne]; [by rewrite Hr|].
      specialize (Hin r Hr'). by rewrite lookup_insert_ne in Hin.
    + intros id. rewrite Hp. cbn [List.filter]. destruct (String.eqb_spec (kp_KeyID row) id) as [<-|Hne].
      * by rewrite lookup_insert_eq, Hr.
      * by rewrite lookup_insert_ne.
Qed.

(** The single scan of the index computes what a scan per key computes. *)
Lemma foldl_indexRow id rows : forall rules, (forall r, In r rows -> kp_KeyID r = id) ->
  foldl (fun rules row => indexRow row rules) rules rows =
  MkPresenceRules
    (MkPresence (p_Mode (Required rules)) (p_Environments (Required rules) ++ presenceIDs id (p_Mode (Required rules)) PresenceRuleRequired rows))
    (MkPresence (p_Mode (Forbidden rules)) (p_Environments (Forbidden rules) ++ presenceIDs id (p_Mode (Forbidden rules)) PresenceRuleForbidden rows)).
Proof.
  induction rows as [|row rest IH]; intros [[rm re] [fm fe]] Hid; cbn [foldl].
  - cbn [Required Forbidden p_Mode p_Environments]. unfold presenceIDs. cbn [List.filter map].
    by destruct (rm =s _), (fm =s _); rewrite ?app_nil_r.
  - rewrite IH by (intros; apply Hid; by right). pose proof (Hid row (or_introl eq_refl)) as Hrow.
    unfold indexRow, presenceIDs. cbn [Required Forbidden p_Mode p_Environments List.filter].
    rewrite Hrow, String.eqb_refl. cbn [andb].
    destruct (String.eqb_spec (kp_Rule row) PresenceRuleRequired) as [Hq|Hq], (String.eqb_spec (kp_Rule row) PresenceRuleForbidden) as [Hf|Hf];
      cbn [andb]; [exfalso; rewrite Hq in Hf; discriminate Hf|..];
      destruct (rm =s PresenceExplicit) eqn:?, (fm =s PresenceExplicit) eqn:?; cbn [Required Forbidden p_Mode p_Environments addEnv map];
      rewrite ?Heqb, ?Heqb0, <- ?app_assoc; reflexivity.
Qed.

Lemma newGroupIndex_Ok keys presence g : newGroupIndex keys presence = Ok g ->
  NoDup (map fst keys) /\ gi_keys g = keys /\
  (forall id, gi_keyByID g !! id = list_to_map (M := gmap string CatalogueKey) keys !! id) /\
  (forall id, id <> "" -> members g id = List.filter (fun r => ca_GroupID r.2 =s id) keys) /\
  (forall id, gi_presenceByKey g !! id = (fun k => presenceOf id (ca_RequiredMode k) (ca_ForbiddenMode k) presence) <$> (list_to_map (M := gmap string CatalogueKey) keys !! id)).
Proof.
  unfold newGroupIndex. intros ([[byID mem] rules] & Hk & Hg)%bind_Ok. apply bind_Ok in Hg as (rules' & Hp & [= <-]).
  apply indexKeys_Ok in Hk as (Hnd & _ & Hby & Hmem & Hpres). apply indexPresence_Ok in Hp as [_ Hp].
  cbn [gi_keys gi_keyByID gi_presenceByKey]. repeat split; [done|..].
  - intros id. rewrite Hby, lookup_empty. by destruct (list_to_map keys !! id).
  - intros id Hid. unfold members. cbn [gi_membersByGroup]. rewrite Hmem by done. by rewrite lookup_empty.
  - intros id. rewrite Hp, Hpres, lookup_empty. destruct (list_to_map keys !! id) as [k|]; [|done]. cbn [fmap option_fmap option_map].
    f_equal. rewrite (foldl_indexRow id) by (intros r Hr; apply filter_In in Hr as [_ Hr]; by apply String.eqb_eq in Hr).
    cbn [Required Forbidden p_Mode p_Environments app]. unfold presenceOf, presenceIDs.
    assert (forall f : KeyPresence -> bool, List.filter (fun row => (kp_KeyID row =s id) && f row) (List.filter (fun row => kp_KeyID row =s id) presence)
              = List.filter (fun row => (kp_KeyID row =s id) && f row) presence) as Hff.
    { intros f. clear. induction presence as [|r l IH]; [done|]. cbn [List.filter].
      destruct (kp_KeyID r =s id) eqn:He; cbn [List.filter andb]; [rewrite He; cbn [andb]; destruct (f r); by rewrite IH|done]. }
    by rewrite !Hff.
Qed.

(** What an accepted resolved state satisfies: required keys are set, forbidden
    keys are not, set values are valid, and a group is set as a whole or not at
    all. *)
Record cells_valid (V : SchemaEnv) (g : groupIndex) (env : string) (declarations : params) (cells : list resolvedCell) : Prop := {
  cv_presence : forall c, In c cells -> exists rules, gi_presenceByKey g !! (rc_key c).1 = Some rules /\
    (Covers (Required rules) env = true -> rc_set c = true) /\ (Covers (Forbidden rules) env = true -> rc_set c = false);
  cv_value : forall c, In c cells -> rc_set c = true -> validateValueWithParameters V (rc_key c) (rc_value c) declarations = Ok ();
  cv_group : forall c c', In c cells -> In c' cells -> ca_GroupID (rc_key c).2 <> "" ->
    ca_GroupID (rc_key c).2 = ca_GroupID (rc_key c').2 -> rc_set c = rc_set c' }.

Lemma validateCells_Ok V g env decls cells : forall groups groups', validateCells V g env decls cells groups = Ok groups' ->
  (forall c, In c cells -> exists rules, gi_presenceByKey g !! (rc_key c).1 = Some rules /\
    (Covers (Required rules) env = true -> rc_set c = true) /\ (Covers (Forbidden rules) env = true -> rc_set c = false)) /\
  (forall c, In c cells -> rc_set c = true -> validateValueWithParameters V (rc_key c) (rc_value c) decls = Ok ()) /\
  (forall id, id <> "" -> default [] (groups' !! id) = default [] (groups !! id) ++ List.filter (fun c => ca_GroupID (rc_key c).2 =s id) cells).
Proof.
  induction cells as [|cell rest IH]; intros groups groups'; cbn [validateCells].
  - intros [= ->]. repeat split; [by intros ? []..|]. intros id _. by rewrite app_nil_r.
  - unfold presenceFor. intros (rules & Hr & Hx)%bind_Ok. destruct (gi_presenceByKey g !! (rc_key cell).1) as [rules'|] eqn:Hp; [|discriminate].
    injection Hr as ->.
    destruct (Covers (Required rules) env && negb (rc_set cell)) eqn:Hreq; [discriminate|].
    destruct (Covers (Forbidden rules) env && rc_set cell) eqn:Hforb; [discriminate|].
    apply bind_Ok in Hx as ([] & Hv & (IH1 & IH2 & IH3)%IH). repeat split.
    + intros c [<-|Hin]; [|by apply IH1]. exists rules. split; [done|]. split; intros Hc; rewrite Hc in *; by destruct (rc_set cell).
    + intros c [<-|Hin] Hs; [by rewrite Hs in Hv|by apply IH2].
    + intros id Hid. rewrite IH3 by done. cbn [List.filter]. destruct (String.eqb_spec (ca_GroupID (rc_key cell).2) id) as [->|Hne].
      * destruct (String.eqb_spec id "") as [|_]; [done|]. rewrite lookup_insert_eq. change (default [] (Some ?l)) with l. by rewrite <- app_assoc.
      * destruct (String.eqb_spec (ca_GroupID (rc_key cell).2) ""); [done|]. by rewrite lookup_insert_ne.
Qed.

Lemma validateGroups_Ok buckets : validateGroups buckets = Ok () -> forall id ms, In (id, ms) buckets -> splitGroup ms = false.
Proof.
  induction buckets as [|[i m] rest IH]; [by intros _ ? ? []|]. cbn [validateGroups]. destruct (splitGroup m) eqn:E; [discriminate|].
  intros H id ms [[= <- <-]|Hin]; [done|by eapply IH].
Qed.

Lemma splitGroup_false ms c c' : splitGroup ms = false -> In c ms -> In c' ms -> rc_set c = rc_set c'.
Proof.
  unfold splitGroup. rewrite andb_false_iff. intros Hs Hc Hc'.
  assert (forall x y, In x ms -> In y ms -> rc_set x = true -> rc_set y = false -> False) as Hno.
  { intros x y Hx Hy Ex Ey. destruct Hs as [Hs|Hs].
    - pose proof (existsb_false _ _ x Hs Hx) as Hf. congruence.
    - pose proof (existsb_false _ _ y Hs Hy) as Hf. cbn beta in Hf. by rewrite Ey in Hf. }
  destruct (rc_set c) eqn:E, (rc_set c') eqn:E'; [done|exfalso; by apply (Hno c c')|exfalso; by apply (Hno c' c)|done].
Qed.

Lemma validateResolvedPublish_Ok V g cells env decls : validateResolvedPublish V g cells env decls = Ok () -> cells_valid V g env decls cells.
Proof.
  unfold validateResolvedPublish. intros (groups & (Hp & Hv & Hg)%validateCells_Ok & Hs)%bind_Ok. split; [done|done|].
  intros c c' Hc Hc' Hne Heq. specialize (Hg _ Hne). rewrite lookup_empty in Hg.
  assert (forall d, In d cells -> ca_GroupID (rc_key d).2 = ca_GroupID (rc_key c).2 -> In d (List.filter (fun d => ca_GroupID (rc_key d).2 =s ca_GroupID (rc_key c).2) cells)) as Hin.
  { intros d Hd He. apply filter_In. split; [done|by apply String.eqb_eq]. }
  destruct (groups !! ca_GroupID (rc_key c).2) as [ms|] eqn:Hm.
  - assert (ms = List.filter (fun d => ca_GroupID (rc_key d).2 =s ca_GroupID (rc_key c).2) cells) as -> by exact Hg.
    eapply splitGroup_false; [eapply validateGroups_Ok; [exact Hs|apply list_elem_of_In, elem_of_map_to_list, Hm]|by apply Hin..].
  - exfalso. specialize (Hin c Hc eq_refl). change (default [] None ++ ?l) with l in Hg. by rewrite <- Hg in Hin.
Qed.
