(* ===== verification/Materialize.v ===== *)
(** * Materialization: the publish primitive

    [internal/service/publish.go], [materialize] and what it is made of: the
    resolved state of one environment, its parameter contract, its validation,
    the published cells, the immutable snapshot with its entries, and the
    lineage rows. The interface to the crypto component is [FieldSealer]. *)

From S2P Require Import Prelude Domain EventNames OperationNames Utf8 GoStrings FreeText Schema AuditEvent Parameters Envelope KeyTables Keyring Definitions DefinitionsStore DefinitionsApply Delivery PublishStore GroupIndex.
From Stdlib Require Import Ascii.

#[local] Open Scope Z_scope.

Definition snapshotFieldTag : string := "snapshot_value".
Definition pendingFieldTag : string := "pending_value".
Definition snapshotTable : string := "snapshot_entries".
Definition pendingTable : string := "pending_changes".
Definition valueFieldTag : string := "value".
Definition MaxRenderBytesPerTarget : Z := Z.shiftl 1 20.
Definition MaxProjectStorageBytes : Z := Z.shiftl 4 30.
Definition MaxContractBytes : Z := Z.shiftl 256 10.

Definition B (s : string) : bytes := String.list_ascii_of_string s.

(** ** The interface to the project sealer

    [SealField] and [SealValue] draw a nonce; what they seal opens under the
    same associated data. *)
Class FieldSealer := {
  fs_Seal : option bytes -> AAD -> bytes -> result bytes;
  fs_Open : AAD -> bytes -> result bytes;
  fs_opens : forall rnd a p c, fs_Seal rnd a p = Ok c -> fs_Open a c = Ok p }.

(** A project sealer of the keyring provides it, over any AEAD that keeps its
    promises. *)

(** A sealer whose active version is one of its handles. *)
Record sealer_ok (s : ProjectSealer) : Prop := {
  so_active : exists h, vs_byVer (ps_deks s) !! vs_active (ps_deks s) = Some h /\ kh_version h = vs_active (ps_deks s);
  so_width : uint32 (vs_active (ps_deks s)) }.

Section Sealer.
Context `{AEAD} (s : ProjectSealer).

(** [ProjectSealer.SealField] and [SealValue]: the scope check, then [seal] under
    the active handle. *)
Definition SealField (rnd : option bytes) (a : AAD) (plaintext : bytes) : result bytes :=
  _ ← checkAADScope s a;
  let h := activeHandle (ps_deks s) in
  seal rnd (kh_key h) (kh_id h) (kh_version h) a plaintext.

Lemma sealField_opens rnd a p c : sealer_ok s -> SealField rnd a p = Ok c -> ProjectSealer_Open s a c = Ok p.
Proof.
  intros [(h & Hh & Hv) Hw] (u & Hscope & Hseal)%bind_Ok. unfold ProjectSealer_Open. rewrite Hscope. cbn [mbind result_bind].
  unfold activeHandle in Hseal. rewrite Hh in Hseal. cbn [default from_option id] in Hseal. rewrite <- Hv in Hw. pose proof (seal_opens _ _ _ _ _ _ _ Hseal Hw) as Ho.
  unfold openVersioned. unfold open in Ho. apply bind_Ok in Ho as ([hd rest] & Hp & Ho). rewrite Hp. cbn [mbind result_bind].
  assert (h_keyVersion hd = kh_version h) as ->.
  { destruct (Z.eqb_spec (h_keyVersion hd) (kh_version h)) as [|Hne]; [done|]. cbn [negb] in Ho. rewrite orb_true_r in Ho. discriminate. }
  rewrite Hv, Hh. unfold open. rewrite Hp. cbn [mbind result_bind]. exact Ho.
Qed.

Definition projectSealing (Hok : sealer_ok s) : FieldSealer :=
  {| fs_Seal := SealField; fs_Open := ProjectSealer_Open s; fs_opens := fun rnd a p c => sealField_opens rnd a p c Hok |}.
End Sealer.

(** ** Data *)

(** One draft's effect on one cell during a materialization. *)
Record pendingApply := MkApply {
  pa_versionID : string; pa_keyID : string; pa_set : bool; pa_value : bytes; pa_sealed : bytes; pa_stagedFrom : Z; pa_stagedFromEntry : string;
  pa_source : PendingSource; pa_secret : bool; pa_materialSecret : bool }.

Record ChangedKey := MkChangedKey { ch_KeyID : string; ch_Name : string; ch_Change : RevisionChange }.
Record PublishedEnvironment := MkPublished {
  pe_EnvironmentID : string; pe_Revision : Z; pe_ChangeToken : string; pe_SchemaRevision : Z; pe_ChangedKeys : list ChangedKey }.

(** [parameters.Contract]. *)
Record Contract := MkContract { ct_Version : Z; ct_Declarations : params; ct_Schemas : gmap string string }.

Record AdapterJob := MkJob { aj_TargetID : string; aj_JobID : string; aj_AuthorityPrincipalID : string; aj_SupersededJobID : string }.

(** The input of the publish preview token. *)
Record previewTokenChange := MkTokenChange {
  tc_VersionID : string; tc_KeyID : string; tc_Set : bool; tc_StagedFrom : Z; tc_StagedFromEntry : string; tc_Source : PendingSource }.
Record previewTokenEnvironment := MkTokenEnv {
  te_EnvironmentID : string; te_BaseRevision : Z; te_SchemaRevision : Z; te_Protected : bool; te_Changes : list previewTokenChange }.
Record previewTokenInput := MkTokenInput { ti_PrincipalGeneration : Z; ti_Environments : list previewTokenEnvironment }.

Inductive ReauthPurpose := PurposePublish | PurposeApprove | PurposeReject | PurposeBypass | PurposeReveal.

(** What the handlers are handed. *)
Record PublishContext := MkPublishContext {
  px_org : string; px_project : string;
  px_now : Z;
  px_principal : string;                                   (* the caller *)
  px_selfConfig : bool;                                    (* authz.IsSelfConfig *)
  px_machine : bool;                                       (* skipsCeremony: the caller has no session *)
  px_authorize : Operation -> string -> result ();         (* the operation, in an environment *)
  px_holds : string -> Operation -> string -> result bool; (* az.CallerHolds of a principal *)
  px_schema : SchemaEnv;
  px_prepare : gmap string bytes -> result ();             (* runtimeconfig.Prepare *)
  px_protected : string -> result bool;                    (* EnvironmentReauthSettings *)
  px_ceremony : ReauthPurpose -> string -> list string -> result ();  (* the reauthentication window of an intent *)
  px_generation : string -> result Z;                      (* az.PrincipalGeneration *)
  px_keyTables : Tables; px_dekVersion : Z;                (* the data-key rows, and the version the sealer seals under *)
  px_enqueue : string -> result (list AdapterJob);         (* Adapters().EnqueuePublished *)
  px_acquire : result (); px_charge : result ();           (* the publish budgets *)
  px_storageHighWater : Z;                                 (* ProjectStorageHighWater *)
  px_marshal : Contract -> bytes;                          (* json.Marshal *)
  px_changeToken : string -> bytes -> result string;       (* Keyring.ChangeToken of a manifest, in an environment *)
  px_previewToken : string -> previewTokenInput -> result string;  (* Keyring.PublishPreviewToken of the encoded input *)
  px_scim : string -> string -> string -> result bool;     (* a principal's active membership of a group, through a binding *)
  px_formatTime : Z -> string;                             (* time.RFC3339Nano *)
  px_scan : CatalogueRow -> bytes -> result (list AuditEntry) }.  (* scanConfigValue: the warnings of a save *)

Section Publish.
Context `{FieldSealer} (X : PublishContext).

(** ** Associated data *)
Definition valueAAD (env keyID rowID : string) : AAD := ValueAAD (B (px_org X)) (B (px_project X)) (B env) (B keyID) (B rowID) (B valueFieldTag).
Definition snapshotAAD (env keyID snapshotID rowID : string) : AAD :=
  ProjectFieldAAD (B (px_org X)) (B (px_project X)) (B snapshotTable) (B rowID) (B snapshotFieldTag) (B env) (B keyID) (B snapshotID).
Definition pendingAAD (env keyID rowID : string) : AAD :=
  ProjectFieldAAD (B (px_org X)) (B (px_project X)) (B pendingTable) (B rowID) (B pendingFieldTag) (B env) (B keyID) [].

Definition sealField (a : AAD) (plain : bytes) : ST Pub bytes := rnd ← nextNonce; st_result (fs_Seal rnd a plain).

Definition openCell (entry : ValueEntry) : result bytes :=
  match fs_Open (valueAAD (ve_EnvironmentID entry) (ve_KeyID entry) (ve_ID entry)) (ve_Ciphertext entry) with
  | Err e => Err (EWrap ("service: value " +:+ ve_ID entry) e)
  | r => r
  end.

Definition mapStaleDEK (r : result ()) : result () :=
  match r with
  | Err e => if errors_Is e "store.ErrStaleDEK" then Err (EWrap "stale" ErrConflict) else Err e
  | r => r
  end.

Definition fenceProject : result () :=
  mapStaleDEK (assertActiveDEKVersion PurposeProject (B (px_org X)) (B (px_project X)) (px_dekVersion X) (px_keyTables X)).1.

Definition mailPassword : string := "HIKYO_MAIL_PASSWORD".
Definition normalizeStoredValue (key : CatalogueRow) (value : bytes) : bytes :=
  if px_selfConfig X && (ca_Name key.2 =s mailPassword) then value else Normalize value.

Definition validateSelfConfigCells (cells : list resolvedCell) : result () :=
  if negb (px_selfConfig X) then Ok ()
  else match px_prepare X (foldl (fun m c => if rc_set c then <[ ca_Name (rc_key c).2 := rc_value c ]> m else m) ∅ cells) with
       | Err e => Err (invalidDetail "self-configuration")
       | r => r
       end.

(** ** Bounds *)
Definition storageLimit : Z :=
  if (0 <? px_storageHighWater X) && (px_storageHighWater X <? MaxProjectStorageBytes) then px_storageHighWater X else MaxProjectStorageBytes.

Definition checkStorageTotal (total limit : Z) : result () :=
  if limit <=? total then Err (EWrap "project storage high-water" ErrLimitExceeded) else Ok ().

Definition storedBytes (s : Pub) : Z := Values_PayloadBytesForProject s + Snapshots_PayloadBytesForProject s.
Definition checkProjectStorage (limit : Z) (s : Pub) : result () := checkStorageTotal (storedBytes s) limit.

(** [schemaPublishStorage]: the running total of one fan-out. *)
Record schemaPublishStorage := MkStorage { sp_limit : Z; sp_total : Z; sp_loaded : bool; sp_org : string; sp_project : string }.
Definition addStorage (n : Z) (st : schemaPublishStorage) : schemaPublishStorage :=
  MkStorage (sp_limit st) (sp_total st + n) (sp_loaded st) (sp_org st) (sp_project st).

Definition storageCheck (st : schemaPublishStorage) (s : Pub) : result schemaPublishStorage :=
  if sp_loaded st && (negb (sp_org st =s px_org X) || negb (sp_project st =s px_project X))
  then Err (ENew "service: schema storage accounting belongs to another project")
  else
    let st := if sp_loaded st then st else MkStorage (sp_limit st) (storedBytes s) true (px_org X) (px_project X) in
    _ ← checkStorageTotal (sp_total st) (sp_limit st);
    Ok st.

Fixpoint checkRenderTotal (cells : list resolvedCell) (total : Z) : result () :=
  match cells with
  | [] => Ok ()
  | cell :: rest =>
      if negb (rc_set cell) then checkRenderTotal rest total
      else let total := total + blen (rc_value cell) in
           if MaxRenderBytesPerTarget <? total then Err (EWrap "per-target render limit" ErrLimitExceeded) else checkRenderTotal rest total
  end.

(** ** The resolved state *)
Definition entryByKey (entries : list ValueEntry) : gmap string ValueEntry := foldl (fun m e => <[ ve_KeyID e := e ]> m) ∅ entries.
Definition applyByKey (applies : list pendingApply) : gmap string pendingApply := foldl (fun m a => <[ pa_keyID a := a ]> m) ∅ applies.

Definition resolveCell (entries : gmap string ValueEntry) (applies : gmap string pendingApply) (key : CatalogueRow) : result resolvedCell :=
  cell ← match entries !! key.1 with
         | Some entry => plain ← openCell entry; Ok (MkCell key true plain (ve_ID entry) false)
         | None => Ok (MkCell key false [] "" false)
         end;
  Ok (match applies !! key.1 with
      | Some a => MkCell key (pa_set a) (pa_value a) (if pa_set a then rc_entryID cell else "") false
      | None => cell
      end).

Fixpoint resolveCells (entries : gmap string ValueEntry) (applies : gmap string pendingApply) (keys : list CatalogueRow) : result (list resolvedCell) :=
  match keys with
  | [] => Ok []
  | key :: rest => cell ← resolveCell entries applies key; cells ← resolveCells entries applies rest; Ok (cell :: cells)
  end.

(** The declarations a contract records: of the templated config keys. *)
Fixpoint contractSchemas (declarations : params) (cells : list resolvedCell) (schemas : gmap string string) : result (gmap string string) :=
  match cells with
  | [] => Ok schemas
  | cell :: rest =>
      if bool_decide (declarations = ∅) || negb (rc_set cell) || negb (ca_Classification (rc_key cell).2 =s Config) then contractSchemas declarations rest schemas
      else match CheckReferences (rc_value cell) declarations with
           | Err e => Err (invalidDetail ("key " +:+ ca_Name (rc_key cell).2))
           | Panic p => Panic p
           | Ok _ =>
               refs ← References (rc_value cell);
               contractSchemas declarations rest
                 (if (0 <? Z.of_nat (length refs)) || containsEscaped (rc_value cell)
                  then <[ ca_Name (rc_key cell).2 := ca_Declaration (rc_key cell).2 ]> schemas else schemas)
           end
  end.

Definition contractFor (declarations : params) (cells : list resolvedCell) : result bytes :=
  schemas ← contractSchemas declarations cells ∅;
  let contractJSON := px_marshal X (MkContract (if bool_decide (declarations = ∅) then 0 else 1) declarations schemas) in
  if MaxContractBytes <? blen contractJSON then Err (invalidDetail "environment parameter contract exceeds its bytes") else Ok contractJSON.

(** Every refusal of a resolved state: nothing has moved yet. *)
Definition admitCells (groups : groupIndex) (env : string) (declarations : params) (cells : list resolvedCell) : result bytes :=
  contractJSON ← contractFor declarations cells;
  _ ← validateResolvedPublish (px_schema X) groups cells env declarations;
  _ ← validateSelfConfigCells cells;
  _ ← checkRenderTotal cells 0;
  Ok contractJSON.

(** ** The published cells move *)
Definition putCell (env : string) (key : CatalogueRow) (value : bytes) : ST Pub string :=
  id ← newID "val";
  sealed ← sealField (valueAAD env key.1 id) (normalizeStoredValue key value);
  st_result fenceProject ;;
  Values_Put env key.1 (MkValueRow id sealed (px_now X) (px_principal X)) ;;
  mret id.

Definition keyPayload (key : CatalogueRow) : Payload :=
  [("key_id", VString key.1); ("name", text (ca_Name key.2)); ("classification", VString (ca_Classification key.2))].

Definition moveCell (env : string) (applies : gmap string pendingApply) (cell : resolvedCell) : ST Pub resolvedCell :=
  match applies !! (rc_key cell).1 with
  | None => mret cell
  | Some a =>
      if negb (pa_set a) then
        _ ← Values_Clear env (rc_key cell).1;
        insertTenant (EventValueCleared, MkObject "key" (rc_key cell).1, keyPayload (rc_key cell)) ;;
        mret cell
      else
        id ← putCell env (rc_key cell) (rc_value cell);
        insertTenant (EventValueSet, MkObject "key" (rc_key cell).1, keyPayload (rc_key cell)) ;;
        mret (MkCell (rc_key cell) (rc_set cell) (rc_value cell) id (pa_materialSecret a))
  end.

Fixpoint moveCells (env : string) (applies : gmap string pendingApply) (cells : list resolvedCell) : ST Pub (list resolvedCell) :=
  match cells with
  | [] => mret []
  | cell :: rest => cell ← moveCell env applies cell; cells ← moveCells env applies rest; mret (cell :: cells)
  end.

(** ** Lineage: over key names and pinned value-entry ids, never plaintext *)
Definition changeOf (before : gmap string (string * string)) (cell : resolvedCell) : option ChangedKey :=
  if negb (rc_set cell) then None
  else match before !! (rc_key cell).1 with
       | None => Some (MkChangedKey (rc_key cell).1 (ca_Name (rc_key cell).2) RevisionChangeAdded)
       | Some (name, valueEntryID) =>
           if negb (name =s ca_Name (rc_key cell).2) || negb (valueEntryID =s rc_entryID cell)
           then Some (MkChangedKey (rc_key cell).1 (ca_Name (rc_key cell).2) RevisionChangeEdited) else None
       end.

Definition lineageChanges (before : gmap string (string * string)) (cells : list resolvedCell) : list ChangedKey :=
  let seen := map (fun c => (rc_key c).1) (List.filter rc_set cells) in
  sortBy ch_Name (omap (changeOf before) cells ++
    map (fun kv => MkChangedKey kv.1 kv.2.1 RevisionChangeRemoved) (List.filter (fun kv => negb (contains seen kv.1)) (map_to_list before))).

Definition lineage (env : string) (cells : list resolvedCell) (s : Pub) : result (Z * list ChangedKey) :=
  match Latest env s with
  | Err e => if errors_Is e "domain.ErrNotFound" then Ok (0, lineageChanges ∅ cells) else Err e
  | Panic p => Panic p
  | Ok latest =>
      entries ← Entries env latest s;
      Ok (sn_Revision latest, lineageChanges (foldl (fun m e => <[ se_KeyID e := (se_KeyName e, se_ValueEntryID e) ]> m) ∅ entries) cells)
  end.

(** ** The snapshot *)
Definition isSecretCell (cell : resolvedCell) : bool := (ca_Classification (rc_key cell).2 =s Secret) || rc_materialSecret cell.

Fixpoint insertEntries (env snapshotID : string) (cells : list resolvedCell) (occurrences : gset string) (storage : option schemaPublishStorage) :
    ST Pub (list Row * option schemaPublishStorage) :=
  match cells with
  | [] => mret ([], storage)
  | cell :: rest =>
      if negb (rc_set cell) then insertEntries env snapshotID rest occurrences storage
      else
        let key := rc_key cell in
        entryID ← newID "sne";
        sealed ← sealField (snapshotAAD env key.1 snapshotID entryID) (rc_value cell);
        Snapshots_InsertEntry (MkSnapshotEntry entryID env snapshotID key.1 (ca_Name key.2) (ca_Classification key.2) sealed (rc_entryID cell)) ;;
        let storage := addStorage (blen sealed) <$> storage in
        let record := isSecretCell cell && negb (bool_decide (rc_entryID cell ∈ occurrences)) in
        (if record then RecordSecretValueOccurrence env (rc_entryID cell) else mret ()) ;;
        '(rows, storage) ← insertEntries env snapshotID rest (if record then {[ rc_entryID cell ]} ∪ occurrences else occurrences) storage;
        mret (MkDeliveryRow (ca_Name key.2) (ca_Classification key.2) (rc_value cell) :: rows, storage)
  end.

Fixpoint insertChanges (env : string) (revision : Z) (changes : list ChangedKey) : ST Pub () :=
  match changes with
  | [] => mret ()
  | c :: rest => InsertChange env revision (ch_KeyID c) (ch_Name c) (ch_Change c) ;; insertChanges env revision rest
  end.

Definition materialize (env : string) (applies : list pendingApply) (limit : Z) (groups : groupIndex) (storage : option schemaPublishStorage) :
    ST Pub (PublishedEnvironment * option schemaPublishStorage) :=
  if bool_decide (is_Some storage) && negb (bool_decide (applies = [])) then st_err (ENew "service: schema storage accounting cannot apply value changes")
  else
    s ← st_get;
    let schemaRevision := cat_schemaRevision (pb_cat s) in
    let occurrences : gset string := list_to_set (SecretValueOccurrenceIDs env s) in
    let byKey := applyByKey applies in
    cells ← st_result (resolveCells (entryByKey (Values_List env s)) byKey (gi_keys groups));
    contractJSON ← st_result (admitCells groups env (default ∅ (cat_parameters (pb_cat s) !! env)) cells);
    storage ← st_result (match storage with
                         | None => _ ← checkProjectStorage limit s; Ok None
                         | Some st => st ← storageCheck st s; Ok (Some st)
                         end);
    cells ← moveCells env byKey cells;
    s ← st_get;
    '(previous, changes) ← st_result (lineage env cells s);
    let revision := previous + 1 in
    snapshotID ← newID "snp";
    Snapshots_Insert env (MkSnapshot snapshotID env revision schemaRevision (nonEmptyJSON contractJSON) (px_principal X) (px_now X) None) ;;
    let storage := addStorage (contractBytes contractJSON) <$> storage in
    st_result (if (0 <? Z.of_nat (length cells)) then fenceProject else Ok ()) ;;
    '(rows, storage) ← insertEntries env snapshotID cells occurrences storage;
    insertChanges env revision changes ;;
    token ← st_result (px_changeToken X env (Manifest rows));
    mret (MkPublished env revision token schemaRevision changes, storage).

(** ** The publish event, and the adapter jobs a publish enqueues *)
Definition jobEvents (job : AdapterJob) : list AuditEntry :=
  (EventAdapterSyncRequested, MkObject "adapter-target" (aj_TargetID job), [("trigger", VString "on-publish")]) ::
  (if aj_SupersededJobID job =s "" then []
   else [(EventAdapterSuperseded, MkObject "adapter-target" (aj_TargetID job), [("previous_job_id", VString (aj_SupersededJobID job)); ("job_id", VString (aj_JobID job))])]).

Definition recordPublish (env : string) (published : PublishedEnvironment) (selected : Z) (trigger : string) : ST Pub () :=
  insertTenant (EventRevisionPublished, MkObject "environment" env,
    [("revision", VInt64 (pe_Revision published)); ("schema_revision", VInt64 (pe_SchemaRevision published));
     ("changed_keys", VInt (Z.of_nat (length (pe_ChangedKeys published)))); ("pending_count", VInt selected); ("trigger", VString trigger)]) ;;
  jobs ← st_result (px_enqueue X env);
  st_modify (fun s => set_audit (pb_audit s ++ flat_map jobEvents jobs) s).

(** ** Republication *)
Definition approvalGatedTrigger (trigger : string) : bool := contains ["import"; "copy"; "bulk-apply"; "clone"] trigger.

(** [CoveringPolicy]: the environment's own policy first, then the project's. *)
Definition policyFor (env : string) (s : Pub) : option ApprovalPolicy :=
  snd <$> head (List.filter (fun kv => (po_EnvironmentID kv.2 =s env) && po_Enabled kv.2) (map_to_list (gt_policies (pb_gate s)))).
Definition CoveringPolicy (env : string) (s : Pub) : option ApprovalPolicy :=
  match policyFor env s with Some p => Some p | None => policyFor "" s end.

Definition ErrApprovalRequired : error := EWrap "this environment requires an approved change-request before publish" ErrConflict.

Definition republishWithStorage (env trigger : string) (phase : option groupIndex) (storage : option schemaPublishStorage) :
    ST Pub (PublishedEnvironment * option groupIndex * option schemaPublishStorage) :=
  st_result (px_authorize X OpValuePublish env) ;;
  s ← st_get;
  if approvalGatedTrigger trigger && bool_decide (is_Some (CoveringPolicy env s)) then st_err ErrApprovalRequired
  else
    groups ← st_result (phaseSnapshot phase s);
    '(published, storage) ← materialize env [] MaxProjectStorageBytes groups storage;
    recordPublish env published 0 trigger ;;
    mret (published, Some groups, storage).

Definition republish (env trigger : string) (phase : option groupIndex) : ST Pub PublishedEnvironment :=
  '(published, _, _) ← republishWithStorage env trigger phase None; mret published.

Fixpoint fanOut (envs : list string) (trigger : string) (phase : option groupIndex) (storage : option schemaPublishStorage) : ST Pub (list PublishedEnvironment) :=
  match envs with
  | [] => mret []
  | env :: rest =>
      '(published, phase, storage) ← republishWithStorage env trigger phase storage;
      out ← fanOut rest trigger phase storage;
      mret (published :: out)
  end.

Definition freshStorage : schemaPublishStorage := MkStorage MaxProjectStorageBytes 0 false "" "".
Definition fanOutSchemaPublish (trigger : string) : ST Pub (list PublishedEnvironment) :=
  s ← st_get;
  fanOut (cat_environments (pb_cat s)) trigger None (Some freshStorage).
End Publish.
