(* ===== verification/Selection.v ===== *)
(** * Selecting what a publish commits

    [internal/service/publish.go]: the resolution of the named versions against
    the caller's own drafts, key-group closure to a fixed point, the optimistic
    freshness check, and the preview token over a selection. *)

From S2P Require Import Prelude Domain OperationNames Utf8 Schema AuditEvent Parameters Envelope Definitions DefinitionsStore DefinitionsApply PublishStore GroupIndex Materialize.

#[local] Open Scope Z_scope.

(** A package-level sentinel that wraps [domain.ErrConflict]: [errors.Is] finds both. *)
Definition sentinelConflict (name : string) : error := EJoin [ESentinel name; ErrConflict].
Definition ErrStalePending : error := sentinelConflict "service.ErrStalePending".
Definition ErrStalePreview : error := sentinelConflict "service.ErrStalePreview".
Definition stalePending (detail : string) : error := EWrap detail ErrStalePending.
Definition isStalePending (e : error) : bool := errors_Is e "service.ErrStalePending".

(** [firstDuplicate], by what was seen before. *)
Fixpoint firstDuplicate (seen : gset string) (names : list string) : option string :=
  match names with
  | [] => None
  | name :: rest => if bool_decide (name ∈ seen) then Some name else firstDuplicate ({[ name ]} ∪ seen) rest
  end.

(** ** Resolution of the named versions *)
Definition draftsByID (mine : list PendingChange) : gmap string PendingChange := foldl (fun m c => <[ pc_ID c := c ]> m) ∅ mine.

Fixpoint pickVersions (byID : gmap string PendingChange) (versionIDs : list string) (selected : gmap string PendingChange) : result (gmap string PendingChange) :=
  match versionIDs with
  | [] => Ok selected
  | id :: rest =>
      match byID !! id with
      | None => Err (stalePending "no live pending change is owned by this principal")
      | Some change => pickVersions byID rest (<[ id := change ]> selected)
      end
  end.

Definition resolveVersions (principal : string) (versionIDs : list string) (s : Pub) : result (gmap string PendingChange * gmap string PendingChange) :=
  let byID := draftsByID (ListForOwner principal s) in
  selected ← pickVersions byID versionIDs ∅;
  Ok (selected, byID).

(** ** Key-group closure *)
Definition changeLe (a b : PendingChange) : bool :=
  strLt (pc_EnvironmentID a) (pc_EnvironmentID b) || ((pc_EnvironmentID a =s pc_EnvironmentID b) && String.leb (pc_ID a) (pc_ID b)).
Definition sortedChanges (selected : gmap string PendingChange) : list PendingChange := isort changeLe (map snd (map_to_list selected)).

Section Closure.
Context (principal : string) (byID : gmap string PendingChange) (groups : groupIndex) (markers : list PendingMarker).

Record closure := MkClosure { cl_selected : gmap string PendingChange; cl_closed : list string; cl_grew : bool }.

Definition closeMarker (env : string) (member : CatalogueRow) (marker : PendingMarker) (c : closure) : result closure :=
  if negb (pm_KeyID marker =s member.1) || negb (pm_EnvironmentID marker =s env) then Ok c
  else if negb (pm_OwnerID marker =s principal) then
    Err (invalidDetail ("key group couples key " +:+ ca_Name member.2 +:+ ", whose pending change is owned by another principal"))
  else match cl_selected c !! pm_ID marker with
       | Some _ => Ok c
       | None =>
           match byID !! pm_ID marker with
           | None => Err (stalePending "group member version is no longer live")
           | Some pull => Ok (MkClosure (<[ pm_ID marker := pull ]> (cl_selected c)) (cl_closed c ++ [pm_ID marker]) true)
           end
       end.

Fixpoint closeMarkers (env : string) (member : CatalogueRow) (ms : list PendingMarker) (c : closure) : result closure :=
  match ms with
  | [] => Ok c
  | m :: rest => c ← closeMarker env member m c; closeMarkers env member rest c
  end.

Fixpoint closeMembers (env : string) (ms : list CatalogueRow) (c : closure) : result closure :=
  match ms with
  | [] => Ok c
  | member :: rest => c ← closeMarkers env member markers c; closeMembers env rest c
  end.

Definition closeChange (change : PendingChange) (c : closure) : result closure :=
  match gi_keyByID groups !! pc_KeyID change with
  | None => Err (stalePending "pending change names a key which is no longer declared")
  | Some key => if ca_GroupID key =s "" then Ok c else closeMembers (pc_EnvironmentID change) (members groups (ca_GroupID key)) c
  end.

(** One pass over the selection as it was when the pass began. *)
Fixpoint closePass (changes : list PendingChange) (c : closure) : result closure :=
  match changes with
  | [] => Ok c
  | change :: rest => c ← closeChange change c; closePass rest c
  end.

(** Passes until one adds nothing; a pass that adds takes a draft of [byID] not
    taken before, so [S (size byID)] passes are enough. *)
Fixpoint closeLoop (fuel : nat) (selected : gmap string PendingChange) (closed : list string) : result (gmap string PendingChange * list string) :=
  match fuel with
  | O => Panic "unreachable"
  | S k =>
      c ← closePass (sortedChanges selected) (MkClosure selected closed false);
      if cl_grew c then closeLoop k (cl_selected c) (cl_closed c) else Ok (cl_selected c, cl_closed c)
  end.
End Closure.

Definition applyOf (change : PendingChange) : pendingApply :=
  MkApply (pc_ID change) (pc_KeyID change) (bool_decide (pc_Operation change = PendingSet)) [] (pc_Ciphertext change)
    (pc_StagedFromRevision change) (pc_StagedFromEntry change) (pc_Source change) (pc_Secret change) (pc_MaterialSecret change).

(** The per-environment apply set, material still sealed. *)
Definition byEnvironment (changes : list PendingChange) : gmap string (list pendingApply) :=
  foldl (fun out c => <[ pc_EnvironmentID c := default [] (out !! pc_EnvironmentID c) ++ [applyOf c] ]> out) ∅ changes.

Definition selectVersions (principal : string) (selected byID : gmap string PendingChange) (groups : groupIndex) (s : Pub) :
    result (gmap string (list pendingApply) * list string) :=
  '(selected, closed) ← closeLoop principal byID groups (ListMarkers s) (S (size byID)) selected [];
  Ok (byEnvironment (sortedChanges selected), sortStrings closed).

(** ** Freshness *)
Definition publishedIDs (entries : list ValueEntry) : gmap string string := foldl (fun m e => <[ ve_KeyID e := ve_ID e ]> m) ∅ entries.

Fixpoint checkApplies (published : gmap string string) (groups : groupIndex) (applies : list pendingApply) : result () :=
  match applies with
  | [] => Ok ()
  | a :: rest =>
      if default "" (published !! pa_keyID a) =s pa_stagedFromEntry a then checkApplies published groups rest
      else match gi_keyByID groups !! pa_keyID a with
           | None => Err (stalePending "version names a key which is no longer declared")
           | Some key => Err (stalePending ("version targets key " +:+ ca_Name key +:+ ", whose published value has changed since the draft was staged"))
           end
  end.

Definition checkFreshness (env : string) (applies : list pendingApply) (groups : groupIndex) (s : Pub) : result () :=
  checkApplies (publishedIDs (Values_List env s)) groups applies.

Definition currentRevision (env : string) (s : Pub) : result Z :=
  match Latest env s with
  | Err e => if errors_Is e "domain.ErrNotFound" then Ok 0 else Err e
  | Panic p => Panic p
  | Ok latest => Ok (sn_Revision latest)
  end.

(** ** The preview token *)
Section Token.
Context (X : PublishContext).

Definition tokenChange (a : pendingApply) : previewTokenChange :=
  MkTokenChange (pa_versionID a) (pa_keyID a) (pa_set a) (pa_stagedFrom a) (pa_stagedFromEntry a) (pa_source a).

Fixpoint tokenEnvironments (selection : gmap string (list pendingApply)) (envs : list string) (s : Pub) : result (list previewTokenEnvironment) :=
  match envs with
  | [] => Ok []
  | env :: rest =>
      base ← currentRevision env s;
      isProtected ← px_protected X env;
      let changes := sortBy tc_VersionID (map tokenChange (default [] (selection !! env))) in
      out ← tokenEnvironments selection rest s;
      Ok (MkTokenEnv env base (cat_schemaRevision (pb_cat s)) isProtected changes :: out)
  end.

Definition sortedKeys {A} (m : gmap string A) : list string := sortStrings (map fst (map_to_list m)).

Definition previewInput (principal : string) (selection : gmap string (list pendingApply)) (s : Pub) : result previewTokenInput :=
  generation ← px_generation X principal;
  environments ← tokenEnvironments selection (sortedKeys selection) s;
  Ok (MkTokenInput generation environments).

Definition publishPreviewToken (env principal : string) (selection : gmap string (list pendingApply)) (s : Pub) : result string :=
  input ← previewInput principal selection s;
  px_previewToken X env input.
End Token.
