(* ===== verification/Approvals.v ===== *)
(** * Secret-change approvals

    [internal/service/approvals.go], [internal/store/repos_approvals.go]: the
    policies, requests and votes, the gate a publish passes, and voting. A merge
    and an emergency bypass are branches of the publish itself. *)

From S2P Require Import Prelude Domain EventNames OperationNames Utf8 FreeText Schema AuditEvent Parameters Envelope Definitions DefinitionsStore DefinitionsApply PublishStore GroupIndex Materialize Selection.

#[local] Open Scope Z_scope.

Definition maxApprovalPurposeBytes : Z := 1024.
Definition maxApprovalPolicyMembers : Z := 100.
Definition ErrApprovalNotSatisfied : error := sentinelConflict "service.ErrApprovalNotSatisfied".
Definition ErrApprovalGatedMultiEnv : error := EJoin [ESentinel "service.ErrApprovalGatedMultiEnv"; ErrInvalid].
Definition ErrUnauthorized : error := ESentinel "domain.ErrUnauthorized".

(** ** [ApprovalRepo] *)
Definition set_policies (m : gmap string ApprovalPolicy) (s : Pub) : Pub :=
  let g := pb_gate s in set_gate (MkGate m (gt_approvers g) (gt_bypassers g) (gt_requests g) (gt_votes g)) s.
Definition set_memberSets (aa : list ApprovalApprover) (bb : list ApprovalBypasser) (s : Pub) : Pub :=
  let g := pb_gate s in set_gate (MkGate (gt_policies g) aa bb (gt_requests g) (gt_votes g)) s.
Definition set_requests (m : gmap string ApprovalRequest) (s : Pub) : Pub :=
  let g := pb_gate s in set_gate (MkGate (gt_policies g) (gt_approvers g) (gt_bypassers g) m (gt_votes g)) s.
Definition set_votes (m : gmap (string * string) ApprovalVote) (s : Pub) : Pub :=
  let g := pb_gate s in set_gate (MkGate (gt_policies g) (gt_approvers g) (gt_bypassers g) (gt_requests g) m) s.

Definition InsertPolicy (row : ApprovalPolicy) : ST Pub () := fun s =>
  let m := gt_policies (pb_gate s) in
  if bool_decide (is_Some (m !! po_ID row)) || existsb (fun kv => po_EnvironmentID kv.2 =s po_EnvironmentID row) (map_to_list m) ||
     (po_MinApprovals row <? 1) || (po_RequestTTLSeconds row <=? 0)
  then pub_conflict s else (Ok (), set_policies (<[ po_ID row := row ]> m) s).

Definition GetPolicy (id : string) (s : Pub) : result ApprovalPolicy :=
  match gt_policies (pb_gate s) !! id with Some row => Ok row | None => Err ErrNotFound end.

(** The version moves with every update; the scope does not move. *)
Definition Repo_UpdatePolicy (id : string) (min : Z) (self : bool) (ttl : Z) (enabled : bool) (at_ : Z) : ST Pub bool := fun s =>
  let m := gt_policies (pb_gate s) in
  match m !! id with
  | None => (Ok false, s)
  | Some row =>
      if (min <? 1) || (ttl <=? 0) then pub_conflict s
      else (Ok true, set_policies (<[ id := MkPolicy id (po_EnvironmentID row) min self ttl enabled (po_Version row + 1) (po_CreatedBy row) (po_CreatedAt row) at_ ]> m) s)
  end.

(** ON DELETE CASCADE of the member sets. *)
Definition Repo_DeletePolicy (id : string) : ST Pub bool := fun s =>
  let g := pb_gate s in
  (Ok (bool_decide (is_Some (gt_policies g !! id))),
   set_gate (MkGate (delete id (gt_policies g)) (List.filter (fun a => negb (aa_PolicyID a =s id)) (gt_approvers g))
     (List.filter (fun b => negb (ab_PolicyID b =s id)) (gt_bypassers g)) (gt_requests g) (gt_votes g)) s).

Definition InsertApprover (a : ApprovalApprover) : ST Pub () := fun s =>
  let g := pb_gate s in
  if existsb (fun b => (aa_ID b =s aa_ID a) ||
       ((aa_PolicyID b =s aa_PolicyID a) && bool_decide (aa_Kind b = aa_Kind a) && (aa_SubjectID b =s aa_SubjectID a))) (gt_approvers g) ||
     negb (bool_decide (is_Some (gt_policies g !! aa_PolicyID a)))
  then pub_conflict s else (Ok (), set_memberSets (gt_approvers g ++ [a]) (gt_bypassers g) s).

Definition InsertBypasser (b : ApprovalBypasser) : ST Pub () := fun s =>
  let g := pb_gate s in
  if existsb (fun c => (ab_ID c =s ab_ID b) || ((ab_PolicyID c =s ab_PolicyID b) && (ab_PrincipalID c =s ab_PrincipalID b))) (gt_bypassers g) ||
     negb (bool_decide (is_Some (gt_policies g !! ab_PolicyID b)))
  then pub_conflict s else (Ok (), set_memberSets (gt_approvers g) (gt_bypassers g ++ [b]) s).

Definition ListApprovers (policyID : string) (s : Pub) : list ApprovalApprover :=
  List.filter (fun a => aa_PolicyID a =s policyID) (gt_approvers (pb_gate s)).
Definition ListBypassers (policyID : string) (s : Pub) : list ApprovalBypasser :=
  List.filter (fun b => ab_PolicyID b =s policyID) (gt_bypassers (pb_gate s)).
Definition ClearMembers (policyID : string) : ST Pub () := st_modify (fun s =>
  set_memberSets (List.filter (fun a => negb (aa_PolicyID a =s policyID)) (gt_approvers (pb_gate s)))
    (List.filter (fun b => negb (ab_PolicyID b =s policyID)) (gt_bypassers (pb_gate s))) s).
Definition IsBypasser (policyID principal : string) (s : Pub) : bool := existsb (fun b => ab_PrincipalID b =s principal) (ListBypassers policyID s).

Definition InsertRequest (row : ApprovalRequest) : ST Pub () := fun s =>
  if bool_decide (is_Some (gt_requests (pb_gate s) !! rq_ID row)) || negb (envExists s (rq_EnvironmentID row)) then pub_conflict s
  else (Ok (), set_requests (<[ rq_ID row := row ]> (gt_requests (pb_gate s))) s).

(** Addressed by the proof's environment and the id. *)
Definition GetRequest (env id : string) (s : Pub) : result ApprovalRequest :=
  match gt_requests (pb_gate s) !! id with
  | Some row => if rq_EnvironmentID row =s env then Ok row else Err ErrNotFound
  | None => Err ErrNotFound
  end.

Definition withState (st : ApprovalRequestState) (cause : string) (resolved : option Z) (r : ApprovalRequest) : ApprovalRequest :=
  MkRequest (rq_ID r) (rq_EnvironmentID r) (rq_PolicyID r) (rq_PolicyVersion r) (rq_RequesterPrincipalID r) (rq_VersionIDs r) (rq_ClosedVersionIDs r)
    (rq_KeyIDs r) (rq_PreviewTokenDigest r) (rq_BaseRevision r) (rq_Purpose r) st cause (rq_CreatedAt r) (rq_ExpiresAt r) resolved.

Definition UpdateRequestState (env id : string) (st : ApprovalRequestState) (cause : string) (resolved : option Z) : ST Pub bool := fun s =>
  match gt_requests (pb_gate s) !! id with
  | Some row => if rq_EnvironmentID row =s env
                then (Ok true, set_requests (<[ id := withState st cause resolved row ]> (gt_requests (pb_gate s))) s) else (Ok false, s)
  | None => (Ok false, s)
  end.

Definition InsertVote (v : ApprovalVote) : ST Pub () := fun s =>
  let g := pb_gate s in
  if bool_decide (is_Some (gt_votes g !! (av_RequestID v, av_PrincipalID v))) || idTaken av_ID (av_ID v) (gt_votes g) ||
     negb (bool_decide (is_Some (gt_requests g !! av_RequestID v)))
  then pub_conflict s else (Ok (), set_votes (<[ (av_RequestID v, av_PrincipalID v) := v ]> (gt_votes g)) s).

Definition ListVotes (requestID : string) (s : Pub) : list ApprovalVote :=
  map snd (List.filter (fun kv => kv.1.1 =s requestID) (map_to_list (gt_votes (pb_gate s)))).

Definition MarkExpired (id : string) (at_ : Z) : ST Pub bool := fun s =>
  match gt_requests (pb_gate s) !! id with
  | Some row => match rq_ResolvedAt row with
                | None => (Ok true, set_requests (<[ id := withState ApprovalStateExpired (rq_InvalidatedCause row) (Some at_) row ]> (gt_requests (pb_gate s))) s)
                | Some _ => (Ok false, s)
                end
  | None => (Ok false, s)
  end.

(** WHERE resolved_at IS NULL AND expires_at < now ORDER BY id LIMIT 100. *)
Definition SelectExpired (now : Z) (s : Pub) : list ApprovalRequest :=
  take 100 (sortBy rq_ID (map snd (List.filter (fun kv => match rq_ResolvedAt kv.2 with None => rq_ExpiresAt kv.2 <? now | Some _ => false end)
    (map_to_list (gt_requests (pb_gate s)))))).

Definition isActiveRequest (st : ApprovalRequestState) : bool := bool_decide (st = ApprovalStateOpen) || bool_decide (st = ApprovalStateApproved).
Definition sortedUnique (l : list string) : list string := compact l.

Section Approvals.
Context (X : PublishContext) (sha256hex : string -> string).

Definition approvalPreviewDigest (token : string) : string := sha256hex token.

Definition sanitizePurpose (raw : string) : result string :=
  let purpose := SanitizeFreeText raw in
  if maxApprovalPurposeBytes <? Z.of_nat (String.length purpose) then Err (EWrap "the change purpose is too long" ErrInvalid) else Ok purpose.

Definition staleRefusal (cause : string) : error := EWrap ("the request was invalidated (" +:+ cause +:+ ")") ErrConflict.

Definition commitInvalidation (env : string) (req : ApprovalRequest) (cause : string) : ST Pub () :=
  _ ← UpdateRequestState env (rq_ID req) ApprovalStateInvalidated cause (Some (px_now X));
  insertTenant (EventApprovalInvalidated, MkObject "approval-request" (rq_ID req), [("cause", VString cause)]).

Definition driftCause (env : string) (req : ApprovalRequest) (s : Pub) : string :=
  match currentRevision env s with
  | Ok base => if base =? rq_BaseRevision req then "draft_edited" else "env_advanced"
  | _ => "draft_edited"
  end.

Definition selectionKeyIDs (applies : list pendingApply) : list string := sortedUnique (map pa_keyID applies).

(** Named directly, or an active member of a named group. *)
Fixpoint groupEligible (approvers : list ApprovalApprover) (principal : string) : result bool :=
  match approvers with
  | [] => Ok false
  | a :: rest =>
      if negb (bool_decide (aa_Kind a = ApprovalApproverSCIMGroup)) then groupEligible rest principal
      else member ← px_scim X principal (aa_ScopeBindingID a) (aa_SubjectID a);
           if member : bool then Ok true else groupEligible rest principal
  end.
Definition approverEligible (approvers : list ApprovalApprover) (principal : string) : result bool :=
  if existsb (fun a => bool_decide (aa_Kind a = ApprovalApproverPrincipal) && (aa_SubjectID a =s principal)) approvers then Ok true
  else groupEligible approvers principal.

(** The approve votes that count now: a removed approver's, or one whose publish
    authority is gone, does not. *)
Definition countsNow (env : string) (approvers : list ApprovalApprover) (req : ApprovalRequest) (policy : ApprovalPolicy) (v : ApprovalVote) : result bool :=
  if negb (bool_decide (av_Decision v = ApprovalDecisionApprove)) then Ok false
  else if (av_PrincipalID v =s rq_RequesterPrincipalID req) && negb (po_AllowSelfApproval policy) then Ok false
  else eligible ← approverEligible approvers (av_PrincipalID v);
       if negb eligible then Ok false else px_holds X (av_PrincipalID v) OpApprovalVote env.

Fixpoint countVotes (env : string) (approvers : list ApprovalApprover) (req : ApprovalRequest) (policy : ApprovalPolicy) (votes : list ApprovalVote) (count : Z) : result Z :=
  match votes with
  | [] => Ok count
  | v :: rest => counts ← countsNow env approvers req policy v; countVotes env approvers req policy rest (if counts : bool then count + 1 else count)
  end.
Definition countEligibleApprovals (env : string) (approvers : list ApprovalApprover) (req : ApprovalRequest) (policy : ApprovalPolicy) (s : Pub) : result Z :=
  countVotes env approvers req policy (ListVotes (rq_ID req) s) 0.

(** ** The gate *)
Record approvalOutcome := MkOutcome {
  ao_gated : bool; ao_created : option ApprovalRequest; ao_resolveID : string; ao_bypass : bool; ao_reason : string; ao_previewDigest : string;
  ao_coveredEnv : string; ao_approvals : Z; ao_refusal : option error }.
Definition ungated : approvalOutcome := MkOutcome false None "" false "" "" "" 0 None.
Definition refusedOutcome (env cause : string) : approvalOutcome := MkOutcome true None "" false "" "" env 0 (Some (staleRefusal cause)).

Record PublishRequest := MkPublishRequest {
  rp_VersionIDs : list string; rp_PreviewToken : string; rp_ConfirmedProtected : list string; rp_ApprovalRequestID : string;
  rp_Bypass : option string; rp_Purpose : string }.

Definition approvalCreateGate (request : PublishRequest) (policy : ApprovalPolicy) (coveredEnv : string) (keyIDs : list string) (digest : string) (closed : list string) :
    ST Pub approvalOutcome :=
  purpose ← st_result (sanitizePurpose (rp_Purpose request));
  s ← st_get;
  base ← st_result (currentRevision coveredEnv s);
  id ← newID "areq";
  let req := MkRequest id coveredEnv (po_ID policy) (po_Version policy) (px_principal X) (sortedUnique (rp_VersionIDs request)) (sortedUnique closed) keyIDs
               digest base purpose ApprovalStateOpen "" (px_now X) (px_now X + po_RequestTTLSeconds policy * 1000000000) None in
  InsertRequest req ;;
  insertTenant (EventApprovalRequested, MkObject "approval-request" id,
    [("policy_id", VString (po_ID policy)); ("policy_version", VInt64 (po_Version policy));
     ("change_count", VInt (Z.of_nat (length (rq_VersionIDs req) + length (rq_ClosedVersionIDs req))));
     ("base_revision", VInt64 base); ("preview_digest", VString digest)]) ;;
  mret (MkOutcome true (Some req) "" false "" "" coveredEnv 0 None).

Definition invalidateAndRefuse (env : string) (req : ApprovalRequest) (cause : string) : ST Pub approvalOutcome :=
  commitInvalidation env req cause ;; mret (refusedOutcome env cause).

Definition approvalMergeGate (policy : ApprovalPolicy) (loaded : option ApprovalRequest) (coveredEnv scopeEnv digest : string) : ST Pub approvalOutcome :=
  match loaded with
  | None => st_err (EWrap "no approval request was loaded to merge" ErrInvalid)
  | Some req =>
      if negb (rq_EnvironmentID req =s coveredEnv) then st_err (EWrap "the request does not belong to this environment" ErrConflict)
      else if negb (isActiveRequest (rq_State req)) then st_err (EWrap "the request is resolved" ErrConflict)
      else if rq_ExpiresAt req <=? px_now X then st_err (EWrap "the request has expired" ErrConflict)
      else if negb (px_principal X =s rq_RequesterPrincipalID req) then st_err (EWrap "only the proposer may merge their reviewed change" ErrUnauthorized)
      else if negb (po_ID policy =s rq_PolicyID req) || negb (po_Version policy =? rq_PolicyVersion req) then invalidateAndRefuse coveredEnv req "policy_changed"
      else
        s ← st_get;
        if negb (digest =s rq_PreviewTokenDigest req) then invalidateAndRefuse coveredEnv req (driftCause coveredEnv req s)
        else
          approvals ← st_result (countEligibleApprovals scopeEnv (ListApprovers (rq_PolicyID req) s) req policy s);
          if approvals <? po_MinApprovals policy then
            if bool_decide (rq_State req = ApprovalStateApproved) then invalidateAndRefuse coveredEnv req "approver_removed" else st_err ErrApprovalNotSatisfied
          else mret (MkOutcome true None (rq_ID req) false "" digest coveredEnv approvals None)
  end.

Definition approvalBypassGate (policy : ApprovalPolicy) (loaded : option ApprovalRequest) (reason : string) (coveredEnv : string) (keyIDs : list string) (digest : string) :
    ST Pub approvalOutcome :=
  match loaded with
  | None => st_err (EWrap "emergency bypass names an existing request" ErrInvalid)
  | Some req =>
      if px_machine X then st_err (EWrap "emergency bypass requires an interactive reauthenticated session" ErrUnauthorized)
      else if negb (rq_EnvironmentID req =s coveredEnv) then st_err (EWrap "the request does not belong to this environment" ErrConflict)
      else if negb (isActiveRequest (rq_State req)) then st_err (EWrap "the request is resolved" ErrConflict)
      else if rq_ExpiresAt req <=? px_now X then st_err (EWrap "the request has expired" ErrConflict)
      else if negb (px_principal X =s rq_RequesterPrincipalID req) then st_err (EWrap "only the proposer may commit their own change set" ErrUnauthorized)
      else if negb (po_ID policy =s rq_PolicyID req) || negb (po_Version policy =? rq_PolicyVersion req) then invalidateAndRefuse coveredEnv req "policy_changed"
      else
        s ← st_get;
        if negb (digest =s rq_PreviewTokenDigest req) then invalidateAndRefuse coveredEnv req (driftCause coveredEnv req s)
        else if negb (IsBypasser (po_ID policy) (px_principal X) s) then st_err (EWrap "not a named emergency bypasser of this policy" ErrUnauthorized)
        else
          let reason := SanitizeFreeText reason in
          if reason =s "" then st_err (EWrap "emergency bypass requires a reason" ErrInvalid)
          else if 512 <? Z.of_nat (String.length reason) then st_err (EWrap "the bypass reason is too long" ErrInvalid)
          else
            st_result (px_ceremony X PurposeBypass coveredEnv keyIDs) ;;
            mret (MkOutcome true None (rq_ID req) true reason digest coveredEnv 0 None)
  end.

(** The first covered environment, in the order of the publish. *)
Definition coveredBy (envs : list string) (s : Pub) : option (string * ApprovalPolicy) :=
  first_some (fun env => pair env <$> CoveringPolicy env s) envs.

Definition approvalGate (scopeEnv : string) (request : PublishRequest) (loaded : option ApprovalRequest) (selection : gmap string (list pendingApply))
    (closed : list string) (envs : list string) : ST Pub approvalOutcome :=
  s ← st_get;
  match coveredBy envs s with
  | None =>
      match loaded with
      | Some req =>
          if isActiveRequest (rq_State req) then
            if negb (contains envs (rq_EnvironmentID req)) then st_err (EWrap "the request environment is not in this publish" ErrConflict)
            else invalidateAndRefuse (rq_EnvironmentID req) req "policy_changed"
          else mret ungated
      | None => mret ungated
      end
  | Some (coveredEnv, policy) =>
      if (1 <? size selection)%nat then st_err ErrApprovalGatedMultiEnv
      else
        let keyIDs := selectionKeyIDs (default [] (selection !! coveredEnv)) in
        token ← st_result (publishPreviewToken X scopeEnv (px_principal X) selection s);
        let digest := approvalPreviewDigest token in
        match rp_Bypass request with
        | Some reason => approvalBypassGate policy loaded reason coveredEnv keyIDs digest
        | None => if negb (rp_ApprovalRequestID request =s "") then approvalMergeGate policy loaded coveredEnv scopeEnv digest
                  else approvalCreateGate request policy coveredEnv keyIDs digest closed
        end
  end.

Definition resolveApprovalAfterPublish (outcome : approvalOutcome) (revision : Z) : ST Pub () :=
  if ao_bypass outcome then
    _ ← UpdateRequestState (ao_coveredEnv outcome) (ao_resolveID outcome) ApprovalStateBypassed "" (Some (px_now X));
    insertTenant (EventApprovalBypassed, MkObject "approval-request" (ao_resolveID outcome),
      [("reason", VString (ao_reason outcome)); ("revision", VInt64 revision); ("preview_digest", VString (ao_previewDigest outcome))])
  else
    _ ← UpdateRequestState (ao_coveredEnv outcome) (ao_resolveID outcome) ApprovalStateMerged "" (Some (px_now X));
    insertTenant (EventApprovalMerged, MkObject "approval-request" (ao_resolveID outcome),
      [("revision", VInt64 revision); ("approvals", VInt (ao_approvals outcome)); ("preview_digest", VString (ao_previewDigest outcome))]).
End Approvals.
