(* ===== verification/Publish.v ===== *)
(** * Saving, publishing and restoring values

    [internal/service/values.go] ([Set], [Unset]), [internal/service/publish.go]
    ([PublishPlanned], [buildImpactPreview]) and [internal/service/rollback.go]
    ([Restore]), as transactions over the tables of [PublishStore]. *)

From S2P Require Import Prelude Domain EventNames OperationNames Utf8 GoStrings FreeText Schema AuditEvent Parameters Envelope KeyTables Keyring Definitions DefinitionsStore DefinitionsApply PublishStore GroupIndex Materialize Selection Approvals.
From Stdlib Require Import Ascii.

#[local] Open Scope Z_scope.

Definition MaxPendingPerProject : Z := 100.
Definition ErrProtectedDestination : error := sentinelConflict "service.ErrProtectedDestination".

(** [tx.Write]: a refused transaction leaves nothing. *)
Definition write {S A} (m : ST S A) : ST S A := fun s =>
  match m s with
  | (Ok a, s') => (Ok a, s')
  | (r, _) => (r, s)
  end.

Definition keyByName (keys : list CatalogueRow) (name : string) : result CatalogueRow :=
  match List.find (fun k => ca_Name k.2 =s name) keys with
  | Some k => Ok k
  | None => Err (EWrap "no such key is declared in this project" ErrNotFound)
  end.

Section Operations.
Context `{FieldSealer} (X : PublishContext) (sha256hex : string -> string).

(** ** Saving a draft *)
Record StagedChange := MkStaged {
  sg_VersionID : string; sg_KeyID : string; sg_Name : string; sg_Classification : string; sg_Operation : PendingOperation; sg_StagedFromRevision : Z; sg_CreatedAt : Z }.

(** The published entry the cell holds now; [""] for an absent cell. *)
Definition baselineOf (env keyID : string) (s : Pub) : result string :=
  match Values_Get env keyID s with
  | Ok entry => Ok (ve_ID entry)
  | Err e => if errors_Is e "domain.ErrNotFound" then Ok "" else Err e
  | Panic p => Panic p
  end.

(** [SealField] of a set draft and the writer fence; an unset draft carries nothing. *)
Definition sealDraft (env keyID versionID : string) (operation : PendingOperation) (value : bytes) : ST Pub bytes :=
  match operation with
  | PendingUnset => mret []
  | PendingSet => sealed ← sealField (pendingAAD X env keyID versionID) value; st_result (fenceProject X) ;; mret sealed
  end.

Definition stagedEvent (key : CatalogueRow) (operation : PendingOperation) (versionID : string) : AuditEntry :=
  (EventValueStaged, MkObject "key" key.1, keyPayload key ++ [("operation", VString (operationName operation)); ("version_id", VString versionID)]).

Definition stageBody (env keyName : string) (operation : PendingOperation) (value : bytes) : ST Pub StagedChange :=
  st_result (px_authorize X OpValueStage env) ;;
  s ← st_get;
  key ← st_result (keyByName (cat_keys (pb_cat s)) keyName);
  if MaxPendingPerProject <=? CountForProjectExcludingCell env key.1 (px_principal X) s then st_err (EWrap "a project holds at most 100 pending changes" ErrLimitExceeded)
  else
    revision ← st_result (currentRevision env s);
    baseline ← st_result (baselineOf env key.1 s);
    versionID ← newID "pcv";
    sealed ← sealDraft env key.1 versionID operation (normalizeStoredValue X key value);
    let secret := ca_Classification key.2 =s Secret in
    Pending_Stage env key.1 (px_principal X)
      (MkNewPending versionID operation sealed revision baseline (px_now X) PendingSourceValues secret secret) ;;
    insertTenant (stagedEvent key operation versionID) ;;
    warnings ← st_result (match operation with PendingSet => px_scan X key (Normalize value) | PendingUnset => Ok [] end);
    st_modify (fun s => set_audit (pb_audit s ++ warnings) s) ;;
    mret (MkStaged versionID key.1 (ca_Name key.2) (ca_Classification key.2) operation revision (px_now X)).

Definition stage (env keyName : string) (operation : PendingOperation) (value : bytes) : ST Pub StagedChange :=
  if env =s "" then st_err (EWrap "a value addresses an environment" ErrInvalid)
  else st_result (px_authorize X OpValueStage env) ;; write (stageBody env keyName operation value).

Definition Set_ (env keyName : string) (value : bytes) : ST Pub StagedChange := stage env keyName PendingSet value.
Definition Unset_ (env keyName : string) : ST Pub StagedChange := stage env keyName PendingUnset [].

(** ** Publishing *)
Record PublishResult := MkPublishResult { pr_Published : list string; pr_ClosedIn : list string; pr_Environments : list PublishedEnvironment }.
Inductive PublishOutcome := Committed (r : PublishResult) | RequestCreated (req : ApprovalRequest) | RefusedAfterCommit (e : error).

(** A merge whose pinned drafts are gone invalidates its request, and commits that. *)
Definition orInvalidate {A} (loaded : option ApprovalRequest) (env : string) (r : result A) (k : A -> ST Pub PublishOutcome) : ST Pub PublishOutcome :=
  match r with
  | Ok a => k a
  | Panic p => st_result (Panic p)
  | Err e =>
      match loaded with
      | Some req =>
          if isActiveRequest (rq_State req) && isStalePending e
          then commitInvalidation X env req "draft_edited" ;; mret (RefusedAfterCommit (staleRefusal "draft_edited"))
          else st_err e
      | None => st_err e
      end
  end.

Definition selectedEnvironments (selected : gmap string PendingChange) : list string := compact (map (fun kv => pc_EnvironmentID kv.2) (map_to_list selected)).

Fixpoint authorizeEnvironments (scopeEnv : string) (envs : list string) : result () :=
  match envs with
  | [] => Ok ()
  | env :: rest => _ ← (if env =s scopeEnv then Ok () else px_authorize X OpValuePublish env); authorizeEnvironments scopeEnv rest
  end.

Definition restoreSelected (selection : gmap string (list pendingApply)) : bool :=
  existsb (fun kv => existsb (fun a => bool_decide (pa_source a = PendingSourceRestore)) kv.2) (map_to_list selection).

Definition checkPreview (scopeEnv : string) (request : PublishRequest) (selection : gmap string (list pendingApply)) (s : Pub) : result () :=
  if restoreSelected selection && (rp_ApprovalRequestID request =s "") then
    token ← publishPreviewToken X scopeEnv (px_principal X) selection s;
    if (rp_PreviewToken request =s "") || negb (rp_PreviewToken request =s token) then Err ErrStalePreview else Ok ()
  else Ok ().

Fixpoint protectedOf (envs : list string) : result (list string) :=
  match envs with
  | [] => Ok []
  | env :: rest => isProtected ← px_protected X env; out ← protectedOf rest; Ok (if isProtected : bool then env :: out else out)
  end.

Definition checkConfirmation (request : PublishRequest) (protectedEnvs : list string) : result () :=
  if px_machine X then
    let confirmed := sortStrings (rp_ConfirmedProtected request) in
    match firstDuplicate ∅ confirmed with
    | Some _ => Err (invalidDetail "protected environment is confirmed more than once")
    | None =>
        if negb (forallb (contains confirmed) protectedEnvs) then Err (EWrap "confirm the protected destination explicitly" ErrProtectedDestination)
        else if bool_decide (confirmed = protectedEnvs) then Ok ()
        else Err (invalidDetail "protected-environment confirmation does not match the reviewed protected set")
    end
  else if bool_decide (rp_ConfirmedProtected request = []) then Ok ()
  else Err (invalidDetail "human protected-environment confirmation is supplied by the bound ceremony").

Fixpoint publishCeremonies (selection : gmap string (list pendingApply)) (bypass : bool) (protectedEnvs : list string) : result () :=
  match protectedEnvs with
  | [] => Ok ()
  | env :: rest =>
      _ ← (if px_machine X || bypass then Ok () else px_ceremony X PurposePublish env (map pa_keyID (default [] (selection !! env))));
      publishCeremonies selection bypass rest
  end.

Definition withValue (a : pendingApply) (value : bytes) : pendingApply :=
  MkApply (pa_versionID a) (pa_keyID a) (pa_set a) value (pa_sealed a) (pa_stagedFrom a) (pa_stagedFromEntry a) (pa_source a) (pa_secret a) (pa_materialSecret a).

Fixpoint openApplies (env : string) (applies : list pendingApply) : result (list pendingApply) :=
  match applies with
  | [] => Ok []
  | a :: rest =>
      a ← (if negb (pa_set a) then Ok a
           else match fs_Open (pendingAAD X env (pa_keyID a) (pa_versionID a)) (pa_sealed a) with
                | Ok plain => Ok (withValue a plain)
                | Err e => Err (EWrap ("service: pending change " +:+ pa_versionID a) e)
                | Panic p => Panic p
                end);
      out ← openApplies env rest;
      Ok (a :: out)
  end.

Fixpoint discardApplies (env : string) (applies : list pendingApply) : ST Pub () :=
  match applies with
  | [] => mret ()
  | a :: rest =>
      existed ← Pending_Discard env (pa_versionID a);
      if negb existed then st_err (stalePending "version vanished mid-publish") else discardApplies env rest
  end.

Definition triggerOf (applies : list pendingApply) : string :=
  if existsb (fun a => bool_decide (pa_source a = PendingSourceRestore)) applies then "restore" else "values".

Definition publishEnvironment (groups : groupIndex) (env : string) (applies : list pendingApply) : ST Pub PublishedEnvironment :=
  s ← st_get;
  st_result (checkFreshness env applies groups s) ;;
  applies ← st_result (openApplies env applies);
  '(published, _) ← materialize X env applies (storageLimit X) groups None;
  discardApplies env applies ;;
  recordPublish X env published (Z.of_nat (length applies)) (triggerOf applies) ;;
  mret published.

Fixpoint publishEnvironments (groups : groupIndex) (selection : gmap string (list pendingApply)) (envs : list string) : ST Pub (list PublishedEnvironment) :=
  match envs with
  | [] => mret []
  | env :: rest =>
      published ← publishEnvironment groups env (default [] (selection !! env));
      out ← publishEnvironments groups selection rest;
      mret (published :: out)
  end.

Definition publishedIn (env : string) (out : list PublishedEnvironment) : Z :=
  foldl (fun r pe => if pe_EnvironmentID pe =s env then pe_Revision pe else r) 0 out.

(** From the gate's outcome on. *)
Definition commitSelection (request : PublishRequest) (groups : groupIndex) (selection : gmap string (list pendingApply)) (closed : list string)
    (approval : approvalOutcome) : ST Pub PublishOutcome :=
  let envs := sortedKeys selection in
  protectedEnvs ← st_result (protectedOf envs);
  st_result (checkConfirmation request protectedEnvs) ;;
  st_result (publishCeremonies selection (ao_bypass approval) protectedEnvs) ;;
  out ← publishEnvironments groups selection envs;
  (if ao_resolveID approval =s "" then mret () else resolveApprovalAfterPublish X approval (publishedIn (ao_coveredEnv approval) out)) ;;
  mret (Committed (MkPublishResult (sortStrings (flat_map (fun env => map pa_versionID (default [] (selection !! env))) envs)) closed out)).

Definition publishBody (env : string) (request : PublishRequest) : ST Pub PublishOutcome :=
  st_result (px_authorize X OpValuePublish env) ;;
  st_result (px_charge X) ;;
  s ← st_get;
  loaded ← (if rp_ApprovalRequestID request =s "" then mret None
            else req ← st_result (GetRequest env (rp_ApprovalRequestID request) s); mret (Some req));
  let versionIDs := match loaded with Some req => rq_VersionIDs req | None => rp_VersionIDs request end in
  orInvalidate loaded env (resolveVersions (px_principal X) versionIDs s) (fun '(selected, byID) =>
    let envs := selectedEnvironments selected in
    st_result (authorizeEnvironments env envs) ;;
    groups ← st_result (loadGroupIndex s);
    orInvalidate loaded env (selectVersions (px_principal X) selected byID groups s) (fun '(selection, closed) =>
      if negb (forallb (contains envs) (sortedKeys selection)) then st_err (ENew "service: key-group closure added environment")
      else
        st_result (checkPreview env request selection s) ;;
        approval ← approvalGate X sha256hex env request loaded selection closed envs;
        match ao_refusal approval, ao_created approval with
        | Some refusal, _ => mret (RefusedAfterCommit refusal)
        | None, Some req => mret (RequestCreated req)
        | None, None => commitSelection request groups selection closed approval
        end)).

(** [Committed] and [RequestCreated] are answers; [RefusedAfterCommit] is an error
    whose transaction stands. *)
Definition PublishPlanned (env : string) (request : PublishRequest) : ST Pub PublishOutcome :=
  if env =s "" then st_err (EWrap "a publish addresses an environment" ErrInvalid)
  else if bool_decide (rp_VersionIDs request = []) && (rp_ApprovalRequestID request =s "") then st_err (EWrap "a publish names the pending changes it commits" ErrInvalid)
  else match firstDuplicate ∅ (rp_VersionIDs request) with
  | Some dup => st_err (invalidDetail ("pending change " +:+ dup +:+ " is named more than once"))
  | None =>
      st_result (px_acquire X) ;;
      st_result (px_authorize X OpValuePublish env) ;;
      write (publishBody env request)
  end.

(** ** The impact preview of a restore *)
Record ImpactChange := MkImpactChange {
  ic_VersionID : string; ic_KeyID : string; ic_Name : string; ic_Classification : string; ic_Set : bool; ic_Status : string;
  ic_Before : option bytes; ic_After : option bytes }.
Record ImpactEnvironment := MkImpactEnv {
  ie_EnvironmentID : string; ie_BaseRevision : Z; ie_SchemaRevision : Z; ie_Protected : bool; ie_Changes : list ImpactChange }.
Record ImpactPreview := MkPreview { ip_Token : string; ip_Environments : list ImpactEnvironment }.

Definition impactStatus (set_ before : bool) : string :=
  if set_ && negb before then "added" else if negb set_ && before then "removed" else if negb set_ then "not-edited" else "edited".

Definition openDraft (env : string) (a : pendingApply) : result bytes := fs_Open (pendingAAD X env (pa_keyID a) (pa_versionID a)) (pa_sealed a).

Definition impactChange (env : string) (groups : groupIndex) (entries : gmap string ValueEntry) (canRead : bool) (a : pendingApply) : result ImpactChange :=
  match gi_keyByID groups !! pa_keyID a with
  | None => Err (ENew "service: group index: key is not indexed")
  | Some key =>
      let status := impactStatus (pa_set a) (bool_decide (is_Some (entries !! pa_keyID a))) in
      let secret := pa_secret a || (ca_Classification key =s Secret) in
      let change cls before after := MkImpactChange (pa_versionID a) (pa_keyID a) (ca_Name key) cls (pa_set a) status before after in
      if secret then Ok (change Secret None None)
      else if negb canRead then Ok (change (ca_Classification key) None None)
      else
        before ← match entries !! pa_keyID a with None => Ok None | Some e => v ← openCell X e; Ok (Some v) end;
        after ← (if pa_set a then v ← openDraft env a; Ok (Some v) else Ok None);
        Ok (change (ca_Classification key) before after)
  end.

Fixpoint impactChanges (env : string) (groups : groupIndex) (entries : gmap string ValueEntry) (canRead : bool) (applies : list pendingApply) : result (list ImpactChange) :=
  match applies with
  | [] => Ok []
  | a :: rest => c ← impactChange env groups entries canRead a; cs ← impactChanges env groups entries canRead rest; Ok (c :: cs)
  end.

Fixpoint impactEnvironments (groups : groupIndex) (selection : gmap string (list pendingApply)) (envs : list string) (s : Pub) : result (list ImpactEnvironment) :=
  match envs with
  | [] => Ok []
  | env :: rest =>
      base ← currentRevision env s;
      canRead ← px_holds X (px_principal X) OpRevisionShow env;
      isProtected ← px_protected X env;
      changes ← impactChanges env groups (entryByKey (Values_List env s)) canRead (default [] (selection !! env));
      out ← impactEnvironments groups selection rest s;
      Ok (MkImpactEnv env base (cat_schemaRevision (pb_cat s)) isProtected (sortBy ic_Name changes) :: out)
  end.

Definition buildImpactPreview (env : string) (versionIDs : list string) (s : Pub) : result ImpactPreview :=
  '(selected, byID) ← resolveVersions (px_principal X) versionIDs s;
  groups ← loadGroupMembershipIndex s;
  '(selection, _) ← selectVersions (px_principal X) selected byID groups s;
  token ← publishPreviewToken X env (px_principal X) selection s;
  envs ← impactEnvironments groups selection (sortedKeys selection) s;
  Ok (MkPreview token envs).

(** ** Restoring *)
Record RestoreResult := MkRestore { rr_Revision : Z; rr_Changes : list StagedChange; rr_Preview : ImpactPreview }.

Definition validateSnapshotEntryKeys (keys : list CatalogueRow) (entries : list SnapshotEntry) : result () :=
  if forallb (fun e => contains (map fst keys) (se_KeyID e)) entries then Ok ()
  else Err (invalidDetail "revision contains a key which is absent from the current schema").

(** The keys a restore compares: all of them, or the named one. *)
Definition restoreKeys (keyName : string) (keys : list CatalogueRow) (targetEntries : list SnapshotEntry) : result (list CatalogueRow) :=
  if keyName =s "" then _ ← validateSnapshotEntryKeys keys targetEntries; Ok keys
  else
    key ← keyByName keys keyName;
    if existsb (fun e => (se_KeyName e =s keyName) && negb (se_KeyID e =s key.1)) targetEntries
    then Err (invalidDetail "revision contains an earlier key of that name with a different identity") else Ok [key].

Definition targetByKey (entries : list SnapshotEntry) : gmap string SnapshotEntry := foldl (fun m e => <[ se_KeyID e := e ]> m) ∅ entries.

(** The value entries known to have been secret, of those in play. *)
Definition stickySecretValueEntries (env : string) (ids : list string) (s : Pub) : gset string :=
  list_to_set (List.filter (contains ids) (SecretValueOccurrenceIDs env s)).

Section Restore.
Context (env : string) (latest target : Snapshot) (targets : gmap string SnapshotEntry) (currents : gmap string ValueEntry) (sticky : gset string).

Definition isSticky (id : string) : bool := bool_decide (id ∈ sticky).
Definition historicalSecret (key : CatalogueRow) : bool :=
  match targets !! key.1 with Some e => (se_Classification e =s Secret) || isSticky (se_ValueEntryID e) | None => false end.
(** The current plaintext is opened only to compare two set values. *)
Definition currentSecret (key : CatalogueRow) : bool :=
  match targets !! key.1, currents !! key.1 with
  | Some _, Some c => (ca_Classification key.2 =s Secret) || isSticky (ve_ID c)
  | _, _ => false
  end.

(** Reveal authority, and one ceremony over every secret key involved. *)
Definition restoreGate (keys : list CatalogueRow) : result () :=
  let unit := map fst (List.filter (fun k => historicalSecret k || currentSecret k) keys) in
  _ ← (if existsb historicalSecret keys then px_authorize X OpRevisionRestoreHistory env else Ok ());
  _ ← (if existsb currentSecret keys then px_authorize X OpRevisionRestoreCurrent env else Ok ());
  if bool_decide (unit = []) then Ok () else px_ceremony X PurposeReveal env unit.

Definition disclosureEvent (keyID name : string) (revision : Z) : AuditEntry :=
  (EventValueRevealed, MkObject "key" keyID, [("key_id", VString keyID); ("name", text name); ("surface", VString "restore"); ("revision", VInt64 revision)]).

Definition openSnapshotEntry (e : SnapshotEntry) : result bytes :=
  match fs_Open (snapshotAAD X (se_EnvironmentID e) (se_KeyID e) (se_SnapshotID e) (se_ID e)) (se_Ciphertext e) with
  | Err err => Err (EWrap ("service: snapshot entry " +:+ se_ID e) err)
  | r => r
  end.

(** The draft a key needs: [None] when the two states agree on it. *)
Definition compareKey (key : CatalogueRow) : ST Pub (option (PendingOperation * bytes)) :=
  match targets !! key.1, currents !! key.1 with
  | None, None => mret None
  | None, Some _ => mret (Some (PendingUnset, []))
  | Some t, current =>
      value ← st_result (openSnapshotEntry t);
      (if historicalSecret key then insertTenant (disclosureEvent (se_KeyID t) (se_KeyName t) (sn_Revision target)) else mret ()) ;;
      match current with
      | None => mret (Some (PendingSet, value))
      | Some c =>
          now ← st_result (openCell X c);
          (if currentSecret key then insertTenant (disclosureEvent key.1 (ca_Name key.2) (sn_Revision latest)) else mret ()) ;;
          mret (if bool_decide (now = value) then None else Some (PendingSet, value))
      end
  end.

Definition restoreKey (key : CatalogueRow) : ST Pub (option StagedChange) :=
  if sn_Revision target =? sn_Revision latest then mret None
  else
    change ← compareKey key;
    match change with
    | None => mret None
    | Some (operation, value) =>
        versionID ← newID "pcv";
        sealed ← sealDraft env key.1 versionID operation value;
        let baseline := match currents !! key.1 with Some c => ve_ID c | None => "" end in
        let historical := historicalSecret key in
        let secret := historical || isSticky baseline || (ca_Classification key.2 =s Secret) in
        Pending_Stage env key.1 (px_principal X)
          (MkNewPending versionID operation sealed (sn_Revision latest) baseline (px_now X) PendingSourceRestore secret
             (bool_decide (operation = PendingSet) && historical)) ;;
        insertTenant (stagedEvent key operation versionID) ;;
        mret (Some (MkStaged versionID key.1 (ca_Name key.2) (ca_Classification key.2) operation (sn_Revision latest) (px_now X)))
    end.

Fixpoint restoreEach (keys : list CatalogueRow) : ST Pub (list StagedChange) :=
  match keys with
  | [] => mret []
  | key :: rest =>
      change ← restoreKey key;
      out ← restoreEach rest;
      mret (match change with Some c => c :: out | None => out end)
  end.
End Restore.

Definition collectedRevisionError : error := EWrap "collected" ErrRevisionCollected.

Definition restoreBody (env : string) (revision : Z) (keyName : string) : ST Pub RestoreResult :=
  st_result (px_authorize X OpRevisionRestore env) ;;
  s ← st_get;
  latest ← st_result (Latest env s);
  target ← st_result (AtRevision env revision s);
  if negb (PayloadPresent target) then st_err collectedRevisionError
  else
    _ ← st_result (if keyName =s "" then Ok () else _ ← keyByName (cat_keys (pb_cat s)) keyName; Ok ());
    targetEntries ← st_result (Entries env target s);
    keys ← st_result (restoreKeys keyName (cat_keys (pb_cat s)) targetEntries);
    let targets := targetByKey targetEntries in
    let currentEntries := Values_List env s in
    let currents := entryByKey currentEntries in
    let sticky := stickySecretValueEntries env (map se_ValueEntryID targetEntries ++ map ve_ID currentEntries) s in
    st_result (if sn_Revision target =? sn_Revision latest then Ok () else restoreGate env targets currents sticky keys) ;;
    changes ← restoreEach env latest target targets currents sticky keys;
    s ← st_get;
    preview ← st_result (if bool_decide (changes = []) then Ok (MkPreview "" []) else buildImpactPreview env (map sg_VersionID changes) s);
    insertTenant (EventRevisionRestoreStaged, MkObject "environment" env,
      [("revision", VInt64 revision); ("key_count", VInt (Z.of_nat (length changes)))] ++ (if keyName =s "" then [] else [("key", text keyName)])) ;;
    mret (MkRestore revision changes preview).

Definition Restore (env : string) (revision : Z) (keyName : string) : ST Pub RestoreResult :=
  if env =s "" then st_err (EWrap "a restore addresses an environment" ErrInvalid)
  else if revision <=? 0 then st_err (invalidDetail "restore revision must be positive")
  else st_result (px_authorize X OpRevisionRestore env) ;; write (restoreBody env revision keyName).
End Operations.
