(* ===== verification/Voting.v ===== *)
(** * Approval policies, votes and expiry

    [internal/service/approvals.go]: policy administration, [Vote] and the
    expiry sweep, as transactions over the approval tables. *)

From S2P Require Import Prelude Domain EventNames OperationNames Utf8 FreeText Schema AuditEvent Parameters Envelope Definitions DefinitionsStore DefinitionsApply PublishStore GroupIndex Materialize Selection Approvals Publish.

#[local] Open Scope Z_scope.

Record ApprovalApproverSpec := MkApproverSpec { as_Kind : string; as_SubjectID : string; as_BindingID : string }.
Record ApprovalPolicyInput := MkPolicyInput {
  pi_EnvironmentID : string; pi_MinApprovals : Z; pi_AllowSelfApproval : bool; pi_RequestTTLSeconds : Z; pi_Enabled : bool;
  pi_Approvers : list ApprovalApproverSpec; pi_Bypassers : list string }.

Definition kindOf (k : string) : option ApprovalApproverKind :=
  if k =s "principal" then Some ApprovalApproverPrincipal else if k =s "scim_group" then Some ApprovalApproverSCIMGroup else None.

Definition validApprover (a : ApprovalApproverSpec) : result () :=
  match kindOf (as_Kind a) with
  | Some ApprovalApproverPrincipal => if as_SubjectID a =s "" then Err (EWrap "a principal approver needs a subject" ErrInvalid) else Ok ()
  | Some ApprovalApproverSCIMGroup =>
      if (as_SubjectID a =s "") || (as_BindingID a =s "") then Err (EWrap "a SCIM-group approver needs a group and its binding" ErrInvalid) else Ok ()
  | None => Err (EWrap "unknown approver kind" ErrInvalid)
  end.
Fixpoint validApprovers (l : list ApprovalApproverSpec) : result () :=
  match l with [] => Ok () | a :: rest => _ ← validApprover a; validApprovers rest end.

Definition validatePolicyInput (input : ApprovalPolicyInput) : result () :=
  if pi_MinApprovals input <? 1 then Err (EWrap "min_approvals must be at least 1" ErrInvalid)
  else if pi_RequestTTLSeconds input <=? 0 then Err (EWrap "request_ttl_seconds must be positive" ErrInvalid)
  else if maxApprovalPolicyMembers <? Z.of_nat (length (pi_Approvers input)) then Err (EWrap "approvers cannot contain more entries" ErrInvalid)
  else if maxApprovalPolicyMembers <? Z.of_nat (length (pi_Bypassers input)) then Err (EWrap "bypassers cannot contain more entries" ErrInvalid)
  else validApprovers (pi_Approvers input).

Section Voting.
Context (X : PublishContext) (sha256hex : string -> string).

Definition validatePolicyEnvironment (env : string) : result () :=
  if env =s "" then Ok ()
  else match px_protected X env with
       | Ok _ => Ok ()
       | Err e => if errors_Is e "domain.ErrNotFound" then Err (EWrap "environment is not in this project" ErrInvalid) else Err e
       | Panic p => Panic p
       end.

Fixpoint writeApprovers (policyID : string) (l : list ApprovalApproverSpec) : ST Pub () :=
  match l with
  | [] => mret ()
  | a :: rest =>
      id ← newID "aapr";
      InsertApprover (MkApprover id policyID (default ApprovalApproverPrincipal (kindOf (as_Kind a))) (as_SubjectID a) (as_BindingID a)) ;;
      writeApprovers policyID rest
  end.
Fixpoint writeBypassers (policyID : string) (l : list string) : ST Pub () :=
  match l with
  | [] => mret ()
  | p :: rest => id ← newID "abyp"; InsertBypasser (MkBypasser id policyID p) ;; writeBypassers policyID rest
  end.
Definition writePolicyMembers (policyID : string) (input : ApprovalPolicyInput) : ST Pub () :=
  writeApprovers policyID (pi_Approvers input) ;; writeBypassers policyID (pi_Bypassers input).

Definition recordPolicyChangeCounts (policyID action env : string) (min : Z) (self enabled : bool) (approvers bypassers : nat) : ST Pub () :=
  insertTenant (EventApprovalPolicyChanged, MkObject "approval-policy" policyID,
    [("action", VString action); ("environment", VString env); ("min_approvals", VInt min); ("self_approval", VBool self); ("enabled", VBool enabled);
     ("approver_count", VInt (Z.of_nat approvers)); ("bypasser_count", VInt (Z.of_nat bypassers))]).
Definition recordPolicyChange (policyID action : string) (input : ApprovalPolicyInput) : ST Pub () :=
  recordPolicyChangeCounts policyID action (pi_EnvironmentID input) (pi_MinApprovals input) (pi_AllowSelfApproval input) (pi_Enabled input)
    (length (pi_Approvers input)) (length (pi_Bypassers input)).

Definition CreatePolicy (input : ApprovalPolicyInput) : ST Pub string :=
  st_result (validatePolicyInput input) ;;
  write (
    st_result (px_authorize X OpApprovalPolicyWrite "") ;;
    st_result (validatePolicyEnvironment (pi_EnvironmentID input)) ;;
    id ← newID "apol";
    InsertPolicy (MkPolicy id (pi_EnvironmentID input) (pi_MinApprovals input) (pi_AllowSelfApproval input) (pi_RequestTTLSeconds input)
      (pi_Enabled input) 1 (px_principal X) (px_now X) (px_now X)) ;;
    writePolicyMembers id input ;;
    recordPolicyChange id "created" input ;;
    mret id).

Definition UpdatePolicy (id : string) (input : ApprovalPolicyInput) : ST Pub () :=
  st_result (validatePolicyInput input) ;;
  write (
    st_result (px_authorize X OpApprovalPolicyWrite "") ;;
    s ← st_get;
    current ← st_result (GetPolicy id s);
    if negb (pi_EnvironmentID input =s po_EnvironmentID current) then st_err (EWrap "an approval policy's environment cannot be changed" ErrInvalid)
    else
      updated ← Repo_UpdatePolicy id (pi_MinApprovals input) (pi_AllowSelfApproval input) (pi_RequestTTLSeconds input) (pi_Enabled input) (px_now X);
      if negb updated then st_err ErrNotFound
      else
        ClearMembers id ;;
        writePolicyMembers id input ;;
        recordPolicyChange id "updated" input).

Definition DeletePolicy (id : string) : ST Pub () :=
  write (
    st_result (px_authorize X OpApprovalPolicyWrite "") ;;
    s ← st_get;
    policy ← st_result (GetPolicy id s);
    deleted ← Repo_DeletePolicy id;
    if negb deleted then st_err ErrNotFound
    else recordPolicyChangeCounts id "deleted" (po_EnvironmentID policy) (po_MinApprovals policy) (po_AllowSelfApproval policy) false 0 0).

(** ** Voting *)

(** The request's publish selection, rebuilt from the requester's drafts. *)
Definition requestPreviewDigest (scopeEnv : string) (req : ApprovalRequest) (s : Pub) : result string :=
  '(selected, byID) ← resolveVersions (rq_RequesterPrincipalID req) (rq_VersionIDs req) s;
  groups ← loadGroupMembershipIndex s;
  '(selection, closed) ← selectVersions (rq_RequesterPrincipalID req) selected byID groups s;
  if negb (bool_decide (sortedUnique closed = sortedUnique (rq_ClosedVersionIDs req))) || negb (size selection =? 1)%nat then Err ErrStalePending
  else match selection !! rq_EnvironmentID req with
       | None => Err ErrStalePending
       | Some _ =>
           token ← publishPreviewToken X scopeEnv (rq_RequesterPrincipalID req) selection s;
           Ok (approvalPreviewDigest sha256hex token)
       end.

Inductive VoteOutcome := Voted (st : ApprovalRequestState) | VoteRefused (e : error).

Definition invalidateVote (env : string) (req : ApprovalRequest) (cause : string) : ST Pub VoteOutcome :=
  commitInvalidation X env req cause ;; mret (VoteRefused (staleRefusal cause)).

Definition alreadyVoted : error := EWrap "this approver already cast another vote" ErrConflict.

Definition voteEvent (req : ApprovalRequest) (decision : ApprovalVoteDecision) (self : bool) : AuditEntry :=
  (EventApprovalVoted, MkObject "approval-request" (rq_ID req),
   [("decision", VString (match decision with ApprovalDecisionApprove => "approve" | ApprovalDecisionReject => "reject" end)); ("self_approval", VBool self)]).

(** From a live, matching, eligible review on. *)
Definition castVote (env : string) (req : ApprovalRequest) (policy : ApprovalPolicy) (approvers : list ApprovalApprover) (decision : ApprovalVoteDecision) (self : bool) :
    ST Pub VoteOutcome :=
  st_result (px_ceremony X (match decision with ApprovalDecisionApprove => PurposeApprove | ApprovalDecisionReject => PurposeReject end)
    (rq_EnvironmentID req) (rq_KeyIDs req)) ;;
  voteID ← newID "avote";
  InsertVote (MkVote voteID (rq_ID req) (px_principal X) decision (px_now X)) ;;
  insertTenant (voteEvent req decision self) ;;
  (match decision with
   | ApprovalDecisionReject => _ ← UpdateRequestState env (rq_ID req) ApprovalStateRejected "" (Some (px_now X)); mret ()
   | ApprovalDecisionApprove =>
       s ← st_get;
       approvals ← st_result (countEligibleApprovals X env approvers req policy s);
       if (po_MinApprovals policy <=? approvals) && negb (bool_decide (rq_State req = ApprovalStateApproved))
       then _ ← UpdateRequestState env (rq_ID req) ApprovalStateApproved "" None; mret () else mret ()
   end) ;;
  s ← st_get;
  fresh ← st_result (GetRequest env (rq_ID req) s);
  mret (Voted (rq_State fresh)).

Definition voteBody (env requestID : string) (decision : ApprovalVoteDecision) : ST Pub VoteOutcome :=
  st_result (px_authorize X OpApprovalVote env) ;;
  s ← st_get;
  req ← st_result (GetRequest env requestID s);
  let existing := gt_votes (pb_gate s) !! (requestID, px_principal X) in
  if negb (isActiveRequest (rq_State req)) then
    match existing with
    | Some v => if bool_decide (av_Decision v = decision) then mret (Voted (rq_State req)) else st_err alreadyVoted
    | None => st_err (EWrap "the request is resolved" ErrConflict)
    end
  else if rq_ExpiresAt req <=? px_now X then st_err (EWrap "the request has expired" ErrConflict)
  else
    match GetPolicy (rq_PolicyID req) s with
    | Panic p => st_result (Panic p)
    | Err e => if errors_Is e "domain.ErrNotFound" then invalidateVote env req "policy_changed" else st_err e
    | Ok policy =>
        if negb (po_ID policy =s rq_PolicyID req) || negb (po_Version policy =? rq_PolicyVersion req) then invalidateVote env req "policy_changed"
        else
          let approvers := ListApprovers (rq_PolicyID req) s in
          eligible ← st_result (approverEligible X approvers (px_principal X));
          if negb eligible then st_err ErrUnauthorized
          else
            let self := px_principal X =s rq_RequesterPrincipalID req in
            if bool_decide (decision = ApprovalDecisionApprove) && self && negb (po_AllowSelfApproval policy)
            then st_err (EWrap "the requester cannot approve their own change under this policy" ErrUnauthorized)
            else
              match requestPreviewDigest env req s with
              | Panic p => st_result (Panic p)
              | Err e => if isStalePending e then invalidateVote env req (driftCause env req s) else st_err e
              | Ok digest =>
                  if negb (digest =s rq_PreviewTokenDigest req) then invalidateVote env req (driftCause env req s)
                  else match existing with
                       | Some v => if bool_decide (av_Decision v = decision) then mret (Voted (rq_State req)) else st_err alreadyVoted
                       | None => castVote env req policy approvers decision self
                       end
              end
    end.

Definition Vote (env requestID decisionRaw : string) : ST Pub VoteOutcome :=
  if decisionRaw =s "approve" then write (voteBody env requestID ApprovalDecisionApprove)
  else if decisionRaw =s "reject" then write (voteBody env requestID ApprovalDecisionReject)
  else st_err (EWrap "a vote is approve or reject" ErrInvalid).

(** ** The expiry sweep: one bounded batch *)
Fixpoint expireEach (due : list ApprovalRequest) (expired : Z) : ST Pub Z :=
  match due with
  | [] => mret expired
  | row :: rest =>
      marked ← MarkExpired (rq_ID row) (px_now X);
      if negb marked then expireEach rest expired
      else
        insertTenant (EventApprovalExpired, MkObject "approval-request" (rq_ID row), [("policy_id", VString (rq_PolicyID row)); ("expired_at", VString (px_formatTime X (px_now X)))]) ;;
        expireEach rest (expired + 1)
  end.
Definition ExpireDue : ST Pub Z := write (s ← st_get; expireEach (SelectExpired (px_now X) s) 0).
End Voting.
