(* ===== verification/PublishAccounting.v ===== *)
(** * Storage accounting of a schema fan-out

    A semantic schema change republishes every environment of the project. The
    fan-out keeps the project's stored bytes as a running total instead of
    scanning the tables once per environment; this file shows that the total is
    exact and that the fan-out behaves as the one that rescans. *)

From S2P Require Import Prelude Domain EventNames OperationNames Utf8 Schema AuditEvent Parameters Envelope KeyTables Definitions DefinitionsStore DefinitionsApply PublishStore GroupIndex Materialize.

#[local] Open Scope Z_scope.

Lemma sum_perm (l l' : list Z) : Permutation l l' -> foldr Z.add 0 l = foldr Z.add 0 l'.
Proof. induction 1; cbn [foldr]; lia. Qed.

Lemma sum_insert `{Countable K} {A} (f : K * A -> Z) (m : gmap K A) k a : m !! k = None ->
  foldr Z.add 0 (map f (map_to_list (<[ k := a ]> m))) = f (k, a) + foldr Z.add 0 (map f (map_to_list m)).
Proof. intros Hk. by rewrite (sum_perm _ _ (Permutation_map f (map_to_list_insert m k a Hk))). Qed.

Section Accounting.
Context `{FieldSealer} (X : PublishContext).

(** The running total is the stored bytes. *)
Record accounted (st : schemaPublishStorage) (s : Pub) : Prop := {
  ac_loaded : sp_loaded st = true; ac_limit : sp_limit st = MaxProjectStorageBytes; ac_total : sp_total st = storedBytes s;
  ac_org : sp_org st = px_org X; ac_project : sp_project st = px_project X }.

(** A run that scans, and the same run that counts. *)
Definition sameRun {A} (scan count : result (A * option schemaPublishStorage) * Pub) : Prop :=
  scan.2 = count.2 /\
  match scan.1, count.1 with
  | Ok (a, None), Ok (b, Some st) => a = b /\ accounted st count.2
  | Err e, Err e' => e = e'
  | Panic p, Panic p' => p = p'
  | _, _ => False
  end.

Lemma sameRun_bind {A B} (m : ST Pub A) (f g : A -> ST Pub (B * option schemaPublishStorage)) s :
  (forall a s', m s = (Ok a, s') -> sameRun (f a s') (g a s')) -> sameRun ((m ≫= f) s) ((m ≫= g) s).
Proof. unfold mbind, st_bind. destruct (m s) as [[a|e|p] s']; intros Hfg; [by apply Hfg|by split..]. Qed.

Lemma sameRun_chain {A B} (m m' : ST Pub (A * option schemaPublishStorage)) (f g : A * option schemaPublishStorage -> ST Pub (B * option schemaPublishStorage)) s :
  sameRun (m s) (m' s) -> (forall a st s', accounted st s' -> sameRun (f (a, None) s') (g (a, Some st) s')) -> sameRun ((m ≫= f) s) ((m' ≫= g) s).
Proof.
  unfold mbind, st_bind, sameRun at 1. destruct (m s) as [[[a [|]]|e|p] s1], (m' s) as [[[b [st|]]|e'|p'] s2]; cbn [fst snd]; intros [<- Hr] Hfg; try done.
  destruct Hr as [<- Hst]. by apply Hfg.
Qed.

Lemma accounted_add st s s' n : accounted st s -> storedBytes s' = storedBytes s + n -> accounted (addStorage n st) s'.
Proof. intros [Hl Hm Ht Ho Hp] Hs. split; [done|done|cbn [addStorage sp_total]; lia|done|done]. Qed.
Lemma accounted_eq st s s' : accounted st s -> storedBytes s' = storedBytes s -> accounted st s'.
Proof. intros [Hl Hm Ht Ho Hp] Hs. split; [done|done|by rewrite Hs|done|done]. Qed.

(** ** What each write adds *)
Lemma bytes_newID p s id s' : newID p s = (Ok id, s') -> storedBytes s' = storedBytes s.
Proof. unfold newID. destruct (pb_uuids s); [discriminate|]. by intros [= _ <-]. Qed.
Lemma bytes_sealField a p s c s' : sealField a p s = (Ok c, s') -> storedBytes s' = storedBytes s.
Proof. unfold sealField. intros (rnd & s1 & [= _ <-] & Hc)%st_bind_Ok. by injection Hc as _ <-. Qed.

Lemma bytes_Snapshots_Insert env row s s' : Snapshots_Insert env row s = (Ok (), s') ->
  storedBytes s' = storedBytes s + contractBytes (sn_ParameterContract row).
Proof.
  unfold Snapshots_Insert. destruct (bool_decide (is_Some (pb_snapshots s !! (env, sn_Revision row)))) eqn:Hk; [discriminate|].
  destruct (_ || _); [discriminate|]. intros [= <-]. apply bool_decide_eq_false in Hk. rewrite <- eq_None_not_Some in Hk.
  unfold storedBytes, Snapshots_PayloadBytesForProject, Values_PayloadBytesForProject. cbn [set_snapshots pb_values pb_entries pb_snapshots].
  rewrite (sum_insert _ _ _ _ Hk). cbn [snd]. lia.
Qed.

Lemma bytes_InsertEntry e s s' : Snapshots_InsertEntry e s = (Ok (), s') -> storedBytes s' = storedBytes s + blen (se_Ciphertext e).
Proof.
  unfold Snapshots_InsertEntry. destruct (bool_decide (is_Some (pb_entries s !! (se_SnapshotID e, se_KeyID e)))) eqn:Hk; [discriminate|].
  destruct (_ || _); [discriminate|]. intros [= <-]. apply bool_decide_eq_false in Hk. rewrite <- eq_None_not_Some in Hk.
  unfold storedBytes, Snapshots_PayloadBytesForProject, Values_PayloadBytesForProject. cbn [set_entries pb_values pb_entries pb_snapshots].
  rewrite (sum_insert _ _ _ _ Hk). cbn [snd]. lia.
Qed.

Lemma bytes_RecordOccurrence env id s s' : RecordSecretValueOccurrence env id s = (Ok (), s') -> storedBytes s' = storedBytes s.
Proof. unfold RecordSecretValueOccurrence. destruct (_ || _); [discriminate|]. by intros [= <-]. Qed.

Lemma bytes_insertChanges env rev l : forall s s', insertChanges env rev l s = (Ok (), s') -> storedBytes s' = storedBytes s.
Proof.
  induction l as [|c l IH]; cbn [insertChanges]; intros s s'; [by intros [= <-]|].
  intros ([] & s1 & Hi & Hr)%st_bind_Ok. rewrite (IH _ _ Hr). unfold InsertChange in Hi. destruct (_ || _); [discriminate|]. by injection Hi as <-.
Qed.

Lemma bytes_recordPublish env pe n trigger s s' : recordPublish X env pe n trigger s = (Ok (), s') -> storedBytes s' = storedBytes s.
Proof. unfold recordPublish. intros ([] & s1 & [= <-] & (jobs & s2 & [= _ <-] & [= <-])%st_bind_Ok)%st_bind_Ok. done. Qed.

Lemma contractBytes_nonEmpty raw : contractBytes (nonEmptyJSON raw) = contractBytes raw.
Proof. by destruct raw. Qed.

(** ** The loops *)
Lemma insertEntries_same env sid cells : forall occ st s, accounted st s ->
  sameRun (insertEntries X env sid cells occ None s) (insertEntries X env sid cells occ (Some st) s).
Proof.
  induction cells as [|cell rest IH]; intros occ st s Hst; cbn [insertEntries]; [split; [done|]; by split|].
  destruct (negb (rc_set cell)); [by apply IH|].
  apply sameRun_bind. intros id s1 Hid. apply sameRun_bind. intros sealed s2 Hseal. apply sameRun_bind. intros [] s3 Hins.
  assert (accounted (addStorage (blen sealed) st) s3) as Hst3.
  { eapply accounted_add; [exact Hst|]. by rewrite (bytes_InsertEntry _ _ _ Hins), (bytes_sealField _ _ _ _ _ Hseal), (bytes_newID _ _ _ _ Hid). }
  apply sameRun_bind. intros [] s4 Hocc. cbn [fmap option_fmap option_map].
  assert (accounted (addStorage (blen sealed) st) s4) as Hst4.
  { eapply accounted_eq; [exact Hst3|]. destruct (_ && _) in Hocc; [by eapply bytes_RecordOccurrence|by injection Hocc as <-]. }
  apply sameRun_chain; [by apply IH|]. intros rows st' s' Hst'. split; [done|]. by split.
Qed.

Lemma moveCells_idle env cells s : moveCells X env ∅ cells s = (Ok cells, s).
Proof.
  induction cells as [|c cells IH]; [done|]. cbn [moveCells]. unfold moveCell. rewrite lookup_empty.
  rewrite (st_run _ _ _ c s) by done. by rewrite (st_run _ _ _ cells s IH).
Qed.

Lemma materialize_same env groups st s : accounted st s ->
  sameRun (materialize X env [] MaxProjectStorageBytes groups None s) (materialize X env [] MaxProjectStorageBytes groups (Some st) s).
Proof.
  intros Hst. unfold materialize. cbn [bool_decide negb andb].
  rewrite (bool_decide_false (is_Some None)) by (by intros []). rewrite (bool_decide_true ([] = [])) by done. rewrite andb_false_r. cbn [andb].
  apply sameRun_bind. intros ? ? [= <- <-]. apply sameRun_bind. intros cells s1 [= Hcells <-]. apply sameRun_bind. intros contract s1 [= Hadm <-].
  change (applyByKey []) with (∅ : gmap string pendingApply).
  destruct Hst as [Hl Hlim Ht Ho Hp] eqn:Hacc. clear Hacc.
  assert (storageCheck X st s = (_ ← checkStorageTotal (storedBytes s) MaxProjectStorageBytes; Ok st)) as Hck.
  { unfold storageCheck. rewrite Hl, Ho, Hp, !String.eqb_refl. cbn [negb andb orb]. by rewrite Ht, Hlim. }
  rewrite Hck. unfold checkProjectStorage.
  destruct (checkStorageTotal (storedBytes s) MaxProjectStorageBytes) as [[]|e|p] eqn:Hc; cbn [mbind result_bind]; [|by split..].
  rewrite !(st_result_run _ _ s _ eq_refl).
  apply sameRun_bind. intros cells' s1 Hm. rewrite moveCells_idle in Hm. injection Hm as <- <-.
  apply sameRun_bind. intros ? ? [= <- <-]. apply sameRun_bind. intros [previous changes] s1 [= Hlin <-].
  apply sameRun_bind. intros sid s2 Hid. apply sameRun_bind. intros [] s3 Hins. cbn [fmap option_fmap option_map].
  assert (accounted (addStorage (contractBytes contract) st) s3) as Hst3.
  { eapply accounted_add; [by split|]. rewrite (bytes_Snapshots_Insert _ _ _ _ Hins), (bytes_newID _ _ _ _ Hid). cbn [sn_ParameterContract].
    by rewrite contractBytes_nonEmpty. }
  apply sameRun_bind. intros [] s4 [= Hf <-].
  apply sameRun_chain; [by apply insertEntries_same|]. intros rows st' s' Hst'.
  apply sameRun_bind. intros [] s5 Hch. apply sameRun_bind. intros token s6 [= Htok <-].
  split; [done|]. split; [done|]. eapply accounted_eq; [exact Hst'|]. by eapply bytes_insertChanges.
Qed.

Lemma bind_ext {A B} (m : ST Pub A) (f g : A -> ST Pub B) s : (forall a s', m s = (Ok a, s') -> f a s' = g a s') -> (m ≫= f) s = (m ≫= g) s.
Proof. unfold mbind, st_bind. destruct (m s) as [[a|e|p] s']; intros Hfg; [by apply Hfg|done..]. Qed.

(** The first environment loads the total; from there it is kept. *)
Definition loadedStorage (s : Pub) : schemaPublishStorage := MkStorage MaxProjectStorageBytes (storedBytes s) true (px_org X) (px_project X).
Lemma loadedStorage_accounted s : accounted (loadedStorage s) s.
Proof. by split. Qed.

Lemma materialize_fresh env groups s :
  materialize X env [] MaxProjectStorageBytes groups (Some freshStorage) s = materialize X env [] MaxProjectStorageBytes groups (Some (loadedStorage s)) s.
Proof.
  unfold materialize. rewrite !(bool_decide_true (is_Some (Some _))) by done. rewrite (bool_decide_true ([] = [])) by done. cbn [negb andb].
  apply bind_ext. intros ? ? [= <- <-]. apply bind_ext. intros cells s1 [= _ <-]. apply bind_ext. intros contract s1 [= _ <-].
  assert (storageCheck X freshStorage s = storageCheck X (loadedStorage s) s) as ->; [|done].
  unfold storageCheck, freshStorage, loadedStorage. cbn [sp_loaded sp_org sp_project andb]. by rewrite !String.eqb_refl.
Qed.


Lemma republish_same env trigger phase st s : accounted st s ->
  sameRun (republishWithStorage X env trigger phase None s) (republishWithStorage X env trigger phase (Some st) s).
Proof.
  intros Hst. unfold republishWithStorage. apply sameRun_bind. intros [] s1 [= _ <-]. apply sameRun_bind. intros ? ? [= <- <-].
  destruct (_ && _); [by split|]. apply sameRun_bind. intros groups s1 [= _ <-].
  apply sameRun_chain; [by apply materialize_same|]. intros pe st' s' Hst'. apply sameRun_bind. intros [] s2 Hrec.
  split; [done|]. split; [done|]. eapply accounted_eq; [exact Hst'|by eapply bytes_recordPublish].
Qed.

Lemma fanOut_same envs trigger : forall phase st s, accounted st s ->
  fanOut X envs trigger phase (Some st) s = fanOut X envs trigger phase None s.
Proof.
  induction envs as [|env rest IH]; intros phase st s Hst; [done|]. cbn [fanOut].
  pose proof (republish_same env trigger phase st s Hst) as Hr. unfold mbind, st_bind, sameRun in *.
  destruct (republishWithStorage X env trigger phase None s) as [[[[pe ph] [|]]|e|p] s1],
    (republishWithStorage X env trigger phase (Some st) s) as [[[[pe' ph'] [st'|]]|e'|p'] s2];
    cbn [fst snd] in Hr; destruct Hr as [<- Hr]; try done; [|by rewrite Hr..].
  destruct Hr as [[= <- <-] Hst']. by rewrite (IH _ _ _ Hst').
Qed.

(** Republication from the fresh total is republication from the loaded one. *)
Lemma republish_fresh env trigger phase s :
  republishWithStorage X env trigger phase (Some freshStorage) s = republishWithStorage X env trigger phase (Some (loadedStorage s)) s.
Proof.
  unfold republishWithStorage. apply bind_ext. intros [] s1 [= _ <-]. apply bind_ext. intros ? ? [= <- <-].
  destruct (_ && _); [done|]. apply bind_ext. intros groups s1 [= _ <-]. unfold mbind at 1, st_bind at 1. unfold mbind at 1, st_bind at 1.
  by rewrite materialize_fresh.
Qed.

(** The fan-out that rescans the project's rows for every environment. *)
Definition fanOutRescanning (trigger : string) : ST Pub (list PublishedEnvironment) :=
  s ← st_get; fanOut X (cat_environments (pb_cat s)) trigger None None.

(** C38. The optimised fan-out equals the plain one. A schema change republishes
    every environment; the fan-out reads the project's stored bytes once and adds
    what it writes itself. Its answer, its final state and its refusals are those
    of the fan-out that measures the stored rows again before every environment. *)
Theorem storage_accounting_exact (trigger : string) (s : Pub) : fanOutSchemaPublish X trigger s = fanOutRescanning trigger s.
Proof.
  unfold fanOutSchemaPublish, fanOutRescanning. apply bind_ext. intros ? ? [= <- <-].
  rewrite <- (fanOut_same _ trigger None (loadedStorage s) s (loadedStorage_accounted s)).
  destruct (cat_environments (pb_cat s)) as [|env rest]; [done|]. cbn [fanOut]. unfold mbind at 1 3, st_bind at 1 3. by rewrite republish_fresh.
Qed.
End Accounting.
