(* ===== verification/PublishReads.v ===== *)
(** * What the publish pipeline reads

    The maps the service builds from table listings, by their lookups, and the
    constraints of the tables that make those lookups exact. *)

From S2P Require Import Prelude Domain Utf8 Schema AuditEvent Parameters Envelope Definitions DefinitionsSpec DefinitionsStore DefinitionsApply PublishStore GroupIndex Materialize Selection.

#[local] Open Scope Z_scope.

(** ** Maps built by a loop *)
Section Index.
Context {A B : Type} (f : A -> string) (g : A -> B).
Definition indexed (l : list A) (m : gmap string B) : gmap string B := foldl (fun m x => <[ f x := g x ]> m) m l.

Lemma indexed_miss l : forall m k, ~ In k (map f l) -> indexed l m !! k = m !! k.
Proof.
  induction l as [|x l IH]; intros m k Hk; [done|]. cbn [indexed foldl]. change (foldl _ ?m l) with (indexed l m). cbn [map In] in Hk.
  rewrite IH by tauto. rewrite lookup_insert_ne by tauto. done.
Qed.

Lemma indexed_hit l : forall m x, NoDup (map f l) -> In x l -> indexed l m !! f x = Some (g x).
Proof.
  induction l as [|y l IH]; intros m x Hnd; [by intros []|]. cbn [indexed foldl map] in *. change (foldl _ ?m l) with (indexed l m).
  apply NoDup_cons in Hnd as [Hy Hnd]. intros [->|Hx]; [|by apply IH].
  rewrite indexed_miss by (by rewrite <- list_elem_of_In). by rewrite lookup_insert_eq.
Qed.

Lemma indexed_inv l : forall m k b, indexed l m !! k = Some b -> (exists x, In x l /\ f x = k /\ g x = b) \/ (~ In k (map f l) /\ m !! k = Some b).
Proof.
  induction l as [|y l IH]; intros m k b; [intros Hm; right; split; [by intros []|done]|]. cbn [indexed foldl]. change (foldl _ ?m l) with (indexed l m).
  intros [(x & Hx & <- & <-)|[Hk Hm]]%IH; [left; exists x; split; [by right|done]|].
  destruct (decide (f y = k)) as [<-|Hne].
  - rewrite lookup_insert_eq in Hm. injection Hm as <-. left. exists y. split; [by left|done].
  - rewrite lookup_insert_ne in Hm by done. right. split; [|done]. cbn [map In]. tauto.
Qed.
End Index.

Lemma sortBy_In {A} (key : A -> string) l x : In x (sortBy key l) <-> In x l.
Proof. split; apply Permutation_in; [|symmetry]; apply isort_perm. Qed.
Lemma sortBy_perm {A} (key : A -> string) l : Permutation (sortBy key l) l.
Proof. apply isort_perm. Qed.

(** A listing of a map, filtered and projected, has no repeats where the
    projection is injective. *)
Lemma NoDup_listing `{Countable K} {A B} (m : gmap K A) (row : K * A -> B) (keep : B -> bool) (f : B -> string) :
  (forall k a k' a', m !! k = Some a -> m !! k' = Some a' -> keep (row (k, a)) = true -> keep (row (k', a')) = true -> f (row (k, a)) = f (row (k', a')) -> k = k') ->
  NoDup (map f (List.filter keep (map row (map_to_list m)))).
Proof.
  intros Hinj.
  assert (forall l, NoDup (l.*1) -> (forall k a, In (k, a) l -> m !! k = Some a) -> NoDup (map f (List.filter keep (map row l)))) as Hgen; [|].
  2: { apply Hgen; [apply NoDup_fst_map_to_list|]. intros k a Hin. by apply list_elem_of_In, elem_of_map_to_list in Hin. }
  induction l as [|[k a] l IH]; intros Hnd Hin; cbn [map List.filter]; [constructor|]. cbn in Hnd. apply NoDup_cons in Hnd as [Hk Hnd].
  assert (NoDup (map f (List.filter keep (map row l)))) as Hl by (apply IH; [done|]; intros; apply Hin; by right).
  destruct (keep (row (k, a))) eqn:Hkeep; [|done]. cbn [map]. constructor; [|done]. rewrite list_elem_of_In. intros Hx.
  apply in_map_iff in Hx as (b & Hb & Hbin). apply filter_In in Hbin as [Hbin Hkb]. apply in_map_iff in Hbin as ([k' a'] & <- & Hin').
  apply Hk. assert (k = k') as ->; [|apply list_elem_of_In; by apply (in_map fst) in Hin'].
  apply (Hinj k a k' a'); [apply Hin; by left|apply Hin; by right|done|done|by symmetry].
Qed.

(** ** Value cells *)
Lemma Values_List_In env s e : In e (Values_List env s) <-> exists k row, pb_values s !! (env, k) = Some row /\ e = valueEntry (env, k, row).
Proof.
  unfold Values_List. rewrite sortBy_In, filter_In, in_map_iff. split.
  - intros [([[e' k] row] & <- & Hin) He]. cbn in He. apply String.eqb_eq in He as ->. exists k, row. split; [|done].
    by apply list_elem_of_In, elem_of_map_to_list in Hin.
  - intros (k & row & Hk & ->). split; [|apply String.eqb_refl]. exists (env, k, row). split; [done|].
    by apply list_elem_of_In, elem_of_map_to_list.
Qed.

Lemma Values_List_NoDup env s : NoDup (map ve_KeyID (Values_List env s)).
Proof.
  unfold Values_List. rewrite (Permutation_map _ (sortBy_perm _ _)). apply NoDup_listing.
  intros [e k] a [e' k'] a' _ _ He He' Hk. cbn in *. apply String.eqb_eq in He as ->, He' as ->. by rewrite Hk.
Qed.

Lemma entryByKey_lookup env s k : entryByKey (Values_List env s) !! k = (fun row => valueEntry (env, k, row)) <$> pb_values s !! (env, k).
Proof.
  change (entryByKey ?l) with (indexed ve_KeyID (fun e => e) l ∅).
  destruct (pb_values s !! (env, k)) as [row|] eqn:Hv; cbn [fmap option_fmap option_map].
  - assert (In (valueEntry (env, k, row)) (Values_List env s)) as Hin by (apply Values_List_In; eauto).
    apply (indexed_hit ve_KeyID (fun e => e) _ ∅ _ (Values_List_NoDup env s) Hin).
  - rewrite indexed_miss; [apply lookup_empty|]. intros Hin. apply in_map_iff in Hin as (e & <- & He).
    apply Values_List_In in He as (k' & row & Hk & ->). cbn in Hv. congruence.
Qed.

Lemma publishedIDs_lookup env s k : publishedIDs (Values_List env s) !! k = vr_ID <$> pb_values s !! (env, k).
Proof.
  change (publishedIDs ?l) with (indexed ve_KeyID ve_ID l ∅).
  destruct (pb_values s !! (env, k)) as [row|] eqn:Hv; cbn [fmap option_fmap option_map].
  - assert (In (valueEntry (env, k, row)) (Values_List env s)) as Hin by (apply Values_List_In; eauto).
    apply (indexed_hit ve_KeyID ve_ID _ ∅ _ (Values_List_NoDup env s) Hin).
  - rewrite indexed_miss; [apply lookup_empty|]. intros Hin. apply in_map_iff in Hin as (e & <- & He).
    apply Values_List_In in He as (k' & row & Hk & ->). cbn in Hv. congruence.
Qed.

(** ** Drafts *)
Lemma allPending_In s c : In c (allPending s) <-> exists k n, pb_pending s !! k = Some n /\ c = pendingChange (k, n).
Proof.
  unfold allPending. rewrite in_map_iff. split.
  - intros ([k n] & <- & Hin). exists k, n. split; [|done]. by apply list_elem_of_In, elem_of_map_to_list in Hin.
  - intros (k & n & Hk & ->). exists (k, n). split; [done|]. by apply list_elem_of_In, elem_of_map_to_list.
Qed.

Lemma ListForOwner_In owner s c : In c (ListForOwner owner s) <-> exists e k n, pb_pending s !! (e, k, owner) = Some n /\ c = pendingChange (e, k, owner, n).
Proof.
  unfold ListForOwner. split.
  - intros Hin. apply (Permutation_in _ (isort_perm _ _)), filter_In in Hin as [Hin Ho]. apply allPending_In in Hin as ([[e k] o] & n & Hk & ->).
    cbn in Ho. apply String.eqb_eq in Ho as ->. eauto.
  - intros (e & k & n & Hk & ->). apply (Permutation_in _ (Permutation_sym (isort_perm _ _))), filter_In. split; [apply allPending_In; eauto|].
    cbn. apply String.eqb_refl.
Qed.

Lemma ListMarkers_In s m : In m (ListMarkers s) <-> exists e k o n, pb_pending s !! (e, k, o) = Some n /\ m = MkMarker (np_ID n) e k o.
Proof.
  unfold ListMarkers. rewrite in_map_iff. split.
  - intros (c & <- & Hin). apply (Permutation_in _ (isort_perm _ _)), allPending_In in Hin as ([[e k] o] & n & Hk & ->). eauto 10.
  - intros (e & k & o & n & Hk & ->). exists (pendingChange (e, k, o, n)). split; [done|].
    apply (Permutation_in _ (Permutation_sym (isort_perm _ _))), allPending_In. eauto.
Qed.

(** Draft ids are the primary key. *)
Definition draft_ids (s : Pub) : Prop := forall c c' n n', pb_pending s !! c = Some n -> pb_pending s !! c' = Some n' -> np_ID n = np_ID n' -> c = c'.

Lemma draftsByID_lookup owner s id c : draft_ids s ->
  draftsByID (ListForOwner owner s) !! id = Some c <-> exists e k n, pb_pending s !! (e, k, owner) = Some n /\ np_ID n = id /\ c = pendingChange (e, k, owner, n).
Proof.
  intros Hids. change (draftsByID ?l) with (indexed pc_ID (fun c => c) l ∅). split.
  - intros [(x & Hx & <- & <-)|[_ Hm]]%indexed_inv; [|by rewrite lookup_empty in Hm]. apply ListForOwner_In in Hx as (e & k & n & Hk & ->). eauto 10.
  - intros (e & k & n & Hk & <- & ->).
    assert (NoDup (map pc_ID (ListForOwner owner s))) as Hnd.
    { unfold ListForOwner. rewrite (Permutation_map _ (isort_perm _ _)). unfold allPending. apply NoDup_listing.
      intros [[e1 k1] o1] a [[e2 k2] o2] a' H1 H2 _ _ Heq. cbn in Heq. by apply (Hids _ _ _ _ H1 H2). }
    assert (In (pendingChange (e, k, owner, n)) (ListForOwner owner s)) as Hin by (apply ListForOwner_In; eauto).
    apply (indexed_hit pc_ID (fun c => c) _ ∅ _ Hnd Hin).
Qed.

(** ** Snapshots *)
Definition snapshot_rows (s : Pub) : Prop := forall env rev row, pb_snapshots s !! (env, rev) = Some row ->
  sn_EnvironmentID row = env /\ sn_Revision row = rev /\ 1 <= rev.
Definition entry_rows (s : Pub) : Prop := forall sid k e, pb_entries s !! (sid, k) = Some e ->
  se_SnapshotID e = sid /\ se_KeyID e = k /\ exists rev row, pb_snapshots s !! (se_EnvironmentID e, rev) = Some row /\ sn_ID row = sid.
Definition snapshot_ids (s : Pub) : Prop := forall c c' r r', pb_snapshots s !! c = Some r -> pb_snapshots s !! c' = Some r' -> sn_ID r = sn_ID r' -> c = c'.

Lemma revisionsOf_In env s r : In r (revisionsOf env s) <-> is_Some (pb_snapshots s !! (env, r)).
Proof.
  unfold revisionsOf. rewrite in_map_iff. split.
  - intros ([[e r'] row] & <- & Hin). apply filter_In in Hin as [Hin He]. cbn in *. apply String.eqb_eq in He as ->.
    apply list_elem_of_In, elem_of_map_to_list in Hin. by eexists.
  - intros [row Hrow]. exists (env, r, row). split; [done|]. apply filter_In. split; [|apply String.eqb_refl].
    by apply list_elem_of_In, elem_of_map_to_list.
Qed.

Lemma foldr_max_bound l r : In r l -> r <= foldr Z.max 0 l.
Proof. induction l as [|x l IH]; [by intros []|]. cbn [foldr]. intros [->|Hr]; [lia|]. specialize (IH Hr). lia. Qed.
Lemma foldr_max_pick l : foldr Z.max 0 l = 0 \/ In (foldr Z.max 0 l) l.
Proof.
  induction l as [|x l IH]; [by left|]. cbn [foldr]. destruct (Z.max_spec x (foldr Z.max 0 l)) as [[_ ->]|[_ ->]].
  - destruct IH as [->|IH]; [by left|right; by right].
  - right. by left.
Qed.

Lemma latestRevision_bound env s r row : pb_snapshots s !! (env, r) = Some row -> r <= latestRevision env s.
Proof. intros Hrow. apply foldr_max_bound, revisionsOf_In. by eexists. Qed.
Lemma latestRevision_nonneg env s : 0 <= latestRevision env s.
Proof. unfold latestRevision. induction (revisionsOf env s); cbn [foldr]; lia. Qed.

Lemma Latest_Ok env s row : snapshot_rows s -> Latest env s = Ok row <-> pb_snapshots s !! (env, latestRevision env s) = Some row.
Proof. intros _. unfold Latest, AtRevision. destruct (pb_snapshots s !! _); split; congruence. Qed.

Lemma Latest_None env s : snapshot_rows s -> (forall row, Latest env s <> Ok row) -> latestRevision env s = 0 /\ forall r, pb_snapshots s !! (env, r) = None.
Proof.
  intros Hrows Hno. destruct (foldr_max_pick (revisionsOf env s)) as [Hz|Hin].
  - split; [done|]. intros r. destruct (pb_snapshots s !! (env, r)) as [row|] eqn:Hr; [|done]. exfalso.
    pose proof (latestRevision_bound _ _ _ _ Hr). destruct (Hrows _ _ _ Hr) as (_ & _ & Hpos). unfold latestRevision in *. lia.
  - exfalso. apply revisionsOf_In in Hin as [row Hrow]. apply (Hno row). by apply Latest_Ok.
Qed.

(** The entries of a snapshot. *)
Lemma Entries_Ok env sn s rows : Entries env sn s = Ok rows ->
  sn_Collected sn = None /\ rows = sortBy se_KeyName (List.filter (fun e => (se_SnapshotID e =s sn_ID sn) && (se_EnvironmentID e =s env)) (map snd (map_to_list (pb_entries s)))).
Proof.
  unfold Entries. intros (? & Hl & Hr)%bind_Ok. unfold liveSnapshot, PayloadPresent in Hl. destruct (sn_Collected sn); [discriminate|].
  apply bind_Ok in Hr as (fresh & _ & Hr). apply bind_Ok in Hr as (? & _ & [= <-]). done.
Qed.

Lemma Entries_In env sn s rows e : entry_rows s -> Entries env sn s = Ok rows ->
  In e rows <-> exists k, pb_entries s !! (sn_ID sn, k) = Some e /\ se_EnvironmentID e = env.
Proof.
  intros Hent (_ & ->)%Entries_Ok. rewrite sortBy_In, filter_In, in_map_iff, andb_true_iff, !String.eqb_eq. split.
  - intros [([[sid k] e'] & Heq & Hin) [Hs He]]. cbn in Heq. subst e'. apply list_elem_of_In, elem_of_map_to_list in Hin. exists k. split; [|done].
    destruct (Hent _ _ _ Hin) as (Hsid & _ & _). congruence.
  - intros (k & Hk & He). split; [exists (sn_ID sn, k, e); split; [done|by apply list_elem_of_In, elem_of_map_to_list]|].
    destruct (Hent _ _ _ Hk) as (Hsid & _ & _). done.
Qed.

Lemma Entries_NoDup env sn s rows : entry_rows s -> Entries env sn s = Ok rows -> NoDup (map se_KeyID rows).
Proof.
  intros Hent (_ & ->)%Entries_Ok. rewrite (Permutation_map _ (sortBy_perm _ _)). apply (NoDup_listing (pb_entries s) snd).
  intros [s1 k1] a [s2 k2] a' H1 H2 Ha Ha' Hk. cbn in *. apply andb_true_iff in Ha as [Ha _], Ha' as [Ha' _]. apply String.eqb_eq in Ha, Ha'.
  destruct (Hent _ _ _ H1) as (<- & <- & _), (Hent _ _ _ H2) as (<- & <- & _). congruence.
Qed.
