(* ===== verification/PublishSteps.v ===== *)
(** * The steps of a materialization

    What each part of [materialize] does to the tables when it succeeds: the
    identifiers it draws, the cells it moves, the snapshot it writes. *)

From S2P Require Import Prelude Domain EventNames OperationNames Utf8 Schema AuditEvent Parameters Envelope KeyTables Definitions DefinitionsSpec DefinitionsStore DefinitionsApply PublishStore GroupIndex Materialize Selection PublishReads.

#[local] Open Scope Z_scope.

(** ** Identifiers *)
Definition mkID (prefix u : string) : string := prefix +:+ "_" +:+ u.
Definition prefixes : list string := ["val"; "pcv"; "snp"; "sne"].

Lemma mkID_inj p p' u u' : In p prefixes -> In p' prefixes -> mkID p u = mkID p' u' -> p = p' /\ u = u'.
Proof.
  unfold mkID, prefixes. intros Hp Hp' Heq. cbn [In] in Hp, Hp'. destruct_or?; subst; cbn in Heq; try discriminate Heq; injection Heq as Heq; (split; [done|exact Heq]).
Qed.

Lemma mkID_nonempty p u : In p prefixes -> mkID p u <> "".
Proof. unfold mkID, prefixes. cbn [In]. intros Hp. destruct_or?; subst; done. Qed.

(** The identifiers rows hold or name. *)
Inductive used (s : Pub) (id : string) : Prop :=
  | used_value c r : pb_values s !! c = Some r -> vr_ID r = id -> used s id
  | used_draft c n : pb_pending s !! c = Some n -> np_ID n = id -> used s id
  | used_baseline c n : pb_pending s !! c = Some n -> np_StagedFromEntry n = id /\ id <> "" -> used s id
  | used_snapshot c r : pb_snapshots s !! c = Some r -> sn_ID r = id -> used s id
  | used_entry c e : pb_entries s !! c = Some e -> se_ID e = id \/ c.1 = id \/ se_ValueEntryID e = id -> used s id
  | used_occurrence : is_Some (pb_occurrences s !! id) -> used s id.

(** The source never repeats an identifier, nor one a row holds. *)
Record supply_ok (s : Pub) : Prop := {
  su_nodup : NoDup (pb_uuids s);
  su_fresh : forall u p, In u (pb_uuids s) -> In p prefixes -> ~ used s (mkID p u) }.

(** A step takes identifiers from the source and uses no other new ones. *)
Record draws (us : list string) (s s' : Pub) : Prop := {
  dw_source : pb_uuids s = us ++ pb_uuids s';
  dw_used : forall id, used s' id -> used s id \/ exists p u, In p prefixes /\ In u us /\ id = mkID p u }.

Lemma draws_supply us s s' : draws us s s' -> supply_ok s -> supply_ok s'.
Proof.
  intros [Hsrc Hused] [Hnd Hfresh]. rewrite Hsrc in Hnd. apply NoDup_app in Hnd as (Hus & Hdis & Hnd). split; [done|].
  intros u p Hu Hp [Hold|(p' & u' & Hp' & Hu' & Heq)]%Hused.
  - apply (Hfresh u p); [|done|done]. rewrite Hsrc. apply in_app_iff. by right.
  - apply mkID_inj in Heq as [_ ->]; [|done|done]. apply (Hdis u'); by apply list_elem_of_In.
Qed.

Lemma draws_refl s : draws [] s s.
Proof. split; [done|]. intros id Hid. by left. Qed.
Lemma draws_trans us us' s s' s'' : draws us s s' -> draws us' s' s'' -> draws (us ++ us') s s''.
Proof.
  intros [Hs Hu] [Hs' Hu']. split; [by rewrite Hs, Hs', app_assoc|].
  intros id [[Hid|(p & u & Hp & Hin & ->)]%Hu|(p & u & Hp & Hin & ->)]%Hu'; [by left|right; exists p, u..];
    (split; [done|split; [apply in_app_iff; tauto|done]]).
Qed.

(** An identifier drawn is new to the state before. *)
Lemma draws_new us s s' u p : draws us s s' -> supply_ok s -> In u us -> In p prefixes -> ~ used s (mkID p u).
Proof. intros [Hs _] [_ Hf] Hu Hp. apply Hf; [|done]. rewrite Hs. apply in_app_iff. by left. Qed.

(** A value row that was not there before carries a drawn identifier. *)
Definition rows_drawn (us : list string) (s s' : Pub) : Prop := forall c row, pb_values s' !! c = Some row ->
  pb_values s !! c = Some row \/ exists u, In u us /\ vr_ID row = mkID "val" u.
(** So does a draft. *)
Definition drafts_drawn (us : list string) (s s' : Pub) : Prop := forall c n, pb_pending s' !! c = Some n ->
  pb_pending s !! c = Some n \/ exists u, In u us /\ np_ID n = mkID "pcv" u.
(** Together: what one transaction does with identifiers. *)
Definition drawn (s s' : Pub) : Prop := exists us, draws us s s' /\ rows_drawn us s s' /\ drafts_drawn us s s'.

Lemma drafts_drawn_trans us us' s s' s'' : drafts_drawn us s s' -> drafts_drawn us' s' s'' -> drafts_drawn (us ++ us') s s''.
Proof. intros Hr Hr' k row [[Hk|(u & Hu & Hid)]%Hr|(u & Hu & Hid)]%Hr'; [by left|right; exists u; rewrite in_app_iff; tauto..]. Qed.
Lemma drafts_drawn_less us s s' : (forall c n, pb_pending s' !! c = Some n -> pb_pending s !! c = Some n) -> drafts_drawn us s s'.
Proof. intros Hp c n Hn. left. by apply Hp. Qed.

#[export] Instance drawn_refl : Reflexive drawn.
Proof. intros s. exists []. split; [apply draws_refl|]. by split; left. Qed.
#[export] Instance drawn_trans : Transitive drawn.
Proof.
  intros a b c (us & Hd & Hr & Hf) (us' & Hd' & Hr' & Hf'). exists (us ++ us'). split; [by eapply draws_trans|]. split; [|by eapply drafts_drawn_trans].
  intros k row [[Hk|(u & Hu & Hid)]%Hr|(u & Hu & Hid)]%Hr'; [by left|right; exists u; rewrite in_app_iff; tauto..].
Qed.
Lemma drawn_same us s s' : draws us s s' -> pb_values s' = pb_values s -> drafts_drawn us s s' -> drawn s s'.
Proof. intros Hd Hv Hf. exists us. split; [done|]. split; [|done]. intros c row. rewrite Hv. by left. Qed.

(** No row appears under an identifier in use, and no draft. *)
Lemma drawn_fresh s s' c row : drawn s s' -> supply_ok s -> pb_values s' !! c = Some row -> pb_values s !! c = Some row \/ ~ used s (vr_ID row).
Proof. intros (us & Hd & Hr & _) Hs [Hc|(u & Hu & ->)]%Hr; [by left|right]. eapply draws_new; [exact Hd|done|done|cbn; tauto]. Qed.
Lemma drawn_draft s s' c n : drawn s s' -> supply_ok s -> pb_pending s' !! c = Some n -> pb_pending s !! c = Some n \/ ~ used s (np_ID n).
Proof. intros (us & Hd & _ & Hf) Hs [Hc|(u & Hu & ->)]%Hf; [by left|right]. eapply draws_new; [exact Hd|done|done|cbn; tauto]. Qed.

(** ** What a step leaves alone *)
Record same_but_cells (s s' : Pub) : Prop := {
  sc_cat : pb_cat s' = pb_cat s; sc_pending : pb_pending s' = pb_pending s; sc_snapshots : pb_snapshots s' = pb_snapshots s;
  sc_entries : pb_entries s' = pb_entries s; sc_changes : pb_changes s' = pb_changes s; sc_occurrences : pb_occurrences s' = pb_occurrences s;
  sc_gate : pb_gate s' = pb_gate s }.
Lemma same_but_cells_refl s : same_but_cells s s.
Proof. by split. Qed.
Lemma same_but_cells_trans s s' s'' : same_but_cells s s' -> same_but_cells s' s'' -> same_but_cells s s''.
Proof. intros [] []. split; congruence. Qed.

Section Steps.
Context `{FieldSealer} (X : PublishContext).

Lemma pubID_Ok p s id s' : newID p s = (Ok id, s') -> exists u us, id = mkID p u /\ pb_uuids s = u :: us /\ s' = set_sources us (pb_rnd s) s.
Proof. unfold newID. destruct (pb_uuids s) as [|u us] eqn:Hu; [discriminate|]. intros [= <- <-]. by exists u, us. Qed.

Lemma sealField_Ok a p s c s' : sealField a p s = (Ok c, s') -> fs_Open a c = Ok p /\ exists rnd, s' = set_sources (pb_uuids s) rnd s.
Proof.
  unfold sealField. intros (rnd & s1 & [= <- <-] & Hc)%st_bind_Ok. injection Hc as Hseal <-. split; [by eapply fs_opens|by eexists].
Qed.

Lemma putCell_Ok env key v s id s' : putCell X env key v s = (Ok id, s') ->
  exists u row, draws [u] s s' /\ id = mkID "val" u /\ vr_ID row = id /\ same_but_cells s s' /\
    fs_Open (valueAAD X env key.1 id) (vr_Ciphertext row) = Ok (normalizeStoredValue X key v) /\
    pb_values s' = <[ (env, key.1) := row ]> (pb_values s).
Proof.
  unfold putCell. intros (id' & s1 & Hid & Hr)%st_bind_Ok. apply pubID_Ok in Hid as (u & us & -> & Hu & ->).
  apply st_bind_Ok in Hr as (sealed & s2 & Hseal & Hr). apply sealField_Ok in Hseal as [Hopen [rnd ->]].
  apply st_bind_Ok in Hr as ([] & s3 & [= _ <-] & Hr). apply st_bind_Ok in Hr as ([] & s4 & Hput & [= <- <-]).
  unfold Values_Put in Hput. destruct (_ || _) in Hput; [discriminate|]. injection Hput as <-.
  exists u, (MkValueRow (mkID "val" u) sealed (px_now X) (px_principal X)). split; [|split; [done|split; [done|split; [by split|split; [done|]]]]].
  - split; [exact Hu|]. intros i [[e k] r Hr Hi|c n Hn Hi|c n Hn Hi|c r Hr Hi|c e Hc Hi|Hi].
    + cbn in Hr. destruct (decide ((e, k) = (env, key.1))) as [Heq|Hne].
      * rewrite Heq, lookup_insert_eq in Hr. injection Hr as <-. right. exists "val", u. cbn. naive_solver.
      * rewrite lookup_insert_ne, lookup_delete_ne in Hr by done. left. by eapply used_value.
    + left. by eapply used_draft.
    + left. by eapply used_baseline.
    + left. by eapply used_snapshot.
    + left. by eapply used_entry.
    + left. by apply used_occurrence.
  - cbn. by rewrite insert_delete_eq.
Qed.

(** ** The cells that moved *)

(** One cell's outcome: untouched, cleared, or written under a new identifier. *)
Definition cell_moved (env : string) (applies : gmap string pendingApply) (us : list string) (s s' : Pub) (cell cell' : resolvedCell) : Prop :=
  let k := (rc_key cell).1 in
  rc_key cell' = rc_key cell /\ rc_set cell' = rc_set cell /\ rc_value cell' = rc_value cell /\
  match applies !! k with
  | None => cell' = cell /\ pb_values s' !! (env, k) = pb_values s !! (env, k)
  | Some a =>
      if pa_set a then
        exists u row, In u us /\ rc_entryID cell' = mkID "val" u /\ rc_materialSecret cell' = pa_materialSecret a /\ pb_values s' !! (env, k) = Some row /\
          vr_ID row = mkID "val" u /\ fs_Open (valueAAD X env k (vr_ID row)) (vr_Ciphertext row) = Ok (normalizeStoredValue X (rc_key cell) (rc_value cell))
      else cell' = cell /\ pb_values s' !! (env, k) = None
  end.

Lemma insertTenant_Ok e s s' : insertTenant e s = (Ok (), s') -> s' = set_audit (pb_audit s ++ [e]) s.
Proof. by intros [= <-]. Qed.

(** A step that adds no identified row draws nothing. *)
Lemma draws_less s s' : pb_uuids s' = pb_uuids s -> (forall c r, pb_values s' !! c = Some r -> pb_values s !! c = Some r) ->
  (forall c n, pb_pending s' !! c = Some n -> pb_pending s !! c = Some n) -> pb_snapshots s' = pb_snapshots s -> pb_entries s' = pb_entries s ->
  pb_occurrences s' = pb_occurrences s -> draws [] s s'.
Proof.
  intros Hu Hv Hp Hs He Ho. split; [by rewrite Hu|]. intros i [c r Hr Hi|c n Hn Hi|c n Hn Hi|c r Hr Hi|c e Hc Hi|Hi]; left.
  - eapply used_value; [by apply Hv|done].
  - eapply used_draft; [by apply Hp|done].
  - eapply used_baseline; [by apply Hp|done].
  - rewrite Hs in Hr. by eapply used_snapshot.
  - rewrite He in Hc. by eapply used_entry.
  - rewrite Ho in Hi. by apply used_occurrence.
Qed.
Lemma draws_quiet s s' : pb_uuids s' = pb_uuids s -> (forall c r, pb_values s' !! c = Some r -> pb_values s !! c = Some r) ->
  pb_pending s' = pb_pending s -> pb_snapshots s' = pb_snapshots s -> pb_entries s' = pb_entries s -> pb_occurrences s' = pb_occurrences s -> draws [] s s'.
Proof. intros Hu Hv Hp Hs He Ho. apply draws_less; try done. intros c n. by rewrite Hp. Qed.

Lemma moveCell_Ok env applies cell s cell' s' : moveCell X env applies cell s = (Ok cell', s') ->
  exists us, draws us s s' /\ same_but_cells s s' /\ cell_moved env applies us s s' cell cell' /\
    (forall e k, (e, k) <> (env, (rc_key cell).1) -> pb_values s' !! (e, k) = pb_values s !! (e, k)).
Proof.
  unfold moveCell, cell_moved. destruct (applies !! (rc_key cell).1) as [a|] eqn:Ha.
  - destruct (pa_set a) eqn:Hset; cbn [negb].
    + intros (id & s1 & Hput & Hr)%st_bind_Ok. apply st_bind_Ok in Hr as ([] & s2 & Haud & [= <- <-]). apply insertTenant_Ok in Haud as ->.
      apply putCell_Ok in Hput as (u & row & Hdr & -> & Hid & Hsame & Hopen & Hvals).
      exists [u]. split; [|split; [|split]].
      * rewrite <- (app_nil_r [u]). eapply draws_trans; [exact Hdr|by apply draws_quiet].
      * eapply same_but_cells_trans; [exact Hsame|by split].
      * cbn. split; [done|split; [done|split; [done|]]]. exists u, row. rewrite Hvals, lookup_insert_eq, Hid. split; [by left|done].
      * intros e k Hne. cbn. by rewrite Hvals, lookup_insert_ne.
    + intros (b & s1 & [= _ <-] & Hr)%st_bind_Ok. apply st_bind_Ok in Hr as ([] & s2 & Haud & [= <- <-]). apply insertTenant_Ok in Haud as ->.
      exists []. split; [|split; [by split|split]].
      * apply draws_quiet; [done| |done..]. cbn. intros c r Hc. by apply lookup_delete_Some in Hc as [_ Hc].
      * cbn. by rewrite lookup_delete_eq.
      * intros e k Hne. cbn. by rewrite lookup_delete_ne.
  - intros [= <- <-]. exists []. split; [apply draws_refl|split; [apply same_but_cells_refl|done]].
Qed.

Lemma cell_moved_mono env applies us us' s s' t cell cell' : cell_moved env applies us s s' cell cell' ->
  (forall u, In u us -> In u us') -> pb_values t !! (env, (rc_key cell).1) = pb_values s' !! (env, (rc_key cell).1) ->
  cell_moved env applies us' s t cell cell'.
Proof.
  unfold cell_moved. intros (Hk & Hs & Hv & Hm) Hin Ht. split; [done|split; [done|split; [done|]]]. rewrite Ht.
  destruct (applies !! _) as [a|]; [|done]. destruct (pa_set a); [|done]. destruct Hm as (u & row & Hu & Hm). exists u, row. split; [by apply Hin|done].
Qed.

Definition cellKeys (cells : list resolvedCell) : list string := map (fun c => (rc_key c).1) cells.

Lemma moveCells_Ok env applies cells : forall s cells' s', NoDup (cellKeys cells) -> moveCells X env applies cells s = (Ok cells', s') ->
  exists us, draws us s s' /\ same_but_cells s s' /\ Forall2 (cell_moved env applies us s s') cells cells' /\
    (forall e k, ~ (e = env /\ In k (cellKeys cells)) -> pb_values s' !! (e, k) = pb_values s !! (e, k)).
Proof.
  induction cells as [|cell rest IH]; intros s cells' s' Hnd; cbn [moveCells].
  - intros [= <- <-]. exists []. split; [apply draws_refl|split; [apply same_but_cells_refl|split; [constructor|done]]].
  - intros (cell' & s1 & Hc & Hr)%st_bind_Ok. apply st_bind_Ok in Hr as (rest' & s2 & Hr & [= <- <-]).
    cbn [cellKeys map] in Hnd. apply NoDup_cons in Hnd as [Hk Hnd]. rewrite list_elem_of_In in Hk.
    apply moveCell_Ok in Hc as (us & Hdr & Hsame & Hcell & Hoth). apply (IH _ _ _ Hnd) in Hr as (us' & Hdr' & Hsame' & Hcells & Hoth').
    exists (us ++ us'). split; [by eapply draws_trans|]. split; [by eapply same_but_cells_trans|]. split.
    + constructor.
      * eapply cell_moved_mono; [exact Hcell|intros; apply in_app_iff; by left|]. apply Hoth'. intros [_ Hin]. by apply Hk.
      * assert (forall c, In c rest -> pb_values s1 !! (env, (rc_key c).1) = pb_values s !! (env, (rc_key c).1)) as Heq.
        { intros c Hc. apply Hoth. intros [= Heq]. apply Hk. rewrite <- Heq. by apply (in_map (fun c => (rc_key c).1)). }
        revert rest' Hcells. clear -Heq. induction rest as [|c rest IH]; intros rest' Hcells; inversion Hcells as [|? c' ? rest'' Hcm Hrest]; subst; [constructor|].
        constructor; [|apply IH; [|done]; intros; apply Heq; by right].
        unfold cell_moved in *. rewrite Heq in Hcm by (by left). destruct Hcm as (-> & Hs & Hv & Hm). split; [done|split; [done|split; [done|]]].
        destruct (applies !! _) as [a|]; [|done]. destruct (pa_set a); [|done]. destruct Hm as (u & row & Hu & Hm). exists u, row. split; [|done]. apply in_app_iff. by right.
    + intros e k Hne. cbn [cellKeys map In] in Hne. rewrite Hoth' by tauto. apply Hoth. intros [= -> ->]. tauto.
Qed.

(** ** The snapshot and its entries *)
Record same_but_snapshot (s s' : Pub) : Prop := {
  ss_cat : pb_cat s' = pb_cat s; ss_values : pb_values s' = pb_values s; ss_pending : pb_pending s' = pb_pending s; ss_gate : pb_gate s' = pb_gate s }.
Lemma same_but_snapshot_trans s s' s'' : same_but_snapshot s s' -> same_but_snapshot s' s'' -> same_but_snapshot s s''.
Proof. intros [] []. split; congruence. Qed.

(** The entry a set cell becomes. *)
Record entry_of (env sid : string) (cell : resolvedCell) (e : SnapshotEntry) : Prop := {
  eo_env : se_EnvironmentID e = env; eo_snapshot : se_SnapshotID e = sid; eo_key : se_KeyID e = (rc_key cell).1;
  eo_name : se_KeyName e = ca_Name (rc_key cell).2; eo_class : se_Classification e = ca_Classification (rc_key cell).2;
  eo_pinned : se_ValueEntryID e = rc_entryID cell;
  eo_open : fs_Open (snapshotAAD X env (rc_key cell).1 sid (se_ID e)) (se_Ciphertext e) = Ok (rc_value cell) }.

Lemma Snapshots_InsertEntry_Ok e s s' : Snapshots_InsertEntry e s = (Ok (), s') ->
  pb_entries s !! (se_SnapshotID e, se_KeyID e) = None /\ (exists c r, pb_snapshots s !! c = Some r /\ sn_ID r = se_SnapshotID e) /\
  s' = set_entries (<[ (se_SnapshotID e, se_KeyID e) := e ]> (pb_entries s)) s.
Proof.
  unfold Snapshots_InsertEntry. destruct (bool_decide (is_Some (pb_entries s !! (se_SnapshotID e, se_KeyID e)))) eqn:Hk; [discriminate|].
  destruct (idTaken se_ID (se_ID e) (pb_entries s)); [discriminate|]. destruct (idTaken sn_ID (se_SnapshotID e) (pb_snapshots s)) eqn:Hs; [|discriminate].
  cbn [negb orb]. destruct (negb _); [discriminate|]. intros [= <-]. apply bool_decide_eq_false in Hk. rewrite <- eq_None_not_Some in Hk.
  split; [done|]. split; [|done]. unfold idTaken in Hs. apply existsb_exists in Hs as ([c r] & Hin & Heq). cbn in Heq. apply String.eqb_eq in Heq.
  exists c, r. split; [|done]. by apply list_elem_of_In, elem_of_map_to_list in Hin.
Qed.

(** What one entry adds to the identifiers in use. *)
Lemma draws_entry e u us s s' c r : pb_uuids s = u :: us -> se_ID e = mkID "sne" u -> pb_snapshots s !! c = Some r -> sn_ID r = se_SnapshotID e ->
  (exists c r, pb_values s !! c = Some r /\ vr_ID r = se_ValueEntryID e) ->
  pb_uuids s' = us -> pb_values s' = pb_values s -> pb_pending s' = pb_pending s -> pb_snapshots s' = pb_snapshots s ->
  pb_entries s' = <[ (se_SnapshotID e, se_KeyID e) := e ]> (pb_entries s) ->
  (forall id, is_Some (pb_occurrences s' !! id) -> is_Some (pb_occurrences s !! id) \/ id = se_ValueEntryID e) -> draws [u] s s'.
Proof.
  intros Hu Hid Hsn Hsid (cv & rv & Hv & Hvid) Hu' Hvs Hp Hs He Ho. split; [by rewrite Hu, Hu'|].
  intros i [c' r' Hr Hi|c' n Hn Hi|c' n Hn Hi|c' r' Hr Hi|c' e' Hc Hi|Hi].
  - rewrite Hvs in Hr. left. by eapply used_value.
  - rewrite Hp in Hn. left. by eapply used_draft.
  - rewrite Hp in Hn. left. by eapply used_baseline.
  - rewrite Hs in Hr. left. by eapply used_snapshot.
  - rewrite He in Hc. destruct (decide (c' = (se_SnapshotID e, se_KeyID e))) as [->|Hne].
    + rewrite lookup_insert_eq in Hc. injection Hc as <-. destruct Hi as [<-|[<-|<-]].
      * right. exists "sne", u. rewrite Hid. cbn. naive_solver.
      * left. cbn. rewrite <- Hsid. by eapply used_snapshot.
      * left. by eapply used_value.
    + rewrite lookup_insert_ne in Hc by done. left. by eapply used_entry.
  - apply Ho in Hi as [Hi| ->]; left; [by apply used_occurrence|by eapply used_value].
Qed.

Record entries_written (env sid : string) (cells : list resolvedCell) (occurrences : gset string) (us : list string) (s s' : Pub) : Prop := {
  ew_draws : draws us s s';
  ew_same : same_but_snapshot s s';
  ew_snapshots : pb_snapshots s' = pb_snapshots s;
  ew_changes : pb_changes s' = pb_changes s;
  ew_others : forall c, ~ (c.1 = sid /\ In c.2 (cellKeys (List.filter rc_set cells))) -> pb_entries s' !! c = pb_entries s !! c;
  ew_new : forall cell, In cell cells -> rc_set cell = true -> pb_entries s !! (sid, (rc_key cell).1) = None /\
    exists e u, In u us /\ se_ID e = mkID "sne" u /\ pb_entries s' !! (sid, (rc_key cell).1) = Some e /\ entry_of env sid cell e;
  ew_recorded : forall id, is_Some (pb_occurrences s !! id) -> is_Some (pb_occurrences s' !! id);
  ew_secret : forall cell, In cell cells -> rc_set cell = true -> isSecretCell cell = true -> rc_entryID cell ∉ occurrences -> is_Some (pb_occurrences s' !! rc_entryID cell) }.

Lemma insertEntries_Ok env sid cells : forall occ storage s rows storage' s', NoDup (cellKeys cells) ->
  (forall cell, In cell cells -> rc_set cell = true -> exists c r, pb_values s !! c = Some r /\ vr_ID r = rc_entryID cell) ->
  insertEntries X env sid cells occ storage s = (Ok (rows, storage'), s') -> exists us, entries_written env sid cells occ us s s'.
Proof.
  induction cells as [|cell rest IH]; intros occ storage s rows storage' s' Hnd Hval; cbn [insertEntries].
  - intros [= _ _ <-]. exists []. split; [apply draws_refl|by split|done..|by intros ? []|done|by intros ? []].
  - cbn [cellKeys map] in Hnd. apply NoDup_cons in Hnd as [Hk Hnd]. rewrite list_elem_of_In in Hk.
    destruct (rc_set cell) eqn:Hset; cbn [negb].
    2: { intros (us & [Hd Hsm Hsn Hch Hoth Hnew Hrec Hsec])%IH; [|done|intros; apply Hval; [by right|done]]. exists us. split; [done..| | |done|].
         - cbn [List.filter]. by rewrite Hset.
         - intros c [->|Hc] Hs; [congruence|by apply Hnew].
         - intros c [->|Hc] Hs; [congruence|by apply Hsec]. }
    intros (eid & s1 & Hid & Hr)%st_bind_Ok. apply pubID_Ok in Hid as (u & us & -> & Hu & ->).
    apply st_bind_Ok in Hr as (sealed & s2 & Hseal & Hr). apply sealField_Ok in Hseal as [Hopen [rnd ->]].
    apply st_bind_Ok in Hr as ([] & s3 & Hins & Hr). apply Snapshots_InsertEntry_Ok in Hins as (Hnone & (c & r & Hsn & Hsid) & ->).
    set (e := MkSnapshotEntry _ _ _ _ _ _ _ _) in *.
    apply st_bind_Ok in Hr as ([] & s4 & Hocc & Hr). apply st_bind_Ok in Hr as ([rows' st'] & s5 & Hrest & [= <- <- <-]).
    set (record := isSecretCell cell && _) in *. cbn in Hnone, Hsn.
    destruct (Hval cell (or_introl eq_refl) Hset) as (cv & rv & Hcv & Hrv).
    assert (pb_cat s4 = pb_cat s /\ pb_uuids s4 = us /\ pb_values s4 = pb_values s /\ pb_pending s4 = pb_pending s /\ pb_snapshots s4 = pb_snapshots s /\
      pb_changes s4 = pb_changes s /\ pb_gate s4 = pb_gate s /\ pb_entries s4 = <[ (sid, (rc_key cell).1) := e ]> (pb_entries s) /\
      (forall id, is_Some (pb_occurrences s4 !! id) <-> is_Some (pb_occurrences s !! id) \/ (record = true /\ id = rc_entryID cell)))
      as (Hcat & Huu & Hvs & Hpend & Hsns & Hch & Hgate & Hents & Hoccs).
    { destruct record.
      - unfold RecordSecretValueOccurrence in Hocc. destruct (_ || _) in Hocc; [discriminate|]. injection Hocc as <-. do 8 (split; [done|]).
        intros id. cbn. destruct (decide (id = rc_entryID cell)) as [->|Hne]; [rewrite lookup_insert_eq; split; [by right|by eexists]|].
        rewrite lookup_insert_ne by done. split; [by left|by intros [?|[_ ?]]].
      - injection Hocc as <-. do 8 (split; [done|]). intros id. cbn. split; [by left|]. by intros [?|[? _]]. }
    apply IH in Hrest as (us' & [Hd Hsm Hsn' Hch' Hoth Hnew Hrec Hsec]); [|done|].
    2: { intros c' Hc' Hs. rewrite Hvs. apply Hval; [by right|done]. }
    exists ([u] ++ us'). split.
    + eapply draws_trans; [|exact Hd]. eapply (draws_entry e u us s s4 c r); try done; [by exists cv, rv|]. intros id Hi%Hoccs. naive_solver.
    + destruct Hsm. split; congruence.
    + by rewrite Hsn'.
    + by rewrite Hch'.
    + intros [sid' k'] Hne. cbn [List.filter] in Hne. rewrite Hset in Hne. cbn [cellKeys map In fst snd] in Hne. rewrite Hoth by (cbn; tauto).
      rewrite Hents. apply lookup_insert_ne. intros [= <- <-]. apply Hne. split; [done|by left].
    + intros c' [<-|Hc'] Hs.
      * split; [done|]. exists e, u. split; [by left|]. split; [done|]. split; [|by split].
        rewrite Hoth; [by rewrite Hents, lookup_insert_eq|]. cbn. intros [_ Hin]. apply Hk. unfold cellKeys in *.
        apply in_map_iff in Hin as (c' & <- & [Hc' _]%filter_In). by apply (in_map (fun c => (rc_key c).1)).
      * destruct (Hnew c' Hc' Hs) as (Hno & e' & u' & Hu' & He'). split; [|exists e', u'; split; [by right|done]].
        rewrite Hents in Hno. apply lookup_insert_None in Hno. tauto.
    + intros id Hid. apply Hrec, Hoccs. by left.
    + intros c' [<-|Hc'] Hs Hsecret Hnot.
      * apply Hrec, Hoccs. right. split; [|done]. subst record. by rewrite Hsecret, bool_decide_false.
      * destruct (decide (rc_entryID c' = rc_entryID cell /\ record = true)) as [[Heq Hrecord]|Hne].
        -- apply Hrec, Hoccs. by right.
        -- apply (Hsec c' Hc' Hs Hsecret). destruct record; [|done]. apply not_elem_of_union. split; [|done]. rewrite elem_of_singleton. naive_solver.
Qed.
End Steps.
