(* ===== verification/PublishInvariant.v ===== *)
(** * The invariant of published state

    Value cells, drafts and snapshots that open, identifiers that are never
    reused, contiguous revisions, and the latest snapshot of an environment
    agreeing with its cells; [materialize] establishes it again and delivers
    exactly the published state with the selected drafts applied. *)

From S2P Require Import Prelude Domain EventNames OperationNames Utf8 GoStrings Schema AuditEvent Parameters Envelope KeyTables Definitions DefinitionsSpec DefinitionsStore DefinitionsApply PublishStore GroupIndex Materialize Selection PublishReads PublishSteps.

#[local] Open Scope Z_scope.

(** A value as it is stored: trimmed. *)
Definition normal (v : bytes) : Prop := Normalize v = v.

Section Invariant.
Context `{FieldSealer} (X : PublishContext).

Definition openRow (env k : string) (row : valueRow) : result bytes := fs_Open (valueAAD X env k (vr_ID row)) (vr_Ciphertext row).
Definition openEntry (e : SnapshotEntry) : result bytes := fs_Open (snapshotAAD X (se_EnvironmentID e) (se_KeyID e) (se_SnapshotID e) (se_ID e)) (se_Ciphertext e).
Definition openPending (env k : string) (n : NewPendingChange) : result bytes := fs_Open (pendingAAD X env k (np_ID n)) (np_Ciphertext n).
Definition plain (r : result bytes) : option bytes := match r with Ok v => Some v | _ => None end.

(** The plaintext a cell holds, and the plaintext a revision delivers. *)
Definition cellValue (s : Pub) (env k : string) : option bytes := pb_values s !! (env, k) ≫= fun row => plain (openRow env k row).
Definition delivered (s : Pub) (env : string) (rev : Z) (k : string) : option bytes :=
  pb_snapshots s !! (env, rev) ≫= fun sn => pb_entries s !! (sn_ID sn, k) ≫= fun e => plain (openEntry e).

(** The latest snapshot of an environment against its cells. *)
Definition coherent (s : Pub) (env : string) : Prop :=
  match pb_snapshots s !! (env, latestRevision env s) with
  | None => forall k, pb_values s !! (env, k) = None
  | Some sn => sn_Collected sn = None /\ forall k,
      match pb_entries s !! (sn_ID sn, k), pb_values s !! (env, k) with
      | Some e, Some row => se_ValueEntryID e = vr_ID row /\ openEntry e = openRow env k row /\ se_EnvironmentID e = env /\
                            exists key, In (k, key) (cat_keys (pb_cat s)) /\ se_KeyName e = ca_Name key
      | None, None => True
      | _, _ => False
      end
  end.

Record pub_ok (s : Pub) : Prop := {
  pk_keys : NoDup (map fst (cat_keys (pb_cat s)));
  pk_supply : supply_ok s;
  pk_draftIDs : draft_ids s;
  pk_valueIDs : forall c c' r r', pb_values s !! c = Some r -> pb_values s !! c' = Some r' -> vr_ID r = vr_ID r' -> c = c';
  pk_valueID : forall c r, pb_values s !! c = Some r -> vr_ID r <> "";
  pk_snapshotIDs : snapshot_ids s;
  pk_snapshotRows : snapshot_rows s;
  pk_contiguous : forall env r, 1 <= r <= latestRevision env s -> is_Some (pb_snapshots s !! (env, r));
  pk_entryRows : entry_rows s;
  pk_cells : forall env k row, pb_values s !! (env, k) = Some row -> In k (map fst (cat_keys (pb_cat s))) /\ exists v, openRow env k row = Ok v /\ normal v;
  pk_drafts : forall env k o n, pb_pending s !! (env, k, o) = Some n -> np_Operation n = PendingSet -> exists v, openPending env k n = Ok v /\ normal v;
  pk_entries : forall c e, pb_entries s !! c = Some e -> exists v, openEntry e = Ok v /\ normal v;
  pk_coherent : forall env, coherent s env }.

(** ** Resolution *)
Definition cell_resolved (s : Pub) (env : string) (applies : gmap string pendingApply) (key : CatalogueRow) (cell : resolvedCell) : Prop :=
  rc_key cell = key /\ rc_materialSecret cell = false /\
  match applies !! key.1 with
  | Some a => rc_set cell = pa_set a /\ rc_value cell = pa_value a
  | None => match pb_values s !! (env, key.1) with
            | Some row => rc_set cell = true /\ openRow env key.1 row = Ok (rc_value cell) /\ rc_entryID cell = vr_ID row
            | None => rc_set cell = false
            end
  end.

Lemma openCell_row env k row : openCell X (valueEntry (env, k, row)) = match openRow env k row with Err e => Err (EWrap ("service: value " +:+ vr_ID row) e) | r => r end.
Proof. done. Qed.

Lemma resolveCell_Ok s env applies key cell : resolveCell X (entryByKey (Values_List env s)) applies key = Ok cell -> cell_resolved s env applies key cell.
Proof.
  unfold resolveCell, cell_resolved. rewrite entryByKey_lookup. destruct (pb_values s !! (env, key.1)) as [row|]; cbn [fmap option_fmap option_map].
  - intros (cell0 & (v & Hv & [= <-])%bind_Ok & Hc)%bind_Ok. rewrite openCell_row in Hv. injection Hc as <-.
    destruct (openRow env key.1 row) as [v'|e|p]; [|discriminate..]. injection Hv as ->. by destruct (applies !! key.1).
  - intros (cell0 & [= <-] & [= <-])%bind_Ok. by destruct (applies !! key.1).
Qed.

Lemma resolveCells_Ok s env applies keys : forall cells, resolveCells X (entryByKey (Values_List env s)) applies keys = Ok cells ->
  Forall2 (cell_resolved s env applies) keys cells.
Proof.
  induction keys as [|key keys IH]; cbn [resolveCells]; intros cells; [intros [= <-]; constructor|].
  intros (cell & Hc & (rest & Hr & [= <-])%bind_Ok)%bind_Ok. constructor; [by apply resolveCell_Ok|by apply IH].
Qed.

(** ** Cells and table agree once the cells have moved *)
Definition cell_final (s : Pub) (env : string) (cell : resolvedCell) : Prop :=
  if rc_set cell then exists row, pb_values s !! (env, (rc_key cell).1) = Some row /\ vr_ID row = rc_entryID cell /\ openRow env (rc_key cell).1 row = Ok (rc_value cell)
  else pb_values s !! (env, (rc_key cell).1) = None.

Lemma normalize_normal key v : px_selfConfig X = false -> normalizeStoredValue X key v = Normalize v.
Proof. unfold normalizeStoredValue. by intros ->. Qed.

Lemma cell_settles s s' env applies us key cell cell' : px_selfConfig X = false -> (forall k a, applies !! k = Some a -> pa_set a = true -> normal (pa_value a)) ->
  cell_resolved s env applies key cell -> cell_moved X env applies us s s' cell cell' -> cell_final s' env cell'.
Proof.
  unfold cell_resolved, cell_moved, cell_final. intros Hself Hnorm (Hk & _ & Hres) (Hk' & Hs' & Hv' & Hm). rewrite Hk', Hs'. rewrite Hk in *.
  destruct (applies !! key.1) as [a|] eqn:Ha.
  - destruct Hres as [-> Hv]. destruct (pa_set a) eqn:Hset; [|by destruct Hm as [_ Hm]].
    destruct Hm as (u & row & _ & -> & _ & Hrow & Hid & Hopen). exists row. split; [done|]. split; [done|]. unfold openRow. rewrite Hopen, (normalize_normal _ _ Hself).
    rewrite Hv', Hv. f_equal. by apply (Hnorm key.1 a).
  - destruct Hm as [-> Hsame]. rewrite Hsame. destruct (pb_values s !! (env, key.1)) as [row|].
    + destruct Hres as (-> & Hopen & Hid). by exists row.
    + by rewrite Hres.
Qed.

(** Forall2 through a map: the keys of resolved and moved cells are the catalogue's. *)
Lemma resolved_keys s env applies keys cells : Forall2 (cell_resolved s env applies) keys cells -> map rc_key cells = keys.
Proof. induction 1 as [|key cell keys cells (Hk & _) _ IH]; [done|]. cbn [map]. by rewrite Hk, IH. Qed.
Lemma moved_keys env applies us s s' cells cells' : Forall2 (cell_moved X env applies us s s') cells cells' -> map rc_key cells' = map rc_key cells.
Proof. induction 1 as [|c c' cs cs' (Hk & _) _ IH]; [done|]. cbn [map]. by rewrite Hk, IH. Qed.
Lemma cellKeys_map cells : cellKeys cells = map fst (map rc_key cells).
Proof. unfold cellKeys. by rewrite map_map. Qed.

(** ** Latest revisions *)
Lemma latestRevision_le env s s' : (forall r, is_Some (pb_snapshots s !! (env, r)) -> is_Some (pb_snapshots s' !! (env, r))) -> latestRevision env s <= latestRevision env s'.
Proof.
  intros Hsub. destruct (foldr_max_pick (revisionsOf env s)) as [Hz|Hin].
  - unfold latestRevision at 1. rewrite Hz. apply latestRevision_nonneg.
  - apply revisionsOf_In, Hsub in Hin as [row Hrow]. by apply latestRevision_bound in Hrow.
Qed.
Lemma latestRevision_ext env s s' : (forall r, is_Some (pb_snapshots s !! (env, r)) <-> is_Some (pb_snapshots s' !! (env, r))) -> latestRevision env s = latestRevision env s'.
Proof. intros Heq. apply Z.le_antisymm; apply latestRevision_le; intros r; by rewrite Heq. Qed.

Lemma latestRevision_next env s s' sn : pb_snapshots s' = <[ (env, latestRevision env s + 1) := sn ]> (pb_snapshots s) -> latestRevision env s' = latestRevision env s + 1.
Proof.
  intros Hs. apply Z.le_antisymm.
  - destruct (foldr_max_pick (revisionsOf env s')) as [Hz|Hin]; [unfold latestRevision at 1; rewrite Hz; pose proof (latestRevision_nonneg env s); lia|].
    change (foldr Z.max 0 (revisionsOf env s')) with (latestRevision env s') in Hin. apply revisionsOf_In in Hin as [row Hrow]. rewrite Hs in Hrow.
    destruct (decide (latestRevision env s' = latestRevision env s + 1)) as [->|Hne]; [lia|].
    rewrite lookup_insert_ne in Hrow by congruence. apply latestRevision_bound in Hrow. lia.
  - apply (latestRevision_bound env s' _ sn). by rewrite Hs, lookup_insert_eq.
Qed.

Lemma latestRevision_other env env' rev s s' sn : env' <> env -> pb_snapshots s' = <[ (env, rev) := sn ]> (pb_snapshots s) -> latestRevision env' s' = latestRevision env' s.
Proof. intros Hne Hs. apply latestRevision_ext. intros r. rewrite Hs. by rewrite lookup_insert_ne by congruence. Qed.

(** ** Lineage *)
Definition previousEntries (s : Pub) (env k : string) : option (string * string) :=
  pb_snapshots s !! (env, latestRevision env s) ≫= fun sn => (fun e => (se_KeyName e, se_ValueEntryID e)) <$> pb_entries s !! (sn_ID sn, k).

Lemma lineage_Ok s env cells previous changes : snapshot_rows s -> snapshot_ids s -> entry_rows s -> lineage env cells s = Ok (previous, changes) ->
  previous = latestRevision env s /\ exists before : gmap string (string * string), (forall k, before !! k = previousEntries s env k) /\ changes = lineageChanges before cells.
Proof.
  intros Hrows Hids Hent. unfold lineage, previousEntries, Latest, AtRevision. destruct (pb_snapshots s !! (env, latestRevision env s)) as [sn|] eqn:Hsn.
  - intros (rows & Hrowsn & [= <- <-])%bind_Ok. destruct (Hrows _ _ _ Hsn) as (_ & -> & _). split; [done|].
    exists (indexed se_KeyID (fun e => (se_KeyName e, se_ValueEntryID e)) rows ∅). split; [|done]. intros k. cbn [mbind option_bind].
    destruct (pb_entries s !! (sn_ID sn, k)) as [e|] eqn:He; cbn [fmap option_fmap option_map].
    + destruct (Hent _ _ _ He) as (Hsid & Hk & rev & row & Hrow & Hid). assert (se_EnvironmentID e = env) as Henv by (pose proof (Hids _ _ _ _ Hrow Hsn Hid); congruence).
      assert (In e rows) as Hin by (apply (Entries_In env sn s rows e Hent Hrowsn); by exists k). rewrite <- Hk.
      exact (indexed_hit se_KeyID (fun e => (se_KeyName e, se_ValueEntryID e)) rows ∅ e (Entries_NoDup env sn s rows Hent Hrowsn) Hin).
    + rewrite indexed_miss; [apply lookup_empty|]. intros Hin. apply in_map_iff in Hin as (e & <- & Hin). apply (Entries_In env sn s rows e Hent Hrowsn) in Hin as (k & Hk & _).
      destruct (Hent _ _ _ Hk) as (_ & Hkk & _). congruence.
  - cbn. intros [= <- <-]. assert (latestRevision env s = 0) as ->; [|split; [done|]; exists ∅; split; [|done]; intros; apply lookup_empty].
    apply Latest_None; [done|]. intros row Hl. apply Latest_Ok in Hl; [congruence|done].
Qed.

(** ** Materialization, decomposed *)
Record materialize_run (env : string) (applies : list pendingApply) (groups : groupIndex) (s : Pub) (pe : PublishedEnvironment) (s' : Pub) : Prop := {
  mr_cells : exists cells contract cells1 s1 changes u us sn s3 s4 rnd,
    resolveCells X (entryByKey (Values_List env s)) (applyByKey applies) (gi_keys groups) = Ok cells /\
    admitCells X groups env (default ∅ (cat_parameters (pb_cat s) !! env)) cells = Ok contract /\
    moveCells X env (applyByKey applies) cells s = (Ok cells1, s1) /\
    lineage env cells1 s1 = Ok (pe_Revision pe - 1, changes) /\ pe_ChangedKeys pe = changes /\ pe_EnvironmentID pe = env /\
    pb_uuids s1 = u :: us /\ sn_ID sn = mkID "snp" u /\ sn_EnvironmentID sn = env /\ sn_Revision sn = pe_Revision pe /\ sn_Collected sn = None /\
    pb_snapshots s1 !! (env, pe_Revision pe) = None /\ s3 = set_snapshots (<[ (env, pe_Revision pe) := sn ]> (pb_snapshots s1)) (set_sources us rnd s1) /\
    (exists storage rows storage', insertEntries X env (sn_ID sn) cells1 (list_to_set (SecretValueOccurrenceIDs env s)) storage s3 = (Ok (rows, storage'), s4)) /\
    insertChanges env (pe_Revision pe) changes s4 = (Ok (), s') }.

Lemma materialize_inv env applies limit groups storage s pe storage' s' : materialize X env applies limit groups storage s = (Ok (pe, storage'), s') ->
  materialize_run env applies groups s pe s'.
Proof.
  unfold materialize. destruct (_ && _); [discriminate|]. intros (s0 & s1 & [= <- <-] & Hr)%st_bind_Ok.
  apply st_bind_Ok in Hr as (cells & s1 & [= Hcells <-] & Hr). apply st_bind_Ok in Hr as (contract & s1 & [= Hadm <-] & Hr).
  apply st_bind_Ok in Hr as (st & s1 & [= _ <-] & Hr). apply st_bind_Ok in Hr as (cells1 & s1 & Hmove & Hr).
  apply st_bind_Ok in Hr as (s0 & s2 & [= <- <-] & Hr). apply st_bind_Ok in Hr as ([previous changes] & s2 & [= Hlin <-] & Hr).
  apply st_bind_Ok in Hr as (sid & s2 & Hid & Hr). apply pubID_Ok in Hid as (u & us & -> & Hu & ->).
  apply st_bind_Ok in Hr as ([] & s3 & Hins & Hr). apply st_bind_Ok in Hr as ([] & s3' & [= _ <-] & Hr).
  apply st_bind_Ok in Hr as ([rows st'] & s4 & Hent & Hr). apply st_bind_Ok in Hr as ([] & s5 & Hch & Hr).
  apply st_bind_Ok in Hr as (token & s6 & [= _ <-] & [= <- <- <-]).
  unfold Snapshots_Insert in Hins. cbn [sn_Revision sn_ID] in Hins.
  destruct (bool_decide (is_Some (pb_snapshots (set_sources us (pb_rnd s1) s1) !! (env, previous + 1)))) eqn:Hnone; [discriminate|].
  destruct (_ || _) in Hins; [discriminate|]. injection Hins as <-. apply bool_decide_eq_false in Hnone. rewrite <- eq_None_not_Some in Hnone.
  set (sn := MkSnapshot _ _ _ _ _ _ _ _) in Hent. split.
  exists cells, contract, cells1, s1, changes, u, us, sn, (set_snapshots (<[ (env, previous + 1) := sn ]> (pb_snapshots s1)) (set_sources us (pb_rnd s1) s1)), s4, (pb_rnd s1).
  cbn [pe_Revision pe_ChangedKeys pe_EnvironmentID]. rewrite Z.add_simpl_r. split_and!; try done. by eauto.
Qed.

Lemma insertChanges_Ok env rev changes : forall s s', insertChanges env rev changes s = (Ok (), s') ->
  s' = set_changes (pb_changes s') s /\ (forall c, In c changes -> pb_changes s' !! (env, rev, ch_KeyID c) = Some (ch_Name c, ch_Change c)) /\
  (forall k, ~ In k (map ch_KeyID changes) -> pb_changes s' !! (env, rev, k) = pb_changes s !! (env, rev, k)) /\
  (forall e r k, (e, r) <> (env, rev) -> pb_changes s' !! (e, r, k) = pb_changes s !! (e, r, k)) /\
  (forall k v, pb_changes s !! k = Some v -> pb_changes s' !! k = Some v).
Proof.
  induction changes as [|c changes IH]; cbn [insertChanges]; intros s s'; [intros [= <-]; by destruct s|].
  intros ([] & s1 & Hi & Hr)%st_bind_Ok. apply IH in Hr as (-> & Hin & Hmiss & Hoth & Hmono). unfold InsertChange in Hi.
  destruct (bool_decide (is_Some (pb_changes s !! (env, rev, ch_KeyID c)))) eqn:Hnone; [discriminate|].
  destruct (_ || _) in Hi; [discriminate|]. injection Hi as <-. apply bool_decide_eq_false in Hnone. rewrite <- eq_None_not_Some in Hnone.
  cbn [pb_changes set_changes] in *. split; [done|]. split; [|split; [|split]].
  - intros c' [<-|Hc']; [|by apply Hin]. apply Hmono. by rewrite lookup_insert_eq.
  - intros k Hk. cbn [map In] in Hk. rewrite Hmiss by tauto. apply lookup_insert_ne. intros [= Heq]. tauto.
  - intros e r k Hne. rewrite Hoth by done. apply lookup_insert_ne. congruence.
  - intros k v Hk. apply Hmono. rewrite lookup_insert_ne; [done|]. intros <-. congruence.
Qed.
End Invariant.
