(* ===== verification/PublishMaterialize.v ===== *)
(** * One materialization, end to end

    What [materialize] leaves when it succeeds: the cells of the environment
    under the applied drafts, one new snapshot that delivers exactly those cells,
    every earlier snapshot as it was, and the invariant [pub_ok]. *)

From S2P Require Import Prelude Domain EventNames OperationNames Utf8 Schema AuditEvent Parameters Envelope KeyTables Definitions DefinitionsSpec DefinitionsStore DefinitionsApply PublishStore GroupIndex Materialize Selection PublishReads PublishSteps PublishInvariant.

#[local] Open Scope Z_scope.

(** What the applied drafts make of a cell. *)
Definition overridden (applies : gmap string pendingApply) (k : string) (now : option bytes) : option bytes :=
  match applies !! k with
  | Some a => if pa_set a then Some (pa_value a) else None
  | None => now
  end.

Definition values_unique (s : Pub) : Prop :=
  forall c c' r r', pb_values s !! c = Some r -> pb_values s !! c' = Some r' -> vr_ID r = vr_ID r' -> c = c'.

Lemma idTaken_false `{Countable K} {A} (idOf : A -> string) id (m : gmap K A) k a : idTaken idOf id m = false -> m !! k = Some a -> idOf a <> id.
Proof.
  unfold idTaken. intros Hno Hk Heq. apply (existsb_false _ _ (k, a)) in Hno; [|by apply list_elem_of_In, elem_of_map_to_list].
  cbn in Hno. by rewrite Heq, String.eqb_refl in Hno.
Qed.

Lemma Forall2_In_r {A B} (R : A -> B -> Prop) l l' y : Forall2 R l l' -> In y l' -> exists x, In x l /\ R x y.
Proof. induction 1 as [|a b l l' Hab _ IH]; [by intros []|]. intros [->|Hy]; [exists a; split; [by left|done]|]. destruct (IH Hy) as (x & Hx & HR). exists x. split; [by right|done]. Qed.

Lemma applyByKey_In applies k a : applyByKey applies !! k = Some a -> In a applies /\ pa_keyID a = k.
Proof.
  change (applyByKey applies) with (indexed pa_keyID (fun a => a) applies ∅).
  intros [(x & Hx & <- & <-)|[_ Hm]]%indexed_inv; [done|by rewrite lookup_empty in Hm].
Qed.
Lemma applyByKey_hit applies a : NoDup (map pa_keyID applies) -> In a applies -> applyByKey applies !! pa_keyID a = Some a.
Proof. exact (indexed_hit pa_keyID (fun a => a) applies ∅ a). Qed.

Section Materialized.
Context `{FieldSealer} (X : PublishContext) (Hself : px_selfConfig X = false).

(** ** Identifiers of value rows stay unique *)
Lemma putCell_unique env key v s id s' : putCell X env key v s = (Ok id, s') -> values_unique s -> values_unique s'.
Proof.
  unfold putCell. intros (id' & s1 & Hid & Hr)%st_bind_Ok. apply pubID_Ok in Hid as (u & us & -> & Hu & ->).
  apply st_bind_Ok in Hr as (sealed & s2 & Hseal & Hr). apply sealField_Ok in Hseal as [_ [rnd ->]].
  apply st_bind_Ok in Hr as ([] & s3 & [= _ <-] & Hr). apply st_bind_Ok in Hr as ([] & s4 & Hput & [= <- <-]). intros Huniq.
  unfold Values_Put in Hput. cbn [vr_ID pb_values set_sources] in Hput. destruct (idTaken _ _ _) eqn:Hno in Hput; [discriminate|].
  destruct (_ || _) in Hput; [discriminate|]. injection Hput as <-. intros c c' r r'. cbn [pb_values set_values set_sources].
  set (m := delete (env, key.1) (pb_values s)) in *.
  destruct (decide (c = (env, key.1))) as [->|Hc], (decide (c' = (env, key.1))) as [->|Hc']; [done|..];
    rewrite ?lookup_insert_eq, ?lookup_insert_ne by done.
  - intros [= <-] Hr' Heq. by destruct (idTaken_false _ _ _ _ _ Hno Hr').
  - intros Hr [= <-] Heq. by destruct (idTaken_false _ _ _ _ _ Hno Hr).
  - subst m. rewrite !lookup_delete_ne by done. by apply Huniq.
Qed.

Lemma moveCells_unique env applies cells : forall s cells' s', moveCells X env applies cells s = (Ok cells', s') -> values_unique s -> values_unique s'.
Proof.
  induction cells as [|cell rest IH]; intros s cells' s'; cbn [moveCells]; [by intros [= _ <-]|].
  intros (cell' & s1 & Hc & Hr)%st_bind_Ok. apply st_bind_Ok in Hr as (rest' & s2 & Hr & [= _ <-]). intros Hu. apply (IH _ _ _ Hr).
  unfold moveCell in Hc. destruct (applies !! _) as [a|]; [|by injection Hc as _ <-]. destruct (pa_set a); cbn [negb] in Hc.
  - apply st_bind_Ok in Hc as (id & s3 & Hput & Hc). apply st_bind_Ok in Hc as ([] & s4 & Haud & [= _ <-]). apply insertTenant_Ok in Haud as ->.
    by apply (putCell_unique _ _ _ _ _ _ Hput).
  - apply st_bind_Ok in Hc as (b & s3 & [= _ <-] & Hc). apply st_bind_Ok in Hc as ([] & s4 & Haud & [= _ <-]). apply insertTenant_Ok in Haud as ->.
    intros c c' r r'. cbn [pb_values set_audit set_values]. intros [_ Hr1]%lookup_delete_Some [_ Hr2]%lookup_delete_Some. by apply Hu.
Qed.

(** ** The snapshot row draws its identifier *)
Lemma draws_snapshot u us env rev sn rnd s : pb_uuids s = u :: us -> sn_ID sn = mkID "snp" u ->
  draws [u] s (set_snapshots (<[ (env, rev) := sn ]> (pb_snapshots s)) (set_sources us rnd s)).
Proof.
  intros Hu Hid. split; [exact Hu|]. intros i [c r Hr Hi|c n Hn Hi|c n Hn Hi|c r Hr Hi|c e Hc Hi|Hi].
  - left. by eapply used_value.
  - left. by eapply used_draft.
  - left. by eapply used_baseline.
  - cbn in Hr. destruct (decide (c = (env, rev))) as [->|Hne].
    + rewrite lookup_insert_eq in Hr. injection Hr as <-. right. exists "snp", u. rewrite <- Hi, Hid. cbn. naive_solver.
    + rewrite lookup_insert_ne in Hr by done. left. by eapply used_snapshot.
  - left. by eapply used_entry.
  - left. by apply used_occurrence.
Qed.

(** ** The tables after a materialization *)
Record tables_after (env : string) (applies : list pendingApply) (groups : groupIndex) (s : Pub) (pe : PublishedEnvironment) (s' : Pub)
    (cells cells' : list resolvedCell) (us : list string) (sn : Snapshot) : Prop := {
  ta_resolved : Forall2 (cell_resolved X s env (applyByKey applies)) (gi_keys groups) cells;
  ta_admitted : exists contract, admitCells X groups env (default ∅ (cat_parameters (pb_cat s) !! env)) cells = Ok contract;
  ta_moved : Forall2 (cell_moved X env (applyByKey applies) us s s') cells cells';
  ta_draws : draws us s s';
  ta_cat : pb_cat s' = pb_cat s; ta_pending : pb_pending s' = pb_pending s; ta_gate : pb_gate s' = pb_gate s;
  ta_values : forall e k, ~ (e = env /\ In k (map fst (gi_keys groups))) -> pb_values s' !! (e, k) = pb_values s !! (e, k);
  ta_unique : values_unique s';
  ta_revision : pe_Revision pe = latestRevision env s + 1;
  ta_env : pe_EnvironmentID pe = env;
  ta_snapshots : pb_snapshots s' = <[ (env, pe_Revision pe) := sn ]> (pb_snapshots s);
  ta_snapshot : sn_EnvironmentID sn = env /\ sn_Revision sn = pe_Revision pe /\ sn_Collected sn = None;
  ta_new : ~ used s (sn_ID sn);
  ta_lineage : exists before : gmap string (string * string), (forall k, before !! k = previousEntries s env k) /\ pe_ChangedKeys pe = lineageChanges before cells';
  ta_entries : forall c, ~ (c.1 = sn_ID sn /\ In c.2 (cellKeys (List.filter rc_set cells'))) -> pb_entries s' !! c = pb_entries s !! c;
  ta_entry : forall cell, In cell cells' -> rc_set cell = true -> exists e, pb_entries s' !! (sn_ID sn, (rc_key cell).1) = Some e /\ entry_of X env (sn_ID sn) cell e }.

Arguments ta_resolved {_ _ _ _ _ _ _ _ _ _} _.
Arguments ta_admitted {_ _ _ _ _ _ _ _ _ _} _.
Arguments ta_moved {_ _ _ _ _ _ _ _ _ _} _.
Arguments ta_draws {_ _ _ _ _ _ _ _ _ _} _.
Arguments ta_cat {_ _ _ _ _ _ _ _ _ _} _.
Arguments ta_pending {_ _ _ _ _ _ _ _ _ _} _.
Arguments ta_gate {_ _ _ _ _ _ _ _ _ _} _.
Arguments ta_values {_ _ _ _ _ _ _ _ _ _} _.
Arguments ta_unique {_ _ _ _ _ _ _ _ _ _} _.
Arguments ta_revision {_ _ _ _ _ _ _ _ _ _} _.
Arguments ta_env {_ _ _ _ _ _ _ _ _ _} _.
Arguments ta_snapshots {_ _ _ _ _ _ _ _ _ _} _.
Arguments ta_snapshot {_ _ _ _ _ _ _ _ _ _} _.
Arguments ta_new {_ _ _ _ _ _ _ _ _ _} _.
Arguments ta_lineage {_ _ _ _ _ _ _ _ _ _} _.
Arguments ta_entries {_ _ _ _ _ _ _ _ _ _} _.
Arguments ta_entry {_ _ _ _ _ _ _ _ _ _} _.

Lemma previousEntries_ext s s' env k : pb_snapshots s' = pb_snapshots s -> pb_entries s' = pb_entries s -> previousEntries s' env k = previousEntries s env k.
Proof. intros Hs He. unfold previousEntries, latestRevision, revisionsOf. by rewrite Hs, He. Qed.

Lemma materialize_tables env applies limit groups storage s pe storage' s' : pub_ok X s -> loadGroupIndex s = Ok groups ->
  (forall a, In a applies -> pa_set a = true -> normal (pa_value a)) ->
  materialize X env applies limit groups storage s = (Ok (pe, storage'), s') ->
  exists cells cells' us sn, tables_after env applies groups s pe s' cells cells' us sn.
Proof.
  intros Hok (Hnd & Hkeys & _)%newGroupIndex_Ok Hnorm Hm. apply materialize_inv in Hm as [(cells & contract & cells1 & s1 & changes & u & us & sn & s3 & s4 & rnd &
    Hres & Hadm & Hmove & Hlin & Hch & Henv & Hu & Hid & Hsenv & Hsrev & Hcol & Hnone & -> & (st & rows & st' & Hent) & Hchg)].
  apply resolveCells_Ok in Hres. assert (NoDup (cellKeys cells)) as Hndc by (by rewrite cellKeys_map, (resolved_keys _ _ _ _ _ _ Hres), Hkeys).
  pose proof (moveCells_unique _ _ _ _ _ _ Hmove (pk_valueIDs _ _ Hok)) as Huniq.
  apply moveCells_Ok in Hmove as (us1 & Hd1 & Hsame & Hmoved & Hoth); [|done].
  assert (forall k a, applyByKey applies !! k = Some a -> pa_set a = true -> normal (pa_value a)) as Hnorm'
    by (intros k a [Ha _]%applyByKey_In; by apply Hnorm).
  assert (NoDup (cellKeys cells1)) as Hndc1 by (by rewrite cellKeys_map, (moved_keys _ _ _ _ _ _ _ _ Hmoved), <- cellKeys_map).
  apply insertEntries_Ok in Hent as (us4 & [Hd4 Hsm4 Hsn4 Hch4 Hoth4 Hnew4 _ _]); [|done|].
  2: { intros cell Hin Hset. destruct (Forall2_In_r _ _ _ _ Hmoved Hin) as (c0 & Hc0 & Hcm). destruct (Forall2_In_r _ _ _ _ Hres Hc0) as (key & _ & Hcr).
       pose proof (cell_settles X s s1 env _ _ _ _ _ Hself Hnorm' Hcr Hcm) as Hfin. unfold cell_final in Hfin. rewrite Hset in Hfin.
       destruct Hfin as (row & Hrow & Hvid & _). exists (env, (rc_key cell).1), row. done. }
  apply insertChanges_Ok in Hchg as (Hs' & _).
  set (s3 := set_snapshots _ _) in *.
  assert (pb_cat s' = pb_cat s4 /\ pb_values s' = pb_values s4 /\ pb_pending s' = pb_pending s4 /\ pb_snapshots s' = pb_snapshots s4 /\ pb_entries s' = pb_entries s4 /\
    pb_gate s' = pb_gate s4 /\ pb_occurrences s' = pb_occurrences s4 /\ pb_uuids s' = pb_uuids s4) as (Hc & Hv & Hp & Hsn & He & Hg & Ho & Huu)
    by (rewrite Hs'; cbn; done).
  destruct Hsame as [Sc Sp Ss Se Sch So Sg], Hsm4 as [Tc Tv Tp Tg].
  assert (draws (us1 ++ [u] ++ us4 ++ []) s s') as Hd.
  { eapply draws_trans; [exact Hd1|]. eapply draws_trans; [by apply draws_snapshot|]. eapply draws_trans; [exact Hd4|].
    apply draws_quiet; try done. intros c r. by rewrite Hv. }
  apply lineage_Ok in Hlin as [Hrev (before & Hbef & Hchanges)].
  2: { intros e r row. rewrite Ss. by apply (pk_snapshotRows _ _ Hok). }
  2: { intros c c' r r'. rewrite Ss. by apply (pk_snapshotIDs _ _ Hok). }
  2: { intros sid k e. rewrite Se, Ss. by apply (pk_entryRows _ _ Hok). }
  exists cells, cells1, (us1 ++ [u] ++ us4 ++ []), sn. split.
  - done.
  - by exists contract.
  - eapply Forall2_impl; [exact Hmoved|]. intros c c' Hcm. eapply cell_moved_mono; [exact Hcm|intros; apply in_app_iff; by left|]. by rewrite Hv, Tv.
  - done.
  - by rewrite Hc, Tc.
  - by rewrite Hp, Tp.
  - by rewrite Hg, Tg.
  - intros e k Hne. rewrite Hv, Tv. apply Hoth. by rewrite cellKeys_map, (resolved_keys _ _ _ _ _ _ Hres).
  - intros c c' r r'. rewrite Hv, Tv. by apply Huniq.
  - rewrite <- (latestRevision_ext env s1 s) by (intros; by rewrite Ss). lia.
  - done.
  - rewrite Hsn, Hsn4. subst s3. cbn. by rewrite Ss.
  - done.
  - rewrite Hid. eapply draws_new; [exact Hd|apply (pk_supply _ _ Hok)|apply in_app_iff; right; by left|cbn; tauto].
  - exists before. split; [|by rewrite Hch, Hchanges]. intros k. rewrite Hbef. by apply previousEntries_ext.
  - intros c Hne. rewrite He, Hoth4 by done. subst s3. cbn. by rewrite Se.
  - intros cell Hin Hset. destruct (Hnew4 cell Hin Hset) as (_ & e & u' & _ & _ & Hlook & Heo). exists e. by rewrite He.
Qed.

(** ** What the environment holds afterwards *)
Section After.
Context {env : string} {applies : list pendingApply} {groups : groupIndex} {s s' : Pub} {pe : PublishedEnvironment}
  {cells cells' : list resolvedCell} {us : list string} {sn : Snapshot}.
Context (Hok : pub_ok X s) (Hidx : loadGroupIndex s = Ok groups)
  (Hnorm : forall a, In a applies -> pa_set a = true -> normal (pa_value a))
  (HT : tables_after env applies groups s pe s' cells cells' us sn).

Lemma after_keys : gi_keys groups = cat_keys (pb_cat s) /\ NoDup (map fst (gi_keys groups)).
Proof. pose proof Hidx as (Hnd & -> & _)%newGroupIndex_Ok. done. Qed.

Lemma after_cells : map rc_key cells' = cat_keys (pb_cat s).
Proof. rewrite (moved_keys _ _ _ _ _ _ _ _ (ta_moved HT)), (resolved_keys _ _ _ _ _ _ (ta_resolved HT)). apply after_keys. Qed.
Lemma after_nodup : NoDup (cellKeys cells').
Proof. rewrite cellKeys_map, after_cells. apply (pk_keys _ _ Hok). Qed.

(** The cell of a declared key; there is none of an undeclared one. *)
Lemma after_cell k : In k (map fst (cat_keys (pb_cat s))) -> exists cell, In cell cells' /\ (rc_key cell).1 = k.
Proof. rewrite <- after_cells, map_map. intros (cell & Hk & Hin)%in_map_iff. eauto. Qed.
Lemma after_declared cell : In cell cells' -> In (rc_key cell) (cat_keys (pb_cat s)).
Proof. intros Hin. rewrite <- after_cells. by apply in_map. Qed.
Lemma after_same cell c : In cell cells' -> In c cells' -> (rc_key cell).1 = (rc_key c).1 -> cell = c.
Proof.
  pose proof after_nodup as Hnd. revert Hnd. generalize cells'. intros l. induction l as [|x l IH]; [by intros _ []|]. cbn [cellKeys map].
  intros [Hx Hnd]%NoDup_cons. rewrite list_elem_of_In in Hx. intros [->|H1] [->|H2] Heq; [done|..|by apply IH].
  - exfalso. apply Hx. rewrite Heq. by apply (in_map (fun c => (rc_key c).1)).
  - exfalso. apply Hx. rewrite <- Heq. by apply (in_map (fun c => (rc_key c).1)).
Qed.

Lemma after_final cell : In cell cells' -> cell_final X s' env cell /\ (rc_set cell = true -> normal (rc_value cell)) /\
  overridden (applyByKey applies) (rc_key cell).1 (cellValue X s env (rc_key cell).1) = if rc_set cell then Some (rc_value cell) else None.
Proof.
  intros Hin. destruct (Forall2_In_r _ _ _ _ (ta_moved HT) Hin) as (c0 & Hc0 & Hcm).
  destruct (Forall2_In_r _ _ _ _ (ta_resolved HT) Hc0) as (key & _ & Hcr).
  assert (forall k a, applyByKey applies !! k = Some a -> pa_set a = true -> normal (pa_value a)) as Hnorm'
    by (intros k a [Ha _]%applyByKey_In; by apply Hnorm).
  split; [by apply (cell_settles X s s' env _ _ _ _ _ Hself Hnorm' Hcr Hcm)|].
  destruct Hcm as (Hk & Hs & Hv & _), Hcr as (Hk0 & _ & Hres). rewrite Hk, Hs, Hv, Hk0. unfold overridden, cellValue.
  destruct (applyByKey applies !! key.1) as [a|] eqn:Ha.
  - destruct Hres as [-> ->]. split; [by apply (Hnorm' key.1)|done].
  - destruct (pb_values s !! (env, key.1)) as [row|] eqn:Hrow; cbn [mbind option_bind].
    + destruct Hres as (-> & Hopen & _). destruct (pk_cells _ _ Hok _ _ _ Hrow) as (_ & v & Hv' & Hnv).
      assert (rc_value c0 = v) as -> by congruence. rewrite Hv'. done.
    + by rewrite Hres.
Qed.

Lemma after_undeclared k e : ~ In k (map fst (cat_keys (pb_cat s))) -> pb_values s' !! (e, k) = None.
Proof.
  intros Hk. rewrite (ta_values HT) by (destruct after_keys as [-> _]; tauto).
  destruct (pb_values s !! (e, k)) as [row|] eqn:Hrow; [|done]. by destruct (pk_cells _ _ Hok _ _ _ Hrow).
Qed.

(** The cells of the environment, under the drafts. *)
Lemma after_value k : In k (map fst (cat_keys (pb_cat s))) -> cellValue X s' env k = overridden (applyByKey applies) k (cellValue X s env k).
Proof.
  intros (cell & Hin & <-)%after_cell. destruct (after_final _ Hin) as (Hfin & _ & ->). unfold cell_final, cellValue in *. destruct (rc_set cell).
  - destruct Hfin as (row & -> & _ & Hopen). cbn. by rewrite Hopen.
  - by rewrite Hfin.
Qed.

(** The snapshot, cell by cell. *)
Lemma after_entry k : match pb_entries s' !! (sn_ID sn, k), pb_values s' !! (env, k) with
  | Some e, Some row => exists cell, In cell cells' /\ rc_set cell = true /\ (rc_key cell).1 = k /\ entry_of X env (sn_ID sn) cell e /\ vr_ID row = rc_entryID cell /\ openRow X env k row = Ok (rc_value cell)
  | None, None => True
  | _, _ => False
  end.
Proof.
  assert (pb_entries s !! (sn_ID sn, k) = None) as Hfresh.
  { destruct (pb_entries s !! (sn_ID sn, k)) as [e|] eqn:He; [|done]. destruct (ta_new HT).
    eapply used_entry; [exact He|]. right. by left. }
  destruct (in_dec String.string_dec k (map fst (cat_keys (pb_cat s)))) as [(cell & Hin & Hk)%after_cell|Hk].
  - destruct (after_final _ Hin) as (Hfin & _). unfold cell_final in Hfin. destruct (rc_set cell) eqn:Hset.
    + destruct (ta_entry HT cell Hin Hset) as (e & He & Heo). rewrite Hk in He, Hfin. rewrite He.
      destruct Hfin as (row & -> & Hid & Hopen). by exists cell.
    + rewrite Hk in Hfin. rewrite Hfin, (ta_entries HT); [by rewrite Hfresh|]. cbn. intros [_ Hin'].
      unfold cellKeys in Hin'. apply in_map_iff in Hin' as (c & Hck & [Hc Hcs]%filter_In). rewrite (after_same c cell) in Hcs; congruence.
  - rewrite (after_undeclared _ _ Hk), (ta_entries HT); [by rewrite Hfresh|]. cbn. intros [_ Hin'].
    unfold cellKeys in Hin'. apply in_map_iff in Hin' as (c & Hck & [Hc _]%filter_In). apply Hk. rewrite <- Hck. by apply in_map, after_declared.
Qed.

Lemma after_delivers k : delivered X s' env (pe_Revision pe) k = cellValue X s' env k.
Proof.
  unfold delivered, cellValue. rewrite (ta_snapshots HT), lookup_insert_eq. cbn [mbind option_bind]. pose proof (after_entry k) as He.
  destruct (pb_entries s' !! (sn_ID sn, k)) as [e|], (pb_values s' !! (env, k)) as [row|]; try done. cbn [mbind option_bind].
  destruct He as (cell & _ & _ & Hk & [Henv Hsid Hkey _ _ _ Hopen] & _ & Hrow). unfold openEntry. by rewrite Henv, Hsid, Hkey, Hopen, Hrow.
Qed.

(** ** The invariant *)
Lemma after_old_snapshot c r : pb_snapshots s !! c = Some r -> pb_snapshots s' !! c = Some r.
Proof.
  intros Hr. rewrite (ta_snapshots HT), lookup_insert_ne; [done|]. intros <-. rewrite (ta_revision HT) in Hr. apply latestRevision_bound in Hr. lia.
Qed.
Lemma after_snapshot_inv c r : pb_snapshots s' !! c = Some r -> (c = (env, pe_Revision pe) /\ r = sn) \/ (c <> (env, pe_Revision pe) /\ pb_snapshots s !! c = Some r).
Proof.
  rewrite (ta_snapshots HT). destruct (decide (c = (env, pe_Revision pe))) as [->|Hne]; [rewrite lookup_insert_eq; intros [= <-]; by left|].
  rewrite lookup_insert_ne by done. by right.
Qed.
Lemma after_fresh c r : pb_snapshots s !! c = Some r -> sn_ID r <> sn_ID sn.
Proof. intros Hr Heq. apply (ta_new HT). by eapply used_snapshot. Qed.

Lemma after_entry_inv c e : pb_entries s' !! c = Some e ->
  (exists cell, In cell cells' /\ rc_set cell = true /\ c = (sn_ID sn, (rc_key cell).1) /\ entry_of X env (sn_ID sn) cell e) \/ (c.1 <> sn_ID sn /\ pb_entries s !! c = Some e).
Proof.
  destruct c as [sid k]. intros He. destruct (decide (sid = sn_ID sn)) as [->|Hne].
  - left. pose proof (after_entry k) as Ha. rewrite He in Ha. destruct (pb_values s' !! (env, k)) as [row|]; [|done].
    destruct Ha as (cell & Hin & Hset & <- & Heo & _). by exists cell.
  - right. split; [done|]. by rewrite (ta_entries HT) in He by (cbn; tauto).
Qed.

Lemma after_latest e : latestRevision e s' = if decide (e = env) then pe_Revision pe else latestRevision e s.
Proof.
  destruct (decide (e = env)) as [->|Hne].
  - rewrite (ta_revision HT). apply (latestRevision_next env s s' sn). rewrite <- (ta_revision HT). apply (ta_snapshots HT).
  - by apply (latestRevision_other env e (pe_Revision pe) s s' sn), (ta_snapshots HT).
Qed.

Lemma after_value_inv e k row : pb_values s' !! (e, k) = Some row ->
  pb_values s !! (e, k) = Some row \/ (e = env /\ exists cell, In cell cells' /\ (rc_key cell).1 = k /\ rc_set cell = true /\ openRow X env k row = Ok (rc_value cell) /\ normal (rc_value cell)).
Proof.
  intros Hrow. destruct (decide (e = env)) as [->|Hne]; [|left; by rewrite (ta_values HT) in Hrow by tauto].
  right. split; [done|]. destruct (in_dec String.string_dec k (map fst (cat_keys (pb_cat s)))) as [(cell & Hin & <-)%after_cell|Hk].
  - exists cell. destruct (after_final _ Hin) as (Hfin & Hn & _). unfold cell_final in Hfin. destruct (rc_set cell); [|congruence].
    destruct Hfin as (row' & Hrow' & _ & Hopen). assert (row' = row) as -> by congruence. split_and!; auto.
  - by rewrite after_undeclared in Hrow.
Qed.

(** A row that is not a row of before carries a drawn identifier. *)
Lemma after_row_inv e k row : pb_values s' !! (e, k) = Some row -> pb_values s !! (e, k) = Some row \/ exists u, In u us /\ vr_ID row = mkID "val" u.
Proof.
  intros Hrow. destruct (decide (e = env)) as [->|Hne]; [|left; by rewrite (ta_values HT) in Hrow by tauto].
  destruct (in_dec String.string_dec k (map fst (cat_keys (pb_cat s)))) as [(cell & Hin & <-)%after_cell|Hk]; [|by rewrite after_undeclared in Hrow].
  destruct (Forall2_In_r _ _ _ _ (ta_moved HT) Hin) as (c0 & _ & (Hk0 & _ & _ & Hmv)). rewrite <- Hk0 in Hmv.
  destruct (applyByKey applies !! (rc_key cell).1) as [a|]; [|destruct Hmv as [_ Hmv]; left; congruence].
  destruct (pa_set a); [|destruct Hmv as [_ Hmv]; congruence]. destruct Hmv as (u & row' & Hu & _ & _ & Hrow' & Hid & _). right. exists u. split; [done|]. congruence.
Qed.
Lemma after_drawn : drawn s s'.
Proof. exists us. split; [apply (ta_draws HT)|]. split; [intros [e k] row; apply after_row_inv|]. apply drafts_drawn_less. intros c n. by rewrite (ta_pending HT). Qed.

Lemma after_coherent e : coherent X s' e.
Proof.
  unfold coherent. rewrite after_latest. destruct (decide (e = env)) as [->|Hne].
  - rewrite (ta_snapshots HT), lookup_insert_eq. split; [apply (ta_snapshot HT)|]. intros k. pose proof (after_entry k) as He.
    destruct (pb_entries s' !! (sn_ID sn, k)) as [e|], (pb_values s' !! (env, k)) as [row|]; try done.
    destruct He as (cell & Hin & _ & Hk & [Henv Hsid Hkey Hname _ Hpin Hopen] & Hvid & Hrow). split; [congruence|].
    unfold openEntry. rewrite Henv, Hsid, Hkey, Hopen, Hrow. split; [done|]. split; [done|]. exists (rc_key cell).2. split; [|done].
    rewrite (ta_cat HT), <- Hk. rewrite <- surjective_pairing. by apply after_declared.
  - pose proof (pk_coherent _ _ Hok e) as Hco. unfold coherent in Hco. rewrite (ta_snapshots HT), lookup_insert_ne by congruence.
    destruct (pb_snapshots s !! (e, latestRevision e s)) as [sn'|] eqn:Hsn'.
    + destruct Hco as [Hc Hco]. split; [done|]. intros k. rewrite (ta_entries HT); [|cbn; intros [Heq _]; by apply (after_fresh _ _ Hsn')].
      rewrite (ta_values HT) by tauto. rewrite (ta_cat HT). apply Hco.
    + intros k. rewrite (ta_values HT) by tauto. apply Hco.
Qed.

Lemma after_ok : pub_ok X s'.
Proof.
  split.
  - rewrite (ta_cat HT). apply (pk_keys _ _ Hok).
  - eapply draws_supply; [apply (ta_draws HT)|apply (pk_supply _ _ Hok)].
  - intros c c' n n'. rewrite (ta_pending HT). apply (pk_draftIDs _ _ Hok).
  - exact (ta_unique HT).
  - intros [e k] r [Hr|(u & _ & ->)]%after_row_inv; [by eapply (pk_valueID _ _ Hok)|]. apply mkID_nonempty. cbn. tauto.
  - intros c c' r r' [[-> ->]|[Hc Hr]]%after_snapshot_inv [[-> ->]|[Hc' Hr']]%after_snapshot_inv Heq; [done|..].
    + by destruct (after_fresh _ _ Hr').
    + by destruct (after_fresh _ _ Hr).
    + by apply (pk_snapshotIDs _ _ Hok _ _ _ _ Hr Hr').
  - intros e r row [[[= -> ->] ->]|[_ Hr]]%after_snapshot_inv; [|by apply (pk_snapshotRows _ _ Hok)].
    destruct (ta_snapshot HT) as (-> & -> & _). split; [done|]. split; [done|]. rewrite (ta_revision HT). pose proof (latestRevision_nonneg env s). lia.
  - intros e r. rewrite after_latest. intros Hr. destruct (decide (e = env)) as [->|Hne].
    + destruct (decide (r = pe_Revision pe)) as [->|Hne]; [rewrite (ta_snapshots HT), lookup_insert_eq; by eexists|].
      destruct (pk_contiguous _ _ Hok env r) as [row Hrow]; [rewrite (ta_revision HT) in *; lia|]. exists row. by apply after_old_snapshot.
    + destruct (pk_contiguous _ _ Hok e r Hr) as [row Hrow]. exists row. by apply after_old_snapshot.
  - intros sid k e [(cell & _ & _ & [= -> ->] & [Henv Hsid Hkey _ _ _ _])|[_ He]]%after_entry_inv.
    + split; [done|]. split; [done|]. exists (pe_Revision pe), sn. by rewrite Henv, (ta_snapshots HT), lookup_insert_eq.
    + destruct (pk_entryRows _ _ Hok _ _ _ He) as (Hs & Hk & rev & row & Hrow & Hid). split; [done|]. split; [done|].
      exists rev, row. split; [by apply after_old_snapshot|done].
  - intros e k row [Hrow|(-> & cell & Hin & <- & _ & Hopen & Hn)]%after_value_inv; rewrite (ta_cat HT); [by apply (pk_cells _ _ Hok)|].
    split; [by apply in_map, after_declared|eauto].
  - intros e k o n. rewrite (ta_pending HT). apply (pk_drafts _ _ Hok).
  - intros c e [(cell & Hin & Hset & -> & [Henv Hsid Hkey _ _ _ Hopen])|[_ He]]%after_entry_inv; [|by apply (pk_entries _ _ Hok _ _ He)].
    exists (rc_value cell). unfold openEntry. rewrite Henv, Hsid, Hkey. split; [done|]. by apply after_final.
  - exact after_coherent.
Qed.

(** Earlier revisions deliver what they delivered. *)
Lemma after_history e rev k : is_Some (pb_snapshots s !! (e, rev)) -> delivered X s' e rev k = delivered X s e rev k.
Proof.
  intros [row Hrow]. unfold delivered. rewrite (after_old_snapshot _ _ Hrow), Hrow. cbn [mbind option_bind].
  rewrite (ta_entries HT); [done|]. cbn. intros [Heq _]. by apply (after_fresh _ _ Hrow).
Qed.

(** What the publication was admitted for. *)
Lemma after_valid : exists l, map rc_key l = cat_keys (pb_cat s) /\
  (forall cell, In cell l -> cellValue X s' env (rc_key cell).1 = if rc_set cell then Some (rc_value cell) else None) /\
  cells_valid (px_schema X) groups env (default ∅ (cat_parameters (pb_cat s) !! env)) l /\ checkRenderTotal l 0 = Ok ().
Proof.
  exists cells. destruct (ta_admitted HT) as [contract Hadm]. unfold admitCells in Hadm. apply bind_Ok in Hadm as (cj & _ & Hadm).
  apply bind_Ok in Hadm as ([] & Hval & Hadm). apply bind_Ok in Hadm as ([] & _ & Hadm). apply bind_Ok in Hadm as ([] & Hrender & _).
  assert (map rc_key cells = cat_keys (pb_cat s)) as Hkeys by (rewrite (resolved_keys _ _ _ _ _ _ (ta_resolved HT)); apply after_keys).
  split; [done|]. split; [|split; [by apply validateResolvedPublish_Ok|done]].
  intros cell Hin. assert (exists c', In c' cells' /\ rc_key c' = rc_key cell /\ rc_set c' = rc_set cell /\ rc_value c' = rc_value cell) as (c' & Hin' & Hk & <- & <-).
  { destruct (In_nth_error _ _ Hin) as [i Hi]. pose proof (ta_moved HT) as Hm. revert i Hi. clear -Hm. induction Hm as [|c c' l l' Hc _ IH]; intros [|i] Hi; try discriminate.
    - injection Hi as ->. exists c'. split; [by left|]. destruct Hc as (-> & -> & -> & _). done.
    - destruct (IH i Hi) as (x & Hx & Hr). exists x. split; [by right|done]. }
  rewrite <- Hk. destruct (after_final _ Hin') as (_ & _ & <-). apply after_value. by apply in_map, after_declared.
Qed.
End After.
End Materialized.

Arguments ta_resolved {_ _ _ _ _ _ _ _ _ _ _ _} _.
Arguments ta_admitted {_ _ _ _ _ _ _ _ _ _ _ _} _.
Arguments ta_moved {_ _ _ _ _ _ _ _ _ _ _ _} _.
Arguments ta_draws {_ _ _ _ _ _ _ _ _ _ _ _} _.
Arguments ta_cat {_ _ _ _ _ _ _ _ _ _ _ _} _.
Arguments ta_pending {_ _ _ _ _ _ _ _ _ _ _ _} _.
Arguments ta_gate {_ _ _ _ _ _ _ _ _ _ _ _} _.
Arguments ta_values {_ _ _ _ _ _ _ _ _ _ _ _} _.
Arguments ta_unique {_ _ _ _ _ _ _ _ _ _ _ _} _.
Arguments ta_revision {_ _ _ _ _ _ _ _ _ _ _ _} _.
Arguments ta_env {_ _ _ _ _ _ _ _ _ _ _ _} _.
Arguments ta_snapshots {_ _ _ _ _ _ _ _ _ _ _ _} _.
Arguments ta_snapshot {_ _ _ _ _ _ _ _ _ _ _ _} _.
Arguments ta_new {_ _ _ _ _ _ _ _ _ _ _ _} _.
Arguments ta_lineage {_ _ _ _ _ _ _ _ _ _ _ _} _.
Arguments ta_entries {_ _ _ _ _ _ _ _ _ _ _ _} _.
Arguments ta_entry {_ _ _ _ _ _ _ _ _ _ _ _} _.
