(* ===== verification/PublishSelect.v ===== *)
(** * What a selection contains

    Key-group closure reaches its fixed point, and the fixed point is exactly
    the named drafts with the caller's own drafts of the same group in the same
    environment. *)

From S2P Require Import Prelude Domain OperationNames Utf8 Schema AuditEvent Parameters Envelope Definitions DefinitionsSpec DefinitionsStore DefinitionsApply PublishStore GroupIndex Materialize Selection PublishReads.

#[local] Open Scope Z_scope.

(** Two changes of one key group, in one environment. *)
Definition coupled (groups : groupIndex) (a b : PendingChange) : Prop :=
  pc_EnvironmentID a = pc_EnvironmentID b /\
  exists ka kb, gi_keyByID groups !! pc_KeyID a = Some ka /\ gi_keyByID groups !! pc_KeyID b = Some kb /\ ca_GroupID ka <> "" /\ ca_GroupID ka = ca_GroupID kb.

Lemma coupled_trans groups a b c : coupled groups a b -> coupled groups b c -> coupled groups a c.
Proof. intros (He & ka & kb & Ha & Hb & Hne & Hg) (He' & kb' & kc & Hb' & Hc & _ & Hg'). split; [congruence|]. exists ka, kc. split_and!; congruence. Qed.

Lemma sortedChanges_In selected c : In c (sortedChanges selected) <-> exists id, selected !! id = Some c.
Proof.
  unfold sortedChanges. split.
  - intros Hin. apply (Permutation_in _ (isort_perm _ _)), in_map_iff in Hin as ([id x] & <- & Hin). exists id. by apply list_elem_of_In, elem_of_map_to_list in Hin.
  - intros [id Hid]. apply (Permutation_in _ (Permutation_sym (isort_perm _ _))), in_map_iff. exists (id, c). split; [done|]. by apply list_elem_of_In, elem_of_map_to_list.
Qed.

Section Closed.
Context (principal : string) (byID : gmap string PendingChange) (groups : groupIndex) (keys : list CatalogueRow) (presence : list KeyPresence) (markers : list PendingMarker).
Context (Hidx : newGroupIndex keys presence = Ok groups).
(** The markers and the caller's drafts are two readings of one table. *)
Context (Hbyid : forall id c, byID !! id = Some c -> pc_ID c = id /\ pc_OwnerID c = principal /\ In (markerOf c) markers).
Context (Hmark : forall m, In m markers -> pm_OwnerID m = principal -> exists c, byID !! pm_ID m = Some c /\ markerOf c = m).

(** One step of the closure adds only changes that satisfy [P]. *)
Record extends (P : PendingChange -> Prop) (c c' : closure) : Prop := {
  ex_le : cl_selected c ⊆ cl_selected c';
  ex_new : forall id x, cl_selected c' !! id = Some x -> cl_selected c !! id = Some x \/ (byID !! id = Some x /\ P x);
  ex_grew : cl_grew c = true -> cl_grew c' = true;
  ex_still : cl_grew c' = false -> cl_selected c' = cl_selected c;
  ex_size : cl_grew c' = true -> cl_grew c = true \/ (size (cl_selected c) < size (cl_selected c'))%nat;
  ex_closed : forall id, In id (cl_closed c') <-> In id (cl_closed c) \/ (is_Some (cl_selected c' !! id) /\ cl_selected c !! id = None) }.

Lemma extends_refl P c : extends P c c.
Proof. split; try done; [by left|by left|]. intros id. split; [by left|]. intros [Hin|[[x Hx] Hn]]; [done|congruence]. Qed.
Lemma extends_trans P a b c : extends P a b -> extends P b c -> extends P a c.
Proof.
  intros [L N G St Si Cl] [L' N' G' St' Si' Cl']. split.
  - by etransitivity.
  - intros id x [[H|H]%N|H]%N'; tauto.
  - auto.
  - intros Hc. rewrite (St' Hc). apply St. destruct (cl_grew b) eqn:Hb; [|done]. specialize (G' eq_refl). congruence.
  - intros [Hb|Hlt]%Si'.
    + destruct (Si Hb) as [?|Hlt]; [by left|]. right. pose proof (map_subseteq_size _ _ L'). lia.
    + pose proof (map_subseteq_size _ _ L). right. lia.
  - intros id. rewrite Cl', Cl. split.
    + intros [[H|[[x Hx] Hn]]|[H Hn]]; [by left|right; split; [exists x; by eapply lookup_weaken|done]|].
      right. split; [done|]. destruct (cl_selected a !! id) eqn:Ha; [|done]. rewrite (lookup_weaken _ _ _ _ Ha L) in Hn. discriminate.
    + intros [H|[H Hn]]; [by left; left|]. destruct (cl_selected b !! id) eqn:Hb; [left; right; split; [by eexists|done]|by right].
Qed.
Lemma extends_weaken (P Q : PendingChange -> Prop) c c' : (forall x, P x -> Q x) -> extends P c c' -> extends Q c c'.
Proof. intros HPQ [L N G St Si Cl]. split; try done. intros id x [H|[Hx H]]%N; [by left|right; auto]. Qed.

(** A marker that matches is the caller's and selected. *)
Definition holds_marker (c : closure) (m : PendingMarker) : Prop := pm_OwnerID m = principal /\ is_Some (cl_selected c !! pm_ID m).
Lemma holds_marker_extends P c c' m : extends P c c' -> holds_marker c m -> holds_marker c' m.
Proof. intros [L _ _ _ _ _] [Ho [x Hx]]. split; [done|]. exists x. by eapply lookup_weaken. Qed.

Lemma closeMarker_Ok env member m c c' : In m markers -> closeMarker principal byID env member m c = Ok c' ->
  extends (fun x => pc_EnvironmentID x = env /\ pc_KeyID x = member.1) c c' /\ (pm_KeyID m = member.1 -> pm_EnvironmentID m = env -> holds_marker c' m).
Proof.
  intros Hin. unfold closeMarker. destruct (String.eqb_spec (pm_KeyID m) member.1) as [Hk|Hk]; [|intros [= <-]; split; [apply extends_refl|done]].
  destruct (String.eqb_spec (pm_EnvironmentID m) env) as [He|He]; [|intros [= <-]; split; [apply extends_refl|done]]. cbn [negb orb].
  destruct (String.eqb_spec (pm_OwnerID m) principal) as [Ho|]; [|discriminate]. cbn [negb].
  destruct (cl_selected c !! pm_ID m) as [y|] eqn:Hs; [intros [= <-]; split; [apply extends_refl|intros; split; [done|by rewrite Hs]]|].
  destruct (byID !! pm_ID m) as [pull|] eqn:Hp; [|discriminate]. intros [= <-].
  destruct (Hmark m Hin Ho) as (c0 & Hc0 & Hm0). rewrite Hp in Hc0. injection Hc0 as <-. rewrite <- Hm0 in Hk, He. cbn in Hk, He. split.
  - split; cbn [cl_selected cl_closed cl_grew].
    + by apply insert_subseteq.
    + intros id x. destruct (decide (id = pm_ID m)) as [->|Hne]; [rewrite lookup_insert_eq; intros [= <-]; by right|]. rewrite lookup_insert_ne by done. by left.
    + done.
    + done.
    + intros _. right. rewrite map_size_insert_None by done. lia.
    + intros id. rewrite in_app_iff. cbn [In]. destruct (decide (id = pm_ID m)) as [->|Hne].
      * rewrite lookup_insert_eq. split; [right; split; [by eexists|done]|by right; left].
      * rewrite lookup_insert_ne by done. split; [intros [?|[?|[]]]; [by left|by subst]|]. intros [?|[[x Hx] Hn]]; [by left|congruence].
  - intros _ _. split; [done|]. cbn. rewrite lookup_insert_eq. by eexists.
Qed.

Lemma closeMarkers_Ok env member ms : forall c c', (forall m, In m ms -> In m markers) -> closeMarkers principal byID env member ms c = Ok c' ->
  extends (fun x => pc_EnvironmentID x = env /\ pc_KeyID x = member.1) c c' /\ (forall m, In m ms -> pm_KeyID m = member.1 -> pm_EnvironmentID m = env -> holds_marker c' m).
Proof.
  induction ms as [|m ms IH]; intros c c' Hsub; cbn [closeMarkers]; [intros [= <-]; split; [apply extends_refl|by intros ? []]|].
  intros (c1 & Hc1 & Hr)%bind_Ok. apply closeMarker_Ok in Hc1 as [Hx Hh]; [|apply Hsub; by left]. apply IH in Hr as [Hx' Hh']; [|intros; apply Hsub; by right].
  split; [by eapply extends_trans|]. intros m' [<-|Hm'] Hk He; [|by apply Hh']. eapply holds_marker_extends; [exact Hx'|by apply Hh].
Qed.

Lemma closeMembers_Ok env ms : forall c c', closeMembers principal byID markers env ms c = Ok c' ->
  extends (fun x => pc_EnvironmentID x = env /\ In (pc_KeyID x) (map fst ms)) c c' /\
  (forall m, In m markers -> In (pm_KeyID m) (map fst ms) -> pm_EnvironmentID m = env -> holds_marker c' m).
Proof.
  induction ms as [|member ms IH]; intros c c'; cbn [closeMembers]; [intros [= <-]; split; [apply extends_refl|by intros ? _ []]|].
  intros (c1 & Hc1 & Hr)%bind_Ok. apply closeMarkers_Ok in Hc1 as [Hx Hh]; [|done]. apply IH in Hr as [Hx' Hh'].
  split.
  - eapply extends_trans; (eapply extends_weaken; [|eassumption]); cbn [map In]; naive_solver.
  - intros m Hm [Hk|Hk] He; [|by apply Hh']. eapply holds_marker_extends; [exact Hx'|by apply Hh].
Qed.

(** The group's members are the declared keys of the group. *)
Lemma members_In g k : g <> "" -> In k (map fst (members groups g)) <-> exists key, gi_keyByID groups !! k = Some key /\ ca_GroupID key = g.
Proof.
  intros Hg. pose proof Hidx as (Hnd & _ & Hby & Hmem & _)%newGroupIndex_Ok. rewrite Hmem by done. split.
  - intros ([k' key] & <- & [Hin Hgr]%filter_In)%in_map_iff. cbn in *. apply String.eqb_eq in Hgr. exists key. split; [|done].
    rewrite Hby. by apply elem_of_list_to_map; [|apply list_elem_of_In].
  - intros (key & Hk & Hgr). rewrite Hby in Hk. apply elem_of_list_to_map in Hk; [|done]. apply in_map_iff. exists (k, key). split; [done|].
    apply filter_In. split; [by apply list_elem_of_In|]. cbn. by apply String.eqb_eq.
Qed.

Definition coupled_marker (change : PendingChange) (m : PendingMarker) : Prop :=
  pm_EnvironmentID m = pc_EnvironmentID change /\
  exists ka kb, gi_keyByID groups !! pc_KeyID change = Some ka /\ gi_keyByID groups !! pm_KeyID m = Some kb /\ ca_GroupID ka <> "" /\ ca_GroupID ka = ca_GroupID kb.

Lemma closeChange_Ok change c c' : closeChange principal byID groups markers change c = Ok c' ->
  extends (coupled groups change) c c' /\ (forall m, In m markers -> coupled_marker change m -> holds_marker c' m) /\ is_Some (gi_keyByID groups !! pc_KeyID change).
Proof.
  unfold closeChange. destruct (gi_keyByID groups !! pc_KeyID change) as [key|] eqn:Hk; [|discriminate].
  destruct (String.eqb_spec (ca_GroupID key) "") as [Hg|Hg].
  - intros [= <-]. split; [apply extends_refl|]. split; [|by eexists]. intros m _ (_ & ka & kb & Hka & _ & Hne & _). congruence.
  - intros [Hx Hh]%closeMembers_Ok. split; [|split; [|by eexists]].
    + eapply extends_weaken; [|exact Hx]. intros x [He Hin]. apply members_In in Hin as (kb & Hkb & Hgb); [|done]. split; [done|]. by exists key, kb.
    + intros m Hm (He & ka & kb & Hka & Hkb & Hne & Heq). apply Hh; [done| |done]. apply members_In; [done|]. exists kb. split; [done|congruence].
Qed.

Lemma closePass_Ok changes : forall c c', closePass principal byID groups markers changes c = Ok c' ->
  extends (fun x => exists change, In change changes /\ coupled groups change x) c c' /\
  (forall change m, In change changes -> In m markers -> coupled_marker change m -> holds_marker c' m) /\
  (forall change, In change changes -> is_Some (gi_keyByID groups !! pc_KeyID change)).
Proof.
  induction changes as [|change rest IH]; intros c c'; cbn [closePass]; [intros [= <-]; split; [apply extends_refl|split; by intros ? []]|].
  intros (c1 & Hc1 & Hr)%bind_Ok. apply closeChange_Ok in Hc1 as (Hx & Hh & Hd). apply IH in Hr as (Hx' & Hh' & Hd'). split; [|split].
  - eapply extends_trans; (eapply extends_weaken; [|eassumption]); cbn [In]; naive_solver.
  - intros ch m [<-|Hin] Hm Hc; [|by eapply Hh']. eapply holds_marker_extends; [exact Hx'|by apply Hh].
  - intros ch [<-|Hin]; [done|by apply Hd'].
Qed.

(** ** The fixed point *)
Record closed_under (selected sel' : gmap string PendingChange) : Prop := {
  cu_named : selected ⊆ sel';
  cu_mine : sel' ⊆ byID;
  cu_only : forall id x, sel' !! id = Some x -> selected !! id = Some x \/ exists id0 change, selected !! id0 = Some change /\ coupled groups change x;
  cu_whole : forall id change m, sel' !! id = Some change -> In m markers -> coupled_marker change m -> pm_OwnerID m = principal /\ is_Some (sel' !! pm_ID m);
  cu_declared : forall id change, sel' !! id = Some change -> is_Some (gi_keyByID groups !! pc_KeyID change) }.

Lemma closeLoop_Ok fuel : forall selected closed sel' closed', selected ⊆ byID -> closeLoop principal byID groups markers fuel selected closed = Ok (sel', closed') ->
  closed_under selected sel' /\ forall id, In id closed' <-> In id closed \/ (is_Some (sel' !! id) /\ selected !! id = None).
Proof.
  induction fuel as [|fuel IH]; intros selected closed sel' closed' Hsub; cbn [closeLoop]; [discriminate|].
  intros (c & Hc & Hr)%bind_Ok. apply closePass_Ok in Hc as ([L N G St Si Cl] & Hh & Hd). cbn [cl_selected cl_closed cl_grew] in *.
  assert (cl_selected c ⊆ byID) as Hc by (apply map_subseteq_spec; intros id x [Hx|[Hx _]]%N; [by eapply lookup_weaken|done]).
  destruct (cl_grew c) eqn:Hg.
  - apply IH in Hr as ([Ln Lm O W D] & Hcl); [|done]. split; [split|].
    + by etransitivity.
    + done.
    + assert (forall id x, cl_selected c !! id = Some x -> selected !! id = Some x \/ exists id0 change, selected !! id0 = Some change /\ coupled groups change x) as Hone.
      { intros id x [Hx|(_ & ch & [id0 Hch]%sortedChanges_In & Hcp)]%N; [by left|right; eauto]. }
      intros id x [Hx|(id0 & ch & Hch & Hcp)]%O; [by apply Hone in Hx|]. right. apply Hone in Hch as [Hch|(id1 & ch1 & Hch1 & Hcp1)]; [eauto|].
      exists id1, ch1. split; [done|by eapply coupled_trans].
    + done.
    + done.
    + intros id. rewrite Hcl, Cl. split.
      * intros [[?|[[x Hx] Hn]]|[Hs Hn]]; [by left|right; split; [exists x; by eapply lookup_weaken|done]|].
        right. split; [done|]. destruct (selected !! id) eqn:Hid; [|done]. rewrite (lookup_weaken _ _ _ _ Hid L) in Hn. discriminate.
      * intros [?|[Hs Hn]]; [by left; left|]. destruct (cl_selected c !! id) eqn:Hid; [left; right; split; [by eexists|done]|by right].
  - injection Hr as <- <-. specialize (St eq_refl). split; [split|].
    + done.
    + done.
    + intros id x. rewrite St. by left.
    + intros id ch m Hid Hm Hcp. rewrite St in Hid. by apply (Hh ch m); [apply sortedChanges_In; eauto|..].
    + intros id ch Hid. rewrite St in Hid. apply Hd, sortedChanges_In. eauto.
    + exact Cl.
Qed.

(** The fixed point, as a set. *)
Lemma closed_under_exact selected sel' id x : selected ⊆ byID -> closed_under selected sel' ->
  sel' !! id = Some x <-> byID !! id = Some x /\ (selected !! id = Some x \/ exists id0 change, selected !! id0 = Some change /\ coupled groups change x).
Proof.
  intros Hsub [Ln Lm O W _]. split; [intros Hx; split; [by eapply lookup_weaken|by apply O]|].
  intros [Hb [Hx|(id0 & ch & Hch & (He & ka & kb & Hka & Hkb & Hne & Hg))]]; [by eapply lookup_weaken|].
  destruct (Hbyid _ _ Hb) as (Hid & Ho & Hm). destruct (W id0 ch (markerOf x)) as [_ [y Hy]]; [by eapply lookup_weaken|done|..].
  - split; [done|]. by exists ka, kb.
  - cbn in Hy. rewrite Hid in Hy. rewrite Hy. f_equal. apply (lookup_weaken _ _ _ _ Hy) in Lm. congruence.
Qed.

(** ** Termination: the fuel is enough *)
Lemma closeMembers_nopanic env ms : forall c p, closeMembers principal byID markers env ms c <> Panic p.
Proof.
  induction ms as [|member ms IH]; intros c p; cbn [closeMembers]; [done|]. destruct (closeMarkers _ _ _ _ _ _) as [c1|e|p'] eqn:Hc; [apply IH|done|].
  exfalso. revert Hc. clear. revert c. induction markers as [|m l IH]; intros c; cbn [closeMarkers]; [done|].
  unfold closeMarker. destruct (_ || _); [apply IH|]. destruct (negb _); [done|]. destruct (cl_selected c !! pm_ID m); [apply IH|]. destruct (byID !! pm_ID m); [apply IH|done].
Qed.
Lemma closePass_nopanic changes : forall c p, closePass principal byID groups markers changes c <> Panic p.
Proof.
  induction changes as [|change rest IH]; intros c p; cbn [closePass]; [done|]. destruct (closeChange _ _ _ _ _ _) as [c1|e|p'] eqn:Hc; [apply IH|done|].
  exfalso. revert Hc. unfold closeChange. destruct (gi_keyByID _ !! _); [|done]. destruct (_ =s _); [done|]. apply closeMembers_nopanic.
Qed.
Lemma closeLoop_nopanic fuel : forall selected closed p, selected ⊆ byID -> (size byID - size selected < fuel)%nat -> closeLoop principal byID groups markers fuel selected closed <> Panic p.
Proof.
  induction fuel as [|fuel IH]; intros selected closed p Hsub Hlt; [lia|]. cbn [closeLoop].
  destruct (closePass _ _ _ _ _ _) as [c|e|p'] eqn:Hc; [|done|by destruct (closePass_nopanic _ _ _ Hc)].
  apply closePass_Ok in Hc as ([L N G St Si Cl] & _). cbn [cl_selected cl_closed cl_grew] in *. change (mbind _ (Ok c)) with (if cl_grew c then closeLoop principal byID groups markers fuel (cl_selected c) (cl_closed c) else Ok (cl_selected c, cl_closed c)).
  destruct (cl_grew c) eqn:Hg; [|done].
  assert (cl_selected c ⊆ byID) as Hsub' by (apply map_subseteq_spec; intros id x [Hx|[Hx _]]%N; [by eapply lookup_weaken|done]).
  apply IH; [done|]. destruct (Si eq_refl) as [?|Hs]; [done|]. pose proof (map_subseteq_size _ _ Hsub'). lia.
Qed.

(** ** Refusal: a foreign draft in the way, or a key gone *)
Lemma closeMarkers_Err env member ms : forall c e, (forall m, In m ms -> In m markers) -> closeMarkers principal byID env member ms c = Err e ->
  exists m, In m markers /\ pm_KeyID m = member.1 /\ pm_EnvironmentID m = env /\ pm_OwnerID m <> principal.
Proof.
  induction ms as [|m ms IH]; intros c e Hsub; cbn [closeMarkers]; [done|]. unfold closeMarker at 1.
  assert (forall c', closeMarkers principal byID env member ms c' = Err e -> exists m, In m markers /\ pm_KeyID m = member.1 /\ pm_EnvironmentID m = env /\ pm_OwnerID m <> principal) as Hnext.
  { intros c' Hc. eapply IH; [|exact Hc]. intros; apply Hsub; by right. }
  destruct (String.eqb_spec (pm_KeyID m) member.1) as [Hk|]; [|apply Hnext]. destruct (String.eqb_spec (pm_EnvironmentID m) env) as [He|]; [|apply Hnext]. cbn [negb orb].
  destruct (String.eqb_spec (pm_OwnerID m) principal) as [Ho|Ho]; [|intros _; exists m; split; [by apply Hsub; left|done]]. cbn [negb].
  destruct (cl_selected c !! pm_ID m); [apply Hnext|]. destruct (Hmark m) as (c0 & -> & _); [by apply Hsub; left|done|]. apply Hnext.
Qed.

Lemma closeMembers_Err env ms : forall c e, closeMembers principal byID markers env ms c = Err e ->
  exists m, In m markers /\ In (pm_KeyID m) (map fst ms) /\ pm_EnvironmentID m = env /\ pm_OwnerID m <> principal.
Proof.
  induction ms as [|member ms IH]; intros c e; cbn [closeMembers]; [done|]. destruct (closeMarkers _ _ _ _ _ _) as [c1|e1|p] eqn:Hc; [|intros _|done].
  - intros (m & Hm & Hk & Hr)%IH. exists m. split; [done|]. split; [by right|done].
  - apply closeMarkers_Err in Hc as (m & Hm & Hk & Hr); [|done]. exists m. split; [done|]. split; [by left|done].
Qed.

(** What stops a change from being published. *)
Definition blocked (change : PendingChange) : Prop :=
  gi_keyByID groups !! pc_KeyID change = None \/ exists m, In m markers /\ coupled_marker change m /\ pm_OwnerID m <> principal.

Lemma closePass_Err changes : forall c e, closePass principal byID groups markers changes c = Err e -> exists change, In change changes /\ blocked change.
Proof.
  induction changes as [|change rest IH]; intros c e; cbn [closePass]; [done|]. destruct (closeChange _ _ _ _ _ _) as [c1|e1|p] eqn:Hc; [|intros _|done].
  - intros (ch & Hin & Hb)%IH. exists ch. split; [by right|done].
  - exists change. split; [by left|]. unfold closeChange in Hc. destruct (gi_keyByID groups !! pc_KeyID change) as [key|] eqn:Hk; [right|by left].
    destruct (String.eqb_spec (ca_GroupID key) "") as [|Hg]; [done|]. apply closeMembers_Err in Hc as (m & Hm & Hin & He & Ho). exists m. split; [done|]. split; [|done].
    apply members_In in Hin as (kb & Hkb & Hgb); [|done]. split; [done|]. by exists key, kb.
Qed.

Lemma closeLoop_Err fuel : forall selected closed e, selected ⊆ byID -> closeLoop principal byID groups markers fuel selected closed = Err e ->
  exists id change, byID !! id = Some change /\ (selected !! id = Some change \/ exists id0 ch, selected !! id0 = Some ch /\ coupled groups ch change) /\ blocked change.
Proof.
  induction fuel as [|fuel IH]; intros selected closed e Hsub; cbn [closeLoop]; [done|]. destruct (closePass _ _ _ _ _ _) as [c|e1|p] eqn:Hc; [|intros _|done].
  - apply closePass_Ok in Hc as ([L N G St Si Cl] & _). cbn [cl_selected cl_closed cl_grew mbind result_bind] in *. destruct (cl_grew c); [|done].
    assert (cl_selected c ⊆ byID) as Hsub' by (apply map_subseteq_spec; intros id x [Hx|[Hx _]]%N; [by eapply lookup_weaken|done]).
    assert (forall id x, cl_selected c !! id = Some x -> selected !! id = Some x \/ exists id0 change, selected !! id0 = Some change /\ coupled groups change x) as Hone.
    { intros id x [Hx|(_ & ch & [id0 Hch]%sortedChanges_In & Hcp)]%N; [by left|right; eauto]. }
    intros (id & x & Hx & Hor & Hb)%IH; [|done]. exists id, x. split; [done|]. split; [|done]. destruct Hor as [Hs|(id0 & ch & Hch & Hcp)]; [by apply Hone|].
    right. apply Hone in Hch as [Hch|(id1 & ch1 & Hch1 & Hcp1)]; [eauto|]. exists id1, ch1. split; [done|by eapply coupled_trans].
  - apply closePass_Err in Hc as (ch & [id Hid]%sortedChanges_In & Hb). exists id, ch. split; [by eapply lookup_weaken|]. split; [by left|done].
Qed.
End Closed.

(** ** The selection, per environment *)
Lemma byEnvironment_acc changes : forall (out : gmap string (list pendingApply)) env,
  foldl (fun out c => <[ pc_EnvironmentID c := default [] (out !! pc_EnvironmentID c) ++ [applyOf c] ]> out) out changes !! env =
  match List.filter (fun c => pc_EnvironmentID c =s env) changes with
  | [] => out !! env
  | l => Some (default [] (out !! env) ++ map applyOf l)
  end.
Proof.
  induction changes as [|c rest IH]; intros out env; [done|]. cbn [foldl List.filter]. rewrite IH. destruct (String.eqb_spec (pc_EnvironmentID c) env) as [->|Hne].
  - rewrite lookup_insert_eq. change (default [] (Some ?l)) with l. destruct (List.filter _ rest) as [|y l]; [done|]. cbn [map]. by rewrite <- app_assoc.
  - by rewrite !lookup_insert_ne by done.
Qed.

Lemma byEnvironment_lookup changes env : byEnvironment changes !! env =
  match List.filter (fun c => pc_EnvironmentID c =s env) changes with [] => None | l => Some (map applyOf l) end.
Proof. unfold byEnvironment. rewrite byEnvironment_acc, lookup_empty. by destruct (List.filter _ _). Qed.

Lemma byEnvironment_default changes env : default [] (byEnvironment changes !! env) = map applyOf (List.filter (fun c => pc_EnvironmentID c =s env) changes).
Proof. rewrite byEnvironment_lookup. by destruct (List.filter _ _). Qed.

(** Two declared keys of one group. *)
Definition sameGroup (s : Pub) (k k' : string) : Prop :=
  exists key key', In (k, key) (cat_keys (pb_cat s)) /\ In (k', key') (cat_keys (pb_cat s)) /\ ca_GroupID key <> "" /\ ca_GroupID key = ca_GroupID key'.

(** The drafts a publish of [named] commits: the named ones, and the caller's
    own drafts of the same group in the same environment. *)
Definition chosen (s : Pub) (principal : string) (named : list string) (e k : string) (n : NewPendingChange) : Prop :=
  pb_pending s !! (e, k, principal) = Some n /\
  (In (np_ID n) named \/ exists k' n', pb_pending s !! (e, k', principal) = Some n' /\ In (np_ID n') named /\ sameGroup s k' k).

Lemma pickVersions_Ok byID named : forall selected selected', pickVersions byID named selected = Ok selected' ->
  (forall id, In id named -> is_Some (byID !! id)) /\ forall id c, selected' !! id = Some c <-> (In id named /\ byID !! id = Some c) \/ (~ In id named /\ selected !! id = Some c).
Proof.
  induction named as [|v named IH]; intros selected selected'; cbn [pickVersions].
  - intros [= <-]. split; [by intros ? []|]. intros id c. cbn. tauto.
  - destruct (byID !! v) as [change|] eqn:Hv; [|discriminate]. intros [Hall Hsel]%IH. split; [intros id [<-|Hin]; [by rewrite Hv|by apply Hall]|].
    intros id c. rewrite Hsel. cbn [In]. destruct (decide (v = id)) as [->|Hne].
    + rewrite lookup_insert_eq. split; [|intros [[_ Hb]|[Hn _]]; [|tauto]].
      * intros [[Hin Hb]|[Hn Hb]]; [left; tauto|left; split; [by left|congruence]].
      * destruct (in_dec String.string_dec id named); [by left|right; split; [done|congruence]].
    + rewrite lookup_insert_ne by done. tauto.
Qed.

Section Selected.
Context {principal : string} {named : list string} {s : Pub} {groups : groupIndex} {selected byID : gmap string PendingChange}
  {selection : gmap string (list pendingApply)} {closed : list string} {presence : list KeyPresence}.
Context (Hids : draft_ids s) (Hidx : newGroupIndex (cat_keys (pb_cat s)) presence = Ok groups)
  (Hres : resolveVersions principal named s = Ok (selected, byID)).

Lemma byID_lookup id c : byID !! id = Some c <-> exists e k n, pb_pending s !! (e, k, principal) = Some n /\ np_ID n = id /\ c = pendingChange (e, k, principal, n).
Proof. unfold resolveVersions in Hres. apply bind_Ok in Hres as (sel & _ & [= <- <-]). by apply draftsByID_lookup. Qed.

Lemma selected_lookup id c : selected !! id = Some c <-> In id named /\ byID !! id = Some c.
Proof.
  unfold resolveVersions in Hres. apply bind_Ok in Hres as (sel & Hp & [= <- <-]). apply pickVersions_Ok in Hp as [_ Hp]. rewrite Hp, lookup_empty. naive_solver.
Qed.
Lemma selected_sub : selected ⊆ byID.
Proof. apply map_subseteq_spec. intros id c [_ Hc]%selected_lookup. done. Qed.
Lemma named_live id : In id named -> exists e k n, pb_pending s !! (e, k, principal) = Some n /\ np_ID n = id.
Proof.
  intros Hin. pose proof Hres as Hr. unfold resolveVersions in Hr. apply bind_Ok in Hr as (sel & Hp & [= <- <-]). apply pickVersions_Ok in Hp as [Hall _].
  destruct (Hall id Hin) as [c Hc]. apply draftsByID_lookup in Hc as (e & k & n & Hk & Hid & _); [|done]. eauto.
Qed.

Lemma byID_marks id c : byID !! id = Some c -> pc_ID c = id /\ pc_OwnerID c = principal /\ In (markerOf c) (ListMarkers s).
Proof. intros (e & k & n & Hk & <- & ->)%byID_lookup. split; [done|]. split; [done|]. apply ListMarkers_In. by exists e, k, principal, n. Qed.
Lemma marks_byID m : In m (ListMarkers s) -> pm_OwnerID m = principal -> exists c, byID !! pm_ID m = Some c /\ markerOf c = m.
Proof.
  intros (e & k & o & n & Hk & ->)%ListMarkers_In. cbn. intros ->. exists (pendingChange (e, k, principal, n)). split; [|done]. apply byID_lookup. by exists e, k, n.
Qed.

Lemma keyByID_In k key : gi_keyByID groups !! k = Some key <-> In (k, key) (cat_keys (pb_cat s)).
Proof. pose proof Hidx as (Hnd & _ & Hby & _)%newGroupIndex_Ok. rewrite Hby, <- list_elem_of_In. symmetry. by apply elem_of_list_to_map. Qed.

(** Termination of the closure of this transaction. *)
Lemma selectVersions_nopanic p : selectVersions principal selected byID groups s <> Panic p.
Proof.
  unfold selectVersions. pose proof (closeLoop_nopanic principal byID groups _ _ (ListMarkers s) Hidx byID_marks marks_byID (S (size byID)) selected [] p selected_sub) as Hnp.
  destruct (closeLoop _ _ _ _ _ _ _) as [[sel cl]|e|p'] eqn:Hc; [done|done|]. intros [= ->]. apply Hnp; [lia|done].
Qed.

(** A refusal names a draft of the selection that cannot be published whole. *)
Lemma selectVersions_Err err : selectVersions principal selected byID groups s = Err err -> exists e k n, chosen s principal named e k n /\
  (~ In k (map fst (cat_keys (pb_cat s))) \/ exists k' o n', pb_pending s !! (e, k', o) = Some n' /\ sameGroup s k k' /\ o <> principal).
Proof.
  unfold selectVersions. destruct (closeLoop _ _ _ _ _ _ _) as [[sel cl]|e|p'] eqn:Hc; [done| |done]. intros _.
  eapply closeLoop_Err in Hc as (id & x & Hx & Hor & Hb); [|exact Hidx|exact byID_marks|exact marks_byID|exact selected_sub].
  pose proof Hx as (e1 & k & n & Hk & <- & ->)%byID_lookup. exists e1, k, n. split.
  - split; [done|]. destruct Hor as [[Hn _]%selected_lookup|(id0 & ch & Hch & Hcp)]; [by left|].
    right. apply selected_lookup in Hch as [Hn (e' & k' & n' & Hk' & <- & ->)%byID_lookup]. destruct Hcp as (He & ka & kb & Hka & Hkb & Hne & Hg). cbn in He, Hka, Hkb. subst e'.
    exists k', n'. split; [done|]. split; [done|]. exists ka, kb. by rewrite <- !keyByID_In.
  - destruct Hb as [Hn|(m & (e' & k' & o & n' & Hp & ->)%ListMarkers_In & (He & ka & kb & Hka & Hkb & Hne & Hg) & Ho)]; [left|right]; cbn in *.
    + intros ([k' key] & <- & Hin)%in_map_iff. apply keyByID_In in Hin. cbn in *. congruence.
    + subst e'. exists k', o, n'. split; [done|]. split; [|done]. exists ka, kb. by rewrite <- !keyByID_In.
Qed.

Context (Hsel : selectVersions principal selected byID groups s = Ok (selection, closed)).

Lemma select_inv : exists sel', closed_under principal byID groups (ListMarkers s) selected sel' /\ selection = byEnvironment (sortedChanges sel') /\
  (forall id, In id closed <-> is_Some (sel' !! id) /\ selected !! id = None).
Proof.
  unfold selectVersions in Hsel. apply bind_Ok in Hsel as ([sel' cl] & Hl & [= <- <-]).
  eapply closeLoop_Ok in Hl as [Hcu Hcl]; [|exact Hidx|exact byID_marks|exact marks_byID|exact selected_sub]. exists sel'. split; [done|]. split; [done|].
  intros id. unfold Definitions.sortStrings. split.
  - intros Hin. apply (Permutation_in _ (isort_perm _ _)), Hcl in Hin as [[]|Hin]. done.
  - intros Hin. apply (Permutation_in _ (Permutation_sym (isort_perm _ _))), Hcl. by right.
Qed.

Lemma chosen_spec sel' : closed_under principal byID groups (ListMarkers s) selected sel' ->
  forall id c, sel' !! id = Some c <-> exists e k n, chosen s principal named e k n /\ np_ID n = id /\ c = pendingChange (e, k, principal, n).
Proof.
  intros Hcu id c. rewrite (closed_under_exact principal byID groups (ListMarkers s) byID_marks selected sel' id c selected_sub Hcu), byID_lookup. split.
  - intros [(e & k & n & Hk & <- & ->) Hor]. exists e, k, n. split; [|done]. split; [done|]. destruct Hor as [[Hn _]%selected_lookup|(id0 & ch & Hch & Hcp)]; [by left|].
    right. apply selected_lookup in Hch as [Hn (e' & k' & n' & Hk' & <- & ->)%byID_lookup]. destruct Hcp as (He & ka & kb & Hka & Hkb & Hne & Hg). cbn in He, Hka, Hkb. subst e'.
    exists k', n'. split; [done|]. split; [done|]. exists ka, kb. by rewrite <- !keyByID_In.
  - intros (e & k & n & [Hk Hor] & <- & ->). split; [eauto 10|]. destruct Hor as [Hn|(k' & n' & Hk' & Hn & ka & kb & Hka & Hkb & Hne & Hg)].
    + left. apply selected_lookup. split; [done|]. apply byID_lookup. eauto 10.
    + right. exists (np_ID n'), (pendingChange (e, k', principal, n')). split; [apply selected_lookup; split; [done|]; apply byID_lookup; eauto 10|].
      split; [done|]. exists ka, kb. by rewrite !keyByID_In.
Qed.

Lemma selection_In e a : In a (default [] (selection !! e)) <-> exists k n, chosen s principal named e k n /\ a = applyOf (pendingChange (e, k, principal, n)).
Proof.
  destruct select_inv as (sel' & Hcu & -> & _). rewrite byEnvironment_default, in_map_iff. split.
  - intros (c & <- & [[id Hid]%sortedChanges_In He]%filter_In). apply (chosen_spec _ Hcu) in Hid as (e' & k & n & Hch & _ & ->). cbn in He. apply String.eqb_eq in He as ->. eauto 10.
  - intros (k & n & Hch & ->). exists (pendingChange (e, k, principal, n)). split; [done|]. apply filter_In. split; [|cbn; apply String.eqb_refl].
    apply sortedChanges_In. exists (np_ID n). apply (chosen_spec _ Hcu). eauto 10.
Qed.

Lemma selection_env e : is_Some (selection !! e) <-> exists k n, chosen s principal named e k n.
Proof.
  pose proof (selection_In e) as Hin. destruct (selection !! e) as [l|] eqn:Hl.
  - split; [intros _|by eexists]. destruct l as [|a l].
    + exfalso. destruct select_inv as (sel' & _ & -> & _). rewrite byEnvironment_lookup in Hl. by destruct (List.filter _ _).
    + destruct (proj1 (Hin a) (or_introl eq_refl)) as (k & n & Hch & _). eauto 10.
  - split; [by intros []|]. intros (k & n & Hch). exfalso. apply (proj2 (Hin (applyOf (pendingChange (e, k, principal, n))))). eauto 10.
Qed.

(** No key twice in one environment: a caller has one draft per cell. *)
Lemma selection_NoDup e : NoDup (map pa_keyID (default [] (selection !! e))).
Proof.
  destruct select_inv as (sel' & Hcu & -> & _). rewrite byEnvironment_default, map_map. cbn [pa_keyID applyOf]. unfold sortedChanges.
  rewrite (Permutation_map _ (Permutation_filter _ _ _ (isort_perm changeLe _))).
  apply (NoDup_listing sel' snd (fun c => pc_EnvironmentID c =s e) pc_KeyID).
  intros id c id' c' Hid Hid' He He' Hk. cbn in *. apply String.eqb_eq in He, He'.
  apply (chosen_spec _ Hcu) in Hid as (e1 & k1 & n1 & [Hp1 _] & <- & ->), Hid' as (e2 & k2 & n2 & [Hp2 _] & <- & ->). cbn in *. subst. congruence.
Qed.

Lemma chosen_whole e k n k' o n' : chosen s principal named e k n -> pb_pending s !! (e, k', o) = Some n' -> sameGroup s k k' -> o = principal.
Proof.
  intros Hch Hp (ka & kb & Hka & Hkb & Hne & Hg). destruct select_inv as (sel' & Hcu & _).
  assert (sel' !! np_ID n = Some (pendingChange (e, k, principal, n))) as Hs by (apply (chosen_spec _ Hcu); eauto 10).
  destruct (cu_whole _ _ _ _ _ _ Hcu _ _ (MkMarker (np_ID n') e k' o) Hs) as [Ho _]; [|split; [done|]|done].
  - apply ListMarkers_In. by exists e, k', o, n'.
  - exists ka, kb. cbn. by rewrite !keyByID_In.
Qed.
Lemma chosen_declared e k n : chosen s principal named e k n -> In k (map fst (cat_keys (pb_cat s))).
Proof.
  intros Hch. destruct select_inv as (sel' & Hcu & _).
  assert (sel' !! np_ID n = Some (pendingChange (e, k, principal, n))) as Hs by (apply (chosen_spec _ Hcu); eauto 10).
  destruct (cu_declared _ _ _ _ _ _ Hcu _ _ Hs) as [key Hkey]. apply keyByID_In in Hkey. apply in_map_iff. by exists (k, key).
Qed.

Lemma closed_In id : In id closed <-> exists e k n, chosen s principal named e k n /\ np_ID n = id /\ ~ In id named.
Proof.
  destruct select_inv as (sel' & Hcu & _ & Hcl). rewrite Hcl. split.
  - intros [[c Hc] Hn]. pose proof Hc as (e & k & n & Hch & Hid & ->)%(chosen_spec _ Hcu). exists e, k, n. split; [done|]. split; [done|].
    intros Hin. assert (selected !! id = Some (pendingChange (e, k, principal, n))) as Hs; [|congruence]. apply selected_lookup. split; [done|]. apply byID_lookup. destruct Hch. eauto 10.
  - intros (e & k & n & Hch & Hid & Hn). split; [exists (pendingChange (e, k, principal, n)); apply (chosen_spec _ Hcu); eauto 10|].
    destruct (selected !! id) as [c|] eqn:Hs; [|done]. by apply selected_lookup in Hs as [? _].
Qed.
End Selected.
