(* ===== verification/PublishEffect.v ===== *)
(** * What publishing a selection does

    One environment of a selection, then all of them in order: the cells, the new
    revision, the drafts consumed, and everything left alone. *)

From S2P Require Import Prelude Domain EventNames OperationNames Utf8 Schema AuditEvent Parameters Envelope KeyTables Definitions DefinitionsSpec DefinitionsStore DefinitionsApply PublishStore GroupIndex Materialize Selection Approvals Publish PublishReads PublishSteps PublishInvariant PublishMaterialize.

#[local] Open Scope Z_scope.

(** ** Frames *)

(** Nothing of an environment moved. *)
Record same_env (e : string) (s s' : Pub) : Prop := {
  se_values : forall k, pb_values s' !! (e, k) = pb_values s !! (e, k);
  se_pending : forall k o, pb_pending s' !! (e, k, o) = pb_pending s !! (e, k, o);
  se_snapshots : forall r, pb_snapshots s' !! (e, r) = pb_snapshots s !! (e, r);
  se_entries : forall r sn k, pb_snapshots s !! (e, r) = Some sn -> pb_entries s' !! (sn_ID sn, k) = pb_entries s !! (sn_ID sn, k) }.

(** Snapshots and their entries are immutable. *)
Definition history (s s' : Pub) : Prop := forall e r sn, pb_snapshots s !! (e, r) = Some sn ->
  pb_snapshots s' !! (e, r) = Some sn /\ forall k, pb_entries s' !! (sn_ID sn, k) = pb_entries s !! (sn_ID sn, k).

Lemma same_env_refl e s : same_env e s s.
Proof. by split. Qed.
Lemma same_env_trans e s s' s'' : same_env e s s' -> same_env e s' s'' -> same_env e s s''.
Proof.
  intros [V P S E] [V' P' S' E']. split; intros; [by rewrite V', V|by rewrite P', P|by rewrite S', S|]. rewrite (E' r sn), (E r sn); [done|done|by rewrite S].
Qed.
Lemma history_trans s s' s'' : history s s' -> history s' s'' -> history s s''.
Proof. intros H H' e r sn Hsn. destruct (H _ _ _ Hsn) as [H1 E1]. destruct (H' _ _ _ H1) as [H2 E2]. split; [done|]. intros k. by rewrite E2, E1. Qed.
Lemma same_env_latest e s s' : same_env e s s' -> latestRevision e s' = latestRevision e s.
Proof. intros [_ _ S _]. apply latestRevision_ext. intros r. by rewrite S. Qed.

(** ** Drafts consumed *)
Definition consumed (env : string) (ids : list string) (e : string) (n : NewPendingChange) : bool := (e =s env) && contains ids (np_ID n).

Lemma Pending_Discard_Ok env id s b s' : Pending_Discard env id s = (Ok b, s') ->
  exists m, s' = set_pending m s /\ forall e k o, m !! (e, k, o) = pb_pending s !! (e, k, o) ≫= fun n => if consumed env [id] e n then None else Some n.
Proof.
  intros [= <- <-]. eexists. split; [reflexivity|]. intros e k o. rewrite map_lookup_filter. destruct (pb_pending s !! (e, k, o)) as [n|]; [|done]. cbn [mbind option_bind].
  unfold consumed, isDraft, contains. cbn [fst snd existsb]. rewrite orb_false_r.
  destruct ((e =s env) && (np_ID n =s id)); [by rewrite option_guard_False|by rewrite option_guard_True].
Qed.

Lemma discardApplies_Ok env applies : forall s s', discardApplies env applies s = (Ok (), s') ->
  exists m, s' = set_pending m s /\ forall e k o, m !! (e, k, o) = pb_pending s !! (e, k, o) ≫= fun n => if consumed env (map pa_versionID applies) e n then None else Some n.
Proof.
  induction applies as [|a rest IH]; intros s s'; cbn [discardApplies].
  - intros [= <-]. exists (pb_pending s). split; [by destruct s|]. intros e k o. unfold consumed. cbn. rewrite andb_false_r. by destruct (pb_pending s !! (e, k, o)).
  - intros (b & s1 & Hd & Hr)%st_bind_Ok. destruct b; [|discriminate]. cbn [negb] in Hr. apply Pending_Discard_Ok in Hd as (m1 & -> & H1).
    apply IH in Hr as (m2 & -> & H2). exists m2. split; [done|]. intros e k o. rewrite H2. cbn [pb_pending set_pending]. rewrite H1.
    destruct (pb_pending s !! (e, k, o)) as [n|]; [|done]. unfold consumed, contains. cbn [mbind option_bind map existsb]. rewrite orb_false_r.
    by destruct (e =s env), (np_ID n =s pa_versionID a); cbn.
Qed.

(** ** One environment *)
Section Effect.
Context `{FieldSealer} (X : PublishContext) (Hself : px_selfConfig X = false).

(** The plaintext a draft stands for: [None] when it clears the cell. *)
Definition draftValue (e : string) (a : pendingApply) : option bytes := if pa_set a then plain (openDraft X e a) else None.

(** What an admitted resolved state satisfies, over the cells as they stand. *)
Definition admitted (s : Pub) (e : string) (groups : groupIndex) : Prop := exists l, map rc_key l = cat_keys (pb_cat s) /\
  (forall cell, In cell l -> cellValue X s e (rc_key cell).1 = if rc_set cell then Some (rc_value cell) else None) /\
  cells_valid (px_schema X) groups e (default ∅ (cat_parameters (pb_cat s) !! e)) l /\ checkRenderTotal l 0 = Ok ().

Record env_published (groups : groupIndex) (e : string) (applies : list pendingApply) (s s' : Pub) : Prop := {
  ep_revision : latestRevision e s' = latestRevision e s + 1;
  ep_fresh : forall a, In a applies -> default "" (vr_ID <$> pb_values s !! (e, pa_keyID a)) = pa_stagedFromEntry a;
  ep_opens : forall a, In a applies -> pa_set a = true -> exists v, openDraft X e a = Ok v;
  ep_applied : forall a, In a applies -> In (pa_keyID a) (map fst (cat_keys (pb_cat s))) -> cellValue X s' e (pa_keyID a) = draftValue e a;
  ep_kept : forall k, ~ In k (map pa_keyID applies) -> pb_values s' !! (e, k) = pb_values s !! (e, k);
  ep_delivers : forall k, delivered X s' e (latestRevision e s') k = cellValue X s' e k;
  ep_pending : forall k o, pb_pending s' !! (e, k, o) = pb_pending s !! (e, k, o) ≫= fun n => if contains (map pa_versionID applies) (np_ID n) then None else Some n;
  ep_admitted : admitted s' e groups }.

(** The invariant under a step that removes drafts and touches no other row. *)
Lemma pub_ok_less us s s' : pub_ok X s -> draws us s s' -> pb_cat s' = pb_cat s -> pb_values s' = pb_values s -> pb_snapshots s' = pb_snapshots s -> pb_entries s' = pb_entries s ->
  (forall c n, pb_pending s' !! c = Some n -> pb_pending s !! c = Some n) -> pub_ok X s'.
Proof.
  intros [K Su D VI VN SI SR Co ER Ce Dr En Ch] Hd Hc Hv Hs He Hp.
  assert (forall e, latestRevision e s' = latestRevision e s) as Hl by (intros; apply latestRevision_ext; intros; by rewrite Hs).
  split.
  - by rewrite Hc.
  - by eapply draws_supply.
  - intros c c' n n' H1%Hp H2%Hp. by eapply D.
  - intros c c' r r'. rewrite Hv. apply VI.
  - intros c r. rewrite Hv. apply VN.
  - intros c c' r r'. rewrite Hs. apply SI.
  - intros e r row. rewrite Hs. apply SR.
  - intros e r. rewrite Hl, Hs. apply Co.
  - intros sid k e. rewrite He, Hs. apply ER.
  - intros e k row. rewrite Hv, Hc. apply Ce.
  - intros e k o n H1%Hp. by eapply Dr.
  - intros c e. rewrite He. apply En.
  - intros e. specialize (Ch e). unfold coherent in *. rewrite Hl, Hs, Hv, He, Hc. done.
Qed.

Lemma openApplies_Ok e applies : forall out, openApplies X e applies = Ok out ->
  Forall2 (fun a a' => pa_versionID a' = pa_versionID a /\ pa_keyID a' = pa_keyID a /\ pa_set a' = pa_set a /\ (pa_set a = true -> openDraft X e a = Ok (pa_value a'))) applies out.
Proof.
  induction applies as [|a rest IH]; intros out; cbn [openApplies]; [intros [= <-]; constructor|].
  intros (a' & Ha & (rest' & Hr & [= <-])%bind_Ok)%bind_Ok. constructor; [|by apply IH].
  destruct (pa_set a) eqn:Hset; cbn [negb] in Ha; [|injection Ha as <-; done]. unfold openDraft.
  destruct (fs_Open _ _) as [v|err|p]; [|discriminate..]. injection Ha as <-. done.
Qed.

Lemma openApplies_maps e applies out : openApplies X e applies = Ok out -> map pa_versionID out = map pa_versionID applies /\ map pa_keyID out = map pa_keyID applies.
Proof. intros Ho%openApplies_Ok. induction Ho as [|a a' l l' (Hv & Hk & _) _ [IHv IHk]]; [done|]. cbn [map]. by rewrite Hv, Hk, IHv, IHk. Qed.

Lemma checkApplies_Ok published groups applies : checkApplies published groups applies = Ok () -> forall a, In a applies -> default "" (published !! pa_keyID a) = pa_stagedFromEntry a.
Proof.
  induction applies as [|a rest IH]; cbn [checkApplies]; [by intros _ ? []|]. destruct (String.eqb_spec (default "" (published !! pa_keyID a)) (pa_stagedFromEntry a)) as [Heq|];
    [|by destruct (gi_keyByID groups !! pa_keyID a)]. intros Hr b [<-|Hb]; [done|by apply IH].
Qed.

Lemma recordPublish_Ok e pe n trigger s s' : recordPublish X e pe n trigger s = (Ok (), s') -> exists l, s' = set_audit l s.
Proof.
  unfold recordPublish. intros ([] & s1 & ->%insertTenant_Ok & Hr)%st_bind_Ok. apply st_bind_Ok in Hr as (jobs & s2 & [= _ <-] & [= <-]). by eexists.
Qed.

Lemma publishEnvironment_Ok groups e applies s pe s' : pub_ok X s -> loadGroupIndex s = Ok groups -> NoDup (map pa_keyID applies) ->
  (forall a, In a applies -> pa_set a = true -> exists k o n, pb_pending s !! (e, k, o) = Some n /\ np_Operation n = PendingSet /\ openPending X e k n = openDraft X e a) ->
  publishEnvironment X groups e applies s = (Ok pe, s') ->
  pub_ok X s' /\ pb_cat s' = pb_cat s /\ pb_gate s' = pb_gate s /\ history s s' /\ drawn s s' /\
  env_published groups e applies s s' /\ (forall e', e' <> e -> same_env e' s s') /\ pe_EnvironmentID pe = e /\ pe_Revision pe = latestRevision e s'.
Proof.
  intros Hok Hidx Hnd Hdrafts. unfold publishEnvironment. intros (s0 & s1 & [= <- <-] & Hr)%st_bind_Ok.
  apply st_bind_Ok in Hr as ([] & s1 & [= Hfresh <-] & Hr). apply st_bind_Ok in Hr as (opened & s1 & [= Hopen <-] & Hr).
  apply st_bind_Ok in Hr as ([pub st] & s1 & Hmat & Hr). apply st_bind_Ok in Hr as ([] & s2 & Hdis & Hr). apply st_bind_Ok in Hr as ([] & s3 & Hrec & [= <- <-]).
  pose proof (openApplies_Ok _ _ _ Hopen) as Hop. apply openApplies_maps in Hopen as [Hvers Hkeys].
  assert (forall a', In a' opened -> pa_set a' = true -> normal (pa_value a')) as Hnorm.
  { intros a' Ha' Hset. destruct (Forall2_In_r _ _ _ _ Hop Ha') as (a & Ha & _ & _ & Hs & Hv). rewrite Hs in Hset.
    destruct (Hdrafts a Ha Hset) as (k & o & n & Hp & Hn & Heq). destruct (pk_drafts _ _ Hok _ _ _ _ Hp Hn) as (v & Hv' & Hnv). rewrite Heq, (Hv Hset) in Hv'. by injection Hv' as ->. }
  destruct (materialize_tables X Hself _ _ _ _ _ _ _ _ _ Hok Hidx Hnorm Hmat) as (cells & cells' & us & sn & HT).
  pose proof (after_ok X Hself Hok Hidx Hnorm HT) as Hok1.
  apply discardApplies_Ok in Hdis as (m & -> & Hm). apply recordPublish_Ok in Hrec as (l & ->). rewrite Hvers in Hm.
  set (s' := set_audit l (set_pending m s1)).
  assert (forall c n, pb_pending s' !! c = Some n -> pb_pending s1 !! c = Some n) as Hless.
  { intros [[e' k] o] n. cbn. rewrite Hm. destruct (pb_pending s1 !! (e', k, o)) as [n'|]; [|done]. cbn. by destruct (consumed _ _ _ _). }
  assert (latestRevision e s' = pe_Revision pub) as Hlatest.
  { transitivity (latestRevision e s1); [by apply latestRevision_ext|]. rewrite (after_latest X HT). by rewrite decide_True. }
  split; [by apply (pub_ok_less [] s1); [|apply draws_less|..]|].
  split; [apply (ta_cat HT)|]. split; [apply (ta_gate HT)|]. split; [|split; [transitivity s1; [exact (after_drawn X Hok Hidx HT)|by apply (drawn_same []); [apply draws_less|done|by apply drafts_drawn_less]]|split; [|split; [|split; [apply (ta_env HT)|done]]]]].
  - intros e' r sn' Hsn'. split; [by apply (after_old_snapshot X HT)|]. intros k. cbn.
    apply (ta_entries HT). cbn. intros [Heq _]. by apply (after_fresh X HT _ _ Hsn').
  - split.
    + rewrite Hlatest. apply (ta_revision HT).
    + intros a Ha. pose proof (checkApplies_Ok _ _ _ Hfresh a Ha) as Hf. by rewrite publishedIDs_lookup in Hf.
    + intros a Ha Hset. clear -Hop Ha Hset. induction Hop as [|b b' bs bs' (_ & _ & _ & Hb) _ IH]; [done|]. destruct Ha as [->|Ha]; [eauto|by apply IH].
    + intros a Ha Hin. change (cellValue X s' e (pa_keyID a)) with (cellValue X s1 e (pa_keyID a)).
      rewrite (after_value X Hself Hok Hidx Hnorm HT _ Hin). unfold overridden, draftValue.
      assert (exists a', In a' opened /\ pa_keyID a' = pa_keyID a /\ pa_set a' = pa_set a /\ (pa_set a = true -> openDraft X e a = Ok (pa_value a'))) as (a' & Ha' & Hk' & Hs' & Hv').
      { clear -Hop Ha. induction Hop as [|b b' bs bs' (_ & Hk & Hs & Hb) _ IH]; [done|]. destruct Ha as [->|Ha]; [exists b'; split; [by left|done]|].
        destruct (IH Ha) as (x & Hx & Hr). exists x. split; [by right|done]. }
      rewrite <- Hk', (applyByKey_hit opened a') by (rewrite ?Hkeys; done). rewrite Hs'. destruct (pa_set a); [|done]. by rewrite Hv'.
    + intros k Hk. cbn. destruct (in_dec String.string_dec k (map fst (cat_keys (pb_cat s)))) as [Hin|Hin].
      * destruct (after_cell X Hidx HT k Hin) as (cell & Hc & <-). destruct (Forall2_In_r _ _ _ _ (ta_moved HT) Hc) as (c0 & _ & (Hk0 & _ & _ & Hmv)).
        rewrite <- Hk0 in Hmv. destruct (applyByKey opened !! (rc_key cell).1) as [a|] eqn:Ha; [|by destruct Hmv].
        apply applyByKey_In in Ha as [Ha Hka]. exfalso. apply Hk. rewrite <- Hkeys, <- Hka. by apply in_map.
      * apply (ta_values HT). destruct (after_keys Hidx) as [-> _]. tauto.
    + intros k. rewrite Hlatest. exact (after_delivers X Hself Hok Hidx Hnorm HT k).
    + intros k o. cbn. rewrite Hm, (ta_pending HT). unfold consumed. by rewrite String.eqb_refl.
    + destruct (after_valid X Hself Hok Hidx Hnorm HT) as (lst & Hl & Hrest). exists lst. cbn. by rewrite (ta_cat HT).
  - intros e' Hne. split.
    + intros k. apply (ta_values HT). tauto.
    + intros k o. cbn. rewrite Hm, (ta_pending HT). unfold consumed. apply String.eqb_neq in Hne as ->. cbn. by destruct (pb_pending s !! _).
    + intros r. cbn. rewrite (ta_snapshots HT), lookup_insert_ne; [done|congruence].
    + intros r sn' k Hsn'. cbn. apply (ta_entries HT). cbn. intros [Heq _]. by apply (after_fresh X HT _ _ Hsn').
Qed.

(** ** All environments of a selection *)
Lemma same_env_cellValue e s s' k : same_env e s s' -> cellValue X s' e k = cellValue X s e k.
Proof. intros [V _ _ _]. unfold cellValue. by rewrite V. Qed.
Lemma same_env_delivered e s s' r k : same_env e s s' -> delivered X s' e r k = delivered X s e r k.
Proof.
  intros [_ _ S E]. unfold delivered. rewrite S. destruct (pb_snapshots s !! (e, r)) as [sn|] eqn:Hsn; [|done]. cbn [mbind option_bind]. by rewrite (E r sn).
Qed.

Lemma env_published_after groups e applies s s' s'' : same_env e s' s'' -> pb_cat s'' = pb_cat s' -> env_published groups e applies s s' -> env_published groups e applies s s''.
Proof.
  intros Hsame Hc [Rv Fr Op Ap Kp De Pe (l & Hl & Hcells & Hv & Hr)]. pose proof Hsame as [V P _ _]. split.
  - by rewrite (same_env_latest _ _ _ Hsame).
  - done.
  - done.
  - intros a Ha Hin. by rewrite (same_env_cellValue _ _ _ _ Hsame), Ap.
  - intros k Hk. by rewrite V, Kp.
  - intros k. by rewrite (same_env_latest _ _ _ Hsame), (same_env_delivered _ _ _ _ _ Hsame), (same_env_cellValue _ _ _ _ Hsame).
  - intros k o. by rewrite P, Pe.
  - exists l. rewrite Hc. split; [done|]. split; [|done]. intros cell Hin. by rewrite (same_env_cellValue _ _ _ _ Hsame), Hcells.
Qed.

Lemma env_published_before groups e applies s0 s s' : same_env e s0 s -> pb_cat s = pb_cat s0 -> env_published groups e applies s s' -> env_published groups e applies s0 s'.
Proof.
  intros Hsame Hc [Rv Fr Op Ap Kp De Pe Ad]. pose proof Hsame as [V P _ _]. split; try done.
  - by rewrite Rv, (same_env_latest _ _ _ Hsame).
  - intros a Ha. by rewrite <- V, Fr.
  - intros a Ha. rewrite <- Hc. by apply Ap.
  - intros k Hk. by rewrite Kp, V.
  - intros k o. by rewrite Pe, P.
Qed.

Record all_published (groups : groupIndex) (selection : gmap string (list pendingApply)) (envs : list string) (s s' : Pub) : Prop := {
  ap_ok : pub_ok X s';
  ap_cat : pb_cat s' = pb_cat s;
  ap_gate : pb_gate s' = pb_gate s;
  ap_history : history s s';
  ap_drawn : drawn s s';
  ap_env : forall e, In e envs -> env_published groups e (default [] (selection !! e)) s s';
  ap_other : forall e, ~ In e envs -> same_env e s s' }.

Lemma publishEnvironments_Ok groups selection envs : forall s out s', pub_ok X s -> loadGroupIndex s = Ok groups -> NoDup envs ->
  (forall e, NoDup (map pa_keyID (default [] (selection !! e)))) ->
  (forall e a, In e envs -> In a (default [] (selection !! e)) -> pa_set a = true ->
     exists k o n, pb_pending s !! (e, k, o) = Some n /\ np_Operation n = PendingSet /\ openPending X e k n = openDraft X e a) ->
  publishEnvironments X groups selection envs s = (Ok out, s') -> all_published groups selection envs s s' /\ map pe_EnvironmentID out = envs /\
    forall pe, In pe out -> pe_Revision pe = latestRevision (pe_EnvironmentID pe) s'.
Proof.
  induction envs as [|e envs IH]; intros s out s' Hok Hidx Hnd Hkeys Hdrafts; cbn [publishEnvironments].
  - intros [= <- <-]. split; [|split; [done|by intros ? []]]. split; try done.
  - intros (pe & s1 & Hp & Hr)%st_bind_Ok. apply st_bind_Ok in Hr as (rest & s2 & Hr & [= <- <-]).
    apply NoDup_cons in Hnd as [He Hnd]. rewrite list_elem_of_In in He.
    apply publishEnvironment_Ok in Hp as (Hok1 & Hcat & Hgate & Hhist & Hdr & Hpub & Hoth & Hpe & Hrev); [|done|done|done|intros a Ha; apply Hdrafts; [by left|done]].
    apply IH in Hr as ([Ok2 C2 G2 H2 D2 E2 O2] & Hout & Hrevs); [|done|by unfold loadGroupIndex in *; rewrite Hcat|done|done|].
    2: { intros e' a Hin Ha Hset. destruct (Hdrafts e' a (or_intror Hin) Ha Hset) as (k & o & n & Hn & Hrest). exists k, o, n. split; [|done].
         rewrite (se_pending _ _ _ (Hoth e' ltac:(by intros ->))). done. }
    split; [|split; [cbn [map]; by rewrite Hpe, Hout|]].
    + split; [done|congruence|congruence|by eapply history_trans|by etransitivity|..].
      * intros e' [<-|Hin]; [by eapply env_published_after; [apply O2|..]|]. eapply env_published_before; [apply Hoth; by intros ->|done|by apply E2].
      * intros e' Hne. cbn [In] in Hne. eapply same_env_trans; [apply Hoth; intros ->; tauto|apply O2; tauto].
    + intros pe' [<-|Hin]; [|by apply Hrevs]. rewrite Hpe, Hrev. symmetry. by apply same_env_latest, O2.
Qed.
End Effect.
