(* ===== verification/PublishStage.v ===== *)
(** * What saving a draft does

    [stage] writes one draft of the caller and nothing else of the tables: its
    identifier is new, its material opens to the stored form of the value, and it
    names the row it was staged against. *)

From S2P Require Import Prelude Domain EventNames OperationNames Utf8 GoStrings Schema AuditEvent Parameters Envelope KeyTables Definitions DefinitionsSpec DefinitionsStore DefinitionsApply PublishStore GroupIndex Materialize Selection Approvals Publish PublishReads PublishSteps PublishInvariant PublishMaterialize PublishEffect.

#[local] Open Scope Z_scope.

Lemma Normalize_normal v : normal (Normalize v).
Proof. unfold normal, Normalize. apply TrimSpace_idem. Qed.

Lemma write_inv {S A} (m : ST S A) s r s' : write m s = (r, s') -> s' = s \/ exists a, r = Ok a /\ m s = (Ok a, s').
Proof. unfold write. destruct (m s) as [[a|e|p] s1]; intros [= <- <-]; [right; eauto|by left..]. Qed.
Lemma write_Ok {S A} (m : ST S A) s a s' : write m s = (Ok a, s') <-> m s = (Ok a, s').
Proof. unfold write. destruct (m s) as [[b|e|p] s1]; split; congruence. Qed.

(** A check before a transaction: refused, or the rest runs. *)
Lemma checked_inv {A B} (r : result A) (f : A -> ST Pub B) s x s' : (st_result r ≫= f) s = (x, s') -> s' = s \/ exists a, r = Ok a /\ f a s = (x, s').
Proof. unfold mbind, st_bind, st_result. destruct r as [a|e|p]; [right; eauto|intros [= _ <-]; by left..]. Qed.

Section Stage.
Context `{FieldSealer} (X : PublishContext) (Hself : px_selfConfig X = false).

(** One draft, in place of the caller's former one for the cell. *)
Record staged (env k : string) (us : list string) (n : NewPendingChange) (s s' : Pub) : Prop := {
  sd_new : exists u, In u us /\ np_ID n = mkID "pcv" u;
  sd_draws : draws us s s';
  sd_cat : pb_cat s' = pb_cat s; sd_values : pb_values s' = pb_values s; sd_snapshots : pb_snapshots s' = pb_snapshots s;
  sd_entries : pb_entries s' = pb_entries s; sd_occurrences : pb_occurrences s' = pb_occurrences s; sd_gate : pb_gate s' = pb_gate s;
  sd_pending : pb_pending s' = <[ (env, k, px_principal X) := n ]> (pb_pending s);
  sd_taken : forall c n', c <> (env, k, px_principal X) -> pb_pending s !! c = Some n' -> np_ID n' <> np_ID n;
  sd_baseline : np_StagedFromEntry n = default "" (vr_ID <$> pb_values s !! (env, k));
  sd_declared : In k (map fst (cat_keys (pb_cat s)));
  sd_opens : np_Operation n = PendingSet -> exists v, openPending X env k n = Ok v /\ normal v }.

Lemma staged_drafts env k us n s s' : staged env k us n s s' -> drafts_drawn us s s'.
Proof.
  intros [Hn _ _ _ _ _ _ _ Hp _ _ _ _] c n'. rewrite Hp. destruct (decide (c = (env, k, px_principal X))) as [->|Hne].
  - rewrite lookup_insert_eq. intros [= <-]. by right.
  - rewrite lookup_insert_ne by done. by left.
Qed.

(** The table write both paths end in. *)
Lemma stage_write env k v op rev src secret material u us rnd sealed baseline l l' s s' :
  pb_uuids s = u :: us -> baseline = default "" (vr_ID <$> pb_values s !! (env, k)) ->
  (op = PendingSet -> fs_Open (pendingAAD X env k (mkID "pcv" u)) sealed = Ok v /\ normal v) ->
  Pending_Stage env k (px_principal X) (MkNewPending (mkID "pcv" u) op sealed rev baseline (px_now X) src secret material) (set_audit l (set_sources us rnd s)) = (Ok (), s') ->
  staged env k [u] (MkNewPending (mkID "pcv" u) op sealed rev baseline (px_now X) src secret material) s (set_audit l' s').
Proof.
  intros Hu Hb Hop. unfold Pending_Stage. cbn [np_ID pb_pending set_audit set_sources]. destruct (idTaken _ _ _) eqn:Ht; [discriminate|]. destruct (envExists _ _); [|discriminate].
  destruct (keyDeclared _ _) eqn:Hk; [|discriminate]. intros [= <-]. set (n := MkNewPending _ _ _ _ _ _ _ _ _).
  set (s' := set_audit l' _).
  assert (pb_pending s' = <[ (env, k, px_principal X) := n ]> (pb_pending s)) as Hpend by (cbn; by rewrite insert_delete_eq).
  split; try done.
  - exists u. split; [by left|done].
  - split; [exact Hu|]. intros i [c r Hr Hi|c n' Hn Hi|c n' Hn Hi|c r Hr Hi|c e Hc Hi|Hi].
    + left. by eapply used_value.
    + rewrite Hpend in Hn. destruct (decide (c = (env, k, px_principal X))) as [->|Hne].
      * rewrite lookup_insert_eq in Hn. injection Hn as <-. right. exists "pcv", u. cbn in *. naive_solver.
      * rewrite lookup_insert_ne in Hn by done. left. by eapply used_draft.
    + rewrite Hpend in Hn. destruct (decide (c = (env, k, px_principal X))) as [->|Hne].
      * rewrite lookup_insert_eq in Hn. injection Hn as <-. destruct Hi as [Hi Hne]. cbn in Hi. rewrite Hb in Hi.
        destruct (pb_values s !! (env, k)) as [row|] eqn:Hrow; [|by subst i]. left. by eapply used_value.
      * rewrite lookup_insert_ne in Hn by done. left. by eapply used_baseline.
    + left. by eapply used_snapshot.
    + left. by eapply used_entry.
    + left. by apply used_occurrence.
  - intros c n' Hne Hn'. apply (idTaken_false _ _ _ c _ Ht). by rewrite lookup_delete_ne.
  - apply contains_In. exact Hk.
  - cbn. intros ->. exists v. by apply Hop.
Qed.

Lemma pub_ok_staged env k us n s s' : pub_ok X s -> staged env k us n s s' -> pub_ok X s'.
Proof.
  intros [K Su D VI VN SI SR Co ER Ce Dr En Ch] [_ Hd Hc Hv Hs He _ _ Hp Ht _ _ Ho].
  assert (forall e, latestRevision e s' = latestRevision e s) as Hl by (intros; apply latestRevision_ext; intros; by rewrite Hs).
  split.
  - by rewrite Hc.
  - by eapply draws_supply.
  - intros c c' n1 n2. rewrite Hp. destruct (decide (c = (env, k, px_principal X))) as [->|Hn1], (decide (c' = (env, k, px_principal X))) as [->|Hn2]; [done|..];
      rewrite ?lookup_insert_eq, ?lookup_insert_ne by done.
    + intros [= <-] H2 Heq. by destruct (Ht _ _ Hn2 H2).
    + intros H1 [= <-] Heq. by destruct (Ht _ _ Hn1 H1).
    + by apply D.
  - intros c c' r r'. rewrite Hv. apply VI.
  - intros c r. rewrite Hv. apply VN.
  - intros c c' r r'. rewrite Hs. apply SI.
  - intros e r row. rewrite Hs. apply SR.
  - intros e r. rewrite Hl, Hs. apply Co.
  - intros sid k' e. rewrite He, Hs. apply ER.
  - intros e k' row. rewrite Hv, Hc. apply Ce.
  - intros e k' o n'. rewrite Hp. destruct (decide ((e, k', o) = (env, k, px_principal X))) as [Heq|Hne].
    + injection Heq as -> -> ->. rewrite lookup_insert_eq. by intros [= <-].
    + rewrite lookup_insert_ne by done. apply Dr.
  - intros c e. rewrite He. apply En.
  - intros e. specialize (Ch e). unfold coherent in *. by rewrite Hl, Hs, Hv, He, Hc.
Qed.

Lemma baselineOf_Ok env k s b : baselineOf env k s = Ok b -> b = default "" (vr_ID <$> pb_values s !! (env, k)).
Proof. unfold baselineOf, Values_Get. destruct (pb_values s !! (env, k)) as [row|]; [by intros [= <-]|]. by intros [= <-]. Qed.

Lemma sealDraft_Ok env k id op v s c s' : sealDraft X env k id op v s = (Ok c, s') ->
  (op = PendingSet -> fs_Open (pendingAAD X env k id) c = Ok v) /\ exists rnd, s' = set_sources (pb_uuids s) rnd s.
Proof.
  unfold sealDraft. destruct op; [|intros [= <- <-]; split; [done|]; exists (pb_rnd s); by destruct s].
  intros (sealed & s1 & Hseal & Hr)%st_bind_Ok. apply sealField_Ok in Hseal as [Hopen [rnd ->]]. apply st_bind_Ok in Hr as ([] & s2 & [= _ <-] & [= <- <-]). eauto.
Qed.

Lemma stageBody_Ok env name op v s r s' : stageBody X env name op v s = (Ok r, s') ->
  exists u n, staged env (sg_KeyID r) [u] n s s' /\ np_ID n = sg_VersionID r /\ np_Operation n = op /\ (op = PendingSet -> openPending X env (sg_KeyID r) n = Ok (Normalize v)).
Proof.
  unfold stageBody. intros ([] & s1 & [= _ <-] & Hr)%st_bind_Ok. apply st_bind_Ok in Hr as (s0 & s1 & [= <- <-] & Hr).
  apply st_bind_Ok in Hr as (key & s1 & [= Hkey <-] & Hr). destruct (_ <=? _); [discriminate|].
  apply st_bind_Ok in Hr as (rev & s1 & [= _ <-] & Hr). apply st_bind_Ok in Hr as (b & s1 & [= Hb <-] & Hr). apply baselineOf_Ok in Hb.
  apply st_bind_Ok in Hr as (id & s1 & Hid & Hr). apply pubID_Ok in Hid as (u & us & -> & Hu & ->).
  apply st_bind_Ok in Hr as (sealed & s1 & Hseal & Hr). apply sealDraft_Ok in Hseal as [Hopen [rnd ->]]. rewrite (normalize_normal X _ _ Hself) in Hopen.
  apply st_bind_Ok in Hr as ([] & s1 & Hst & Hr). apply st_bind_Ok in Hr as ([] & s2 & ->%insertTenant_Ok & Hr).
  apply st_bind_Ok in Hr as (ws & s2 & [= _ <-] & Hr). apply st_bind_Ok in Hr as ([] & s3 & [= <-] & [= <- <-]). cbn [sg_KeyID sg_VersionID].
  set (n := MkNewPending _ _ _ _ _ _ _ _ _) in Hst. exists u, n. split; [|split; [done|split; [done|]]].
  - eapply (stage_write env key.1 (Normalize v) op rev _ _ _ u us rnd sealed b (pb_audit s) _ s s1 Hu Hb); [intros ->; split; [by apply Hopen|apply Normalize_normal]|].
    rewrite <- Hst. by destruct s.
  - intros ->. by apply Hopen.
Qed.

(** ** Restoring *)

(** The draft that takes a cell from its current plaintext to the wanted one. *)
Definition draft_for (wanted current : option bytes) : option (PendingOperation * bytes) :=
  match wanted, current with
  | None, None => None
  | None, Some _ => Some (PendingUnset, [])
  | Some v, None => Some (PendingSet, v)
  | Some v, Some w => if bool_decide (w = v) then None else Some (PendingSet, v)
  end.

Section Restored.
Context (env : string) (latest target : Snapshot) (targets : gmap string SnapshotEntry) (currents : gmap string ValueEntry) (sticky : gset string).

Definition wanted (k : string) : option bytes := targets !! k ≫= fun e => plain (openEntry X e).
Definition current (k : string) : option bytes := currents !! k ≫= fun c => plain (openCell X c).

Context (Hopens : forall k c, currents !! k = Some c -> exists w, openCell X c = Ok w).

Lemma audit_self s : s = set_audit (pb_audit s) s.
Proof. by destruct s. Qed.
Lemma audit_if (b : bool) e s s' : (if b then insertTenant e else mret ()) s = (Ok (), s') -> exists l, s' = set_audit l s.
Proof. destruct b; intros [= <-]; [by eexists|]. exists (pb_audit s). apply audit_self. Qed.

Lemma compareKey_Ok key s c s' : compareKey X latest target targets currents sticky key s = (Ok c, s') -> (exists l, s' = set_audit l s) /\ c = draft_for (wanted key.1) (current key.1).
Proof.
  unfold compareKey, wanted, current. destruct (targets !! key.1) as [t|].
  - intros (v & s1 & Hv & Hr)%st_bind_Ok. injection Hv as Hv <-. unfold openSnapshotEntry in Hv. fold (openEntry X t) in Hv.
    destruct (openEntry X t) as [v'|e|p] eqn:Ho; [|discriminate..]. injection Hv as ->.
    apply st_bind_Ok in Hr as ([] & s2 & [l ->]%audit_if & Hr). cbn [mbind option_bind]. rewrite Ho. cbn [plain].
    destruct (currents !! key.1) as [cu|].
    + apply st_bind_Ok in Hr as (w & s3 & [= Hw <-] & Hr). apply st_bind_Ok in Hr as ([] & s4 & [l' ->]%audit_if & [= <- <-]). cbn [mbind option_bind]. rewrite Hw. split; [by eexists|done].
    + injection Hr as <- <-. split; [by eexists|done].
  - destruct (currents !! key.1) as [cu|] eqn:Hc; intros [= <- <-]; (split; [eexists; apply audit_self|]); [|done].
    destruct (Hopens _ _ Hc) as [w Hw]. cbn [mbind option_bind]. by rewrite Hw.
Qed.

(** What the restore leaves of one key's draft. *)
Definition restored_key (changes : list StagedChange) (s s' : Pub) (k : string) : Prop :=
  match draft_for (wanted k) (current k) with
  | None => pb_pending s' !! (env, k, px_principal X) = pb_pending s !! (env, k, px_principal X)
  | Some (op, v) => exists n, pb_pending s' !! (env, k, px_principal X) = Some n /\ np_Operation n = op /\
      (op = PendingSet -> openPending X env k n = Ok v) /\ In (np_ID n) (map sg_VersionID changes)
  end.

Record restored (keys : list CatalogueRow) (changes : list StagedChange) (us : list string) (s s' : Pub) : Prop := {
  rs_draws : draws us s s';
  rs_cat : pb_cat s' = pb_cat s; rs_values : pb_values s' = pb_values s; rs_snapshots : pb_snapshots s' = pb_snapshots s;
  rs_entries : pb_entries s' = pb_entries s; rs_gate : pb_gate s' = pb_gate s; rs_drafts : drafts_drawn us s s';
  rs_others : forall e k o, ~ (e = env /\ In k (map fst keys) /\ o = px_principal X) -> pb_pending s' !! (e, k, o) = pb_pending s !! (e, k, o);
  rs_keys : forall k, In k (map fst keys) -> restored_key changes s s' k;
  rs_changes : forall id, In id (map sg_VersionID changes) -> exists k n, In k (map fst keys) /\ pb_pending s' !! (env, k, px_principal X) = Some n /\ np_ID n = id /\ draft_for (wanted k) (current k) <> None }.

Lemma restoreKey_Ok key s c s' : sn_Revision target <> sn_Revision latest -> pub_ok X s ->
  (forall k, currents !! k = (fun row => valueEntry (env, k, row)) <$> pb_values s !! (env, k)) ->
  (forall k e, targets !! k = Some e -> exists v, openEntry X e = Ok v /\ normal v) ->
  restoreKey X env latest target targets currents sticky key s = (Ok c, s') ->
  match draft_for (wanted key.1) (current key.1) with
  | None => c = None /\ exists l, s' = set_audit l s
  | Some (op, v) => exists u n ch, c = Some ch /\ staged env key.1 [u] n s s' /\ np_ID n = sg_VersionID ch /\ np_Operation n = op /\ (op = PendingSet -> openPending X env key.1 n = Ok v)
  end.
Proof.
  intros Hne Hok Hcur Htar. unfold restoreKey. apply Z.eqb_neq in Hne as ->. intros (d & s1 & Hd & Hr)%st_bind_Ok. apply compareKey_Ok in Hd as [[l ->] ->].
  destruct (draft_for (wanted key.1) (current key.1)) as [[op v]|] eqn:Hdf; [|injection Hr as <- <-; eauto].
  apply st_bind_Ok in Hr as (id & s1 & Hid & Hr). apply pubID_Ok in Hid as (u & us & -> & Hu & ->).
  apply st_bind_Ok in Hr as (sealed & s1 & Hseal & Hr). apply sealDraft_Ok in Hseal as [Hopen [rnd ->]].
  apply st_bind_Ok in Hr as ([] & s1 & Hst & Hr). apply st_bind_Ok in Hr as ([] & s2 & ->%insertTenant_Ok & [= <- <-]).
  set (n := MkNewPending _ _ _ _ _ _ _ _ _) in Hst. eexists u, n, _. split; [reflexivity|]. split; [|split; [done|split; [done|]]].
  - refine (stage_write env key.1 v op _ _ _ _ u us rnd sealed _ l _ s s1 Hu _ _ Hst).
    + rewrite Hcur. by destruct (pb_values s !! (env, key.1)).
    + intros ->. split; [by apply Hopen|]. unfold draft_for, wanted in Hdf. destruct (targets !! key.1) as [e|] eqn:He; [|by destruct (current key.1)].
      destruct (Htar _ _ He) as (v' & Hv' & Hnv). cbn [mbind option_bind] in Hdf. rewrite Hv' in Hdf. cbn [plain] in Hdf.
      destruct (current key.1); [destruct (bool_decide _); [discriminate|]|]; by injection Hdf as <-.
  - intros ->. by apply Hopen.
Qed.

Lemma pub_ok_audit l s : pub_ok X s -> pub_ok X (set_audit l s).
Proof. intros Hok. by apply (pub_ok_less X [] s); [|apply draws_quiet|..]. Qed.

Lemma restoreEach_Ok keys : forall s changes s', sn_Revision target <> sn_Revision latest -> NoDup (map fst keys) -> pub_ok X s ->
  (forall k, currents !! k = (fun row => valueEntry (env, k, row)) <$> pb_values s !! (env, k)) ->
  (forall k e, targets !! k = Some e -> exists v, openEntry X e = Ok v /\ normal v) ->
  restoreEach X env latest target targets currents sticky keys s = (Ok changes, s') -> pub_ok X s' /\ exists us, restored keys changes us s s'.
Proof.
  intros s changes s' Hne. revert s changes s'. induction keys as [|key rest IH]; intros s changes s' Hnd Hok Hcur Htar; cbn [restoreEach].
  - intros [= <- <-]. split; [done|]. exists []. split; try done; [apply draws_refl|by apply drafts_drawn_less].
  - intros (c & s1 & Hc & Hr)%st_bind_Ok. apply st_bind_Ok in Hr as (out & s2 & Hr & [= <- <-]).
    cbn [map] in Hnd. apply NoDup_cons in Hnd as [Hk Hnd]. rewrite list_elem_of_In in Hk.
    pose proof (restoreKey_Ok key s c s1 Hne Hok Hcur Htar Hc) as Hkey. destruct (draft_for (wanted key.1) (current key.1)) as [[op v]|] eqn:Hdf.
    + destruct Hkey as (u & n & ch & -> & Hst & Hid & Hop & Hopen). pose proof (pub_ok_staged _ _ _ _ _ _ Hok Hst) as Hok1. pose proof (staged_drafts _ _ _ _ _ _ Hst) as Hf. destruct Hst as [_ Hd Hca Hv Hs He _ Hg Hp _ _ _ _].
      apply IH in Hr as (Hok2 & us & [Rd Rc Rv Rs Re Rg Rf Ro Rk Rch]); [|done|done|by rewrite Hv|done].
      split; [done|]. exists ([u] ++ us).
      assert (pb_pending s2 !! (env, key.1, px_principal X) = Some n) as Hn by (rewrite Ro by tauto; by rewrite Hp, lookup_insert_eq).
      split; [by eapply draws_trans|congruence..|by eapply drafts_drawn_trans| | |].
      * intros e k o Hnot. cbn [map In] in Hnot. rewrite Ro by tauto. rewrite Hp, lookup_insert_ne; [done|]. intros [= <- <- <-]. tauto.
      * intros k [<-|Hin]; unfold restored_key.
        -- rewrite Hdf. exists n. split; [done|]. split; [done|]. split; [done|]. left. by rewrite Hid.
        -- specialize (Rk k Hin). unfold restored_key in Rk. destruct (draft_for (wanted k) (current k)) as [[op' v']|].
           ++ destruct Rk as (n' & H1 & H2 & H3 & H4). exists n'. split_and!; try done. by right.
           ++ rewrite Rk, Hp, lookup_insert_ne; [done|]. intros [= <-]. tauto.
      * intros id [<-|Hin]; [exists key.1, n; rewrite Hdf; split_and!; try done; by left|]. destruct (Rch id Hin) as (k & n' & Hk' & Hrest). exists k, n'. split; [by right|done].
    + destruct Hkey as [-> [l ->]]. apply IH in Hr as (Hok2 & us & [Rd Rc Rv Rs Re Rg Rf Ro Rk Rch]); [|done|by apply pub_ok_audit|done|done].
      split; [done|]. exists ([] ++ us). split; try done.
      * eapply draws_trans; [|exact Rd]. by apply draws_quiet.
      * intros e k o Hnot. cbn [map In] in Hnot. by rewrite Ro by tauto.
      * intros k [<-|Hin]; [|by apply Rk]. unfold restored_key. rewrite Hdf. by rewrite Ro by tauto.
      * intros id Hin. destruct (Rch id Hin) as (k & n' & Hk' & Hrest). exists k, n'. split; [by right|done].
Qed.
End Restored.

(** ** The restore of a whole environment *)
Lemma targets_lookup env target entries s k : pub_ok X s -> pb_snapshots s !! (env, sn_Revision target) = Some target -> Entries env target s = Ok entries ->
  targetByKey entries !! k = pb_entries s !! (sn_ID target, k).
Proof.
  intros Hok Hsn Hent. change (targetByKey entries) with (indexed se_KeyID (fun e => e) entries ∅).
  destruct (pb_entries s !! (sn_ID target, k)) as [e|] eqn:He.
  - destruct (pk_entryRows _ _ Hok _ _ _ He) as (_ & Hk & rev & row & Hrow & Hid). pose proof (pk_snapshotIDs _ _ Hok _ _ _ _ Hrow Hsn Hid) as Heq. rewrite <- Hk.
    refine (indexed_hit se_KeyID (fun e => e) entries ∅ e (Entries_NoDup env target s entries (pk_entryRows _ _ Hok) Hent) _).
    apply (Entries_In env target s entries e (pk_entryRows _ _ Hok) Hent). exists k. split; [done|congruence].
  - rewrite indexed_miss; [apply lookup_empty|]. intros Hin. apply in_map_iff in Hin as (e & <- & Hin).
    apply (Entries_In env target s entries e (pk_entryRows _ _ Hok) Hent) in Hin as (k & Hk & _). destruct (pk_entryRows _ _ Hok _ _ _ Hk) as (_ & Hkk & _). congruence.
Qed.

(** The plaintext a cell must move to, and the drafts that move it. *)
Lemma restoreBody_Ok env rev name s r s' : pub_ok X s -> restoreBody X env rev name s = (Ok r, s') -> pub_ok X s' /\ exists us s1 l, draws us s s' /\ s' = set_audit l s1 /\
  exists keys, (name = "" -> keys = cat_keys (pb_cat s) /\ forall k, delivered X s env rev k <> None -> In k (map fst keys)) /\ NoDup (map fst keys) /\
  ((rr_Changes r = [] /\ exists l', s1 = set_audit l' s) \/
   exists targets currents, (forall k, wanted targets k = delivered X s env rev k) /\ (forall k, current currents k = cellValue X s env k) /\ restored env targets currents keys (rr_Changes r) us s s1).
Proof.
  intros Hok. unfold restoreBody. intros ([] & s1 & [= _ <-] & Hr)%st_bind_Ok. apply st_bind_Ok in Hr as (s0 & s1 & [= <- <-] & Hr).
  apply st_bind_Ok in Hr as (latest & s1 & [= Hlat <-] & Hr). apply st_bind_Ok in Hr as (target & s1 & [= Htar <-] & Hr).
  destruct (negb (PayloadPresent target)); [discriminate|]. apply st_bind_Ok in Hr as ([] & s1 & [= _ <-] & Hr).
  apply st_bind_Ok in Hr as (entries & s1 & [= Hent <-] & Hr). apply st_bind_Ok in Hr as (keys & s1 & [= Hkeys <-] & Hr).
  apply st_bind_Ok in Hr as ([] & s1 & [= _ <-] & Hr). apply st_bind_Ok in Hr as (changes & s1 & Heach & Hr).
  apply st_bind_Ok in Hr as (s2 & s2' & [= <- <-] & Hr). apply st_bind_Ok in Hr as (preview & s2 & [= _ <-] & Hr). apply st_bind_Ok in Hr as ([] & s2 & ->%insertTenant_Ok & [= <- <-]).
  cbn [rr_Changes].
  assert (pb_snapshots s !! (env, rev) = Some target) as Hsn by (unfold AtRevision in Htar; destruct (pb_snapshots s !! (env, rev)); congruence).
  destruct (pk_snapshotRows _ _ Hok _ _ _ Hsn) as (_ & Hrev & _).
  pose proof (fun k => targets_lookup env target entries s k Hok ltac:(by rewrite Hrev) Hent) as Hlook.
  assert (NoDup (map fst keys) /\ (name = "" -> keys = cat_keys (pb_cat s) /\ forall k, delivered X s env rev k <> None -> In k (map fst keys))) as [Hnd Hall].
  { unfold restoreKeys in Hkeys. destruct (String.eqb_spec name "") as [->|Hne].
    - apply bind_Ok in Hkeys as ([] & Hval & [= <-]). split; [apply (pk_keys _ _ Hok)|]. intros _. split; [done|]. intros k Hk. unfold validateSnapshotEntryKeys in Hval.
      destruct (forallb _ entries) eqn:Hfa; [|discriminate]. unfold delivered in Hk. rewrite Hsn in Hk. cbn [mbind option_bind] in Hk.
      destruct (pb_entries s !! (sn_ID target, k)) as [e|] eqn:He; [|done]. destruct (pk_entryRows _ _ Hok _ _ _ He) as (_ & Hke & r' & row & Hrow & Hid).
      assert (In e entries) as Hin by (apply (Entries_In env target s entries e (pk_entryRows _ _ Hok) Hent); exists k; split; [done|]; pose proof (pk_snapshotIDs _ _ Hok _ _ _ _ Hrow Hsn Hid); congruence).
      rewrite forallb_forall in Hfa. apply Hfa, contains_In in Hin. by rewrite Hke in Hin.
    - split; [|done]. apply bind_Ok in Hkeys as (key & _ & Hkeys). destruct (existsb _ _); [discriminate|]. injection Hkeys as <-. cbn. apply NoDup_singleton. }
  destruct (decide (sn_Revision target = sn_Revision latest)) as [Heq|Hne].
  - assert (changes = [] /\ s1 = s) as [-> ->].
    { clear -Heach Heq. revert changes s1 Heach. induction keys as [|key rest IH]; intros changes s1; cbn [restoreEach]; [by intros [= <- <-]|]. unfold restoreKey at 1.
      apply Z.eqb_eq in Heq as ->. intros (c & s2 & [= <- <-] & Hr)%st_bind_Ok. apply st_bind_Ok in Hr as (out & s3 & Hr & [= <- <-]). by apply IH in Hr. }
    split; [by apply pub_ok_audit|]. exists [], s. eexists. split; [by apply draws_quiet|]. split; [reflexivity|]. exists keys. split; [done|]. split; [done|]. left. split; [done|].
    exists (pb_audit s). apply audit_self.
  - apply restoreEach_Ok in Heach as (Hok1 & us & Hres); [|intros k c; rewrite entryByKey_lookup|done|done|done|intros; apply entryByKey_lookup|].
    + split; [by apply pub_ok_audit|]. exists us, s1. eexists. split; [rewrite <- (app_nil_r us); eapply draws_trans; [apply (rs_draws _ _ _ _ _ _ _ _ Hres)|by apply draws_quiet]|].
      split; [reflexivity|]. exists keys. split; [done|]. split; [done|]. right. eexists _, _. split; [|split; [|exact Hres]].
      * intros k. unfold wanted, delivered. by rewrite Hlook, Hsn.
      * intros k. unfold current, cellValue. rewrite entryByKey_lookup. destruct (pb_values s !! (env, k)) as [row|]; [|done]. cbn [fmap option_fmap option_map mbind option_bind].
        rewrite openCell_row. by destruct (openRow X env k row).
    + destruct (pb_values s !! (env, k)) as [row|] eqn:Hrow; [|done]. cbn. intros [= <-]. destruct (pk_cells _ _ Hok _ _ _ Hrow) as (_ & v & Hv & _). exists v. by rewrite openCell_row, Hv.
    + intros k e. rewrite Hlook. apply (pk_entries _ _ Hok).
Qed.
End Stage.
