(* ===== verification/PublishGate.v ===== *)
(** * The approval tables under every operation

    A request, once resolved, never changes; its content never changes at all; a
    vote never changes. Each operation of [Approvals] and [Voting] is shown to
    keep that, and to touch nothing but the approval tables, the audit trail and
    the sources of identifiers. *)

From S2P Require Import Prelude Domain EventNames OperationNames Utf8 GoStrings FreeText Schema AuditEvent Parameters Envelope KeyTables Definitions DefinitionsSpec DefinitionsStore DefinitionsApply PublishStore GroupIndex Materialize Selection Approvals Publish Voting PublishReads PublishSteps PublishInvariant PublishMaterialize PublishEffect PublishStage.

#[local] Open Scope Z_scope.

(** ** Rows *)
Record gate_ok (g : GateTables) : Prop := {
  gk_votes : forall r p v, gt_votes g !! (r, p) = Some v -> av_RequestID v = r /\ av_PrincipalID v = p;
  gk_requests : forall id r, gt_requests g !! id = Some r -> rq_ID r = id /\ (isActiveRequest (rq_State r) = false <-> is_Some (rq_ResolvedAt r)) }.

(** What reviewers saw: everything but the state, its cause and its time. *)
Definition same_content (r r' : ApprovalRequest) : Prop := r' = withState (rq_State r') (rq_InvalidatedCause r') (rq_ResolvedAt r') r.

Record gate_step (g g' : GateTables) : Prop := {
  gs_ok : gate_ok g -> gate_ok g';
  gs_final : gate_ok g -> forall id r, gt_requests g !! id = Some r -> isActiveRequest (rq_State r) = false -> gt_requests g' !! id = Some r;
  gs_content : forall id r, gt_requests g !! id = Some r -> exists r', gt_requests g' !! id = Some r' /\ same_content r r';
  gs_votes : forall c v, gt_votes g !! c = Some v -> gt_votes g' !! c = Some v }.

Lemma same_content_refl r : same_content r r.
Proof. by destruct r. Qed.
Lemma same_content_trans a b c : same_content a b -> same_content b c -> same_content a c.
Proof. unfold same_content. intros -> ->. by destruct a. Qed.

#[export] Instance gate_step_refl : Reflexive gate_step.
Proof. intros g. split; try done. intros id r Hr. exists r. split; [done|apply same_content_refl]. Qed.
#[export] Instance gate_step_trans : Transitive gate_step.
Proof.
  intros a b c [Ok1 F1 C1 V1] [Ok2 F2 C2 V2]. split.
  - auto.
  - intros Ha id r Hr Hi. apply (F2 (Ok1 Ha)); [|done]. by apply F1.
  - intros id r Hr. destruct (C1 _ _ Hr) as (r1 & Hr1 & S1). destruct (C2 _ _ Hr1) as (r2 & Hr2 & S2). exists r2. split; [done|by eapply same_content_trans].
  - auto.
Qed.

(** Policies and their members are no part of it. *)
Lemma gate_step_policies g g' : gt_requests g' = gt_requests g -> gt_votes g' = gt_votes g -> gate_step g g'.
Proof.
  intros Hr Hv. split.
  - intros [Kv Kr]. split; [intros r p v; rewrite Hv; apply Kv|intros id r; rewrite Hr; apply Kr].
  - intros _ id r. by rewrite Hr.
  - intros id r Hid. exists r. rewrite Hr. split; [done|apply same_content_refl].
  - intros c v. by rewrite Hv.
Qed.

(** One request moves, out of an active state. *)
Lemma gate_step_request g g' id row st cause at_ : gt_requests g !! id = Some row -> isActiveRequest (rq_State row) = true ->
  (isActiveRequest st = false <-> is_Some at_) -> gt_requests g' = <[ id := withState st cause at_ row ]> (gt_requests g) -> gt_votes g' = gt_votes g -> gate_step g g'.
Proof.
  intros Hrow Hact Hst Hr Hv. split.
  - intros [Kv Kr]. split; [intros r p v; rewrite Hv; apply Kv|]. intros i r. rewrite Hr. destruct (decide (i = id)) as [->|Hne].
    + rewrite lookup_insert_eq. intros [= <-]. destruct (Kr _ _ Hrow) as [Hid _]. by split.
    + rewrite lookup_insert_ne by done. apply Kr.
  - intros _ i r Hi Hina. rewrite Hr, lookup_insert_ne; [done|]. intros <-. congruence.
  - intros i r Hi. rewrite Hr. destruct (decide (i = id)) as [->|Hne].
    + rewrite lookup_insert_eq. eexists. split; [reflexivity|]. rewrite Hrow in Hi. by injection Hi as <-.
    + rewrite lookup_insert_ne by done. exists r. split; [done|apply same_content_refl].
  - intros c v. by rewrite Hv.
Qed.

(** One new request. *)
Lemma gate_step_create g g' r : gt_requests g !! rq_ID r = None -> rq_State r = ApprovalStateOpen -> rq_ResolvedAt r = None ->
  gt_requests g' = <[ rq_ID r := r ]> (gt_requests g) -> gt_votes g' = gt_votes g -> gate_step g g'.
Proof.
  intros Hnone Hst Hat Hr Hv. split.
  - intros [Kv Kr]. split; [intros i p v; rewrite Hv; apply Kv|]. intros i r'. rewrite Hr. destruct (decide (i = rq_ID r)) as [->|Hne].
    + rewrite lookup_insert_eq. intros [= <-]. rewrite Hst, Hat. split; [done|]. split; [discriminate|by intros []].
    + rewrite lookup_insert_ne by done. apply Kr.
  - intros _ i r' Hi _. rewrite Hr, lookup_insert_ne; [done|]. intros <-. congruence.
  - intros i r' Hi. exists r'. rewrite Hr, lookup_insert_ne; [split; [done|apply same_content_refl]|]. intros <-. congruence.
  - intros c v. by rewrite Hv.
Qed.

(** One new vote. *)
Lemma gate_step_vote g g' v : gt_votes g !! (av_RequestID v, av_PrincipalID v) = None -> gt_requests g' = gt_requests g ->
  gt_votes g' = <[ (av_RequestID v, av_PrincipalID v) := v ]> (gt_votes g) -> gate_step g g'.
Proof.
  intros Hnone Hr Hv. split.
  - intros [Kv Kr]. split; [|intros id r; rewrite Hr; apply Kr]. intros r p v'. rewrite Hv. destruct (decide ((r, p) = (av_RequestID v, av_PrincipalID v))) as [Heq|Hne].
    + rewrite Heq, lookup_insert_eq. intros [= <-]. by injection Heq as -> ->.
    + rewrite lookup_insert_ne by done. apply Kv.
  - intros _ id r. by rewrite Hr.
  - intros id r Hid. exists r. rewrite Hr. split; [done|apply same_content_refl].
  - intros c v' Hc. rewrite Hv, lookup_insert_ne; [done|]. intros <-. congruence.
Qed.

(** ** What the operations leave alone *)
Record gate_only (s s' : Pub) : Prop := {
  go_cat : pb_cat s' = pb_cat s; go_values : pb_values s' = pb_values s; go_pending : pb_pending s' = pb_pending s; go_snapshots : pb_snapshots s' = pb_snapshots s;
  go_entries : pb_entries s' = pb_entries s; go_changes : pb_changes s' = pb_changes s; go_occurrences : pb_occurrences s' = pb_occurrences s;
  go_uuids : exists us, pb_uuids s = us ++ pb_uuids s' }.
#[export] Instance gate_only_refl : Reflexive gate_only.
Proof. intros s. split; try done. by exists []. Qed.
#[export] Instance gate_only_trans : Transitive gate_only.
Proof. intros a b c [? ? ? ? ? ? ? [us Hu]] [? ? ? ? ? ? ? [us' Hu']]. split; try congruence. exists (us ++ us'). by rewrite Hu, Hu', app_assoc. Qed.

Lemma gate_only_draws s s' : gate_only s s' -> exists us, draws us s s'.
Proof.
  intros [Hc Hv Hp Hs He _ Ho [us Hu]]. exists us. split; [done|]. intros i Hi. left. destruct Hi as [c r Hr Hi|c n Hn Hi|c n Hn Hi|c r Hr Hi|c e Hce Hi|Hi].
  - rewrite Hv in Hr. by eapply used_value.
  - rewrite Hp in Hn. by eapply used_draft.
  - rewrite Hp in Hn. by eapply used_baseline.
  - rewrite Hs in Hr. by eapply used_snapshot.
  - rewrite He in Hce. by eapply used_entry.
  - rewrite Ho in Hi. by apply used_occurrence.
Qed.

(** A run that stays within the approval tables and keeps their rules. *)
Definition gated (s s' : Pub) : Prop := gate_only s s' /\ gate_step (pb_gate s) (pb_gate s').
#[export] Instance gated_refl : Reflexive gated.
Proof. by split. Qed.
#[export] Instance gated_trans : Transitive gated.
Proof. intros a b c [? ?] [? ?]. split; by etransitivity. Qed.

Lemma gated_newID p s id s' : newID p s = (Ok id, s') -> gated s s' /\ pb_gate s' = pb_gate s.
Proof. intros (u & us & -> & Hu & ->)%pubID_Ok. split; [|done]. split; [|done]. split; try done. by exists [u]. Qed.
Lemma gated_audit l s : gated s (set_audit l s).
Proof. split; [|done]. split; try done. by exists []. Qed.
Lemma gated_gate g s : gate_step (pb_gate s) g -> gated s (set_gate g s).
Proof. intros Hg. split; [|done]. split; try done. by exists []. Qed.

(** ** The operations *)
Section Operations.
Context (X : PublishContext) (sha256hex : string -> string).

Definition active_at (s : Pub) (id : string) : Prop := forall row, gt_requests (pb_gate s) !! id = Some row -> isActiveRequest (rq_State row) = true.

Lemma UpdateRequestState_gated env id st cause at_ s b s' : active_at s id -> (isActiveRequest st = false <-> is_Some at_) ->
  UpdateRequestState env id st cause at_ s = (Ok b, s') -> gated s s'.
Proof.
  intros Hact Hst. unfold UpdateRequestState. destruct (gt_requests (pb_gate s) !! id) as [row|] eqn:Hrow; [|by intros [= _ <-]].
  destruct (_ =s _); intros [= _ <-]; [|done]. apply gated_gate. by eapply (gate_step_request _ _ id row); [| |exact Hst|..]; auto.
Qed.

Lemma commitInvalidation_gated env req cause s s' : active_at s (rq_ID req) -> commitInvalidation X env req cause s = (Ok (), s') -> gated s s'.
Proof.
  intros Hact. unfold commitInvalidation. intros (b & s1 & Hu & Hr)%st_bind_Ok. apply insertTenant_Ok in Hr as ->.
  etransitivity; [|apply gated_audit]. eapply UpdateRequestState_gated; [done| |exact Hu]. by split.
Qed.

(** The request a gate works on, as the transaction loaded it. *)
Definition loaded_at (s : Pub) (req : ApprovalRequest) : Prop := gt_requests (pb_gate s) !! rq_ID req = Some req.
Lemma loaded_active s req : loaded_at s req -> isActiveRequest (rq_State req) = true -> active_at s (rq_ID req).
Proof. intros Hl Ha row Hrow. unfold loaded_at in Hl. by rewrite Hl in Hrow; injection Hrow as <-. Qed.
Lemma GetRequest_Ok env id s req : gate_ok (pb_gate s) -> GetRequest env id s = Ok req -> loaded_at s req /\ rq_ID req = id /\ rq_EnvironmentID req = env.
Proof.
  intros Hok. unfold GetRequest, loaded_at. destruct (gt_requests (pb_gate s) !! id) as [row|] eqn:Hrow; [|discriminate].
  destruct (String.eqb_spec (rq_EnvironmentID row) env); [|discriminate]. intros [= <-]. destruct (gk_requests _ Hok _ _ Hrow) as [-> _]. done.
Qed.

Lemma invalidateAndRefuse_gated env req cause s ap s' : loaded_at s req -> isActiveRequest (rq_State req) = true ->
  invalidateAndRefuse X env req cause s = (Ok ap, s') -> gated s s' /\ ao_refusal ap <> None.
Proof.
  intros Hl Ha. unfold invalidateAndRefuse. intros ([] & s1 & Hc & [= <- <-])%st_bind_Ok. split; [|done]. eapply commitInvalidation_gated; [by apply loaded_active|exact Hc].
Qed.

(** *** The gates of a publish *)

(** The request a publish merges: live, the caller's own, under the policy as it
    stands, for exactly the change set as it stands. *)
Record reviewed (req : ApprovalRequest) (policy : ApprovalPolicy) (coveredEnv digest : string) : Prop := {
  rv_env : rq_EnvironmentID req = coveredEnv;
  rv_active : isActiveRequest (rq_State req) = true;
  rv_live : px_now X < rq_ExpiresAt req;
  rv_own : rq_RequesterPrincipalID req = px_principal X;
  rv_policy : rq_PolicyID req = po_ID policy /\ rq_PolicyVersion req = po_Version policy;
  rv_digest : rq_PreviewTokenDigest req = digest }.

Lemma approvalMergeGate_Ok policy loaded coveredEnv scopeEnv digest s ap s' : (forall req, loaded = Some req -> loaded_at s req) ->
  approvalMergeGate X policy loaded coveredEnv scopeEnv digest s = (Ok ap, s') -> gated s s' /\ (ao_refusal ap = None -> s' = s /\ ao_bypass ap = false /\ ao_created ap = None /\ ao_coveredEnv ap = coveredEnv /\
    exists req, loaded = Some req /\ ao_resolveID ap = rq_ID req /\ reviewed req policy coveredEnv digest /\
      exists n, countEligibleApprovals X scopeEnv (ListApprovers (rq_PolicyID req) s) req policy s = Ok n /\ po_MinApprovals policy <= n).
Proof.
  intros Hload. unfold approvalMergeGate. destruct loaded as [req|]; [|discriminate]. specialize (Hload req eq_refl).
  destruct (String.eqb_spec (rq_EnvironmentID req) coveredEnv) as [He|]; [|discriminate]. cbn [negb].
  destruct (isActiveRequest (rq_State req)) eqn:Ha; [|discriminate]. cbn [negb]. destruct (Z.leb_spec (rq_ExpiresAt req) (px_now X)) as [|Hexp]; [discriminate|].
  destruct (String.eqb_spec (px_principal X) (rq_RequesterPrincipalID req)) as [Hp|]; [|discriminate]. cbn [negb].
  destruct (String.eqb_spec (po_ID policy) (rq_PolicyID req)) as [Hpo|]; cbn [negb orb].
  2: { intros [Hg Hne]%invalidateAndRefuse_gated; [by split|done|done]. }
  destruct (Z.eqb_spec (po_Version policy) (rq_PolicyVersion req)) as [Hv|]; cbn [negb].
  2: { intros [Hg Hne]%invalidateAndRefuse_gated; [by split|done|done]. }
  intros (s0 & s1 & [= <- <-] & Hr)%st_bind_Ok. destruct (String.eqb_spec digest (rq_PreviewTokenDigest req)) as [Hd|]; cbn [negb] in Hr.
  2: { apply invalidateAndRefuse_gated in Hr as [Hg Hne]; [by split|done|done]. }
  apply st_bind_Ok in Hr as (n & s1 & [= Hn <-] & Hr). destruct (Z.ltb_spec n (po_MinApprovals policy)) as [|Hmin].
  - destruct (bool_decide _); [|discriminate]. apply invalidateAndRefuse_gated in Hr as [Hg Hne]; [by split|done|done].
  - injection Hr as <- <-. split; [done|]. intros _. do 4 (split; [done|]). exists req. do 2 (split; [done|]). split; [by split|]. by exists n.
Qed.

Lemma approvalBypassGate_Ok policy loaded reason coveredEnv keyIDs digest s ap s' : (forall req, loaded = Some req -> loaded_at s req) ->
  approvalBypassGate X policy loaded reason coveredEnv keyIDs digest s = (Ok ap, s') -> gated s s' /\ (ao_refusal ap = None -> s' = s /\ ao_bypass ap = true /\ ao_created ap = None /\ ao_coveredEnv ap = coveredEnv /\
    exists req, loaded = Some req /\ ao_resolveID ap = rq_ID req /\ reviewed req policy coveredEnv digest /\
      IsBypasser (po_ID policy) (px_principal X) s = true /\ px_machine X = false /\ px_ceremony X PurposeBypass coveredEnv keyIDs = Ok () /\ ao_reason ap <> "").
Proof.
  intros Hload. unfold approvalBypassGate. destruct loaded as [req|]; [|discriminate]. specialize (Hload req eq_refl). destruct (px_machine X) eqn:Hmach; [discriminate|].
  destruct (String.eqb_spec (rq_EnvironmentID req) coveredEnv) as [He|]; [|discriminate]. cbn [negb].
  destruct (isActiveRequest (rq_State req)) eqn:Ha; [|discriminate]. cbn [negb]. destruct (Z.leb_spec (rq_ExpiresAt req) (px_now X)) as [|Hexp]; [discriminate|].
  destruct (String.eqb_spec (px_principal X) (rq_RequesterPrincipalID req)) as [Hp|]; [|discriminate]. cbn [negb].
  destruct (String.eqb_spec (po_ID policy) (rq_PolicyID req)) as [Hpo|]; cbn [negb orb].
  2: { intros [Hg Hne]%invalidateAndRefuse_gated; [by split|done|done]. }
  destruct (Z.eqb_spec (po_Version policy) (rq_PolicyVersion req)) as [Hv|]; cbn [negb].
  2: { intros [Hg Hne]%invalidateAndRefuse_gated; [by split|done|done]. }
  intros (s0 & s1 & [= <- <-] & Hr)%st_bind_Ok. destruct (String.eqb_spec digest (rq_PreviewTokenDigest req)) as [Hd|]; cbn [negb] in Hr.
  2: { apply invalidateAndRefuse_gated in Hr as [Hg Hne]; [by split|done|done]. }
  destruct (IsBypasser _ _ _) eqn:Hb; [|discriminate]. cbn [negb] in Hr. destruct (String.eqb_spec (SanitizeFreeText reason) "") as [|Hreason]; [discriminate|]. destruct (_ <? _); [discriminate|].
  apply st_bind_Ok in Hr as ([] & s1 & [= Hcer <-] & [= <- <-]). split; [done|]. intros _. do 4 (split; [done|]). exists req. do 2 (split; [done|]). split; [by split|]. done.
Qed.

Lemma approvalCreateGate_Ok request policy coveredEnv keyIDs digest closed s ap s' :
  approvalCreateGate X request policy coveredEnv keyIDs digest closed s = (Ok ap, s') -> gated s s' /\ ao_refusal ap = None /\ ao_created ap <> None.
Proof.
  unfold approvalCreateGate. intros (purpose & s1 & [= _ <-] & Hr)%st_bind_Ok. apply st_bind_Ok in Hr as (s0 & s1 & [= <- <-] & Hr).
  apply st_bind_Ok in Hr as (base & s1 & [= _ <-] & Hr). apply st_bind_Ok in Hr as (id & s1 & Hid & Hr). apply gated_newID in Hid as [Hg1 _].
  apply st_bind_Ok in Hr as ([] & s2 & Hins & Hr). apply st_bind_Ok in Hr as ([] & s3 & ->%insertTenant_Ok & [= <- <-]). split; [|done].
  unfold InsertRequest in Hins. destruct (bool_decide _) eqn:Hnone in Hins; [discriminate|]. destruct (negb _) in Hins; [discriminate|]. injection Hins as <-.
  apply bool_decide_eq_false in Hnone. rewrite <- eq_None_not_Some in Hnone.
  etransitivity; [exact Hg1|]. etransitivity; [|apply gated_audit]. apply gated_gate. by eapply gate_step_create.
Qed.

(** What lets a change into a covered environment. *)
Inductive gate_passed (scopeEnv : string) (selection : gmap string (list pendingApply)) (s : Pub) (coveredEnv : string) (policy : ApprovalPolicy) (req : ApprovalRequest) : Prop :=
  | passed_by_votes n : countEligibleApprovals X scopeEnv (ListApprovers (rq_PolicyID req) s) req policy s = Ok n -> po_MinApprovals policy <= n ->
      gate_passed scopeEnv selection s coveredEnv policy req
  | passed_by_bypass : IsBypasser (po_ID policy) (px_principal X) s = true -> px_machine X = false ->
      px_ceremony X PurposeBypass coveredEnv (selectionKeyIDs (default [] (selection !! coveredEnv))) = Ok () -> gate_passed scopeEnv selection s coveredEnv policy req.

Definition gate_open (scopeEnv : string) (loaded : option ApprovalRequest) (selection : gmap string (list pendingApply)) (envs : list string) (s : Pub) (ap : approvalOutcome) : Prop :=
  match coveredBy envs s with
  | None => ap = ungated
  | Some (coveredEnv, policy) => (size selection <= 1)%nat /\ exists token req, publishPreviewToken X scopeEnv (px_principal X) selection s = Ok token /\
      loaded = Some req /\ ao_resolveID ap = rq_ID req /\ ao_coveredEnv ap = coveredEnv /\ reviewed req policy coveredEnv (approvalPreviewDigest sha256hex token) /\
      gate_passed scopeEnv selection s coveredEnv policy req
  end.

Lemma approvalGate_Ok scopeEnv request loaded selection closed envs s ap s' : (forall req, loaded = Some req -> loaded_at s req) ->
  approvalGate X sha256hex scopeEnv request loaded selection closed envs s = (Ok ap, s') ->
  gated s s' /\ (ao_refusal ap = None -> ao_created ap = None -> s' = s /\ gate_open scopeEnv loaded selection envs s ap).
Proof.
  intros Hload. unfold approvalGate, gate_open. intros (s0 & s1 & [= <- <-] & Hr)%st_bind_Ok. destruct (coveredBy envs s) as [[coveredEnv policy]|].
  - destruct (Nat.ltb_spec 1 (size selection)) as [|Hsize]; [discriminate|]. apply st_bind_Ok in Hr as (token & s1 & [= Htok <-] & Hr).
    destruct (rp_Bypass request) as [reason|].
    + apply approvalBypassGate_Ok in Hr as [Hg Hpass]; [|done]. split; [done|]. intros Href _. destruct (Hpass Href) as (-> & _ & _ & Hcov & req & Hreq & Hres & Hrev & Hby & Hm & Hc & _).
      split; [done|]. split; [done|]. exists token, req. split_and!; try done. by apply passed_by_bypass.
    + destruct (negb _).
      * apply approvalMergeGate_Ok in Hr as [Hg Hpass]; [|done]. split; [done|]. intros Href _. destruct (Hpass Href) as (-> & _ & _ & Hcov & req & Hreq & Hres & Hrev & n & Hn & Hmin).
        split; [done|]. split; [done|]. exists token, req. split_and!; try done. by eapply passed_by_votes.
      * apply approvalCreateGate_Ok in Hr as (Hg & _ & Hc). by split.
  - destruct loaded as [req|]; [|injection Hr as <- <-; by split]. destruct (isActiveRequest (rq_State req)) eqn:Ha; [|injection Hr as <- <-; by split].
    destruct (negb _); [discriminate|]. apply invalidateAndRefuse_gated in Hr as [Hg Hne]; [by split|by apply Hload|done].
Qed.

(** The request a publish resolves is active no more. *)
Lemma resolveApproval_resolves ap revision req s s' : gt_requests (pb_gate s) !! ao_resolveID ap = Some req -> rq_EnvironmentID req = ao_coveredEnv ap ->
  resolveApprovalAfterPublish X ap revision s = (Ok (), s') -> exists req', gt_requests (pb_gate s') !! ao_resolveID ap = Some req' /\ isActiveRequest (rq_State req') = false /\ same_content req req'.
Proof.
  intros Hreq Henv. unfold resolveApprovalAfterPublish, UpdateRequestState. destruct (ao_bypass ap); intros (b & s1 & Hu & ->%insertTenant_Ok)%st_bind_Ok;
    (rewrite Hreq in Hu; apply String.eqb_eq in Henv; rewrite Henv in Hu; injection Hu as _ <-; eexists; split; [cbn; apply lookup_insert_eq|by split]).
Qed.

Lemma resolveApproval_gated ap revision s s' : active_at s (ao_resolveID ap) -> resolveApprovalAfterPublish X ap revision s = (Ok (), s') -> gated s s'.
Proof.
  intros Hact. unfold resolveApprovalAfterPublish. destruct (ao_bypass ap); intros (b & s1 & Hu & ->%insertTenant_Ok)%st_bind_Ok;
    (etransitivity; [eapply UpdateRequestState_gated; [exact Hact| |exact Hu]; by split|apply gated_audit]).
Qed.

(** *** Policies *)
Lemma InsertApprover_gated a s s' : InsertApprover a s = (Ok (), s') -> gated s s'.
Proof. unfold InsertApprover. destruct (_ || _); [discriminate|]. intros [= <-]. by apply gated_gate, gate_step_policies. Qed.
Lemma InsertBypasser_gated b s s' : InsertBypasser b s = (Ok (), s') -> gated s s'.
Proof. unfold InsertBypasser. destruct (_ || _); [discriminate|]. intros [= <-]. by apply gated_gate, gate_step_policies. Qed.

Lemma writePolicyMembers_gated id input s s' : writePolicyMembers id input s = (Ok (), s') -> gated s s'.
Proof.
  unfold writePolicyMembers. intros ([] & s1 & Ha & Hb)%st_bind_Ok. transitivity s1.
  - clear Hb. revert s s1 Ha. induction (pi_Approvers input) as [|a l IH]; intros s s1; cbn [writeApprovers]; [by intros [= <-]|].
    intros (i & s2 & [Hg _]%gated_newID & Hr)%st_bind_Ok. apply st_bind_Ok in Hr as ([] & s3 & Hi%InsertApprover_gated & Hr%IH). do 2 (etransitivity; [eassumption|]). done.
  - clear Ha. revert s1 s' Hb. induction (pi_Bypassers input) as [|b l IH]; intros s1 s'; cbn [writeBypassers]; [by intros [= <-]|].
    intros (i & s2 & [Hg _]%gated_newID & Hr)%st_bind_Ok. apply st_bind_Ok in Hr as ([] & s3 & Hi%InsertBypasser_gated & Hr%IH). do 2 (etransitivity; [eassumption|]). done.
Qed.

Lemma gated_write {A} (m : ST Pub A) s r s' : (forall a s1, m s = (Ok a, s1) -> gated s s1) -> write m s = (r, s') -> gated s s'.
Proof. intros Hm [->|(a & -> & Ha)]%write_inv; [done|by eapply Hm]. Qed.

Lemma CreatePolicy_gated input s r s' : CreatePolicy X input s = (r, s') -> gated s s'.
Proof.
  unfold CreatePolicy. intros [->|([] & _ & Hw)]%checked_inv; [done|]. revert Hw. apply gated_write. intros id s1 ([] & s2 & [= _ <-] & Hr)%st_bind_Ok. apply st_bind_Ok in Hr as ([] & s2 & [= _ <-] & Hr).
  apply st_bind_Ok in Hr as (i & s2 & [Hg _]%gated_newID & Hr). apply st_bind_Ok in Hr as ([] & s3 & Hi & Hr). apply st_bind_Ok in Hr as ([] & s4 & Hw%writePolicyMembers_gated & Hr).
  apply st_bind_Ok in Hr as ([] & s5 & ->%insertTenant_Ok & [= _ <-]). etransitivity; [exact Hg|].
  unfold InsertPolicy in Hi. destruct (_ || _) in Hi; [discriminate|]. injection Hi as <-. etransitivity; [|etransitivity; [exact Hw|apply gated_audit]]. by apply gated_gate, gate_step_policies.
Qed.

Lemma UpdatePolicy_gated id input s r s' : UpdatePolicy X id input s = (r, s') -> gated s s'.
Proof.
  unfold UpdatePolicy. intros [->|([] & _ & Hw)]%checked_inv; [done|]. revert Hw. apply gated_write. intros [] s1 ([] & s2 & [= _ <-] & Hr)%st_bind_Ok. apply st_bind_Ok in Hr as (s0 & s2 & [= <- <-] & Hr). apply st_bind_Ok in Hr as (cur & s2 & [= _ <-] & Hr).
  destruct (negb _); [discriminate|]. apply st_bind_Ok in Hr as (up & s2 & Hu & Hr). destruct (negb up); [discriminate|].
  apply st_bind_Ok in Hr as ([] & s3 & [= <-] & Hr). apply st_bind_Ok in Hr as ([] & s4 & Hw%writePolicyMembers_gated & ->%insertTenant_Ok).
  transitivity s2; [|etransitivity; [|etransitivity; [exact Hw|apply gated_audit]]; by apply gated_gate, gate_step_policies].
  unfold Repo_UpdatePolicy in Hu. destruct (gt_policies (pb_gate s) !! id); [|by injection Hu as _ <-]. destruct (_ || _) in Hu; [discriminate|]. injection Hu as _ <-. by apply gated_gate, gate_step_policies.
Qed.

Lemma DeletePolicy_gated id s r s' : DeletePolicy X id s = (r, s') -> gated s s'.
Proof.
  unfold DeletePolicy. apply gated_write. intros [] s1 ([] & s2 & [= _ <-] & Hr)%st_bind_Ok. apply st_bind_Ok in Hr as (s0 & s2 & [= <- <-] & Hr). apply st_bind_Ok in Hr as (pol & s2 & [= _ <-] & Hr).
  apply st_bind_Ok in Hr as (d & s2 & [= <- <-] & Hr). destruct (negb _); [discriminate|]. apply insertTenant_Ok in Hr as ->.
  etransitivity; [|apply gated_audit]. by apply gated_gate, gate_step_policies.
Qed.

(** *** Votes *)
Lemma castVote_gated env req policy approvers decision self s o s' : loaded_at s req -> isActiveRequest (rq_State req) = true ->
  castVote X env req policy approvers decision self s = (Ok o, s') -> gated s s'.
Proof.
  intros Hl Ha. unfold castVote. intros ([] & s1 & [= _ <-] & Hr)%st_bind_Ok. apply st_bind_Ok in Hr as (id & s1 & [Hg Hgate]%gated_newID & Hr).
  apply st_bind_Ok in Hr as ([] & s2 & Hins & Hr). apply st_bind_Ok in Hr as ([] & s3 & ->%insertTenant_Ok & Hr).
  apply st_bind_Ok in Hr as ([] & s4 & Hd & Hr). apply st_bind_Ok in Hr as (s0 & s5 & [= <- <-] & Hr). apply st_bind_Ok in Hr as (fresh & s5 & [= _ <-] & [= _ <-]).
  unfold InsertVote in Hins. cbn [av_RequestID av_PrincipalID av_ID] in Hins. destruct (bool_decide (is_Some (gt_votes _ !! _))) eqn:Hnone in Hins; [discriminate|].
  destruct (_ || _) in Hins; [discriminate|]. injection Hins as <-. apply bool_decide_eq_false in Hnone. rewrite <- eq_None_not_Some in Hnone.
  set (s2 := set_votes _ s1) in *. assert (gated s1 s2) as Hv by (apply gated_gate; by apply (gate_step_vote _ _ (MkVote id (rq_ID req) (px_principal X) decision (px_now X)))).
  etransitivity; [exact Hg|]. etransitivity; [exact Hv|]. etransitivity; [apply gated_audit|].
  assert (active_at (set_audit (pb_audit s2 ++ [voteEvent req decision self]) s2) (rq_ID req)) as Hact.
  { intros row. cbn. rewrite Hgate. by apply loaded_active. }
  destruct decision.
  - apply st_bind_Ok in Hd as (s5 & s6 & [= <- <-] & Hd). apply st_bind_Ok in Hd as (n & s6 & [= _ <-] & Hd). destruct (_ && _); [|by injection Hd as <-].
    apply st_bind_Ok in Hd as (b & s6 & Hu & [= <-]). eapply UpdateRequestState_gated; [exact Hact| |exact Hu]. split; [discriminate|by intros []].
  - apply st_bind_Ok in Hd as (b & s6 & Hu & [= <-]). eapply UpdateRequestState_gated; [exact Hact| |exact Hu]. by split.
Qed.

Lemma invalidateVote_gated env req cause s o s' : loaded_at s req -> isActiveRequest (rq_State req) = true -> invalidateVote X env req cause s = (Ok o, s') -> gated s s'.
Proof. intros Hl Ha. unfold invalidateVote. intros ([] & s1 & Hc & [= _ <-])%st_bind_Ok. eapply commitInvalidation_gated; [by apply loaded_active|exact Hc]. Qed.

Lemma voteBody_gated env id decision s o s' : gate_ok (pb_gate s) -> voteBody X sha256hex env id decision s = (Ok o, s') -> gated s s'.
Proof.
  intros Hok. unfold voteBody. intros ([] & s1 & [= _ <-] & Hr)%st_bind_Ok. apply st_bind_Ok in Hr as (s0 & s1 & [= <- <-] & Hr).
  apply st_bind_Ok in Hr as (req & s1 & [= Hreq <-] & Hr). apply GetRequest_Ok in Hreq as (Hl & _ & _); [|done].
  destruct (isActiveRequest (rq_State req)) eqn:Ha; cbn [negb] in Hr.
  2: { destruct (gt_votes _ !! _) as [v|]; [|discriminate]. destruct (bool_decide _); [by injection Hr as _ <-|discriminate]. }
  destruct (_ <=? _); [discriminate|]. destruct (GetPolicy _ _) as [policy|e|p]; [|destruct (errors_Is _ _); [by eapply invalidateVote_gated|discriminate]|discriminate].
  destruct (_ || _); [by eapply invalidateVote_gated|]. apply st_bind_Ok in Hr as (el & s1 & [= _ <-] & Hr). destruct (negb el); [discriminate|].
  destruct (_ && _); [discriminate|]. destruct (requestPreviewDigest _ _ _ _ _) as [digest|e|p]; [|destruct (isStalePending e); [by eapply invalidateVote_gated|discriminate]|discriminate].
  destruct (negb _); [by eapply invalidateVote_gated|]. destruct (gt_votes _ !! _) as [v|]; [destruct (bool_decide _); [by injection Hr as _ <-|discriminate]|]. by eapply castVote_gated.
Qed.

Lemma Vote_gated env id raw s r s' : gate_ok (pb_gate s) -> Vote X sha256hex env id raw s = (r, s') -> gated s s'.
Proof.
  intros Hok. unfold Vote. destruct (_ =s _); [apply gated_write; intros; by eapply voteBody_gated|]. destruct (_ =s _); [apply gated_write; intros; by eapply voteBody_gated|].
  by intros [= _ <-].
Qed.

(** *** Expiry *)
Lemma expireEach_gated due : forall n s m s', gate_ok (pb_gate s) -> expireEach X due n s = (Ok m, s') -> gated s s'.
Proof.
  induction due as [|row rest IH]; intros n s m s' Hok; cbn [expireEach]; [by intros [= _ <-]|]. intros (marked & s1 & Hm & Hr)%st_bind_Ok.
  assert (gated s s1) as Hg.
  { unfold MarkExpired in Hm. destruct (gt_requests (pb_gate s) !! rq_ID row) as [r|] eqn:Hrow; [|by injection Hm as _ <-]. destruct (rq_ResolvedAt r) eqn:Hat; [by injection Hm as _ <-|].
    injection Hm as _ <-. apply gated_gate. apply (gate_step_request _ _ (rq_ID row) r ApprovalStateExpired (rq_InvalidatedCause r) (Some (px_now X))); [exact Hrow| |by split|reflexivity|reflexivity].
    destruct (isActiveRequest (rq_State r)) eqn:Ha; [done|]. apply (gk_requests _ Hok _ _ Hrow) in Ha. rewrite Hat in Ha. by destruct Ha. }
  pose proof (gs_ok _ _ (proj2 Hg) Hok) as Hok1. destruct marked; cbn [negb] in Hr; [|etransitivity; [exact Hg|by eapply IH]].
  apply st_bind_Ok in Hr as ([] & s2 & ->%insertTenant_Ok & Hr). etransitivity; [exact Hg|]. etransitivity; [apply gated_audit|]. eapply IH; [|exact Hr]. done.
Qed.
Lemma ExpireDue_gated s r s' : gate_ok (pb_gate s) -> ExpireDue X s = (r, s') -> gated s s'.
Proof. intros Hok. apply gated_write. intros n s1 (s0 & s2 & [= <- <-] & Hr)%st_bind_Ok. by eapply expireEach_gated. Qed.
End Operations.
