(* ===== verification/PublishCommit.v ===== *)
(** * A publish, end to end

    [PublishPlanned] decomposed: a publish that commits resolved its selection,
    passed the approval gate and published every environment of the selection; a
    publish that answers otherwise stayed within the approval tables. *)

From S2P Require Import Prelude Domain EventNames OperationNames Utf8 GoStrings FreeText Schema AuditEvent Parameters Envelope KeyTables Definitions DefinitionsSpec DefinitionsStore DefinitionsApply PublishStore GroupIndex Materialize Selection Approvals Publish Voting PublishReads PublishSteps PublishInvariant PublishMaterialize PublishSelect PublishEffect PublishStage PublishGate.

#[local] Open Scope Z_scope.

(** The versions a publish names: its own list, or the reviewed one. *)
Definition namedVersions (request : PublishRequest) (s : Pub) : list string :=
  if rp_ApprovalRequestID request =s "" then rp_VersionIDs request
  else match gt_requests (pb_gate s) !! rp_ApprovalRequestID request with Some req => rq_VersionIDs req | None => [] end.

Section Commit.
Context `{FieldSealer} (X : PublishContext) (sha256hex : string -> string).

Definition loadedRequest (request : PublishRequest) (env : string) (s : Pub) (loaded : option ApprovalRequest) : Prop :=
  match loaded with
  | None => rp_ApprovalRequestID request = ""
  | Some req => rp_ApprovalRequestID request <> "" /\ loaded_at s req /\ rq_ID req = rp_ApprovalRequestID request /\ rq_EnvironmentID req = env
  end.

Record publish_run (env : string) (request : PublishRequest) (s : Pub) (r : PublishResult) (s' : Pub) (loaded : option ApprovalRequest) (selected byID : gmap string PendingChange)
    (groups : groupIndex) (selection : gmap string (list pendingApply)) (closed : list string) (ap : approvalOutcome) (s2 : Pub) : Prop := {
  pr_loaded : loadedRequest request env s loaded;
  pr_resolved : resolveVersions (px_principal X) (namedVersions request s) s = Ok (selected, byID);
  pr_authorized : authorizeEnvironments X env (selectedEnvironments selected) = Ok ();
  pr_index : loadGroupIndex s = Ok groups;
  pr_selection : selectVersions (px_principal X) selected byID groups s = Ok (selection, closed);
  pr_gate : gate_open X sha256hex env loaded selection (selectedEnvironments selected) s ap;
  pr_published : publishEnvironments X groups selection (sortedKeys selection) s = (Ok (pr_Environments r), s2);
  pr_closed : pr_ClosedIn r = closed;
  pr_after : (ao_resolveID ap = "" /\ s' = s2) \/ (active_at s (ao_resolveID ap) /\ exists rev, resolveApprovalAfterPublish X ap rev s2 = (Ok (), s')) }.

Lemma orInvalidate_cases {A} loaded env (res : result A) k s o s' : (forall req, loaded = Some req -> loaded_at s req) ->
  orInvalidate X loaded env res k s = (Ok o, s') -> (exists a, res = Ok a /\ k a s = (Ok o, s')) \/ (gated s s' /\ exists e, o = RefusedAfterCommit e).
Proof.
  intros Hload. unfold orInvalidate. destruct res as [a|e|p]; [left; eauto| |discriminate]. destruct loaded as [req|]; [|discriminate].
  destruct (isActiveRequest (rq_State req)) eqn:Ha; [|discriminate]. destruct (isStalePending e); [|discriminate]. cbn [andb].
  intros ([] & s1 & Hc & [= <- <-])%st_bind_Ok. right. split; [|eauto]. eapply commitInvalidation_gated; [|exact Hc]. apply loaded_active; [by apply Hload|done].
Qed.

Lemma gate_open_active env loaded selection envs s ap : (forall req, loaded = Some req -> loaded_at s req) -> gate_open X sha256hex env loaded selection envs s ap -> ao_resolveID ap = "" \/ active_at s (ao_resolveID ap).
Proof.
  intros Hload. unfold gate_open. destruct (coveredBy envs s) as [[cenv policy]|]; [|intros ->; by left]. intros (_ & token & req & _ & Hreq & -> & _ & [_ Ha _ _ _ _] & _).
  right. apply loaded_active; [by apply Hload|done].
Qed.

Lemma publishBody_cases env request s o s' : gate_ok (pb_gate s) -> publishBody X sha256hex env request s = (Ok o, s') ->
  match o with
  | Committed r => exists loaded selected byID groups selection closed ap s2, publish_run env request s r s' loaded selected byID groups selection closed ap s2
  | _ => gated s s'
  end.
Proof.
  intros Hok. unfold publishBody. intros ([] & s1 & [= _ <-] & Hr)%st_bind_Ok. apply st_bind_Ok in Hr as ([] & s1 & [= _ <-] & Hr). apply st_bind_Ok in Hr as (s0 & s1 & [= <- <-] & Hr).
  apply st_bind_Ok in Hr as (loaded & s1 & Hl & Hr).
  assert (s1 = s /\ loadedRequest request env s loaded /\ match loaded with Some req => rq_VersionIDs req | None => rp_VersionIDs request end = namedVersions request s) as (-> & Hload & Hnamed).
  { unfold loadedRequest, namedVersions. destruct (String.eqb_spec (rp_ApprovalRequestID request) "") as [Hid|Hid]; [by injection Hl as <- <-|].
    apply st_bind_Ok in Hl as (req & s2 & [= Hreq <-] & [= <- <-]). apply GetRequest_Ok in Hreq as (Hat & Hrid & Henv); [|done]. split; [done|]. split; [done|].
    unfold loaded_at in Hat. rewrite Hrid in Hat. by rewrite Hat. }
  assert (forall req, loaded = Some req -> loaded_at s req) as Hat by (intros req ->; apply Hload). rewrite Hnamed in Hr.
  apply orInvalidate_cases in Hr as [([selected byID] & Hres & Hr)|[Hg [e ->]]]; [|done|done].
  apply st_bind_Ok in Hr as ([] & s1 & [= Hauth <-] & Hr). apply st_bind_Ok in Hr as (groups & s1 & [= Hidx <-] & Hr).
  apply orInvalidate_cases in Hr as [([selection closed] & Hsel & Hr)|[Hg [e ->]]]; [|done|done].
  destruct (negb _); [discriminate|]. apply st_bind_Ok in Hr as ([] & s1 & [= _ <-] & Hr). apply st_bind_Ok in Hr as (ap & s1 & Hgate & Hr).
  apply approvalGate_Ok in Hgate as [Hg Hopen]; [|done]. destruct (ao_refusal ap) eqn:Href; [by injection Hr as <- <-|]. destruct (ao_created ap) eqn:Hcr; [by injection Hr as <- <-|].
  destruct (Hopen eq_refl eq_refl) as [-> Hgo]. unfold commitSelection in Hr. apply st_bind_Ok in Hr as (prot & s1 & [= _ <-] & Hr). apply st_bind_Ok in Hr as ([] & s1 & [= _ <-] & Hr).
  apply st_bind_Ok in Hr as ([] & s1 & [= _ <-] & Hr). apply st_bind_Ok in Hr as (out & s2 & Hpub & Hr). apply st_bind_Ok in Hr as ([] & s3 & Hres' & [= <- <-]).
  exists loaded, selected, byID, groups, selection, closed, ap, s2. split; try done.
  destruct (String.eqb_spec (ao_resolveID ap) "") as [|Hne]; [injection Hres' as <-; by left|]. right. destruct (gate_open_active _ _ _ _ _ _ Hat Hgo) as [?|Hact]; [done|]. eauto.
Qed.

Lemma PublishPlanned_cases env request s r s' : gate_ok (pb_gate s) -> PublishPlanned X sha256hex env request s = (r, s') -> gated s s' \/
  exists res loaded selected byID groups selection closed ap s2, r = Ok (Committed res) /\ publish_run env request s res s' loaded selected byID groups selection closed ap s2.
Proof.
  intros Hok. unfold PublishPlanned. destruct (_ =s _); [intros [= _ <-]; by left|]. destruct (_ && _); [intros [= _ <-]; by left|].
  destruct (firstDuplicate _ _); [intros [= _ <-]; by left|]. intros [->|([] & _ & Hr)]%checked_inv; [by left|]. apply checked_inv in Hr as [->|([] & _ & Hr)]; [by left|].
  apply write_inv in Hr as [->|(o & -> & Hr)]; [by left|]. apply publishBody_cases in Hr; [|done]. destruct o as [res|req|e]; [right|by left..].
  destruct Hr as (loaded & selected & byID & groups & selection & closed & ap & s2 & Hrun). by exists res, loaded, selected, byID, groups, selection, closed, ap, s2.
Qed.

(** ** What a committed publish did *)

(** The plaintext a draft stands for: [None] when it clears its cell. *)
Definition draftPlain (e k : string) (n : NewPendingChange) : option bytes :=
  match np_Operation n with PendingSet => plain (openPending X e k n) | PendingUnset => None end.

Record publishes (named : list string) (groups : groupIndex) (s s' : Pub) : Prop := {
  pu_applied : forall e k n, chosen s (px_principal X) named e k n -> In k (map fst (cat_keys (pb_cat s))) /\ cellValue X s' e k = draftPlain e k n;
  pu_kept : forall e k, (forall n, ~ chosen s (px_principal X) named e k n) -> pb_values s' !! (e, k) = pb_values s !! (e, k);
  pu_consumed : forall e k n, chosen s (px_principal X) named e k n -> pb_pending s' !! (e, k, px_principal X) = None;
  pu_waiting : forall e k o, (o = px_principal X -> forall n, ~ chosen s (px_principal X) named e k n) -> pb_pending s' !! (e, k, o) = pb_pending s !! (e, k, o);
  pu_advanced : forall e, (exists k n, chosen s (px_principal X) named e k n) -> latestRevision e s' = latestRevision e s + 1 /\
    (forall k, delivered X s' e (latestRevision e s') k = cellValue X s' e k) /\ admitted X s' e groups;
  pu_still : forall e, (forall k n, ~ chosen s (px_principal X) named e k n) -> forall r, pb_snapshots s' !! (e, r) = pb_snapshots s !! (e, r);
  pu_history : history s s';
  pu_fresh : forall e k n, chosen s (px_principal X) named e k n -> default "" (vr_ID <$> pb_values s !! (e, k)) = np_StagedFromEntry n }.

Lemma sortedKeys_In {A} (m : gmap string A) e : In e (sortedKeys m) <-> is_Some (m !! e).
Proof.
  unfold sortedKeys, Definitions.sortStrings. split.
  - intros Hin. apply (Permutation_in _ (isort_perm _ _)), in_map_iff in Hin as ([k a] & <- & Hin). exists a. by apply list_elem_of_In, elem_of_map_to_list in Hin.
  - intros [a Ha]. apply (Permutation_in _ (Permutation_sym (isort_perm _ _))), in_map_iff. exists (e, a). split; [done|]. by apply list_elem_of_In, elem_of_map_to_list.
Qed.
Lemma sortedKeys_NoDup {A} (m : gmap string A) : NoDup (sortedKeys m).
Proof. unfold sortedKeys, Definitions.sortStrings. rewrite (isort_perm String.leb). apply (NoDup_fst_map_to_list m). Qed.

Lemma openDraft_apply e k n : openDraft X e (applyOf (pendingChange (e, k, px_principal X, n))) = openPending X e k n.
Proof. done. Qed.

Lemma gated_same_env e s s' : gated s s' -> same_env e s s'.
Proof. intros [[_ Hv Hp Hs He _ _ _] _]. split; intros; by rewrite ?Hv, ?Hp, ?Hs, ?He. Qed.
Lemma gated_ok s s' : pub_ok X s -> gated s s' -> pub_ok X s'.
Proof.
  intros Hok [Hgo _]. destruct (gate_only_draws _ _ Hgo) as [us Hd]. destruct Hgo as [Hc Hv Hp Hs He _ _ _]. apply (pub_ok_less X us s); try done. intros c n. by rewrite Hp.
Qed.
Lemma gated_history s s' : gated s s' -> history s s'.
Proof. intros [[_ _ _ Hs He _ _ _] _] e r sn Hsn. rewrite Hs, He. done. Qed.

Context (Hself : px_selfConfig X = false).

Lemma publish_run_all env request s r s' loaded selected byID groups selection closed ap s2 : pub_ok X s ->
  publish_run env request s r s' loaded selected byID groups selection closed ap s2 ->
  all_published X groups selection (sortedKeys selection) s s2 /\ gated s2 s'.
Proof.
  intros Hok [Hload Hres _ Hidx Hsel Hgate Hpub _ Haft].
  pose proof (selection_In (pk_draftIDs _ _ Hok) Hidx Hres Hsel) as Hin.
  apply (publishEnvironments_Ok X Hself) in Hpub as (Hall & _); [|done|done|apply sortedKeys_NoDup| |].
  - split; [done|]. destruct Haft as [[_ ->]|(Hact & rev & Hra)]; [done|]. eapply resolveApproval_gated; [|exact Hra]. intros row. rewrite (ap_gate _ _ _ _ _ _ Hall). apply Hact.
  - intros e. exact (selection_NoDup (pk_draftIDs _ _ Hok) Hidx Hres Hsel e).
  - intros e a _ Ha Hset. apply Hin in Ha as (k & n & [Hp _] & ->). exists k, (px_principal X), n. split; [done|]. split; [|done]. cbn in Hset. by apply bool_decide_eq_true in Hset.
Qed.

Lemma publish_run_effect env request s r s' loaded selected byID groups selection closed ap s2 : pub_ok X s ->
  publish_run env request s r s' loaded selected byID groups selection closed ap s2 -> publishes (namedVersions request s) groups s s'.
Proof.
  intros Hok Hrun. pose proof (publish_run_all _ _ _ _ _ _ _ _ _ _ _ _ _ Hok Hrun) as [[Ok2 C2 G2 H2 _ E2 O2] Hg]. destruct Hrun as [Hload Hres _ Hidx Hsel Hgate Hpub _ Haft].
  pose proof (selection_In (pk_draftIDs _ _ Hok) Hidx Hres Hsel) as Hin.
  pose proof (selection_env (pk_draftIDs _ _ Hok) Hidx Hres Hsel) as Henv.
  pose proof (chosen_declared (pk_draftIDs _ _ Hok) Hidx Hres Hsel) as Hdecl.
  assert (pb_cat s' = pb_cat s2) as Hcat by apply Hg.
  assert (forall e, (exists k n, chosen s (px_principal X) (namedVersions request s) e k n) -> env_published X groups e (default [] (selection !! e)) s s') as Hep.
  { intros e Hch. apply (env_published_after X groups e _ s s2); [by apply gated_same_env|done|]. by apply E2, sortedKeys_In, Henv. }
  assert (forall e, (forall k n, ~ chosen s (px_principal X) (namedVersions request s) e k n) -> same_env e s s') as Hse.
  { intros e Hno. eapply same_env_trans; [apply O2|by apply gated_same_env]. rewrite sortedKeys_In, Henv. intros (k & n & Hch). by apply (Hno k n). }
  assert (forall e k n, chosen s (px_principal X) (namedVersions request s) e k n -> In (applyOf (pendingChange (e, k, px_principal X, n))) (default [] (selection !! e))) as Hap by (intros; apply Hin; eauto).
  split.
  - intros e k n Hch. split; [by eapply Hdecl|]. etransitivity; [exact (ep_applied _ _ _ _ _ _ (Hep e ltac:(eauto)) _ (Hap _ _ _ Hch) ltac:(by eapply Hdecl))|]. unfold draftValue, draftPlain. cbn. by destruct (np_Operation n).
  - intros e k Hno. destruct (selection !! e) as [l|] eqn:Hl.
    + apply (ep_kept _ _ _ _ _ _ (Hep e ltac:(apply Henv; by eexists))). rewrite Hl. intros (a & <- & Ha)%in_map_iff. assert (In a (default [] (selection !! e))) as (k & n & Hch & ->)%Hin by (by rewrite Hl). by apply (Hno n).
    + apply (se_values _ _ _ (Hse e ltac:(intros k' n' Hch; assert (is_Some (selection !! e)) as [? ?] by (apply Henv; eauto); congruence))).
  - intros e k n Hch. rewrite (ep_pending _ _ _ _ _ _ (Hep e ltac:(eauto))). pose proof Hch as [Hp _]. rewrite Hp. cbn [mbind option_bind].
    assert (contains (map pa_versionID (default [] (selection !! e))) (np_ID n) = true) as ->; [|done]. apply contains_In, in_map_iff. eexists. split; [|by apply Hap]. done.
  - intros e k o Hno. destruct (selection !! e) as [l|] eqn:Hl.
    + rewrite (ep_pending _ _ _ _ _ _ (Hep e ltac:(apply Henv; by eexists))). destruct (pb_pending s !! (e, k, o)) as [n|] eqn:Hp; [|done]. cbn [mbind option_bind].
      destruct (contains _ _) eqn:Hc; [|done]. exfalso. apply contains_In, in_map_iff in Hc as (a & Hid & (k' & n' & Hch & ->)%Hin). cbn in Hid. pose proof Hch as [Hp' _].
      pose proof (pk_draftIDs _ _ Hok _ _ _ _ Hp' Hp Hid) as Heq. injection Heq as -> <-. by apply (Hno eq_refl n').
    + apply (se_pending _ _ _ (Hse e ltac:(intros k' n' Hch; assert (is_Some (selection !! e)) as [? ?] by (apply Henv; eauto); congruence))).
  - intros e Hch. destruct (Hep e Hch) as [Rv _ _ _ _ De _ Ad]. done.
  - intros e Hno r'. apply (se_snapshots _ _ _ (Hse e Hno)).
  - eapply history_trans; [exact H2|by apply gated_history].
  - intros e k n Hch. exact (ep_fresh _ _ _ _ _ _ (Hep e ltac:(eauto)) _ (Hap _ _ _ Hch)).
Qed.
End Commit.

(** * The life of a project's values

    The operations of this component as one step relation: drafts saved, published
    and restored, schema fan-outs, approval policies, votes and expiry, each with
    its own caller, clock and authority, committed or refused. [pub_ok] and
    [gate_ok] are invariants of it. *)

Section Fanout.
Context `{FieldSealer} (X : PublishContext) (Hself : px_selfConfig X = false).

(** The phase index, once loaded, is the catalogue's. *)
Definition phase_ok (phase : option groupIndex) (s : Pub) : Prop := match phase with Some g => loadGroupIndex s = Ok g | None => True end.

Lemma republish_Ok env trigger phase storage s pe phase' storage' s' : pub_ok X s -> phase_ok phase s ->
  republishWithStorage X env trigger phase storage s = (Ok (pe, phase', storage'), s') ->
  pub_ok X s' /\ phase_ok phase' s' /\ pb_cat s' = pb_cat s /\ pb_pending s' = pb_pending s /\ pb_gate s' = pb_gate s /\ history s s' /\ drawn s s' /\
  (forall c, pb_values s' !! c = pb_values s !! c) /\ latestRevision env s' = latestRevision env s + 1 /\ (forall k, delivered X s' env (latestRevision env s') k = cellValue X s env k).
Proof.
  intros Hok Hphase. unfold republishWithStorage. intros ([] & s1 & [= _ <-] & Hr)%st_bind_Ok. apply st_bind_Ok in Hr as (s0 & s1 & [= <- <-] & Hr).
  destruct (_ && _); [discriminate|]. apply st_bind_Ok in Hr as (groups & s1 & [= Hg <-] & Hr). apply st_bind_Ok in Hr as ([pub st] & s1 & Hmat & Hr).
  apply st_bind_Ok in Hr as ([] & s2 & [l ->]%recordPublish_Ok & [= <- <- <- <-]).
  assert (loadGroupIndex s = Ok groups) as Hidx by (unfold phaseSnapshot in Hg; destruct phase as [g|]; [by injection Hg as <-|done]).
  assert (forall a, In a [] -> pa_set a = true -> normal (pa_value a)) as Hnorm by (by intros a []).
  destruct (materialize_tables X Hself _ _ _ _ _ _ _ _ _ Hok Hidx Hnorm Hmat) as (cells & cells' & us & sn & HT).
  assert (forall c, pb_values s1 !! c = pb_values s !! c) as Hvals.
  { intros [e k]. destruct (decide (e = env)) as [->|Hne]; [|apply (ta_values HT); tauto].
    destruct (in_dec String.string_dec k (map fst (cat_keys (pb_cat s)))) as [Hin|Hin]; [|apply (ta_values HT); destruct (after_keys Hidx) as [-> _]; tauto].
    destruct (after_cell X Hidx HT k Hin) as (cell & Hc & <-). destruct (Forall2_In_r _ _ _ _ (ta_moved HT) Hc) as (c0 & _ & (Hk0 & _ & _ & Hmv)).
    rewrite <- Hk0 in Hmv. by destruct Hmv. }
  split; [by apply pub_ok_audit, (after_ok X Hself Hok Hidx Hnorm HT)|]. split; [unfold phase_ok, loadGroupIndex; cbn; by rewrite (ta_cat HT)|].
  split; [apply (ta_cat HT)|]. split; [apply (ta_pending HT)|]. split; [apply (ta_gate HT)|]. split; [|split; [|split; [done|split]]].
  - intros e r sn' Hsn'. split; [by apply (after_old_snapshot X HT)|]. intros k. apply (ta_entries HT). cbn. intros [Heq _]. by apply (after_fresh X HT _ _ Hsn').
  - transitivity s1; [exact (after_drawn X Hok Hidx HT)|]. by apply (drawn_same []); [apply draws_quiet|done|apply drafts_drawn_less].
  - transitivity (latestRevision env s1); [by apply latestRevision_ext|]. rewrite (after_latest X HT), decide_True by done. apply (ta_revision HT).
  - intros k. assert (latestRevision env (set_audit l s1) = pe_Revision pub) as ->.
    { transitivity (latestRevision env s1); [by apply latestRevision_ext|]. rewrite (after_latest X HT). by rewrite decide_True. }
    change (delivered X (set_audit l s1) env (pe_Revision pub) k) with (delivered X s1 env (pe_Revision pub) k). rewrite (after_delivers X Hself Hok Hidx Hnorm HT). unfold cellValue. by rewrite Hvals.
Qed.

Lemma fanOut_Ok envs trigger : forall phase storage s out s', pub_ok X s -> phase_ok phase s -> fanOut X envs trigger phase storage s = (Ok out, s') ->
  pub_ok X s' /\ pb_cat s' = pb_cat s /\ pb_pending s' = pb_pending s /\ pb_gate s' = pb_gate s /\ history s s' /\ drawn s s' /\ (forall c, pb_values s' !! c = pb_values s !! c).
Proof.
  induction envs as [|env rest IH]; intros phase storage s out s' Hok Hphase; cbn [fanOut]; [intros [= _ <-]; by split_and!|].
  intros ([[pe phase'] storage'] & s1 & Hr1 & Hr)%st_bind_Ok. apply st_bind_Ok in Hr as (out' & s2 & Hr & [= _ <-]).
  apply republish_Ok in Hr1 as (Hok1 & Hph1 & Hc & Hp & Hg & Hh & Hd & Hv & _); [|done|done]. apply IH in Hr as (Hok2 & Hc2 & Hp2 & Hg2 & Hh2 & Hd2 & Hv2); [|done|done].
  split; [done|]. do 3 (split; [congruence|]). split; [by eapply history_trans|]. split; [by etransitivity|]. intros c. by rewrite Hv2, Hv.
Qed.
End Fanout.

(** ** The step relation *)
Section Trace.
Context `{FieldSealer} (sha256hex : string -> string) (org project : string).

(** A caller's request against this project, outside the self-configuration project. *)
Definition request_of (X : PublishContext) : Prop := px_org X = org /\ px_project X = project /\ px_selfConfig X = false.

(** One operation on the project's drafts, cells, revisions and approvals: the
    value editor, the publish, the restore, the schema fan-out and the approval
    surface. The other operations that write cells are not steps: deleting a key
    through a definitions apply ([ClearKey]) or an environment
    ([ClearEnvironment]), import, copy and clone, re-encryption (which keeps the
    plaintexts, [KeyLifecycleClaims]), and changes of the catalogue. *)
Inductive pub_step (s s' : Pub) : Prop :=
  | step_set X env name v r : request_of X -> Set_ X env name v s = (r, s') -> pub_step s s'
  | step_unset X env name r : request_of X -> Unset_ X env name s = (r, s') -> pub_step s s'
  | step_publish X env request r : request_of X -> PublishPlanned X sha256hex env request s = (r, s') -> pub_step s s'
  | step_restore X env rev name r : request_of X -> Restore X env rev name s = (r, s') -> pub_step s s'
  | step_fanout X trigger r : request_of X -> write (fanOutSchemaPublish X trigger) s = (r, s') -> pub_step s s'
  | step_createPolicy X input r : request_of X -> CreatePolicy X input s = (r, s') -> pub_step s s'
  | step_updatePolicy X id input r : request_of X -> UpdatePolicy X id input s = (r, s') -> pub_step s s'
  | step_deletePolicy X id r : request_of X -> DeletePolicy X id s = (r, s') -> pub_step s s'
  | step_vote X env id decision r : request_of X -> Vote X sha256hex env id decision s = (r, s') -> pub_step s s'
  | step_expire X r : request_of X -> ExpireDue X s = (r, s') -> pub_step s s'.

(** [pub_ok] depends on the project, not on the request. *)
Lemma pub_ok_request X Y s : request_of X -> request_of Y -> pub_ok X s -> pub_ok Y s.
Proof.
  intros (Ho & Hp & _) (Ho' & Hp' & _). destruct X, Y. cbn in Ho, Hp, Ho', Hp'. subst. intros [? ? ? ? ? ? ? ? ? ? ? ? ?]. split; assumption.
Qed.

Record project_ok (X : PublishContext) (s : Pub) : Prop := { po_pub : pub_ok X s; po_gate : gate_ok (pb_gate s) }.

(** What every step keeps. *)
Record step_keeps (X : PublishContext) (s s' : Pub) : Prop := {
  sk_ok : project_ok X s';
  sk_history : history s s';
  sk_drawn : drawn s s';
  sk_gate : gate_step (pb_gate s) (pb_gate s') }.

Lemma keeps_refl X s : project_ok X s -> step_keeps X s s.
Proof. by intros Hok; split. Qed.

Lemma keeps_gated X s s' : project_ok X s -> gated s s' -> step_keeps X s s'.
Proof.
  intros [Hok Hg] Hgd. pose proof Hgd as [Hgo Hst]. destruct (gate_only_draws _ _ Hgo) as [us Hd].
  split; [split; [by eapply gated_ok|by apply (gs_ok _ _ Hst)]|by apply gated_history|eapply drawn_same; [exact Hd|apply Hgo|apply drafts_drawn_less; intros c n; by rewrite (go_pending _ _ Hgo)]|done].
Qed.

Lemma keeps_staged X env k us n s s' : project_ok X s -> staged X env k us n s s' -> step_keeps X s s'.
Proof.
  intros [Hok Hg] Hst. pose proof (pub_ok_staged _ _ _ _ _ _ _ Hok Hst) as Hok'. pose proof (staged_drafts _ _ _ _ _ _ _ Hst) as Hf. destruct Hst as [_ Hd _ Hv Hs He _ Hgt _ _ _ _ _].
  split; [by split; [|rewrite Hgt]| |by eapply drawn_same|by rewrite Hgt]. intros e r sn Hsn. by rewrite Hs, He.
Qed.

Lemma keeps_stage X env name op v s r s' : project_ok X s -> px_selfConfig X = false -> stage X env name op v s = (r, s') -> step_keeps X s s'.
Proof.
  intros Hok Hself. unfold stage. destruct (_ =s _); [intros [= _ <-]; by apply keeps_refl|]. intros [->|([] & _ & Hr)]%checked_inv; [by apply keeps_refl|].
  apply write_inv in Hr as [->|(c & -> & Hr)]; [by apply keeps_refl|]. apply (stageBody_Ok X Hself) in Hr as (u & n & Hst & _). by eapply keeps_staged.
Qed.

Lemma keeps_restore X env rev name s r s' : project_ok X s -> Restore X env rev name s = (r, s') -> step_keeps X s s'.
Proof.
  intros Hok. unfold Restore. destruct (_ =s _); [intros [= _ <-]; by apply keeps_refl|]. destruct (_ <=? _); [intros [= _ <-]; by apply keeps_refl|].
  intros [->|([] & _ & Hr)]%checked_inv; [by apply keeps_refl|]. apply write_inv in Hr as [->|(c & -> & Hr)]; [by apply keeps_refl|].
  destruct Hok as [Hok Hg]. apply (restoreBody_Ok X) in Hr as (Hok' & us & s1 & l & Hd & -> & keys & _ & _ & Hcase); [|done].
  assert (pb_values s1 = pb_values s /\ pb_snapshots s1 = pb_snapshots s /\ pb_entries s1 = pb_entries s /\ pb_gate s1 = pb_gate s /\ drafts_drawn us s s1) as (Hv & Hs & He & Hgt & Hf).
  { destruct Hcase as [[_ [l' ->]]|(tg & cu & _ & _ & [_ _ Hv Hs He Hgt Hf _ _ _])]; [|done]. split_and!; try done. by apply drafts_drawn_less. }
  split; [split; [done|cbn; by rewrite Hgt]| |by eapply drawn_same|cbn; by rewrite Hgt]. intros e r sn Hsn. cbn. by rewrite Hs, He.
Qed.

Lemma keeps_publish X env request s r s' : project_ok X s -> px_selfConfig X = false -> PublishPlanned X sha256hex env request s = (r, s') -> step_keeps X s s'.
Proof.
  intros Hok Hself Hr. apply PublishPlanned_cases in Hr as [Hgd|(res & loaded & selected & byID & groups & selection & closed & ap & s2 & _ & Hrun)]; [by apply keeps_gated| |apply Hok].
  destruct Hok as [Hok Hg]. pose proof (publish_run_all X sha256hex Hself _ _ _ _ _ _ _ _ _ _ _ _ _ Hok Hrun) as [[Ok2 C2 G2 H2 D2 _ _] Hgd].
  assert (project_ok X s2) as Hp2 by (split; [done|by rewrite G2]). destruct (keeps_gated _ _ _ Hp2 Hgd) as [K1 K2 K3 K4].
  split; [done|by eapply history_trans|by etransitivity|]. by rewrite <- G2.
Qed.

Lemma keeps_fanout X trigger s r s' : project_ok X s -> px_selfConfig X = false -> write (fanOutSchemaPublish X trigger) s = (r, s') -> step_keeps X s s'.
Proof.
  intros [Hok Hg] Hself. intros [->|(out & -> & (s0 & s1 & [= <- <-] & Hr)%st_bind_Ok)]%write_inv; [by apply keeps_refl|].
  apply (fanOut_Ok X Hself) in Hr as (Hok' & _ & _ & Hgt & Hh & Hd & _); [|done|done]. split; [by split; [|rewrite Hgt]|done|done|by rewrite Hgt].
Qed.

(** Every step keeps the invariant, the history, the identifiers and the gate. *)
Lemma step_sound X s s' : request_of X -> project_ok X s -> pub_step s s' -> step_keeps X s s'.
Proof.
  intros HX Hok Hstep. assert (forall Y, request_of Y -> project_ok Y s) as HY by (intros Y HY; destruct Hok; split; [by apply (pub_ok_request X Y)|done]).
  assert (forall Y, request_of Y -> step_keeps Y s s' -> step_keeps X s s') as Hback by (intros Y HRY [[K1 Kg] K2 K3 K4]; split; [split; [by apply (pub_ok_request Y X)|done]|done..]).
  destruct Hstep as [Y env name v r HR Hr|Y env name r HR Hr|Y env request r HR Hr|Y env rev name r HR Hr|Y trigger r HR Hr|Y input r HR Hr|Y id input r HR Hr|Y id r HR Hr|Y env id d r HR Hr|Y r HR Hr];
    apply (Hback Y HR); pose proof (HY Y HR) as HokY; destruct HR as (_ & _ & Hself).
  - by eapply keeps_stage.
  - by eapply keeps_stage.
  - by eapply keeps_publish.
  - by eapply keeps_restore.
  - by eapply keeps_fanout.
  - by eapply keeps_gated, CreatePolicy_gated.
  - by eapply keeps_gated, UpdatePolicy_gated.
  - by eapply keeps_gated, DeletePolicy_gated.
  - eapply keeps_gated; [done|]. eapply Vote_gated; [apply HokY|done].
  - eapply keeps_gated; [done|]. eapply ExpireDue_gated; [apply HokY|done].
Qed.

Lemma trace_sound X s s' : request_of X -> project_ok X s -> rtc pub_step s s' -> step_keeps X s s'.
Proof.
  intros HX Hok Htr. induction Htr as [s|s s1 s' Hst _ IH]; [by apply keeps_refl|]. destruct (step_sound _ _ _ HX Hok Hst) as [K1 K2 K3 K4].
  destruct (IH K1) as [L1 L2 L3 L4]. split; [done|by eapply history_trans|by etransitivity|by etransitivity].
Qed.
End Trace.
