(* ===== verification/PublishClaims.v ===== *)
(** * What a team relies on when it publishes

    The theorems about saving, publishing, approving and restoring values, over
    the single operations and over every sequence of them. *)

From S2P Require Import Prelude Domain EventNames OperationNames Utf8 GoStrings FreeText Schema AuditEvent Parameters Envelope KeyTables Definitions DefinitionsSpec DefinitionsStore DefinitionsApply PublishStore GroupIndex Materialize Selection Approvals Publish Voting PublishReads PublishSteps PublishInvariant PublishMaterialize PublishSelect PublishEffect PublishStage PublishGate PublishCommit.

#[local] Open Scope Z_scope.

(** ** Counting votes *)
Section Votes.
Context (X : PublishContext).

(** A vote that counts: an approval of an eligible approver who may still vote. *)
Definition counts (env : string) (req : ApprovalRequest) (policy : ApprovalPolicy) (s : Pub) (p : string) : Prop :=
  (exists v, gt_votes (pb_gate s) !! (rq_ID req, p) = Some v /\ av_Decision v = ApprovalDecisionApprove) /\
  approverEligible X (ListApprovers (rq_PolicyID req) s) p = Ok true /\ px_holds X p OpApprovalVote env = Ok true /\
  (po_AllowSelfApproval policy = false -> p <> rq_RequesterPrincipalID req).

Lemma countsNow_true env approvers req policy v : countsNow X env approvers req policy v = Ok true ->
  av_Decision v = ApprovalDecisionApprove /\ approverEligible X approvers (av_PrincipalID v) = Ok true /\ px_holds X (av_PrincipalID v) OpApprovalVote env = Ok true /\
  (po_AllowSelfApproval policy = false -> av_PrincipalID v <> rq_RequesterPrincipalID req).
Proof.
  unfold countsNow. destruct (bool_decide (av_Decision v = ApprovalDecisionApprove)) eqn:Hd; [|done]. apply bool_decide_eq_true in Hd. cbn [negb].
  destruct (_ && _) eqn:Hs; [done|]. intros (el & Hel & Hr)%bind_Ok. destruct el; [|done]. split; [done|]. split; [done|]. split; [done|].
  intros Hself Heq. rewrite Hself, Heq, String.eqb_refl in Hs. done.
Qed.

Lemma countVotes_Ok env approvers req policy votes : forall c n, countVotes X env approvers req policy votes c = Ok n ->
  exists l, sublist l votes /\ n = c + Z.of_nat (length l) /\ Forall (fun v => countsNow X env approvers req policy v = Ok true) l.
Proof.
  induction votes as [|v votes IH]; intros c n; cbn [countVotes]; [intros [= <-]; exists []; split; [constructor|split; [cbn; lia|constructor]]|].
  intros (b & Hb & (l & Hl & -> & Hall)%IH)%bind_Ok. destruct b.
  - exists (v :: l). split; [by constructor|]. split; [cbn [length]; lia|by constructor].
  - exists l. split; [by constructor|done].
Qed.

(** Distinct approvers, each with a vote of their own. *)
Lemma approvals_distinct env req policy s n : gate_ok (pb_gate s) -> countEligibleApprovals X env (ListApprovers (rq_PolicyID req) s) req policy s = Ok n ->
  exists voters, NoDup voters /\ n = Z.of_nat (length voters) /\ Forall (counts env req policy s) voters.
Proof.
  intros [Kv _] (l & Hsub & -> & Hall)%countVotes_Ok. exists (map av_PrincipalID l).
  assert (forall v, In v (ListVotes (rq_ID req) s) -> gt_votes (pb_gate s) !! (rq_ID req, av_PrincipalID v) = Some v) as Hin.
  { unfold ListVotes. intros v ([[r p] v'] & Heq & [Hin%list_elem_of_In%elem_of_map_to_list Hr]%filter_In)%in_map_iff. cbn in *. subst v'. apply String.eqb_eq in Hr as ->.
    destruct (Kv _ _ _ Hin) as [_ <-]. done. }
  split; [|split; [by rewrite length_map|]].
  - apply (sublist_NoDup _ (map av_PrincipalID (ListVotes (rq_ID req) s))); [|by apply (fmap_sublist av_PrincipalID)]. unfold ListVotes. rewrite map_map, <- (map_id (map_to_list _)).
    apply (NoDup_listing (gt_votes (pb_gate s)) (fun kv => kv) (fun kv => kv.1.1 =s rq_ID req) (fun kv => av_PrincipalID kv.2)).
    intros [r p] v [r' p'] v' Hv Hv' Hr Hr' Heq. cbn in *. apply String.eqb_eq in Hr as ->, Hr' as ->. destruct (Kv _ _ _ Hv), (Kv _ _ _ Hv'). congruence.
  - apply Forall_map, Forall_forall. intros v Hv. rewrite Forall_forall in Hall. pose proof (countsNow_true _ _ _ _ _ (Hall v Hv)) as (Hd & Hel & Hh & Hself).
    split; [|done]. exists v. split; [|done]. apply Hin, list_elem_of_In. by eapply elem_of_sublist.
Qed.
End Votes.

(** ** One publish *)
Section Claims.
Context `{FieldSealer} (sha256hex : string -> string).

(** The delivered state of the latest revision is the state of the cells. *)
Lemma latest_delivers X s e k : pub_ok X s -> delivered X s e (latestRevision e s) k = cellValue X s e k.
Proof.
  intros Hok. pose proof (pk_coherent _ _ Hok e) as Hc. unfold coherent in Hc. unfold delivered, cellValue. destruct (pb_snapshots s !! (e, latestRevision e s)) as [sn|]; [|by rewrite Hc].
  destruct Hc as [_ Hc]. specialize (Hc k). cbn [mbind option_bind]. destruct (pb_entries s !! (sn_ID sn, k)) as [en|], (pb_values s !! (e, k)) as [row|]; [|done..].
  destruct Hc as (_ & Ho & _). cbn [mbind option_bind]. by rewrite Ho.
Qed.

Lemma committed_run X env request s r s' : gate_ok (pb_gate s) -> PublishPlanned X sha256hex env request s = (Ok (Committed r), s') ->
  exists loaded selected byID groups selection closed ap s2, publish_run X sha256hex env request s r s' loaded selected byID groups selection closed ap s2.
Proof.
  intros Hg. unfold PublishPlanned. destruct (_ =s _); [discriminate|]. destruct (_ && _); [discriminate|]. destruct (firstDuplicate _ _); [discriminate|].
  intros ([] & s1 & [= _ <-] & Hr)%st_bind_Ok. apply st_bind_Ok in Hr as ([] & s1 & [= _ <-] & Hr). exact (publishBody_cases X sha256hex _ _ _ _ _ Hg (proj1 (write_Ok _ _ _ _) Hr)).
Qed.

(** C8. Outside the self-configuration project, a publish that commits applies the
    drafts it chose and nothing else. The
    chosen drafts are the named ones and the caller's own drafts of the same key
    group in the same environment; every named draft is one of them. Each chosen
    draft's cell holds the draft's plaintext afterwards, or is cleared; every
    other cell, and every other draft of anyone, is untouched. An environment
    with a chosen draft gains exactly one revision, which delivers its cells and
    satisfies the schema (values valid, presence rules, groups whole, render
    cap); no other environment gains one, and no earlier revision changes. *)
Theorem publish_commits_selection X env request s r s' : px_selfConfig X = false -> pub_ok X s -> gate_ok (pb_gate s) ->
  PublishPlanned X sha256hex env request s = (Ok (Committed r), s') ->
  pub_ok X s' /\ (forall id, In id (namedVersions request s) -> exists e k n, chosen s (px_principal X) (namedVersions request s) e k n /\ np_ID n = id) /\
  exists groups, loadGroupIndex s = Ok groups /\ publishes X (namedVersions request s) groups s s'.
Proof.
  intros Hself Hok Hg Hr. apply committed_run in Hr as (loaded & selected & byID & groups & selection & closed & ap & s2 & Hrun); [|done].
  pose proof (publish_run_all X sha256hex Hself _ _ _ _ _ _ _ _ _ _ _ _ _ Hok Hrun) as [Hall Hgd]. split; [by eapply gated_ok; [apply Hall|]|]. split.
  - intros id Hin. destruct (named_live (pk_draftIDs _ _ Hok) (pr_resolved _ _ _ _ _ _ _ _ _ _ _ _ _ _ _ Hrun) id Hin) as (e & k & n & Hp & <-). exists e, k, n. split; [|done]. split; [done|by left].
  - exists groups. split; [apply Hrun|]. by eapply publish_run_effect.
Qed.

(** ** Key groups *)
Lemma sameGroup_trans X s a b c : pub_ok X s -> sameGroup s a b -> sameGroup s b c -> sameGroup s a c.
Proof.
  intros Hok (ka & kb & Ha & Hb & Hne & Hg) (kb' & kc & Hb' & Hc & _ & Hg'). exists ka, kc. split; [done|]. split; [done|]. split; [done|].
  assert (kb = kb') as <-; [|congruence]. pose proof (pk_keys _ _ Hok) as Hnd. rewrite <- list_elem_of_In in Hb, Hb'.
  apply (elem_of_list_to_map _ _ _ Hnd) in Hb, Hb'. congruence.
Qed.

(** C13. Key-group closure terminates, and decides. For live named drafts it never
    runs out of passes; it succeeds exactly when no draft it would take belongs
    to a key that is gone, and no one else holds a draft of the same group in
    the same environment; and what it then selects is, per environment, exactly
    the chosen drafts: with a draft, all of its group's. *)
Theorem closure_decides X s named groups selected byID : pub_ok X s -> loadGroupIndex s = Ok groups -> resolveVersions (px_principal X) named s = Ok (selected, byID) ->
  (forall p, selectVersions (px_principal X) selected byID groups s <> Panic p) /\
  ((exists out, selectVersions (px_principal X) selected byID groups s = Ok out) <->
   forall e k n, chosen s (px_principal X) named e k n -> In k (map fst (cat_keys (pb_cat s))) /\
     forall k' o n', pb_pending s !! (e, k', o) = Some n' -> sameGroup s k k' -> o = px_principal X) /\
  (forall selection closed, selectVersions (px_principal X) selected byID groups s = Ok (selection, closed) ->
   (forall e a, In a (default [] (selection !! e)) <-> exists k n, chosen s (px_principal X) named e k n /\ a = applyOf (pendingChange (e, k, px_principal X, n))) /\
   (forall e k n k' o n', chosen s (px_principal X) named e k n -> pb_pending s !! (e, k', o) = Some n' -> sameGroup s k k' -> chosen s (px_principal X) named e k' n')).
Proof.
  intros Hok Hidx Hres. pose proof (pk_draftIDs _ _ Hok) as Hids. split; [|split; [split|]].
  - intros p. by eapply selectVersions_nopanic.
  - intros [[selection closed] Hsel] e k n Hch. split; [by eapply chosen_declared|]. intros k' o n' Hp Hg. exact (chosen_whole Hids Hidx Hres Hsel e k n k' o n' Hch Hp Hg).
  - intros Hall. destruct (selectVersions (px_principal X) selected byID groups s) as [out|err|p] eqn:Hsel; [by exists out| |by destruct (selectVersions_nopanic Hids Hidx Hres p)].
    apply (selectVersions_Err Hids Hidx Hres) in Hsel as (e & k & n & Hch & Hbad). destruct (Hall e k n Hch) as [Hd Hw]. destruct Hbad as [Hn|(k' & o & n' & Hp & Hg & Ho)]; [done|]. by destruct Ho; eapply Hw.
  - intros selection closed Hsel. split; [intros e a; exact (selection_In Hids Hidx Hres Hsel e a)|]. intros e k n k' o n' Hch Hp Hg.
    pose proof (chosen_whole Hids Hidx Hres Hsel e k n k' o n' Hch Hp Hg) as ->. pose proof Hch as [Hpk Hor]. split; [done|]. right.
    destruct Hor as [Hn|(k0 & n0 & Hp0 & Hn0 & Hg0)]; [|exists k0, n0; split; [done|]; split; [done|]; by eapply sameGroup_trans].
    by exists k, n.
Qed.

(** ** From draft to publication *)

(** Opening depends on the project, not on the request. *)
Lemma same_project_reads X Y : px_org X = px_org Y -> px_project X = px_project Y ->
  (forall s e k, cellValue X s e k = cellValue Y s e k) /\ (forall s e r k, delivered X s e r k = delivered Y s e r k) /\ forall e k n, openPending X e k n = openPending Y e k n.
Proof. destruct X, Y. cbn. intros -> ->. done. Qed.

Lemma stage_Ok X env name op v s c s' : px_selfConfig X = false -> stage X env name op v s = (Ok c, s') ->
  exists u n, staged X env (sg_KeyID c) [u] n s s' /\ np_ID n = sg_VersionID c /\ np_Operation n = op /\ (op = PendingSet -> openPending X env (sg_KeyID c) n = Ok (Normalize v)).
Proof.
  intros Hself. unfold stage. destruct (_ =s _); [discriminate|]. intros ([] & s1 & [= _ <-] & Hr)%st_bind_Ok. exact (stageBody_Ok X Hself _ _ _ _ _ _ _ (proj1 (write_Ok _ _ _ _) Hr)).
Qed.

Section Project.
Context (org project : string).

(** C10. No lost update. A draft saved against a cell and published later, after any
    sequence of operations by anyone, replaces exactly the row it was saved
    against: the same row, not a newer one with the same plaintext, nor none.
    The publish then puts the saved value, trimmed, into the cell (or clears it)
    and delivers it. A draft whose cell has moved since is never published. *)
Theorem no_lost_update X Y env name op v s0 c s1 s2 env' request r s3 e k n :
  request_of org project X -> request_of org project Y -> project_ok X s0 ->
  stage X env name op v s0 = (Ok c, s1) -> rtc (pub_step sha256hex org project) s1 s2 ->
  PublishPlanned Y sha256hex env' request s2 = (Ok (Committed r), s3) ->
  chosen s2 (px_principal Y) (namedVersions request s2) e k n -> np_ID n = sg_VersionID c ->
  (e, k, px_principal Y) = (env, sg_KeyID c, px_principal X) /\ pb_values s2 !! (e, k) = pb_values s0 !! (e, k) /\
  let stored := match op with PendingSet => Some (Normalize v) | PendingUnset => None end in
  cellValue Y s3 e k = stored /\ delivered Y s3 e (latestRevision e s3) k = stored.
Proof.
  intros HX HY Hok Hst Htr Hpub Hch Hid. pose proof (proj2 (proj2 HX)) as HselfX. pose proof (proj2 (proj2 HY)) as HselfY.
  pose proof (keeps_stage X env name op v s0 (Ok c) s1 Hok HselfX Hst) as [Hok1 _ _ _]. destruct (stage_Ok _ _ _ _ _ _ _ _ HselfX Hst) as (u & n1 & Hsd & Hid1 & Hop & Hopen).
  pose proof (trace_sound sha256hex org project X s1 s2 HX Hok1 Htr) as [Hok2 _ Hd _].
  assert (pb_pending s1 !! (env, sg_KeyID c, px_principal X) = Some n1) as Hn1 by (rewrite (sd_pending _ _ _ _ _ _ _ Hsd); apply lookup_insert_eq).
  pose proof Hch as [Hn _]. pose proof (pk_supply _ _ (po_pub _ _ Hok1)) as Hsup.
  assert (pb_pending s1 !! (e, k, px_principal Y) = Some n) as Hn0.
  { destruct (drawn_draft _ _ _ _ Hd Hsup Hn) as [?|Hnot]; [done|]. destruct Hnot. rewrite Hid, <- Hid1. by eapply used_draft. }
  pose proof (pk_draftIDs _ _ (po_pub _ _ Hok1) _ _ _ _ Hn0 Hn1 ltac:(congruence)) as Hcell. split; [done|]. injection Hcell as -> -> Hpr. rewrite Hpr in *. rewrite Hn1 in Hn0. injection Hn0 as ->.
  assert (project_ok Y s2) as HokY by (destruct Hok2; split; [by apply (pub_ok_request org project X Y)|done]).
  destruct (committed_run _ _ _ _ _ _ (po_gate _ _ HokY) Hpub) as (loaded & selected & byID & groups & selection & closed & ap & s4 & Hrun).
  pose proof (publish_run_all Y sha256hex HselfY _ _ _ _ _ _ _ _ _ _ _ _ _ (po_pub _ _ HokY) Hrun) as [Hall Hgd]. assert (pub_ok Y s3) as Hok3 by (by eapply gated_ok; [apply Hall|]).
  pose proof (publish_run_effect Y sha256hex HselfY _ _ _ _ _ _ _ _ _ _ _ _ _ (po_pub _ _ HokY) Hrun) as Hpu.
  split.
  - pose proof (pu_fresh _ _ _ _ _ Hpu) as Hf. rewrite Hpr in Hf. specialize (Hf _ _ _ Hch). rewrite (sd_baseline _ _ _ _ _ _ _ Hsd) in Hf. rewrite <- (sd_values _ _ _ _ _ _ _ Hsd) in Hf |- *.
    destruct (pb_values s2 !! (env, sg_KeyID c)) as [row|] eqn:Hrow; cbn in Hf.
    + pose proof (pk_valueID _ _ (po_pub _ _ Hok2) _ _ Hrow) as Hne. destruct (pb_values s1 !! (env, sg_KeyID c)) as [row0|] eqn:Hrow0; cbn in Hf; [|done].
      destruct (drawn_fresh _ _ _ _ Hd Hsup Hrow) as [?|Hnot]; [congruence|]. destruct Hnot. rewrite Hf. by eapply used_value.
    + destruct (pb_values s1 !! (env, sg_KeyID c)) as [row0|] eqn:Hrow0; [|done]. cbn in Hf. by destruct (pk_valueID _ _ (po_pub _ _ Hok1) _ _ Hrow0).
  - cbn zeta. rewrite latest_delivers by done. enough (cellValue Y s3 env (sg_KeyID c) = match op with PendingSet => Some (Normalize v) | PendingUnset => None end) as -> by done.
    pose proof (pu_applied _ _ _ _ _ Hpu) as Ha. rewrite Hpr in Ha. destruct (Ha _ _ _ Hch) as [_ ->]. unfold draftPlain. rewrite Hop. destruct op; [|done].
    destruct (same_project_reads Y X) as (_ & _ & ->); [destruct HX as (? & ? & _), HY as (? & ? & _); congruence..|]. by rewrite Hopen.
Qed.

(** C12. Invariants of the whole life of a project. Over every sequence of drafts,
    publishes, restores, schema fan-outs, policy changes, votes and expiries,
    committed or refused, by any callers: the tables stay well formed (revisions
    numbered without gaps, the latest revision delivering the cells), a revision
    once written is never changed or removed, a reviewed request keeps its
    content, a resolved request keeps its verdict, and a vote is never changed. *)
Theorem project_life X s s' : request_of org project X -> project_ok X s -> rtc (pub_step sha256hex org project) s s' ->
  project_ok X s' /\
  (forall e r, 1 <= r <= latestRevision e s' <-> is_Some (pb_snapshots s' !! (e, r))) /\
  (forall e k, delivered X s' e (latestRevision e s') k = cellValue X s' e k) /\
  (forall e r, is_Some (pb_snapshots s !! (e, r)) -> pb_snapshots s' !! (e, r) = pb_snapshots s !! (e, r) /\ forall k, delivered X s' e r k = delivered X s e r k) /\
  (forall id req, gt_requests (pb_gate s) !! id = Some req -> exists req', gt_requests (pb_gate s') !! id = Some req' /\ same_content req req' /\ (isActiveRequest (rq_State req) = false -> req' = req)) /\
  (forall c v, gt_votes (pb_gate s) !! c = Some v -> gt_votes (pb_gate s') !! c = Some v).
Proof.
  intros HX Hok Htr. destruct (trace_sound sha256hex _ _ _ _ _ HX Hok Htr) as [Hok' Hh _ [_ Hf Hc Hv]]. split; [done|]. split; [|split; [|split; [|split; [|done]]]].
  - intros e r. split; [apply (pk_contiguous _ _ (po_pub _ _ Hok'))|]. intros [sn Hsn]. pose proof (latestRevision_bound _ _ _ _ Hsn). destruct (pk_snapshotRows _ _ (po_pub _ _ Hok') _ _ _ Hsn) as (_ & _ & ?). lia.
  - intros e k. by apply latest_delivers, Hok'.
  - intros e r [sn Hsn]. destruct (Hh _ _ _ Hsn) as [Hsn' He]. split; [congruence|]. intros k. unfold delivered. rewrite Hsn, Hsn'. cbn [mbind option_bind]. by rewrite He.
  - intros id req Hr. destruct (Hc _ _ Hr) as (req' & Hr' & Hs). exists req'. split; [done|]. split; [done|]. intros Hi. pose proof (Hf (po_gate _ _ Hok) _ _ Hr Hi). congruence.
Qed.
End Project.

(** ** Approval *)

(** What stands behind a change to a covered environment. *)
Record approved (X : PublishContext) (env : string) (request : PublishRequest) (policy : ApprovalPolicy) (s s' : Pub) (req : ApprovalRequest) : Prop := {
  av_request : gt_requests (pb_gate s) !! rp_ApprovalRequestID request = Some req;
  av_reviewed : exists selection token, publishPreviewToken X env (px_principal X) selection s = Ok token /\ reviewed X req policy env (sha256hex token) /\
    forall e a, In a (default [] (selection !! e)) <-> exists k n, chosen s (px_principal X) (rq_VersionIDs req) e k n /\ a = applyOf (pendingChange (e, k, px_principal X, n));
  av_alone : forall e k n, chosen s (px_principal X) (rq_VersionIDs req) e k n -> e = env;
  av_passed : (exists voters, NoDup voters /\ po_MinApprovals policy <= Z.of_nat (length voters) /\ Forall (counts X env req policy s) voters) \/
    (IsBypasser (po_ID policy) (px_principal X) s = true /\ px_machine X = false /\ exists keyIDs, px_ceremony X PurposeBypass env keyIDs = Ok ());
  av_resolved : exists req', gt_requests (pb_gate s') !! rp_ApprovalRequestID request = Some req' /\ isActiveRequest (rq_State req') = false /\ same_content req req' }.

Lemma compact_In x l : In x (compact l) <-> In x l.
Proof.
  unfold compact, Definitions.sortStrings. rewrite <- !list_elem_of_In, elem_of_remove_dups, !list_elem_of_In. split; [apply (Permutation_in _ (isort_perm _ _))|apply (Permutation_in _ (Permutation_sym (isort_perm _ _)))].
Qed.

Lemma first_some_In {A B} (f : A -> option B) l x y : In x l -> f x = Some y -> exists x' y', In x' l /\ f x' = Some y' /\ first_some f l = Some y'.
Proof.
  induction l as [|a l IH]; [by intros []|]. cbn [first_some In]. intros [->|Hin] Hf; [rewrite Hf; exists x, y; tauto|]. destruct (f a) as [b|] eqn:Ha; [exists a, b; tauto|].
  destruct (IH Hin Hf) as (x' & y' & H1 & H2 & H3). exists x', y'. tauto.
Qed.

Lemma size_one {A} (m : gmap string A) a b : (size m <= 1)%nat -> is_Some (m !! a) -> is_Some (m !! b) -> a = b.
Proof.
  intros Hs Ha [y Hb]. destruct (decide (a = b)) as [|Hne]; [done|]. assert (size (delete a m) = 0)%nat as Hz by (rewrite map_size_delete_Some by done; lia).
  apply map_size_empty_iff in Hz. assert (delete a m !! b = Some y) as Hd by (by rewrite lookup_delete_ne). rewrite Hz, lookup_empty in Hd. done.
Qed.

Lemma committed_approved X env request s r s' e k n policy : px_selfConfig X = false -> pub_ok X s -> gate_ok (pb_gate s) ->
  PublishPlanned X sha256hex env request s = (Ok (Committed r), s') -> chosen s (px_principal X) (namedVersions request s) e k n -> CoveringPolicy e s = Some policy ->
  e = env /\ exists req, approved X env request policy s s' req.
Proof.
  intros Hself Hok Hg Hr Hch Hcov. apply committed_run in Hr as (loaded & selected & byID & groups & selection & closed & ap & s2 & Hrun); [|done].
  pose proof (publish_run_all X sha256hex Hself _ _ _ _ _ _ _ _ _ _ _ _ _ Hok Hrun) as [Hall _]. pose proof (pk_draftIDs _ _ Hok) as Hids.
  destruct Hrun as [Hload Hres _ Hidx Hsel Hgate _ _ Haft].
  pose proof (selection_env Hids Hidx Hres Hsel) as Henv. pose proof (selected_lookup Hres) as Hslk. pose proof (byID_lookup Hids Hres) as Hbl.
  assert (forall e', In e' (selectedEnvironments selected) <-> exists k n, chosen s (px_principal X) (namedVersions request s) e' k n) as Hsev.
  { intros e'. unfold selectedEnvironments. rewrite compact_In, in_map_iff. split.
    - intros ([id ch] & <- & Hin%list_elem_of_In%elem_of_map_to_list). apply Hslk in Hin as [Hn (e1 & k1 & n1 & Hp & <- & ->)%Hbl]. exists k1, n1. split; [done|by left].
    - intros (k1 & n1 & Hp & Hor). assert (exists k0 n0, pb_pending s !! (e', k0, px_principal X) = Some n0 /\ In (np_ID n0) (namedVersions request s)) as (k0 & n0 & Hp0 & Hn0) by naive_solver.
      exists (np_ID n0, pendingChange (e', k0, px_principal X, n0)). split; [done|]. apply list_elem_of_In, elem_of_map_to_list, Hslk. split; [done|]. apply Hbl. eauto 10. }
  unfold gate_open, coveredBy in Hgate. destruct (first_some_In (fun env => pair env <$> CoveringPolicy env s) (selectedEnvironments selected) e (e, policy)) as (cenv & p & Hcin & Hcp & Hfs);
    [apply Hsev; eauto|by rewrite Hcov|]. rewrite Hfs in Hgate.
  destruct (CoveringPolicy cenv s) as [pol|] eqn:Hpol; [|done]. injection Hcp as <-. destruct Hgate as (Hsize & token & req & Htok & -> & Hrid & Hcenv & Hrev & Hpass).
  assert (forall e' k' n', chosen s (px_principal X) (namedVersions request s) e' k' n' -> e' = cenv) as Hone.
  { intros e' k' n' Hch'. apply (size_one selection); [done|apply Henv; eauto|by apply Henv, Hsev]. }
  pose proof (Hone _ _ _ Hch) as ->. rewrite Hpol in Hcov. injection Hcov as ->. destruct Hload as (Hne & Hat & Hid & Hreqenv). pose proof (rv_env _ _ _ _ _ Hrev) as Hre. rewrite Hreqenv in Hre. rewrite <- Hre in Hcenv, Hrev, Hpass, Hone |- *.
  split; [done|]. exists req. unfold loaded_at in Hat. rewrite Hid in Hat.
  assert (namedVersions request s = rq_VersionIDs req) as Hnamed by (unfold namedVersions; apply String.eqb_neq in Hne as ->; by rewrite Hat). rewrite Hnamed in *. split.
  - done.
  - exists selection, token. split; [done|]. split; [exact Hrev|]. exact (selection_In Hids Hidx Hres Hsel).
  - exact Hone.
  - destruct Hpass as [m Hcount Hmin|Hby Hm Hc]; [left|right; eauto 10]. destruct (approvals_distinct X _ _ _ _ _ Hg Hcount) as (voters & Hnd & -> & Hv). by exists voters.
  - destruct Haft as [[Hz _]|(_ & rev & Hra)]; [congruence|]. rewrite <- Hid, <- Hrid. eapply resolveApproval_resolves; [|by rewrite Hcenv|exact Hra].
    by rewrite (ap_gate _ _ _ _ _ _ Hall), Hrid, Hid.
Qed.

(** Saving a draft and restoring move no cell. *)
Lemma stage_values X env name op v s r s' : px_selfConfig X = false -> stage X env name op v s = (r, s') -> pb_values s' = pb_values s.
Proof.
  intros Hself. unfold stage. destruct (_ =s _); [by intros [= _ <-]|]. intros [->|([] & _ & Hr)]%checked_inv; [done|].
  apply write_inv in Hr as [->|(c & -> & Hr)]; [done|]. apply (stageBody_Ok X Hself) in Hr as (u & n & Hst & _). apply Hst.
Qed.
Lemma restore_values X env rev name s r s' : pub_ok X s -> Restore X env rev name s = (r, s') -> pb_values s' = pb_values s.
Proof.
  intros Hok. unfold Restore. destruct (_ =s _); [by intros [= _ <-]|]. destruct (_ <=? _); [by intros [= _ <-]|]. intros [->|([] & _ & Hr)]%checked_inv; [done|].
  apply write_inv in Hr as [->|(c & -> & Hr)]; [done|]. apply (restoreBody_Ok X) in Hr as (_ & us & s1 & l & _ & -> & keys & _ & _ & Hcase); [|done].
  destruct Hcase as [[_ [l' ->]]|(tg & cu & _ & _ & Hre)]; [done|apply Hre].
Qed.

(** C9. In a project other than the self-configuration one, whose tables satisfy the
    publishing invariant, a covered environment's cells move only by an approved
    publish, among the operations of the project's step relation: saving and clearing drafts,
    publishing, restoring a revision, the fan-out of a schema change, creating,
    changing and deleting approval policies, voting and expiring requests. When
    one of these changes a cell of an environment an enabled policy covers, it is
    a publish of that environment alone, of exactly the change set of a request
    that was live, the caller's own, made under the policy as it stands, and
    whose reviewed preview is the preview of what is published; and either at
    least the required number of distinct eligible approvers, who may still
    vote, approved it (not counting the proposer unless the policy allows it),
    or a named bypasser, not a machine, passed the ceremony. The request is
    resolved with it, so it admits no second change. The claim does not extend to
    the operations outside that relation: a definitions apply that deletes a key
    ([ClearKey]) and the deletion of an environment ([ClearEnvironment]) clear
    covered cells without a request, and import, copy and clone and re-encryption
    are not steps of it either. *)
Theorem covered_cells_need_approval org project X s s' e k policy : request_of org project X -> project_ok X s ->
  pub_step sha256hex org project s s' -> pb_values s' !! (e, k) <> pb_values s !! (e, k) -> CoveringPolicy e s = Some policy ->
  exists Y request r req, request_of org project Y /\ PublishPlanned Y sha256hex e request s = (Ok (Committed r), s') /\ approved Y e request policy s s' req.
Proof.
  intros HX [Hok Hg] Hstep Hmoved Hcov. assert (forall Y, request_of org project Y -> pub_ok Y s) as HY by (intros; by apply (pub_ok_request org project X)).
  assert (forall s1, gated s s1 -> pb_values s1 = pb_values s) as Hgv by (intros s1 [Hgo _]; apply Hgo).
  destruct Hstep as [Y env name v r HR Hr|Y env name r HR Hr|Y env request r HR Hr|Y env rev name r HR Hr|Y trigger r HR Hr|Y input r HR Hr|Y id input r HR Hr|Y id r HR Hr|Y env id d r HR Hr|Y r HR Hr].
  3: { destruct (PublishPlanned_cases Y sha256hex _ _ _ _ _ Hg Hr) as [Hgd|(res & loaded & selected & byID & groups & selection & closed & ap & s2 & -> & Hrun)]; [by rewrite Hgv in Hmoved|].
    pose proof (proj2 (proj2 HR)) as Hself. pose proof (publish_run_effect Y sha256hex Hself _ _ _ _ _ _ _ _ _ _ _ _ _ (HY Y HR) Hrun) as Hpu.
    pose proof Hrun as [_ Hres _ Hidx Hsel _ _ _ _]. pose proof (selection_In (pk_draftIDs _ _ (HY Y HR)) Hidx Hres Hsel e) as Hin.
    destruct (in_dec String.string_dec k (map pa_keyID (default [] (selection !! e)))) as [(a & Hka & (k' & n & Hch & ->)%Hin)%in_map_iff|Hno].
    2: { rewrite (pu_kept _ _ _ _ _ Hpu) in Hmoved; [done|]. intros n Hch. apply Hno, in_map_iff. eexists. split; [|apply Hin; eauto]. done. }
    cbn in Hka. subst k'.
    destruct (committed_approved Y env request s res s' e k n policy) as [-> [req Hap]]; try done; [by apply HY|]. by exists Y, request, res, req. }
  all: exfalso; apply Hmoved; pose proof (proj2 (proj2 HR)) as Hself.
  - by rewrite (stage_values _ _ _ _ _ _ _ _ Hself Hr).
  - by rewrite (stage_values _ _ _ _ _ _ _ _ Hself Hr).
  - by rewrite (restore_values _ _ _ _ _ _ _ (HY Y HR) Hr).
  - apply write_inv in Hr as [->|(out & -> & (s0 & s1 & [= <- <-] & Hr)%st_bind_Ok)]; [done|]. by apply (fanOut_Ok Y Hself) in Hr as (_ & _ & _ & _ & _ & _ & ->); [|by apply HY|].
  - by rewrite (Hgv _ (CreatePolicy_gated _ _ _ _ _ Hr)).
  - by rewrite (Hgv _ (UpdatePolicy_gated _ _ _ _ _ _ Hr)).
  - by rewrite (Hgv _ (DeletePolicy_gated _ _ _ _ _ Hr)).
  - by rewrite (Hgv _ (Vote_gated _ _ _ _ _ _ _ _ Hg Hr)).
  - by rewrite (Hgv _ (ExpireDue_gated _ _ _ _ Hg Hr)).
Qed.

(** ** Rolling back *)
Lemma Restore_Ok X env rev s c s' : pub_ok X s -> Restore X env rev "" s = (Ok c, s') -> rr_Changes c <> [] ->
  pub_ok X s' /\ exists us s1 l targets currents, s' = set_audit l s1 /\ (forall k, delivered X s env rev k <> None -> In k (map fst (cat_keys (pb_cat s)))) /\
    (forall k, wanted X targets k = delivered X s env rev k) /\ (forall k, current X currents k = cellValue X s env k) /\
    restored X env targets currents (cat_keys (pb_cat s)) (rr_Changes c) us s s1.
Proof.
  intros Hok. unfold Restore. destruct (_ =s _); [discriminate|]. destruct (_ <=? _); [discriminate|]. intros ([] & s1 & [= _ <-] & Hr)%st_bind_Ok Hne.
  apply write_Ok, (restoreBody_Ok X) in Hr as (Hok' & us & s1 & l & _ & -> & keys & Hkeys & _ & Hcase); [|done]. destruct (Hkeys eq_refl) as [-> Hall]. split; [done|].
  destruct Hcase as [[? _]|(tg & cu & Hw & Hc & Hre)]; [done|]. by exists us, s1, l, tg, cu.
Qed.

Lemma draft_for_None w c : draft_for w c = None -> w = c.
Proof. destruct w as [w|], c as [c|]; cbn; try done. destruct (bool_decide (c = w)) eqn:Hb; [|done]. apply bool_decide_eq_true in Hb. by subst. Qed.

Lemma draft_for_Some w c op v : draft_for w c = Some (op, v) -> w = match op with PendingSet => Some v | PendingUnset => None end.
Proof. destruct w as [w|], c as [c|]; cbn; try destruct (bool_decide _); intros [= <- <-]; done. Qed.

(** The cells after the drafts of a restore, and only those, are published. *)
Lemma restore_publish_cells X Y env targets currents changes us s s1 l named groups s2 : pub_ok X s -> pub_ok X (set_audit l s1) -> px_org X = px_org Y -> px_project X = px_project Y -> px_principal Y = px_principal X ->
  restored X env targets currents (cat_keys (pb_cat s)) changes us s s1 -> (forall k, current X currents k = cellValue X s env k) ->
  (forall id, In id named <-> In id (map sg_VersionID changes)) ->
  (forall e k n, chosen (set_audit l s1) (px_principal X) named e k n -> In (np_ID n) named) -> publishes Y named groups (set_audit l s1) s2 ->
  forall k, In k (map fst (cat_keys (pb_cat s))) -> cellValue X s2 env k = wanted X targets k.
Proof.
  intros Hok Hok1 Ho Hp Hpr Hre Hcur Hnamed Hclosed Hpu k Hk. destruct (same_project_reads X Y Ho Hp) as (Hcv & _ & Hop).
  pose proof (rs_keys _ _ _ _ _ _ _ _ _ Hre k Hk) as Hkey. unfold restored_key in Hkey. destruct (draft_for (wanted X targets k) (current X currents k)) as [[op v]|] eqn:Hdf.
  - destruct Hkey as (n & Hn & Hopn & Hopen & Hin). apply draft_for_Some in Hdf as ->.
    assert (chosen (set_audit l s1) (px_principal Y) named env k n) as Hch by (rewrite Hpr; split; [exact Hn|left; by apply Hnamed]).
    destruct (pu_applied _ _ _ _ _ Hpu _ _ _ Hch) as [_ Hc]. rewrite Hcv, Hc. unfold draftPlain. rewrite Hopn. destruct op; [|done]. by rewrite <- Hop, Hopen.
  - rewrite (draft_for_None _ _ Hdf), Hcur. unfold cellValue. rewrite (pu_kept _ _ _ _ _ Hpu); [by cbn; rewrite (rs_values _ _ _ _ _ _ _ _ _ Hre)|]. rewrite Hpr. intros n Hch.
    pose proof (Hclosed _ _ _ Hch) as Hin%Hnamed. destruct (rs_changes _ _ _ _ _ _ _ _ _ Hre _ Hin) as (k' & n' & _ & Hn' & Hid & Hdf'). pose proof Hch as [Hn _].
    pose proof (pk_draftIDs _ _ Hok1 _ _ _ _ Hn' Hn Hid) as Heq. injection Heq as ->. congruence.
Qed.

(** C11. Restoring an earlier revision and publishing the drafts it saved is a
    round trip: the new latest revision delivers, key by key, exactly what the
    restored revision delivered. The environment gains one revision, and every
    earlier one, of any environment, delivers what it did. *)
Theorem restore_publish_roundtrip org project X Y env rev s c s1 request r s2 : request_of org project X -> request_of org project Y -> px_principal Y = px_principal X -> project_ok X s ->
  Restore X env rev "" s = (Ok c, s1) -> rr_Changes c <> [] -> (forall id, In id (namedVersions request s1) <-> In id (map sg_VersionID (rr_Changes c))) ->
  PublishPlanned Y sha256hex env request s1 = (Ok (Committed r), s2) -> pr_ClosedIn r = [] ->
  latestRevision env s2 = latestRevision env s + 1 /\
  (forall k, delivered X s2 env (latestRevision env s2) k = delivered X s env rev k) /\
  (forall e r k, is_Some (pb_snapshots s !! (e, r)) -> delivered X s2 e r k = delivered X s e r k).
Proof.
  intros HX HY Hpr [Hok Hg] Hres Hne Hnamed Hpub Hclosed. pose proof (Restore_Ok _ _ _ _ _ _ Hok Hres Hne) as (Hok1 & us & s0 & l & tg & cu & -> & Hkeys & Hw & Hc & Hre).
  assert (px_org X = px_org Y) as Ho by (destruct HX as (? & _), HY as (? & _); congruence). assert (px_project X = px_project Y) as Hp by (destruct HX as (_ & ? & _), HY as (_ & ? & _); congruence).
  assert (pub_ok Y (set_audit l s0)) as HokY by (by apply (pub_ok_request org project X)). assert (gate_ok (pb_gate (set_audit l s0))) as Hg1 by (cbn; by rewrite (rs_gate _ _ _ _ _ _ _ _ _ Hre)).
  destruct (committed_run _ _ _ _ _ _ Hg1 Hpub) as (loaded & selected & byID & groups & selection & closed & ap & s3 & Hrun). pose proof (proj2 (proj2 HY)) as Hself.
  pose proof (publish_run_all Y sha256hex Hself _ _ _ _ _ _ _ _ _ _ _ _ _ HokY Hrun) as [Hall Hgd]. assert (pub_ok Y s2) as Hok2 by (by eapply gated_ok; [apply Hall|]).
  pose proof (publish_run_effect Y sha256hex Hself _ _ _ _ _ _ _ _ _ _ _ _ _ HokY Hrun) as Hpu. destruct Hrun as [_ Hrv _ Hidx Hsel _ _ Hcl _]. rewrite Hclosed in Hcl. subst closed.
  assert (forall e k n, chosen (set_audit l s0) (px_principal X) (namedVersions request (set_audit l s0)) e k n -> In (np_ID n) (namedVersions request (set_audit l s0))) as Hin.
  { intros e k n Hch. destruct (in_dec String.string_dec (np_ID n) (namedVersions request (set_audit l s0))) as [|Hn]; [done|]. rewrite <- Hpr in Hch.
    destruct (proj2 (closed_In (pk_draftIDs _ _ HokY) Hidx Hrv Hsel (np_ID n))). eauto 10. }
  pose proof (restore_publish_cells X Y env tg cu _ us s s0 l _ groups s2 Hok Hok1 Ho Hp Hpr Hre Hc Hnamed Hin Hpu) as Hcells.
  destruct (same_project_reads X Y Ho Hp) as (Hcv & Hdv & _).
  assert (exists k n, chosen (set_audit l s0) (px_principal Y) (namedVersions request (set_audit l s0)) env k n) as Hsome.
  { destruct (rr_Changes c) as [|ch rest] eqn:Hch; [done|]. destruct (rs_changes _ _ _ _ _ _ _ _ _ Hre (sg_VersionID ch)) as (k & n & _ & Hn & Hid & _); [by left|]. exists k, n. rewrite Hpr.
    split; [exact Hn|]. left. apply Hnamed. rewrite Hid. by left. }
  destruct (pu_advanced _ _ _ _ _ Hpu env Hsome) as (Hadv & Hdel & _). split; [|split].
  - rewrite Hadv. f_equal. apply latestRevision_ext. intros r0. cbn. by rewrite (rs_snapshots _ _ _ _ _ _ _ _ _ Hre).
  - intros k. rewrite Hdv, Hdel, <- Hcv. destruct (in_dec String.string_dec k (map fst (cat_keys (pb_cat s)))) as [Hk|Hk]; [by rewrite Hcells|].
    assert (delivered X s env rev k = None) as -> by (destruct (delivered X s env rev k) eqn:Hd; [|done]; destruct Hk; apply Hkeys; congruence).
    rewrite Hcv. unfold cellValue. destruct (pb_values s2 !! (env, k)) as [row|] eqn:Hrow; [|done]. destruct (pk_cells _ _ Hok2 _ _ _ Hrow) as [Hk' _].
    destruct Hk. rewrite <- (rs_cat _ _ _ _ _ _ _ _ _ Hre). by rewrite (go_cat _ _ (proj1 Hgd)), (ap_cat _ _ _ _ _ _ Hall) in Hk'.
  - intros e r0 k [sn Hsn]. destruct (pu_history _ _ _ _ _ Hpu e r0 sn) as [Hsn' He]; [cbn; by rewrite (rs_snapshots _ _ _ _ _ _ _ _ _ Hre)|]. cbn in He.
    unfold delivered. rewrite Hsn, Hsn'. cbn [mbind option_bind]. by rewrite He, (rs_entries _ _ _ _ _ _ _ _ _ Hre).
Qed.

(** ** The preview of a restore *)
Lemma impactChange_secret X env groups entries canRead a c : impactChange X env groups entries canRead a = Ok c -> ic_KeyID c = pa_keyID a /\ ic_VersionID c = pa_versionID a /\
  (pa_secret a = true \/ (exists key, gi_keyByID groups !! pa_keyID a = Some key /\ ca_Classification key = Secret) \/ canRead = false -> ic_Before c = None /\ ic_After c = None).
Proof.
  unfold impactChange. destruct (gi_keyByID groups !! pa_keyID a) as [key|]; [|discriminate]. destruct (pa_secret a || (ca_Classification key =s Secret)) eqn:Hsec; [by intros [= <-]|].
  apply orb_false_iff in Hsec as [Hs Hc]. destruct canRead; [|by intros [= <-]]. cbn [negb]. intros (b & _ & (af & _ & [= <-])%bind_Ok)%bind_Ok. split; [done|]. split; [done|].
  intros [?|[(key' & [= <-] & Hk)|?]]; [congruence| |done]. rewrite Hk in Hc. by rewrite String.eqb_refl in Hc.
Qed.
End Claims.
