(* ===== verification/PublishRun.v ===== *)
(** * A project published

    A concrete project, its values sealed by a project sealer of the keyring:
    two environments, one of them covered by an approval policy, a key group of
    two keys. Drafts, a publish that pulls in the rest of its group, a reviewed
    publish, a restore. The theorems of [PublishClaims] applied to it. *)

From S2P Require Import Prelude Domain EventNames OperationNames Utf8 GoStrings FreeText Schema SchemaSpec AuditEvent Parameters Envelope KeyTables Keyring Definitions DefinitionsSpec DefinitionsStore DefinitionsApply PublishStore GroupIndex Materialize Selection Approvals Publish Voting PublishReads PublishSteps PublishInvariant PublishMaterialize PublishSelect PublishEffect PublishStage PublishGate PublishCommit PublishClaims.

#[local] Open Scope Z_scope.
#[local] Existing Instance transparentAEAD.

(** ** The sealer *)
Definition dataKey : keyHandle := MkHandle (B "dek_1") 1 (repeat (chr 7) 32).
Definition sealer : ProjectSealer := MkProjectSealer (B "org") (B "prj") (singleVersion dataKey).
Lemma sealer_sound : sealer_ok sealer.
Proof. split; [by exists dataKey|]. by split. Qed.
#[local] Instance sealing : FieldSealer := projectSealing sealer sealer_sound.

(** ** The project *)
Definition text_rule : Declaration := MkDeclaration (Some (MkRule TypeString None None [] false None None [] [] [])) [].
Definition schema : SchemaEnv := MkSchemaEnv sampleEngine (fun _ _ _ => evalOverran) (fun _ => Ok text_rule).
Definition dekTables : Tables := MkTables [] [MkRow (MkWrappedKey (B "dek_1") PurposeProject (B "org") (B "prj") 1 1 1 []) active] [].

(** A caller with every authority; the preview token lists the versions. *)
Definition caller (who : string) (now : Z) : PublishContext := {|
  px_org := "org"; px_project := "prj"; px_now := now; px_principal := who; px_selfConfig := false; px_machine := false;
  px_authorize := fun _ _ => Ok (); px_holds := fun _ _ _ => Ok true; px_schema := schema; px_prepare := fun _ => Ok ();
  px_protected := fun _ => Ok false; px_ceremony := fun _ _ _ => Ok (); px_generation := fun _ => Ok 1;
  px_keyTables := dekTables; px_dekVersion := 1; px_enqueue := fun _ => Ok []; px_acquire := Ok (); px_charge := Ok ();
  px_storageHighWater := 1000000; px_marshal := fun _ => B "{}"; px_changeToken := fun _ _ => Ok "token";
  px_previewToken := fun env i => Ok (env +:+ String.concat "," (flat_map (fun e => map tc_VersionID (te_Changes e)) (ti_Environments i)));
  px_scim := fun _ _ _ => Ok false; px_formatTime := fun _ => ""; px_scan := fun _ _ => Ok [] |}.
Definition hash (t : string) : string := "sha:" +:+ t.

Definition keyOf (name cls group : string) : CatalogueKey := MkCatalogueKey name "" cls "" false "" "string" PresenceNone PresenceNone group.
Definition catalogue : Catalogue :=
  MkCatalogue [("key_2", keyOf "DB_PASSWORD" Secret "kgr_1"); ("key_1", keyOf "DB_URL" Config "kgr_1"); ("key_3", keyOf "MODE" Config "")] [] 1 ["stage"; "prod"] ∅.
(** Changes to [prod] need one approval, by bob. *)
Definition policy : ApprovalPolicy := MkPolicy "apol_1" "prod" 1 false 3600 true 1 "root" 0 0.
Definition gate : GateTables := MkGate {[ "apol_1" := policy ]} [MkApprover "aapr_1" "apol_1" ApprovalApproverPrincipal "bob" ""] [] ∅ ∅.
Definition ids : list string := ["a"; "b"; "c"; "d"; "e"; "f"; "g"; "h"; "i"; "j"; "k"; "l"; "m"; "n"; "o"; "p"; "q"; "r"; "s"; "t"; "u"; "v"; "w"; "x"; "y"; "z"; "aa"; "ab"; "ac"; "ad"; "ae"; "af"; "ag"; "ah"; "ai"; "aj"; "ak"; "al"; "am"; "an"; "ao"; "ap"; "aq"; "ar"; "as"; "at"; "au"; "av"; "aw"; "ax"; "ay"; "az"].
Definition start : Pub := MkPub catalogue ∅ ∅ ∅ ∅ ∅ ∅ gate [] ids (repeat (Some (repeat (chr 9) 24)) 80).

Definition alice := caller "alice".
Definition bob := caller "bob".
Lemma callers who now : request_of "org" "prj" (caller who now).
Proof. by split. Qed.

Lemma start_ok : project_ok (alice 1) start.
Proof.
  split; [|by split].
  assert (forall e, latestRevision e start = 0) as Hl by (intros e; unfold latestRevision, revisionsOf; cbn; by rewrite map_to_list_empty).
  split; try done.
  - apply (bool_decide_unpack _). by vm_compute.
  - split; [apply (bool_decide_unpack _); by vm_compute|]. intros u p _ _ [c r Hr|c n Hn|c n Hn|c r Hr|c e Hc|[x Hx]]; cbn in *; by rewrite lookup_empty in *.
  - intros e r. rewrite Hl. lia.
  - intros e. unfold coherent. rewrite Hl. cbn. rewrite lookup_empty. intros k. apply lookup_empty.
Qed.

(** ** Runs *)
Definition committed (r : result PublishOutcome) : option PublishResult := match r with Ok (Committed x) => Some x | _ => None end.
Lemma committed_eq (run : result PublishOutcome * Pub) : bool_decide (is_Some (committed run.1)) = true -> exists x, run = (Ok (Committed x), run.2).
Proof. destruct run as [[[x| |]| |] s]; [eauto|done..]. Qed.
Lemma committed_published (run : result PublishOutcome * Pub) l : pr_Published <$> committed run.1 = Some l -> exists r s, run = (Ok (Committed r), s) /\ pr_Published r = l.
Proof. destruct run as [[[r| |]| |] s]; [|done..]. intros [= <-]. eauto. Qed.
Definition okay {A} (d : A) (r : result A * Pub) : A := match r.1 with Ok a => a | _ => d end.
Lemma okay_eq {A} (d : A) (run : result A * Pub) : is_ok run.1 = true -> run = (Ok (okay d run), run.2).
Proof. destruct run as [[a| |] s]; done. Qed.

Definition noStaged : StagedChange := MkStaged "" "" "" "" PendingSet 0 0.
Definition name_versions (l : list string) : PublishRequest := MkPublishRequest l "" [] "" None "".

(** Alice saves both keys of the group in [stage], and publishes naming one. *)
Definition run1 := Set_ (alice 1) "stage" "DB_URL" (B " pg://db ") start.
Definition s1 := run1.2.
Definition run2 := Set_ (alice 2) "stage" "DB_PASSWORD" (B "hunter2") s1.
Definition s2 := run2.2.
Definition run3 := PublishPlanned (alice 3) hash "stage" (name_versions [sg_VersionID (okay noStaged run1)]) s2.
Definition s3 := run3.2.

Lemma run1_Ok : run1 = (Ok (okay noStaged run1), s1).
Proof. unfold s1. apply (okay_eq noStaged run1). by vm_compute. Qed.
Lemma run3_Ok : exists r, run3 = (Ok (Committed r), s3).
Proof. unfold s3. apply (committed_eq run3). vm_compute. reflexivity. Qed.
Lemma to_s1 : pub_step hash "org" "prj" start s1.
Proof. eapply step_set; [apply callers|apply surjective_pairing]. Qed.
Lemma to_s2 : pub_step hash "org" "prj" s1 s2.
Proof. eapply step_set; [apply callers|apply surjective_pairing]. Qed.
Lemma to_s3 : pub_step hash "org" "prj" s2 s3.
Proof. eapply step_publish; [apply callers|apply surjective_pairing]. Qed.

Lemma ok_after s X : rtc (pub_step hash "org" "prj") start s -> request_of "org" "prj" X -> project_ok X s.
Proof.
  intros Htr HX. destruct (trace_sound hash "org" "prj" (alice 1) start s (callers _ _) start_ok Htr) as [[Hok Hg] _ _ _].
  split; [|done]. by apply (pub_ok_request "org" "prj" (alice 1)); [apply callers| |].
Qed.
Lemma from_start_s2 : rtc (pub_step hash "org" "prj") start s2.
Proof. eapply rtc_l; [apply to_s1|]. eapply rtc_l; [apply to_s2|]. reflexivity. Qed.

Lemma publish_commits_selection_witness :
  pub_ok (alice 3) s3 /\ exists groups, loadGroupIndex s2 = Ok groups /\ publishes (alice 3) (namedVersions (name_versions [sg_VersionID (okay noStaged run1)]) s2) groups s2 s3.
Proof.
  destruct run3_Ok as [r Hr]. destruct (ok_after s2 (alice 3) from_start_s2 (callers _ _)) as [Hok Hg].
  destruct (publish_commits_selection hash (alice 3) "stage" (name_versions [sg_VersionID (okay noStaged run1)]) s2 r s3 eq_refl Hok Hg Hr) as (Hok3 & _ & Hpu). split; [exact Hok3|exact Hpu].
Defined.

(** Alice's other draft comes along. *)
Definition picked := resolveVersions "alice" [sg_VersionID (okay noStaged run1)] s2.
Definition indexed_groups := loadGroupIndex s2.
Lemma selected_is : exists selected byID groups out, picked = Ok (selected, byID) /\ indexed_groups = Ok groups /\ selectVersions "alice" selected byID groups s2 = Ok out.
Proof.
  assert (match picked, indexed_groups with Ok (selected, byID), Ok groups => is_ok (selectVersions "alice" selected byID groups s2) | _, _ => false end = true) as Hok by (by vm_compute).
  destruct picked as [[selected byID]| |], indexed_groups as [groups| |]; try discriminate. destruct (selectVersions _ _ _ _ _) as [out| |] eqn:Hs; try discriminate. by exists selected, byID, groups, out.
Qed.

Lemma closure_decides_witness : exists selected byID groups, picked = Ok (selected, byID) /\ indexed_groups = Ok groups /\
  (forall p, selectVersions "alice" selected byID groups s2 <> Panic p) /\
  (forall e k n k' o n', chosen s2 "alice" [sg_VersionID (okay noStaged run1)] e k n -> pb_pending s2 !! (e, k', o) = Some n' -> sameGroup s2 k k' -> o = "alice").
Proof.
  destruct selected_is as (selected & byID & groups & out & Hres & Hidx & Hsel). exists selected, byID, groups. destruct (ok_after s2 (alice 3) from_start_s2 (callers _ _)) as [Hok _].
  destruct (closure_decides (alice 3) s2 [sg_VersionID (okay noStaged run1)] groups selected byID Hok Hidx Hres) as (Hnp & Hiff & _).
  split; [exact Hres|]. split; [exact Hidx|]. split; [exact Hnp|]. intros e k n k' o n' Hch. exact (proj2 (proj1 Hiff (ex_intro _ out Hsel) e k n Hch) k' o n').
Defined.

Definition staged1 : option NewPendingChange := pb_pending s2 !! ("stage", "key_1", "alice").
Lemma staged1_is : exists n, staged1 = Some n /\ np_ID n = sg_VersionID (okay noStaged run1).
Proof. destruct staged1 as [n|] eqn:Hn; [exists n; split; [done|]|vm_compute in Hn; discriminate]. vm_compute in Hn. injection Hn as <-. by vm_compute. Qed.

Lemma no_lost_update_witness : exists n, pb_pending s2 !! ("stage", "key_1", "alice") = Some n /\ pb_values s2 !! ("stage", "key_1") = pb_values start !! ("stage", "key_1") /\
  delivered (alice 3) s3 "stage" (latestRevision "stage" s3) "key_1" = Some (B "pg://db").
Proof.
  destruct staged1_is as (n & Hn & Hid), run3_Ok as [r Hr]. exists n. split; [exact Hn|].
  assert (chosen s2 "alice" [sg_VersionID (okay noStaged run1)] "stage" "key_1" n) as Hch by (split; [exact Hn|left; left; symmetry; exact Hid]).
  destruct (no_lost_update hash "org" "prj" (alice 1) (alice 3) "stage" "DB_URL" PendingSet (B " pg://db ") start (okay noStaged run1) s1 s2 "stage" (name_versions [sg_VersionID (okay noStaged run1)]) r s3 "stage" "key_1" n
    (callers _ _) (callers _ _) start_ok run1_Ok (rtc_once _ _ to_s2) Hr Hch Hid) as (_ & Hsame & _ & Hdel). split; [exact Hsame|exact Hdel].
Defined.

Lemma project_life_witness : is_Some (pb_snapshots s3 !! ("stage", 1)) /\ delivered (alice 1) s3 "stage" (latestRevision "stage" s3) "key_2" = cellValue (alice 1) s3 "stage" "key_2".
Proof.
  destruct (project_life hash "org" "prj" (alice 1) start s3 (callers _ _) start_ok (rtc_r _ _ _ from_start_s2 to_s3)) as (_ & Hgap & Hdel & _).
  split; [|exact (Hdel "stage" "key_2")]. apply Hgap. vm_compute. split; discriminate.
Defined.

(** ** A reviewed publish *)

(** Alice proposes a change to [prod], bob approves it, alice merges it. *)
Definition run4 := Set_ (alice 4) "prod" "MODE" (B "live") s3.
Definition s4 := run4.2.
Definition run5 := PublishPlanned (alice 5) hash "prod" (name_versions [sg_VersionID (okay noStaged run4)]) s4.
Definition s5 := run5.2.
Definition request_id : string := match run5.1 with Ok (RequestCreated req) => rq_ID req | _ => "" end.
Definition run6 := Vote (bob 6) hash "prod" request_id "approve" s5.
Definition s6 := run6.2.
Definition merge : PublishRequest := MkPublishRequest [] "" [] request_id None "".
Definition run7 := PublishPlanned (alice 7) hash "prod" merge s6.
Definition s7 := run7.2.

Lemma from_start_s6 : rtc (pub_step hash "org" "prj") start s6.
Proof.
  apply (rtc_trans _ s3); [exact (rtc_r _ _ _ from_start_s2 to_s3)|]. apply (rtc_l _ _ s4); [eapply step_set; [apply callers|apply surjective_pairing]|].
  apply (rtc_l _ _ s5); [eapply step_publish; [apply callers|apply surjective_pairing]|]. apply rtc_once. eapply step_vote; [apply callers|apply surjective_pairing].
Qed.
Lemma to_s7 : pub_step hash "org" "prj" s6 s7.
Proof. eapply step_publish; [apply callers|apply surjective_pairing]. Qed.
Lemma prod_moved : pb_values s7 !! ("prod", "key_3") <> pb_values s6 !! ("prod", "key_3").
Proof. vm_compute. discriminate. Qed.
Lemma prod_covered : CoveringPolicy "prod" s6 = Some policy.
Proof. by vm_compute. Qed.

Lemma covered_cells_need_approval_witness :
  exists Y request r req, request_of "org" "prj" Y /\ PublishPlanned Y hash "prod" request s6 = (Ok (Committed r), s7) /\ approved hash Y "prod" request policy s6 s7 req.
Proof. exact (covered_cells_need_approval hash "org" "prj" (alice 7) s6 s7 "prod" "key_3" policy (callers _ _) (ok_after s6 (alice 7) from_start_s6 (callers _ _)) to_s7 prod_moved prod_covered). Defined.

(** ** A restore *)

(** A second revision of [stage]; then the first one is restored. *)
Definition run8 := Set_ (alice 8) "stage" "MODE" (B "debug") s7.
Definition s8 := run8.2.
Definition run9 := PublishPlanned (alice 9) hash "stage" (name_versions [sg_VersionID (okay noStaged run8)]) s8.
Definition s9 := run9.2.
Definition noRestore : RestoreResult := MkRestore 0 [] (MkPreview "" []).
Definition run10 := Restore (alice 10) "stage" 1 "" s9.
Definition s10 := run10.2.
Definition republish : PublishRequest := MkPublishRequest (map sg_VersionID (rr_Changes (okay noRestore run10))) (ip_Token (rr_Preview (okay noRestore run10))) [] "" None "".
Definition run11 := PublishPlanned (alice 11) hash "stage" republish s10.
Definition s11 := run11.2.

Lemma from_start_s9 : rtc (pub_step hash "org" "prj") start s9.
Proof.
  apply (rtc_trans _ s7); [exact (rtc_r _ _ _ from_start_s6 to_s7)|]. apply (rtc_l _ _ s8); [eapply step_set; [apply callers|apply surjective_pairing]|].
  apply rtc_once. eapply step_publish; [apply callers|apply surjective_pairing].
Qed.
Lemma run10_Ok : run10 = (Ok (okay noRestore run10), s10).
Proof. unfold s10. apply (okay_eq noRestore run10). vm_compute. reflexivity. Qed.
Lemma run10_changes : rr_Changes (okay noRestore run10) <> [].
Proof. vm_compute. discriminate. Qed.
Lemma run11_Ok : exists r, run11 = (Ok (Committed r), s11) /\ pr_ClosedIn r = [].
Proof.
  assert (pr_ClosedIn <$> committed run11.1 = Some []) as Hc by (by vm_compute). destruct run11 as [[[r| |]| |] s] eqn:He; [|done..]. exists r. split; [|by injection Hc]. unfold s11. by rewrite He.
Qed.

Lemma restore_publish_roundtrip_witness : latestRevision "stage" s11 = latestRevision "stage" s9 + 1 /\
  delivered (alice 10) s11 "stage" (latestRevision "stage" s11) "key_3" = delivered (alice 10) s9 "stage" 1 "key_3" /\
  delivered (alice 10) s11 "stage" (latestRevision "stage" s11) "key_1" = delivered (alice 10) s9 "stage" 1 "key_1".
Proof.
  destruct run11_Ok as (r & Hr & Hcl).
  destruct (restore_publish_roundtrip hash "org" "prj" (alice 10) (alice 11) "stage" 1 s9 (okay noRestore run10) s10 republish r s11 (callers _ _) (callers _ _) eq_refl
    (ok_after s9 (alice 10) from_start_s9 (callers _ _)) run10_Ok run10_changes (fun id => conj (fun h => h) (fun h => h)) Hr Hcl) as (Hrev & Hdel & _).
  split; [exact Hrev|]. split; apply Hdel.
Defined.

(** ** A restore without its preview *)

(** [stage] comes under a policy; alice restores, proposes, bob rejects; the policy
    goes, and the environment moves on. *)
Definition stagePolicy : ApprovalPolicyInput := MkPolicyInput "stage" 1 false 3600 true [MkApproverSpec "principal" "bob" ""] [].
Definition run12 := CreatePolicy (bob 12) stagePolicy s9.
Definition run13 := Restore (alice 13) "stage" 1 "" run12.2.
Definition restored_ids : list string := map sg_VersionID (rr_Changes (okay noRestore run13)).
Definition run14 := PublishPlanned (alice 14) hash "stage" (MkPublishRequest restored_ids (ip_Token (rr_Preview (okay noRestore run13))) [] "" None "") run13.2.
Definition rejected_id : string := match run14.1 with Ok (RequestCreated req) => rq_ID req | _ => "" end.
Definition run15 := Vote (bob 15) hash "stage" rejected_id "reject" run14.2.
Definition run16 := DeletePolicy (bob 16) (okay "" run12) run15.2.
Definition run17 := Set_ (bob 17) "stage" "DB_URL" (B "pg://new") run16.2.
Definition run18 := PublishPlanned (bob 18) hash "stage" (name_versions [sg_VersionID (okay noStaged run17)]) run17.2.

(** Named directly, the restore drafts need a fresh preview; named through the
    rejected request they are published without any. *)
Lemma rejected_request_skips_preview :
  (PublishPlanned (alice 19) hash "stage" (name_versions restored_ids) run18.2).1 = Err ErrStalePreview /\
  exists r s, PublishPlanned (alice 19) hash "stage" (MkPublishRequest [] "" [] rejected_id None "") run18.2 = (Ok (Committed r), s) /\ pr_Published r = restored_ids.
Proof.
  split; [vm_compute; reflexivity|]. apply (committed_published (PublishPlanned (alice 19) hash "stage" (MkPublishRequest [] "" [] rejected_id None "") run18.2) restored_ids). vm_compute. reflexivity.
Qed.
