(* ===== verification/Retention.v ===== *)
(** * Retention: the policies, the payload sweep and revision pins

    [internal/service/retention.go] (tenant policies, the scheduler's payload
    sweep), [internal/service/pins.go] (setting, listing and releasing a pin)
    and the store methods they call ([store/repos_retention.go], [store/repos.go],
    [store/repos_revisions.go]). The state is the instance: the sweep and the pin
    table cross projects, and each project's published rows are the [Pub] of the
    publishing component. Statements are those of the PostgreSQL engine; an
    instant is a number of nanoseconds. *)

From stdpp Require Import pretty.
From S2P Require Import Prelude Domain EventNames OperationNames Utf8 GoStrings FreeText Schema AuditEvent Parameters Envelope KeyTables Keyring Definitions DefinitionsStore DefinitionsApply Delivery PublishStore GroupIndex Materialize Selection Approvals Publish.
From Stdlib Require Import Ascii.

#[local] Open Scope Z_scope.

(** ** Times *)
Definition Second : Z := 1000000000.
Definition Hour : Z := 3600 * Second.
Definition CanonTime (t : Z) : Z := truncateMicrosecond t.

Definition DefaultRetentionAge : Z := 90 * 24 * Hour.
Definition DefaultRetentionRevisions : Z := 10.
Definition RetentionBatchSize : nat := 100.
Definition PinQuotaPerProject : Z := 100.
Definition DefaultPinLifetime : Z := 180 * 24 * Hour.
Definition MaxPinLifetimeDays : Z := 365.
Definition MaxPinLifetime : Z := MaxPinLifetimeDays * 24 * Hour.

(** [time.Duration.String] of a whole number of seconds. *)
Definition durationString (d : Z) : string :=
  let s := d / Second in
  if s =? 0 then "0s"
  else (if s / 3600 =? 0 then "" else pretty (s / 3600) +:+ "h") +:+
       (if s / 60 =? 0 then "" else pretty (s / 60 mod 60) +:+ "m") +:+ pretty (s mod 60) +:+ "s".

(** [fmt.Errorf(msg + %w)] of a failed call. *)
Definition wrapped {A} (msg : string) (r : result A) : result A := match r with Err e => Err (EWrap msg e) | r => r end.

(** ** Data *)
Record RetentionPolicy := MkRetention { rp_Unlimited : bool; rp_MaxAge : Z; rp_LastRevisions : Z }.
#[export] Instance RetentionPolicy_eq_dec : EqDecision RetentionPolicy.
Proof. solve_decision. Defined.
Record ProjectRetention := MkProjectRetention { pt_Inherited : bool; pt_Policy : RetentionPolicy }.
#[export] Instance ProjectRetention_eq_dec : EqDecision ProjectRetention.
Proof. solve_decision. Defined.

Record RevisionPin := MkPin {
  pn_ID : string; pn_EnvironmentID : string; pn_WorkloadPrincipalID : string; pn_SnapshotID : string; pn_Revision : Z;
  pn_AuthorityPrincipalID : string; pn_ExpiresAt : Z; pn_CreatedAt : Z; pn_AuthorizedAt : Z; pn_HistoryAuthorized : bool; pn_SchemaOverride : bool }.
Record ServiceAccount := MkServiceAccount { sa_Kind : PrincipalClass; sa_Org : string; sa_Project : string }.

(** The retention columns of an organization and of a project; a project's pair
    is NULL together. The columns of a definitions plan the prune reads. *)
Record orgRow := MkOrgRow { og_mode : string; og_age : Z; og_count : Z }.
Record projectRow := MkProjectRow { pj_name : string; pj_retention : option (Z * Z); pj_pub : Pub }.
Record planRow := MkPlanRow { pw_expires : Z; pw_applied : bool }.

Record Inst := MkInst {
  in_orgs : gmap string orgRow;
  in_projects : gmap (string * string) projectRow;                       (* organization, project *)
  in_pins : gmap (string * string * string * string) RevisionPin;        (* organization, project, environment, workload *)
  in_selfConfig : gmap string string;                                    (* self_config_retention: slot, snapshot *)
  in_pinGenerations : gmap (string * string) Z;                          (* workload, environment *)
  in_serviceAccounts : gmap string ServiceAccount;                       (* principal *)
  in_plans : gmap string planRow;
  in_lastPrune : option Z;
  in_orgAudit : list (string * AuditEntry);                              (* tenant rows addressed to an organization *)
  in_audit : list AuditEntry }.                                          (* the instance trail *)

Definition with_orgs x i := MkInst x (in_projects i) (in_pins i) (in_selfConfig i) (in_pinGenerations i) (in_serviceAccounts i) (in_plans i) (in_lastPrune i) (in_orgAudit i) (in_audit i).
Definition with_projects x i := MkInst (in_orgs i) x (in_pins i) (in_selfConfig i) (in_pinGenerations i) (in_serviceAccounts i) (in_plans i) (in_lastPrune i) (in_orgAudit i) (in_audit i).
Definition with_pins x i := MkInst (in_orgs i) (in_projects i) x (in_selfConfig i) (in_pinGenerations i) (in_serviceAccounts i) (in_plans i) (in_lastPrune i) (in_orgAudit i) (in_audit i).
Definition with_generations x i := MkInst (in_orgs i) (in_projects i) (in_pins i) (in_selfConfig i) x (in_serviceAccounts i) (in_plans i) (in_lastPrune i) (in_orgAudit i) (in_audit i).
Definition with_plans x i := MkInst (in_orgs i) (in_projects i) (in_pins i) (in_selfConfig i) (in_pinGenerations i) (in_serviceAccounts i) x (in_lastPrune i) (in_orgAudit i) (in_audit i).
Definition with_lastPrune x i := MkInst (in_orgs i) (in_projects i) (in_pins i) (in_selfConfig i) (in_pinGenerations i) (in_serviceAccounts i) (in_plans i) x (in_orgAudit i) (in_audit i).
Definition with_instanceAudit x i := MkInst (in_orgs i) (in_projects i) (in_pins i) (in_selfConfig i) (in_pinGenerations i) (in_serviceAccounts i) (in_plans i) (in_lastPrune i) (in_orgAudit i) x.
Definition with_orgAudit x i := MkInst (in_orgs i) (in_projects i) (in_pins i) (in_selfConfig i) (in_pinGenerations i) (in_serviceAccounts i) (in_plans i) (in_lastPrune i) x (in_audit i).

Definition with_pub (f : Pub -> Pub) (row : projectRow) : projectRow := MkProjectRow (pj_name row) (pj_retention row) (f (pj_pub row)).

(** ** Policies *)
Definition formatRetentionPolicy (p : RetentionPolicy) : string :=
  if rp_Unlimited p then "unlimited"
  else "keep-if-either(max_age=" +:+ durationString (rp_MaxAge p) +:+ ",last_revisions=" +:+ pretty (rp_LastRevisions p) +:+ ")".

Definition validateOrgRetention (p : RetentionPolicy) : result () :=
  if rp_Unlimited p then Ok ()
  else if (rp_MaxAge p <=? 0) || (rp_LastRevisions p <=? 0) then Err (EWrap "org retention age and revision count must both be positive" ErrInvalid)
  else if negb (Z.rem (rp_MaxAge p) Second =? 0) then Err (EWrap "org retention age must be whole seconds" ErrInvalid)
  else Ok ().

Definition validateProjectRetention (org project : RetentionPolicy) : result () :=
  if rp_Unlimited project then Err (invalidDetail ("project retention cannot be unlimited; the org retention cap is " +:+ formatRetentionPolicy org))
  else if (rp_MaxAge project <=? 0) || (rp_LastRevisions project <=? 0) then Err (EWrap "project retention age and revision count must both be positive" ErrInvalid)
  else if negb (Z.rem (rp_MaxAge project) Second =? 0) then Err (EWrap "project retention age must be whole seconds" ErrInvalid)
  else if rp_Unlimited org then Ok ()
  else if (rp_MaxAge org <? rp_MaxAge project) || (rp_LastRevisions org <? rp_LastRevisions project)
       then Err (invalidDetail ("project retention exceeds the org retention cap " +:+ formatRetentionPolicy org))
  else Ok ().

(** ** [OrgRepo] and [ProjectRepo] *)
Definition retentionPolicy (row : orgRow) : result RetentionPolicy :=
  if (og_age row <=? 0) || (og_count row <=? 0) then Err (ENew "store: org: invalid retention bounds")
  else if og_mode row =s "keep-if-either" then Ok (MkRetention false (og_age row * Second) (og_count row))
  else if og_mode row =s "unlimited" then Ok (MkRetention true (og_age row * Second) (og_count row))
  else Err (ENew "store: org: unknown retention mode").
Definition projectOverride (row : projectRow) : result (option RetentionPolicy) :=
  match pj_retention row with
  | None => Ok None
  | Some (age, count) => if (age <=? 0) || (count <=? 0) then Err (ENew "store: project: invalid retention bounds")
                         else Ok (Some (MkRetention false (age * Second) count))
  end.

Definition Orgs_Get (org : string) (i : Inst) : result RetentionPolicy :=
  match in_orgs i !! org with Some row => retentionPolicy row | None => Err ErrNotFound end.
Definition Projects_Get (org project : string) (i : Inst) : result (option RetentionPolicy) :=
  match in_projects i !! (org, project) with Some row => projectOverride row | None => Err ErrNotFound end.

(** ORDER BY name. *)
Fixpoint readProjects (rows : list (string * projectRow)) : result (list (string * option RetentionPolicy)) :=
  match rows with
  | [] => Ok []
  | (id, row) :: rest => o ← projectOverride row; out ← readProjects rest; Ok ((id, o) :: out)
  end.
Definition Projects_List (org : string) (i : Inst) : result (list (string * option RetentionPolicy)) :=
  readProjects (sortBy (fun r => pj_name r.2) (map (fun kv => (kv.1.2, kv.2)) (List.filter (fun kv => kv.1.1 =s org) (map_to_list (in_projects i))))).

(** The age column is whole seconds; both columns have a CHECK. *)
Definition Orgs_SetRetention (org : string) (p : RetentionPolicy) : ST Inst () := fun i =>
  let row := MkOrgRow (if rp_Unlimited p then "unlimited" else "keep-if-either") (Z.quot (rp_MaxAge p) Second) (rp_LastRevisions p) in
  match in_orgs i !! org with
  | None => (Err ErrNotFound, i)
  | Some _ => if (og_age row <=? 0) || (og_count row <=? 0) then (Err ErrConflict, i) else (Ok (), with_orgs (<[ org := row ]> (in_orgs i)) i)
  end.
Definition Projects_SetRetention (org project : string) (p : option RetentionPolicy) : ST Inst () := fun i =>
  let pair := (fun p => (Z.quot (rp_MaxAge p) Second, rp_LastRevisions p)) <$> p in
  match in_projects i !! (org, project) with
  | None => (Err ErrNotFound, i)
  | Some row => if match pair with Some (age, count) => (age <=? 0) || (count <=? 0) | None => false end then (Err ErrConflict, i)
                else (Ok (), with_projects (<[ (org, project) := MkProjectRow (pj_name row) pair (pj_pub row) ]> (in_projects i)) i)
  end.

(** ** [RetentionRepo] *)
Record GCEligibleSnapshot := MkCandidate { gc_ID : string; gc_OrgID : string; gc_ProjectID : string; gc_EnvironmentID : string; gc_Revision : Z; gc_Policy : RetentionPolicy }.

(** Every row of [snapshots], with the chain columns of its project. *)
Record snapshotRow := MkSnapshotRow { sw_org : string; sw_project : string; sw_row : projectRow; sw_env : string; sw_revision : Z; sw_snapshot : Snapshot }.
Definition projectSnapshots (kv : string * string * projectRow) : list snapshotRow :=
  map (fun c => MkSnapshotRow kv.1.1 kv.1.2 kv.2 c.1.1 c.1.2 c.2) (map_to_list (pb_snapshots (pj_pub kv.2))).
Definition snapshotRows (i : Inst) : list snapshotRow := flat_map projectSnapshots (map_to_list (in_projects i)).

Definition selfRetained (i : Inst) (snapshotID : string) : bool := existsb (fun kv => kv.2 =s snapshotID) (map_to_list (in_selfConfig i)).
Definition livePin (i : Inst) (now : Z) (snapshotID : string) : bool :=
  existsb (fun kv => (pn_SnapshotID kv.2 =s snapshotID) && (now <? pn_ExpiresAt kv.2)) (map_to_list (in_pins i)).
(** ROW_NUMBER over the environment's revisions, the newest first. *)
Definition newestRank (env : string) (revision : Z) (s : Pub) : Z := Z.of_nat (length (List.filter (fun r => revision <=? r) (revisionsOf env s))).

(** The project's pair, or the organization's columns. *)
Definition effectivePolicy (o : orgRow) (row : projectRow) : RetentionPolicy :=
  match pj_retention row with
  | Some (age, count) => MkRetention false (age * Second) count
  | None => MkRetention (og_mode o =s "unlimited") (og_age o * Second) (og_count o)
  end.

Definition expired (now : Z) (p : RetentionPolicy) (r : snapshotRow) : bool :=
  negb (rp_Unlimited p) && (sn_PublishedAt (sw_snapshot r) <? now - rp_MaxAge p) &&
  (rp_LastRevisions p <? newestRank (sw_env r) (sw_revision r) (pj_pub (sw_row r))).

(** What both statements test: the payload is there and nothing holds it. *)
Definition unheld (i : Inst) (now : Z) (s : Snapshot) : bool := PayloadPresent s && negb (selfRetained i (sn_ID s)) && negb (livePin i now (sn_ID s)).

Definition candidate (i : Inst) (now : Z) (r : snapshotRow) : option GCEligibleSnapshot :=
  match in_orgs i !! sw_org r with
  | None => None
  | Some o =>
      let p := effectivePolicy o (sw_row r) in
      if expired now p r && unheld i now (sw_snapshot r)
      then Some (MkCandidate (sn_ID (sw_snapshot r)) (sw_org r) (sw_project r) (sw_env r) (sw_revision r) (MkRetention false (rp_MaxAge p) (rp_LastRevisions p)))
      else None
  end.
(** ORDER BY org_id, project_id, environment_id, revision. *)
Definition candidateLe (a b : GCEligibleSnapshot) : bool :=
  strLt (gc_OrgID a) (gc_OrgID b) || ((gc_OrgID a =s gc_OrgID b) && (strLt (gc_ProjectID a) (gc_ProjectID b) || ((gc_ProjectID a =s gc_ProjectID b) &&
    (strLt (gc_EnvironmentID a) (gc_EnvironmentID b) || ((gc_EnvironmentID a =s gc_EnvironmentID b) && (gc_Revision a <=? gc_Revision b)))))).
Definition Eligible (now : Z) (limit : nat) (i : Inst) : list GCEligibleSnapshot := firstn limit (isort candidateLe (omap (candidate i now) (snapshotRows i))).

(** The CHECK on [collected_policy]; the count of rows the UPDATE matched. *)
Definition markSnapshot (i : Inst) (snapshotID policy : string) (now : Z) (s : Snapshot) : Snapshot :=
  if (sn_ID s =s snapshotID) && unheld i now s
  then MkSnapshot (sn_ID s) (sn_EnvironmentID s) (sn_Revision s) (sn_SchemaRevision s) (sn_ParameterContract s) (sn_PublishedBy s) (sn_PublishedAt s) (Some (now, policy))
  else s.
Definition MarkCollected (snapshotID policy : string) (now : Z) : ST Inst bool := fun i =>
  let n := length (List.filter (fun r => (sn_ID (sw_snapshot r) =s snapshotID) && unheld i now (sw_snapshot r)) (snapshotRows i)) in
  if (policy =s "") && (0 <? n)%nat then (Err ErrConflict, i)
  else (Ok (n =? 1)%nat, with_projects (with_pub (fun p => set_snapshots (markSnapshot i snapshotID policy now <$> pb_snapshots p) p) <$> in_projects i) i).

Definition isCollected (i : Inst) (snapshotID : string) : bool :=
  existsb (fun r => (sn_ID (sw_snapshot r) =s snapshotID) && negb (PayloadPresent (sw_snapshot r))) (snapshotRows i).
Definition DeleteCollectedEntries (snapshotID : string) : ST Inst () := st_modify (fun i =>
  if isCollected i snapshotID
  then with_projects (with_pub (fun p => set_entries (filter (fun kv => kv.1.1 <> snapshotID) (pb_entries p)) p) <$> in_projects i) i
  else i).

Definition SetLastPruneSuccess (at_ : Z) : ST Inst () := st_modify (with_lastPrune (Some at_)).
Definition PruneExpiredPlans (now : Z) : ST Inst () := st_modify (fun i => with_plans (filter (fun kv => pw_applied kv.2 = true \/ now < pw_expires kv.2) (in_plans i)) i).

Definition insertInstance (e : AuditEntry) : ST Inst () := st_modify (fun i => with_instanceAudit (in_audit i ++ [e]) i).
Definition insertOrg (org : string) (e : AuditEntry) : ST Inst () := st_modify (fun i => with_orgAudit (in_orgAudit i ++ [(org, e)]) i).
(** A row of the acted-on project's trail. *)
Definition insertTenantOf (org project : string) (e : AuditEntry) : ST Inst () :=
  st_modify (fun i => with_projects (alter (with_pub (fun p => set_audit (pb_audit p ++ [e]) p)) (org, project) (in_projects i)) i).
(** [ScopedSystemAuthority]: the chain is resolved in this transaction. *)
Definition ScopedSystemAuthority (org project env : string) (i : Inst) : result () :=
  if org =s "" then Err (ENew "authz: scoped system authority requires a tenant scope")
  else match in_orgs i !! org, in_projects i !! (org, project) with
       | Some _, Some row => if envExists (pj_pub row) env then Ok () else Err ErrNotFound
       | _, _ => Err ErrNotFound
       end.

(** ** The policy service *)
Section Policies.
Context (X : PublishContext).

Definition GetOrg (i : Inst) : result RetentionPolicy := _ ← px_authorize X OpOrgRetentionRead ""; Orgs_Get (px_org X) i.

Definition policyChanged (event : EventType) (object : Object_) (before after : RetentionPolicy) (more : Payload) : AuditEntry :=
  (event, object, [("previous_policy", VString (formatRetentionPolicy before)); ("policy", VString (formatRetentionPolicy after))] ++ more).

(** Every stored override still fits the wanted cap. *)
Fixpoint checkOverrides (want : RetentionPolicy) (projects : list (string * option RetentionPolicy)) : result () :=
  match projects with
  | [] => Ok ()
  | (id, None) :: rest => checkOverrides want rest
  | (id, Some o) :: rest =>
      match validateProjectRetention want o with
      | Ok _ => checkOverrides want rest
      | _ => Err (invalidDetail ("org retention cap " +:+ formatRetentionPolicy want +:+ " is below project " +:+ id +:+ " override " +:+ formatRetentionPolicy o))
      end
  end.

Definition setOrgBody (want : RetentionPolicy) : ST Inst RetentionPolicy :=
  st_result (px_authorize X OpOrgRetentionUpdate "") ;;
  i ← st_get;
  before ← st_result (Orgs_Get (px_org X) i);
  let want := if rp_Unlimited want then MkRetention true (rp_MaxAge before) (rp_LastRevisions before) else want in
  st_result (if rp_Unlimited want then Ok () else projects ← Projects_List (px_org X) i; checkOverrides want projects) ;;
  if bool_decide (before = want) then mret want
  else
    Orgs_SetRetention (px_org X) want ;;
    insertOrg (px_org X) (policyChanged EventOrgRetentionChanged (MkObject "organization" (px_org X)) before want []) ;;
    mret want.
Definition SetOrg (want : RetentionPolicy) : ST Inst RetentionPolicy :=
  st_result (validateOrgRetention want) ;; write (setOrgBody want).

Definition effectiveOf (org : RetentionPolicy) (override : option RetentionPolicy) : ProjectRetention :=
  MkProjectRetention (match override with None => true | Some _ => false end) (default org override).
Definition GetProject (i : Inst) : result ProjectRetention :=
  _ ← px_authorize X OpProjectRetentionRead "";
  org ← Orgs_Get (px_org X) i;
  override ← Projects_Get (px_org X) (px_project X) i;
  Ok (effectiveOf org override).

Definition setProjectBody (want : option RetentionPolicy) : ST Inst ProjectRetention :=
  st_result (px_authorize X OpProjectRetentionUpdate "") ;;
  i ← st_get;
  org ← st_result (Orgs_Get (px_org X) i);
  st_result (match want with Some w => validateProjectRetention org w | None => Ok () end) ;;
  override ← st_result (Projects_Get (px_org X) (px_project X) i);
  let before := effectiveOf org override in
  let out := effectiveOf org want in
  if bool_decide (before = out) then mret out
  else
    Projects_SetRetention (px_org X) (px_project X) want ;;
    insertTenantOf (px_org X) (px_project X)
      (policyChanged EventProjectRetentionChanged (MkObject "project" (px_project X)) (pt_Policy before) (pt_Policy out)
        [("previous_inherited", VBool (pt_Inherited before)); ("inherited", VBool (pt_Inherited out))]) ;;
    mret out.
Definition SetProject (want : option RetentionPolicy) : ST Inst ProjectRetention := write (setProjectBody want).
End Policies.

(** ** The payload sweep

    [sweepLoop] is the loop of [Sweep] after the audit trail has been pruned. What
    the environment decides is a [SweepRun]: the clock, the cancellation of the
    run and the failures of the transactions themselves. *)
Record SweepRun := MkRun {
  rn_now : nat -> Z;                   (* the clock at the start of a chunk *)
  rn_finish : nat -> Z;                (* and at its end *)
  rn_ctx : nat -> option error;        (* ctx.Err() before a chunk *)
  rn_tx : nat -> option error;         (* a commit that fails *)
  rn_record : option error;            (* the same, of the transaction that records a failed run *)
  rn_formatTime : Z -> string }.       (* time.RFC3339Nano *)

Record retentionSweepChunk := MkChunk { ck_candidates : nat; ck_collected : Z; ck_prunedPlans : bool }.

Section Sweep.
Context (R : SweepRun).

Definition pruneRunEvent (startedAt finishedAt candidates collected : Z) (errorClass : string) : AuditEntry :=
  (EventRetentionPruneRun, MkObject "retention_sweep" "payload_gc",
    [("started_at", VString (rn_formatTime R startedAt)); ("finished_at", VString (rn_formatTime R finishedAt)); ("candidates", VInt64 candidates);
     ("collected", VPayload [("revision_payloads", VInt64 collected)])] ++ (if errorClass =s "" then [] else [("error_class", VString errorClass)])).
Definition pruneErrorClass (e : error) : string :=
  if errors_Is e "context.DeadlineExceeded" then "deadline" else if errors_Is e "context.Canceled" then "canceled" else "internal".

Definition payloadGC (now : Z) (row : GCEligibleSnapshot) (policy : string) : AuditEntry :=
  (EventRetentionPayloadGC, MkObject "snapshot" (gc_ID row),
    [("org", VString (gc_OrgID row)); ("project", VString (gc_ProjectID row)); ("environment", VString (gc_EnvironmentID row)); ("revision", VInt64 (gc_Revision row));
     ("snapshot_id", VString (gc_ID row)); ("policy", VString policy); ("collected_at", VString (rn_formatTime R now))]).

Definition collectRow (now : Z) (row : GCEligibleSnapshot) : ST Inst Z :=
  let policy := formatRetentionPolicy (gc_Policy row) in
  marked ← MarkCollected (gc_ID row) policy now;
  if negb marked then mret 0
  else
    DeleteCollectedEntries (gc_ID row) ;;
    i ← st_get;
    st_result (ScopedSystemAuthority (gc_OrgID row) (gc_ProjectID row) (gc_EnvironmentID row) i) ;;
    insertTenantOf (gc_OrgID row) (gc_ProjectID row) (payloadGC now row policy) ;;
    mret 1.
Fixpoint collectRows (now : Z) (rows : list GCEligibleSnapshot) : ST Inst Z :=
  match rows with
  | [] => mret 0
  | row :: rest => n ← collectRow now row; m ← collectRows now rest; mret (n + m)
  end.

Definition sweepChunk (k : nat) (startedAt total totalCandidates : Z) (plansPruned : bool) : ST Inst retentionSweepChunk :=
  let now := CanonTime (rn_now R k) in
  (if plansPruned then mret () else PruneExpiredPlans now) ;;
  i ← st_get;
  let rows := Eligible now RetentionBatchSize i in
  collected ← collectRows now rows;
  (if (length rows <? RetentionBatchSize)%nat
   then
     let finishedAt := CanonTime (rn_finish R k) in
     SetLastPruneSuccess finishedAt ;;
     insertInstance (pruneRunEvent startedAt finishedAt (totalCandidates + Z.of_nat (length rows)) (total + collected) "")
   else mret ()) ;;
  st_result (match rn_tx R k with Some e => Err e | None => Ok () end) ;;
  mret (MkChunk (length rows) collected (negb plansPruned)).

Definition recordFailedPruneRun (startedAt finishedAt candidates collected : Z) (runErr : error) (i : Inst) : error * Inst :=
  match rn_record R with
  | Some e => (EJoin [runErr; e], i)
  | None => (runErr, with_instanceAudit (in_audit i ++ [pruneRunEvent startedAt finishedAt candidates collected (pruneErrorClass runErr)]) i)
  end.

(** What [Sweep] returns: a count with an error, or a panic of a closure. *)
Inductive SweepOutcome := Swept (total : Z) | SweepFailed (total : Z) (e : error) | SweepPanicked (p : string) | SweepOutOfFuel.

Fixpoint sweepLoop (fuel : nat) (k : nat) (startedAt total totalCandidates : Z) (plansPruned : bool) (i : Inst) : SweepOutcome * Inst :=
  match fuel with
  | O => (SweepOutOfFuel, i)
  | S fuel =>
      match rn_ctx R k with
      | Some e => let '(e, i) := recordFailedPruneRun startedAt (CanonTime (rn_finish R k)) totalCandidates total e i in (SweepFailed total e, i)
      | None =>
          match write (sweepChunk k startedAt total totalCandidates plansPruned) i with
          | (Panic p, i) => (SweepPanicked p, i)
          | (Err e, i) =>
              let attempt := Z.of_nat (length (Eligible (CanonTime (rn_now R k)) RetentionBatchSize i)) in
              let '(e, i) := recordFailedPruneRun startedAt (CanonTime (rn_finish R k)) (totalCandidates + attempt) total e i in (SweepFailed total e, i)
          | (Ok chunk, i) =>
              let total := total + ck_collected chunk in
              let totalCandidates := totalCandidates + Z.of_nat (ck_candidates chunk) in
              if (ck_candidates chunk <? RetentionBatchSize)%nat then (Swept total, i)
              else sweepLoop fuel (S k) startedAt total totalCandidates (plansPruned || ck_prunedPlans chunk) i
          end
      end
  end.

End Sweep.

(** ** Revision pins *)
Inductive PinAction := PinCreated | PinReassigned | PinRenewed.
Inductive RetentionConsequence := RetentionRetained | RetentionCollectionEligible | RetentionAlreadyCollected.

Definition GetForWorkload (org project env workload : string) (i : Inst) : option RevisionPin := in_pins i !! (org, project, env, workload).
(** ORDER BY workload_principal_id. *)
Definition Pins_List (org project env : string) (i : Inst) : list RevisionPin :=
  sortBy pn_WorkloadPrincipalID (map snd (List.filter (fun kv => (kv.1.1.1.1 =s org) && (kv.1.1.1.2 =s project) && (kv.1.1.2 =s env)) (map_to_list (in_pins i)))).
Definition CountProject (org project : string) (i : Inst) : Z :=
  Z.of_nat (length (List.filter (fun kv => (kv.1.1.1.1 =s org) && (kv.1.1.1.2 =s project)) (map_to_list (in_pins i)))).
(** The key, the UNIQUE constraint and the references to the snapshot and the
    workload. *)
Definition Pins_Insert (org project env : string) (pin : RevisionPin) : ST Inst () := fun i =>
  let key := (org, project, env, pn_WorkloadPrincipalID pin) in
  let refers := existsb (fun r => (sw_org r =s org) && (sw_project r =s project) && (sw_env r =s env) && (sn_ID (sw_snapshot r) =s pn_SnapshotID pin)) (snapshotRows i) in
  if bool_decide (is_Some (in_pins i !! key)) || idTaken pn_ID (pn_ID pin) (in_pins i) || negb refers then (Err ErrConflict, i)
  else (Ok (), with_pins (<[ key := pin ]> (in_pins i)) i).
Definition Pins_Delete (org project env workload : string) : ST Inst bool := fun i =>
  let key := (org, project, env, workload) in
  (Ok (bool_decide (is_Some (in_pins i !! key))), with_pins (delete key (in_pins i)) i).

(** An absent row is generation 0. *)
Definition PinGeneration (workload env : string) (i : Inst) : Z := default 0 (in_pinGenerations i !! (workload, env)).
Definition SetPinGeneration (workload env : string) (generation : Z) : ST Inst () :=
  st_modify (fun i => with_generations (<[ (workload, env) := generation ]> (in_pinGenerations i)) i).

Definition ServiceAccountByPrincipal (principal : string) (i : Inst) : result ServiceAccount :=
  match in_serviceAccounts i !! principal with Some a => Ok a | None => Err ErrNotFound end.

(** ORDER BY revision DESC. *)
Definition Snapshots_List (env : string) (s : Pub) : list Snapshot :=
  isort (fun a b => sn_Revision b <=? sn_Revision a) (map snd (List.filter (fun kv => kv.1.1 =s env) (map_to_list (pb_snapshots s)))).

Record pinRetentionState := MkPinState { ps_policy : RetentionPolicy; ps_snapshots : list Snapshot; ps_pins : list RevisionPin }.

Definition pubOf (org project : string) (i : Inst) : result Pub :=
  match in_projects i !! (org, project) with Some row => Ok (pj_pub row) | None => Err ErrNotFound end.
Definition loadPinRetentionState (org project env : string) (i : Inst) : result pinRetentionState :=
  policy ← Orgs_Get org i;
  override ← Projects_Get org project i;
  s ← pubOf org project i;
  Ok (MkPinState (default policy override) (Snapshots_List env s) (Pins_List org project env i)).

Definition consequence (st : pinRetentionState) (snapshotID releasingPinID : string) (now : Z) : result RetentionConsequence :=
  match List.find (fun s => sn_ID s =s snapshotID) (ps_snapshots st) with
  | None => Err ErrNotFound
  | Some target =>
      if negb (PayloadPresent target) then Ok RetentionAlreadyCollected
      else if rp_Unlimited (ps_policy st) || negb (sn_PublishedAt target <? now - rp_MaxAge (ps_policy st)) then Ok RetentionRetained
      else
        let newestRank := Z.of_nat (length (List.filter (fun s => sn_Revision target <=? sn_Revision s) (ps_snapshots st))) in
        if newestRank <=? rp_LastRevisions (ps_policy st) then Ok RetentionRetained
        else if existsb (fun pin => negb (pn_ID pin =s releasingPinID) && (pn_SnapshotID pin =s snapshotID) && (now <? pn_ExpiresAt pin)) (ps_pins st)
             then Ok RetentionRetained
        else Ok RetentionCollectionEligible
  end.

Record PinView := MkPinView { pv_Pin : RevisionPin; pv_Expired : bool; pv_Consequence : RetentionConsequence }.
Definition pinView (pin : RevisionPin) (now : Z) (c : RetentionConsequence) : PinView := MkPinView pin (negb (now <? pn_ExpiresAt pin)) c.

(** [sp_ExpiresAt]: [None] for the zero time. *)
Record SetPinRequest := MkSetPin { sp_WorkloadPrincipalID : string; sp_Revision : Z; sp_ExpiresAt : option Z; sp_OverrideSchema : bool }.
Record SetPinResult := MkSetPinResult { sr_Action : PinAction; sr_Pin : PinView }.
Record ReleasePinResult := MkRelease { rl_Revision : Z; rl_Consequence : RetentionConsequence }.

(** A step of the project's published rows. *)
Definition onPub {A} (org project : string) (m : ST Pub A) : ST Inst A := fun i =>
  match in_projects i !! (org, project) with
  | None => (Err ErrNotFound, i)
  | Some row => let '(r, s) := m (pj_pub row) in (r, with_projects (<[ (org, project) := with_pub (fun _ => s) row ]> (in_projects i)) i)
  end.

Section Pins.
Context `{FieldSealer} (X : PublishContext) (unmarshal : bytes -> result (option Contract)).   (* json.Unmarshal of a parameter contract *)

Definition decodeParameterContract (raw : bytes) : result Contract :=
  match unmarshal raw with
  | Err e => Err (EWrap "service: invalid stored parameter contract" e)
  | Panic p => Panic p
  | Ok None => Err (ENew "service: stored parameter contract must be an object")
  | Ok (Some c) =>
      if negb (ct_Version c =? 0) && negb (ct_Version c =? 1) then Err (ENew "service: unsupported parameter contract version")
      else if negb (ct_Version c =? 1) && negb (bool_decide (ct_Declarations c = ∅ /\ ct_Schemas c = ∅)) then Err (ENew "service: nonempty parameter contract requires version 1")
      else Ok c
  end.

Fixpoint pinnedCells (entries : gmap string SnapshotEntry) (keys : list CatalogueRow) : result (list resolvedCell) :=
  match keys with
  | [] => Ok []
  | key :: rest =>
      cell ← match entries !! key.1 with
             | Some e => plain ← openSnapshotEntry X e; Ok (MkCell key true plain "" false)
             | None => Ok (MkCell key false [] "" false)
             end;
      cells ← pinnedCells entries rest;
      Ok (cell :: cells)
  end.
Definition validatePinnedSnapshot (env : string) (snapshot : Snapshot) (s : Pub) : result () :=
  let keys := cat_keys (pb_cat s) in
  entries ← Entries env snapshot s;
  contract ← decodeParameterContract (sn_ParameterContract snapshot);
  _ ← validateSnapshotEntryKeys keys entries;
  cells ← pinnedCells (targetByKey entries) keys;
  index ← newGroupIndex keys (cat_presence (pb_cat s));
  validateResolvedPublish (px_schema X) index cells env (ct_Declarations contract).

(** Secret in the snapshot, in its lineage, or in the catalogue now. *)
Definition pinnedHistoricalSecrets (env : string) (snapshot : Snapshot) (s : Pub) : result (list SnapshotEntry) :=
  let classification := list_to_map (M := gmap string CatalogueKey) (reverse (cat_keys (pb_cat s))) in
  entries ← Entries env snapshot s;
  let sticky := stickySecretValueEntries env (map se_ValueEntryID entries) s in
  Ok (List.filter (fun e => (se_Classification e =s Secret) || bool_decide (se_ValueEntryID e ∈ sticky) ||
                            match classification !! se_KeyID e with Some k => ca_Classification k =s Secret | None => false end) entries).

Definition auditSnapshotDisclosure (surface : string) (revision : Z) (e : SnapshotEntry) : AuditEntry :=
  (EventValueRevealed, MkObject "key" (se_KeyID e),
    [("key_id", VString (se_KeyID e)); ("name", text (se_KeyName e)); ("surface", VString surface); ("revision", VInt64 revision)]).

Abbreviation org := (px_org X).
Abbreviation project := (px_project X).

(** [""] when the expiry is acceptable. *)
Definition expiryCause (now expiresAt : Z) : string :=
  if negb (now <? expiresAt) then "not-future" else if now + MaxPinLifetime <? expiresAt then "beyond-maximum" else "".
Definition expiryRefusal (cause : string) : error :=
  invalidDetail (if cause =s "not-future" then "pin expiry must be in the future" else "pin expiry exceeds the maximum " +:+ pretty MaxPinLifetimeDays +:+ " days").

Definition expiryRefused (env workload : string) (expiresAt : Z) (cause : string) : AuditEntry :=
  (EventPinExpiryRefused, MkObject "environment" env,
    [("workload_principal_id", VString workload); ("requested_expires_at", VString (px_formatTime X expiresAt)); ("max_days", VInt MaxPinLifetimeDays); ("cause", VString cause)]).
Definition pinEvent (event : EventType) (env : string) (pin : RevisionPin) : AuditEntry :=
  (event, MkObject "environment" env,
    [("workload_principal_id", VString (pn_WorkloadPrincipalID pin)); ("revision", VInt64 (pn_Revision pin)); ("expires_at", VString (px_formatTime X (pn_ExpiresAt pin)));
     ("schema_override", VBool (pn_SchemaOverride pin)); ("history_authorized", VBool (pn_HistoryAuthorized pin))]).

(** The gate of a revision that is not the latest: reveal authority and one
    ceremony over the secrets it would deliver. *)
Definition historyGate (env : string) (target : Snapshot) (s : Pub) : result (list SnapshotEntry) :=
  _ ← px_authorize X OpPinSetHistory env;
  secrets ← pinnedHistoricalSecrets env target s;
  _ ← px_ceremony X PurposeReveal env (map se_KeyID secrets);
  Ok secrets.

(** Whether the pin overrides the current schema, or what refuses it. A renewal
    keeps delivering and only surfaces the drift. *)
Definition schemaVerdict (renewing override : bool) (validation : result ()) : result (error + bool) :=
  match validation with
  | Ok _ => Ok (inr false)
  | Panic p => Panic p
  | Err e => if negb (errors_Is e "domain.ErrInvalid") then Err e else if renewing || override then Ok (inr true) else Ok (inl e)
  end.

Definition pinAction (existing : option RevisionPin) (target : Snapshot) : PinAction :=
  match existing with
  | None => PinCreated
  | Some p => if pn_Revision p =? sn_Revision target then PinRenewed else PinReassigned
  end.
Definition pinActionEvent (a : PinAction) : EventType :=
  match a with PinCreated => EventPinCreated | PinReassigned => EventPinReassigned | PinRenewed => EventPinRenewed end.
(** A renewal keeps its identity and its creation time. *)
Definition pinIdentity (existing : option RevisionPin) (target : Snapshot) (id : string) (now : Z) : string * Z :=
  match existing with
  | Some p => if pn_Revision p =? sn_Revision target then (pn_ID p, pn_CreatedAt p) else (id, now)
  | None => (id, now)
  end.

(** The write of an admitted pin, and the read of its release consequence. *)
Definition storePin (env : string) (existing : option RevisionPin) (target : Snapshot) (workload : string) (now expiresAt : Z) (historyGated schemaOverride : bool) : ST Inst SetPinResult :=
  id ← onPub org project (newID "pin");
  let '(id, createdAt) := pinIdentity existing target id now in
  i ← st_get;
  st_result (match existing with
             | Some _ => Ok ()
             | None => if PinQuotaPerProject <=? CountProject org project i then Err (invalidDetail "pin quota 100 per project is exhausted") else Ok ()
             end) ;;
  deleted ← (match existing with Some _ => Pins_Delete org project env workload | None => mret true end);
  if negb deleted then st_err ErrNotFound
  else
    let pin := MkPin id env workload (sn_ID target) (sn_Revision target) (px_principal X) expiresAt createdAt now historyGated schemaOverride in
    Pins_Insert org project env pin ;;
    i ← st_get;
    SetPinGeneration workload env (PinGeneration workload env i + 1) ;;
    insertTenantOf org project (pinEvent (pinActionEvent (pinAction existing target)) env pin) ;;
    i ← st_get;
    st ← st_result (wrapped "service: compute created pin release consequence" (loadPinRetentionState org project env i));
    match List.find (fun p => pn_ID p =s pn_ID pin) (ps_pins st) with
    | None => st_err (EWrap "service: created pin missing from release consequence read" ErrNotFound)
    | Some listed => c ← st_result (wrapped "service: compute created pin release consequence" (consequence st (pn_SnapshotID listed) (pn_ID listed) now)); mret (MkSetPinResult (pinAction existing target) (pinView listed now c))
    end.

Definition setPinBody (env : string) (rq : SetPinRequest) (now expiresAt : Z) : ST Inst (error + SetPinResult) :=
  let workload := sp_WorkloadPrincipalID rq in
  st_result (px_authorize X OpPinSet env) ;;
  i ← st_get;
  s ← st_result (pubOf org project i);
  if negb (expiryCause now expiresAt =s "")
  then insertTenantOf org project (expiryRefused env workload expiresAt (expiryCause now expiresAt)) ;; mret (inl (expiryRefusal (expiryCause now expiresAt)))
  else
    account ← st_result (wrapped "service: resolve pin workload" (ServiceAccountByPrincipal workload i));
    if negb (bool_decide (sa_Kind account = ClassWorkload)) || negb (sa_Org account =s org) || negb (sa_Project account =s project) then st_err ErrNotFound
    else
      let existing := GetForWorkload org project env workload i in
      latest ← st_result (Latest env s);
      target ← st_result (AtRevision env (sp_Revision rq) s);
      if negb (PayloadPresent target) then st_err collectedRevisionError
      else
        let renewing := match existing with Some p => pn_Revision p =? sn_Revision target | None => false end in
        let historyGated := negb (sn_Revision target =? sn_Revision latest) in
        secrets ← st_result (if historyGated then historyGate env target s else Ok []);
        verdict ← st_result (schemaVerdict renewing (sp_OverrideSchema rq) (validatePinnedSnapshot env target s));
        st_modify (fun i => foldl (fun i e => (insertTenantOf org project (auditSnapshotDisclosure "pin" (sn_Revision target) e) i).2) i secrets) ;;
        match verdict with
        | inl refusal => mret (inl refusal)
        | inr schemaOverride => out ← storePin env existing target workload now expiresAt historyGated schemaOverride; mret (inr out)
        end.

Definition Pins_Set (env : string) (rq : SetPinRequest) : ST Inst SetPinResult :=
  if env =s "" then st_err (EWrap "a pin addresses an environment" ErrInvalid)
  else if sp_WorkloadPrincipalID rq =s "" then st_err (invalidDetail "pin workload principal is required")
  else if sp_Revision rq <=? 0 then st_err (invalidDetail "pin revision must be positive")
  else
    let now := CanonTime (px_now X) in
    let expiresAt := CanonTime (default (now + DefaultPinLifetime) (sp_ExpiresAt rq)) in
    st_result (px_authorize X OpPinSet env) ;;
    outcome ← write (setPinBody env rq now expiresAt);
    match outcome with inl refusal => st_err refusal | inr out => mret out end.

Fixpoint pinViews (st : pinRetentionState) (now : Z) (pins : list RevisionPin) : result (list PinView) :=
  match pins with
  | [] => Ok []
  | pin :: rest =>
      c ← wrapped "service: compute pin release consequence" (consequence st (pn_SnapshotID pin) (pn_ID pin) now);
      out ← pinViews st now rest;
      Ok (pinView pin now c :: out)
  end.
Definition Pins_ListViews (env : string) (i : Inst) : result (list PinView) :=
  _ ← px_authorize X OpPinList env;
  st ← loadPinRetentionState org project env i;
  pinViews st (px_now X) (ps_pins st).

Definition releasedEvent (env workload : string) (revision : Z) : AuditEntry :=
  (EventPinReleased, MkObject "environment" env, [("workload_principal_id", VString workload); ("revision", VInt64 revision)]).

Definition releaseBody (env workload : string) : ST Inst ReleasePinResult :=
  st_result (px_authorize X OpPinRelease env) ;;
  i ← st_get;
  st_result (match in_orgs i !! org with Some _ => Ok () | None => Err (EWrap "service: lock released pin org" ErrNotFound) end) ;;
  st_result (match in_projects i !! (org, project) with Some _ => Ok () | None => Err (EWrap "service: lock released pin project" ErrNotFound) end) ;;
  pin ← st_result (match GetForWorkload org project env workload i with Some p => Ok p | None => Err (EWrap "service: resolve released pin" ErrNotFound) end);
  deleted ← Pins_Delete org project env workload;
  if negb deleted then st_err (EWrap "service: delete released pin" ErrNotFound)
  else
    i ← st_get;
    st_result (if existsb (fun r => (sw_org r =s org) && (sw_project r =s project) && (sw_env r =s env) && (sn_ID (sw_snapshot r) =s pn_SnapshotID pin)) (snapshotRows i)
               then Ok () else Err (EWrap "service: lock released pin snapshot" ErrNotFound)) ;;
    let now := CanonTime (px_now X) in
    st ← st_result (wrapped "service: load released pin retention state" (loadPinRetentionState org project env i));
    c ← st_result (wrapped "service: released pin retention consequence" (consequence st (pn_SnapshotID pin) (pn_ID pin) now));
    SetPinGeneration workload env (PinGeneration workload env i + 1) ;;
    insertTenantOf org project (releasedEvent env workload (pn_Revision pin)) ;;
    mret (MkRelease (pn_Revision pin) c).
Definition Pins_Release (env workload : string) : ST Inst ReleasePinResult :=
  if workload =s "" then st_err (invalidDetail "pin workload principal is required") else write (releaseBody env workload).
End Pins.
