(* ===== verification/RetentionSpec.v ===== *)
(** * What retention promises

    The sweep collects a payload only past both bounds of its policy and when
    nothing holds it, collects all of those, and leaves the publishing invariant
    of every project standing; a live pin holds its revision; the consequence a
    release reports is what the sweep would do; overrides stay under the cap. *)

From S2P Require Import Prelude Domain EventNames OperationNames Utf8 GoStrings Schema AuditEvent Parameters Envelope KeyTables Definitions DefinitionsSpec DefinitionsStore DefinitionsApply Delivery PublishStore GroupIndex Materialize Selection Approvals Publish Voting PublishReads PublishSteps PublishInvariant PublishMaterialize PublishEffect PublishStage PublishGate PublishCommit PublishClaims PublishRun Retention.

#[local] Open Scope Z_scope.

(** ** Rows by address *)
Lemma snapshotRows_In i r : In r (snapshotRows i) <-> in_projects i !! (sw_org r, sw_project r) = Some (sw_row r) /\
  pb_snapshots (pj_pub (sw_row r)) !! (sw_env r, sw_revision r) = Some (sw_snapshot r).
Proof.
  unfold snapshotRows, projectSnapshots. rewrite in_flat_map. split.
  - intros ([[o p] row] & Hk & (([e v] & s) & <- & Hs)%in_map_iff). apply list_elem_of_In, elem_of_map_to_list in Hk, Hs. done.
  - intros [Hk Hs]. exists (sw_org r, sw_project r, sw_row r). split; [by apply list_elem_of_In, elem_of_map_to_list|].
    apply in_map_iff. exists (sw_env r, sw_revision r, sw_snapshot r). split; [by destruct r|by apply list_elem_of_In, elem_of_map_to_list].
Qed.

Definition address : Type := string * string * (string * Z).
Definition addressOf (r : snapshotRow) : address := (sw_org r, sw_project r, (sw_env r, sw_revision r)).

Lemma addresses_NoDup i : NoDup (map addressOf (snapshotRows i)).
Proof.
  unfold snapshotRows. pose proof (NoDup_map_to_list (in_projects i)) as Hnd. pose proof (NoDup_fst_map_to_list (in_projects i)) as Hfst.
  induction (map_to_list (in_projects i)) as [|[[o p] row] l IH]; [constructor|]. cbn [flat_map]. rewrite map_app. apply NoDup_app. apply NoDup_cons in Hnd as [_ Hnd].
  rewrite fmap_cons in Hfst. apply NoDup_cons in Hfst as [Hout Hfst]. split_and!; [| |by apply IH].
  - unfold projectSnapshots. rewrite map_map. unfold addressOf. cbn. pose proof (NoDup_fst_map_to_list (pb_snapshots (pj_pub row))) as Hs.
    induction (map_to_list (pb_snapshots (pj_pub row))) as [|[[e v] s] m IHm]; [constructor|]. cbn in *. apply NoDup_cons in Hs as [Hno Hs]. constructor; [|by apply IHm].
    intros ([[e' v'] s'] & [= -> ->] & Hin%list_elem_of_In)%list_elem_of_In%in_map_iff. apply Hno. by apply (list_elem_of_fmap_2 fst) in Hin.
  - intros a ([? ? ? ? ? ?] & <- & (([? ?] & ?) & [= <- <- <- <- <- <-] & _)%in_map_iff)%list_elem_of_In%in_map_iff (r & Ha & ([[o' p'] row'] & Hin & (([? ?] & ?) & <- & _)%in_map_iff)%in_flat_map)%list_elem_of_In%in_map_iff.
    cbn in Ha. injection Ha as -> -> _ _. apply Hout. apply list_elem_of_In in Hin. by apply (list_elem_of_fmap_2 fst) in Hin.
Qed.

Lemma selfRetained_false i id : selfRetained i id = false <-> forall slot, in_selfConfig i !! slot <> Some id.
Proof.
  unfold selfRetained. rewrite <- not_true_iff_false, existsb_exists. split.
  - intros Hno slot Hs. apply Hno. exists (slot, id). split; [by apply list_elem_of_In, elem_of_map_to_list|apply String.eqb_refl].
  - intros Hno ([slot id'] & Hin & Heq). cbn in Heq. apply String.eqb_eq in Heq as ->. apply list_elem_of_In, elem_of_map_to_list in Hin. by apply (Hno slot).
Qed.
Lemma livePin_false i now id : livePin i now id = false <-> forall k pin, in_pins i !! k = Some pin -> pn_SnapshotID pin = id -> pn_ExpiresAt pin <= now.
Proof.
  unfold livePin. rewrite <- not_true_iff_false, existsb_exists. split.
  - intros Hno k pin Hk Hid. destruct (Z.ltb_spec now (pn_ExpiresAt pin)) as [Hlt|]; [|lia]. exfalso. apply Hno. exists (k, pin).
    split; [by apply list_elem_of_In, elem_of_map_to_list|]. cbn. rewrite Hid, String.eqb_refl. by apply Z.ltb_lt in Hlt as ->.
  - intros Hno ([k pin] & Hin & [Hid%String.eqb_eq Hlt%Z.ltb_lt]%andb_true_iff). apply list_elem_of_In, elem_of_map_to_list in Hin. specialize (Hno _ _ Hin Hid). cbn in Hlt. lia.
Qed.

(** ** When a payload may go

    Past both bounds of a bounded policy, present, and held by no self-configuration
    slot and no pin that lives at the instant. *)
Record due (i : Inst) (t : Z) (a : address) (sn : Snapshot) (policy : RetentionPolicy) : Prop := {
  du_org : exists o row, in_orgs i !! a.1.1 = Some o /\ in_projects i !! a.1 = Some row /\ policy = effectivePolicy o row /\
             pb_snapshots (pj_pub row) !! a.2 = Some sn /\ rp_LastRevisions policy < newestRank a.2.1 a.2.2 (pj_pub row);
  du_bounded : rp_Unlimited policy = false;
  du_old : sn_PublishedAt sn < t - rp_MaxAge policy;
  du_present : sn_Collected sn = None;
  du_selfConfig : forall slot, in_selfConfig i !! slot <> Some (sn_ID sn);
  du_unpinned : forall k pin, in_pins i !! k = Some pin -> pn_SnapshotID pin = sn_ID sn -> pn_ExpiresAt pin <= t }.

Definition gcAddress (c : GCEligibleSnapshot) : address := (gc_OrgID c, gc_ProjectID c, (gc_EnvironmentID c, gc_Revision c)).
Definition isCandidate (i : Inst) (t : Z) (c : GCEligibleSnapshot) : Prop :=
  exists sn, due i t (gcAddress c) sn (gc_Policy c) /\ gc_ID c = sn_ID sn.

Lemma unheld_spec i t sn : unheld i t sn = true <-> sn_Collected sn = None /\ (forall slot, in_selfConfig i !! slot <> Some (sn_ID sn)) /\
  (forall k pin, in_pins i !! k = Some pin -> pn_SnapshotID pin = sn_ID sn -> pn_ExpiresAt pin <= t).
Proof.
  unfold unheld, PayloadPresent. rewrite !andb_true_iff, !negb_true_iff, selfRetained_false, livePin_false. destruct (sn_Collected sn); intuition discriminate.
Qed.

Lemma candidate_spec i t c : (exists r, In r (snapshotRows i) /\ candidate i t r = Some c) <-> isCandidate i t c.
Proof.
  unfold candidate. split.
  - intros (r & (Hp & Hs)%snapshotRows_In & Hc). destruct (in_orgs i !! sw_org r) as [o|] eqn:Ho; [|discriminate].
    destruct (expired t _ r && unheld i t (sw_snapshot r)) eqn:Hg; [|discriminate]. injection Hc as <-. apply andb_true_iff in Hg as [He (Hc & Hself & Hpin)%unheld_spec].
    unfold expired in He. apply andb_true_iff in He as [[Hu%negb_true_iff Ha%Z.ltb_lt]%andb_true_iff Hr%Z.ltb_lt].
    exists (sw_snapshot r). split; [|done]. assert (MkRetention false (rp_MaxAge (effectivePolicy o (sw_row r))) (rp_LastRevisions (effectivePolicy o (sw_row r))) = effectivePolicy o (sw_row r)) as Heq
      by (rewrite <- Hu; by destruct (effectivePolicy o (sw_row r))). cbn [gc_Policy]. rewrite Heq. split; try done. by exists o, (sw_row r).
  - intros (sn & [(o & row & Ho & Hp & Hpol & Hs & Hr) Hu Ha Hpres Hself Hpin] & Hid). destruct c as [cid co cp ce cr cpol]. cbn in *.
    exists (MkSnapshotRow co cp row ce cr sn). split; [by apply snapshotRows_In|]. cbn. rewrite Ho, <- Hpol. unfold expired. cbn.
    rewrite Hu. apply Z.ltb_lt in Ha as ->, Hr as ->. cbn. assert (unheld i t sn = true) as -> by (by apply unheld_spec). rewrite Hid. repeat f_equal. rewrite <- Hu. by destruct cpol.
Qed.

Lemma omap_In {A B} (f : A -> option B) l b : In b (omap f l) <-> exists a, In a l /\ f a = Some b.
Proof. rewrite <- list_elem_of_In, list_elem_of_omap. by setoid_rewrite list_elem_of_In. Qed.

Lemma Eligible_sound t n i c : In c (Eligible t n i) -> isCandidate i t c.
Proof.
  unfold Eligible. intros Hin. apply list_elem_of_In, subseteq_take, list_elem_of_In, (Permutation_in _ (isort_perm _ _)), omap_In in Hin. by apply candidate_spec.
Qed.
Lemma Eligible_complete t n i c : (length (Eligible t n i) < n)%nat -> isCandidate i t c -> In c (Eligible t n i).
Proof.
  unfold Eligible. rewrite length_firstn. intros Hl Hc. rewrite firstn_all2 by lia. apply (Permutation_in _ (Permutation_sym (isort_perm _ _))), omap_In. by apply candidate_spec.
Qed.

Lemma candidate_address i t r c : candidate i t r = Some c -> gcAddress c = addressOf r.
Proof. unfold candidate. destruct (in_orgs i !! _); [|discriminate]. destruct (_ && _); [|discriminate]. by intros [= <-]. Qed.
Lemma Eligible_NoDup t n i : NoDup (map gcAddress (Eligible t n i)).
Proof.
  unfold Eligible. rewrite <- firstn_map. eapply sublist_NoDup; [|apply sublist_take]. rewrite (Permutation_map _ (isort_perm _ _)).
  pose proof (addresses_NoDup i) as Hnd. induction (snapshotRows i) as [|r l IH]; [constructor|]. cbn in *. apply NoDup_cons in Hnd as [Hno Hnd].
  destruct (candidate i t r) as [c|] eqn:Hc; [|by apply IH]. cbn. constructor; [|by apply IH]. apply candidate_address in Hc as ->.
  intros (c' & Ha & (r' & Hr' & Hc')%omap_In)%list_elem_of_In%in_map_iff. apply candidate_address in Hc'. apply Hno. rewrite <- Ha, Hc'. by apply list_elem_of_In, in_map.
Qed.

(** ** The instance's constraints

    The CHECKs on the retention columns, the foreign keys of projects, snapshots,
    entries and pins, and the primary keys of snapshots and pins. *)
Record inst_ok (i : Inst) : Prop := {
  io_orgs : forall o r, in_orgs i !! o = Some r -> o <> "" /\ 0 < og_age r /\ 0 < og_count r /\ (og_mode r = "keep-if-either" \/ og_mode r = "unlimited");
  io_overrides : forall k row a c, in_projects i !! k = Some row -> pj_retention row = Some (a, c) -> 0 < a /\ 0 < c;
  io_chain : forall k row, in_projects i !! k = Some row -> is_Some (in_orgs i !! k.1);
  io_ids : forall k k' row row' c c' sn sn', in_projects i !! k = Some row -> in_projects i !! k' = Some row' ->
     pb_snapshots (pj_pub row) !! c = Some sn -> pb_snapshots (pj_pub row') !! c' = Some sn' -> sn_ID sn = sn_ID sn' -> k = k' /\ c = c';
  io_envs : forall k row c sn, in_projects i !! k = Some row -> pb_snapshots (pj_pub row) !! c = Some sn -> envExists (pj_pub row) c.1 = true;
  io_entries : forall k row sid key e, in_projects i !! k = Some row -> pb_entries (pj_pub row) !! (sid, key) = Some e ->
     exists c sn, pb_snapshots (pj_pub row) !! c = Some sn /\ sn_ID sn = sid;
  io_rows : forall k row, in_projects i !! k = Some row -> snapshot_rows (pj_pub row);
  io_pins : forall o p e w pin, in_pins i !! (o, p, e, w) = Some pin -> pn_WorkloadPrincipalID pin = w /\
     exists row rev sn, in_projects i !! (o, p) = Some row /\ pb_snapshots (pj_pub row) !! (e, rev) = Some sn /\ sn_ID sn = pn_SnapshotID pin;
  io_pinIDs : forall k k' pin pin', in_pins i !! k = Some pin -> in_pins i !! k' = Some pin' -> pn_ID pin = pn_ID pin' -> k = k' }.

Definition snapAt (i : Inst) (a : address) : option Snapshot := in_projects i !! a.1 ≫= fun row => pb_snapshots (pj_pub row) !! a.2.
Lemma snapAt_Some i a sn : snapAt i a = Some sn <-> exists row, in_projects i !! a.1 = Some row /\ pb_snapshots (pj_pub row) !! a.2 = Some sn.
Proof. unfold snapAt. rewrite bind_Some. done. Qed.

Definition collected (t : Z) (policy : string) (s : Snapshot) : Snapshot :=
  MkSnapshot (sn_ID s) (sn_EnvironmentID s) (sn_Revision s) (sn_SchemaRevision s) (sn_ParameterContract s) (sn_PublishedBy s) (sn_PublishedAt s) (Some (t, policy)).

(** A project's rows across a sweep: a due payload may be collected, with every
    one of its entries; nothing else moves but the trail. *)
Record pub_swept (gone : Z -> string * Z -> Snapshot -> RetentionPolicy -> Prop) (p p' : Pub) : Prop := {
  pw_cat : pb_cat p' = pb_cat p;
  pw_values : pb_values p' = pb_values p;
  pw_pending : pb_pending p' = pb_pending p;
  pw_changes : pb_changes p' = pb_changes p;
  pw_occurrences : pb_occurrences p' = pb_occurrences p;
  pw_gate : pb_gate p' = pb_gate p;
  pw_uuids : pb_uuids p' = pb_uuids p;
  pw_rnd : pb_rnd p' = pb_rnd p;
  pw_audit : exists l, pb_audit p' = pb_audit p ++ l;
  pw_snapshots : forall c, pb_snapshots p' !! c = pb_snapshots p !! c \/
     exists sn t policy, pb_snapshots p !! c = Some sn /\ gone t c sn policy /\ sn_Collected sn = None /\
       pb_snapshots p' !! c = Some (collected t (formatRetentionPolicy policy) sn);
  pw_entriesGone : forall c sn key, pb_snapshots p !! c = Some sn -> pb_snapshots p' !! c <> Some sn -> pb_entries p' !! (sn_ID sn, key) = None;
  pw_entriesKept : forall c sn key, pb_snapshots p !! c = Some sn -> pb_snapshots p' !! c = Some sn -> pb_entries p' !! (sn_ID sn, key) = pb_entries p !! (sn_ID sn, key);
  pw_entriesLess : forall c e, pb_entries p' !! c = Some e -> pb_entries p !! c = Some e }.

(** An instance across a sweep at the instants of [T]; [due] is judged against
    the instance before. *)
Definition gone (T : Z -> Prop) (i : Inst) (k : string * string) (t : Z) (c : string * Z) (sn : Snapshot) (policy : RetentionPolicy) : Prop := T t /\ due i t (k, c) sn policy.
Record swept (T : Z -> Prop) (i i' : Inst) : Prop := {
  sp_orgs : in_orgs i' = in_orgs i;
  sp_pins : in_pins i' = in_pins i;
  sp_selfConfig : in_selfConfig i' = in_selfConfig i;
  sp_generations : in_pinGenerations i' = in_pinGenerations i;
  sp_accounts : in_serviceAccounts i' = in_serviceAccounts i;
  sp_orgAudit : in_orgAudit i' = in_orgAudit i;
  sp_plans : forall id row, in_plans i' !! id = Some row -> in_plans i !! id = Some row;
  sp_projects : forall k, match in_projects i !! k, in_projects i' !! k with
     | Some row, Some row' => pj_name row' = pj_name row /\ pj_retention row' = pj_retention row /\ pub_swept (gone T i k) (pj_pub row) (pj_pub row')
     | None, None => True
     | _, _ => False
     end }.

Lemma swept_project T i i' k row' : swept T i i' -> in_projects i' !! k = Some row' ->
  exists row, in_projects i !! k = Some row /\ pj_name row' = pj_name row /\ pj_retention row' = pj_retention row /\ pub_swept (gone T i k) (pj_pub row) (pj_pub row').
Proof. intros [_ _ _ _ _ _ _ Hp] Hk. specialize (Hp k). rewrite Hk in Hp. destruct (in_projects i !! k) as [row|]; [|done]. by exists row. Qed.
Lemma swept_project_fwd T i i' k row : swept T i i' -> in_projects i !! k = Some row ->
  exists row', in_projects i' !! k = Some row' /\ pj_name row' = pj_name row /\ pj_retention row' = pj_retention row /\ pub_swept (gone T i k) (pj_pub row) (pj_pub row').
Proof. intros [_ _ _ _ _ _ _ Hp] Hk. specialize (Hp k). rewrite Hk in Hp. destruct (in_projects i' !! k) as [row'|]; [|done]. by exists row'. Qed.

Section PubSwept.
Context {g : Z -> string * Z -> Snapshot -> RetentionPolicy -> Prop} {p p' : Pub} (Hs : pub_swept g p p').

Lemma swept_snapshot c sn' : pb_snapshots p' !! c = Some sn' -> exists sn, pb_snapshots p !! c = Some sn /\ sn_ID sn' = sn_ID sn /\ sn_EnvironmentID sn' = sn_EnvironmentID sn /\
  sn_Revision sn' = sn_Revision sn /\ (sn_Collected sn' = None -> sn' = sn).
Proof.
  intros Hc. destruct (pw_snapshots _ _ _ Hs c) as [Heq|(sn & t & pol & Hsn & _ & _ & Heq)].
  - exists sn'. by rewrite <- Heq.
  - exists sn. rewrite Hc in Heq. injection Heq as ->. done.
Qed.
Lemma swept_snapshot_fwd c sn : pb_snapshots p !! c = Some sn -> exists sn', pb_snapshots p' !! c = Some sn' /\ sn_ID sn' = sn_ID sn /\ (sn_Collected sn <> None -> sn' = sn).
Proof.
  intros Hc. destruct (pw_snapshots _ _ _ Hs c) as [Heq|(sn0 & t & pol & Hsn & _ & Hn & Heq)].
  - exists sn. by rewrite Heq.
  - rewrite Hc in Hsn. injection Hsn as <-. eexists. split; [exact Heq|]. done.
Qed.
Lemma swept_is_Some c : is_Some (pb_snapshots p' !! c) <-> is_Some (pb_snapshots p !! c).
Proof. split; intros [sn Hsn]; [apply swept_snapshot in Hsn as (? & ? & _)|apply swept_snapshot_fwd in Hsn as (? & ? & _)]; by eexists. Qed.
Lemma swept_latest env : latestRevision env p' = latestRevision env p.
Proof. apply latestRevision_ext. intros r. apply swept_is_Some. Qed.
End PubSwept.

(** ** Ranks *)
Lemma revisionsOf_NoDup env s : NoDup (revisionsOf env s).
Proof.
  unfold revisionsOf. pose proof (NoDup_fst_map_to_list (pb_snapshots s)) as Hs. induction (map_to_list (pb_snapshots s)) as [|[[e r] row] l IH]; [constructor|].
  cbn in *. apply NoDup_cons in Hs as [Hno Hs]. destruct (String.eqb_spec e env) as [->|]; [|by apply IH]. cbn. constructor; [|by apply IH].
  intros ([[e' r'] row'] & Hr & [Hin He]%filter_In)%list_elem_of_In%in_map_iff. cbn in *. subst r'. apply String.eqb_eq in He as ->. apply Hno.
  apply list_elem_of_In in Hin. by apply (list_elem_of_fmap_2 fst) in Hin.
Qed.

Lemma newestRank_ext env r s s' : (forall r, is_Some (pb_snapshots s !! (env, r)) <-> is_Some (pb_snapshots s' !! (env, r))) -> newestRank env r s = newestRank env r s'.
Proof.
  intros Heq. unfold newestRank. f_equal. apply Permutation_length. apply NoDup_Permutation.
  1, 2: apply NoDup_ListNoDup, List.NoDup_filter, NoDup_ListNoDup, revisionsOf_NoDup.
  intros x. by rewrite !list_elem_of_In, !filter_In, !revisionsOf_In, Heq.
Qed.

Lemma swept_rank {g p p'} (Hs : pub_swept g p p') env r : newestRank env r p' = newestRank env r p.
Proof. apply newestRank_ext. intros v. apply (swept_is_Some Hs). Qed.

(** The newest revision has rank one. *)
Lemma newestRank_latest env s : newestRank env (latestRevision env s) s <= 1.
Proof.
  unfold newestRank. pose proof (revisionsOf_NoDup env s) as Hnd. set (l := List.filter _ _).
  assert (NoDup l) as Hl by (apply NoDup_ListNoDup, List.NoDup_filter, NoDup_ListNoDup, Hnd).
  assert (forall x, In x l -> x = latestRevision env s) as Hall.
  { intros x [Hin Hle%Z.leb_le]%filter_In. pose proof (foldr_max_bound _ _ Hin) as Hb. unfold latestRevision in *. lia. }
  destruct l as [|x [|y rest]]; cbn; [lia..|]. exfalso. apply NoDup_cons in Hl as [Hno _]. apply Hno. rewrite (Hall x), (Hall y) by (cbn; tauto). by left.
Qed.

(** ** Composition *)
Lemma swept_refl T i : swept T i i.
Proof.
  split; try done. intros k. destruct (in_projects i !! k) as [row|]; [|done]. split_and!; [done..|]. split; try done.
  - exists []. by rewrite app_nil_r.
  - by left.
Qed.

Lemma due_before T i i' t a sn policy : swept T i i' -> due i' t a sn policy -> due i t a sn policy.
Proof.
  intros Hsw [(o & row' & Ho & Hp & -> & Hs & Hr) Hb Hold Hpres Hself Hpin]. destruct (swept_project _ _ _ _ _ Hsw Hp) as (row & Hrow & _ & Hret & Hps).
  assert (effectivePolicy o row' = effectivePolicy o row) as Heq by (unfold effectivePolicy; by rewrite Hret). rewrite Heq in *.
  destruct (swept_snapshot Hps _ _ Hs) as (sn0 & Hs0 & _ & _ & _ & Hsame). specialize (Hsame Hpres) as <-. split; try done.
  - exists o, row. rewrite (sp_orgs _ _ _ Hsw) in Ho. split_and!; try done. by rewrite <- (swept_rank Hps).
  - intros slot. rewrite <- (sp_selfConfig _ _ _ Hsw). apply Hself.
  - intros k pin. rewrite <- (sp_pins _ _ _ Hsw). apply Hpin.
Qed.

Lemma due_after T i i' t a sn policy : swept T i i' -> snapAt i' a = Some sn -> due i t a sn policy -> due i' t a sn policy.
Proof.
  intros Hsw (row' & Hp' & Hs')%snapAt_Some [(o & row & Ho & Hp & -> & Hs & Hr) Hb Hold Hpres Hself Hpin].
  destruct (swept_project _ _ _ _ _ Hsw Hp') as (row0 & Hrow & _ & Hret & Hps). rewrite Hp in Hrow. injection Hrow as <-. split; try done.
  - exists o, row'. rewrite (sp_orgs _ _ _ Hsw). split_and!; try done; [unfold effectivePolicy; by rewrite Hret|]. by rewrite (swept_rank Hps).
  - intros slot. rewrite (sp_selfConfig _ _ _ Hsw). apply Hself.
  - intros k pin. rewrite (sp_pins _ _ _ Hsw). apply Hpin.
Qed.

Lemma pub_swept_trans (g g' : Z -> string * Z -> Snapshot -> RetentionPolicy -> Prop) p p' p'' :
  (forall t c sn policy, g' t c sn policy -> g t c sn policy) -> pub_swept g p p' -> pub_swept g' p' p'' -> pub_swept g p p''.
Proof.
  intros Hg H1 H2. pose proof H1 as [C1 V1 P1 Ch1 O1 G1 U1 R1 [l1 A1] S1 Eg1 Ek1 El1]. pose proof H2 as [C2 V2 P2 Ch2 O2 G2 U2 R2 [l2 A2] S2 Eg2 Ek2 El2].
  split; try congruence.
  - exists (l1 ++ l2). by rewrite A2, A1, app_assoc.
  - intros c. destruct (S2 c) as [->|(sn & t & pol & Hsn & Hgone & Hn & ->)]; [apply S1|]. right. destruct (S1 c) as [Heq|(sn0 & t0 & pol0 & Hsn0 & Hgone0 & Hn0 & Heq)].
    + exists sn, t, pol. rewrite <- Heq. split_and!; [done|by apply Hg|done|done].
    + rewrite Heq in Hsn. injection Hsn as <-. done.
  - intros c sn key Hsn Hne. destruct (swept_snapshot_fwd H1 _ _ Hsn) as (sn' & Hsn' & Hid & _).
    assert (pb_snapshots p' !! c = Some sn \/ pb_snapshots p' !! c <> Some sn) as [Heq|Hne'].
    { destruct (S1 c) as [Heq|(sn0 & t0 & pol0 & Hsn0 & _ & Hn0 & Heq)]; rewrite Heq; [by left|right; rewrite Hsn in Hsn0; injection Hsn0 as <-; intros [= Hc]; rewrite <- Hc in Hn0; done]. }
    + rewrite Hsn' in Heq. injection Heq as ->. by eapply Eg2.
    + specialize (Eg1 _ _ key Hsn Hne'). destruct (pb_entries p'' !! _) as [e|] eqn:He; [|done]. apply El2 in He. congruence.
  - intros c sn key Hsn Hsn''. assert (pb_snapshots p' !! c = Some sn) as Hsn'.
    { destruct (S1 c) as [->|(sn0 & t0 & pol0 & Hsn0 & _ & Hn0 & Heq)]; [done|]. rewrite Hsn in Hsn0. injection Hsn0 as <-. exfalso.
      destruct (swept_snapshot H2 _ _ Hsn'') as (sn' & Hsn' & _ & _ & _ & Hsame). rewrite Heq in Hsn'. injection Hsn' as <-. specialize (Hsame Hn0).
      rewrite Hsame in Hn0. done. }
    rewrite (Ek2 _ _ key Hsn' Hsn''). by eapply Ek1.
  - intros c e He%El2. by apply El1.
Qed.

Lemma swept_trans T i i' i'' : swept T i i' -> swept T i' i'' -> swept T i i''.
Proof.
  intros H1 H2. pose proof H1 as [O1 P1 S1 G1 A1 Oa1 Pl1 Pr1]. pose proof H2 as [O2 P2 S2 G2 A2 Oa2 Pl2 Pr2]. split; try congruence; [eauto|].
  intros k. specialize (Pr1 k). specialize (Pr2 k). destruct (in_projects i !! k) as [row|], (in_projects i' !! k) as [row'|], (in_projects i'' !! k) as [row''|]; try done.
  destruct Pr1 as (N1 & R1 & W1), Pr2 as (N2 & R2 & W2). split_and!; [congruence..|]. eapply pub_swept_trans; [|exact W1|exact W2].
  intros t c sn pol [Ht Hdue]. split; [done|]. by apply (due_before T i i').
Qed.
Lemma swept_weaken (T T' : Z -> Prop) i i' : (forall t, T t -> T' t) -> swept T i i' -> swept T' i i'.
Proof.
  intros HT [O1 P1 S1 G1 A1 Oa1 Pl1 Pr1]. split; try done. intros k. specialize (Pr1 k). destruct (in_projects i !! k) as [row|], (in_projects i' !! k) as [row'|]; try done.
  destruct Pr1 as (N1 & R1 & []). split_and!; try done. split; try done. intros c. destruct (pw_snapshots0 c) as [Heq|(sn & t & pol & Hsn & [Ht Hd] & Hr)]; [by left|].
  right. exists sn, t, pol. split_and!; try done; try apply Hr. split; [by apply HT|done].
Qed.

(** ** The constraints and the publishing invariant survive *)
Lemma inst_ok_swept T i i' : inst_ok i -> swept T i i' -> inst_ok i'.
Proof.
  intros [Io Iv Ic Ii Ie In_ Ir Ip Ipi] Hsw. split.
  - intros o r. rewrite (sp_orgs _ _ _ Hsw). apply Io.
  - intros k row' a c Hk Hret. destruct (swept_project _ _ _ _ _ Hsw Hk) as (row & Hrow & _ & Hr & _). rewrite Hr in Hret. by eapply Iv.
  - intros k row' Hk. destruct (swept_project _ _ _ _ _ Hsw Hk) as (row & Hrow & _). rewrite (sp_orgs _ _ _ Hsw). by eapply Ic.
  - intros k k' r r' c c' sn sn' Hk Hk' Hc Hc' Hid. destruct (swept_project _ _ _ _ _ Hsw Hk) as (row & Hrow & _ & _ & Hps), (swept_project _ _ _ _ _ Hsw Hk') as (row' & Hrow' & _ & _ & Hps').
    destruct (swept_snapshot Hps _ _ Hc) as (s0 & Hs0 & Hid0 & _), (swept_snapshot Hps' _ _ Hc') as (s1 & Hs1 & Hid1 & _). eapply (Ii k k'); [exact Hrow|exact Hrow'|exact Hs0|exact Hs1|congruence].
  - intros k r c sn Hk Hc. destruct (swept_project _ _ _ _ _ Hsw Hk) as (row & Hrow & _ & _ & Hps). destruct (swept_snapshot Hps _ _ Hc) as (s0 & Hs0 & _).
    unfold envExists. rewrite (pw_cat _ _ _ Hps). by eapply Ie.
  - intros k r sid key e Hk He. destruct (swept_project _ _ _ _ _ Hsw Hk) as (row & Hrow & _ & _ & Hps). apply (pw_entriesLess _ _ _ Hps) in He.
    destruct (In_ _ _ _ _ _ Hrow He) as (c & sn & Hc & <-). destruct (swept_snapshot_fwd Hps _ _ Hc) as (sn' & Hsn' & Hid & _). by exists c, sn'.
  - intros k r Hk e v sn Hsn. destruct (swept_project _ _ _ _ _ Hsw Hk) as (row & Hrow & _ & _ & Hps). destruct (swept_snapshot Hps _ _ Hsn) as (sn0 & H0 & _ & -> & -> & _). by apply (Ir k row).
  - intros o p e w pin. rewrite (sp_pins _ _ _ Hsw). intros Hpin. destruct (Ip _ _ _ _ _ Hpin) as (Hw & row & rev & sn & Hrow & Hsn & Hid). split; [done|].
    destruct (swept_project_fwd _ _ _ _ _ Hsw Hrow) as (row' & Hrow' & _ & _ & Hps). destruct (swept_snapshot_fwd Hps _ _ Hsn) as (sn' & Hsn' & Hid' & _). exists row', rev, sn'. split_and!; [done..|congruence].
  - rewrite (sp_pins _ _ _ Hsw). exact Ipi.
Qed.

Lemma effective_positive i o row k og : inst_ok i -> in_orgs i !! o = Some og -> in_projects i !! k = Some row -> 0 < rp_LastRevisions (effectivePolicy og row) /\ 0 < rp_MaxAge (effectivePolicy og row).
Proof.
  intros Hok Ho Hk. unfold effectivePolicy, Second. destruct (pj_retention row) as [[a c]|] eqn:Hr; cbn.
  - pose proof (io_overrides _ Hok _ _ _ _ Hk Hr). lia.
  - pose proof (io_orgs _ Hok _ _ Ho). lia.
Qed.

(** The newest revision is never due. *)
Lemma newest_not_due i t k env row sn policy : inst_ok i -> in_projects i !! k = Some row -> ~ due i t (k, (env, latestRevision env (pj_pub row))) sn policy.
Proof.
  intros Hok Hk [(o & row' & Ho & Hk' & -> & _ & Hr) _ _ _ _ _]. cbn in *. rewrite Hk in Hk'. injection Hk' as <-.
  pose proof (effective_positive _ _ _ _ _ Hok Ho Hk) as [Hpos _]. pose proof (newestRank_latest env (pj_pub row)). lia.
Qed.

Lemma pub_ok_swept `{FieldSealer} X T i i' k row row' : inst_ok i -> swept T i i' -> in_projects i !! k = Some row -> in_projects i' !! k = Some row' ->
  pub_ok X (pj_pub row) -> pub_ok X (pj_pub row').
Proof.
  intros Hio Hsw Hk Hk' [K Su D VI VN SI SR Co ER Ce Dr En Ch]. destruct (swept_project _ _ _ _ _ Hsw Hk') as (row0 & Hrow & _ & _ & Hps).
  rewrite Hk in Hrow. injection Hrow as <-. pose proof Hps as [Hc Hv Hp _ Ho _ Hu _ _ Hs Hg Hkp Hl].
  assert (forall c sn, pb_snapshots (pj_pub row') !! c = Some sn -> exists sn0, pb_snapshots (pj_pub row) !! c = Some sn0 /\ sn_ID sn = sn_ID sn0) as Hback.
  { intros c sn Hsn. destruct (swept_snapshot Hps _ _ Hsn) as (sn0 & H0 & Hid & _). by exists sn0. }
  split.
  - by rewrite Hc.
  - destruct Su as [Hnd Hf]. split; rewrite Hu; [done|]. intros u q Hin Hq Hused. apply (Hf u q Hin Hq). destruct Hused as [c r Hr|c n Hn|c n Hn|c r Hr Hid|c e He Hid|Hocc].
    + rewrite Hv in Hr. by eapply used_value.
    + rewrite Hp in Hn. by eapply used_draft.
    + rewrite Hp in Hn. by eapply used_baseline.
    + apply Hback in Hr as (r0 & Hr0 & Heq). eapply used_snapshot; [exact Hr0|congruence].
    + apply Hl in He. by eapply used_entry.
    + rewrite Ho in Hocc. by eapply used_occurrence.
  - unfold draft_ids. by rewrite Hp.
  - by rewrite Hv.
  - by rewrite Hv.
  - intros c c' r r' (r0 & H0 & Hi0)%Hback (r1 & H1 & Hi1)%Hback Hid. eapply SI; [exact H0|exact H1|congruence].
  - intros e r sn Hsn. destruct (swept_snapshot Hps _ _ Hsn) as (sn0 & H0 & _ & -> & -> & _). by apply SR.
  - intros e r. rewrite (swept_latest Hps). intros Hr. apply (swept_is_Some Hps). by apply Co.
  - intros sid key e He%Hl. destruct (ER _ _ _ He) as (H1 & H2 & rev & sn & Hsn & Hid). split_and!; [done..|].
    destruct (swept_snapshot_fwd Hps _ _ Hsn) as (sn' & Hsn' & Hid' & _). exists rev, sn'. split; [done|congruence].
  - rewrite Hv, Hc. exact Ce.
  - rewrite Hp. exact Dr.
  - intros c e He%Hl. by eapply En.
  - intros env. specialize (Ch env). unfold coherent in *. rewrite (swept_latest Hps), Hv, Hc.
    assert (pb_snapshots (pj_pub row') !! (env, latestRevision env (pj_pub row)) = pb_snapshots (pj_pub row) !! (env, latestRevision env (pj_pub row))) as Hsame.
    { destruct (Hs (env, latestRevision env (pj_pub row))) as [->|(sn & t & pol & _ & [_ Hdue] & _)]; [done|]. by apply newest_not_due in Hdue. }
    rewrite Hsame. destruct (pb_snapshots (pj_pub row) !! _) as [sn|] eqn:Hsn; [|done]. destruct Ch as [Hnc Hcells]. split; [done|]. intros key.
    rewrite (Hkp _ _ key Hsn Hsame). apply Hcells.
Qed.

(** ** Collecting one payload *)
Lemma count_one {A} (f : A -> bool) (l : list A) x : NoDup l -> In x l -> f x = true -> (forall y, In y l -> f y = true -> y = x) -> length (List.filter f l) = 1%nat.
Proof.
  intros Hnd Hin Hf Huniq. assert (Permutation (List.filter f l) [x]) as ->; [|done]. apply NoDup_Permutation.
  - by apply NoDup_ListNoDup, List.NoDup_filter, NoDup_ListNoDup.
  - apply NoDup_singleton.
  - intros y. rewrite !list_elem_of_In, filter_In. cbn. split; [intros [Hy Hfy]; left; symmetry; by apply Huniq|intros [<-|[]]; done].
Qed.

Section Collect.
Context (R : SweepRun) (t : Z) (c : GCEligibleSnapshot) (i : Inst).

Definition collectPub (own : bool) (p : Pub) : Pub :=
  let p := set_entries (filter (fun kv => kv.1.1 <> gc_ID c) (pb_entries p)) (set_snapshots (markSnapshot i (gc_ID c) (formatRetentionPolicy (gc_Policy c)) t <$> pb_snapshots p) p) in
  if own then set_audit (pb_audit p ++ [payloadGC R t c (formatRetentionPolicy (gc_Policy c))]) p else p.
Definition own (k : string * string) : bool := bool_decide (k = (gc_OrgID c, gc_ProjectID c)).
Definition collectInst : Inst :=
  with_projects (map_imap (fun k row => Some (with_pub (collectPub (own k)) row)) (in_projects i)) i.

Lemma collectInst_project k : in_projects collectInst !! k = with_pub (collectPub (own k)) <$> in_projects i !! k.
Proof. cbn. rewrite map_lookup_imap. by destruct (in_projects i !! k). Qed.

Context (Hok : inst_ok i) (Hc : isCandidate i t c).

Lemma marked_once : length (List.filter (fun r => (sn_ID (sw_snapshot r) =s gc_ID c) && unheld i t (sw_snapshot r)) (snapshotRows i)) = 1%nat.
Proof.
  destruct Hc as (sn & [(o & row & Ho & Hp & Hpol & Hs & Hr) Hu Ha Hpres Hself Hpin] & Hid).
  apply (count_one _ _ (MkSnapshotRow (gc_OrgID c) (gc_ProjectID c) row (gc_EnvironmentID c) (gc_Revision c) sn)).
  - apply (NoDup_fmap_1 addressOf), addresses_NoDup.
  - by apply snapshotRows_In.
  - cbn. rewrite Hid, String.eqb_refl. by apply unheld_spec.
  - intros [o' p' row' e' r' sn'] (Hp' & Hs')%snapshotRows_In [Hid'%String.eqb_eq _]%andb_true_iff. cbn in *.
    destruct (io_ids _ Hok _ _ _ _ _ _ _ _ Hp' Hp Hs' Hs) as [[= -> ->] Heq]; [congruence|]. change ((e', r') = (gc_EnvironmentID c, gc_Revision c)) in Heq.
    injection Heq as -> ->. unfold gcAddress in *. cbn in *. rewrite Hp in Hp'. injection Hp' as <-. rewrite Hs in Hs'. by injection Hs' as <-.
Qed.

(** Which snapshot the UPDATE hits. *)
Lemma mark_hit k row d sn : in_projects i !! k = Some row -> pb_snapshots (pj_pub row) !! d = Some sn ->
  markSnapshot i (gc_ID c) (formatRetentionPolicy (gc_Policy c)) t sn = if decide ((k, d) = gcAddress c) then collected t (formatRetentionPolicy (gc_Policy c)) sn else sn.
Proof.
  intros Hk Hd. destruct Hc as (sn0 & [(o & row0 & Ho & Hp & Hpol & Hs & Hr) Hu Ha Hpres Hself Hpin] & Hid). unfold markSnapshot. destruct (decide _) as [Heq|Hne].
  - rewrite <- Heq in Hp, Hs. cbn in Hp, Hs. rewrite Hk in Hp. injection Hp as <-. rewrite Hd in Hs. injection Hs as <-. rewrite Hid, String.eqb_refl.
    assert (unheld i t sn = true) as -> by (by apply unheld_spec). done.
  - destruct (String.eqb_spec (sn_ID sn) (gc_ID c)) as [Heq|]; [|done]. exfalso. apply Hne. rewrite Hid in Heq.
    destruct (io_ids _ Hok _ _ _ _ _ _ _ _ Hk Hp Hd Hs Heq) as [-> ->]. unfold gcAddress. cbn. done.
Qed.

Lemma collectPub_swept k row : in_projects i !! k = Some row -> pub_swept (gone (eq t) i k) (pj_pub row) (collectPub (own k) (pj_pub row)).
Proof.
  intros Hk. assert (forall d, pb_snapshots (collectPub (own k) (pj_pub row)) !! d =
    (fun sn => if decide ((k, d) = gcAddress c) then collected t (formatRetentionPolicy (gc_Policy c)) sn else sn) <$> pb_snapshots (pj_pub row) !! d) as Hsn.
  { intros d. transitivity (markSnapshot i (gc_ID c) (formatRetentionPolicy (gc_Policy c)) t <$> pb_snapshots (pj_pub row) !! d).
    - unfold collectPub. destruct (own k); cbn; apply lookup_fmap.
    - destruct (pb_snapshots (pj_pub row) !! d) as [sn|] eqn:Hd; [|done]. cbn. f_equal. by apply (mark_hit k row). }
  assert (pb_entries (collectPub (own k) (pj_pub row)) = filter (fun kv => kv.1.1 <> gc_ID c) (pb_entries (pj_pub row))) as Hen by (unfold collectPub; by destruct (own k)).
  pose proof Hc as (sn0 & Hdue & Hid0). pose proof Hdue as [(o & row0 & Ho & Hp & Hpol & Hs & Hr) Hu Ha Hpres Hself Hpin].
  split; try (unfold collectPub; by destruct (own k)).
  - unfold collectPub. destruct (own k); cbn; [by eexists|exists []; by rewrite app_nil_r].
  - intros d. rewrite Hsn. destruct (decide ((k, d) = gcAddress c)) as [Heq|]; [|left; by destruct (pb_snapshots (pj_pub row) !! d)].
    destruct (pb_snapshots (pj_pub row) !! d) as [sn|] eqn:Hd; [|by left]. right. exists sn, t, (gc_Policy c).
    rewrite <- Heq in Hp, Hs, Hdue. cbn in Hp, Hs. rewrite Hk in Hp. injection Hp as <-. rewrite Hd in Hs. injection Hs as <-. done.
  - intros d sn key Hd. rewrite Hsn, Hd, Hen. cbn. destruct (decide ((k, d) = gcAddress c)) as [Heq|]; [|done]. intros _.
    rewrite <- Heq in Hp, Hs. cbn in Hp, Hs. rewrite Hk in Hp. injection Hp as <-. rewrite Hd in Hs. injection Hs as <-. apply map_lookup_filter_None. right. intros e _ Hne. cbn in Hne. by apply Hne.
  - intros d sn key Hd. rewrite Hsn, Hd, Hen. cbn. intros [= Heq]. rewrite map_lookup_filter. destruct (pb_entries (pj_pub row) !! (sn_ID sn, key)) as [e|]; [|done]. cbn.
    rewrite option_guard_True; [done|]. intros Hid. rewrite Hid0 in Hid. destruct (io_ids _ Hok _ _ _ _ _ _ _ _ Hk Hp Hd Hs Hid) as [-> ->].
    rewrite decide_True in Heq by done. rewrite Hp in Hk. injection Hk as <-. rewrite Hs in Hd. injection Hd as <-. apply (f_equal sn_Collected) in Heq. cbn in Heq. congruence.
  - intros d e. rewrite Hen. by intros [? _]%map_lookup_filter_Some.
Qed.

Lemma policy_named policy : (formatRetentionPolicy policy =s "") = false.
Proof. unfold formatRetentionPolicy. by destruct (rp_Unlimited policy). Qed.

Lemma collectRow_eq : collectRow R t c i = (Ok 1, collectInst).
Proof.
  pose proof Hc as (sn & [(o & row & Ho & Hp & Hpol & Hs & Hr) Hu Ha Hpres Hself Hpin] & Hid). unfold collectRow, MarkCollected, mbind, st_bind. rewrite marked_once, policy_named. cbn.
  set (i1 := with_projects _ i). assert (isCollected i1 (gc_ID c) = true) as Hgone.
  { apply existsb_exists. exists (MkSnapshotRow (gc_OrgID c) (gc_ProjectID c) (with_pub (fun p => set_snapshots (markSnapshot i (gc_ID c) (formatRetentionPolicy (gc_Policy c)) t <$> pb_snapshots p) p) row)
      (gc_EnvironmentID c) (gc_Revision c) (collected t (formatRetentionPolicy (gc_Policy c)) sn)). split.
    - apply snapshotRows_In. cbn. rewrite !lookup_fmap. change (gc_OrgID c, gc_ProjectID c) with (gcAddress c).1. rewrite Hp. split; [done|]. change (gc_EnvironmentID c, gc_Revision c) with (gcAddress c).2.
      rewrite Hs. cbn. f_equal. rewrite (mark_hit _ _ _ _ Hp Hs). by rewrite decide_True by (by destruct (gcAddress c)).
    - cbn. rewrite Hid. by rewrite String.eqb_refl. }
  rewrite Hgone. unfold ScopedSystemAuthority. cbn. rewrite !lookup_fmap. cbn in Ho, Hp. rewrite Ho, Hp. cbn.
  pose proof (io_orgs _ Hok _ _ Ho) as [->%String.eqb_neq _].
  pose proof (io_envs _ Hok _ _ _ _ Hp Hs) as Henv. unfold envExists in *. cbn in Henv. cbn. rewrite Henv. cbn. f_equal. unfold collectInst, with_projects. cbn. f_equal.
  apply map_eq. intros k. rewrite map_lookup_imap. destruct (decide (k = (gcAddress c).1)) as [->|Hne].
  - rewrite lookup_alter_eq, !lookup_fmap, Hp. unfold own, collectPub, with_pub. cbn. rewrite bool_decide_eq_true_2 by done. by rewrite Hp.
  - change ((gcAddress c).1) with (gc_OrgID c, gc_ProjectID c) in Hne. rewrite lookup_alter_ne, !lookup_fmap by done. destruct (in_projects i !! k) as [rk|]; [|done]. unfold own, collectPub, with_pub. cbn. rewrite bool_decide_eq_false_2 by done. done.
Qed.

Lemma collectInst_swept : swept (eq t) i collectInst.
Proof.
  split; try done. intros k. rewrite collectInst_project. destruct (in_projects i !! k) as [row|] eqn:Hk; [|done]. cbn. split_and!; [done..|]. by apply collectPub_swept.
Qed.

Lemma collectInst_at a : snapAt collectInst a = (fun sn => if decide (a = gcAddress c) then collected t (formatRetentionPolicy (gc_Policy c)) sn else sn) <$> snapAt i a.
Proof.
  unfold snapAt. rewrite collectInst_project. destruct (in_projects i !! a.1) as [row|] eqn:Hk; [|done]. cbn.
  transitivity (markSnapshot i (gc_ID c) (formatRetentionPolicy (gc_Policy c)) t <$> pb_snapshots (pj_pub row) !! a.2).
  - unfold collectPub. destruct (own a.1); cbn; apply lookup_fmap.
  - destruct (pb_snapshots (pj_pub row) !! a.2) as [sn|] eqn:Hd; [|done]. cbn. f_equal. rewrite (mark_hit a.1 row a.2 sn) by done. by destruct a.
Qed.
End Collect.

(** ** Collecting a batch *)
Lemma candidate_after T i i' t c : swept T i i' -> snapAt i' (gcAddress c) = snapAt i (gcAddress c) -> isCandidate i t c -> isCandidate i' t c.
Proof.
  intros Hsw Hat (sn & Hdue & Hid). exists sn. split; [|done]. eapply due_after; [done| |done]. rewrite Hat. destruct Hdue as [(o & row & _ & Hp & _ & Hs & _) _ _ _ _ _]. apply snapAt_Some. by exists row.
Qed.

Record batch (R : SweepRun) (t : Z) (rows : list GCEligibleSnapshot) (i i' : Inst) : Prop := {
  bt_swept : swept (eq t) i i';
  bt_gone : forall c, In c rows -> exists sn, snapAt i' (gcAddress c) = Some sn /\ sn_Collected sn <> None;
  bt_kept : forall a, ~ In a (map gcAddress rows) -> snapAt i' a = snapAt i a;
  bt_lastPrune : in_lastPrune i' = in_lastPrune i;
  bt_audit : in_audit i' = in_audit i }.

Lemma collectRows_eq R t rows : forall i, inst_ok i -> NoDup (map gcAddress rows) -> (forall c, In c rows -> isCandidate i t c) ->
  exists i', collectRows R t rows i = (Ok (Z.of_nat (length rows)), i') /\ batch R t rows i i'.
Proof.
  induction rows as [|c rows IH]; intros i Hok Hnd Hcand.
  - exists i. split; [done|]. split; [apply swept_refl|by intros ? []|done..].
  - cbn in Hnd. apply NoDup_cons in Hnd as [Hno Hnd]. assert (isCandidate i t c) as Hc by (apply Hcand; by left).
    pose proof (collectInst_swept R t c i Hok Hc) as Hsw. pose proof (collectInst_at R t c i Hok Hc) as Hat. set (i1 := collectInst R t c i) in *.
    assert (forall a, a <> gcAddress c -> snapAt i1 a = snapAt i a) as Hsame by (intros a Ha; rewrite Hat; destruct (snapAt i a); [|done]; cbn; by rewrite decide_False).
    destruct (IH i1) as (i' & Hr & [B1 B2 B3 B4 B5]); [by eapply inst_ok_swept|done| |].
    { intros d Hd. eapply candidate_after; [exact Hsw| |by apply Hcand; right]. apply Hsame. intros Heq. apply Hno. rewrite <- Heq. by apply list_elem_of_In, in_map. }
    exists i'. split.
    + cbn [collectRows]. unfold mbind, st_bind. rewrite (collectRow_eq R t c i Hok Hc). fold i1. rewrite Hr. cbn [mret st_ret length]. by rewrite Nat2Z.inj_succ, <- Z.add_1_l.
    + split; [by eapply swept_trans| | |done|done].
      * intros d [<-|Hd]; [|by apply B2]. rewrite B3 by (intros Hin; apply Hno; by apply list_elem_of_In). rewrite Hat. destruct Hc as (sn & [(o & row & _ & Hp & _ & Hs & _) _ _ _ _ _] & _).
        assert (snapAt i (gcAddress c) = Some sn) as -> by (apply snapAt_Some; by exists row). cbn. rewrite decide_True by done. by eexists.
      * intros a Ha. cbn in Ha. rewrite B3 by tauto. apply Hsame. intros ->. tauto.
Qed.

(** The payloads still held. *)
Definition present (i : Inst) : list address := map addressOf (List.filter (fun r => PayloadPresent (sw_snapshot r)) (snapshotRows i)).
Lemma present_In i a : In a (present i) <-> exists sn, snapAt i a = Some sn /\ sn_Collected sn = None.
Proof.
  unfold present. rewrite in_map_iff. split.
  - intros (r & <- & [[Hp Hs]%snapshotRows_In Hpr]%filter_In). exists (sw_snapshot r). split; [apply snapAt_Some; by exists (sw_row r)|]. unfold PayloadPresent in Hpr. by destruct (sn_Collected _).
  - intros (sn & (row & Hp & Hs)%snapAt_Some & Hn). destruct a as [[o p] [e v]]. exists (MkSnapshotRow o p row e v sn). split; [done|]. apply filter_In. split; [by apply snapshotRows_In|].
    unfold PayloadPresent. cbn. by rewrite Hn.
Qed.
Lemma present_NoDup i : NoDup (present i).
Proof.
  unfold present. pose proof (addresses_NoDup i) as Hnd. induction (snapshotRows i) as [|r l IH]; [constructor|]. cbn in *. apply NoDup_cons in Hnd as [Hno Hnd].
  destruct (PayloadPresent (sw_snapshot r)); [|by apply IH]. cbn. constructor; [|by apply IH]. intros (r' & Ha & [Hin _]%filter_In)%list_elem_of_In%in_map_iff. apply Hno. rewrite <- Ha. by apply list_elem_of_In, in_map.
Qed.

Lemma batch_present R t rows i i' : NoDup (map gcAddress rows) -> (forall c, In c rows -> isCandidate i t c) -> batch R t rows i i' ->
  length (present i) = (length rows + length (present i'))%nat.
Proof.
  intros Hnd Hcand [_ B2 B3 _ _]. rewrite <- (length_map gcAddress rows), <- length_app. apply Permutation_length. apply NoDup_Permutation; [apply present_NoDup| |].
  - apply NoDup_app. split_and!; [done| |apply present_NoDup]. intros a (c & <- & Hc)%list_elem_of_In%in_map_iff (sn & Hat & Hn)%list_elem_of_In%present_In.
    destruct (B2 c Hc) as (sn' & Hat' & Hne). congruence.
  - intros a. rewrite elem_of_app, !list_elem_of_In, !present_In. destruct (in_dec (fun x y => decide (x = y)) a (map gcAddress rows)) as [Hin|Hout].
    + split; [by left|intros _]. apply in_map_iff in Hin as (c & <- & Hc). destruct (Hcand c Hc) as (sn & [(o & row & _ & Hp & _ & Hs & _) _ _ Hn _ _] & _).
      exists sn. split; [apply snapAt_Some; by exists row|done].
    + rewrite B3 by done. tauto.
Qed.

(** ** A chunk *)
Lemma swept_side T i i' : in_orgs i' = in_orgs i -> in_projects i' = in_projects i -> in_pins i' = in_pins i -> in_selfConfig i' = in_selfConfig i ->
  in_pinGenerations i' = in_pinGenerations i -> in_serviceAccounts i' = in_serviceAccounts i -> in_orgAudit i' = in_orgAudit i ->
  (forall id row, in_plans i' !! id = Some row -> in_plans i !! id = Some row) -> swept T i i'.
Proof.
  intros H1 H2 H3 H4 H5 H6 H7 H8. split; try done. intros k. rewrite H2. pose proof (sp_projects _ _ _ (swept_refl T i) k) as Hk. destruct (in_projects i !! k); done.
Qed.

Record chunk_done (R : SweepRun) (k : nat) (i i' : Inst) (rows : list GCEligibleSnapshot) : Prop := {
  cd_swept : swept (eq (CanonTime (rn_now R k))) i i';
  cd_present : length (present i) = (length rows + length (present i'))%nat;
  cd_gone : forall c, In c rows -> exists sn, snapAt i' (gcAddress c) = Some sn /\ sn_Collected sn <> None;
  cd_lastPrune : (length rows < RetentionBatchSize)%nat -> in_lastPrune i' = Some (CanonTime (rn_finish R k)) }.

Lemma sweepChunk_eq R k startedAt total candidates pruned i : inst_ok i -> exists i',
  let rows := Eligible (CanonTime (rn_now R k)) RetentionBatchSize i in
  sweepChunk R k startedAt total candidates pruned i =
    (match rn_tx R k with Some e => Err e | None => Ok (MkChunk (length rows) (Z.of_nat (length rows)) (negb pruned)) end, i') /\ chunk_done R k i i' rows.
Proof.
  intros Hok. set (now := CanonTime (rn_now R k)). cbv zeta.
  set (i0 := if pruned then i else with_plans (filter (fun kv => pw_applied kv.2 = true \/ now < pw_expires kv.2) (in_plans i)) i).
  assert (swept (eq now) i i0) as Hsw0 by (apply swept_side; unfold i0; destruct pruned; try done; cbn; by intros id row [? _]%map_lookup_filter_Some).
  assert (inst_ok i0) as Hok0 by (by eapply inst_ok_swept).
  assert (Eligible now RetentionBatchSize i0 = Eligible now RetentionBatchSize i) as Hel by (unfold i0; by destruct pruned).
  assert (present i0 = present i) as Hpr by (unfold i0; by destruct pruned).
  destruct (collectRows_eq R now (Eligible now RetentionBatchSize i0) i0) as (i1 & Hr & Hb); [done|apply Eligible_NoDup|intros c; apply Eligible_sound|].
  pose proof (batch_present _ _ _ _ _ (Eligible_NoDup _ _ _) (Eligible_sound _ _ _) Hb) as Hlen. rewrite Hel in *. rewrite Hpr in Hlen. destruct Hb as [B1 B2 B3 B4 B5].
  set (rows := Eligible now RetentionBatchSize i) in *.
  set (finished := CanonTime (rn_finish R k)). set (e := pruneRunEvent R startedAt finished (candidates + Z.of_nat (length rows)) (total + Z.of_nat (length rows)) "").
  exists (if (length rows <? RetentionBatchSize)%nat then with_instanceAudit (in_audit i1 ++ [e]) (with_lastPrune (Some finished) i1) else i1). split.
  - unfold sweepChunk, mbind, st_bind. fold now. assert (((if pruned then mret () else PruneExpiredPlans now) : ST Inst ()) i = (Ok (), i0)) as -> by (unfold i0; by destruct pruned).
    cbn [st_get]. rewrite Hel. fold rows. rewrite Hr. destruct (length rows <? RetentionBatchSize)%nat; cbn; by destruct (rn_tx R k).
  - assert (swept (eq now) i i1) as Hsw1 by (by eapply swept_trans). split.
    + destruct (_ <? _)%nat; [|done]. eapply swept_trans; [exact Hsw1|]. by apply swept_side.
    + by destruct (_ <? _)%nat.
    + intros c Hc. destruct (B2 c Hc) as (sn & Hsn & Hne). exists sn. by destruct (_ <? _)%nat.
    + intros Hlt. apply Nat.ltb_lt in Hlt. fold rows. by rewrite Hlt.
Qed.

(** ** The loop *)
Definition instants (R : SweepRun) (t : Z) : Prop := exists k, t = CanonTime (rn_now R k).

Lemma recordFailed_swept R T startedAt finishedAt n m e i e' i' : recordFailedPruneRun R startedAt finishedAt n m e i = (e', i') -> swept T i i'.
Proof. unfold recordFailedPruneRun. destruct (rn_record R); intros [= _ <-]; [apply swept_refl|by apply swept_side]. Qed.

Lemma sweepLoop_swept R fuel : forall k startedAt total candidates pruned i out i', inst_ok i -> sweepLoop R fuel k startedAt total candidates pruned i = (out, i') -> swept (instants R) i i'.
Proof.
  induction fuel as [|fuel IH]; intros k startedAt total candidates pruned i out i' Hok; cbn [sweepLoop]; [intros [= _ <-]; apply swept_refl|].
  destruct (rn_ctx R k) as [e|].
  - destruct (recordFailedPruneRun _ _ _ _ _ _ _) as [e' i1] eqn:Hrec. intros [= _ <-]. by eapply recordFailed_swept.
  - destruct (sweepChunk_eq R k startedAt total candidates pruned i Hok) as (i1 & Hch & [Hsw _ _ _]). unfold write. rewrite Hch.
    assert (swept (instants R) i i1) as Hsw1 by (eapply swept_weaken; [|exact Hsw]; intros t <-; by exists k).
    destruct (rn_tx R k) as [e|].
    + destruct (recordFailedPruneRun _ _ _ _ _ _ _) as [e' i2] eqn:Hrec. intros [= _ <-]. by eapply recordFailed_swept.
    + cbn [ck_candidates ck_collected ck_prunedPlans]. destruct (_ <? _)%nat; [by intros [= _ <-]|]. intros Hr. eapply swept_trans; [exact Hsw1|]. eapply IH; [|exact Hr]. by eapply inst_ok_swept.
Qed.

Lemma sweepLoop_completes R fuel : forall k startedAt total candidates pruned i, inst_ok i -> (forall j, rn_ctx R j = None) -> (forall j, rn_tx R j = None) -> (length (present i) < fuel)%nat ->
  exists i' j, sweepLoop R fuel k startedAt total candidates pruned i = (Swept (total + Z.of_nat (length (present i) - length (present i'))), i') /\
    in_lastPrune i' = Some (CanonTime (rn_finish R j)) /\ (forall c, ~ isCandidate i' (CanonTime (rn_now R j)) c) /\ (length (present i') <= length (present i))%nat.
Proof.
  induction fuel as [|fuel IH]; intros k startedAt total candidates pruned i Hok Hctx Htx Hfuel; [lia|]. cbn [sweepLoop]. rewrite Hctx.
  destruct (sweepChunk_eq R k startedAt total candidates pruned i Hok) as (i1 & Hch & [Hsw Hlen Hgone Hlast]). unfold write. rewrite Hch, Htx. cbn [ck_candidates ck_collected ck_prunedPlans].
  set (rows := Eligible _ _ i) in *. destruct (Nat.ltb_spec (length rows) RetentionBatchSize) as [Hlt|Hge].
  - exists i1, k. split_and!; [|by apply Hlast| |lia].
    + do 2 f_equal. lia.
    + intros c (sn & Hdue & Hid). pose proof (due_before _ _ _ _ _ _ _ Hsw Hdue) as Hdue0. assert (In c rows) as Hin by (apply Eligible_complete; [done|by exists sn]).
      destruct (Hgone c Hin) as (sn' & Hat & Hne). destruct Hdue as [(o & row & _ & Hp & _ & Hs & _) _ _ Hn _ _].
      assert (snapAt i1 (gcAddress c) = Some sn) as Hat' by (apply snapAt_Some; by exists row). congruence.
  - unfold RetentionBatchSize in Hge. destruct (IH (S k) startedAt (total + Z.of_nat (length rows)) (candidates + Z.of_nat (length rows)) (pruned || negb pruned) i1) as (i' & j & Hr & Hl & Hno & Hle); [by eapply inst_ok_swept|done|done|lia|].
    exists i', j. rewrite Hr. split_and!; [|done|done|lia]. do 2 f_equal. lia.
Qed.

(** ** Steps that leave the published rows alone

    The services of policies and pins write their own columns and tables, the
    trail, and draw identifiers. *)
Record pub_same (p p' : Pub) : Prop := {
  pm_cat : pb_cat p' = pb_cat p; pm_values : pb_values p' = pb_values p; pm_pending : pb_pending p' = pb_pending p; pm_snapshots : pb_snapshots p' = pb_snapshots p;
  pm_entries : pb_entries p' = pb_entries p; pm_occurrences : pb_occurrences p' = pb_occurrences p; pm_gate : pb_gate p' = pb_gate p;
  pm_uuids : exists us, pb_uuids p = us ++ pb_uuids p' }.
#[export] Instance pub_same_preorder : PreOrder pub_same.
Proof.
  split; [intros p; split; try done; by exists []|]. intros p q r [] []. split; try congruence. destruct pm_uuids0 as [us Hu], pm_uuids1 as [us' Hu']. exists (us ++ us'). by rewrite Hu, Hu', app_assoc.
Qed.

Lemma pub_ok_same `{FieldSealer} X p p' : pub_ok X p -> pub_same p p' -> pub_ok X p'.
Proof.
  intros Hok [Hc Hv Hp Hs He Ho _ [us Hu]]. eapply (pub_ok_less X us); [exact Hok| |done..|intros c n; by rewrite Hp]. split; [done|]. intros id Hid. left.
  destruct Hid as [c r Hr|c n Hn|c n Hn|c r Hr|c e Hr|Hocc]; rewrite ?Hv, ?Hp, ?Hs, ?He, ?Ho in *; [by eapply used_value|by eapply used_draft|by eapply used_baseline|by eapply used_snapshot|by eapply used_entry|by apply used_occurrence].
Qed.

Record framed (keep : projectRow -> projectRow -> Prop) (i i' : Inst) : Prop := {
  fr_selfConfig : in_selfConfig i' = in_selfConfig i;
  fr_projects : forall k, match in_projects i !! k, in_projects i' !! k with
     | Some row, Some row' => pj_name row' = pj_name row /\ keep row row' /\ pub_same (pj_pub row) (pj_pub row')
     | None, None => True
     | _, _ => False
     end }.
Definition sameRetention (row row' : projectRow) : Prop := pj_retention row' = pj_retention row.
(** The services of pins: the policies stay too. *)
Definition quiet (i i' : Inst) : Prop := framed sameRetention i i' /\ in_orgs i' = in_orgs i.

Lemma framed_back keep i i' k row' : framed keep i i' -> in_projects i' !! k = Some row' -> exists row, in_projects i !! k = Some row /\ keep row row' /\ pub_same (pj_pub row) (pj_pub row').
Proof. intros [_ Hp] Hk. specialize (Hp k). rewrite Hk in Hp. destruct (in_projects i !! k) as [row|]; [|done]. exists row. tauto. Qed.
Lemma framed_fwd keep i i' k row : framed keep i i' -> in_projects i !! k = Some row -> exists row', in_projects i' !! k = Some row' /\ keep row row' /\ pub_same (pj_pub row) (pj_pub row').
Proof. intros [_ Hp] Hk. specialize (Hp k). rewrite Hk in Hp. destruct (in_projects i' !! k) as [row'|]; [|done]. exists row'. tauto. Qed.

Lemma framed_same keep i i' : (forall row, keep row row) -> in_projects i' = in_projects i -> in_selfConfig i' = in_selfConfig i -> framed keep i i'.
Proof. intros Hk Hp Hs. split; [done|]. intros k. rewrite Hp. destruct (in_projects i !! k); [|done]. done. Qed.
Lemma quiet_refl i : quiet i i.
Proof. split; [|done]. by apply framed_same. Qed.
Lemma quiet_trans i i' i'' : quiet i i' -> quiet i' i'' -> quiet i i''.
Proof.
  intros [[S1 P1] O1] [[S2 P2] O2]. split; [split|]; [congruence| |congruence]. intros k. specialize (P1 k). specialize (P2 k).
  destruct (in_projects i !! k) as [row|], (in_projects i' !! k) as [row'|], (in_projects i'' !! k) as [row''|]; try done. destruct P1 as (N1 & R1 & W1), P2 as (N2 & R2 & W2).
  unfold sameRetention in *. split_and!; [congruence..|]. by etransitivity.
Qed.

Lemma quiet_snapAt i i' a : quiet i i' -> snapAt i' a = snapAt i a.
Proof.
  intros [[_ Hp] _]. specialize (Hp a.1). unfold snapAt. destruct (in_projects i !! a.1) as [row|], (in_projects i' !! a.1) as [row'|]; try done. cbn. by rewrite (pm_snapshots _ _ (proj2 (proj2 Hp))).
Qed.

Lemma inst_ok_framed keep i i' : inst_ok i -> framed keep i i' ->
  (forall o r, in_orgs i' !! o = Some r -> o <> "" /\ 0 < og_age r /\ 0 < og_count r /\ (og_mode r = "keep-if-either" \/ og_mode r = "unlimited")) ->
  (forall o, is_Some (in_orgs i !! o) -> is_Some (in_orgs i' !! o)) ->
  (forall k row a c, in_projects i' !! k = Some row -> pj_retention row = Some (a, c) -> 0 < a /\ 0 < c) ->
  (forall o p e w pin, in_pins i' !! (o, p, e, w) = Some pin -> pn_WorkloadPrincipalID pin = w /\ exists rev sn, snapAt i (o, p, (e, rev)) = Some sn /\ sn_ID sn = pn_SnapshotID pin) ->
  (forall k k' pin pin', in_pins i' !! k = Some pin -> in_pins i' !! k' = Some pin' -> pn_ID pin = pn_ID pin' -> k = k') -> inst_ok i'.
Proof.
  intros [Io Iv Ic Ii Ie In_ Ir Ip Ipi] Hf Horgs Hkeys Hover Hpins Hids. split; try done.
  - intros k row' Hk. destruct (framed_back _ _ _ _ _ Hf Hk) as (row & Hrow & _). by eapply Hkeys, Ic.
  - intros k k' r r' c c' sn sn' Hk Hk' Hc Hc' Hid. destruct (framed_back _ _ _ _ _ Hf Hk) as (row & Hrow & _ & Hs), (framed_back _ _ _ _ _ Hf Hk') as (row' & Hrow' & _ & Hs').
    rewrite (pm_snapshots _ _ Hs) in Hc. rewrite (pm_snapshots _ _ Hs') in Hc'. by eapply (Ii k k').
  - intros k r c sn Hk Hc. destruct (framed_back _ _ _ _ _ Hf Hk) as (row & Hrow & _ & Hs). rewrite (pm_snapshots _ _ Hs) in Hc. unfold envExists. rewrite (pm_cat _ _ Hs). by eapply Ie.
  - intros k r sid key e Hk He. destruct (framed_back _ _ _ _ _ Hf Hk) as (row & Hrow & _ & Hs). rewrite (pm_entries _ _ Hs) in He. rewrite (pm_snapshots _ _ Hs). by eapply In_.
  - intros k r Hk. destruct (framed_back _ _ _ _ _ Hf Hk) as (row & Hrow & _ & Hs). unfold snapshot_rows. rewrite (pm_snapshots _ _ Hs). by apply (Ir k).
  - intros o p e w pin Hpin. destruct (Hpins _ _ _ _ _ Hpin) as (Hw & rev & sn & (row & Hrow & Hsn)%snapAt_Some & Hid). split; [done|].
    destruct (framed_fwd _ _ _ _ _ Hf Hrow) as (row' & Hrow' & _ & Hs). exists row', rev, sn. rewrite (pm_snapshots _ _ Hs). done.
Qed.

(** When the policies and the pins' references stay. *)
Lemma inst_ok_quiet i i' : inst_ok i -> quiet i i' ->
  (forall o p e w pin, in_pins i' !! (o, p, e, w) = Some pin -> pn_WorkloadPrincipalID pin = w /\ exists rev sn, snapAt i (o, p, (e, rev)) = Some sn /\ sn_ID sn = pn_SnapshotID pin) ->
  (forall k k' pin pin', in_pins i' !! k = Some pin -> in_pins i' !! k' = Some pin' -> pn_ID pin = pn_ID pin' -> k = k') -> inst_ok i'.
Proof.
  intros Hok [Hf Ho] Hp Hids. eapply inst_ok_framed; [exact Hok|exact Hf| | | |done|done].
  - rewrite Ho. apply Hok.
  - by rewrite Ho.
  - intros k row' a c Hk. destruct (framed_back _ _ _ _ _ Hf Hk) as (row & Hrow & Hret & _). rewrite Hret. intros Hr. by eapply (io_overrides _ Hok).
Qed.
Lemma pins_placed i o p e w pin : inst_ok i -> in_pins i !! (o, p, e, w) = Some pin -> pn_WorkloadPrincipalID pin = w /\ exists rev sn, snapAt i (o, p, (e, rev)) = Some sn /\ sn_ID sn = pn_SnapshotID pin.
Proof. intros Hok Hpin. destruct (io_pins _ Hok _ _ _ _ _ Hpin) as (Hw & row & rev & sn & Hrow & Hsn & Hid). split; [done|]. exists rev, sn. split; [apply snapAt_Some; by exists row|done]. Qed.

(** ** Pins *)
Lemma insertTenantOf_quiet o p e i r i' : insertTenantOf o p e i = (r, i') -> quiet i i' /\ in_pins i' = in_pins i /\ in_pinGenerations i' = in_pinGenerations i.
Proof.
  unfold insertTenantOf, st_modify. intros [= _ <-]. split; [|done]. split; [|done]. split; [done|]. intros k. cbn. destruct (decide (k = (o, p))) as [->|Hne].
  - rewrite lookup_alter_eq. destruct (in_projects i !! (o, p)); [|done]. cbn. split_and!; [done..|]. split; try done. by exists [].
  - rewrite lookup_alter_ne by done. destruct (in_projects i !! k); [|done]. done.
Qed.
Lemma foldTenant_quiet {A} (f : A -> AuditEntry) o p l : forall i, let i' := foldl (fun i e => (insertTenantOf o p (f e) i).2) i l in
  quiet i i' /\ in_pins i' = in_pins i /\ in_pinGenerations i' = in_pinGenerations i.
Proof.
  induction l as [|e l IH]; intros i; cbn; [split; [apply quiet_refl|done]|]. destruct (insertTenantOf_quiet o p (f e) i _ _ eq_refl) as (Hq & Hp & Hg). destruct (IH (insertTenantOf o p (f e) i).2) as (Hq' & Hp' & Hg').
  split; [by eapply quiet_trans|]. cbn in *. by rewrite Hp', Hg'.
Qed.
Lemma onPub_newID_quiet o p prefix i id i' : onPub o p (newID prefix) i = (Ok id, i') -> quiet i i' /\ in_pins i' = in_pins i /\ in_pinGenerations i' = in_pinGenerations i.
Proof.
  unfold onPub. destruct (in_projects i !! (o, p)) as [row|] eqn:Hrow; [|discriminate]. unfold newID. destruct (pb_uuids (pj_pub row)) as [|u us] eqn:Hu; [discriminate|].
  intros [= _ <-]. split; [|done]. split; [|done]. split; [done|]. intros k. cbn. destruct (decide (k = (o, p))) as [->|Hne].
  - rewrite lookup_insert_eq, Hrow. split_and!; [done..|]. split; try done. cbn. exists [u]. by rewrite Hu.
  - rewrite lookup_insert_ne by done. destruct (in_projects i !! k); [|done]. done.
Qed.

(** What a pin that was set looks like, and what setting it left. *)
Record pin_set (X : PublishContext) (env : string) (rq : SetPinRequest) (expiresAt : Z) (target : Snapshot) (pin : RevisionPin) (i i' : Inst) : Prop := {
  st_quiet : quiet i i';
  st_target : snapAt i (px_org X, px_project X, (env, sp_Revision rq)) = Some target;
  st_present : sn_Collected target = None;
  st_pins : in_pins i' = <[ (px_org X, px_project X, env, sp_WorkloadPrincipalID rq) := pin ]> (in_pins i);
  st_snapshot : pn_SnapshotID pin = sn_ID target;
  st_workload : pn_WorkloadPrincipalID pin = sp_WorkloadPrincipalID rq;
  st_expires : pn_ExpiresAt pin = expiresAt;
  st_fresh : forall k pin', in_pins i !! k = Some pin' -> k <> (px_org X, px_project X, env, sp_WorkloadPrincipalID rq) -> pn_ID pin' <> pn_ID pin;
  st_generation : in_pinGenerations i' = <[ (sp_WorkloadPrincipalID rq, env) := PinGeneration (sp_WorkloadPrincipalID rq) env i + 1 ]> (in_pinGenerations i) }.

Lemma find_pin st id pin : List.find (fun p => pn_ID p =s id) st = Some pin -> In pin st /\ pn_ID pin = id.
Proof. intros [Hin Heq%String.eqb_eq]%find_some. done. Qed.
Lemma Pins_List_In o p e i pin : In pin (Pins_List o p e i) <-> exists w, in_pins i !! (o, p, e, w) = Some pin.
Proof.
  unfold Pins_List. rewrite sortBy_In, in_map_iff. split.
  - intros ([[[[o' p'] e'] w] pin'] & <- & [Hin Hk]%filter_In). cbn in Hk. rewrite !andb_true_iff, !String.eqb_eq in Hk. destruct Hk as [[-> ->] ->]. exists w. by apply list_elem_of_In, elem_of_map_to_list in Hin.
  - intros [w Hw]. exists (o, p, e, w, pin). split; [done|]. apply filter_In. split; [by apply list_elem_of_In, elem_of_map_to_list|]. cbn. by rewrite !String.eqb_refl.
Qed.

Lemma wrapped_Ok {A} msg (r : result A) a : wrapped msg r = Ok a -> r = Ok a.
Proof. by destruct r. Qed.

Section PinService.
Context `{FieldSealer} (X : PublishContext) (unmarshal : bytes -> result (option Contract)).

Lemma storePin_Ok env rq target now expiresAt gated override i res i' :
  snapAt i (px_org X, px_project X, (env, sp_Revision rq)) = Some target -> sn_Collected target = None ->
  storePin X env (GetForWorkload (px_org X) (px_project X) env (sp_WorkloadPrincipalID rq) i) target (sp_WorkloadPrincipalID rq) now expiresAt gated override i = (Ok res, i') ->
  pin_set X env rq expiresAt target (pv_Pin (sr_Pin res)) i i'.
Proof.
  intros Htarget Hpres. set (key := (px_org X, px_project X, env, sp_WorkloadPrincipalID rq)). unfold storePin. intros (id & i1 & Hid & Hr)%st_bind_Ok.
  destruct (onPub_newID_quiet _ _ _ _ _ _ Hid) as (Hq1 & Hp1 & Hg1). destruct (pinIdentity _ target id now) as [id' created] eqn:Hident.
  apply st_bind_Ok in Hr as (? & ? & [= <- <-] & Hr). apply st_bind_Ok in Hr as ([] & ? & [= _ <-] & Hr).
  apply st_bind_Ok in Hr as (deleted & i2 & Hdel & Hr). assert (in_pins i2 = delete key (in_pins i) /\ quiet i i2 /\ in_pinGenerations i2 = in_pinGenerations i) as (Hp2 & Hq2 & Hg2).
  { unfold GetForWorkload in Hdel. fold key in Hdel. destruct (in_pins i !! key) as [old|] eqn:Hold.
    - unfold Pins_Delete in Hdel. injection Hdel as _ <-. cbn. rewrite Hp1. split_and!; [done| |done]. eapply quiet_trans; [exact Hq1|]. split; [by apply framed_same|done].
    - injection Hdel as _ <-. rewrite delete_id by done. done. }
  destruct deleted; [|discriminate]. cbn [negb] in Hr. apply st_bind_Ok in Hr as ([] & i3 & Hins & Hr). unfold Pins_Insert in Hins. cbn [pn_WorkloadPrincipalID pn_ID] in Hins. fold key in Hins.
  destruct (bool_decide _ || idTaken pn_ID id' (in_pins i2) || _) eqn:Hcond; [discriminate|]. apply orb_false_iff in Hcond as [[_ Hfree]%orb_false_iff _]. injection Hins as <-.
  set (pin := MkPin _ _ _ _ _ _ _ _ _ _ _) in *. rewrite Hp2, insert_delete_eq in Hr.
  apply st_bind_Ok in Hr as (? & ? & [= <- <-] & Hr). apply st_bind_Ok in Hr as ([] & ? & [= <-] & Hr). apply st_bind_Ok in Hr as ([] & i5 & Hev & Hr).
  destruct (insertTenantOf_quiet _ _ _ _ _ _ Hev) as (Hq5 & Hp5 & Hg5). cbn in Hp5, Hg5. apply st_bind_Ok in Hr as (? & ? & [= <- <-] & Hr).
  apply st_bind_Ok in Hr as (st & ? & Hst & Hr). unfold st_result in Hst. injection Hst as Hst <-. destruct (List.find _ (ps_pins st)) as [listed|] eqn:Hfind; [|discriminate].
  apply st_bind_Ok in Hr as (c & ? & Hc & Hr). injection Hr as <- <-. unfold st_result in Hc. injection Hc as _ <-.
  apply find_pin in Hfind as [Hin Hlid]. apply wrapped_Ok in Hst. unfold loadPinRetentionState in Hst. apply bind_Ok in Hst as (po & _ & (ov & _ & (s & _ & [= <-])%bind_Ok)%bind_Ok). cbn [ps_pins] in Hin.
  apply Pins_List_In in Hin as [w Hw]. rewrite Hp5 in Hw. assert (forall k pin', in_pins i !! k = Some pin' -> k <> key -> pn_ID pin' <> id') as Hfresh.
  { intros k pin' Hk Hne. apply (idTaken_false _ _ _ k _ Hfree). by rewrite Hp2, lookup_delete_ne by congruence. }
  assert (listed = pin) as ->.
  { destruct (decide ((px_org X, px_project X, env, w) = key)) as [Heq|Hne]; [rewrite Heq, lookup_insert_eq in Hw; by injection Hw as <-|].
    rewrite lookup_insert_ne in Hw by congruence. by destruct (Hfresh _ _ Hw Hne). }
  cbn [sr_Pin pinView pv_Pin]. split; try done.
  - eapply quiet_trans; [exact Hq2|]. eapply quiet_trans; [|exact Hq5]. split; [by apply framed_same|done].
  - rewrite Hg5. cbn. unfold PinGeneration. cbn. by rewrite Hg2.
Qed.

Lemma setPinBody_Ok env rq now expiresAt i out i' : setPinBody X unmarshal env rq now expiresAt i = (Ok out, i') ->
  match out with
  | inl _ => quiet i i' /\ in_pins i' = in_pins i /\ in_pinGenerations i' = in_pinGenerations i
  | inr res => now < expiresAt <= now + MaxPinLifetime /\ exists target, pin_set X env rq expiresAt target (pv_Pin (sr_Pin res)) i i'
  end.
Proof.
  unfold setPinBody. intros ([] & ? & [= _ <-] & Hr)%st_bind_Ok. apply st_bind_Ok in Hr as (? & ? & [= <- <-] & Hr). apply st_bind_Ok in Hr as (s & ? & Hs & Hr). unfold st_result in Hs. injection Hs as Hs <-.
  destruct (negb _) eqn:Hexp.
  { apply st_bind_Ok in Hr as ([] & i1 & Hev & [= <- <-]). by eapply insertTenantOf_quiet. }
  assert (now < expiresAt <= now + MaxPinLifetime) as Hlife.
  { unfold expiryCause in Hexp. destruct (Z.ltb_spec now expiresAt); [|discriminate]. cbn [negb] in Hexp. destruct (Z.ltb_spec (now + MaxPinLifetime) expiresAt); [discriminate|]. lia. }
  clear Hexp. apply st_bind_Ok in Hr as (account & ? & Hac & Hr). unfold st_result in Hac. injection Hac as _ <-. destruct (negb _ || _ || _); [discriminate|].
  apply st_bind_Ok in Hr as (latest & ? & Hl & Hr). unfold st_result in Hl. injection Hl as Hl <-. apply st_bind_Ok in Hr as (target & ? & Ht & Hr). unfold st_result in Ht. injection Ht as Ht <-.
  destruct (PayloadPresent target) eqn:Hpp; [|discriminate]. cbn [negb] in Hr.
  apply st_bind_Ok in Hr as (secrets & ? & Hsec & Hr). unfold st_result in Hsec. injection Hsec as _ <-. apply st_bind_Ok in Hr as (verdict & ? & Hv & Hr). unfold st_result in Hv. injection Hv as _ <-.
  apply st_bind_Ok in Hr as ([] & i1 & [= <-] & Hr).
  destruct (foldTenant_quiet (auditSnapshotDisclosure "pin" (sn_Revision target)) (px_org X) (px_project X) secrets i) as (Hq1 & Hp1 & Hg1). set (i1 := foldl _ i secrets) in *.
  assert (snapAt i (px_org X, px_project X, (env, sp_Revision rq)) = Some target) as Hat.
  { unfold pubOf in Hs. destruct (in_projects i !! _) as [row|] eqn:Hrow; [|discriminate]. injection Hs as <-. unfold AtRevision in Ht. destruct (pb_snapshots _ !! _) eqn:Hsn; [|discriminate]. injection Ht as <-.
    apply snapAt_Some. by exists row. }
  assert (sn_Collected target = None) as Hpres by (unfold PayloadPresent in Hpp; by destruct (sn_Collected target)).
  destruct verdict as [e|override]; [injection Hr as <- <-; done|]. apply st_bind_Ok in Hr as (res & i2 & Hr & [= <- <-]). split; [done|]. exists target.
  assert (GetForWorkload (px_org X) (px_project X) env (sp_WorkloadPrincipalID rq) i = GetForWorkload (px_org X) (px_project X) env (sp_WorkloadPrincipalID rq) i1) as Hget by (unfold GetForWorkload; by rewrite Hp1).
  rewrite Hget in Hr. apply storePin_Ok in Hr as [Q T P Pi S W E F G]; [|by rewrite (quiet_snapAt _ _ _ Hq1)|done]. rewrite Hp1 in Pi, F. unfold PinGeneration in G. rewrite Hg1 in G.
  split; try done. by eapply quiet_trans.
Qed.

Lemma Pins_Set_Ok env rq i res i' : Pins_Set X unmarshal env rq i = (Ok res, i') -> let now := CanonTime (px_now X) in
  now < pn_ExpiresAt (pv_Pin (sr_Pin res)) <= now + MaxPinLifetime /\ exists target expiresAt, pin_set X env rq expiresAt target (pv_Pin (sr_Pin res)) i i'.
Proof.
  unfold Pins_Set. destruct (_ =s _); [discriminate|]. destruct (_ =s _); [discriminate|]. destruct (_ <=? _); [discriminate|]. intros ([] & ? & [= _ <-] & Hr)%st_bind_Ok.
  apply st_bind_Ok in Hr as (out & i1 & Hw & Hr). apply (proj1 (write_Ok _ _ _ _)) in Hw. apply setPinBody_Ok in Hw. destruct out as [e|r]; [discriminate|]. injection Hr as <- <-.
  destruct Hw as (Hlife & target & Hset). split; [by rewrite (st_expires _ _ _ _ _ _ _ _ Hset)|by eauto].
Qed.
End PinService.

(** ** The consequence of a release *)
Lemma effective_read o p i pol ov : Orgs_Get o i = Ok pol -> Projects_Get o p i = Ok ov -> exists og row, in_orgs i !! o = Some og /\ in_projects i !! (o, p) = Some row /\ default pol ov = effectivePolicy og row.
Proof.
  unfold Orgs_Get, Projects_Get. destruct (in_orgs i !! o) as [og|]; [|discriminate]. destruct (in_projects i !! (o, p)) as [row|]; [|discriminate]. unfold retentionPolicy, projectOverride, effectivePolicy.
  intros Ho Hp. exists og, row. split_and!; [done..|]. destruct (pj_retention row) as [[a c]|].
  - destruct ((a <=? 0) || (c <=? 0)); [discriminate|]. by injection Hp as <-.
  - injection Hp as <-. cbn. destruct ((og_age og <=? 0) || _); [discriminate|]. destruct (String.eqb_spec (og_mode og) "keep-if-either") as [->|]; [by injection Ho as <-|].
    destruct (_ =s "unlimited"); [by injection Ho as <-|discriminate].
Qed.

Lemma Snapshots_List_In env s sn : snapshot_rows s -> In sn (Snapshots_List env s) <-> pb_snapshots s !! (env, sn_Revision sn) = Some sn.
Proof.
  intros Hrows. unfold Snapshots_List. split.
  - intros Hin. apply (Permutation_in _ (isort_perm _ _)), in_map_iff in Hin as ([[e r] sn'] & <- & [Hin He]%filter_In). cbn in *. apply String.eqb_eq in He as ->.
    apply list_elem_of_In, elem_of_map_to_list in Hin. by destruct (Hrows _ _ _ Hin) as (_ & -> & _).
  - intros Hsn. apply (Permutation_in _ (Permutation_sym (isort_perm _ _))), in_map_iff. exists (env, sn_Revision sn, sn). split; [done|]. apply filter_In.
    split; [by apply list_elem_of_In, elem_of_map_to_list|apply String.eqb_refl].
Qed.

Lemma filter_map_length {A B} (g : A -> B) (f : B -> bool) l : length (List.filter f (map g l)) = length (List.filter (fun a => f (g a)) l).
Proof. induction l as [|a l IH]; [done|]. cbn. destruct (f (g a)); cbn; by rewrite IH. Qed.

Lemma listed_rank env s r : snapshot_rows s -> Z.of_nat (length (List.filter (fun sn => r <=? sn_Revision sn) (Snapshots_List env s))) = newestRank env r s.
Proof.
  intros Hrows. unfold newestRank. f_equal. rewrite <- (filter_map_length sn_Revision (fun v => r <=? v)). apply Permutation_length.
  assert (Permutation (map sn_Revision (Snapshots_List env s)) (revisionsOf env s)) as Hperm.
  { unfold Snapshots_List, revisionsOf. rewrite (Permutation_map _ (isort_perm _ _)), map_map. rewrite (map_ext_in _ (fun kv => kv.1.2)); [done|]. intros [[e v] sn] [Hin _]%filter_In.
    apply list_elem_of_In, elem_of_map_to_list in Hin. by destruct (Hrows _ _ _ Hin) as (_ & Hv & _). }
  clear Hrows. induction Hperm as [|x l l' _ IH|x y l|l l' l'' _ IH1 _ IH2]; cbn; [done| | |by etransitivity].
  - destruct (r <=? x); [by constructor|done].
  - destruct (r <=? x), (r <=? y); try done. constructor.
Qed.

(** The instance once a pin is gone. *)
Definition released (key : string * string * string * string) (i : Inst) : Inst := with_pins (delete key (in_pins i)) i.

Lemma consequence_spec i o p env w st sid pid now c : inst_ok i -> loadPinRetentionState o p env i = Ok st -> consequence st sid pid now = Ok c ->
  (forall k pin, in_pins i !! k = Some pin -> pn_ID pin = pid -> k = (o, p, env, w)) -> (forall pin, in_pins i !! (o, p, env, w) = Some pin -> pn_ID pin = pid) ->
  exists rev sn, snapAt i (o, p, (env, rev)) = Some sn /\ sn_ID sn = sid /\ (c = RetentionAlreadyCollected <-> sn_Collected sn <> None) /\
    ((exists policy, due (released (o, p, env, w) i) now (o, p, (env, rev)) sn policy) <-> c = RetentionCollectionEligible /\ forall slot, in_selfConfig i !! slot <> Some sid).
Proof.
  intros Hok Hload Hc Hown Hpid. unfold loadPinRetentionState in Hload. apply bind_Ok in Hload as (pol & Hpol & (ov & Hov & (s & Hs & [= <-])%bind_Ok)%bind_Ok).
  destruct (effective_read _ _ _ _ _ Hpol Hov) as (og & row & Hog & Hrow & Heff). unfold pubOf in Hs. rewrite Hrow in Hs. injection Hs as <-. pose proof (io_rows _ Hok _ _ Hrow) as Hrows.
  unfold consequence in Hc. cbn [ps_policy ps_snapshots ps_pins] in Hc. destruct (List.find _ _) as [sn|] eqn:Hfind; [|discriminate]. apply find_some in Hfind as [Hin Hid%String.eqb_eq].
  apply Snapshots_List_In in Hin; [|done]. exists (sn_Revision sn), sn. rewrite Heff, (listed_rank _ _ _ Hrows) in Hc. set (policy := effectivePolicy og row) in *.
  assert (snapAt i (o, p, (env, sn_Revision sn)) = Some sn) as Hat by (apply snapAt_Some; by exists row). split; [done|]. split; [done|].
  assert (forall policy', due (released (o, p, env, w) i) now (o, p, (env, sn_Revision sn)) sn policy' <-> policy' = policy /\ rp_Unlimited policy = false /\ sn_PublishedAt sn < now - rp_MaxAge policy /\
    rp_LastRevisions policy < newestRank env (sn_Revision sn) (pj_pub row) /\ sn_Collected sn = None /\ (forall slot, in_selfConfig i !! slot <> Some sid) /\
    existsb (fun pin => negb (pn_ID pin =s pid) && (pn_SnapshotID pin =s sid) && (now <? pn_ExpiresAt pin)) (Pins_List o p env i) = false) as Hdue.
  { intros policy'. split.
    - intros [(og' & row' & Hog' & Hrow' & -> & _ & Hr) Hu Ha Hn Hself Hpin]. cbn in *. rewrite Hog in Hog'. injection Hog' as <-. rewrite Hrow in Hrow'. injection Hrow' as <-. rewrite Hid in *.
      split_and!; try done. apply not_true_iff_false. intros (pin & [w' Hw]%Pins_List_In & [[Hne%negb_true_iff%String.eqb_neq Hsid%String.eqb_eq]%andb_true_iff Hlt%Z.ltb_lt]%andb_true_iff)%existsb_exists.
      assert (pn_ExpiresAt pin <= now); [|lia]. apply (Hpin (o, p, env, w')); [|done]. rewrite lookup_delete_ne; [done|]. intros [= <-]. apply Hne. by apply Hpid.
    - intros (-> & Hu & Ha & Hr & Hn & Hself & Hno). split; try done; [by exists og, row|by rewrite Hid|].
      intros [[[o' p'] e'] w'] pin Hdel Hsid. cbn in Hdel. apply lookup_delete_Some in Hdel as [Hne Hpin]. destruct (pins_placed _ _ _ _ _ _ Hok Hpin) as (_ & rev & sn' & (row' & Hrow' & Hsn')%snapAt_Some & Hid').
      cbn in Hrow', Hsn'. destruct (io_ids _ Hok _ _ _ _ _ _ _ _ Hrow' Hrow Hsn' Hin) as [[= -> ->] [= -> _]]; [congruence|].
      destruct (Z.le_gt_cases (pn_ExpiresAt pin) now) as [|Hgt]; [done|]. exfalso. apply not_true_iff_false in Hno. apply Hno. apply existsb_exists. exists pin. split; [apply Pins_List_In; by exists w'|].
      rewrite Hid in Hsid. rewrite Hsid, String.eqb_refl. assert (now <? pn_ExpiresAt pin = true) as -> by (by apply Z.ltb_lt). rewrite !andb_true_r. apply negb_true_iff, String.eqb_neq. intros Hp. by apply Hne, eq_sym, Hown with pin. }
  unfold PayloadPresent in Hc. destruct (sn_Collected sn) as [when|] eqn:Hcol.
  { injection Hc as <-. split; [done|]. split; [intros [policy' [_ (_ & _ & _ & [=] & _)]%Hdue]|intros [[=] _]]. }
  cbn [negb] in Hc. destruct (rp_Unlimited policy) eqn:Hu; cbn [orb] in Hc.
  { injection Hc as <-. split; [done|]. split; [intros [policy' (_ & [=] & _)%Hdue]|intros [[=] _]]. }
  destruct (Z.ltb_spec (sn_PublishedAt sn) (now - rp_MaxAge policy)) as [Ha|Ha]; cbn [negb] in Hc;
    [|injection Hc as <-; split; [done|]; split; [intros [policy' (_ & _ & Hlt & _)%Hdue]; lia|intros [[=] _]]].
  destruct (Z.leb_spec (newestRank env (sn_Revision sn) (pj_pub row)) (rp_LastRevisions policy)) as [Hr|Hr];
    [injection Hc as <-; split; [done|]; split; [intros [policy' (_ & _ & _ & Hlt & _)%Hdue]; lia|intros [[=] _]]|].
  destruct (existsb _ _) eqn:Hex; injection Hc as <-.
  - split; [done|]. split; [intros [policy' (_ & _ & _ & _ & _ & _ & [=])%Hdue]|intros [[=] _]].
  - split; [done|]. split; [intros [policy' (_ & _ & _ & _ & _ & Hself & _)%Hdue]; done|intros [_ Hself]; exists policy; by apply Hdue].
Qed.

(** ** Releasing *)
Record pin_released (X : PublishContext) (env w : string) (pin : RevisionPin) (res : ReleasePinResult) (i i' : Inst) : Prop := {
  re_pin : in_pins i !! (px_org X, px_project X, env, w) = Some pin;
  re_revision : rl_Revision res = pn_Revision pin;
  re_quiet : quiet i i';
  re_pins : in_pins i' = delete (px_org X, px_project X, env, w) (in_pins i);
  re_generation : in_pinGenerations i' = <[ (w, env) := PinGeneration w env i + 1 ]> (in_pinGenerations i);
  re_consequence : exists st, loadPinRetentionState (px_org X) (px_project X) env (released (px_org X, px_project X, env, w) i) = Ok st /\
     consequence st (pn_SnapshotID pin) (pn_ID pin) (CanonTime (px_now X)) = Ok (rl_Consequence res) }.

Lemma releaseBody_Ok X env w i res i' : releaseBody X env w i = (Ok res, i') -> exists pin, pin_released X env w pin res i i'.
Proof.
  unfold releaseBody. set (key := (px_org X, px_project X, env, w)). intros ([] & ? & [= _ <-] & Hr)%st_bind_Ok. apply st_bind_Ok in Hr as (? & ? & [= <- <-] & Hr).
  apply st_bind_Ok in Hr as ([] & ? & [= _ <-] & Hr). apply st_bind_Ok in Hr as ([] & ? & [= _ <-] & Hr). apply st_bind_Ok in Hr as (pin & ? & Hp & Hr). unfold st_result in Hp. injection Hp as Hp <-.
  unfold GetForWorkload in Hp. fold key in Hp. destruct (in_pins i !! key) as [pin'|] eqn:Hpin; [|discriminate]. injection Hp as ->.
  apply st_bind_Ok in Hr as (deleted & i1 & Hdel & Hr). unfold Pins_Delete in Hdel. fold key in Hdel. injection Hdel as <- <-. rewrite Hpin, bool_decide_eq_true_2 in Hr by (by eexists). cbn [negb] in Hr.
  change (with_pins _ i) with (released key i) in Hr. apply st_bind_Ok in Hr as (? & ? & [= <- <-] & Hr). apply st_bind_Ok in Hr as ([] & ? & [= _ <-] & Hr).
  apply st_bind_Ok in Hr as (st & ? & Hst & Hr). unfold st_result in Hst. injection Hst as Hst <-. apply st_bind_Ok in Hr as (c & ? & Hc & Hr). unfold st_result in Hc. injection Hc as Hc <-.
  apply st_bind_Ok in Hr as ([] & ? & [= <-] & Hr). apply st_bind_Ok in Hr as ([] & i2 & Hev & [= <- <-]). destruct (insertTenantOf_quiet _ _ _ _ _ _ Hev) as (Hq & Hp & Hg). cbn in Hp, Hg.
  apply wrapped_Ok in Hst, Hc. exists pin. split; try done.
  - eapply quiet_trans; [|exact Hq]. split; [by apply framed_same|done].
  - exists st. done.
Qed.

(** The released instance keeps the constraints. *)
Lemma inst_ok_released key i : inst_ok i -> inst_ok (released key i).
Proof.
  intros Hok. eapply inst_ok_quiet; [exact Hok|split; [by apply framed_same|done]| |].
  - intros o p e w pin Hpin. cbn in Hpin. apply lookup_delete_Some in Hpin as [_ Hpin]. by apply pins_placed.
  - intros k k' pin pin' Hk Hk'. cbn in Hk, Hk'. apply lookup_delete_Some in Hk as [_ Hk], Hk' as [_ Hk']. by apply (io_pinIDs _ Hok).
Qed.

Lemma inst_ok_pins_same i i' : inst_ok i -> quiet i i' -> (forall k pin, in_pins i' !! k = Some pin -> in_pins i !! k = Some pin) -> inst_ok i'.
Proof.
  intros Hok Hq Hp. eapply inst_ok_quiet; [exact Hok|exact Hq| |].
  - intros o p e w pin Hpin%Hp. by apply pins_placed.
  - intros k k' pin pin' Hk%Hp Hk'%Hp. by apply (io_pinIDs _ Hok).
Qed.

Lemma inst_ok_set X env rq expiresAt target pin i i' : inst_ok i -> pin_set X env rq expiresAt target pin i i' -> inst_ok i'.
Proof.
  intros Hok [Hq Ht Hn Hp Hs Hw He Hf _]. eapply inst_ok_quiet; [exact Hok|exact Hq| |].
  - intros o p e w q. rewrite Hp. intros [[[= <- <- <- <-] <-]|[Hne Hpin]]%lookup_insert_Some; [|by apply pins_placed]. split; [done|]. eauto.
  - intros k k' q q'. rewrite Hp. intros [[<- <-]|[Hne Hk]]%lookup_insert_Some [[<- <-]|[Hne' Hk']]%lookup_insert_Some Hid; [done| | |by eapply (io_pinIDs _ Hok)].
    + destruct (Hf _ _ Hk'); congruence.
    + destruct (Hf _ _ Hk); congruence.
Qed.

(** ** Policies *)
Definition capped (i : Inst) : Prop := forall o p og row a c, in_orgs i !! o = Some og -> in_projects i !! (o, p) = Some row -> pj_retention row = Some (a, c) ->
  og_mode og = "unlimited" \/ (a <= og_age og /\ c <= og_count og).

Lemma validateProjectRetention_Ok org p : validateProjectRetention org p = Ok () -> rp_Unlimited p = false /\ 0 < rp_MaxAge p /\ 0 < rp_LastRevisions p /\ Z.rem (rp_MaxAge p) Second = 0 /\
  (rp_Unlimited org = true \/ (rp_MaxAge p <= rp_MaxAge org /\ rp_LastRevisions p <= rp_LastRevisions org)).
Proof.
  unfold validateProjectRetention. destruct (rp_Unlimited p); [discriminate|]. destruct (Z.leb_spec (rp_MaxAge p) 0), (Z.leb_spec (rp_LastRevisions p) 0); try discriminate. cbn [orb].
  destruct (Z.eqb_spec (Z.rem (rp_MaxAge p) Second) 0); [|discriminate]. cbn [negb]. destruct (rp_Unlimited org); [auto 6|].
  destruct (Z.ltb_spec (rp_MaxAge org) (rp_MaxAge p)), (Z.ltb_spec (rp_LastRevisions org) (rp_LastRevisions p)); try discriminate. intros _. split_and!; auto.
Qed.

Lemma readProjects_Ok rows : forall out, readProjects rows = Ok out -> forall id row a c, In (id, row) rows -> pj_retention row = Some (a, c) -> In (id, Some (MkRetention false (a * Second) c)) out.
Proof.
  induction rows as [|[id row] rest IH]; cbn [readProjects]; intros out; [by intros _ ? ? ? ? []|]. intros (ov & Hov & (more & Hm & [= <-])%bind_Ok)%bind_Ok id' row' a c [[= <- <-]|Hin] Hret.
  - left. unfold projectOverride in Hov. rewrite Hret in Hov. destruct (_ || _); [discriminate|]. by injection Hov as <-.
  - right. by eapply IH.
Qed.
Lemma Projects_List_Ok o i out p row a c : Projects_List o i = Ok out -> in_projects i !! (o, p) = Some row -> pj_retention row = Some (a, c) -> In (p, Some (MkRetention false (a * Second) c)) out.
Proof.
  unfold Projects_List. intros Hl Hp Hret. eapply readProjects_Ok; [exact Hl| |exact Hret]. apply sortBy_In, in_map_iff. exists (o, p, row). split; [done|]. apply filter_In.
  split; [by apply list_elem_of_In, elem_of_map_to_list|apply String.eqb_refl].
Qed.
Lemma checkOverrides_Ok want projects : checkOverrides want projects = Ok () -> forall id p, In (id, Some p) projects -> validateProjectRetention want p = Ok ().
Proof.
  induction projects as [|[id [p|]] rest IH]; cbn [checkOverrides]; [by intros _ ? ? []| |].
  - destruct (validateProjectRetention want p) as [[]| |] eqn:Hv; [|discriminate..]. intros Hr id' p' [[= <- <-]|Hin]; [done|by eapply IH].
  - intros Hr id' p' [[=]|Hin]. by eapply IH.
Qed.

Lemma whole_seconds d : Z.rem d Second = 0 -> Z.quot d Second * Second = d.
Proof. intros Hr. pose proof (Z.quot_rem' d Second). lia. Qed.
Lemma seconds_le a d : 0 < d -> a * Second <= d -> a <= Z.quot d Second.
Proof. intros Hd Ha. unfold Second in *. rewrite Z.quot_div_nonneg by lia. apply Z.div_le_lower_bound; lia. Qed.

(** The columns a policy is stored in, and the policy they are read as. *)
Lemma stored_reads p : 0 < rp_MaxAge p -> 0 < rp_LastRevisions p -> Z.rem (rp_MaxAge p) Second = 0 ->
  retentionPolicy (MkOrgRow (if rp_Unlimited p then "unlimited" else "keep-if-either") (Z.quot (rp_MaxAge p) Second) (rp_LastRevisions p)) = Ok p.
Proof.
  intros Ha Hc Hw%whole_seconds. assert (0 < Z.quot (rp_MaxAge p) Second) by (unfold Second in *; lia). unfold retentionPolicy. cbn [og_age og_count og_mode].
  destruct (Z.leb_spec (Z.quot (rp_MaxAge p) Second) 0), (Z.leb_spec (rp_LastRevisions p) 0); try lia. cbn [orb]. rewrite Hw. destruct p as [[] a c]; done.
Qed.

Lemma Orgs_Get_Ok o i p : Orgs_Get o i = Ok p -> 0 < rp_MaxAge p /\ 0 < rp_LastRevisions p /\ Z.rem (rp_MaxAge p) Second = 0 /\
  exists og, in_orgs i !! o = Some og /\ rp_MaxAge p = og_age og * Second /\ rp_LastRevisions p = og_count og /\ (rp_Unlimited p = true -> og_mode og = "unlimited").
Proof.
  unfold Orgs_Get, retentionPolicy. destruct (in_orgs i !! o) as [og|]; [|discriminate]. destruct (Z.leb_spec (og_age og) 0), (Z.leb_spec (og_count og) 0); try discriminate. cbn [orb].
  destruct (String.eqb_spec (og_mode og) "keep-if-either"); [intros [= <-]|destruct (String.eqb_spec (og_mode og) "unlimited"); [intros [= <-]|discriminate]]; cbn;
    (split; [unfold Second; lia|]; split; [lia|]; split; [apply Z.rem_mul; unfold Second; lia|]; by exists og).
Qed.

Lemma SetOrg_Ok X want i out i' : inst_ok i -> capped i -> SetOrg X want i = (Ok out, i') ->
  inst_ok i' /\ capped i' /\ Orgs_Get (px_org X) i' = Ok out /\ in_projects i' = in_projects i /\ in_pins i' = in_pins i /\ in_selfConfig i' = in_selfConfig i.
Proof.
  intros Hok Hcap. unfold SetOrg. intros ([] & ? & Hv & Hr)%st_bind_Ok. unfold st_result in Hv. injection Hv as Hv <-. apply (proj1 (write_Ok _ _ _ _)) in Hr. unfold setOrgBody in Hr.
  apply st_bind_Ok in Hr as ([] & ? & [= _ <-] & Hr). apply st_bind_Ok in Hr as (? & ? & [= <- <-] & Hr). apply st_bind_Ok in Hr as (before & ? & Hb & Hr). unfold st_result in Hb. injection Hb as Hb <-.
  set (w := if rp_Unlimited want then _ else want) in Hr. destruct (Orgs_Get_Ok _ _ _ Hb) as (Hba & Hbc & Hbr & og & Hog & _).
  assert (0 < rp_MaxAge w /\ 0 < rp_LastRevisions w /\ Z.rem (rp_MaxAge w) Second = 0) as (Hwa & Hwc & Hwr).
  { unfold w. unfold validateOrgRetention in Hv. destruct (rp_Unlimited want); [done|]. destruct (Z.leb_spec (rp_MaxAge want) 0), (Z.leb_spec (rp_LastRevisions want) 0); try discriminate. cbn [orb] in Hv.
    destruct (Z.eqb_spec (Z.rem (rp_MaxAge want) Second) 0); [done|discriminate]. }
  apply st_bind_Ok in Hr as ([] & ? & Hchk & Hr). unfold st_result in Hchk. injection Hchk as Hchk <-. destruct (bool_decide_reflect (before = w)) as [Heq|Hne]; [injection Hr as <- <-; by rewrite <- Heq|].
  apply st_bind_Ok in Hr as ([] & i1 & Hset & Hr). unfold Orgs_SetRetention in Hset. rewrite Hog in Hset. cbn [og_age og_count] in Hset. destruct (_ || _) eqn:Hpos; [discriminate|]. injection Hset as <-.
  apply orb_false_iff in Hpos as [Hpa%Z.leb_gt Hpc%Z.leb_gt]. apply st_bind_Ok in Hr as ([] & ? & [= <-] & [= <- <-]). set (row := MkOrgRow _ _ _). split_and!; try done.
  - eapply (inst_ok_framed sameRetention i); [exact Hok|by apply framed_same| | | | |].
    + intros o r. cbn. intros [[<- <-]|[_ Ho]]%lookup_insert_Some; [|by apply (io_orgs _ Hok o)]. cbn. split; [exact (proj1 (io_orgs _ Hok _ _ Hog))|]. split_and!; [lia..|]. destruct (rp_Unlimited w); auto.
    + intros o Ho. cbn. rewrite lookup_insert_is_Some. destruct (decide (px_org X = o)); auto.
    + apply Hok.
    + intros o p e q pin Hpin. by apply pins_placed.
    + apply Hok.
  - intros o p og' prow a c Ho Hp Hret. cbn in Ho, Hp. apply lookup_insert_Some in Ho as [[<- <-]|[_ Ho]]; [|by eapply Hcap]. cbn. destruct (rp_Unlimited w) eqn:Hu; [by left|right].
    apply bind_Ok in Hchk as (projects & Hl & Hall). pose proof (checkOverrides_Ok _ _ Hall _ _ (Projects_List_Ok _ _ _ _ _ _ _ Hl Hp Hret)) as (_ & _ & _ & _ & Hcases)%validateProjectRetention_Ok.
    cbn in Hcases. destruct Hcases as [Hu'|[Ha Hc]]; [congruence|split; [by apply seconds_le|done]].
  - unfold Orgs_Get. cbn. rewrite lookup_insert_eq. by apply stored_reads.
Qed.

Lemma SetProject_Ok X want i out i' : inst_ok i -> capped i -> SetProject X want i = (Ok out, i') ->
  inst_ok i' /\ capped i' /\ (px_authorize X OpProjectRetentionRead "" = Ok () -> GetProject X i' = Ok out) /\ in_orgs i' = in_orgs i /\ in_pins i' = in_pins i /\ framed (fun _ _ => True) i i'.
Proof.
  intros Hok Hcap. unfold SetProject. intros Hr. apply (proj1 (write_Ok _ _ _ _)) in Hr. unfold setProjectBody in Hr. apply st_bind_Ok in Hr as ([] & ? & [= _ <-] & Hr).
  apply st_bind_Ok in Hr as (? & ? & [= <- <-] & Hr). apply st_bind_Ok in Hr as (org & ? & Ho & Hr). unfold st_result in Ho. injection Ho as Ho <-. apply st_bind_Ok in Hr as ([] & ? & Hv & Hr). unfold st_result in Hv. injection Hv as Hv <-.
  apply st_bind_Ok in Hr as (ov & ? & Hov & Hr). unfold st_result in Hov. injection Hov as Hov <-. destruct (Orgs_Get_Ok _ _ _ Ho) as (_ & _ & _ & og & Hog & Hage & Hcount & Hmode).
  destruct (bool_decide_reflect (effectiveOf org ov = effectiveOf org want)) as [Heq|Hne].
  { injection Hr as <- <-. split_and!; try done; [|by apply framed_same]. intros Hau. unfold GetProject. rewrite Hau, Ho, Hov. cbn. by rewrite Heq. }
  apply st_bind_Ok in Hr as ([] & i1 & Hset & Hr). unfold Projects_SetRetention in Hset. set (pair := _ <$> want) in Hset. destruct (in_projects i !! _) as [row|] eqn:Hrow; [|discriminate].
  destruct (match pair with Some _ => _ | None => _ end) eqn:Hpos; [discriminate|]. injection Hset as <-. apply st_bind_Ok in Hr as ([] & i2 & Hev & [= <- <-]).
  destruct (insertTenantOf_quiet _ _ _ _ _ _ Hev) as ([Hf2 Ho2] & Hp2 & _). cbn in Ho2, Hp2. set (i1 := with_projects _ i) in *.
  assert (framed (fun _ _ => True) i i2) as Hframe.
  { split; [by rewrite (fr_selfConfig _ _ _ Hf2)|]. intros k. pose proof (fr_projects _ _ _ Hf2 k) as Hk. cbn in Hk. destruct (decide (k = (px_org X, px_project X))) as [->|Hnk].
    - rewrite lookup_insert_eq in Hk. rewrite Hrow. destruct (in_projects i2 !! _); [|done]. destruct Hk as (Hn & _ & Hs). done.
    - rewrite lookup_insert_ne in Hk by done. destruct (in_projects i !! k), (in_projects i2 !! k); tauto. }
  assert (forall k row2, in_projects i2 !! k = Some row2 -> (k = (px_org X, px_project X) /\ pj_retention row2 = pair) \/ exists row0, in_projects i !! k = Some row0 /\ pj_retention row2 = pj_retention row0) as Hret.
  { intros k row2 Hk. destruct (framed_back _ _ _ _ _ Hf2 Hk) as (row1 & Hk1 & -> & _). cbn in Hk1. apply lookup_insert_Some in Hk1 as [[<- <-]|[_ Hk1]]; [by left|right; by exists row1]. }
  assert (forall a c, pair = Some (a, c) -> 0 < a /\ 0 < c /\ (og_mode og = "unlimited" \/ (a <= og_age og /\ c <= og_count og))) as Hpair.
  { intros a c Hpr. unfold pair in *. destruct want as [w|]; [|discriminate]. cbn in Hpr, Hpos. injection Hpr as <- <-. apply orb_false_iff in Hpos as [Hpa%Z.leb_gt Hpc%Z.leb_gt]. split_and!; [lia..|].
    apply validateProjectRetention_Ok in Hv as (_ & Hpos & _ & Hwr & [Hu|[Ha Hc]]); [left; by apply Hmode|right]. split; [|lia]. rewrite Hage in Ha. apply whole_seconds in Hwr. unfold Second in *. lia. }
  split_and!; try done.
  - eapply inst_ok_framed; [exact Hok|exact Hframe| | | | |].
    + rewrite Ho2. apply Hok.
    + by rewrite Ho2.
    + intros k row2 a c Hk Hr. destruct (Hret _ _ Hk) as [[_ Heq]|(row0 & Hk0 & Heq)]; rewrite Heq in Hr; [by destruct (Hpair a c Hr) as (? & ? & _)|by eapply (io_overrides _ Hok)].
    + intros o p e q pin. rewrite Hp2. by apply pins_placed.
    + rewrite Hp2. apply Hok.
  - intros o p og' row2 a c. rewrite Ho2. intros Hog' Hk Hr. destruct (Hret _ _ Hk) as [[[= -> ->] Heq]|(row0 & Hk0 & Heq)]; rewrite Heq in Hr; [|by eapply Hcap].
    rewrite Hog in Hog'. injection Hog' as <-. by apply Hpair.
  - intros Hau. unfold GetProject. rewrite Hau. cbn. unfold Orgs_Get in *. rewrite Ho2. unfold i1 in *. rewrite Ho. cbn. unfold Projects_Get, projectOverride.
    destruct (framed_fwd _ _ _ _ _ Hf2 (lookup_insert_eq _ _ _)) as (row2 & Hk2 & Hr2 & _). rewrite Hk2, Hr2. cbn. destruct pair as [[a c]|] eqn:Hpr.
    + destruct (Hpair a c eq_refl) as (Hpa & Hpc & _). destruct (Z.leb_spec a 0), (Z.leb_spec c 0); try lia. cbn. unfold pair in Hpr. destruct want as [w|]; [|discriminate]. cbn in Hpr. injection Hpr as <- <-.
      apply validateProjectRetention_Ok in Hv as (Hu & _ & _ & Hwr & _). rewrite (whole_seconds _ Hwr). by destruct w as [[] ? ?].
    + unfold pair in Hpr. destruct want; [discriminate|]. done.
Qed.

(** ** Operations as steps *)
Inductive inst_step (i i' : Inst) : Prop :=
  | inst_setOrg X want r : SetOrg X want i = (r, i') -> inst_step i i'
  | inst_setProject X want r : SetProject X want i = (r, i') -> inst_step i i'
  | inst_setPin (FS : FieldSealer) X unmarshal env rq r : Pins_Set X unmarshal env rq i = (r, i') -> inst_step i i'
  | inst_release X env w r : Pins_Release X env w i = (r, i') -> inst_step i i'
  | inst_sweep R fuel k startedAt total candidates pruned out : sweepLoop R fuel k startedAt total candidates pruned i = (out, i') -> inst_step i i'.

(** What a step keeps: the constraints, the cap, and each project's published
    state. *)
Record inst_keeps (i i' : Inst) : Prop := {
  ik_ok : inst_ok i';
  ik_capped : capped i';
  ik_projects : forall k row, in_projects i !! k = Some row -> exists row', in_projects i' !! k = Some row' /\ pb_gate (pj_pub row') = pb_gate (pj_pub row) /\
     pb_values (pj_pub row') = pb_values (pj_pub row) /\ forall (FS : FieldSealer) X, pub_ok X (pj_pub row) -> pub_ok X (pj_pub row') }.

Lemma inst_keeps_framed keep i i' : framed keep i i' -> inst_ok i' -> capped i' -> inst_keeps i i'.
Proof.
  intros Hf Hok Hcap. split; [done..|]. intros k row Hk. destruct (framed_fwd _ _ _ _ _ Hf Hk) as (row' & Hk' & _ & Hs). exists row'. split_and!; [done|apply Hs|apply Hs|]. intros FS X Hp. by eapply pub_ok_same.
Qed.
Lemma inst_keeps_refl i : inst_ok i -> capped i -> inst_keeps i i.
Proof. intros Hok Hcap. eapply (inst_keeps_framed (fun _ _ => True)); [by apply framed_same|done..]. Qed.
Lemma capped_quiet i i' : capped i -> quiet i i' -> capped i'.
Proof.
  intros Hcap [Hf Ho] o p og row' a c. rewrite Ho. intros Hog Hk Hret. destruct (framed_back _ _ _ _ _ Hf Hk) as (row & Hrow & Heq & _). rewrite Heq in Hret. by eapply Hcap.
Qed.
Lemma inst_keeps_quiet i i' : inst_ok i' -> capped i -> quiet i i' -> inst_keeps i i'.
Proof. intros Hok Hcap Hq. eapply inst_keeps_framed; [apply Hq|done|by eapply capped_quiet]. Qed.

Lemma sweep_keeps T i i' : inst_ok i -> capped i -> swept T i i' -> inst_keeps i i'.
Proof.
  intros Hok Hcap Hsw. split; [by eapply inst_ok_swept| |].
  - intros o p og row' a c. rewrite (sp_orgs _ _ _ Hsw). intros Hog Hk Hret. destruct (swept_project _ _ _ _ _ Hsw Hk) as (row & Hrow & _ & Heq & _). rewrite Heq in Hret. by eapply Hcap.
  - intros k row Hk. destruct (swept_project_fwd _ _ _ _ _ Hsw Hk) as (row' & Hk' & _ & _ & Hps). exists row'. split_and!; [done|apply Hps|apply Hps|]. intros FS X Hp. by eapply (pub_ok_swept X T i i' k).
Qed.

Lemma inst_step_keeps i i' : inst_ok i -> capped i -> inst_step i i' -> inst_keeps i i'.
Proof.
  intros Hok Hcap [X want r Hr|X want r Hr|FS X un env rq r Hr|X env w r Hr|R fuel k st t c p out Hr].
  - unfold SetOrg in Hr. destruct (st_result (validateOrgRetention want) i) as [[[]| |] i0] eqn:Hv; unfold mbind, st_bind in Hr; rewrite Hv in Hr; unfold st_result in Hv; injection Hv as Hv <-;
      [|injection Hr as _ <-; by apply inst_keeps_refl..]. pose proof Hr as Hw. apply write_inv in Hw as [->|(out & -> & _)]; [by apply inst_keeps_refl|].
    assert (SetOrg X want i = (Ok out, i')) as Hs by (unfold SetOrg, mbind, st_bind, st_result; by rewrite Hv). destruct (SetOrg_Ok _ _ _ _ _ Hok Hcap Hs) as (Hok' & Hcap' & _ & Hp & _ & Hsc).
    eapply (inst_keeps_framed (fun _ _ => True)); [by apply framed_same|done..].
  - pose proof Hr as Hw. unfold SetProject in Hw. apply write_inv in Hw as [->|(out & -> & _)]; [by apply inst_keeps_refl|].
    destruct (SetProject_Ok _ _ _ _ _ Hok Hcap Hr) as (Hok' & Hcap' & _ & _ & _ & Hf). by eapply inst_keeps_framed.
  - unfold Pins_Set in Hr. destruct (_ =s _); [injection Hr as _ <-; by apply inst_keeps_refl|]. destruct (_ =s _); [injection Hr as _ <-; by apply inst_keeps_refl|].
    destruct (_ <=? _); [injection Hr as _ <-; by apply inst_keeps_refl|]. destruct (px_authorize X OpPinSet env) as [[]| |] eqn:Hau; cbn in Hr; [|injection Hr as _ <-; by apply inst_keeps_refl..].
    unfold mbind, st_bind, st_result in Hr. destruct (write (setPinBody _ _ _ _ _ _) i) as [o i1] eqn:Hw. assert (i' = i1) as -> by (destruct o as [[]| |]; by injection Hr as _ <-). clear Hr.
    apply write_inv in Hw as [->|(out & -> & Hb)]; [by apply inst_keeps_refl|]. apply setPinBody_Ok in Hb. destruct out as [e|res].
    + destruct Hb as (Hq & Hp & _). apply inst_keeps_quiet; [|done|done]. eapply inst_ok_pins_same; [exact Hok|exact Hq|by rewrite Hp].
    + destruct Hb as (_ & target & Hset). apply inst_keeps_quiet; [by eapply inst_ok_set|done|apply Hset].
  - unfold Pins_Release in Hr. destruct (_ =s _); [injection Hr as _ <-; by apply inst_keeps_refl|]. apply write_inv in Hr as [->|(out & -> & Hb)]; [by apply inst_keeps_refl|].
    apply releaseBody_Ok in Hb as (pin & [_ _ Hq Hp _ _]). apply inst_keeps_quiet; [|done|done]. eapply inst_ok_pins_same; [exact Hok|exact Hq|]. rewrite Hp. by intros k q [_ ?]%lookup_delete_Some.
  - apply sweepLoop_swept in Hr; [|done]. by eapply sweep_keeps.
Qed.

Lemma inst_trace_keeps i i' : inst_ok i -> capped i -> rtc inst_step i i' -> inst_keeps i i'.
Proof.
  intros Hok Hcap Htr. induction Htr as [i|i i1 i' Hst _ IH]; [by apply inst_keeps_refl|]. destruct (inst_step_keeps _ _ Hok Hcap Hst) as [K1 K2 K3]. destruct (IH K1 K2) as [L1 L2 L3].
  split; [done..|]. intros k row Hk. destruct (K3 _ _ Hk) as (r1 & Hk1 & G1 & V1 & P1). destruct (L3 _ _ Hk1) as (r2 & Hk2 & G2 & V2 & P2). exists r2. split_and!; [done|congruence|congruence|]. intros FS X Hp. by apply P2, P1.
Qed.

(** ** A concrete instance

    The project of [PublishRun] after its two [stage] publishes, under an
    override that keeps one revision and one second. *)
#[local] Existing Instance transparentAEAD.
#[local] Existing Instance sealing.

Definition single (p : Pub) : Inst :=
  MkInst {[ "org" := MkOrgRow "keep-if-either" 7776000 10 ]} {[ ("org", "prj") := MkProjectRow "prj" (Some (1, 1)) p ]} ∅ ∅ ∅
    {[ "wl" := MkServiceAccount ClassWorkload "org" "prj" ]} ∅ None [] [].

Lemma single_ok X p : pub_ok X p -> forallb (fun kv => envExists p kv.1.1) (map_to_list (pb_snapshots p)) = true -> inst_ok (single p).
Proof.
  intros Hok Henv. unfold single. split; cbn.
  - intros o r [<- <-]%lookup_singleton_Some. cbn. auto with lia.
  - intros k row a c [<- <-]%lookup_singleton_Some [= <- <-]. lia.
  - intros k row [<- <-]%lookup_singleton_Some. by eexists.
  - intros k k' row row' c c' sn sn' [<- <-]%lookup_singleton_Some [<- <-]%lookup_singleton_Some Hc Hc' Hid. split; [done|]. exact (pk_snapshotIDs _ _ Hok _ _ _ _ Hc Hc' Hid).
  - intros k row c sn [<- <-]%lookup_singleton_Some Hc. rewrite forallb_forall in Henv. apply (Henv (c, sn)). by apply list_elem_of_In, elem_of_map_to_list.
  - intros k row sid key e [<- <-]%lookup_singleton_Some He. destruct (pk_entryRows _ _ Hok _ _ _ He) as (_ & _ & rev & sn & Hsn & Hid). by eexists _, sn.
  - intros k row [<- <-]%lookup_singleton_Some. exact (pk_snapshotRows _ _ Hok).
  - intros o q e w pin. by rewrite lookup_empty.
  - intros k k' pin pin'. by rewrite lookup_empty.
Qed.
Lemma single_capped p : capped (single p).
Proof. intros o q og row a c. cbn. intros [<- <-]%lookup_singleton_Some [[= <-] <-]%lookup_singleton_Some [= <- <-]. right. cbn. lia. Qed.

Definition demoPub : Pub := s9.
Definition demo : Inst := single demoPub.
Lemma demoPub_ok : project_ok (alice 1) demoPub.
Proof. apply ok_after; [exact from_start_s9|apply callers]. Qed.
Lemma demo_envs : forallb (fun kv => envExists demoPub kv.1.1) (map_to_list (pb_snapshots demoPub)) = true.
Proof. by vm_compute. Qed.
Lemma demo_ok : inst_ok demo.
Proof. exact (single_ok (alice 1) demoPub (po_pub _ _ demoPub_ok) demo_envs). Qed.

(** Five seconds on, and nothing fails. *)
Definition later : SweepRun := MkRun (fun _ => 5 * Second) (fun _ => 6 * Second) (fun _ => None) (fun _ => None) None (fun _ => "").
Definition sweep (i : Inst) : SweepOutcome * Inst := sweepLoop later 5 0 (5 * Second) 0 0 false i.
Definition emptyContract : bytes -> result (option Contract) := fun _ => Ok (Some (MkContract 0 ∅ ∅)).
(** Alice pins revision 1 for the workload; later she releases it. *)
Definition pinRequest : SetPinRequest := MkSetPin "wl" 1 None false.
Definition pinRun : result SetPinResult * Inst := Pins_Set (alice 20) emptyContract "stage" pinRequest demo.
Definition pinnedInst : Inst := pinRun.2.
Definition releaseRun : result ReleasePinResult * Inst := Pins_Release (alice (7 * Second)) "stage" "wl" pinnedInst.

Lemma pinRun_Ok : exists res, pinRun = (Ok res, pinnedInst) /\ pn_ExpiresAt (pv_Pin (sr_Pin res)) = DefaultPinLifetime.
Proof.
  assert ((fun r => pn_ExpiresAt (pv_Pin (sr_Pin r))) <$> (match pinRun.1 with Ok r => Some r | _ => None end) = Some DefaultPinLifetime) as Hr by (by vm_compute).
  unfold pinnedInst. destruct pinRun as [[r| |] i]; [|done..]. cbn in *. exists r. split; [done|]. by injection Hr.
Qed.
Lemma releaseRun_Ok : exists res, releaseRun = (Ok res, releaseRun.2) /\ rl_Consequence res = RetentionCollectionEligible.
Proof.
  assert (rl_Consequence <$> (match releaseRun.1 with Ok r => Some r | _ => None end) = Some RetentionCollectionEligible) as Hr by (by vm_compute).
  destruct releaseRun as [[r| |] i]; [|done..]. cbn in *. exists r. split; [done|]. by injection Hr.
Qed.
Lemma pinnedInst_ok : inst_ok pinnedInst.
Proof.
  destruct pinRun_Ok as (res & Hr & _). unfold pinRun in Hr. destruct (Pins_Set_Ok _ _ _ _ _ _ _ Hr) as (_ & target & expires & Hset). eapply inst_ok_set; [exact demo_ok|exact Hset].
Qed.

(** ** Claims *)
Definition entryAt (i : Inst) (k : string * string) (sid key : string) : option SnapshotEntry := in_projects i !! k ≫= fun row => pb_entries (pj_pub row) !! (sid, key).

Lemma swept_at T i i' a sn : swept T i i' -> snapAt i a = Some sn ->
  (snapAt i' a = Some sn /\ forall key, entryAt i' a.1 (sn_ID sn) key = entryAt i a.1 (sn_ID sn) key) \/
  (exists t policy, T t /\ due i t a sn policy /\ snapAt i' a = Some (collected t (formatRetentionPolicy policy) sn) /\ forall key, entryAt i' a.1 (sn_ID sn) key = None).
Proof.
  intros Hsw (row & Hrow & Hsn)%snapAt_Some. destruct (swept_project_fwd _ _ _ _ _ Hsw Hrow) as (row' & Hrow' & _ & _ & Hps). unfold snapAt, entryAt. rewrite Hrow, Hrow'. cbn.
  destruct (pw_snapshots _ _ _ Hps a.2) as [Heq|(sn0 & t & policy & Hsn0 & [Ht Hdue] & Hn & Heq)].
  - left. rewrite Heq. split; [done|]. intros key. apply (pw_entriesKept _ _ _ Hps a.2); congruence.
  - right. rewrite Hsn in Hsn0. injection Hsn0 as <-. exists t, policy. split_and!; [done|by destruct a|done|]. intros key. apply (pw_entriesGone _ _ _ Hps a.2); [done|]. rewrite Heq. intros [= Hc].
    rewrite <- Hc in Hn. done.
Qed.

(** C14. A sweep, however it ends, collects a payload only when at the instant of its
    chunk both bounds of the effective policy had passed and nothing held it: no
    self-configuration slot, no live pin. A collected snapshot keeps its lineage
    row, stamped, and loses every entry; any other keeps its row and every entry. *)
Theorem sweep_spares_what_is_held (R : SweepRun) (fuel : nat) (startedAt : Z) (i : Inst) (out : SweepOutcome) (i' : Inst) (a : address) (sn : Snapshot) :
  inst_ok i -> sweepLoop R fuel 0 startedAt 0 0 false i = (out, i') -> snapAt i a = Some sn ->
  (snapAt i' a = Some sn /\ forall key, entryAt i' a.1 (sn_ID sn) key = entryAt i a.1 (sn_ID sn) key) \/
  (exists t policy, instants R t /\ due i t a sn policy /\ snapAt i' a = Some (collected t (formatRetentionPolicy policy) sn) /\ forall key, entryAt i' a.1 (sn_ID sn) key = None).
Proof. intros Hok Hr Hat. eapply swept_at; [by eapply sweepLoop_swept|done]. Qed.

Lemma sweep_spares_what_is_held_witness : exists sn, snapAt demo ("org", "prj", ("stage", 2)) = Some sn /\
  ((snapAt (sweep demo).2 ("org", "prj", ("stage", 2)) = Some sn /\ forall key, entryAt (sweep demo).2 ("org", "prj") (sn_ID sn) key = entryAt demo ("org", "prj") (sn_ID sn) key) \/
   (exists t policy, instants later t /\ due demo t ("org", "prj", ("stage", 2)) sn policy /\ snapAt (sweep demo).2 ("org", "prj", ("stage", 2)) = Some (collected t (formatRetentionPolicy policy) sn) /\
     forall key, entryAt (sweep demo).2 ("org", "prj") (sn_ID sn) key = None)).
Proof.
  assert (is_Some (snapAt demo ("org", "prj", ("stage", 2)))) as [sn Hsn] by (apply (bool_decide_unpack _); by vm_compute). exists sn. split; [exact Hsn|].
  exact (sweep_spares_what_is_held later 5 (5 * Second) demo (sweep demo).1 (sweep demo).2 ("org", "prj", ("stage", 2)) sn demo_ok (surjective_pairing _) Hsn).
Defined.

(** C17. A sweep that is not cancelled and whose transactions commit ends: with fuel
    for the payloads still held it returns the number it collected, records its
    success, and no payload is left that was due at the instant of its last chunk. *)
Theorem sweep_collects_all_due (R : SweepRun) (fuel : nat) (startedAt : Z) (i : Inst) :
  inst_ok i -> (forall k, rn_ctx R k = None) -> (forall k, rn_tx R k = None) -> (length (present i) < fuel)%nat ->
  exists i' k, sweepLoop R fuel 0 startedAt 0 0 false i = (Swept (Z.of_nat (length (present i) - length (present i'))), i') /\
    in_lastPrune i' = Some (CanonTime (rn_finish R k)) /\ forall a sn policy, ~ due i' (CanonTime (rn_now R k)) a sn policy.
Proof.
  intros Hok Hctx Htx Hfuel. destruct (sweepLoop_completes R fuel 0 startedAt 0 0 false i Hok Hctx Htx Hfuel) as (i' & k & Hr & Hl & Hno & _). exists i', k. split; [done|]. split; [done|].
  intros [[o p] [e v]] sn policy Hdue. apply (Hno (MkCandidate (sn_ID sn) o p e v policy)). by exists sn.
Qed.

Lemma sweep_collects_all_due_witness : exists i' k, sweep demo = (Swept (Z.of_nat (length (present demo) - length (present i'))), i') /\
  in_lastPrune i' = Some (CanonTime (rn_finish later k)) /\ forall a sn policy, ~ due i' (CanonTime (rn_now later k)) a sn policy.
Proof.
  refine (sweep_collects_all_due later 5 (5 * Second) demo demo_ok (fun _ => eq_refl) (fun _ => eq_refl) _). apply Nat.ltb_lt. by vm_compute.
Defined.

(** C15. A pin holds its revision: a pin lives at most the maximum lifetime, and until
    it expires no sweep touches the snapshot it names or any of its entries. *)
Theorem pinned_revision_survives `{FieldSealer} (X : PublishContext) (unmarshal : bytes -> result (option Contract)) (env : string) (rq : SetPinRequest) (i i1 i2 : Inst) (res : SetPinResult)
    (R : SweepRun) (fuel : nat) (startedAt : Z) (out : SweepOutcome) :
  inst_ok i -> Pins_Set X unmarshal env rq i = (Ok res, i1) -> sweepLoop R fuel 0 startedAt 0 0 false i1 = (out, i2) ->
  (forall t, instants R t -> t < pn_ExpiresAt (pv_Pin (sr_Pin res))) ->
  let a := (px_org X, px_project X, (env, sp_Revision rq)) in
  CanonTime (px_now X) < pn_ExpiresAt (pv_Pin (sr_Pin res)) <= CanonTime (px_now X) + MaxPinLifetime /\
  exists target, snapAt i a = Some target /\ sn_Collected target = None /\ snapAt i2 a = Some target /\ forall key, entryAt i2 a.1 (sn_ID target) key = entryAt i a.1 (sn_ID target) key.
Proof.
  intros Hok Hset Hsweep Hlive a. destruct (Pins_Set_Ok _ _ _ _ _ _ _ Hset) as (Hlife & target & expires & Hps). split; [done|]. exists target. pose proof Hps as [Hq Ht Hn Hp Hs _ _ _ _].
  split; [done|]. split; [done|]. assert (snapAt i1 a = Some target) as Hat by (by rewrite (quiet_snapAt _ _ _ Hq)).
  assert (forall key, entryAt i1 a.1 (sn_ID target) key = entryAt i a.1 (sn_ID target) key) as Hen.
  { intros key. unfold entryAt. pose proof (fr_projects _ _ _ (proj1 Hq) a.1) as Hk. destruct (in_projects i !! a.1), (in_projects i1 !! a.1); try done. cbn. destruct Hk as (_ & _ & Hs'). by rewrite (pm_entries _ _ Hs'). }
  destruct (swept_at _ _ _ _ _ (sweepLoop_swept _ _ _ _ _ _ _ _ _ _ (inst_ok_set _ _ _ _ _ _ _ _ Hok Hps) Hsweep) Hat) as [[Hkept Hentries]|(t & policy & Hti & Hdue & _)].
  - split; [done|]. intros key. by rewrite Hentries.
  - exfalso. specialize (Hlive t Hti). pose proof (du_unpinned _ _ _ _ _ Hdue (px_org X, px_project X, env, sp_WorkloadPrincipalID rq) (pv_Pin (sr_Pin res))) as Hle.
    rewrite Hp, lookup_insert_eq in Hle. specialize (Hle eq_refl Hs). lia.
Qed.

Lemma pinned_revision_survives_witness : exists res target, pinRun = (Ok res, pinnedInst) /\ snapAt demo ("org", "prj", ("stage", 1)) = Some target /\ sn_Collected target = None /\
  snapAt (sweep pinnedInst).2 ("org", "prj", ("stage", 1)) = Some target.
Proof.
  destruct pinRun_Ok as (res & Hr & He). assert (forall t, instants later t -> t < pn_ExpiresAt (pv_Pin (sr_Pin res))) as Hlive by (intros t [k ->]; rewrite He; by vm_compute).
  pose proof Hr as Hset. unfold pinRun in Hset.
  destruct (pinned_revision_survives (alice 20) emptyContract "stage" pinRequest demo pinnedInst (sweep pinnedInst).2 res later 5 (5 * Second) (sweep pinnedInst).1 demo_ok Hset (surjective_pairing _) Hlive)
    as (_ & target & H1 & H2 & H3 & _). exists res, target. split; [exact Hr|]. split; [exact H1|]. split; [exact H2|exact H3].
Defined.

Lemma due_quiet i i' t a sn policy : quiet i i' -> in_pins i' = in_pins i -> due i t a sn policy -> due i' t a sn policy.
Proof.
  intros [Hf Ho] Hp [(o & row & Hog & Hrow & -> & Hs & Hr) Hb Hold Hn Hself Hpin]. destruct (framed_fwd _ _ _ _ _ Hf Hrow) as (row' & Hrow' & Hret & Hps).
  assert (effectivePolicy o row' = effectivePolicy o row) as Heq by (unfold effectivePolicy; by rewrite Hret). split; try done.
  - exists o, row'. rewrite Ho, Heq, (pm_snapshots _ _ Hps). split_and!; try done. erewrite newestRank_ext; [exact Hr|]. intros r. by rewrite (pm_snapshots _ _ Hps).
  - by rewrite (fr_selfConfig _ _ _ Hf).
  - by rewrite Hp.
Qed.
Lemma quiet_sym_due i i' t a sn policy : quiet i i' -> in_pins i' = in_pins i -> due i' t a sn policy -> due i t a sn policy.
Proof.
  intros [Hf Ho] Hp [(o & row' & Hog & Hrow' & -> & Hs & Hr) Hb Hold Hn Hself Hpin]. destruct (framed_back _ _ _ _ _ Hf Hrow') as (row & Hrow & Hret & Hps).
  assert (effectivePolicy o row' = effectivePolicy o row) as Heq by (unfold effectivePolicy; by rewrite Hret). rewrite Heq in *. rewrite Ho in Hog. rewrite (pm_snapshots _ _ Hps) in Hs. split; try done.
  - exists o, row. split_and!; try done. erewrite newestRank_ext; [exact Hr|]. intros r. by rewrite (pm_snapshots _ _ Hps).
  - by rewrite <- (fr_selfConfig _ _ _ Hf).
  - by rewrite <- Hp.
Qed.

(** The instance as if no self-configuration slot named a snapshot. *)
Definition unslotted (i : Inst) : Inst :=
  MkInst (in_orgs i) (in_projects i) (in_pins i) ∅ (in_pinGenerations i) (in_serviceAccounts i) (in_plans i) (in_lastPrune i) (in_orgAudit i) (in_audit i).
Lemma due_unslotted i t a sn policy : due i t a sn policy <-> due (unslotted i) t a sn policy /\ forall slot, in_selfConfig i !! slot <> Some (sn_ID sn).
Proof.
  split.
  - intros [Ho Hb Hold Hn Hself Hpin]. split; [|done]. by split.
  - intros [[Ho Hb Hold Hn _ Hpin] Hself]. by split.
Qed.
Lemma inst_ok_unslotted i : inst_ok i -> inst_ok (unslotted i).
Proof. intros []. by split. Qed.

(** C18. What a release reports, against the sweep, in an instance that satisfies
    the tables' constraints. The consequence is
    [already_collected] exactly when the payload is gone, and
    [collection_eligible] exactly when, self-configuration slots aside, a sweep at
    that instant would collect the snapshot: the payload is there, both bounds of
    the effective policy have passed and no other pin holds it. A sweep at that
    instant does collect it if and only if the release reported
    [collection_eligible] and no self-configuration slot names the snapshot: a
    slot is a hold the report does not see. *)
Theorem release_reports_the_sweep (X : PublishContext) (env w : string) (i i' : Inst) (res : ReleasePinResult) : inst_ok i -> Pins_Release X env w i = (Ok res, i') ->
  exists pin rev sn, in_pins i !! (px_org X, px_project X, env, w) = Some pin /\ rl_Revision res = pn_Revision pin /\
    snapAt i' (px_org X, px_project X, (env, rev)) = Some sn /\ sn_ID sn = pn_SnapshotID pin /\
    (rl_Consequence res = RetentionAlreadyCollected <-> sn_Collected sn <> None) /\
    (rl_Consequence res = RetentionCollectionEligible <-> exists policy, due (unslotted i') (CanonTime (px_now X)) (px_org X, px_project X, (env, rev)) sn policy) /\
    ((exists policy, due i' (CanonTime (px_now X)) (px_org X, px_project X, (env, rev)) sn policy) <->
     rl_Consequence res = RetentionCollectionEligible /\ forall slot, in_selfConfig i' !! slot <> Some (sn_ID sn)).
Proof.
  intros Hok. unfold Pins_Release. destruct (_ =s _); [discriminate|]. intros Hr. apply (proj1 (write_Ok _ _ _ _)) in Hr. apply releaseBody_Ok in Hr as (pin & [Hpin Hrev Hq Hp _ (st & Hst & Hc)]).
  set (key := (px_org X, px_project X, env, w)) in *. set (j := released key (unslotted i)). assert (quiet j (unslotted i')) as Hq'.
  { destruct Hq as [[_ Hpr] Ho]. split; [|done]. by split. }
  assert (in_pins (unslotted i') = in_pins j) as Hpj by done.
  destruct (consequence_spec j _ _ _ w _ _ _ _ _ (inst_ok_released key _ (inst_ok_unslotted i Hok)) Hst Hc) as (rev & sn & Hat & Hid & Hgone & Hdue).
  { intros k q Hk Heq. cbn in Hk. apply lookup_delete_Some in Hk as [Hne Hk]. destruct Hne. by apply (io_pinIDs _ Hok _ _ _ _ Hpin Hk). }
  { intros q Hk. cbn in Hk. fold key in Hk. by rewrite lookup_delete_eq in Hk. }
  fold key in Hdue. assert (released key j = j) as Hj by (unfold j, released, with_pins; cbn; by rewrite delete_delete_eq). rewrite Hj in Hdue.
  assert (rl_Consequence res = RetentionCollectionEligible <-> exists policy, due (unslotted i') (CanonTime (px_now X)) (px_org X, px_project X, (env, rev)) sn policy) as Helig.
  { split.
    - intros He. assert (forall slot, in_selfConfig j !! slot <> Some (pn_SnapshotID pin)) as Hno by (intros slot; cbn; by rewrite lookup_empty).
      destruct (proj2 Hdue (conj He Hno)) as [policy Hd]. exists policy. by eapply due_quiet.
    - intros [policy Hd]. apply Hdue. exists policy. by apply (quiet_sym_due _ (unslotted i')). }
  exists pin, rev, sn. split; [done|]. split; [done|]. split; [change (snapAt (unslotted i') (px_org X, px_project X, (env, rev)) = Some sn); by rewrite (quiet_snapAt _ _ _ Hq')|].
  split; [done|]. split; [done|]. split; [exact Helig|]. rewrite Helig. split.
  - intros [policy [Hd Hs]%due_unslotted]. split; [by exists policy|done].
  - intros [[policy Hd] Hs]. exists policy. by apply due_unslotted.
Qed.

Lemma release_reports_the_sweep_witness : exists res pin rev sn, releaseRun = (Ok res, releaseRun.2) /\ in_pins pinnedInst !! ("org", "prj", "stage", "wl") = Some pin /\
  snapAt releaseRun.2 ("org", "prj", ("stage", rev)) = Some sn /\ exists policy, due releaseRun.2 (7 * Second) ("org", "prj", ("stage", rev)) sn policy.
Proof.
  destruct releaseRun_Ok as (res & Hr & He). pose proof Hr as Hrel. unfold releaseRun at 1 in Hrel.
  destruct (release_reports_the_sweep (alice (7 * Second)) "stage" "wl" pinnedInst releaseRun.2 res pinnedInst_ok Hrel) as (pin & rev & sn & H1 & _ & H3 & _ & _ & _ & H6).
  exists res, pin, rev, sn. split; [exact Hr|]. split; [exact H1|]. split; [exact H3|]. apply H6. split; [exact He|]. intros slot Hs.
  assert (in_selfConfig releaseRun.2 = ∅) as Hempty by (by vm_compute). rewrite Hempty, lookup_empty in Hs. discriminate Hs.
Defined.

(** The slot of a self-configuration target holds the snapshot; the release does
    not see it. *)
Definition slotted : Inst := MkInst (in_orgs pinnedInst) (in_projects pinnedInst) (in_pins pinnedInst) {[ "desired" := "snp_e" ]} (in_pinGenerations pinnedInst) (in_serviceAccounts pinnedInst)
  (in_plans pinnedInst) (in_lastPrune pinnedInst) (in_orgAudit pinnedInst) (in_audit pinnedInst).
Definition slottedRelease : result ReleasePinResult * Inst := Pins_Release (alice (7 * Second)) "stage" "wl" slotted.

(** [consequence] does not read [self_config_retention]: it reports
    [collection_eligible] for a snapshot no sweep will collect. *)
Lemma release_overlooks_self_config :
  rl_Consequence <$> (match slottedRelease.1 with Ok r => Some r | _ => None end) = Some RetentionCollectionEligible /\
  (sweep slottedRelease.2).1 = Swept 0 /\ Eligible (7 * Second) RetentionBatchSize slottedRelease.2 = [].
Proof. vm_compute. done. Qed.

(** C16. Setting and releasing pins, changing policies and sweeping, in any order and
    whatever each returns: the constraints stand, no override exceeds the cap of
    its organization, and every project keeps the publishing invariant, its latest
    revision of each environment still delivering exactly its cells. *)
Theorem retention_keeps_publishing (i i' : Inst) : inst_ok i -> capped i -> rtc inst_step i i' ->
  inst_ok i' /\ capped i' /\
  forall (FS : FieldSealer) X row, in_projects i !! (px_org X, px_project X) = Some row -> project_ok X (pj_pub row) ->
    exists row', in_projects i' !! (px_org X, px_project X) = Some row' /\ project_ok X (pj_pub row') /\
      forall env k, delivered X (pj_pub row') env (latestRevision env (pj_pub row')) k = cellValue X (pj_pub row) env k.
Proof.
  intros Hok Hcap Htr. destruct (inst_trace_keeps _ _ Hok Hcap Htr) as [K1 K2 K3]. split; [done|]. split; [done|]. intros FS X row Hrow [Hpub Hgate].
  destruct (K3 _ _ Hrow) as (row' & Hrow' & Hg & Hv & Hp). exists row'. split; [done|]. pose proof (Hp FS X Hpub) as Hpub'. split; [split; [done|by rewrite Hg]|].
  intros env k. rewrite (latest_delivers X _ _ _ Hpub'). unfold cellValue. by rewrite Hv.
Qed.

Lemma retention_keeps_publishing_witness : rtc inst_step demo (sweep pinnedInst).2 /\
  exists row', in_projects (sweep pinnedInst).2 !! ("org", "prj") = Some row' /\ project_ok (alice 1) (pj_pub row') /\
    delivered (alice 1) (pj_pub row') "stage" (latestRevision "stage" (pj_pub row')) "key_2" = cellValue (alice 1) demoPub "stage" "key_2".
Proof.
  assert (rtc inst_step demo (sweep pinnedInst).2) as Htr.
  { apply (rtc_l _ _ pinnedInst); [eapply inst_setPin; apply surjective_pairing|]. apply rtc_once. eapply inst_sweep. apply surjective_pairing. }
  split; [exact Htr|]. destruct (retention_keeps_publishing demo (sweep pinnedInst).2 demo_ok (single_capped demoPub) Htr) as (_ & _ & Hall).
  destruct (Hall sealing (alice 1) (MkProjectRow "prj" (Some (1, 1)) demoPub) (lookup_singleton_eq _ _) demoPub_ok) as (row' & H1 & H2 & H3).
  exists row'. split; [exact H1|]. split; [exact H2|]. exact (H3 "stage" "key_2").
Defined.
